(* ===== verification/_CoqProject ===== *)
-Q . S2P
Prelude.v
JsNumber.v
JsText.v
Money.v
Schema.v
Store.v
Seats.v
Payments.v
Payout.v
Time.v
Identity.v
Segment.v
ViewToken.v
Pricing.v
Gateway.v
Licence.v
LicenceReview.v
LicenceSafe.v
Ratings.v
Rewards.v
Sessions.v
Chat.v
ChatSafe.v
Redis.v
Otp.v
SmsConfig.v
Limits.v
RideRequest.v
Booking.v
DriverBooking.v
RideOps.v
Route.v
Eligibility.v
Vehicles.v
Draft.v
Publish.v
RequestMarket.v
Deletion.v
Disputes.v
Reconciliation.v
Admin.v
Deadlines.v
Maintenance.v
Webhook.v
Invariant.v
Safe.v
DriverRides.v
Search.v
Quotes.v
Publishing.v
VehicleSafe.v
VehicleAudit.v
Drafting.v
RideSafe.v
DriverSafe.v
MarketSafe.v
Market.v
JobSafe.v
Overrides.v
DeletionSafe.v
Lifecycle.v
Accounts.v
Overdue.v
Support.v
Outcomes.v
DriverTrips.v
Trips.v
