(* ===== verification/Prelude.v ===== *)
(** * Verification library of the Deliivo carpooling backend

    The backend ([src/src]) is a TypeScript server on Express: drivers publish rides, riders
    search and book seats on a part of them, Stripe takes the money and pays the drivers,
    queues of Redis close what was left open, and administrators review licences, vehicles and
    disputes.  This library models the services behind the routes, as they are written, and
    proves what they keep and achieve.

    ** How the code is modelled

    A handler of the source is an [async] function over Prisma, Redis and Stripe.  It becomes a
    definition of the same name in the monad [M S A] of this file: state passing, with a thrown
    [Error] as [Err code], which keeps the writes made before it.  [Store] gives it the database
    (a [gmap] per table of [prisma/schema.prisma], rows in [Schema]), the log of its calls to
    the outside and the queries of Prisma ([findUnique], [updateMany], [create] with its
    uniqueness error, [transaction], which discards the writes of a callback that throws).  The
    class [Env] holds what a handler reads from outside: the clock, generated ids, settings and,
    call by call, what Stripe, mail and queues answer or fail with.  Theorems hold for every
    [Env].  Handlers over Redis run in a monad of their own: [Redis] has its commands, each one
    atomic step at a later instant; drafts of rides and vehicles are a map beside the database.
    Numbers are JavaScript's: [JsNumber] has binary64 arithmetic with its rounding, so that
    prices are computed as the source computes them; [JsText] prints them.

    Libraries the code calls are interfaces: [Codec] (HMAC, JSON, base64url), [Auth]
    (jsonwebtoken, Google), [Veriff], [Unicode] (normalisation), [PolylineCodec], [Google] (places
    and routes), [Storage] (the bucket), [OtpEnv] (Twilio), [RideZone] (time zones).  Where a
    theorem needs their documented behaviour, it is a hypothesis with a witness.

    Each handler runs to its end before the next one starts, except in [Otp] and [Limits], whose
    theorems interleave commands.  Races the code leaves open between handlers are shown by
    examples ([edit_overtakes_review] of [VehicleSafe]) where they are modelled.

    ** The parts

    - Foundations: [Prelude] (the monad, its rules [wp] and [preserves], the tactics [wp_step] and
      [preserve], sums over tables), [JsNumber], [JsText], [Schema], [Store], [Time], [Redis].
    - Prices: [Money] (booking-price, booking-payment-split, booking-cancellation-policy),
      [Pricing] (modules/pricing, stopover-pricing), [Segment] and [ViewToken] (segment-view,
      view-token), [Route] (polylines and distances).
    - Money: [Payments] (payment.service, ledger.service, payment-outbox.worker), [Payout],
      [Gateway] (Stripe intents, codes, deadline jobs), [Webhook] (stripe.webhook.controller),
      [Reconciliation], [Rewards].
    - Bookings: [Seats] (segment-capacity), [Booking] (ride-booking.service), [DriverBooking]
      (driver-booking.service), [RideRequest] (a request at its checkout), [Deadlines]
      (deadline.queue, booking-deadline-checker), [Maintenance] (maintenance.queue), [Admin].
    - Rides: [Eligibility], [Draft] and [Publish] (driver-eligibility, draft-ride), [DriverRides]
      (publish-ride.service), [Search] (search-ride.service), [RequestMarket]
      (ride-request.service), [RideOps] (modules/ride-operations, tracking links, one-time codes,
      opening a dispute), [Disputes].
    - People: [Sessions] (modules/auth, modules/token, the guards of the routes), [Otp],
      [SmsConfig] and [Limits] (modules/sms, rateLimit), [Identity] (nameMatch), [Licence] and
      [LicenceReview] (modules/dl-verification), [Vehicles] (modules/vehicles), [Ratings], [Chat]
      (modules/chat, the synchronisation of socket/index), [Deletion] (user-gdpr.service).

    A component's file holds its data, its operations in the order of the source and the lemmas
    the others use.  They call each other as the code does: a payment of [Webhook] is applied by
    [Booking], which takes seats through [Seats], records money through [Payments] and confirms
    offers through [RideRequest]; jobs, administrators and the deletion of an account reach the
    same definitions.

    ** What is proved

    - The life of a booking.  [Invariant] states [Good] (seats agree with the bookings that hold
      them) and [Ext] (bookings only move forward), and what it is for a handler to be [safe].
      Both have a [Mode] ([Seats]).  Under [exactly] the counters are exact and statuses move
      along their table: [Safe], [RideSafe], [DriverSafe], [MarketSafe], [JobSafe] and
      [DeletionSafe] show it handler by handler.  The driver's override, the administrator's
      refund, the settlement of disputes and the cancellation of a whole ride break that;
      [Overrides] shows that they still keep the invariant under [loosely], where counters
      may only err on the side of the passengers.  [Lifecycle] composes them: in no run is a
      ride oversold, and no booking disappears or returns to waiting for its payment; in runs
      of ordinary requests the counters are exact and closed bookings are final.
    - Outcomes.  [Outcomes], [Trips], [Overdue], [Support], [DriverTrips] and [Accounts] say what
      payments, cancellations, deadlines, the steps of a trip, the job on overdue rides, support
      and the deletion of an account achieve and leave, and where the code loses a payment or a
      refund.
    - Money.  Splits add up to the cent and refunds stay within what was paid ([Money]); the
      outbox ends with every event settled ([Payments]); payouts transfer the net fares
      ([Payout]) and nothing of a fare in dispute ([Support]); settlements and administrators
      refund a payment once ([Support]), the evaluation of a dispute is exact ([Disputes]); a repair of
      reconciliation, and what the code's balance check really sees ([Reconciliation]); the
      rewards ledger ([Rewards]).
    - Publishing and searching.  [Drafting] (drafts stay well formed), [Publishing] (all or
      nothing, bookable, no overlap of routes of at most a day), [Search], [Quotes] (the price shown is the price charged),
      [Route] (polylines round-trip, progress stays on the route), [Market] (a request is
      matched once, strangers see only their offers).
    - People.  [Identity] (the comparison is exact), [LicenceSafe] (signed webhooks, approvals that
      stand), [VehicleSafe] and [VehicleAudit] (an approved vehicle is the reviewed one, saved
      drafts are complete, the audit of documents ends or provably does not), [Sessions] (spent
      tokens), [Otp] and [Limits] (bounds on guesses and messages), [Ratings], [ChatSafe].

    ** Bounds and fuel

    Recursion is structural but for loops of the source that have no bound.  [auditLoop] of
    [Vehicles] has a number of rounds: more rounds than due rows are enough, and there are runs
    for which no number is.  [allPages] of [ChatSafe] follows cursors for more steps than there
    are messages.  [shortest] of [JsText] tries up to 17 digits, which always identify a binary64
    number; [decodeFrom] and [encodeGroups] of [Route] have the length of the text and the bits
    of a coordinate on earth, as the round trip shows.  Strings are UTF-8 texts; where the source
    counts UTF-16 units or changes case, the definition says for which characters it is exact.

    ** What is not modelled

    The hard deletion of an account, which erases every row of a user (behind a setting), so also
    rides and bookings; failures of Redis for drafts of rides.  HTTP itself (routes, validators, the mapping of errors to statuses, Express middleware);
    presentation (the lists of a rider's bookings, receipts, the administrator's lists and
    statistics, texts of messages); the live events and presence of sockets; notifications
    beyond the fact that one was sent; uploads and the storage service beyond keys and questions
    to the bucket; profiles, locations and preferences of users, content pages, maps and fuel
    prices, the tracker; Stripe Connect's onboarding; caches; the scripts and tests.  The
    manifest lists each with its reason. *)

From stdpp Require Import base list option strings gmap.
From Stdlib Require Import ZArith Lia.

(** ** Results and the handler monad

    A handler of the backend is an [async] function that reads and writes the
    store, performs external calls and either returns or throws an [Error]
    whose message is a code.  [M S A] is such a computation over the state [S]:
    a thrown error keeps the writes made before it, as a handler outside a
    transaction does. *)
Inductive Res (A : Type) : Type :=
| Ok (a : A)
| Err (code : string).

Arguments Ok {A} a.
Arguments Err {A} code.

Definition M (S A : Type) : Type := S -> S * Res A.

#[export] Instance M_ret {S} : MRet (M S) := fun A a s => (s, Ok a).

#[export] Instance M_bind {S} : MBind (M S) := fun A B k m s =>
  match m s with
  | (s', Ok a) => k a s'
  | (s', Err e) => (s', Err e)
  end.

Definition throw {S A} (code : string) : M S A := fun s => (s, Err code).

Definition get {S A} (f : S -> A) : M S A := fun s => (s, Ok (f s)).

Definition modify {S} (f : S -> S) : M S unit := fun s => (f s, Ok tt).

(** [try { m } catch (e) { h e }] *)
Definition try_catch {S A} (m : M S A) (h : string -> M S A) : M S A := fun s =>
  match m s with
  | (s', Err e) => h e s'
  | r => r
  end.

(** [if (b) throw new Error(code)] *)
Definition throw_if {S} (b : bool) (code : string) : M S unit :=
  if b then throw code else mret tt.

(** [if (b) m] for a statement *)
Definition when {S} (b : bool) (m : M S unit) : M S unit := if b then m else mret tt.

(** ** Record update

    [r <| field := v |>] is the object spread [{ ...r, field: v }] of a row.
    The setter of a projection is computed from an eta-expansion of the record:
    the occurrence of [field r] in it is abstracted and replaced. *)
Class Eta (R : Type) := eta : R -> R.
Class Setter {R T : Type} (proj : R -> T) := setf : (T -> T) -> R -> R.
Arguments setf {R T} proj {_} f r.

Ltac solve_setter :=
  lazymatch goal with
  | |- @Setter ?R ?T ?proj =>
      let i := constr:(_ : Eta R) in
      let f := fresh "f" in let r := fresh "r" in
      red; intros f r;
      let e := eval red in (i r) in
      lazymatch eval pattern (proj r) in e with
      | ?g _ => let b := eval cbv beta in (g (f (proj r))) in exact b
      end
  end.
#[export] Hint Extern 1 (Setter _) => solve_setter : typeclass_instances.

#[warnings="-postfix-notation-not-level-1"]
Notation "r <| p := v |>" := (setf p (fun _ => v) r)
  (at level 12, left associativity, p at level 1, v at level 99, format "r <| p  :=  v |>").
#[warnings="-postfix-notation-not-level-1"]
Notation "r <| p ::= f |>" := (setf p f r)
  (at level 12, left associativity, p at level 1, f at level 99, format "r <| p  ::=  f |>").

(** [for (const x of l) m x] *)
Fixpoint for_each {S A} (l : list A) (m : A -> M S unit) : M S unit :=
  match l with
  | [] => mret tt
  | x :: l' => m x;; for_each l' m
  end.

(** ** Strings and lists of JavaScript *)

Definition toLowerAscii (c : Ascii.ascii) : Ascii.ascii :=
  let n := Ascii.nat_of_ascii c in
  if (65 <=? n)%nat && (n <=? 90)%nat then Ascii.ascii_of_nat (n + 32) else c.
Definition toUpperAscii (c : Ascii.ascii) : Ascii.ascii :=
  let n := Ascii.nat_of_ascii c in
  if (97 <=? n)%nat && (n <=? 122)%nat then Ascii.ascii_of_nat (n - 32) else c.

Fixpoint string_map (f : Ascii.ascii -> Ascii.ascii) (s : string) : string :=
  match s with
  | EmptyString => EmptyString
  | String c s' => String (f c) (string_map f s')
  end.

(** On the letters A-Z and a-z, the only ones in currency codes. *)
Definition toLowerCase : string -> string := string_map toLowerAscii.
Definition toUpperCase : string -> string := string_map toUpperAscii.

(** [s.includes(sub)] *)
Fixpoint includes (sub s : string) : bool :=
  String.prefix sub s || match s with EmptyString => false | String _ s' => includes sub s' end.

(** [if (s)] for a string that may be missing: the empty string is falsy. *)
Definition truthy (s : option string) : option string :=
  match s with Some EmptyString => None | s => s end.

(** [orderBy: { key: 'asc' }], equal keys in the given order. *)
Fixpoint insert_by {A} (key : A -> Z) (x : A) (l : list A) : list A :=
  match l with
  | [] => [x]
  | y :: l' => if (key x <=? key y)%Z then x :: l else y :: insert_by key x l'
  end.
Definition sort_by {A} (key : A -> Z) (l : list A) : list A := foldr (insert_by key) [] l.

(** [orderBy: { key: 'desc' }] *)
Definition sort_desc {A} (key : A -> Z) : list A -> list A := sort_by (fun x => (- key x)%Z).

(** [l.sort(compare)], stable, by a total preorder. *)
Fixpoint insert_le {A} (le : A -> A -> bool) (x : A) (l : list A) : list A :=
  match l with
  | [] => [x]
  | y :: l' => if le x y then x :: l else y :: insert_le le x l'
  end.
Definition sort_le {A} (le : A -> A -> bool) (l : list A) : list A := foldr (insert_le le) [] l.

Lemma insert_le_perm {A} (le : A -> A -> bool) x l : insert_le le x l ≡ₚ x :: l.
Proof.
  induction l as [|y l IH]; cbn; [reflexivity|]. destruct (le x y); [reflexivity|].
  rewrite IH. apply Permutation_swap.
Qed.

Lemma sort_le_perm {A} (le : A -> A -> bool) l : sort_le le l ≡ₚ l.
Proof. induction l as [|x l IH]; cbn; [reflexivity|]. rewrite insert_le_perm, IH. reflexivity. Qed.

Lemma insert_by_perm {A} (key : A -> Z) x l : insert_by key x l ≡ₚ x :: l.
Proof.
  induction l as [|y l IH]; cbn; [reflexivity|]. destruct (_ <=? _)%Z; [reflexivity|].
  rewrite IH. apply Permutation_swap.
Qed.

Lemma sort_by_perm {A} (key : A -> Z) l : sort_by key l ≡ₚ l.
Proof. induction l as [|x l IH]; cbn; [reflexivity|]. rewrite insert_by_perm, IH. reflexivity. Qed.

(** ** Reasoning about handlers *)

(** [wp m Q s]: running [m] from [s] ends in a state and a result satisfying [Q]. *)
Definition wp {S A} (m : M S A) (Q : S -> Res A -> Prop) (s : S) : Prop :=
  Q (m s).1 (m s).2.

(** [preserves I m]: [m] keeps the invariant [I] whether it returns or throws. *)
Definition preserves {S A} (I : S -> Prop) (m : M S A) : Prop := forall s, I s -> I (m s).1.

Section handlers.
Context {S : Type}.

Lemma bind_run {A B} (m : M S A) (k : A -> M S B) (s : S) :
  (m ≫= k) s = match (m s).2 with Ok a => k a (m s).1 | Err e => ((m s).1, Err e) end.
Proof. unfold mbind, M_bind. destruct (m s) as [s' [a|e]]; reflexivity. Qed.

Lemma bind_Ok {A B} (m : M S A) (k : A -> M S B) (s s' : S) (a : A) :
  m s = (s', Ok a) -> (m ≫= k) s = k a s'.
Proof. intros E. unfold mbind, M_bind. rewrite E. reflexivity. Qed.

Lemma bind_Err {A B} (m : M S A) (k : A -> M S B) (s s' : S) (e : string) :
  m s = (s', Err e) -> (m ≫= k) s = (s', Err e).
Proof. intros E. unfold mbind, M_bind. rewrite E. reflexivity. Qed.

Lemma bind_inv {A B} (m : M S A) (k : A -> M S B) (s s'' : S) (b : B) :
  (m ≫= k) s = (s'', Ok b) -> exists a s', m s = (s', Ok a) /\ k a s' = (s'', Ok b).
Proof.
  unfold mbind, M_bind. destruct (m s) as [s' [a|e]]; [eauto | intros [=]].
Qed.

Lemma wp_bind {A B} (m : M S A) (k : A -> M S B) Q s :
  wp m (fun s' r => match r with Ok a => wp (k a) Q s' | Err e => Q s' (Err e) end) s ->
  wp (m ≫= k) Q s.
Proof. unfold wp, mbind, M_bind. destruct (m s) as [s' [a|e]]; exact id. Qed.

Lemma wp_mono {A} (m : M S A) (Q Q' : S -> Res A -> Prop) s :
  wp m Q s -> (forall s' r, Q s' r -> Q' s' r) -> wp m Q' s.
Proof. unfold wp. auto. Qed.

Lemma wp_ret {A} (a : A) Q (s : S) : Q s (Ok a) -> wp (mret a) Q s.
Proof. exact id. Qed.

Lemma wp_throw {A} (e : string) (Q : S -> Res A -> Prop) (s : S) : Q s (Err e) -> wp (throw e) Q s.
Proof. exact id. Qed.

Lemma wp_get {A} (f : S -> A) Q (s : S) : Q s (Ok (f s)) -> wp (get f) Q s.
Proof. exact id. Qed.

Lemma wp_modify (f : S -> S) Q (s : S) : Q (f s) (Ok tt) -> wp (modify f) Q s.
Proof. exact id. Qed.

Lemma wp_try_catch {A} (m : M S A) h Q s :
  wp m (fun s' r => match r with Ok a => Q s' (Ok a) | Err e => wp (h e) Q s' end) s ->
  wp (try_catch m h) Q s.
Proof. unfold wp, try_catch. destruct (m s) as [s' [a|e]]; exact id. Qed.

Lemma wp_throw_if (b : bool) e Q (s : S) :
  (b = true -> Q s (Err e)) -> (b = false -> Q s (Ok tt)) -> wp (throw_if b e) Q s.
Proof. unfold wp. destruct b; cbn; auto. Qed.

Lemma wp_when (b : bool) (m : M S unit) Q s :
  (b = true -> wp m Q s) -> (b = false -> Q s (Ok tt)) -> wp (when b m) Q s.
Proof. unfold wp. destruct b; cbn; auto. Qed.

(** The postcondition may use the equation of the run. *)
Lemma wp_run {A} (m : M S A) Q s : (forall s' r, m s = (s', r) -> Q s' r) -> wp m Q s.
Proof. unfold wp. destruct (m s). auto. Qed.

Lemma wp_both {A} (m : M S A) Q Q' (s : S) : wp m Q s -> wp m Q' s -> wp m (fun s' r => Q s' r /\ Q' s' r) s.
Proof. unfold wp. destruct (m s). auto. Qed.

Lemma preserves_wp {A} (I : S -> Prop) (m : M S A) :
  (forall s, I s -> wp m (fun s' _ => I s') s) -> preserves I m.
Proof. exact id. Qed.

Lemma wp_preserves {A} (I : S -> Prop) (m : M S A) Q s :
  preserves I m -> I s -> (forall s' r, I s' -> Q s' r) -> wp m Q s.
Proof. intros Hm Hs HQ. apply HQ, Hm, Hs. Qed.

Lemma preserves_ret {A} I (a : A) : preserves (S:=S) I (mret a).
Proof. intros s H. exact H. Qed.

Lemma preserves_throw {A} I e : preserves (S:=S) I (throw (A:=A) e).
Proof. intros s H. exact H. Qed.

Lemma preserves_get {A} I (f : S -> A) : preserves I (get f).
Proof. intros s H. exact H. Qed.

Lemma preserves_bind {A B} I (m : M S A) (k : A -> M S B) :
  preserves I m -> (forall a, preserves I (k a)) -> preserves I (m ≫= k).
Proof.
  intros Hm Hk s Hs. specialize (Hm s Hs). rewrite bind_run.
  destruct (m s) as [s' [a|e]]; [exact (Hk a s' Hm) | exact Hm].
Qed.

Lemma preserves_try_catch {A} I (m : M S A) h :
  preserves I m -> (forall e, preserves I (h e)) -> preserves I (try_catch m h).
Proof.
  intros Hm Hh s Hs. specialize (Hm s Hs). unfold try_catch.
  destruct (m s) as [s' [a|e]]; [exact Hm | exact (Hh e s' Hm)].
Qed.

Lemma preserves_when I (b : bool) (m : M S unit) : preserves I m -> preserves I (when b m).
Proof. destruct b; [auto | intros _; apply preserves_ret]. Qed.

Lemma preserves_throw_if I (b : bool) e : preserves (S:=S) I (throw_if b e).
Proof. destruct b; [apply preserves_throw | apply preserves_ret]. Qed.

Lemma preserves_for_each {A} I (l : list A) (m : A -> M S unit) :
  (forall a, preserves I (m a)) -> preserves I (for_each l m).
Proof.
  intros Hm. induction l as [|x l IH]; [apply preserves_ret|].
  apply preserves_bind; auto.
Qed.

(** What each step of a loop establishes and no step undoes. *)
Lemma for_each_all {A} (P : A -> S -> Prop) (m : A -> M S unit) :
  (forall x y, preserves (P y) (m x)) -> (forall x s s', m x s = (s', Ok tt) -> P x s') ->
  forall l s s', for_each l m s = (s', Ok tt) -> forall x, In x l -> P x s'.
Proof.
  intros K E l. induction l as [|y l IH]; intros s s' R x; [intros []|]. cbn [for_each] in R.
  apply bind_inv in R as ([] & s1 & R1 & R2). intros [<-|I]; [|exact (IH s1 s' R2 x I)].
  pose proof (preserves_for_each (P y) l m (fun a => K a y) s1 (E y s s1 R1)) as Q. rewrite R2 in Q. exact Q.
Qed.
End handlers.

Create HintDb preserve discriminated.
#[export] Hint Resolve preserves_ret preserves_throw preserves_get preserves_bind
  preserves_try_catch preserves_when preserves_throw_if preserves_for_each : preserve.

(** One symbolic step of a handler under [wp]. *)
Ltac wp_step :=
  lazymatch goal with
  | |- wp (_ ≫= _) _ _ => apply wp_bind
  | |- wp (mret _) _ _ => apply wp_ret
  | |- wp (throw _) _ _ => apply wp_throw
  | |- wp (get _) _ _ => apply wp_get
  | |- wp (modify _) _ _ => apply wp_modify
  | |- wp (try_catch _ _) _ _ => apply wp_try_catch
  | |- wp (throw_if _ _) _ _ => apply wp_throw_if; intros ?
  | |- wp (when _ _) _ _ => apply wp_when; intros ?
  | |- wp (match ?x with _ => _ end) _ _ => destruct x eqn:?
  end; cbv beta iota.

(** One step of a run whose first action is known: [run_with lem] rewrites
    [(m ≫= k) s] with [lem : m s = (s', Ok a)]. *)
Ltac run_with lem :=
  etrans; [ eapply bind_Ok; eapply lem; cbn; try eassumption | cbv beta iota ].
Ltac throw_with lem :=
  etrans; [ eapply bind_Err; eapply lem; cbn; try eassumption | cbv beta iota ].

(** [preserve]: close an invariance goal by the structure of the handler. *)
Ltac preserve_step :=
  lazymatch goal with
  | |- preserves _ (match ?x with _ => _ end) => destruct x
  | |- preserves _ (_ ≫= _) => apply preserves_bind; [|intros ?]
  | |- preserves _ _ => first
      [ solve [auto 1 with preserve]
      | apply preserves_try_catch; [|intros ?] | apply preserves_when
      | apply preserves_for_each; intros ? ]
  end.
Ltac preserve := intros; repeat preserve_step.

(** ** Sums over the rows of a table *)

Definition sum_map {K} `{Countable K} {R} (f : R -> Z) (m : gmap K R) : Z :=
  map_fold (fun _ r acc => (f r + acc)%Z) 0%Z m.

Section sums.
Context {K : Type} `{Countable K} {R : Type}.
Implicit Types (f g : R -> Z) (m : gmap K R).
Open Scope Z_scope.

Lemma sum_map_empty f : sum_map f (∅ : gmap K R) = 0.
Proof. reflexivity. Qed.

Lemma sum_map_insert_None f m k r : m !! k = None -> sum_map f (<[k:=r]> m) = f r + sum_map f m.
Proof.
  intros E. unfold sum_map. rewrite (map_fold_insert_L _ _ k r m); [reflexivity | | assumption].
  intros. lia.
Qed.

Lemma sum_map_delete f m k r : m !! k = Some r -> sum_map f m = f r + sum_map f (delete k m).
Proof.
  intros E. rewrite <- (insert_delete_id m k r E) at 1.
  apply sum_map_insert_None, lookup_delete_eq.
Qed.

Lemma sum_map_insert f m k r r' :
  m !! k = Some r -> sum_map f (<[k:=r']> m) = sum_map f m - f r + f r'.
Proof.
  intros E. rewrite (sum_map_delete f m k r E), <- insert_delete_eq, sum_map_insert_None; [lia|].
  apply lookup_delete_eq.
Qed.

(** Writing a row, whether or not there was one. *)
Lemma sum_map_put f m k r' :
  sum_map f (<[k:=r']> m) = sum_map f m - from_option f 0 (m !! k) + f r'.
Proof.
  destruct (m !! k) as [r|] eqn:E; cbn.
  - apply sum_map_insert. assumption.
  - rewrite sum_map_insert_None by assumption. lia.
Qed.

Lemma sum_map_ext f g m : (forall k r, m !! k = Some r -> f r = g r) -> sum_map f m = sum_map g m.
Proof.
  induction m as [|k r m E IH] using map_ind; [reflexivity|]. intros Hfg.
  rewrite !sum_map_insert_None by assumption. rewrite (Hfg k r), IH; [reflexivity | |].
  - intros k' r' E'. apply (Hfg k'). rewrite lookup_insert_ne; [assumption | congruence].
  - apply lookup_insert_eq.
Qed.

Lemma in_take {A} n (l : list A) x : In x (take n l) -> In x l.
Proof. intros I%list_elem_of_In%elem_of_take. destruct I as (i & E & _). apply list_elem_of_In, list_elem_of_lookup. eauto. Qed.

Lemma sum_map_zero f m : (forall k r, m !! k = Some r -> f r = 0) -> sum_map f m = 0.
Proof.
  induction m as [|k r m E IH] using map_ind; [reflexivity|]. intros Z0.
  rewrite sum_map_insert_None, (Z0 k r), IH; [reflexivity | | apply lookup_insert_eq | assumption].
  intros k' r' E'. apply (Z0 k'). rewrite lookup_insert_ne; [assumption | congruence].
Qed.

Lemma sum_map_nonneg f m : (forall k r, m !! k = Some r -> 0 <= f r) -> 0 <= sum_map f m.
Proof.
  induction m as [|k r m E IH] using map_ind; [reflexivity|]. intros Hf.
  rewrite sum_map_insert_None by assumption.
  assert (0 <= f r) by (apply (Hf k), lookup_insert_eq).
  assert (0 <= sum_map f m); [|lia].
  apply IH. intros k' r' E'. apply (Hf k'). rewrite lookup_insert_ne; [assumption | congruence].
Qed.

Lemma sum_map_le f g m : (forall k r, m !! k = Some r -> f r <= g r) -> sum_map f m <= sum_map g m.
Proof.
  induction m as [|k r m E IH] using map_ind; [reflexivity|]. intros Hf.
  rewrite !sum_map_insert_None by assumption.
  assert (f r <= g r) by (apply (Hf k), lookup_insert_eq).
  assert (sum_map f m <= sum_map g m); [|lia].
  apply IH. intros k' r' E'. apply (Hf k'). rewrite lookup_insert_ne; [assumption | congruence].
Qed.

Lemma sum_map_lookup_le f m k r : m !! k = Some r ->
  (forall k' r', m !! k' = Some r' -> 0 <= f r') -> f r <= sum_map f m.
Proof.
  intros E Hf. rewrite (sum_map_delete f m k r E).
  assert (0 <= sum_map f (delete k m)); [|lia].
  apply sum_map_nonneg. intros k' r' E'. apply lookup_delete_Some in E' as [_ E']. eauto.
Qed.

Lemma sum_map_fmap f (h : R -> R) m : sum_map f (h <$> m) = sum_map (fun r => f (h r)) m.
Proof.
  induction m as [|k r m E IH] using map_ind; [reflexivity|].
  rewrite fmap_insert, !sum_map_insert_None, IH; [reflexivity | assumption |].
  rewrite lookup_fmap, E. reflexivity.
Qed.
End sums.

(** The sum over the listed rows. *)
Lemma foldr_perm {A} (w : A -> Z) (l l' : list A) : l ≡ₚ l' ->
  (foldr (fun x n => w x + n) 0 l = foldr (fun x n => w x + n) 0 l')%Z.
Proof. induction 1; cbn; lia. Qed.

Lemma sum_map_list {R} (w : R -> Z) (m : gmap string R) : (sum_map w m = foldr (fun x n => w x + n) 0 (map_to_list m).*2)%Z.
Proof.
  induction m as [|k r m E IH] using map_ind; [reflexivity|].
  rewrite sum_map_insert_None by exact E. rewrite (foldr_perm w _ (r :: (map_to_list m).*2)).
  - cbn. rewrite IH. reflexivity.
  - rewrite map_to_list_insert by exact E. reflexivity.
Qed.

Lemma length_filter_sum {A} (p : A -> bool) (l : list A) :
  Z.of_nat (length (List.filter p l)) = foldr (fun x n => (if p x then 1 else 0) + n)%Z 0%Z l.
Proof. induction l as [|x l IH]; [reflexivity|]. cbn. destruct (p x); cbn [length]; lia. Qed.
