(* ===== verification/JsNumber.v ===== *)
(** * JavaScript numbers

    The finite values of the [Number] type are rationals; every arithmetic
    operation is the exact operation followed by the rounding of IEEE 754
    binary64 (to nearest, ties to even), which is how ECMA-262 defines
    [Number::add], [Number::multiply] and [Number::divide].  Overflow to
    infinity is outside the model: amounts, distances and times of the backend
    are far below 2^1023.  [Math.round] is the floor of [x + 1/2]. *)

From Stdlib Require Import ZArith QArith Qround Qabs Qpower Lia Lqa.
From S2P Require Import Prelude.

Open Scope Q_scope.

(** A JavaScript number that is neither NaN nor infinite. *)
Definition num : Set := Q.

Definition num_of_Z (z : Z) : num := inject_Z z.

(** ** Rounding to binary64 *)

(** Round to the nearest integer, ties to the even one. *)
Definition rne (y : Q) : Z :=
  let f := Qfloor y in
  match Qcompare (y - inject_Z f) (1 # 2) with
  | Lt => f
  | Gt => (f + 1)%Z
  | Eq => if Z.even f then f else (f + 1)%Z
  end.

(** Floor of the base-2 logarithm of a non-zero rational's magnitude. *)
Definition ilog2 (x : Q) : Z :=
  let n := Z.abs (Qnum x) in
  let d := Z.pos (Qden x) in
  let l := (Z.log2 n - Z.log2 d)%Z in
  if (d * 2 ^ Z.max l 0 <=? n * 2 ^ Z.max (- l) 0)%Z then l else (l - 1)%Z.

(** Exponent of the unit in the last place: 53 bits of precision, and never
    below that of the subnormal numbers. *)
Definition ulp_exp (x : Q) : Z := Z.max (ilog2 x - 52) (-1074).

Definition rnd_at (e : Z) (x : Q) : Q := inject_Z (rne (x * Qpower 2 (- e))) * Qpower 2 e.

Definition rnd (x : Q) : num := Qred (rnd_at (ulp_exp x) x).

(** ** Arithmetic *)
Definition nadd (x y : num) : num := rnd (x + y).
Definition nsub (x y : num) : num := rnd (x - y).
Definition nmul (x y : num) : num := rnd (x * y).
Definition ndiv (x y : num) : num := rnd (x / y).

Declare Scope num_scope.
Delimit Scope num_scope with num.
Infix "⊕" := nadd (at level 50, left associativity) : num_scope.
Infix "⊖" := nsub (at level 50, left associativity) : num_scope.
Infix "⊗" := nmul (at level 40, left associativity) : num_scope.
Infix "⊘" := ndiv (at level 40, left associativity) : num_scope.

(** Comparisons [<], [<=] and [===] of two numbers. *)
Definition nlt (x y : num) : bool := negb (Qle_bool y x).
Definition nle (x y : num) : bool := Qle_bool x y.
Definition neqb (x y : num) : bool := Qeq_bool x y.

(** [if (x)] for a number that may be missing: zero is falsy. *)
Definition truthy_num (x : option num) : option num :=
  match x with Some p => if neqb p (num_of_Z 0) then None else Some p | None => None end.

Definition nmax (x y : num) : num := if nle x y then y else x.
Definition nmin (x y : num) : num := if nle x y then x else y.

(** [Array.prototype.sort] with a comparator: stable. *)
Definition sort_cmp {A} (cmp : A -> A -> num) : list A -> list A := sort_le (fun x y => nle (cmp x y) (num_of_Z 0)).

(** [Math.round], [Math.floor], [Math.ceil] *)
Definition math_round (x : num) : Z := Qfloor (x + (1 # 2)).
Definition math_floor (x : num) : Z := Qfloor x.
Definition math_ceil (x : num) : Z := Qceiling x.

(** [Number(x.toFixed(2))]: the integer [n] with [n / 100] closest to [x], the
    larger one on a tie for a non-negative [x] (a negative [x] is negated
    first), read back as a number. *)
Definition to_fixed2_cents (x : num) : Z :=
  if Qle_bool 0 x then Qfloor (x * 100 + (1 # 2)) else (- Qfloor (- x * 100 + (1 # 2)))%Z.

Definition number_to_fixed2 (x : num) : num := rnd (to_fixed2_cents x # 100).

(** The two conversions between an amount in euros and integer cents that the
    source writes out at each use: [Math.round(x * 100)] and [c / 100]. *)
Definition to_cents (x : num) : Z := math_round (x ⊗ 100)%num.
Definition of_cents (c : Z) : num := (num_of_Z c ⊘ 100)%num.

(** ** Powers of two *)

Lemma p2_pos (e : Z) : 0 < Qpower 2 e.
Proof. apply Qpower_0_lt. lra. Qed.

Lemma p2_neq0 (e : Z) : ~ Qpower 2 e == 0.
Proof. pose proof (p2_pos e). lra. Qed.

Lemma p2_plus (a b : Z) : Qpower 2 (a + b) == Qpower 2 a * Qpower 2 b.
Proof. apply Qpower_plus. lra. Qed.

Lemma p2_of_Z (e : Z) : (0 <= e)%Z -> Qpower 2 e == inject_Z (2 ^ e).
Proof. intros H. rewrite Zpower_Qpower by assumption. reflexivity. Qed.

Lemma p2_inv (e : Z) : Qpower 2 (- e) * Qpower 2 e == 1.
Proof. rewrite <- p2_plus. replace (- e + e)%Z with 0%Z by lia. reflexivity. Qed.

Lemma p2_mono (a b : Z) : (a <= b)%Z -> Qpower 2 a <= Qpower 2 b.
Proof.
  intros H. replace b with (a + (b - a))%Z by lia. rewrite p2_plus.
  pose proof (p2_pos a).
  assert (1 <= Qpower 2 (b - a)).
  { rewrite p2_of_Z by lia. change (inject_Z 1 <= inject_Z (2 ^ (b - a))).
    rewrite <- Zle_Qle. pose proof (Z.pow_pos_nonneg 2 (b - a)). lia. }
  nra.
Qed.

(** ** Rounding to the nearest integer *)

Lemma rne_close (y : Q) : Qabs (inject_Z (rne y) - y) <= 1 # 2.
Proof.
  pose proof (Qfloor_le y) as Hl. pose proof (Qlt_floor y) as Hu.
  rewrite inject_Z_plus in Hu. change (inject_Z 1) with 1 in Hu.
  apply Qabs_Qle_condition. unfold rne.
  destruct (Qcompare_spec (y - inject_Z (Qfloor y)) (1 # 2));
    [destruct (Z.even (Qfloor y)) | |]; rewrite ?inject_Z_plus; change (inject_Z 1) with 1; lra.
Qed.

Lemma rne_unique (y : Q) (z : Z) : Qabs (inject_Z z - y) < 1 # 2 -> rne y = z.
Proof.
  intros Hz. pose proof (rne_close y) as Hr.
  apply Qabs_Qlt_condition in Hz. apply Qabs_Qle_condition in Hr.
  assert (H1 : inject_Z (rne y) < inject_Z (z + 1)) by (rewrite inject_Z_plus; change (inject_Z 1) with 1; lra).
  assert (H2 : inject_Z z < inject_Z (rne y + 1)) by (rewrite inject_Z_plus; change (inject_Z 1) with 1; lra).
  rewrite <- Zlt_Qlt in H1, H2. lia.
Qed.

#[export] Instance rne_proper : Proper (Qeq ==> eq) rne.
Proof.
  intros x y E. unfold rne. rewrite (Qfloor_comp _ _ E).
  assert (C : (x - inject_Z (Qfloor y) ?= 1 # 2) = (y - inject_Z (Qfloor y) ?= 1 # 2)).
  { apply Qcompare_comp; [rewrite E; reflexivity | reflexivity]. }
  rewrite C. reflexivity.
Qed.

Lemma rne_inject (z : Z) : rne (inject_Z z) = z.
Proof.
  assert (E : inject_Z z - inject_Z z == 0) by ring.
  apply rne_unique. rewrite E. reflexivity.
Qed.

Lemma rne_mono (x y : Q) : x <= y -> (rne x <= rne y)%Z.
Proof.
  intros H.
  destruct (Qeq_dec x y) as [E|N]; [rewrite E; lia|].
  pose proof (rne_close x) as Hx. pose proof (rne_close y) as Hy.
  apply Qabs_Qle_condition in Hx. apply Qabs_Qle_condition in Hy.
  assert (L : inject_Z (rne x) < inject_Z (rne y + 1)).
  { rewrite inject_Z_plus; change (inject_Z 1) with 1. lra. }
  rewrite <- Zlt_Qlt in L. lia.
Qed.

(** ** The binary exponent *)

Lemma Qabs_nz (x : Q) : ~ x == 0 -> (0 < Z.abs (Qnum x))%Z.
Proof.
  intros H. destruct x as [n d]. cbn in *.
  assert (n <> 0)%Z by (intros ->; apply H; reflexivity). lia.
Qed.

Lemma Qabs_frac (x : Q) : Qabs x == inject_Z (Z.abs (Qnum x)) / inject_Z (Z.pos (Qden x)).
Proof. destruct x as [n d]. cbn. rewrite <- Qmake_Qdiv. reflexivity. Qed.

Lemma p2_scale_le (n d l : Z) : (0 < d)%Z ->
  (d * 2 ^ Z.max l 0 <=? n * 2 ^ Z.max (- l) 0)%Z = true <-> Qpower 2 l <= inject_Z n / inject_Z d.
Proof.
  intros Hd.
  assert (0 < inject_Z d) as Hd' by (rewrite <- (Zlt_Qlt 0); assumption).
  assert (E : Qpower 2 l * Qpower 2 (Z.max (- l) 0) == Qpower 2 (Z.max l 0)).
  { rewrite <- p2_plus. replace (l + Z.max (- l) 0)%Z with (Z.max l 0) by lia. reflexivity. }
  rewrite Z.leb_le, Zle_Qle, !inject_Z_mult, <- !p2_of_Z by lia. rewrite <- E.
  pose proof (p2_pos (Z.max (- l) 0)) as Hp.
  assert (A : inject_Z d * (Qpower 2 l * Qpower 2 (Z.max (- l) 0))
              == (Qpower 2 l * inject_Z d) * Qpower 2 (Z.max (- l) 0)) by ring.
  rewrite A.
  rewrite Qmult_le_r by assumption.
  split; intros H.
  - apply Qle_shift_div_l; assumption.
  - apply (Qmult_le_r _ _ (inject_Z d)) in H; [|assumption].
    rewrite (Qmult_comm (_ / _)), Qmult_div_r in H by lra. assumption.
Qed.

Lemma log2_bounds (n : Z) : (0 < n)%Z ->
  Qpower 2 (Z.log2 n) <= inject_Z n /\ inject_Z n < Qpower 2 (Z.log2 n + 1).
Proof.
  intros H. pose proof (Z.log2_spec n H). pose proof (Z.log2_nonneg n).
  rewrite !p2_of_Z by lia. rewrite <- Zle_Qle, <- Zlt_Qlt.
  replace (Z.log2 n + 1)%Z with (Z.succ (Z.log2 n)) by lia. assumption.
Qed.

Lemma ilog2_spec (x : Q) : ~ x == 0 ->
  Qpower 2 (ilog2 x) <= Qabs x /\ Qabs x < Qpower 2 (ilog2 x + 1).
Proof.
  intros Hx. pose proof (Qabs_nz x Hx) as Hn.
  rewrite Qabs_frac. unfold ilog2.
  set (n := Z.abs (Qnum x)) in *. set (d := Z.pos (Qden x)).
  assert (0 < d)%Z as Hd by (unfold d; lia).
  destruct (log2_bounds n Hn) as [N1 N2]. destruct (log2_bounds d Hd) as [D1 D2].
  assert (0 < inject_Z d) as Hd' by (rewrite <- (Zlt_Qlt 0); assumption).
  pose proof (p2_pos (Z.log2 d)). pose proof (p2_pos (Z.log2 n)).
  pose proof (p2_pos (Z.log2 n - Z.log2 d)).
  set (l := (Z.log2 n - Z.log2 d)%Z) in *.
  assert (En : Qpower 2 (Z.log2 n) == Qpower 2 l * Qpower 2 (Z.log2 d)).
  { rewrite <- p2_plus. unfold l. replace (Z.log2 n - Z.log2 d + Z.log2 d)%Z with (Z.log2 n) by lia. reflexivity. }
  assert (Up : inject_Z n / inject_Z d < Qpower 2 (l + 1)).
  { apply Qlt_shift_div_r; [assumption|]. rewrite p2_plus in N2 |- *. rewrite En in N2.
    change (Qpower 2 1) with 2 in *. nra. }
  assert (Lo : Qpower 2 (l - 1) <= inject_Z n / inject_Z d).
  { apply Qle_shift_div_l; [assumption|].
    assert (E1 : Qpower 2 (l - 1) * 2 == Qpower 2 l).
    { change 2 with (Qpower 2 1) at 2. rewrite <- p2_plus. replace (l - 1 + 1)%Z with l by lia. reflexivity. }
    rewrite p2_plus in D2. change (Qpower 2 1) with 2 in D2. pose proof (p2_pos (l - 1)). nra. }
  destruct (_ <=? _)%Z eqn:C.
  - split; [|assumption]. apply p2_scale_le; assumption.
  - split; [assumption|]. replace (l - 1 + 1)%Z with l by lia.
    apply Qnot_le_lt. intros F. apply (p2_scale_le n d l Hd) in F. congruence.
Qed.

Lemma p2_lt_inv (a b : Z) : Qpower 2 a < Qpower 2 b -> (a < b)%Z.
Proof.
  intros H. destruct (Z.lt_ge_cases a b) as [L|G]; [assumption|].
  apply p2_mono in G. lra.
Qed.

Lemma ilog2_unique (x : Q) (l : Z) : ~ x == 0 ->
  Qpower 2 l <= Qabs x -> Qabs x < Qpower 2 (l + 1) -> ilog2 x = l.
Proof.
  intros Hx H1 H2. destruct (ilog2_spec x Hx) as [A B].
  assert (ilog2 x < l + 1)%Z by (apply p2_lt_inv; lra).
  assert (l < ilog2 x + 1)%Z by (apply p2_lt_inv; lra). lia.
Qed.

(** ** Rounding error, exactness and monotonicity *)

Lemma rnd_red (x : Q) : rnd x == rnd_at (ulp_exp x) x.
Proof. apply Qred_correct. Qed.

Lemma unscale (e : Z) (x : Q) : x * Qpower 2 (- e) * Qpower 2 e == x.
Proof. rewrite <- Qmult_assoc, p2_inv. ring. Qed.

Lemma Qabs_small (a b c : Q) : Qabs a <= b -> 0 <= c -> Qabs (a * c) <= b * c.
Proof.
  intros H C. rewrite Qabs_Qmult, (Qabs_pos c C). pose proof (Qabs_nonneg a). nra.
Qed.

Lemma rnd_at_error (e : Z) (x : Q) : Qabs (rnd_at e x - x) <= (1 # 2) * Qpower 2 e.
Proof.
  unfold rnd_at. set (y := x * Qpower 2 (- e)).
  assert (E : inject_Z (rne y) * Qpower 2 e - x == (inject_Z (rne y) - y) * Qpower 2 e).
  { unfold y. rewrite <- (unscale e x) at 2. ring. }
  rewrite E. apply Qabs_small; [apply rne_close | pose proof (p2_pos e); lra].
Qed.

(** Half a unit in the last place, relatively: [2^-53]. *)
Definition eps : Q := 1 # 9007199254740992.

Lemma rnd_rel (x : Q) : 1 # 1000000 <= Qabs x -> Qabs (rnd x - x) <= Qabs x * eps.
Proof.
  intros H. assert (Hx : ~ x == 0) by (intros E; rewrite E in H; cbv in H; congruence).
  destruct (ilog2_spec x Hx) as [L U].
  assert (Hl : (-20 < ilog2 x + 1)%Z).
  { apply p2_lt_inv. change (Qpower 2 (-20)) with (1 # 1048576). lra. }
  assert (E : ulp_exp x = (ilog2 x + -52)%Z) by (unfold ulp_exp; lia).
  rewrite rnd_red. pose proof (rnd_at_error (ulp_exp x) x) as R.
  rewrite E in R at 2. rewrite p2_plus in R. change (Qpower 2 (-52)) with (1 # 4503599627370496) in R.
  unfold eps. lra.
Qed.

Lemma rnd_zero (x : Q) : x == 0 -> rnd x == 0.
Proof.
  intros E. rewrite rnd_red. unfold rnd_at. generalize (ulp_exp x) as e. intros e.
  assert (Z0 : x * Qpower 2 (- e) == inject_Z 0) by (rewrite E; change (inject_Z 0) with 0; ring).
  rewrite Z0, rne_inject. change (inject_Z 0) with 0. ring.
Qed.

#[export] Instance rnd_proper : Proper (Qeq ==> eq) rnd.
Proof.
  intros x y E.
  destruct (Qeq_dec x 0) as [X|X].
  { assert (Y : y == 0) by (rewrite <- E; assumption).
    unfold rnd. apply Qred_complete. rewrite <- !rnd_red. rewrite !rnd_zero by assumption. reflexivity. }
  assert (L : ilog2 y = ilog2 x).
  { destruct (ilog2_spec x X). apply ilog2_unique; rewrite <- E; assumption. }
  unfold rnd, ulp_exp, rnd_at. rewrite L. generalize (ilog2 x) as l. intros l.
  apply Qred_complete. rewrite E. reflexivity.
Qed.

(** A value [m * 2^k] with a 53-bit [m] is a binary64 number. *)
Lemma rnd_repr (x : Q) (m k : Z) :
  x == inject_Z m * Qpower 2 k -> (Z.abs m < 2 ^ 53)%Z -> (-1074 <= k)%Z -> rnd x == x.
Proof.
  intros E Hm Hk.
  destruct (Qeq_dec x 0) as [X|X]; [rewrite (rnd_zero x X), X; reflexivity|].
  destruct (ilog2_spec x X) as [L _].
  assert (Hl : (ilog2 x < 53 + k)%Z).
  { apply p2_lt_inv. rewrite p2_plus. pose proof (p2_pos k) as P.
    assert (A : Qabs x == Qabs (inject_Z m) * Qpower 2 k).
    { rewrite E, Qabs_Qmult, (Qabs_pos (Qpower 2 k)) by lra. reflexivity. }
    assert (Qabs (inject_Z m) < Qpower 2 53).
    { rewrite p2_of_Z by lia. change (Qabs (inject_Z m)) with (inject_Z (Z.abs m)).
      rewrite <- Zlt_Qlt. assumption. }
    nra. }
  rewrite rnd_red. set (e := ulp_exp x). assert (e <= k)%Z by (unfold e, ulp_exp; lia).
  clearbody e.
  assert (Y : x * Qpower 2 (- e) == inject_Z (m * 2 ^ (k - e))).
  { rewrite inject_Z_mult, <- p2_of_Z by lia. rewrite E, <- Qmult_assoc, <- p2_plus.
    replace (k + - e)%Z with (k - e)%Z by lia. reflexivity. }
  unfold rnd_at. rewrite Y, rne_inject, <- Y. apply unscale.
Qed.

Lemma rnd_Z (z : Z) : (Z.abs z < 2 ^ 53)%Z -> rnd (inject_Z z) == inject_Z z.
Proof. intros H. apply (rnd_repr _ z 0); [cbn; ring | assumption | lia]. Qed.

Lemma rnd_at_le_p2 (e k : Z) (x : Q) : (e <= k)%Z -> x <= Qpower 2 k -> rnd_at e x <= Qpower 2 k.
Proof.
  intros He Hx. unfold rnd_at. pose proof (p2_pos e). pose proof (p2_pos (- e)).
  assert (Y : x * Qpower 2 (- e) <= inject_Z (2 ^ (k - e))).
  { rewrite <- p2_of_Z by lia. replace (k - e)%Z with (k + - e)%Z by lia. rewrite p2_plus. nra. }
  apply rne_mono in Y. rewrite rne_inject in Y. rewrite Zle_Qle in Y.
  rewrite <- p2_of_Z in Y by lia.
  assert (E : Qpower 2 k == Qpower 2 (k - e) * Qpower 2 e).
  { rewrite <- p2_plus. replace (k - e + e)%Z with k by lia. reflexivity. }
  rewrite E. nra.
Qed.

Lemma rnd_at_ge_p2 (e k : Z) (x : Q) : (e <= k)%Z -> Qpower 2 k <= x -> Qpower 2 k <= rnd_at e x.
Proof.
  intros He Hx. unfold rnd_at. pose proof (p2_pos e). pose proof (p2_pos (- e)).
  assert (Y : inject_Z (2 ^ (k - e)) <= x * Qpower 2 (- e)).
  { rewrite <- p2_of_Z by lia. replace (k - e)%Z with (k + - e)%Z by lia. rewrite p2_plus. nra. }
  apply rne_mono in Y. rewrite rne_inject in Y. rewrite Zle_Qle in Y.
  rewrite <- p2_of_Z in Y by lia.
  assert (E : Qpower 2 k == Qpower 2 (k - e) * Qpower 2 e).
  { rewrite <- p2_plus. replace (k - e + e)%Z with k by lia. reflexivity. }
  rewrite E. nra.
Qed.

Lemma rnd_nonneg (x : Q) : 0 <= x -> 0 <= rnd x.
Proof.
  intros H. rewrite rnd_red. unfold rnd_at.
  pose proof (p2_pos (ulp_exp x)). pose proof (p2_pos (- ulp_exp x)).
  assert (Y : inject_Z 0 <= x * Qpower 2 (- ulp_exp x)) by (change (inject_Z 0) with 0; nra).
  apply rne_mono in Y. rewrite rne_inject, Zle_Qle in Y. change (inject_Z 0) with 0 in Y. nra.
Qed.

Lemma rnd_mono (x y : Q) : 0 <= x -> x <= y -> rnd x <= rnd y.
Proof.
  intros H0 H. destruct (Qeq_dec x 0) as [X|X].
  { rewrite (rnd_zero x X). apply rnd_nonneg. lra. }
  assert (Y : ~ y == 0) by (intros E; apply X; lra).
  destruct (ilog2_spec x X) as [Lx Ux]. destruct (ilog2_spec y Y) as [Ly Uy].
  rewrite (Qabs_pos x) in * by lra. rewrite (Qabs_pos y) in * by lra.
  assert (ilog2 x < ilog2 y + 1)%Z by (apply p2_lt_inv; lra).
  rewrite !rnd_red.
  destruct (Z.eq_dec (ulp_exp x) (ulp_exp y)) as [E|N].
  - rewrite E. unfold rnd_at. pose proof (p2_pos (ulp_exp y)). pose proof (p2_pos (- ulp_exp y)).
    assert (R : x * Qpower 2 (- ulp_exp y) <= y * Qpower 2 (- ulp_exp y)) by nra.
    apply rne_mono in R. rewrite Zle_Qle in R. nra.
  - unfold ulp_exp in N.
    apply Qle_trans with (Qpower 2 (ilog2 y)).
    + apply rnd_at_le_p2; [unfold ulp_exp; lia|].
      apply Qle_trans with (Qpower 2 (ilog2 x + 1)); [lra|]. apply p2_mono. lia.
    + apply rnd_at_ge_p2; [unfold ulp_exp; lia | assumption].
Qed.

(** ** Math.round *)

Lemma math_round_unique (x : Q) (z : Z) :
  inject_Z z - (1 # 2) <= x -> x < inject_Z z + (1 # 2) -> math_round x = z.
Proof.
  intros H1 H2. unfold math_round.
  pose proof (Qfloor_le (x + (1 # 2))) as L. pose proof (Qlt_floor (x + (1 # 2))) as U.
  assert (A : inject_Z (Qfloor (x + (1 # 2))) < inject_Z (z + 1)).
  { rewrite inject_Z_plus. change (inject_Z 1) with 1. lra. }
  assert (B : inject_Z z < inject_Z (Qfloor (x + (1 # 2)) + 1)) by lra.
  rewrite <- Zlt_Qlt in A, B. lia.
Qed.

#[export] Instance math_round_proper : Proper (Qeq ==> eq) math_round.
Proof. intros x y E. unfold math_round. apply Qfloor_comp. rewrite E. reflexivity. Qed.

Lemma math_round_mono (x y : Q) : x <= y -> (math_round x <= math_round y)%Z.
Proof. intros H. unfold math_round. apply Qfloor_resp_le. lra. Qed.

Lemma math_round_Z (z : Z) : math_round (inject_Z z) = z.
Proof. apply math_round_unique; lra. Qed.

(** The range of integers (amounts in cents, their products with a percentage)
    for which one rounding cannot move a value across a cent: 2^50. *)
Definition safe_cents : Z := 1125899906842624.

Lemma Qabs_inject (z : Z) : Qabs (inject_Z z) == inject_Z (Z.abs z).
Proof. reflexivity. Qed.

Lemma div100_small (n : Z) : n <> 0%Z -> 1 # 1000000 <= Qabs (inject_Z n / 100).
Proof.
  intros H. unfold Qdiv. rewrite Qabs_Qmult, Qabs_inject.
  assert (1 <= inject_Z (Z.abs n)) by (rewrite <- (Zle_Qle 1); lia).
  change (Qabs (/ 100)) with (1 # 100). lra.
Qed.

Lemma div100_error (n : Z) : (Z.abs n <= safe_cents)%Z ->
  Qabs (rnd (inject_Z n / 100) - inject_Z n / 100) <= 1 # 800.
Proof.
  intros H. destruct (Z.eq_dec n 0) as [->|N]; [vm_compute; congruence|].
  pose proof (rnd_rel _ (div100_small n N)) as R.
  assert (B : Qabs (inject_Z n / 100) <= inject_Z safe_cents / 100).
  { unfold Qdiv. rewrite Qabs_Qmult, Qabs_inject. change (Qabs (/ 100)) with (1 # 100).
    change (/ 100) with (1 # 100). rewrite Zle_Qle in H. lra. }
  change (inject_Z safe_cents / 100) with (1125899906842624 # 100) in B. unfold eps in R. lra.
Qed.

(** [Math.round(n / 100)] for an integer [n]: rounding half up, exactly. *)
Lemma math_round_div100 (n : Z) : (Z.abs n <= safe_cents)%Z ->
  math_round (ndiv (num_of_Z n) 100) = ((n + 50) / 100)%Z.
Proof.
  intros H. unfold ndiv, num_of_Z.
  set (q := ((n + 50) / 100)%Z). set (r := (n - 100 * q)%Z).
  assert (Hr : (-50 <= r <= 49)%Z).
  { unfold r, q. pose proof (Z.div_mod (n + 50) 100). pose proof (Z.mod_pos_bound (n + 50) 100). lia. }
  assert (En : inject_Z n / 100 == inject_Z q + inject_Z r / 100).
  { unfold r. unfold Z.sub. rewrite inject_Z_plus, inject_Z_opp, inject_Z_mult.
    change (inject_Z 100) with 100. field. }
  assert (Q1 : inject_Z (-50) <= inject_Z r /\ inject_Z r <= inject_Z 49).
  { rewrite <- !Zle_Qle. lia. }
  change (inject_Z (-50)) with (-50 # 1) in Q1. change (inject_Z 49) with (49 # 1) in Q1.
  assert (D : inject_Z r / 100 == inject_Z r * (1 # 100)) by (unfold Qdiv; reflexivity).
  destruct (Z.eq_dec r (-50)) as [E|N].
  - assert (X : inject_Z n / 100 == inject_Z (2 * q - 1) * Qpower 2 (-1)).
    { rewrite En, E. unfold Z.sub. rewrite inject_Z_plus, inject_Z_mult, inject_Z_opp.
      change (inject_Z 2) with 2. change (Qpower 2 (-1)) with (1 # 2).
      change (inject_Z (-50)) with (-50 # 1). change (inject_Z 1) with 1. field. }
    rewrite (rnd_repr _ _ _ X); [|unfold safe_cents in H; lia | lia].
    rewrite X. unfold Z.sub. rewrite inject_Z_plus, inject_Z_mult, inject_Z_opp.
    change (inject_Z 2) with 2. change (Qpower 2 (-1)) with (1 # 2). change (inject_Z 1) with 1.
    apply math_round_unique; lra.
  - pose proof (div100_error n H) as R. rewrite En in R at 2.
    assert (Q2 : inject_Z (-49) <= inject_Z r) by (rewrite <- Zle_Qle; lia).
    change (inject_Z (-49)) with (-49 # 1) in Q2.
    apply Qabs_Qle_condition in R. apply math_round_unique; lra.
Qed.

Lemma num_mul_Z (a b : Z) : (Z.abs (a * b) < 2 ^ 53)%Z ->
  nmul (num_of_Z a) (num_of_Z b) == num_of_Z (a * b).
Proof. intros H. unfold nmul, num_of_Z. rewrite <- inject_Z_mult. apply rnd_Z. assumption. Qed.

Lemma num_add_Z (a b : Z) : (Z.abs (a + b) < 2 ^ 53)%Z ->
  nadd (num_of_Z a) (num_of_Z b) == num_of_Z (a + b).
Proof. intros H. unfold nadd, num_of_Z. rewrite <- inject_Z_plus. apply rnd_Z. assumption. Qed.

#[export] Instance nmul_proper : Proper (Qeq ==> Qeq ==> eq) nmul.
Proof. intros a b E c d F. unfold nmul. apply rnd_proper. rewrite E, F. reflexivity. Qed.
#[export] Instance ndiv_proper : Proper (Qeq ==> Qeq ==> eq) ndiv.
Proof. intros a b E c d F. unfold ndiv. apply rnd_proper. rewrite E, F. reflexivity. Qed.
#[export] Instance nadd_proper : Proper (Qeq ==> Qeq ==> eq) nadd.
Proof. intros a b E c d F. unfold nadd. apply rnd_proper. rewrite E, F. reflexivity. Qed.
#[export] Instance nsub_proper : Proper (Qeq ==> Qeq ==> eq) nsub.
Proof. intros a b E c d F. unfold nsub. apply rnd_proper. rewrite E, F. reflexivity. Qed.

(** Euros and cents: the conversions used all over the source are inverse to
    each other on whole cents. *)
Lemma to_cents_of_cents (c : Z) : (Z.abs c <= safe_cents)%Z -> to_cents (of_cents c) = c.
Proof.
  intros H. unfold to_cents, of_cents, nmul, ndiv, num_of_Z.
  destruct (Z.eq_dec c 0) as [->|N]; [vm_compute; reflexivity|].
  pose proof (rnd_rel _ (div100_small c N)) as R1.
  set (v := rnd (inject_Z c / 100)) in *.
  assert (C1 : 1 <= Qabs (inject_Z c)) by (rewrite Qabs_inject, <- (Zle_Qle 1); lia).
  assert (C2 : Qabs (inject_Z c) <= inject_Z safe_cents) by (rewrite Qabs_inject, <- Zle_Qle; lia).
  assert (D : Qabs (inject_Z c / 100) == Qabs (inject_Z c) * (1 # 100)).
  { unfold Qdiv. rewrite Qabs_Qmult. reflexivity. }
  assert (D' : inject_Z c / 100 == inject_Z c * (1 # 100)) by (unfold Qdiv; reflexivity).
  rewrite D in R1. rewrite D' in R1. unfold eps, safe_cents in *.
  assert (V : Qabs (v * 100 - inject_Z c) <= Qabs (inject_Z c) * eps).
  { assert (E : v * 100 - inject_Z c == (v - inject_Z c * (1 # 100)) * 100) by ring.
    rewrite E, Qabs_Qmult. change (Qabs 100) with 100. unfold eps. lra. }
  assert (T : Qabs (v * 100) <= Qabs (inject_Z c) + Qabs (v * 100 - inject_Z c)).
  { assert (E : v * 100 == inject_Z c + (v * 100 - inject_Z c)) by ring.
    rewrite E at 1. apply Qabs_triangle. }
  assert (T' : Qabs (inject_Z c) <= Qabs (v * 100) + Qabs (v * 100 - inject_Z c)).
  { assert (E : inject_Z c == v * 100 + - (v * 100 - inject_Z c)) by ring.
    rewrite E at 1. eapply Qle_trans; [apply Qabs_triangle|]. rewrite Qabs_opp. lra. }
  change (inject_Z 1125899906842624) with 1125899906842624 in C2.
  unfold eps in V.
  assert (L : 1 # 1000000 <= Qabs (v * 100)) by lra.
  apply rnd_rel in L. unfold eps in L.
  pose proof V as V'. apply Qabs_Qle_condition in V'. apply Qabs_Qle_condition in L.
  apply math_round_unique; lra.
Qed.

(** A number of cents up to ten thousand million euros, as a number. *)
Definition wide_cents : Z := 1000000000000.

Lemma of_cents_error (n : Z) : (0 <= n <= wide_cents)%Z ->
  Qabs (of_cents n - inject_Z n * (1 # 100)) <= 1 # 10000.
Proof.
  unfold wide_cents. intros Hn. destruct (Z.eq_dec n 0) as [->|N]; [vm_compute; congruence|].
  pose proof (rnd_rel _ (div100_small n N)) as R. unfold of_cents, ndiv, num_of_Z.
  set (v := rnd (inject_Z n / 100)) in *.
  assert (C : Qabs (inject_Z n / 100) <= 10000000000).
  { unfold Qdiv. rewrite Qabs_Qmult, Qabs_inject. change (Qabs (/ 100)) with (1 # 100).
    assert (inject_Z (Z.abs n) <= inject_Z 1000000000000) by (rewrite <- Zle_Qle; lia).
    change (inject_Z 1000000000000) with 1000000000000 in *. lra. }
  change (v - inject_Z n * (1 # 100)) with (v - inject_Z n / 100). unfold eps in R. lra.
Qed.

Lemma of_cents_mono (a b : Z) : (0 <= a <= b)%Z -> of_cents a <= of_cents b.
Proof.
  intros H. unfold of_cents, ndiv, num_of_Z.
  assert (X : inject_Z a <= inject_Z b) by (rewrite <- Zle_Qle; lia).
  assert (X0 : 0 <= inject_Z a) by (rewrite <- (Zle_Qle 0); lia).
  apply rnd_mono; unfold Qdiv; change (/ 100) with (1 # 100); lra.
Qed.

(** A number close to a whole amount of cents is read as that amount. *)
Lemma to_cents_near (v : num) (c : Z) : (1 <= c <= wide_cents)%Z ->
  Qabs (v - inject_Z c * (1 # 100)) <= 1 # 1000 -> to_cents v = c.
Proof.
  unfold wide_cents. intros Hc Hv. unfold to_cents, nmul. apply Qabs_Qle_condition in Hv.
  assert (C1 : 1 <= inject_Z c) by (rewrite <- (Zle_Qle 1); lia).
  assert (C2 : inject_Z c <= inject_Z 1000000000000) by (rewrite <- Zle_Qle; lia).
  change (inject_Z 1000000000000) with 1000000000000 in C2.
  assert (A : Qabs (v * 100) == v * 100) by (apply Qabs_pos; lra).
  assert (L : 1 # 1000000 <= Qabs (v * 100)) by (rewrite A; lra).
  apply rnd_rel in L. unfold eps in L.
  generalize dependent (rnd (v * 100)). intros w L. rewrite A in L. apply Qabs_Qle_condition in L.
  apply math_round_unique; lra.
Qed.

(** Differences of whole cents are computed exactly, whatever binary64 does. *)
Lemma to_cents_sub (a b : Z) : (0 <= b <= a)%Z -> (a <= wide_cents)%Z ->
  to_cents (nsub (of_cents a) (of_cents b)) = (a - b)%Z.
Proof.
  intros H Ha. destruct (Z.eq_dec a b) as [->|N].
  { assert (E : of_cents b - of_cents b == 0) by ring.
    unfold nsub, to_cents. rewrite (rnd_zero _ E). replace (b - b)%Z with 0%Z by lia. reflexivity. }
  assert (Ea : Qabs (of_cents a - inject_Z a * (1 # 100)) <= 1 # 10000) by (apply of_cents_error; lia).
  assert (Eb : Qabs (of_cents b - inject_Z b * (1 # 100)) <= 1 # 10000) by (apply of_cents_error; lia).
  apply Qabs_Qle_condition in Ea, Eb.
  assert (D : inject_Z (a - b) == inject_Z a - inject_Z b).
  { unfold Qminus. rewrite <- inject_Z_opp, <- inject_Z_plus. reflexivity. }
  assert (D1 : 1 <= inject_Z a - inject_Z b) by (rewrite <- D, <- (Zle_Qle 1); lia).
  assert (C2 : inject_Z a - inject_Z b <= inject_Z 1000000000000)
    by (rewrite <- D, <- Zle_Qle; unfold wide_cents in *; lia).
  change (inject_Z 1000000000000) with 1000000000000 in C2.
  apply to_cents_near; [unfold wide_cents in *; lia|]. rewrite D. unfold nsub.
  generalize dependent (of_cents a). generalize dependent (of_cents b). intros u Eu v Ev.
  assert (A : Qabs (v - u) == v - u) by (apply Qabs_pos; lra).
  assert (L : 1 # 1000000 <= Qabs (v - u)) by (rewrite A; lra).
  apply rnd_rel in L. unfold eps in L.
  generalize dependent (rnd (v - u)). intros w L. rewrite A in L. apply Qabs_Qle_condition in L.
  apply Qabs_Qle_condition. lra.
Qed.

(** Rounding moves a number of moderate size by very little. *)
Lemma rnd_abs (x : Q) : 0 <= x -> x <= 10000000000 -> Qabs (rnd x - x) <= 1 # 100000.
Proof.
  intros H0 H1. assert (A : Qabs x == x) by (apply Qabs_pos; assumption).
  destruct (Qlt_le_dec x (1 # 1000000)) as [L|L].
  - assert (U : rnd x <= rnd (1 # 1000000)) by (apply rnd_mono; lra).
    assert (P : 0 <= rnd x) by (apply rnd_nonneg; assumption).
    assert (V : rnd (1 # 1000000) <= 2 # 1000000) by (vm_compute; discriminate).
    apply Qabs_Qle_condition. lra.
  - assert (L' : 1 # 1000000 <= Qabs x) by (rewrite A; exact L).
    apply rnd_rel in L'. unfold eps in L'. rewrite A in L'.
    eapply Qle_trans; [exact L'|]. lra.
Qed.

Lemma to_cents_between (v : num) (a b : Z) : (0 <= a)%Z -> (b <= wide_cents)%Z ->
  inject_Z a * (1 # 100) - (1 # 1000) <= v -> v <= inject_Z b * (1 # 100) + (1 # 1000) -> 0 <= v ->
  (a <= to_cents v <= b)%Z.
Proof.
  intros Ha Hb Hl Hu Hv. unfold to_cents, nmul, wide_cents in *.
  assert (Cb : inject_Z b <= 1000000000000).
  { change 1000000000000 with (inject_Z 1000000000000). rewrite <- Zle_Qle. lia. }
  assert (R0 : 0 <= v * 100) by lra.
  assert (E : Qabs (rnd (v * 100) - v * 100) <= 1 # 1000).
  { assert (A : Qabs (v * 100) == v * 100) by (apply Qabs_pos; exact R0).
    destruct (Qlt_le_dec (v * 100) (1 # 1000000)) as [L|L].
    - pose proof (rnd_abs (v * 100) R0 ltac:(lra)) as X. lra.
    - assert (L' : 1 # 1000000 <= Qabs (v * 100)) by (rewrite A; exact L).
      apply rnd_rel in L'. unfold eps in L'. rewrite A in L'.
      eapply Qle_trans; [exact L'|]. lra. }
  apply Qabs_Qle_condition in E. set (w := rnd (v * 100)) in *. clearbody w.
  unfold math_round. split.
  - rewrite <- (Qfloor_Z a). apply Qfloor_resp_le. lra.
  - assert (F : (Qfloor (w + (1 # 2)%Q) < b + 1)%Z); [|lia].
    pose proof (Qfloor_le (w + (1 # 2))) as G.
    rewrite Zlt_Qlt, inject_Z_plus. change (inject_Z 1) with 1. lra.
Qed.

Create HintDb money.
#[export] Hint Rewrite to_cents_of_cents math_round_div100 using (unfold safe_cents in *; lia) : money.

#[global] Opaque rnd.

Arguments to_cents _ : simpl never.
Arguments of_cents _ : simpl never.

(** A rounded value is a binary64 number: rounding it again changes nothing. *)
Lemma rnd_idem (x : Q) : 0 <= x -> rnd (rnd x) == rnd x.
Proof.
  intros H0. destruct (Qeq_dec x 0) as [X|X].
  { pose proof (rnd_zero x X) as R. rewrite (rnd_zero (rnd x) R). symmetry. exact R. }
  destruct (ilog2_spec x X) as [_ U]. rewrite (Qabs_pos x H0) in U.
  set (e := ulp_exp x). assert (He : (-1074 <= e /\ ilog2 x + 1 <= 53 + e)%Z) by (unfold e, ulp_exp; lia).
  set (m := rne (x * Qpower 2 (- e))).
  assert (E : rnd x == inject_Z m * Qpower 2 e) by apply rnd_red.
  assert (M : (0 <= m <= 2 ^ 53)%Z).
  { pose proof (p2_pos (- e)) as P. split.
    - assert (Y : inject_Z 0 <= x * Qpower 2 (- e)) by (change (inject_Z 0) with 0; nra).
      apply rne_mono in Y. rewrite rne_inject in Y. exact Y.
    - assert (Y : x * Qpower 2 (- e) <= inject_Z (2 ^ 53)).
      { rewrite <- p2_of_Z by lia. replace 53%Z with (53 + e + - e)%Z by lia. rewrite p2_plus.
        apply Qmult_le_compat_r; [|lra]. apply Qlt_le_weak, (Qlt_le_trans _ _ _ U), p2_mono. lia. }
      apply rne_mono in Y. rewrite rne_inject in Y. exact Y. }
  destruct (Z.eq_dec m (2 ^ 53)) as [Em|Nm].
  - apply (rnd_repr _ 1 (53 + e)); [|reflexivity | lia].
    rewrite E, Em, p2_plus, (p2_of_Z 53) by lia. change (inject_Z 1) with 1. ring.
  - apply (rnd_repr _ m e); [exact E | lia | lia].
Qed.

(** ** Sorting *)

Lemma in_sort_cmp {A} (cmp : A -> A -> num) x l : List.In x (sort_cmp cmp l) <-> List.In x l.
Proof. split; apply Permutation.Permutation_in; [|apply Permutation.Permutation_sym]; apply sort_le_perm. Qed.
