(* ===== verification/JsText.v ===== *)
(** * Text of numbers and JSON

    [String(x)] and [x.toFixed(2)] of ECMAScript for the binary64 numbers of
    [JsNumber], and JSON documents as the source handles them. *)

From Stdlib Require Import ZArith QArith Qround Lia.
From stdpp Require Import base list option strings pretty.
From S2P Require Import Prelude JsNumber.

Open Scope Z_scope.

(** ** Numbers *)

Fixpoint repeat_string (s : string) (n : nat) : string :=
  match n with O => EmptyString | S n' => s +:+ repeat_string s n' end.

Definition zeros (n : Z) : string := repeat_string "0" (Z.to_nat n).

(** The [n] with [10 ^ (n - 1) <= x < 10 ^ n], for [x > 0]. *)
Definition dec_exponent (x : Q) : Z :=
  let e := ilog2 x * 30103 / 100000 in
  if Qle_bool (Qpower 10 (e + 1)) x then e + 2
  else if Qle_bool (Qpower 10 e) x then e + 1 else e.

(** The least [k] such that a [k]-digit decimal reads back as [x]: [(s, k, n)] for
    the value [s * 10 ^ (n - k)]; 17 digits always do. *)
Fixpoint shortest (x : num) (n : Z) (k : Z) (fuel : nat) : Z * Z * Z :=
  let s := Qfloor (x / Qpower 10 (n - k) + (1 # 2)) in
  match fuel with
  | O => (s, k, n)
  | S fuel' =>
      if Qeq_bool (rnd (inject_Z s * Qpower 10 (n - k))) x
      then if s =? 10 ^ k then (1, 1, n + 1) else (s, k, n)
      else shortest x n (k + 1) fuel'
  end.

Definition positive_to_string (x : num) : string :=
  let '(s, k, n) := shortest x (dec_exponent x) 1 16 in
  let digits := pretty s in
  if (k <=? n) && (n <=? 21) then digits +:+ zeros (n - k)
  else if (0 <? n) && (n <=? 21) then
    String.substring 0 (Z.to_nat n) digits +:+ "." +:+ String.substring (Z.to_nat n) (Z.to_nat (k - n)) digits
  else if (-6 <? n) && (n <=? 0) then "0." +:+ zeros (- n) +:+ digits
  else
    let exponent := (if 0 <=? n - 1 then "e+" else "e-") +:+ pretty (Z.abs (n - 1)) in
    if k =? 1 then digits +:+ exponent
    else String.substring 0 1 digits +:+ "." +:+ String.substring 1 (Z.to_nat (k - 1)) digits +:+ exponent.

(** [String(x)] *)
Definition number_to_string (x : num) : string :=
  if Qeq_bool x 0 then "0"
  else if Qle_bool 0 x then positive_to_string x else "-" +:+ positive_to_string (- x)%Q.

(** [x.toFixed(2)] *)
Definition to_fixed2_string (x : num) : string :=
  let c := Z.abs (to_fixed2_cents x) in
  let digits := pretty c in
  let padded := if c <? 10 then "00" +:+ digits else if c <? 100 then "0" +:+ digits else digits in
  let whole := (String.length padded - 2)%nat in
  if Qle_bool (inject_Z (10 ^ 21)) (Qabs.Qabs x) then number_to_string x
  else (if Qle_bool 0 x then "" else "-") +:+ String.substring 0 whole padded +:+ "." +:+ String.substring whole 2 padded.

Example number_texts :
  map number_to_string [num_of_Z 0; num_of_Z 100; rnd (1 # 10); rnd (-25 # 2); rnd (1 # 3); num_of_Z (10 ^ 22); rnd (1 # 10000000)]
  = ["0"; "100"; "0.1"; "-12.5"; "0.3333333333333333"; "1e+22"; "1e-7"]%string
  /\ map to_fixed2_string [num_of_Z 5; rnd (1 # 10); rnd (-12345 # 1000)] = ["5.00"; "0.10"; "-12.35"]%string.
Proof. vm_compute. split; reflexivity. Qed.

(** ** JSON *)

#[warnings="-register-all"]
Inductive Json :=
| JNull
| JBool (b : bool)
| JNumber (n : num)
| JString (s : string)
| JArray (l : list Json)
| JObject (fields : list (string * Json)).

Definition joptional {A} (f : A -> Json) (o : option A) : Json :=
  match o with Some a => f a | None => JNull end.

(** [{ ...a, ...b }]: the fields of [b] replace those of [a]. *)
Definition spread (a b : list (string * Json)) : list (string * Json) :=
  List.filter (fun f => negb (existsb (fun g => bool_decide (f.1 = g.1)) b)) a ++ b.
