(* ===== verification/Money.v ===== *)
(** * Booking prices, payment splits and refunds

    Models [modules/ride-booking/booking-price.ts], [booking-payment-split.ts]
    and [booking-cancellation-policy.ts].  Amounts are JavaScript numbers in
    euros ([JsNumber.num]); the source computes in integer cents and divides by
    100 at the end.  Each definition keeps the order of the operations, so it
    rounds where the source rounds. *)

From Stdlib Require Import ZArith QArith Qabs Lia Lqa.
From stdpp Require Import base strings.
From S2P Require Import Prelude JsNumber.

Open Scope num_scope.

(** ** Price breakdown *)

Module PriceBreakdown.
Record t := {
  basePricePerSeat : num;
  seatsBooked : Z;
  subtotal : num;
  luggageFee : num;
  serviceFee : num;
  totalPrice : num;
  currency : string;
  serviceFeePercent : num;
  serviceFeeFlat : num;
}.
End PriceBreakdown.

Module PriceInput.
Record t := {
  basePricePerSeat : num;
  seatsBooked : Z;
  currency : option string;
  serviceFeePercent : num;
  serviceFeeFlat : num;
}.
End PriceInput.

Definition MAX_SEATS_PER_BOOKING : Z := 4.

(** booking-price.ts, [calculateBookingPrice] *)
Definition calculateBookingPrice (input : PriceInput.t) : PriceBreakdown.t :=
  let basePricePerSeat := PriceInput.basePricePerSeat input in
  let seatsBooked := PriceInput.seatsBooked input in
  let serviceFeePercent := PriceInput.serviceFeePercent input in
  let serviceFeeFlat := PriceInput.serviceFeeFlat input in
  let subtotalCents := num_of_Z (to_cents basePricePerSeat) ⊗ num_of_Z seatsBooked in
  let luggageFeeCents := num_of_Z 0 in
  let percentFeeCents := num_of_Z (math_round (subtotalCents ⊗ serviceFeePercent ⊘ 100)) in
  let flatFeeCents := num_of_Z (to_cents serviceFeeFlat) in
  let serviceFeeCents := percentFeeCents ⊕ flatFeeCents in
  let totalCents := subtotalCents ⊕ luggageFeeCents ⊕ serviceFeeCents in
  {| PriceBreakdown.basePricePerSeat := basePricePerSeat;
     PriceBreakdown.seatsBooked := seatsBooked;
     PriceBreakdown.subtotal := subtotalCents ⊘ 100;
     PriceBreakdown.luggageFee := luggageFeeCents ⊘ 100;
     PriceBreakdown.serviceFee := serviceFeeCents ⊘ 100;
     PriceBreakdown.totalPrice := totalCents ⊘ 100;
     PriceBreakdown.currency := default "EUR" (PriceInput.currency input);
     PriceBreakdown.serviceFeePercent := serviceFeePercent;
     PriceBreakdown.serviceFeeFlat := serviceFeeFlat |}.

(** ** Payment and refund splits *)

Module PaymentSplit.
Record t := {
  amountTotal : num;
  fareAmount : num;
  platformFeeAmount : num;
  currency : string;
}.
End PaymentSplit.

Module RefundSplit.
Record t := { fareRefundAmount : num; feeRefundAmount : num }.
End RefundSplit.

(** booking-payment-split.ts, [resolvePaymentSplit] *)
Definition resolvePaymentSplit (breakdown : PriceBreakdown.t) : Res PaymentSplit.t :=
  let totalCents := num_of_Z (to_cents (PriceBreakdown.totalPrice breakdown)) in
  let feeCents := num_of_Z (to_cents (PriceBreakdown.serviceFee breakdown)) in
  let fareCents := totalCents ⊖ feeCents in
  if nlt fareCents (num_of_Z 0) then Err "PAYMENT_SPLIT_NEGATIVE_FARE"
  else if negb (neqb (fareCents ⊕ feeCents) totalCents) then Err "PAYMENT_SPLIT_IMBALANCE"
  else Ok {| PaymentSplit.amountTotal := totalCents ⊘ 100;
             PaymentSplit.fareAmount := fareCents ⊘ 100;
             PaymentSplit.platformFeeAmount := feeCents ⊘ 100;
             PaymentSplit.currency := PriceBreakdown.currency breakdown |}.

(** booking-payment-split.ts, [resolveRefundSplit] *)
Definition resolveRefundSplit (amountTotal fareAmount refundAmount : num) : RefundSplit.t :=
  let totalCents := num_of_Z (to_cents amountTotal) in
  let refundCents := num_of_Z (to_cents refundAmount) in
  if nle refundCents (num_of_Z 0) then
    {| RefundSplit.fareRefundAmount := num_of_Z 0; RefundSplit.feeRefundAmount := num_of_Z 0 |}
  else if nle totalCents (num_of_Z 0) then
    {| RefundSplit.fareRefundAmount := refundCents ⊘ 100; RefundSplit.feeRefundAmount := num_of_Z 0 |}
  else
    let fareCents := num_of_Z (to_cents fareAmount) in
    let fareRefundCents := num_of_Z (math_round (refundCents ⊗ fareCents ⊘ totalCents)) in
    let feeRefundCents := refundCents ⊖ fareRefundCents in
    {| RefundSplit.fareRefundAmount := fareRefundCents ⊘ 100;
       RefundSplit.feeRefundAmount := feeRefundCents ⊘ 100 |}.

(** ** Cancellation policy (booking-cancellation-policy.ts); times in ms *)

Definition THREE_HOURS_MS : Z := 3 * 60 * 60 * 1000.

Definition isConfirmedCancellationWindowClosed (departureAt now : Z) : bool :=
  (departureAt - now <=? THREE_HOURS_MS)%Z.

Definition getRiderRefundPercent (departureAt now : Z) : num :=
  let timeToDepartureMs := (departureAt - now)%Z in
  if (timeToDepartureMs >? THREE_HOURS_MS)%Z then num_of_Z 50 else num_of_Z 0.

Definition getRiderRefundAmount (totalPrice percent : num) : num :=
  if nle percent (num_of_Z 0) then num_of_Z 0 else number_to_fixed2 (totalPrice ⊗ percent ⊘ 100).

Definition toMinorCurrencyUnits (amountMajor : num) : Z :=
  if nle amountMajor (num_of_Z 0) then 0%Z else to_cents amountMajor.

(** ride-booking.service.ts, [toMajorUnits] *)
Definition toMajorUnits (amountMinor : option Z) : option num :=
  match amountMinor with
  | None => None
  | Some a => Some (number_to_fixed2 (num_of_Z a ⊘ 100))
  end.

(** ** Lemmas: whole cents *)

Lemma num_sub_Z (a b : Z) : (Z.abs (a - b) < 2 ^ 53)%Z ->
  (nsub (num_of_Z a) (num_of_Z b) == num_of_Z (a - b))%Q.
Proof.
  intros H. unfold nsub, num_of_Z, Qminus. rewrite <- inject_Z_opp, <- inject_Z_plus.
  apply rnd_Z. assumption.
Qed.

Lemma nle_Z (a b : Z) : nle (num_of_Z a) (num_of_Z b) = (a <=? b)%Z.
Proof. unfold nle, Qle_bool, num_of_Z. cbn. rewrite !Z.mul_1_r. reflexivity. Qed.

Lemma nlt_Z (a b : Z) : nlt (num_of_Z a) (num_of_Z b) = (a <? b)%Z.
Proof.
  unfold nlt. change (Qle_bool (num_of_Z b) (num_of_Z a)) with (nle (num_of_Z b) (num_of_Z a)).
  rewrite nle_Z. rewrite Z.leb_antisym. apply negb_involutive.
Qed.

#[export] Instance nle_proper : Proper (Qeq ==> Qeq ==> eq) nle.
Proof. intros a b E c d F. unfold nle. rewrite E, F. reflexivity. Qed.
#[export] Instance nlt_proper : Proper (Qeq ==> Qeq ==> eq) nlt.
Proof. intros a b E c d F. unfold nlt. rewrite E, F. reflexivity. Qed.
#[export] Instance neqb_proper : Proper (Qeq ==> Qeq ==> eq) neqb.
Proof. intros a b E c d F. unfold neqb. rewrite E, F. reflexivity. Qed.

Lemma neqb_refl (a : num) : neqb a a = true.
Proof. apply Qeq_bool_iff. reflexivity. Qed.

(** Dividing a whole number of cents by 100 gives the number of euros. *)
Lemma div100_of_cents (x : num) (c : Z) : (x == num_of_Z c)%Q -> x ⊘ 100 = of_cents c.
Proof. intros E. unfold of_cents. apply ndiv_proper; [assumption | reflexivity]. Qed.

(** The breakdown in cents, for any price, percentage and flat fee whose cent
    amounts stay in range. *)
Lemma calculateBookingPrice_amounts (input : PriceInput.t) (B F s pf : Z) :
  to_cents (PriceInput.basePricePerSeat input) = B ->
  to_cents (PriceInput.serviceFeeFlat input) = F ->
  s = (B * PriceInput.seatsBooked input)%Z ->
  math_round (num_of_Z s ⊗ PriceInput.serviceFeePercent input ⊘ 100) = pf ->
  (Z.abs s <= safe_cents)%Z -> (Z.abs pf <= safe_cents)%Z -> (Z.abs F <= safe_cents)%Z ->
  PriceBreakdown.subtotal (calculateBookingPrice input) = of_cents s /\
  PriceBreakdown.luggageFee (calculateBookingPrice input) = of_cents 0 /\
  PriceBreakdown.serviceFee (calculateBookingPrice input) = of_cents (pf + F) /\
  PriceBreakdown.totalPrice (calculateBookingPrice input) = of_cents (s + (pf + F)).
Proof.
  intros HB HF Hs' Hpf Hs Hp HF'. unfold safe_cents in *.
  assert (Es : (num_of_Z B ⊗ num_of_Z (PriceInput.seatsBooked input) == num_of_Z s)%Q)
    by (rewrite Hs'; apply num_mul_Z; lia).
  assert (Ef : (num_of_Z pf ⊕ num_of_Z F == num_of_Z (pf + F))%Q) by (apply num_add_Z; lia).
  assert (Em : math_round (num_of_Z B ⊗ num_of_Z (PriceInput.seatsBooked input)
                           ⊗ PriceInput.serviceFeePercent input ⊘ 100) = pf).
  { rewrite <- Hpf, Es. reflexivity. }
  unfold calculateBookingPrice; cbn [PriceBreakdown.subtotal PriceBreakdown.luggageFee
    PriceBreakdown.serviceFee PriceBreakdown.totalPrice].
  rewrite HB, HF, Em.
  repeat split; try (apply div100_of_cents).
  - exact Es.
  - exact Ef.
  - rewrite Es, Ef, num_add_Z by lia. rewrite num_add_Z by lia.
    replace (s + 0 + (pf + F))%Z with (s + (pf + F))%Z by lia. reflexivity.
Qed.

Lemma breakdown_eta (r : PriceBreakdown.t) :
  r = {| PriceBreakdown.basePricePerSeat := PriceBreakdown.basePricePerSeat r;
         PriceBreakdown.seatsBooked := PriceBreakdown.seatsBooked r;
         PriceBreakdown.subtotal := PriceBreakdown.subtotal r;
         PriceBreakdown.luggageFee := PriceBreakdown.luggageFee r;
         PriceBreakdown.serviceFee := PriceBreakdown.serviceFee r;
         PriceBreakdown.totalPrice := PriceBreakdown.totalPrice r;
         PriceBreakdown.currency := PriceBreakdown.currency r;
         PriceBreakdown.serviceFeePercent := PriceBreakdown.serviceFeePercent r;
         PriceBreakdown.serviceFeeFlat := PriceBreakdown.serviceFeeFlat r |}.
Proof. destruct r; reflexivity. Qed.

(** The driver's share of a refund: a whole number of cents between what the
    refund leaves of the fee and the fare, whatever binary64 does to the
    quotient. *)
Definition max_split_cents : Z := 90000000.

Lemma refund_share_bounds (r f d x : Z) :
  x = math_round (num_of_Z r ⊗ num_of_Z f ⊘ num_of_Z d) ->
  (0 <= r)%Z -> (0 <= f <= d)%Z -> (r <= d)%Z -> (0 < d <= max_split_cents)%Z ->
  (0 <= x)%Z /\ (x <= r)%Z /\ (x <= f)%Z /\ (r - x <= d - f)%Z /\ (r = d -> x = f).
Proof.
  intros Hx Hr Hf Hrd Hd. unfold max_split_cents in Hd.
  assert (P : (0 <= r * f <= 90000000 * 90000000)%Z) by nia.
  assert (E : (num_of_Z r ⊗ num_of_Z f == num_of_Z (r * f))%Q) by (apply num_mul_Z; lia).
  assert (X : x = math_round (rnd (inject_Z (r * f) / inject_Z d))).
  { rewrite Hx, E. reflexivity. }
  set (v := (inject_Z (r * f) / inject_Z d)%Q) in X.
  assert (Dp : (0 < inject_Z d)%Q) by (rewrite <- (Zlt_Qlt 0); lia).
  assert (Le : forall k, (r * f <= k * d)%Z -> (v <= inject_Z k)%Q).
  { intros k Hk. unfold v. apply Qle_shift_div_r; [assumption|].
    rewrite <- inject_Z_mult, <- Zle_Qle. assumption. }
  assert (Ge : forall k, (k * d <= r * f)%Z -> (inject_Z k <= v)%Q).
  { intros k Hk. unfold v. apply Qle_shift_div_l; [assumption|].
    rewrite <- inject_Z_mult, <- Zle_Qle. assumption. }
  assert (V0 : (0 <= v)%Q) by (apply (Ge 0%Z); nia).
  assert (Up : forall k, (Z.abs k < 2 ^ 53)%Z -> (r * f <= k * d)%Z -> (x <= k)%Z).
  { intros k Hk H. rewrite X, <- (math_round_Z k). apply math_round_mono.
    rewrite <- (rnd_Z k Hk). apply rnd_mono; [assumption | apply Le; assumption]. }
  assert (Lo : forall k, (0 <= k < 2 ^ 53)%Z -> (k * d <= r * f)%Z -> (k <= x)%Z).
  { intros k Hk H. rewrite X, <- (math_round_Z k) at 1. apply math_round_mono.
    rewrite <- (rnd_Z k) by lia. apply rnd_mono; [|apply Ge; assumption].
    rewrite <- (Zle_Qle 0). lia. }
  assert (X0 : (0 <= x)%Z) by (apply Lo; lia).
  assert (Xl : (r - (d - f) <= x)%Z).
  { destruct (Z.le_gt_cases (r - (d - f)) 0); [lia|]. apply Lo; nia. }
  assert (Xf : (x <= f)%Z) by (apply Up; nia).
  repeat split; try assumption; try lia.
  apply Up; nia.
Qed.

Lemma resolveRefundSplit_amounts (t f r : Z) :
  (0 <= r <= t)%Z -> (0 <= f <= t)%Z -> (t <= max_split_cents)%Z ->
  exists x y,
    resolveRefundSplit (of_cents t) (of_cents f) (of_cents r)
      = {| RefundSplit.fareRefundAmount := of_cents x; RefundSplit.feeRefundAmount := of_cents y |} /\
    (x + y = r)%Z /\ (0 <= x <= f)%Z /\ (0 <= y <= t - f)%Z.
Proof.
  intros Hr Hf Ht. unfold max_split_cents in Ht.
  unfold resolveRefundSplit.
  rewrite !to_cents_of_cents by (unfold safe_cents; lia).
  rewrite !nle_Z.
  destruct (Z.leb_spec r 0) as [R|R].
  { exists 0%Z, 0%Z. split; [|lia]. vm_compute. reflexivity. }
  destruct (Z.leb_spec t 0) as [T|T]; [lia|].
  remember (math_round (num_of_Z r ⊗ num_of_Z f ⊘ num_of_Z t)) as x eqn:X.
  destruct (refund_share_bounds r f t x X) as (S1 & S2 & S3 & S4 & _);
    [lia | lia | lia | unfold max_split_cents; lia |].
  exists x, (r - x)%Z. split; [|lia].
  f_equal. apply div100_of_cents, num_sub_Z. lia.
Qed.

(** ** Properties *)

(** Price of a booking.  For a seat price in whole cents, a whole service
    fee percentage and a flat fee in whole cents, the breakdown is exactly: the
    subtotal is price times seats, the fee is the percentage of the whole
    subtotal rounded half up to the cent plus the flat fee, and the total is
    their sum; every amount is the binary64 number closest to the euro amount. *)
Theorem calculateBookingPrice_correct (b seats p f : Z) (cur : option string) :
  (0 <= b)%Z -> (0 <= seats)%Z -> (0 <= p)%Z -> (0 <= f <= safe_cents)%Z ->
  (b * seats * Z.max 1 p <= safe_cents)%Z -> (b <= safe_cents)%Z ->
  let fee := ((b * seats * p + 50) / 100 + f)%Z in
  calculateBookingPrice {| PriceInput.basePricePerSeat := of_cents b;
                           PriceInput.seatsBooked := seats;
                           PriceInput.currency := cur;
                           PriceInput.serviceFeePercent := num_of_Z p;
                           PriceInput.serviceFeeFlat := of_cents f |}
  = {| PriceBreakdown.basePricePerSeat := of_cents b;
       PriceBreakdown.seatsBooked := seats;
       PriceBreakdown.subtotal := of_cents (b * seats);
       PriceBreakdown.luggageFee := of_cents 0;
       PriceBreakdown.serviceFee := of_cents fee;
       PriceBreakdown.totalPrice := of_cents (b * seats + fee);
       PriceBreakdown.currency := default "EUR" cur;
       PriceBreakdown.serviceFeePercent := num_of_Z p;
       PriceBreakdown.serviceFeeFlat := of_cents f |}.
Proof.
  intros Hb Hs Hp Hf Hm Hb' fee. unfold safe_cents in *.
  assert (0 <= b * seats)%Z by nia.
  assert (b * seats <= b * seats * Z.max 1 p)%Z by nia.
  assert (b * seats * p <= b * seats * Z.max 1 p)%Z by nia.
  assert (0 <= b * seats * p)%Z by nia.
  pose proof (Z.div_pos (b * seats * p + 50) 100).
  pose proof (Z.div_le_upper_bound (b * seats * p + 50) 100 1125899906842624).
  match goal with |- calculateBookingPrice ?i = _ => remember i as input eqn:I end.
  destruct (calculateBookingPrice_amounts input b f (b * seats) ((b * seats * p + 50) / 100))
    as (E1 & E2 & E3 & E4); rewrite ?I; cbn [PriceInput.basePricePerSeat PriceInput.seatsBooked
      PriceInput.serviceFeePercent PriceInput.serviceFeeFlat];
    rewrite ?to_cents_of_cents, ?num_mul_Z, ?math_round_div100 by (unfold safe_cents; lia);
    unfold safe_cents; try lia.
  rewrite <- I, (breakdown_eta (calculateBookingPrice input)), E1, E2, E3, E4, I. reflexivity.
Qed.

(** On whole cents the split either reads the fare off by subtraction or, when
    the fee exceeds the total, reports a negative fare. *)
Lemma resolvePaymentSplit_cents (r : PriceBreakdown.t) (t f : Z) :
  PriceBreakdown.totalPrice r = of_cents t -> PriceBreakdown.serviceFee r = of_cents f ->
  (Z.abs t <= safe_cents)%Z -> (Z.abs f <= safe_cents)%Z ->
  resolvePaymentSplit r =
    if (t <? f)%Z then Err "PAYMENT_SPLIT_NEGATIVE_FARE"
    else Ok {| PaymentSplit.amountTotal := of_cents t;
               PaymentSplit.fareAmount := of_cents (t - f);
               PaymentSplit.platformFeeAmount := of_cents f;
               PaymentSplit.currency := PriceBreakdown.currency r |}.
Proof.
  intros Et Ef Ht Hf. unfold resolvePaymentSplit. rewrite Et, Ef, !to_cents_of_cents by assumption.
  unfold safe_cents in *.
  assert (D : (num_of_Z t ⊖ num_of_Z f == num_of_Z (t - f))%Q) by (apply num_sub_Z; lia).
  assert (A : (num_of_Z (t - f) ⊕ num_of_Z f == num_of_Z t)%Q).
  { rewrite num_add_Z by lia. replace (t - f + f)%Z with t by lia. reflexivity. }
  assert (L : nlt (num_of_Z t ⊖ num_of_Z f) (num_of_Z 0) = (t <? f)%Z).
  { rewrite D, nlt_Z. destruct (Z.ltb_spec (t - f) 0), (Z.ltb_spec t f); lia. }
  assert (I : neqb (num_of_Z t ⊖ num_of_Z f ⊕ num_of_Z f) (num_of_Z t) = true).
  { rewrite D, A. apply neqb_refl. }
  rewrite L, I, (div100_of_cents _ _ D). reflexivity.
Qed.

(** The percentage fee of a fare of [s] cents lies between nothing and the fare
    for every rate between 0 and 100, whole or not. *)
Lemma percent_fee_bounds (s : Z) (p : num) :
  (0 <= s)%Z -> (s * 100 < 2 ^ 53)%Z -> (0 <= p)%Q -> (p <= 100)%Q ->
  (0 <= math_round (num_of_Z s ⊗ p ⊘ 100%Q) <= s)%Z.
Proof.
  intros Hs Hb Hp Hp'. unfold nmul, ndiv, num_of_Z.
  assert (S : (0 <= inject_Z s)%Q) by (rewrite <- (Zle_Qle 0); assumption).
  assert (R : (rnd (inject_Z s * p) <= inject_Z s * 100)%Q).
  { assert (E : (rnd (inject_Z s * 100) == inject_Z s * 100)%Q).
    { change 100%Q with (inject_Z 100). rewrite <- inject_Z_mult. apply rnd_Z. lia. }
    rewrite <- E. apply rnd_mono; nra. }
  assert (R0 : (0 <= rnd (inject_Z s * p))%Q) by (apply rnd_nonneg; nra).
  set (u := rnd (inject_Z s * p)) in *.
  assert (U : (u / 100 == u * (1 # 100))%Q) by reflexivity.
  split.
  - rewrite <- (math_round_Z 0) at 1. apply math_round_mono. apply rnd_nonneg. rewrite U. lra.
  - rewrite <- (math_round_Z s). apply math_round_mono.
    rewrite <- (rnd_Z s) by lia. apply rnd_mono; rewrite U; lra.
Qed.

(** The driver keeps the fare they set.  Whatever binary64 seat price and
    fee rate between 0 and 100 percent a booking is priced at, splitting the
    resulting breakdown never fails: the driver's fare is exactly the breakdown's
    subtotal, the platform's part is exactly its service fee, the total is what
    the rider is charged, and in cents the two parts add up to it. *)
Theorem resolvePaymentSplit_of_booking_price (input : PriceInput.t) :
  let s := (to_cents (PriceInput.basePricePerSeat input) * PriceInput.seatsBooked input)%Z in
  let F := to_cents (PriceInput.serviceFeeFlat input) in
  let r := calculateBookingPrice input in
  (0 <= s <= 1000000000000)%Z -> (0 <= F <= 1000000000000)%Z ->
  (0 <= PriceInput.serviceFeePercent input)%Q -> (PriceInput.serviceFeePercent input <= 100)%Q ->
  resolvePaymentSplit r = Ok {| PaymentSplit.amountTotal := PriceBreakdown.totalPrice r;
                                PaymentSplit.fareAmount := PriceBreakdown.subtotal r;
                                PaymentSplit.platformFeeAmount := PriceBreakdown.serviceFee r;
                                PaymentSplit.currency := PriceBreakdown.currency r |} /\
  (to_cents (PriceBreakdown.subtotal r) = s /\
   to_cents (PriceBreakdown.subtotal r) + to_cents (PriceBreakdown.serviceFee r)
     = to_cents (PriceBreakdown.totalPrice r))%Z.
Proof.
  intros s F r Hs HF Hp Hp'.
  pose proof (percent_fee_bounds s _ ltac:(lia) ltac:(lia) Hp Hp') as B.
  destruct (calculateBookingPrice_amounts input _ F s _ eq_refl eq_refl eq_refl eq_refl)
    as (E1 & _ & E3 & E4); [unfold safe_cents; lia ..|].
  set (pf := math_round (num_of_Z s ⊗ PriceInput.serviceFeePercent input ⊘ 100)) in *.
  fold r in E1, E3, E4.
  split.
  - rewrite (resolvePaymentSplit_cents r _ _ E4 E3) by (unfold safe_cents; lia).
    destruct (Z.ltb_spec (s + (pf + F)) (pf + F)); [lia|].
    rewrite E1, E3, E4. replace (s + (pf + F) - (pf + F))%Z with s by lia. reflexivity.
  - rewrite E1, E3, E4, !to_cents_of_cents by (unfold safe_cents; lia). lia.
Qed.

(** The identity the breakdown is documented to satisfy "exactly" holds in
    cents (C2) but not on the amounts themselves: one seat at 1.13 with the
    default 20 percent fee is charged 1.36, while adding the three reported
    parts as numbers gives 1.3599999999999999. *)
Theorem booking_price_parts_do_not_sum_exactly :
  exists input : PriceInput.t,
    PriceInput.basePricePerSeat input = of_cents 113 /\
    PriceInput.serviceFeePercent input = num_of_Z 20 /\
    let r := calculateBookingPrice input in
    neqb (PriceBreakdown.subtotal r ⊕ PriceBreakdown.luggageFee r ⊕ PriceBreakdown.serviceFee r)
         (PriceBreakdown.totalPrice r) = false.
Proof.
  exists {| PriceInput.basePricePerSeat := of_cents 113; PriceInput.seatsBooked := 1;
            PriceInput.currency := None; PriceInput.serviceFeePercent := num_of_Z 20;
            PriceInput.serviceFeeFlat := num_of_Z 0 |}.
  split; [reflexivity | split; [reflexivity | vm_compute; reflexivity]].
Qed.

(** Refund split.  A refund of at most the payment is divided into whole
    cents that add up to it exactly; neither part exceeds what that party
    received, and refunding everything takes back exactly the fare and the fee. *)
Theorem resolveRefundSplit_conserves (t f r : Z) :
  (0 <= r <= t)%Z -> (0 <= f <= t)%Z -> (t <= max_split_cents)%Z ->
  let split := resolveRefundSplit (of_cents t) (of_cents f) (of_cents r) in
  let x := to_cents (RefundSplit.fareRefundAmount split) in
  let y := to_cents (RefundSplit.feeRefundAmount split) in
  split = {| RefundSplit.fareRefundAmount := of_cents x; RefundSplit.feeRefundAmount := of_cents y |} /\
  (x + y = r)%Z /\ (0 <= x <= f)%Z /\ (0 <= y <= t - f)%Z /\ (r = t -> x = f /\ y = t - f)%Z.
Proof.
  intros Hr Hf Ht split. destruct (resolveRefundSplit_amounts t f r Hr Hf Ht) as (a & b & E & H).
  unfold max_split_cents in Ht. unfold split. rewrite E.
  cbn [RefundSplit.fareRefundAmount RefundSplit.feeRefundAmount].
  rewrite !to_cents_of_cents by (unfold safe_cents; lia). repeat split; lia.
Qed.

(** ** Witnesses *)

Lemma calculateBookingPrice_correct_witness :
  PriceBreakdown.totalPrice (calculateBookingPrice
    (PriceInput.Build_t (of_cents 330) 3 None (num_of_Z 20) (of_cents 0))) = of_cents 1188.
Proof.
  pose proof (calculateBookingPrice_correct 330 3 20 0 None) as H.
  rewrite H by (unfold safe_cents; lia). reflexivity.
Defined.

Lemma resolvePaymentSplit_of_booking_price_witness :
  let r := calculateBookingPrice (PriceInput.Build_t (of_cents 1005) 2 None (1 # 2) (of_cents 0)) in
  resolvePaymentSplit r = Ok {| PaymentSplit.amountTotal := PriceBreakdown.totalPrice r;
                                PaymentSplit.fareAmount := PriceBreakdown.subtotal r;
                                PaymentSplit.platformFeeAmount := PriceBreakdown.serviceFee r;
                                PaymentSplit.currency := PriceBreakdown.currency r |}.
Proof.
  pose proof (resolvePaymentSplit_of_booking_price
    (PriceInput.Build_t (of_cents 1005) 2 None (1 # 2) (of_cents 0))) as H.
  cbv zeta in H. apply H; vm_compute; try split; congruence.
Defined.

Lemma resolveRefundSplit_conserves_witness :
  resolveRefundSplit (of_cents 1020) (of_cents 1000) (of_cents 510)
    = {| RefundSplit.fareRefundAmount := of_cents 500; RefundSplit.feeRefundAmount := of_cents 10 |}.
Proof.
  pose proof (resolveRefundSplit_conserves 1020 1000 510) as H. cbv zeta in H.
  destruct H as (H & _); [unfold max_split_cents; lia .. |]. rewrite H. vm_compute. reflexivity.
Defined.
