(* ===== verification/Schema.v ===== *)
(** * Rows of the database

    The tables of [prisma/schema.prisma] the modelled handlers read and write: one Module
    per model, with the schema's scalar columns in the schema's order and [defaults] for
    its [@default] values.  A [DateTime] is a number of milliseconds since the epoch, a
    [Float] a JavaScript number, an [Int] an integer.  Relations are the foreign keys only;
    [updatedAt], which Prisma maintains by itself, is kept only where the code reads it.

    Columns the schema types [String] but the code uses as an enumeration
    ([PAYMENT_STATUSES], [ENTRY_TYPES], [ACCOUNT_TYPES], [DIRECTION], the payout,
    outbox and dispute statuses) have the enumeration's type; [User.salutation] and
    [Message.type] are the names of their enumerations' values. *)

From Stdlib Require Import ZArith.
From stdpp Require Import base strings.
From S2P Require Import Prelude JsNumber JsText.

(** ** Enumerations *)

Module PaymentStatus.
Inductive t : Set :=
| CREATED
| PAYMENT_PENDING
| PAID
| HELD_IN_ESCROW
| PAYOUT_ELIGIBLE
| TRANSFER_CREATED
| PAYOUT_COMPLETED
| REFUND_PENDING
| REFUNDED
| PAYMENT_FAILED.
#[global] Instance t_eq_dec : EqDecision t.
Proof. solve_decision. Defined.
End PaymentStatus.

Module EntryType.
Inductive t : Set :=
| RIDER_PAYMENT_RECEIVED
| DRIVER_EARNING_LIABILITY
| PLATFORM_FEE_REVENUE
| STRIPE_FEE_EXPENSE
| REFUND_TO_RIDER
| DRIVER_TRANSFER_CREATED
| PAYOUT_FAILURE_REVERSAL
| PLATFORM_FEE_REVERSAL.
#[global] Instance t_eq_dec : EqDecision t.
Proof. solve_decision. Defined.
End EntryType.

Module AccountType.
Inductive t : Set :=
| RIDER
| DRIVER
| PLATFORM
| PROVIDER.
#[global] Instance t_eq_dec : EqDecision t.
Proof. solve_decision. Defined.
End AccountType.

Module Direction.
Inductive t : Set :=
| DEBIT
| CREDIT.
#[global] Instance t_eq_dec : EqDecision t.
Proof. solve_decision. Defined.
End Direction.

Module PayoutStatus.
Inductive t : Set :=
| PENDING
| PROCESSING
| COMPLETED
| FAILED.
#[global] Instance t_eq_dec : EqDecision t.
Proof. solve_decision. Defined.
End PayoutStatus.

Module OutboxStatus.
Inductive t : Set :=
| PENDING
| PROCESSING
| PROCESSED
| FAILED.
#[global] Instance t_eq_dec : EqDecision t.
Proof. solve_decision. Defined.
End OutboxStatus.

Module DisputeStatus.
Inductive t : Set :=
| OPEN
| EVIDENCE_COLLECTED
| AUTO_RESOLVED_RIDER_REFUND
| AUTO_RESOLVED_DRIVER_PAYOUT
| NEEDS_MANUAL_REVIEW
| WAITING_FOR_USER_RESPONSE
| RESOLVED_REFUND
| RESOLVED_PAYOUT
| RESOLVED_SPLIT
| ESCALATED.
#[global] Instance t_eq_dec : EqDecision t.
Proof. solve_decision. Defined.
End DisputeStatus.

Module RideStatus.
Inductive t : Set :=
| DRAFT
| PUBLISHED
| SCHEDULED
| READY_TO_START
| IN_PROGRESS
| COMPLETION_PENDING
| COMPLETED
| CANCELLED
| EXPIRED
| DISPUTED.
#[global] Instance t_eq_dec : EqDecision t.
Proof. solve_decision. Defined.
End RideStatus.

Module BookingStatus.
Inductive t : Set :=
| PAYMENT_PENDING
| DRIVER_PENDING
| CONFIRMED
| WAITING_FOR_PICKUP
| DRIVER_ARRIVED
| OTP_PENDING
| ONBOARD
| DROP_PENDING
| DRIVER_DROPPED
| IN_PROGRESS
| PAYMENT_FAILED
| RIDE_FULL_REFUNDED
| CANCELLED
| COMPLETED
| NO_SHOW
| DRIVER_MISSED_PICKUP
| DISPUTED.
#[global] Instance t_eq_dec : EqDecision t.
Proof. solve_decision. Defined.
End BookingStatus.

Module WaypointType.
Inductive t : Set :=
| PICKUP
| DROPOFF
| STOPOVER.
#[global] Instance t_eq_dec : EqDecision t.
Proof. solve_decision. Defined.
End WaypointType.

Module Gender.
Inductive t : Set :=
| MALE
| FEMALE
| NON_BINARY
| OTHER
| PREFER_NOT_TO_SAY.
#[global] Instance t_eq_dec : EqDecision t.
Proof. solve_decision. Defined.
End Gender.

Module UserRole.
Inductive t : Set :=
| USER
| ADMIN.
#[global] Instance t_eq_dec : EqDecision t.
Proof. solve_decision. Defined.
End UserRole.

Module OnboardingStatus.
Inductive t : Set :=
| PENDING
| COMPLETED.
#[global] Instance t_eq_dec : EqDecision t.
Proof. solve_decision. Defined.
End OnboardingStatus.

(** The JSON payload of an outbox event: the fields its handlers read. *)
Record OutboxPayload := {
  payload_paymentId : option string;
  payload_bookingId : option string;
  payload_driverId : option string;
}.
Definition noPayload : OutboxPayload :=
  {| payload_paymentId := None; payload_bookingId := None; payload_driverId := None |}.

(** ** Rows *)

Module User.
Record t := {
  id : string;
  firstName : option string;
  lastName : option string;
  salutation : option string;
  gender : option Gender.t;
  dob : option Z;
  preferredLocale : option string;
  detectedCountry : option string;
  email : option string;
  phone : option string;
  emailVerified : bool;
  phoneVerified : bool;
  avatarUrl : option string;
  avatarKey : option string;
  referralCode : option string;
  referredByUserId : option string;
  role : UserRole.t;
  onboardingStatus : OnboardingStatus.t;
  isBanned : bool;
  isVerified : bool;
  dlVerified : bool;
  stripeAccountId : option string;
  stripeOnboardingComplete : bool;
  stripeAccountName : option string;
  stripeNameMatch : option bool;
  stripeDobMatch : option bool;
  tosAcceptedAt : option Z;
  tosVersion : option string;
  privacyAcceptedAt : option Z;
  privacyVersion : option string;
  createdAt : Z;
}.
#[global] Instance t_eta : Eta t := fun r => Build_t
  (id r) (firstName r) (lastName r) (salutation r) (gender r) (dob r) (preferredLocale r) (detectedCountry r)
  (email r) (phone r) (emailVerified r) (phoneVerified r) (avatarUrl r) (avatarKey r)
  (referralCode r) (referredByUserId r) (role r) (onboardingStatus r) (isBanned r) (isVerified r) (dlVerified r)
  (stripeAccountId r) (stripeOnboardingComplete r) (stripeAccountName r) (stripeNameMatch r)
  (stripeDobMatch r) (tosAcceptedAt r) (tosVersion r) (privacyAcceptedAt r) (privacyVersion r)
  (createdAt r).
Definition defaults (id : string) (at_ : Z) : t := {|
  id := id;
  firstName := None;
  lastName := None;
  salutation := None;
  gender := None;
  dob := None;
  preferredLocale := None;
  detectedCountry := None;
  email := None;
  phone := None;
  emailVerified := false;
  phoneVerified := false;
  avatarUrl := None;
  avatarKey := None;
  referralCode := None;
  referredByUserId := None;
  role := UserRole.USER;
  onboardingStatus := OnboardingStatus.PENDING;
  isBanned := false;
  isVerified := false;
  dlVerified := false;
  stripeAccountId := None;
  stripeOnboardingComplete := false;
  stripeAccountName := None;
  stripeNameMatch := None;
  stripeDobMatch := None;
  tosAcceptedAt := None;
  tosVersion := None;
  privacyAcceptedAt := None;
  privacyVersion := None;
  createdAt := at_ |}.
End User.

Module Ride.
Record t := {
  id : string;
  driverId : string;
  vehicleId : option string;
  originPlaceId : string;
  originAddress : string;
  originLat : num;
  originLng : num;
  destinationPlaceId : string;
  destinationAddress : string;
  destinationLat : num;
  destinationLng : num;
  routePolyline : option string;
  routeDistanceMeters : option Z;
  routeDurationSeconds : option Z;
  departureDate : Z;
  departureTime : string;
  totalSeats : Z;
  availableSeats : Z;
  basePricePerSeat : num;
  currency : string;
  maxLuggagePerPerson : Z;
  backSeatOnly : bool;
  femaleOnly : bool;
  noSmoking : bool;
  alcoholFreeRide : bool;
  noBicycles : bool;
  childSeatAvailable : bool;
  notes : option string;
  status : RideStatus.t;
  actualStartTime : option Z;
  actualEndTime : option Z;
  currentStopSequence : option Z;
  createdAt : Z;
}.
#[global] Instance t_eta : Eta t := fun r => Build_t
  (id r) (driverId r) (vehicleId r) (originPlaceId r) (originAddress r) (originLat r)
  (originLng r) (destinationPlaceId r) (destinationAddress r) (destinationLat r)
  (destinationLng r) (routePolyline r) (routeDistanceMeters r) (routeDurationSeconds r)
  (departureDate r) (departureTime r) (totalSeats r) (availableSeats r) (basePricePerSeat r)
  (currency r) (maxLuggagePerPerson r) (backSeatOnly r) (femaleOnly r) (noSmoking r)
  (alcoholFreeRide r) (noBicycles r) (childSeatAvailable r) (notes r) (status r)
  (actualStartTime r) (actualEndTime r) (currentStopSequence r) (createdAt r).
Definition defaults (id : string) (at_ : Z) : t := {|
  id := id;
  driverId := EmptyString;
  vehicleId := None;
  originPlaceId := EmptyString;
  originAddress := EmptyString;
  originLat := num_of_Z 0;
  originLng := num_of_Z 0;
  destinationPlaceId := EmptyString;
  destinationAddress := EmptyString;
  destinationLat := num_of_Z 0;
  destinationLng := num_of_Z 0;
  routePolyline := None;
  routeDistanceMeters := None;
  routeDurationSeconds := None;
  departureDate := 0%Z;
  departureTime := EmptyString;
  totalSeats := 0%Z;
  availableSeats := 0%Z;
  basePricePerSeat := num_of_Z 0;
  currency := "EUR"%string;
  maxLuggagePerPerson := 2%Z;
  backSeatOnly := false;
  femaleOnly := false;
  noSmoking := false;
  alcoholFreeRide := false;
  noBicycles := false;
  childSeatAvailable := false;
  notes := None;
  status := RideStatus.DRAFT;
  actualStartTime := None;
  actualEndTime := None;
  currentStopSequence := None;
  createdAt := at_ |}.
End Ride.

Module RideWaypoint.
Record t := {
  id : string;
  rideId : string;
  placeId : string;
  address : string;
  lat : num;
  lng : num;
  waypointType : WaypointType.t;
  orderIndex : Z;
  pricePerSeat : option num;
  estimatedArrivalTime : option string;
  createdAt : Z;
}.
#[global] Instance t_eta : Eta t := fun r => Build_t
  (id r) (rideId r) (placeId r) (address r) (lat r) (lng r) (waypointType r) (orderIndex r)
  (pricePerSeat r) (estimatedArrivalTime r) (createdAt r).
Definition defaults (id : string) (at_ : Z) : t := {|
  id := id;
  rideId := EmptyString;
  placeId := EmptyString;
  address := EmptyString;
  lat := num_of_Z 0;
  lng := num_of_Z 0;
  waypointType := WaypointType.STOPOVER;
  orderIndex := 0%Z;
  pricePerSeat := None;
  estimatedArrivalTime := None;
  createdAt := at_ |}.
End RideWaypoint.

Module RideSegmentCapacity.
Record t := {
  id : string;
  rideId : string;
  fromPosition : Z;
  toPosition : Z;
  occupiedSeats : Z;
}.
#[global] Instance t_eta : Eta t := fun r => Build_t
  (id r) (rideId r) (fromPosition r) (toPosition r) (occupiedSeats r).
Definition defaults (id : string) (at_ : Z) : t := {|
  id := id;
  rideId := EmptyString;
  fromPosition := 0%Z;
  toPosition := 0%Z;
  occupiedSeats := 0%Z |}.
End RideSegmentCapacity.

Module RideBooking.
Record t := {
  id : string;
  rideId : string;
  passengerId : string;
  pickupWaypointId : option string;
  dropoffWaypointId : option string;
  pickupAddress : option string;
  dropoffAddress : option string;
  segmentFare : option num;
  pickupPosition : option Z;
  dropoffPosition : option Z;
  seatsBooked : Z;
  totalPrice : num;
  serviceFeeAmount : option num;
  serviceFeePercent : option num;
  status : BookingStatus.t;
  seatsReservedAt : option Z;
  stripePaymentIntentId : option string;
  stripeChargeId : option string;
  paymentAmount : option num;
  paymentCurrency : option string;
  paymentCapturedAt : option Z;
  refundId : option string;
  refundedAt : option Z;
  refundAmount : option num;
  refundPercent : option num;
  driverDecisionDeadlineAt : option Z;
  driverDecisionAt : option Z;
  deadlineExpiredNotifiedAt : option Z;
  deadlineExtendedAt : option Z;
  autoCancelledAt : option Z;
  cancelledAt : option Z;
  cancelledByRole : option string;
  cancellationReason : option string;
  driverRejectionReason : option string;
  driverCancellationReason : option string;
  driverPenaltyAppliedAt : option Z;
  driverPenaltyValue : option num;
  pickupOtp : option string;
  dropOtp : option string;
  pickupOtpHash : option string;
  pickupOtpExpiresAt : option Z;
  pickupOtpVerifiedAt : option Z;
  dropOtpHash : option string;
  dropOtpExpiresAt : option Z;
  dropOtpVerifiedAt : option Z;
  otpAttemptCount : Z;
  responseExpiryOption : option string;
  responseExpiryHours : option Z;
  captureMethod : option string;
  withdrawnAt : option Z;
  withdrawnReason : option string;
  reminderSentAt : option Z;
  driverArrivedAt : option Z;
  waitTimerStartedAt : option Z;
  onboardedAt : option Z;
  dropoffConfirmedAt : option Z;
  riderDropoffConfirmedAt : option Z;
  noShowMarkedAt : option Z;
  completedAt : option Z;
  createdAt : Z;
}.
#[global] Instance t_eta : Eta t := fun r => Build_t
  (id r) (rideId r) (passengerId r) (pickupWaypointId r) (dropoffWaypointId r) (pickupAddress r)
  (dropoffAddress r) (segmentFare r) (pickupPosition r) (dropoffPosition r) (seatsBooked r)
  (totalPrice r) (serviceFeeAmount r) (serviceFeePercent r) (status r) (seatsReservedAt r)
  (stripePaymentIntentId r) (stripeChargeId r) (paymentAmount r) (paymentCurrency r)
  (paymentCapturedAt r) (refundId r) (refundedAt r) (refundAmount r) (refundPercent r)
  (driverDecisionDeadlineAt r) (driverDecisionAt r) (deadlineExpiredNotifiedAt r)
  (deadlineExtendedAt r) (autoCancelledAt r) (cancelledAt r) (cancelledByRole r)
  (cancellationReason r) (driverRejectionReason r) (driverCancellationReason r)
  (driverPenaltyAppliedAt r) (driverPenaltyValue r) (pickupOtp r) (dropOtp r) (pickupOtpHash r)
  (pickupOtpExpiresAt r) (pickupOtpVerifiedAt r) (dropOtpHash r) (dropOtpExpiresAt r)
  (dropOtpVerifiedAt r) (otpAttemptCount r) (responseExpiryOption r) (responseExpiryHours r)
  (captureMethod r) (withdrawnAt r) (withdrawnReason r) (reminderSentAt r) (driverArrivedAt r)
  (waitTimerStartedAt r) (onboardedAt r) (dropoffConfirmedAt r) (riderDropoffConfirmedAt r)
  (noShowMarkedAt r) (completedAt r) (createdAt r).
Definition defaults (id : string) (at_ : Z) : t := {|
  id := id;
  rideId := EmptyString;
  passengerId := EmptyString;
  pickupWaypointId := None;
  dropoffWaypointId := None;
  pickupAddress := None;
  dropoffAddress := None;
  segmentFare := None;
  pickupPosition := None;
  dropoffPosition := None;
  seatsBooked := 1%Z;
  totalPrice := num_of_Z 0;
  serviceFeeAmount := None;
  serviceFeePercent := None;
  status := BookingStatus.PAYMENT_PENDING;
  seatsReservedAt := None;
  stripePaymentIntentId := None;
  stripeChargeId := None;
  paymentAmount := None;
  paymentCurrency := None;
  paymentCapturedAt := None;
  refundId := None;
  refundedAt := None;
  refundAmount := None;
  refundPercent := None;
  driverDecisionDeadlineAt := None;
  driverDecisionAt := None;
  deadlineExpiredNotifiedAt := None;
  deadlineExtendedAt := None;
  autoCancelledAt := None;
  cancelledAt := None;
  cancelledByRole := None;
  cancellationReason := None;
  driverRejectionReason := None;
  driverCancellationReason := None;
  driverPenaltyAppliedAt := None;
  driverPenaltyValue := None;
  pickupOtp := None;
  dropOtp := None;
  pickupOtpHash := None;
  pickupOtpExpiresAt := None;
  pickupOtpVerifiedAt := None;
  dropOtpHash := None;
  dropOtpExpiresAt := None;
  dropOtpVerifiedAt := None;
  otpAttemptCount := 0%Z;
  responseExpiryOption := None;
  responseExpiryHours := None;
  captureMethod := Some "automatic"%string;
  withdrawnAt := None;
  withdrawnReason := None;
  reminderSentAt := None;
  driverArrivedAt := None;
  waitTimerStartedAt := None;
  onboardedAt := None;
  dropoffConfirmedAt := None;
  riderDropoffConfirmedAt := None;
  noShowMarkedAt := None;
  completedAt := None;
  createdAt := at_ |}.
End RideBooking.

Module RideRequest.
Record t := {
  id : string;
  riderId : string;
  originPlaceId : string;
  originAddress : string;
  originLat : num;
  originLng : num;
  destinationPlaceId : string;
  destinationAddress : string;
  destinationLat : num;
  destinationLng : num;
  departureAfter : Z;
  departureBefore : Z;
  seats : Z;
  luggage : Z;
  budgetPerSeat : option num;
  notes : option string;
  status : string;
  expiresAt : Z;
  checkoutExpiresAt : option Z;
  createdAt : Z;
}.
#[global] Instance t_eta : Eta t := fun r => Build_t
  (id r) (riderId r) (originPlaceId r) (originAddress r) (originLat r) (originLng r)
  (destinationPlaceId r) (destinationAddress r) (destinationLat r) (destinationLng r)
  (departureAfter r) (departureBefore r) (seats r) (luggage r) (budgetPerSeat r) (notes r)
  (status r) (expiresAt r) (checkoutExpiresAt r) (createdAt r).
Definition defaults (id : string) (at_ : Z) : t := {|
  id := id;
  riderId := EmptyString;
  originPlaceId := EmptyString;
  originAddress := EmptyString;
  originLat := num_of_Z 0;
  originLng := num_of_Z 0;
  destinationPlaceId := EmptyString;
  destinationAddress := EmptyString;
  destinationLat := num_of_Z 0;
  destinationLng := num_of_Z 0;
  departureAfter := 0%Z;
  departureBefore := 0%Z;
  seats := 0%Z;
  luggage := 0%Z;
  budgetPerSeat := None;
  notes := None;
  status := "OPEN"%string;
  expiresAt := 0%Z;
  checkoutExpiresAt := None;
  createdAt := at_ |}.
End RideRequest.

Module RideRequestOffer.
Record t := {
  id : string;
  requestId : string;
  driverId : string;
  rideId : string;
  bookingId : option string;
  status : string;
  expiresAt : Z;
  createdAt : Z;
}.
#[global] Instance t_eta : Eta t := fun r => Build_t
  (id r) (requestId r) (driverId r) (rideId r) (bookingId r) (status r) (expiresAt r)
  (createdAt r).
Definition defaults (id : string) (at_ : Z) : t := {|
  id := id;
  requestId := EmptyString;
  driverId := EmptyString;
  rideId := EmptyString;
  bookingId := None;
  status := "OPEN"%string;
  expiresAt := 0%Z;
  createdAt := at_ |}.
End RideRequestOffer.

Module Payment.
Record t := {
  id : string;
  bookingId : string;
  rideId : string;
  riderId : string;
  stripePaymentIntentId : option string;
  amountTotal : num;
  currency : string;
  fareAmount : num;
  platformFeeAmount : num;
  refundedFareAmount : num;
  refundedFeeAmount : num;
  status : PaymentStatus.t;
  failureReason : option string;
  payoutEligibleAt : option Z;
  createdAt : Z;
}.
#[global] Instance t_eta : Eta t := fun r => Build_t
  (id r) (bookingId r) (rideId r) (riderId r) (stripePaymentIntentId r) (amountTotal r)
  (currency r) (fareAmount r) (platformFeeAmount r) (refundedFareAmount r) (refundedFeeAmount r)
  (status r) (failureReason r) (payoutEligibleAt r) (createdAt r).
Definition defaults (id : string) (at_ : Z) : t := {|
  id := id;
  bookingId := EmptyString;
  rideId := EmptyString;
  riderId := EmptyString;
  stripePaymentIntentId := None;
  amountTotal := num_of_Z 0;
  currency := EmptyString;
  fareAmount := num_of_Z 0;
  platformFeeAmount := num_of_Z 0;
  refundedFareAmount := num_of_Z 0;
  refundedFeeAmount := num_of_Z 0;
  status := PaymentStatus.CREATED;
  failureReason := None;
  payoutEligibleAt := None;
  createdAt := at_ |}.
End Payment.

Module LedgerEntry.
Record t := {
  id : string;
  entryGroupId : string;
  paymentId : option string;
  bookingId : option string;
  userId : option string;
  accountType : AccountType.t;
  entryType : EntryType.t;
  direction : Direction.t;
  amount : num;
  currency : string;
  metadataJson : option string;
  createdAt : Z;
}.
#[global] Instance t_eta : Eta t := fun r => Build_t
  (id r) (entryGroupId r) (paymentId r) (bookingId r) (userId r) (accountType r) (entryType r)
  (direction r) (amount r) (currency r) (metadataJson r) (createdAt r).
Definition defaults (id : string) (at_ : Z) : t := {|
  id := id;
  entryGroupId := EmptyString;
  paymentId := None;
  bookingId := None;
  userId := None;
  accountType := AccountType.RIDER;
  entryType := EntryType.RIDER_PAYMENT_RECEIVED;
  direction := Direction.DEBIT;
  amount := num_of_Z 0;
  currency := EmptyString;
  metadataJson := None;
  createdAt := at_ |}.
End LedgerEntry.

Module PayoutBatch.
Record t := {
  id : string;
  driverId : string;
  status : PayoutStatus.t;
  currency : string;
  amountTotal : num;
  stripeTransferId : option string;
  stripePayoutId : option string;
  failureReason : option string;
  createdAt : Z;
}.
#[global] Instance t_eta : Eta t := fun r => Build_t
  (id r) (driverId r) (status r) (currency r) (amountTotal r) (stripeTransferId r)
  (stripePayoutId r) (failureReason r) (createdAt r).
Definition defaults (id : string) (at_ : Z) : t := {|
  id := id;
  driverId := EmptyString;
  status := PayoutStatus.PENDING;
  currency := EmptyString;
  amountTotal := num_of_Z 0;
  stripeTransferId := None;
  stripePayoutId := None;
  failureReason := None;
  createdAt := at_ |}.
End PayoutBatch.

Module PayoutItem.
Record t := {
  id : string;
  payoutBatchId : string;
  bookingId : string;
  paymentId : string;
  driverAmount : num;
  platformFee : num;
  status : PayoutStatus.t;
  createdAt : Z;
}.
#[global] Instance t_eta : Eta t := fun r => Build_t
  (id r) (payoutBatchId r) (bookingId r) (paymentId r) (driverAmount r) (platformFee r)
  (status r) (createdAt r).
Definition defaults (id : string) (at_ : Z) : t := {|
  id := id;
  payoutBatchId := EmptyString;
  bookingId := EmptyString;
  paymentId := EmptyString;
  driverAmount := num_of_Z 0;
  platformFee := num_of_Z 0;
  status := PayoutStatus.PENDING;
  createdAt := at_ |}.
End PayoutItem.

Module PaymentEventOutbox.
Record t := {
  id : string;
  eventType : string;
  aggregateType : string;
  aggregateId : string;
  payloadJson : OutboxPayload;
  status : OutboxStatus.t;
  retryCount : Z;
  nextRetryAt : option Z;
  createdAt : Z;
  processedAt : option Z;
}.
#[global] Instance t_eta : Eta t := fun r => Build_t
  (id r) (eventType r) (aggregateType r) (aggregateId r) (payloadJson r) (status r)
  (retryCount r) (nextRetryAt r) (createdAt r) (processedAt r).
Definition defaults (id : string) (at_ : Z) : t := {|
  id := id;
  eventType := EmptyString;
  aggregateType := EmptyString;
  aggregateId := EmptyString;
  payloadJson := noPayload;
  status := OutboxStatus.PENDING;
  retryCount := 0%Z;
  nextRetryAt := None;
  createdAt := at_;
  processedAt := None |}.
End PaymentEventOutbox.

Module PricingConfig.
Record t := {
  id : string;
  regionCode : string;
  currency : string;
  minRatePerKm : num;
  recommendedRatePerKm : num;
  maxRatePerKm : num;
  minimumSeatPrice : num;
  roundingStrategy : string;
  serviceFeePercent : num;
  serviceFeeFlat : num;
  active : bool;
  validFrom : Z;
  validTo : option Z;
  createdBy : option string;
  createdAt : Z;
}.
#[global] Instance t_eta : Eta t := fun r => Build_t
  (id r) (regionCode r) (currency r) (minRatePerKm r) (recommendedRatePerKm r) (maxRatePerKm r)
  (minimumSeatPrice r) (roundingStrategy r) (serviceFeePercent r) (serviceFeeFlat r) (active r)
  (validFrom r) (validTo r) (createdBy r) (createdAt r).
Definition defaults (id : string) (at_ : Z) : t := {|
  id := id;
  regionCode := EmptyString;
  currency := "EUR"%string;
  minRatePerKm := num_of_Z 0;
  recommendedRatePerKm := num_of_Z 0;
  maxRatePerKm := num_of_Z 0;
  minimumSeatPrice := num_of_Z 3;
  roundingStrategy := "NEAREST_EURO"%string;
  serviceFeePercent := num_of_Z 20;
  serviceFeeFlat := num_of_Z 0;
  active := true;
  validFrom := at_;
  validTo := None;
  createdBy := None;
  createdAt := at_ |}.
End PricingConfig.

Module RidePricingSnapshot.
Record t := {
  id : string;
  rideId : string;
  pricingVersion : string;
  regionCode : string;
  currency : string;
  distanceKm : num;
  minRatePerKm : num;
  recommendedRatePerKm : num;
  maxRatePerKm : num;
  minimumSeatPrice : num;
  recommendedPricePerSeat : num;
  minAllowedPricePerSeat : num;
  maxAllowedPricePerSeat : num;
  selectedPricePerSeat : num;
  roundingStrategy : string;
  serviceFeePercent : num;
  serviceFeeFlat : num;
  createdAt : Z;
}.
#[global] Instance t_eta : Eta t := fun r => Build_t
  (id r) (rideId r) (pricingVersion r) (regionCode r) (currency r) (distanceKm r)
  (minRatePerKm r) (recommendedRatePerKm r) (maxRatePerKm r) (minimumSeatPrice r)
  (recommendedPricePerSeat r) (minAllowedPricePerSeat r) (maxAllowedPricePerSeat r)
  (selectedPricePerSeat r) (roundingStrategy r) (serviceFeePercent r) (serviceFeeFlat r)
  (createdAt r).
Definition defaults (id : string) (at_ : Z) : t := {|
  id := id;
  rideId := EmptyString;
  pricingVersion := "DISTANCE_RATE_V1"%string;
  regionCode := EmptyString;
  currency := EmptyString;
  distanceKm := num_of_Z 0;
  minRatePerKm := num_of_Z 0;
  recommendedRatePerKm := num_of_Z 0;
  maxRatePerKm := num_of_Z 0;
  minimumSeatPrice := num_of_Z 0;
  recommendedPricePerSeat := num_of_Z 0;
  minAllowedPricePerSeat := num_of_Z 0;
  maxAllowedPricePerSeat := num_of_Z 0;
  selectedPricePerSeat := num_of_Z 0;
  roundingStrategy := EmptyString;
  serviceFeePercent := num_of_Z 0;
  serviceFeeFlat := num_of_Z 0;
  createdAt := at_ |}.
End RidePricingSnapshot.

Module DriverPenaltyEvent.
Record t := {
  id : string;
  driverId : string;
  bookingId : string;
  penaltyPercent : num;
  reason : string;
  createdAt : Z;
}.
#[global] Instance t_eta : Eta t := fun r => Build_t
  (id r) (driverId r) (bookingId r) (penaltyPercent r) (reason r) (createdAt r).
Definition defaults (id : string) (at_ : Z) : t := {|
  id := id;
  driverId := EmptyString;
  bookingId := EmptyString;
  penaltyPercent := num_of_Z 0;
  reason := EmptyString;
  createdAt := at_ |}.
End DriverPenaltyEvent.

Module Dispute.
Record t := {
  id : string;
  rideId : string;
  bookingId : string;
  raisedBy : string;
  reason : string;
  description : option string;
  status : DisputeStatus.t;
  evidenceJson : option Json;
  recommendation : option string;
  riskScore : option num;
  resolution : option string;
  resolvedBy : option string;
  createdAt : Z;
  resolvedAt : option Z;
}.
#[global] Instance t_eta : Eta t := fun r => Build_t
  (id r) (rideId r) (bookingId r) (raisedBy r) (reason r) (description r) (status r)
  (evidenceJson r) (recommendation r) (riskScore r) (resolution r) (resolvedBy r) (createdAt r)
  (resolvedAt r).
Definition defaults (id : string) (at_ : Z) : t := {|
  id := id;
  rideId := EmptyString;
  bookingId := EmptyString;
  raisedBy := EmptyString;
  reason := EmptyString;
  description := None;
  status := DisputeStatus.OPEN;
  evidenceJson := None;
  recommendation := None;
  riskScore := None;
  resolution := None;
  resolvedBy := None;
  createdAt := at_;
  resolvedAt := None |}.
End Dispute.

Module ReconciliationIssue.
Record t := {
  id : string;
  paymentId : option string;
  bookingId : option string;
  issueType : string;
  severity : string;
  description : string;
  stripeState : option string;
  internalState : option string;
  detectedAt : Z;
  autoRepaired : bool;
  repairedAt : option Z;
  resolvedBy : option string;
  resolvedAt : option Z;
  resolution : option string;
  metadataJson : option Json;
}.
#[global] Instance t_eta : Eta t := fun r => Build_t
  (id r) (paymentId r) (bookingId r) (issueType r) (severity r) (description r) (stripeState r)
  (internalState r) (detectedAt r) (autoRepaired r) (repairedAt r) (resolvedBy r) (resolvedAt r)
  (resolution r) (metadataJson r).
Definition defaults (id : string) (at_ : Z) : t := {|
  id := id;
  paymentId := None;
  bookingId := None;
  issueType := EmptyString;
  severity := "MEDIUM"%string;
  description := EmptyString;
  stripeState := None;
  internalState := None;
  detectedAt := at_;
  autoRepaired := false;
  repairedAt := None;
  resolvedBy := None;
  resolvedAt := None;
  resolution := None;
  metadataJson := None |}.
End ReconciliationIssue.

Module RewardCampaign.
Record t := {
  id : string;
  code : string;
  name : string;
  audience : string;
  triggerType : string;
  thresholdCount : Z;
  rewardAmount : num;
  currency : string;
  active : bool;
  repeatable : bool;
  description : option string;
  terms : option string;
  metadataJson : option Json;
  startsAt : option Z;
  endsAt : option Z;
  createdById : option string;
  updatedById : option string;
  createdAt : Z;
  updatedAt : Z;
}.
#[global] Instance t_eta : Eta t := fun r => Build_t (id r) (code r) (name r) (audience r)
  (triggerType r) (thresholdCount r) (rewardAmount r) (currency r) (active r) (repeatable r)
  (description r) (terms r) (metadataJson r) (startsAt r) (endsAt r) (createdById r)
  (updatedById r) (createdAt r) (updatedAt r).
End RewardCampaign.

Module RewardReferral.
Record t := {
  id : string;
  referrerUserId : string;
  referredUserId : string;
  referralCode : option string;
  qualificationType : option string;
  qualificationSourceId : option string;
  status : string;
  firstQualifiedAt : option Z;
  rewardedAt : option Z;
  createdAt : Z;
}.
#[global] Instance t_eta : Eta t := fun r => Build_t (id r) (referrerUserId r) (referredUserId r)
  (referralCode r) (qualificationType r) (qualificationSourceId r) (status r) (firstQualifiedAt r)
  (rewardedAt r) (createdAt r).
End RewardReferral.

Module RewardWalletEntry.
Record t := {
  id : string;
  userId : string;
  walletType : string;
  entryType : string;
  direction : string;
  amount : num;
  currency : string;
  sourceType : string;
  sourceId : string;
  campaignId : option string;
  referralId : option string;
  description : option string;
  metadataJson : option Json;
  idempotencyKey : string;
  createdById : option string;
  previousHash : option string;
  entryHash : option string;
  reversalOfEntryId : option string;
  createdAt : Z;
}.
#[global] Instance t_eta : Eta t := fun r => Build_t (id r) (userId r) (walletType r)
  (entryType r) (direction r) (amount r) (currency r) (sourceType r) (sourceId r) (campaignId r)
  (referralId r) (description r) (metadataJson r) (idempotencyKey r) (createdById r)
  (previousHash r) (entryHash r) (reversalOfEntryId r) (createdAt r).
End RewardWalletEntry.

(** Stored under [actionId], the client's key for idempotency, which is unique. *)
Module RideEvent.
Record t := {
  id : string;
  rideId : string;
  bookingId : option string;
  actionId : string;
  eventType : string;
  actorType : string;
  actorId : string;
  lat : option num;
  lng : option num;
  clientTimestamp : Z;
  serverTimestamp : Z;
  validationStatus : string;
  metadataJson : option Json;
}.
#[global] Instance t_eta : Eta t := fun r => Build_t (id r) (rideId r) (bookingId r) (actionId r)
  (eventType r) (actorType r) (actorId r) (lat r) (lng r) (clientTimestamp r) (serverTimestamp r)
  (validationStatus r) (metadataJson r).
End RideEvent.

Module LocationUpdate.
Record t := {
  id : string;
  rideId : string;
  driverId : string;
  lat : num;
  lng : num;
  speed : option num;
  heading : option num;
  accuracy : option num;
  timestamp : Z;
}.
#[global] Instance t_eta : Eta t := fun r => Build_t (id r) (rideId r) (driverId r) (lat r)
  (lng r) (speed r) (heading r) (accuracy r) (timestamp r).
End LocationUpdate.

Module TrackingLink.
Record t := {
  id : string;
  bookingId : string;
  token : string;
  tokenHash : string;
  expiresAt : Z;
  accessScope : string;
  createdBy : string;
}.
#[global] Instance t_eta : Eta t := fun r => Build_t (id r) (bookingId r) (token r) (tokenHash r)
  (expiresAt r) (accessScope r) (createdBy r).
End TrackingLink.

(** ** Vehicles, licences and ratings *)

Module VehicleType.
Inductive t : Set :=
| sedan
| hatchback
| suv
| minibus
| coupe
| convertible
| pickup
| van.
#[global] Instance t_eq_dec : EqDecision t.
Proof. solve_decision. Defined.
End VehicleType.

Module VehicleVerificationStatus.
Inductive t : Set :=
| PENDING
| APPROVED
| REJECTED.
#[global] Instance t_eq_dec : EqDecision t.
Proof. solve_decision. Defined.
End VehicleVerificationStatus.

Module DlVerificationStatus.
Inductive t : Set :=
| PENDING
| APPROVED
| DECLINED
| RESUBMISSION_REQUESTED
| EXPIRED
| IDENTITY_MISMATCH
| SUPERSEDED.
#[global] Instance t_eq_dec : EqDecision t.
Proof. solve_decision. Defined.
End DlVerificationStatus.

Module Vehicle.
Record t := {
  id : string;
  userId : string;
  licenseCountry : string;
  licenseNumber : string;
  brand : option string;
  model_num : option string;
  model_name : option string;
  type : option VehicleType.t;
  color : option string;
  year : option Z;
  imageUrl : option string;
  imageKey : option string;
  isVerified : bool;
  deletedAt : option Z;
  verificationStatus : VehicleVerificationStatus.t;
  rejectionReason : option string;
  reviewedAt : option Z;
  reviewedById : option string;
  documentIssueNotifiedAt : option Z;
  createdAt : Z;
}.
#[global] Instance t_eta : Eta t := fun r => Build_t
  (id r) (userId r) (licenseCountry r) (licenseNumber r) (brand r) (model_num r)
  (model_name r) (type r) (color r) (year r) (imageUrl r) (imageKey r) (isVerified r)
  (deletedAt r) (verificationStatus r) (rejectionReason r) (reviewedAt r) (reviewedById r)
  (documentIssueNotifiedAt r) (createdAt r).
Definition defaults (id : string) (at_ : Z) : t := {|
  id := id;
  userId := EmptyString;
  licenseCountry := EmptyString;
  licenseNumber := EmptyString;
  brand := None;
  model_num := None;
  model_name := None;
  type := None;
  color := None;
  year := None;
  imageUrl := None;
  imageKey := None;
  isVerified := false;
  deletedAt := None;
  verificationStatus := VehicleVerificationStatus.PENDING;
  rejectionReason := None;
  reviewedAt := None;
  reviewedById := None;
  documentIssueNotifiedAt := None;
  createdAt := at_ |}.
End Vehicle.

Module DocumentType.
Inductive t : Set :=
| VEHICLE_IMAGE
| VEHICLE_IMAGE_FRONT
| VEHICLE_IMAGE_BACK
| VEHICLE_DOCUMENT
| DRIVING_LICENSE
| INSURANCE_DOCUMENT.
#[global] Instance t_eq_dec : EqDecision t.
Proof. solve_decision. Defined.
End DocumentType.

Module VehicleDocument.
Record t := {
  id : string;
  vehicleId : string;
  image : option string;
  imageKey : option string;
  documentType : DocumentType.t;
  storageMissingAt : option Z;
  storageCheckedAt : option Z;
  createdAt : Z;
}.
#[global] Instance t_eta : Eta t := fun r => Build_t
  (id r) (vehicleId r) (image r) (imageKey r) (documentType r) (storageMissingAt r) (storageCheckedAt r) (createdAt r).
End VehicleDocument.

Module DlVerification.
Record t := {
  id : string;
  userId : string;
  veriffSessionId : string;
  veriffSessionUrl : string;
  status : DlVerificationStatus.t;
  decisionCode : option Z;
  reasonCode : option string;
  decisionPayload : option Json;
  verifiedName : option string;
  verifiedDob : option string;
  verifiedGender : option string;
  nameMatch : option bool;
  dobMatch : option bool;
  genderMatch : option bool;
  submittedAt : option Z;
  documentImageKey : option string;
  declineReason : option string;
  reviewedById : option string;
  reviewedAt : option Z;
  createdAt : Z;
  updatedAt : Z;
}.
#[global] Instance t_eta : Eta t := fun r => Build_t
  (id r) (userId r) (veriffSessionId r) (veriffSessionUrl r) (status r) (decisionCode r)
  (reasonCode r) (decisionPayload r) (verifiedName r) (verifiedDob r) (verifiedGender r) (nameMatch r)
  (dobMatch r) (genderMatch r) (submittedAt r) (documentImageKey r) (declineReason r)
  (reviewedById r) (reviewedAt r) (createdAt r) (updatedAt r).
Definition defaults (id : string) (at_ : Z) : t := {|
  id := id;
  userId := EmptyString;
  veriffSessionId := EmptyString;
  veriffSessionUrl := EmptyString;
  status := DlVerificationStatus.PENDING;
  decisionCode := None;
  reasonCode := None;
  decisionPayload := None;
  verifiedName := None;
  verifiedDob := None;
  verifiedGender := None;
  nameMatch := None;
  dobMatch := None;
  genderMatch := None;
  submittedAt := None;
  documentImageKey := None;
  declineReason := None;
  reviewedById := None;
  reviewedAt := None;
  createdAt := at_;
  updatedAt := at_ |}.
End DlVerification.

Module RideRating.
Record t := {
  id : string;
  bookingId : string;
  rideId : string;
  raterId : string;
  rateeId : string;
  stars : Z;
  reviewText : option string;
  createdAt : Z;
}.
#[global] Instance t_eta : Eta t := fun r => Build_t
  (id r) (bookingId r) (rideId r) (raterId r) (rateeId r) (stars r) (reviewText r)
  (createdAt r).
Definition defaults (id : string) (at_ : Z) : t := {|
  id := id;
  bookingId := EmptyString;
  rideId := EmptyString;
  raterId := EmptyString;
  rateeId := EmptyString;
  stars := 0%Z;
  reviewText := None;
  createdAt := at_ |}.
End RideRating.

Module UserRatingStats.
Record t := {
  id : string;
  userId : string;
  totalRatings : Z;
  totalStars : Z;
  averageRating : num;
  createdAt : Z;
}.
#[global] Instance t_eta : Eta t := fun r => Build_t
  (id r) (userId r) (totalRatings r) (totalStars r) (averageRating r) (createdAt r).
Definition defaults (id : string) (at_ : Z) : t := {|
  id := id;
  userId := EmptyString;
  totalRatings := 0%Z;
  totalStars := 0%Z;
  averageRating := num_of_Z 0;
  createdAt := at_ |}.
End UserRatingStats.

Module RefreshToken.
Record t := {
  id : string;
  userId : string;
  token : string;
  expiresAt : Z;
  revoked : bool;
  createdAt : Z;
}.
#[global] Instance t_eta : Eta t := fun r => Build_t
  (id r) (userId r) (token r) (expiresAt r) (revoked r) (createdAt r).
Definition defaults (id : string) (at_ : Z) : t := {|
  id := id;
  userId := EmptyString;
  token := EmptyString;
  expiresAt := 0%Z;
  revoked := false;
  createdAt := at_ |}.
End RefreshToken.

(** ** Chat *)

Module Conversation.
Record t := {
  id : string;
  userAId : string;
  userBId : string;
  lastMsgAt : option Z;
  lastMsgPreview : option string;
  createdAt : Z;
  updatedAt : Z;
}.
#[global] Instance t_eta : Eta t := fun r => Build_t
  (id r) (userAId r) (userBId r) (lastMsgAt r) (lastMsgPreview r) (createdAt r) (updatedAt r).
Definition defaults (id : string) (at_ : Z) : t := {|
  id := id;
  userAId := EmptyString;
  userBId := EmptyString;
  lastMsgAt := None;
  lastMsgPreview := None;
  createdAt := at_;
  updatedAt := at_ |}.
End Conversation.

(** The type is the schema's [MessageType] by its name. *)
Module Message.
Record t := {
  id : string;
  conversationId : string;
  senderId : string;
  receiverId : string;
  type : string;
  text : option string;
  payloadJson : option Json;
  clientMsgId : option string;
  deliveredAt : option Z;
  readAt : option Z;
  createdAt : Z;
}.
#[global] Instance t_eta : Eta t := fun r => Build_t
  (id r) (conversationId r) (senderId r) (receiverId r) (type r) (text r) (payloadJson r)
  (clientMsgId r) (deliveredAt r) (readAt r) (createdAt r).
Definition defaults (id : string) (at_ : Z) : t := {|
  id := id;
  conversationId := EmptyString;
  senderId := EmptyString;
  receiverId := EmptyString;
  type := "TEXT"%string;
  text := None;
  payloadJson := None;
  clientMsgId := None;
  deliveredAt := None;
  readAt := None;
  createdAt := at_ |}.
End Message.
