(* ===== verification/Store.v ===== *)
(** * The store, external calls and queries

    A handler runs over [St]: the database tables, the log of the external calls
    it made, and a supply for generated ids.  [Env] is what it reads from outside:
    the clock (one instant per handler), the id generator, the configuration and
    the answers of Stripe, of the notification service and of the job queues; an
    answer may depend on everything that was called before. *)

From Stdlib Require Import ZArith Lia.
From stdpp Require Import base list option strings gmap.
From S2P Require Import Prelude JsNumber JsText Schema.

(** ** State *)

(** Calls that leave the process. *)
Inductive Effect :=
| StripeCreateIntent (amountMinor : Z) (currency bookingId : string)
| StripeRefund (paymentIntentId : string) (amountMinor : option Z)
| StripeCancelIntent (paymentIntentId : string)
| StripeRetrieveIntent (paymentIntentId : string)
| StripeRetrieveCharge (chargeId : string)
| StripeTransfer (amountMinor : Z) (currency destination payoutBatchId : string)
| Notify (userId type : string)
| SendMail (to subject : string)
| SendSms (to : string)
| EmitToRide (rideId event : string)
| EmitToUsers (userIds : list string) (event bookingId action : string)
| EnqueueJob (job bookingId : string) (delayMs : Z)
| RemoveJob (job bookingId : string)
| HttpPost (url body signature : string)
| HttpGet (url signature : string)
| HeadObject (key : string)
| PromoteObject (tmpKey permanentKey : string) (isPublic : bool).

#[global] Instance Effect_eq_dec : EqDecision Effect.
Proof. solve_decision. Defined.

Module Db.
Record t := {
  user : gmap string User.t;
  ride : gmap string Ride.t;
  rideWaypoint : gmap string RideWaypoint.t;
  rideSegmentCapacity : gmap string RideSegmentCapacity.t;
  rideBooking : gmap string RideBooking.t;
  rideRequest : gmap string RideRequest.t;
  rideRequestOffer : gmap string RideRequestOffer.t;
  payment : gmap string Payment.t;
  ledgerEntry : list LedgerEntry.t;
  payoutBatch : gmap string PayoutBatch.t;
  payoutItem : gmap string PayoutItem.t;
  paymentEventOutbox : gmap string PaymentEventOutbox.t;
  pricingConfig : gmap string PricingConfig.t;
  ridePricingSnapshot : gmap string RidePricingSnapshot.t;
  driverPenaltyEvent : gmap string DriverPenaltyEvent.t;
  dispute : gmap string Dispute.t;
  reconciliationIssue : gmap string ReconciliationIssue.t;
  rewardCampaign : gmap string RewardCampaign.t;
  rewardReferral : gmap string RewardReferral.t;
  rewardWalletEntry : gmap string RewardWalletEntry.t;
  rideEvent : gmap string RideEvent.t;
  locationUpdate : gmap string LocationUpdate.t;
  trackingLink : gmap string TrackingLink.t;
  vehicle : gmap string Vehicle.t;
  vehicleDocument : gmap string VehicleDocument.t;
  dlVerification : gmap string DlVerification.t;
  rideRating : gmap string RideRating.t;
  userRatingStats : gmap string UserRatingStats.t;
  refreshToken : gmap string RefreshToken.t;
  conversation : gmap string Conversation.t;
  message : gmap string Message.t;
  userBlock : list (string * string);
  stripeWebhookEvent : list string;
}.
#[global] Instance t_eta : Eta t := fun r => Build_t (user r) (ride r) (rideWaypoint r)
  (rideSegmentCapacity r) (rideBooking r) (rideRequest r) (rideRequestOffer r) (payment r)
  (ledgerEntry r) (payoutBatch r) (payoutItem r) (paymentEventOutbox r) (pricingConfig r)
  (ridePricingSnapshot r) (driverPenaltyEvent r) (dispute r) (reconciliationIssue r)
  (rewardCampaign r) (rewardReferral r) (rewardWalletEntry r) (rideEvent r)
  (locationUpdate r) (trackingLink r) (vehicle r) (vehicleDocument r) (dlVerification r) (rideRating r) (userRatingStats r)
  (refreshToken r) (conversation r) (message r) (userBlock r) (stripeWebhookEvent r).
Definition empty : t := Build_t ∅ ∅ ∅ ∅ ∅ ∅ ∅ ∅ [] ∅ ∅ ∅ ∅ ∅ ∅ ∅ ∅ ∅ ∅ ∅ ∅ ∅ ∅ ∅ ∅ ∅ ∅ ∅ ∅ ∅ ∅ [] [].
End Db.

(** [fx] logs each external call with the error it failed with, if it did, the
    latest first; [seq] counts the ids generated so far. *)
Module St.
Record t := {
  db : Db.t;
  fx : list (Effect * option string);
  seq : nat;
}.
#[global] Instance t_eta : Eta t := fun r => Build_t (db r) (fx r) (seq r).
End St.

Notation H := (M St.t).

(** What [paymentIntents.create] and [.retrieve] answer: the fields the backend
    reads of Stripe's object. *)
Module PaymentIntent.
Record t := {
  id : string;
  status : string;
  amount : Z;
  amount_received : Z;
  currency : string;
  latest_charge : option string;
  metadata_bookingId : option string;
  client_secret : option string;
}.
End PaymentIntent.

(** What a handler reads from outside.  [fails n e] is the error of the call [e]
    when it is the [n]-th of the run, [respond n e] the id it returns; [intentOf n id]
    is the state of an intent at that call, [otp] the supply of one-time codes and
    [hashOtp] SHA-256 in hexadecimal; [paymentUpdatedAt] and [bookingUpdatedAt] the
    columns Prisma sets at each write; [locale_leb] is the order of [localeCompare];
    the mathematical functions are those ECMAScript leaves to the implementation. *)
Class Env := {
  now : Z;
  uuid : nat -> string;
  fails : nat -> Effect -> option string;
  respond : nat -> Effect -> string;
  intentOf : nat -> string -> PaymentIntent.t;
  chargeFee : string -> option (Z * string);
  otp : nat -> string;
  hashOtp : string -> string;
  PLATFORM_FEE_PERCENT : option string;
  BOOKING_PAYMENT_MODE : option string;
  BOOKING_PAYMENT_WINDOW_MINUTES : Z;
  STRIPE_CONNECT_MOCK_MODE : bool;
  PAYOUT_ELIGIBILITY_DELAY_MINUTES : Z;
  REWARDS_ENABLED : bool;
  ALLOW_RIDE_SIMULATION : bool;
  RIDE_START_EARLY_LIMIT_MINUTES : option string;
  RIDE_OVERDUE_CANCEL_AFTER_MINUTES : Z;
  RIDE_OVERDUE_END_GRACE_MINUTES : Z;
  AUTO_PROCESS_DRIVER_PAYOUTS : bool;
  paymentUpdatedAt : Payment.t -> Z;
  bookingUpdatedAt : RideBooking.t -> Z;
  locale_leb : string -> string -> bool;
  math_sin : num -> num;
  math_cos : num -> num;
  math_sqrt : num -> num;
  math_atan2 : num -> num -> num;
}.

(** ** External calls and generated ids *)

Definition call `{Env} (e : Effect) : H string := fun s =>
  let n := length (St.fx s) in
  let r := fails n e in
  (s <| St.fx ::= cons (e, r) |>,
   match r with None => Ok (respond n e) | Some err => Err err end).

(** A call awaited for its effect only. *)
Definition perform `{Env} (e : Effect) : H unit := call e;; mret tt.

(** A call whose failure is logged and swallowed: [await f().catch(log)] or
    [try { await f() } catch (e) { logError(e) }]. *)
Definition attempt {A} (m : H A) : H unit :=
  try_catch (m;; mret tt) (fun _ => mret tt).

(** [await Promise.all(ms)]: all are carried out, the first error is thrown. *)
Fixpoint promise_all (ms : list (H unit)) : H unit := fun s =>
  match ms with
  | [] => (s, Ok tt)
  | m :: rest =>
      let '(s1, r1) := m s in
      let '(s2, r2) := promise_all rest s1 in
      (s2, match r1 with Err e => Err e | Ok _ => r2 end)
  end.

Definition randomUUID `{Env} : H string := fun s =>
  (s <| St.seq ::= S |>, Ok (uuid (St.seq s))).

(** [prisma.$transaction]: a thrown error discards the writes of the callback,
    not the calls it made. *)
Definition transaction {A} (m : H A) : H A := fun s =>
  match m s with
  | (s', Ok a) => (s', Ok a)
  | (s', Err e) => (s' <| St.db := St.db s |>, Err e)
  end.

(** ** Tables and queries *)

Record Table (R : Type) := {
  rows : Db.t -> gmap string R;
  with_rows : (gmap string R -> gmap string R) -> Db.t -> Db.t;
}.
Arguments rows {R}.
Arguments with_rows {R}.

Module prisma.
Definition user : Table User.t := Build_Table _ Db.user (fun f d => d <| Db.user ::= f |>).
Definition ride : Table Ride.t := Build_Table _ Db.ride (fun f d => d <| Db.ride ::= f |>).
Definition rideWaypoint : Table RideWaypoint.t :=
  Build_Table _ Db.rideWaypoint (fun f d => d <| Db.rideWaypoint ::= f |>).
Definition rideSegmentCapacity : Table RideSegmentCapacity.t :=
  Build_Table _ Db.rideSegmentCapacity (fun f d => d <| Db.rideSegmentCapacity ::= f |>).
Definition rideBooking : Table RideBooking.t :=
  Build_Table _ Db.rideBooking (fun f d => d <| Db.rideBooking ::= f |>).
Definition rideRequest : Table RideRequest.t :=
  Build_Table _ Db.rideRequest (fun f d => d <| Db.rideRequest ::= f |>).
Definition rideRequestOffer : Table RideRequestOffer.t :=
  Build_Table _ Db.rideRequestOffer (fun f d => d <| Db.rideRequestOffer ::= f |>).
Definition payment : Table Payment.t :=
  Build_Table _ Db.payment (fun f d => d <| Db.payment ::= f |>).
Definition payoutBatch : Table PayoutBatch.t :=
  Build_Table _ Db.payoutBatch (fun f d => d <| Db.payoutBatch ::= f |>).
Definition payoutItem : Table PayoutItem.t :=
  Build_Table _ Db.payoutItem (fun f d => d <| Db.payoutItem ::= f |>).
Definition paymentEventOutbox : Table PaymentEventOutbox.t :=
  Build_Table _ Db.paymentEventOutbox (fun f d => d <| Db.paymentEventOutbox ::= f |>).
Definition pricingConfig : Table PricingConfig.t :=
  Build_Table _ Db.pricingConfig (fun f d => d <| Db.pricingConfig ::= f |>).
Definition ridePricingSnapshot : Table RidePricingSnapshot.t :=
  Build_Table _ Db.ridePricingSnapshot (fun f d => d <| Db.ridePricingSnapshot ::= f |>).
Definition driverPenaltyEvent : Table DriverPenaltyEvent.t :=
  Build_Table _ Db.driverPenaltyEvent (fun f d => d <| Db.driverPenaltyEvent ::= f |>).
Definition dispute : Table Dispute.t :=
  Build_Table _ Db.dispute (fun f d => d <| Db.dispute ::= f |>).
Definition reconciliationIssue : Table ReconciliationIssue.t :=
  Build_Table _ Db.reconciliationIssue (fun f d => d <| Db.reconciliationIssue ::= f |>).
Definition rewardCampaign : Table RewardCampaign.t :=
  Build_Table _ Db.rewardCampaign (fun f d => d <| Db.rewardCampaign ::= f |>).
Definition rewardReferral : Table RewardReferral.t :=
  Build_Table _ Db.rewardReferral (fun f d => d <| Db.rewardReferral ::= f |>).
Definition rewardWalletEntry : Table RewardWalletEntry.t :=
  Build_Table _ Db.rewardWalletEntry (fun f d => d <| Db.rewardWalletEntry ::= f |>).
Definition rideEvent : Table RideEvent.t :=
  Build_Table _ Db.rideEvent (fun f d => d <| Db.rideEvent ::= f |>).
Definition locationUpdate : Table LocationUpdate.t :=
  Build_Table _ Db.locationUpdate (fun f d => d <| Db.locationUpdate ::= f |>).
Definition trackingLink : Table TrackingLink.t :=
  Build_Table _ Db.trackingLink (fun f d => d <| Db.trackingLink ::= f |>).
Definition vehicle : Table Vehicle.t :=
  Build_Table _ Db.vehicle (fun f d => d <| Db.vehicle ::= f |>).
Definition vehicleDocument : Table VehicleDocument.t :=
  Build_Table _ Db.vehicleDocument (fun f d => d <| Db.vehicleDocument ::= f |>).
Definition dlVerification : Table DlVerification.t :=
  Build_Table _ Db.dlVerification (fun f d => d <| Db.dlVerification ::= f |>).
Definition rideRating : Table RideRating.t :=
  Build_Table _ Db.rideRating (fun f d => d <| Db.rideRating ::= f |>).
Definition userRatingStats : Table UserRatingStats.t :=
  Build_Table _ Db.userRatingStats (fun f d => d <| Db.userRatingStats ::= f |>).
Definition refreshToken : Table RefreshToken.t :=
  Build_Table _ Db.refreshToken (fun f d => d <| Db.refreshToken ::= f |>).
Definition conversation : Table Conversation.t :=
  Build_Table _ Db.conversation (fun f d => d <| Db.conversation ::= f |>).
Definition message : Table Message.t :=
  Build_Table _ Db.message (fun f d => d <| Db.message ::= f |>).
End prisma.

(** [userBlock] rows are pairs (blocker, blocked), [stripeWebhookEvent] rows the
    ids of the events received. *)

Section queries.
Context {R : Type}.
Implicit Types (t : Table R) (p : R -> bool) (f : R -> R).

Definition findUnique t (id : string) : H (option R) := get (fun s => rows t (St.db s) !! id).

(** [findFirst({ where: { id, ...p } })] *)
Definition findById t (id : string) p : H (option R) :=
  r ← findUnique t id;
  mret match r with Some r => if p r then Some r else None | None => None end.

Definition findUniqueOrThrow t (id : string) : H R :=
  r ← findUnique t id;
  match r with Some r => mret r | None => throw "P2025" end.

(** Rows that satisfy a condition, in the order of their ids: the code that
    depends on another order sorts. *)
Definition where_ t p (d : Db.t) : list R := List.filter p (map_to_list (rows t d)).*2.

Definition findMany t p : H (list R) := get (fun s => where_ t p (St.db s)).
Definition findFirst t p : H (option R) := get (fun s => head (where_ t p (St.db s))).

Definition write t (g : gmap string R -> gmap string R) : H unit :=
  modify (fun s => s <| St.db ::= with_rows t g |>).

(** A duplicate primary key violates its uniqueness constraint. *)
Definition create t (id : string) (r : R) : H R :=
  old ← findUnique t id;
  match old with
  | Some _ => throw "P2002"
  | None => write t <[id := r]>;; mret r
  end.

(** [update] throws when the row is missing and returns the updated row. *)
Definition update t (id : string) f : H R :=
  old ← findUnique t id;
  match old with
  | None => throw "P2025"
  | Some r => write t <[id := f r]>;; mret (f r)
  end.

(** [updateMany({ where: { id, ...p }, data })] and its count: 0 or 1. *)
Definition updateManyId t (id : string) p f : H Z :=
  old ← findUnique t id;
  match old with
  | Some r => if p r then write t <[id := f r]>;; mret 1%Z else mret 0%Z
  | None => mret 0%Z
  end.

(** [updateMany({ where, data })] *)
Definition updateMany t p f : H Z :=
  n ← get (fun s => Z.of_nat (length (where_ t p (St.db s))));
  write t (fmap (fun r => if p r then f r else r));;
  mret n.

(** [delete({ where: { id } })] throws when the row is missing. *)
Definition remove t (id : string) : H R :=
  old ← findUnique t id;
  match old with
  | None => throw "P2025"
  | Some r => write t (delete id);; mret r
  end.

(** [deleteMany({ where })] *)
Definition deleteMany t p : H Z :=
  n ← get (fun s => Z.of_nat (length (where_ t p (St.db s))));
  write t (base.filter (fun kr => p kr.2 = false));;
  mret n.
End queries.

(** [ledgerEntry.createMany]: the entries are appended, each with its own id. *)
Definition createLedgerEntries `{Env} (es : list LedgerEntry.t) : H unit :=
  for_each es (fun e =>
    id ← randomUUID;
    modify (fun s => s <| St.db ::= fun d =>
      d <| Db.ledgerEntry ::= fun l => l ++ [e <| LedgerEntry.id := id |>] |> |>)).

(** ** Rules for calls and queries *)

(** The postcondition of a callback: only a return is kept. *)
Definition if_ok {A} (P : St.t -> A -> Prop) (s : St.t) (r : Res A) : Prop :=
  match r with Ok a => P s a | Err _ => True end.

Section rules.
Context `{Env}.
Implicit Types (s : St.t).

Lemma set_db_id g s : g (St.db s) = St.db s -> s <| St.db ::= g |> = s.
Proof. destruct s. unfold setf. cbn. congruence. Qed.

Lemma set_db_ext g h s : g (St.db s) = h (St.db s) -> s <| St.db ::= g |> = s <| St.db ::= h |>.
Proof. destruct s. unfold setf. cbn. congruence. Qed.

Lemma wp_call e Q s :
  (forall r, fails (length (St.fx s)) e = r ->
     Q (s <| St.fx ::= cons (e, r) |>)
       match r with None => Ok (respond (length (St.fx s)) e) | Some err => Err err end) ->
  wp (call e) Q s.
Proof. intros HQ. exact (HQ _ eq_refl). Qed.

Lemma wp_perform e Q s :
  (forall r, fails (length (St.fx s)) e = r ->
     Q (s <| St.fx ::= cons (e, r) |>) match r with None => Ok tt | Some err => Err err end) ->
  wp (perform e) Q s.
Proof.
  intros HQ. apply wp_bind, wp_call. intros r Hr. specialize (HQ r Hr). destruct r; exact HQ.
Qed.

Lemma wp_transaction {A} (m : H A) Q s :
  wp m (fun s' r => match r with
                    | Ok _ => Q s' r
                    | Err _ => Q (s' <| St.db := St.db s |>) r
                    end) s ->
  wp (transaction m) Q s.
Proof. unfold wp, transaction. destruct (m s) as [s' [a|e]]; exact id. Qed.

Lemma transaction_run {A} (m : H A) s :
  (transaction m s).2 = (m s).2 /\
  (forall a, (m s).2 = Ok a -> (transaction m s).1 = (m s).1) /\
  (forall e, (m s).2 = Err e -> St.db (transaction m s).1 = St.db s).
Proof. unfold transaction. destruct (m s) as [s' [a|e]]; cbn; naive_solver. Qed.

Lemma attempt_ok {A} (m : H A) s : (attempt m s).2 = Ok tt.
Proof.
  unfold attempt, try_catch. rewrite bind_run. destruct (m s) as [s' [a|e]]; reflexivity.
Qed.

Lemma attempt_state {A} (m : H A) s : (attempt m s).1 = (m s).1.
Proof.
  unfold attempt, try_catch. rewrite bind_run. destruct (m s) as [s' [a|e]]; reflexivity.
Qed.

Lemma wp_attempt {A} (m : H A) Q s : Q (m s).1 (Ok tt) -> wp (attempt m) Q s.
Proof. unfold wp. rewrite attempt_ok, attempt_state. exact id. Qed.

(** An invariant of the database alone. *)
Definition on_db (I : Db.t -> Prop) (s : St.t) : Prop := I (St.db s).

Lemma preserves_call I e : preserves (on_db I) (call e).
Proof. intros s Hs. exact Hs. Qed.

Lemma preserves_perform I e : preserves (on_db I) (perform e).
Proof. apply preserves_bind; [apply preserves_call | intros; apply preserves_ret]. Qed.

Lemma preserves_randomUUID I : preserves (on_db I) randomUUID.
Proof. intros s Hs. exact Hs. Qed.

Lemma preserves_attempt {A} I (m : H A) : preserves I m -> preserves I (attempt m).
Proof. intros Hm s Hs. rewrite attempt_state. exact (Hm s Hs). Qed.

Lemma preserves_promise_all I ms : (forall m, In m ms -> preserves I m) -> preserves I (promise_all ms).
Proof.
  induction ms as [|m ms IH]; intros P s Hs; [exact Hs|]. cbn [promise_all].
  pose proof (P m (or_introl eq_refl) s Hs) as P1. destruct (m s) as [s1 r1].
  pose proof (IH (fun m' I' => P m' (or_intror I')) s1 P1) as P2. destruct (promise_all ms s1) as [s2 r2]. exact P2.
Qed.

Lemma preserves_transaction {A} I (m : H A) :
  preserves (on_db I) m -> preserves (on_db I) (transaction m).
Proof.
  intros Hm s Hs. specialize (Hm s Hs). unfold transaction.
  destruct (m s) as [s' [a|e]]; [exact Hm | exact Hs].
Qed.

Section table.
Context {R : Type} (t : Table R).

Lemma preserves_findUnique I id : preserves I (findUnique t id).
Proof. apply preserves_get. Qed.

Lemma preserves_findUniqueOrThrow I id : preserves I (findUniqueOrThrow t id).
Proof. apply preserves_bind; [apply preserves_get | intros [r|]; auto with preserve]. Qed.

Lemma preserves_findById I id p : preserves I (findById t id p).
Proof. apply preserves_bind; [apply preserves_get | intros; apply preserves_ret]. Qed.

Lemma preserves_findMany I p : preserves I (findMany t p).
Proof. apply preserves_get. Qed.

Lemma preserves_findFirst I p : preserves I (findFirst t p).
Proof. apply preserves_get. Qed.

Lemma preserves_write (I : Db.t -> Prop) g :
  (forall d, I d -> I (with_rows t g d)) -> preserves (on_db I) (write t g).
Proof. intros Hg s Hs. exact (Hg _ Hs). Qed.

(** A write to one row keeps the invariant if it does so for every row. *)
Lemma preserves_create (I : Db.t -> Prop) id r :
  (forall d, I d -> rows t d !! id = None -> I (with_rows t <[id := r]> d)) ->
  preserves (on_db I) (create t id r).
Proof.
  intros Hr s Hs. unfold create. rewrite bind_run. cbn.
  destruct (rows t (St.db s) !! id) eqn:E; [exact Hs | exact (Hr _ Hs E)].
Qed.

Lemma preserves_update (I : Db.t -> Prop) id f :
  (forall d r, I d -> rows t d !! id = Some r -> I (with_rows t <[id := f r]> d)) ->
  preserves (on_db I) (update t id f).
Proof.
  intros Hr s Hs. unfold update. rewrite bind_run. cbn.
  destruct (rows t (St.db s) !! id) eqn:E; [exact (Hr _ _ Hs E) | exact Hs].
Qed.

Lemma preserves_updateMany (I : Db.t -> Prop) (p : R -> bool) (f : R -> R) :
  (forall d, I d -> I (with_rows t (fmap (fun r => if p r then f r else r)) d)) ->
  preserves (on_db I) (updateMany t p f).
Proof. intros Hr s Hs. exact (Hr _ Hs). Qed.

Lemma preserves_deleteMany (I : Db.t -> Prop) (p : R -> bool) :
  (forall d, I d -> I (with_rows t (base.filter (fun kr => p kr.2 = false)) d)) ->
  preserves (on_db I) (deleteMany t p).
Proof. intros Hr s Hs. exact (Hr _ Hs). Qed.

Lemma preserves_remove (I : Db.t -> Prop) id :
  (forall d, I d -> I (with_rows t (delete id) d)) -> preserves (on_db I) (remove t id).
Proof.
  intros Hr s Hs. unfold remove. rewrite bind_run. cbn.
  destruct (rows t (St.db s) !! id) eqn:E; [exact (Hr _ Hs) | exact Hs].
Qed.

Lemma preserves_updateManyId (I : Db.t -> Prop) id p f :
  (forall d r, I d -> rows t d !! id = Some r -> p r = true -> I (with_rows t <[id := f r]> d)) ->
  preserves (on_db I) (updateManyId t id p f).
Proof.
  intros Hr s Hs. unfold updateManyId. rewrite bind_run. cbn.
  destruct (rows t (St.db s) !! id) eqn:E; [|exact Hs].
  destruct (p r) eqn:Hp; [exact (Hr _ _ Hs E Hp) | exact Hs].
Qed.

(** What the queries compute. *)
Lemma update_run id f s r : rows t (St.db s) !! id = Some r ->
  update t id f s = (s <| St.db ::= with_rows t <[id := f r]> |>, Ok (f r)).
Proof. intros E. unfold update. rewrite bind_run. cbn. rewrite E. reflexivity. Qed.

Lemma create_run id r s : rows t (St.db s) !! id = None ->
  create t id r s = (s <| St.db ::= with_rows t <[id := r]> |>, Ok r).
Proof. intros E. unfold create. rewrite bind_run. cbn. rewrite E. reflexivity. Qed.

Lemma updateManyId_run id p f s r : rows t (St.db s) !! id = Some r ->
  updateManyId t id p f s =
    if p r then (s <| St.db ::= with_rows t <[id := f r]> |>, Ok 1%Z) else (s, Ok 0%Z).
Proof.
  intros E. unfold updateManyId. rewrite bind_run. cbn. rewrite E. destruct (p r); reflexivity.
Qed.

Lemma updateManyId_None id p f s : rows t (St.db s) !! id = None ->
  updateManyId t id p f s = (s, Ok 0%Z).
Proof. intros E. unfold updateManyId. rewrite bind_run. cbn. rewrite E. reflexivity. Qed.

Lemma updateMany_run p f s :
  updateMany t p f s = (s <| St.db ::= with_rows t (fmap (fun r => if p r then f r else r)) |>,
                        Ok (Z.of_nat (length (where_ t p (St.db s))))).
Proof. reflexivity. Qed.

Lemma deleteMany_run p s :
  deleteMany t p s = (s <| St.db ::= with_rows t (base.filter (fun kr => p kr.2 = false)) |>,
                      Ok (Z.of_nat (length (where_ t p (St.db s))))).
Proof. reflexivity. Qed.

Lemma findUnique_run id s : findUnique t id s = (s, Ok (rows t (St.db s) !! id)).
Proof. reflexivity. Qed.

Lemma findUniqueOrThrow_run id s r : rows t (St.db s) !! id = Some r ->
  findUniqueOrThrow t id s = (s, Ok r).
Proof. intros E. unfold findUniqueOrThrow. rewrite bind_run. cbn. rewrite E. reflexivity. Qed.

Lemma findUniqueOrThrow_None id s : rows t (St.db s) !! id = None ->
  findUniqueOrThrow t id s = (s, Err "P2025").
Proof. intros E. unfold findUniqueOrThrow. rewrite bind_run. cbn. rewrite E. reflexivity. Qed.

Lemma wp_findUnique id Q s :
  (forall o, rows t (St.db s) !! id = o -> Q s (Ok o)) -> wp (findUnique t id) Q s.
Proof. intros HQ. exact (HQ _ eq_refl). Qed.

Lemma wp_findById id p Q s :
  ((forall r, rows t (St.db s) !! id = Some r -> p r = false) -> Q s (Ok None)) ->
  (forall r, rows t (St.db s) !! id = Some r -> p r = true -> Q s (Ok (Some r))) ->
  wp (findById t id p) Q s.
Proof.
  intros HN HS. apply wp_bind, wp_findUnique. intros [r|] E; apply wp_ret; [|apply HN; congruence].
  destruct (p r) eqn:P; [exact (HS r E P)|]. apply HN. intros r' E'. congruence.
Qed.

Lemma findById_run id p s r : rows t (St.db s) !! id = Some r -> p r = true ->
  findById t id p s = (s, Ok (Some r)).
Proof. intros E P. unfold findById. rewrite bind_run. cbn. rewrite E, P. reflexivity. Qed.

Lemma wp_findFirst p Q s :
  (forall o, head (where_ t p (St.db s)) = o -> Q s (Ok o)) -> wp (findFirst t p) Q s.
Proof. intros HQ. exact (HQ _ eq_refl). Qed.

Lemma wp_findUniqueOrThrow id Q s :
  (rows t (St.db s) !! id = None -> Q s (Err "P2025")) ->
  (forall r, rows t (St.db s) !! id = Some r -> Q s (Ok r)) ->
  wp (findUniqueOrThrow t id) Q s.
Proof.
  intros HN HS. apply wp_run. intros s' r'. destruct (rows t (St.db s) !! id) as [r|] eqn:E.
  - rewrite (findUniqueOrThrow_run id s r E). intros [= <- <-]. auto.
  - rewrite (findUniqueOrThrow_None id s E). intros [= <- <-]. auto.
Qed.

Lemma wp_update id f Q s :
  (rows t (St.db s) !! id = None -> Q s (Err "P2025")) ->
  (forall r, rows t (St.db s) !! id = Some r ->
     Q (s <| St.db ::= with_rows t <[id := f r]> |>) (Ok (f r))) ->
  wp (update t id f) Q s.
Proof.
  intros HN HS. unfold update. apply wp_bind, wp_findUnique. intros [r|] E; [exact (HS r E) | exact (HN E)].
Qed.

Lemma wp_create id r Q s :
  (forall old, rows t (St.db s) !! id = Some old -> Q s (Err "P2002")) ->
  (rows t (St.db s) !! id = None -> Q (s <| St.db ::= with_rows t <[id := r]> |>) (Ok r)) ->
  wp (create t id r) Q s.
Proof.
  intros HS HN. unfold create. apply wp_bind, wp_findUnique. intros [o|] E; [exact (HS o E) | exact (HN E)].
Qed.

Lemma wp_remove id Q s :
  (rows t (St.db s) !! id = None -> Q s (Err "P2025")) ->
  (forall r, rows t (St.db s) !! id = Some r -> Q (s <| St.db ::= with_rows t (delete id) |>) (Ok r)) ->
  wp (remove t id) Q s.
Proof.
  intros HN HS. unfold remove. apply wp_bind, wp_findUnique. intros [r|] E; [exact (HS r E) | exact (HN E)].
Qed.

Lemma wp_updateManyId id p f Q s :
  ((forall r, rows t (St.db s) !! id = Some r -> p r = false) -> Q s (Ok 0%Z)) ->
  (forall r, rows t (St.db s) !! id = Some r -> p r = true ->
     Q (s <| St.db ::= with_rows t <[id := f r]> |>) (Ok 1%Z)) ->
  wp (updateManyId t id p f) Q s.
Proof.
  intros Hz Ho. unfold updateManyId. apply wp_bind, wp_findUnique. intros [r|] E.
  - destruct (p r) eqn:P; [exact (Ho r E P)|]. apply wp_ret, Hz. intros r' E'. congruence.
  - apply wp_ret, Hz. intros r' E'. congruence.
Qed.

Lemma where_elem p d r : In r (where_ t p d) <-> p r = true /\ exists k, rows t d !! k = Some r.
Proof.
  unfold where_. rewrite filter_In, <- list_elem_of_In, list_elem_of_fmap. split.
  - intros [((k, r') & -> & Hk) Hp]. apply elem_of_map_to_list in Hk. eauto.
  - intros [Hp [k Hk]]. split; [|assumption]. exists (k, r). split; [reflexivity|].
    apply elem_of_map_to_list. assumption.
Qed.

Lemma where_nil p d : (forall k r, rows t d !! k = Some r -> p r = false) -> where_ t p d = [].
Proof.
  intros Hp. destruct (where_ t p d) as [|r l] eqn:E; [reflexivity|]. exfalso.
  assert (In r (where_ t p d)) as [Hr [k Hk]]%where_elem by (rewrite E; left; reflexivity).
  rewrite (Hp k r Hk) in Hr. discriminate.
Qed.

(** What [findFirst] finds. *)
Lemma head_where p d o : head (where_ t p d) = o ->
  match o with
  | Some r => p r = true /\ exists k, rows t d !! k = Some r
  | None => forall k r, rows t d !! k = Some r -> p r = false
  end.
Proof.
  intros <-. destruct (where_ t p d) as [|r l] eqn:W; cbn.
  - intros k r E. destruct (p r) eqn:P; [|reflexivity].
    assert (I : In r (where_ t p d)) by (apply where_elem; eauto). rewrite W in I. destruct I.
  - apply where_elem. rewrite W. left. reflexivity.
Qed.

(** The listed rows have distinct ids, when the rows are stored under their id. *)
Lemma NoDup_map_filter {A B} (g : A -> B) (p : A -> bool) (l : list A) :
  NoDup (map g l) -> NoDup (map g (List.filter p l)).
Proof.
  induction l as [|x l IH]; [intros; constructor|]. cbn. intros [Hx Hl]%NoDup_cons.
  destruct (p x); [|auto]. cbn. apply NoDup_cons. split; [|auto].
  rewrite list_elem_of_In in *. intros Hi. apply Hx. apply in_map_iff in Hi as (y & <- & Hy).
  apply in_map. apply filter_In in Hy. apply Hy.
Qed.

Lemma where_nodup (key : R -> string) p d : (forall k r, rows t d !! k = Some r -> key r = k) ->
  NoDup (map key (where_ t p d)).
Proof.
  intros W. unfold where_. apply NoDup_map_filter.
  assert (E : map key (map_to_list (rows t d)).*2 = (map_to_list (rows t d)).*1).
  { assert (F : forall kr, kr ∈ map_to_list (rows t d) -> key kr.2 = kr.1).
    { intros [k r] Hk. apply elem_of_map_to_list in Hk. exact (W k r Hk). }
    induction (map_to_list (rows t d)) as [|kr l IH]; [reflexivity|]. cbn. f_equal.
    - apply F. constructor.
    - apply IH. intros x Hx. apply F. constructor. exact Hx. }
  rewrite E. apply NoDup_fst_map_to_list.
Qed.

(** A condition that determines the row finds it. *)
Lemma findFirst_unique p d k r : rows t d !! k = Some r -> p r = true ->
  (forall k' r', rows t d !! k' = Some r' -> p r' = true -> r' = r) ->
  head (where_ t p d) = Some r.
Proof.
  intros Hk Hp Hu. destruct (where_ t p d) as [|r' l] eqn:E.
  - exfalso. assert (In r (where_ t p d)) as Hin by (apply where_elem; eauto).
    rewrite E in Hin. destruct Hin.
  - assert (In r' (where_ t p d)) as [Hr' [k' Hk']]%where_elem by (rewrite E; left; reflexivity).
    cbn. f_equal. eauto.
Qed.
End table.
End rules.

#[export] Hint Resolve preserves_call preserves_perform preserves_randomUUID preserves_attempt
  preserves_transaction preserves_findUnique preserves_findUniqueOrThrow preserves_findById preserves_findMany
  preserves_findFirst : preserve.

(** [preserve] through transactions and logged failures. *)
Ltac preserve_db :=
  intros; repeat first [preserve_step | apply preserves_transaction | apply preserves_attempt].

(** One symbolic step of a handler, queries included. *)
Ltac wp_query :=
  lazymatch goal with
  | |- wp (findUnique _ _) _ _ => apply wp_findUnique; intros ?o ?E
  | |- wp (findById _ _ _) _ _ => apply wp_findById; [intros ?E | intros ?r ?E ?P]
  | |- wp (findFirst _ _) _ _ => apply wp_findFirst; intros ?o ?E
  | |- wp (findUniqueOrThrow _ _) _ _ => apply wp_findUniqueOrThrow; [intros ?E | intros ?r ?E]
  | |- wp (update _ _ _) _ _ => apply wp_update; [intros ?E | intros ?r ?E]
  | |- wp (create _ _ _) _ _ => apply wp_create; [intros ?o ?E | intros ?E]
  | |- wp (remove _ _) _ _ => apply wp_remove; [intros ?E | intros ?r ?E]
  | |- wp (updateManyId _ _ _ _) _ _ => apply wp_updateManyId; [intros ?E | intros ?r ?E ?P]
  | |- wp (call _) _ _ => apply wp_call; intros ?o ?F
  | |- wp (perform _) _ _ => apply wp_perform; intros ?o ?F
  | |- wp (transaction _) _ _ => apply wp_transaction
  | |- _ => wp_step
  end; cbv beta iota.

(** ** A concrete environment

    Ids are distinct strings, calls answer with a fixed id; used to evaluate the
    handlers on examples. *)
Fixpoint demo_uuid (n : nat) : string :=
  match n with O => "id" | S n => "x" +:+ demo_uuid n end.

Lemma demo_uuid_unique m n : demo_uuid m = demo_uuid n -> m = n.
Proof.
  revert n. induction m as [|m IH]; intros [|n]; cbn; intros E; try discriminate; [reflexivity|].
  injection E as E. f_equal. auto.
Qed.

Definition demo_env (at_ : Z) (failing : nat -> Effect -> option string) : Env := {|
  now := at_;
  uuid := demo_uuid;
  fails := failing;
  respond := fun _ e =>
    match e with
    | StripeTransfer _ _ _ _ => "tr_1"
    | StripeCreateIntent _ _ _ => "pi_1"
    | StripeRefund _ _ => "re_1"
    | _ => "ok"
    end;
  intentOf := fun _ id => {| PaymentIntent.id := id; PaymentIntent.status := "succeeded";
    PaymentIntent.amount := 1020; PaymentIntent.amount_received := 1020; PaymentIntent.currency := "eur";
    PaymentIntent.latest_charge := Some "ch_1"; PaymentIntent.metadata_bookingId := Some "b1";
    PaymentIntent.client_secret := Some "secret" |};
  chargeFee := fun _ => None;
  otp := demo_uuid;
  hashOtp := fun code => "sha256:" +:+ code;
  PLATFORM_FEE_PERCENT := None;
  BOOKING_PAYMENT_MODE := Some "stripe"%string;
  BOOKING_PAYMENT_WINDOW_MINUTES := 15;
  STRIPE_CONNECT_MOCK_MODE := false;
  PAYOUT_ELIGIBILITY_DELAY_MINUTES := 30;
  REWARDS_ENABLED := true;
  ALLOW_RIDE_SIMULATION := false;
  RIDE_START_EARLY_LIMIT_MINUTES := None;
  RIDE_OVERDUE_CANCEL_AFTER_MINUTES := 120;
  RIDE_OVERDUE_END_GRACE_MINUTES := 30;
  AUTO_PROCESS_DRIVER_PAYOUTS := true;
  paymentUpdatedAt := Payment.createdAt;
  bookingUpdatedAt := RideBooking.createdAt;
  locale_leb := String.leb;
  math_sin := id;
  math_cos := fun _ => num_of_Z 1;
  math_sqrt := nmax (num_of_Z 0);
  math_atan2 := fun y _ => y;
|}.

Definition no_failure (_ : nat) (_ : Effect) : option string := None.
