(* ===== verification/Seats.v ===== *)
(** * Seat capacity

    Models [modules/ride-booking/segment-capacity.utils.ts]: capacity is counted
    for the whole ride, [ride.availableSeats] is recomputed from the bookings
    that hold seats ([seatsReservedAt]), and [occupiedSeats] follows the booked
    range edge by edge.

    [SeatInv] is the invariant every operation on seats keeps.  The ride lock
    makes each transaction atomic, so a transaction is one step here. *)

From Stdlib Require Import ZArith Lia.
From stdpp Require Import base list option strings gmap.
From S2P Require Import Prelude Schema Store.

Open Scope Z_scope.

Module ReleaseSeatsInput.
Record t := {
  rideId : string;
  seatsBooked : Z;
  pickupPosition : option Z;
  dropoffPosition : option Z;
  totalSeats : Z;
}.
End ReleaseSeatsInput.

(** The row holds seats on the ride. *)
Definition holdsOn (rideId : string) (b : RideBooking.t) : bool :=
  bool_decide (RideBooking.rideId b = rideId) &&
  bool_decide (is_Some (RideBooking.seatsReservedAt b)).

Definition seatsOn (rideId : string) (b : RideBooking.t) : Z :=
  if holdsOn rideId b then RideBooking.seatsBooked b else 0.

(** The ride row is locked until the transaction ends; locking reads it and
    changes nothing. *)
Definition lockRideForSeats (rideId : string) : H unit :=
  findUnique prisma.ride rideId;; mret tt.

Definition heldSeats (rideId : string) (excludeBookingId : option string) : H Z :=
  get (fun s => sum_map (fun b =>
    if match truthy excludeBookingId with
       | Some x => bool_decide (RideBooking.id b <> x)
       | None => true
       end then seatsOn rideId b else 0) (rows prisma.rideBooking (St.db s))).

Definition recomputeAvailableSeats (rideId : string) (totalSeats : Z) : H Z :=
  held ← heldSeats rideId None;
  let availableSeats := Z.max 0 (totalSeats - held) in
  update prisma.ride rideId (fun r => r <| Ride.availableSeats := availableSeats |>);;
  mret availableSeats.

Definition bookedRangeWhere (rideId : string) (pickupPosition dropoffPosition : Z)
    (c : RideSegmentCapacity.t) : bool :=
  bool_decide (RideSegmentCapacity.rideId c = rideId) &&
  (pickupPosition <=? RideSegmentCapacity.fromPosition c) &&
  (RideSegmentCapacity.toPosition c <=? dropoffPosition).

Definition releaseSegmentSeats (input : ReleaseSeatsInput.t) : H unit :=
  let rideId := ReleaseSeatsInput.rideId input in
  let seatsBooked := ReleaseSeatsInput.seatsBooked input in
  let totalSeats := ReleaseSeatsInput.totalSeats input in
  lockRideForSeats rideId;;
  match ReleaseSeatsInput.pickupPosition input, ReleaseSeatsInput.dropoffPosition input with
  | Some pickup, Some dropoff =>
      updateMany prisma.rideSegmentCapacity
        (fun c => bookedRangeWhere rideId pickup dropoff c
                  && (seatsBooked <=? RideSegmentCapacity.occupiedSeats c))
        (fun c => c <| RideSegmentCapacity.occupiedSeats ::= fun n => n - seatsBooked |>);;
      mret tt
  | _, _ => mret tt
  end;;
  recomputeAvailableSeats rideId totalSeats;;
  mret tt.

Definition reserveRideSeats (input : ReleaseSeatsInput.t) (bookingId : option string) : H unit :=
  let rideId := ReleaseSeatsInput.rideId input in
  let seatsBooked := ReleaseSeatsInput.seatsBooked input in
  let totalSeats := ReleaseSeatsInput.totalSeats input in
  lockRideForSeats rideId;;
  held ← heldSeats rideId bookingId;
  throw_if (totalSeats <? held + seatsBooked) "INSUFFICIENT_SEATS";;
  match ReleaseSeatsInput.pickupPosition input, ReleaseSeatsInput.dropoffPosition input with
  | Some pickup, Some dropoff =>
      updateMany prisma.rideSegmentCapacity (bookedRangeWhere rideId pickup dropoff)
        (fun c => c <| RideSegmentCapacity.occupiedSeats ::= fun n => n + seatsBooked |>);;
      mret tt
  | _, _ => mret tt
  end;;
  update prisma.ride rideId
    (fun r => r <| Ride.availableSeats := totalSeats - held - seatsBooked |>);;
  mret tt.

(** Claims [seatsReservedAt] first: the booking row is the lock that makes the
    release happen once. *)
Definition releaseBookingSeats (bookingId : string) (input : ReleaseSeatsInput.t) : H bool :=
  count ← updateManyId prisma.rideBooking bookingId
    (fun b => bool_decide (is_Some (RideBooking.seatsReservedAt b)))
    (fun b => b <| RideBooking.seatsReservedAt := None |>);
  if count =? 0 then mret false
  else releaseSegmentSeats input;; mret true.

Definition sumReservedSeats (bookings : list RideBooking.t) : Z :=
  fold_left (fun total b =>
    total + (if RideBooking.seatsReservedAt b then RideBooking.seatsBooked b else 0)) bookings 0.

(** ** The seat invariant *)

(** The booking holds seats on the edge [c] of its ride. *)
Definition covers (c : RideSegmentCapacity.t) (b : RideBooking.t) : bool :=
  match RideBooking.pickupPosition b, RideBooking.dropoffPosition b with
  | Some p, Some q => bookedRangeWhere (RideSegmentCapacity.rideId c) p q c
  | _, _ => false
  end.

Definition seatsOnEdge (c : RideSegmentCapacity.t) (b : RideBooking.t) : Z :=
  if covers c b then seatsOn (RideSegmentCapacity.rideId c) b else 0.

Definition held (d : Db.t) (rideId : string) : Z := sum_map (seatsOn rideId) (Db.rideBooking d).

(** Whether every operation keeps the counters exact.  Cancelling a whole ride gives the
    seats of its bookings back without counting them; after it the counters may claim too
    much, never too little. *)
Class Mode := strict : bool.

Definition agrees `{Mode} (low high : Z) : Prop := if strict then low = high else low <= high.

Ltac by_agrees := unfold agrees in *; destruct strict; lia.

Record SeatInv `{Mode} (d : Db.t) : Prop := {
  inv_booking_id : forall k b, Db.rideBooking d !! k = Some b ->
    RideBooking.id b = k /\ k <> EmptyString;
  inv_ride_id : forall k r, Db.ride d !! k = Some r -> Ride.id r = k;
  inv_seats_pos : forall k b, Db.rideBooking d !! k = Some b -> 0 < RideBooking.seatsBooked b;
  inv_ride : forall k b, Db.rideBooking d !! k = Some b -> is_Some (Db.ride d !! RideBooking.rideId b);
  inv_available : forall k r, Db.ride d !! k = Some r ->
    agrees (Ride.availableSeats r) (Ride.totalSeats r - held d k) /\ 0 <= Ride.availableSeats r;
  inv_occupied : forall k c, Db.rideSegmentCapacity d !! k = Some c ->
    agrees (sum_map (seatsOnEdge c) (Db.rideBooking d)) (RideSegmentCapacity.occupiedSeats c);
}.

(** ** The operations as functions of the database *)

Definition inRange (i : ReleaseSeatsInput.t) (c : RideSegmentCapacity.t) : bool :=
  match ReleaseSeatsInput.pickupPosition i, ReleaseSeatsInput.dropoffPosition i with
  | Some p, Some q => bookedRangeWhere (ReleaseSeatsInput.rideId i) p q c
  | _, _ => false
  end.

Definition heldByOthers (d : Db.t) (rideId : string) (exclude : option string) : Z :=
  sum_map (fun b => if match truthy exclude with
                       | Some x => bool_decide (RideBooking.id b <> x)
                       | None => true
                       end then seatsOn rideId b else 0) (Db.rideBooking d).

Lemma heldByOthers_None d rideId : heldByOthers d rideId None = held d rideId.
Proof. reflexivity. Qed.

Definition set_available (n : Z) (r : Ride.t) : Ride.t := r <| Ride.availableSeats := n |>.

(** The edges in the range for which [p] holds, changed by [f]. *)
Definition on_range (i : ReleaseSeatsInput.t) (p : RideSegmentCapacity.t -> bool) (f : Z -> Z)
    (d : Db.t) : Db.t :=
  d <| Db.rideSegmentCapacity ::= fmap (fun c =>
         if inRange i c && p c then c <| RideSegmentCapacity.occupiedSeats ::= f |> else c) |>.

Definition put_available (rideId : string) (n : Z) (r : Ride.t) (d : Db.t) : Db.t :=
  d <| Db.ride ::= <[rideId := set_available n r]> |>.

Definition release_db (i : ReleaseSeatsInput.t) (r : Ride.t) (d : Db.t) : Db.t :=
  put_available (ReleaseSeatsInput.rideId i)
    (Z.max 0 (ReleaseSeatsInput.totalSeats i - held d (ReleaseSeatsInput.rideId i))) r
    (on_range i (fun c => ReleaseSeatsInput.seatsBooked i <=? RideSegmentCapacity.occupiedSeats c)
       (fun n => n - ReleaseSeatsInput.seatsBooked i) d).

Definition reserve_db (i : ReleaseSeatsInput.t) (exclude : option string) (r : Ride.t) (d : Db.t)
    : Db.t :=
  put_available (ReleaseSeatsInput.rideId i)
    (ReleaseSeatsInput.totalSeats i - heldByOthers d (ReleaseSeatsInput.rideId i) exclude
       - ReleaseSeatsInput.seatsBooked i) r
    (on_range i (fun _ => true) (fun n => n + ReleaseSeatsInput.seatsBooked i) d).

Lemma lockRideForSeats_run rideId s : lockRideForSeats rideId s = (s, Ok tt).
Proof. reflexivity. Qed.

Lemma heldSeats_run rideId exclude s :
  heldSeats rideId exclude s = (s, Ok (heldByOthers (St.db s) rideId exclude)).
Proof. reflexivity. Qed.

Lemma recomputeAvailableSeats_run rideId total s r : Db.ride (St.db s) !! rideId = Some r ->
  recomputeAvailableSeats rideId total s =
    (s <| St.db ::= fun d => d <| Db.ride ::=
       <[rideId := set_available (Z.max 0 (total - held (St.db s) rideId)) r]> |> |>,
     Ok (Z.max 0 (total - held (St.db s) rideId))).
Proof.
  intros E. unfold recomputeAvailableSeats. run_with heldSeats_run.
  run_with (update_run prisma.ride). reflexivity.
Qed.

Lemma on_range_none i p f d :
  (forall c, inRange i c = false) -> on_range i p f d = d.
Proof.
  intros E. unfold on_range. destruct d; unfold setf; cbn; f_equal.
  rewrite (map_fmap_ext _ id), map_fmap_id; [reflexivity|]. intros k c _. rewrite E. reflexivity.
Qed.

(** The conditional range update of both operations. *)
Lemma range_update_run (i : ReleaseSeatsInput.t) (w : Z -> Z -> RideSegmentCapacity.t -> bool) p f s :
  (forall u v c, w u v c = bookedRangeWhere (ReleaseSeatsInput.rideId i) u v c && p c) ->
  (match ReleaseSeatsInput.pickupPosition i, ReleaseSeatsInput.dropoffPosition i with
   | Some pickup, Some dropoff =>
       updateMany prisma.rideSegmentCapacity (w pickup dropoff)
         (fun c => c <| RideSegmentCapacity.occupiedSeats ::= f |>);; mret tt
   | _, _ => mret tt
   end) s
  = (s <| St.db ::= on_range i p f |>, Ok tt).
Proof.
  intros Ew.
  destruct (ReleaseSeatsInput.pickupPosition i) as [u|] eqn:P,
           (ReleaseSeatsInput.dropoffPosition i) as [v|] eqn:Q.
  2-4: rewrite set_db_id; [reflexivity | apply on_range_none];
    intros c; unfold inRange; rewrite P, ?Q; reflexivity.
  run_with (updateMany_run prisma.rideSegmentCapacity).
  unfold mret, M_ret. f_equal. apply set_db_ext. unfold on_range, inRange. rewrite P, Q.
  cbn; unfold setf; cbn; f_equal. apply map_fmap_ext. intros k c _. rewrite Ew. reflexivity.
Qed.

Lemma releaseSegmentSeats_run (i : ReleaseSeatsInput.t) (s : St.t) (r : Ride.t) :
  Db.ride (St.db s) !! ReleaseSeatsInput.rideId i = Some r ->
  releaseSegmentSeats i s = (s <| St.db ::= release_db i r |>, Ok tt).
Proof.
  intros E. unfold releaseSegmentSeats. run_with lockRideForSeats_run.
  run_with range_update_run. { reflexivity. }
  run_with recomputeAvailableSeats_run. reflexivity.
Qed.

Lemma reserveRideSeats_run (i : ReleaseSeatsInput.t) (exclude : option string) (s : St.t) (r : Ride.t) :
  Db.ride (St.db s) !! ReleaseSeatsInput.rideId i = Some r ->
  reserveRideSeats i exclude s =
    if ReleaseSeatsInput.totalSeats i
       <? heldByOthers (St.db s) (ReleaseSeatsInput.rideId i) exclude + ReleaseSeatsInput.seatsBooked i
    then (s, Err "INSUFFICIENT_SEATS")
    else (s <| St.db ::= reserve_db i exclude r |>, Ok tt).
Proof.
  intros E. unfold reserveRideSeats. run_with lockRideForSeats_run. run_with heldSeats_run.
  destruct (_ <? _); [reflexivity|]. etrans; [apply bind_Ok; reflexivity|]. cbv beta iota.
  run_with range_update_run. { intros u v c. symmetry. apply andb_true_r. }
  run_with (update_run prisma.ride). reflexivity.
Qed.

(** ** Preservation of the invariant *)

Section preservation.
Context `{mode : Mode}.

Lemma seatsOnEdge_ext c c' b :
  RideSegmentCapacity.rideId c' = RideSegmentCapacity.rideId c ->
  RideSegmentCapacity.fromPosition c' = RideSegmentCapacity.fromPosition c ->
  RideSegmentCapacity.toPosition c' = RideSegmentCapacity.toPosition c ->
  seatsOnEdge c' b = seatsOnEdge c b.
Proof.
  intros E1 E2 E3. unfold seatsOnEdge, covers, bookedRangeWhere. rewrite E1, E2, E3. reflexivity.
Qed.

(** What writing the row [b'] over the row [old] changes of a sum. *)
Definition delta (f : RideBooking.t -> Z) (old : option RideBooking.t) (b' : RideBooking.t) : Z :=
  f b' - from_option f 0 old.

(** One booking row is written; the rides and the edges follow it. *)
Lemma SeatInv_put (d d' : Db.t) (bid : string) (b' : RideBooking.t) :
  let old := Db.rideBooking d !! bid in
  SeatInv d ->
  Db.rideBooking d' = <[bid := b']> (Db.rideBooking d) ->
  RideBooking.id b' = bid /\ bid <> EmptyString -> 0 < RideBooking.seatsBooked b' ->
  is_Some (Db.ride d !! RideBooking.rideId b') ->
  (forall k, is_Some (Db.ride d !! k) -> is_Some (Db.ride d' !! k)) ->
  (forall k r', Db.ride d' !! k = Some r' -> exists r, Db.ride d !! k = Some r /\
     Ride.id r' = Ride.id r /\ Ride.totalSeats r' = Ride.totalSeats r /\
     agrees (Ride.availableSeats r') (Ride.totalSeats r - held d k - delta (seatsOn k) old b') /\
     0 <= Ride.availableSeats r') ->
  (forall k c', Db.rideSegmentCapacity d' !! k = Some c' -> exists c,
     Db.rideSegmentCapacity d !! k = Some c /\
     RideSegmentCapacity.rideId c' = RideSegmentCapacity.rideId c /\
     RideSegmentCapacity.fromPosition c' = RideSegmentCapacity.fromPosition c /\
     RideSegmentCapacity.toPosition c' = RideSegmentCapacity.toPosition c /\
     agrees (sum_map (seatsOnEdge c) (Db.rideBooking d) + delta (seatsOnEdge c) old b')
       (RideSegmentCapacity.occupiedSeats c')) ->
  SeatInv d'.
Proof.
  intros old I Eb Hid Hpos Hr Hdom Hrides Hcaps. split.
  - intros k b. rewrite Eb, lookup_insert_Some. intros [[-> ->]|[_ E]]; [assumption|].
    exact (inv_booking_id d I k b E).
  - intros k r' E. destruct (Hrides k r' E) as (r & E' & Ei & _). rewrite Ei.
    exact (inv_ride_id d I k r E').
  - intros k b. rewrite Eb, lookup_insert_Some. intros [[-> ->]|[_ E]]; [assumption|].
    exact (inv_seats_pos d I k b E).
  - intros k b. rewrite Eb, lookup_insert_Some. intros [[-> ->]|[_ E]]; apply Hdom; [assumption|].
    exact (inv_ride d I k b E).
  - intros k r' E. destruct (Hrides k r' E) as (r & E' & _ & Et & Ea & Hn). split; [|assumption].
    unfold held in *. rewrite Eb, sum_map_put, Et. unfold delta in Ea. fold old. by_agrees.
  - intros k c' E. destruct (Hcaps k c' E) as (c & E' & E1 & E2 & E3 & Eo).
    rewrite Eb, sum_map_put.
    rewrite (sum_map_ext (seatsOnEdge c') (seatsOnEdge c))
      by (intros; apply seatsOnEdge_ext; assumption).
    rewrite (seatsOnEdge_ext c c') by assumption.
    assert (X : from_option (seatsOnEdge c') 0 (Db.rideBooking d !! bid)
                = from_option (seatsOnEdge c) 0 old).
    { fold old. destruct old; cbn; [apply seatsOnEdge_ext; assumption | reflexivity]. }
    rewrite X. unfold delta in Eo. by_agrees.
Qed.

(** The row keeps what the seat count depends on. *)
Definition same_seats (b b' : RideBooking.t) : Prop :=
  RideBooking.id b' = RideBooking.id b /\ RideBooking.rideId b' = RideBooking.rideId b /\
  RideBooking.seatsBooked b' = RideBooking.seatsBooked b /\
  RideBooking.pickupPosition b' = RideBooking.pickupPosition b /\
  RideBooking.dropoffPosition b' = RideBooking.dropoffPosition b.

Lemma seatsOn_same k b b' : same_seats b b' ->
  is_Some (RideBooking.seatsReservedAt b') <-> is_Some (RideBooking.seatsReservedAt b) ->
  seatsOn k b' = seatsOn k b.
Proof.
  intros (_ & E2 & E3 & _) Hs. unfold seatsOn, holdsOn. rewrite E2, E3.
  rewrite (bool_decide_ext _ _ Hs). reflexivity.
Qed.

Lemma covers_same c b b' : same_seats b b' -> covers c b' = covers c b.
Proof. intros (_ & _ & _ & E4 & E5). unfold covers. rewrite E4, E5. reflexivity. Qed.

(** A booking write that touches none of that keeps the invariant. *)
Lemma SeatInv_booking (d : Db.t) (bid : string) (b b' : RideBooking.t) :
  SeatInv d -> Db.rideBooking d !! bid = Some b -> same_seats b b' ->
  (is_Some (RideBooking.seatsReservedAt b') <-> is_Some (RideBooking.seatsReservedAt b)) ->
  SeatInv (d <| Db.rideBooking ::= <[bid := b']> |>).
Proof.
  intros I E S Hs. pose proof S as (E1 & E2 & E3 & _).
  assert (Z0 : forall k, delta (seatsOn k) (Db.rideBooking d !! bid) b' = 0).
  { intros k. unfold delta. rewrite E. cbn. rewrite (seatsOn_same k b b' S Hs). lia. }
  apply (SeatInv_put d _ bid b' I); cbn.
  - reflexivity.
  - rewrite E1. exact (inv_booking_id d I bid b E).
  - rewrite E3. exact (inv_seats_pos d I bid b E).
  - rewrite E2. exact (inv_ride d I bid b E).
  - auto.
  - intros k r Er. exists r. rewrite Z0, Z.sub_0_r. pose proof (inv_available d I k r Er) as [? ?].
    repeat split; assumption.
  - intros k c Ec. exists c. repeat split; [assumption|]. pose proof (inv_occupied d I k c Ec).
    assert (Ze : delta (seatsOnEdge c) (Db.rideBooking d !! bid) b' = 0).
    { unfold delta, seatsOnEdge. rewrite E. cbn. rewrite (seatsOn_same _ b b' S Hs), (covers_same c b b' S). lia. }
    rewrite Ze, Z.add_0_r. assumption.
Qed.

(** The input a caller builds from the booking row and the ride. *)
Definition seats_input (b : RideBooking.t) (totalSeats : Z) : ReleaseSeatsInput.t := {|
  ReleaseSeatsInput.rideId := RideBooking.rideId b;
  ReleaseSeatsInput.seatsBooked := RideBooking.seatsBooked b;
  ReleaseSeatsInput.pickupPosition := RideBooking.pickupPosition b;
  ReleaseSeatsInput.dropoffPosition := RideBooking.dropoffPosition b;
  ReleaseSeatsInput.totalSeats := totalSeats;
|}.

Lemma inRange_covers b total c :
  inRange (seats_input b total) c =
    match RideBooking.pickupPosition b, RideBooking.dropoffPosition b with
    | Some p, Some q => bookedRangeWhere (RideBooking.rideId b) p q c
    | _, _ => false
    end.
Proof. reflexivity. Qed.

Lemma inRange_seatsOnEdge b total c : inRange (seats_input b total) c = true ->
  is_Some (RideBooking.seatsReservedAt b) -> seatsOnEdge c b = RideBooking.seatsBooked b.
Proof.
  rewrite inRange_covers. unfold seatsOnEdge, covers, seatsOn, holdsOn.
  destruct (RideBooking.pickupPosition b) as [p|], (RideBooking.dropoffPosition b) as [q|];
    try discriminate.
  unfold bookedRangeWhere. intros E Hs. apply andb_prop in E as [E Eq]. apply andb_prop in E as [E Ep].
  apply bool_decide_eq_true in E. rewrite <- E, Ep, Eq, !bool_decide_eq_true_2 by (exact Hs || reflexivity).
  reflexivity.
Qed.

Lemma not_inRange_seatsOnEdge b total c : inRange (seats_input b total) c = false -> seatsOnEdge c b = 0.
Proof.
  rewrite inRange_covers. unfold seatsOnEdge, covers, seatsOn, holdsOn.
  destruct (RideBooking.pickupPosition b) as [p|], (RideBooking.dropoffPosition b) as [q|];
    try reflexivity.
  unfold bookedRangeWhere. intros E.
  destruct (bool_decide_reflect (RideSegmentCapacity.rideId c = RideBooking.rideId b)) as [Er|Er].
  - rewrite Er, bool_decide_eq_true_2 by reflexivity. rewrite andb_true_l in E |- *.
    rewrite E. reflexivity.
  - rewrite (bool_decide_eq_false_2 (RideBooking.rideId b = _)) by congruence.
    rewrite andb_false_l. clear E. destruct (_ && _ && _); reflexivity.
Qed.

Lemma not_reserved_seats c k b : RideBooking.seatsReservedAt b = None ->
  seatsOn k b = 0 /\ seatsOnEdge c b = 0.
Proof.
  intros E. unfold seatsOnEdge, seatsOn, holdsOn. rewrite E.
  rewrite (bool_decide_eq_false_2 (is_Some None)) by (intros [? [=]]).
  rewrite !andb_false_r. destruct (covers c b); split; reflexivity.
Qed.

Lemma seatsOn_other k b : k <> RideBooking.rideId b -> seatsOn k b = 0.
Proof.
  intros N. unfold seatsOn, holdsOn. rewrite bool_decide_eq_false_2 by congruence. reflexivity.
Qed.

Lemma seatsOn_own b : is_Some (RideBooking.seatsReservedAt b) ->
  seatsOn (RideBooking.rideId b) b = RideBooking.seatsBooked b.
Proof. intros E. unfold seatsOn, holdsOn. rewrite !bool_decide_eq_true_2 by (exact E || reflexivity). reflexivity. Qed.

Lemma lookup_put_available k n r d rid :
  Db.ride d !! rid = Some r ->
  Db.ride (put_available rid n r d) !! k = 
    (fun x => if bool_decide (k = rid) then set_available n x else x) <$> Db.ride d !! k.
Proof.
  intros E. unfold put_available. cbn. destruct (decide (k = rid)) as [->|N].
  - rewrite lookup_insert_eq, E, bool_decide_eq_true_2 by reflexivity. reflexivity.
  - rewrite lookup_insert_ne by congruence. rewrite bool_decide_eq_false_2 by assumption.
    destruct (Db.ride d !! k); reflexivity.
Qed.

(** Taking seats: a row that held none is written with [seatsReservedAt] set,
    and the reservation that leaves it out of the held count succeeds. *)
Lemma SeatInv_take (d d0 : Db.t) (bid : string) (b' : RideBooking.t) (r : Ride.t) :
  let i := seats_input b' (Ride.totalSeats r) in
  SeatInv d -> RideBooking.id b' = bid /\ bid <> EmptyString -> 0 < RideBooking.seatsBooked b' ->
  is_Some (RideBooking.seatsReservedAt b') ->
  (forall b, Db.rideBooking d !! bid = Some b -> RideBooking.seatsReservedAt b = None) ->
  Db.ride d !! RideBooking.rideId b' = Some r ->
  held d (RideBooking.rideId b') + RideBooking.seatsBooked b' <= Ride.totalSeats r ->
  Db.rideBooking d0 = <[bid := b']> (Db.rideBooking d) ->
  Db.ride d0 = Db.ride (put_available (RideBooking.rideId b')
    (Ride.totalSeats r - held d (RideBooking.rideId b') - RideBooking.seatsBooked b') r d) ->
  Db.rideSegmentCapacity d0 = Db.rideSegmentCapacity
    (on_range i (fun _ => true) (fun n => n + RideBooking.seatsBooked b') d) ->
  SeatInv d0.
Proof.
  intros i I Hid Hpos Hs Hold Er Hle Eb ER EC.
  assert (Z0 : forall c k, from_option (seatsOn k) 0 (Db.rideBooking d !! bid) = 0 /\
                           from_option (seatsOnEdge c) 0 (Db.rideBooking d !! bid) = 0).
  { intros c k. destruct (Db.rideBooking d !! bid) as [b|] eqn:E; [|split; reflexivity].
    apply (not_reserved_seats c k), Hold. reflexivity. }
  apply (SeatInv_put d d0 bid b' I); try assumption.
  - eauto.
  - intros k [x Ex]. rewrite ER, (lookup_put_available k _ r d _ Er), Ex. eauto.
  - intros k r'. rewrite ER, (lookup_put_available k _ r d _ Er).
    destruct (Db.ride d !! k) as [x|] eqn:Ex; [|discriminate]. intros [= <-].
    exists x. destruct (inv_available d I k x Ex) as [Ea Hn]. unfold delta.
    rewrite (proj1 (Z0 (RideSegmentCapacity.defaults "" 0) k)).
    destruct (bool_decide_reflect (k = RideBooking.rideId b')) as [->|N].
    + rewrite (seatsOn_own b' Hs). rewrite Er in Ex. injection Ex as <-. cbn. repeat split; by_agrees.
    + rewrite (seatsOn_other k b' N). repeat split; by_agrees.
  - intros k c'. rewrite EC. unfold on_range. cbn. rewrite lookup_fmap.
    destruct (Db.rideSegmentCapacity d !! k) as [c|] eqn:Ec; [|discriminate]. intros [= <-].
    exists c. unfold delta. rewrite (proj2 (Z0 c "")), andb_true_r. pose proof (inv_occupied d I k c Ec).
    destruct (inRange i c) eqn:Ein.
    + rewrite (inRange_seatsOnEdge b' _ c Ein Hs). cbn. repeat split; by_agrees.
    + rewrite (not_inRange_seatsOnEdge b' _ c Ein). repeat split; by_agrees.
Qed.

(** Giving seats back: a row that held seats is written with [seatsReservedAt]
    cleared, and its seats are released. *)
Lemma SeatInv_give (d d0 : Db.t) (bid : string) (b b' : RideBooking.t) (r : Ride.t) :
  let i := seats_input b (Ride.totalSeats r) in
  SeatInv d -> Db.rideBooking d !! bid = Some b -> is_Some (RideBooking.seatsReservedAt b) ->
  same_seats b b' -> RideBooking.seatsReservedAt b' = None ->
  Db.ride d !! RideBooking.rideId b = Some r ->
  d0 = release_db i r (d <| Db.rideBooking ::= <[bid := b']> |>) ->
  SeatInv d0.
Proof.
  intros i I E Hs S Hs' Er ->. pose proof S as (E1 & E2 & E3 & _).
  set (d1 := d <| Db.rideBooking ::= <[bid := b']> |>).
  assert (Hh : held d1 (RideBooking.rideId b) = held d (RideBooking.rideId b) - RideBooking.seatsBooked b).
  { unfold held, d1. cbn. rewrite (sum_map_insert _ _ _ b) by assumption.
    rewrite (seatsOn_own b Hs), (proj1 (not_reserved_seats (RideSegmentCapacity.defaults "" 0) _ b' Hs')). lia. }
  pose proof (inv_seats_pos d I bid b E) as Hpos.
  destruct (inv_available d I _ r Er) as [Ea Hn].
  assert (Hmax : Z.max 0 (Ride.totalSeats r - held d1 (RideBooking.rideId b))
                 = Ride.totalSeats r - held d (RideBooking.rideId b) + RideBooking.seatsBooked b)
    by by_agrees.
  apply (SeatInv_put d _ bid b' I); unfold release_db, put_available, on_range; cbn.
  - reflexivity.
  - rewrite E1. exact (inv_booking_id d I bid b E).
  - lia.
  - rewrite E2. eauto.
  - intros k Hk. destruct (decide (k = RideBooking.rideId b)) as [->|N].
    + rewrite lookup_insert_eq. eauto.
    + rewrite lookup_insert_ne by congruence. assumption.
  - intros k r'. rewrite lookup_insert_Some. unfold delta. rewrite E. cbn.
    rewrite (proj1 (not_reserved_seats (RideSegmentCapacity.defaults "" 0) _ b' Hs')).
    intros [[<- <-]|[N Ex]].
    + exists r. rewrite (seatsOn_own b Hs). fold d1. cbn. rewrite Hmax. repeat split; try assumption; by_agrees.
    + exists r'. rewrite (seatsOn_other k b) by congruence.
      destruct (inv_available d I k r' Ex). repeat split; try assumption; by_agrees.
  - intros k c'. rewrite lookup_fmap.
    destruct (Db.rideSegmentCapacity d !! k) as [c|] eqn:Ec; [|discriminate]. intros [= <-].
    exists c. unfold delta. rewrite E. cbn. rewrite (proj2 (not_reserved_seats c "" b' Hs')).
    pose proof (inv_occupied d I k c Ec) as Eo.
    destruct (inRange i c) eqn:Ein; cbn.
    + rewrite (inRange_seatsOnEdge b _ c Ein Hs).
      assert (RideBooking.seatsBooked b <= RideSegmentCapacity.occupiedSeats c).
      { enough (RideBooking.seatsBooked b <= sum_map (seatsOnEdge c) (Db.rideBooking d)) by by_agrees.
        rewrite <- (inRange_seatsOnEdge b _ c Ein Hs). eapply (sum_map_lookup_le _ _ bid); [assumption|].
        intros k' b2 Eb2. unfold seatsOnEdge, seatsOn. pose proof (inv_seats_pos d I k' b2 Eb2).
        repeat case_match; lia. }
      destruct (Z.leb_spec (RideBooking.seatsBooked b) (RideSegmentCapacity.occupiedSeats c)); [|lia].
      cbn. repeat split; by_agrees.
    + rewrite (not_inRange_seatsOnEdge b _ c Ein). repeat split; by_agrees.
Qed.

(** A row just claimed is left out of the held count. *)
Lemma heldByOthers_claimed (d : Db.t) (bid rideId : string) (b' : RideBooking.t) :
  SeatInv d -> bid <> EmptyString -> RideBooking.id b' = bid ->
  heldByOthers (d <| Db.rideBooking ::= <[bid := b']> |>) rideId (Some bid)
  = held d rideId - from_option (seatsOn rideId) 0 (Db.rideBooking d !! bid).
Proof.
  intros I Hne Hid.
  assert (T : truthy (Some bid) = Some bid) by (destruct bid; [contradiction | reflexivity]).
  unfold heldByOthers, held. rewrite T. cbn.
  rewrite sum_map_put, Hid, bool_decide_eq_false_2 by auto.
  destruct (Db.rideBooking d !! bid) as [b|] eqn:E; cbn.
  - rewrite (sum_map_delete (seatsOn rideId) _ bid b E), (sum_map_delete _ _ bid b E).
    rewrite (proj1 (inv_booking_id d I bid b E)), bool_decide_eq_false_2 by auto.
    rewrite (sum_map_ext _ (seatsOn rideId)); [lia|].
    intros k r Er. apply lookup_delete_Some in Er as [N Er].
    rewrite (proj1 (inv_booking_id d I k r Er)), bool_decide_eq_true_2 by auto. reflexivity.
  - rewrite (sum_map_ext _ (seatsOn rideId)); [lia|].
    intros k r Er. rewrite (proj1 (inv_booking_id d I k r Er)), bool_decide_eq_true_2; [reflexivity|].
    congruence.
Qed.

(** Claiming a row and reserving its seats in one transaction. *)
Lemma SeatInv_claim (d : Db.t) (bid : string) (b b' : RideBooking.t) (r : Ride.t) :
  SeatInv d -> Db.rideBooking d !! bid = Some b -> same_seats b b' ->
  RideBooking.seatsReservedAt b = None -> is_Some (RideBooking.seatsReservedAt b') ->
  Db.ride d !! RideBooking.rideId b = Some r ->
  let d1 := d <| Db.rideBooking ::= <[bid := b']> |> in
  let i := seats_input b (Ride.totalSeats r) in
  (Ride.totalSeats r <? heldByOthers d1 (RideBooking.rideId b) (Some bid) + RideBooking.seatsBooked b) = false ->
  SeatInv (reserve_db i (Some bid) r d1).
Proof.
  intros I E S H0 Hs Er d1 i Hle. pose proof S as (E1 & E2 & E3 & E4 & E5).
  destruct (inv_booking_id d I bid b E) as [Hid Hne].
  assert (Hh : heldByOthers d1 (RideBooking.rideId b) (Some bid) = held d (RideBooking.rideId b)).
  { unfold d1. rewrite (heldByOthers_claimed d) by (assumption || congruence). rewrite E. cbn.
    rewrite (proj1 (not_reserved_seats (RideSegmentCapacity.defaults "" 0) _ b H0)). lia. }
  rewrite Hh in Hle. apply Z.ltb_ge in Hle.
  assert (Ei : i = seats_input b' (Ride.totalSeats r))
    by (unfold i, seats_input; rewrite E2, E3, E4, E5; reflexivity).
  apply (SeatInv_take d _ bid b' r I); try assumption; try reflexivity.
  - split; congruence.
  - rewrite E3. exact (inv_seats_pos d I bid b E).
  - intros b2 Eb2. congruence.
  - rewrite E2. assumption.
  - rewrite E2, E3. lia.
  - rewrite E2, E3, <- Hh. reflexivity.
  - rewrite <- Ei, E3. reflexivity.
Qed.

(** Reserving seats for a row that is then created. *)
Lemma SeatInv_book (d : Db.t) (bid : string) (b' : RideBooking.t) (r : Ride.t) :
  SeatInv d -> Db.rideBooking d !! bid = None -> RideBooking.id b' = bid -> bid <> EmptyString ->
  0 < RideBooking.seatsBooked b' -> is_Some (RideBooking.seatsReservedAt b') ->
  Db.ride d !! RideBooking.rideId b' = Some r ->
  let i := seats_input b' (Ride.totalSeats r) in
  (Ride.totalSeats r <? heldByOthers d (RideBooking.rideId b') None + RideBooking.seatsBooked b') = false ->
  SeatInv (reserve_db i None r d <| Db.rideBooking ::= <[bid := b']> |>).
Proof.
  intros I E Hid Hne Hpos Hs Er i Hle. rewrite heldByOthers_None in Hle. apply Z.ltb_ge in Hle.
  apply (SeatInv_take d _ bid b' r I); try assumption; try reflexivity.
  - split; assumption.
  - intros b2 Eb2. congruence.
Qed.

(** Creating a row that holds no seats. *)
Lemma SeatInv_create (d : Db.t) (bid : string) (b' : RideBooking.t) :
  SeatInv d -> Db.rideBooking d !! bid = None -> RideBooking.id b' = bid -> bid <> EmptyString ->
  0 < RideBooking.seatsBooked b' -> RideBooking.seatsReservedAt b' = None ->
  is_Some (Db.ride d !! RideBooking.rideId b') ->
  SeatInv (d <| Db.rideBooking ::= <[bid := b']> |>).
Proof.
  intros I E Hid Hne Hpos H0 Hr.
  assert (Z0 : forall c k, delta (seatsOn k) (Db.rideBooking d !! bid) b' = 0 /\
                           delta (seatsOnEdge c) (Db.rideBooking d !! bid) b' = 0).
  { intros c k. unfold delta. rewrite E. cbn. destruct (not_reserved_seats c k b' H0). lia. }
  apply (SeatInv_put d _ bid b' I); try assumption; try reflexivity; cbn.
  - split; assumption.
  - auto.
  - intros k r Er. exists r. rewrite (proj1 (Z0 (RideSegmentCapacity.defaults "" 0) k)).
    destruct (inv_available d I k r Er). rewrite Z.sub_0_r. repeat split; assumption.
  - intros k c Ec. exists c. rewrite (proj2 (Z0 c "")), Z.add_0_r. repeat split; [exact Ec | exact (inv_occupied d I k c Ec)].
Qed.

(** ** Release as a function of the database *)

Definition cleared (b : RideBooking.t) : RideBooking.t := b <| RideBooking.seatsReservedAt := None |>.

Lemma releaseBookingSeats_run (bid : string) (i : ReleaseSeatsInput.t) (s : St.t) (b : RideBooking.t)
    (r : Ride.t) :
  Db.rideBooking (St.db s) !! bid = Some b ->
  Db.ride (St.db s) !! ReleaseSeatsInput.rideId i = Some r ->
  releaseBookingSeats bid i s =
    match RideBooking.seatsReservedAt b with
    | None => (s, Ok false)
    | Some _ =>
        (s <| St.db ::= fun d => release_db i r (d <| Db.rideBooking ::= <[bid := cleared b]> |>) |>,
         Ok true)
    end.
Proof.
  intros E Er. unfold releaseBookingSeats.
  etrans; [apply bind_run|]. rewrite (updateManyId_run prisma.rideBooking _ _ _ _ b) by exact E.
  destruct (RideBooking.seatsReservedAt b) as [t|].
  - rewrite bool_decide_eq_true_2 by eauto. cbn [fst snd]. run_with (releaseSegmentSeats_run i).
    reflexivity.
  - rewrite bool_decide_eq_false_2 by (intros [? [=]]). reflexivity.
Qed.

Lemma releaseBookingSeats_none (bid : string) (i : ReleaseSeatsInput.t) (s : St.t) :
  Db.rideBooking (St.db s) !! bid = None -> releaseBookingSeats bid i s = (s, Ok false).
Proof.
  intros E. unfold releaseBookingSeats.
  etrans; [apply bind_run|]. rewrite (updateManyId_None prisma.rideBooking) by exact E. reflexivity.
Qed.

(** ** Transactions on seats, in any order *)

(** The row is changed without touching its seats. *)
Definition seat_neutral (f : RideBooking.t -> RideBooking.t) : Prop := forall b,
  same_seats b (f b) /\ RideBooking.seatsReservedAt (f b) = RideBooking.seatsReservedAt b.

(** The row is claimed: it now holds its seats. *)
Definition seat_claim (f : RideBooking.t -> RideBooking.t) : Prop := forall b,
  same_seats b (f b) /\ is_Some (RideBooking.seatsReservedAt (f b)).

(** The transactions of the backend that touch seats. *)
Inductive seat_step : St.t -> St.t -> Prop :=
| step_create s b r :
    RideBooking.id b <> EmptyString -> 0 < RideBooking.seatsBooked b ->
    RideBooking.seatsReservedAt b = None ->
    Db.ride (St.db s) !! RideBooking.rideId b = Some r ->
    seat_step s (create prisma.rideBooking (RideBooking.id b) b s).1
| step_book s b r :
    RideBooking.id b <> EmptyString -> 0 < RideBooking.seatsBooked b ->
    is_Some (RideBooking.seatsReservedAt b) ->
    Db.ride (St.db s) !! RideBooking.rideId b = Some r ->
    seat_step s (transaction (reserveRideSeats (seats_input b (Ride.totalSeats r)) None;;
                              create prisma.rideBooking (RideBooking.id b) b) s).1
| step_claim s bid b r f :
    seat_claim f ->
    Db.rideBooking (St.db s) !! bid = Some b -> RideBooking.seatsReservedAt b = None ->
    Db.ride (St.db s) !! RideBooking.rideId b = Some r ->
    seat_step s (transaction (update prisma.rideBooking bid f;;
                              reserveRideSeats (seats_input b (Ride.totalSeats r)) (Some bid)) s).1
| step_release s bid b r :
    Db.rideBooking (St.db s) !! bid = Some b ->
    Db.ride (St.db s) !! RideBooking.rideId b = Some r ->
    seat_step s (releaseBookingSeats bid (seats_input b (Ride.totalSeats r)) s).1
| step_neutral s bid f :
    seat_neutral f -> seat_step s (update prisma.rideBooking bid f s).1.

Lemma seat_step_inv (s s' : St.t) : seat_step s s' -> SeatInv (St.db s) -> SeatInv (St.db s').
Proof.
  destruct 1 as [s b r Hne Hpos H0 Er | s b r Hne Hpos Hs Er | s bid b r f Hf E H0 Er
                | s bid b r E Er | s bid f Hf]; intros I.
  - unfold create. rewrite bind_run. cbn.
    destruct (Db.rideBooking (St.db s) !! RideBooking.id b) eqn:E; [exact I|].
    apply SeatInv_create; eauto.
  - unfold transaction. rewrite bind_run, (reserveRideSeats_run _ _ s r) by exact Er.
    cbn [ReleaseSeatsInput.rideId ReleaseSeatsInput.seatsBooked ReleaseSeatsInput.totalSeats seats_input].
    destruct (_ <? _) eqn:Lt; [exact I|]. cbn [fst snd]. unfold create. rewrite bind_run. cbn.
    destruct (Db.rideBooking (St.db s) !! RideBooking.id b) eqn:E; [exact I|].
    exact (SeatInv_book (St.db s) (RideBooking.id b) b r I E eq_refl Hne Hpos Hs Er Lt).
  - unfold transaction. rewrite bind_run, (update_run prisma.rideBooking bid f s b) by exact E.
    cbn [fst snd]. rewrite (reserveRideSeats_run _ _ _ r) by exact Er.
    destruct (_ <? _) eqn:Lt; [exact I|]. destruct (Hf b) as [S Hs].
    exact (SeatInv_claim (St.db s) bid b (f b) r I E S H0 Hs Er Lt).
  - rewrite (releaseBookingSeats_run bid _ s b r) by assumption.
    destruct (RideBooking.seatsReservedAt b) as [t|] eqn:Hs; [|exact I].
    eapply (SeatInv_give (St.db s) _ bid b (cleared b) r); try eassumption; try reflexivity.
    + rewrite Hs. eauto.
    + repeat split; reflexivity.
  - unfold update. rewrite bind_run. cbn.
    destruct (Db.rideBooking (St.db s) !! bid) as [b|] eqn:E; [|exact I].
    destruct (Hf b) as [S Hs]. apply (SeatInv_booking _ _ b); try assumption. rewrite Hs. reflexivity.
Qed.

(** The seats of the bookings that ride over the leg [c]. *)
Definition seatsOver (d : Db.t) (c : RideSegmentCapacity.t) : Z := sum_map (seatsOnEdge c) (Db.rideBooking d).

Lemma edge_within_held (d : Db.t) (c : RideSegmentCapacity.t) :
  SeatInv d -> 0 <= seatsOver d c <= held d (RideSegmentCapacity.rideId c).
Proof.
  intros I. unfold held, seatsOver.
  assert (Hb : forall k' b, Db.rideBooking d !! k' = Some b ->
            0 <= seatsOnEdge c b <= seatsOn (RideSegmentCapacity.rideId c) b).
  { intros k' b Eb. pose proof (inv_seats_pos d I k' b Eb). unfold seatsOnEdge, seatsOn.
    repeat case_match; lia. }
  split.
  - apply sum_map_nonneg. intros k' b Eb. apply (Hb k' b Eb).
  - apply sum_map_le. intros k' b Eb. apply (Hb k' b Eb).
Qed.

(** ** Properties *)

Lemma SeatInv_bounds (d : Db.t) : SeatInv d ->
  (forall k r, Db.ride d !! k = Some r ->
     agrees (Ride.availableSeats r) (Ride.totalSeats r - held d k) /\ 0 <= Ride.availableSeats r /\
     0 <= held d k <= Ride.totalSeats r) /\
  (forall k c r, Db.rideSegmentCapacity d !! k = Some c -> Db.ride d !! RideSegmentCapacity.rideId c = Some r ->
     agrees (seatsOver d c) (RideSegmentCapacity.occupiedSeats c) /\ 0 <= seatsOver d c <= Ride.totalSeats r).
Proof.
  intros I.
  assert (A : forall k r, Db.ride d !! k = Some r ->
            agrees (Ride.availableSeats r) (Ride.totalSeats r - held d k) /\ 0 <= Ride.availableSeats r /\
            0 <= held d k <= Ride.totalSeats r).
  { intros k r E. destruct (inv_available _ I k r E). repeat split; [assumption | assumption | | by_agrees].
    apply sum_map_nonneg. intros k' b Eb. pose proof (inv_seats_pos _ I k' b Eb).
    unfold seatsOn. destruct (holdsOn k b); lia. }
  split; [exact A|]. intros k c r Ec Er. split; [exact (inv_occupied _ I k c Ec)|].
  pose proof (edge_within_held d c I). destruct (A _ r Er) as (_ & _ & ?). lia.
Qed.

(** No ride is ever oversold.  From any state in which the seat counters
    agree with the bookings, any sequence of the transactions that touch seats
    (booking with and without payment, confirming, releasing, and changes to
    bookings that do not concern seats) leads to a state in which, on every ride,
    [availableSeats] is exactly the total minus the seats held and is never
    negative, and every leg carries at most [totalSeats] passengers. *)
Theorem seats_never_oversold (s s' : St.t) :
  SeatInv (St.db s) -> rtc seat_step s s' ->
  (forall k r, Db.ride (St.db s') !! k = Some r ->
     agrees (Ride.availableSeats r) (Ride.totalSeats r - held (St.db s') k) /\ 0 <= Ride.availableSeats r /\
     0 <= held (St.db s') k <= Ride.totalSeats r) /\
  (forall k c r, Db.rideSegmentCapacity (St.db s') !! k = Some c ->
     Db.ride (St.db s') !! RideSegmentCapacity.rideId c = Some r ->
     agrees (seatsOver (St.db s') c) (RideSegmentCapacity.occupiedSeats c) /\ 0 <= seatsOver (St.db s') c <= Ride.totalSeats r).
Proof.
  intros I Hs.
  assert (I' : SeatInv (St.db s')) by (revert I; induction Hs; eauto using seat_step_inv).
  exact (SeatInv_bounds _ I').
Qed.
End preservation.

(** The counters are exact. *)
Definition exactly : Mode := true.
(** The counters may claim too much. *)
Definition loosely : Mode := false.

#[local] Existing Instance exactly.

Lemma available_exact (d : Db.t) (k : string) (r : Ride.t) : SeatInv d -> Db.ride d !! k = Some r ->
  Ride.availableSeats r = Ride.totalSeats r - held d k /\ 0 <= Ride.availableSeats r.
Proof. intros I E. exact (inv_available d I k r E). Qed.

Lemma occupied_exact (d : Db.t) (k : string) (c : RideSegmentCapacity.t) : SeatInv d ->
  Db.rideSegmentCapacity d !! k = Some c -> seatsOver d c = RideSegmentCapacity.occupiedSeats c.
Proof. intros I E. exact (inv_occupied d I k c E). Qed.

(** Reserving seats.  A reservation is refused exactly when the seats held by
    the other bookings plus the requested ones exceed the total, and then nothing
    is written; otherwise [availableSeats] becomes what is left, each leg inside
    the booked range (and no other leg) carries the booked seats more, and no
    other row of the database changes. *)
Theorem reserveRideSeats_correct (i : ReleaseSeatsInput.t) (exclude : option string) (s : St.t) (r : Ride.t) :
  Db.ride (St.db s) !! ReleaseSeatsInput.rideId i = Some r ->
  let free := ReleaseSeatsInput.totalSeats i
                - heldByOthers (St.db s) (ReleaseSeatsInput.rideId i) exclude in
  (free < ReleaseSeatsInput.seatsBooked i ->
     reserveRideSeats i exclude s = (s, Err "INSUFFICIENT_SEATS")) /\
  (ReleaseSeatsInput.seatsBooked i <= free -> exists R C,
     reserveRideSeats i exclude s
       = (s <| St.db ::= fun d => d <| Db.rideSegmentCapacity := C |> <| Db.ride := R |> |>, Ok tt) /\
     (forall k, R !! k = if bool_decide (k = ReleaseSeatsInput.rideId i)
        then Some (r <| Ride.availableSeats := free - ReleaseSeatsInput.seatsBooked i |>)
        else Db.ride (St.db s) !! k) /\
     (forall k, C !! k = (fun c => if inRange i c
        then c <| RideSegmentCapacity.occupiedSeats ::= fun n => n + ReleaseSeatsInput.seatsBooked i |>
        else c) <$> Db.rideSegmentCapacity (St.db s) !! k)).
Proof.
  intros E free. rewrite (reserveRideSeats_run i exclude s r E). split; intros Hf.
  - destruct (Z.ltb_spec (ReleaseSeatsInput.totalSeats i)
      (heldByOthers (St.db s) (ReleaseSeatsInput.rideId i) exclude + ReleaseSeatsInput.seatsBooked i));
      [reflexivity | lia].
  - destruct (Z.ltb_spec (ReleaseSeatsInput.totalSeats i)
      (heldByOthers (St.db s) (ReleaseSeatsInput.rideId i) exclude + ReleaseSeatsInput.seatsBooked i)); [lia|].
    set (d' := reserve_db i exclude r (St.db s)).
    exists (Db.ride d'), (Db.rideSegmentCapacity d'). split; [|split].
    + reflexivity.
    + intros k. unfold d', reserve_db, put_available. cbn.
      destruct (bool_decide_reflect (k = ReleaseSeatsInput.rideId i)) as [->|N].
      * apply lookup_insert_eq.
      * apply lookup_insert_ne. congruence.
    + intros k. unfold d', reserve_db, put_available, on_range. cbn. rewrite lookup_fmap.
      destruct (Db.rideSegmentCapacity (St.db s) !! k); [cbn|reflexivity].
      rewrite andb_true_r. reflexivity.
Qed.

(** A booking's seats are given back exactly once.  Releasing reports whether
    the booking held seats; after a release the booking holds none, the ride has
    [seatsBooked] more seats if it did, and any number of further releases of the
    booking report false and change nothing. *)
Theorem releaseBookingSeats_once (s : St.t) (bid : string) (b : RideBooking.t) (r : Ride.t) (n : nat) :
  SeatInv (St.db s) ->
  Db.rideBooking (St.db s) !! bid = Some b -> Db.ride (St.db s) !! RideBooking.rideId b = Some r ->
  let i := seats_input b (Ride.totalSeats r) in
  let s1 := (releaseBookingSeats bid i s).1 in
  (releaseBookingSeats bid i s).2 = Ok (bool_decide (is_Some (RideBooking.seatsReservedAt b))) /\
  (exists b1, Db.rideBooking (St.db s1) !! bid = Some b1 /\ RideBooking.seatsReservedAt b1 = None) /\
  (exists r1, Db.ride (St.db s1) !! RideBooking.rideId b = Some r1 /\
     Ride.availableSeats r1 = Ride.availableSeats r +
       (if RideBooking.seatsReservedAt b then RideBooking.seatsBooked b else 0)) /\
  Nat.iter n (fun x => (releaseBookingSeats bid i x).1) s1 = s1 /\
  (releaseBookingSeats bid i s1).2 = Ok false.
Proof.
  intros I E Er i.
  pose proof (seat_step_inv _ _ (step_release s bid b r E Er) I) as I1.
  pose proof (releaseBookingSeats_run bid i s b r E Er) as R.
  cbv zeta. fold i in I1. rewrite R in I1 |- *.
  destruct (available_exact _ _ r I Er) as [Ea _].
  destruct (RideBooking.seatsReservedAt b) as [t|] eqn:Hs; cbn [fst snd] in *.
  - rewrite bool_decide_eq_true_2 by eauto.
    set (s1 := s <| St.db ::= _ |>) in *.
    assert (E1 : Db.rideBooking (St.db s1) !! bid = Some (cleared b)) by apply lookup_insert_eq.
    assert (Er1 : Db.ride (St.db s1) !! RideBooking.rideId b = Some (set_available (Z.max 0
      (Ride.totalSeats r - held (St.db s1) (RideBooking.rideId b))) r)) by apply lookup_insert_eq.
    pose proof (releaseBookingSeats_run bid i s1 (cleared b) _ E1 Er1) as R1. cbn in R1.
    split; [reflexivity|]. split; [eexists; split; [exact E1 | reflexivity]|].
    split.
    { eexists. split; [exact Er1|]. destruct (available_exact _ _ _ I1 Er1) as [Ea1 _].
      change (Ride.totalSeats (set_available _ r)) with (Ride.totalSeats r) in Ea1.
      rewrite Ea1, Ea.
      assert (Hd : held (St.db s1) (RideBooking.rideId b)
                   = held (St.db s) (RideBooking.rideId b) - RideBooking.seatsBooked b); [|lia].
      unfold held. cbn. rewrite (sum_map_insert _ _ _ b) by assumption.
      rewrite (seatsOn_own b) by (rewrite Hs; eauto).
      rewrite (proj1 (not_reserved_seats (RideSegmentCapacity.defaults "" 0) _ (cleared b) eq_refl)). lia. }
    split; [|rewrite R1; reflexivity].
    induction n as [|n IH]; [reflexivity|]. rewrite Nat.iter_succ, IH, R1. reflexivity.
  - rewrite bool_decide_eq_false_2 by (intros [? [=]]).
    split; [reflexivity|]. split; [eauto|]. split; [exists r; split; [exact Er | lia]|].
    split; [|rewrite R; reflexivity].
    induction n as [|n IH]; [reflexivity|]. rewrite Nat.iter_succ, IH, R. reflexivity.
Qed.

Lemma set_available_own n m r : n = Ride.availableSeats r -> set_available n (set_available m r) = r.
Proof. intros ->. destruct r. reflexivity. Qed.

Lemma on_range_undo (i : ReleaseSeatsInput.t) (d : Db.t) (n : Z) : 0 <= n ->
  (forall k c, Db.rideSegmentCapacity d !! k = Some c -> 0 <= RideSegmentCapacity.occupiedSeats c) ->
  Db.rideSegmentCapacity (on_range i (fun c => n <=? RideSegmentCapacity.occupiedSeats c) (fun m => m - n)
    (on_range i (fun _ => true) (fun m => m + n) d)) = Db.rideSegmentCapacity d.
Proof.
  intros Hn Hc. unfold on_range. cbn. apply map_eq. intros k. rewrite !lookup_fmap.
  destruct (Db.rideSegmentCapacity d !! k) as [c|] eqn:E; [|reflexivity]. cbn. f_equal.
  rewrite andb_true_r. destruct (inRange i c) eqn:Ein; [|rewrite Ein; reflexivity].
  change (inRange i (c <| RideSegmentCapacity.occupiedSeats ::= fun m => m + n |>)) with (inRange i c).
  rewrite Ein. cbn. pose proof (Hc k c E).
  destruct (Z.leb_spec n (RideSegmentCapacity.occupiedSeats c + n)); [|lia].
  destruct c as [cid crid cf ct co]. unfold setf. cbn. f_equal. lia.
Qed.

(** Reserving and releasing are inverse.  Confirming a booking that holds no
    seats and later releasing it restores every ride's [availableSeats] and every
    leg's [occupiedSeats] to what they were. *)
Theorem reserve_release_roundtrip (s s1 : St.t) (bid : string) (b : RideBooking.t) (r : Ride.t) f :
  SeatInv (St.db s) -> seat_claim f ->
  Db.rideBooking (St.db s) !! bid = Some b -> RideBooking.seatsReservedAt b = None ->
  Db.ride (St.db s) !! RideBooking.rideId b = Some r ->
  let i := seats_input b (Ride.totalSeats r) in
  transaction (update prisma.rideBooking bid f;; reserveRideSeats i (Some bid)) s = (s1, Ok tt) ->
  let s2 := (releaseBookingSeats bid i s1).1 in
  (releaseBookingSeats bid i s1).2 = Ok true /\
  Db.ride (St.db s2) = Db.ride (St.db s) /\
  Db.rideSegmentCapacity (St.db s2) = Db.rideSegmentCapacity (St.db s).
Proof.
  intros I Hf E H0 Er i Run. destruct (Hf b) as [S Hs].
  unfold transaction in Run.
  rewrite bind_run, (update_run prisma.rideBooking bid f s b) in Run by exact E.
  cbn [fst snd] in Run. rewrite (reserveRideSeats_run _ _ _ r) in Run by exact Er.
  destruct (_ <? _) in Run; [discriminate|]. injection Run as <-.
  set (s1 := s <| St.db ::= _ |> <| St.db ::= _ |>).
  assert (E1 : Db.rideBooking (St.db s1) !! bid = Some (f b)) by apply lookup_insert_eq.
  assert (Er1 : Db.ride (St.db s1) !! ReleaseSeatsInput.rideId i = Some (set_available
    (Ride.totalSeats r - heldByOthers (St.db s <| Db.rideBooking ::= <[bid := f b]> |>)
       (RideBooking.rideId b) (Some bid) - RideBooking.seatsBooked b) r)) by apply lookup_insert_eq.
  rewrite (releaseBookingSeats_run bid i s1 (f b) _ E1 Er1). destruct Hs as [t ->].
  cbn [fst snd]. split; [reflexivity|].
  assert (Hh : held (St.db s1 <| Db.rideBooking ::= <[bid := cleared (f b)]> |>) (RideBooking.rideId b)
               = held (St.db s) (RideBooking.rideId b)).
  { unfold held. cbn. rewrite insert_insert_eq, (sum_map_insert _ _ _ b) by assumption.
    destruct (not_reserved_seats (RideSegmentCapacity.defaults "" 0) (RideBooking.rideId b) b H0) as [-> _].
    destruct (not_reserved_seats (RideSegmentCapacity.defaults "" 0) (RideBooking.rideId b)
      (cleared (f b)) eq_refl) as [-> _]. lia. }
  split.
  - unfold s1, release_db, put_available. cbn. rewrite insert_insert_eq.
    rewrite set_available_own; [apply insert_id; assumption|].
    change (held _ (RideBooking.rideId b)) with
      (held (St.db s1 <| Db.rideBooking ::= <[bid := cleared (f b)]> |>) (RideBooking.rideId b)).
    destruct (available_exact _ _ r I Er). lia.
  - refine (on_range_undo i (St.db s) (RideBooking.seatsBooked b) _ _).
    + pose proof (inv_seats_pos _ I _ _ E). lia.
    + intros k c Ec. rewrite <- (occupied_exact _ k c I Ec). apply (edge_within_held _ c I).
Qed.

(** ** Witnesses: a three-seat ride with two legs, one booking holding a seat on
    the first leg and one unpaid booking for the whole route *)

Section witnesses.

Definition demo_ride : Ride.t :=
  Ride.defaults "r1" 0 <| Ride.totalSeats := 3 |> <| Ride.availableSeats := 2 |>.
Definition demo_paid : RideBooking.t :=
  RideBooking.defaults "b1" 0 <| RideBooking.rideId := "r1"%string |>
    <| RideBooking.pickupPosition := Some 0 |> <| RideBooking.dropoffPosition := Some 1 |>
    <| RideBooking.seatsReservedAt := Some 5 |>.
Definition demo_unpaid : RideBooking.t :=
  RideBooking.defaults "b2" 0 <| RideBooking.rideId := "r1"%string |>
    <| RideBooking.seatsBooked := 2 |>
    <| RideBooking.pickupPosition := Some 0 |> <| RideBooking.dropoffPosition := Some 2 |>.
Definition demo_edge (k : string) (a o : Z) : RideSegmentCapacity.t :=
  RideSegmentCapacity.Build_t k "r1" a (a + 1) o.
Definition demo_db : Db.t :=
  Db.empty <| Db.ride := {["r1"%string := demo_ride]} |>
    <| Db.rideBooking := <["b1"%string := demo_paid]> {["b2"%string := demo_unpaid]} |>
    <| Db.rideSegmentCapacity := <["e0"%string := demo_edge "e0" 0 1]> {["e1"%string := demo_edge "e1" 1 0]} |>.
Definition demo : St.t := St.Build_t demo_db [] 0.

Lemma demo_inv : SeatInv demo_db.
Proof.
  split; unfold demo_db; cbn.
  - intros k b. rewrite lookup_insert_Some, lookup_singleton_Some.
    intros [[<- <-]|(_ & <- & <-)]; split; (reflexivity || discriminate).
  - intros k r. rewrite lookup_singleton_Some. intros [<- <-]. reflexivity.
  - intros k b. rewrite lookup_insert_Some, lookup_singleton_Some.
    intros [[<- <-]|(_ & <- & <-)]; reflexivity.
  - intros k b. rewrite lookup_insert_Some, lookup_singleton_Some.
    intros [[<- <-]|(_ & <- & <-)]; eexists; reflexivity.
  - intros k r. rewrite lookup_singleton_Some. intros [<- <-]. vm_compute. split; congruence.
  - intros k c. rewrite lookup_insert_Some, lookup_singleton_Some.
    intros [[<- <-]|(_ & <- & <-)]; vm_compute; reflexivity.
Qed.

Definition demo_confirm (b : RideBooking.t) : RideBooking.t :=
  b <| RideBooking.status := BookingStatus.DRIVER_PENDING |> <| RideBooking.seatsReservedAt := Some 9 |>.

Lemma demo_claim : seat_claim demo_confirm.
Proof. intros b. split; [repeat split | eexists]; reflexivity. Qed.

Definition demo_confirmed : St.t := (transaction (update prisma.rideBooking "b2" demo_confirm;;
  reserveRideSeats (seats_input demo_unpaid 3) (Some "b2"%string)) demo).1.

Lemma seats_never_oversold_witness :
  exists r, Db.ride (St.db demo_confirmed) !! "r1"%string = Some r /\ Ride.availableSeats r = 0 /\
            0 <= held (St.db demo_confirmed) "r1" <= Ride.totalSeats r.
Proof.
  assert (P : rtc seat_step demo demo_confirmed).
  { apply rtc_once.
    exact (step_claim demo "b2" demo_unpaid demo_ride _ demo_claim eq_refl eq_refl eq_refl). }
  destruct (seats_never_oversold demo demo_confirmed demo_inv P) as [A _].
  eexists. split; [vm_compute; reflexivity|]. split; [reflexivity|].
  apply (A "r1"%string). vm_compute. reflexivity.
Defined.

Lemma reserveRideSeats_correct_witness :
  reserveRideSeats (seats_input (demo_unpaid <| RideBooking.seatsBooked := 3 |>) 3) None demo
    = (demo, Err "INSUFFICIENT_SEATS").
Proof.
  apply (reserveRideSeats_correct _ None demo demo_ride); [reflexivity|]. vm_compute. reflexivity.
Defined.

Lemma releaseBookingSeats_once_witness :
  (releaseBookingSeats "b1" (seats_input demo_paid 3)
     (releaseBookingSeats "b1" (seats_input demo_paid 3) demo).1).2 = Ok false.
Proof.
  pose proof (releaseBookingSeats_once demo "b1" demo_paid demo_ride 1 demo_inv eq_refl eq_refl) as W.
  cbv zeta in W. apply W.
Defined.

Lemma reserve_release_roundtrip_witness :
  exists s1, transaction (update prisma.rideBooking "b2" demo_confirm;;
    reserveRideSeats (seats_input demo_unpaid 3) (Some "b2"%string)) demo = (s1, Ok tt) /\
    Db.ride (St.db (releaseBookingSeats "b2" (seats_input demo_unpaid 3) s1).1) = Db.ride demo_db.
Proof.
  set (m := transaction _). exists (m demo).1.
  assert (R : m demo = ((m demo).1, Ok tt)) by (vm_compute; reflexivity).
  split; [exact R|].
  destruct (reserve_release_roundtrip demo (m demo).1 "b2" demo_unpaid demo_ride demo_confirm
    demo_inv demo_claim eq_refl eq_refl eq_refl R) as (_ & W & _). exact W.
Defined.
End witnesses.
