(* ===== verification/Payments.v ===== *)
(** * Payments, the ledger and the payment outbox

    Models [modules/payments/payment.service.ts], [modules/ledger/ledger.service.ts]
    and [modules/payments/payment-outbox.worker.ts]: the payment state machine, the
    double-entry ledger the driver's balance is derived from, and the outbox whose
    events move a paid payment into escrow.  None of these handlers runs in a
    transaction: an error keeps the writes made before it. *)

From Stdlib Require Import ZArith QArith Lia.
From stdpp Require Import base list option strings gmap.
From S2P Require Import Prelude JsNumber Money Schema Store.

Open Scope Z_scope.

(** ** Payment status transitions *)

Definition show_status (st : PaymentStatus.t) : string :=
  match st with
  | PaymentStatus.CREATED => "CREATED"
  | PaymentStatus.PAYMENT_PENDING => "PAYMENT_PENDING"
  | PaymentStatus.PAID => "PAID"
  | PaymentStatus.HELD_IN_ESCROW => "HELD_IN_ESCROW"
  | PaymentStatus.PAYOUT_ELIGIBLE => "PAYOUT_ELIGIBLE"
  | PaymentStatus.TRANSFER_CREATED => "TRANSFER_CREATED"
  | PaymentStatus.PAYOUT_COMPLETED => "PAYOUT_COMPLETED"
  | PaymentStatus.REFUND_PENDING => "REFUND_PENDING"
  | PaymentStatus.REFUNDED => "REFUNDED"
  | PaymentStatus.PAYMENT_FAILED => "PAYMENT_FAILED"
  end.

Definition PAYMENT_TRANSITIONS (st : PaymentStatus.t) : list PaymentStatus.t :=
  match st with
  | PaymentStatus.CREATED => [PaymentStatus.PAYMENT_PENDING; PaymentStatus.PAYMENT_FAILED]
  | PaymentStatus.PAYMENT_PENDING => [PaymentStatus.PAID; PaymentStatus.PAYMENT_FAILED]
  | PaymentStatus.PAID => [PaymentStatus.HELD_IN_ESCROW; PaymentStatus.REFUND_PENDING]
  | PaymentStatus.HELD_IN_ESCROW => [PaymentStatus.PAYOUT_ELIGIBLE; PaymentStatus.REFUND_PENDING]
  | PaymentStatus.PAYOUT_ELIGIBLE => [PaymentStatus.TRANSFER_CREATED; PaymentStatus.REFUND_PENDING]
  | PaymentStatus.TRANSFER_CREATED => [PaymentStatus.PAYOUT_COMPLETED; PaymentStatus.PAYOUT_ELIGIBLE]
  | PaymentStatus.REFUND_PENDING => [PaymentStatus.REFUNDED; PaymentStatus.PAYOUT_ELIGIBLE]
  | PaymentStatus.PAYOUT_COMPLETED | PaymentStatus.REFUNDED | PaymentStatus.PAYMENT_FAILED => []
  end.

Definition allowed (current target : PaymentStatus.t) : bool :=
  bool_decide (target ∈ PAYMENT_TRANSITIONS current).

Definition assertTransition (current target : PaymentStatus.t) : H unit :=
  throw_if (negb (allowed current target))
    ("INVALID_PAYMENT_TRANSITION: " +:+ show_status current +:+ " -> " +:+ show_status target).

(** ** Residual amounts *)

(** [Math.max(0, Math.round((gross - refunded) * 100)) / 100] *)
Definition netFareAmount (payment : Payment.t) : num :=
  of_cents (Z.max 0 (to_cents (nsub (Payment.fareAmount payment) (Payment.refundedFareAmount payment)))).

Definition netPlatformFeeAmount (payment : Payment.t) : num :=
  of_cents (Z.max 0 (to_cents (nsub (Payment.platformFeeAmount payment) (Payment.refundedFeeAmount payment)))).

(** ** The ledger *)

Definition entry (groupId : string) (paymentId bookingId userId : option string)
    (acc : AccountType.t) (ty : EntryType.t) (dir : Direction.t) (amount : num) (currency : string)
    (at_ : Z) : LedgerEntry.t :=
  LedgerEntry.defaults "" at_
    <| LedgerEntry.entryGroupId := groupId |>
    <| LedgerEntry.paymentId := paymentId |>
    <| LedgerEntry.bookingId := bookingId |>
    <| LedgerEntry.userId := userId |>
    <| LedgerEntry.accountType := acc |>
    <| LedgerEntry.entryType := ty |>
    <| LedgerEntry.direction := dir |>
    <| LedgerEntry.amount := amount |>
    <| LedgerEntry.currency := currency |>.

Section handlers.
Context `{Env}.

Definition recordPaymentReceived (paymentId bookingId riderId driverId : string)
    (totalAmount fareAmount platformFee : num) (currency : string) : H string :=
  groupId ← randomUUID;
  createLedgerEntries (
    [ entry groupId (Some paymentId) (Some bookingId) (Some riderId) AccountType.RIDER
        EntryType.RIDER_PAYMENT_RECEIVED Direction.DEBIT totalAmount currency now;
      entry groupId (Some paymentId) (Some bookingId) (Some driverId) AccountType.DRIVER
        EntryType.DRIVER_EARNING_LIABILITY Direction.CREDIT fareAmount currency now ] ++
    (if nlt (num_of_Z 0) platformFee
     then [ entry groupId (Some paymentId) (Some bookingId) None AccountType.PLATFORM
              EntryType.PLATFORM_FEE_REVENUE Direction.CREDIT platformFee currency now ]
     else []));;
  mret groupId.

Definition recordRefund (paymentId bookingId riderId driverId : string)
    (refundAmount fareRefundAmount feeRefundAmount : num) (currency : string) : H string :=
  groupId ← randomUUID;
  let entries :=
    [ entry groupId (Some paymentId) (Some bookingId) (Some riderId) AccountType.RIDER
        EntryType.REFUND_TO_RIDER Direction.CREDIT refundAmount currency now;
      entry groupId (Some paymentId) (Some bookingId) (Some driverId) AccountType.DRIVER
        EntryType.DRIVER_EARNING_LIABILITY Direction.DEBIT fareRefundAmount currency now ] in
  let entries :=
    if nlt (num_of_Z 0) feeRefundAmount
    then entries ++ [ entry groupId (Some paymentId) (Some bookingId) None AccountType.PLATFORM
                        EntryType.PLATFORM_FEE_REVERSAL Direction.DEBIT feeRefundAmount currency now ]
    else entries in
  createLedgerEntries entries;;
  mret groupId.

Definition recordTransfer (paymentId bookingId driverId : string) (transferAmount : num)
    (currency : string) : H string :=
  groupId ← randomUUID;
  createLedgerEntries
    [ entry groupId (Some paymentId) (Some bookingId) (Some driverId) AccountType.DRIVER
        EntryType.DRIVER_TRANSFER_CREATED Direction.DEBIT transferAmount currency now ];;
  mret groupId.

Definition recordPayoutFailureReversal (paymentId bookingId driverId : string) (reversedAmount : num)
    (currency : string) (reason : option string) : H string :=
  groupId ← randomUUID;
  createLedgerEntries
    [ entry groupId (Some paymentId) (Some bookingId) (Some driverId) AccountType.DRIVER
        EntryType.PAYOUT_FAILURE_REVERSAL Direction.CREDIT reversedAmount currency now
        <| LedgerEntry.metadataJson := truthy reason |> ];;
  mret groupId.

Definition recordProviderFeeExpense (paymentId bookingId : string) (feeAmount : num)
    (currency : string) : H (option string) :=
  if negb (nlt (num_of_Z 0) feeAmount) then mret None
  else
    groupId ← randomUUID;
    createLedgerEntries
      [ entry groupId (Some paymentId) (Some bookingId) None AccountType.PROVIDER
          EntryType.STRIPE_FEE_EXPENSE Direction.CREDIT feeAmount currency now;
        entry groupId (Some paymentId) (Some bookingId) None AccountType.PLATFORM
          EntryType.STRIPE_FEE_EXPENSE Direction.DEBIT feeAmount currency now ];;
    mret (Some groupId).

(** ** Balances derived from the ledger *)

Definition isDriverEntry (driverId : string) (e : LedgerEntry.t) : bool :=
  bool_decide (LedgerEntry.userId e = Some driverId) &&
  bool_decide (LedgerEntry.accountType e = AccountType.DRIVER).

Record DriverBalance := {
  balance : num;
  balance_currency : string;
  entriesCount : nat;
}.

Definition getDriverBalance (driverId : string) (currency : option string) : H DriverBalance :=
  entries ← get (fun s => List.filter (fun e =>
    isDriverEntry driverId e &&
    match truthy currency with
    | Some c => bool_decide (LedgerEntry.currency e = c)
    | None => true
    end) (Db.ledgerEntry (St.db s)));
  let balance := fold_left (fun balance e =>
    if bool_decide (LedgerEntry.direction e = Direction.CREDIT)
    then nadd balance (LedgerEntry.amount e)
    else nsub balance (LedgerEntry.amount e)) entries (num_of_Z 0) in
  mret {| balance := balance; balance_currency := default "ALL" currency;
          entriesCount := length entries |}.

Record DriverEarnings := {
  totalEarned : num;
  totalPaidOut : num;
  totalRefunded : num;
  pendingBalance : num;
  earningEntriesCount : nat;
}.

Definition is_entry (ty : EntryType.t) (dir : option Direction.t) (e : LedgerEntry.t) : bool :=
  bool_decide (LedgerEntry.entryType e = ty) &&
  match dir with Some d => bool_decide (LedgerEntry.direction e = d) | None => true end.

Definition getDriverEarnings (driverId : string) : H DriverEarnings :=
  entries ← get (fun s => sort_by (fun e => - LedgerEntry.createdAt e)
    (List.filter (isDriverEntry driverId) (Db.ledgerEntry (St.db s))));
  let add (p : LedgerEntry.t -> bool) := fold_left (fun total e =>
    if p e then nadd total (LedgerEntry.amount e) else total) entries (num_of_Z 0) in
  let totalEarned := add (is_entry EntryType.DRIVER_EARNING_LIABILITY (Some Direction.CREDIT)) in
  let totalPaidOut := add (is_entry EntryType.DRIVER_TRANSFER_CREATED None) in
  let totalRefunded := add (is_entry EntryType.DRIVER_EARNING_LIABILITY (Some Direction.DEBIT)) in
  mret {| totalEarned := totalEarned; totalPaidOut := totalPaidOut; totalRefunded := totalRefunded;
          pendingBalance := nsub (nsub totalEarned totalPaidOut) totalRefunded;
          earningEntriesCount := length entries |}.

(** ** Outbox events *)

Definition writeOutboxEvent (eventType aggregateType aggregateId : string) (payload : OutboxPayload)
    : H PaymentEventOutbox.t :=
  id ← randomUUID;
  create prisma.paymentEventOutbox id
    (PaymentEventOutbox.defaults id now
      <| PaymentEventOutbox.eventType := eventType |>
      <| PaymentEventOutbox.aggregateType := aggregateType |>
      <| PaymentEventOutbox.aggregateId := aggregateId |>
      <| PaymentEventOutbox.payloadJson := payload |>).

(** ** Payment operations *)

(** [payment.bookingId] is unique: creating a second payment for a booking
    violates the constraint. *)
Definition createPayment (bookingId rideId riderId : string)
    (amountTotal fareAmount platformFeeAmount : num) (currency : string)
    (stripePaymentIntentId : option string) (status : option PaymentStatus.t) : H Payment.t :=
  existing ← findFirst prisma.payment (fun p => bool_decide (Payment.bookingId p = bookingId));
  throw_if (bool_decide (is_Some existing)) "P2002";;
  id ← randomUUID;
  create prisma.payment id
    (Payment.defaults id now
      <| Payment.bookingId := bookingId |>
      <| Payment.rideId := rideId |>
      <| Payment.riderId := riderId |>
      <| Payment.amountTotal := amountTotal |>
      <| Payment.fareAmount := fareAmount |>
      <| Payment.platformFeeAmount := platformFeeAmount |>
      <| Payment.currency := currency |>
      <| Payment.stripePaymentIntentId := stripePaymentIntentId |>
      <| Payment.status := default PaymentStatus.CREATED status |>).

Definition set_status (st : PaymentStatus.t) (p : Payment.t) : Payment.t := p <| Payment.status := st |>.

(** The handlers that only move a payment to [target], changing it by [f]. *)
Definition markStatus (target : PaymentStatus.t) (f : Payment.t -> Payment.t) (paymentId : string)
    : H Payment.t :=
  payment ← findUniqueOrThrow prisma.payment paymentId;
  assertTransition (Payment.status payment) target;;
  update prisma.payment paymentId (fun p => f (set_status target p)).

Definition markPaymentPending : string -> H Payment.t := markStatus PaymentStatus.PAYMENT_PENDING id.

Definition markPaymentPaid (paymentId driverId : string) : H Payment.t :=
  payment ← findUniqueOrThrow prisma.payment paymentId;
  assertTransition (Payment.status payment) PaymentStatus.PAID;;
  updated ← update prisma.payment paymentId (set_status PaymentStatus.PAID);
  recordPaymentReceived (Payment.id payment) (Payment.bookingId payment) (Payment.riderId payment)
    driverId (Payment.amountTotal payment) (Payment.fareAmount payment)
    (Payment.platformFeeAmount payment) (Payment.currency payment);;
  writeOutboxEvent "payment.paid" "PAYMENT" paymentId
    {| payload_paymentId := Some paymentId; payload_bookingId := Some (Payment.bookingId payment);
       payload_driverId := Some driverId |};;
  mret updated.

Definition findByBooking (bookingId : string) : H (option Payment.t) :=
  findFirst prisma.payment (fun p => bool_decide (Payment.bookingId p = bookingId)).

Definition markBookingPaymentPaid (bookingId driverId : string) : H (option Payment.t) :=
  payment ← findByBooking bookingId;
  match payment with
  | None => mret None
  | Some payment =>
      if decide (Payment.status payment = PaymentStatus.CREATED) then
        markPaymentPending (Payment.id payment);;
        updated ← markPaymentPaid (Payment.id payment) driverId; mret (Some updated)
      else if decide (Payment.status payment = PaymentStatus.PAYMENT_PENDING) then
        updated ← markPaymentPaid (Payment.id payment) driverId; mret (Some updated)
      else mret (Some payment)
  end.

Definition markHeldInEscrow : string -> H Payment.t := markStatus PaymentStatus.HELD_IN_ESCROW id.
Definition markPayoutEligible : string -> H Payment.t :=
  markStatus PaymentStatus.PAYOUT_ELIGIBLE (fun p => p <| Payment.payoutEligibleAt := Some now |>).
Definition markTransferCreated : string -> H Payment.t := markStatus PaymentStatus.TRANSFER_CREATED id.
Definition markPayoutCompleted : string -> H Payment.t := markStatus PaymentStatus.PAYOUT_COMPLETED id.
Definition markRefundPending : string -> H Payment.t := markStatus PaymentStatus.REFUND_PENDING id.
Definition markPaymentFailed (paymentId : string) (reason : option string) : H Payment.t :=
  markStatus PaymentStatus.PAYMENT_FAILED (fun p => p <| Payment.failureReason := reason |>) paymentId.

(** What a refund of [effectiveRefund] makes of a payment's status and of its
    accumulated refunds. *)
Definition applyRefund (payment : Payment.t) (split : RefundSplit.t) : PaymentStatus.t * num * num :=
  let refundedFareCents := to_cents (Payment.refundedFareAmount payment) + to_cents (RefundSplit.fareRefundAmount split) in
  let refundedFeeCents := to_cents (Payment.refundedFeeAmount payment) + to_cents (RefundSplit.feeRefundAmount split) in
  let residualFareCents := to_cents (Payment.fareAmount payment) - refundedFareCents in
  let totalRefundedCents := refundedFareCents + refundedFeeCents in
  let isPartialRefund := totalRefundedCents <? to_cents (Payment.amountTotal payment) in
  (if isPartialRefund && (0 <? residualFareCents) then PaymentStatus.PAYOUT_ELIGIBLE
   else PaymentStatus.REFUNDED,
   of_cents (Z.min (to_cents (Payment.fareAmount payment)) refundedFareCents),
   of_cents (Z.min (to_cents (Payment.platformFeeAmount payment)) refundedFeeCents)).

Definition markRefunded (paymentId driverId : string) (refundAmount : option num) : H Payment.t :=
  payment ← findUniqueOrThrow prisma.payment paymentId;
  if decide (Payment.status payment = PaymentStatus.REFUNDED) then mret payment
  else
    (if decide (Payment.status payment = PaymentStatus.REFUND_PENDING) then mret tt
     else
       assertTransition (Payment.status payment) PaymentStatus.REFUND_PENDING;;
       update prisma.payment paymentId (set_status PaymentStatus.REFUND_PENDING);; mret tt);;
    let effectiveRefund := default (Payment.amountTotal payment) refundAmount in
    let split := resolveRefundSplit (Payment.amountTotal payment) (Payment.fareAmount payment)
                   effectiveRefund in
    let '(nextStatus, refundedFare, refundedFee) := applyRefund payment split in
    assertTransition PaymentStatus.REFUND_PENDING nextStatus;;
    updated ← update prisma.payment paymentId (fun p =>
      let p := p <| Payment.status := nextStatus |>
                 <| Payment.refundedFareAmount := refundedFare |>
                 <| Payment.refundedFeeAmount := refundedFee |> in
      if decide (nextStatus = PaymentStatus.PAYOUT_ELIGIBLE)
      then p <| Payment.payoutEligibleAt := Some now |> else p);
    recordRefund (Payment.id payment) (Payment.bookingId payment) (Payment.riderId payment) driverId
      effectiveRefund (RefundSplit.fareRefundAmount split) (RefundSplit.feeRefundAmount split)
      (Payment.currency payment);;
    mret updated.

Definition markBookingPaymentRefunded (bookingId driverId : string) (refundAmount : option num)
    : H (option Payment.t) :=
  payment ← findByBooking bookingId;
  match payment with
  | None => mret None
  | Some payment =>
      updated ← markRefunded (Payment.id payment) driverId refundAmount; mret (Some updated)
  end.

(** ** The outbox worker *)

Definition MAX_RETRIES : Z := 5.
Definition RETRY_DELAY_MS : Z := 60000.

(** The table of handlers by event type. *)
Definition outboxHandler (eventType : string) : option (OutboxPayload -> H unit) :=
  if decide (eventType = "payment.paid"%string) then
    Some (fun payload =>
      match payload_paymentId payload with
      | Some paymentId => markHeldInEscrow paymentId;; mret tt
      | None => throw "PrismaClientValidationError"
      end)
  else if decide (eventType = "booking.completed"%string) then
    Some (fun payload =>
      match truthy (payload_paymentId payload) with
      | Some paymentId => markPayoutEligible paymentId;; mret tt
      | None => mret tt
      end)
  else None.

Definition isDue (e : PaymentEventOutbox.t) : bool :=
  bool_decide (PaymentEventOutbox.status e = OutboxStatus.PENDING) &&
  match PaymentEventOutbox.nextRetryAt e with None => true | Some t => t <=? now end.

Inductive Outcome := Processed | Failed | Retried.
#[global] Instance Outcome_eq_dec : EqDecision Outcome.
Proof. solve_decision. Defined.

(** The body of the loop over the events. *)
Definition processEvent (event : PaymentEventOutbox.t) : H Outcome :=
  let eventId := PaymentEventOutbox.id event in
  update prisma.paymentEventOutbox eventId (fun e =>
    e <| PaymentEventOutbox.status := OutboxStatus.PROCESSING |>);;
  match outboxHandler (PaymentEventOutbox.eventType event) with
  | None =>
      update prisma.paymentEventOutbox eventId (fun e =>
        e <| PaymentEventOutbox.status := OutboxStatus.FAILED |>
          <| PaymentEventOutbox.processedAt := Some now |>);;
      mret Failed
  | Some handler =>
      try_catch
        (handler (PaymentEventOutbox.payloadJson event);;
         update prisma.paymentEventOutbox eventId (fun e =>
           e <| PaymentEventOutbox.status := OutboxStatus.PROCESSED |>
             <| PaymentEventOutbox.processedAt := Some now |>);;
         mret Processed)
        (fun _ =>
         let newRetryCount := PaymentEventOutbox.retryCount event + 1 in
         if MAX_RETRIES <=? newRetryCount then
           update prisma.paymentEventOutbox eventId (fun e =>
             e <| PaymentEventOutbox.status := OutboxStatus.FAILED |>
               <| PaymentEventOutbox.retryCount := newRetryCount |>
               <| PaymentEventOutbox.processedAt := Some now |>);;
           mret Failed
         else
           let nextRetry := now + RETRY_DELAY_MS * 2 ^ newRetryCount in
           update prisma.paymentEventOutbox eventId (fun e =>
             e <| PaymentEventOutbox.status := OutboxStatus.PENDING |>
               <| PaymentEventOutbox.retryCount := newRetryCount |>
               <| PaymentEventOutbox.nextRetryAt := Some nextRetry |>);;
           mret Retried)
  end.

Record OutboxResult := { outbox_processed : nat; outbox_failed : nat; outbox_total : nat }.

Fixpoint processEvents (events : list PaymentEventOutbox.t) : H (nat * nat) :=
  match events with
  | [] => mret (0, 0)%nat
  | event :: rest =>
      o ← processEvent event;
      '(processed, failed) ← processEvents rest;
      mret (match o with
            | Processed => (S processed, failed)
            | Failed => (processed, S failed)
            | Retried => (processed, failed)
            end)
  end.

Definition processOutboxEvents (batchSize : nat) : H OutboxResult :=
  due ← findMany prisma.paymentEventOutbox isDue;
  let events := take batchSize (sort_by PaymentEventOutbox.createdAt due) in
  '(processed, failed) ← processEvents events;
  mret {| outbox_processed := processed; outbox_failed := failed; outbox_total := length events |}.
End handlers.

(** ** What the ledger operations append *)

Section ledger.
Context `{Env}.

Fixpoint stamp (n : nat) (es : list LedgerEntry.t) : list LedgerEntry.t :=
  match es with
  | [] => []
  | e :: es' => e <| LedgerEntry.id := uuid n |> :: stamp (S n) es'
  end.

Definition append_entries (es : list LedgerEntry.t) (d : Db.t) : Db.t :=
  d <| Db.ledgerEntry ::= fun l => l ++ es |>.

Lemma createLedgerEntries_run es s :
  createLedgerEntries es s
  = (s <| St.db ::= append_entries (stamp (St.seq s) es) |> <| St.seq ::= Nat.add (length es) |>, Ok tt).
Proof.
  unfold createLedgerEntries. revert s. induction es as [|e es IH]; intros [d fx n]; cbn.
  - unfold mret, M_ret, setf, append_entries, setf. cbn. rewrite app_nil_r. destruct d; reflexivity.
  - unfold mbind at 1, M_bind at 1. unfold mbind at 1, M_bind at 1. cbn.
    rewrite IH. cbn. unfold setf, append_entries, setf. cbn. rewrite <- app_assoc. cbn.
    do 2 f_equal. lia.
Qed.

(** The signed amount of an entry, in cents: credits count positively. *)
Definition signed_cents (e : LedgerEntry.t) : Z :=
  match LedgerEntry.direction e with
  | Direction.CREDIT => to_cents (LedgerEntry.amount e)
  | Direction.DEBIT => - to_cents (LedgerEntry.amount e)
  end.

Definition total_cents (p : LedgerEntry.t -> bool) (es : list LedgerEntry.t) : Z :=
  foldr (fun e acc => (if p e then signed_cents e else 0) + acc) 0 es.

Lemma total_cents_app p l1 l2 : total_cents p (l1 ++ l2) = total_cents p l1 + total_cents p l2.
Proof. unfold total_cents. induction l1 as [|e l1 IH]; cbn; [reflexivity|]. rewrite IH. lia. Qed.

Lemma total_cents_stamp p n es :
  (forall e i, p (e <| LedgerEntry.id := i |>) = p e) -> total_cents p (stamp n es) = total_cents p es.
Proof.
  intros Hp. unfold total_cents. revert n.
  induction es as [|e es IH]; intros n; cbn; [reflexivity|]. rewrite IH, Hp. reflexivity.
Qed.

Lemma sign_of_cents c : 0 <= c <= safe_cents -> nlt (num_of_Z 0) (of_cents c) = (0 <? c).
Proof.
  intros Hc. unfold nlt.
  destruct (Z.ltb_spec 0 c).
  - destruct (Qle_bool (of_cents c) (num_of_Z 0)) eqn:E; [|reflexivity]. exfalso.
    apply Qle_bool_iff in E.
    assert (L : (of_cents 1 <= of_cents c)%Q).
    { unfold of_cents, ndiv, num_of_Z. apply rnd_mono; [easy|].
      apply Qle_shift_div_l; [reflexivity|].
      assert (R : (inject_Z 1 / 100 * 100 == inject_Z 1)%Q) by reflexivity.
      rewrite R, <- Zle_Qle. lia. }
    assert (P : (0 < of_cents 1)%Q) by (vm_compute; reflexivity).
    apply (Qlt_irrefl 0). eapply Qlt_le_trans; [exact P|]. eapply Qle_trans; eassumption.
  - assert (c = 0) as -> by lia. vm_compute. reflexivity.
Qed.
End ledger.

(** ** The payment state machine *)

Section machine.
Context `{Env}.

Definition transition (a b : PaymentStatus.t) : Prop := allowed a b = true.

(** What never changes once a payment is written. *)
Definition same_charge (p q : Payment.t) : Prop :=
  Payment.id q = Payment.id p /\ Payment.bookingId q = Payment.bookingId p /\
  Payment.rideId q = Payment.rideId p /\ Payment.riderId q = Payment.riderId p /\
  Payment.amountTotal q = Payment.amountTotal p /\ Payment.fareAmount q = Payment.fareAmount p /\
  Payment.platformFeeAmount q = Payment.platformFeeAmount p /\ Payment.currency q = Payment.currency p.

(** Every payment of [d0] is still there in [d], with the same charge, and got
    to its status along transitions of the table. *)
Definition payments_keyed (d : Db.t) : Prop := forall k p, Db.payment d !! k = Some p -> Payment.id p = k.

Definition payments_advance (d0 d : Db.t) : Prop := payments_keyed d /\
  forall k p0, Db.payment d0 !! k = Some p0 ->
  exists p, Db.payment d !! k = Some p /\ same_charge p0 p /\
            rtc transition (Payment.status p0) (Payment.status p).

Lemma same_charge_refl p : same_charge p p.
Proof. repeat split. Qed.

Lemma same_charge_trans p q r : same_charge p q -> same_charge q r -> same_charge p r.
Proof. unfold same_charge. intuition congruence. Qed.

Lemma advance_refl d : payments_keyed d -> payments_advance d d.
Proof. intros W. split; [exact W|]. intros k p E. exists p. split; [assumption|]. split; [apply same_charge_refl | apply rtc_refl]. Qed.

(** Writing a payment keeps the relation if its status moves by the table. *)
Lemma advance_write d0 d k p q :
  payments_advance d0 d -> Db.payment d !! k = Some p -> same_charge p q ->
  rtc transition (Payment.status p) (Payment.status q) ->
  payments_advance d0 (d <| Db.payment ::= <[k := q]> |>).
Proof.
  intros [W A] E S T. split.
  { intros k' p'. cbn. rewrite lookup_insert_Some. intros [[-> ->]|[_ E']]; [|eauto].
    destruct S as [-> _]. eauto. }
  intros k' p0 E0. destruct (A k' p0 E0) as (p' & E' & S' & T'). cbn.
  destruct (decide (k' = k)) as [->|N].
  - exists q. rewrite lookup_insert_eq. rewrite E in E'. injection E' as <-.
    split; [reflexivity|]. split; [eapply same_charge_trans; eassumption | etrans; eassumption].
  - exists p'. rewrite lookup_insert_ne by congruence. auto.
Qed.

Lemma advance_create d0 d k q : payments_advance d0 d -> Db.payment d !! k = None -> Payment.id q = k ->
  payments_advance d0 (d <| Db.payment ::= <[k := q]> |>).
Proof.
  intros [W A] E Hq. split.
  { intros k' p'. cbn. rewrite lookup_insert_Some. intros [[-> ->]|[_ E']]; eauto. }
  intros k' p0 E0. destruct (A k' p0 E0) as (p' & E' & S').
  exists p'. cbn. rewrite lookup_insert_ne by congruence. auto.
Qed.

Notation advances := (fun d0 m => preserves (on_db (payments_advance d0)) m).

Lemma advances_createLedgerEntries d0 es : advances d0 (createLedgerEntries es).
Proof. intros s A. rewrite createLedgerEntries_run. exact A. Qed.
Local Hint Resolve advances_createLedgerEntries : preserve.

Lemma advances_recordPaymentReceived d0 a b c d e f g h : advances d0 (recordPaymentReceived a b c d e f g h).
Proof. unfold recordPaymentReceived. preserve. Qed.
Lemma advances_recordRefund d0 a b c d e f g h : advances d0 (recordRefund a b c d e f g h).
Proof. unfold recordRefund. preserve. Qed.
Lemma advances_recordTransfer d0 a b c d e : advances d0 (recordTransfer a b c d e).
Proof. unfold recordTransfer. preserve. Qed.
Lemma advances_recordPayoutFailureReversal d0 a b c d e f :
  advances d0 (recordPayoutFailureReversal a b c d e f).
Proof. unfold recordPayoutFailureReversal. preserve. Qed.
Lemma advances_recordProviderFeeExpense d0 a b c d : advances d0 (recordProviderFeeExpense a b c d).
Proof. unfold recordProviderFeeExpense. preserve. Qed.

Lemma advances_writeOutboxEvent d0 a b c e : advances d0 (writeOutboxEvent a b c e).
Proof.
  unfold writeOutboxEvent. preserve_step; [preserve|]. intros.
  apply preserves_create. intros d A _. exact A.
Qed.

Lemma advances_createPayment d0 a b c e f g h i j : advances d0 (createPayment a b c e f g h i j).
Proof.
  unfold createPayment. preserve_step; [preserve|]. preserve_step; [preserve|].
  preserve_step; [preserve|]. apply preserves_create. intros d A E. apply advance_create; [assumption | assumption | reflexivity].
Qed.

Lemma assertTransition_spec cur tgt (s : St.t) :
  assertTransition cur tgt s = (s, if allowed cur tgt then Ok tt else (assertTransition cur tgt s).2).
Proof. unfold assertTransition. destruct (allowed cur tgt); reflexivity. Qed.

Lemma advances_markStatus d0 target f paymentId :
  (forall p, same_charge p (f p) /\ Payment.status (f p) = Payment.status p) ->
  advances d0 (markStatus target f paymentId).
Proof.
  intros Hf. apply preserves_wp. intros s A. unfold markStatus, assertTransition.
  repeat wp_query; try exact A. simplify_eq.
  destruct (Hf (set_status target r)) as [S ST].
  apply (advance_write d0 _ paymentId r _ A E S). rewrite ST. apply rtc_once.
  match goal with X : negb _ = false |- _ => apply negb_false_iff in X; exact X end.
Qed.

Lemma same_charge_status st p : same_charge p (set_status st p).
Proof. repeat split. Qed.

Lemma advances_markPaymentPaid d0 a b : advances d0 (markPaymentPaid a b).
Proof.
  apply preserves_wp. intros s A. unfold markPaymentPaid, assertTransition.
  repeat wp_query; try exact A. simplify_eq.
  apply (wp_preserves (on_db (payments_advance d0))); [apply advances_recordPaymentReceived | |].
  { apply (advance_write d0 _ a r _ A E (same_charge_status _ _)). apply rtc_once.
    match goal with X : negb _ = false |- _ => apply negb_false_iff in X; exact X end. }
  intros s1 [x|e] A1; [|exact A1]. wp_step.
  apply (wp_preserves (on_db (payments_advance d0))); [apply advances_writeOutboxEvent | exact A1 |].
  intros s2 [y|e] A2; exact A2.
Qed.

Lemma advance_pending d0 d a r :
  payments_advance d0 d -> Db.payment d !! a = Some r ->
  negb (allowed (Payment.status r) PaymentStatus.REFUND_PENDING) = false ->
  payments_advance d0 (d <| Db.payment ::= <[a := set_status PaymentStatus.REFUND_PENDING r]> |>).
Proof.
  intros A E P. apply (advance_write d0 _ a r _ A E (same_charge_status _ _)). apply rtc_once.
  apply negb_false_iff in P. exact P.
Qed.

(** The write that books a refund. *)
Definition refunded (st : PaymentStatus.t) (fare fee : num) (p : Payment.t) : Payment.t :=
  let p := p <| Payment.status := st |>
             <| Payment.refundedFareAmount := fare |>
             <| Payment.refundedFeeAmount := fee |> in
  if decide (st = PaymentStatus.PAYOUT_ELIGIBLE)
  then p <| Payment.payoutEligibleAt := Some now |> else p.

Lemma refunded_charge st fare fee p :
  same_charge p (refunded st fare fee p) /\ Payment.status (refunded st fare fee p) = st.
Proof. unfold refunded. destruct (decide _); repeat split. Qed.

Lemma advance_refunded d0 d a r st fare fee :
  payments_advance d0 d -> Db.payment d !! a = Some r ->
  Payment.status r = PaymentStatus.REFUND_PENDING ->
  negb (allowed PaymentStatus.REFUND_PENDING st) = false ->
  payments_advance d0 (d <| Db.payment ::= <[a := refunded st fare fee r]> |>).
Proof.
  intros A E Es P. destruct (refunded_charge st fare fee r) as [S ST].
  apply (advance_write d0 _ a r _ A E S). rewrite ST, Es. apply rtc_once.
  apply negb_false_iff in P. exact P.
Qed.

Lemma advances_markRefunded d0 a b c : advances d0 (markRefunded a b c).
Proof.
  apply preserves_wp. intros s A. unfold markRefunded, assertTransition.
  repeat wp_query; try exact A. all: simplify_eq.
  all: try (eapply advance_pending; eassumption).
  all: apply (wp_preserves (on_db (payments_advance d0))); [apply advances_recordRefund | |
    intros s1 [x|e'] A1; exact A1].
  - eapply advance_refunded; eassumption.
  - match goal with X : rows _ (St.db (setf _ _ _)) !! _ = _ |- _ => rename X into E1 end.
    eapply (advance_refunded d0 _ a); [eapply advance_pending; eassumption | exact E1 | | assumption].
    cbn in E1. rewrite lookup_insert_eq in E1. injection E1 as <-. reflexivity.
Qed.

Lemma advances_findByBooking d0 a : advances d0 (findByBooking a).
Proof. unfold findByBooking. preserve. Qed.

Local Hint Resolve advances_recordPaymentReceived advances_recordRefund advances_recordTransfer
  advances_recordPayoutFailureReversal advances_recordProviderFeeExpense advances_writeOutboxEvent
  advances_createPayment advances_markPaymentPaid advances_markRefunded advances_findByBooking : preserve.

Lemma advances_mark d0 k :
  advances d0 (markPaymentPending k) /\ advances d0 (markHeldInEscrow k) /\
  advances d0 (markPayoutEligible k) /\ advances d0 (markTransferCreated k) /\
  advances d0 (markPayoutCompleted k) /\ advances d0 (markRefundPending k) /\
  forall r, advances d0 (markPaymentFailed k r).
Proof.
  unfold markPaymentPending, markHeldInEscrow, markPayoutEligible, markTransferCreated,
    markPayoutCompleted, markRefundPending, markPaymentFailed.
  repeat (split; [apply advances_markStatus; intros p; repeat split|]).
  intros r. apply advances_markStatus; intros p; repeat split.
Qed.

Lemma advances_markBookingPaymentPaid d0 a b : advances d0 (markBookingPaymentPaid a b).
Proof.
  pose proof (fun k => proj1 (advances_mark d0 k)).
  unfold markBookingPaymentPaid. preserve. 
Qed.

Lemma advances_markBookingPaymentRefunded d0 a b c : advances d0 (markBookingPaymentRefunded a b c).
Proof. unfold markBookingPaymentRefunded. preserve. Qed.

Lemma advances_outbox d0 id f : advances d0 (update prisma.paymentEventOutbox id f).
Proof. apply preserves_update. intros d r A _. exact A. Qed.
Local Hint Resolve advances_outbox : preserve.

Lemma advances_outboxHandler d0 ty h payload : outboxHandler ty = Some h -> advances d0 (h payload).
Proof.
  pose proof (fun k => proj1 (proj2 (advances_mark d0 k))).
  pose proof (fun k => proj1 (proj2 (proj2 (advances_mark d0 k)))).
  unfold outboxHandler. repeat case_decide; intros [= <-]; preserve.
Qed.

Lemma advances_processEvent d0 e : advances d0 (processEvent e).
Proof.
  unfold processEvent. destruct (outboxHandler (PaymentEventOutbox.eventType e)) as [h|] eqn:Eh.
  - pose proof (fun p => advances_outboxHandler d0 _ _ p Eh). preserve.
  - preserve.
Qed.

Lemma advances_processEvents d0 es : advances d0 (processEvents es).
Proof.
  pose proof (advances_processEvent d0). induction es as [|e es IH]; cbn [processEvents]; preserve.
Qed.

Lemma advances_processOutboxEvents d0 n : advances d0 (processOutboxEvents n).
Proof. pose proof (advances_processEvents d0). unfold processOutboxEvents. preserve. Qed.
End machine.

#[export] Hint Resolve advances_createLedgerEntries advances_recordPaymentReceived
  advances_recordRefund advances_recordTransfer
  advances_recordPayoutFailureReversal advances_recordProviderFeeExpense advances_writeOutboxEvent
  advances_createPayment advances_markPaymentPaid advances_markRefunded advances_findByBooking
  advances_markBookingPaymentPaid advances_markBookingPaymentRefunded advances_processOutboxEvents
  : preserve.

(** ** Amounts in cents *)

(** The payment's amounts are whole cents: [t] charged, [f] of it the platform's
    fee, [x] and [y] refunded so far of the fare and of the fee. *)
Record PaymentCents (p : Payment.t) (t f x y : Z) : Prop := {
  pc_total : Payment.amountTotal p = of_cents t;
  pc_fare : Payment.fareAmount p = of_cents (t - f);
  pc_fee : Payment.platformFeeAmount p = of_cents f;
  pc_refunded_fare : Payment.refundedFareAmount p = of_cents x;
  pc_refunded_fee : Payment.refundedFeeAmount p = of_cents y;
  pc_fee_bounds : 0 <= f <= t;
  pc_total_bound : t <= max_split_cents;
  pc_x_bounds : 0 <= x <= t - f;
  pc_y_bounds : 0 <= y <= f;
}.

(** What an entry says, its ids and dates aside. *)
Definition posting (e : LedgerEntry.t)
    : AccountType.t * option string * EntryType.t * Direction.t * Z :=
  (LedgerEntry.accountType e, LedgerEntry.userId e, LedgerEntry.entryType e,
   LedgerEntry.direction e, to_cents (LedgerEntry.amount e)).

(** The entries belong to one group of the payment. *)
Definition group_of (pid gid : string) (es : list LedgerEntry.t) : Prop :=
  Forall (fun e => LedgerEntry.entryGroupId e = gid /\ LedgerEntry.paymentId e = Some pid) es.

Definition balanced (es : list LedgerEntry.t) : Prop := total_cents (fun _ => true) es = 0.

Section cents.
Context `{Env}.

Definition zero_or_post (c : Z) (post : AccountType.t * option string * EntryType.t * Direction.t * Z) :=
  if 0 <? c then [post] else [].

Lemma group_run (F : string -> list LedgerEntry.t) s :
  (groupId ← randomUUID; createLedgerEntries (F groupId);; mret groupId) s
  = (s <| St.db ::= append_entries (stamp (S (St.seq s)) (F (uuid (St.seq s)))) |>
       <| St.seq ::= Nat.add (S (length (F (uuid (St.seq s))))) |>, Ok (uuid (St.seq s))).
Proof.
  etrans; [apply bind_Ok; reflexivity|]. cbv beta. run_with createLedgerEntries_run.
  destruct s as [d fx n]. unfold setf, mret, M_ret; cbn. do 2 f_equal. lia.
Qed.

Lemma stamp_posting n es : map posting (stamp n es) = map posting es.
Proof. revert n. induction es as [|e es IH]; intros n; cbn; [|rewrite IH]; reflexivity. Qed.

Lemma stamp_group pid gid n es : group_of pid gid es -> group_of pid gid (stamp n es).
Proof.
  revert n. induction es as [|e es IH]; intros n; [intros; constructor|].
  intros Hg. inversion Hg; subst. constructor; [assumption | apply IH; assumption].
Qed.

Lemma stamp_balanced n es : balanced es -> balanced (stamp n es).
Proof. unfold balanced. rewrite total_cents_stamp by reflexivity. auto. Qed.

(** A group of entries and what it says. *)
Lemma group_spec (pid : string) (F : string -> list LedgerEntry.t) posts s :
  (forall g, map posting (F g) = posts) -> (forall g, group_of pid g (F g)) -> (forall g, balanced (F g)) ->
  exists es,
    (groupId ← randomUUID; createLedgerEntries (F groupId);; mret groupId) s
    = (s <| St.db ::= append_entries es |> <| St.seq ::= Nat.add (S (length es)) |>, Ok (uuid (St.seq s))) /\
    map posting es = posts /\ group_of pid (uuid (St.seq s)) es /\ balanced es.
Proof.
  intros Hp Hg Hb. exists (stamp (S (St.seq s)) (F (uuid (St.seq s)))).
  split; [|split; [|split]].
  - rewrite group_run. do 3 f_equal. f_equal.
    generalize (S (St.seq s)). induction (F (uuid (St.seq s))) as [|e es IH]; intros n; cbn; auto.
  - rewrite stamp_posting. apply Hp.
  - apply stamp_group, Hg.
  - apply stamp_balanced, Hb.
Qed.

Lemma recordPaymentReceived_run pid bid rid did t f cur s :
  0 <= f <= t -> t <= max_split_cents ->
  exists es,
    recordPaymentReceived pid bid rid did (of_cents t) (of_cents (t - f)) (of_cents f) cur s
      = (s <| St.db ::= append_entries es |> <| St.seq ::= Nat.add (S (length es)) |>,
         Ok (uuid (St.seq s))) /\
    map posting es =
      [(AccountType.RIDER, Some rid, EntryType.RIDER_PAYMENT_RECEIVED, Direction.DEBIT, t);
       (AccountType.DRIVER, Some did, EntryType.DRIVER_EARNING_LIABILITY, Direction.CREDIT, t - f)]
      ++ zero_or_post f (AccountType.PLATFORM, None, EntryType.PLATFORM_FEE_REVENUE, Direction.CREDIT, f) /\
    group_of pid (uuid (St.seq s)) es /\ balanced es.
Proof.
  unfold max_split_cents, zero_or_post. intros Hf Ht. unfold recordPaymentReceived.
  apply (group_spec pid (fun groupId => _)).
  all: intros g; rewrite sign_of_cents by (unfold safe_cents; lia).
  all: destruct (Z.ltb_spec 0 f); unfold group_of, balanced, total_cents, posting, signed_cents; cbn.
  all: rewrite ?to_cents_of_cents by (unfold safe_cents; lia).
  all: try reflexivity; try lia.
  all: repeat constructor.
Qed.

Lemma recordRefund_run pid bid rid did r a b cur s :
  a + b = r -> 0 <= a -> 0 <= b -> r <= max_split_cents ->
  exists es,
    recordRefund pid bid rid did (of_cents r) (of_cents a) (of_cents b) cur s
      = (s <| St.db ::= append_entries es |> <| St.seq ::= Nat.add (S (length es)) |>,
         Ok (uuid (St.seq s))) /\
    map posting es =
      [(AccountType.RIDER, Some rid, EntryType.REFUND_TO_RIDER, Direction.CREDIT, r);
       (AccountType.DRIVER, Some did, EntryType.DRIVER_EARNING_LIABILITY, Direction.DEBIT, a)]
      ++ zero_or_post b (AccountType.PLATFORM, None, EntryType.PLATFORM_FEE_REVERSAL, Direction.DEBIT, b) /\
    group_of pid (uuid (St.seq s)) es /\ balanced es.
Proof.
  unfold max_split_cents, zero_or_post. intros E Ha Hb Hr. unfold recordRefund. cbv zeta.
  apply (group_spec pid (fun groupId => _)).
  all: intros g; rewrite sign_of_cents by (unfold safe_cents; lia).
  all: destruct (Z.ltb_spec 0 b); unfold group_of, balanced, total_cents, posting, signed_cents; cbn.
  all: rewrite ?to_cents_of_cents by (unfold safe_cents; lia).
  all: try reflexivity; try lia.
  all: repeat constructor.
Qed.
End cents.

Section specs.
Context `{Env}.

(** No id still to be generated is in use in the table. *)
Definition unused_ids {R} (t : Table R) (s : St.t) : Prop :=
  forall n, (St.seq s <= n)%nat -> rows t (St.db s) !! uuid n = None.

Lemma writeOutboxEvent_run ty agg aid payload s :
  Db.paymentEventOutbox (St.db s) !! uuid (St.seq s) = None ->
  exists ev, writeOutboxEvent ty agg aid payload s
    = (s <| St.db ::= fun d => d <| Db.paymentEventOutbox ::= <[uuid (St.seq s) := ev]> |> |>
         <| St.seq ::= S |>, Ok ev) /\
    PaymentEventOutbox.id ev = uuid (St.seq s) /\ PaymentEventOutbox.eventType ev = ty /\
    PaymentEventOutbox.payloadJson ev = payload /\
    PaymentEventOutbox.status ev = OutboxStatus.PENDING /\ PaymentEventOutbox.retryCount ev = 0 /\
    PaymentEventOutbox.nextRetryAt ev = None.
Proof.
  intros E. eexists. split.
  - unfold writeOutboxEvent. etrans; [apply bind_Ok; reflexivity|]. cbv beta.
    rewrite create_run by exact E. reflexivity.
  - repeat split; reflexivity.
Qed.

(** A payment becomes PAID once.  Marking a pending payment as paid sets
    only its status, appends one balanced group of ledger entries (the rider's
    charge against the driver's fare and the platform's fee, no zero entry) and
    queues one pending [payment.paid] event for it; from every other status the
    call throws and changes nothing. *)
Theorem markPaymentPaid_correct (s : St.t) (pid did : string) (p : Payment.t) (t f x y : Z) :
  Db.payment (St.db s) !! pid = Some p -> Payment.id p = pid -> PaymentCents p t f x y ->
  unused_ids prisma.paymentEventOutbox s ->
  (Payment.status p <> PaymentStatus.PAYMENT_PENDING ->
     (markPaymentPaid pid did s).1 = s /\ exists e, (markPaymentPaid pid did s).2 = Err e) /\
  (Payment.status p = PaymentStatus.PAYMENT_PENDING -> exists es ev n,
     markPaymentPaid pid did s =
       (s <| St.db ::= fun d => d <| Db.payment ::= <[pid := set_status PaymentStatus.PAID p]> |>
                                  <| Db.ledgerEntry ::= fun l => l ++ es |>
                                  <| Db.paymentEventOutbox ::= <[PaymentEventOutbox.id ev := ev]> |> |>
          <| St.seq ::= Nat.add n |>, Ok (set_status PaymentStatus.PAID p)) /\
     map posting es =
       [(AccountType.RIDER, Some (Payment.riderId p), EntryType.RIDER_PAYMENT_RECEIVED, Direction.DEBIT, t);
        (AccountType.DRIVER, Some did, EntryType.DRIVER_EARNING_LIABILITY, Direction.CREDIT, t - f)]
       ++ zero_or_post f (AccountType.PLATFORM, None, EntryType.PLATFORM_FEE_REVENUE, Direction.CREDIT, f) /\
     balanced es /\ group_of pid (uuid (St.seq s)) es /\
     PaymentEventOutbox.eventType ev = "payment.paid"%string /\
     PaymentEventOutbox.status ev = OutboxStatus.PENDING /\
     payload_paymentId (PaymentEventOutbox.payloadJson ev) = Some pid /\
     Db.paymentEventOutbox (St.db s) !! PaymentEventOutbox.id ev = None).
Proof.
  intros E Hid C U. split; intros Hst.
  - unfold markPaymentPaid, assertTransition.
    rewrite (bind_Ok _ _ s s p (findUniqueOrThrow_run prisma.payment pid s p E)).
    assert (A : allowed (Payment.status p) PaymentStatus.PAID = false).
    { destruct (Payment.status p); try reflexivity. contradiction. }
    rewrite A. unfold throw_if, negb.
    split; [reflexivity | eexists; reflexivity].
  - set (s1 := s <| St.db ::= with_rows prisma.payment <[pid := set_status PaymentStatus.PAID p]> |>).
    destruct (recordPaymentReceived_run pid (Payment.bookingId p) (Payment.riderId p) did t f
      (Payment.currency p) s1 (pc_fee_bounds _ _ _ _ _ C) (pc_total_bound _ _ _ _ _ C))
      as (es & R & P & G & B).
    set (s2 := s1 <| St.db ::= append_entries es |> <| St.seq ::= Nat.add (S (length es)) |>) in *.
    destruct (writeOutboxEvent_run "payment.paid" "PAYMENT" pid
      {| payload_paymentId := Some pid; payload_bookingId := Some (Payment.bookingId p);
         payload_driverId := Some did |} s2) as (ev & W & Wi & Wt & Wp & Ws & _).
    { apply (U (St.seq s2)). cbn. lia. }
    exists es, ev, (S (S (length es))). repeat split; try assumption.
    + unfold markPaymentPaid. run_with (findUniqueOrThrow_run prisma.payment).
      rewrite Hst. etrans; [apply bind_Ok; reflexivity|]. cbv beta.
      run_with (update_run prisma.payment).
      rewrite Hid, (pc_total _ _ _ _ _ C), (pc_fare _ _ _ _ _ C), (pc_fee _ _ _ _ _ C).
      etrans; [apply bind_Ok; exact R|]. cbv beta.
      etrans; [apply bind_Ok; exact W|]. cbv beta.
      unfold mret, M_ret. f_equal. unfold s2, s1, append_entries. rewrite Wi.
      destruct s as [[] fx n]. reflexivity.
    + rewrite Wp. reflexivity.
    + rewrite Wi. apply (U (St.seq s2)). cbn. lia.
Qed.

(** The row after a refund of [a] cents of the fare and [b] of the fee on top of
    [x] and [y]. *)
Definition after_refund (p : Payment.t) (t f x y a b : Z) : Payment.t :=
  refunded
    (if (x + a + (y + b) <? t) && (x + a <? t - f) then PaymentStatus.PAYOUT_ELIGIBLE
     else PaymentStatus.REFUNDED)
    (of_cents (Z.min (t - f) (x + a))) (of_cents (Z.min f (y + b))) p.

Definition refundable (st : PaymentStatus.t) : bool :=
  bool_decide (st = PaymentStatus.REFUND_PENDING) || allowed st PaymentStatus.REFUND_PENDING.

Lemma applyRefund_cents (p : Payment.t) (t f x y a b : Z) :
  PaymentCents p t f x y -> 0 <= a <= t -> 0 <= b <= t ->
  applyRefund p {| RefundSplit.fareRefundAmount := of_cents a; RefundSplit.feeRefundAmount := of_cents b |}
  = (if (x + a + (y + b) <? t) && (x + a <? t - f) then PaymentStatus.PAYOUT_ELIGIBLE
     else PaymentStatus.REFUNDED,
     of_cents (Z.min (t - f) (x + a)), of_cents (Z.min f (y + b))).
Proof.
  intros [Et Ef Ee Ex Ey Hf Ht Hx Hy] Ha Hb. unfold max_split_cents in Ht. unfold applyRefund.
  cbn [RefundSplit.fareRefundAmount RefundSplit.feeRefundAmount].
  rewrite Et, Ef, Ee, Ex, Ey, !to_cents_of_cents by (unfold safe_cents; lia).
  assert (L : (0 <? t - f - (x + a)) = (x + a <? t - f)).
  { destruct (Z.ltb_spec 0 (t - f - (x + a))), (Z.ltb_spec (x + a) (t - f)); lia. }
  rewrite L. reflexivity.
Qed.

Lemma markRefunded_run (s : St.t) (pid did : string) (p : Payment.t) (t f x y r : Z) :
  Db.payment (St.db s) !! pid = Some p -> Payment.id p = pid -> PaymentCents p t f x y ->
  0 <= r <= t -> refundable (Payment.status p) = true ->
  exists a b es,
    a + b = r /\ 0 <= a <= t - f /\ 0 <= b <= f /\
    markRefunded pid did (Some (of_cents r)) s =
      (s <| St.db ::= fun d => d <| Db.payment ::= <[pid := after_refund p t f x y a b]> |>
                                 <| Db.ledgerEntry ::= fun l => l ++ es |> |>
         <| St.seq ::= Nat.add (S (length es)) |>, Ok (after_refund p t f x y a b)) /\
    map posting es =
      [(AccountType.RIDER, Some (Payment.riderId p), EntryType.REFUND_TO_RIDER, Direction.CREDIT, r);
       (AccountType.DRIVER, Some did, EntryType.DRIVER_EARNING_LIABILITY, Direction.DEBIT, a)]
      ++ zero_or_post b (AccountType.PLATFORM, None, EntryType.PLATFORM_FEE_REVERSAL, Direction.DEBIT, b) /\
    balanced es /\ group_of pid (uuid (St.seq s)) es.
Proof.
  intros E Hid C Hr Hst. pose proof C as [Et Ef Ee Ex Ey Hf Ht Hx Hy].
  destruct (resolveRefundSplit_amounts t (t - f) r Hr ltac:(lia) Ht) as (a & b & Es & Hab & Ha & Hb).
  (* the state in which the refund is booked *)
  set (q := set_status PaymentStatus.REFUND_PENDING p).
  set (s1 := if decide (Payment.status p = PaymentStatus.REFUND_PENDING) then s
             else s <| St.db ::= with_rows prisma.payment <[pid := q]> |>).
  set (q1 := if decide (Payment.status p = PaymentStatus.REFUND_PENDING) then p else q).
  assert (E1 : Db.payment (St.db s1) !! pid = Some q1).
  { unfold s1, q1. destruct (decide _); [exact E | apply lookup_insert_eq]. }
  assert (Eq : refunded (if (x + a + (y + b) <? t) && (x + a <? t - f) then PaymentStatus.PAYOUT_ELIGIBLE
     else PaymentStatus.REFUNDED) (of_cents (Z.min (t - f) (x + a))) (of_cents (Z.min f (y + b))) q1
     = after_refund p t f x y a b).
  { unfold q1, q. destruct (decide _); reflexivity. }
  set (s2 := s1 <| St.db ::= with_rows prisma.payment <[pid := after_refund p t f x y a b]> |>).
  destruct (recordRefund_run pid (Payment.bookingId p) (Payment.riderId p) did r a b
    (Payment.currency p) s2 Hab ltac:(lia) ltac:(lia) ltac:(lia)) as (es & R & P & G & B).
  exists a, b, es. repeat split; try lia; try assumption.
  2: { replace (uuid (St.seq s)) with (uuid (St.seq s2)); [assumption|].
       unfold s2, s1. destruct (decide _); reflexivity. }
  unfold markRefunded. run_with (findUniqueOrThrow_run prisma.payment).
  destruct (decide (Payment.status p = PaymentStatus.REFUNDED)) as [X|_].
  { rewrite X in Hst. discriminate. }
  transitivity ((recordRefund pid (Payment.bookingId p) (Payment.riderId p) did (of_cents r)
    (of_cents a) (of_cents b) (Payment.currency p);; mret (after_refund p t f x y a b)) s2).
  2: { etrans; [apply bind_Ok; exact R|]. cbv beta. unfold mret, M_ret. f_equal.
       unfold s2, s1. destruct (decide _); destruct s as [[] fx sq]; unfold append_entries; repeat (unfold setf; cbn);
         rewrite ?insert_insert_eq; reflexivity. }
  etrans.
  { apply bind_Ok with (s' := s1) (a := tt). unfold s1.
    destruct (decide (Payment.status p = PaymentStatus.REFUND_PENDING)) as [X|X]; [reflexivity|].
    unfold refundable in Hst. rewrite bool_decide_eq_false_2 in Hst by assumption. cbn in Hst.
    unfold assertTransition. rewrite Hst. etrans; [apply bind_Ok; reflexivity|]. cbv beta.
    run_with (update_run prisma.payment). reflexivity. }
  cbv beta zeta. change (default (Payment.amountTotal p) (Some (of_cents r))) with (of_cents r).
  rewrite Et, Ef, Es, (applyRefund_cents p t f x y a b C) by lia.
  unfold assertTransition.
  assert (A : allowed PaymentStatus.REFUND_PENDING
    (if (x + a + (y + b) <? t) && (x + a <? t - f) then PaymentStatus.PAYOUT_ELIGIBLE
     else PaymentStatus.REFUNDED) = true) by (destruct (_ && _); reflexivity).
  rewrite A. etrans; [apply bind_Ok; reflexivity|]. cbv beta.
  etrans; [apply bind_Ok; apply (update_run prisma.payment _ _ _ q1 E1)|]. cbv beta.
  cbn [RefundSplit.fareRefundAmount RefundSplit.feeRefundAmount].
  rewrite Hid. unfold s2. rewrite <- Eq. reflexivity.
Qed.

Lemma netFareAmount_cents (p : Payment.t) (t f x y : Z) : PaymentCents p t f x y ->
  netFareAmount p = of_cents (t - f - x).
Proof.
  intros [_ Ef _ Ex _ Hf Ht Hx _]. unfold max_split_cents in Ht. unfold netFareAmount.
  rewrite Ef, Ex, to_cents_sub by (unfold wide_cents; lia). f_equal. lia.
Qed.

Lemma after_refund_cents (p : Payment.t) (t f x y a b : Z) : PaymentCents p t f x y ->
  0 <= a -> 0 <= b ->
  PaymentCents (after_refund p t f x y a b) t f (Z.min (t - f) (x + a)) (Z.min f (y + b)).
Proof.
  intros [Et Ef Ee Ex Ey Hf Ht Hx Hy] Ha Hb. unfold after_refund, refunded.
  destruct (decide _); split; cbn; first [assumption | reflexivity | lia].
Qed.

Lemma after_refund_status (p : Payment.t) (t f x y a b : Z) :
  Payment.status (after_refund p t f x y a b) =
    if (x + a + (y + b) <? t) && (x + a <? t - f) then PaymentStatus.PAYOUT_ELIGIBLE
    else PaymentStatus.REFUNDED.
Proof. apply refunded_charge. Qed.

(** Booking a refund.  A refund of [r] cents of a paid, escrowed, eligible
    or pending-refund payment is split into [a] cents of the fare and [b] of the
    fee, neither more than that party received; the payment accumulates both,
    keeps what it charged, becomes REFUNDED when nothing is left of the payment
    or of the fare and PAYOUT_ELIGIBLE otherwise, still owes the driver exactly
    the fare minus what was refunded of it, and the ledger gains one balanced
    group: the rider is credited what the driver and the platform are debited.
    A REFUNDED payment is returned as it is, and from every other status the
    call throws and changes nothing. *)
Theorem markRefunded_correct (s : St.t) (pid did : string) (p : Payment.t) (t f x y r : Z) :
  Db.payment (St.db s) !! pid = Some p -> Payment.id p = pid -> PaymentCents p t f x y -> 0 <= r <= t ->
  (Payment.status p = PaymentStatus.REFUNDED ->
     markRefunded pid did (Some (of_cents r)) s = (s, Ok p)) /\
  (Payment.status p <> PaymentStatus.REFUNDED -> refundable (Payment.status p) = false ->
     (markRefunded pid did (Some (of_cents r)) s).1 = s /\
     exists e, (markRefunded pid did (Some (of_cents r)) s).2 = Err e) /\
  (refundable (Payment.status p) = true -> exists a b es p' s',
     markRefunded pid did (Some (of_cents r)) s = (s', Ok p') /\
     Db.payment (St.db s') = <[pid := p']> (Db.payment (St.db s)) /\
     Db.ledgerEntry (St.db s') = Db.ledgerEntry (St.db s) ++ es /\
     a + b = r /\ 0 <= a <= t - f /\ 0 <= b <= f /\
     same_charge p p' /\ PaymentCents p' t f (Z.min (t - f) (x + a)) (Z.min f (y + b)) /\
     netFareAmount p' = of_cents (Z.max 0 (t - f - (x + a))) /\
     Payment.status p' = (if (x + a + (y + b) <? t) && (x + a <? t - f)
                          then PaymentStatus.PAYOUT_ELIGIBLE else PaymentStatus.REFUNDED) /\
     map posting es =
       [(AccountType.RIDER, Some (Payment.riderId p), EntryType.REFUND_TO_RIDER, Direction.CREDIT, r);
        (AccountType.DRIVER, Some did, EntryType.DRIVER_EARNING_LIABILITY, Direction.DEBIT, a)]
       ++ zero_or_post b (AccountType.PLATFORM, None, EntryType.PLATFORM_FEE_REVERSAL, Direction.DEBIT, b) /\
     balanced es /\ group_of pid (uuid (St.seq s)) es).
Proof.
  intros E Hid C Hr. split; [|split]; intros Hst.
  - unfold markRefunded. run_with (findUniqueOrThrow_run prisma.payment).
    rewrite decide_True by assumption. reflexivity.
  - intros Hn. unfold markRefunded.
    rewrite (bind_Ok _ _ s s p (findUniqueOrThrow_run prisma.payment pid s p E)).
    rewrite decide_False by assumption. unfold refundable in Hn. apply orb_false_iff in Hn as [H1 H2].
    rewrite decide_False by (apply bool_decide_eq_false in H1; exact H1).
    unfold assertTransition. rewrite H2. split; [reflexivity | eexists; reflexivity].
  - destruct (markRefunded_run s pid did p t f x y r E Hid C Hr Hst)
      as (a & b & es & Hab & Ha & Hb & R & P & B & G).
    pose proof (after_refund_cents p t f x y a b C (proj1 Ha) (proj1 Hb)) as C'.
    eexists a, b, es, _, _. split; [exact R|].
    split; [reflexivity|]. split; [reflexivity|]. split; [exact Hab|]. split; [exact Ha|].
    split; [exact Hb|]. split; [apply refunded_charge|]. split; [exact C'|].
    split; [rewrite (netFareAmount_cents _ _ _ _ _ C'); f_equal; lia|].
    split; [apply after_refund_status|]. auto.
Qed.
End specs.

(** ** The outbox worker *)

Section outbox.
Context `{Env}.

Lemma outboxHandler_keeps ty h payload s : outboxHandler ty = Some h ->
  Db.paymentEventOutbox (St.db (h payload s).1) = Db.paymentEventOutbox (St.db s).
Proof.
  assert (M : forall tgt f pid, preserves
    (on_db (fun d => Db.paymentEventOutbox d = Db.paymentEventOutbox (St.db s))) (markStatus tgt f pid)).
  { intros. unfold markStatus, assertTransition. preserve_step; [preserve|].
    preserve_step; [preserve|]. apply preserves_update. intros d r A _. exact A. }
  assert (P : outboxHandler ty = Some h -> preserves
    (on_db (fun d => Db.paymentEventOutbox d = Db.paymentEventOutbox (St.db s))) (h payload)).
  { unfold outboxHandler, markHeldInEscrow, markPayoutEligible.
    repeat case_decide; intros [= <-]; preserve; apply M. }
  intros E. exact (P E s eq_refl).
Qed.

(** The row [event] once [processEvent] is done with it. *)
Definition settled (event : PaymentEventOutbox.t) (o : Outcome) (row : PaymentEventOutbox.t) : Prop :=
  match o with
  | Processed => PaymentEventOutbox.status row = OutboxStatus.PROCESSED
  | Failed => PaymentEventOutbox.status row = OutboxStatus.FAILED
  | Retried =>
      PaymentEventOutbox.status row = OutboxStatus.PENDING /\
      PaymentEventOutbox.retryCount row = PaymentEventOutbox.retryCount event + 1 /\
      PaymentEventOutbox.retryCount row < MAX_RETRIES /\
      PaymentEventOutbox.nextRetryAt row
        = Some (now + RETRY_DELAY_MS * 2 ^ PaymentEventOutbox.retryCount row)
  end.

Notation outbox s := (Db.paymentEventOutbox (St.db s)).

(** The last write to the event decides its row. *)
Lemma outbox_write id f (o : Outcome) s row Q : outbox s !! id = Some row ->
  Q (s <| St.db ::= with_rows prisma.paymentEventOutbox <[id := f row]> |>) (Ok o) ->
  wp (update prisma.paymentEventOutbox id f;; mret o) Q s.
Proof.
  intros E HQ. apply wp_bind, wp_update; [cbn; congruence|]. intros r Er. apply wp_ret.
  cbn in Er. rewrite E in Er. injection Er as <-. exact HQ.
Qed.

Lemma processEvent_wp event s :
  outbox s !! PaymentEventOutbox.id event = Some event ->
  wp (processEvent event) (fun s' r => exists o row, r = Ok o /\
        outbox s' !! PaymentEventOutbox.id event = Some row /\
        PaymentEventOutbox.id row = PaymentEventOutbox.id event /\ settled event o row) s.
Proof.
  intros E. unfold processEvent. set (id := PaymentEventOutbox.id event) in *.
  apply wp_bind, wp_update; [cbn; congruence|]. intros r Er. cbn in Er. rewrite E in Er. injection Er as <-.
  set (s1 := s <| St.db ::= _ |>).
  set (row1 := event <| PaymentEventOutbox.status := OutboxStatus.PROCESSING |>).
  assert (E1 : outbox s1 !! id = Some row1) by apply lookup_insert_eq.
  assert (Done : forall (o : Outcome) f s2, outbox s2 = outbox s1 ->
    PaymentEventOutbox.id (f row1) = id -> settled event o (f row1) ->
    wp (update prisma.paymentEventOutbox id f;; mret o) (fun s' r => exists o row, r = Ok o /\
        outbox s' !! id = Some row /\ PaymentEventOutbox.id row = id /\ settled event o row) s2).
  { intros o f s2 E2 Hid Hs. apply (outbox_write id f o s2 row1); [congruence|].
    exists o, (f row1). split; [reflexivity|]. split; [apply lookup_insert_eq | auto]. }
  destruct (outboxHandler (PaymentEventOutbox.eventType event)) as [h|] eqn:Eh.
  2: { apply Done; reflexivity. }
  apply wp_try_catch, wp_bind, wp_run. intros s2 r2 R2.
  pose proof (outboxHandler_keeps _ h (PaymentEventOutbox.payloadJson event) s1 Eh) as K.
  rewrite R2 in K. cbn [fst] in K. destruct r2 as [u|e].
  - eapply wp_mono; [apply (Done Processed); [exact K | reflexivity..]|].
    cbv beta. intros s' r' (o & row & -> & X). exists o, row. auto.
  - destruct (Z.leb_spec MAX_RETRIES (PaymentEventOutbox.retryCount event + 1)).
    + apply Done; [exact K | reflexivity..].
    + apply Done; [exact K | reflexivity | repeat split; assumption].
Qed.

(** An attempt at the event [id] that will be repeated. *)
Definition retried (id : string) (s s' : St.t) : Prop := exists event,
  outbox s !! id = Some event /\ PaymentEventOutbox.id event = id /\ processEvent event s = (s', Ok Retried).

(** C38. The outbox always settles an event.  Processing an event never throws:
    its row ends PROCESSED, FAILED, or PENDING with one more retry counted and the
    next attempt due after [60 s * 2^retries]; and starting from [r] retries, at
    most [4 - r] attempts in a row can end in another retry, so an event is
    attempted at most [MAX_RETRIES] times. *)
Theorem outbox_settles :
  (forall event s, outbox s !! PaymentEventOutbox.id event = Some event ->
     exists s' o row, processEvent event s = (s', Ok o) /\
       outbox s' !! PaymentEventOutbox.id event = Some row /\ settled event o row) /\
  (forall n id s s' event, nsteps (retried id) n s s' -> outbox s !! id = Some event ->
     0 <= PaymentEventOutbox.retryCount event < MAX_RETRIES ->
     PaymentEventOutbox.retryCount event + Z.of_nat n < MAX_RETRIES).
Proof.
  split.
  - intros event s E. pose proof (processEvent_wp event s E) as (o & row & R & E' & _ & S).
    exists (processEvent event s).1, o, row. rewrite <- R. split; [apply surjective_pairing | auto].
  - intros n id s s' event Hn. revert event.
    induction Hn as [s|n s s1 s' (ev & E & Hid & R) Hn IH]; intros event Ee Hr; [lia|].
    rewrite E in Ee. injection Ee as ->. rewrite <- Hid in E.
    pose proof (processEvent_wp event s E) as W. unfold wp in W. rewrite R in W. cbn [fst snd] in W.
    destruct W as (o & row & [= <-] & E' & _ & (_ & Hc & Hlt & _)). rewrite Hid in E'.
    specialize (IH row E' ltac:(lia)). lia.
Qed.
End outbox.

(** ** Witnesses *)

Section witnesses.
Local Instance demo : Env := demo_env 1000 no_failure.

Definition demo_payment (st : PaymentStatus.t) : Payment.t :=
  Payment.defaults "p1" 0 <| Payment.bookingId := "b1"%string |> <| Payment.rideId := "r1"%string |>
    <| Payment.riderId := "u1"%string |> <| Payment.amountTotal := of_cents 1020 |>
    <| Payment.fareAmount := of_cents 1000 |> <| Payment.platformFeeAmount := of_cents 20 |>
    <| Payment.refundedFareAmount := of_cents 0 |> <| Payment.refundedFeeAmount := of_cents 0 |>
    <| Payment.currency := "EUR"%string |> <| Payment.status := st |>.

Definition demo_state (st : PaymentStatus.t) : St.t :=
  St.Build_t (Db.empty <| Db.payment := {["p1"%string := demo_payment st]} |>) [] 0.

Lemma demo_payment_cents st : PaymentCents (demo_payment st) 1020 20 0 0.
Proof. split; try reflexivity; unfold max_split_cents; lia. Qed.

Lemma markPaymentPaid_correct_witness :
  exists s', markPaymentPaid "p1" "d1" (demo_state PaymentStatus.PAYMENT_PENDING)
             = (s', Ok (demo_payment PaymentStatus.PAID)).
Proof.
  destruct (markPaymentPaid_correct (demo_state PaymentStatus.PAYMENT_PENDING) "p1" "d1"
    (demo_payment PaymentStatus.PAYMENT_PENDING) 1020 20 0 0) as [_ W];
    [reflexivity | reflexivity | apply demo_payment_cents | intros n _; apply lookup_empty |].
  destruct (W eq_refl) as (es & ev & n & R & _). eexists. exact R.
Defined.

Lemma markRefunded_correct_witness :
  exists a b s' p', markRefunded "p1" "d1" (Some (of_cents 510)) (demo_state PaymentStatus.HELD_IN_ESCROW)
             = (s', Ok p') /\ a + b = 510 /\ netFareAmount p' = of_cents (Z.max 0 (1000 - a)).
Proof.
  destruct (markRefunded_correct (demo_state PaymentStatus.HELD_IN_ESCROW) "p1" "d1"
    (demo_payment PaymentStatus.HELD_IN_ESCROW) 1020 20 0 0 510) as [_ [_ W]];
    [reflexivity | reflexivity | apply demo_payment_cents | lia |].
  destruct (W eq_refl) as (a & b & es & p' & s' & R & _ & _ & Hab & _ & _ & _ & _ & N & _).
  exists a, b, s', p'. auto.
Defined.
End witnesses.
