(* ===== verification/Payout.v ===== *)
(** * Driver payouts

    Models [modules/payout/payout.service.ts]: which escrowed payments become
    eligible, how the eligible payments of a driver are batched, transferred and
    recorded, and what a failed transfer leaves behind.  The dispute conditions
    come from [modules/dispute/dispute.constants.ts] and
    [dispute-settlement.service.ts]. *)

From Stdlib Require Import ZArith QArith Lia.
From stdpp Require Import base list option strings gmap.
From S2P Require Import Prelude JsNumber Money Schema Store Payments.

Open Scope Z_scope.

Definition OPEN_DISPUTE_STATUSES : list DisputeStatus.t :=
  [DisputeStatus.OPEN; DisputeStatus.EVIDENCE_COLLECTED; DisputeStatus.NEEDS_MANUAL_REVIEW;
   DisputeStatus.WAITING_FOR_USER_RESPONSE; DisputeStatus.ESCALATED].

(** [disputes: { none: { status: { in: OPEN_DISPUTE_STATUSES } } }] *)
Definition noOpenDispute (d : Db.t) (bookingId : string) : bool :=
  negb (existsb (fun x => bool_decide (Dispute.bookingId x = bookingId) &&
                          bool_decide (Dispute.status x ∈ OPEN_DISPUTE_STATUSES))
        (map_to_list (Db.dispute d)).*2).

(** The joins [payment.booking] and [payment.booking.ride]. *)
Definition bookingOf (d : Db.t) (p : Payment.t) : option RideBooking.t :=
  Db.rideBooking d !! Payment.bookingId p.
Definition rideOf (d : Db.t) (p : Payment.t) : option Ride.t :=
  b ← bookingOf d p; Db.ride d !! RideBooking.rideId b.

Section handlers.
Context `{Env}.

(** ** Eligibility *)

Record EligibleResult := {
  checked : nat;
  markedEligible : nat;
  outboxResult : OutboxResult;
}.

Definition isReleasable (d : Db.t) (cutoff : Z) (p : Payment.t) : bool :=
  bool_decide (Payment.status p = PaymentStatus.HELD_IN_ESCROW) &&
  noOpenDispute d (Payment.bookingId p) &&
  match bookingOf d p with
  | Some b =>
      bool_decide (RideBooking.status b = BookingStatus.COMPLETED) &&
      match RideBooking.completedAt b with Some t => t <? cutoff | None => false end
  | None => false
  end.

Definition set_eligible (p : Payment.t) : Payment.t :=
  p <| Payment.status := PaymentStatus.PAYOUT_ELIGIBLE |> <| Payment.payoutEligibleAt := Some now |>.

Definition checkAndMarkEligible : H EligibleResult :=
  outboxResult ← processOutboxEvents 50;
  let cutoff := now - PAYOUT_ELIGIBILITY_DELAY_MINUTES * 60 * 1000 in
  eligible ← get (fun s => where_ prisma.payment (isReleasable (St.db s) cutoff) (St.db s));
  for_each eligible (fun payment =>
    update prisma.payment (Payment.id payment) set_eligible;; mret tt);;
  mret {| checked := length eligible; markedEligible := length eligible;
          outboxResult := outboxResult |}.

(** ** The payout batch of a driver *)

Record PayoutResult := {
  result_driverId : string;
  result_status : string;
  result_batchId : option string;
  result_reason : option string;
  result_stripeTransferId : option string;
  result_amount : option num;
}.

Definition payoutFailed (driverId : string) (batchId : option string) (reason : string) : PayoutResult :=
  {| result_driverId := driverId; result_status := "FAILED"; result_batchId := batchId;
     result_reason := Some reason; result_stripeTransferId := None; result_amount := None |}.

Definition payoutCompleted (driverId batchId transferId : string) (amount : num) : PayoutResult :=
  {| result_driverId := driverId; result_status := "COMPLETED"; result_batchId := Some batchId;
     result_reason := None; result_stripeTransferId := Some transferId; result_amount := Some amount |}.

Definition isPayable (d : Db.t) (driverId : string) (p : Payment.t) : bool :=
  bool_decide (Payment.status p = PaymentStatus.PAYOUT_ELIGIBLE) &&
  bool_decide (Ride.driverId <$> rideOf d p = Some driverId) &&
  noOpenDispute d (Payment.bookingId p).

(** [payments.reduce((sum, p) => sum + Math.round(netFareAmount(p) * 100), 0) / 100] *)
Definition payoutTotal (payments : list Payment.t) : num :=
  ndiv (fold_left (fun sum p => nadd sum (num_of_Z (to_cents (netFareAmount p)))) payments (num_of_Z 0)) 100%Q.

Definition createBatch (driverId currency : string) (totalAmount : num) (payments : list Payment.t)
    : H PayoutBatch.t :=
  batchId ← randomUUID;
  batch ← create prisma.payoutBatch batchId
    (PayoutBatch.defaults batchId now
      <| PayoutBatch.driverId := driverId |>
      <| PayoutBatch.currency := currency |>
      <| PayoutBatch.amountTotal := totalAmount |>
      <| PayoutBatch.status := PayoutStatus.PROCESSING |>);
  for_each payments (fun p =>
    itemId ← randomUUID;
    create prisma.payoutItem itemId
      (PayoutItem.defaults itemId now
        <| PayoutItem.payoutBatchId := batchId |>
        <| PayoutItem.bookingId := Payment.bookingId p |>
        <| PayoutItem.paymentId := Payment.id p |>
        <| PayoutItem.driverAmount := netFareAmount p |>
        <| PayoutItem.platformFee := netPlatformFeeAmount p |>);; mret tt);;
  mret batch.

(** The steps after a transfer, in both modes. *)
Definition settleBatch (driverId batchId transferId : string) (payments : list Payment.t) : H unit :=
  for_each payments (fun p => markTransferCreated (Payment.id p);; mret tt);;
  for_each payments (fun p =>
    recordTransfer (Payment.id p) (Payment.bookingId p) driverId (netFareAmount p) (Payment.currency p);;
    mret tt);;
  update prisma.payoutBatch batchId (fun b =>
    b <| PayoutBatch.status := PayoutStatus.COMPLETED |>
      <| PayoutBatch.stripeTransferId := Some transferId |>);;
  for_each payments (fun p => markPayoutCompleted (Payment.id p);; mret tt);;
  updateMany prisma.payoutItem (fun i => bool_decide (PayoutItem.payoutBatchId i = batchId))
    (fun i => i <| PayoutItem.status := PayoutStatus.COMPLETED |>);;
  mret tt.

Definition processDriverPayout (driverId : string) : H PayoutResult :=
  payments ← get (fun s => where_ prisma.payment (isPayable (St.db s) driverId) (St.db s));
  match payments with
  | [] => mret {| result_driverId := driverId; result_status := "NO_ELIGIBLE_PAYMENTS";
                  result_batchId := None; result_reason := None; result_stripeTransferId := None;
                  result_amount := None |}
  | first :: _ =>
      let currency := Payment.currency first in
      let totalAmount := payoutTotal payments in
      driver ← findUnique prisma.user driverId;
      let account := truthy (d ← driver; User.stripeAccountId d) in
      let onboarded := match driver with Some d => User.stripeOnboardingComplete d | None => false end in
      if negb STRIPE_CONNECT_MOCK_MODE && bool_decide (account = None) then
        mret (payoutFailed driverId None "NO_STRIPE_ACCOUNT")
      else if negb STRIPE_CONNECT_MOCK_MODE && negb onboarded then
        mret (payoutFailed driverId None "STRIPE_ONBOARDING_INCOMPLETE")
      else
        batch ← createBatch driverId currency totalAmount payments;
        let batchId := PayoutBatch.id batch in
        if STRIPE_CONNECT_MOCK_MODE then
          settleBatch driverId batchId ("tr_mock_" +:+ batchId) payments;;
          mret (payoutCompleted driverId batchId ("tr_mock_" +:+ batchId) totalAmount)
        else
          try_catch
            (transferId ← call (StripeTransfer (to_cents totalAmount) (toLowerCase currency)
                                  (default EmptyString account) batchId);
             settleBatch driverId batchId transferId payments;;
             mret (payoutCompleted driverId batchId transferId totalAmount))
            (fun reason =>
             update prisma.payoutBatch batchId (fun b =>
               b <| PayoutBatch.status := PayoutStatus.FAILED |>
                 <| PayoutBatch.failureReason := Some reason |>);;
             updateMany prisma.payoutItem (fun i => bool_decide (PayoutItem.payoutBatchId i = batchId))
               (fun i => i <| PayoutItem.status := PayoutStatus.FAILED |>);;
             for_each payments (fun p =>
               attempt (recordPayoutFailureReversal (Payment.id p) (Payment.bookingId p) driverId
                          (netFareAmount p) (Payment.currency p) (Some reason)));;
             mret (payoutFailed driverId (Some batchId) reason))
  end.

(** ** Candidates *)

Record Candidate := {
  cand_driverId : string;
  cand_driverName : option string;
  cand_stripeAccountId : option string;
  cand_stripeOnboardingComplete : bool;
  cand_currency : string;
  cand_amountTotal : num;
  cand_paymentsCount : nat;
  cand_payments : list Payment.t;
}.

(** [orderBy: { payoutEligibleAt: 'asc' }]: missing dates come last. *)
Definition byEligibleAt (l : list Payment.t) : list Payment.t :=
  sort_by (fun p => default 0 (Payment.payoutEligibleAt p))
    (List.filter (fun p => bool_decide (is_Some (Payment.payoutEligibleAt p))) l)
  ++ List.filter (fun p => bool_decide (Payment.payoutEligibleAt p = None)) l.

(** [byDriver]: a Map keeps its keys in the order they were added. *)
Fixpoint addCandidate (driver : User.t) (payment : Payment.t) (l : list Candidate) : list Candidate :=
  match l with
  | [] =>
      [ {| cand_driverId := User.id driver; cand_driverName := User.firstName driver;
           cand_stripeAccountId := User.stripeAccountId driver;
           cand_stripeOnboardingComplete := User.stripeOnboardingComplete driver;
           cand_currency := Payment.currency payment; cand_amountTotal := netFareAmount payment;
           cand_paymentsCount := 1; cand_payments := [payment] |} ]
  | c :: l' =>
      if decide (cand_driverId c = User.id driver) then
        {| cand_driverId := cand_driverId c; cand_driverName := cand_driverName c;
           cand_stripeAccountId := cand_stripeAccountId c;
           cand_stripeOnboardingComplete := cand_stripeOnboardingComplete c;
           cand_currency := cand_currency c;
           cand_amountTotal := nadd (cand_amountTotal c) (netFareAmount payment);
           cand_paymentsCount := S (cand_paymentsCount c);
           cand_payments := cand_payments c ++ [payment] |} :: l'
      else c :: addCandidate driver payment l'
  end.

Definition driverOf (d : Db.t) (p : Payment.t) : option User.t :=
  r ← rideOf d p; Db.user d !! Ride.driverId r.

Definition getEligiblePayoutCandidates : H (list Candidate) :=
  d ← get St.db;
  payments ← findMany prisma.payment (fun p =>
    bool_decide (Payment.status p = PaymentStatus.PAYOUT_ELIGIBLE) && noOpenDispute d (Payment.bookingId p));
  let byDriver := fold_left (fun acc p =>
    match driverOf d p with Some driver => addCandidate driver p acc | None => acc end)
    (byEligibleAt payments) [] in
  mret (map (fun c =>
    {| cand_driverId := cand_driverId c; cand_driverName := cand_driverName c;
       cand_stripeAccountId := cand_stripeAccountId c;
       cand_stripeOnboardingComplete := cand_stripeOnboardingComplete c;
       cand_currency := cand_currency c;
       cand_amountTotal := of_cents (to_cents (cand_amountTotal c));
       cand_paymentsCount := cand_paymentsCount c; cand_payments := cand_payments c |}) byDriver).

Record PayoutRun := {
  checkedDrivers : nat;
  skippedDrivers : nat;
  processedDrivers : nat;
  failedDrivers : nat;
  run_results : list PayoutResult;
}.

Fixpoint payEach (l : list Candidate) : H (list PayoutResult) :=
  match l with
  | [] => mret []
  | c :: l' =>
      r ← processDriverPayout (cand_driverId c);
      rs ← payEach l';
      mret (r :: rs)
  end.

Definition withStatus (st : string) (l : list PayoutResult) : list PayoutResult :=
  List.filter (fun r => bool_decide (result_status r = st)) l.

Definition processEligibleDriverPayouts : H PayoutRun :=
  candidates ← getEligiblePayoutCandidates;
  let ready := List.filter (fun c => bool_decide (is_Some (truthy (cand_stripeAccountId c))) &&
                                     cand_stripeOnboardingComplete c) candidates in
  results ← payEach ready;
  mret {| checkedDrivers := length candidates;
          skippedDrivers := length candidates - length ready;
          processedDrivers := length (withStatus "COMPLETED" results);
          failedDrivers := length (withStatus "FAILED" results);
          run_results := results |}.
End handlers.

(** ** Payments only move along the transitions of the table *)

Section machine.
Context `{Env}.

Notation advances d0 m := (preserves (on_db (payments_advance d0)) m).

Lemma advances_other {R} (t : Table R) d0 g :
  (forall d, Db.payment (with_rows t g d) = Db.payment d) -> advances d0 (write t g).
Proof.
  intros E. apply preserves_write. intros d [W A]. unfold payments_advance, payments_keyed.
  rewrite E. split; assumption.
Qed.

Lemma advances_batch d0 id f : advances d0 (update prisma.payoutBatch id f).
Proof. apply preserves_update. intros d r A _. exact A. Qed.
Lemma advances_batch_create d0 id r : advances d0 (create prisma.payoutBatch id r).
Proof. apply preserves_create. intros d A _. exact A. Qed.
Lemma advances_item_create d0 id r : advances d0 (create prisma.payoutItem id r).
Proof. apply preserves_create. intros d A _. exact A. Qed.
Lemma advances_items d0 p f : advances d0 (updateMany prisma.payoutItem p f).
Proof.
  unfold updateMany. preserve_step; [preserve|]. preserve_step; [|preserve].
  apply advances_other. reflexivity.
Qed.
Local Hint Resolve advances_batch advances_batch_create advances_item_create advances_items : preserve.

Lemma advances_createBatch d0 a b c l : advances d0 (createBatch a b c l).
Proof. unfold createBatch. preserve. Qed.

Lemma advances_settleBatch d0 a b c l : advances d0 (settleBatch a b c l).
Proof.
  pose proof (fun k => proj1 (proj2 (proj2 (proj2 (advances_mark d0 k))))).
  pose proof (fun k => proj1 (proj2 (proj2 (proj2 (proj2 (advances_mark d0 k)))))).
  unfold settleBatch. preserve.
Qed.
Local Hint Resolve advances_createBatch advances_settleBatch : preserve.

Lemma advances_processDriverPayout d0 a : advances d0 (processDriverPayout a).
Proof. unfold processDriverPayout. cbv zeta. preserve. Qed.

Lemma advances_payEach d0 l : advances d0 (payEach l).
Proof. pose proof (advances_processDriverPayout d0). induction l; cbn [payEach]; preserve. Qed.

Lemma advances_processEligibleDriverPayouts d0 : advances d0 processEligibleDriverPayouts.
Proof.
  pose proof (advances_payEach d0). unfold processEligibleDriverPayouts, getEligiblePayoutCandidates.
  preserve.
Qed.

(** The payments listed for release are in escrow, or were released meanwhile. *)
Definition releasing (l : list Payment.t) (d : Db.t) : Prop := forall p, In p l ->
  exists q, Db.payment d !! Payment.id p = Some q /\
    (Payment.status q = PaymentStatus.HELD_IN_ESCROW \/ Payment.status q = PaymentStatus.PAYOUT_ELIGIBLE).

Lemma advances_release d0 l p : In p l ->
  preserves (on_db (fun d => payments_advance d0 d /\ releasing l d))
    (update prisma.payment (Payment.id p) set_eligible;; mret tt).
Proof.
  intros Hp. preserve_step; [|preserve]. apply preserves_update. intros d r [A L] E. cbn in E. split.
  - apply (advance_write d0 d (Payment.id p) r _ A E); [repeat split|].
    destruct (L p Hp) as (q & Eq & [S|S]); rewrite E in Eq; injection Eq as <-; cbn; rewrite S;
      [apply rtc_once; reflexivity | apply rtc_refl].
  - intros p' Hp'. destruct (L p' Hp') as (q & Eq & S). cbn.
    destruct (decide (Payment.id p' = Payment.id p)) as [->|N].
    + rewrite lookup_insert_eq. eexists. split; [reflexivity|]. right. reflexivity.
    + rewrite lookup_insert_ne by congruence. eauto.
Qed.

Lemma preserves_for_each_in {A} (I : St.t -> Prop) (l : list A) (m : A -> Store.H unit) :
  (forall a, In a l -> preserves I (m a)) -> preserves I (for_each l m).
Proof.
  induction l as [|x l IH]; intros Hm; [apply preserves_ret|].
  apply preserves_bind; [apply Hm; left; reflexivity|]. intros _. apply IH. intros a Ha.
  apply Hm. right. exact Ha.
Qed.

Lemma advances_checkAndMarkEligible d0 : advances d0 checkAndMarkEligible.
Proof.
  unfold checkAndMarkEligible. preserve_step; [preserve|]. intros s A.
  match goal with |- on_db _ (?m s).1 => change (wp m (fun s' _ => on_db (payments_advance d0) s') s) end.
  repeat wp_step. set (l := where_ _ _ _).
  apply (wp_preserves (on_db (fun d => payments_advance d0 d /\ releasing l d))).
  - apply preserves_for_each_in. intros p Hp. apply advances_release. exact Hp.
  - split; [exact A|]. intros p Hp. apply where_elem in Hp as [Hp [k Ek]]. cbn in Ek.
    exists p. rewrite (proj1 A k p Ek). split; [exact Ek|]. left.
    unfold isReleasable in Hp. apply andb_prop in Hp as [Hp _]. apply andb_prop in Hp as [Hp _].
    apply bool_decide_eq_true in Hp. exact Hp.
  - intros s' [x|e] [A' _]; exact A'.
Qed.

(** The operations that write payments: the handlers of [payment.service.ts],
    the outbox worker and the payout service. *)
Inductive payment_op : St.t -> St.t -> Prop :=
| op_create s a b c t f p cur i st : payment_op s (createPayment a b c t f p cur i st s).1
| op_pending s k : payment_op s (markPaymentPending k s).1
| op_paid s k d : payment_op s (markPaymentPaid k d s).1
| op_bookingPaid s b d : payment_op s (markBookingPaymentPaid b d s).1
| op_escrow s k : payment_op s (markHeldInEscrow k s).1
| op_eligible s k : payment_op s (markPayoutEligible k s).1
| op_transfer s k : payment_op s (markTransferCreated k s).1
| op_completed s k : payment_op s (markPayoutCompleted k s).1
| op_refundPending s k : payment_op s (markRefundPending k s).1
| op_refunded s k d r : payment_op s (markRefunded k d r s).1
| op_bookingRefunded s b d r : payment_op s (markBookingPaymentRefunded b d r s).1
| op_failed s k r : payment_op s (markPaymentFailed k r s).1
| op_outbox s n : payment_op s (processOutboxEvents n s).1
| op_check s : payment_op s (checkAndMarkEligible s).1
| op_payout s d : payment_op s (processDriverPayout d s).1
| op_payouts s : payment_op s (processEligibleDriverPayouts s).1.

Lemma payment_op_advances d0 s s' : payment_op s s' ->
  on_db (payments_advance d0) s -> on_db (payments_advance d0) s'.
Proof.
  destruct 1.
  1: apply advances_createPayment.
  2: apply advances_markPaymentPaid.
  2: apply advances_markBookingPaymentPaid.
  7: apply advances_markRefunded.
  7: apply advances_markBookingPaymentRefunded.
  8: apply advances_processOutboxEvents.
  8: apply advances_checkAndMarkEligible.
  8: apply advances_processDriverPayout.
  8: apply advances_processEligibleDriverPayouts.
  all: destruct (advances_mark d0 k) as (M1 & M2 & M3 & M4 & M5 & M6 & M7).
  - exact (M1 s).
  - exact (M2 s).
  - exact (M3 s).
  - exact (M4 s).
  - exact (M5 s).
  - exact (M6 s).
  - exact (M7 r s).
Qed.
End machine.

(** ** The loops of a payout *)

Section loops.
Context `{Env}.

Definition mark_rows (g : Payment.t -> Payment.t) (l : list Payment.t) (m : gmap string Payment.t)
    : gmap string Payment.t := fold_left (fun m p => alter g (Payment.id p) m) l m.

Lemma mark_rows_lookup g l m k : NoDup (map Payment.id l) ->
  mark_rows g l m !! k = if bool_decide (k ∈ map Payment.id l) then g <$> m !! k else m !! k.
Proof.
  unfold mark_rows. revert m. induction l as [|p l IH]; intros m; [reflexivity|]. cbn [map fold_left].
  intros [Hn Hl]%NoDup_cons. rewrite IH by assumption.
  destruct (decide (k = Payment.id p)) as [->|N].
  - rewrite bool_decide_eq_false_2 by assumption. rewrite bool_decide_eq_true_2 by constructor.
    apply lookup_alter_eq.
  - rewrite lookup_alter_ne by congruence.
    rewrite (bool_decide_ext (k ∈ Payment.id p :: map Payment.id l) (k ∈ map Payment.id l)); [reflexivity|].
    rewrite elem_of_cons. intuition.
Qed.

Lemma markStatus_run target f pid s p :
  Db.payment (St.db s) !! pid = Some p -> allowed (Payment.status p) target = true ->
  markStatus target f pid s
  = (s <| St.db ::= fun d => d <| Db.payment ::= <[pid := f (set_status target p)]> |> |>,
     Ok (f (set_status target p))).
Proof.
  intros E A. unfold markStatus, assertTransition.
  run_with (findUniqueOrThrow_run prisma.payment).
  rewrite A. etrans; [apply bind_Ok; reflexivity|]. cbv beta.
  exact (update_run prisma.payment pid _ s p E).
Qed.

Lemma set_payments_twice f g h s : g (f (Db.payment (St.db s))) = h (Db.payment (St.db s)) ->
  s <| St.db ::= fun d => d <| Db.payment ::= f |> |> <| St.db ::= fun d => d <| Db.payment ::= g |> |>
  = s <| St.db ::= fun d => d <| Db.payment ::= h |> |>.
Proof. destruct s as [[] fx n]. repeat (unfold setf; cbn). intros ->. reflexivity. Qed.

(** Marking a list of payments with distinct ids, all of which may move. *)
Lemma mark_all_run target f (l : list Payment.t) s :
  NoDup (map Payment.id l) ->
  (forall p, In p l -> exists q, Db.payment (St.db s) !! Payment.id p = Some q /\
                                 allowed (Payment.status q) target = true) ->
  for_each l (fun p => markStatus target f (Payment.id p);; mret tt) s
  = (s <| St.db ::= fun d => d <| Db.payment ::= mark_rows (fun p => f (set_status target p)) l |> |>,
     Ok tt).
Proof.
  revert s. induction l as [|p l IH]; intros s Hl Hs; cbn [for_each].
  - rewrite set_db_id; [reflexivity|]. destruct (St.db s); reflexivity.
  - apply NoDup_cons in Hl as [Hn Hl].
    destruct (Hs p (or_introl eq_refl)) as (q & Eq & Aq).
    assert (Ea : <[Payment.id p := f (set_status target q)]> (Db.payment (St.db s))
                 = alter (fun p => f (set_status target p)) (Payment.id p) (Db.payment (St.db s))).
    { apply map_eq. intros k. destruct (decide (k = Payment.id p)) as [->|N].
      - rewrite lookup_insert_eq, lookup_alter_eq, Eq. reflexivity.
      - rewrite lookup_insert_ne, lookup_alter_ne by congruence. reflexivity. }
    etrans.
    { apply bind_Ok. etrans; [apply bind_Ok; apply (markStatus_run target f _ s q Eq Aq)|]. reflexivity. }
    cbv beta. rewrite IH; [|exact Hl|].
    + f_equal. rewrite <- (set_payments_twice <[Payment.id p := f (set_status target q)]> (mark_rows (fun p => f (set_status target p)) l)
        (mark_rows (fun p => f (set_status target p)) (p :: l))); [reflexivity|].
      unfold mark_rows at 2. cbn [fold_left]. rewrite <- Ea. reflexivity.
    + intros p' Hp'. destruct (Hs p' (or_intror Hp')) as (q' & Eq' & Aq').
      exists q'. split; [|exact Aq']. cbn. rewrite lookup_insert_ne; [exact Eq'|].
      intros X. apply Hn. rewrite X. apply list_elem_of_In, in_map, Hp'.
Qed.

Definition netCents (l : list Payment.t) : Z := foldr (fun p acc => to_cents (netFareAmount p) + acc) 0 l.

Lemma single_entry_run (F : string -> LedgerEntry.t) s :
  (groupId ← randomUUID; createLedgerEntries [F groupId];; mret groupId) s
  = (s <| St.db ::= append_entries [F (uuid (St.seq s)) <| LedgerEntry.id := uuid (S (St.seq s)) |>] |>
       <| St.seq ::= Nat.add 2 |>, Ok (uuid (St.seq s))).
Proof. rewrite (group_run (fun g => [F g])). reflexivity. Qed.

(** A loop that appends one entry of the driver per payment. *)
Lemma entries_loop (driverId : string) (sign : Z) (m : Payment.t -> Store.H unit) (l : list Payment.t) :
  (forall p s, exists e n, m p s = (s <| St.db ::= append_entries [e] |> <| St.seq ::= Nat.add n |>, Ok tt) /\
     total_cents (isDriverEntry driverId) [e] = sign * to_cents (netFareAmount p)) ->
  forall s, exists es n, for_each l m s
    = (s <| St.db ::= append_entries es |> <| St.seq ::= Nat.add n |>, Ok tt) /\
    total_cents (isDriverEntry driverId) es = sign * netCents l /\ length es = length l.
Proof.
  intros Hm. induction l as [|p l IH]; intros s; cbn [for_each].
  - exists [], 0%nat. split; [|split; [cbn; lia | reflexivity]].
    destruct s as [[] fx n]. unfold append_entries. repeat (unfold setf; cbn). rewrite app_nil_r. reflexivity.
  - destruct (Hm p s) as (e & n & R & E).
    destruct (IH (s <| St.db ::= append_entries [e] |> <| St.seq ::= Nat.add n |>)) as (es & n' & R' & E' & L).
    exists (e :: es), (n' + n)%nat. split; [|split; [|cbn; congruence]].
    + etrans; [apply bind_Ok; exact R|]. cbv beta. rewrite R'. f_equal.
      destruct s as [[] fx sq]. unfold append_entries. repeat (unfold setf; cbn).
      rewrite <- app_assoc. cbn. f_equal. lia.
    + change (e :: es) with ([e] ++ es). rewrite total_cents_app, E, E'. cbn [netCents foldr].
      unfold netCents. lia.
Qed.

Lemma recordTransfer_loop driverId l s : exists es n,
  for_each l (fun p => recordTransfer (Payment.id p) (Payment.bookingId p) driverId
    (netFareAmount p) (Payment.currency p);; mret tt) s
  = (s <| St.db ::= append_entries es |> <| St.seq ::= Nat.add n |>, Ok tt) /\
  total_cents (isDriverEntry driverId) es = -1 * netCents l /\ length es = length l.
Proof.
  apply entries_loop. intros p s'. eexists _, 2%nat. split.
  - etrans; [apply bind_Ok; apply (single_entry_run (fun g => entry g _ _ _ _ _ _ _ _ _))|]. reflexivity.
  - unfold total_cents, isDriverEntry, signed_cents. cbn -[Z.mul].
    rewrite !bool_decide_eq_true_2 by reflexivity. cbn [andb]. lia.
Qed.

Lemma recordReversal_loop driverId reason l s : exists es n,
  for_each l (fun p => attempt (recordPayoutFailureReversal (Payment.id p) (Payment.bookingId p) driverId
    (netFareAmount p) (Payment.currency p) (Some reason))) s
  = (s <| St.db ::= append_entries es |> <| St.seq ::= Nat.add n |>, Ok tt) /\
  total_cents (isDriverEntry driverId) es = 1 * netCents l /\ length es = length l.
Proof.
  apply entries_loop. intros p s'. eexists _, 2%nat. split.
  - unfold attempt, try_catch, recordPayoutFailureReversal.
    rewrite (bind_Ok _ _ _ _ _ (single_entry_run (fun g => entry g _ _ _ _ _ _ _ _ _ <| LedgerEntry.metadataJson := _ |>) s')).
    reflexivity.
  - unfold total_cents, isDriverEntry, signed_cents. cbn -[Z.mul].
    rewrite !bool_decide_eq_true_2 by reflexivity. cbn [andb]. lia.
Qed.

(** The total in cents is the sum of the net fares. *)
Lemma payoutTotal_cents (l : list Payment.t) :
  (forall p, In p l -> 0 <= to_cents (netFareAmount p)) -> netCents l <= wide_cents ->
  payoutTotal l = of_cents (netCents l).
Proof.
  intros Hp Hl. unfold wide_cents in Hl. unfold payoutTotal. apply div100_of_cents.
  assert (G : forall a l, 0 <= a -> (forall p, In p l -> 0 <= to_cents (netFareAmount p)) ->
    a + netCents l <= 1000000000000 -> forall z, (z == num_of_Z a)%Q ->
    (fold_left (fun sum p => nadd sum (num_of_Z (to_cents (netFareAmount p)))) l z
       == num_of_Z (a + netCents l))%Q).
  { clear. intros a l. revert a. induction l as [|p l IH]; intros a Ha Hp Hl z Ez; cbn [fold_left].
    - cbn [netCents foldr]. rewrite Z.add_0_r. exact Ez.
    - cbn [netCents foldr] in Hl |- *. fold (netCents l) in Hl |- *.
      assert (0 <= to_cents (netFareAmount p)) by (apply Hp; left; reflexivity).
      assert (0 <= netCents l).
      { clear -Hp. induction l as [|q l IH]; [cbn; lia|]. cbn [netCents foldr].
        assert (0 <= to_cents (netFareAmount q)) by (apply Hp; right; left; reflexivity).
        assert (0 <= netCents l); [|unfold netCents in *; lia].
        apply IH. intros q' [->|Hq]; apply Hp; [left | right; right]; auto. }
      rewrite Z.add_assoc. apply IH; [lia | | lia |].
      + intros q Hq. apply Hp. right. exact Hq.
      + rewrite Ez. apply num_add_Z. lia. }
  apply (G 0 l); [lia | exact Hp | lia | reflexivity].
Qed.
End loops.

(** ** A payout, run *)

Section payout.
Context `{Env}.
Hypothesis uuid_unique : forall m n, uuid m = uuid n -> m = n.

(** A state that differs from [s] in the batches, the items and the id supply only. *)
Definition batched (s : St.t) B I n : St.t :=
  s <| St.db ::= fun d => d <| Db.payoutBatch := B |> <| Db.payoutItem := I |> |> <| St.seq ::= Nat.add n |>.

Lemma items_loop (mk : Payment.t -> string -> PayoutItem.t) (l : list Payment.t) s :
  unused_ids prisma.payoutItem s -> exists B I n,
  for_each l (fun p => itemId ← randomUUID; create prisma.payoutItem itemId (mk p itemId);; mret tt) s
  = (batched s B I n, Ok tt) /\ B = Db.payoutBatch (St.db s).
Proof.
  revert s. induction l as [|p l IH]; intros s U; cbn [for_each].
  - exists (Db.payoutBatch (St.db s)), (Db.payoutItem (St.db s)), 0%nat.
    split; [|reflexivity]. destruct s as [[] fx n]. reflexivity.
  - set (s1 := s <| St.db ::= with_rows prisma.payoutItem <[uuid (St.seq s) := mk p (uuid (St.seq s))]> |>
                 <| St.seq ::= S |>).
    destruct (IH s1) as (B & I & n & R & E).
    { intros k Hk. cbn in Hk |- *. rewrite lookup_insert_ne; [apply U; cbn; lia|].
      intros X. apply uuid_unique in X. lia. }
    exists B, I, (S n). split; [|exact E].
    etrans.
    { apply bind_Ok with (s' := s1) (a := tt). etrans; [apply bind_Ok; reflexivity|]. cbv beta.
      etrans; [apply bind_Ok, create_run; apply U; lia|]. reflexivity. }
    cbv beta. rewrite R. f_equal. destruct s as [[] fx k]. unfold batched. repeat (unfold setf; cbn).
    f_equal. lia.
Qed.

Lemma createBatch_run did cur tot l s :
  unused_ids prisma.payoutBatch s -> unused_ids prisma.payoutItem s -> exists B I n batch,
  createBatch did cur tot l s = (batched s B I n, Ok batch) /\
  PayoutBatch.id batch = uuid (St.seq s) /\ B !! PayoutBatch.id batch = Some batch /\
  PayoutBatch.amountTotal batch = tot /\ PayoutBatch.driverId batch = did.
Proof.
  intros UB UI. unfold createBatch.
  set (row := PayoutBatch.defaults (uuid (St.seq s)) now <| PayoutBatch.driverId := did |>
      <| PayoutBatch.currency := cur |> <| PayoutBatch.amountTotal := tot |>
      <| PayoutBatch.status := PayoutStatus.PROCESSING |>).
  set (s1 := s <| St.seq ::= S |> <| St.db ::= with_rows prisma.payoutBatch <[uuid (St.seq s) := row]> |>).
  destruct (items_loop (fun p itemId => PayoutItem.defaults itemId now
        <| PayoutItem.payoutBatchId := uuid (St.seq s) |>
        <| PayoutItem.bookingId := Payment.bookingId p |>
        <| PayoutItem.paymentId := Payment.id p |>
        <| PayoutItem.driverAmount := netFareAmount p |>
        <| PayoutItem.platformFee := netPlatformFeeAmount p |>) l s1) as (B & I & n & R & E).
  { intros k Hk. cbn in Hk |- *. apply UI. lia. }
  exists B, I, (S n), row. split; [|split; [reflexivity|split; [|split; reflexivity]]].
  - etrans; [apply bind_Ok; reflexivity|]. cbv beta.
    etrans; [apply bind_Ok, create_run; apply UB; lia|]. cbv beta.
    etrans; [apply bind_Ok; exact R|]. cbv beta. unfold mret, M_ret. f_equal.
    destruct s as [[] fx k]. unfold batched. repeat (unfold setf; cbn). f_equal. lia.
  - rewrite E. apply lookup_insert_eq.
Qed.

(** The batch settles: every listed payment ends completed, the driver's ledger
    is debited what they are paid, nothing else of the payments changes. *)
Lemma settleBatch_run did batchId tr l s b :
  NoDup (map Payment.id l) -> Db.payoutBatch (St.db s) !! batchId = Some b ->
  (forall p, In p l -> Db.payment (St.db s) !! Payment.id p = Some p /\
                       Payment.status p = PaymentStatus.PAYOUT_ELIGIBLE) ->
  exists es n B I,
    settleBatch did batchId tr l s =
      (s <| St.db ::= fun d => d
             <| Db.payment ::= fun m => mark_rows (set_status PaymentStatus.PAYOUT_COMPLETED) l
                                         (mark_rows (set_status PaymentStatus.TRANSFER_CREATED) l m) |>
             <| Db.ledgerEntry ::= fun x => x ++ es |>
             <| Db.payoutBatch := B |> <| Db.payoutItem := I |> |>
         <| St.seq ::= Nat.add n |>, Ok tt) /\
    total_cents (isDriverEntry did) es = - netCents l /\ length es = length l /\
    (exists b', B !! batchId = Some b' /\ PayoutBatch.status b' = PayoutStatus.COMPLETED /\
                PayoutBatch.stripeTransferId b' = Some tr).
Proof.
  intros Hl Eb Hs. unfold settleBatch, markTransferCreated, markPayoutCompleted.
  set (m1 := mark_rows (fun p => id (set_status PaymentStatus.TRANSFER_CREATED p)) l (Db.payment (St.db s))).
  set (s1 := s <| St.db ::= fun d => d <| Db.payment ::=
               mark_rows (fun p => id (set_status PaymentStatus.TRANSFER_CREATED p)) l |> |>).
  destruct (recordTransfer_loop did l s1) as (es & n & R & T & L).
  set (s2 := s1 <| St.db ::= append_entries es |> <| St.seq ::= Nat.add n |>) in *.
  set (f3 := fun b => b <| PayoutBatch.status := PayoutStatus.COMPLETED |>
                        <| PayoutBatch.stripeTransferId := Some tr |>).
  set (B := <[batchId := f3 b]> (Db.payoutBatch (St.db s))).
  eexists es, n, B, _. split; [|split; [lia | split; [exact L|]]].
  2: { exists (f3 b). unfold B. rewrite lookup_insert_eq. repeat split. }
  etrans.
  { apply bind_Ok. apply mark_all_run; [exact Hl|]. intros p Hp. destruct (Hs p Hp) as [E S].
    exists p. rewrite S. auto. }
  cbv beta. etrans; [apply bind_Ok; exact R|]. cbv beta.
  etrans; [apply bind_Ok, update_run; cbn; exact Eb|]. cbv beta.
  etrans.
  { apply bind_Ok. apply mark_all_run; [exact Hl|]. intros p Hp. destruct (Hs p Hp) as [E S].
    exists (set_status PaymentStatus.TRANSFER_CREATED p). split; [|reflexivity].
    cbn. rewrite (mark_rows_lookup _ l _ _ Hl), bool_decide_eq_true_2, E; [reflexivity|].
    apply list_elem_of_In, in_map, Hp. }
  cbv beta. etrans; [apply bind_Ok, updateMany_run|]. cbv beta. unfold mret, M_ret. f_equal.
Qed.

(** The payments of a driver that a payout takes. *)
Definition payableOf (s : St.t) (did : string) : list Payment.t :=
  where_ prisma.payment (isPayable (St.db s) did) (St.db s).

Lemma payable_rows s did : payments_keyed (St.db s) ->
  NoDup (map Payment.id (payableOf s did)) /\
  forall p, In p (payableOf s did) -> Db.payment (St.db s) !! Payment.id p = Some p /\
                                      Payment.status p = PaymentStatus.PAYOUT_ELIGIBLE.
Proof.
  intros W. split.
  - apply where_nodup. exact W.
  - intros p Hp. apply where_elem in Hp as [Hp [k Ek]]. cbn in Ek. rewrite (W k p Ek). split; [exact Ek|].
    unfold isPayable in Hp. apply andb_prop in Hp as [Hp _]. apply andb_prop in Hp as [Hp _].
    apply bool_decide_eq_true in Hp. exact Hp.
Qed.

Lemma payable_net_nonneg (l : list Payment.t) :
  (forall p, In p l -> exists t f x y, PaymentCents p t f x y) ->
  forall p, In p l -> 0 <= to_cents (netFareAmount p).
Proof.
  intros Hc p Hp. destruct (Hc p Hp) as (t & f & x & y & C).
  rewrite (netFareAmount_cents p t f x y C). destruct C as [_ _ _ _ _ Hf Ht Hx _].
  unfold max_split_cents in Ht. rewrite to_cents_of_cents by (unfold safe_cents; lia). lia.
Qed.

(** What a payout is given: the driver can be paid, the amounts are whole cents. *)
Record payable_state (s : St.t) (did acct : string) (user : User.t) : Prop := {
  pay_some : payableOf s did <> [];
  pay_keyed : payments_keyed (St.db s);
  pay_batch_ids : unused_ids prisma.payoutBatch s;
  pay_item_ids : unused_ids prisma.payoutItem s;
  pay_cents : forall p, In p (payableOf s did) -> exists t f x y, PaymentCents p t f x y;
  pay_bound : netCents (payableOf s did) <= wide_cents;
  pay_user : Db.user (St.db s) !! did = Some user;
  pay_account : truthy (User.stripeAccountId user) = Some acct;
  pay_onboarded : User.stripeOnboardingComplete user = true;
}.

Definition payoutTransfer (s : St.t) (did acct : string) : Effect :=
  StripeTransfer (netCents (payableOf s did))
    (toLowerCase (from_option Payment.currency EmptyString (head (payableOf s did)))) acct (uuid (St.seq s)).

Lemma netCents_nonneg l : (forall p, In p l -> 0 <= to_cents (netFareAmount p)) -> 0 <= netCents l.
Proof.
  intros Hp. induction l as [|q l IH]; [reflexivity|]. cbn [netCents foldr].
  assert (0 <= to_cents (netFareAmount q)) by (apply Hp; left; reflexivity).
  assert (0 <= netCents l) by (apply IH; intros; apply Hp; right; assumption). unfold netCents in *. lia.
Qed.

(** The run up to the transfer. *)
Lemma processDriverPayout_run s did acct user :
  payable_state s did acct user -> STRIPE_CONNECT_MOCK_MODE = false ->
  exists B I n batch,
    processDriverPayout did s =
      try_catch
        (transferId ← call (payoutTransfer s did acct);
         settleBatch did (uuid (St.seq s)) transferId (payableOf s did);;
         mret (payoutCompleted did (uuid (St.seq s)) transferId (of_cents (netCents (payableOf s did)))))
        (fun reason =>
           update prisma.payoutBatch (uuid (St.seq s)) (fun b =>
             b <| PayoutBatch.status := PayoutStatus.FAILED |>
               <| PayoutBatch.failureReason := Some reason |>);;
           updateMany prisma.payoutItem (fun i => bool_decide (PayoutItem.payoutBatchId i = uuid (St.seq s)))
             (fun i => i <| PayoutItem.status := PayoutStatus.FAILED |>);;
           for_each (payableOf s did) (fun p =>
             attempt (recordPayoutFailureReversal (Payment.id p) (Payment.bookingId p) did
                        (netFareAmount p) (Payment.currency p) (Some reason)));;
           mret (payoutFailed did (Some (uuid (St.seq s))) reason)) (batched s B I n) /\
    B !! uuid (St.seq s) = Some batch.
Proof.
  intros P Hmock. pose proof P as [Hne W UB UI Hc Hb Eu Ea Eo].
  pose proof (payable_net_nonneg _ Hc) as Hnn. pose proof (netCents_nonneg _ Hnn) as H0'.
  pose proof (payoutTotal_cents _ Hnn Hb) as Tot.
  assert (TC : to_cents (of_cents (netCents (payableOf s did))) = netCents (payableOf s did)).
  { apply to_cents_of_cents. unfold safe_cents, wide_cents in *. lia. }
  unfold processDriverPayout, payoutTransfer.
  rewrite (bind_Ok _ _ s s (payableOf s did)) by reflexivity.
  destruct (payableOf s did) as [|p l] eqn:El; [contradiction|]. cbv zeta. rewrite Tot, TC.
  destruct (createBatch_run did (Payment.currency p) (of_cents (netCents (p :: l))) (p :: l) s UB UI)
    as (B & I & n & batch & R & Hid & HB & _).
  exists B, I, n, batch. rewrite Hid in HB. split; [|exact HB].
  etrans; [apply bind_Ok; apply findUnique_run|]. cbv beta. cbn [rows prisma.user].
  rewrite Eu. cbn [mbind option_bind]. rewrite Ea, Hmock, Eo.
  rewrite bool_decide_eq_false_2 by discriminate. cbn [negb andb].
  etrans; [apply bind_Ok; exact R|]. cbv beta. rewrite Hid. reflexivity.
Qed.
End payout.

(** ** Properties *)

(** Payments are safe under every operation.  Whatever sequence of the
    payment, outbox and payout handlers runs, successfully or not, each payment
    that was written stays written, keeps the booking, rider, currency and
    amounts it was charged with, and reaches its status along the transition
    table; a completed, refunded or failed payment never changes status again. *)
Theorem payment_machine_safe `{Env} (s s' : St.t) (k : string) (p : Payment.t) :
  payments_keyed (St.db s) -> rtc payment_op s s' -> Db.payment (St.db s) !! k = Some p ->
  exists p', Db.payment (St.db s') !! k = Some p' /\ same_charge p p' /\
    rtc transition (Payment.status p) (Payment.status p') /\
    (PAYMENT_TRANSITIONS (Payment.status p) = [] -> Payment.status p' = Payment.status p).
Proof.
  intros W Hs E.
  assert (A : on_db (payments_advance (St.db s)) s') .
  { assert (A0 : on_db (payments_advance (St.db s)) s) by (apply advance_refl; exact W).
    revert A0. generalize (St.db s). intros d0. clear E W.
    induction Hs; eauto using payment_op_advances. }
  destruct (proj2 A k p E) as (p' & E' & S & T). exists p'.
  split; [exact E'|]. split; [exact S|]. split; [exact T|]. intros Hn.
  inversion T as [|st y z Hst HT]; [congruence|]. subst. unfold transition, allowed in Hst.
  rewrite Hn in Hst. apply bool_decide_eq_true in Hst. inversion Hst.
Qed.

(** C39. A payout pays the driver exactly what is owed.  When the transfer
    succeeds, its amount in minor units is the sum of the net fares (fare minus
    refunds) of the driver's eligible undisputed payments, exactly those payments
    become PAYOUT_COMPLETED, and the driver's ledger balance falls by that sum,
    one entry per payment. *)
Theorem payout_pays_net_fares `{Env} (s : St.t) (did acct : string) (user : User.t) :
  (forall m n, uuid m = uuid n -> m = n) ->
  payable_state s did acct user -> STRIPE_CONNECT_MOCK_MODE = false ->
  let e := payoutTransfer s did acct in
  let ps := payableOf s did in
  fails (length (St.fx s)) e = None ->
  exists s' es,
    processDriverPayout did s = (s', Ok (payoutCompleted did (uuid (St.seq s))
      (respond (length (St.fx s)) e) (of_cents (netCents ps)))) /\
    St.fx s' = (e, None) :: St.fx s /\
    (forall k, Db.payment (St.db s') !! k =
       if bool_decide (k ∈ map Payment.id ps)
       then set_status PaymentStatus.PAYOUT_COMPLETED <$> Db.payment (St.db s) !! k
       else Db.payment (St.db s) !! k) /\
    Db.ledgerEntry (St.db s') = Db.ledgerEntry (St.db s) ++ es /\ length es = length ps /\
    total_cents (isDriverEntry did) es = - netCents ps.
Proof.
  intros Hu P Hmock e ps Ok.
  destruct (processDriverPayout_run Hu s did acct user P Hmock) as (B & I & n & batch & R & HB).
  destruct (payable_rows s did (pay_keyed _ _ _ _ P)) as [ND Rows].
  set (s1 := batched s B I n <| St.fx ::= cons (e, None) |>).
  destruct (settleBatch_run did (uuid (St.seq s)) (respond (length (St.fx s)) e) ps s1 batch ND HB Rows)
    as (es & m & B' & I' & RS & T & L & _).
  eexists _, es. split; [|split; [|split; [|split; [|split; [exact L | exact T]]]]].
  - rewrite R. unfold try_catch.
    rewrite (bind_Ok _ _ _ s1 (respond (length (St.fx s)) e)).
    2: { unfold call. cbn. fold e. rewrite Ok. reflexivity. }
    fold ps. rewrite (bind_Ok _ _ _ _ _ RS). reflexivity.
  - reflexivity.
  - intros k. cbn. rewrite !(mark_rows_lookup _ ps _ _ ND). destruct (bool_decide _); [|reflexivity].
    destruct (Db.payment (St.db s) !! k); reflexivity.
  - reflexivity.
Qed.

(** What a transfer that Stripe refuses leaves behind.  The payments stay
    eligible, but the driver's ledger balance rises by the full sum although no
    debit was ever recorded for the transfer: every failed attempt owes the
    driver the same fares once more. *)
Theorem failed_transfer_credits_driver `{Env} (s : St.t) (did acct err : string) (user : User.t) :
  (forall m n, uuid m = uuid n -> m = n) ->
  payable_state s did acct user -> STRIPE_CONNECT_MOCK_MODE = false ->
  let e := payoutTransfer s did acct in
  fails (length (St.fx s)) e = Some err ->
  exists s' es,
    processDriverPayout did s = (s', Ok (payoutFailed did (Some (uuid (St.seq s))) err)) /\
    St.fx s' = (e, Some err) :: St.fx s /\
    Db.payment (St.db s') = Db.payment (St.db s) /\
    Db.ledgerEntry (St.db s') = Db.ledgerEntry (St.db s) ++ es /\
    total_cents (isDriverEntry did) es = netCents (payableOf s did).
Proof.
  intros Hu P Hmock e Ok.
  destruct (processDriverPayout_run Hu s did acct user P Hmock) as (B & I & n & batch & R & HB).
  set (s1 := batched s B I n <| St.fx ::= cons (e, Some err) |>).
  set (fb := fun b => b <| PayoutBatch.status := PayoutStatus.FAILED |>
                        <| PayoutBatch.failureReason := Some err |>).
  set (s2 := s1 <| St.db ::= with_rows prisma.payoutBatch <[uuid (St.seq s) := fb batch]> |>).
  set (s3 := s2 <| St.db ::= with_rows prisma.payoutItem (fmap (fun i =>
    if bool_decide (PayoutItem.payoutBatchId i = uuid (St.seq s))
    then i <| PayoutItem.status := PayoutStatus.FAILED |> else i)) |>).
  destruct (recordReversal_loop did err (payableOf s did) s3) as (es & m & RL & T & _).
  eexists _, es. split; [|split; [|split; [|split; [|rewrite T; lia]]]].
  - rewrite R. unfold try_catch.
    rewrite (bind_Err _ _ _ s1 err).
    2: { unfold call. cbn. fold e. rewrite Ok. reflexivity. }
    etrans; [apply bind_Ok, (update_run prisma.payoutBatch (uuid (St.seq s)) fb s1 batch HB)|]. cbv beta.
    etrans; [apply bind_Ok, updateMany_run|]. cbv beta.
    etrans; [apply bind_Ok; exact RL|]. reflexivity.
  - reflexivity.
  - reflexivity.
  - reflexivity.
Qed.

(** ** Witnesses: one eligible payment of 10.00, half refunded *)

Section witnesses.

Definition demo_half_refunded : Payment.t :=
  demo_payment PaymentStatus.PAYOUT_ELIGIBLE <| Payment.refundedFareAmount := of_cents 500 |>
    <| Payment.refundedFeeAmount := of_cents 10 |>.
Definition demo_driver : User.t :=
  User.defaults "d1" 0 <| User.stripeAccountId := Some "acct_1"%string |>
    <| User.stripeOnboardingComplete := true |>.
Definition demo_payout : St.t :=
  St.Build_t (Db.empty <| Db.payment := {["p1"%string := demo_half_refunded]} |>
    <| Db.rideBooking := {["b1"%string := RideBooking.defaults "b1" 0 <| RideBooking.rideId := "r1"%string |>]} |>
    <| Db.ride := {["r1"%string := Ride.defaults "r1" 0 <| Ride.driverId := "d1"%string |>]} |>
    <| Db.user := {["d1"%string := demo_driver]} |>) [] 0.

Lemma demo_payable `{Env} : payable_state demo_payout "d1" "acct_1" demo_driver.
Proof.
  assert (E : payableOf demo_payout "d1" = [demo_half_refunded]) by (vm_compute; reflexivity).
  split; try reflexivity; rewrite ?E.
  - discriminate.
  - intros k p. cbn. rewrite lookup_singleton_Some. intros [<- <-]. reflexivity.
  - intros n _. apply lookup_empty.
  - intros n _. apply lookup_empty.
  - intros p [<-|[]]. exists 1020, 20, 500, 10.
    split; try reflexivity; unfold max_split_cents; lia.
  - vm_compute. discriminate.
Qed.

Lemma payment_machine_safe_witness :
  let env := demo_env 1000 no_failure in
  exists p', Db.payment (St.db (markRefundPending "p1" demo_payout).1) !! "p1"%string = Some p' /\
             same_charge demo_half_refunded p'.
Proof.
  intros env. destruct (@payment_machine_safe env demo_payout (markRefundPending "p1" demo_payout).1 "p1"
    demo_half_refunded) as (p' & E & S & _).
  - exact (pay_keyed _ _ _ _ (@demo_payable env)).
  - apply rtc_once. apply op_refundPending.
  - vm_compute. reflexivity.
  - exists p'. auto.
Defined.

Lemma payout_pays_net_fares_witness :
  let env := demo_env 1000 no_failure in
  exists s', processDriverPayout "d1" demo_payout
    = (s', Ok (payoutCompleted "d1" "id" "tr_1" (of_cents 500))) /\
    St.fx s' = [(StripeTransfer 500 "eur" "acct_1" "id", None)].
Proof.
  intros env.
  destruct (@payout_pays_net_fares env demo_payout "d1" "acct_1" demo_driver demo_uuid_unique
    (@demo_payable env) eq_refl eq_refl) as (s' & es & R & F & _).
  exists s'. split; [rewrite R | rewrite F]; vm_compute; reflexivity.
Defined.

Lemma failed_transfer_credits_driver_witness :
  let env := demo_env 1000 (fun _ _ => Some "insufficient_funds"%string) in
  exists s' es, processDriverPayout "d1" demo_payout
    = (s', Ok (payoutFailed "d1" (Some "id"%string) "insufficient_funds")) /\
    Db.ledgerEntry (St.db s') = es /\ total_cents (isDriverEntry "d1") es = 500.
Proof.
  intros env.
  destruct (@failed_transfer_credits_driver env demo_payout "d1" "acct_1" "insufficient_funds" demo_driver
    demo_uuid_unique (@demo_payable env) eq_refl eq_refl) as (s' & es & R & _ & _ & L & T).
  exists s', es. split; [rewrite R; vm_compute; reflexivity|]. split; [rewrite L; reflexivity|].
  rewrite T. vm_compute. reflexivity.
Defined.
End witnesses.
