(* ===== verification/Time.v ===== *)
(** * Dates, clock times and the booking windows

    A [Date] is its time value: milliseconds since the epoch.  The UTC calendar is the
    proleptic Gregorian one of ECMA-262, [Number(string)] the conversion of a numeric literal
    and [toISOString] the text of a date.  Models [booking-window.ts],
    [request-expiry.utils.ts], [booking-otp-expiry.ts] (all in [modules/ride-booking]),
    [utils/age.ts], [publish-ride/publish-schedule.ts], [combineDepartureDateTimeUtc] of
    [ride-booking.service.ts] and [ride-operations/no-show-window.ts]. *)

From Stdlib Require Import ZArith QArith Qround Lia Lqa.
From stdpp Require Import base list option strings pretty.
From S2P Require Import Prelude JsNumber JsText Store.

Open Scope Z_scope.

(** ** The UTC calendar *)

Definition msPerDay : Z := 86400000.
Definition dayOf (t : Z) : Z := t / msPerDay.

(** Year, month (0-11, as [getUTCMonth]) and day of the month of a day number;
    years start in March within the computation. *)
Definition civil_of_day (day : Z) : Z * Z * Z :=
  let z := day + 719468 in
  let era := z / 146097 in
  let doe := z mod 146097 in
  let yoe := (doe - doe / 1460 + doe / 36524 - doe / 146096) / 365 in
  let doy := doe - (365 * yoe + yoe / 4 - yoe / 100) in
  let mp := (5 * doy + 2) / 153 in
  let d := doy - (153 * mp + 2) / 5 + 1 in
  let m := if mp <? 10 then mp + 2 else mp - 10 in
  (yoe + era * 400 + (if m <=? 1 then 1 else 0), m, d).

Definition getUTCFullYear (t : Z) : Z := (civil_of_day (dayOf t)).1.1.
Definition getUTCMonth (t : Z) : Z := (civil_of_day (dayOf t)).1.2.
Definition getUTCDate (t : Z) : Z := (civil_of_day (dayOf t)).2.

(** The day number of a date; [m] is 0-11. *)
Definition day_of_civil (y m d : Z) : Z :=
  let y' := if m <=? 1 then y - 1 else y in
  let era := y' / 400 in
  let yoe := y' mod 400 in
  let mp := if 1 <? m then m - 2 else m + 10 in
  let doy := (153 * mp + 2) / 5 + d - 1 in
  era * 146097 + (yoe * 365 + yoe / 4 - yoe / 100 + doy) - 719468.

(** [Date.UTC(y, m, d, h, min)] for a month in range. *)
Definition DateUTC (y m d h min : Z) : Z := day_of_civil y m d * msPerDay + h * 3600000 + min * 60000.

(** ** [Number(string)] *)

Definition is_digit (c : Ascii.ascii) : bool :=
  let n := Ascii.nat_of_ascii c in (48 <=? n)%nat && (n <=? 57)%nat.
Definition digit_val (c : Ascii.ascii) : Z := Z.of_nat (Ascii.nat_of_ascii c) - 48.
Definition is_space (c : Ascii.ascii) : bool :=
  let n := Ascii.nat_of_ascii c in (n =? 32)%nat || ((9 <=? n)%nat && (n <=? 13)%nat).

Fixpoint chars (s : string) : list Ascii.ascii :=
  match s with EmptyString => [] | String c s' => c :: chars s' end.

Fixpoint drop_while (p : Ascii.ascii -> bool) (l : list Ascii.ascii) : list Ascii.ascii :=
  match l with c :: l' => if p c then drop_while p l' else l | [] => [] end.

Definition trim (l : list Ascii.ascii) : list Ascii.ascii :=
  rev (drop_while is_space (rev (drop_while is_space l))).

(** Leading digits: value, count and rest. *)
Fixpoint read_digits (l : list Ascii.ascii) (acc : Z) (n : nat) : Z * nat * list Ascii.ascii :=
  match l with
  | c :: l' => if is_digit c then read_digits l' (10 * acc + digit_val c) (S n) else (acc, n, l)
  | [] => (acc, n, [])
  end.

Definition is_char (k : nat) (c : Ascii.ascii) : bool := (Ascii.nat_of_ascii c =? k)%nat.

(** An exponent part, or the end. *)
Definition read_exponent (l : list Ascii.ascii) : option Z :=
  match l with
  | [] => Some 0
  | c :: l' =>
      if is_char 101 c || is_char 69 c then
        let '(sign, l'') := match l' with
                            | s :: r => if is_char 45 s then (-1, r) else if is_char 43 s then (1, r) else (1, l')
                            | [] => (1, [])
                            end in
        match read_digits l'' 0 0 with
        | (e, S _, []) => Some (sign * e)
        | _ => None
        end
      else None
  end.

(** A decimal literal: digits, an optional fraction, an optional exponent. *)
Definition read_decimal (l : list Ascii.ascii) : option Q :=
  let '(a, na, r) := read_digits l 0 0 in
  let '(b, nb, r) := match r with
                     | c :: r' => if is_char 46 c then read_digits r' 0 0 else (0, 0%nat, r)
                     | [] => (0, 0%nat, [])
                     end in
  if ((na =? 0) && (nb =? 0))%nat then None
  else match read_exponent r with
       | Some e => Some ((inject_Z (a * 10 ^ Z.of_nat nb + b) * Qpower 10 (e - Z.of_nat nb))%Q)
       | None => None
       end.

(** Digits in base 2, 8 or 16, after the prefix. *)
Definition hex_val (c : Ascii.ascii) : option Z :=
  let n := Ascii.nat_of_ascii c in
  if is_digit c then Some (digit_val c)
  else if (97 <=? n)%nat && (n <=? 102)%nat then Some (Z.of_nat n - 87)
  else if (65 <=? n)%nat && (n <=? 70)%nat then Some (Z.of_nat n - 55)
  else None.
Fixpoint read_base (base : Z) (l : list Ascii.ascii) (acc : Z) : option Z :=
  match l with
  | [] => Some acc
  | c :: l' => match hex_val c with
               | Some v => if v <? base then read_base base l' (base * acc + v) else None
               | None => None
               end
  end.
Definition base_of (c : Ascii.ascii) : option Z :=
  if is_char 120 c || is_char 88 c then Some 16
  else if is_char 111 c || is_char 79 c then Some 8
  else if is_char 98 c || is_char 66 c then Some 2
  else None.

(** [Number(s)]; [None] is NaN or an infinity, neither of which is an integer. *)
Definition js_Number (s : string) : option num :=
  match trim (chars s) with
  | [] => Some (num_of_Z 0)
  | c :: l =>
      let decimal := 
        if is_char 45 c then Qopp <$> read_decimal l
        else if is_char 43 c then read_decimal l else read_decimal (c :: l) in
      match l with
      | x :: (_ :: _) as r' =>
          match (if is_char 48 c then base_of x else None) with
          | Some base => num_of_Z <$> read_base base (tail l) 0
          | None => rnd <$> decimal
          end
      | _ => rnd <$> decimal
      end
  end.

(** The integer a number is, if it is one. *)
Definition integer_of (n : option num) : option Z :=
  match n with
  | Some x => let z := Qfloor x in if Qeq_bool x (inject_Z z) then Some z else None
  | None => None
  end.

(** The first two pieces of [s.split(':')]; a missing piece is [undefined],
    whose number is NaN. *)
Fixpoint split_colon (l : list Ascii.ascii) : list Ascii.ascii * option (list Ascii.ascii) :=
  match l with
  | [] => ([], None)
  | c :: l' => if is_char 58 c then ([], Some l')
               else let '(a, r) := split_colon l' in (c :: a, r)
  end.
Definition string_of (l : list Ascii.ascii) : string := foldr String EmptyString l.

Definition clock_pieces (s : string) : option num * option num :=
  let '(h, r) := split_colon (chars s) in
  (js_Number (string_of h),
   match r with
   | None => None
   | Some r => js_Number (string_of (split_colon r).1)
   end).

(** Hours and minutes of a clock time both checks of the source accept. *)
Definition clock_time (s : string) : option (Z * Z) :=
  let '(h, m) := clock_pieces s in
  match integer_of h, integer_of m with
  | Some h, Some m => if (0 <=? h) && (h <=? 23) && (0 <=? m) && (m <=? 59) then Some (h, m) else None
  | _, _ => None
  end.

(** [n] in decimal, on at least [width] digits. *)
Definition padded (width : nat) (n : Z) : string :=
  let s := pretty n in repeat_string "0" (width - String.length s) +:+ s.

(** [new Date(t).toISOString()]; years beyond four digits are signed, on six. *)
Definition toISOString (t : Z) : string :=
  let year := getUTCFullYear t in
  let ms := t mod msPerDay in
  (if (0 <=? year) && (year <=? 9999) then padded 4 year
   else (if year <? 0 then "-" else "+") +:+ padded 6 (Z.abs year))
  +:+ "-" +:+ padded 2 (getUTCMonth t + 1) +:+ "-" +:+ padded 2 (getUTCDate t)
  +:+ "T" +:+ padded 2 (ms / 3600000) +:+ ":" +:+ padded 2 (ms / 60000 mod 60)
  +:+ ":" +:+ padded 2 (ms / 1000 mod 60) +:+ "." +:+ padded 3 (ms mod 1000) +:+ "Z".

Example toISOString_examples :
  toISOString 0 = "1970-01-01T00:00:00.000Z" /\ toISOString 1789735445678 = "2026-09-18T12:44:05.678Z".
Proof. vm_compute. split; reflexivity. Qed.

(** ** Departure instants *)

(** ride-booking.service.ts *)
Definition combineDepartureDateTimeUtc (departureDate : Z) (departureTime : string) : Res Z :=
  match clock_time departureTime with
  | None => Err "INVALID_RIDE_DEPARTURE_TIME"
  | Some (hours, minutes) =>
      Ok (DateUTC (getUTCFullYear departureDate) (getUTCMonth departureDate) (getUTCDate departureDate)
            hours minutes)
  end.

(** publish-schedule.ts *)
Definition MINIMUM_PUBLISH_LEAD_MS : Z := 3 * 60 * 60 * 1000.

Definition getDepartureAtUtc (departureDate : Z) (departureTime : string) : option Z :=
  match clock_time departureTime with
  | None => None
  | Some (hours, minutes) =>
      Some (DateUTC (getUTCFullYear departureDate) (getUTCMonth departureDate) (getUTCDate departureDate)
              hours minutes)
  end.

Definition isPublishDepartureTooSoon (departureDate : Z) (departureTime : string) (now : Z) : bool :=
  match getDepartureAtUtc departureDate departureTime with
  | None => true
  | Some departureAt => departureAt - now <? MINIMUM_PUBLISH_LEAD_MS
  end.

(** ** The booking window (booking-window.ts) *)

Definition SAME_DAY_MINIMUM_BOOKING_LEAD_MS : Z := 1 * 60 * 60 * 1000.

Definition isSameUtcDay (left right : Z) : bool :=
  (getUTCFullYear left =? getUTCFullYear right) &&
  (getUTCMonth left =? getUTCMonth right) &&
  (getUTCDate left =? getUTCDate right).

Definition isBookingWindowClosed (departureAt now : Z) : bool :=
  if departureAt <=? now then true
  else isSameUtcDay departureAt now && (departureAt - now <? SAME_DAY_MINIMUM_BOOKING_LEAD_MS).

(** ** Age (utils/age.ts) *)

Definition MINIMUM_BOOKING_AGE_YEARS : Z := 8.

Definition calculateAgeYears (dob at_ : Z) : Z :=
  let age := getUTCFullYear at_ - getUTCFullYear dob in
  let monthDelta := getUTCMonth at_ - getUTCMonth dob in
  let dayDelta := getUTCDate at_ - getUTCDate dob in
  if (monthDelta <? 0) || ((monthDelta =? 0) && (dayDelta <? 0)) then age - 1 else age.

(** ** Response deadlines (request-expiry.utils.ts) *)

Definition OPTION_TO_HOURS (key : string) : option Z :=
  if decide (key = "ONE_HOUR"%string) then Some 1
  else if decide (key = "THREE_HOURS"%string) then Some 3
  else if decide (key = "SIX_HOURS"%string) then Some 6
  else if decide (key = "TWELVE_HOURS"%string) then Some 12
  else if decide (key = "TWENTY_FOUR_HOURS"%string) then Some 24
  else None.

(** [new Date(x)]: the time value is [x] truncated. *)
Definition date_of_num (x : num) : Z := if Qle_bool 0 x then Qfloor x else Qceiling x.

Definition cap (date max : Z) : Z := if max <? date then max else date.

Definition hoursUntil (departureAt now : Z) : num := ndiv (num_of_Z (departureAt - now)) (num_of_Z (60 * 60 * 1000)).

(** [now + hours * 60 * 60 * 1000] *)
Definition after_hours (now : Z) (hours : num) : Z :=
  date_of_num (nadd (num_of_Z now)
    (nmul (nmul (nmul hours (num_of_Z 60)) (num_of_Z 60)) (num_of_Z 1000))).

(** Both results: [deadlineAt] and [expiryHours]. *)
Definition defaultDeadline (departureAt now : Z) : Z * Z :=
  let hoursUntilDeparture := hoursUntil departureAt now in
  let hoursBeforeDeparture := nmax (1 # 2) (nsub hoursUntilDeparture (num_of_Z 1)) in
  (cap (after_hours now hoursBeforeDeparture) departureAt, math_round hoursBeforeDeparture).

Definition calculateDeadline (opt : option string) (departureAt now : Z) : Z * Z :=
  match truthy opt with
  | None => defaultDeadline departureAt now
  | Some o =>
      if decide (o = "BEFORE_DEPARTURE"%string) then defaultDeadline departureAt now
      else match OPTION_TO_HOURS o with
           | None => defaultDeadline departureAt now
           | Some hours => (cap (now + hours * 60 * 60 * 1000) departureAt, hours)
           end
  end.

Definition suggestDefaultOption (departureAt now : Z) : string :=
  let h := hoursUntil departureAt now in
  if nle h (num_of_Z 2) then "ONE_HOUR"
  else if nle h (num_of_Z 7) then "THREE_HOURS"
  else if nle h (num_of_Z 13) then "SIX_HOURS"
  else if nle h (num_of_Z 25) then "TWELVE_HOURS"
  else "TWENTY_FOUR_HOURS".

Record ExpiryChoice := { choice_option : string; choice_hours : Z; choice_available : bool; choice_label : string }.

Definition formatOptionLabel (key : string) : string :=
  if decide (key = "ONE_HOUR"%string) then "1 hour"
  else if decide (key = "THREE_HOURS"%string) then "3 hours"
  else if decide (key = "SIX_HOURS"%string) then "6 hours"
  else if decide (key = "TWELVE_HOURS"%string) then "12 hours"
  else if decide (key = "TWENTY_FOUR_HOURS"%string) then "24 hours"
  else key.

Definition getAvailableOptions (departureAt now : Z) : list ExpiryChoice :=
  let h := hoursUntil departureAt now in
  map (fun '(key, hours) =>
    {| choice_option := key; choice_hours := hours; choice_available := nlt (num_of_Z hours) h;
       choice_label := formatOptionLabel key |})
    [("ONE_HOUR", 1); ("THREE_HOURS", 3); ("SIX_HOURS", 6); ("TWELVE_HOURS", 12); ("TWENTY_FOUR_HOURS", 24)]%string
  ++ [ {| choice_option := "BEFORE_DEPARTURE";
          choice_hours := Z.max 1 (math_round (nsub h (num_of_Z 1)));
          choice_available := nlt (num_of_Z 1) h; choice_label := "Before departure" |} ].

(** ** OTP windows (booking-otp-expiry.ts): the clock time is not checked; NaN
    makes the dates invalid ([None]), and [setUTCHours] truncates its arguments. *)
Definition setUTCHours (date : Z) (hours minutes : Z) : Z :=
  dayOf date * msPerDay + hours * 3600000 + minutes * 60000.

Definition bookingOtpExpiries (departureDate : Z) (departureTime : string)
    (routeDurationSeconds : option Z) (now : Z) : option (Z * Z) :=
  let '(h, m) := clock_pieces departureTime in
  match h, m with
  | Some hours, Some minutes =>
      let departure := setUTCHours departureDate (date_of_num hours) (date_of_num minutes) in
      let start := Z.max now departure in
      let durationMs := Z.max 0 (default 0 routeDurationSeconds) * 1000 in
      Some (start + 6 * 3600000, start + durationMs + 24 * 3600000)
  | _, _ => None
  end.

(** ** No-show wait (no-show-window.ts, ride-operations.types.ts) *)
Definition WAIT_TIME_MINUTES : Z := 10.

Definition noShowAvailableAt (simulation : bool) (waitTimerStartedAt : option Z) : option Z :=
  match waitTimerStartedAt with
  | None => None
  | Some t => if simulation then Some t else Some (t + WAIT_TIME_MINUTES * 60000)
  end.

(** ** The calendar is a bijection *)

Lemma civil_roundtrip (day : Z) :
  let '(y, m, d) := civil_of_day day in day_of_civil y m d = day.
Proof.
  unfold civil_of_day, day_of_civil.
  set (z := day + 719468).
  assert (Ez : z = 146097 * (z / 146097) + z mod 146097) by (apply Z.div_mod; lia).
  pose proof (Z.mod_pos_bound z 146097 ltac:(lia)) as Hd.
  set (era := z / 146097) in *. set (doe := z mod 146097) in *.
  set (yoe := (doe - doe / 1460 + doe / 36524 - doe / 146096) / 365).
  assert (Hy : 0 <= yoe < 400) by (unfold yoe; split; [apply Z.div_pos | apply Z.div_lt_upper_bound];
    Z.to_euclidean_division_equations; lia).
  set (doy := doe - (365 * yoe + yoe / 4 - yoe / 100)).
  assert (Hdoy : 0 <= doy <= 365).
  { unfold doy, yoe. clearbody doe. clear -Hd. Z.to_euclidean_division_equations. lia. }
  set (mp := (5 * doy + 2) / 153).
  assert (Hmp : 0 <= mp <= 11) by (unfold mp; Z.to_euclidean_division_equations; lia).
  assert (Em : (if 1 <? (if mp <? 10 then mp + 2 else mp - 10)
                then (if mp <? 10 then mp + 2 else mp - 10) - 2
                else (if mp <? 10 then mp + 2 else mp - 10) + 10) = mp).
  { destruct (Z.ltb_spec mp 10).
    - destruct (Z.ltb_spec 1 (mp + 2)); lia.
    - destruct (Z.ltb_spec 1 (mp - 10)); lia. }
  cbv zeta. rewrite Em.
  set (m := if mp <? 10 then mp + 2 else mp - 10).
  assert (Ey : (if m <=? 1 then yoe + era * 400 + (if m <=? 1 then 1 else 0) - 1
                else yoe + era * 400 + (if m <=? 1 then 1 else 0)) = era * 400 + yoe)
    by (destruct (m <=? 1); lia).
  rewrite Ey.
  assert (E1 : (era * 400 + yoe) / 400 = era) by (Z.to_euclidean_division_equations; lia).
  assert (E2 : (era * 400 + yoe) mod 400 = yoe) by (Z.to_euclidean_division_equations; lia).
  rewrite E1, E2. subst z. unfold doy. lia.
Qed.

(** The first of January lies where ECMA-262's [DayFromYear] puts it. *)
Lemma day_from_year (y : Z) :
  day_of_civil y 0 1 = 365 * (y - 1970) + (y - 1969) / 4 - (y - 1901) / 100 + (y - 1601) / 400.
Proof. unfold day_of_civil. cbn. Z.to_euclidean_division_equations. lia. Qed.

Lemma DateUTC_of_date (t h m : Z) :
  DateUTC (getUTCFullYear t) (getUTCMonth t) (getUTCDate t) h m = dayOf t * msPerDay + h * 3600000 + m * 60000.
Proof.
  unfold DateUTC, getUTCFullYear, getUTCMonth, getUTCDate.
  pose proof (civil_roundtrip (dayOf t)) as R. destruct (civil_of_day (dayOf t)) as [[y mo] d]. cbn in *.
  rewrite R. reflexivity.
Qed.

Lemma isSameUtcDay_spec (a b : Z) : isSameUtcDay a b = (dayOf a =? dayOf b).
Proof.
  unfold isSameUtcDay, getUTCFullYear, getUTCMonth, getUTCDate.
  pose proof (civil_roundtrip (dayOf a)) as Ra. pose proof (civil_roundtrip (dayOf b)) as Rb.
  destruct (Z.eqb_spec (dayOf a) (dayOf b)) as [E|N].
  - rewrite E, !Z.eqb_refl. reflexivity.
  - destruct (civil_of_day (dayOf a)) as [[y mo] d], (civil_of_day (dayOf b)) as [[y' mo'] d']. cbn in *.
    destruct (Z.eqb_spec y y'), (Z.eqb_spec mo mo'), (Z.eqb_spec d d'); try reflexivity. subst. congruence.
Qed.

Lemma clock_time_bounds s h m : clock_time s = Some (h, m) -> 0 <= h <= 23 /\ 0 <= m <= 59.
Proof.
  unfold clock_time. destruct (clock_pieces s) as [a b].
  destruct (integer_of a) as [x|]; [|discriminate]. destruct (integer_of b) as [y|]; [|discriminate].
  destruct (_ && _) eqn:E; [|discriminate]. intros [= <- <-].
  rewrite !andb_true_iff, !Z.leb_le in E. lia.
Qed.

Lemma clock_time_pieces s h m : clock_time s = Some (h, m) ->
  integer_of (clock_pieces s).1 = Some h /\ integer_of (clock_pieces s).2 = Some m.
Proof.
  unfold clock_time. destruct (clock_pieces s) as [a b]. cbn.
  destruct (integer_of a) as [x|]; [|discriminate]. destruct (integer_of b) as [y|]; [|discriminate].
  destruct (_ && _); [|discriminate]. intros [= <- <-]. auto.
Qed.

Lemma integer_of_trunc (n : option num) (z : Z) : integer_of n = Some z ->
  exists x, n = Some x /\ date_of_num x = z.
Proof.
  destruct n as [x|]; [|discriminate]. cbn. destruct (Qeq_bool x (inject_Z (Qfloor x))) eqn:E; [|discriminate].
  intros [= <-]. exists x. split; [reflexivity|]. unfold date_of_num.
  apply Qeq_bool_iff in E. destruct (Qle_bool 0 x); [reflexivity|].
  rewrite E at 1. apply Qceiling_Z.
Qed.

(** ** Lower bound of the default deadline *)

Lemma nmax_lb (a b : num) : (a <= nmax a b)%Q.
Proof.
  unfold nmax, nle. destruct (Qle_bool a b) eqn:E; [apply Qle_bool_iff; exact E | apply Qle_refl].
Qed.

Lemma rnd_ge_Z (x : Q) (z : Z) : 0 <= z < 2 ^ 53 -> (inject_Z z <= x)%Q -> (inject_Z z <= rnd x)%Q.
Proof.
  intros Hz H. rewrite <- (rnd_Z z) by lia. apply rnd_mono; [|exact H].
  rewrite <- (Zle_Qle 0). lia.
Qed.

Lemma after_hours_lb (now : Z) (hours : num) : 0 <= now < 2 ^ 52 -> (1 # 2 <= hours)%Q ->
  now + 1800000 <= after_hours now hours.
Proof.
  intros Hn Hh. unfold after_hours, nadd, nmul, num_of_Z.
  assert (H1 : (inject_Z 30 <= rnd (hours * inject_Z 60))%Q).
  { apply rnd_ge_Z; [lia|]. change (inject_Z 60) with 60%Q. change (inject_Z 30) with 30%Q. lra. }
  set (a := rnd (hours * inject_Z 60)) in *.
  assert (H2 : (inject_Z 1800 <= rnd (a * inject_Z 60))%Q).
  { apply rnd_ge_Z; [lia|]. change (inject_Z 30) with 30%Q in H1. change (inject_Z 60) with 60%Q.
    change (inject_Z 1800) with 1800%Q. lra. }
  set (b := rnd (a * inject_Z 60)) in *.
  assert (H3 : (inject_Z 1800000 <= rnd (b * inject_Z 1000))%Q).
  { apply rnd_ge_Z; [lia|]. change (inject_Z 1800) with 1800%Q in H2. change (inject_Z 1000) with 1000%Q.
    change (inject_Z 1800000) with 1800000%Q. lra. }
  set (c := rnd (b * inject_Z 1000)) in *.
  assert (H4 : (inject_Z (now + 1800000) <= rnd (inject_Z now + c))%Q).
  { apply rnd_ge_Z; [lia|]. rewrite inject_Z_plus. lra. }
  set (d := rnd (inject_Z now + c)) in *. unfold date_of_num.
  assert (H5 : (0 <= d)%Q).
  { eapply Qle_trans; [|exact H4]. rewrite <- (Zle_Qle 0). lia. }
  apply Qle_bool_iff in H5. rewrite H5.
  rewrite <- (Qfloor_Z (now + 1800000)). apply Qfloor_resp_le. exact H4.
Qed.

(** ** Properties *)

(** One departure instant.  Booking, publishing and OTP windows agree on
    when a ride departs: for every stored date and every clock time the checks
    accept, it is that UTC day plus the hours and minutes, on the same UTC day as
    the date; for every other clock time booking throws and publishing refuses. *)
Theorem departure_instants_agree (departureDate : Z) (departureTime : string) :
  match clock_time departureTime with
  | Some (h, m) =>
      let t := dayOf departureDate * msPerDay + h * 3600000 + m * 60000 in
      combineDepartureDateTimeUtc departureDate departureTime = Ok t /\
      getDepartureAtUtc departureDate departureTime = Some t /\
      isSameUtcDay t departureDate = true /\
      (forall dur now, bookingOtpExpiries departureDate departureTime dur now =
         Some (Z.max now t + 6 * 3600000, Z.max now t + Z.max 0 (default 0 dur) * 1000 + 24 * 3600000))
  | None =>
      combineDepartureDateTimeUtc departureDate departureTime = Err "INVALID_RIDE_DEPARTURE_TIME" /\
      getDepartureAtUtc departureDate departureTime = None /\
      forall now, isPublishDepartureTooSoon departureDate departureTime now = true
  end.
Proof.
  unfold combineDepartureDateTimeUtc, isPublishDepartureTooSoon, getDepartureAtUtc.
  destruct (clock_time departureTime) as [[h m]|] eqn:E; [|auto].
  destruct (clock_time_bounds _ _ _ E) as [Hh Hm]. destruct (clock_time_pieces _ _ _ E) as [P1 P2].
  cbv zeta. rewrite DateUTC_of_date. split; [reflexivity|]. split; [reflexivity|]. split.
  - rewrite isSameUtcDay_spec. apply Z.eqb_eq. unfold dayOf, msPerDay.
    Z.to_euclidean_division_equations. lia.
  - intros dur now. unfold bookingOtpExpiries. destruct (clock_pieces departureTime) as [a b]. cbn in P1, P2.
    destruct (integer_of_trunc _ _ P1) as (x & -> & <-), (integer_of_trunc _ _ P2) as (y & -> & <-).
    reflexivity.
Qed.

(** The booking window.  A ride is closed for booking exactly when it has
    departed or departs within the hour on the current UTC day, so closing is
    final: once closed at some instant of a day it stays closed for the rest of
    that day and after departure; and a ride the publishing check accepts is open
    for booking at that moment. *)
Theorem booking_window (departureAt now : Z) :
  (isBookingWindowClosed departureAt now = true <->
     departureAt <= now \/ (dayOf departureAt = dayOf now /\ departureAt - now < 3600000)) /\
  (forall later, now <= later -> isBookingWindowClosed departureAt now = true ->
     dayOf later = dayOf now \/ departureAt <= later -> isBookingWindowClosed departureAt later = true) /\
  (forall date time, getDepartureAtUtc date time = Some departureAt ->
     isPublishDepartureTooSoon date time now = false -> isBookingWindowClosed departureAt now = false).
Proof.
  assert (S : forall n, isBookingWindowClosed departureAt n = true <->
     departureAt <= n \/ (dayOf departureAt = dayOf n /\ departureAt - n < 3600000)).
  { intros n. unfold isBookingWindowClosed, SAME_DAY_MINIMUM_BOOKING_LEAD_MS.
    rewrite isSameUtcDay_spec. destruct (Z.leb_spec departureAt n); [split; auto|].
    rewrite andb_true_iff, Z.eqb_eq, Z.ltb_lt. lia. }
  split; [apply S|]. split.
  - intros later Hl C. rewrite S in C |- *. intros [D|D]; [|auto]. destruct C as [C|[C1 C2]]; [lia|].
    destruct (Z.leb_spec departureAt later); [auto|]. right. lia.
  - intros date time E P. unfold isPublishDepartureTooSoon in P. rewrite E in P.
    apply Z.ltb_ge in P. unfold MINIMUM_PUBLISH_LEAD_MS in P.
    destruct (isBookingWindowClosed departureAt now) eqn:C; [|reflexivity]. apply S in C. lia.
Qed.

(** Response deadlines.  Whatever the rider selects (a listed option,
    nothing, or an unknown value), the driver's deadline is never after the
    departure and never earlier than half an hour from now unless the ride departs
    before; a listed number of hours gives exactly that time or the departure,
    whichever is first. *)
Theorem deadline_bounds (opt : option string) (departureAt now : Z) :
  0 <= now < 2 ^ 52 ->
  let deadlineAt := (calculateDeadline opt departureAt now).1 in
  Z.min departureAt (now + 1800000) <= deadlineAt <= departureAt /\
  (forall o h, opt = Some o -> OPTION_TO_HOURS o = Some h ->
     calculateDeadline opt departureAt now = (Z.min departureAt (now + h * 3600000), h)).
Proof.
  intros Hn. cbv zeta.
  assert (D : Z.min departureAt (now + 1800000) <= (defaultDeadline departureAt now).1 <= departureAt).
  { unfold defaultDeadline, cap. cbv zeta. cbn [fst].
    pose proof (after_hours_lb now (nmax (1 # 2) (nsub (hoursUntil departureAt now) (num_of_Z 1))) Hn
                  (nmax_lb _ _)).
    destruct (Z.ltb_spec departureAt (after_hours now (nmax (1 # 2) (nsub (hoursUntil departureAt now) (num_of_Z 1))))); lia. }
  split.
  - unfold calculateDeadline. destruct (truthy opt) as [o|]; [|exact D].
    destruct (decide _); [exact D|]. destruct (OPTION_TO_HOURS o) as [h|] eqn:E; [|exact D].
    assert (1 <= h).
    { unfold OPTION_TO_HOURS in E. repeat case_decide; simplify_eq; lia. }
    cbn [fst]. unfold cap. destruct (Z.ltb_spec departureAt (now + h * 60 * 60 * 1000)); lia.
  - intros o h -> E. unfold calculateDeadline.
    assert (T : truthy (Some o) = Some o) by (destruct o; [discriminate E | reflexivity]).
    rewrite T. rewrite decide_False by (intros ->; discriminate E). rewrite E. f_equal.
    unfold cap. destruct (Z.ltb_spec departureAt (now + h * 60 * 60 * 1000)); lia.
Qed.

(** The comment promises half of the remaining time when the departure is
    less than two hours away; ninety minutes before departure the deadline is
    half an hour from now, not forty-five minutes. *)
Theorem short_notice_deadline_is_not_half :
  exists departureAt now, departureAt - now = 90 * 60000 /\
    (calculateDeadline None departureAt now).1 = now + 30 * 60000.
Proof. exists 1700005400000, 1700000000000. split; [reflexivity | vm_compute; reflexivity]. Qed.

Lemma deadline_bounds_witness :
  calculateDeadline (Some "THREE_HOURS"%string) 1700007200000 1700000000000 = (1700007200000, 3).
Proof.
  destruct (deadline_bounds (Some "THREE_HOURS"%string) 1700007200000 1700000000000 ltac:(lia)) as [_ D].
  rewrite (D "THREE_HOURS"%string 3); reflexivity.
Defined.

(** A ride at 08:00 on 2 January 1970, seen at 07:30 and at 08:30. *)
Lemma booking_window_witness :
  isBookingWindowClosed 115200000 113400000 = true /\ isBookingWindowClosed 115200000 117000000 = true.
Proof.
  destruct (booking_window 115200000 113400000) as (_ & F & _).
  split; [vm_compute; reflexivity | apply (F 117000000); [lia | vm_compute; reflexivity | right; lia]].
Defined.
