(* ===== verification/Identity.v ===== *)
(** * Identities

    Models [utils/nameMatch.ts]: the comparison of a verified identity with the name, the
    date of birth and the gender of a profile.  A string is its UTF-8 text; the canonical
    decomposition of Unicode and the dates [new Date(s)] reads beyond ISO text are the
    parameters of [Unicode]. *)

From Stdlib Require Import ZArith Lia.
From stdpp Require Import base list option strings sets gmap.
From S2P Require Import Prelude JsNumber JsText Schema Time.

Open Scope Z_scope.

Class Unicode := { nfd : string -> string; Date_parse : string -> option Z }.

Definition ascii_in (lo hi : nat) (c : Ascii.ascii) : bool :=
  (lo <=? Ascii.nat_of_ascii c)%nat && (Ascii.nat_of_ascii c <=? hi)%nat.

(** The two bytes of a mark of U+0300-U+036F. *)
Definition isMark (a b : Ascii.ascii) : bool :=
  is_char 204 a && ascii_in 128 191 b || is_char 205 a && ascii_in 128 175 b.

Fixpoint stripMarks (l : list Ascii.ascii) : list Ascii.ascii :=
  match l with
  | a :: ((b :: l') as rest) => if isMark a b then stripMarks l' else a :: stripMarks rest
  | l => l
  end.

(** [[a-z0-9]] *)
Definition isNameChar (c : Ascii.ascii) : bool := ascii_in 97 122 c || is_digit c.

(** Pieces of two or more name characters. *)
Definition longEnough (cur : list Ascii.ascii) : list string :=
  if (2 <=? length cur)%nat then [string_of cur] else [].
Fixpoint pieces (l cur : list Ascii.ascii) : list string :=
  match l with
  | [] => longEnough cur
  | c :: l => let c := toLowerAscii c in
              if isNameChar c then pieces l (cur ++ [c]) else longEnough cur ++ pieces l []
  end.

Module DobInput.
Inductive t :=
| missing
| date (time : option Z)
| text (s : string)
| parts (day month year : option Z).
End DobInput.

Module IdentityFields.
Record t := { name : option string; dob : DobInput.t; gender : option string }.
End IdentityFields.

Module IdentityMatchResult.
Record t := { nameMatch : bool; dobMatch : option bool; genderMatch : option bool; overall : bool }.
End IdentityMatchResult.

Section identity.
Context `{Unicode}.

Definition normalizeName (input : string) : list string := pieces (stripMarks (chars (nfd input))) [].

(** The loop: [None] when a token is absent. *)
Fixpoint overlapOf (verified : gset string) (l : list string) (overlap : Z) : option Z :=
  match l with
  | [] => Some overlap
  | token :: l => if decide (token ∈ verified) then overlapOf verified l (overlap + 1) else None
  end.

Definition namesMatch (enteredName verifiedName : option string) : bool :=
  match truthy enteredName, truthy verifiedName with
  | Some enteredName, Some verifiedName =>
      let enteredTokens := normalizeName enteredName in
      let verifiedTokens := list_to_set (normalizeName verifiedName) : gset string in
      if (length enteredTokens <? 2)%nat || (size verifiedTokens <? 2)%nat then false
      else match overlapOf verifiedTokens enteredTokens 0 with
           | Some overlap => 2 <=? overlap
           | None => false
           end
  | _, _ => false
  end.

(** [l.join(' ')] *)
Fixpoint joinWords (l : list string) : string :=
  match l with
  | [] => EmptyString
  | [s] => s
  | s :: l => s +:+ " " +:+ joinWords l
  end.

Definition exactNamesMatch (enteredName verifiedName : option string) : bool :=
  match truthy enteredName, truthy verifiedName with
  | Some enteredName, Some verifiedName =>
      let entered := normalizeName enteredName in
      let verified := normalizeName verifiedName in
      if (length entered =? 0)%nat || (length verified =? 0)%nat then false
      else bool_decide (joinWords entered = joinWords verified)
  | _, _ => false
  end.

(** [YYYY-MM-DD] at the start of a text. *)
Definition isoText (l : list Ascii.ascii) : option string :=
  match l with
  | a :: b :: c :: d :: m1 :: e :: f :: m2 :: g :: h :: _ =>
      if forallb is_digit [a; b; c; d; e; f; g; h] && is_char 45 m1 && is_char 45 m2
      then Some (string_of [a; b; c; d; m1; e; f; m2; g; h]) else None
  | _ => None
  end.

Definition ymdOf (time : Z) : string := String.substring 0 10 (toISOString time).

Definition nonZero (z : option Z) : option Z := match z with Some 0 => None | z => z end.

Definition toYmd (input : DobInput.t) : option string :=
  match input with
  | DobInput.missing => None
  | DobInput.date time => ymdOf <$> time
  | DobInput.text EmptyString => None
  | DobInput.text s =>
      match isoText (trim (chars s)) with
      | Some ymd => Some ymd
      | None => ymdOf <$> Date_parse s
      end
  | DobInput.parts day month year =>
      match nonZero year, nonZero month, nonZero day with
      | Some year, Some month, Some day => Some (padded 4 year +:+ "-" +:+ padded 2 month +:+ "-" +:+ padded 2 day)
      | _, _, _ => None
      end
  end.

(** [a === b] when both are there. *)
Definition comparedFields {A} `{EqDecision A} (a b : option A) : option bool :=
  match a, b with
  | Some a, Some b => Some (bool_decide (a = b))
  | _, _ => None
  end.

Definition datesOfBirthMatch (entered verified : DobInput.t) : option bool := comparedFields (toYmd entered) (toYmd verified).

Definition normalizeGender (input : option string) : option Gender.t :=
  match truthy input with
  | None => None
  | Some input =>
      let value := toUpperCase (string_of (trim (chars input))) in
      if decide (value = "M" \/ value = "MALE")%string then Some Gender.MALE
      else if decide (value = "F" \/ value = "FEMALE")%string then Some Gender.FEMALE
      else None
  end.

Definition gendersMatch (entered verified : option string) : option bool :=
  comparedFields (normalizeGender entered) (normalizeGender verified).

Definition matchIdentity (entered verified : IdentityFields.t) : IdentityMatchResult.t :=
  let nameMatch := namesMatch (IdentityFields.name entered) (IdentityFields.name verified) in
  let dobMatch := datesOfBirthMatch (IdentityFields.dob entered) (IdentityFields.dob verified) in
  let genderMatch := gendersMatch (IdentityFields.gender entered) (IdentityFields.gender verified) in
  {| IdentityMatchResult.nameMatch := nameMatch; IdentityMatchResult.dobMatch := dobMatch;
     IdentityMatchResult.genderMatch := genderMatch;
     IdentityMatchResult.overall := nameMatch && bool_decide (dobMatch <> Some false) && bool_decide (genderMatch <> Some false) |}.

Definition matchIdentityStrict (entered verified : IdentityFields.t) : IdentityMatchResult.t :=
  let nameMatch := exactNamesMatch (IdentityFields.name entered) (IdentityFields.name verified) in
  let dobMatch := bool_decide (datesOfBirthMatch (IdentityFields.dob entered) (IdentityFields.dob verified) = Some true) in
  let genderMatch := bool_decide (gendersMatch (IdentityFields.gender entered) (IdentityFields.gender verified) = Some true) in
  {| IdentityMatchResult.nameMatch := nameMatch; IdentityMatchResult.dobMatch := Some dobMatch;
     IdentityMatchResult.genderMatch := Some genderMatch;
     IdentityMatchResult.overall := nameMatch && dobMatch && genderMatch |}.
End identity.

(** ** Tokens *)

Definition isWord (s : string) : Prop := Forall (fun c => isNameChar c = true) (chars s) /\ s <> EmptyString.

Lemma chars_string_of l : chars (string_of l) = l.
Proof. induction l as [|c l IH]; [reflexivity|]. change (c :: chars (string_of l) = c :: l). rewrite IH. reflexivity. Qed.

Lemma longEnough_words cur : Forall (fun c => isNameChar c = true) cur -> Forall isWord (longEnough cur).
Proof.
  intros F. unfold longEnough. destruct (2 <=? length cur)%nat eqn:L; [|constructor]. constructor; [|constructor].
  split; [rewrite chars_string_of; exact F|]. destruct cur; [discriminate L | discriminate].
Qed.

Lemma pieces_words l : forall cur, Forall (fun c => isNameChar c = true) cur -> Forall isWord (pieces l cur).
Proof.
  induction l as [|c l IH]; intros cur F; cbn [pieces]; [exact (longEnough_words cur F)|]. cbv zeta.
  destruct (isNameChar (toLowerAscii c)) eqn:N.
  - apply IH, Forall_app. split; [exact F | constructor; [exact N | constructor]].
  - apply Forall_app. split; [exact (longEnough_words cur F) | apply IH; constructor].
Qed.

(** Words are told apart by the spaces between them. *)
Lemma word_prefix a b x y : isWord a -> isWord b -> a +:+ " " +:+ x = b +:+ " " +:+ y -> a = b /\ x = y.
Proof.
  intros [Fa _] [Fb _]. revert b Fb. induction a as [|c a IH]; intros [|e b] Fb E; cbn in *.
  - injection E as E. split; [reflexivity | exact E].
  - injection E as <- _. inversion Fb as [|? ? N _]; subst. vm_compute in N. discriminate N.
  - injection E as -> _. inversion Fa as [|? ? N _]; subst. vm_compute in N. discriminate N.
  - injection E as -> E. inversion Fa; inversion Fb; subst. destruct (IH ltac:(assumption) b ltac:(assumption) E) as [-> ->]. auto.
Qed.

Lemma word_end a b x : isWord a -> isWord b -> a <> b +:+ " " +:+ x.
Proof.
  intros [Fa _] _ ->. revert Fa. induction b as [|c b IH]; cbn; intros F; inversion F as [|? ? N F']; subst; [vm_compute in N; discriminate N | exact (IH F')].
Qed.

Lemma joinWords_inj l : forall k, Forall isWord l -> Forall isWord k -> joinWords l = joinWords k -> l = k.
Proof.
  assert (Cons : forall s t l, joinWords (s :: t :: l) = s +:+ " " +:+ (joinWords (t :: l))) by reflexivity.
  induction l as [|s l IH]; intros [|t k] Fl Fk E; [reflexivity|..].
  - inversion Fk as [|? ? [_ N] _]; subst. destruct k; [contradiction (N (eq_sym E))|]. rewrite Cons in E. destruct t; [contradiction | discriminate E].
  - inversion Fl as [|? ? [_ N] _]; subst. destruct l; [contradiction (N E)|]. rewrite Cons in E. destruct s; [contradiction | discriminate E].
  - inversion Fl as [|? ? Ws Fl']; inversion Fk as [|? ? Wt Fk']; subst. destruct l as [|s2 l], k as [|t2 k].
    + cbn in E. congruence.
    + rewrite Cons in E. contradiction (word_end s t _ Ws Wt E).
    + rewrite Cons in E. contradiction (word_end t s _ Wt Ws (eq_sym E)).
    + rewrite !Cons in E. destruct (word_prefix s t _ _ Ws Wt E) as [-> E']. f_equal. exact (IH _ Fl' Fk' E').
Qed.

(** ** What the comparisons decide *)

Section theorems.
Context `{Unicode}.

Lemma normalizeName_words s : Forall isWord (normalizeName s).
Proof. apply pieces_words. constructor. Qed.

(** The tokens of a name that is there and has one. *)
Definition tokensOf (name : option string) : option (list string) :=
  match truthy name with
  | Some s => match normalizeName s with [] => None | l => Some l end
  | None => None
  end.

Lemma exactNamesMatch_tokens a b :
  exactNamesMatch a b = true <-> exists l, tokensOf a = Some l /\ tokensOf b = Some l.
Proof.
  unfold exactNamesMatch, tokensOf. destruct (truthy a) as [x|]; [|split; [discriminate | intros (l & E & _); discriminate E]].
  destruct (truthy b) as [y|]; [|split; [discriminate | intros (l & _ & E); discriminate E]]. cbv zeta.
  pose proof (normalizeName_words x) as Wx. pose proof (normalizeName_words y) as Wy.
  destruct (normalizeName x) as [|s l]; [split; [discriminate | intros (? & E & _); discriminate E]|].
  destruct (normalizeName y) as [|t k]; [split; [discriminate | intros (? & _ & E); discriminate E]|].
  cbn [length Nat.eqb orb]. rewrite bool_decide_eq_true. split.
  - intros E. apply joinWords_inj in E; [|assumption..]. exists (s :: l). rewrite <- E. auto.
  - intros (m & [= <-] & [= <- <-]). reflexivity.
Qed.

Lemma overlapOf_all (verified : gset string) l n :
  overlapOf verified l n = if decide (Forall (fun t => t ∈ verified) l) then Some (n + Z.of_nat (length l)) else None.
Proof.
  revert n. induction l as [|t l IH]; intros n; cbn [overlapOf].
  - rewrite decide_True by constructor. f_equal. cbn. lia.
  - rewrite IH. destruct (decide (t ∈ verified)) as [I|N].
    + destruct (decide (Forall _ l)) as [F|F]; [rewrite decide_True by (constructor; assumption); f_equal; cbn [length]; lia|].
      rewrite decide_False; [reflexivity|]. intros F'. apply F. inversion F'; assumption.
    + rewrite decide_False; [reflexivity|]. intros F'. apply N. inversion F'; assumption.
Qed.

(** The names of a lenient match. *)
Lemma namesMatch_tokens a b :
  namesMatch a b = true <-> exists x y, truthy a = Some x /\ truthy b = Some y /\ (2 <= length (normalizeName x))%nat /\
    (2 <= size (list_to_set (normalizeName y) : gset string))%nat /\ (forall t, In t (normalizeName x) -> In t (normalizeName y)).
Proof.
  unfold namesMatch. destruct (truthy a) as [x|]; [|split; [discriminate | intros (? & ? & E & _); discriminate E]].
  destruct (truthy b) as [y|]; [|split; [discriminate | intros (? & ? & _ & E & _); discriminate E]]. cbv zeta.
  rewrite overlapOf_all.
  assert (Sub : Forall (fun t => t ∈ (list_to_set (normalizeName y) : gset string)) (normalizeName x) <->
                forall t, In t (normalizeName x) -> In t (normalizeName y)).
  { rewrite Forall_forall. setoid_rewrite elem_of_list_to_set. split; intros F t; specialize (F t); rewrite !list_elem_of_In in *; exact F. }
  destruct (_ || _) eqn:L.
  - split; [discriminate|]. intros (? & ? & [= <-] & [= <-] & L1 & L2 & _). apply orb_true_iff in L as [L|L]; apply Nat.ltb_lt in L; lia.
  - apply orb_false_iff in L as [L1%Nat.ltb_ge L2%Nat.ltb_ge]. destruct (decide _) as [F|F].
    + split; [intros _; exists x, y; rewrite <- Sub; auto | intros _; apply Z.leb_le; lia].
    + split; [discriminate|]. intros (? & ? & [= <-] & [= <-] & _ & _ & S). apply Sub in S. contradiction.
Qed.

Lemma comparedFields_same {A} `{EqDecision A} (a b : option A) : comparedFields a b = Some true <-> exists x, a = Some x /\ b = Some x.
Proof.
  destruct a as [x|], b as [y|]; cbn; split; try discriminate; try (intros (? & ? & ?); congruence).
  - intros [= E%bool_decide_eq_true]. subst. eauto.
  - intros (? & [= <-] & [= <-]). rewrite bool_decide_eq_true_2; reflexivity.
Qed.

(** Two different tokens, counted or named. *)
Lemma two_tokens (l : list string) :
  (2 <= size (list_to_set l : gset string))%nat <-> exists s t, In s l /\ In t l /\ s <> t.
Proof.
  split.
  - intros S. destruct l as [|a l]; [cbn in S; rewrite size_empty in S; lia|].
    destruct (decide (Forall (fun t => t = a) l)) as [F|F].
    + exfalso. assert (Sub : (list_to_set (a :: l) : gset string) ⊆ {[a]}).
      { intros u Iu%elem_of_list_to_set. rewrite Forall_forall in F. apply elem_of_singleton. inversion Iu; subst; auto. }
      apply subseteq_size in Sub. rewrite size_singleton in Sub. lia.
    + apply not_Forall_Exists in F; [|solve_decision]. apply Exists_exists in F as (t & It & N). exists a, t.
      split; [left; reflexivity|]. split; [right; apply list_elem_of_In, It | cbn in N; congruence].
  - intros (s & t & Is & It & N). transitivity (size ({[s; t]} : gset string)).
    + rewrite size_union by set_solver. rewrite !size_singleton. lia.
    + apply subseteq_size. intros u Iu. apply elem_of_list_to_set, list_elem_of_In. rewrite elem_of_union, !elem_of_singleton in Iu.
      destruct Iu as [-> | ->]; assumption.
Qed.

(** C36.  The check of a licence passes exactly when the names have the same tokens in the same
    order, and date of birth and gender are known on both sides and equal; whoever passes it
    passes the lenient check exactly when the name has two different tokens. *)
Theorem strict_match_exact (entered verified : IdentityFields.t) :
  (IdentityMatchResult.overall (matchIdentityStrict entered verified) = true <->
    (exists l, tokensOf (IdentityFields.name entered) = Some l /\ tokensOf (IdentityFields.name verified) = Some l) /\
    (exists d, toYmd (IdentityFields.dob entered) = Some d /\ toYmd (IdentityFields.dob verified) = Some d) /\
    (exists g, normalizeGender (IdentityFields.gender entered) = Some g /\ normalizeGender (IdentityFields.gender verified) = Some g)) /\
  (IdentityMatchResult.overall (matchIdentityStrict entered verified) = true ->
   (IdentityMatchResult.overall (matchIdentity entered verified) = true <->
    exists l s t, tokensOf (IdentityFields.name entered) = Some l /\ In s l /\ In t l /\ s <> t)).
Proof.
  assert (Iff : IdentityMatchResult.overall (matchIdentityStrict entered verified) = true <->
    (exists l, tokensOf (IdentityFields.name entered) = Some l /\ tokensOf (IdentityFields.name verified) = Some l) /\
    (exists d, toYmd (IdentityFields.dob entered) = Some d /\ toYmd (IdentityFields.dob verified) = Some d) /\
    (exists g, normalizeGender (IdentityFields.gender entered) = Some g /\ normalizeGender (IdentityFields.gender verified) = Some g)).
  { cbn. rewrite !andb_true_iff, !bool_decide_eq_true, exactNamesMatch_tokens. unfold datesOfBirthMatch, gendersMatch.
    rewrite !comparedFields_same. tauto. }
  split; [exact Iff|]. rewrite Iff. intros ((l & E1 & E2) & D & G).
  assert (C1 : datesOfBirthMatch (IdentityFields.dob entered) (IdentityFields.dob verified) = Some true) by (apply comparedFields_same, D).
  assert (C2 : gendersMatch (IdentityFields.gender entered) (IdentityFields.gender verified) = Some true) by (apply comparedFields_same, G).
  transitivity (exists s t, In s l /\ In t l /\ s <> t).
  2: { split; [intros (s & t & W); exists l, s, t; auto | intros (l' & s & t & E & W); exists s, t; congruence || (assert (l' = l) as <- by congruence; exact W)]. }
  cbn. rewrite C1, C2, !andb_true_iff, !bool_decide_eq_true, namesMatch_tokens. unfold tokensOf in E1, E2.
  destruct (truthy (IdentityFields.name entered)) as [x|]; [|discriminate E1].
  destruct (truthy (IdentityFields.name verified)) as [y|]; [|discriminate E2].
  assert (Tx : normalizeName x = l) by (destruct (normalizeName x); [discriminate E1 | congruence]).
  assert (Ty : normalizeName y = l) by (destruct (normalizeName y); [discriminate E2 | congruence]).
  split.
  - intros [[(x' & y' & [= <-] & [= <-] & _ & S & _) _] _]. rewrite Ty in S. apply two_tokens, S.
  - intros T. split; [split|]; [|discriminate..]. exists x, y. rewrite Tx, Ty. apply two_tokens in T as S. destruct T as (s & t & Is & It & N).
    repeat split; [|exact S | auto].
    destruct l as [|a [|b l]]; [destruct Is | | cbn; lia]. destruct Is as [<-|[]], It as [<-|[]]. contradiction.
Qed.
End theorems.

(** A repeated surname passes for two tokens. *)
Definition demo_unicode : Unicode := {| nfd := fun s => s; Date_parse := fun _ => None |}.
Example names_compared :
  map (fun n => (@namesMatch demo_unicode (Some n) (Some "Mari-Liis Tamm"), @exactNamesMatch demo_unicode (Some n) (Some "Mari-Liis Tamm")))
    ["mari liis tamm"; "Tamm Liis"; "Tamm"; "Tamm Tamm"; "Jaan Tamm"]%string
  = [(true, true); (true, false); (false, false); (true, false); (false, false)].
Proof. vm_compute. reflexivity. Qed.
