(* ===== verification/Segment.v ===== *)
(** * Segments of a ride

    Models [modules/search-ride/segment-view.utils.ts]: the points of a ride with their
    cumulative prices and the view of the part of the ride a rider books.  The signed token
    that carries a segment from search to booking is in [ViewToken].

    The share of the driver's route a segment covers is measured on the decoded polyline; it is
    the parameter [routeSharesBetween] of the definitions here, defined in [Search], and does
    not enter prices or positions. *)

From Stdlib Require Import ZArith QArith Qabs Sorted Lia Lqa.
From stdpp Require Import base list option strings.
From S2P Require Import Prelude JsNumber Schema Store Time.

Open Scope Z_scope.

Inductive SegmentPointRef :=
| origin
| destination
| waypoint (id : string).
#[global] Instance SegmentPointRef_eq_dec : EqDecision SegmentPointRef.
Proof. solve_decision. Defined.

Module SegmentPoint.
Record t := {
  ref : SegmentPointRef;
  waypointId : option string;
  waypointType : option WaypointType.t;
  placeId : string;
  address : string;
  lat : num;
  lng : num;
  cumulativePrice : num;
  position : Z;
}.
End SegmentPoint.

Module SegmentView.
Record t := {
  originPlaceId : string;
  originAddress : string;
  originLat : num;
  originLng : num;
  destinationPlaceId : string;
  destinationAddress : string;
  destinationLat : num;
  destinationLng : num;
  basePricePerSeat : num;
  routeDistanceMeters : option Z;
  routeDurationSeconds : option Z;
  departureTime : option string;
  context_rideId : string;
  pickupWaypointId : option string;
  dropoffWaypointId : option string;
  pickupCumulativePrice : num;
  dropCumulativePrice : num;
  segmentFare : num;
}.
End SegmentView.

(** A ride with its waypoints. *)
Record SegmentRide := { seg_ride : Ride.t; seg_waypoints : list RideWaypoint.t }.

(** ** Cumulative prices *)

(** How many places after the missing price the next known one is. *)
Fixpoint distance_to_next (prices : list (option num)) : nat * num :=
  match prices with
  | Some p :: _ => (1%nat, p)
  | None :: rest => let '(n, p) := distance_to_next rest in (S n, p)
  | [] => (1%nat, num_of_Z 0)
  end.

(** [Math.round((previousPrice + step * (index - previous)) * 100) / 100] *)
Definition interpolate (previousPrice nextPrice : num) (gap : Z) : num :=
  let step := ndiv (nsub nextPrice previousPrice) (num_of_Z gap) in
  of_cents (to_cents (nadd previousPrice (nmul step (num_of_Z 1)))).

(** The loop from left to right: the point before a missing price has been
    filled when it is reached, so it is the previous priced point. *)
Fixpoint fill_from (previousPrice : num) (prices : list (option num)) : list num :=
  match prices with
  | [] => []
  | Some p :: rest => p :: fill_from p rest
  | None :: rest =>
      let '(n, nextPrice) := distance_to_next rest in
      let p := interpolate previousPrice nextPrice (Z.of_nat n + 1) in
      p :: fill_from p rest
  end.

Definition fillMissingCumulativePrices (prices : list (option num)) : list num :=
  match prices with
  | Some first :: rest => first :: fill_from first rest
  | _ => []
  end.

Definition sortedWaypoints (ride : SegmentRide) : list RideWaypoint.t :=
  sort_by RideWaypoint.orderIndex (seg_waypoints ride).

(** The middle points, numbered from [i]. *)
Fixpoint waypointPoints (ws : list RideWaypoint.t) (prices : list num) (i : Z) : list SegmentPoint.t :=
  match ws with
  | [] => []
  | w :: ws' =>
      {| SegmentPoint.ref := waypoint (RideWaypoint.id w);
         SegmentPoint.waypointId := Some (RideWaypoint.id w);
         SegmentPoint.waypointType := Some (RideWaypoint.waypointType w);
         SegmentPoint.placeId := RideWaypoint.placeId w;
         SegmentPoint.address := RideWaypoint.address w;
         SegmentPoint.lat := RideWaypoint.lat w;
         SegmentPoint.lng := RideWaypoint.lng w;
         SegmentPoint.cumulativePrice := nth 0 prices (num_of_Z 0);
         SegmentPoint.position := i |} :: waypointPoints ws' (tail prices) (i + 1)
  end.

Definition buildSegmentPoints (ride : SegmentRide) : list SegmentPoint.t :=
  let r := seg_ride ride in
  let segmentWaypoints := sortedWaypoints ride in
  let cumulativePrices := fillMissingCumulativePrices
    ([Some (num_of_Z 0)] ++ map RideWaypoint.pricePerSeat segmentWaypoints ++ [Some (Ride.basePricePerSeat r)]) in
  [ {| SegmentPoint.ref := origin; SegmentPoint.waypointId := None; SegmentPoint.waypointType := None;
       SegmentPoint.placeId := Ride.originPlaceId r; SegmentPoint.address := Ride.originAddress r;
       SegmentPoint.lat := Ride.originLat r; SegmentPoint.lng := Ride.originLng r;
       SegmentPoint.cumulativePrice := nth 0 cumulativePrices (num_of_Z 0);
       SegmentPoint.position := 0 |} ] ++
  waypointPoints segmentWaypoints (tail cumulativePrices) 1 ++
  [ {| SegmentPoint.ref := destination; SegmentPoint.waypointId := None; SegmentPoint.waypointType := None;
       SegmentPoint.placeId := Ride.destinationPlaceId r; SegmentPoint.address := Ride.destinationAddress r;
       SegmentPoint.lat := Ride.destinationLat r; SegmentPoint.lng := Ride.destinationLng r;
       SegmentPoint.cumulativePrice := nth (length segmentWaypoints + 1) cumulativePrices (num_of_Z 0);
       SegmentPoint.position := Z.of_nat (length segmentWaypoints) + 1 |} ].

(** ** Clock times *)

Definition show_digit (d : Z) : string :=
  String (Ascii.ascii_of_nat (Z.to_nat (48 + d))) EmptyString.
(** [String(n).padStart(2, '0')] for a number below 100. *)
Definition pad2 (n : Z) : string := show_digit (n / 10) +:+ show_digit (n mod 10).

(** Clock times are stored as whole hours and minutes; anything else is left
    alone, as the source leaves what is not a number. *)
Definition shiftClockTime (time : string) (seconds : num) : string :=
  let '(h, m) := clock_pieces time in
  match integer_of h, integer_of m with
  | Some hours, Some minutes =>
      let shifted := Z.rem (hours * 60 + minutes + math_round (ndiv seconds (num_of_Z 60))) (24 * 60) in
      let wrapped := Z.rem (shifted + 24 * 60) (24 * 60) in
      pad2 (wrapped / 60) +:+ ":" +:+ pad2 (Z.rem wrapped 60)
  | _, _ => time
  end.

Section view.
(** [{ pickupShare, legShare }] of a segment on the ride's route, if it has one. *)
Variable routeSharesBetween : Ride.t -> SegmentPoint.t -> SegmentPoint.t -> option (num * num).

Definition segmentRouteMetrics (ride : Ride.t) (pickup drop : SegmentPoint.t)
    : option Z * option Z * option string :=
  let rideDepartureTime := Ride.departureTime ride in
  if bool_decide (SegmentPoint.ref pickup = origin) && bool_decide (SegmentPoint.ref drop = destination) then
    (Ride.routeDistanceMeters ride, Ride.routeDurationSeconds ride, Some rideDepartureTime)
  else
    match routeSharesBetween ride pickup drop with
    | None => (None, None, None)
    | Some (pickupShare, legShare) =>
        ((fun m => math_round (nmul (num_of_Z m) legShare)) <$> Ride.routeDistanceMeters ride,
         (fun s => math_round (nmul (num_of_Z s) legShare)) <$> Ride.routeDurationSeconds ride,
         match truthy (Some rideDepartureTime), Ride.routeDurationSeconds ride with
         | Some time, Some s => Some (shiftClockTime time (nmul (num_of_Z s) pickupShare))
         | _, _ => Some rideDepartureTime
         end)
    end.

Definition findPointByRef (points : list SegmentPoint.t) (ref : option SegmentPointRef) : option SegmentPoint.t :=
  match ref with
  | None => None
  | Some ref => List.find (fun p => bool_decide (SegmentPoint.ref p = ref)) points
  end.

Inductive Role := PickupRole | DropoffRole.

Definition normalizeFarePoint (points : list SegmentPoint.t) (point : SegmentPoint.t) (role : Role)
    : SegmentPoint.t :=
  match role with
  | PickupRole =>
      if decide (SegmentPoint.waypointType point = Some WaypointType.PICKUP)
      then default point (findPointByRef points (Some origin)) else point
  | DropoffRole =>
      if decide (SegmentPoint.waypointType point = Some WaypointType.DROPOFF)
      then default point (findPointByRef points (Some destination)) else point
  end.

Definition resolveSegmentView (ride : SegmentRide) (points : list SegmentPoint.t)
    (pickupRef dropRef : option SegmentPointRef) : option SegmentView.t :=
  match findPointByRef points pickupRef, findPointByRef points dropRef with
  | Some pickup, Some drop =>
      if SegmentPoint.position drop <=? SegmentPoint.position pickup then None
      else
        let farePickup := normalizeFarePoint points pickup PickupRole in
        let fareDrop := normalizeFarePoint points drop DropoffRole in
        let segmentFare := nsub (SegmentPoint.cumulativePrice fareDrop) (SegmentPoint.cumulativePrice farePickup) in
        if nlt segmentFare (num_of_Z 0) then None
        else
          let '(distance, duration, departure) := segmentRouteMetrics (seg_ride ride) pickup drop in
          Some {| SegmentView.originPlaceId := SegmentPoint.placeId pickup;
                  SegmentView.originAddress := SegmentPoint.address pickup;
                  SegmentView.originLat := SegmentPoint.lat pickup;
                  SegmentView.originLng := SegmentPoint.lng pickup;
                  SegmentView.destinationPlaceId := SegmentPoint.placeId drop;
                  SegmentView.destinationAddress := SegmentPoint.address drop;
                  SegmentView.destinationLat := SegmentPoint.lat drop;
                  SegmentView.destinationLng := SegmentPoint.lng drop;
                  SegmentView.basePricePerSeat := segmentFare;
                  SegmentView.routeDistanceMeters := distance;
                  SegmentView.routeDurationSeconds := duration;
                  SegmentView.departureTime := departure;
                  SegmentView.context_rideId := Ride.id (seg_ride ride);
                  SegmentView.pickupWaypointId := SegmentPoint.waypointId pickup;
                  SegmentView.dropoffWaypointId := SegmentPoint.waypointId drop;
                  SegmentView.pickupCumulativePrice := SegmentPoint.cumulativePrice farePickup;
                  SegmentView.dropCumulativePrice := SegmentPoint.cumulativePrice fareDrop;
                  SegmentView.segmentFare := segmentFare |}
  | _, _ => None
  end.
End view.

(** ** Interpolated prices *)

Definition price_cap : Z := 1000000000.

Lemma interpolate_between (a b gap : Z) : 0 <= a -> a <= b -> b <= price_cap -> 2 <= gap < 2 ^ 40 ->
  exists c, interpolate (of_cents a) (of_cents b) gap = of_cents c /\ a <= c <= b.
Proof.
  unfold price_cap. intros Ha Hab Hb Hg. unfold interpolate. cbv zeta.
  eexists. split; [reflexivity|]. unfold nadd, nsub, nmul, ndiv, num_of_Z.
  assert (Ea : (Qabs (of_cents a - inject_Z a * (1 # 100)) <= 1 # 10000)%Q)
    by (apply of_cents_error; unfold wide_cents; lia).
  assert (Eb : (Qabs (of_cents b - inject_Z b * (1 # 100)) <= 1 # 10000)%Q)
    by (apply of_cents_error; unfold wide_cents; lia).
  assert (M : (of_cents a <= of_cents b)%Q) by (apply of_cents_mono; lia).
  assert (Pa : (0 <= of_cents a)%Q) by (change 0%Q with (of_cents 0); apply of_cents_mono; lia).
  assert (Ca : (0 <= inject_Z a)%Q) by (rewrite <- (Zle_Qle 0); lia).
  assert (Cab : (inject_Z a <= inject_Z b)%Q) by (rewrite <- Zle_Qle; lia).
  assert (Cb : (inject_Z b <= 1000000000)%Q).
  { change 1000000000%Q with (inject_Z 1000000000). rewrite <- Zle_Qle. lia. }
  assert (Cg : (2 <= inject_Z gap)%Q) by (change 2%Q with (inject_Z 2); rewrite <- Zle_Qle; lia).
  apply Qabs_Qle_condition in Ea, Eb.
  generalize dependent (of_cents a). intros u Eu. generalize dependent (of_cents b). intros v Ev M Pu.
  (* the difference *)
  pose proof (rnd_abs (v - u) ltac:(lra) ltac:(lra)) as R1.
  assert (P1 : (0 <= rnd (v - u))%Q) by (apply rnd_nonneg; lra).
  generalize dependent (rnd (v - u)). intros d R1 P1. apply Qabs_Qle_condition in R1.
  (* the step, at most half of it *)
  assert (D0 : (0 <= d / inject_Z gap)%Q) by (apply Qle_shift_div_l; lra).
  assert (D1 : (d / inject_Z gap <= d * (1 # 2))%Q) by (apply Qle_shift_div_r; nra).
  generalize dependent (d / inject_Z gap)%Q. intros q D0 D1.
  pose proof (rnd_abs q D0 ltac:(lra)) as R2. assert (P2 : (0 <= rnd q)%Q) by (apply rnd_nonneg; exact D0).
  generalize dependent (rnd q). intros w R2 P2. apply Qabs_Qle_condition in R2.
  pose proof (rnd_abs (w * inject_Z 1) ltac:(change (inject_Z 1) with 1%Q; lra)
    ltac:(change (inject_Z 1) with 1%Q; lra)) as R3.
  assert (P3 : (0 <= rnd (w * inject_Z 1))%Q) by (apply rnd_nonneg; change (inject_Z 1) with 1%Q; lra).
  generalize dependent (rnd (w * inject_Z 1)). intros x R3 P3. apply Qabs_Qle_condition in R3.
  change (inject_Z 1) with 1%Q in R3.
  pose proof (rnd_abs (u + x) ltac:(lra) ltac:(lra)) as R4.
  assert (P4 : (0 <= rnd (u + x))%Q) by (apply rnd_nonneg; lra).
  generalize dependent (rnd (u + x)). intros y R4 P4. apply Qabs_Qle_condition in R4.
  apply to_cents_between; [exact Ha | unfold wide_cents; lia | lra | lra | exact P4].
Qed.

(** The known prices of a list, in order. *)
Definition known (ps : list (option Z)) : list Z := omap id ps.

(** Known prices do not decrease. *)
Definition rising (ps : list (option Z)) : Prop := StronglySorted Z.le (known ps).

(** [zs] completes [ps]: the known prices are kept. *)
Definition completes (ps : list (option Z)) (zs : list Z) : Prop :=
  Forall2 (fun p z => p = None \/ p = Some z) ps zs.

Lemma distance_to_next_known (ps : list (option Z)) :
  known ps <> [] -> exists n b, distance_to_next (map (option_map of_cents) ps) = (n, of_cents b) /\
    (1 <= n <= length ps)%nat /\ head (known ps) = Some b.
Proof.
  induction ps as [|[p|] ps IH]; [contradiction| |]; intros Hk; cbn.
  - exists 1%nat, p. repeat split; lia.
  - destruct (IH Hk) as (n & b & E & Hn & Hb). rewrite E. exists (S n), b. repeat split; [lia | lia | exact Hb].
Qed.

Lemma fill_from_rising (ps : list (option Z)) (a : Z) :
  0 <= a -> rising (Some a :: ps) -> Forall (fun b => b <= price_cap) (known ps) ->
  (forall l, ps = l ++ [None] -> False) -> Z.of_nat (length ps) < 2 ^ 30 ->
  exists zs, fill_from (of_cents a) (map (option_map of_cents) ps) = map of_cents zs /\
    completes ps zs /\ StronglySorted Z.le (a :: zs).
Proof.
  revert a. induction ps as [|[p|] ps IH]; intros a Ha Hr Hc Hl Hn.
  - exists []. repeat split; [constructor | repeat constructor].
  - assert (Hap : a <= p). { inversion Hr as [|? ? _ F]; subst. inversion F; assumption. }
    destruct (IH p) as (zs & E & C & S).
    + lia.
    + inversion Hr; assumption.
    + inversion Hc; assumption.
    + intros l El. apply (Hl (Some p :: l)). rewrite El. reflexivity.
    + cbn [length] in Hn. lia.
    + exists (p :: zs). cbn. rewrite E. split; [reflexivity|]. split; [constructor; auto|].
      constructor; [exact S|]. constructor; [exact Hap|].
      inversion S as [|? ? _ F]; subst. eapply Forall_impl; [exact F|]. cbv beta. lia.
  - assert (Hk : known ps <> []).
    { intros E0. destruct ps as [|q ps'] using rev_ind; [exact (Hl [] eq_refl)|]. clear IHps'.
      destruct q as [q|]; [|exact (Hl (None :: ps') eq_refl)].
      unfold known in E0. rewrite omap_app in E0. destruct (omap id ps'); discriminate. }
    destruct (distance_to_next_known ps Hk) as (n & b & E & Hn' & Hb).
    assert (Hab : a <= b /\ b <= price_cap /\ rising (Some b :: ps)).
    { change (known (None :: ps)) with (known ps) in *. unfold rising in *.
      change (known (Some a :: None :: ps)) with (a :: known ps) in Hr.
      change (known (Some b :: ps)) with (b :: known ps).
      destruct (known ps) as [|b' bs] eqn:Eb; [contradiction|]. cbn in Hb. injection Hb as ->.
      inversion Hr as [|? ? Hs F]; subst. inversion F; inversion Hc; subst.
      repeat split; [lia | lia |]. constructor; [exact Hs|]. constructor; [lia|].
      inversion Hs; assumption. }
    destruct Hab as (Hab & Hbc & Hr').
    destruct (interpolate_between a b (Z.of_nat n + 1) Ha Hab Hbc) as (c & Ec & Hac).
    { cbn [length] in Hn. lia. }
    destruct (IH c) as (zs & E' & C & S).
    + lia.
    + unfold rising in *. change (known (Some b :: ps)) with (b :: known ps) in Hr'.
      change (known (Some c :: ps)) with (c :: known ps).
      inversion Hr' as [|? ? Hs F]; subst. constructor; [exact Hs|].
      eapply Forall_impl; [exact F|]. cbv beta. lia.
    + exact Hc.
    + intros l El. apply (Hl (None :: l)). rewrite El. reflexivity.
    + cbn [length] in Hn. lia.
    + exists (c :: zs). cbn [map option_map fill_from]. rewrite E, Ec, E'. split; [reflexivity|].
      split; [constructor; auto|]. constructor; [exact S|]. constructor; [lia|].
      inversion S as [|? ? _ F]; subst. eapply Forall_impl; [exact F|]. cbv beta. lia.
Qed.

(** ** Points of a ride priced in whole cents *)

(** The prices of the ride's points: [ps] on the waypoints in route order, and
    the full fare, known prices not decreasing. *)
Record RidePrices (ride : SegmentRide) (ps : list (option Z)) (full : Z) : Prop := {
  rp_waypoints : map RideWaypoint.pricePerSeat (sortedWaypoints ride) = map (option_map of_cents) ps;
  rp_full : Ride.basePricePerSeat (seg_ride ride) = of_cents full;
  rp_rising : rising (Some 0 :: ps ++ [Some full]);
  rp_cap : full <= price_cap;
  rp_size : Z.of_nat (length ps) < 2 ^ 20;
}.

Lemma completes_length ps zs : completes ps zs -> length zs = length ps.
Proof. intros C. symmetry. eapply Forall2_length, C. Qed.

Lemma known_app a b : known (a ++ b) = known a ++ known b.
Proof. apply omap_app. Qed.

Lemma fill_ride ride ps full : RidePrices ride ps full -> exists zs,
  fillMissingCumulativePrices ([Some (num_of_Z 0)] ++ map RideWaypoint.pricePerSeat (sortedWaypoints ride)
      ++ [Some (Ride.basePricePerSeat (seg_ride ride))]) = map of_cents zs /\
  completes (Some 0 :: ps ++ [Some full]) zs /\ StronglySorted Z.le zs.
Proof.
  intros [Ew Ef Hr Hc Hs]. rewrite Ew, Ef.
  destruct (fill_from_rising (ps ++ [Some full]) 0) as (zs & E & C & S).
  - lia.
  - exact Hr.
  - unfold rising in Hr. change (known (Some 0 :: ps ++ [Some full])) with (0 :: known (ps ++ [Some full])) in Hr.
    rewrite known_app in *. apply Forall_app. split; [|constructor; [exact Hc | constructor]].
    inversion Hr as [|? ? Hss _]; subst. clear -Hss Hc.
    induction (known ps) as [|k l IH]; [constructor|]. inversion Hss as [|? ? H1 H2]; subst.
    constructor; [|apply IH; exact H1]. apply Forall_app in H2 as [_ H2]. inversion H2; subst. lia.
  - intros l El. apply app_inj_tail in El as [_ [=]].
  - rewrite length_app. cbn. lia.
  - exists (0 :: zs). split; [|split; [constructor; [right; reflexivity | exact C] | exact S]].
    cbn [app fillMissingCumulativePrices].
    replace (map (option_map of_cents) ps ++ [Some (of_cents full)])
      with (map (option_map of_cents) (ps ++ [Some full])) by (rewrite map_app; reflexivity).
    assert (E0 : num_of_Z 0 = of_cents 0) by (vm_compute; reflexivity).
    rewrite E0, E. reflexivity.
Qed.

(** The price of a point is that of its position. *)
Definition priced (zs : list Z) (p : SegmentPoint.t) : Prop := exists i,
  SegmentPoint.position p = Z.of_nat i /\ (i < length zs)%nat /\
  SegmentPoint.cumulativePrice p = of_cents (nth i zs 0).

Lemma tail_map {A B} (f : A -> B) l : tail (map f l) = map f (tail l).
Proof. destruct l; reflexivity. Qed.

Lemma tail_drop {A} i (l : list A) : drop (S i) l = tail (drop i l).
Proof. revert i. induction l as [|x l IH]; intros [|i]; try reflexivity. apply IH. Qed.

Lemma waypointPoints_priced zs ws prices i :
  prices = map of_cents (drop i zs) -> (i + length ws <= length zs)%nat ->
  Forall (priced zs) (waypointPoints ws prices (Z.of_nat i)).
Proof.
  revert prices i. induction ws as [|w ws IH]; intros prices i E Hl; cbn [waypointPoints]; [constructor|].
  cbn [length] in Hl. constructor.
  - exists i. cbn. split; [reflexivity|]. split; [lia|]. rewrite E.
    rewrite (nth_indep _ (num_of_Z 0) (of_cents 0)) by (rewrite length_map, length_drop; lia).
    rewrite map_nth, nth_skipn, Nat.add_0_r. reflexivity.
  - replace (Z.of_nat i + 1) with (Z.of_nat (S i)) by lia. apply IH; [|lia].
    rewrite E, tail_drop, tail_map. reflexivity.
Qed.

Lemma waypointPoints_find ws prices i ref : ref = origin \/ ref = destination ->
  List.find (fun p => bool_decide (SegmentPoint.ref p = ref)) (waypointPoints ws prices i) = None.
Proof.
  intros Hr. revert prices i. induction ws as [|w ws IH]; intros prices i; cbn; [reflexivity|].
  rewrite bool_decide_eq_false_2; [apply IH|]. destruct Hr as [->| ->]; discriminate.
Qed.

Lemma find_app {A} (p : A -> bool) l1 l2 :
  List.find p (l1 ++ l2) = match List.find p l1 with Some x => Some x | None => List.find p l2 end.
Proof. induction l1 as [|x l1 IH]; cbn; [reflexivity|]. destruct (p x); [reflexivity | exact IH]. Qed.

Lemma points_priced ride ps full : RidePrices ride ps full -> exists zs,
  StronglySorted Z.le zs /\ completes (Some 0 :: ps ++ [Some full]) zs /\
  Forall (priced zs) (buildSegmentPoints ride) /\
  (exists o, findPointByRef (buildSegmentPoints ride) (Some origin) = Some o /\ SegmentPoint.position o = 0) /\
  (exists d, findPointByRef (buildSegmentPoints ride) (Some destination) = Some d /\
     SegmentPoint.position d = Z.of_nat (length zs) - 1).
Proof.
  intros P. destruct (fill_ride ride ps full P) as (zs & E & C & S).
  assert (L : length zs = (length (sortedWaypoints ride) + 2)%nat).
  { rewrite (completes_length _ _ C). cbn [length]. rewrite length_app. cbn.
    rewrite <- (length_map RideWaypoint.pricePerSeat), (rp_waypoints _ _ _ P), length_map. lia. }
  assert (N : forall k, (k < length zs)%nat -> nth k (map of_cents zs) (num_of_Z 0) = of_cents (nth k zs 0)).
  { intros k Hk. rewrite (nth_indep _ (num_of_Z 0) (of_cents 0)) by (rewrite length_map; lia). apply map_nth. }
  exists zs. split; [exact S|]. split; [exact C|].
  unfold buildSegmentPoints. cbv zeta. rewrite E. repeat split.
  - rewrite !Forall_app. repeat split; repeat constructor.
    + exists 0%nat. cbn [SegmentPoint.position SegmentPoint.cumulativePrice].
      split; [reflexivity|]. split; [lia | apply N; lia].
    + apply (waypointPoints_priced zs _ _ 1); [|lia]. rewrite tail_drop. cbn [drop]. apply tail_map.
    + exists (length (sortedWaypoints ride) + 1)%nat. cbn [SegmentPoint.position SegmentPoint.cumulativePrice].
      split; [lia|]. split; [lia | apply N; lia].
  - eexists. split; reflexivity.
  - eexists. split.
    + cbn. rewrite find_app, waypointPoints_find by auto. reflexivity.
    + cbn. lia.
Qed.

Lemma sorted_nth (zs : list Z) i j : StronglySorted Z.le zs -> (i <= j < length zs)%nat ->
  nth i zs 0 <= nth j zs 0.
Proof.
  intros S. revert i j. induction S as [|a l S IH F]; intros i j H; [cbn in H; lia|].
  destruct i as [|i], j as [|j]; cbn [nth]; [lia | | lia | apply IH; cbn in H; lia].
  rewrite Forall_forall in F. apply F. apply list_elem_of_In, nth_In. cbn in H. lia.
Qed.

(** Prices of the first and of the last point. *)
Lemma completes_ends ps full zs : completes (Some 0 :: ps ++ [Some full]) zs ->
  nth 0 zs 0 = 0 /\ nth (length zs - 1) zs 0 = full.
Proof.
  unfold completes. intros C. inversion C as [|? z ? zs' H0 C']; subst. split.
  { destruct H0 as [[=]|[= <-]]. reflexivity. }
  apply Forall2_app_inv_l in C' as (l1 & l2 & C1 & C2 & ->).
  inversion C2 as [|? w ? l3 H1 C3]; subst. inversion C3; subst.
  destruct H1 as [[=]|[= <-]]. cbn [length]. rewrite length_app. cbn [length].
  replace (S (length l1 + 1) - 1)%nat with (S (length l1)) by lia. cbn [nth].
  rewrite app_nth2, Nat.sub_diag by lia. reflexivity.
Qed.

(** ** The theorems *)

Lemma priced_between (zs : list Z) p q : StronglySorted Z.le zs -> priced zs p -> priced zs q ->
  SegmentPoint.position p <= SegmentPoint.position q ->
  exists a b, SegmentPoint.cumulativePrice p = of_cents a /\ SegmentPoint.cumulativePrice q = of_cents b /\
    nth 0 zs 0 <= a <= b /\ b <= nth (length zs - 1) zs 0.
Proof.
  intros S (i & Ei & Li & Ci) (j & Ej & Lj & Cj) Hp.
  exists (nth i zs 0), (nth j zs 0). repeat split; try assumption; apply sorted_nth; auto; lia.
Qed.

Lemma find_point_in points ref p : findPointByRef points ref = Some p -> In p points.
Proof. destruct ref as [r|]; cbn; [intros E; eapply find_some, E | discriminate]. Qed.

(** The end of the ride a meeting point is priced as lies on the outer side of
    it, and is a priced point. *)
Lemma normalizeFarePoint_outer (zs : list Z) points p role o d :
  Forall (priced zs) points -> In p points ->
  findPointByRef points (Some origin) = Some o -> SegmentPoint.position o = 0 ->
  findPointByRef points (Some destination) = Some d -> SegmentPoint.position d = Z.of_nat (length zs) - 1 ->
  priced zs (normalizeFarePoint points p role) /\
  match role with
  | PickupRole => SegmentPoint.position (normalizeFarePoint points p role) <= SegmentPoint.position p
  | DropoffRole => SegmentPoint.position p <= SegmentPoint.position (normalizeFarePoint points p role)
  end.
Proof.
  intros F Ip Eo Po Ed Pd.
  assert (G : forall q, In q points -> priced zs q).
  { rewrite Forall_forall in F. intros q Hq. apply F, list_elem_of_In, Hq. }
  assert (B : 0 <= SegmentPoint.position p <= Z.of_nat (length zs) - 1).
  { destruct (G p Ip) as (i & Ei & Hi & _). lia. }
  assert (Go : priced zs o) by exact (G _ (find_point_in _ _ _ Eo)).
  assert (Gd : priced zs d) by exact (G _ (find_point_in _ _ _ Ed)).
  pose proof (G p Ip) as Gp.
  destruct role; unfold normalizeFarePoint; case_decide; rewrite ?Eo, ?Ed; cbn [default from_option id];
    (split; [assumption | lia]).
Qed.

(** The points of a ride carry a complete, rising list of prices in
    route order: whatever prices the stopovers are missing, the point at place
    [i] costs [nth i zs] cents, the known prices are kept, the list starts at 0,
    ends at the full fare and never decreases. *)
Theorem points_carry_rising_prices (ride : SegmentRide) (ps : list (option Z)) (full : Z) :
  RidePrices ride ps full ->
  exists zs : list Z,
    length zs = (length (seg_waypoints ride) + 2)%nat /\
    completes (Some 0 :: ps ++ [Some full]) zs /\
    StronglySorted Z.le zs /\ nth 0 zs 0 = 0 /\ nth (length zs - 1) zs 0 = full /\
    Forall (priced zs) (buildSegmentPoints ride) /\
    length (buildSegmentPoints ride) = length zs.
Proof.
  intros P. destruct (points_priced ride ps full P) as (zs & S & C & F & _ & _).
  assert (Lw : length (sortedWaypoints ride) = length (seg_waypoints ride)).
  { unfold sortedWaypoints. apply Permutation_length, sort_by_perm. }
  assert (L : length zs = (length (seg_waypoints ride) + 2)%nat).
  { rewrite (completes_length _ _ C), <- Lw. cbn [length]. rewrite length_app. cbn.
    rewrite <- (length_map RideWaypoint.pricePerSeat), (rp_waypoints _ _ _ P), length_map. lia. }
  destruct (completes_ends _ _ _ C) as [H0 H1].
  exists zs. repeat split; try assumption.
  unfold buildSegmentPoints. cbv zeta. rewrite !length_app. cbn [length].
  rewrite L, <- Lw. generalize (sortedWaypoints ride). intros ws.
  assert (W : forall pr i, length (waypointPoints ws pr i) = length ws).
  { induction ws as [|w ws IH]; intros pr i; cbn; [reflexivity | rewrite IH; reflexivity]. }
  rewrite W. lia.
Qed.

(** Every forward segment of a ride resolves, and its fare lies between 0
    and the fare of the whole ride: in cents it is the difference of the prices
    of two points of the ride.  A segment whose end is missing, or that does not
    go forward, does not resolve. *)
Theorem segment_fare_within_ride (shares : Ride.t -> SegmentPoint.t -> SegmentPoint.t -> option (num * num))
    (ride : SegmentRide) (ps : list (option Z)) (full : Z) (r1 r2 : option SegmentPointRef) :
  RidePrices ride ps full ->
  let points := buildSegmentPoints ride in
  match findPointByRef points r1, findPointByRef points r2 with
  | Some pickup, Some drop =>
      if SegmentPoint.position pickup <? SegmentPoint.position drop then
        exists view a b,
          resolveSegmentView shares ride points r1 r2 = Some view /\
          SegmentView.pickupCumulativePrice view = of_cents a /\
          SegmentView.dropCumulativePrice view = of_cents b /\
          0 <= a <= b /\ b <= full /\
          to_cents (SegmentView.basePricePerSeat view) = b - a /\
          SegmentView.segmentFare view = SegmentView.basePricePerSeat view
      else resolveSegmentView shares ride points r1 r2 = None
  | _, _ => resolveSegmentView shares ride points r1 r2 = None
  end.
Proof.
  intros P points. destruct (points_priced ride ps full P) as (zs & S & C & F & (o & Eo & Po) & (d & Ed & Pd)).
  destruct (completes_ends _ _ _ C) as [H0 H1]. pose proof (rp_cap _ _ _ P) as Cap. unfold price_cap in Cap.
  fold points in F, Eo, Ed. unfold resolveSegmentView.
  destruct (findPointByRef points r1) as [p|] eqn:Ep; [|reflexivity].
  destruct (findPointByRef points r2) as [q|] eqn:Eq; [|reflexivity].
  destruct (Z.ltb_spec (SegmentPoint.position p) (SegmentPoint.position q)) as [L|L].
  2: { rewrite (proj2 (Z.leb_le _ _) L). reflexivity. }
  rewrite (proj2 (Z.leb_gt _ _) L).
  destruct (normalizeFarePoint_outer zs points p PickupRole o d F (find_point_in _ _ _ Ep) Eo Po Ed Pd) as [Fp Lp].
  destruct (normalizeFarePoint_outer zs points q DropoffRole o d F (find_point_in _ _ _ Eq) Eo Po Ed Pd) as [Fq Lq].
  set (fp := normalizeFarePoint points p PickupRole) in *.
  set (fq := normalizeFarePoint points q DropoffRole) in *.
  destruct (priced_between zs fp fq S Fp Fq ltac:(lia)) as (a & b & Ea & Eb & Hab & Hb).
  rewrite Ea, Eb. cbv zeta.
  assert (NN : nlt (nsub (of_cents b) (of_cents a)) (num_of_Z 0) = false).
  { unfold nlt. apply negb_false_iff, Qle_bool_iff. apply rnd_nonneg.
    pose proof (of_cents_mono a b ltac:(lia)). lra. }
  rewrite NN. destruct (segmentRouteMetrics shares (seg_ride ride) p q) as [[dist dur] dep].
  do 3 eexists. split; [reflexivity|]. cbn.
  split; [reflexivity|]. split; [reflexivity|]. split; [lia|]. split; [lia|]. split; [|reflexivity].
  apply to_cents_sub; unfold wide_cents; lia.
Qed.

(** ** A ride with an unpriced and a priced stopover *)

Definition demo_waypoint (id_ : string) (ty : WaypointType.t) (order : Z) (price : option num) : RideWaypoint.t :=
  (RideWaypoint.defaults id_ 0) <| RideWaypoint.waypointType := ty |> <| RideWaypoint.orderIndex := order |>
    <| RideWaypoint.pricePerSeat := price |>.

Definition demo_segment_ride : SegmentRide :=
  {| seg_ride := (Ride.defaults "ride" 0) <| Ride.basePricePerSeat := of_cents 1000 |>
       <| Ride.departureTime := "08:30" |> <| Ride.routeDurationSeconds := Some 7200 |>;
     seg_waypoints := [ demo_waypoint "w2" WaypointType.STOPOVER 2 None;
                        demo_waypoint "w1" WaypointType.PICKUP 1 (Some (of_cents 0));
                        demo_waypoint "w3" WaypointType.STOPOVER 3 (Some (of_cents 667)) ] |}.

Definition demo_prices : list (option Z) := [Some 0; None; Some 667].

Lemma demo_segment_prices : RidePrices demo_segment_ride demo_prices 1000.
Proof.
  split; [vm_compute; reflexivity | vm_compute; reflexivity | | vm_compute; discriminate | vm_compute; reflexivity].
  unfold rising. cbn. repeat constructor; lia.
Defined.

Lemma points_carry_rising_prices_witness : exists zs : list Z,
  length zs = 5%nat /\ completes (Some 0 :: demo_prices ++ [Some 1000]) zs /\
  StronglySorted Z.le zs /\ nth 0 zs 0 = 0 /\ nth (length zs - 1) zs 0 = 1000 /\
  Forall (priced zs) (buildSegmentPoints demo_segment_ride) /\
  length (buildSegmentPoints demo_segment_ride) = length zs.
Proof. exact (points_carry_rising_prices demo_segment_ride demo_prices 1000 demo_segment_prices). Defined.

(** From the meeting point to the unpriced stopover half-way to the 6.67 one. *)
Lemma segment_fare_within_ride_witness :
  (exists view a b,
    resolveSegmentView (fun _ _ _ => None) demo_segment_ride (buildSegmentPoints demo_segment_ride)
      (Some (waypoint "w1")) (Some (waypoint "w2")) = Some view /\
    SegmentView.pickupCumulativePrice view = of_cents a /\
    SegmentView.dropCumulativePrice view = of_cents b /\ 0 <= a <= b /\ b <= 1000 /\
    to_cents (SegmentView.basePricePerSeat view) = b - a /\
    SegmentView.segmentFare view = SegmentView.basePricePerSeat view) /\
  option_map (fun v => to_cents (SegmentView.segmentFare v))
    (resolveSegmentView (fun _ _ _ => None) demo_segment_ride (buildSegmentPoints demo_segment_ride)
      (Some (waypoint "w1")) (Some (waypoint "w2"))) = Some 334.
Proof.
  split; [|vm_compute; reflexivity].
  exact (segment_fare_within_ride (fun _ _ _ => None) demo_segment_ride demo_prices 1000
    (Some (waypoint "w1")) (Some (waypoint "w2")) demo_segment_prices).
Defined.
