(* ===== verification/ViewToken.v ===== *)
(** * Signed segment tokens

    Models [modules/search-ride/view-token.utils.ts]: search results carry the
    segment they were priced for in a token that booking decodes.  HMAC-SHA256 and
    the JSON and base64url codecs of Node are the operations of [Codec]; what the
    code relies on about them appears as hypotheses. *)

From Stdlib Require Import ZArith Lia.
From stdpp Require Import base list option strings.
From S2P Require Import Prelude JsNumber JsText Store Time Segment.

Open Scope string_scope.

Class Codec := {
  SEGMENT_VIEW_TOKEN_SECRET : option string;
  JWT_SECRET : option string;
  ACCESS_TOKEN_SECRET : option string;
  production : bool;
  hmac_sha256 : string -> string -> string;
  base64url : string -> string;
  base64url_decode : string -> string;
  JSON_stringify : Json -> string;
  JSON_parse : string -> option Json;
}.

Module ViewTokenPayload.
Record t := { rideId : string; pickupRef : SegmentPointRef; dropRef : SegmentPointRef }.
End ViewTokenPayload.

Definition INVALID_VIEW_TOKEN : string := "INVALID_VIEW_TOKEN".

(** ** References as strings *)

Definition waypoint_prefix : string := "waypoint:".

Definition ref_string (r : SegmentPointRef) : string :=
  match r with
  | origin => "origin"
  | destination => "destination"
  | waypoint id => waypoint_prefix +:+ id
  end.

(** [value.startsWith(prefix)] and the rest of the string. *)
Fixpoint strip_prefix (p s : string) : option string :=
  match p, s with
  | EmptyString, _ => Some s
  | String a p', String b s' => if decide (a = b) then strip_prefix p' s' else None
  | _, EmptyString => None
  end.

(** [s.trim().length > 0] *)
Definition notBlank (s : string) : bool := match trim (chars s) with [] => false | _ => true end.

(** [isValidRef], with the reference the string stands for. *)
Definition isValidRef (value : string) : option SegmentPointRef :=
  if decide (value = "origin") then Some origin
  else if decide (value = "destination") then Some destination
  else match strip_prefix waypoint_prefix value with
       | Some id => if notBlank id then Some (waypoint id) else None
       | None => None
       end.

(** ** Tokens *)

(** [token.split('.')] *)
Fixpoint split_dots (s : string) : string * list string :=
  match s with
  | EmptyString => (EmptyString, [])
  | String c s' =>
      let '(piece, rest) := split_dots s' in
      if is_char 46 c then (EmptyString, piece :: rest) else (String c piece, rest)
  end.

(** The value of a field: the last one when the key is repeated. *)
Definition field (fields : list (string * Json)) (key : string) : option Json :=
  snd <$> List.find (fun kv => bool_decide (kv.1 = key)) (rev fields).

Section token.
Context `{Codec}.

Definition getSecret : Res string :=
  match truthy SEGMENT_VIEW_TOKEN_SECRET, truthy JWT_SECRET, truthy ACCESS_TOKEN_SECRET with
  | Some secret, _, _ => Ok secret
  | None, Some secret, _ => Ok secret
  | None, None, Some secret => Ok secret
  | None, None, None => if production then Err INVALID_VIEW_TOKEN else Ok "dev-segment-secret"
  end.

(** The strings are compared in constant time; the result is equality. *)
Definition safeEqual (left right : string) : bool := bool_decide (left = right).

Definition payloadJson (p : ViewTokenPayload.t) : Json :=
  JObject [("v", JNumber (num_of_Z 1)); ("rideId", JString (ViewTokenPayload.rideId p));
           ("mode", JString "segment"); ("pickupRef", JString (ref_string (ViewTokenPayload.pickupRef p)));
           ("dropRef", JString (ref_string (ViewTokenPayload.dropRef p)))].

Definition encodeViewToken (payload : ViewTokenPayload.t) : Res string :=
  let body := base64url (JSON_stringify (payloadJson payload)) in
  match getSecret with
  | Err e => Err e
  | Ok secret => Ok (body +:+ "." +:+ hmac_sha256 secret body)
  end.

(** The checks on the parsed document. *)
Definition readPayload (payload : Json) : option ViewTokenPayload.t :=
  match payload with
  | JObject fields =>
      match field fields "v", field fields "mode", field fields "rideId",
            field fields "pickupRef", field fields "dropRef" with
      | Some (JNumber v), Some (JString mode), Some (JString rideId), Some (JString p), Some (JString d) =>
          if neqb v (num_of_Z 1) && bool_decide (mode = "segment") && notBlank rideId then
            match isValidRef p, isValidRef d with
            | Some pickupRef, Some dropRef =>
                Some {| ViewTokenPayload.rideId := rideId; ViewTokenPayload.pickupRef := pickupRef;
                        ViewTokenPayload.dropRef := dropRef |}
            | _, _ => None
            end
          else None
      | _, _, _, _, _ => None
      end
  | _ => None
  end.

(** Every failure is the same error. *)
Definition decodeViewToken (token : string) : Res ViewTokenPayload.t :=
  match split_dots token with
  | (String _ _ as body, [String _ _ as signature]) =>
      match getSecret with
      | Err _ => Err INVALID_VIEW_TOKEN
      | Ok secret =>
          if safeEqual signature (hmac_sha256 secret body) then
            match JSON_parse (base64url_decode body) with
            | Some payload =>
                match readPayload payload with Some p => Ok p | None => Err INVALID_VIEW_TOKEN end
            | None => Err INVALID_VIEW_TOKEN
            end
          else Err INVALID_VIEW_TOKEN
      end
  | _ => Err INVALID_VIEW_TOKEN
  end.
End token.

(** ** Properties *)

Lemma app_String c a b : String c a +:+ b = String c (a +:+ b).
Proof. reflexivity. Qed.
Lemma app_dot b : "." +:+ b = String (Ascii.ascii_of_nat 46) b.
Proof. reflexivity. Qed.

Lemma strip_prefix_app p s : strip_prefix p (p +:+ s) = Some s.
Proof.
  induction p as [|c p IH]; [destruct s; reflexivity|].
  rewrite app_String. cbn [strip_prefix].
  case_decide; [exact IH | contradiction].
Qed.

Lemma strip_prefix_Some p s r : strip_prefix p s = Some r -> s = p +:+ r.
Proof.
  revert s. induction p as [|c p IH]; intros s E; [injection E as <-; reflexivity|].
  destruct s as [|c' s]; [discriminate|]. cbn [strip_prefix] in E.
  case_decide; [|discriminate]. subst. rewrite (IH s E). reflexivity.
Qed.

(** References and their strings. *)
Definition valid_ref (r : SegmentPointRef) : Prop :=
  match r with waypoint id => notBlank id = true | _ => True end.

Lemma isValidRef_string r : valid_ref r -> isValidRef (ref_string r) = Some r.
Proof.
  destruct r as [| |id]; intros V; [reflexivity | reflexivity |]. unfold isValidRef, ref_string.
  case_decide as D1; [discriminate D1|]. case_decide as D2; [discriminate D2|]. rewrite strip_prefix_app. cbn in V. rewrite V. reflexivity.
Qed.

Lemma isValidRef_Some s r : isValidRef s = Some r -> valid_ref r /\ s = ref_string r.
Proof.
  unfold isValidRef. repeat case_decide; subst; [intros [= <-]; cbn; auto | intros [= <-]; cbn; auto|].
  destruct (strip_prefix _ s) as [id|] eqn:E; [|discriminate]. destruct (notBlank id) eqn:N; [|discriminate].
  intros [= <-]. split; [exact N | exact (strip_prefix_Some _ _ _ E)].
Qed.

Definition no_dot (s : string) : Prop := (split_dots s).2 = [].

Lemma split_dots_no_dot s : no_dot s -> split_dots s = (s, []).
Proof.
  unfold no_dot. induction s as [|c s IH]; cbn; [reflexivity|].
  destruct (split_dots s) as [p r]. destruct (is_char 46 c); [discriminate|]. cbn. intros E.
  specialize (IH E). injection IH as -> ->. reflexivity.
Qed.

Lemma split_dots_app a b : no_dot a -> split_dots (a +:+ "." +:+ b) = (a, (split_dots b).1 :: (split_dots b).2).
Proof.
  unfold no_dot. rewrite app_dot. induction a as [|c a IH].
  - intros _. change ("" +:+ String (Ascii.ascii_of_nat 46) b) with (String (Ascii.ascii_of_nat 46) b).
    cbn. destruct (split_dots b). reflexivity.
  - rewrite app_String. cbn [split_dots]. destruct (split_dots a) as [p r]. destruct (is_char 46 c); [discriminate|]. cbn [snd]. intros E.
    rewrite (IH E). reflexivity.
Qed.

Lemma split_dots_two s a b : split_dots s = (a, [b]) -> s = a +:+ "." +:+ b.
Proof.
  revert a. induction s as [|c s IH]; intros a E; [discriminate|]. cbn in E.
  destruct (split_dots s) as [p r] eqn:Es. destruct (is_char 46 c) eqn:Ec.
  - injection E as <- -> ->. apply Nat.eqb_eq in Ec.
    rewrite <- (Ascii.ascii_nat_embedding c), Ec.
    change (String (Ascii.ascii_of_nat 46) s = "" +:+ ("." +:+ b)). rewrite app_dot.
    change ("" +:+ String (Ascii.ascii_of_nat 46) b) with (String (Ascii.ascii_of_nat 46) b). f_equal.
    assert (N : no_dot s -> s = b) by (intros N; rewrite (split_dots_no_dot s N) in Es; congruence).
    apply N. unfold no_dot. rewrite Es. reflexivity.
  - injection E as <- ->. rewrite (IH p eq_refl). reflexivity.
Qed.

Lemma readPayload_payloadJson p : notBlank (ViewTokenPayload.rideId p) = true ->
  valid_ref (ViewTokenPayload.pickupRef p) -> valid_ref (ViewTokenPayload.dropRef p) ->
  readPayload (payloadJson p) = Some p.
Proof.
  intros N V1 V2. destruct p as [ride r1 r2].
  cbn [ViewTokenPayload.rideId ViewTokenPayload.pickupRef ViewTokenPayload.dropRef] in *.
  unfold readPayload, payloadJson.
  cbn [ViewTokenPayload.rideId ViewTokenPayload.pickupRef ViewTokenPayload.dropRef]. set (fields := _ :: _).
  assert (F1 : field fields "v" = Some (JNumber (num_of_Z 1))) by reflexivity.
  assert (F2 : field fields "mode" = Some (JString "segment")) by reflexivity.
  assert (F3 : field fields "rideId" = Some (JString ride)) by reflexivity.
  assert (F4 : field fields "pickupRef" = Some (JString (ref_string r1))) by reflexivity.
  assert (F5 : field fields "dropRef" = Some (JString (ref_string r2))) by reflexivity.
  rewrite F1, F2, F3, F4, F5, N, (isValidRef_string r1 V1), (isValidRef_string r2 V2). reflexivity.
Qed.

Lemma readPayload_valid j p : readPayload j = Some p ->
  notBlank (ViewTokenPayload.rideId p) = true /\
  valid_ref (ViewTokenPayload.pickupRef p) /\ valid_ref (ViewTokenPayload.dropRef p).
Proof.
  unfold readPayload. intros E. repeat case_match; simplify_eq; cbn.
  repeat match goal with Hr : isValidRef _ = Some _ |- _ => apply isValidRef_Some in Hr as [? _] end.
  repeat match goal with Hb : _ && _ = true |- _ => apply andb_true_iff in Hb as [? ?] end. auto.
Qed.

(** What the code relies on of Node's codecs and of HMAC, for the payload [p]. *)
Record TokenLaws `{Codec} (p : ViewTokenPayload.t) : Prop := {
  law_base64 : base64url_decode (base64url (JSON_stringify (payloadJson p))) = JSON_stringify (payloadJson p);
  law_json : JSON_parse (JSON_stringify (payloadJson p)) = Some (payloadJson p);
  law_no_dot : forall s, no_dot (base64url s);
  law_hmac_no_dot : forall k b, no_dot (hmac_sha256 k b);
  law_hmac : forall k b, hmac_sha256 k b <> "";
  law_body : base64url (JSON_stringify (payloadJson p)) <> "";
}.

Lemma token_decodes `{Codec} (p : ViewTokenPayload.t) (token : string) : TokenLaws p ->
  notBlank (ViewTokenPayload.rideId p) = true ->
  valid_ref (ViewTokenPayload.pickupRef p) -> valid_ref (ViewTokenPayload.dropRef p) ->
  encodeViewToken p = Ok token -> decodeViewToken token = Ok p.
Proof.
  intros [Hdec Hjson Hb Hh Hne Hbne] Hr V1 V2 E. unfold encodeViewToken in E.
  set (body := base64url (JSON_stringify (payloadJson p))) in *. cbv zeta in E.
  destruct getSecret as [secret|] eqn:Es; [|discriminate]. injection E as <-.
  unfold decodeViewToken. rewrite split_dots_app by (apply Hb).
  rewrite (split_dots_no_dot _ (Hh secret body)). cbn [fst snd].
  rewrite Es. destruct body as [|c0 body0] eqn:Eb; [contradiction|].
  pose proof (Hne secret (String c0 body0)) as Hs.
  destruct (hmac_sha256 secret (String c0 body0)) as [|c1 sig] eqn:Esig; [contradiction|].
  unfold safeEqual. rewrite bool_decide_eq_true_2 by reflexivity.
  rewrite Hdec, Hjson, readPayload_payloadJson by assumption. reflexivity.
Qed.

(** A token is the segment it was issued for, and nothing else.
    Decoding an issued token returns its payload; and a string that decodes at
    all is a body followed by the signature of that body under the server's
    secret, with a ride id and references that pass validation, so a changed
    token is refused unless its signature can be forged. *)
Theorem view_token_roundtrip `{Codec} (p : ViewTokenPayload.t) :
  TokenLaws p -> notBlank (ViewTokenPayload.rideId p) = true ->
  valid_ref (ViewTokenPayload.pickupRef p) -> valid_ref (ViewTokenPayload.dropRef p) ->
  (forall token, encodeViewToken p = Ok token -> decodeViewToken token = Ok p) /\
  (forall token q, decodeViewToken token = Ok q -> exists body' secret,
     getSecret = Ok secret /\ token = body' +:+ "." +:+ hmac_sha256 secret body' /\
     (JSON_parse (base64url_decode body') ≫= readPayload) = Some q /\
     notBlank (ViewTokenPayload.rideId q) = true /\
     valid_ref (ViewTokenPayload.pickupRef q) /\ valid_ref (ViewTokenPayload.dropRef q)).
Proof.
  intros L Hr V1 V2. split.
  - intros token E. exact (token_decodes p token L Hr V1 V2 E).
  - intros token q E. unfold decodeViewToken in E.
    destruct (split_dots token) as [b l] eqn:Et. destruct b as [|cb b]; [discriminate|].
    destruct l as [|[|cs sig] [|? ?]]; try discriminate.
    destruct getSecret as [secret|] eqn:Es; [|discriminate].
    unfold safeEqual in E. case_bool_decide as Eq; [|discriminate].
    destruct (JSON_parse (base64url_decode (String cb b))) as [j|] eqn:Ej; [|discriminate].
    destruct (readPayload j) as [q'|] eqn:Er; [|discriminate]. injection E as ->.
    exists (String cb b), secret. rewrite Ej. split; [reflexivity|].
    split; [rewrite <- Eq; apply split_dots_two, Et|]. split; [exact Er | exact (readPayload_valid j q Er)].
Qed.

(** ** A codec for the examples

    Letters are written as pairs of letters, a document as its fields. *)
Definition nibble (n : nat) : Ascii.ascii := Ascii.ascii_of_nat (97 + n).
Fixpoint hex (s : string) : string :=
  match s with
  | EmptyString => EmptyString
  | String c s' => let n := Ascii.nat_of_ascii c in
      String (nibble (n / 16)) (String (nibble (n mod 16)) (hex s'))
  end.
Fixpoint unhex (s : string) : string :=
  match s with
  | String a (String b s') =>
      String (Ascii.ascii_of_nat (16 * (Ascii.nat_of_ascii a - 97) + (Ascii.nat_of_ascii b - 97))) (unhex s')
  | _ => EmptyString
  end.

Definition demo_payload : ViewTokenPayload.t :=
  {| ViewTokenPayload.rideId := "ride-1"; ViewTokenPayload.pickupRef := origin;
     ViewTokenPayload.dropRef := waypoint "w3" |}.

Definition demo_codec : Codec := {|
  SEGMENT_VIEW_TOKEN_SECRET := Some "k";
  JWT_SECRET := None;
  ACCESS_TOKEN_SECRET := None;
  production := true;
  hmac_sha256 := fun k b => "s" +:+ hex (k +:+ b);
  base64url := hex;
  base64url_decode := unhex;
  JSON_stringify := fun j => match j with
    | JObject [_; (_, JString a); _; (_, JString b); (_, JString c)] => hex a +:+ "." +:+ (hex b +:+ "." +:+ hex c)
    | _ => "null" end;
  JSON_parse := fun s => match split_dots s with
    | (a, [b; c]) => Some (JObject [("v", JNumber (num_of_Z 1)); ("rideId", JString (unhex a)); ("mode", JString "segment");
                                    ("pickupRef", JString (unhex b)); ("dropRef", JString (unhex c))])
    | _ => None end
|}.

Lemma hex_no_dot s : no_dot (hex s).
Proof.
  unfold no_dot. induction s as [|c s IH]; [reflexivity|]. cbn [hex split_dots].
  destruct (split_dots (hex s)) as [p r]. cbn in IH. subst.
  assert (N : forall n, (n < 16)%nat -> is_char 46 (nibble n) = false).
  { intros n Hn. do 16 (destruct n as [|n]; [reflexivity|]). lia. }
  assert (B : (Ascii.nat_of_ascii c < 256)%nat) by apply Ascii.nat_ascii_bounded.
  rewrite (N (_ / 16)%nat) by (apply Nat.Div0.div_lt_upper_bound; lia).
  rewrite N by (apply Nat.mod_upper_bound; lia). reflexivity.
Qed.

Lemma unhex_hex s : unhex (hex s) = s.
Proof.
  induction s as [|c s IH]; [reflexivity|]. cbn [hex unhex]. rewrite IH. f_equal. unfold nibble.
  assert (B : (Ascii.nat_of_ascii c < 256)%nat) by apply Ascii.nat_ascii_bounded.
  assert (B1 : (Ascii.nat_of_ascii c / 16 < 16)%nat) by (apply Nat.Div0.div_lt_upper_bound; lia).
  assert (B2 : (Ascii.nat_of_ascii c mod 16 < 16)%nat) by (apply Nat.mod_upper_bound; lia).
  rewrite !Ascii.nat_ascii_embedding by lia.
  replace (16 * (97 + Ascii.nat_of_ascii c / 16 - 97) + (97 + Ascii.nat_of_ascii c mod 16 - 97))%nat
    with (Ascii.nat_of_ascii c) by (rewrite (Nat.div_mod_eq (Ascii.nat_of_ascii c) 16) at 1; lia).
  apply Ascii.ascii_nat_embedding.
Qed.

(** The codec satisfies its laws on every payload. *)
Lemma demo_laws p : @TokenLaws demo_codec p.
Proof.
  split.
  - apply unhex_hex.
  - cbn [JSON_parse JSON_stringify demo_codec payloadJson].
    rewrite split_dots_app by apply hex_no_dot. rewrite split_dots_app by apply hex_no_dot. cbn [fst snd].
    rewrite (split_dots_no_dot _ (hex_no_dot (ref_string (ViewTokenPayload.dropRef p)))). cbn [fst snd].
    rewrite !unhex_hex. reflexivity.
  - exact hex_no_dot.
  - intros k b. unfold demo_codec, hmac_sha256, no_dot. pose proof (hex_no_dot (k +:+ b)) as E.
    unfold no_dot in E. change ("s" +:+ hex (k +:+ b)) with (String (Ascii.ascii_of_nat 115) (hex (k +:+ b))).
    cbn [split_dots]. destruct (split_dots (hex (k +:+ b))) as [q r]. cbn in E |- *. subst. reflexivity.
  - discriminate.
  - cbn [base64url JSON_stringify demo_codec payloadJson]. intros E.
    assert (N : forall s t, hex (s +:+ String (Ascii.ascii_of_nat 46) t) <> "") by (intros [|c s] t; discriminate).
    rewrite app_dot in E. exact (N _ _ E).
Qed.

Lemma view_token_roundtrip_witness :
  let C := demo_codec in
  exists token, encodeViewToken demo_payload = Ok token /\ decodeViewToken token = Ok demo_payload.
Proof.
  intros C. eexists. split; [reflexivity|].
  destruct (@view_token_roundtrip C demo_payload (demo_laws demo_payload)) as [R _].
  - vm_compute. reflexivity.
  - exact I.
  - vm_compute. reflexivity.
  - apply R. reflexivity.
Defined.
