(* ===== verification/Pricing.v ===== *)
(** * Prices per kilometre and service fee terms

    Models [modules/pricing/pricing.calculator.ts], [pricing.service.ts] and
    [modules/publish-ride/stopover-pricing.utils.ts]: the configured rates, the
    price range of a ride, the snapshot of the terms a ride was published under,
    and the fares of stopovers.  The theorems show that a region has at most one
    active configuration, that price ranges are ordered, that an advertised ride
    is never repriced and that stopover fares stay inside the fare of the ride. *)

From Stdlib Require Import ZArith QArith Qabs Lia Lqa.
From stdpp Require Import base list option strings gmap.
From S2P Require Import Prelude JsNumber Schema Store.

Open Scope Z_scope.

(** ** The calculator *)

Module PriceCalculation.
Record t := {
  regionCode : string;
  currency : string;
  distanceKm : num;
  minRatePerKm : num;
  recommendedRatePerKm : num;
  maxRatePerKm : num;
  minimumSeatPrice : num;
  recommendedPricePerSeat : num;
  minAllowedPricePerSeat : num;
  maxAllowedPricePerSeat : num;
  roundingStrategy : string;
  serviceFeePercent : num;
  serviceFeeFlat : num;
}.
End PriceCalculation.

Definition applyRounding (amount : num) (strategy : string) : num :=
  if decide (strategy = "NEAREST_EURO"%string) then num_of_Z (math_round amount)
  else if decide (strategy = "NEAREST_HALF_EURO"%string) then
    ndiv (num_of_Z (math_round (nmul amount (num_of_Z 2)))) (num_of_Z 2)
  else of_cents (to_cents amount).

Definition isLive (now_ : Z) (c : PricingConfig.t) : bool :=
  PricingConfig.active c && (PricingConfig.validFrom c <=? now_) &&
  match PricingConfig.validTo c with None => true | Some t => now_ <? t end.

Definition calculatePrice (distanceKm : num) (config : PricingConfig.t) : PriceCalculation.t :=
  let rawRecommended := nmul distanceKm (PricingConfig.recommendedRatePerKm config) in
  let rawMin := nmul distanceKm (PricingConfig.minRatePerKm config) in
  let rawMax := nmul distanceKm (PricingConfig.maxRatePerKm config) in
  let price raw := nmax (PricingConfig.minimumSeatPrice config)
                        (applyRounding raw (PricingConfig.roundingStrategy config)) in
  {| PriceCalculation.regionCode := PricingConfig.regionCode config;
     PriceCalculation.currency := PricingConfig.currency config;
     PriceCalculation.distanceKm := distanceKm;
     PriceCalculation.minRatePerKm := PricingConfig.minRatePerKm config;
     PriceCalculation.recommendedRatePerKm := PricingConfig.recommendedRatePerKm config;
     PriceCalculation.maxRatePerKm := PricingConfig.maxRatePerKm config;
     PriceCalculation.minimumSeatPrice := PricingConfig.minimumSeatPrice config;
     PriceCalculation.recommendedPricePerSeat := price rawRecommended;
     PriceCalculation.minAllowedPricePerSeat := price rawMin;
     PriceCalculation.maxAllowedPricePerSeat := price rawMax;
     PriceCalculation.roundingStrategy := PricingConfig.roundingStrategy config;
     PriceCalculation.serviceFeePercent := PricingConfig.serviceFeePercent config;
     PriceCalculation.serviceFeeFlat := PricingConfig.serviceFeeFlat config |}.

(** The reason carries the two values its text prints. *)
Record PriceValidation := { pv_valid : bool; pv_reason : option (num * string) }.

Definition validateDriverPrice (selectedPrice : num) (calculation : PriceCalculation.t) : PriceValidation :=
  if nlt selectedPrice (PriceCalculation.minAllowedPricePerSeat calculation) then
    {| pv_valid := false;
       pv_reason := Some (PriceCalculation.minAllowedPricePerSeat calculation,
                          PriceCalculation.currency calculation) |}
  else {| pv_valid := true; pv_reason := None |}.

(** ** Stopover fares *)

Module StopoverFare.
Record t := { recommendedPrice : num; minPrice : num; maxPrice : num }.
End StopoverFare.

Definition STOPOVER_MIN_PRICE_MULTIPLIER : num := rnd (8 # 10).
Definition STOPOVER_MAX_PRICE_MULTIPLIER : num := rnd (167 # 100).

Definition calculateStopoverFare (basePricePerSeat distanceFromOriginKm totalDistanceKm : num)
    : StopoverFare.t :=
  if nle totalDistanceKm (num_of_Z 0) then
    {| StopoverFare.recommendedPrice := num_of_Z 0; StopoverFare.minPrice := num_of_Z 0;
       StopoverFare.maxPrice := num_of_Z 0 |}
  else
    let ratio := nmax (num_of_Z 0) (ndiv distanceFromOriginKm totalDistanceKm) in
    let stopoverBasePrice := nmul basePricePerSeat ratio in
    let round value := of_cents (to_cents value) in
    let maxPrice := nmin (nmul stopoverBasePrice STOPOVER_MAX_PRICE_MULTIPLIER) basePricePerSeat in
    {| StopoverFare.recommendedPrice := round stopoverBasePrice;
       StopoverFare.minPrice := round (nmul stopoverBasePrice STOPOVER_MIN_PRICE_MULTIPLIER);
       StopoverFare.maxPrice := round maxPrice |}.

Definition clampToRange (value minPrice maxPrice : num) : num :=
  if nlt maxPrice minPrice then of_cents (to_cents value)
  else of_cents (to_cents (nmin (nmax value minPrice) maxPrice)).

(** The object keyed by place id: a later entry for the same place wins. *)
Definition buildStopoverPricingByPlaceId (stopoverPricing : list (string * num)) : gmap string num :=
  fold_left (fun acc item => <[item.1 := item.2]> acc) stopoverPricing ∅.

Definition getStopoverPriceByPlaceId (prices : option (gmap string num)) (placeId : string) : option num :=
  match prices with None => None | Some m => m !! placeId end.

(** ** Configurations *)

Definition DEFAULT_REGION : string := "BALTIC".
Definition DEFAULT_PRICING_CREATED_BY : string := "system".

Definition DEFAULT_BALTIC_PRICING_CONFIG (at_ : Z) : PricingConfig.t :=
  {| PricingConfig.id := "default-baltic-distance-pricing";
     PricingConfig.regionCode := DEFAULT_REGION;
     PricingConfig.currency := "EUR";
     PricingConfig.minRatePerKm := rnd (6 # 100);
     PricingConfig.recommendedRatePerKm := rnd (8 # 100);
     PricingConfig.maxRatePerKm := rnd (12 # 100);
     PricingConfig.minimumSeatPrice := num_of_Z 3;
     PricingConfig.roundingStrategy := "NEAREST_EURO";
     PricingConfig.serviceFeePercent := num_of_Z 20;
     PricingConfig.serviceFeeFlat := num_of_Z 0;
     PricingConfig.active := true;
     PricingConfig.validFrom := at_;
     PricingConfig.validTo := None;
     PricingConfig.createdBy := Some DEFAULT_PRICING_CREATED_BY;
     PricingConfig.createdAt := at_ |}.

(** Every field is optional, as in [Partial<PricingConfigInput>]. *)
Module PricingConfigInput.
Record t := {
  regionCode : option string;
  currency : option string;
  minRatePerKm : option num;
  recommendedRatePerKm : option num;
  maxRatePerKm : option num;
  minimumSeatPrice : option num;
  roundingStrategy : option string;
  serviceFeePercent : option num;
  serviceFeeFlat : option num;
  active : option bool;
  validFrom : option Z;
  validTo : option (option Z);
  createdBy : option string;
}.
End PricingConfigInput.
Module I := PricingConfigInput.

Inductive FeeSource := SNAPSHOT | ACTIVE_CONFIG | DEFAULT.
Module ServiceFeeTerms.
Record t := { serviceFeePercent : num; serviceFeeFlat : num; source : FeeSource }.
End ServiceFeeTerms.

Section handlers.
Context `{Env}.

Definition assertPricingBounds (minRatePerKm recommendedRatePerKm maxRatePerKm : num) : H unit :=
  throw_if (nlt recommendedRatePerKm minRatePerKm) "INVALID_PRICING_CONFIG";;
  throw_if (nlt maxRatePerKm recommendedRatePerKm) "INVALID_PRICING_CONFIG".

Definition getActivePricingConfig (regionCode : string) : H (option PricingConfig.t) :=
  get (fun s => head (sort_desc PricingConfig.validFrom
    (where_ prisma.pricingConfig
       (fun c => bool_decide (PricingConfig.regionCode c = regionCode) && isLive now c) (St.db s)))).

Definition regionOr (regionCode : option string) : string := default DEFAULT_REGION (truthy regionCode).

Definition getPricePreview (distanceKm : num) (regionCode : option string) : H PriceCalculation.t :=
  config ← getActivePricingConfig (regionOr regionCode);
  match config with
  | None => throw "PRICING_CONFIG_NOT_FOUND"
  | Some config => mret (calculatePrice distanceKm config)
  end.

(** [rideId] is unique in the table of snapshots. *)
Definition findSnapshot (rideId : string) : H (option RidePricingSnapshot.t) :=
  findFirst prisma.ridePricingSnapshot (fun s => bool_decide (RidePricingSnapshot.rideId s = rideId)).

Definition createSnapshot (row : RidePricingSnapshot.t) : H RidePricingSnapshot.t :=
  existing ← findSnapshot (RidePricingSnapshot.rideId row);
  match existing with
  | Some _ => throw "P2002"
  | None => create prisma.ridePricingSnapshot (RidePricingSnapshot.id row) row
  end.

Definition validateAndSnapshotPricing (rideId : string) (distanceKm selectedPricePerSeat : num)
    (regionCode : option string) : H (PriceValidation * option string) :=
  let regionCode := regionOr regionCode in
  config ← getActivePricingConfig regionCode;
  match config with
  | None => throw "PRICING_CONFIG_NOT_FOUND"
  | Some config =>
      let calculation := calculatePrice distanceKm config in
      let validation := validateDriverPrice selectedPricePerSeat calculation in
      if negb (pv_valid validation) then mret (validation, None)
      else
        id ← randomUUID;
        snapshot ← createSnapshot
          {| RidePricingSnapshot.id := id;
             RidePricingSnapshot.rideId := rideId;
             RidePricingSnapshot.pricingVersion := "DISTANCE_RATE_V1";
             RidePricingSnapshot.regionCode := regionCode;
             RidePricingSnapshot.currency := PricingConfig.currency config;
             RidePricingSnapshot.distanceKm := distanceKm;
             RidePricingSnapshot.minRatePerKm := PricingConfig.minRatePerKm config;
             RidePricingSnapshot.recommendedRatePerKm := PricingConfig.recommendedRatePerKm config;
             RidePricingSnapshot.maxRatePerKm := PricingConfig.maxRatePerKm config;
             RidePricingSnapshot.minimumSeatPrice := PricingConfig.minimumSeatPrice config;
             RidePricingSnapshot.recommendedPricePerSeat :=
               PriceCalculation.recommendedPricePerSeat calculation;
             RidePricingSnapshot.minAllowedPricePerSeat :=
               PriceCalculation.minAllowedPricePerSeat calculation;
             RidePricingSnapshot.maxAllowedPricePerSeat :=
               PriceCalculation.maxAllowedPricePerSeat calculation;
             RidePricingSnapshot.selectedPricePerSeat := selectedPricePerSeat;
             RidePricingSnapshot.roundingStrategy := PricingConfig.roundingStrategy config;
             RidePricingSnapshot.serviceFeePercent := PricingConfig.serviceFeePercent config;
             RidePricingSnapshot.serviceFeeFlat := PricingConfig.serviceFeeFlat config;
             RidePricingSnapshot.createdAt := now |};
        mret (validation, Some (RidePricingSnapshot.id snapshot))
  end.

Definition ensureDefaultPricingConfig : H PricingConfig.t :=
  existing ← get (fun s => head
    (sort_desc (fun c => if PricingConfig.active c then 1 else 0)
      (sort_desc PricingConfig.validFrom
        (sort_desc PricingConfig.createdAt
          (where_ prisma.pricingConfig
             (fun c => bool_decide (PricingConfig.regionCode c = DEFAULT_REGION)) (St.db s))))));
  match existing with
  | Some existing => mret existing
  | None =>
      create prisma.pricingConfig (PricingConfig.id (DEFAULT_BALTIC_PRICING_CONFIG now))
        (DEFAULT_BALTIC_PRICING_CONFIG now)
  end.

Definition resolveActiveFeeTerms (regionCode : option string) : H ServiceFeeTerms.t :=
  config ← getActivePricingConfig (regionOr regionCode);
  match config with
  | Some config => mret {| ServiceFeeTerms.serviceFeePercent := PricingConfig.serviceFeePercent config;
                           ServiceFeeTerms.serviceFeeFlat := PricingConfig.serviceFeeFlat config;
                           ServiceFeeTerms.source := ACTIVE_CONFIG |}
  | None =>
      ensured ← try_catch (c ← ensureDefaultPricingConfig; mret (Some c)) (fun _ => mret None);
      let config := default (DEFAULT_BALTIC_PRICING_CONFIG now) ensured in
      mret {| ServiceFeeTerms.serviceFeePercent := PricingConfig.serviceFeePercent config;
              ServiceFeeTerms.serviceFeeFlat := PricingConfig.serviceFeeFlat config;
              ServiceFeeTerms.source := DEFAULT |}
  end.

Definition snapshotTerms (s : RidePricingSnapshot.t) : ServiceFeeTerms.t :=
  {| ServiceFeeTerms.serviceFeePercent := RidePricingSnapshot.serviceFeePercent s;
     ServiceFeeTerms.serviceFeeFlat := RidePricingSnapshot.serviceFeeFlat s;
     ServiceFeeTerms.source := SNAPSHOT |}.

Definition resolveRideFeeTerms (rideId : string) : H ServiceFeeTerms.t :=
  snapshot ← findSnapshot rideId;
  match snapshot with
  | Some s => mret (snapshotTerms s)
  | None => resolveActiveFeeTerms None
  end.

Definition resolveFeeTermsForRides (rideIds : list string) : H (gmap string ServiceFeeTerms.t) :=
  match rideIds with
  | [] => mret ∅
  | _ =>
      snapshots ← findMany prisma.ridePricingSnapshot
        (fun s => bool_decide (RidePricingSnapshot.rideId s ∈ rideIds));
      let terms := fold_left (fun terms s => <[RidePricingSnapshot.rideId s := snapshotTerms s]> terms)
                     snapshots ∅ in
      if (size terms <? length rideIds)%nat then
        fallback ← resolveActiveFeeTerms None;
        mret (fold_left (fun terms rideId =>
                match terms !! rideId with Some _ => terms | None => <[rideId := fallback]> terms end)
                rideIds terms)
      else mret terms
  end.

(** The listing order (by region) is left out. *)
Definition getActiveConfigs : H (list PricingConfig.t) :=
  ensureDefaultPricingConfig;;
  findMany prisma.pricingConfig PricingConfig.active.

(** [{ regionCode, active: true, NOT: { id } }] *)
Definition isRivalOf (regionCode : string) (keep : option string) (c : PricingConfig.t) : bool :=
  bool_decide (PricingConfig.regionCode c = regionCode) && PricingConfig.active c &&
  match keep with Some id => bool_decide (PricingConfig.id c <> id) | None => true end.

Definition retire (validTo : Z) (c : PricingConfig.t) : PricingConfig.t :=
  c <| PricingConfig.active := false |> <| PricingConfig.validTo := Some validTo |>.

Definition deactivateRegion (regionCode : string) (keep : option string) (validTo : Z) : H unit :=
  updateMany prisma.pricingConfig (isRivalOf regionCode keep) (retire validTo);; mret tt.

(** The rates and the region are required here. *)
Definition createPricingConfig (regionCode currency : string)
    (minRatePerKm recommendedRatePerKm maxRatePerKm minimumSeatPrice : num) (roundingStrategy : string)
    (serviceFeePercent serviceFeeFlat : num) (active : option bool) (validFrom : option Z)
    (validTo : option Z) (createdBy : option string) : H PricingConfig.t :=
  let validFrom := default now validFrom in
  let shouldActivate := default true active in
  assertPricingBounds minRatePerKm recommendedRatePerKm maxRatePerKm;;
  transaction (
    when shouldActivate (deactivateRegion regionCode None validFrom);;
    id ← randomUUID;
    create prisma.pricingConfig id
      {| PricingConfig.id := id;
         PricingConfig.regionCode := regionCode;
         PricingConfig.currency := currency;
         PricingConfig.minRatePerKm := minRatePerKm;
         PricingConfig.recommendedRatePerKm := recommendedRatePerKm;
         PricingConfig.maxRatePerKm := maxRatePerKm;
         PricingConfig.minimumSeatPrice := minimumSeatPrice;
         PricingConfig.roundingStrategy := roundingStrategy;
         PricingConfig.serviceFeePercent := serviceFeePercent;
         PricingConfig.serviceFeeFlat := serviceFeeFlat;
         PricingConfig.active := shouldActivate;
         PricingConfig.validFrom := validFrom;
         PricingConfig.validTo := if shouldActivate then None else validTo;
         PricingConfig.createdBy := createdBy;
         PricingConfig.createdAt := now |}).

(** [{ ...config, ...data }]: the fields given replace those of the row. *)
Definition applyInput (input : I.t) (c : PricingConfig.t) : PricingConfig.t :=
  {| PricingConfig.id := PricingConfig.id c;
     PricingConfig.regionCode := default (PricingConfig.regionCode c) (I.regionCode input);
     PricingConfig.currency := default (PricingConfig.currency c) (I.currency input);
     PricingConfig.minRatePerKm := default (PricingConfig.minRatePerKm c) (I.minRatePerKm input);
     PricingConfig.recommendedRatePerKm :=
       default (PricingConfig.recommendedRatePerKm c) (I.recommendedRatePerKm input);
     PricingConfig.maxRatePerKm := default (PricingConfig.maxRatePerKm c) (I.maxRatePerKm input);
     PricingConfig.minimumSeatPrice := default (PricingConfig.minimumSeatPrice c) (I.minimumSeatPrice input);
     PricingConfig.roundingStrategy := default (PricingConfig.roundingStrategy c) (I.roundingStrategy input);
     PricingConfig.serviceFeePercent := default (PricingConfig.serviceFeePercent c) (I.serviceFeePercent input);
     PricingConfig.serviceFeeFlat := default (PricingConfig.serviceFeeFlat c) (I.serviceFeeFlat input);
     PricingConfig.active := default (PricingConfig.active c) (I.active input);
     PricingConfig.validFrom := default (PricingConfig.validFrom c) (I.validFrom input);
     PricingConfig.validTo :=
       if bool_decide (I.active input = Some true) then None
       else default (PricingConfig.validTo c) (I.validTo input);
     PricingConfig.createdBy := match I.createdBy input with Some x => Some x | None => PricingConfig.createdBy c end;
     PricingConfig.createdAt := PricingConfig.createdAt c |}.

Definition updatePricingConfig (id : string) (input : I.t) : H PricingConfig.t :=
  existing ← findUnique prisma.pricingConfig id;
  match existing with
  | None => throw "PRICING_CONFIG_NOT_FOUND"
  | Some existing =>
      let nextRegionCode := default (PricingConfig.regionCode existing) (I.regionCode input) in
      let nextValidFrom := default (PricingConfig.validFrom existing) (I.validFrom input) in
      let nextActive := default (PricingConfig.active existing) (I.active input) in
      assertPricingBounds
        (default (PricingConfig.minRatePerKm existing) (I.minRatePerKm input))
        (default (PricingConfig.recommendedRatePerKm existing) (I.recommendedRatePerKm input))
        (default (PricingConfig.maxRatePerKm existing) (I.maxRatePerKm input));;
      transaction (
        when nextActive (deactivateRegion nextRegionCode (Some id) nextValidFrom);;
        update prisma.pricingConfig id (applyInput input))
  end.
End handlers.

(** ** At most one active configuration per region *)

Record ConfigInv (d : Db.t) : Prop := {
  config_keyed : forall k c, Db.pricingConfig d !! k = Some c -> PricingConfig.id c = k;
  config_unique : forall k1 k2 c1 c2,
    Db.pricingConfig d !! k1 = Some c1 -> Db.pricingConfig d !! k2 = Some c2 ->
    PricingConfig.active c1 = true -> PricingConfig.active c2 = true ->
    PricingConfig.regionCode c1 = PricingConfig.regionCode c2 -> k1 = k2;
}.

(** No active row of the region, except the row [keep]. *)
Definition region_free (region : string) (keep : option string) (d : Db.t) : Prop :=
  forall k c, Db.pricingConfig d !! k = Some c -> PricingConfig.active c = true ->
    PricingConfig.regionCode c = region -> keep = Some k.

Section invariant.
Context `{Env}.

Definition deactivated (region : string) (keep : option string) (t : Z) (d : Db.t) : Db.t :=
  d <| Db.pricingConfig ::= fmap (fun c => if isRivalOf region keep c then retire t c else c) |>.

Lemma deactivateRegion_run region keep t s :
  deactivateRegion region keep t s = (s <| St.db ::= deactivated region keep t |>, Ok tt).
Proof. reflexivity. Qed.

Lemma deactivated_lookup region keep t d k c' :
  Db.pricingConfig (deactivated region keep t d) !! k = Some c' ->
  exists c, Db.pricingConfig d !! k = Some c /\ c' = if isRivalOf region keep c then retire t c else c.
Proof. cbn. rewrite lookup_fmap. intros (c & E & ->)%fmap_Some. eauto. Qed.

Lemma deactivated_inv region keep t d : ConfigInv d ->
  ConfigInv (deactivated region keep t d) /\ region_free region keep (deactivated region keep t d).
Proof.
  intros [K U]. split; [split|].
  - intros k c' E. apply deactivated_lookup in E as (c & E & ->). rewrite <- (K k c E).
    destruct (isRivalOf _ _ _); reflexivity.
  - intros k1 k2 c1 c2 E1 E2. apply deactivated_lookup in E1 as (b1 & F1 & ->), E2 as (b2 & F2 & ->).
    destruct (isRivalOf _ _ b1); [discriminate|]. destruct (isRivalOf _ _ b2); [discriminate|]. eauto.
  - intros k c' E A R. apply deactivated_lookup in E as (c & F & ->).
    destruct (isRivalOf region keep c) eqn:P; [discriminate|].
    unfold isRivalOf in P. rewrite (bool_decide_eq_true_2 _ R), A in P. cbn in P.
    destruct keep as [i|]; [|discriminate]. apply bool_decide_eq_false in P. f_equal.
    rewrite <- (K k c F). destruct (decide (PricingConfig.id c = i)); [congruence | contradiction].
Qed.

(** One row is written into a region that is free for it. *)
Lemma ConfigInv_put d k c : ConfigInv d -> PricingConfig.id c = k ->
  (PricingConfig.active c = true -> region_free (PricingConfig.regionCode c) (Some k) d) ->
  ConfigInv (d <| Db.pricingConfig ::= <[k := c]> |>).
Proof.
  intros [K U] Hid Hf. split.
  - intros k' c'. cbn. rewrite lookup_insert_Some. intros [[<- <-]|[_ E]]; eauto.
  - intros k1 k2 c1 c2. cbn. rewrite !lookup_insert_Some.
    intros [[<- <-]|[N1 E1]] [[<- <-]|[N2 E2]] A1 A2 R; [reflexivity | | | eauto].
    + symmetry. specialize (Hf A1 k2 c2 E2 A2 (eq_sym R)). congruence.
    + specialize (Hf A2 k1 c1 E1 A1 R). congruence.
Qed.

Lemma region_free_weaken region keep d : region_free region None d -> region_free region keep d.
Proof. intros F k c E A R. discriminate (F k c E A R). Qed.

Lemma assertPricingBounds_run a b c s : exists r, assertPricingBounds a b c s = (s, r) /\
  (r = Ok tt -> nlt b a = false /\ nlt c b = false).
Proof.
  unfold assertPricingBounds, throw_if. destruct (nlt b a), (nlt c b); eexists; split; try reflexivity; auto; discriminate.
Qed.

(** After the deactivation the region is free for the row that becomes active. *)
Lemma when_deactivate_inv (b : bool) region keep t s : ConfigInv (St.db s) -> exists s',
  when b (deactivateRegion region keep t) s = (s', Ok tt) /\ ConfigInv (St.db s') /\
  (b = true -> region_free region keep (St.db s')).
Proof.
  intros I. destruct b; [|exists s; repeat split; [exact I.(config_keyed _) | exact I.(config_unique _) | discriminate]].
  destruct (deactivated_inv region keep t (St.db s) I) as [I' F].
  exists (s <| St.db ::= deactivated region keep t |>). auto.
Qed.

Lemma createPricingConfig_inv a b c d e f g h i j k l m :
  preserves (on_db ConfigInv) (createPricingConfig a b c d e f g h i j k l m).
Proof.
  unfold createPricingConfig. cbv zeta. intros s I. rewrite bind_run.
  destruct (assertPricingBounds_run c d e s) as (r & -> & _). cbn [fst snd]. destruct r; [|exact I].
  revert s I. apply preserves_transaction. intros s I.
  destruct (when_deactivate_inv (default true j) a None (default now k) s I) as (s' & E & I' & F).
  rewrite (bind_Ok _ _ _ _ _ E). unfold randomUUID, mbind at 1, M_bind, create. rewrite bind_run. cbn.
  destruct (Db.pricingConfig (St.db s') !! _) eqn:L; [exact I'|].
  apply ConfigInv_put; [exact I' | reflexivity |]. cbn. intros A. apply region_free_weaken, F, A.
Qed.

Lemma updatePricingConfig_inv id input : preserves (on_db ConfigInv) (updatePricingConfig id input).
Proof.
  unfold updatePricingConfig. intros s I. rewrite (bind_Ok _ _ _ _ _ (findUnique_run _ _ _)).
  cbn [rows prisma.pricingConfig]. destruct (Db.pricingConfig (St.db s) !! id) as [old|] eqn:E; [|exact I].
  cbv zeta. rewrite bind_run.
  destruct (assertPricingBounds_run
    (default (PricingConfig.minRatePerKm old) (I.minRatePerKm input))
    (default (PricingConfig.recommendedRatePerKm old) (I.recommendedRatePerKm input))
    (default (PricingConfig.maxRatePerKm old) (I.maxRatePerKm input)) s) as (r & -> & _).
  cbn [fst snd]. destruct r; [|exact I]. unfold transaction.
  set (region := default (PricingConfig.regionCode old) (I.regionCode input)).
  assert (W : forall s', (when (default (PricingConfig.active old) (I.active input))
      (deactivateRegion region (Some id) (default (PricingConfig.validFrom old) (I.validFrom input))) s) = (s', Ok tt) ->
    exists old', Db.pricingConfig (St.db s') !! id = Some old' /\
      PricingConfig.regionCode old' = PricingConfig.regionCode old /\
      PricingConfig.active old' = PricingConfig.active old).
  { intros s'. unfold when. destruct (default (PricingConfig.active old) (I.active input)).
    2: { intros Q. injection Q as <-. eauto. }
    rewrite deactivateRegion_run. intros Q. injection Q as <-. cbn. rewrite lookup_fmap, E. cbn. eexists.
    split; [reflexivity|]. unfold isRivalOf. rewrite (bool_decide_eq_false_2 (_ <> id)).
    2: { intros N. apply N, (config_keyed _ I id old E). }
    rewrite andb_false_r. auto. }
  destruct (when_deactivate_inv (default (PricingConfig.active old) (I.active input)) region (Some id)
    (default (PricingConfig.validFrom old) (I.validFrom input)) s I) as (s' & Ew & I' & F).
  rewrite (bind_Ok _ _ _ _ _ Ew). destruct (W s' Ew) as (old' & E' & R & A).
  rewrite (update_run prisma.pricingConfig id _ s' old') by exact E'.
  apply ConfigInv_put; [exact I' | cbn; exact (config_keyed _ I' id old' E') |].
  cbn. rewrite R, A. exact F.
Qed.

Lemma ensureDefaultPricingConfig_inv : preserves (on_db ConfigInv) ensureDefaultPricingConfig.
Proof.
  unfold ensureDefaultPricingConfig. intros s I. unfold mbind, M_bind, get.
  destruct (head _) as [c|] eqn:Hd; [exact I|].
  unfold create. rewrite (bind_Ok _ _ _ _ _ (findUnique_run _ _ _)). cbn.
  destruct (Db.pricingConfig (St.db s) !! _) eqn:L; [exact I|].
  apply ConfigInv_put; [exact I | reflexivity |]. intros _ k c E A R. exfalso.
  assert (In c (where_ prisma.pricingConfig
    (fun c => bool_decide (PricingConfig.regionCode c = DEFAULT_REGION)) (St.db s))) as Hin.
  { apply where_elem. split; [apply bool_decide_eq_true_2; exact R | eauto]. }
  apply list_elem_of_In in Hin.
  assert (P : forall l : list PricingConfig.t, c ∈ l -> head (sort_desc (fun c => if PricingConfig.active c then 1 else 0)
      (sort_desc PricingConfig.validFrom (sort_desc PricingConfig.createdAt l))) <> None).
  { intros l Hl. unfold sort_desc. intros N.
    destruct (sort_by _ _) as [|x l'] eqn:Es; [|discriminate].
    assert (c ∈ ([] : list PricingConfig.t)) as Hn%not_elem_of_nil; [|exact Hn].
    rewrite <- Es, !sort_by_perm. exact Hl. }
  exact (P _ Hin Hd).
Qed.

Lemma resolveActiveFeeTerms_inv region : preserves (on_db ConfigInv) (resolveActiveFeeTerms region).
Proof.
  pose proof ensureDefaultPricingConfig_inv. unfold resolveActiveFeeTerms, getActivePricingConfig. preserve.
Qed.

Lemma other_table_inv {R} (t : Table R) g : (forall d, Db.pricingConfig (with_rows t g d) = Db.pricingConfig d) ->
  preserves (on_db ConfigInv) (write t g).
Proof.
  intros Et. apply preserves_write. intros d [K U]. split; rewrite Et; assumption.
Qed.

Lemma validateAndSnapshotPricing_inv a b c d : preserves (on_db ConfigInv) (validateAndSnapshotPricing a b c d).
Proof.
  unfold validateAndSnapshotPricing, getActivePricingConfig, createSnapshot, findSnapshot, create. preserve.
  apply other_table_inv. reflexivity.
Qed.
End invariant.

(** The operations of the service, each at its own time. *)
Inductive pricing_op : St.t -> St.t -> Prop :=
| op_create `{Env} s a b c d e f g h i j k l m :
    pricing_op s (createPricingConfig a b c d e f g h i j k l m s).1
| op_update `{Env} s id input : pricing_op s (updatePricingConfig id input s).1
| op_ensure `{Env} s : pricing_op s (ensureDefaultPricingConfig s).1
| op_active `{Env} s region : pricing_op s (resolveActiveFeeTerms region s).1
| op_snapshot `{Env} s a b c d : pricing_op s (validateAndSnapshotPricing a b c d s).1.

Lemma pricing_op_inv s s' : pricing_op s s' -> ConfigInv (St.db s) -> ConfigInv (St.db s').
Proof.
  destruct 1; intros I.
  - apply createPricingConfig_inv, I.
  - apply updatePricingConfig_inv, I.
  - apply ensureDefaultPricingConfig_inv, I.
  - apply resolveActiveFeeTerms_inv, I.
  - apply validateAndSnapshotPricing_inv, I.
Qed.

(** ** Snapshots are written once *)

Definition SnapInv (d : Db.t) : Prop := forall k1 k2 s1 s2,
  Db.ridePricingSnapshot d !! k1 = Some s1 -> Db.ridePricingSnapshot d !! k2 = Some s2 ->
  RidePricingSnapshot.rideId s1 = RidePricingSnapshot.rideId s2 -> k1 = k2.

(** No snapshot of [d0] is lost or changed. *)
Definition snapshots_kept (d0 d : Db.t) : Prop :=
  SnapInv d /\ forall k s, Db.ridePricingSnapshot d0 !! k = Some s -> Db.ridePricingSnapshot d !! k = Some s.

Section snapshots.
Context `{Env} (d0 : Db.t).

Lemma kept_other {R} (t : Table R) g :
  (forall d, Db.ridePricingSnapshot (with_rows t g d) = Db.ridePricingSnapshot d) ->
  preserves (on_db (snapshots_kept d0)) (write t g).
Proof.
  intros Et. apply preserves_write. intros d [U K]. split; [unfold SnapInv|]; rewrite Et; assumption.
Qed.

Lemma kept_config g : preserves (on_db (snapshots_kept d0)) (write prisma.pricingConfig g).
Proof. apply kept_other. reflexivity. Qed.

Lemma kept_createPricingConfig a b c d e f g h i j k l m :
  preserves (on_db (snapshots_kept d0)) (createPricingConfig a b c d e f g h i j k l m).
Proof.
  pose proof kept_config. unfold createPricingConfig, assertPricingBounds, deactivateRegion, updateMany, create. preserve_db.
Qed.

Lemma kept_updatePricingConfig a b : preserves (on_db (snapshots_kept d0)) (updatePricingConfig a b).
Proof.
  pose proof kept_config. unfold updatePricingConfig, assertPricingBounds, deactivateRegion, updateMany, update. preserve_db.
Qed.

Lemma kept_ensure : preserves (on_db (snapshots_kept d0)) ensureDefaultPricingConfig.
Proof. pose proof kept_config. unfold ensureDefaultPricingConfig, create. preserve. Qed.

Lemma kept_active region : preserves (on_db (snapshots_kept d0)) (resolveActiveFeeTerms region).
Proof. pose proof kept_ensure. unfold resolveActiveFeeTerms, getActivePricingConfig. preserve. Qed.

(** The only writer of snapshots refuses a ride that has one. *)
Lemma kept_createSnapshot row : preserves (on_db (snapshots_kept d0)) (createSnapshot row).
Proof.
  intros s [U K]. unfold createSnapshot. rewrite bind_run.
  unfold findSnapshot, findFirst, get. cbn [fst snd]. destruct (head _) as [old|] eqn:Hd; [split; assumption|].
  assert (N : forall k s', Db.ridePricingSnapshot (St.db s) !! k = Some s' ->
            RidePricingSnapshot.rideId s' <> RidePricingSnapshot.rideId row).
  { intros k s' E R.
    assert (In s' (where_ prisma.ridePricingSnapshot
      (fun x => bool_decide (RidePricingSnapshot.rideId x = RidePricingSnapshot.rideId row)) (St.db s))) as Hin.
    { apply where_elem. split; [apply bool_decide_eq_true_2, R | eauto]. }
    destruct (where_ _ _ _); [destruct Hin | discriminate Hd]. }
  destruct (Db.ridePricingSnapshot (St.db s) !! RidePricingSnapshot.id row) eqn:L.
  { unfold create. rewrite bind_run. cbn. rewrite L. split; assumption. }
  rewrite (create_run prisma.ridePricingSnapshot _ row s L). split.
  - intros k1 k2 s1 s2. cbn. rewrite !lookup_insert_Some.
    intros [[<- <-]|[N1 E1]] [[<- <-]|[N2 E2]] R; [reflexivity | | | eauto]; cbn in R.
    + destruct (N _ _ E2 (eq_sym R)).
    + destruct (N _ _ E1 R).
  - intros k s' E. cbn. rewrite lookup_insert_ne; [auto|]. intros <-. rewrite (K _ _ E) in L. discriminate.
Qed.

Lemma kept_validateAndSnapshotPricing a b c d :
  preserves (on_db (snapshots_kept d0)) (validateAndSnapshotPricing a b c d).
Proof.
  pose proof kept_createSnapshot. unfold validateAndSnapshotPricing, getActivePricingConfig. preserve.
Qed.
End snapshots.

Lemma pricing_op_kept d0 s s' : pricing_op s s' ->
  snapshots_kept d0 (St.db s) -> snapshots_kept d0 (St.db s').
Proof.
  destruct 1; intros I.
  - apply kept_createPricingConfig, I.
  - apply kept_updatePricingConfig, I.
  - apply kept_ensure, I.
  - apply kept_active, I.
  - apply kept_validateAndSnapshotPricing, I.
Qed.

Lemma findSnapshot_run `{Env} s k sn : SnapInv (St.db s) ->
  Db.ridePricingSnapshot (St.db s) !! k = Some sn ->
  findSnapshot (RidePricingSnapshot.rideId sn) s = (s, Ok (Some sn)).
Proof.
  intros U E. unfold findSnapshot, findFirst, get. f_equal. f_equal.
  apply (findFirst_unique _ _ _ k); [exact E | apply bool_decide_eq_true_2; reflexivity |].
  intros k' r' E' R. apply bool_decide_eq_true in R. pose proof (U _ _ _ _ E' E R) as ->. cbn in E'. congruence.
Qed.

(** ** Results of the readers *)

(** The first row of an ordered list is minimal for the order's key. *)
Lemma sort_by_head_min {A} (key : A -> Z) (l : list A) x :
  head (sort_by key l) = Some x -> forall y, In y l -> key x <= key y.
Proof.
  revert x. induction l as [|a l IH]; [intros ? [=]|]. intros x Hx y Hy.
  change (head (insert_by key a (sort_by key l)) = Some x) in Hx.
  assert (D : forall y, In y l -> exists b, head (sort_by key l) = Some b /\ key b <= key y).
  { intros z Hz. destruct (sort_by key l) as [|b r] eqn:Es.
    - pose proof (sort_by_perm key l) as P. rewrite Es in P. apply Permutation_nil in P. subst. destruct Hz.
    - exists b. split; [reflexivity|]. eapply IH; [reflexivity | exact Hz]. }
  destruct (sort_by key l) as [|b r] eqn:Es.
  - cbn in Hx. injection Hx as <-. destruct Hy as [<-|Hy]; [lia|].
    destruct (D y Hy) as (? & [=] & _).
  - cbn in Hx. destruct (Z.leb_spec (key a) (key b)); injection Hx as <-.
    + destruct Hy as [<-|Hy]; [lia|]. destruct (D y Hy) as (b' & [= <-] & L). lia.
    + destruct Hy as [<-|Hy]; [lia|]. destruct (D y Hy) as (b' & [= <-] & L). exact L.
Qed.

Lemma head_sort_In {A} (key : A -> Z) l x : head (sort_by key l) = Some x -> In x l.
Proof.
  intros Hx. apply list_elem_of_In. rewrite <- (sort_by_perm key l).
  destruct (sort_by key l); [discriminate|]. injection Hx as ->. constructor.
Qed.

Lemma sort_In {A} (key : A -> Z) l x : In x (sort_by key l) <-> In x l.
Proof. rewrite <- !list_elem_of_In, (sort_by_perm key l). reflexivity. Qed.

Lemma head_sort_None {A} (key : A -> Z) l : head (sort_by key l) = None -> l = [].
Proof.
  intros Hn. apply Permutation_nil. symmetry. rewrite <- (sort_by_perm key l).
  destruct (sort_by key l); [reflexivity | discriminate].
Qed.

Lemma resolveActiveFeeTerms_ok `{Env} region s : exists s' t, resolveActiveFeeTerms region s = (s', Ok t).
Proof.
  unfold resolveActiveFeeTerms, getActivePricingConfig.
  unfold mbind at 1, M_bind at 1, get. destruct (head _); [do 2 eexists; reflexivity|].
  rewrite bind_run. unfold try_catch at 1 2. rewrite !bind_run.
  destruct (ensureDefaultPricingConfig s) as [s' [c|e]]; cbn; do 2 eexists; reflexivity.
Qed.

Section bulk.
Context (id : string).
Implicit Types (terms : gmap string ServiceFeeTerms.t).

Lemma fold_snapshots_lookup (l : list RidePricingSnapshot.t) terms sn :
  (forall x, In x l -> RidePricingSnapshot.rideId x = id -> x = sn) ->
  fold_left (fun terms s => <[RidePricingSnapshot.rideId s := snapshotTerms s]> terms) l terms !! id =
    if bool_decide (Exists (fun x => RidePricingSnapshot.rideId x = id) l)
    then Some (snapshotTerms sn) else terms !! id.
Proof.
  revert terms. induction l as [|x l IH]; intros terms Hu; [reflexivity|]. cbn [fold_left].
  rewrite IH by (intros; apply Hu; [right|]; assumption).
  case_bool_decide as E1.
  - rewrite bool_decide_eq_true_2 by (right; exact E1). reflexivity.
  - destruct (decide (RidePricingSnapshot.rideId x = id)) as [E|N].
    + rewrite bool_decide_eq_true_2 by (left; exact E). rewrite E, lookup_insert_eq.
      rewrite (Hu x (or_introl eq_refl) E). reflexivity.
    + rewrite bool_decide_eq_false_2 by (inversion 1; contradiction).
      apply lookup_insert_ne, N.
Qed.

Lemma fold_fallback_lookup (ids : list string) fallback terms : id ∈ ids ->
  fold_left (fun terms rideId =>
    match terms !! rideId with Some _ => terms | None => <[rideId := fallback]> terms end) ids terms !! id
  = Some (default fallback (terms !! id)).
Proof.
  assert (K : forall ids terms t, terms !! id = Some t ->
    fold_left (fun terms rideId =>
      match terms !! rideId with Some _ => terms | None => <[rideId := fallback]> terms end) ids terms !! id = Some t).
  { clear terms ids. induction ids as [|i ids IH]; intros terms t Ht; [exact Ht|]. cbn. apply IH.
    destruct (terms !! i) eqn:Ei; [exact Ht|]. rewrite lookup_insert_ne; [exact Ht | congruence]. }
  revert terms. induction ids as [|i ids IH]; intros terms Hi; [inversion Hi|]. cbn [fold_left].
  destruct (decide (i = id)) as [->|N].
  - destruct (terms !! id) as [t|] eqn:Et; [apply K, Et | apply K, lookup_insert_eq].
  - rewrite IH; [|inversion Hi; [congruence | assumption]].
    destruct (terms !! i); [reflexivity|]. rewrite lookup_insert_ne by exact N. reflexivity.
Qed.
End bulk.

Lemma fold_snapshots_dom (l : list RidePricingSnapshot.t) (terms : gmap string ServiceFeeTerms.t) :
  dom (fold_left (fun terms s => <[RidePricingSnapshot.rideId s := snapshotTerms s]> terms) l terms)
  = dom terms ∪ list_to_set (map RidePricingSnapshot.rideId l).
Proof.
  revert terms. induction l as [|x l IH]; intros terms; cbn [fold_left map list_to_set foldr]; [set_solver|].
  rewrite IH, dom_insert_L. set_solver.
Qed.

Lemma list_to_set_size_le (ids : list string) : (size (list_to_set ids : gset string) <= length ids)%nat.
Proof.
  induction ids as [|i ids IH]; [reflexivity|]. rewrite list_to_set_cons, size_union_alt, size_singleton.
  assert (S : list_to_set ids ∖ {[i]} ⊆ (list_to_set ids : gset string)) by set_solver.
  apply subseteq_size in S. cbn [length]. lia.
Qed.

(** Enough terms for all the rides means terms for every ride. *)
Lemma dom_covers (ids : list string) (terms : gmap string ServiceFeeTerms.t) id :
  dom terms ⊆ list_to_set ids -> (length ids <= size terms)%nat -> id ∈ ids -> is_Some (terms !! id).
Proof.
  intros Hd Hs Hi. apply elem_of_dom.
  pose proof (list_to_set_size_le ids) as L. rewrite <- (size_dom (D:=gset string) terms) in Hs.
  assert (E : dom terms ≡ list_to_set ids) by (apply set_subseteq_size_equiv; [exact Hd | lia]).
  rewrite E. apply elem_of_list_to_set, Hi.
Qed.

(** The snapshots of the listed rides, as the bulk resolution collects them. *)
Definition snapshotsOf (ids : list string) (d : Db.t) : list RidePricingSnapshot.t :=
  where_ prisma.ridePricingSnapshot (fun s => bool_decide (RidePricingSnapshot.rideId s ∈ ids)) d.
Definition termsOf (ids : list string) (d : Db.t) : gmap string ServiceFeeTerms.t :=
  fold_left (fun terms s => <[RidePricingSnapshot.rideId s := snapshotTerms s]> terms) (snapshotsOf ids d) ∅.

Lemma termsOf_dom ids d id : is_Some (termsOf ids d !! id) <->
  exists x, In x (snapshotsOf ids d) /\ RidePricingSnapshot.rideId x = id.
Proof.
  rewrite <- elem_of_dom. unfold termsOf. rewrite fold_snapshots_dom, dom_empty_L, union_empty_l_L.
  rewrite elem_of_list_to_set, list_elem_of_In, in_map_iff. split; intros (x & A & B); eauto.
Qed.

Lemma termsOf_lookup ids d id k sn : SnapInv d -> id ∈ ids ->
  Db.ridePricingSnapshot d !! k = Some sn -> RidePricingSnapshot.rideId sn = id ->
  termsOf ids d !! id = Some (snapshotTerms sn).
Proof.
  intros U Hid L R. unfold termsOf. rewrite (fold_snapshots_lookup id _ ∅ sn).
  - rewrite bool_decide_eq_true_2; [reflexivity|]. apply Exists_exists. exists sn. split; [|exact R].
    apply list_elem_of_In, where_elem. split; [apply bool_decide_eq_true_2; rewrite R; exact Hid | eauto].
  - intros x [_ [k' L']]%where_elem Rx. cbn in L'.
    pose proof (U _ _ _ _ L' L (eq_trans Rx (eq_sym R))) as ->. congruence.
Qed.

(** What one ride resolves to, in terms of the collected snapshots. *)
Lemma resolveRideFeeTerms_run `{Env} ids id s : SnapInv (St.db s) -> id ∈ ids ->
  exists s', resolveRideFeeTerms id s = match termsOf ids (St.db s) !! id with
    | Some t => (s', Ok t) | None => resolveActiveFeeTerms None s end.
Proof.
  intros U Hid. exists s. unfold resolveRideFeeTerms, findSnapshot, findFirst. unfold mbind at 1, M_bind at 1, get.
  set (w := where_ prisma.ridePricingSnapshot (fun x => bool_decide (RidePricingSnapshot.rideId x = id)) (St.db s)).
  destruct (head w) as [sn|] eqn:Hd.
  - assert (Hin : In sn w) by (destruct w; [discriminate | injection Hd as ->; left; reflexivity]).
    apply where_elem in Hin as [Pr [k Lk]]. apply bool_decide_eq_true in Pr.
    rewrite (termsOf_lookup ids _ id k sn U Hid Lk Pr). reflexivity.
  - assert (T : termsOf ids (St.db s) !! id = None).
    { apply eq_None_not_Some. intros S. apply termsOf_dom in S as (x & Hx & Rx).
      apply where_elem in Hx as [_ Lk].
      assert (Hin : In x w) by (apply where_elem; split; [apply bool_decide_eq_true_2, Rx | exact Lk]).
      destruct w; [destruct Hin | discriminate Hd]. }
    rewrite T. reflexivity.
Qed.

(** ** The theorems *)

(** A region never has two active configurations: from a store where
    this holds, no sequence of creations, updates, seedings and snapshots, each at
    its own time, makes two rows of a region active. *)
Theorem one_active_config_per_region (s s' : St.t) (k1 k2 : string) (c1 c2 : PricingConfig.t) :
  ConfigInv (St.db s) -> rtc pricing_op s s' ->
  Db.pricingConfig (St.db s') !! k1 = Some c1 -> Db.pricingConfig (St.db s') !! k2 = Some c2 ->
  PricingConfig.active c1 = true -> PricingConfig.active c2 = true ->
  PricingConfig.regionCode c1 = PricingConfig.regionCode c2 -> c1 = c2.
Proof.
  intros I Hs. assert (I' : ConfigInv (St.db s')) by (revert I; induction Hs; eauto using pricing_op_inv).
  intros E1 E2 A1 A2 R. pose proof (config_unique _ I' _ _ _ _ E1 E2 A1 A2 R) as ->. congruence.
Qed.

(** A published ride is never repriced: the fee terms frozen in its
    snapshot are what every later booking reads, whatever configurations are
    created, updated, seeded or snapshotted in between. *)
Theorem published_terms_frozen (s s' : St.t) (k : string) (sn : RidePricingSnapshot.t) :
  SnapInv (St.db s) -> Db.ridePricingSnapshot (St.db s) !! k = Some sn -> rtc pricing_op s s' ->
  forall E : Env, resolveRideFeeTerms (RidePricingSnapshot.rideId sn) s' = (s', Ok (snapshotTerms sn)).
Proof.
  intros U L Hs E.
  assert (K : snapshots_kept (St.db s) (St.db s')).
  { assert (K0 : snapshots_kept (St.db s) (St.db s)) by (split; [exact U | auto]).
    revert K0. generalize (St.db s) at 1 3. intros d0. clear U L. induction Hs; eauto using pricing_op_kept. }
  destruct K as [U' K]. unfold resolveRideFeeTerms.
  rewrite (bind_Ok _ _ _ _ _ (findSnapshot_run s' k sn U' (K k sn L))). reflexivity.
Qed.

(** Pricing many rides at once is pricing each of them: the bulk
    resolution never fails and gives every ride the terms the single resolution
    gives it. *)
Theorem bulk_terms_agree `{Env} (ids : list string) (s : St.t) : SnapInv (St.db s) ->
  exists s' m, resolveFeeTermsForRides ids s = (s', Ok m) /\
    forall id, id ∈ ids -> exists s'' t, resolveRideFeeTerms id s = (s'', Ok t) /\ m !! id = Some t.
Proof.
  intros U. destruct ids as [|i0 ids0]; [exists s, ∅; split; [reflexivity | intros ? Hi; inversion Hi]|].
  unfold resolveFeeTermsForRides. set (ids := i0 :: ids0).
  rewrite (bind_Ok (findMany _ _) _ s s (snapshotsOf ids (St.db s)) eq_refl).
  change (fold_left _ (snapshotsOf ids (St.db s)) ∅) with (termsOf ids (St.db s)). cbv zeta.
  destruct (resolveActiveFeeTerms_ok None s) as (s1 & fallback & Ef).
  set (terms := termsOf ids (St.db s)).
  assert (R : forall id, id ∈ ids -> exists s'' t, resolveRideFeeTerms id s = (s'', Ok t) /\
            t = default fallback (terms !! id)).
  { intros id Hid. destruct (resolveRideFeeTerms_run ids id s U Hid) as [s' E]. rewrite E. fold terms.
    destruct (terms !! id); [|rewrite Ef]; do 2 eexists; split; reflexivity. }
  destruct (Nat.ltb_spec (size terms) (length ids)) as [Lt|Ge].
  - eexists s1, _. split; [rewrite (bind_Ok _ _ _ _ _ Ef); reflexivity|]. intros id Hid.
    destruct (R id Hid) as (s'' & t & E & ->). exists s'', (default fallback (terms !! id)). split; [exact E|].
    exact (fold_fallback_lookup id ids fallback terms Hid).
  - exists s, terms. split; [reflexivity|]. intros id Hid.
    assert (S : is_Some (terms !! id)).
    { apply (dom_covers ids); [|exact Ge | exact Hid]. intros x Hx%elem_of_dom.
      apply termsOf_dom in Hx as (y & Hy & <-). apply where_elem in Hy as [Py _].
      apply bool_decide_eq_true in Py. apply elem_of_list_to_set, Py. }
    destruct S as [t T]. destruct (R id Hid) as (s'' & t' & Et & ->). rewrite T in Et |- *. eauto.
Qed.

(** ** Price ranges *)

Lemma nmax_lb_r x y : (y <= nmax x y)%Q.
Proof. unfold nmax, nle. destruct (Qle_bool x y) eqn:E; [lra|]. rewrite <- not_true_iff_false, Qle_bool_iff in E. lra. Qed.

Lemma nmax_lb_l x y : (x <= nmax x y)%Q.
Proof. unfold nmax, nle. destruct (Qle_bool x y) eqn:E; [apply Qle_bool_iff, E | lra]. Qed.

Lemma nmax_lub x y z : (x <= z)%Q -> (y <= z)%Q -> (nmax x y <= z)%Q.
Proof. unfold nmax. destruct (nle x y); auto. Qed.

Lemma nmin_lb_r x y : (nmin x y <= y)%Q.
Proof. unfold nmin, nle. destruct (Qle_bool x y) eqn:E; [apply Qle_bool_iff, E | lra]. Qed.

Lemma nmin_lb_l x y : (nmin x y <= x)%Q.
Proof. unfold nmin, nle. destruct (Qle_bool x y) eqn:E; [lra|]. rewrite <- not_true_iff_false, Qle_bool_iff in E. lra. Qed.

Lemma nmin_glb x y z : (z <= x)%Q -> (z <= y)%Q -> (z <= nmin x y)%Q.
Proof. unfold nmin. destruct (nle x y); auto. Qed.

Lemma nmul_mono_r d a b : (0 <= d)%Q -> (0 <= a)%Q -> (a <= b)%Q -> (nmul d a <= nmul d b)%Q.
Proof. intros. unfold nmul. apply rnd_mono; nra. Qed.

Lemma nmul_nonneg a b : (0 <= a)%Q -> (0 <= b)%Q -> (0 <= nmul a b)%Q.
Proof. intros. unfold nmul. apply rnd_nonneg. nra. Qed.

Lemma to_cents_mono a b : (0 <= a)%Q -> (a <= b)%Q -> 0 <= to_cents a <= to_cents b.
Proof.
  intros. unfold to_cents. split.
  - rewrite <- (math_round_Z 0) at 1. apply math_round_mono. change (inject_Z 0) with 0%Q.
    apply nmul_nonneg; [assumption|]. discriminate.
  - apply math_round_mono. unfold nmul. apply rnd_mono; nra.
Qed.

Lemma round_cents_mono a b : (0 <= a)%Q -> (a <= b)%Q -> (of_cents (to_cents a) <= of_cents (to_cents b))%Q.
Proof. intros. apply of_cents_mono, to_cents_mono; assumption. Qed.

Lemma applyRounding_mono strategy a b : (0 <= a)%Q -> (a <= b)%Q ->
  (applyRounding a strategy <= applyRounding b strategy)%Q.
Proof.
  intros Ha Hab. unfold applyRounding. repeat case_decide.
  - unfold num_of_Z. rewrite <- Zle_Qle. apply math_round_mono, Hab.
  - assert (D : (0 <= nmul a (num_of_Z 2))%Q /\ (nmul a (num_of_Z 2) <= nmul b (num_of_Z 2))%Q).
    { split; [apply nmul_nonneg; [exact Ha | discriminate]|]. unfold nmul. apply rnd_mono; unfold num_of_Z; change (inject_Z 2) with 2%Q; nra. }
    destruct D as [D0 D1]. apply math_round_mono in D0, D1. change (math_round 0%Q) with 0 in D0.
    rewrite Zle_Qle in D0, D1. change (inject_Z 0) with 0%Q in D0.
    unfold ndiv, num_of_Z in *. apply rnd_mono; unfold Qdiv; change (/ inject_Z 2)%Q with (1 # 2)%Q; nra.
  - apply round_cents_mono; assumption.
Qed.

Lemma nmax_mono m a b : (a <= b)%Q -> (nmax m a <= nmax m b)%Q.
Proof. intros. apply nmax_lub; [apply nmax_lb_l|]. eapply Qle_trans; [eassumption | apply nmax_lb_r]. Qed.

(** The price range shown to a driver is ordered: under a configuration
    that passed the bounds check, minimum <= recommended <= maximum for every
    distance and rounding strategy, none is below the minimum seat price, and a
    price is accepted exactly when it reaches the minimum. *)
Theorem price_range_ordered (distanceKm selected : num) (config : PricingConfig.t) :
  (0 <= distanceKm)%Q -> (0 <= PricingConfig.minRatePerKm config)%Q ->
  (PricingConfig.minRatePerKm config <= PricingConfig.recommendedRatePerKm config)%Q ->
  (PricingConfig.recommendedRatePerKm config <= PricingConfig.maxRatePerKm config)%Q ->
  let c := calculatePrice distanceKm config in
  (PricingConfig.minimumSeatPrice config <= PriceCalculation.minAllowedPricePerSeat c)%Q /\
  (PriceCalculation.minAllowedPricePerSeat c <= PriceCalculation.recommendedPricePerSeat c)%Q /\
  (PriceCalculation.recommendedPricePerSeat c <= PriceCalculation.maxAllowedPricePerSeat c)%Q /\
  (pv_valid (validateDriverPrice selected c) = true <->
     (PriceCalculation.minAllowedPricePerSeat c <= selected)%Q).
Proof.
  intros Hd Hm Hr Hx c. unfold c, calculatePrice.
  cbn [PriceCalculation.minAllowedPricePerSeat PriceCalculation.recommendedPricePerSeat
       PriceCalculation.maxAllowedPricePerSeat].
  split; [apply nmax_lb_l|]. split; [|split].
  - apply nmax_mono, applyRounding_mono; [apply nmul_nonneg | apply nmul_mono_r]; assumption.
  - apply nmax_mono, applyRounding_mono; [apply nmul_nonneg | apply nmul_mono_r]; lra.
  - unfold validateDriverPrice, nlt.
    cbn [PriceCalculation.minAllowedPricePerSeat].
    destruct (Qle_bool _ selected) eqn:E; cbn.
    + split; [intros _; apply Qle_bool_iff, E | reflexivity].
    + rewrite <- not_true_iff_false, Qle_bool_iff in E. split; [discriminate | contradiction].
Qed.

Lemma rnd_le_rep x y : (0 <= x)%Q -> (x <= y)%Q -> (rnd y == y)%Q -> (rnd x <= y)%Q.
Proof. intros H0 Hxy Hy. rewrite <- Hy. apply rnd_mono; assumption. Qed.

Lemma cents_of_rounded v : (0 <= v)%Q -> to_cents v <= safe_cents ->
  to_cents (of_cents (to_cents v)) = to_cents v.
Proof. intros H0 Hs. pose proof (to_cents_mono v v H0 ltac:(lra)). apply to_cents_of_cents. lia. Qed.

(** The three prices of a stop are the roundings of [lo <= s <= hi <= base]. *)
Lemma calculateStopoverFare_shape (base d t : num) :
  (0 <= base)%Q -> (rnd base == base)%Q -> (0 <= d)%Q -> (d <= t)%Q -> (0 < t)%Q ->
  exists lo s hi, (0 <= lo)%Q /\ (lo <= s)%Q /\ (s <= hi)%Q /\ (hi <= base)%Q /\
    calculateStopoverFare base d t =
      {| StopoverFare.recommendedPrice := of_cents (to_cents s);
         StopoverFare.minPrice := of_cents (to_cents lo);
         StopoverFare.maxPrice := of_cents (to_cents hi) |}.
Proof.
  intros Hb Rb Hd Hdt Ht.
  assert (T : nle t (num_of_Z 0) = false).
  { unfold nle. apply not_true_iff_false. rewrite Qle_bool_iff. change (num_of_Z 0) with 0%Q. lra. }
  unfold calculateStopoverFare. rewrite T. cbv zeta.
  set (ratio := nmax (num_of_Z 0) (ndiv d t)).
  assert (Q1 : (0 <= ratio)%Q) by apply nmax_lb_l.
  assert (Q2 : (ratio <= 1)%Q).
  { apply nmax_lub; [discriminate|]. unfold ndiv. apply rnd_le_rep; [| |vm_compute; reflexivity].
    - apply Qle_shift_div_l; lra.
    - apply Qle_shift_div_r; lra. }
  set (s := nmul base ratio).
  assert (S0 : (0 <= s)%Q) by (apply nmul_nonneg; assumption).
  assert (S1 : (s <= base)%Q) by (apply rnd_le_rep; [nra | nra | exact Rb]).
  assert (Rs : (rnd s == s)%Q) by (apply rnd_idem; nra).
  assert (M1 : (0 <= STOPOVER_MIN_PRICE_MULTIPLIER <= 1)%Q) by (split; vm_compute; discriminate).
  assert (M2 : (1 <= STOPOVER_MAX_PRICE_MULTIPLIER)%Q) by (vm_compute; discriminate).
  clearbody s. do 3 eexists. repeat split.
  - apply nmul_nonneg; lra.
  - apply rnd_le_rep; [nra | nra | exact Rs].
  - apply nmin_glb; [|exact S1]. unfold nmul. rewrite <- Rs at 1. apply rnd_mono; nra.
  - apply nmin_lb_r.
Qed.

Lemma to_cents_proper x y : (0 <= x)%Q -> (x == y)%Q -> to_cents x = to_cents y.
Proof.
  intros H0 E. pose proof (to_cents_mono x y H0 ltac:(lra)).
  pose proof (to_cents_mono y x ltac:(lra) ltac:(lra)). lia.
Qed.

(** Clamping to a rounded range. *)
Lemma clampToRange_spec (value lo hi : num) : (0 <= lo)%Q -> (lo <= hi)%Q -> to_cents hi <= safe_cents ->
  let clamped := clampToRange value (of_cents (to_cents lo)) (of_cents (to_cents hi)) in
  (of_cents (to_cents lo) <= clamped)%Q /\ (clamped <= of_cents (to_cents hi))%Q /\
  (forall c, value = of_cents c -> 0 <= c <= safe_cents -> (of_cents (to_cents lo) <= value)%Q ->
     (value <= of_cents (to_cents hi))%Q -> clamped = value).
Proof.
  intros L0 LH Ch. cbv zeta.
  assert (Cl : to_cents lo <= safe_cents) by (pose proof (to_cents_mono lo hi L0 LH); lia).
  pose proof (round_cents_mono lo hi L0 LH) as RH.
  assert (NL : nlt (of_cents (to_cents hi)) (of_cents (to_cents lo)) = false).
  { unfold nlt. apply negb_false_iff, Qle_bool_iff, RH. }
  assert (P0 : (0 <= of_cents (to_cents lo))%Q).
  { change 0%Q with (of_cents 0). apply of_cents_mono. pose proof (to_cents_mono lo lo L0 ltac:(lra)). lia. }
  unfold clampToRange. rewrite NL.
  set (x := nmin (nmax value (of_cents (to_cents lo))) (of_cents (to_cents hi))).
  assert (X1 : (of_cents (to_cents lo) <= x)%Q) by (apply nmin_glb; [apply nmax_lb_r | exact RH]).
  assert (X2 : (x <= of_cents (to_cents hi))%Q) by apply nmin_lb_r.
  split; [|split].
  - rewrite <- (cents_of_rounded lo L0 Cl). apply round_cents_mono; lra.
  - rewrite <- (cents_of_rounded hi ltac:(lra) Ch). apply round_cents_mono; lra.
  - intros c -> Hc V1 V2.
    assert (E : (x == of_cents c)%Q).
    { apply Qle_antisym; [|apply nmin_glb; [apply nmax_lb_l | exact V2]].
      eapply Qle_trans; [apply nmin_lb_l | apply nmax_lub; lra]. }
    rewrite (to_cents_proper x (of_cents c)) by lra. rewrite to_cents_of_cents by lia. reflexivity.
Qed.

(** Part of a ride never costs more than the ride: for a stop on the
    route, minimum <= recommended <= maximum <= the (rounded) fare of the whole
    ride, and whatever price a driver chose, clamping it lands in that range and
    leaves whole-cent prices inside the range as they are. *)
Theorem stopover_fare_within_ride (base distanceFromOriginKm totalDistanceKm value : num) :
  (0 <= base)%Q -> (rnd base == base)%Q -> to_cents base <= safe_cents ->
  (0 <= distanceFromOriginKm)%Q -> (distanceFromOriginKm <= totalDistanceKm)%Q -> (0 < totalDistanceKm)%Q ->
  let f := calculateStopoverFare base distanceFromOriginKm totalDistanceKm in
  let clamped := clampToRange value (StopoverFare.minPrice f) (StopoverFare.maxPrice f) in
  (StopoverFare.minPrice f <= StopoverFare.recommendedPrice f)%Q /\
  (StopoverFare.recommendedPrice f <= StopoverFare.maxPrice f)%Q /\
  (StopoverFare.maxPrice f <= of_cents (to_cents base))%Q /\
  (StopoverFare.minPrice f <= clamped)%Q /\ (clamped <= StopoverFare.maxPrice f)%Q /\
  (forall c, value = of_cents c -> 0 <= c <= safe_cents -> (StopoverFare.minPrice f <= value)%Q ->
     (value <= StopoverFare.maxPrice f)%Q -> clamped = value).
Proof.
  intros Hb Rb Sb Hd Hdt Ht.
  destruct (calculateStopoverFare_shape base _ _ Hb Rb Hd Hdt Ht) as (lo & s & hi & L0 & L1 & H1 & H2 & ->).
  cbn [StopoverFare.minPrice StopoverFare.maxPrice StopoverFare.recommendedPrice].
  assert (Ch : to_cents hi <= safe_cents) by (pose proof (to_cents_mono hi base ltac:(lra) H2); lia).
  destruct (clampToRange_spec value lo hi L0 ltac:(lra) Ch) as (C1 & C2 & C3).
  repeat split; try assumption; apply round_cents_mono; lra.
Qed.

(** ** A configuration that starts later *)

(** What a creation of an active row leaves behind. *)
Lemma createPricingConfig_Ok `{Env} (s s' : St.t) region currency lo rec hi minimum strategy percent flat start
    validTo by_ c : ConfigInv (St.db s) ->
  createPricingConfig region currency lo rec hi minimum strategy percent flat None (Some start) validTo by_ s
    = (s', Ok c) ->
  PricingConfig.regionCode c = region /\ PricingConfig.active c = true /\ PricingConfig.validFrom c = start /\
  PricingConfig.serviceFeePercent c = percent /\ PricingConfig.serviceFeeFlat c = flat /\
  exists k, Db.pricingConfig (St.db s') !! k = Some c /\
    forall k' x, Db.pricingConfig (St.db s') !! k' = Some x -> PricingConfig.regionCode x = region ->
      x = c \/ PricingConfig.active x = false.
Proof.
  intros I Hc. unfold createPricingConfig in Hc. cbv zeta in Hc.
  apply bind_inv in Hc as ([] & s0 & Hb & Hc).
  destruct (assertPricingBounds_run lo rec hi s) as (r & Er & _). rewrite Er in Hb. injection Hb as <- ->. clear Er.
  unfold transaction in Hc. cbn [default from_option id when] in Hc.
  rewrite (bind_Ok _ _ _ _ _ (deactivateRegion_run region None start s)) in Hc.
  destruct (deactivated_inv region None start (St.db s) I) as [_ F].
  set (s1 := s <| St.db ::= deactivated region None start |>) in *.
  change (deactivated region None start (St.db s)) with (St.db s1) in *. clearbody s1.
  unfold randomUUID, mbind at 1, M_bind at 1 in Hc. unfold create in Hc. rewrite bind_run in Hc. cbn in Hc.
  destruct (Db.pricingConfig (St.db s1) !! uuid (St.seq s1)) eqn:L; [discriminate|].
  injection Hc as <- <-. do 5 (split; [reflexivity|]). exists (uuid (St.seq s1)).
  split; [apply lookup_insert_eq|]. intros k' x. cbn. rewrite lookup_insert_Some.
  intros [[<- <-]|[N E]] R; [auto|]. right.
  destruct (PricingConfig.active x) eqn:A; [|reflexivity]. discriminate (F k' x E A R).
Qed.

(** Creating an active configuration that starts in the future closes
    the current one at once: until the start the region has no live
    configuration and price previews fail; and when the region is the default one
    the fee terms of rides without a snapshot switch to the future rates
    immediately. *)
Theorem scheduled_config_takes_effect_early `{Env} (s s' : St.t) (region currency : string)
    (lo rec hi minimum : num) (strategy : string) (percent flat : num) (start : Z)
    (validTo : option Z) (by_ : option string) (c : PricingConfig.t) :
  ConfigInv (St.db s) -> region <> EmptyString -> now < start ->
  createPricingConfig region currency lo rec hi minimum strategy percent flat None (Some start) validTo by_ s
    = (s', Ok c) ->
  (forall distanceKm, getPricePreview distanceKm (Some region) s' = (s', Err "PRICING_CONFIG_NOT_FOUND")) /\
  (region = DEFAULT_REGION -> resolveActiveFeeTerms None s' =
     (s', Ok {| ServiceFeeTerms.serviceFeePercent := percent; ServiceFeeTerms.serviceFeeFlat := flat;
                ServiceFeeTerms.source := DEFAULT |})).
Proof.
  intros I Hr Hs Hc.
  destruct (createPricingConfig_Ok _ _ _ _ _ _ _ _ _ _ _ _ _ _ _ I Hc) as (Cr & Ca & Cv & Cp & Cf & k & Ck & Co).
  assert (N : getActivePricingConfig region s' = (s', Ok None)).
  { unfold getActivePricingConfig, get. rewrite where_nil; [reflexivity|]. intros k' x E.
    destruct (bool_decide _) eqn:R; [|reflexivity]. apply bool_decide_eq_true in R. unfold isLive.
    destruct (Co k' x E R) as [->|A]; [|rewrite A; reflexivity].
    rewrite Ca, Cv. rewrite (proj2 (Z.leb_gt start now)) by lia. reflexivity. }
  split.
  - intros d. unfold getPricePreview, regionOr. destruct region as [|ch rest]; [congruence|].
    cbn [truthy default from_option id]. rewrite (bind_Ok _ _ _ _ _ N). reflexivity.
  - intros ->. unfold resolveActiveFeeTerms, regionOr. cbn [truthy default from_option id].
    rewrite (bind_Ok _ _ _ _ _ N). cbv beta iota.
    set (rows_ := where_ prisma.pricingConfig
      (fun c => bool_decide (PricingConfig.regionCode c = DEFAULT_REGION)) (St.db s')).
    assert (Hd : head (sort_desc (fun c => if PricingConfig.active c then 1 else 0)
      (sort_desc PricingConfig.validFrom (sort_desc PricingConfig.createdAt rows_))) = Some c).
    { assert (Hin : In c (sort_desc PricingConfig.validFrom (sort_desc PricingConfig.createdAt rows_))).
      { apply sort_In, sort_In, where_elem. split; [apply bool_decide_eq_true_2, Cr | eauto]. }
      destruct (head _) as [x|] eqn:Hx.
      - pose proof (sort_by_head_min _ _ x Hx c Hin) as Hmin. cbv beta in Hmin. rewrite Ca in Hmin.
        apply head_sort_In, sort_In, sort_In, where_elem in Hx as [Rx [k' Ex]]. apply bool_decide_eq_true in Rx.
        destruct (Co k' x Ex Rx) as [->|A]; [reflexivity|]. rewrite A in Hmin. lia.
      - apply head_sort_None in Hx. rewrite Hx in Hin. destruct Hin. }
    unfold ensureDefaultPricingConfig, try_catch, mbind, M_bind, get. fold rows_. rewrite Hd. cbn.
    rewrite Cp, Cf. reflexivity.
Qed.

(** ** Examples *)

Definition demo_config (k region : string) (act : bool) (from percent : Z) : PricingConfig.t :=
  PricingConfig.defaults k 0 <| PricingConfig.regionCode := region |> <| PricingConfig.active := act |>
    <| PricingConfig.validFrom := from |> <| PricingConfig.minRatePerKm := rnd (6 # 100) |>
    <| PricingConfig.recommendedRatePerKm := rnd (8 # 100) |> <| PricingConfig.maxRatePerKm := rnd (12 # 100) |>
    <| PricingConfig.serviceFeePercent := num_of_Z percent |>.

Definition demo_snapshot : RidePricingSnapshot.t :=
  RidePricingSnapshot.defaults "snap" 0 <| RidePricingSnapshot.rideId := "ride" |>
    <| RidePricingSnapshot.serviceFeePercent := num_of_Z 15 |>.

Definition demo_pricing : St.t :=
  {| St.db := Db.empty <| Db.pricingConfig := {[ "cfg" := demo_config "cfg" "BALTIC" true 0 20 ]} |>
                       <| Db.ridePricingSnapshot := {[ "snap" := demo_snapshot ]} |>;
     St.fx := []; St.seq := 0 |}.

Lemma demo_config_rows k c : Db.pricingConfig (St.db demo_pricing) !! k = Some c ->
  k = "cfg"%string /\ c = demo_config "cfg" "BALTIC" true 0 20.
Proof.
  intros E. change (({[ "cfg"%string := demo_config "cfg" "BALTIC" true 0 20 ]} : gmap string PricingConfig.t) !! k = Some c) in E.
  apply lookup_singleton_Some in E as [<- <-]. auto.
Qed.

Lemma demo_ConfigInv : ConfigInv (St.db demo_pricing).
Proof.
  split.
  - intros k c [-> ->]%demo_config_rows. reflexivity.
  - intros k1 k2 c1 c2 [-> _]%demo_config_rows [-> _]%demo_config_rows. reflexivity.
Qed.

Lemma demo_SnapInv : SnapInv (St.db demo_pricing).
Proof.
  intros k1 k2 s1 s2 E1 E2 _.
  change (({[ "snap"%string := demo_snapshot ]} : gmap string RidePricingSnapshot.t) !! k1 = Some s1) in E1.
  change (({[ "snap"%string := demo_snapshot ]} : gmap string RidePricingSnapshot.t) !! k2 = Some s2) in E2.
  apply lookup_singleton_Some in E1 as [<- _], E2 as [<- _]. reflexivity.
Qed.

(** A rise of the rate to 30 percent. *)
Definition demo_raise `{Env} (from : Z) : H PricingConfig.t :=
  createPricingConfig "BALTIC" "EUR" (rnd (6 # 100)) (rnd (8 # 100)) (rnd (12 # 100)) (num_of_Z 3) "NEAREST_EURO"
    (num_of_Z 30) (num_of_Z 0) None (Some from) None None.

Lemma demo_raise_step `{Env} from : pricing_op demo_pricing (demo_raise from demo_pricing).1.
Proof. unfold demo_raise. apply op_create. Qed.

Lemma one_active_config_per_region_witness :
  let E := demo_env 100 no_failure in
  let s' := (demo_raise 100 demo_pricing).1 in
  exists c1 c2, Db.pricingConfig (St.db s') !! "id" = Some c1 /\ Db.pricingConfig (St.db s') !! "id" = Some c2 /\
    PricingConfig.active c1 = true /\ c1 = c2.
Proof.
  intros E s'.
  assert (R : is_Some (Db.pricingConfig (St.db s') !! "id") /\
    option_map PricingConfig.active (Db.pricingConfig (St.db s') !! "id") = Some true).
  { split; [|vm_compute; reflexivity]. vm_compute. eexists. reflexivity. }
  destruct R as [[c Ec] A]. rewrite Ec in A. injection A as A. exists c, c.
  split; [exact Ec|]. split; [exact Ec|]. split; [exact A|].
  apply (one_active_config_per_region demo_pricing s' "id" "id" c c demo_ConfigInv); auto.
  apply rtc_once, (@demo_raise_step E).
Defined.

Lemma published_terms_frozen_witness :
  let E := demo_env 100 no_failure in
  let s' := (demo_raise 100 demo_pricing).1 in
  resolveRideFeeTerms "ride" s' = (s', Ok (snapshotTerms demo_snapshot)).
Proof.
  intros E s'. apply (published_terms_frozen demo_pricing s' "snap" demo_snapshot demo_SnapInv);
    [vm_compute; reflexivity | apply rtc_once, (@demo_raise_step E)].
Defined.

Lemma bulk_terms_agree_witness :
  let E := demo_env 100 no_failure in
  exists s' m, resolveFeeTermsForRides ["ride"; "other"] demo_pricing = (s', Ok m) /\
    forall id, id ∈ ["ride"; "other"] ->
      exists s'' t, resolveRideFeeTerms id demo_pricing = (s'', Ok t) /\ m !! id = Some t.
Proof. intros E. exact (bulk_terms_agree ["ride"; "other"] demo_pricing demo_SnapInv). Defined.

(** 123.4 km at 6, 8 and 12 cents. *)
Lemma price_range_ordered_witness :
  let c := calculatePrice (rnd (1234 # 10)) (demo_config "cfg" "BALTIC" true 0 20) in
  (PriceCalculation.minAllowedPricePerSeat c <= PriceCalculation.recommendedPricePerSeat c)%Q /\
  PriceCalculation.recommendedPricePerSeat c = num_of_Z 10.
Proof.
  cbv zeta. split; [|vm_compute; reflexivity].
  destruct (price_range_ordered (rnd (1234 # 10)) (num_of_Z 9) (demo_config "cfg" "BALTIC" true 0 20)
    ltac:(vm_compute; discriminate) ltac:(vm_compute; discriminate) ltac:(vm_compute; discriminate)
    ltac:(vm_compute; discriminate)) as (_ & P & _). exact P.
Defined.

Lemma stopover_fare_within_ride_witness :
  let f := calculateStopoverFare (num_of_Z 10) (num_of_Z 150) (num_of_Z 200) in
  let clamped := clampToRange (num_of_Z 20) (StopoverFare.minPrice f) (StopoverFare.maxPrice f) in
  (clamped <= StopoverFare.maxPrice f)%Q /\ to_cents (StopoverFare.minPrice f) = 600 /\
  to_cents (StopoverFare.recommendedPrice f) = 750 /\ to_cents clamped = 1000.
Proof.
  cbv zeta. split; [|vm_compute; auto].
  destruct (stopover_fare_within_ride (num_of_Z 10) (num_of_Z 150) (num_of_Z 200) (num_of_Z 20)
    ltac:(vm_compute; discriminate) ltac:(vm_compute; reflexivity) ltac:(vm_compute; discriminate)
    ltac:(vm_compute; discriminate) ltac:(vm_compute; discriminate) ltac:(vm_compute; reflexivity))
    as (_ & _ & _ & _ & P & _). exact P.
Defined.

Lemma scheduled_config_takes_effect_early_witness :
  let E := demo_env 100 no_failure in
  let s' := (demo_raise 5000 demo_pricing).1 in
  resolveActiveFeeTerms None s' =
    (s', Ok {| ServiceFeeTerms.serviceFeePercent := num_of_Z 30; ServiceFeeTerms.serviceFeeFlat := num_of_Z 0;
               ServiceFeeTerms.source := DEFAULT |}).
Proof.
  intros E s'.
  assert (R : exists c, demo_raise 5000 demo_pricing = (s', Ok c)) by (eexists; vm_compute; reflexivity).
  clearbody s'. destruct R as [c R]. unfold demo_raise in R.
  assert (L : now < 5000) by (vm_compute; reflexivity).
  assert (NE : "BALTIC"%string <> EmptyString) by discriminate.
  destruct (@scheduled_config_takes_effect_early E demo_pricing s' "BALTIC" "EUR"
    (rnd (6 # 100)) (rnd (8 # 100)) (rnd (12 # 100)) (num_of_Z 3) "NEAREST_EURO" (num_of_Z 30) (num_of_Z 0)
    5000 None None c demo_ConfigInv NE L R) as [_ P].
  exact (P eq_refl).
Defined.
