(* ===== verification/Gateway.v ===== *)
(** * Payments with Stripe and the deadline jobs

    The thin layer between the handlers and the outside: the PaymentIntent calls
    of [modules/payments/stripe.service.ts], the payment mode
    ([modules/ride-booking/booking-payment-mode.ts]), one-time codes
    ([booking-otp.utils.ts]) and the jobs of [queue/deadline.queue.ts].  The calls
    themselves are logged in [St.fx]. *)

From Stdlib Require Import ZArith Lia.
From stdpp Require Import base list option strings gmap.
From S2P Require Import Prelude JsNumber Schema Store Money Time.

Open Scope Z_scope.

(** ** Constants *)

Definition STRIPE_CURRENCY_DEFAULT : string := "inr".
Definition DRIVER_DECISION_WINDOW_MINUTES : Z := 60.
Definition DRIVER_DECISION_WINDOW_MS : Z := DRIVER_DECISION_WINDOW_MINUTES * 60 * 1000.
Definition DRIVER_DECISION_NOTIFICATION_TYPE : string := "booking.request.driver_decision".

(** Stripe's name for an object that does not exist. *)
Definition isMissingStripeResourceError (code : string) : bool := bool_decide (code = "resource_missing"%string).

Section gateway.
Context `{Env}.

(** ** Payment mode *)

Definition strip (s : string) : string := string_of (trim (chars s)).

(** [true] for bypass, [false] for stripe. *)
Definition isBypassBookingPaymentMode : H bool :=
  match truthy ((fun v => toLowerCase (strip v)) <$> BOOKING_PAYMENT_MODE) with
  | None => throw "BOOKING_PAYMENT_MODE env var is not set. Set it to 'stripe' or 'bypass'."
  | Some value =>
      if decide (value = "bypass"%string) then mret true
      else if decide (value = "stripe"%string) then mret false
      else throw "BOOKING_PAYMENT_MODE_INVALID"
  end.

(** ** PaymentIntents *)

Definition retrieveIntent (paymentIntentId : string) : H PaymentIntent.t :=
  n ← get (fun s => length (St.fx s));
  call (StripeRetrieveIntent paymentIntentId);;
  mret (intentOf n paymentIntentId).

(** [{ paymentIntentId, clientSecret, currency }]; the customer and the metadata
    other than the booking are left out of the call. *)
Definition createBookingPaymentIntent (bookingId : string) (amountMajor : num) (currency : string)
    : H (string * string * string) :=
  n ← get (fun s => length (St.fx s));
  intentId ← call (StripeCreateIntent (to_cents amountMajor)
    (toLowerCase (default STRIPE_CURRENCY_DEFAULT (truthy (Some currency)))) bookingId);
  match truthy (PaymentIntent.client_secret (intentOf n intentId)) with
  | None => throw "STRIPE_CLIENT_SECRET_MISSING"
  | Some secret => mret (intentId, secret, toUpperCase (PaymentIntent.currency (intentOf n intentId)))
  end.

(** Answers the id of the refund. *)
Definition refundPaymentIntent (paymentIntentId : string) (amountMinor : Z) : H string :=
  call (StripeRefund paymentIntentId (Some amountMinor)).

Definition cancelPaymentIntent (paymentIntentId : string) : H unit :=
  perform (StripeCancelIntent paymentIntentId).

(** ** One-time codes *)

Definition generateBookingOtp : H string := fun s => (s <| St.seq ::= S |>, Ok (otp (St.seq s))).

Definition isOtpValid (inputOtp storedHash : string) : bool := bool_decide (hashOtp inputOtp = storedHash).

(** ** Jobs *)

Definition bookingPaymentWindowMs : Z := BOOKING_PAYMENT_WINDOW_MINUTES * 60 * 1000.

Definition enqueueDeadlineCheck (bookingId : string) (delayMs : Z) : H unit :=
  perform (EnqueueJob "initial" bookingId delayMs);;
  let reminderDelayMs := delayMs - 60 * 60 * 1000 in
  when (0 <? reminderDelayMs) (perform (EnqueueJob "reminder" bookingId reminderDelayMs)).

Definition enqueuePaymentExpiryCheck (bookingId : string) (delayMs : Z) : H unit :=
  perform (EnqueueJob "payment-expiry" bookingId delayMs).

(** The job is removed when there is one; [updatedAt], the only field touched, is
    not a field of the model's rows. *)
Definition reschedulePaymentExpiryCheck (bookingId : string) (delayMs : Z) : H unit :=
  attempt (
    perform (RemoveJob "payment-expiry" bookingId);;
    enqueuePaymentExpiryCheck bookingId delayMs;;
    update prisma.rideBooking bookingId id).

Definition createNotification (userId type : string) : H unit := perform (Notify userId type).

(** ** Reasoning *)

Lemma preserves_isBypass I : preserves I isBypassBookingPaymentMode.
Proof. unfold isBypassBookingPaymentMode. preserve. Qed.

Lemma preserves_retrieveIntent I i : preserves (on_db I) (retrieveIntent i).
Proof. unfold retrieveIntent. preserve. Qed.

Lemma preserves_createIntent I a b c : preserves (on_db I) (createBookingPaymentIntent a b c).
Proof. unfold createBookingPaymentIntent. preserve. Qed.

Lemma preserves_generateBookingOtp I : preserves (on_db I) generateBookingOtp.
Proof. intros s Hs. exact Hs. Qed.

Lemma preserves_enqueueDeadlineCheck I a b : preserves (on_db I) (enqueueDeadlineCheck a b).
Proof. unfold enqueueDeadlineCheck. preserve. Qed.

Lemma preserves_reschedule I a b :
  (forall d r, I d -> Db.rideBooking d !! a = Some r -> I (d <| Db.rideBooking ::= <[a := r]> |>)) ->
  preserves (on_db I) (reschedulePaymentExpiryCheck a b).
Proof.
  intros Hw. unfold reschedulePaymentExpiryCheck, enqueuePaymentExpiryCheck. preserve_db.
  apply preserves_update. exact Hw.
Qed.
End gateway.

#[export] Hint Resolve preserves_isBypass preserves_retrieveIntent preserves_createIntent
  preserves_generateBookingOtp preserves_enqueueDeadlineCheck : preserve.
