(* ===== verification/Licence.v ===== *)
(** * Driving licences

    Models [modules/dl-verification/]: the sessions of the identity provider Veriff, its
    signed webhooks, the recovery of decisions that never arrived, and the manual review
    of uploaded licences ([dl-review.service.ts]); with them the two administrator's calls
    of [admin.service.ts] about a licence.  Veriff's answers, the HMAC and the settings of
    the process are the operations of [Veriff]. *)

From Stdlib Require Import ZArith Lia.
From stdpp Require Import base list option strings gmap.
From S2P Require Import Prelude JsNumber JsText Schema Store Time Identity ViewToken Gateway.

Open Scope Z_scope.

(** [hmac] answers the 32 bytes of the digest; [answer] and [answerSignature] are the
    body and the signature of the answer to the [n]-th call, [sessionAnswer] the parsed
    answer to the creation of a session. *)
Class Veriff := {
  VERIFF_BASE_URL : string;
  VERIFF_CALLBACK_URL : string;
  VERIFF_DECISION_RECOVERY_LIMIT : Z;
  VERIFF_DECISION_RECOVERY_MIN_AGE_MINUTES : Z;
  VERIFF_API_KEY : option string;
  VERIFF_SHARED_SECRET : option string;
  VERIFF_WEBHOOK_SECRET : option string;
  hmac : string -> string -> string;
  answer : nat -> string -> string;
  answerSignature : nat -> string -> option string;
  sessionAnswer : nat -> Json;
}.

Module CreateVeriffSessionOptions.
Record t := {
  userId : string;
  firstName : string;
  lastName : string;
  email : option string;
  phoneNumber : option string;
  idNumber : option string;
  fullName : option string;
  documentNumber : option string;
  documentCountry : option string;
  documentValidFrom : option string;
  documentValidUntil : option string;
  fullAddress : option string;
  callback : option string;
  endUserId : option string;
  consents : option (list (string * bool));
  tag : option string;
}.
End CreateVeriffSessionOptions.

(** What the calls on sessions answer: success with the session, or a reason. *)
Module SessionResult.
Record t := { success : bool; reason : option string; detail : option string; data : option (string * string * string) }.
End SessionResult.

Module DecisionResult.
Record t := { success : bool; reason : option string; status : option DlVerificationStatus.t }.
End DecisionResult.

Module Recovered.
Record t := { scanned : Z; updated : Z; skipped : Z; normalized : Z }.
End Recovered.

(** ** Text *)

Definition startsWith (prefix s : string) : bool := bool_decide (is_Some (strip_prefix prefix s)).

Definition hexNibble (n : nat) : Ascii.ascii := Ascii.ascii_of_nat (if (n <? 10)%nat then 48 + n else 87 + n).

(** [digest.toString('hex')] *)
Fixpoint toHex (s : string) : string :=
  match s with
  | EmptyString => EmptyString
  | String c s => let n := Ascii.nat_of_ascii c in String (hexNibble (n / 16)) (String (hexNibble (n mod 16)) (toHex s))
  end.

Definition hexDigit (c : Ascii.ascii) : option nat :=
  let c := toLowerAscii c in
  if is_digit c then Some (Ascii.nat_of_ascii c - 48)%nat
  else if ascii_in 97 102 c then Some (Ascii.nat_of_ascii c - 87)%nat else None.

(** [Buffer.from(s, 'hex')]: stops at the first pair that is not hexadecimal. *)
Fixpoint fromHex (s : string) : string :=
  match s with
  | String a (String b s) =>
      match hexDigit a, hexDigit b with
      | Some x, Some y => String (Ascii.ascii_of_nat (16 * x + y)) (fromHex s)
      | _, _ => EmptyString
      end
  | _ => EmptyString
  end.

(** [/^[0-9a-f]{64}$/i] *)
Definition HEX_SHA256 (s : string) : bool :=
  (String.length s =? 64)%nat && forallb (fun c => bool_decide (is_Some (hexDigit c))) (chars s).

(** [[a, b].filter(Boolean).join(' ').trim()] *)
Definition fullNameOf (firstName lastName : option string) : string :=
  strip (joinWords (omap truthy [firstName; lastName])).

Definition gender_name (g : Gender.t) : string :=
  match g with
  | Gender.MALE => "MALE" | Gender.FEMALE => "FEMALE" | Gender.NON_BINARY => "NON_BINARY"
  | Gender.OTHER => "OTHER" | Gender.PREFER_NOT_TO_SAY => "PREFER_NOT_TO_SAY"
  end.

Definition dobOf (user : option User.t) : DobInput.t :=
  match user ≫= User.dob with Some t => DobInput.date (Some t) | None => DobInput.missing end.

(** ** JSON *)

Definition isRecord (j : Json) : bool := match j with JObject _ | JArray _ => true | _ => false end.

(** [j.key] for a value that is not [null]. *)
Definition prop (j : Json) (key : string) : option Json := match j with JObject fields => field fields key | _ => None end.

Definition asString (j : option Json) : option string := match j with Some (JString s) => Some s | _ => None end.

Definition extractVeriffField (f : option Json) : string :=
  match f with
  | Some (JString s) => strip s
  | Some (JObject fields) => match field fields "value" with Some (JString s) => strip s | _ => EmptyString end
  | _ => EmptyString
  end.

(** [body.verification] when both are objects. *)
Definition verificationOf (body : Json) : option Json :=
  match prop body "verification" with Some v => if isRecord v then Some v else None | None => None end.

Definition extractDecisionStatus (body : Json) : option string :=
  v ← verificationOf body; asString (prop v "status").

Definition TERMINAL_DECISION_STATUSES : list string := ["approved"; "declined"; "resubmission_requested"; "expired"].

(** The names every object inherits: [statusMap] answers a function for them. *)
Definition inherited : list string :=
  ["constructor"; "__defineGetter__"; "__defineSetter__"; "hasOwnProperty"; "__lookupGetter__"; "__lookupSetter__";
   "isPrototypeOf"; "propertyIsEnumerable"; "toString"; "valueOf"; "__proto__"; "toLocaleString"].

(** [statusMap[status] || 'DECLINED']; [None] is no status of the schema. *)
Definition mappedStatusOf (status : string) : option DlVerificationStatus.t :=
  if decide (status = "approved"%string) then Some DlVerificationStatus.APPROVED
  else if decide (status = "declined"%string) then Some DlVerificationStatus.DECLINED
  else if decide (status = "resubmission_requested"%string) then Some DlVerificationStatus.RESUBMISSION_REQUESTED
  else if decide (status = "expired"%string) then Some DlVerificationStatus.EXPIRED
  else if decide (status ∈ inherited) then None else Some DlVerificationStatus.DECLINED.

(** The value of an [Int?] column; [None] is refused. *)
Definition intColumn (n : option num) : option Z :=
  match integer_of n with Some z => if (- 2 ^ 31 <=? z) && (z <? 2 ^ 31) then Some z else None | None => None end.

Definition decisionCodeOf (code : option Json) : option (option Z) :=
  match code with
  | Some (JNumber n) => Some <$> intColumn (Some n)
  | Some (JString s) => Some <$> intColumn (js_Number s)
  | _ => Some None
  end.

(** ** The table *)

Definition sessionOf (sessionId : string) (v : DlVerification.t) : bool := bool_decide (DlVerification.veriffSessionId v = sessionId).

Definition findSession (sessionId : string) : H (option DlVerification.t) := findFirst prisma.dlVerification (sessionOf sessionId).

(** [updatedAt] is set at each write. *)
Definition touched `{Env} (f : DlVerification.t -> DlVerification.t) (v : DlVerification.t) : DlVerification.t :=
  f v <| DlVerification.updatedAt := now |>.

(** [veriffSessionId] is unique. *)
Definition createSessionRow `{Env} (userId sessionId sessionUrl : string) (f : DlVerification.t -> DlVerification.t) : H DlVerification.t :=
  old ← findSession sessionId;
  throw_if (bool_decide (is_Some old)) "P2002";;
  id ← randomUUID;
  create prisma.dlVerification id (touched f
    (DlVerification.defaults id now <| DlVerification.userId := userId |>
       <| DlVerification.veriffSessionId := sessionId |> <| DlVerification.veriffSessionUrl := sessionUrl |>)).

Definition updateSession `{Env} (sessionId : string) (f : DlVerification.t -> DlVerification.t) : H DlVerification.t :=
  old ← findSession sessionId;
  match old with
  | None => throw "P2025"
  | Some v => update prisma.dlVerification (DlVerification.id v) (touched f)
  end.

Section licence.
Context `{Env} `{Unicode} `{Codec} `{Veriff}.

(** ** Sessions *)

Definition getVeriffApiKey : string := default EmptyString (truthy VERIFF_API_KEY).
Definition getVeriffSharedSecret : string := default EmptyString (truthy VERIFF_SHARED_SECRET).

(** [[...new Set(secrets)]] *)
Definition getVeriffWebhookSecrets : list string :=
  let secrets := omap (fun s => truthy (strip <$> s)) [VERIFF_WEBHOOK_SECRET; VERIFF_SHARED_SECRET] in
  match secrets with
  | [a; b] => if decide (a = b) then [a] else [a; b]
  | secrets => secrets
  end.

Fixpoint firstHttps (candidates : list string) : option string :=
  match candidates with
  | [] => None
  | c :: candidates => if startsWith "https://" c then Some c else firstHttps candidates
  end.
Definition resolveCallbackUrl (requested : option string) : option string :=
  firstHttps (omap truthy [requested; Some VERIFF_CALLBACK_URL]).

Definition isManual (v : DlVerification.t) : bool := startsWith "manual:" (DlVerification.veriffSessionId v).

(** A row of the provider in a status. *)
Definition providerRow (userId : string) (status : DlVerificationStatus.t) (v : DlVerification.t) : bool :=
  bool_decide (DlVerification.userId v = userId) && bool_decide (DlVerification.status v = status) &&
  bool_decide (DlVerification.documentImageKey v = None) && negb (isManual v).

Definition hasApprovedVerification (userId : string) : H bool :=
  existing ← findFirst prisma.dlVerification (providerRow userId DlVerificationStatus.APPROVED);
  mret (bool_decide (is_Some existing)).

Definition latestFirst (l : list DlVerification.t) : list DlVerification.t := sort_desc DlVerification.updatedAt l.

Definition findPendingVeriffSession (userId : string) : H (option DlVerification.t) :=
  rows ← findMany prisma.dlVerification (providerRow userId DlVerificationStatus.PENDING);
  mret (head (latestFirst rows)).

(** ** Signatures *)

Definition validateWebhookSignature (payload signature : string) : bool :=
  let secrets := getVeriffWebhookSecrets in
  if bool_decide (secrets = []) then false
  else if negb (HEX_SHA256 signature) then false
  else
    let provided := fromHex signature in
    fold_left (fun matched secret =>
      let expected := hmac secret payload in
      if negb (String.length provided =? String.length expected)%nat then matched
      else bool_decide (provided = expected) || matched) secrets false.

Definition assertVeriffWebhookConfigured : Res unit :=
  if bool_decide (getVeriffWebhookSecrets <> []) then Ok tt
  else if production then
    Err "Neither VERIFF_WEBHOOK_SECRET nor VERIFF_SHARED_SECRET is set; the Veriff decision webhook cannot be authenticated."
  else Ok tt.

Definition buildSessionSignature (sessionId : string) : string := toHex (hmac getVeriffSharedSecret sessionId).

Definition fetchSignedVeriffText (path sessionId : string) : H Json :=
  n ← get (fun s => length (St.fx s));
  call (HttpGet (VERIFF_BASE_URL +:+ path) (buildSessionSignature sessionId));;
  let rawBody := answer n path in
  throw_if match answerSignature n path with
           | Some signature => negb (validateWebhookSignature rawBody signature)
           | None => true
           end "INVALID_VERIFF_RESPONSE_SIGNATURE";;
  match JSON_parse rawBody with
  | Some j => mret j
  | None => throw "INVALID_VERIFF_RESPONSE_JSON"
  end.

(** ** Decisions *)

Definition created (attempt : Json) : option Z :=
  match prop attempt "createdTime" with Some (JString s) => Date_parse s | _ => Some 0 end.

Definition newestFirst (left right : Json) : bool :=
  match created left, created right with Some l, Some r => r <=? l | _, _ => true end.

Definition isTerminal (attempt : Json) : bool :=
  match asString (prop attempt "status") with Some s => bool_decide (s ∈ TERMINAL_DECISION_STATUSES) | None => false end.

(** The fields of an object that are defined. *)
Definition fieldsOf (fields : list (string * option Json)) : list (string * Json) :=
  omap (fun f => (fun v => (f.1, v)) <$> f.2) fields.

Definition fallbackPayload (sessionId userId status : string) (latest : Json) (person : option Json) : Json :=
  JObject [("verification", JObject (fieldsOf
    [("id", Some (JString sessionId)); ("status", Some (JString status));
     ("code", Some match prop latest "code" with Some (JNumber n) => JNumber n | _ => JNull end);
     ("reasonCode", JString <$> asString (prop latest "reasonCode"));
     ("vendorData", Some (JString userId)); ("person", person)]))]%string.

Definition buildFallbackDecisionPayload (sessionId userId : string) : H (option Json) :=
  attemptsBody ← fetchSignedVeriffText ("/sessions/" +:+ sessionId +:+ "/attempts") sessionId;
  match (if isRecord attemptsBody then prop attemptsBody "verifications" else None) with
  | Some (JArray verifications) =>
      let attempts := sort_le newestFirst (List.filter (fun a => isRecord a && bool_decide (is_Some (asString (prop a "status")))) verifications) in
      match List.find isTerminal attempts with
      | None => mret None
      | Some latest =>
          let status := default EmptyString (asString (prop latest "status")) in
          if decide (status = "approved"%string) then
            personBody ← fetchSignedVeriffText ("/sessions/" +:+ sessionId +:+ "/person") sessionId;
            match (if isRecord personBody then prop personBody "person" else None) with
            | Some p =>
                if isRecord p then
                  mret (Some (fallbackPayload sessionId userId status latest (Some (JObject (fieldsOf
                    [("firstName", prop p "firstName"); ("lastName", prop p "lastName");
                     ("dateOfBirth", prop p "dateOfBirth"); ("gender", prop p "gender")]%string)))))
                else mret None
            | None => mret None
            end
          else mret (Some (fallbackPayload sessionId userId status latest None))
      end
  | _ => mret None
  end.

Definition invalid : DecisionResult.t :=
  {| DecisionResult.success := false; DecisionResult.reason := Some "INVALID_PAYLOAD"%string; DecisionResult.status := None |}.

(** The identity the provider read from the document. *)
Definition verifiedIdentity (verification : Json) : IdentityFields.t :=
  let person := default (JObject []) (match prop verification "person" with Some JNull => None | p => p end) in
  let name := strip (joinWords (omap truthy [Some (extractVeriffField (prop person "firstName"));
                                             Some (extractVeriffField (prop person "lastName"))])) in
  let dob := truthy (Some (extractVeriffField (prop person "dateOfBirth"))) in
  {| IdentityFields.name := truthy (Some name);
     IdentityFields.dob := match dob with Some s => DobInput.text s | None => DobInput.missing end;
     IdentityFields.gender := truthy (Some (extractVeriffField (prop person "gender"))) |}.

Definition profileIdentity (driver : option User.t) : IdentityFields.t :=
  {| IdentityFields.name := truthy (Some (fullNameOf (driver ≫= User.firstName) (driver ≫= User.lastName)));
     IdentityFields.dob := dobOf driver;
     IdentityFields.gender := gender_name <$> (driver ≫= User.gender) |}.

(** The columns of a decision. *)
Definition decisionColumns (userId : string) (status : DlVerificationStatus.t) (code : option Z) (reasonCode : option string) (body : Json)
    (verified : IdentityFields.t) (match_ : option IdentityMatchResult.t) (v : DlVerification.t) : DlVerification.t :=
  v <| DlVerification.userId := userId |> <| DlVerification.status := status |>
    <| DlVerification.decisionCode := code |> <| DlVerification.reasonCode := reasonCode |>
    <| DlVerification.decisionPayload := Some body |>
    <| DlVerification.verifiedName := IdentityFields.name verified |>
    <| DlVerification.verifiedDob := match IdentityFields.dob verified with DobInput.text s => Some s | _ => None end |>
    <| DlVerification.verifiedGender := IdentityFields.gender verified |>
    <| DlVerification.nameMatch := IdentityMatchResult.nameMatch <$> match_ |>
    <| DlVerification.dobMatch := match_ ≫= IdentityMatchResult.dobMatch |>
    <| DlVerification.genderMatch := match_ ≫= IdentityMatchResult.genderMatch |>.

(** The user is verified and their other open attempts are closed. *)
Definition verifyUser (userId sessionId : string) : H unit :=
  transaction (
    update prisma.user userId (fun u => u <| User.dlVerified := true |>);;
    updateMany prisma.dlVerification
      (fun v => bool_decide (DlVerification.userId v = userId) && bool_decide (DlVerification.status v = DlVerificationStatus.PENDING) &&
                negb (sessionOf sessionId v))
      (touched (fun v => v <| DlVerification.status := DlVerificationStatus.SUPERSEDED |>));;
    mret tt).

(** The user a decision is about: the one the session names, or else the owner of the row. *)
Definition decisionUser (verification : Json) (record : option DlVerification.t) : H (option string) :=
  let vendorData := default EmptyString (strip <$> asString (prop verification "vendorData")) in
  vendorUser ← match truthy (Some vendorData) with Some id => findUnique prisma.user id | None => mret None end;
  mret match vendorUser with Some u => Some (User.id u) | None => DlVerification.userId <$> record end.

Definition handleWebhookDecision (body : Json) : H DecisionResult.t :=
  match verificationOf body, verificationOf body ≫= fun v => truthy (asString (prop v "id")) with
  | Some verification, Some sessionId =>
      let status := default EmptyString (asString (prop verification "status")) in
      let reasonCode := asString (prop verification "reasonCode") in
      let mapped := mappedStatusOf status in
      record ← findSession sessionId;
      userId ← decisionUser verification record;
      match userId with
      | None => mret {| DecisionResult.success := false; DecisionResult.reason := Some "SESSION_NOT_FOUND"%string; DecisionResult.status := None |}
      | Some userId =>
          (if bool_decide (record = None) then createSessionRow userId sessionId EmptyString id;; mret tt else mret tt);;
          let verified := verifiedIdentity verification in
          driver ← findUnique prisma.user userId;
          let approved := bool_decide (mapped = Some DlVerificationStatus.APPROVED) in
          let match_ := if approved then Some (matchIdentityStrict (profileIdentity driver) verified) else None in
          match mapped, decisionCodeOf (prop verification "code") with
          | Some finalStatus, Some code =>
              updateSession sessionId (decisionColumns userId finalStatus code reasonCode body verified match_);;
              when approved (verifyUser userId sessionId);;
              mret {| DecisionResult.success := true; DecisionResult.reason := None; DecisionResult.status := Some finalStatus |}
          | _, _ => throw "PrismaClientValidationError"
          end
      end
  | _, _ => mret invalid
  end.

(** Progress of a session: [submitted] is stamped once. *)
Definition handleWebhookEvent (body : Json) : H (bool * option string) :=
  if negb (isRecord body) then mret (false, Some "INVALID_PAYLOAD"%string)
  else
    match truthy (asString (prop body "id")) with
    | None => mret (false, Some "INVALID_PAYLOAD"%string)
    | Some sessionId =>
        if negb (bool_decide (asString (prop body "action") = Some "submitted"%string)) then mret (true, Some "IGNORED_ACTION"%string)
        else
          updated ← updateMany prisma.dlVerification
            (fun v => sessionOf sessionId v && bool_decide (DlVerification.submittedAt v = None))
            (touched (fun v => v <| DlVerification.submittedAt := Some now |>));
          mret (true, if updated =? 0 then Some "NO_MATCHING_SESSION"%string else None)
    end.

(** ** Recovery of decisions *)

(** One candidate: whether its decision was applied; an error skips it. *)
Definition recoverOne (record : DlVerification.t) : H bool :=
  let sessionId := DlVerification.veriffSessionId record in
  if startsWith "manual:" sessionId then mret false
  else
    try_catch (
      parsed ← fetchSignedVeriffText ("/sessions/" +:+ sessionId +:+ "/decision") sessionId;
      decision ← match truthy (extractDecisionStatus parsed) with
                 | None => buildFallbackDecisionPayload sessionId (DlVerification.userId record)
                 | Some status => mret (if bool_decide (status ∈ TERMINAL_DECISION_STATUSES) then Some parsed else None)
                 end;
      match decision with
      | None => mret false
      | Some parsed =>
          result ← handleWebhookDecision parsed;
          mret (DecisionResult.success result)
      end)
      (fun _ => mret false).

Fixpoint recoverEach (l : list DlVerification.t) (updated skipped : Z) : H (Z * Z) :=
  match l with
  | [] => mret (updated, skipped)
  | record :: l =>
      ok ← recoverOne record;
      if ok : bool then recoverEach l (updated + 1) skipped else recoverEach l updated (skipped + 1)
  end.

Definition oldestFirst (l : list DlVerification.t) : list DlVerification.t := sort_by DlVerification.updatedAt l.

Definition recoverPendingVeriffDecisions (userId : option string) (includeFresh : bool) (limit : option Z) : H Recovered.t :=
  if bool_decide (getVeriffApiKey = EmptyString) || bool_decide (getVeriffSharedSecret = EmptyString) then
    mret {| Recovered.scanned := 0; Recovered.updated := 0; Recovered.skipped := 0; Recovered.normalized := 0 |}
  else
    let cutoff := now - VERIFF_DECISION_RECOVERY_MIN_AGE_MINUTES * 60 * 1000 in
    rows ← findMany prisma.dlVerification (fun v =>
      match truthy userId with Some id => bool_decide (DlVerification.userId v = id) | None => true end &&
      bool_decide (DlVerification.status v = DlVerificationStatus.PENDING) &&
      bool_decide (DlVerification.documentImageKey v = None) && negb (isManual v) &&
      (includeFresh || (DlVerification.updatedAt v <=? cutoff)));
    let candidates := take (Z.to_nat (default VERIFF_DECISION_RECOVERY_LIMIT limit)) (oldestFirst rows) in
    counts ← recoverEach candidates 0 0;
    mret {| Recovered.scanned := Z.of_nat (length candidates); Recovered.updated := counts.1;
            Recovered.skipped := counts.2; Recovered.normalized := 0 |}.

(** Approved decisions that an older version kept as mismatches are applied again. *)
Fixpoint normalizeEach (l : list DlVerification.t) (updated : Z) : H Z :=
  match l with
  | [] => mret updated
  | row :: l =>
      match DlVerification.decisionPayload row with
      | Some payload =>
          if bool_decide (extractDecisionStatus payload = Some "approved"%string) then
            result ← handleWebhookDecision payload;
            normalizeEach l (if DecisionResult.success result then updated + 1 else updated)
          else normalizeEach l updated
      | None => normalizeEach l updated
      end
  end.

Definition normalizeLegacyApprovedMismatchRows (userId : string) : H Z :=
  rows ← findMany prisma.dlVerification (providerRow userId DlVerificationStatus.IDENTITY_MISMATCH);
  normalizeEach (take 20 (latestFirst rows)) 0.

Definition recoverPendingVeriffDecisionsForUser (userId : string) : H Recovered.t :=
  recovered ← recoverPendingVeriffDecisions (Some userId) true (Some 20);
  normalized ← normalizeLegacyApprovedMismatchRows userId;
  mret {| Recovered.scanned := Recovered.scanned recovered; Recovered.updated := Recovered.updated recovered;
          Recovered.skipped := Recovered.skipped recovered; Recovered.normalized := normalized |}.

Definition reconcilePendingVeriffSessionsForUser (userId : string) : H (option Recovered.t) :=
  try_catch (r ← recoverPendingVeriffDecisionsForUser userId; mret (Some r)) (fun _ => mret None).

(** ** Opening a session *)

Definition refused (reason : string) : SessionResult.t :=
  {| SessionResult.success := false; SessionResult.reason := Some reason; SessionResult.detail := None; SessionResult.data := None |}.

Definition opened (v : DlVerification.t) : SessionResult.t :=
  {| SessionResult.success := true; SessionResult.reason := None; SessionResult.detail := None;
     SessionResult.data := Some (DlVerification.id v, DlVerification.veriffSessionId v, DlVerification.veriffSessionUrl v) |}.

(** [...(v && { key: v })] *)
Definition optionalField (key : string) (v : option string) : list (string * Json) :=
  match truthy v with Some s => [(key, JString s)] | None => [] end.

Definition sessionPayload (o : CreateVeriffSessionOptions.t) (profile : User.t) (profileDob : string) (male : bool) : Json :=
  let document := (optionalField "number" (CreateVeriffSessionOptions.documentNumber o) ++
    optionalField "validFrom" (CreateVeriffSessionOptions.documentValidFrom o) ++
    optionalField "validUntil" (CreateVeriffSessionOptions.documentValidUntil o))%list in
  let country := optionalField "country" (CreateVeriffSessionOptions.documentCountry o) in
  JObject [("verification"%string, JObject (
    optionalField "callback" (resolveCallbackUrl (CreateVeriffSessionOptions.callback o)) ++
    [("person"%string, JObject (
       [("firstName"%string, JString (CreateVeriffSessionOptions.firstName o)); ("lastName"%string, JString (CreateVeriffSessionOptions.lastName o));
        ("dateOfBirth"%string, JString profileDob); ("gender"%string, JString (if male then "M" else "F")%string)] ++
       optionalField "idNumber" (CreateVeriffSessionOptions.idNumber o) ++
       optionalField "phoneNumber" (match CreateVeriffSessionOptions.phoneNumber o with Some p => Some p | None => User.phone profile end) ++
       optionalField "email" (match CreateVeriffSessionOptions.email o with Some e => Some e | None => User.email profile end) ++
       optionalField "fullName" (CreateVeriffSessionOptions.fullName o)))] ++
    (match (country ++ document)%list with
     | [] => []
     | _ => [("document"%string, JObject ([("type"%string, JString "DRIVERS_LICENSE")] ++ country ++ document))]
     end) ++
    (match truthy (CreateVeriffSessionOptions.fullAddress o) with
     | Some a => [("address"%string, JObject [("fullAddress"%string, JString a)])]
     | None => []
     end) ++
    [("vendorData"%string, JString (CreateVeriffSessionOptions.userId o))] ++
    optionalField "endUserId" (CreateVeriffSessionOptions.endUserId o) ++
    (match CreateVeriffSessionOptions.consents o with
     | Some ((_ :: _) as consents) =>
         [("consents"%string, JArray (map (fun c => JObject [("type"%string, JString c.1); ("approved"%string, JBool c.2)]) consents))]
     | _ => []
     end) ++
    optionalField "tag" (CreateVeriffSessionOptions.tag o)))].

(** The call to the provider and the row of the session. *)
Definition openSession (userId : string) (payload : Json) : H SessionResult.t :=
  try_catch (
    let payloadString := JSON_stringify payload in
    n ← get (fun s => length (St.fx s));
    call (HttpPost (VERIFF_BASE_URL +:+ "/sessions") payloadString (toHex (hmac getVeriffSharedSecret payloadString)));;
    match prop (sessionAnswer n) "verification" with
    | Some v =>
        match prop v "id", prop v "url" with
        | Some (JString sessionId), Some (JString sessionUrl) =>
            record ← createSessionRow userId sessionId sessionUrl id;
            mret (opened record)
        | _, _ => throw "PrismaClientValidationError"
        end
    | None => throw "TypeError"
    end)
    (fun error => mret {| SessionResult.success := false; SessionResult.reason := Some "VERIFF_API_ERROR"%string;
                          SessionResult.detail := Some error; SessionResult.data := None |}).

Definition createVeriffSession (o : CreateVeriffSessionOptions.t) : H SessionResult.t :=
  let userId := CreateVeriffSessionOptions.userId o in
  reconcilePendingVeriffSessionsForUser userId;;
  approved ← hasApprovedVerification userId;
  if approved : bool then mret (refused "ALREADY_VERIFIED")
  else
    pending ← findPendingVeriffSession userId;
    match pending with
    | Some pending => mret (opened pending)
    | None =>
        profile ← findUnique prisma.user userId;
        let profileName := fullNameOf (profile ≫= User.firstName) (profile ≫= User.lastName) in
        match profile, profile ≫= User.dob, normalizeGender (gender_name <$> (profile ≫= User.gender)) with
        | Some p, Some dob, Some gender =>
            if bool_decide (profileName = EmptyString) || bool_decide (truthy (User.firstName p) = None) || bool_decide (truthy (User.lastName p) = None)
            then mret (refused "PROFILE_INCOMPLETE")
            else if negb (exactNamesMatch (Some (CreateVeriffSessionOptions.firstName o +:+ " " +:+ CreateVeriffSessionOptions.lastName o)) (Some profileName))
            then mret (refused "NAME_DOES_NOT_MATCH_PROFILE")
            else openSession userId (sessionPayload o p (ymdOf dob) (bool_decide (gender = Gender.MALE)))
        | _, _, _ => mret (refused "PROFILE_INCOMPLETE")
        end
    end.

Definition registerVeriffSession (userId sessionId sessionUrl : string) : H SessionResult.t :=
  approved ← hasApprovedVerification userId;
  if approved : bool then mret (refused "ALREADY_VERIFIED")
  else
    existing ← findSession sessionId;
    match existing with
    | Some existing =>
        if bool_decide (DlVerification.userId existing <> userId) then mret (refused "SESSION_OWNED_BY_ANOTHER_USER")
        else mret (opened existing)
    | None =>
        try_catch (record ← createSessionRow userId sessionId sessionUrl id; mret (opened record))
          (fun error =>
             if decide (error = "P2002"%string) then
               raced ← findSession sessionId;
               match raced with
               | Some raced => if bool_decide (DlVerification.userId raced = userId) then mret (opened raced)
                               else mret (refused "SESSION_OWNED_BY_ANOTHER_USER")
               | None => mret (refused "SESSION_OWNED_BY_ANOTHER_USER")
               end
             else mret (refused "REGISTER_FAILED"))
    end.

(** The state shown to the driver; [None] when nothing was started. *)
Definition getVerificationStatus (userId : string) : H (option DlVerification.t) :=
  reconcilePendingVeriffSessionsForUser userId;;
  rows ← findMany prisma.dlVerification (fun v =>
    bool_decide (DlVerification.userId v = userId) && negb (bool_decide (DlVerification.status v = DlVerificationStatus.SUPERSEDED)));
  mret (head (latestFirst rows)).

(** ** Webhooks *)

Inductive WebhookReply :=
| Unauthorized (message : string)
| BadRequest (message : string)
| Received (status : option DlVerificationStatus.t) (warning : option string)
| ReceivedError.

(** [typeof body !== 'object'] or [null] *)
Definition parseWebhookBody (raw : string) : option Json :=
  match JSON_parse raw with Some j => if isRecord j then Some j else None | None => None end.

(** The guards of both webhooks: the signature and the raw body. *)
Definition withSignedBody (signature raw : option string) (handle : Json -> H WebhookReply) : H WebhookReply :=
  try_catch
    match truthy signature, raw with
    | None, _ => mret (Unauthorized "Missing webhook signature")
    | Some _, None => mret (BadRequest "Invalid webhook payload")
    | Some signature, Some raw =>
        if negb (validateWebhookSignature raw signature) then mret (Unauthorized "Invalid webhook signature")
        else match parseWebhookBody raw with
             | None => mret (Received None (Some "INVALID_PAYLOAD"%string))
             | Some body => handle body
             end
    end
    (fun _ => mret ReceivedError).

Definition webhook (signature raw : option string) : H WebhookReply :=
  withSignedBody signature raw (fun body =>
    result ← handleWebhookDecision body;
    mret (if DecisionResult.success result then Received (DecisionResult.status result) None
          else Received None (DecisionResult.reason result))).

Definition events (signature raw : option string) : H WebhookReply :=
  withSignedBody signature raw (fun body =>
    result ← handleWebhookEvent body;
    mret (Received None result.2)).
End licence.
