(* ===== verification/LicenceReview.v ===== *)
(** * The manual review of licences

    Models [modules/dl-verification/dl-review.service.ts] (a licence uploaded by the driver
    and decided by an administrator), the status of its errors in
    [dl-review.controller.ts] and the two calls of [modules/admin/admin.service.ts] that
    send a driver back to the provider. *)

From Stdlib Require Import ZArith Lia.
From stdpp Require Import base list option strings gmap.
From S2P Require Import Prelude JsNumber JsText Schema Store Time Identity ViewToken Gateway Licence.

Open Scope Z_scope.

Definition manualSessionId (userId : string) : string := "manual:" +:+ userId.

Definition manualSessionUrl (userId : string) : string := "https://manual-review.local/dl/" +:+ userId.

Module DlReviewQueueQuery.
Record t := { status : option DlVerificationStatus.t; page : option Z; limit : option Z }.
End DlReviewQueueQuery.

(** A row of the queue: the licence and its driver; [documentImageKey] is the key of the preview. *)
Module Submission.
Record t := { row : DlVerification.t; driver : option User.t }.
End Submission.

Module ReviewQueue.
Record t := { submissions : list Submission.t; page : Z; limit : Z; total : Z; totalPages : Z }.
End ReviewQueue.

Section review.
Context `{Env}.

Definition payload (action : string) (extra : list (string * Json)) : Json :=
  JObject (spread [("source"%string, JString "MANUAL_REVIEW"); ("action"%string, JString action); ("at"%string, JString (toISOString now))] extra).

Definition adminField (adminId : option string) : string * Json := ("adminId"%string, joptional JString adminId).

(** The notice and, with an address, the mail; a failure is logged. *)
Definition notifyVerificationDecision (user : User.t) (type subject : string) : H unit :=
  attempt (
    createNotification (User.id user) type;;
    match truthy (User.email user) with
    | Some email => perform (SendMail email subject)
    | None => mret tt
    end).

Definition hasDlDocumentOnFile (userId : string) : H bool :=
  existing ← findFirst prisma.dlVerification (fun v =>
    bool_decide (DlVerification.userId v = userId) && bool_decide (DlVerification.documentImageKey v <> None));
  mret (bool_decide (is_Some existing)).

(** An approval that is not the manual row's. *)
Definition approvedElsewhere (userId : string) (v : DlVerification.t) : bool :=
  bool_decide (DlVerification.userId v = userId) && bool_decide (DlVerification.status v = DlVerificationStatus.APPROVED) &&
  negb (sessionOf (manualSessionId userId) v).

Definition isVerifiedElsewhere (userId : string) : H bool :=
  existing ← findFirst prisma.dlVerification (approvedElsewhere userId);
  mret (bool_decide (is_Some existing)).

Definition submitted (documentImageKey : string) (v : DlVerification.t) : DlVerification.t :=
  v <| DlVerification.status := DlVerificationStatus.PENDING |> <| DlVerification.documentImageKey := Some documentImageKey |>
    <| DlVerification.declineReason := None |> <| DlVerification.reviewedById := None |> <| DlVerification.reviewedAt := None |>
    <| DlVerification.decisionPayload := Some (payload "SUBMITTED" []) |>.

Definition submitDlDocument (userId documentImageKey : string) : H DlVerification.t :=
  user ← findUnique prisma.user userId;
  match user with
  | None => throw "USER_NOT_FOUND"
  | Some user =>
      throw_if (User.dlVerified user) "ALREADY_VERIFIED";;
      elsewhere ← isVerifiedElsewhere userId;
      throw_if elsewhere "ALREADY_VERIFIED";;
      existing ← findSession (manualSessionId userId);
      match existing with
      | Some _ => updateSession (manualSessionId userId) (submitted documentImageKey)
      | None => createSessionRow userId (manualSessionId userId) (manualSessionUrl userId) (submitted documentImageKey)
      end
  end.

Definition queued (q : DlReviewQueueQuery.t) (v : DlVerification.t) : bool :=
  bool_decide (DlVerification.documentImageKey v <> None) &&
  match DlReviewQueueQuery.status q with
  | Some status => bool_decide (DlVerification.status v = status)
  | None => negb (bool_decide (DlVerification.status v = DlVerificationStatus.SUPERSEDED))
  end.

Definition listDlReviewQueue (q : DlReviewQueueQuery.t) : H ReviewQueue.t :=
  let page := Z.max 1 (default 1 (DlReviewQueueQuery.page q)) in
  let limit := Z.min 100 (Z.max 1 (default 20 (DlReviewQueueQuery.limit q))) in
  found ← get (fun s => (sort_by DlVerification.updatedAt (where_ prisma.dlVerification (queued q) (St.db s)), Db.user (St.db s)));
  let '(rows, users) := found in
  let total := Z.of_nat (length rows) in
  mret {| ReviewQueue.submissions :=
            map (fun v => {| Submission.row := v; Submission.driver := users !! DlVerification.userId v |})
              (take (Z.to_nat limit) (drop (Z.to_nat ((page - 1) * limit)) rows));
          ReviewQueue.page := page; ReviewQueue.limit := limit; ReviewQueue.total := total;
          ReviewQueue.totalPages := Z.max 1 ((total + limit - 1) / limit) |}.

(** The manual row a decision is about. *)
Definition loadPendingRow (userId : string) : H DlVerification.t :=
  row ← findSession (manualSessionId userId);
  match row with
  | None => throw "DL_SUBMISSION_NOT_FOUND"
  | Some row =>
      throw_if (bool_decide (truthy (DlVerification.documentImageKey row) = None)) "DL_DOCUMENT_MISSING";;
      throw_if (bool_decide (DlVerification.status row = DlVerificationStatus.SUPERSEDED)) "DL_SUBMISSION_SUPERSEDED";;
      elsewhere ← isVerifiedElsewhere userId;
      throw_if elsewhere "DL_VERIFIED_ELSEWHERE";;
      mret row
  end.

Definition matches (b : bool) (v : DlVerification.t) : DlVerification.t :=
  v <| DlVerification.nameMatch := Some b |> <| DlVerification.dobMatch := Some b |> <| DlVerification.genderMatch := Some b |>.

Definition approvedRow (user : User.t) (adminId : option string) (v : DlVerification.t) : DlVerification.t :=
  matches true (v <| DlVerification.status := DlVerificationStatus.APPROVED |> <| DlVerification.declineReason := None |>
    <| DlVerification.reviewedById := adminId |> <| DlVerification.reviewedAt := Some now |>
    <| DlVerification.verifiedName := truthy (Some (fullNameOf (User.firstName user) (User.lastName user))) |>
    <| DlVerification.verifiedDob := ymdOf <$> User.dob user |>
    <| DlVerification.verifiedGender := gender_name <$> User.gender user |>
    <| DlVerification.decisionPayload := Some (payload "APPROVED" [adminField adminId]) |>).

(** The transaction of an approval: whether the row changed. *)
Definition approveRow (userId : string) (user : User.t) (adminId : option string) : H bool :=
  updated ← updateMany prisma.dlVerification
    (fun v => sessionOf (manualSessionId userId) v && negb (bool_decide (DlVerification.status v = DlVerificationStatus.APPROVED)))
    (touched (approvedRow user adminId));
  update prisma.user userId (fun u => u <| User.dlVerified := true |>);;
  mret (0 <? updated).

(** The record, and whether it was approved before. *)
Definition approveDlDocument (userId : string) (adminId : option string) : H (DlVerification.t * bool) :=
  loadPendingRow userId;;
  user ← findUnique prisma.user userId;
  match user with
  | None => throw "USER_NOT_FOUND"
  | Some user =>
      transitioned ← transaction (approveRow userId user adminId);
      record ← findSession (manualSessionId userId);
      match record with
      | None => throw "P2025"
      | Some record =>
          if negb transitioned then mret (record, true)
          else
            notifyVerificationDecision user "verification.licence.approved" "Deliivo: driving licence approved";;
            mret (record, false)
      end
  end.

Definition withheld (status : DlVerificationStatus.t) (action reason : string) (adminId : option string) (v : DlVerification.t) : DlVerification.t :=
  matches false (v <| DlVerification.status := status |> <| DlVerification.declineReason := Some reason |>
    <| DlVerification.reviewedById := adminId |> <| DlVerification.reviewedAt := Some now |>
    <| DlVerification.decisionPayload := Some (payload action [adminField adminId; ("reason"%string, JString reason)]) |>).

(** Both refusals: the row gets the reason and the driver is not verified. *)
Definition withholdDlDocument (status : DlVerificationStatus.t) (action type subject userId reason : string) (adminId : option string) : H DlVerification.t :=
  loadPendingRow userId;;
  user ← findUnique prisma.user userId;
  match user with
  | None => throw "USER_NOT_FOUND"
  | Some user =>
      record ← transaction (
        record ← updateSession (manualSessionId userId) (withheld status action reason adminId);
        update prisma.user userId (fun u => u <| User.dlVerified := false |>);;
        mret record);
      notifyVerificationDecision user type subject;;
      mret record
  end.

Definition declineDlDocument (userId reason : string) (adminId : option string) : H DlVerification.t :=
  withholdDlDocument DlVerificationStatus.DECLINED "DECLINED" "verification.licence.declined"
    "Deliivo: driving licence declined" userId reason adminId.

Definition requestDlResubmission (userId reason : string) (adminId : option string) : H DlVerification.t :=
  withholdDlDocument DlVerificationStatus.RESUBMISSION_REQUESTED "RESUBMISSION_REQUESTED" "verification.licence.resubmission_requested"
    "Deliivo: please re-submit your driving licence" userId reason adminId.

(** ** The administrator's calls *)

Definition notifyAdminVerificationChange (user : User.t) (type subject : string) : H unit :=
  createNotification (User.id user) type;;
  match truthy (User.email user) with
  | Some email => perform (SendMail email subject)
  | None => mret tt
  end.

Definition requireVeriffForUser (userId : string) (adminId : option string) : H unit :=
  user ← findUnique prisma.user userId;
  match user with
  | None => throw "USER_NOT_FOUND"
  | Some user =>
      manualApprovedRow ← findSession (manualSessionId userId);
      existing ← findFirst prisma.dlVerification (providerRow userId DlVerificationStatus.APPROVED);
      throw_if (bool_decide (is_Some existing)) "ALREADY_VERIFF_VERIFIED";;
      transaction (
        when (bool_decide ((DlVerification.status <$> manualApprovedRow) = Some DlVerificationStatus.APPROVED)) (
          updateSession (manualSessionId userId) (fun v =>
            v <| DlVerification.status := DlVerificationStatus.SUPERSEDED |>
              <| DlVerification.decisionPayload := Some (JObject [("source"%string, JString "ADMIN"); ("action"%string, JString "REQUIRE_VERIFF");
                   ("at"%string, JString (toISOString now)); adminField adminId]) |>);;
          mret tt);;
        update prisma.user userId (fun u => u <| User.dlVerified := false |>));;
      notifyAdminVerificationChange user "verification.veriff.required" "Deliivo: Veriff verification required"
  end.
End review.

Section admin.
Context `{Env} `{Unicode} `{Codec} `{Veriff}.

Definition syncUserVeriffStatus (userId : string) : H Recovered.t :=
  user ← findUnique prisma.user userId;
  throw_if (bool_decide (user = None)) "USER_NOT_FOUND";;
  recoverPendingVeriffDecisionsForUser userId.
End admin.

(** The status an error of the review is answered with; others are [INTERNAL_ERROR]. *)
Definition STATUS_BY_CODE (code : string) : option string :=
  if decide (code ∈ ["USER_NOT_FOUND"; "DL_SUBMISSION_NOT_FOUND"]%string) then Some "NOT_FOUND"%string
  else if decide (code = "DL_DOCUMENT_MISSING"%string) then Some "BAD_REQUEST"%string
  else if decide (code ∈ ["ALREADY_VERIFIED"; "DL_SUBMISSION_SUPERSEDED"; "DL_VERIFIED_ELSEWHERE"]%string) then Some "CONFLICT"%string
  else None.
