(* ===== verification/LicenceSafe.v ===== *)
(** * Who decides about a licence

    The theorems on [Licence] and [LicenceReview]: a webhook that is not signed changes
    nothing, the provider's approval verifies the driver and stands against the manual
    review, and an approval is told once. *)

From Stdlib Require Import ZArith Lia.
From stdpp Require Import base list option strings gmap relations.
From S2P Require Import Prelude JsNumber JsText Schema Store Time Identity ViewToken Gateway Licence LicenceReview.

Open Scope Z_scope.

(** ** Signatures *)

Section signatures.
Context `{Env} `{Unicode} `{Codec} `{Veriff}.

(** A secret of the webhook signs the payload. *)
Definition signedBy (secret payload signature : string) : Prop :=
  In secret getVeriffWebhookSecrets /\ HEX_SHA256 signature = true /\ fromHex signature = hmac secret payload.

Lemma validate_signed payload signature :
  validateWebhookSignature payload signature = true <-> exists secret, signedBy secret payload signature.
Proof.
  unfold validateWebhookSignature, signedBy. cbv zeta.
  set (step := fun (matched : bool) (secret : string) => _).
  assert (F : forall l b, fold_left step l b = true <-> b = true \/ exists secret, In secret l /\ fromHex signature = hmac secret payload).
  { induction l as [|x l IH]; intros b; cbn [fold_left]; [split; [auto | intros [E|(? & [] & _)]; exact E]|].
    rewrite IH. assert (S : step b x = true <-> b = true \/ fromHex signature = hmac x payload).
    { unfold step. destruct (_ =? _)%nat eqn:L; cbn [negb].
      - rewrite orb_true_iff, bool_decide_eq_true. tauto.
      - apply Nat.eqb_neq in L. split; [auto|]. intros [E|E]; [exact E | rewrite E in L; contradiction]. }
    rewrite S. cbn [In]. split.
    - intros [[E|E]|(y & I & E)]; [auto | right; exists x; auto | right; exists y; auto].
    - intros [E|(y & [<-|I] & E)]; [auto | auto | right; exists y; auto]. }
  destruct (bool_decide (getVeriffWebhookSecrets = [])) eqn:N.
  - apply bool_decide_eq_true in N. rewrite N. split; [discriminate | intros (? & [] & _)].
  - destruct (HEX_SHA256 signature); cbn [negb]; [|split; [discriminate | intros (? & _ & E & _); discriminate E]].
    rewrite F. split; [intros [E|(x & I & E)]; [discriminate E | eauto] | intros (x & I & _ & E); eauto].
Qed.

(** C14.  A decision or an event that no configured secret signs is turned away and changes
    nothing, calls nothing and generates nothing; without a configured secret that is every one. *)
Theorem forged_webhook_changes_nothing (signature raw : option string) (s : St.t) :
  (forall sig payload secret, signature = Some sig -> raw = Some payload -> ~ signedBy secret payload sig) ->
  (exists r, webhook signature raw s = (s, Ok r) /\ events signature raw s = (s, Ok r) /\
     match r with Unauthorized _ | BadRequest _ => True | _ => False end).
Proof.
  intros F. unfold webhook, events, withSignedBody, try_catch.
  destruct (truthy signature) as [sig|] eqn:E; [|eexists; repeat split].
  assert (Es : signature = Some sig) by (destruct signature as [[|c x]|]; cbn in E; congruence).
  destruct raw as [payload|]; [|eexists; repeat split].
  assert (V : validateWebhookSignature payload sig = false).
  { apply not_true_iff_false. rewrite validate_signed. intros (secret & S). exact (F sig payload secret Es eq_refl S). }
  rewrite V. eexists. repeat split.
Qed.
End signatures.

(** ** The rows *)

Definition RowIds (d : Db.t) : Prop := forall k v, Db.dlVerification d !! k = Some v -> DlVerification.id v = k.

(** The driver is verified by the provider's row [k]. *)
Record Stands (u k : string) (d : Db.t) : Prop := {
  stands_ids : RowIds d;
  stands_user : exists x, Db.user d !! u = Some x /\ User.dlVerified x = true;
  stands_row : exists v, Db.dlVerification d !! k = Some v /\ providerRow u DlVerificationStatus.APPROVED v = true;
}.

Lemma head_map {A B} (f : A -> B) l : head (map f l) = f <$> head l.
Proof. destruct l; reflexivity. Qed.

Lemma head_some {A} (x : A) l : In x l -> exists y, head l = Some y.
Proof. destruct l as [|y l]; [intros [] | eauto]. Qed.

Lemma found_session d sessionId v : head (where_ prisma.dlVerification (sessionOf sessionId) d) = Some v ->
  DlVerification.veriffSessionId v = sessionId /\ exists k, Db.dlVerification d !! k = Some v.
Proof.
  intros E. assert (I : In v (where_ prisma.dlVerification (sessionOf sessionId) d)) by (destruct (where_ _ _ _); [discriminate | injection E as ->; left; reflexivity]).
  apply where_elem in I as [S%bool_decide_eq_true [k Ek]]. eauto.
Qed.

Lemma providerRow_spec u st v : providerRow u st v = true <->
  DlVerification.userId v = u /\ DlVerification.status v = st /\ DlVerification.documentImageKey v = None /\ isManual v = false.
Proof. unfold providerRow. rewrite !andb_true_iff, !bool_decide_eq_true, negb_true_iff. tauto. Qed.

Lemma manual_session userId v : DlVerification.veriffSessionId v = manualSessionId userId -> isManual v = true.
Proof. unfold isManual. intros ->. reflexivity. Qed.

Section review.
Context `{Env} (u k : string).

Notation standing := (on_db (Stands u k)).

(** A row of the manual review changes. *)
Lemma stands_session d v f : (forall w, DlVerification.id (f w) = DlVerification.id w) ->
  Stands u k d -> Db.dlVerification d !! DlVerification.id v = Some v -> isManual v = true ->
  Stands u k (d <| Db.dlVerification ::= <[DlVerification.id v := touched f v]> |>).
Proof.
  intros Fi [I U (w & Ew & P)] E M. split; cbn.
  - intros k' v'. cbn. intros [[<- <-]|[_ E']]%lookup_insert_Some; [cbn; apply Fi | exact (I k' v' E')].
  - exact U.
  - exists w. split; [|exact P]. rewrite lookup_insert_ne; [exact Ew|]. intros <-. assert (v = w) as <- by congruence.
    apply providerRow_spec in P as (_ & _ & _ & N). congruence.
Qed.

Lemma stands_updateSession userId f : (forall w, DlVerification.id (f w) = DlVerification.id w) ->
  preserves standing (updateSession (manualSessionId userId) f).
Proof.
  intros Fi. apply preserves_wp. intros s S. unfold updateSession, findSession. apply wp_bind, wp_findFirst. intros [v|] E; [|exact S].
  apply found_session in E as [Q [k' Ek]]. pose proof (stands_ids _ _ _ S _ _ Ek) as <-.
  apply wp_update; [intros _; exact S|]. intros v' E'. assert (v' = v) as -> by (cbn in E'; congruence).
  exact (stands_session _ v f Fi S Ek (manual_session _ _ Q)).
Qed.

Lemma stands_create userId sessionId url f : (forall w, DlVerification.id (f w) = DlVerification.id w) ->
  preserves standing (createSessionRow userId sessionId url f).
Proof.
  intros Fi. apply preserves_wp. intros s S. unfold createSessionRow, findSession. apply wp_bind, wp_findFirst. intros o E.
  apply wp_bind, wp_throw_if; intros _; [exact S|]. apply wp_bind, wp_run. intros s1 r [= <- <-]. cbv beta iota.
  apply wp_create; [intros; exact S|]. intros N. destruct S as [I U (w & Ew & P)]. split; cbn.
  - intros k' v'. cbn. intros [[<- <-]|[_ E']]%lookup_insert_Some; [cbn; rewrite Fi; reflexivity | exact (I k' v' E')].
  - exact U.
  - exists w. split; [|exact P]. rewrite lookup_insert_ne; [exact Ew|]. intros <-. cbn in N. congruence.
Qed.

Lemma stands_others (p : DlVerification.t -> bool) f : (forall w, DlVerification.id (f w) = DlVerification.id w) ->
  (forall w, p w = true -> providerRow u DlVerificationStatus.APPROVED w = true -> providerRow u DlVerificationStatus.APPROVED (touched f w) = true) ->
  preserves standing (updateMany prisma.dlVerification p (touched f)).
Proof.
  intros Fi Fp s S. rewrite updateMany_run. unfold on_db in *. destruct S as [I U (w & Ew & P)]. split; cbn.
  - intros k' v'. cbn. rewrite lookup_fmap_Some. intros (v & <- & E). rewrite <- (I k' v E). destruct (p v); [apply Fi | reflexivity].
  - exact U.
  - rewrite lookup_fmap, Ew. eexists. split; [reflexivity|]. destruct (p w) eqn:Q; [apply Fp; assumption | exact P].
Qed.

Lemma stands_user_update x f : (x = u -> forall y, User.dlVerified y = true -> User.dlVerified (f y) = true) ->
  preserves standing (update prisma.user x f).
Proof.
  intros F. apply preserves_update. intros d y [I (z & Ez & V) R] E. split; [exact I | | exact R]. cbn.
  destruct (decide (x = u)) as [->|N].
  - exists (f y). rewrite lookup_insert_eq. split; [reflexivity|]. apply F; [reflexivity|]. cbn in E. congruence.
  - exists z. rewrite lookup_insert_ne by congruence. auto.
Qed.

Lemma stands_elsewhere s : standing s ->
  exists v, head (where_ prisma.dlVerification (approvedElsewhere u) (St.db s)) = Some v.
Proof.
  intros [_ _ (w & Ew & P)]. apply providerRow_spec in P as (U & A & _ & M).
  assert (I : In w (where_ prisma.dlVerification (approvedElsewhere u) (St.db s))).
  { apply where_elem. split; [|eauto]. unfold approvedElsewhere, sessionOf. rewrite !bool_decide_eq_true_2 by assumption. cbn.
    apply negb_true_iff, bool_decide_eq_false. intros Q. apply manual_session in Q. congruence. }
  exact (head_some _ _ I).
Qed.

(** A row for review is never the verified driver's. *)
Lemma loadPending_other x s Q : standing s -> (x <> u -> forall row, Q s (Ok row)) -> (forall e, Q s (Err e)) -> wp (loadPendingRow x) Q s.
Proof.
  intros S K Ke. unfold loadPendingRow, findSession. apply wp_bind, wp_findFirst. intros [row|] E; [|apply Ke].
  do 2 (apply wp_bind, wp_throw_if; intros _; [apply Ke|]). apply wp_bind. unfold isVerifiedElsewhere.
  apply wp_bind, wp_findFirst. intros o Eo. apply wp_ret. apply wp_bind, wp_throw_if; intros T; [apply Ke|]. apply wp_ret, K.
  intros ->. destruct (stands_elsewhere s S) as [v Ev]. rewrite Ev in Eo. subst o. discriminate T.
Qed.

Ltac standing_step :=
  lazymatch goal with
  | |- preserves _ (updateSession _ _) => apply stands_updateSession; reflexivity
  | |- preserves _ (createSessionRow _ _ _ _) => apply stands_create; reflexivity
  | |- preserves _ (transaction _) => apply preserves_transaction
  | |- preserves _ (attempt _) => apply preserves_attempt
  | |- preserves _ (notifyVerificationDecision _ _ _) => unfold notifyVerificationDecision, createNotification
  | |- preserves _ (notifyAdminVerificationChange _ _ _) => unfold notifyAdminVerificationChange, createNotification
  | |- preserves _ (findSession _) => unfold findSession
  | |- _ => preserve_step
  end.

Lemma stands_submit x key : preserves standing (submitDlDocument x key).
Proof. unfold submitDlDocument, isVerifiedElsewhere. repeat standing_step. Qed.

Lemma stands_approve x adminId : preserves standing (approveDlDocument x adminId).
Proof.
  unfold approveDlDocument, loadPendingRow, isVerifiedElsewhere, approveRow.
  repeat first [ apply stands_user_update; reflexivity
               | apply stands_others; [reflexivity|]; intros w P%andb_true_iff R; destruct P as [Q%bool_decide_eq_true _];
                 apply providerRow_spec in R as (_ & _ & _ & N); rewrite (manual_session _ _ Q) in N; discriminate N
               | standing_step ].
Qed.

Lemma stands_withhold st action type subject x reason adminId :
  preserves standing (withholdDlDocument st action type subject x reason adminId).
Proof.
  apply preserves_wp. intros s S. unfold withholdDlDocument. apply wp_bind, loadPending_other; [exact S | | intros e; exact S].
  intros N _. eapply (wp_preserves standing); [|exact S | intros ? ? S'; exact S'].
  repeat first [ apply stands_user_update; intros E; contradiction | standing_step ].
Qed.

Lemma stands_require x adminId : preserves standing (requireVeriffForUser x adminId).
Proof.
  apply preserves_wp. intros s S. unfold requireVeriffForUser, findSession. apply wp_bind, wp_findUnique. intros [user|] Eu; [|exact S].
  apply wp_bind, wp_findFirst. intros manual Em. apply wp_bind, wp_findFirst. intros o Eo. apply wp_bind, wp_throw_if; intros T; [exact S|].
  assert (N : x <> u).
  { intros ->. destruct S as [_ _ (w & Ew & P)].
    assert (I : In w (where_ prisma.dlVerification (providerRow u DlVerificationStatus.APPROVED) (St.db s))) by (apply where_elem; eauto).
    apply head_some in I as [v Ev]. rewrite Ev in Eo. subst o. discriminate T. }
  eapply (wp_preserves standing); [|exact S | intros ? ? S'; exact S'].
  repeat first [ apply stands_user_update; intros E; contradiction | standing_step ].
Qed.
End review.

(** ** The provider's approval *)

(** Only the rows of the manual review have a document. *)
Record Rows (d : Db.t) : Prop := {
  rows_ids : RowIds d;
  rows_documents : forall k v, Db.dlVerification d !! k = Some v -> isManual v = false -> DlVerification.documentImageKey v = None;
}.

Section decision.
Context `{Env} `{Unicode} `{Codec} `{Veriff}.

(** A decision that names a registered user and approves a session of the provider. *)
Record Approves (body : Json) (s : St.t) (sessionId u : string) (verification : Json) (user : User.t) : Prop := {
  approves_verification : verificationOf body = Some verification;
  approves_session : asString (prop verification "id") = Some sessionId /\ sessionId <> EmptyString;
  approves_provider : startsWith "manual:" sessionId = false;
  approves_status : asString (prop verification "status") = Some "approved"%string;
  approves_user : (strip <$> asString (prop verification "vendorData")) = Some u /\ u <> EmptyString;
  approves_registered : Db.user (St.db s) !! u = Some user /\ User.id user = u;
  approves_code : is_Some (decisionCodeOf (prop verification "code"));
}.

(** The row of the session: the approval, with the comparison of the identities. *)
Definition recorded (u sessionId : string) (verification : Json) (user : User.t) (v : DlVerification.t) : Prop :=
  let m := matchIdentityStrict (profileIdentity (Some user)) (verifiedIdentity verification) in
  DlVerification.veriffSessionId v = sessionId /\ providerRow u DlVerificationStatus.APPROVED v = true /\
  DlVerification.nameMatch v = Some (IdentityMatchResult.nameMatch m) /\
  DlVerification.dobMatch v = IdentityMatchResult.dobMatch m /\ DlVerification.genderMatch v = IdentityMatchResult.genderMatch m.

Lemma truthy_nonempty s : s <> EmptyString -> truthy (Some s) = Some s.
Proof. destruct s; [contradiction | reflexivity]. Qed.

(** There is one row for the session, after it was created if need be. *)
Lemma wp_ensureRow u sessionId s Q : Rows (St.db s) -> Db.dlVerification (St.db s) !! uuid (St.seq s) = None ->
  startsWith "manual:" sessionId = false ->
  (forall s' v, Rows (St.db s') -> Db.user (St.db s') = Db.user (St.db s) ->
     head (where_ prisma.dlVerification (sessionOf sessionId) (St.db s')) = Some v -> Q s' (Ok tt)) ->
  wp (if bool_decide (head (where_ prisma.dlVerification (sessionOf sessionId) (St.db s)) = None)
      then createSessionRow u sessionId EmptyString id;; mret tt else mret tt) Q s.
Proof.
  intros [I D] Fresh NM K. case_bool_decide as N.
  - apply wp_bind. unfold createSessionRow, findSession. apply wp_bind, wp_findFirst. intros o Eo.
    rewrite N in Eo. subst o. apply wp_bind, wp_throw_if; intros T; [discriminate T|].
    apply wp_bind, wp_run. intros s1 r [= <- <-]. cbv beta iota. apply wp_create; [intros old E; cbn in E; congruence|]. intros _.
    apply wp_ret. set (row := touched id _). destruct (head_some row (where_ prisma.dlVerification (sessionOf sessionId)
      (St.db s <| Db.dlVerification ::= <[uuid (St.seq s) := row]> |>))) as [v Ev].
    { apply where_elem. split; [apply bool_decide_eq_true; reflexivity|]. exists (uuid (St.seq s)). apply lookup_insert_eq. }
    apply (K _ v); [|reflexivity | exact Ev]. split.
    + intros k w. cbn. intros [[<- <-]|[_ E]]%lookup_insert_Some; [reflexivity | exact (I k w E)].
    + intros k w. cbn. intros [[<- <-]|[_ E]]%lookup_insert_Some M; [reflexivity | exact (D k w E M)].
  - destruct (head _) as [v|] eqn:E; [|contradiction]. apply wp_ret, (K _ v); [split; assumption | reflexivity | exact E].
Qed.

Lemma rows_update d v w : Rows d -> Db.dlVerification d !! DlVerification.id v = Some v ->
  DlVerification.id w = DlVerification.id v -> DlVerification.veriffSessionId w = DlVerification.veriffSessionId v ->
  DlVerification.documentImageKey w = DlVerification.documentImageKey v ->
  Rows (d <| Db.dlVerification ::= <[DlVerification.id v := w]> |>).
Proof.
  intros [I D] E Hi Hs Hd. split.
  - intros k x. cbn. intros [[<- <-]|[_ Ex]]%lookup_insert_Some; [exact Hi | exact (I k x Ex)].
  - intros k x. cbn. intros [[<- <-]|[_ Ex]]%lookup_insert_Some M; [|exact (D k x Ex M)].
    rewrite Hd. apply (D _ v E). unfold isManual in *. rewrite <- Hs. exact M.
Qed.

Lemma decision_spec body sessionId u verification user s : Rows (St.db s) -> Approves body s sessionId u verification user ->
  Db.dlVerification (St.db s) !! uuid (St.seq s) = None ->
  wp (handleWebhookDecision body) (fun s' r =>
    r = Ok {| DecisionResult.success := true; DecisionResult.reason := None; DecisionResult.status := Some DlVerificationStatus.APPROVED |} /\
    exists k v, Db.dlVerification (St.db s') !! k = Some v /\ recorded u sessionId verification user v /\ Stands u k (St.db s')) s.
Proof.
  intros R [Ev [Es Ns] NM St_ [Eu Nu] [Er Hu] [code Ec]] Fresh. unfold handleWebhookDecision. rewrite Ev. cbn [mbind option_bind].
  rewrite Es, (truthy_nonempty _ Ns), St_. cbv zeta. cbn [default].
  apply wp_bind. unfold findSession. apply wp_findFirst. intros record Erec. subst record.
  apply wp_bind. unfold decisionUser. rewrite Eu. cbn [default from_option]. unfold id at 1. rewrite (truthy_nonempty _ Nu). cbn iota.
  apply wp_bind, wp_findUnique. intros o Eo. assert (o = Some user) as -> by (cbn in Eo; congruence). apply wp_ret. rewrite Hu.
  apply wp_bind, (wp_ensureRow u sessionId s _ R Fresh NM). intros s1 v R1 U1 E1.
  apply wp_bind, wp_findUnique. intros o Eo2. assert (o = Some user) as -> by (cbn in Eo2; congruence).
  change (mappedStatusOf "approved") with (Some DlVerificationStatus.APPROVED). cbv iota beta. rewrite Ec.
  rewrite (bool_decide_eq_true_2 (Some DlVerificationStatus.APPROVED = Some DlVerificationStatus.APPROVED)) by reflexivity.
  apply wp_bind. unfold updateSession, findSession. apply wp_bind, wp_findFirst. intros o Eo3. assert (o = Some v) as -> by congruence.
  apply found_session in E1 as [Qs [k Ek]]. pose proof (rows_ids _ R1 k v Ek) as <-.
  apply wp_update; [intros N; cbn in N; congruence|]. intros v' Ev'. assert (v' = v) as -> by (cbn in Ev'; congruence).
  set (m := matchIdentityStrict _ _). set (w := touched (decisionColumns u _ code _ body _ (Some m)) v).
  assert (M : isManual w = false) by (unfold isManual; change (DlVerification.veriffSessionId w) with (DlVerification.veriffSessionId v); rewrite Qs; exact NM).
  assert (R2 : Rows (St.db s1 <| Db.dlVerification ::= <[DlVerification.id v := w]> |>)) by (apply rows_update; [exact R1 | exact Ek | reflexivity..]).
  assert (P : recorded u sessionId verification user w).
  { split; [exact Qs|]. split; [|repeat split]. apply providerRow_spec. repeat split; [|exact M].
    apply (rows_documents _ R1 _ _ Ek). exact M. }
  apply wp_bind. unfold verifyUser. cbn [when]. apply wp_transaction.
  apply wp_bind, wp_update; [intros N; cbn in N; congruence|]. intros x Ex. assert (x = user) as -> by (cbn in Ex; congruence).
  apply wp_bind, wp_run. intros s2 n. rewrite updateMany_run. intros [= <- <-]. apply wp_ret. cbv iota beta. apply wp_ret.
  split; [reflexivity|]. exists (DlVerification.id v), w.
  assert (Row : Db.dlVerification (St.db s1) !! DlVerification.id v = Some v) by exact Ek.
  assert (W : forall f, (fmap (fun r => if bool_decide (DlVerification.userId r = u) && bool_decide (DlVerification.status r = DlVerificationStatus.PENDING) && negb (sessionOf sessionId r)
              then f r else r) (<[DlVerification.id v := w]> (Db.dlVerification (St.db s1)))) !! DlVerification.id v = Some w).
  { intros f. rewrite lookup_fmap, lookup_insert_eq. cbn. unfold sessionOf. rewrite (bool_decide_eq_true_2 _ Qs). rewrite andb_false_r. reflexivity. }
  split; [exact (W _)|]. split; [exact P|]. split.
  - intros k' x. cbn. rewrite lookup_fmap_Some. intros (y & <- & Ey). rewrite <- (rows_ids _ R2 k' y Ey). destruct (_ && _); reflexivity.
  - exists (user <| User.dlVerified := true |>). cbn. rewrite lookup_insert_eq. auto.
  - exists w. split; [exact (W _) | exact (proj1 (proj2 P))].
Qed.
End decision.

(** ** The manual review and the provider *)

Inductive ReviewCall :=
| SubmitLicence (userId documentImageKey : string)
| ApproveLicence (userId : string) (adminId : option string)
| DeclineLicence (userId reason : string) (adminId : option string)
| AskResubmission (userId reason : string) (adminId : option string)
| RequireVeriff (userId : string) (adminId : option string)
| RegisterSession (userId sessionId sessionUrl : string)
| LicenceEvent (body : Json)
| ReviewQueueOf (q : DlReviewQueueQuery.t).

Definition runReview `{Env} (c : ReviewCall) : H unit :=
  match c with
  | SubmitLicence u key => submitDlDocument u key;; mret tt
  | ApproveLicence u a => approveDlDocument u a;; mret tt
  | DeclineLicence u r a => declineDlDocument u r a;; mret tt
  | AskResubmission u r a => requestDlResubmission u r a;; mret tt
  | RequireVeriff u a => requireVeriffForUser u a
  | RegisterSession u i url => registerVeriffSession u i url;; mret tt
  | LicenceEvent body => handleWebhookEvent body;; mret tt
  | ReviewQueueOf q => listDlReviewQueue q;; mret tt
  end.

Inductive review_step : St.t -> St.t -> Prop :=
| review_call (env : Env) (c : ReviewCall) (s : St.t) : review_step s (runReview c s).1.

Section steps.
Context `{Env} (u k : string).

Lemma stands_event body : preserves (on_db (Stands u k)) (handleWebhookEvent body).
Proof.
  unfold handleWebhookEvent.
  repeat lazymatch goal with
         | |- preserves _ (updateMany _ _ _) => apply stands_others; [reflexivity|]; intros w _ R; exact R
         | |- _ => preserve_step
         end.
Qed.

Lemma stands_register x i url : preserves (on_db (Stands u k)) (registerVeriffSession x i url).
Proof.
  unfold registerVeriffSession, hasApprovedVerification, findSession.
  repeat lazymatch goal with
         | |- preserves _ (createSessionRow _ _ _ _) => apply stands_create; reflexivity
         | |- _ => preserve_step
         end.
Qed.

Lemma stands_step c : preserves (on_db (Stands u k)) (runReview c).
Proof.
  destruct c; cbn [runReview]; try (apply preserves_bind; [|intros; apply preserves_ret]).
  - apply stands_submit.
  - apply stands_approve.
  - unfold declineDlDocument. apply stands_withhold.
  - unfold requestDlResubmission. apply stands_withhold.
  - apply stands_require.
  - apply stands_register.
  - apply stands_event.
  - unfold listDlReviewQueue. preserve.
Qed.
End steps.

(** C13.  When the provider approves a session of a registered user, the decision is applied
    whatever identity stands on the document: the user is verified and the row keeps the
    comparison with the profile, which withholds nothing (the guide of the flow and comments
    of the service say that a mismatch does).  No later submission, approval, refusal or order of an
    administrator takes the verification away, nor do registrations and events. *)
Theorem provider_approval_stands `{Env} `{Unicode} `{Codec} `{Veriff} (body : Json) (s : St.t) (sessionId u : string)
    (verification : Json) (user : User.t) :
  Rows (St.db s) -> Approves body s sessionId u verification user -> Db.dlVerification (St.db s) !! uuid (St.seq s) = None ->
  exists s1 k v,
    handleWebhookDecision body s = (s1, Ok {| DecisionResult.success := true; DecisionResult.reason := None;
                                              DecisionResult.status := Some DlVerificationStatus.APPROVED |}) /\
    Db.dlVerification (St.db s1) !! k = Some v /\ recorded u sessionId verification user v /\
    forall s2, rtc review_step s1 s2 ->
      (exists x, Db.user (St.db s2) !! u = Some x /\ User.dlVerified x = true) /\
      (exists w, Db.dlVerification (St.db s2) !! k = Some w /\ providerRow u DlVerificationStatus.APPROVED w = true).
Proof.
  intros R A F. pose proof (decision_spec body sessionId u verification user s R A F) as W. unfold wp in W.
  destruct (handleWebhookDecision body s) as [s1 r]. cbn [fst snd] in W. destruct W as (-> & k & v & E & P & S). exists s1, k, v.
  split; [reflexivity|]. split; [exact E|]. split; [exact P|]. clear E P.
  intros s2 Steps. assert (S2 : Stands u k (St.db s2)).
  { induction Steps as [x|x y z [env c x'] _ IH]; [exact S|]. apply IH. exact (stands_step u k c x' S). }
  split; [exact (stands_user _ _ _ S2) | exact (stands_row _ _ _ S2)].
Qed.

(** ** A decision and a review *)

Definition demo_licence_env : Env := demo_env 1000 no_failure.
Definition demo_veriff : Veriff := {|
  VERIFF_BASE_URL := "https://veriff"; VERIFF_CALLBACK_URL := ""; VERIFF_DECISION_RECOVERY_LIMIT := 50;
  VERIFF_DECISION_RECOVERY_MIN_AGE_MINUTES := 5; VERIFF_API_KEY := Some "key"; VERIFF_SHARED_SECRET := Some "master";
  VERIFF_WEBHOOK_SECRET := Some "hook"; hmac := fun secret _ => secret; answer := fun _ _ => EmptyString;
  answerSignature := fun _ _ => None; sessionAnswer := fun _ => JNull |}%string.

(** A document in another name. *)
Definition demo_decision : Json :=
  JObject [("verification"%string, JObject
    [("id"%string, JString "s1"); ("status"%string, JString "approved"); ("vendorData"%string, JString " d1 ");
     ("person"%string, JObject [("firstName"%string, JString "Somebody"); ("lastName"%string, JObject [("value"%string, JString "Else")])])])].
Definition demo_verification : Json := default JNull (verificationOf demo_decision).

Definition demo_profile : User.t :=
  User.defaults "d1" 0 <| User.firstName := Some "Mari"%string |> <| User.lastName := Some "Tamm"%string |>.
Definition demo_licences : St.t := St.Build_t (Db.empty <| Db.user := {["d1"%string := demo_profile]} |>) [] 0.

Lemma demo_approves : Approves demo_decision demo_licences "s1" "d1" demo_verification demo_profile.
Proof.
  split; try (vm_compute; reflexivity); try (split; [vm_compute; reflexivity | discriminate]).
  - split; vm_compute; reflexivity.
  - exists None. vm_compute. reflexivity.
Qed.

Lemma demo_rows : Rows (St.db demo_licences).
Proof. split; intros k v E; vm_compute in E; discriminate E. Qed.

(** An administrator declines the licence after the decision. *)
Lemma provider_approval_stands_witness : exists s1 k v x,
  @handleWebhookDecision demo_licence_env demo_unicode demo_decision demo_licences =
    (s1, Ok {| DecisionResult.success := true; DecisionResult.reason := None; DecisionResult.status := Some DlVerificationStatus.APPROVED |}) /\
  Db.dlVerification (St.db s1) !! k = Some v /\ DlVerification.nameMatch v = Some false /\
  Db.user (St.db (@runReview demo_licence_env (DeclineLicence "d1" "blurred" (Some "admin"%string)) s1).1) !! "d1"%string = Some x /\
  User.dlVerified x = true.
Proof.
  destruct (@provider_approval_stands demo_licence_env demo_unicode demo_codec demo_veriff demo_decision demo_licences "s1" "d1"
              demo_verification demo_profile demo_rows demo_approves eq_refl) as (s1 & k & v & E & Ek & P & S).
  destruct (S _ (rtc_once _ _ (@review_call demo_licence_env (DeclineLicence "d1" "blurred" (Some "admin"%string)) s1))) as [(x & Ex & V) _].
  exists s1, k, v, x. split; [exact E|]. split; [exact Ek|]. split; [|split; [exact Ex | exact V]].
  destruct P as (_ & _ & N & _). rewrite N. vm_compute. reflexivity.
Defined.

Lemma forged_webhook_changes_nothing_witness : exists r,
  @webhook demo_licence_env demo_unicode demo_codec demo_veriff (Some "00"%string) (Some "{}"%string) demo_licences = (demo_licences, Ok r).
Proof.
  destruct (@forged_webhook_changes_nothing demo_licence_env demo_unicode demo_codec demo_veriff (Some "00"%string) (Some "{}"%string) demo_licences)
    as (r & E & _); [|exists r; exact E].
  intros sig payload secret [= <-] _ (_ & H & _). vm_compute in H. discriminate H.
Defined.

(** ** An approval is told once *)

Lemma same_licences d h : h (Db.dlVerification d) = Db.dlVerification d -> with_rows prisma.dlVerification h d = d.
Proof. destruct d. cbn. intros E. unfold setf. cbn. rewrite E. reflexivity. Qed.

Lemma same_users d h : h (Db.user d) = Db.user d -> with_rows prisma.user h d = d.
Proof. destruct d. cbn. intros E. unfold setf. cbn. rewrite E. reflexivity. Qed.

Section once.
Context `{Env}.

(** The licence of the user is approved by hand, and only by hand. *)
Record ByHand (u : string) (row : DlVerification.t) (d : Db.t) : Prop := {
  hand_row : head (where_ prisma.dlVerification (sessionOf (manualSessionId u)) d) = Some row;
  hand_document : truthy (DlVerification.documentImageKey row) <> None;
  hand_approved : forall k v, Db.dlVerification d !! k = Some v -> sessionOf (manualSessionId u) v = true ->
    DlVerification.status v = DlVerificationStatus.APPROVED;
  hand_alone : head (where_ prisma.dlVerification (approvedElsewhere u) d) = None;
  hand_user : exists x, Db.user d !! u = Some x /\ User.dlVerified x = true;
}.

Lemma where_fmap {R} (t : Table R) (p : R -> bool) (g : R -> R) (d d' : Db.t) :
  rows t d' = fmap g (rows t d) -> (forall r, p (g r) = p r) -> where_ t p d' = map g (where_ t p d).
Proof.
  intros E P. unfold where_. rewrite E, map_to_list_fmap. induction (map_to_list (rows t d)) as [|[k r] l IH]; cbn; [reflexivity|].
  rewrite P. destruct (p r); cbn; [rewrite IH | exact IH]. reflexivity.
Qed.

Lemma wp_loadPendingRow u s Q : 
  (forall row, head (where_ prisma.dlVerification (sessionOf (manualSessionId u)) (St.db s)) = Some row ->
     truthy (DlVerification.documentImageKey row) <> None -> DlVerification.status row <> DlVerificationStatus.SUPERSEDED ->
     head (where_ prisma.dlVerification (approvedElsewhere u) (St.db s)) = None -> Q s (Ok row)) ->
  (forall e, Q s (Err e)) -> wp (loadPendingRow u) Q s.
Proof.
  intros K Ke. unfold loadPendingRow, findSession. apply wp_bind, wp_findFirst. intros [row|] E; [|apply Ke].
  apply wp_bind, wp_throw_if; intros D; [apply Ke|]. apply wp_bind, wp_throw_if; intros T; [apply Ke|].
  apply wp_bind. unfold isVerifiedElsewhere. apply wp_bind, wp_findFirst. intros o Eo. apply wp_ret.
  apply wp_bind, wp_throw_if; intros N; [apply Ke|]. apply wp_ret. apply bool_decide_eq_false in D, T, N.
  apply K; [exact E | exact D | exact T|]. destruct o; [|exact Eo]. exfalso. apply N. eauto.
Qed.

Lemma notify_db user type subject s Q : (forall s', St.db s' = St.db s -> Q s' (Ok tt)) ->
  wp (notifyVerificationDecision user type subject) Q s.
Proof.
  intros K. unfold notifyVerificationDecision, attempt, createNotification. apply wp_try_catch.
  apply wp_bind, wp_bind, wp_perform. intros [e|] _; [apply wp_ret, K; reflexivity|].
  destruct (truthy (User.email user)) as [email|]; [|apply wp_ret, wp_ret, K; reflexivity].
  apply wp_perform. intros [e|] _; apply wp_ret, K; reflexivity.
Qed.

Lemma approve_leaves_by_hand u adminId s :
  wp (approveDlDocument u adminId) (if_ok (fun s' _ => exists row, ByHand u row (St.db s'))) s.
Proof.
  unfold approveDlDocument. apply wp_bind, wp_loadPendingRow; [|intros e; exact I]. intros row E D _ Alone.
  apply wp_bind, wp_findUnique. intros [user|] Eu; [|exact I]. cbn in Eu.
  set (p := fun v => sessionOf (manualSessionId u) v && negb (bool_decide (DlVerification.status v = DlVerificationStatus.APPROVED))).
  set (g := fun v => if p v then touched (approvedRow user adminId) v else v).
  assert (Gs : forall v, DlVerification.veriffSessionId (g v) = DlVerification.veriffSessionId v) by (intros v; unfold g; destruct (p v); reflexivity).
  apply wp_bind, wp_transaction. unfold approveRow. apply wp_bind, wp_run. intros s1 n. rewrite updateMany_run. intros [= <- <-].
  apply wp_bind, wp_update; [intros N; cbn in N; congruence|]. intros x Ex. assert (x = user) as -> by (cbn in Ex; congruence).
  apply wp_ret. cbv iota beta.
  match goal with |- wp _ _ ?s1 => set (s2 := s1) end.
  assert (Rows2 : Db.dlVerification (St.db s2) = g <$> Db.dlVerification (St.db s)) by reflexivity.
  assert (B : ByHand u (g row) (St.db s2)).
  { split.
    - rewrite (where_fmap prisma.dlVerification _ g (St.db s) (St.db s2) Rows2); [|intros v; unfold sessionOf; rewrite Gs; reflexivity].
      rewrite head_map, E. reflexivity.
    - unfold g. destruct (p row); exact D.
    - intros k v. rewrite Rows2, lookup_fmap_Some. intros (w & <- & Ew) S. unfold g, p in *.
      destruct (sessionOf _ w) eqn:Sw; cbn [andb] in *; [|congruence].
      destruct (bool_decide (DlVerification.status w = _)) eqn:A; cbn [negb] in *; [exact (bool_decide_eq_true_1 _ A) | reflexivity].
    - rewrite (where_fmap prisma.dlVerification _ g (St.db s) (St.db s2) Rows2).
      + rewrite head_map, Alone. reflexivity.
      + intros v. unfold approvedElsewhere. unfold sessionOf at 1 2. rewrite Gs. unfold g, p.
        destruct (sessionOf (manualSessionId u) v) eqn:Sv; unfold sessionOf in Sv; rewrite Sv; cbn [negb andb];
          [rewrite !andb_false_r; reflexivity | reflexivity].
    - exists (user <| User.dlVerified := true |>). cbn. rewrite lookup_insert_eq. auto. }
  apply wp_bind. unfold findSession. apply wp_findFirst. intros o Eo. rewrite (hand_row _ _ _ B) in Eo. subst o.
  destruct (negb _); [apply wp_ret; exists (g row); exact B|].
  apply wp_bind, notify_db. intros s3 E3. apply wp_ret. exists (g row). rewrite E3. exact B.
Qed.

Lemma approve_again u adminId row s : ByHand u row (St.db s) -> approveDlDocument u adminId s = (s, Ok (row, true)).
Proof.
  intros [E D A Alone (x & Ex & V)].
  assert (Ir : exists k, Db.dlVerification (St.db s) !! k = Some row /\ sessionOf (manualSessionId u) row = true).
  { apply found_session in E as [S [k Ek]]. exists k. split; [exact Ek | apply bool_decide_eq_true; exact S]. }
  destruct Ir as (k & Ek & Sk). pose proof (A k row Ek Sk) as St_.
  assert (W : wp (approveDlDocument u adminId) (fun s' r => s' = s /\ r = Ok (row, true)) s).
  2: { unfold wp in W. destruct (approveDlDocument u adminId s) as [s' r]. cbn [fst snd] in W. destruct W as [-> ->]. reflexivity. }
  unfold approveDlDocument. apply wp_bind. unfold loadPendingRow, findSession.
  apply wp_bind, wp_findFirst. intros o Eo. assert (o = Some row) as -> by congruence.
  apply wp_bind, wp_throw_if; intros T; [apply bool_decide_eq_true in T; contradiction|].
  apply wp_bind, wp_throw_if; intros T2; [apply bool_decide_eq_true in T2; congruence|].
  apply wp_bind. unfold isVerifiedElsewhere. apply wp_bind, wp_findFirst. intros o Eo2. assert (o = None) as -> by congruence.
  apply wp_ret. apply wp_bind, wp_throw_if; intros T3; [discriminate T3|]. apply wp_ret.
  apply wp_bind, wp_findUnique. intros o Eo3. assert (o = Some x) as -> by (cbn in Eo3; congruence).
  apply wp_bind, wp_transaction. unfold approveRow. apply wp_bind, wp_run. intros s1 n. rewrite updateMany_run. intros [= <- <-].
  set (p := fun v => sessionOf (manualSessionId u) v && negb (bool_decide (DlVerification.status v = DlVerificationStatus.APPROVED))).
  assert (N : forall k v, Db.dlVerification (St.db s) !! k = Some v -> p v = false).
  { intros k' v Ev. unfold p. destruct (sessionOf _ v) eqn:Sv; [|reflexivity]. rewrite (bool_decide_eq_true_2 _ (A k' v Ev Sv)). reflexivity. }
  assert (Same : fmap (fun r => if p r then touched (approvedRow x adminId) r else r) (Db.dlVerification (St.db s)) = Db.dlVerification (St.db s)).
  { apply map_eq. intros i. rewrite lookup_fmap. destruct (Db.dlVerification (St.db s) !! i) as [v|] eqn:Ev; [|reflexivity].
    cbn. rewrite (N i v Ev). reflexivity. }
  assert (None_ : where_ prisma.dlVerification p (St.db s) = []).
  { destruct (where_ prisma.dlVerification p (St.db s)) as [|v l] eqn:F; [reflexivity|].
    assert (I : In v (where_ prisma.dlVerification p (St.db s))) by (rewrite F; left; reflexivity).
    apply where_elem in I as [P [i Ei]]. rewrite (N i v Ei) in P. discriminate P. }
  assert (Xx : x <| User.dlVerified := true |> = x) by (destruct x; cbn in V; rewrite V; reflexivity).
  apply wp_bind, wp_update; [intros Nx; cbn in Nx; congruence|]. intros y Ey. assert (y = x) as -> by (cbn in Ey; congruence).
  fold p. rewrite None_. apply wp_ret. cbv iota beta.
  match goal with |- wp _ _ ?s2 => assert (Ss : s2 = s) end.
  { pose proof (set_db_id _ s (same_licences (St.db s) _ Same)) as E1. rewrite Xx.
    etransitivity; [exact (f_equal (fun s => s <| St.db ::= with_rows prisma.user <[u := x]> |>) E1)|].
    apply set_db_id, same_users, insert_id, Ex. }
  rewrite Ss. apply wp_bind, wp_findFirst. intros o Eo4. assert (o = Some row) as -> by congruence.
  cbn. split; reflexivity.
Qed.
End once.

(** Once a licence was approved by hand, approving it again (whoever does, whenever)
    answers that it was approved before and changes nothing: no row is written and nobody
    is told a second time. *)
Theorem approval_is_told_once (env1 env2 : Env) (u : string) (admin1 admin2 : option string) (s s1 : St.t) (r : DlVerification.t * bool) :
  @approveDlDocument env1 u admin1 s = (s1, Ok r) ->
  exists row, @approveDlDocument env2 u admin2 s1 = (s1, Ok (row, true)).
Proof.
  intros E. pose proof (@approve_leaves_by_hand env1 u admin1 s) as W. unfold wp in W. rewrite E in W. destruct W as (row & B).
  exists row. exact (@approve_again env2 u admin2 row s1 B).
Qed.

(** A licence is submitted and approved; then approved again, a day later. *)
Definition demo_submitted : St.t := (@submitDlDocument demo_licence_env "d1" "uploads/licence.jpg" demo_licences).1.
Definition demo_approved : St.t * Res (DlVerification.t * bool) := @approveDlDocument demo_licence_env "d1" None demo_submitted.

Lemma approval_is_told_once_witness : exists row,
  length (St.fx demo_approved.1) = 1%nat /\
  @approveDlDocument (demo_env 86400000 no_failure) "d1" (Some "admin"%string) demo_approved.1 = (demo_approved.1, Ok (row, true)).
Proof.
  assert (E : exists r, demo_approved = (demo_approved.1, Ok r)).
  { assert (E : match demo_approved.2 with Ok _ => true | Err _ => false end = true) by (vm_compute; reflexivity).
    destruct demo_approved as [s [r|e]]; [exists r; reflexivity | discriminate E]. }
  destruct E as [r E].
  destruct (approval_is_told_once demo_licence_env (demo_env 86400000 no_failure) "d1" None (Some "admin"%string) demo_submitted _ r E) as [row A].
  exists row. split; [vm_compute; reflexivity | exact A].
Defined.
