(* ===== verification/Ratings.v ===== *)
(** * Ratings

    Models [modules/ratings/ratings.service.ts]: passenger and driver rate each other after
    a trip, once per booking, and the totals of the rated user follow. *)

From Stdlib Require Import ZArith QArith Lia.
From stdpp Require Import base list option strings gmap relations.
From S2P Require Import Prelude JsNumber JsText Money Schema Store Time Gateway.

Open Scope Z_scope.

Module SubmitRatingInput.
Record t := { stars : num; reviewText : option string }.
End SubmitRatingInput.

(** [Number(value.toFixed(2))] *)
Definition round2Stars (value : num) : num := number_to_fixed2 value.

Definition rateableBookingStatuses : list BookingStatus.t :=
  [BookingStatus.COMPLETED; BookingStatus.NO_SHOW; BookingStatus.DRIVER_MISSED_PICKUP].

Definition acceptedBookingStatuses : list BookingStatus.t :=
  [BookingStatus.CONFIRMED; BookingStatus.WAITING_FOR_PICKUP; BookingStatus.DRIVER_ARRIVED; BookingStatus.OTP_PENDING;
   BookingStatus.IN_PROGRESS; BookingStatus.ONBOARD; BookingStatus.DROP_PENDING; BookingStatus.DRIVER_DROPPED; BookingStatus.DISPUTED].

Definition isBookingRateable (bookingStatus : BookingStatus.t) (rideStatus : RideStatus.t) : bool :=
  bool_decide (bookingStatus ∈ rateableBookingStatuses) ||
  bool_decide (rideStatus = RideStatus.COMPLETED) && bool_decide (bookingStatus ∈ acceptedBookingStatuses).

Definition ratingBy (bookingId raterId : string) (r : RideRating.t) : bool :=
  bool_decide (RideRating.bookingId r = bookingId) && bool_decide (RideRating.raterId r = raterId).

Definition statsFor (userId : string) (s : UserRatingStats.t) : bool := bool_decide (UserRatingStats.userId s = userId).

Section ratings.
Context `{Env}.

(** The totals of a user after one more rating; [userId] is unique. *)
Definition addStars (rateeId : string) (stars : Z) : H unit :=
  existingStats ← findFirst prisma.userRatingStats (statsFor rateeId);
  match existingStats with
  | None =>
      id ← randomUUID;
      create prisma.userRatingStats id (UserRatingStats.defaults id now <| UserRatingStats.userId := rateeId |>
        <| UserRatingStats.totalRatings := 1 |> <| UserRatingStats.totalStars := stars |>
        <| UserRatingStats.averageRating := round2Stars (num_of_Z stars) |>);;
      mret tt
  | Some st =>
      let totalRatings := UserRatingStats.totalRatings st + 1 in
      let totalStars := UserRatingStats.totalStars st + stars in
      update prisma.userRatingStats (UserRatingStats.id st) (fun st =>
        st <| UserRatingStats.totalRatings := totalRatings |> <| UserRatingStats.totalStars := totalStars |>
           <| UserRatingStats.averageRating := round2Stars (ndiv (num_of_Z totalStars) (num_of_Z totalRatings)) |>);;
      mret tt
  end.

(** The transaction: the pair of booking and rater is unique. *)
Definition recordRating (booking : RideBooking.t) (raterId rateeId : string) (stars : Z) (reviewText : option string) : H RideRating.t :=
  taken ← findFirst prisma.rideRating (ratingBy (RideBooking.id booking) raterId);
  throw_if (bool_decide (is_Some taken)) "RATING_ALREADY_SUBMITTED";;
  id ← randomUUID;
  rating ← create prisma.rideRating id (RideRating.defaults id now
    <| RideRating.bookingId := RideBooking.id booking |> <| RideRating.rideId := RideBooking.rideId booking |>
    <| RideRating.raterId := raterId |> <| RideRating.rateeId := rateeId |>
    <| RideRating.stars := stars |> <| RideRating.reviewText := reviewText |>);
  addStars rateeId stars;;
  mret rating.

Definition submitBookingRating (raterId bookingId : string) (input : SubmitRatingInput.t) : H RideRating.t :=
  match integer_of (Some (SubmitRatingInput.stars input)) with
  | None => throw "INVALID_RATING_VALUE"
  | Some stars =>
      throw_if ((stars <? 1) || (5 <? stars)) "INVALID_RATING_VALUE";;
      booking ← findUnique prisma.rideBooking bookingId;
      match booking with
      | None => throw "BOOKING_NOT_FOUND"
      | Some booking =>
          ride ← findUniqueOrThrow prisma.ride (RideBooking.rideId booking);
          throw_if (negb (isBookingRateable (RideBooking.status booking) (Ride.status ride))) "BOOKING_NOT_COMPLETED";;
          let isPassenger := bool_decide (RideBooking.passengerId booking = raterId) in
          let isDriver := bool_decide (Ride.driverId ride = raterId) in
          throw_if (negb isPassenger && negb isDriver) "NOT_BOOKING_PARTICIPANT";;
          let rateeId := if isPassenger then Ride.driverId ride else RideBooking.passengerId booking in
          throw_if (bool_decide (rateeId = raterId)) "SELF_RATING_NOT_ALLOWED";;
          existing ← findFirst prisma.rideRating (ratingBy bookingId raterId);
          throw_if (bool_decide (is_Some existing)) "RATING_ALREADY_SUBMITTED";;
          transaction (recordRating booking raterId rateeId stars (truthy (strip <$> SubmitRatingInput.reviewText input)))
      end
  end.
End ratings.

(** ** The totals *)

Definition receivedBy (u : string) (d : Db.t) : Z :=
  sum_map (fun r => if bool_decide (RideRating.rateeId r = u) then 1 else 0) (Db.rideRating d).
Definition starsOf (u : string) (d : Db.t) : Z :=
  sum_map (fun r => if bool_decide (RideRating.rateeId r = u) then RideRating.stars r else 0) (Db.rideRating d).

Record RatingInv (d : Db.t) : Prop := {
  rating_range : forall k r, Db.rideRating d !! k = Some r -> 1 <= RideRating.stars r <= 5 /\ RideRating.raterId r <> RideRating.rateeId r;
  rating_once : forall k1 k2 r1 r2, Db.rideRating d !! k1 = Some r1 -> Db.rideRating d !! k2 = Some r2 ->
    RideRating.bookingId r1 = RideRating.bookingId r2 -> RideRating.raterId r1 = RideRating.raterId r2 -> k1 = k2;
  stats_id : forall k st, Db.userRatingStats d !! k = Some st -> UserRatingStats.id st = k;
  stats_one : forall k1 k2 s1 s2, Db.userRatingStats d !! k1 = Some s1 -> Db.userRatingStats d !! k2 = Some s2 ->
    UserRatingStats.userId s1 = UserRatingStats.userId s2 -> k1 = k2;
  stats_totals : forall k st, Db.userRatingStats d !! k = Some st ->
    UserRatingStats.totalRatings st = receivedBy (UserRatingStats.userId st) d /\
    UserRatingStats.totalStars st = starsOf (UserRatingStats.userId st) d /\
    UserRatingStats.averageRating st =
      round2Stars (ndiv (num_of_Z (UserRatingStats.totalStars st)) (num_of_Z (UserRatingStats.totalRatings st)));
  stats_missing : forall u, (forall k st, Db.userRatingStats d !! k = Some st -> UserRatingStats.userId st <> u) -> receivedBy u d = 0;
}.

Lemma found_stats u d o : head (where_ prisma.userRatingStats (statsFor u) d) = o ->
  match o with
  | Some st => UserRatingStats.userId st = u /\ exists k, Db.userRatingStats d !! k = Some st
  | None => forall k st, Db.userRatingStats d !! k = Some st -> UserRatingStats.userId st <> u
  end.
Proof.
  intros <-. destruct (where_ _ _ _) as [|st l] eqn:W; cbn.
  - intros k st E Q. assert (I : In st (where_ prisma.userRatingStats (statsFor u) d)) by (apply where_elem; split; [apply bool_decide_eq_true, Q | eauto]).
    rewrite W in I. destruct I.
  - assert (I : In st (where_ prisma.userRatingStats (statsFor u) d)) by (rewrite W; left; reflexivity).
    apply where_elem in I as [Q%bool_decide_eq_true E]. auto.
Qed.

(** No stars without a rating. *)
Lemma no_stars u d : (forall k r, Db.rideRating d !! k = Some r -> 1 <= RideRating.stars r <= 5 /\ RideRating.raterId r <> RideRating.rateeId r) ->
  receivedBy u d <= starsOf u d <= 5 * receivedBy u d.
Proof.
  unfold receivedBy, starsOf. generalize (Db.rideRating d). intros m. induction m as [|k r m E IH] using map_ind; intros R.
  - rewrite !sum_map_empty. lia.
  - rewrite !sum_map_insert_None by exact E. specialize (R k r (lookup_insert_eq _ _ _)) as Rk.
    assert (IH' : sum_map (fun r => if bool_decide (RideRating.rateeId r = u) then 1 else 0) m <=
                  sum_map (fun r => if bool_decide (RideRating.rateeId r = u) then RideRating.stars r else 0) m <=
                  5 * sum_map (fun r => if bool_decide (RideRating.rateeId r = u) then 1 else 0) m).
    { apply IH. intros k' r' E'. apply (R k'). rewrite lookup_insert_ne; [exact E' | congruence]. }
    case_bool_decide; lia.
Qed.

Lemma first_average stars : 1 <= stars <= 5 -> round2Stars (num_of_Z stars) = round2Stars (ndiv (num_of_Z stars) (num_of_Z 1)).
Proof.
  intros B. assert (C : stars = 1 \/ stars = 2 \/ stars = 3 \/ stars = 4 \/ stars = 5) by lia.
  destruct C as [->|[->|[->|[->| ->]]]]; vm_compute; reflexivity.
Qed.

(** A new rating by itself. *)
Lemma totals_after u d id r : Db.rideRating d !! id = None ->
  receivedBy u (d <| Db.rideRating ::= <[id := r]> |>) = receivedBy u d + (if bool_decide (RideRating.rateeId r = u) then 1 else 0) /\
  starsOf u (d <| Db.rideRating ::= <[id := r]> |>) = starsOf u d + (if bool_decide (RideRating.rateeId r = u) then RideRating.stars r else 0).
Proof. intros E. unfold receivedBy, starsOf. cbn. rewrite !sum_map_insert_None by exact E. lia. Qed.

(** The rating [r] was just written; the totals of its user are still the old ones. *)
Record Pending (d : Db.t) (id : string) (r : RideRating.t) (d' : Db.t) : Prop := {
  pending_new : Db.rideRating d !! id = None;
  pending_row : Db.rideRating d' = <[id := r]> (Db.rideRating d);
  pending_stats : Db.userRatingStats d' = Db.userRatingStats d;
  pending_range : 1 <= RideRating.stars r <= 5 /\ RideRating.raterId r <> RideRating.rateeId r;
  pending_once : forall k r1, Db.rideRating d !! k = Some r1 -> RideRating.bookingId r1 = RideRating.bookingId r -> RideRating.raterId r1 <> RideRating.raterId r;
}.

Section totals.
Context `{Env} (d : Db.t) (id : string) (r : RideRating.t) (s : St.t).
Hypotheses (I : RatingInv d) (P : Pending d id r (St.db s)).

Lemma pending_totals u :
  receivedBy u (St.db s) = receivedBy u d + (if bool_decide (RideRating.rateeId r = u) then 1 else 0) /\
  starsOf u (St.db s) = starsOf u d + (if bool_decide (RideRating.rateeId r = u) then RideRating.stars r else 0).
Proof.
  destruct (totals_after u d id r (pending_new _ _ _ _ P)) as [A B]. unfold receivedBy, starsOf in *. rewrite (pending_row _ _ _ _ P). auto.
Qed.

Lemma pending_ratings : 
  (forall k x, Db.rideRating (St.db s) !! k = Some x -> 1 <= RideRating.stars x <= 5 /\ RideRating.raterId x <> RideRating.rateeId x) /\
  (forall k1 k2 r1 r2, Db.rideRating (St.db s) !! k1 = Some r1 -> Db.rideRating (St.db s) !! k2 = Some r2 ->
    RideRating.bookingId r1 = RideRating.bookingId r2 -> RideRating.raterId r1 = RideRating.raterId r2 -> k1 = k2).
Proof.
  destruct P as [N R S G O]. rewrite R. split.
  - intros k x [[<- <-]|[_ E]]%lookup_insert_Some; [exact G | exact (rating_range d I k x E)].
  - intros k1 k2 r1 r2 [[<- <-]|[N1 E1]]%lookup_insert_Some [[<- <-]|[N2 E2]]%lookup_insert_Some B A; [reflexivity | | |].
    + contradiction (O k2 r2 E2 (eq_sym B) (eq_sym A)).
    + contradiction (O k1 r1 E1 B A).
    + exact (rating_once d I k1 k2 r1 r2 E1 E2 B A).
Qed.

(** The statistics of the other users are as they were. *)
Lemma pending_others k st : Db.userRatingStats d !! k = Some st -> UserRatingStats.userId st <> RideRating.rateeId r ->
  UserRatingStats.totalRatings st = receivedBy (UserRatingStats.userId st) (St.db s) /\
  UserRatingStats.totalStars st = starsOf (UserRatingStats.userId st) (St.db s) /\
  UserRatingStats.averageRating st =
    round2Stars (ndiv (num_of_Z (UserRatingStats.totalStars st)) (num_of_Z (UserRatingStats.totalRatings st))).
Proof.
  intros E N. destruct (stats_totals d I k st E) as (A & B & C). destruct (pending_totals (UserRatingStats.userId st)) as [-> ->].
  rewrite !bool_decide_eq_false_2 by congruence. repeat split; [lia | lia | exact C].
Qed.

Lemma addStars_spec : wp (addStars (RideRating.rateeId r) (RideRating.stars r)) (if_ok (fun s' _ => RatingInv (St.db s'))) s.
Proof.
  set (u := RideRating.rateeId r) in *. destruct pending_ratings as [Rg On]. pose proof (pending_stats _ _ _ _ P) as St_.
  destruct (pending_totals u) as [T1 T2]. rewrite bool_decide_eq_true_2 in T1, T2 by reflexivity.
  unfold addStars. fold u. apply wp_bind, wp_findFirst. intros o Eo. apply found_stats in Eo. rewrite St_ in Eo. destruct o as [st|].
  - destruct Eo as [U [k Ek]]. pose proof (stats_id d I k st Ek) as Id. subst k.
    destruct (stats_totals d I _ st Ek) as (A & B & _). rewrite U in A, B.
    apply wp_bind, wp_update; [intros; exact Logic.I|]. intros st0 E0. assert (st0 = st) as -> by (cbn in E0; congruence). apply wp_ret. cbn [if_ok].
    split; cbn; try assumption; rewrite ?St_.
    + intros k x [[<- <-]|[_ E]]%lookup_insert_Some; [reflexivity | exact (stats_id d I k x E)].
    + intros k1 k2 s1 s2 [[<- <-]|[N1 E1]]%lookup_insert_Some [[<- <-]|[N2 E2]]%lookup_insert_Some Q; [reflexivity | | |].
      * exact (stats_one d I _ k2 st s2 Ek E2 Q).
      * exact (stats_one d I k1 _ s1 st E1 Ek Q).
      * exact (stats_one d I k1 k2 s1 s2 E1 E2 Q).
    + intros k x [[<- <-]|[N E]]%lookup_insert_Some.
      * cbn. rewrite U. split; [|split; [|reflexivity]]; [unfold receivedBy in *; cbn; lia | unfold starsOf in *; cbn; lia].
      * apply (pending_others k x E). intros Q. fold u in Q. apply N. apply (stats_one d I _ k st x Ek E). congruence.
    + intros u' F. assert (N : u' <> u) by (intros ->; apply (F _ _ (lookup_insert_eq _ _ _)); exact U).
      transitivity (receivedBy u' (St.db s)); [reflexivity|]. rewrite (proj1 (pending_totals u')), bool_decide_eq_false_2 by (fold u; congruence).
      rewrite (stats_missing d I u'); [lia|]. intros k x E. destruct (decide (k = UserRatingStats.id st)) as [->|Nk].
      * assert (x = st) as -> by congruence. congruence.
      * apply (F k x). rewrite lookup_insert_ne; [exact E | congruence].
  - apply wp_bind, wp_run. intros s1 fid [= <- <-]. cbv beta iota. apply wp_bind, wp_create; [intros; exact Logic.I|]. intros F0. cbn in F0. rewrite St_ in F0.
    pose proof (stats_missing d I u Eo) as Z0. pose proof (no_stars u d (rating_range d I)) as Z1. apply wp_ret. cbn [if_ok].
    destruct (pending_range _ _ _ _ P) as [Rs _].
    split; cbn; try assumption; rewrite ?St_.
    + intros k x [[<- <-]|[_ E]]%lookup_insert_Some; [reflexivity | exact (stats_id d I k x E)].
    + intros k1 k2 s1 s2 [[<- <-]|[N1 E1]]%lookup_insert_Some [[<- <-]|[N2 E2]]%lookup_insert_Some Q; [reflexivity | | |].
      * contradiction (Eo k2 s2 E2 (eq_sym Q)).
      * contradiction (Eo k1 s1 E1 Q).
      * exact (stats_one d I k1 k2 s1 s2 E1 E2 Q).
    + intros k x [[<- <-]|[N E]]%lookup_insert_Some.
      * cbn. split; [unfold receivedBy in *; cbn; lia|]. split; [unfold starsOf in *; cbn; lia | exact (first_average _ Rs)].
      * exact (pending_others k x E (Eo k x E)).
    + intros u' F. assert (N : u' <> u) by (intros ->; apply (F _ _ (lookup_insert_eq _ _ _)); reflexivity).
      transitivity (receivedBy u' (St.db s)); [reflexivity|]. rewrite (proj1 (pending_totals u')), bool_decide_eq_false_2 by (fold u; congruence).
      rewrite (stats_missing d I u'); [lia|]. intros k x E. apply (F k x). rewrite lookup_insert_ne; [exact E | congruence].
Qed.
End totals.

Section theorem.
Context `{Env}.

Lemma recordRating_spec booking raterId rateeId stars text s : RatingInv (St.db s) -> 1 <= stars <= 5 -> raterId <> rateeId ->
  wp (recordRating booking raterId rateeId stars text) (if_ok (fun s' _ => RatingInv (St.db s'))) s.
Proof.
  intros I B N. unfold recordRating. apply wp_bind, wp_findFirst. intros o Eo. apply wp_bind, wp_throw_if; intros T; [exact Logic.I|].
  apply bool_decide_eq_false in T. destruct o as [x|]; [contradiction T; eauto|].
  apply wp_bind, wp_run. intros s1 id [= <- <-]. cbv beta iota. apply wp_bind, wp_create; [intros; exact Logic.I|]. intros F. cbn in F.
  set (r := RideRating.defaults _ _ <| RideRating.bookingId := _ |> <| RideRating.rideId := _ |> <| RideRating.raterId := _ |>
    <| RideRating.rateeId := _ |> <| RideRating.stars := _ |> <| RideRating.reviewText := _ |>).
  apply wp_bind. change rateeId with (RideRating.rateeId r). change stars with (RideRating.stars r).
  match goal with |- wp _ _ ?s2 => assert (P : Pending (St.db s) (uuid (St.seq s)) r (St.db s2)) end.
  { split; [exact F | reflexivity | reflexivity | split; [exact B | exact N]|]. intros k r1 E Eb Ea.
    assert (In1 : In r1 (where_ prisma.rideRating (ratingBy (RideBooking.id booking) raterId) (St.db s))).
    { apply where_elem. split; [|eauto]. unfold ratingBy. rewrite !bool_decide_eq_true_2; [reflexivity | exact Ea | exact Eb]. }
    destruct (where_ _ _ _); [destruct In1 | discriminate Eo]. }
  eapply wp_mono; [exact (addStars_spec (St.db s) _ r _ I P)|]. intros s3 [u|e] Q; [exact Q | exact Logic.I].
Qed.

Lemma submit_keeps raterId bookingId input : preserves (on_db RatingInv) (submitBookingRating raterId bookingId input).
Proof.
  apply preserves_wp. intros s I. unfold submitBookingRating. destruct (integer_of _) as [stars|]; [|exact I].
  apply wp_bind, wp_throw_if; intros B; [exact I|]. apply orb_false_iff in B as [B1%Z.ltb_ge B2%Z.ltb_ge].
  apply wp_bind, wp_findUnique. intros [booking|] Eb; [|exact I].
  apply wp_bind, wp_findUniqueOrThrow; [intros; exact I|]. intros ride Er. cbv zeta.
  do 2 (apply wp_bind, wp_throw_if; intros _; [exact I|]).
  apply wp_bind, wp_throw_if; intros N; [exact I|]. apply bool_decide_eq_false in N.
  apply wp_bind, wp_findFirst. intros o _. apply wp_bind, wp_throw_if; intros _; [exact I|].
  apply wp_transaction. eapply wp_mono; [apply recordRating_spec; [exact I | lia | congruence]|].
  intros s' [a|e] I'; [exact I' | exact I].
Qed.
End theorem.

(** Ratings by anybody about anything. *)
Inductive rating_step : St.t -> St.t -> Prop :=
| rate (env : Env) (raterId bookingId : string) (input : SubmitRatingInput.t) (s : St.t) :
    rating_step s (submitBookingRating raterId bookingId input s).1.

(** C29.  The totals of every user are those of the ratings received, whose stars are between 1
    and 5 and who nobody gave themselves or twice for a booking; the average shown is that
    of the totals. *)
Theorem rating_totals_agree (s s' : St.t) : RatingInv (St.db s) -> rtc rating_step s s' ->
  (forall k st, Db.userRatingStats (St.db s') !! k = Some st ->
     let u := UserRatingStats.userId st in
     UserRatingStats.totalRatings st = receivedBy u (St.db s') /\ UserRatingStats.totalStars st = starsOf u (St.db s') /\
     UserRatingStats.totalRatings st <= UserRatingStats.totalStars st <= 5 * UserRatingStats.totalRatings st /\
     UserRatingStats.averageRating st =
       round2Stars (ndiv (num_of_Z (UserRatingStats.totalStars st)) (num_of_Z (UserRatingStats.totalRatings st)))) /\
  (forall k r, Db.rideRating (St.db s') !! k = Some r ->
     1 <= RideRating.stars r <= 5 /\ RideRating.raterId r <> RideRating.rateeId r /\
     forall k2 r2, Db.rideRating (St.db s') !! k2 = Some r2 -> RideRating.bookingId r = RideRating.bookingId r2 ->
       RideRating.raterId r = RideRating.raterId r2 -> k = k2) /\
  (forall k r, Db.rideRating (St.db s') !! k = Some r ->
     exists k2 st, Db.userRatingStats (St.db s') !! k2 = Some st /\ UserRatingStats.userId st = RideRating.rateeId r).
Proof.
  intros I R. assert (I' : RatingInv (St.db s')).
  { induction R as [x|x y z [env a b i x'] _ IH]; [exact I|]. apply IH. exact (submit_keeps a b i x' I). }
  pose proof (fun u => no_stars u (St.db s') (rating_range _ I')) as Stars. split; [|split].
  - intros k st E. cbv zeta. destruct (stats_totals _ I' k st E) as (A & B & C). specialize (Stars (UserRatingStats.userId st)). repeat split; auto; lia.
  - intros k r E. destruct (rating_range _ I' k r E) as [A B]. repeat split; [lia | lia | exact B|].
    intros k2 r2 E2 Q1 Q2. exact (rating_once _ I' k k2 r r2 E E2 Q1 Q2).
  - intros k r E.
    destruct (head (where_ prisma.userRatingStats (statsFor (RideRating.rateeId r)) (St.db s'))) as [st|] eqn:F; apply found_stats in F.
    + destruct F as [U [k2 Ek]]. eauto.
    + pose proof (stats_missing _ I' _ F) as Z0. exfalso. unfold receivedBy in Z0.
      rewrite (sum_map_delete _ _ k r E), bool_decide_eq_true_2 in Z0 by reflexivity.
      assert (0 <= sum_map (fun x => if bool_decide (RideRating.rateeId x = RideRating.rateeId r) then 1 else 0) (delete k (Db.rideRating (St.db s')))); [|lia].
      apply sum_map_nonneg. intros ? x _. case_bool_decide; lia.
Qed.

(** ** A trip and its ratings *)

Definition demo_trip : St.t := St.Build_t (Db.empty
  <| Db.ride := {["r1"%string := Ride.defaults "r1" 0 <| Ride.driverId := "d1"%string |> <| Ride.status := RideStatus.COMPLETED |>]} |>
  <| Db.rideBooking := {["b1"%string := RideBooking.defaults "b1" 0 <| RideBooking.rideId := "r1"%string |>
       <| RideBooking.passengerId := "p1"%string |> <| RideBooking.status := BookingStatus.COMPLETED |>;
     "b2"%string := RideBooking.defaults "b2" 0 <| RideBooking.rideId := "r1"%string |>
       <| RideBooking.passengerId := "p2"%string |> <| RideBooking.status := BookingStatus.ONBOARD |>]} |>) [] 0.

Definition demo_stars (n : Z) : SubmitRatingInput.t := {| SubmitRatingInput.stars := num_of_Z n; SubmitRatingInput.reviewText := Some " fine "%string |}.
Definition demo_rated (s : St.t) (rater booking : string) (n : Z) : St.t := (@submitBookingRating (demo_env 1000 no_failure) rater booking (demo_stars n) s).1.
Definition demo_once : St.t := demo_rated (demo_rated demo_trip "p1" "b1" 4) "p2" "b2" 5.
Definition demo_twice : St.t := demo_rated demo_once "p1" "b1" 1.

Lemma demo_trip_inv : RatingInv (St.db demo_trip).
Proof.
  split; cbn; try (intros * E; rewrite lookup_empty in E; discriminate E).
  intros u _. unfold receivedBy. cbn. apply sum_map_empty.
Qed.

Lemma rating_totals_agree_witness :
  (map (fun st => (UserRatingStats.totalRatings st, UserRatingStats.totalStars st)) (map_to_list (Db.userRatingStats (St.db demo_twice))).*2 = [(2, 9)]) /\
  forall k st, Db.userRatingStats (St.db demo_twice) !! k = Some st ->
    UserRatingStats.averageRating st = round2Stars (ndiv (num_of_Z (UserRatingStats.totalStars st)) (num_of_Z (UserRatingStats.totalRatings st))).
Proof.
  split; [vm_compute; reflexivity|]. intros k st E.
  refine (proj2 (proj2 (proj2 (proj1 (rating_totals_agree demo_trip demo_twice demo_trip_inv _) k st E)))).
  pose (env := demo_env 1000 no_failure).
  exact (rtc_l _ _ _ _ (@rate env "p1" "b1" (demo_stars 4) demo_trip)
    (rtc_l _ _ _ _ (@rate env "p2" "b2" (demo_stars 5) _) (rtc_once _ _ (@rate env "p1" "b1" (demo_stars 1) demo_once)))).
Defined.
