(* ===== verification/Rewards.v ===== *)
(** * Rewards

    Models [modules/rewards/rewards.service.ts]: campaigns, referrals and the
    wallet, an append-only ledger whose entries are chained by hashes.  Wallet
    entries are stored under [idempotencyKey], referrals under [referredUserId];
    both are unique in the schema. *)

From Stdlib Require Import ZArith QArith Lia Lqa.
From stdpp Require Import base list option strings gmap pretty relations.
From S2P Require Import Prelude JsNumber JsText Schema Store Money Time Gateway.

Open Scope Z_scope.

(** ** Constants and small functions *)

Definition DEFAULT_CURRENCY : string := "EUR".

Module REWARD_TRIGGERS.
Definition RIDER_REFERRAL_BOOKING_COMPLETION : string := "RIDER_REFERRAL_BOOKING_COMPLETION".
Definition DRIVER_REFERRAL_RIDE_COMPLETION : string := "DRIVER_REFERRAL_RIDE_COMPLETION".
Definition RIDER_COMPLETION_MILESTONE : string := "RIDER_COMPLETION_MILESTONE".
Definition DRIVER_COMPLETION_MILESTONE : string := "DRIVER_COMPLETION_MILESTONE".
Definition MANUAL : string := "MANUAL".
End REWARD_TRIGGERS.

Definition RIDER : string := "RIDER".
Definition DRIVER : string := "DRIVER".

Definition normalizeWalletType (value : option string) : string :=
  if decide (toUpperCase (default EmptyString value) = DRIVER) then DRIVER else RIDER.

(** [s.trim()] *)
Fixpoint trim_start (s : string) : string :=
  match s with
  | String c s' => if bool_decide (Ascii.nat_of_ascii c ∈ [9; 10; 11; 12; 13; 32]%nat) then trim_start s' else s
  | EmptyString => s
  end.
Definition trim_string (s : string) : string :=
  String.rev (trim_start (String.rev (trim_start s))).

Definition normalizeCurrency (currency : option string) : string :=
  let value := toUpperCase (trim_string (default DEFAULT_CURRENCY (truthy currency))) in
  if (String.length value =? 3)%nat then value else DEFAULT_CURRENCY.

Definition walletDirection (amount : num) : string := if nle (num_of_Z 0) amount then "CREDIT" else "DEBIT".

(** [Math.abs(amount)] *)
Definition nabs (x : num) : num := if nle (num_of_Z 0) x then x else Qred (- x).

Definition isActiveNow (now_ : Z) (c : RewardCampaign.t) : bool :=
  RewardCampaign.active c &&
  match RewardCampaign.startsAt c with None => true | Some t => t <=? now_ end &&
  match RewardCampaign.endsAt c with None => true | Some t => now_ <=? t end.

Definition activeCampaignWhere (triggerType audience : string) (now_ : Z) (c : RewardCampaign.t) : bool :=
  bool_decide (RewardCampaign.triggerType c = triggerType) &&
  bool_decide (RewardCampaign.audience c = audience) && isActiveNow now_ c.

Definition shouldGrantCampaignAtCount (campaign : RewardCampaign.t) (occurrenceCount : Z) : bool :=
  let count := RewardCampaign.thresholdCount campaign in
  let threshold := Z.max 1 (if count =? 0 then 1 else count) in
  if RewardCampaign.repeatable campaign then Z.rem occurrenceCount threshold =? 0
  else occurrenceCount =? threshold.

(** ** Balances *)

Module WalletTotal.
Record t := { walletType : string; currency : string; balance : num; credited : num; debited : num }.
End WalletTotal.

(** One entry added to the totals of its wallet and currency. *)
Definition addEntry (e : RewardWalletEntry.t) (current : WalletTotal.t) : WalletTotal.t :=
  let amount := RewardWalletEntry.amount e in
  if decide (RewardWalletEntry.direction e = "DEBIT"%string) then
    {| WalletTotal.walletType := WalletTotal.walletType current; WalletTotal.currency := WalletTotal.currency current;
       WalletTotal.balance := nsub (WalletTotal.balance current) amount;
       WalletTotal.credited := WalletTotal.credited current;
       WalletTotal.debited := nadd (WalletTotal.debited current) amount |}
  else
    {| WalletTotal.walletType := WalletTotal.walletType current; WalletTotal.currency := WalletTotal.currency current;
       WalletTotal.balance := nadd (WalletTotal.balance current) amount;
       WalletTotal.credited := nadd (WalletTotal.credited current) amount;
       WalletTotal.debited := WalletTotal.debited current |}.

Definition sameWallet (e : RewardWalletEntry.t) (w : WalletTotal.t) : bool :=
  bool_decide (RewardWalletEntry.walletType e +:+ ":" +:+ RewardWalletEntry.currency e
               = WalletTotal.walletType w +:+ ":" +:+ WalletTotal.currency w).

(** The [Map] in insertion order. *)
Fixpoint addToTotals (e : RewardWalletEntry.t) (totals : list WalletTotal.t) : list WalletTotal.t :=
  match totals with
  | [] => [addEntry e {| WalletTotal.walletType := RewardWalletEntry.walletType e;
                         WalletTotal.currency := RewardWalletEntry.currency e;
                         WalletTotal.balance := num_of_Z 0; WalletTotal.credited := num_of_Z 0;
                         WalletTotal.debited := num_of_Z 0 |}]
  | w :: totals' => if sameWallet e w then addEntry e w :: totals' else w :: addToTotals e totals'
  end.

(** ** Inputs and answers *)

(** What [getRewardWallet] answers; the presentation of the history (names of
    campaigns and referrals) is left out. *)
Module RewardWallet.
Record t := {
  userId : string;
  referralCode : option string;
  referredByUserId : option string;
  totals : list WalletTotal.t;
  campaigns : list RewardCampaign.t;
  ledgerIntegrity : option string;
  history : list RewardWalletEntry.t;
}.
End RewardWallet.

(** The dates are instants: parsing them is [Date]'s. *)
Module CampaignInput.
Record t := {
  id : option string;
  code : string;
  name : string;
  audience : string;
  triggerType : string;
  thresholdCount : option Z;
  rewardAmount : num;
  currency : option string;
  active : option bool;
  repeatable : option bool;
  description : option string;
  terms : option string;
  startsAt : option Z;
  endsAt : option Z;
  metadataJson : option Json;
}.
End CampaignInput.

(** What [grantWalletEntry] takes; its callers set no [referralId]. *)
Module GrantInput.
Record t := {
  userId : string;
  walletType : string;
  entryType : string;
  amount : num;
  currency : option string;
  sourceType : string;
  sourceId : string;
  campaignId : option string;
  description : option string;
  metadataJson : option Json;
  createdById : option string;
  reversalOfEntryId : option string;
  idempotencyKey : string;
}.
End GrantInput.

Section rewards.
Context `{Env}.

Definition locale_eqb (a b : string) : bool := locale_leb a b && locale_leb b a.

Definition totals_le (l r : WalletTotal.t) : bool :=
  if locale_eqb (WalletTotal.walletType l) (WalletTotal.walletType r)
  then locale_leb (WalletTotal.currency l) (WalletTotal.currency r)
  else locale_leb (WalletTotal.walletType l) (WalletTotal.walletType r).

Definition walletTotals (entries : list RewardWalletEntry.t) : list WalletTotal.t :=
  sort_le totals_le (fold_left (fun totals e => addToTotals e totals) entries []).

(** ** Hashes *)

Fixpoint stringifyForHash (value : Json) : string :=
  match value with
  | JNull => EmptyString
  | JBool b => if b then "true" else "false"
  | JNumber n => number_to_string n
  | JString s => s
  | JArray l => "[" +:+ String.concat "," (map stringifyForHash l) +:+ "]"
  | JObject fields =>
      "{" +:+ String.concat "|" (map snd (sort_le (fun a b => locale_leb (fst a) (fst b))
                (map (fun f => (fst f, fst f +:+ ":" +:+ stringifyForHash (snd f))) fields))) +:+ "}"
  end.

(** The hash of the entry's own fields, chained to [previousHash]. *)
Definition computeRewardEntryHash (previousHash : option string) (e : RewardWalletEntry.t) : string :=
  let or_empty := default EmptyString in
  hashOtp (String.concat "|" [
    or_empty previousHash;
    RewardWalletEntry.userId e;
    RewardWalletEntry.walletType e;
    RewardWalletEntry.entryType e;
    RewardWalletEntry.direction e;
    to_fixed2_string (RewardWalletEntry.amount e);
    RewardWalletEntry.currency e;
    RewardWalletEntry.sourceType e;
    RewardWalletEntry.sourceId e;
    or_empty (RewardWalletEntry.campaignId e);
    or_empty (RewardWalletEntry.referralId e);
    or_empty (RewardWalletEntry.description e);
    stringifyForHash (default JNull (RewardWalletEntry.metadataJson e));
    or_empty (RewardWalletEntry.reversalOfEntryId e);
    or_empty (RewardWalletEntry.createdById e);
    RewardWalletEntry.idempotencyKey e]).

(** *** Reading the ledger *)

Definition ofUser (userId : string) (e : RewardWalletEntry.t) : bool :=
  bool_decide (RewardWalletEntry.userId e = userId).

(** Newest first, ties by id. *)
Definition newest_le (a b : RewardWalletEntry.t) : bool :=
  if RewardWalletEntry.createdAt a =? RewardWalletEntry.createdAt b
  then String.leb (RewardWalletEntry.id b) (RewardWalletEntry.id a)
  else RewardWalletEntry.createdAt b <? RewardWalletEntry.createdAt a.

Definition loadLatestRewardEntry (userId walletType : string) : H (option RewardWalletEntry.t) :=
  get (fun s => head (sort_le newest_le (where_ prisma.rewardWalletEntry
    (fun e => ofUser userId e && bool_decide (RewardWalletEntry.walletType e = walletType)) (St.db s)))).

(** By wallet, then oldest first, ties by id. *)
Definition chain_le (a b : RewardWalletEntry.t) : bool :=
  if decide (RewardWalletEntry.walletType a = RewardWalletEntry.walletType b)
  then newest_le b a
  else String.leb (RewardWalletEntry.walletType a) (RewardWalletEntry.walletType b).

(** The loop over the entries: the id of the first broken one. *)
Fixpoint verifyEntries (chainByWallet : gmap string string) (entries : list RewardWalletEntry.t) : option string :=
  match entries with
  | [] => None
  | e :: rest =>
      match truthy (RewardWalletEntry.entryHash e), truthy (RewardWalletEntry.previousHash e) with
      | Some entryHash, Some previousHash =>
          let walletKey := RewardWalletEntry.userId e +:+ ":" +:+ RewardWalletEntry.walletType e in
          let expectedPrevious := chainByWallet !! walletKey in
          if bool_decide (Some previousHash <> expectedPrevious) ||
             bool_decide (entryHash <> computeRewardEntryHash expectedPrevious e)
          then Some (RewardWalletEntry.id e)
          else verifyEntries (<[walletKey := entryHash]> chainByWallet) rest
      | _, _ => verifyEntries chainByWallet rest
      end
  end.

(** [None]: the chain is intact. *)
Definition verifyRewardLedgerChain (userId : string) : H (option string) :=
  entries ← get (fun s => sort_le chain_le (where_ prisma.rewardWalletEntry (ofUser userId) (St.db s)));
  mret (verifyEntries ∅ entries).

Definition loadWalletEntries (userId : string) : H (list RewardWalletEntry.t) :=
  get (fun s => sort_desc RewardWalletEntry.createdAt
    (where_ prisma.rewardWalletEntry (ofUser userId) (St.db s))).

(** ** Campaigns *)

Definition newestUpdated (l : list RewardCampaign.t) : list RewardCampaign.t :=
  sort_desc RewardCampaign.updatedAt (sort_desc RewardCampaign.createdAt l).

Definition firstActiveCampaign (triggerType audience : string) : H (option RewardCampaign.t) :=
  get (fun s => head (newestUpdated
    (where_ prisma.rewardCampaign (activeCampaignWhere triggerType audience now) (St.db s)))).

Definition assertRewardsEnabled : H unit := throw_if (negb REWARDS_ENABLED) "REWARDS_DISABLED".

(** Active ones first, then the latest changed. *)
Definition listRewardCampaigns : H (list RewardCampaign.t) :=
  assertRewardsEnabled;;
  get (fun s => sort_desc (fun c => if RewardCampaign.active c then 1 else 0)
    (sort_desc RewardCampaign.updatedAt (where_ prisma.rewardCampaign (fun _ => true) (St.db s)))).

(** [code] is unique: a write of a code another campaign has is refused. *)
Definition checkCampaignCode (id code : string) : H unit :=
  taken ← get (fun s => bool_decide (where_ prisma.rewardCampaign (fun c =>
    bool_decide (RewardCampaign.code c = code) && bool_decide (RewardCampaign.id c <> id)) (St.db s) <> []));
  throw_if taken "P2002".

(** ** Referral codes *)

(** [s.replace(/-/g, '')] *)
Fixpoint drop_dashes (s : string) : string :=
  match s with
  | EmptyString => EmptyString
  | String c s' => if (Ascii.nat_of_ascii c =? 45)%nat then drop_dashes s' else String c (drop_dashes s')
  end.

Definition generateReferralCode : H string :=
  id ← randomUUID;
  mret ("DLV-" +:+ toUpperCase (String.substring 0 8 (drop_dashes id))).

(** [user.update({ data: { referralCode } })]: the code is unique. *)
Definition writeReferralCode (userId code : string) : H unit :=
  taken ← get (fun s => bool_decide (where_ prisma.user (fun u =>
    bool_decide (User.referralCode u = Some code) && bool_decide (User.id u <> userId)) (St.db s) <> []));
  throw_if taken "P2002";;
  update prisma.user userId (fun u => u <| User.referralCode := Some code |>);;
  mret tt.

Fixpoint tryReferralCodes (userId : string) (attempts : nat) : H string :=
  match attempts with
  | O => throw "REFERRAL_CODE_GENERATION_FAILED"
  | S n =>
      code ← generateReferralCode;
      taken ← try_catch (writeReferralCode userId code;; mret false)
                (fun error => if decide (error = "P2002"%string) then mret true else throw error);
      if taken : bool then tryReferralCodes userId n else mret code
  end.

Definition ensureReferralCodeInternal (userId : string) : H string :=
  user ← findUnique prisma.user userId;
  match user with
  | None => throw "USER_NOT_FOUND"
  | Some user =>
      match truthy (User.referralCode user) with
      | Some code => mret code
      | None => tryReferralCodes userId 5
      end
  end.

Definition ensureUserReferralCode (userId : string) : H (option string) :=
  if REWARDS_ENABLED then code ← transaction (ensureReferralCodeInternal userId); mret (Some code)
  else mret None.

(** [upsert({ where: { referredUserId } })]; the row starts as PENDING. *)
Definition upsertReferral (referredUserId : string) (onCreate : RewardReferral.t -> RewardReferral.t)
    (onUpdate : RewardReferral.t -> RewardReferral.t) : H RewardReferral.t :=
  old ← findUnique prisma.rewardReferral referredUserId;
  match old with
  | Some _ => update prisma.rewardReferral referredUserId onUpdate
  | None =>
      id ← randomUUID;
      create prisma.rewardReferral referredUserId (onCreate
        {| RewardReferral.id := id; RewardReferral.referrerUserId := EmptyString;
           RewardReferral.referredUserId := referredUserId; RewardReferral.referralCode := None;
           RewardReferral.qualificationType := None; RewardReferral.qualificationSourceId := None;
           RewardReferral.status := "PENDING"; RewardReferral.firstQualifiedAt := None;
           RewardReferral.rewardedAt := None; RewardReferral.createdAt := now |})
  end.

Definition ensureReferralRecord (referredUserId referrerUserId : string) (referralCode : option string)
    : H RewardReferral.t :=
  let set r :=
    let r := r <| RewardReferral.referrerUserId := referrerUserId |> in
    match truthy referralCode with
    | Some code => r <| RewardReferral.referralCode := Some code |>
    | None => r
    end in
  upsertReferral referredUserId set set.

Inductive Attached :=
| REWARDS_DISABLED
| REFERRAL_ALREADY_SET
| REFERRER_NOT_FOUND
| REFERRAL_SELF
| ATTACHED (referral : RewardReferral.t).

Definition attachReferralCodeToUser (userId referralCode : string) : H Attached :=
  if negb REWARDS_ENABLED then mret REWARDS_DISABLED
  else
    let normalized := toUpperCase (trim_string referralCode) in
    throw_if (bool_decide (normalized = EmptyString)) "REFERRAL_CODE_REQUIRED";;
    transaction (
      user ← findUnique prisma.user userId;
      match user with
      | None => throw "USER_NOT_FOUND"
      | Some user =>
          match truthy (User.referredByUserId user) with
          | Some _ => mret REFERRAL_ALREADY_SET
          | None =>
              referrer ← findFirst prisma.user (fun u => bool_decide (User.referralCode u = Some normalized));
              match referrer with
              | None => mret REFERRER_NOT_FOUND
              | Some referrer =>
                  if decide (User.id referrer = userId) then mret REFERRAL_SELF
                  else
                    update prisma.user userId (fun u => u <| User.referredByUserId := Some (User.id referrer) |>);;
                    referral ← ensureReferralRecord userId (User.id referrer) (Some normalized);
                    mret (ATTACHED referral)
              end
          end
      end).

(** ** The wallet *)

Definition getRewardWallet (userId : string) : H RewardWallet.t :=
  assertRewardsEnabled;;
  user ← findUnique prisma.user userId;
  entries ← loadWalletEntries userId;
  campaigns ← get (fun s => newestUpdated (where_ prisma.rewardCampaign (isActiveNow now) (St.db s)));
  match user with
  | None => throw "USER_NOT_FOUND"
  | Some user =>
      code ← match User.referralCode user with
             | Some code => mret (Some code)
             | None => ensureUserReferralCode (User.id user)
             end;
      integrity ← verifyRewardLedgerChain (User.id user);
      mret {| RewardWallet.userId := User.id user; RewardWallet.referralCode := code;
              RewardWallet.referredByUserId := User.referredByUserId user;
              RewardWallet.totals := walletTotals entries; RewardWallet.campaigns := campaigns;
              RewardWallet.ledgerIntegrity := integrity; RewardWallet.history := entries |}
  end.

(** *** Campaigns of the administrators *)

(** The fields both branches write. *)
Definition campaignData (input : CampaignInput.t) (adminId : option string) (c : RewardCampaign.t) : RewardCampaign.t :=
  c <| RewardCampaign.code := toUpperCase (trim_string (CampaignInput.code input)) |>
    <| RewardCampaign.name := trim_string (CampaignInput.name input) |>
    <| RewardCampaign.audience := normalizeWalletType (Some (CampaignInput.audience input)) |>
    <| RewardCampaign.triggerType := toUpperCase (trim_string (CampaignInput.triggerType input)) |>
    <| RewardCampaign.thresholdCount := default 1 (CampaignInput.thresholdCount input) |>
    <| RewardCampaign.rewardAmount := CampaignInput.rewardAmount input |>
    <| RewardCampaign.currency := normalizeCurrency (CampaignInput.currency input) |>
    <| RewardCampaign.active := default true (CampaignInput.active input) |>
    <| RewardCampaign.repeatable := default false (CampaignInput.repeatable input) |>
    <| RewardCampaign.description := CampaignInput.description input |>
    <| RewardCampaign.terms := CampaignInput.terms input |>
    <| RewardCampaign.startsAt := CampaignInput.startsAt input |>
    <| RewardCampaign.endsAt := CampaignInput.endsAt input |>
    <| RewardCampaign.updatedById := adminId |>
    <| RewardCampaign.metadataJson ::= fun old =>
         match CampaignInput.metadataJson input with Some j => Some j | None => old end |>
    <| RewardCampaign.updatedAt := now |>.

Definition upsertRewardCampaign (input : CampaignInput.t) (adminId : option string) : H RewardCampaign.t :=
  assertRewardsEnabled;;
  let code := toUpperCase (trim_string (CampaignInput.code input)) in
  match truthy (CampaignInput.id input) with
  | Some id => checkCampaignCode id code;; update prisma.rewardCampaign id (campaignData input adminId)
  | None =>
      id ← randomUUID;
      checkCampaignCode id code;;
      create prisma.rewardCampaign id (campaignData input adminId
        {| RewardCampaign.id := id; RewardCampaign.code := EmptyString; RewardCampaign.name := EmptyString;
           RewardCampaign.audience := EmptyString; RewardCampaign.triggerType := EmptyString;
           RewardCampaign.thresholdCount := 1; RewardCampaign.rewardAmount := num_of_Z 0;
           RewardCampaign.currency := DEFAULT_CURRENCY; RewardCampaign.active := true;
           RewardCampaign.repeatable := false; RewardCampaign.description := None; RewardCampaign.terms := None;
           RewardCampaign.metadataJson := None; RewardCampaign.startsAt := None; RewardCampaign.endsAt := None;
           RewardCampaign.createdById := adminId; RewardCampaign.updatedById := None;
           RewardCampaign.createdAt := now; RewardCampaign.updatedAt := now |})
  end.

(** *** Granting *)

(** The entry a grant writes, after [previousHash]. *)
Definition walletEntry (input : GrantInput.t) (id : string) (previousHash : option string) : RewardWalletEntry.t :=
  let e := {|
    RewardWalletEntry.id := id;
    RewardWalletEntry.userId := GrantInput.userId input;
    RewardWalletEntry.walletType := normalizeWalletType (Some (GrantInput.walletType input));
    RewardWalletEntry.entryType := GrantInput.entryType input;
    RewardWalletEntry.direction := walletDirection (GrantInput.amount input);
    RewardWalletEntry.amount := nabs (GrantInput.amount input);
    RewardWalletEntry.currency := normalizeCurrency (GrantInput.currency input);
    RewardWalletEntry.sourceType := GrantInput.sourceType input;
    RewardWalletEntry.sourceId := GrantInput.sourceId input;
    RewardWalletEntry.campaignId := GrantInput.campaignId input;
    RewardWalletEntry.referralId := None;
    RewardWalletEntry.description := GrantInput.description input;
    RewardWalletEntry.metadataJson := GrantInput.metadataJson input;
    RewardWalletEntry.idempotencyKey := GrantInput.idempotencyKey input;
    RewardWalletEntry.createdById := GrantInput.createdById input;
    RewardWalletEntry.previousHash := previousHash;
    RewardWalletEntry.entryHash := None;
    RewardWalletEntry.reversalOfEntryId := GrantInput.reversalOfEntryId input;
    RewardWalletEntry.createdAt := now |} in
  e <| RewardWalletEntry.entryHash := Some (computeRewardEntryHash previousHash e) |>.

(** The entry, and whether it is new. *)
Definition grantWalletEntry (input : GrantInput.t) : H (RewardWalletEntry.t * bool) :=
  entry ← findUnique prisma.rewardWalletEntry (GrantInput.idempotencyKey input);
  match entry with
  | Some entry => mret (entry, false)
  | None =>
      latest ← loadLatestRewardEntry (GrantInput.userId input)
                 (normalizeWalletType (Some (GrantInput.walletType input)));
      id ← randomUUID;
      created ← create prisma.rewardWalletEntry (GrantInput.idempotencyKey input)
                  (walletEntry input id (latest ≫= RewardWalletEntry.entryHash));
      mret (created, true)
  end.

Definition maybeSendRewardNotification (userId title : string) (email : option string) : H unit :=
  createNotification userId "reward.wallet.updated";;
  match truthy email with
  | None => mret tt
  | Some email => attempt (perform (SendMail email title))
  end.

Inductive AwardResult :=
| CAMPAIGN_NOT_CONFIGURED
| THRESHOLD_NOT_REACHED
| ALREADY_GRANTED (entry : RewardWalletEntry.t)
| GRANTED (campaign : RewardCampaign.t) (entry : RewardWalletEntry.t).

Definition awardCampaignReward (userId walletType triggerType sourceType sourceId description idempotencyKey : string)
    (occurrenceCount : Z) (metadata : list (string * Json)) : H AwardResult :=
  campaign ← firstActiveCampaign triggerType (normalizeWalletType (Some walletType));
  match campaign with
  | None => mret CAMPAIGN_NOT_CONFIGURED
  | Some campaign =>
      let occurrenceCount := Z.max 1 occurrenceCount in
      if negb (shouldGrantCampaignAtCount campaign occurrenceCount) then mret THRESHOLD_NOT_REACHED
      else
        granted ← grantWalletEntry {|
          GrantInput.userId := userId; GrantInput.walletType := walletType;
          GrantInput.entryType :=
            if decide (triggerType = REWARD_TRIGGERS.MANUAL) then "MANUAL_CREDIT" else "CAMPAIGN_CREDIT";
          GrantInput.amount := RewardCampaign.rewardAmount campaign;
          GrantInput.currency := Some (RewardCampaign.currency campaign);
          GrantInput.sourceType := sourceType; GrantInput.sourceId := sourceId;
          GrantInput.campaignId := Some (RewardCampaign.id campaign);
          GrantInput.description := Some description;
          GrantInput.metadataJson := Some (JObject (spread metadata
            [("campaignCode", JString (RewardCampaign.code campaign));
             ("triggerType", JString (RewardCampaign.triggerType campaign));
             ("audience", JString (RewardCampaign.audience campaign));
             ("occurrenceCount", JNumber (num_of_Z occurrenceCount))]%string));
          GrantInput.createdById := None; GrantInput.reversalOfEntryId := None;
          GrantInput.idempotencyKey := idempotencyKey |};
        let '(entry, created) := granted in
        mret (if created : bool then GRANTED campaign entry else ALREADY_GRANTED entry)
  end.

Definition manualKey (userId sourceType sourceId : string) (amount : num) (currency : option string) : string :=
  "manual:" +:+ userId +:+ ":" +:+ sourceType +:+ ":" +:+ sourceId +:+ ":" +:+ number_to_string amount +:+ ":"
  +:+ normalizeCurrency currency.

Definition grantManualReward (userId : string) (amount : num) (currency walletType : option string)
    (reason : string) (sourceType sourceId : option string) (metadataJson : option Json) (adminId : option string)
    : H (RewardWalletEntry.t * bool) :=
  assertRewardsEnabled;;
  let targetWallet := normalizeWalletType walletType in
  let sourceType := toUpperCase (trim_string (default "MANUAL"%string (truthy sourceType))) in
  fresh ← match truthy sourceId with Some id => mret id | None => randomUUID end;
  let sourceId := trim_string fresh in
  let idempotencyKey := manualKey userId sourceType sourceId amount currency in
  user ← findUnique prisma.user userId;
  match user with
  | None => throw "USER_NOT_FOUND"
  | Some user =>
      granted ← grantWalletEntry {|
        GrantInput.userId := userId; GrantInput.walletType := targetWallet;
        GrantInput.entryType := if nle (num_of_Z 0) amount then "MANUAL_CREDIT" else "DEBIT";
        GrantInput.amount := nabs amount; GrantInput.currency := currency;
        GrantInput.sourceType := sourceType; GrantInput.sourceId := sourceId; GrantInput.campaignId := None;
        GrantInput.description := Some reason; GrantInput.metadataJson := metadataJson;
        GrantInput.createdById := adminId; GrantInput.reversalOfEntryId := None;
        GrantInput.idempotencyKey := idempotencyKey |};
      let '(entry, created) := granted in
      when created (maybeSendRewardNotification (User.id user) "Deliivo wallet updated" (User.email user));;
      mret (entry, created)
  end.

(** The entry that undoes [original]. *)
Definition reversalInput (original : RewardWalletEntry.t) (reason : string) (metadata : list (string * Json))
    (adminId : option string) : GrantInput.t := {|
  GrantInput.userId := RewardWalletEntry.userId original;
  GrantInput.walletType := RewardWalletEntry.walletType original;
  GrantInput.entryType := "REVERSAL";
  GrantInput.amount := if decide (RewardWalletEntry.direction original = "DEBIT"%string)
                       then RewardWalletEntry.amount original else Qred (- RewardWalletEntry.amount original);
  GrantInput.currency := Some (RewardWalletEntry.currency original);
  GrantInput.sourceType := "REVERSAL"; GrantInput.sourceId := RewardWalletEntry.id original;
  GrantInput.campaignId := None; GrantInput.description := Some reason;
  GrantInput.metadataJson := Some (JObject (spread metadata
    [("reversedEntryId", JString (RewardWalletEntry.id original));
     ("reversedEntryType", JString (RewardWalletEntry.entryType original))]%string));
  GrantInput.createdById := adminId; GrantInput.reversalOfEntryId := Some (RewardWalletEntry.id original);
  GrantInput.idempotencyKey := "reversal:" +:+ RewardWalletEntry.id original |}.

Definition reverseRewardEntry (entryId reason : string) (metadata : list (string * Json)) (adminId : option string)
    : H (RewardWalletEntry.t * bool) :=
  assertRewardsEnabled;;
  original ← findFirst prisma.rewardWalletEntry (fun e => bool_decide (RewardWalletEntry.id e = entryId));
  match original with
  | None => throw "ENTRY_NOT_FOUND"
  | Some original => grantWalletEntry (reversalInput original reason metadata adminId)
  end.

(** *** Completed bookings and rides *)

Inductive AwardOutcome :=
| NOT_ENABLED
| NOT_COMPLETED
| PROCESSED (grants : list string).

(** The referral became a reward. *)
Definition rewardReferral (referrerId qualificationType sourceId : string) (r : RewardReferral.t) : RewardReferral.t :=
  r <| RewardReferral.referrerUserId := referrerId |>
    <| RewardReferral.status := "REWARDED"%string |>
    <| RewardReferral.qualificationType := Some qualificationType |>
    <| RewardReferral.qualificationSourceId := Some sourceId |>
    <| RewardReferral.firstQualifiedAt := Some now |>
    <| RewardReferral.rewardedAt := Some now |>.

(** The first completion of a referred user rewards who referred them: the same
    code for bookings and rides. *)
Definition rewardReferrer (user : User.t) (userId walletType triggerType sourceId description keyPrefix
    qualificationType : string) (referredBy : string) : H bool :=
  referral ← findUnique prisma.rewardReferral userId;
  let referrerId := match referral with Some r => RewardReferral.referrerUserId r | None => referredBy end in
  grant ← awardCampaignReward referrerId walletType triggerType "REFERRAL" sourceId description
            (keyPrefix +:+ sourceId) 1
            [("referredUserId", JString userId); ("referrerUserId", JString referrerId)]%string;
  match grant with
  | GRANTED _ _ =>
      upsertReferral userId
        (fun r => rewardReferral referrerId qualificationType sourceId r
                    <| RewardReferral.referralCode := User.referralCode user |>)
        (rewardReferral referrerId qualificationType sourceId);;
      mret true
  | _ => mret false
  end.

Definition granted (r : AwardResult) : bool := match r with GRANTED _ _ => true | _ => false end.

Definition plural (n : Z) : string := if n =? 1 then EmptyString else "s".

Definition awardBookingCompletionRewards (bookingId : string) : H AwardOutcome :=
  if negb REWARDS_ENABLED then mret NOT_ENABLED
  else
    booking ← findUnique prisma.rideBooking bookingId;
    match booking with
    | None => mret NOT_COMPLETED
    | Some booking =>
        let passengerId := RideBooking.passengerId booking in
        passenger ← findUniqueOrThrow prisma.user passengerId;
        if decide (RideBooking.status booking <> BookingStatus.COMPLETED) then mret NOT_COMPLETED
        else
          completed ← findMany prisma.rideBooking (fun b =>
            bool_decide (RideBooking.passengerId b = passengerId) &&
            bool_decide (RideBooking.status b = BookingStatus.COMPLETED));
          let completedCount := Z.of_nat (length completed) in
          milestone ← (if 0 <? completedCount then
              r ← awardCampaignReward passengerId RIDER REWARD_TRIGGERS.RIDER_COMPLETION_MILESTONE "BOOKING"
                    (RideBooking.id booking)
                    ("Reward for completing " +:+ pretty completedCount +:+ " ride booking" +:+ plural completedCount +:+ ".")
                    ("booking-milestone:" +:+ RideBooking.id booking) completedCount
                    [("completedCount"%string, JNumber (num_of_Z completedCount))];
              mret (granted r)
            else mret false);
          referral ← match (completedCount =? 1), truthy (User.referredByUserId passenger) with
            | true, Some referredBy =>
                rewardReferrer passenger passengerId RIDER REWARD_TRIGGERS.RIDER_REFERRAL_BOOKING_COMPLETION
                  (RideBooking.id booking) "Referral reward for a rider completing their first booking."
                  "referral-booking:" "BOOKING_COMPLETED" referredBy
            | _, _ => mret false
            end;
          let grants := (if milestone : bool then ["rider_milestone"%string] else []) ++
                        (if referral : bool then ["rider_referral"%string] else []) in
          when (bool_decide (grants <> []))
            (maybeSendRewardNotification passengerId "Deliivo rewards updated" (User.email passenger));;
          mret (PROCESSED grants)
    end.

Definition awardRideCompletionRewards (rideId : string) : H AwardOutcome :=
  if negb REWARDS_ENABLED then mret NOT_ENABLED
  else
    ride ← findUnique prisma.ride rideId;
    match ride with
    | None => mret NOT_COMPLETED
    | Some ride =>
        let driverId := Ride.driverId ride in
        driver ← findUniqueOrThrow prisma.user driverId;
        if decide (Ride.status ride <> RideStatus.COMPLETED) then mret NOT_COMPLETED
        else
          completed ← findMany prisma.ride (fun r =>
            bool_decide (Ride.driverId r = driverId) && bool_decide (Ride.status r = RideStatus.COMPLETED));
          let completedRideCount := Z.of_nat (length completed) in
          milestone ← awardCampaignReward driverId DRIVER REWARD_TRIGGERS.DRIVER_COMPLETION_MILESTONE "RIDE"
            (Ride.id ride)
            ("Reward for completing " +:+ pretty completedRideCount +:+ " published ride" +:+ plural completedRideCount +:+ ".")
            ("driver-milestone:" +:+ Ride.id ride) completedRideCount
            [("completedRideCount"%string, JNumber (num_of_Z completedRideCount))];
          referral ← match (completedRideCount =? 1), truthy (User.referredByUserId driver) with
            | true, Some referredBy =>
                rewardReferrer driver driverId DRIVER REWARD_TRIGGERS.DRIVER_REFERRAL_RIDE_COMPLETION
                  (Ride.id ride) "Referral reward for a driver completing their first ride."
                  "referral-ride:" "RIDE_COMPLETED" referredBy
            | _, _ => mret false
            end;
          let grants := (if granted milestone then ["driver_milestone"%string] else []) ++
                        (if referral : bool then ["driver_referral"%string] else []) in
          when (bool_decide (grants <> []))
            (maybeSendRewardNotification driverId "Deliivo rewards updated" (User.email driver));;
          mret (PROCESSED grants)
    end.
End rewards.

(** ** The ledger only grows *)

Definition entries_kept (d0 d : Db.t) : Prop := forall k e,
  Db.rewardWalletEntry d0 !! k = Some e -> Db.rewardWalletEntry d !! k = Some e.

(** Tables other than the ledger. *)
Class OffLedger {R} (t : Table R) : Prop :=
  off_ledger : forall g d, Db.rewardWalletEntry (with_rows t g d) = Db.rewardWalletEntry d.
#[global] Instance off_user : OffLedger prisma.user.
Proof. repeat split. Qed.
#[global] Instance off_campaign : OffLedger prisma.rewardCampaign.
Proof. repeat split. Qed.
#[global] Instance off_referral : OffLedger prisma.rewardReferral.
Proof. repeat split. Qed.

Section kept.
Context `{Env}.

Lemma kept_update {R} (t : Table R) `{!OffLedger t} id f d0 : preserves (on_db (entries_kept d0)) (update t id f).
Proof. apply preserves_update. intros d r K _ k e E. rewrite off_ledger. exact (K k e E). Qed.

Lemma kept_create {R} (t : Table R) `{!OffLedger t} id r d0 : preserves (on_db (entries_kept d0)) (create t id r).
Proof. apply preserves_create. intros d K _ k e E. rewrite off_ledger. exact (K k e E). Qed.

Lemma kept_append id e d0 : preserves (on_db (entries_kept d0)) (create prisma.rewardWalletEntry id e).
Proof.
  apply preserves_create. intros d K N k e' E. cbn in N |- *. rewrite lookup_insert_ne; [exact (K k e' E)|].
  intros ->. pose proof (K k e' E). congruence.
Qed.
End kept.

Ltac kept_step :=
  lazymatch goal with
  | |- preserves _ (create prisma.rewardWalletEntry _ _) => apply kept_append
  | |- preserves _ (update _ _ _) => apply kept_update; exact _
  | |- preserves _ (create _ _ _) => apply kept_create; exact _
  | |- preserves _ (transaction _) => apply preserves_transaction
  | |- preserves _ (attempt _) => apply preserves_attempt
  | |- _ => first [assumption | preserve_step]
  end.

Section operations.
Context `{Env}.

Lemma kept_grant input d0 : preserves (on_db (entries_kept d0)) (grantWalletEntry input).
Proof. unfold grantWalletEntry, loadLatestRewardEntry. repeat kept_step. Qed.

Lemma kept_notification a b c d0 : preserves (on_db (entries_kept d0)) (maybeSendRewardNotification a b c).
Proof. unfold maybeSendRewardNotification, createNotification. repeat kept_step. Qed.

Lemma kept_referral a f g d0 : preserves (on_db (entries_kept d0)) (upsertReferral a f g).
Proof. unfold upsertReferral. repeat kept_step. Qed.

Lemma kept_award a b c d e f g n m d0 :
  preserves (on_db (entries_kept d0)) (awardCampaignReward a b c d e f g n m).
Proof.
  unfold awardCampaignReward, firstActiveCampaign. pose proof (fun i => kept_grant i d0). repeat kept_step; auto.
Qed.

Lemma kept_referrer a b c d e f g h i d0 : preserves (on_db (entries_kept d0)) (rewardReferrer a b c d e f g h i).
Proof.
  unfold rewardReferrer. repeat first [apply kept_award | apply kept_referral | kept_step].
Qed.

Lemma kept_code a d0 : preserves (on_db (entries_kept d0)) (ensureUserReferralCode a).
Proof.
  assert (P : forall n, preserves (on_db (entries_kept d0)) (tryReferralCodes a n)).
  { induction n as [|n IH]; cbn [tryReferralCodes]; unfold generateReferralCode, writeReferralCode; repeat kept_step. }
  unfold ensureUserReferralCode, ensureReferralCodeInternal. repeat kept_step; apply P.
Qed.
End operations.

(** The operations on rewards, each at its own time. *)
Inductive reward_op : St.t -> St.t -> Prop :=
| op_manual (E : Env) a b c d e f g h i s : reward_op s (grantManualReward a b c d e f g h i s).1
| op_reverse (E : Env) a b c d s : reward_op s (reverseRewardEntry a b c d s).1
| op_booking (E : Env) a s : reward_op s (awardBookingCompletionRewards a s).1
| op_ride (E : Env) a s : reward_op s (awardRideCompletionRewards a s).1
| op_campaign (E : Env) a b s : reward_op s (upsertRewardCampaign a b s).1
| op_attach (E : Env) a b s : reward_op s (attachReferralCodeToUser a b s).1
| op_wallet (E : Env) a s : reward_op s (getRewardWallet a s).1.

Lemma reward_op_kept d0 s s' : reward_op s s' -> on_db (entries_kept d0) s -> on_db (entries_kept d0) s'.
Proof.
  intros [E a b c d e f g h i x|E a b c d x|E a x|E a x|E a b x|E a b x|E a x];
    match goal with |- on_db _ x -> on_db _ (?m x).1 => revert x; change (preserves (on_db (entries_kept d0)) m) end;
    pose proof (fun i => @kept_grant E i d0); pose proof (fun a b c => @kept_notification E a b c d0).
  - unfold grantManualReward, assertRewardsEnabled. repeat first [apply kept_grant | apply kept_notification | kept_step].
  - unfold reverseRewardEntry, assertRewardsEnabled. repeat first [apply kept_grant | kept_step].
  - unfold awardBookingCompletionRewards.
    repeat first [apply kept_award | apply kept_referrer | apply kept_notification | kept_step].
  - unfold awardRideCompletionRewards.
    repeat first [apply kept_award | apply kept_referrer | apply kept_notification | kept_step].
  - unfold upsertRewardCampaign, assertRewardsEnabled, checkCampaignCode. repeat kept_step.
  - unfold attachReferralCodeToUser, ensureReferralRecord. repeat first [apply kept_referral | kept_step].
  - unfold getRewardWallet, assertRewardsEnabled, loadWalletEntries, verifyRewardLedgerChain.
    repeat first [apply kept_code | kept_step].
Qed.

(** ** Theorems *)

(** The wallet is an append-only ledger: an entry, once written, stays as it
    is through every sequence of grants, reversals, completions and changes of
    campaigns and referrals, each at any time; and granting under its key again
    answers the stored entry and writes nothing. *)
Theorem wallet_is_append_only (s s' : St.t) (k : string) (e : RewardWalletEntry.t) :
  rtc reward_op s s' -> Db.rewardWalletEntry (St.db s) !! k = Some e ->
  Db.rewardWalletEntry (St.db s') !! k = Some e /\
  forall (E : Env) (input : GrantInput.t), GrantInput.idempotencyKey input = k ->
    grantWalletEntry input s' = (s', Ok (e, false)).
Proof.
  intros R L.
  assert (K : on_db (entries_kept (St.db s)) s').
  { assert (K0 : on_db (entries_kept (St.db s)) s) by (intros ? ? ?; assumption).
    revert K0. generalize (St.db s). intros d0. clear L. induction R; eauto using reward_op_kept. }
  pose proof (K k e L) as L'. split; [exact L'|]. intros E input <-. unfold grantWalletEntry.
  rewrite (bind_Ok _ _ _ _ _ (findUnique_run prisma.rewardWalletEntry _ s')). cbn. rewrite L'. reflexivity.
Qed.

Section ledger.
Context `{Env}.

(** The hash a new entry of the wallet is chained to. *)
Definition latestHash (userId walletType : string) (d : Db.t) : option string :=
  head (sort_le newest_le (where_ prisma.rewardWalletEntry
    (fun e => ofUser userId e && bool_decide (RewardWalletEntry.walletType e = walletType)) d))
  ≫= RewardWalletEntry.entryHash.

Lemma grantWalletEntry_fresh input s :
  let key := GrantInput.idempotencyKey input in
  let e := walletEntry input (uuid (St.seq s)) (latestHash (GrantInput.userId input)
             (normalizeWalletType (Some (GrantInput.walletType input))) (St.db s)) in
  Db.rewardWalletEntry (St.db s) !! key = None ->
  grantWalletEntry input s =
    (s <| St.seq ::= S |> <| St.db ::= with_rows prisma.rewardWalletEntry <[key := e]> |>, Ok (e, true)).
Proof.
  intros key e Fr. unfold e, key in *. clear e key. unfold grantWalletEntry. rewrite (bind_Ok _ _ _ _ _ (findUnique_run prisma.rewardWalletEntry _ s)).
  cbn [rows prisma.rewardWalletEntry]. rewrite Fr. unfold loadLatestRewardEntry.
  rewrite (bind_Ok (get _) _ s s _ eq_refl), (bind_Ok randomUUID _ s _ _ eq_refl).
  etrans; [eapply bind_Ok, create_run; exact Fr | reflexivity].
Qed.

Lemma normalizeWalletType_id w : w ∈ [RIDER; DRIVER] -> normalizeWalletType (Some w) = w.
Proof. intros [<-|[<-|[]]]%list_elem_of_In; vm_compute; reflexivity. Qed.

Lemma nabs_neg x : (0 < x)%Q -> (nabs (Qred (- x)) == x)%Q /\ walletDirection (Qred (- x)) = "DEBIT"%string.
Proof.
  intros P. unfold nabs, walletDirection, nle.
  assert (N : Qle_bool (num_of_Z 0) (Qred (- x)) = false).
  { apply not_true_iff_false. rewrite Qle_bool_iff, Qred_correct. change (num_of_Z 0) with 0%Q. lra. }
  rewrite N. split; [rewrite !Qred_correct; lra | reflexivity].
Qed.

Lemma nabs_pos x : (0 < x)%Q -> nabs x = x /\ walletDirection x = "CREDIT"%string.
Proof.
  intros P. unfold nabs, walletDirection, nle.
  assert (N : Qle_bool (num_of_Z 0) x = true) by (apply Qle_bool_iff; change (num_of_Z 0) with 0%Q; lra).
  rewrite N. split; reflexivity.
Qed.

(** An entry's id determines it. *)
Definition unique_entry (k : string) (e : RewardWalletEntry.t) (d : Db.t) : Prop :=
  Db.rewardWalletEntry d !! k = Some e /\
  forall k' e', Db.rewardWalletEntry d !! k' = Some e' -> RewardWalletEntry.id e' = RewardWalletEntry.id e -> k' = k.

Lemma reverse_finds k original reason metadata adminId s :
  REWARDS_ENABLED = true -> unique_entry k original (St.db s) ->
  reverseRewardEntry (RewardWalletEntry.id original) reason metadata adminId s =
  grantWalletEntry (reversalInput original reason metadata adminId) s.
Proof.
  intros En [L U]. unfold reverseRewardEntry, assertRewardsEnabled. rewrite En. cbn [negb throw_if].
  assert (F : head (where_ prisma.rewardWalletEntry
            (fun e => bool_decide (RewardWalletEntry.id e = RewardWalletEntry.id original)) (St.db s)) = Some original).
  { apply (findFirst_unique prisma.rewardWalletEntry _ _ k); [exact L | apply bool_decide_eq_true_2; reflexivity|].
    intros k' r' E' P. apply bool_decide_eq_true in P. pose proof (U k' r' E' P) as ->. cbn in E'. congruence. }
  unfold findFirst, mbind, M_bind, mret, M_ret, get. rewrite F. reflexivity.
Qed.

(** The entry that undoes [original]. *)
Definition undoes (e original : RewardWalletEntry.t) : Prop :=
  RewardWalletEntry.userId e = RewardWalletEntry.userId original /\
  RewardWalletEntry.walletType e = RewardWalletEntry.walletType original /\
  RewardWalletEntry.currency e = RewardWalletEntry.currency original /\
  (RewardWalletEntry.amount e == RewardWalletEntry.amount original)%Q /\
  RewardWalletEntry.direction e =
    (if decide (RewardWalletEntry.direction original = "DEBIT"%string) then "CREDIT"%string else "DEBIT"%string) /\
  RewardWalletEntry.reversalOfEntryId e = Some (RewardWalletEntry.id original).

(** What every grant stores: a known wallet, a code of three letters and an
    amount. *)
Definition regular (e : RewardWalletEntry.t) : Prop :=
  RewardWalletEntry.walletType e ∈ [RIDER; DRIVER] /\
  normalizeCurrency (Some (RewardWalletEntry.currency e)) = RewardWalletEntry.currency e /\
  (0 < RewardWalletEntry.amount e)%Q.

Lemma reversal_entry original reason metadata adminId id prev :
  regular original -> undoes (walletEntry (reversalInput original reason metadata adminId) id prev) original.
Proof.
  intros (Wt & Cu & Pos). unfold walletEntry, reversalInput. destruct (nabs_pos _ Pos), (nabs_neg _ Pos).
  split; [reflexivity|]. split; [exact (normalizeWalletType_id _ Wt)|]. split; [exact Cu|].
  cbn. destruct (decide _); (split; [first [congruence | assumption]|]; split; [assumption | reflexivity]).
Qed.

(** A reversal undoes an entry, once: reversing a stored entry appends one of
    the same user, wallet, currency and amount in the opposite direction, linked to
    it; reversing it again answers that entry and writes nothing. *)
Theorem reversal_undoes_entry (s : St.t) (k : string) (original : RewardWalletEntry.t) (reason : string)
    (metadata : list (string * Json)) (adminId : option string) :
  let key := "reversal:" +:+ RewardWalletEntry.id original in
  REWARDS_ENABLED = true -> unique_entry k original (St.db s) -> regular original ->
  Db.rewardWalletEntry (St.db s) !! key = None -> uuid (St.seq s) <> RewardWalletEntry.id original ->
  exists s' e, reverseRewardEntry (RewardWalletEntry.id original) reason metadata adminId s = (s', Ok (e, true)) /\
    Db.rewardWalletEntry (St.db s') = <[key := e]> (Db.rewardWalletEntry (St.db s)) /\ undoes e original /\
    reverseRewardEntry (RewardWalletEntry.id original) reason metadata adminId s' = (s', Ok (e, false)).
Proof.
  intros key En Un Re Fr Ne. rewrite (reverse_finds k) by assumption.
  pose proof (grantWalletEntry_fresh (reversalInput original reason metadata adminId) s Fr) as Run. cbv zeta in Run.
  match type of Run with _ = (?s', Ok (?e, _)) => exists s', e; set (s1 := s') in *; set (e1 := e) in * end.
  split; [exact Run|]. split; [reflexivity|]. split; [apply reversal_entry, Re|].
  assert (Un1 : unique_entry k original (St.db s1)).
  { destruct Un as [L U]. assert (Nk : k <> key) by (intros ->; rewrite Fr in L; discriminate).
    unfold unique_entry. change (Db.rewardWalletEntry (St.db s1)) with (<[key := e1]> (Db.rewardWalletEntry (St.db s))).
    split.
    - rewrite lookup_insert_ne by (intros E; symmetry in E; exact (Nk E)). exact L.
    - intros k' e'. rewrite lookup_insert_Some. intros [[_ <-]|[_ E']]; [intros Eq; destruct (Ne Eq) | exact (U k' e' E')]. }
  rewrite (reverse_finds k) by assumption. unfold grantWalletEntry.
  rewrite (bind_Ok _ _ _ _ _ (findUnique_run prisma.rewardWalletEntry _ s1)). cbn. rewrite lookup_insert_eq. reflexivity.
Qed.

(** *** The check of the chain *)

(** An entry the check looks at. *)
Definition chained (e : RewardWalletEntry.t) : bool :=
  bool_decide (is_Some (truthy (RewardWalletEntry.entryHash e))) &&
  bool_decide (is_Some (truthy (RewardWalletEntry.previousHash e))).

(** The check starts every wallet without a hash and skips the first entry, whose
    previous hash is null: the next one never matches. *)
Lemma verifyEntries_empty (es : list RewardWalletEntry.t) :
  verifyEntries ∅ es = RewardWalletEntry.id <$> List.find chained es.
Proof.
  induction es as [|e es IH]; [reflexivity|]. cbn [verifyEntries List.find]. unfold chained at 1.
  destruct (truthy (RewardWalletEntry.entryHash e)) as [h|]; [|exact IH].
  destruct (truthy (RewardWalletEntry.previousHash e)) as [p|]; [|exact IH].
  rewrite !(bool_decide_eq_true_2 (is_Some _)) by eauto. rewrite lookup_empty. reflexivity.
Qed.
End ledger.

Section flaws.
Context `{Env}.

Lemma find_only {A} (p : A -> bool) (l : list A) (x : A) :
  In x l -> p x = true -> (forall y, In y l -> p y = true -> y = x) -> List.find p l = Some x.
Proof.
  intros Hx Px U. destruct (List.find p l) as [y|] eqn:F.
  - apply find_some in F as [Hy Py]. f_equal. auto.
  - pose proof (find_none p l F x Hx). congruence.
Qed.

(** The integrity check rejects every wallet with a second entry: when a wallet
    has a single entry with a hash and a further reward is granted to it, chained
    to it as it should be, the check reports the new entry as broken. *)
Theorem ledger_check_rejects_second_entry (s : St.t) (k : string) (first : RewardWalletEntry.t) (input : GrantInput.t) :
  Db.rewardWalletEntry (St.db s) = {[k := first]} -> RewardWalletEntry.userId first = GrantInput.userId input ->
  RewardWalletEntry.walletType first = normalizeWalletType (Some (GrantInput.walletType input)) ->
  RewardWalletEntry.previousHash first = None -> is_Some (truthy (RewardWalletEntry.entryHash first)) ->
  GrantInput.idempotencyKey input <> k -> (forall x, hashOtp x <> EmptyString) ->
  exists s' e, grantWalletEntry input s = (s', Ok (e, true)) /\
    RewardWalletEntry.previousHash e = RewardWalletEntry.entryHash first /\
    verifyRewardLedgerChain (GrantInput.userId input) s' = (s', Ok (Some (RewardWalletEntry.id e))).
Proof.
  intros D Us Wt Ph Eh Nk Hh. set (key := GrantInput.idempotencyKey input) in *.
  assert (Fr : Db.rewardWalletEntry (St.db s) !! key = None) by (rewrite D; apply lookup_singleton_ne; congruence).
  pose proof (grantWalletEntry_fresh input s Fr) as Run. cbv zeta in Run.
  match type of Run with _ = (?s', Ok (?e, _)) => set (s1 := s') in *; set (e1 := e) in * end.
  assert (La : latestHash (GrantInput.userId input) (normalizeWalletType (Some (GrantInput.walletType input))) (St.db s)
               = RewardWalletEntry.entryHash first).
  { unfold latestHash, where_. cbn [rows prisma.rewardWalletEntry]. rewrite D, map_to_list_singleton. cbn [fmap list_fmap List.filter snd].
    unfold ofUser. rewrite Us, Wt, !bool_decide_eq_true_2 by reflexivity. reflexivity. }
  exists s1, e1. split; [exact Run|]. split; [exact La|].
  unfold verifyRewardLedgerChain. rewrite bind_run. cbn [get fst snd]. rewrite verifyEntries_empty.
  rewrite (find_only chained _ e1); [reflexivity | | |].
  - apply list_elem_of_In. rewrite sort_le_perm. apply list_elem_of_In, where_elem. split.
    + apply bool_decide_eq_true_2. reflexivity.
    + exists key. apply lookup_insert_eq.
  - destruct Eh as [h Eh]. unfold chained.
    assert (P : RewardWalletEntry.previousHash e1 = RewardWalletEntry.entryHash first) by exact La.
    rewrite P, Eh. rewrite (bool_decide_eq_true_2 (is_Some (Some h))) by eauto.
    unfold e1, walletEntry. cbn. unfold computeRewardEntryHash.
    match goal with |- context [hashOtp ?x] => pose proof (Hh x); destruct (hashOtp x); [contradiction|] end.
    apply andb_true_iff. split; [|reflexivity]. apply bool_decide_eq_true_2. eauto.
  - intros y Hy Cy. apply list_elem_of_In in Hy. rewrite sort_le_perm in Hy.
    apply list_elem_of_In, where_elem in Hy as [_ [k' E']].
    change (<[key := e1]> (Db.rewardWalletEntry (St.db s)) !! k' = Some y) in E'.
    rewrite D in E'. apply lookup_insert_Some in E' as [[_ <-]|[_ E']]; [reflexivity|].
    apply lookup_singleton_Some in E' as [_ <-]. exfalso. unfold chained in Cy. rewrite Ph in Cy.
    rewrite (bool_decide_eq_false_2 (is_Some (truthy None))) in Cy by (intros [? ?]; discriminate).
    rewrite andb_false_r in Cy. discriminate.
Qed.

Lemma nabs_deduction x : (x < 0)%Q ->
  nle (num_of_Z 0) x = false /\ walletDirection (nabs x) = "CREDIT"%string /\ (nabs (nabs x) == - x)%Q.
Proof.
  intros Neg. assert (N : nle (num_of_Z 0) x = false).
  { unfold nle. apply not_true_iff_false. rewrite Qle_bool_iff. change (num_of_Z 0) with 0%Q. lra. }
  split; [exact N|]. assert (X : nabs x = Qred (- x)) by (unfold nabs; rewrite N; reflexivity). rewrite X.
  assert (P : (0 < Qred (- x))%Q) by (rewrite Qred_correct; lra).
  destruct (nabs_pos _ P) as [P1 P2]. split; [exact P2|]. rewrite P1. apply Qred_correct.
Qed.

(** A manual deduction is paid out: a manual reward of a negative amount is
    stored as an entry of type DEBIT in the direction CREDIT, so it raises the
    balance by the amount it was to take. *)
Theorem manual_deduction_is_credited (s : St.t) (userId : string) (user : User.t) (amount : num)
    (currency walletType : option string) (reason sourceId : string) (adminId : option string) :
  let key := manualKey userId "MANUAL" (trim_string sourceId) amount currency in
  REWARDS_ENABLED = true -> Db.user (St.db s) !! userId = Some user -> (amount < 0)%Q -> sourceId <> EmptyString ->
  Db.rewardWalletEntry (St.db s) !! key = None ->
  wp (grantManualReward userId amount currency walletType reason None (Some sourceId) None adminId)
     (fun s' _ => exists e, Db.rewardWalletEntry (St.db s') !! key = Some e /\
        RewardWalletEntry.entryType e = "DEBIT"%string /\ RewardWalletEntry.direction e = "CREDIT"%string /\
        (RewardWalletEntry.amount e == - amount)%Q /\
        forall total, WalletTotal.balance (addEntry e total) =
          nadd (WalletTotal.balance total) (RewardWalletEntry.amount e)) s.
Proof.
  intros key En Us Neg Ne Fr. unfold grantManualReward, assertRewardsEnabled, maybeSendRewardNotification, createNotification.
  replace (truthy (Some sourceId)) with (Some sourceId) by (destruct sourceId; [contradiction | reflexivity]).
  change (toUpperCase (trim_string (default "MANUAL"%string (truthy None)))) with "MANUAL"%string.
  rewrite En. wp_query. wp_query; [discriminate|]. wp_query. wp_query. wp_query. wp_query.
  cbn in E. assert (o = Some user) as -> by congruence. wp_query. apply wp_run. intros s1 r Run.
  rewrite grantWalletEntry_fresh in Run by exact Fr. injection Run as <- <-. fold key.
  match goal with |- wp ?m (fun s' _ => @?P s') ?s1 =>
    cut (preserves P m /\ P s1); [intros [Pm Ps]; exact (Pm s1 Ps)|] end.
  split.
  - match goal with |- preserves ?P _ => change P with (on_db (fun d => exists e,
      Db.rewardWalletEntry d !! key = Some e /\ RewardWalletEntry.entryType e = "DEBIT"%string /\
      RewardWalletEntry.direction e = "CREDIT"%string /\ (RewardWalletEntry.amount e == - amount)%Q /\
      forall total, WalletTotal.balance (addEntry e total) =
        nadd (WalletTotal.balance total) (RewardWalletEntry.amount e))) end.
    preserve_db.
  - eexists. split; [apply lookup_insert_eq|].
    destruct (nabs_deduction amount Neg) as (N1 & N2 & N3).
    split; [change ((if nle (num_of_Z 0) amount then "MANUAL_CREDIT" else "DEBIT") = "DEBIT")%string; rewrite N1; reflexivity|].
    split; [exact N2|]. split; [exact N3|]. intros total. unfold addEntry. destruct (decide _) as [Di|Di]; [|reflexivity].
    change (walletDirection (nabs amount) = "DEBIT"%string) in Di. congruence.
Qed.
End flaws.

(** ** Witnesses: a user with one credit of five euros *)

Definition demo_input (key : string) : GrantInput.t := {|
  GrantInput.userId := "u1"; GrantInput.walletType := "RIDER"; GrantInput.entryType := "CAMPAIGN_CREDIT";
  GrantInput.amount := num_of_Z 5; GrantInput.currency := Some "EUR"%string; GrantInput.sourceType := "BOOKING";
  GrantInput.sourceId := "b1"; GrantInput.campaignId := None; GrantInput.description := None;
  GrantInput.metadataJson := None; GrantInput.createdById := None; GrantInput.reversalOfEntryId := None;
  GrantInput.idempotencyKey := key |}.
Definition demo_at : Env := demo_env 1000 no_failure.
Definition demo_entry : RewardWalletEntry.t := @walletEntry demo_at (demo_input "k1") "e1" None.
Definition demo_wallet : St.t := St.Build_t
  (Db.empty <| Db.user := {["u1"%string := User.defaults "u1" 0]} |>
     <| Db.rewardWalletEntry := {["k1"%string := demo_entry]} |>) [] 0.

Lemma demo_lookup : Db.rewardWalletEntry (St.db demo_wallet) !! "k1"%string = Some demo_entry.
Proof. reflexivity. Qed.

Lemma wallet_is_append_only_witness :
  let s' := (@grantManualReward demo_at "u1" (num_of_Z 3) None None "thanks" None None None None demo_wallet).1 in
  Db.rewardWalletEntry (St.db s') !! "k1"%string = Some demo_entry /\
  @grantWalletEntry demo_at (demo_input "k1") s' = (s', Ok (demo_entry, false)).
Proof.
  intros s'. assert (R : rtc reward_op demo_wallet s') by (apply rtc_once, (op_manual demo_at)).
  destruct (wallet_is_append_only demo_wallet s' "k1" demo_entry R demo_lookup) as [A B].
  split; [exact A|]. exact (B demo_at (demo_input "k1") eq_refl).
Defined.

Lemma reversal_undoes_entry_witness :
  exists s' e, @reverseRewardEntry demo_at "e1" "mistake" [] None demo_wallet = (s', Ok (e, true)) /\
    undoes e demo_entry.
Proof.
  assert (Un : unique_entry "k1" demo_entry (St.db demo_wallet)).
  { split; [exact demo_lookup|]. intros k' e' E.
    change (({["k1"%string := demo_entry]} : gmap string RewardWalletEntry.t) !! k' = Some e') in E.
    apply lookup_singleton_Some in E as [<- _]. reflexivity. }
  assert (Re : regular demo_entry).
  { split; [|split]; [apply list_elem_of_In; left; reflexivity | vm_compute; reflexivity | vm_compute; reflexivity]. }
  assert (Fr : Db.rewardWalletEntry (St.db demo_wallet) !! "reversal:e1"%string = None) by (vm_compute; reflexivity).
  destruct (@reversal_undoes_entry demo_at demo_wallet "k1" demo_entry "mistake" [] None eq_refl Un Re Fr
              ltac:(vm_compute; discriminate)) as (s' & e & Run & _ & U & _).
  exists s', e. split; [exact Run | exact U].
Defined.

Lemma ledger_check_rejects_second_entry_witness :
  exists s' e, @grantWalletEntry demo_at (demo_input "k2") demo_wallet = (s', Ok (e, true)) /\
    RewardWalletEntry.previousHash e = RewardWalletEntry.entryHash demo_entry /\
    @verifyRewardLedgerChain demo_at "u1" s' = (s', Ok (Some (RewardWalletEntry.id e))).
Proof.
  assert (Eh : is_Some (truthy (RewardWalletEntry.entryHash demo_entry))) by (vm_compute; eexists; reflexivity).
  exact (@ledger_check_rejects_second_entry demo_at demo_wallet "k1" demo_entry (demo_input "k2") eq_refl eq_refl
           eq_refl eq_refl Eh ltac:(discriminate) ltac:(intros x; discriminate)).
Defined.

Lemma manual_deduction_is_credited_witness :
  wp (@grantManualReward demo_at "u1" (num_of_Z (-3)) None None "deduction" None (Some "t1"%string) None None)
     (fun s' _ => exists e,
        Db.rewardWalletEntry (St.db s') !! manualKey "u1" "MANUAL" (trim_string "t1") (num_of_Z (-3)) None = Some e /\
        RewardWalletEntry.entryType e = "DEBIT"%string /\ RewardWalletEntry.direction e = "CREDIT"%string /\
        (RewardWalletEntry.amount e == - num_of_Z (-3))%Q /\
        forall total, WalletTotal.balance (addEntry e total) =
          nadd (WalletTotal.balance total) (RewardWalletEntry.amount e)) demo_wallet.
Proof.
  assert (Fr : Db.rewardWalletEntry (St.db demo_wallet) !!
            manualKey "u1" "MANUAL" (trim_string "t1") (num_of_Z (-3)) None = None) by (vm_compute; reflexivity).
  exact (@manual_deduction_is_credited demo_at demo_wallet "u1" (User.defaults "u1" 0) (num_of_Z (-3)) None None
           "deduction" "t1" None eq_refl eq_refl ltac:(vm_compute; reflexivity) ltac:(discriminate) Fr).
Defined.
