(* ===== verification/Sessions.v ===== *)
(** * Accounts and sessions

    Models [modules/auth/auth.service.ts] and [modules/token/tokens.service.ts]: signing up
    and in, the refresh tokens and their renewal, and the guards of
    [middlewares/auth.ts] and [middlewares/authMiddleware.ts].  Signing and checking
    tokens (jsonwebtoken), Google's tickets and the settings of the process are the
    operations of [Auth]. *)

From Stdlib Require Import ZArith Lia.
From stdpp Require Import base list option strings gmap relations.
From S2P Require Import Prelude JsNumber JsText Schema Store Time Gateway Rewards.

Open Scope Z_scope.

Module DecodedToken.
Record t := { id : string; role : UserRole.t }.
End DecodedToken.

Module Tokens.
Record t := { accessToken : string; refreshToken : string }.
End Tokens.

Module GooglePayload.
Record t := {
  email : option string;
  email_verified : bool;
  given_name : option string;
  family_name : option string;
  picture : option string;
}.
End GooglePayload.

Inductive AuthMethod := email | phone.
Inductive OtpPurpose := signup | login | reset_password.
#[global] Instance AuthMethod_eq_dec : EqDecision AuthMethod.
Proof. solve_decision. Defined.
#[global] Instance OtpPurpose_eq_dec : EqDecision OtpPurpose.
Proof. solve_decision. Defined.

(** [jwt_sign secret payload jti at lifetime] and [jwt_verify secret at token]; [tokenSecret]
    reads a variable of the process; [verifyIdToken] answers the payload of Google's
    ticket, or throws. *)
Class Auth := {
  jwt_sign : string -> DecodedToken.t -> string -> Z -> Z -> string;
  jwt_verify : string -> Z -> string -> Res DecodedToken.t;
  env_ACCESS_TOKEN_SECRET : option string;
  env_JWT_SECRET : option string;
  env_REFRESH_TOKEN_SECRET : option string;
  GOOGLE_CLIENT_ID : option string;
  verifyIdToken : string -> string -> Res (option GooglePayload.t);
  TEMP_ADMIN_LOGIN_ENABLED : option string;
  TEMP_ADMIN_LOGIN_EMAIL : option string;
  TEMP_ADMIN_LOGIN_PASSWORD : option string;
}.

(** What a service answers: success with the user, the tokens and the next screen, or a
    reason. *)
Module AuthResult.
Record t := { success : bool; reason : option string; user : option User.t; tokens : option Tokens.t; next : option string }.
End AuthResult.

Definition failure (reason : string) : AuthResult.t :=
  {| AuthResult.success := false; AuthResult.reason := Some reason; AuthResult.user := None; AuthResult.tokens := None; AuthResult.next := None |}.

Definition withUser (reason : option string) (user : option User.t) (tokens : option Tokens.t) : AuthResult.t :=
  {| AuthResult.success := true; AuthResult.reason := reason; AuthResult.user := user; AuthResult.tokens := tokens; AuthResult.next := None |}.

Definition signedIn (user : User.t) (tokens : Tokens.t) : AuthResult.t :=
  {| AuthResult.success := true; AuthResult.reason := None; AuthResult.user := Some user; AuthResult.tokens := Some tokens;
     AuthResult.next := Some (if bool_decide (User.onboardingStatus user = OnboardingStatus.COMPLETED) then "home" else "onboarding")%string |}.

Definition normalizeAuthIdentifier (method : AuthMethod) (identifier : string) : string :=
  match method with email => toLowerCase (strip identifier) | phone => strip identifier end.

(** Emails are compared without case. *)
Definition identifierWhere (method : AuthMethod) (identifier : string) (u : User.t) : bool :=
  let normalized := normalizeAuthIdentifier method identifier in
  match method with
  | email => bool_decide (toLowerCase <$> User.email u = Some (toLowerCase normalized))
  | phone => bool_decide (User.phone u = Some normalized)
  end.

Definition hasToken (token : string) (r : RefreshToken.t) : bool := bool_decide (RefreshToken.token r = token).

Section sessions.
Context `{Env} `{Auth}.

Definition ACCESS_TOKEN_SECRET : string :=
  match truthy env_ACCESS_TOKEN_SECRET, truthy env_JWT_SECRET with
  | Some s, _ => s
  | None, Some s => s
  | None, None => "access_secret"
  end.
Definition REFRESH_TOKEN_SECRET : string := default "refresh_secret"%string (truthy env_REFRESH_TOKEN_SECRET).

(** Thirty days and a year, in seconds. *)
Definition ACCESS_TOKEN_EXPIRES_IN : Z := 30 * 24 * 60 * 60.
Definition REFRESH_TOKEN_EXPIRES_IN : Z := 31557600.

(** The token is unique. *)
Definition generateTokens (payload : DecodedToken.t) : H Tokens.t :=
  jti1 ← randomUUID;
  let accessToken := jwt_sign ACCESS_TOKEN_SECRET payload jti1 now ACCESS_TOKEN_EXPIRES_IN in
  jti2 ← randomUUID;
  let refreshToken := jwt_sign REFRESH_TOKEN_SECRET payload jti2 now REFRESH_TOKEN_EXPIRES_IN in
  taken ← findFirst prisma.refreshToken (hasToken refreshToken);
  throw_if (bool_decide (is_Some taken)) "P2002";;
  id ← randomUUID;
  create prisma.refreshToken id (RefreshToken.defaults id now
    <| RefreshToken.token := refreshToken |> <| RefreshToken.userId := DecodedToken.id payload |>
    <| RefreshToken.revoked := false |> <| RefreshToken.expiresAt := now + 365 * 24 * 60 * 60 * 1000 |>);;
  mret {| Tokens.accessToken := accessToken; Tokens.refreshToken := refreshToken |}.

Definition verifyAccessToken (token : string) : Res DecodedToken.t := jwt_verify ACCESS_TOKEN_SECRET now token.
Definition verifyRefreshToken (token : string) : Res DecodedToken.t := jwt_verify REFRESH_TOKEN_SECRET now token.

Definition revoke (r : RefreshToken.t) : RefreshToken.t := r <| RefreshToken.revoked := true |>.

Definition revokeRefreshToken (token : string) : H unit := updateMany prisma.refreshToken (hasToken token) revoke;; mret tt.

Definition tokensOf (user : User.t) : H Tokens.t :=
  generateTokens {| DecodedToken.id := User.id user; DecodedToken.role := User.role user |}.

(** Emails and phone numbers are unique. *)
Definition createUser (method : AuthMethod) (identifier : string) (f : User.t -> User.t) : H User.t :=
  let set u := match method with email => u <| User.email := Some identifier |> | phone => u <| User.phone := Some identifier |> end in
  taken ← findFirst prisma.user (fun u =>
    match method with email => bool_decide (User.email u = Some identifier) | phone => bool_decide (User.phone u = Some identifier) end);
  throw_if (bool_decide (is_Some taken)) "P2002";;
  id ← randomUUID;
  create prisma.user id (f (set (User.defaults id now))).

(** ** Signing in *)

Definition googleAuthService (idToken : string) (locale : option string) : H (Tokens.t * User.t * bool) :=
  match truthy GOOGLE_CLIENT_ID with
  | None => throw "GOOGLE_AUTH_NOT_CONFIGURED"
  | Some clientId =>
      payload ← (match verifyIdToken idToken clientId with Ok p => mret p | Err e => throw e end);
      match payload, truthy (payload ≫= GooglePayload.email), default false (GooglePayload.email_verified <$> payload) with
      | Some payload, Some address, true =>
          let address := normalizeAuthIdentifier email address in
          user ← findFirst prisma.user (fun u => bool_decide (User.email u = Some address));
          throw_if (default false (User.isBanned <$> user)) "USER_BANNED";;
          user ← match user with
                 | None =>
                     user ← createUser email address (fun u =>
                       u <| User.firstName := truthy (strip <$> GooglePayload.given_name payload) |>
                         <| User.lastName := truthy (strip <$> GooglePayload.family_name payload) |>
                         <| User.avatarUrl := truthy (GooglePayload.picture payload) |>
                         <| User.emailVerified := true |> <| User.isVerified := true |>
                         <| User.onboardingStatus := OnboardingStatus.PENDING |> <| User.preferredLocale := locale |>);
                     ensureUserReferralCode (User.id user);;
                     mret user
                 | Some old =>
                     user ← update prisma.user (User.id old) (fun u =>
                       u <| User.emailVerified := true |> <| User.isVerified := true |>
                         <| User.firstName ::= fun n => match truthy (User.firstName old), truthy (GooglePayload.given_name payload) with
                                                        | None, Some g => Some (strip g) | _, _ => n end |>
                         <| User.lastName ::= fun n => match truthy (User.lastName old), truthy (GooglePayload.family_name payload) with
                                                       | None, Some g => Some (strip g) | _, _ => n end |>
                         <| User.avatarUrl ::= fun a => match truthy (User.avatarUrl old), truthy (GooglePayload.picture payload) with
                                                        | None, Some p => Some p | _, _ => a end |>
                         <| User.preferredLocale ::= fun l => match truthy locale, truthy (User.preferredLocale old) with
                                                              | Some l', None => Some l' | _, _ => l end |>);
                     when (bool_decide (truthy (User.referralCode user) = None)) (ensureUserReferralCode (User.id user);; mret tt);;
                     mret user
                 end;
          tokens ← tokensOf user;
          mret (tokens, user, bool_decide (User.onboardingStatus user = OnboardingStatus.COMPLETED))
      | _, _, _ => throw "GOOGLE_EMAIL_NOT_VERIFIED"
      end
  end.

(** Compared by their hashes in constant time; the result is equality. *)
Definition constantTimeEquals (left right : string) : bool := bool_decide (left = right).

Definition temporaryAdminLoginService (address password : string) : H (Tokens.t * User.t) :=
  throw_if (negb (bool_decide (TEMP_ADMIN_LOGIN_ENABLED = Some "true"%string))) "TEMP_ADMIN_LOGIN_DISABLED";;
  match truthy TEMP_ADMIN_LOGIN_EMAIL, truthy TEMP_ADMIN_LOGIN_PASSWORD with
  | Some configuredEmail, Some configuredPassword =>
      let normalizedEmail := normalizeAuthIdentifier email address in
      throw_if (negb (constantTimeEquals normalizedEmail (normalizeAuthIdentifier email configuredEmail)) ||
                negb (constantTimeEquals password configuredPassword)) "INVALID_TEMP_ADMIN_LOGIN";;
      user ← findFirst prisma.user (fun u =>
        bool_decide (toLowerCase <$> User.email u = Some (toLowerCase normalizedEmail)) && bool_decide (User.role u = UserRole.ADMIN));
      match user with
      | None => throw "INVALID_TEMP_ADMIN_LOGIN"
      | Some user =>
          throw_if (User.isBanned user) "INVALID_TEMP_ADMIN_LOGIN";;
          tokens ← generateTokens {| DecodedToken.id := User.id user; DecodedToken.role := UserRole.ADMIN |};
          mret (tokens, user)
      end
  | _, _ => throw "TEMP_ADMIN_LOGIN_NOT_CONFIGURED"
  end.

Definition signupService (method : AuthMethod) (identifier : string) (referralCode locale : option string) : H AuthResult.t :=
  let normalized := normalizeAuthIdentifier method identifier in
  user ← findFirst prisma.user (identifierWhere method normalized);
  let attach (id : string) : H unit :=
    match truthy referralCode with Some code => attempt (attachReferralCodeToUser id code) | None => mret tt end in
  match user with
  | None =>
      newUser ← createUser method normalized (fun u =>
        u <| User.onboardingStatus := OnboardingStatus.PENDING |> <| User.isVerified := false |> <| User.preferredLocale := locale |>);
      ensureUserReferralCode (User.id newUser);;
      attach (User.id newUser);;
      mret (withUser (Some "USER_CREATED"%string) (Some newUser) None)
  | Some user =>
      if User.isVerified user then mret (failure "USER_EXISTS")
      else
        when (bool_decide (truthy (User.referralCode user) = None)) (ensureUserReferralCode (User.id user);; mret tt);;
        user ← match truthy locale, truthy (User.preferredLocale user) with
               | Some l, None => update prisma.user (User.id user) (fun u => u <| User.preferredLocale := Some l |>)
               | _, _ => mret user
               end;
        when (bool_decide (truthy (User.referredByUserId user) = None)) (attach (User.id user));;
        mret (withUser (Some "USER_PENDING_VERIFICATION"%string) (Some user) None)
  end.

Definition channelVerified (method : AuthMethod) (u : User.t) : bool :=
  match method with email => User.emailVerified u | phone => User.phoneVerified u end.

Definition markChannel (method : AuthMethod) (u : User.t) : User.t :=
  match method with email => u <| User.emailVerified := true |> | phone => u <| User.phoneVerified := true |> end.

(** After the code was checked. *)
Definition verifyOtpService (identifier : string) (purpose : OtpPurpose) (method : AuthMethod) : H AuthResult.t :=
  try_catch (
    user ← findFirst prisma.user (identifierWhere method (normalizeAuthIdentifier method identifier));
    match user with
    | None => mret (failure "USER_NOT_FOUND")
    | Some user =>
        if bool_decide (purpose = login) && negb (User.isVerified user) then mret (failure "USER_NOT_VERIFIED")
        else
          let markSignupVerified := bool_decide (purpose = signup) && negb (User.isVerified user) in
          let mark (u : User.t) :=
            let u := if markSignupVerified then u <| User.isVerified := true |> else u in
            if channelVerified method user then u else markChannel method u in
          when (markSignupVerified || negb (channelVerified method user)) (update prisma.user (User.id user) mark;; mret tt);;
          tokens ← tokensOf user;
          mret (signedIn (if markSignupVerified || negb (channelVerified method user)
                          then markChannel method (if markSignupVerified then user <| User.isVerified := true |> else user)
                          else user) tokens)
    end)
    (fun error => mret (failure error)).

(** A token is exchanged for new ones. *)
Definition refreshTokenService (refreshToken : string) : H AuthResult.t :=
  try_catch (
    match verifyRefreshToken refreshToken with
    | Err e => throw e
    | Ok decoded =>
        tokenDoc ← findFirst prisma.refreshToken (fun r =>
          hasToken refreshToken r && bool_decide (RefreshToken.userId r = DecodedToken.id decoded) && negb (RefreshToken.revoked r));
        match tokenDoc with
        | None => mret (failure "INVALID_REFRESH")
        | Some tokenDoc =>
            update prisma.refreshToken (RefreshToken.id tokenDoc) revoke;;
            user ← findUnique prisma.user (DecodedToken.id decoded);
            match user with
            | None => mret (failure "USER_NOT_FOUND")
            | Some user =>
                tokens ← tokensOf user;
                mret (withUser None (Some user) (Some tokens))
            end
        end
    end)
    (fun _ => mret (failure "INTERNAL_ERROR")).

Definition requestOtpService (identifier : string) (purpose : OtpPurpose) (method : AuthMethod) : H AuthResult.t :=
  user ← findFirst prisma.user (identifierWhere method (normalizeAuthIdentifier method identifier));
  mret (if bool_decide (purpose = signup) && default false (User.isVerified <$> user) then failure "USER_EXISTS"
        else if bool_decide (purpose = login) && bool_decide (user = None) then withUser None None None
        else withUser None user None).

Definition logoutService (refreshToken : string) : H AuthResult.t :=
  try_catch (
    count ← updateMany prisma.refreshToken (hasToken refreshToken) revoke;
    mret (if count =? 0 then failure "Token not found" else withUser None None None))
    (fun _ => mret (failure "LOGOUT_FAILED")).

Definition loginService (method : AuthMethod) (identifier : string) : H AuthResult.t :=
  user ← findFirst prisma.user (identifierWhere method (normalizeAuthIdentifier method identifier));
  mret match user with
       | Some u => if User.isVerified u then withUser None (Some u) None else failure "USER_NOT_FOUND_OR_VERIFIED"
       | None => failure "USER_NOT_FOUND_OR_VERIFIED"
       end.

(** ** The guards *)

(** [authorization?.startsWith('Bearer')] and [split(' ')[1]] *)
Fixpoint afterSpace (s : string) : option string :=
  match s with
  | EmptyString => None
  | String c s => if is_char 32 c then Some s else afterSpace s
  end.
Fixpoint firstWord (s : string) : string :=
  match s with
  | EmptyString => EmptyString
  | String c s => if is_char 32 c then EmptyString else String c (firstWord s)
  end.
Definition bearerToken (authorization : option string) : option string :=
  match authorization with
  | Some a => if String.prefix "Bearer" a then truthy (firstWord <$> afterSpace a) else None
  | None => None
  end.

Inductive Guarded (A : Type) :=
| Allowed (user : A)
| Refused (status : string) (message : string).
Arguments Allowed {A}.
Arguments Refused {A}.

(** [middlewares/auth.ts]; [banned] reads the flag in Redis. *)
Definition protect (authorization : option string) (banned : string -> Res bool) : Guarded DecodedToken.t :=
  match bearerToken authorization with
  | None => Refused "UNAUTHORIZED" "Not authorized, no token"
  | Some token =>
      match verifyAccessToken token with
      | Err _ => Refused "UNAUTHORIZED" "Not authorized, token failed"
      | Ok decoded =>
          match banned (DecodedToken.id decoded) with
          | Err _ => Refused "UNAUTHORIZED" "Not authorized, token failed"
          | Ok true => Refused "FORBIDDEN" "Account suspended"
          | Ok false => Allowed decoded
          end
      end
  end.

Definition authorize (roles : list UserRole.t) (user : option DecodedToken.t) : Guarded DecodedToken.t :=
  match user with
  | Some u => if bool_decide (DecodedToken.role u ∈ roles) then Allowed u else Refused "FORBIDDEN" "Forbidden"
  | None => Refused "FORBIDDEN" "Forbidden"
  end.

(** [middlewares/authMiddleware.ts] *)
Definition isDeletedAccount (user : User.t) : bool := User.isBanned user && bool_decide (truthy (User.email user) = None).

Definition protectUser (authorization : option string) : H (Guarded User.t) :=
  match bearerToken authorization with
  | None =>
      mret (Refused "401" (if default false (String.prefix "Bearer" <$> authorization)
                           then "Not authorized, user not found" else "Not authorized, no token"))
  | Some token =>
      match verifyAccessToken token with
      | Err _ => mret (Refused "401" "Not authorized, token failed")
      | Ok decoded =>
          user ← findUnique prisma.user (DecodedToken.id decoded);
          mret match user with
               | None => Refused "401" "Not authorized, user not found"
               | Some user => if isDeletedAccount user then Refused "401" "Not authorized, account has been deleted" else Allowed user
               end
      end
  end.
End sessions.

(** ** Spent tokens *)

(** The token was issued and is revoked. *)
Record Spent (token : string) (d : Db.t) : Prop := {
  spent_row : exists k r, Db.refreshToken d !! k = Some r /\ RefreshToken.token r = token;
  spent_revoked : forall k r, Db.refreshToken d !! k = Some r -> RefreshToken.token r = token -> RefreshToken.revoked r = true;
}.

(** Rows are stored under their ids and tokens are unique. *)
Record TokenInv (d : Db.t) : Prop := {
  token_id : forall k r, Db.refreshToken d !! k = Some r -> RefreshToken.id r = k;
  token_one : forall k1 k2 r1 r2, Db.refreshToken d !! k1 = Some r1 -> Db.refreshToken d !! k2 = Some r2 ->
    RefreshToken.token r1 = RefreshToken.token r2 -> k1 = k2;
}.

Definition both (token : option string) (d : Db.t) : Prop :=
  TokenInv d /\ match token with Some t => Spent t d | None => True end.

(** Writes that leave the tokens alone. *)
Class Tokenless {R} (t : Table R) : Prop := tokenless : forall g d, Db.refreshToken (with_rows t g d) = Db.refreshToken d.
#[global] Instance tokenless_user : Tokenless prisma.user. Proof. intros ? ?. reflexivity. Qed.
#[global] Instance tokenless_referral : Tokenless prisma.rewardReferral. Proof. intros ? ?. reflexivity. Qed.
#[global] Instance tokenless_entry : Tokenless prisma.rewardWalletEntry. Proof. intros ? ?. reflexivity. Qed.

Lemma both_same token d d' : Db.refreshToken d' = Db.refreshToken d -> both token d -> both token d'.
Proof.
  intros E [[I O] S]. split.
  - split; rewrite E; assumption.
  - destruct token; [|exact Logic.I]. destruct S as [X Y]. split; rewrite E; assumption.
Qed.

Section spent.
Context `{Env} `{Auth} (token : option string).

Notation keeps m := (preserves (on_db (both token)) m).

Lemma keeps_update {R} (t : Table R) `{!Tokenless t} id f : keeps (update t id f).
Proof. apply preserves_update. intros d r B _. exact (both_same _ _ _ (tokenless _ _) B). Qed.

Lemma tokens_create {R} (t : Table R) `{!Tokenless t} id r : keeps (create t id r).
Proof. apply preserves_create. intros d B _. exact (both_same _ _ _ (tokenless _ _) B). Qed.

(** Rows that are revoked. *)
Lemma both_revoke (p : RefreshToken.t -> bool) d : both token d ->
  both token (d <| Db.refreshToken ::= fmap (fun r => if p r then revoke r else r) |>).
Proof.
  intros [[I O] S].
  assert (T : forall r, RefreshToken.token (if p r then revoke r else r) = RefreshToken.token r) by (intros r; destruct (p r); reflexivity).
  split; [split|]; cbn.
  - intros k r. rewrite lookup_fmap_Some. intros (x & <- & E). rewrite <- (I k x E). destruct (p x); reflexivity.
  - intros k1 k2 r1 r2. rewrite !lookup_fmap_Some. intros (x1 & <- & E1) (x2 & <- & E2). rewrite !T. exact (O k1 k2 x1 x2 E1 E2).
  - destruct token as [tok|]; [|exact Logic.I]. destruct S as [(k & x & E & Q) Y]. split; cbn.
    + exists k, (if p x then revoke x else x). rewrite lookup_fmap, E. split; [reflexivity | rewrite T; exact Q].
    + intros k' r. rewrite lookup_fmap_Some. intros (y & <- & E') Q'. rewrite T in Q'. destruct (p y); [reflexivity | exact (Y k' y E' Q')].
Qed.

Lemma keeps_revokeMany p : keeps (updateMany prisma.refreshToken p revoke).
Proof. intros s B. rewrite updateMany_run. apply both_revoke, B. Qed.

Lemma both_revoke_one d k r : both token d -> Db.refreshToken d !! k = Some r ->
  both token (d <| Db.refreshToken ::= <[k := revoke r]> |>).
Proof.
  intros B E. assert (Q : <[k := revoke r]> (Db.refreshToken d) = fmap (fun x => if bool_decide (RefreshToken.id x = k) then revoke x else x) (Db.refreshToken d)).
  { apply map_eq. intros i. rewrite lookup_fmap. destruct (decide (i = k)) as [->|N].
    - rewrite lookup_insert_eq, E. cbn. rewrite bool_decide_eq_true_2; [reflexivity|]. exact (token_id _ (proj1 B) k r E).
    - rewrite lookup_insert_ne by congruence. destruct (Db.refreshToken d !! i) as [x|] eqn:Ei; [|reflexivity]. cbn.
      rewrite bool_decide_eq_false_2; [reflexivity|]. rewrite (token_id _ (proj1 B) i x Ei). exact N. }
  refine (both_same _ _ _ _ (both_revoke (fun x => bool_decide (RefreshToken.id x = k)) d B)). cbn. exact Q.
Qed.

Lemma keeps_revoke id : keeps (update prisma.refreshToken id revoke).
Proof. apply preserves_update. intros d r B E. exact (both_revoke_one d id r B E). Qed.

Lemma keeps_generate payload : keeps (generateTokens payload).
Proof.
  apply preserves_wp. intros s B. unfold generateTokens. apply wp_bind, wp_run. intros s1 j1 [= <- <-]. cbv beta iota zeta.
  apply wp_bind, wp_run. intros s2 j2 [= <- <-]. cbv beta iota. set (tok := jwt_sign REFRESH_TOKEN_SECRET _ _ _ _).
  apply wp_bind, wp_findFirst. intros o Eo. apply wp_bind, wp_throw_if; intros N; [exact B|]. apply bool_decide_eq_false in N.
  destruct o as [x|]; [contradiction N; eauto|].
  assert (F : forall k r, Db.refreshToken (St.db s) !! k = Some r -> RefreshToken.token r <> tok).
  { intros k r E Q. assert (In r (where_ prisma.refreshToken (hasToken tok) (St.db s))) by (apply where_elem; split; [apply bool_decide_eq_true, Q | eauto]).
    cbn in Eo. destruct (where_ _ _ _); [contradiction | discriminate Eo]. }
  apply wp_bind, wp_run. intros s3 id [= <- <-]. cbv beta iota. apply wp_bind, wp_create; [intros; exact B|]. intros Fid. apply wp_ret.
  destruct B as [[I O] S]. split; [split|]; cbn.
  - intros k r [[<- <-]|[_ E]]%lookup_insert_Some; [reflexivity | exact (I k r E)].
  - intros k1 k2 r1 r2 [[<- <-]|[N1 E1]]%lookup_insert_Some [[<- <-]|[N2 E2]]%lookup_insert_Some Q; [reflexivity | | |].
    + contradiction (F k2 r2 E2 (eq_sym Q)).
    + contradiction (F k1 r1 E1 Q).
    + exact (O k1 k2 r1 r2 E1 E2 Q).
  - destruct token as [t|]; [|exact Logic.I]. destruct S as [(k & x & E & Q) Y]. split; cbn.
    + exists k, x. split; [|exact Q]. rewrite lookup_insert_ne; [exact E|]. intros <-. cbn in Fid. congruence.
    + intros k' r [[<- <-]|[_ E']]%lookup_insert_Some Q'; [|exact (Y k' r E' Q')]. exfalso. apply (F k x E). cbn in Q'. congruence.
Qed.

Ltac keeps_step :=
  lazymatch goal with
  | |- preserves _ (update prisma.refreshToken _ revoke) => apply keeps_revoke
  | |- preserves _ (updateMany prisma.refreshToken _ revoke) => apply keeps_revokeMany
  | |- preserves _ (generateTokens _) => apply keeps_generate
  | |- preserves _ (tokensOf _) => apply keeps_generate
  | |- preserves _ (update _ _ _) => apply keeps_update; exact _
  | |- preserves _ (create _ _ _) => apply tokens_create; exact _
  | |- preserves _ (transaction _) => apply preserves_transaction
  | |- preserves _ (attempt _) => apply preserves_attempt
  | |- _ => preserve_step
  end.

Lemma keeps_code a : keeps (ensureUserReferralCode a).
Proof.
  assert (P : forall n, keeps (tryReferralCodes a n)).
  { induction n as [|n IH]; cbn [tryReferralCodes]; unfold generateReferralCode, writeReferralCode; repeat first [exact IH | keeps_step]. }
  unfold ensureUserReferralCode, ensureReferralCodeInternal. repeat first [apply P | keeps_step].
Qed.

Lemma keeps_attach a b : keeps (attachReferralCodeToUser a b).
Proof. unfold attachReferralCodeToUser, ensureReferralRecord, upsertReferral. cbv zeta. repeat keeps_step. Qed.

Ltac keeps_service :=
  repeat lazymatch goal with
         | |- preserves _ (ensureUserReferralCode _) => apply keeps_code
         | |- preserves _ (attachReferralCodeToUser _ _) => apply keeps_attach
         | |- preserves _ (createUser _ _ _) => unfold createUser; cbv zeta
         | |- _ => keeps_step
         end.

Lemma keeps_google a b : keeps (googleAuthService a b).
Proof. unfold googleAuthService. cbv zeta. keeps_service. Qed.

Lemma keeps_admin a b : keeps (temporaryAdminLoginService a b).
Proof. unfold temporaryAdminLoginService. cbv zeta. keeps_service. Qed.

Lemma keeps_signup a b c d : keeps (signupService a b c d).
Proof. unfold signupService. cbv zeta. keeps_service. Qed.

Lemma keeps_verify a b c : keeps (verifyOtpService a b c).
Proof. unfold verifyOtpService. cbv zeta. keeps_service. Qed.

Lemma keeps_refresh a : keeps (refreshTokenService a).
Proof. unfold refreshTokenService. keeps_service. Qed.

Lemma keeps_logout a : keeps (logoutService a).
Proof. unfold logoutService. keeps_service. Qed.
End spent.

(** ** A token is good for one renewal *)

Section once.
Context `{Env} `{Auth}.

Lemma refresh_spent token s : Spent token (St.db s) -> exists reason, refreshTokenService token s = (s, Ok (failure reason)).
Proof.
  intros [_ R].
  assert (W : wp (refreshTokenService token) (fun s' r => s' = s /\ exists reason, r = Ok (failure reason)) s).
  2: { unfold wp in W. destruct (refreshTokenService token s) as [s' r]. cbn [fst snd] in W. destruct W as [-> [reason ->]]. eauto. }
  unfold refreshTokenService. apply wp_try_catch. destruct (verifyRefreshToken token) as [decoded|e]; [|split; eauto].
  apply wp_bind, wp_findFirst. intros [r|] Eo; [|split; eauto]. exfalso.
  assert (I : In r (where_ prisma.refreshToken (fun r => hasToken token r && bool_decide (RefreshToken.userId r = DecodedToken.id decoded) &&
    negb (RefreshToken.revoked r)) (St.db s))) by (destruct (where_ _ _ _); [discriminate Eo | injection Eo as ->; left; reflexivity]).
  apply where_elem in I as [[[T%bool_decide_eq_true _]%andb_true_iff V]%andb_true_iff [k E]].
  rewrite (R k r E T) in V. discriminate V.
Qed.

Lemma refresh_spends token s : TokenInv (St.db s) ->
  wp (refreshTokenService token) (if_ok (fun s' r => AuthResult.success r = true -> both (Some token) (St.db s'))) s.
Proof.
  intros I. unfold refreshTokenService. apply wp_try_catch. destruct (verifyRefreshToken token) as [decoded|e]; [|intros E; discriminate E].
  apply wp_bind, wp_findFirst. intros [doc|] Eo; [|intros E; discriminate E].
  assert (D : In doc (where_ prisma.refreshToken (fun r => hasToken token r && bool_decide (RefreshToken.userId r = DecodedToken.id decoded) &&
    negb (RefreshToken.revoked r)) (St.db s))) by (destruct (where_ _ _ _); [discriminate Eo | injection Eo as ->; left; reflexivity]).
  apply where_elem in D as [[[T%bool_decide_eq_true _]%andb_true_iff _]%andb_true_iff [k Ek]]. cbn in Ek.
  pose proof (token_id _ I k doc Ek) as <-.
  apply wp_bind, wp_update; [intros N; cbn in N; congruence|]. intros x Ex. assert (x = doc) as -> by (cbn in Ex; congruence).
  set (s1 := s <| St.db ::= _ |>).
  assert (B : both (Some token) (St.db s1)).
  { destruct (both_revoke_one None (St.db s) _ doc (conj I Logic.I) Ek) as [I1 _]. split; [exact I1|]. split; cbn.
    - exists (RefreshToken.id doc), (revoke doc). rewrite lookup_insert_eq. auto.
    - intros k r [[<- <-]|[N E]]%lookup_insert_Some Q; [reflexivity|]. exfalso. apply N.
      apply (token_one _ I _ _ doc r Ek E). congruence. }
  apply wp_bind, wp_findUnique. intros [user|] _; [|intros E; discriminate E].
  apply wp_bind. eapply (wp_preserves (on_db (both (Some token)))); [apply keeps_generate | exact B|].
  intros s2 [tokens|e] B2; [intros _; exact B2 | intros E; discriminate E].
Qed.

Lemma logout_spends token s : TokenInv (St.db s) ->
  wp (logoutService token) (if_ok (fun s' r => AuthResult.success r = true -> both (Some token) (St.db s'))) s.
Proof.
  intros I. unfold logoutService. apply wp_try_catch, wp_bind, wp_run. intros s1 n. rewrite updateMany_run. intros [= <- <-]. cbv beta iota.
  apply wp_ret. cbn [if_ok]. destruct (where_ prisma.refreshToken (hasToken token) (St.db s)) as [|doc l] eqn:W; [intros E; discriminate E|].
  intros _. destruct (both_revoke None (hasToken token) (St.db s) (conj I Logic.I)) as [I1 _]. split; [exact I1|].
  assert (D : In doc (where_ prisma.refreshToken (hasToken token) (St.db s))) by (rewrite W; left; reflexivity).
  apply where_elem in D as [P [k Ek]]. cbn in Ek. split; cbn.
  - exists k, (revoke doc). rewrite lookup_fmap, Ek. cbn. rewrite P. split; [reflexivity | exact (bool_decide_eq_true_1 _ P)].
  - intros k' r. rewrite lookup_fmap_Some. intros (y & <- & E) Q. destruct (hasToken token y) eqn:Py; [reflexivity|].
    apply bool_decide_eq_false in Py. contradiction.
Qed.
End once.

Inductive AuthCall :=
| GoogleSignIn (idToken : string) (locale : option string)
| AdminSignIn (address password : string)
| SignUp (method : AuthMethod) (identifier : string) (referralCode locale : option string)
| VerifyCode (identifier : string) (purpose : OtpPurpose) (method : AuthMethod)
| Renew (refreshToken : string)
| LogOut (refreshToken : string)
| AskCode (identifier : string) (purpose : OtpPurpose) (method : AuthMethod)
| LogIn (method : AuthMethod) (identifier : string)
| RevokeToken (refreshToken : string).

Definition runAuth `{Env} `{Auth} (c : AuthCall) : H unit :=
  match c with
  | GoogleSignIn t l => googleAuthService t l;; mret tt
  | AdminSignIn a p => temporaryAdminLoginService a p;; mret tt
  | SignUp m i r l => signupService m i r l;; mret tt
  | VerifyCode i p m => verifyOtpService i p m;; mret tt
  | Renew t => refreshTokenService t;; mret tt
  | LogOut t => logoutService t;; mret tt
  | AskCode i p m => requestOtpService i p m;; mret tt
  | LogIn m i => loginService m i;; mret tt
  | RevokeToken t => revokeRefreshToken t
  end.

Inductive auth_step : St.t -> St.t -> Prop :=
| auth_call (env : Env) (auth : Auth) (c : AuthCall) (s : St.t) : auth_step s (runAuth c s).1.

Lemma auth_step_keeps token s s' : auth_step s s' -> both token (St.db s) -> both token (St.db s').
Proof.
  intros [env auth c x]. change (on_db (both token) x -> on_db (both token) (runAuth c x).1). revert x.
  change (preserves (on_db (both token)) (runAuth c)).
  destruct c; cbn [runAuth]; try (apply preserves_bind; [|intros; apply preserves_ret]).
  - apply keeps_google.
  - apply keeps_admin.
  - apply keeps_signup.
  - apply keeps_verify.
  - apply keeps_refresh.
  - apply keeps_logout.
  - unfold requestOtpService. preserve.
  - unfold loginService. preserve.
  - apply keeps_revokeMany.
Qed.

(** C28.  A refresh token that was exchanged or logged out is spent: after any sign-ins,
    renewals and logouts of anybody, presenting it again opens no session and changes
    nothing. *)
Theorem refresh_token_is_spent (env1 env2 : Env) (auth1 auth2 : Auth) (token : string) (s s1 s2 : St.t) (r : AuthResult.t) :
  TokenInv (St.db s) ->
  @refreshTokenService env1 auth1 token s = (s1, Ok r) \/ logoutService token s = (s1, Ok r) ->
  AuthResult.success r = true -> rtc auth_step s1 s2 ->
  exists reason, @refreshTokenService env2 auth2 token s2 = (s2, Ok (failure reason)).
Proof.
  intros I E T R.
  assert (B : both (Some token) (St.db s1)).
  { destruct E as [E|E].
    - pose proof (@refresh_spends env1 auth1 token s I) as W. unfold wp in W. rewrite E in W. exact (W T).
    - pose proof (logout_spends token s I) as W. unfold wp in W. rewrite E in W. exact (W T). }
  apply refresh_spent. assert (B2 : both (Some token) (St.db s2)); [|exact (proj2 B2)].
  clear E. induction R as [x|x y z S _ IH]; [exact B|]. apply IH. exact (auth_step_keeps _ _ _ S B).
Qed.

(** ** Concrete sessions *)

Definition demo_auth : Auth := {|
  jwt_sign := fun secret payload jti _ _ => secret +:+ ":" +:+ DecodedToken.id payload +:+ ":" +:+ jti;
  jwt_verify := fun _ _ _ => Ok {| DecodedToken.id := "u1"; DecodedToken.role := UserRole.USER |};
  env_ACCESS_TOKEN_SECRET := Some "access"; env_JWT_SECRET := None; env_REFRESH_TOKEN_SECRET := Some "refresh";
  GOOGLE_CLIENT_ID := None; verifyIdToken := fun _ _ => Ok None;
  TEMP_ADMIN_LOGIN_ENABLED := None; TEMP_ADMIN_LOGIN_EMAIL := None; TEMP_ADMIN_LOGIN_PASSWORD := None |}%string.
Definition demo_session_env : Env := demo_env 1000 no_failure.

(** A banned user who never verified the address. *)
Definition demo_account : St.t := St.Build_t (Db.empty
  <| Db.user := {["u1"%string := User.defaults "u1" 0 <| User.email := Some "mari@example.ee"%string |> <| User.isBanned := true |>]} |>) [] 0.

(** A code for a new password opens a session for an account that is banned and not
    verified; a code to log in does not, for want of the verification only. *)
Example reset_code_opens_session :
  AuthResult.success <$> (match (@verifyOtpService demo_session_env demo_auth "mari@example.ee" reset_password email demo_account).2 with Ok r => Some r | Err _ => None end) = Some true /\
  AuthResult.success <$> (match (@verifyOtpService demo_session_env demo_auth "mari@example.ee" login email demo_account).2 with Ok r => Some r | Err _ => None end) = Some false.
Proof. vm_compute. split; reflexivity. Qed.

Definition demo_signed_in : St.t := (@verifyOtpService demo_session_env demo_auth " Mari@Example.ee" signup email demo_account).1.
Definition demo_refresh_token : string :=
  default EmptyString (head (RefreshToken.token <$> (map_to_list (Db.refreshToken (St.db demo_signed_in))).*2)).
Definition demo_renewed : St.t * Res AuthResult.t := @refreshTokenService demo_session_env demo_auth demo_refresh_token demo_signed_in.

Lemma demo_tokens : TokenInv (St.db demo_signed_in).
Proof.
  assert (B : both None (St.db demo_signed_in)); [|exact (proj1 B)].
  refine (@keeps_verify demo_session_env demo_auth None " Mari@Example.ee"%string signup email demo_account _).
  split; [|exact Logic.I]. split; cbn.
  - intros k r E. rewrite lookup_empty in E. discriminate E.
  - intros k1 k2 r1 r2 E. rewrite lookup_empty in E. discriminate E.
Qed.

(** The token of a session is exchanged, its owner logs in again, and it is presented once more. *)
Lemma refresh_token_is_spent_witness : exists r reason,
  demo_renewed = (demo_renewed.1, Ok r) /\ AuthResult.success r = true /\
  let s2 := (@runAuth demo_session_env demo_auth (VerifyCode "mari@example.ee" login email) demo_renewed.1).1 in
  @refreshTokenService (demo_env 5000 no_failure) demo_auth demo_refresh_token s2 = (s2, Ok (failure reason)).
Proof.
  assert (E : exists r, demo_renewed = (demo_renewed.1, Ok r) /\ AuthResult.success r = true).
  { assert (E : match demo_renewed.2 with Ok r => AuthResult.success r | Err _ => false end = true) by (vm_compute; reflexivity).
    destruct demo_renewed as [s [r|e]]; [exists r; auto | discriminate E]. }
  destruct E as (r & E & T).
  destruct (refresh_token_is_spent demo_session_env (demo_env 5000 no_failure) demo_auth demo_auth demo_refresh_token demo_signed_in
    demo_renewed.1 _ r demo_tokens (or_introl E) T
    (rtc_once _ _ (@auth_call demo_session_env demo_auth (VerifyCode "mari@example.ee" login email) demo_renewed.1))) as [reason F].
  exists r, reason. auto.
Defined.
