(* ===== verification/Chat.v ===== *)
(** * Chat

    Models [modules/chat/chat.service.ts] and the synchronisation of a connecting client
    ([socket/index.ts]): the driver and the passengers of a trip write to each other while
    it is on.  A string is its UTF-8 text; [substring] counts UTF-16 units, and half of a
    pair of surrogates is stored as U+FFFD.  Ids are ASCII. *)

From Stdlib Require Import ZArith Lia.
From stdpp Require Import base list option strings gmap relations.
From S2P Require Import Prelude JsNumber JsText Schema Store Time Gateway ViewToken.

Open Scope Z_scope.

Module SendMessageInput.
Record t := {
  receiverId : string;
  text : option string;
  clientMsgId : string;
  bookingId : option string;
  type : option string;
  payloadJson : option Json;
}.
End SendMessageInput.

Module OpenedConversation.
Record t := {
  conversationId : string;
  chatAvailable : bool;
  peerId : string;
  bookingId : option string;
}.
End OpenedConversation.

Module ConversationListItem.
Record t := {
  id : string;
  peer : option User.t;
  lastMessage : option Message.t;
  unreadCount : Z;
  updatedAt : Z;
  chatAvailable : bool;
}.
End ConversationListItem.

Module ConversationPage.
Record t := { conversations : list ConversationListItem.t; nextCursor : option string; hasMore : bool }.
End ConversationPage.

Module MessagePage.
Record t := {
  messages : list Message.t;
  nextCursor : option string;
  hasMore : bool;
  chatAvailable : bool;
  peerId : string;
}.
End MessagePage.

(** ** Text *)

(** U+FFFD *)
Definition replacement : string := "�".

(** The first [units] UTF-16 units of a text: a character of four bytes takes two. *)
Fixpoint substring0 (units : nat) (s : string) : string :=
  match units, s with
  | O, _ | _, EmptyString => EmptyString
  | S n, String c rest =>
      let b := Ascii.N_of_ascii c in
      if (b <? 192)%N then String c (substring0 n rest)
      else if (b <? 224)%N then
        match rest with String c2 rest => String c (String c2 (substring0 n rest)) | EmptyString => String c EmptyString end
      else if (b <? 240)%N then
        match rest with
        | String c2 (String c3 rest) => String c (String c2 (String c3 (substring0 n rest)))
        | _ => String c rest
        end
      else
        match n with
        | O => replacement
        | S n =>
            match rest with
            | String c2 (String c3 (String c4 rest)) => String c (String c2 (String c3 (String c4 (substring0 n rest))))
            | _ => String c rest
            end
        end
  end.

Example substring_units :
  map (fun n => substring0 n "aé€😀b"%string) [0%nat; 2%nat; 3%nat; 4%nat; 5%nat; 9%nat] =
  [""; "aé"; "aé€"; "aé€�"; "aé€😀"; "aé€😀b"]%string.
Proof. vm_compute. reflexivity. Qed.

Definition getMessagePreview (type : string) (text : option string) : string :=
  if bool_decide (type = "IMAGE"%string) then match truthy text with Some t => "📷 " +:+ substring0 80 t | None => "📷 Image" end
  else if bool_decide (type = "LOCATION"%string) then match truthy text with Some t => "📍 " +:+ substring0 80 t | None => "📍 Location" end
  else if bool_decide (type = "FILE"%string) then match truthy text with Some t => "📎 " +:+ substring0 80 t | None => "📎 File" end
  else if bool_decide (type = "SYSTEM"%string) then match truthy text with Some t => substring0 100 t | None => "[System]" end
  else match truthy text with Some t => substring0 100 t | None => EmptyString end.

(** ** Who may write to whom *)

Definition normalizePair (id1 id2 : string) : string * string := if String.ltb id1 id2 then (id1, id2) else (id2, id1).

Definition CHAT_PRE_START_BOOKING_STATUSES : list BookingStatus.t := [BookingStatus.DRIVER_PENDING; BookingStatus.CONFIRMED].

Definition CHAT_RIDE_DAY_BOOKING_STATUSES : list BookingStatus.t :=
  [BookingStatus.WAITING_FOR_PICKUP; BookingStatus.DRIVER_ARRIVED; BookingStatus.OTP_PENDING; BookingStatus.IN_PROGRESS;
   BookingStatus.ONBOARD; BookingStatus.DROP_PENDING; BookingStatus.DRIVER_DROPPED; BookingStatus.COMPLETED].

Definition CHAT_CLOSED_RIDE_STATUSES : list RideStatus.t := [RideStatus.COMPLETED; RideStatus.CANCELLED; RideStatus.EXPIRED].

Definition isOpenRideSession (ride : Ride.t) : bool :=
  bool_decide (Ride.actualEndTime ride = None) && negb (bool_decide (Ride.status ride ∈ CHAT_CLOSED_RIDE_STATUSES)).

Definition isActiveRideSession (ride : Ride.t) : bool :=
  bool_decide (Ride.actualEndTime ride = None) && negb (bool_decide (Ride.status ride ∈ CHAT_CLOSED_RIDE_STATUSES)) &&
  (bool_decide (Ride.status ride = RideStatus.IN_PROGRESS) || bool_decide (is_Some (Ride.actualStartTime ride))).

Definition isChatAvailableForBooking (booking : RideBooking.t) (ride : Ride.t) : bool :=
  if bool_decide (RideBooking.status booking ∈ CHAT_PRE_START_BOOKING_STATUSES) then isActiveRideSession ride
  else if bool_decide (RideBooking.status booking ∈ CHAT_RIDE_DAY_BOOKING_STATUSES) then isOpenRideSession ride
  else false.

(** The condition of the query on bookings and their rides. *)
Definition chatBooking (d : Db.t) (userId1 userId2 : string) (b : RideBooking.t) : bool :=
  match Db.ride d !! RideBooking.rideId b with
  | None => false
  | Some ride =>
      let pair := bool_decide (RideBooking.passengerId b = userId1) && bool_decide (Ride.driverId ride = userId2) ||
                  bool_decide (RideBooking.passengerId b = userId2) && bool_decide (Ride.driverId ride = userId1) in
      bool_decide (RideBooking.status b ∈ CHAT_PRE_START_BOOKING_STATUSES) && pair && isActiveRideSession ride ||
      bool_decide (RideBooking.status b ∈ CHAT_RIDE_DAY_BOOKING_STATUSES) && pair && isOpenRideSession ride
  end.

Definition truthyJson (j : option Json) : bool :=
  match j with
  | None | Some JNull | Some (JBool false) | Some (JString EmptyString) => false
  | Some (JNumber n) => negb (neqb n (num_of_Z 0))
  | _ => true
  end.

(** [payloadJson?.key] *)
Definition payloadField (payload : option Json) (key : string) : option Json :=
  match payload with Some (JObject fields) => field fields key | _ => None end.

Definition isNumber (j : option Json) : bool := match j with Some (JNumber _) => true | _ => false end.

(** The database accepts the types of the schema only. *)
Definition MessageTypes : list string := ["TEXT"; "IMAGE"; "FILE"; "LOCATION"; "SYSTEM"]%string.

(** Between the ends of a pair. *)
Definition isParticipant (userId : string) (c : Conversation.t) : bool :=
  bool_decide (Conversation.userAId c = userId) || bool_decide (Conversation.userBId c = userId).
Definition peerOf (userId : string) (c : Conversation.t) : string :=
  if bool_decide (Conversation.userAId c = userId) then Conversation.userBId c else Conversation.userAId c.
Definition ofPair (userAId userBId : string) (c : Conversation.t) : bool :=
  bool_decide (Conversation.userAId c = userAId) && bool_decide (Conversation.userBId c = userBId).
Definition inConversation (conversationId : string) (m : Message.t) : bool := bool_decide (Message.conversationId m = conversationId).
Definition sentAs (senderId clientMsgId : string) (m : Message.t) : bool :=
  bool_decide (Message.senderId m = senderId) && bool_decide (Message.clientMsgId m = Some clientMsgId).

(** [orderBy: { createdAt: 'desc' }] *)
Definition newestFirst (l : list Message.t) : list Message.t := sort_desc Message.createdAt l.

(** [lastMsgAt] descending, the conversations without messages last. *)
Definition latestFirst (a b : Conversation.t) : bool :=
  match Conversation.lastMsgAt a, Conversation.lastMsgAt b with
  | Some x, Some y => y <=? x
  | _, None => true
  | None, Some _ => false
  end.

(** What follows the row of the cursor. *)
Fixpoint afterCursor (cursor : string) (l : list Conversation.t) : list Conversation.t :=
  match l with
  | [] => []
  | c :: l => if bool_decide (Conversation.id c = cursor) then l else afterCursor cursor l
  end.

Section chat.
Context `{Env}.

Definition getConversationChatContext (userId conversationId : string) : H (option Conversation.t) :=
  findById prisma.conversation conversationId (isParticipant userId).

Definition getBookingChatContext (bookingId : string) : H (option (RideBooking.t * Ride.t)) :=
  get (fun s =>
    b ← Db.rideBooking (St.db s) !! bookingId;
    r ← Db.ride (St.db s) !! RideBooking.rideId b;
    Some (b, r)).

(** One more than [limit]: the next page exists when it is there. *)
Definition getConversationMessages (conversationId : string) (cursor : option string) (limit : nat) : H (list Message.t) :=
  match truthy cursor with
  | Some cursor =>
      cursorRow ← findById prisma.message cursor (inConversation conversationId);
      match cursorRow with
      | None => mret []
      | Some row =>
          l ← findMany prisma.message (fun m => inConversation conversationId m && (Message.createdAt m <? Message.createdAt row));
          mret (take (S limit) (newestFirst l))
      end
  | None =>
      l ← findMany prisma.message (inConversation conversationId);
      mret (take (S limit) (newestFirst l))
  end.

Definition hasActiveRideChat (userId1 userId2 : string) : H bool :=
  get (fun s => negb (bool_decide (where_ prisma.rideBooking (chatBooking (St.db s) userId1 userId2) (St.db s) = []))).

Definition hasActiveRideChatForBooking (userId peerId bookingId : string) : H bool :=
  booking ← getBookingChatContext bookingId;
  mret match booking with
       | None => false
       | Some (b, ride) =>
           let isPassengerToDriver := bool_decide (RideBooking.passengerId b = userId) && bool_decide (Ride.driverId ride = peerId) in
           let isDriverToPassenger := bool_decide (Ride.driverId ride = userId) && bool_decide (RideBooking.passengerId b = peerId) in
           if negb isPassengerToDriver && negb isDriverToPassenger then false else isChatAvailableForBooking b ride
       end.

(** Users exist and pairs are unique. *)
Definition getOrCreateConversation (userId1 userId2 : string) : H Conversation.t :=
  let '(userAId, userBId) := normalizePair userId1 userId2 in
  conversation ← findFirst prisma.conversation (ofPair userAId userBId);
  match conversation with
  | Some c => mret c
  | None =>
      a ← findUnique prisma.user userAId;
      b ← findUnique prisma.user userBId;
      throw_if (negb (bool_decide (is_Some a) && bool_decide (is_Some b))) "P2003";;
      id ← randomUUID;
      create prisma.conversation id (Conversation.defaults id now <| Conversation.userAId := userAId |> <| Conversation.userBId := userBId |>)
  end.

Definition openConversation (userId receiverId : string) : H OpenedConversation.t :=
  throw_if (bool_decide (userId = receiverId)) "CANNOT_MESSAGE_SELF";;
  chatAvailable ← hasActiveRideChat userId receiverId;
  throw_if (negb chatAvailable) "CHAT_NOT_ACTIVE";;
  conversation ← getOrCreateConversation userId receiverId;
  mret {| OpenedConversation.conversationId := Conversation.id conversation; OpenedConversation.chatAvailable := chatAvailable;
          OpenedConversation.peerId := receiverId; OpenedConversation.bookingId := None |}.

Definition openBookingConversation (userId bookingId : string) : H OpenedConversation.t :=
  booking ← getBookingChatContext bookingId;
  match booking with
  | None => throw "BOOKING_NOT_FOUND"
  | Some (b, ride) =>
      match truthy (if bool_decide (userId = RideBooking.passengerId b) then Some (Ride.driverId ride)
                    else if bool_decide (userId = Ride.driverId ride) then Some (RideBooking.passengerId b) else None) with
      | None => throw "FORBIDDEN_BOOKING_PARTICIPANT"
      | Some peerId =>
          throw_if (negb (isChatAvailableForBooking b ride)) "CHAT_NOT_ACTIVE";;
          conversation ← getOrCreateConversation userId peerId;
          mret {| OpenedConversation.conversationId := Conversation.id conversation; OpenedConversation.chatAvailable := true;
                  OpenedConversation.peerId := peerId; OpenedConversation.bookingId := Some (RideBooking.id b) |}
      end
  end.

(** ** Messages *)

Definition sendMessage (senderId : string) (data : SendMessageInput.t) : H Message.t :=
  let receiverId := SendMessageInput.receiverId data in
  let text := SendMessageInput.text data in
  let type := default "TEXT"%string (SendMessageInput.type data) in
  let payloadJson := SendMessageInput.payloadJson data in
  throw_if (bool_decide (senderId = receiverId)) "CANNOT_MESSAGE_SELF";;
  canChat ← match truthy (SendMessageInput.bookingId data) with
            | Some bookingId => hasActiveRideChatForBooking senderId receiverId bookingId
            | None => hasActiveRideChat senderId receiverId
            end;
  throw_if (negb canChat) "CHAT_NOT_ACTIVE";;
  throw_if (bool_decide (type = "TEXT"%string) && bool_decide (truthy text = None)) "TEXT_REQUIRED";;
  throw_if (bool_decide (type = "IMAGE"%string) && negb (truthyJson (payloadField payloadJson "imageUrl"))) "IMAGE_URL_REQUIRED";;
  throw_if (bool_decide (type = "LOCATION"%string) &&
            negb (isNumber (payloadField payloadJson "latitude") && isNumber (payloadField payloadJson "longitude"))) "LOCATION_REQUIRED";;
  existingMsg ← match truthy (Some (SendMessageInput.clientMsgId data)) with
                | Some clientMsgId => findFirst prisma.message (sentAs senderId clientMsgId)
                | None => mret None
                end;
  match existingMsg with
  | Some existing => mret existing
  | None =>
      conversation ← getOrCreateConversation senderId receiverId;
      transaction (
        throw_if (negb (bool_decide (type ∈ MessageTypes))) "PrismaClientValidationError";;
        taken ← findFirst prisma.message (sentAs senderId (SendMessageInput.clientMsgId data));
        throw_if (bool_decide (is_Some taken)) "P2002";;
        id ← randomUUID;
        msg ← create prisma.message id (Message.defaults id now
          <| Message.conversationId := Conversation.id conversation |> <| Message.senderId := senderId |>
          <| Message.receiverId := receiverId |> <| Message.type := type |> <| Message.text := truthy text |>
          <| Message.payloadJson := if truthyJson payloadJson then payloadJson else None |>
          <| Message.clientMsgId := Some (SendMessageInput.clientMsgId data) |>);
        update prisma.conversation (Conversation.id conversation) (fun c =>
          c <| Conversation.lastMsgAt := Some (Message.createdAt msg) |>
            <| Conversation.lastMsgPreview := Some (getMessagePreview type text) |> <| Conversation.updatedAt := now |>);;
        mret msg)
  end.

(** The last row of a page that has a next one: the limit is positive. *)
Definition cursorOf {A} (id : A -> string) (hasMore : bool) (results : list A) : H (option string) :=
  if hasMore then match last results with Some r => mret (Some (id r)) | None => throw "TypeError" end else mret None.

Definition getMessages (userId conversationId : string) (cursor : option string) (limit : nat) (bookingId : option string) : H MessagePage.t :=
  conversation ← getConversationChatContext userId conversationId;
  match conversation with
  | None => throw "CONVERSATION_NOT_FOUND"
  | Some conversation =>
      messages ← getConversationMessages conversationId cursor limit;
      let hasMore := bool_decide (limit < length messages)%nat in
      let results := take limit messages in
      nextCursor ← cursorOf Message.id hasMore results;
      let peerId := peerOf userId conversation in
      chatAvailable ← match truthy bookingId with
                      | Some bookingId => hasActiveRideChatForBooking userId peerId bookingId
                      | None => hasActiveRideChat userId peerId
                      end;
      mret {| MessagePage.messages := results; MessagePage.nextCursor := nextCursor; MessagePage.hasMore := hasMore;
              MessagePage.chatAvailable := chatAvailable; MessagePage.peerId := peerId |}
  end.

Definition unread (userId : string) (m : Message.t) : bool :=
  bool_decide (Message.receiverId m = userId) && bool_decide (Message.readAt m = None).

(** An entry of the list, and its peer, last message and unread messages. *)
Definition listItem (d : Db.t) (userId : string) (c : Conversation.t) : ConversationListItem.t :=
  let peerId := peerOf userId c in
  {| ConversationListItem.id := Conversation.id c;
     ConversationListItem.peer := Db.user d !! peerId;
     ConversationListItem.lastMessage := head (newestFirst (where_ prisma.message (inConversation (Conversation.id c)) d));
     ConversationListItem.unreadCount :=
       Z.of_nat (length (where_ prisma.message (fun m => inConversation (Conversation.id c) m && unread userId m) d));
     ConversationListItem.updatedAt := Conversation.updatedAt c;
     ConversationListItem.chatAvailable := negb (bool_decide (where_ prisma.rideBooking (chatBooking d userId peerId) d = [])) |}.

Definition getConversations (userId : string) (cursor : option string) (limit : nat) : H ConversationPage.t :=
  all ← findMany prisma.conversation (isParticipant userId);
  let sorted := sort_le latestFirst all in
  let conversations := take (S limit) match truthy cursor with Some c => afterCursor c sorted | None => sorted end in
  let hasMore := bool_decide (limit < length conversations)%nat in
  let results := take limit conversations in
  nextCursor ← cursorOf Conversation.id hasMore results;
  items ← get (fun s => map (listItem (St.db s) userId) results);
  mret {| ConversationPage.conversations := items; ConversationPage.nextCursor := nextCursor; ConversationPage.hasMore := hasMore |}.

(** ** Receipts *)

Definition markMessagesDelivered (userId conversationId : string) : H unit :=
  updateMany prisma.message (fun m => inConversation conversationId m && bool_decide (Message.receiverId m = userId) &&
                                      bool_decide (Message.deliveredAt m = None))
    (fun m => m <| Message.deliveredAt := Some now |>);;
  mret tt.

Definition markMessagesRead (userId conversationId lastReadMessageId : string) : H unit :=
  lastReadMessage ← findById prisma.message lastReadMessageId (inConversation conversationId);
  match lastReadMessage with
  | None => throw "MESSAGE_NOT_FOUND"
  | Some lastRead =>
      updateMany prisma.message (fun m => inConversation conversationId m && unread userId m &&
                                          (Message.createdAt m <=? Message.createdAt lastRead))
        (fun m => m <| Message.readAt := Some now |> <| Message.deliveredAt := Some now |>);;
      mret tt
  end.

Definition getUnreadCount (userId : string) : H Z := get (fun s => Z.of_nat (length (where_ prisma.message (unread userId) (St.db s)))).

(** [since] is the time the client has, read by [new Date]. *)
Definition getMessagesSince (userId : string) (since : option Z) : H (list Message.t) :=
  l ← findMany prisma.message (fun m => bool_decide (Message.receiverId m = userId) &&
    match since with Some t => t <? Message.createdAt m | None => true end && bool_decide (Message.deliveredAt m = None));
  mret (take 100 (sort_by Message.createdAt l)).

(** A client connects: what is emitted to it as [chat:sync].  The order of the marks does
    not matter: the conversations are different. *)
Definition syncPending (userId : string) : H (list Message.t) :=
  pendingMessages ← getMessagesSince userId None;
  for_each (remove_dups (map Message.conversationId pendingMessages)) (markMessagesDelivered userId);;
  mret pendingMessages.
End chat.
