(* ===== verification/ChatSafe.v ===== *)
(** * The chat is between the people of a trip

    The invariant of conversations and messages, kept by every operation of [Chat], what
    sending requires and stores, and the pages of a conversation. *)

From Stdlib Require Import ZArith Lia Sorted.
From stdpp Require Import base list option strings gmap relations.
From S2P Require Import Prelude JsNumber JsText Schema Store Time Gateway Chat.

Open Scope Z_scope.

(** ** Pairs *)

Lemma ltb_asym a b : String.ltb a b = true -> String.ltb b a = false.
Proof. unfold String.ltb. rewrite (String.compare_antisym b a). destruct (String.compare a b); cbn; congruence. Qed.

Lemma normalizePair_sym a b : normalizePair a b = normalizePair b a.
Proof.
  unfold normalizePair. destruct (String.ltb a b) eqn:E1, (String.ltb b a) eqn:E2; try reflexivity.
  - rewrite (ltb_asym a b E1) in E2. discriminate E2.
  - unfold String.ltb in *. rewrite (String.compare_antisym b a) in E2.
    destruct (String.compare a b) eqn:E; cbn in *; try discriminate. apply String.compare_eq_iff in E. subst. reflexivity.
Qed.

Lemma normalizePair_in a b x y : normalizePair a b = (x, y) -> x = a /\ y = b \/ x = b /\ y = a.
Proof. unfold normalizePair. destruct (String.ltb a b); intros [= <- <-]; auto. Qed.

(** ** The invariant *)

Record ChatInv (d : Db.t) : Prop := {
  conv_id : forall k c, Db.conversation d !! k = Some c -> Conversation.id c = k;
  conv_pair : forall k1 k2 c1 c2, Db.conversation d !! k1 = Some c1 -> Db.conversation d !! k2 = Some c2 ->
    normalizePair (Conversation.userAId c1) (Conversation.userBId c1) = normalizePair (Conversation.userAId c2) (Conversation.userBId c2) -> k1 = k2;
  conv_order : forall k c, Db.conversation d !! k = Some c ->
    normalizePair (Conversation.userAId c) (Conversation.userBId c) = (Conversation.userAId c, Conversation.userBId c);
  msg_id : forall k m, Db.message d !! k = Some m -> Message.id m = k;
  msg_conv : forall k m, Db.message d !! k = Some m -> exists c, Db.conversation d !! Message.conversationId m = Some c /\
    normalizePair (Message.senderId m) (Message.receiverId m) = (Conversation.userAId c, Conversation.userBId c);
  msg_once : forall k1 k2 m1 m2, Db.message d !! k1 = Some m1 -> Db.message d !! k2 = Some m2 ->
    Message.senderId m1 = Message.senderId m2 -> Message.clientMsgId m1 = Message.clientMsgId m2 -> is_Some (Message.clientMsgId m1) -> k1 = k2;
  msg_read : forall k m, Db.message d !! k = Some m -> is_Some (Message.readAt m) -> is_Some (Message.deliveredAt m);
}.

Lemma normalizePair_idem a b : normalizePair (normalizePair a b).1 (normalizePair a b).2 = normalizePair a b.
Proof.
  unfold normalizePair at 2 3 4. destruct (String.ltb a b) eqn:E; cbn [fst snd].
  - unfold normalizePair. rewrite E. reflexivity.
  - rewrite normalizePair_sym. unfold normalizePair. rewrite E. reflexivity.
Qed.

(** A change of the receipts only. *)
Record receipts (f : Message.t -> Message.t) : Prop := {
  rc_id : forall m, Message.id (f m) = Message.id m;
  rc_conv : forall m, Message.conversationId (f m) = Message.conversationId m;
  rc_sender : forall m, Message.senderId (f m) = Message.senderId m;
  rc_receiver : forall m, Message.receiverId (f m) = Message.receiverId m;
  rc_client : forall m, Message.clientMsgId (f m) = Message.clientMsgId m;
  rc_read : forall m, (is_Some (Message.readAt m) -> is_Some (Message.deliveredAt m)) ->
    is_Some (Message.readAt (f m)) -> is_Some (Message.deliveredAt (f m));
}.

Lemma receipts_if (p : Message.t -> bool) f : receipts f -> receipts (fun m => if p m then f m else m).
Proof. intros [A B C D E F]. split; intros m; destruct (p m); auto. Qed.

Lemma inv_receipts f d : receipts f -> ChatInv d -> ChatInv (with_rows prisma.message (fmap f) d).
Proof.
  intros [A B C D E F] [I1 I2 I3 I4 I5 I6 I7]. split; cbn; try assumption.
  - intros k m. rewrite lookup_fmap_Some. intros (x & <- & X). rewrite A. eauto.
  - intros k m. rewrite lookup_fmap_Some. intros (x & <- & X). rewrite B, C, D. eauto.
  - intros k1 k2 m1 m2. rewrite !lookup_fmap_Some. intros (x & <- & X) (y & <- & Y). rewrite !C, !E. eauto.
  - intros k m. rewrite lookup_fmap_Some. intros (x & <- & X). apply F. eauto.
Qed.

Lemma inv_conversation d id c : ChatInv d -> Db.conversation d !! id = None -> Conversation.id c = id ->
  normalizePair (Conversation.userAId c) (Conversation.userBId c) = (Conversation.userAId c, Conversation.userBId c) ->
  (forall k x, Db.conversation d !! k = Some x -> ofPair (Conversation.userAId c) (Conversation.userBId c) x = false) ->
  ChatInv (with_rows prisma.conversation <[id := c]> d).
Proof.
  intros [I1 I2 I3 I4 I5 I6 I7] N E O F.
  assert (G : forall k x, Db.conversation d !! k = Some x ->
    normalizePair (Conversation.userAId x) (Conversation.userBId x) <> normalizePair (Conversation.userAId c) (Conversation.userBId c)).
  { intros k x X Q. rewrite (I3 k x X), O in Q. injection Q as Q1 Q2. specialize (F k x X). unfold ofPair in F.
    rewrite !bool_decide_eq_true_2 in F by assumption. discriminate F. }
  split; cbn; try assumption.
  - intros k x [[<- <-]|[_ X]]%lookup_insert_Some; eauto.
  - intros k1 k2 x1 x2 [[<- <-]|[_ X1]]%lookup_insert_Some [[<- <-]|[_ X2]]%lookup_insert_Some Q; eauto.
    + contradiction (G k2 x2 X2 (eq_sym Q)).
    + contradiction (G k1 x1 X1 Q).
  - intros k x [[<- <-]|[_ X]]%lookup_insert_Some; eauto.
  - intros k m M. destruct (I5 k m M) as (x & X & Q). exists x. rewrite lookup_insert_ne; [auto | congruence].
Qed.

Lemma inv_last d id c f : ChatInv d -> Db.conversation d !! id = Some c ->
  Conversation.id (f c) = Conversation.id c -> Conversation.userAId (f c) = Conversation.userAId c -> Conversation.userBId (f c) = Conversation.userBId c ->
  ChatInv (with_rows prisma.conversation <[id := f c]> d).
Proof.
  intros [I1 I2 I3 I4 I5 I6 I7] E Ei Ea Eb.
  assert (L : forall k x, <[id := f c]> (Db.conversation d) !! k = Some x -> exists y, Db.conversation d !! k = Some y /\
    Conversation.id x = Conversation.id y /\ Conversation.userAId x = Conversation.userAId y /\ Conversation.userBId x = Conversation.userBId y).
  { intros k x [[<- <-]|[_ X]]%lookup_insert_Some; eauto 6. }
  split; cbn; try assumption.
  - intros k x X. destruct (L k x X) as (y & Y & -> & _). eauto.
  - intros k1 k2 x1 x2 X1 X2. destruct (L k1 x1 X1) as (y1 & Y1 & _ & -> & ->), (L k2 x2 X2) as (y2 & Y2 & _ & -> & ->). eauto.
  - intros k x X. destruct (L k x X) as (y & Y & _ & -> & ->). eauto.
  - intros k m M. destruct (I5 k m M) as (x & X & Q). destruct (decide (Message.conversationId m = id)) as [<-|N].
    + exists (f c). rewrite lookup_insert_eq, Ea, Eb. replace c with x by congruence. auto.
    + exists x. rewrite lookup_insert_ne by congruence. auto.
Qed.

Lemma inv_message d id m c : ChatInv d -> Db.message d !! id = None -> Message.id m = id -> Message.readAt m = None ->
  Db.conversation d !! Message.conversationId m = Some c ->
  normalizePair (Message.senderId m) (Message.receiverId m) = (Conversation.userAId c, Conversation.userBId c) ->
  (forall k x, Db.message d !! k = Some x -> Message.senderId x = Message.senderId m -> Message.clientMsgId x <> Message.clientMsgId m) ->
  ChatInv (with_rows prisma.message <[id := m]> d).
Proof.
  intros [I1 I2 I3 I4 I5 I6 I7] N E R C P F. split; cbn; try assumption.
  - intros k x [[<- <-]|[_ X]]%lookup_insert_Some; eauto.
  - intros k x [[<- <-]|[_ X]]%lookup_insert_Some; eauto.
  - intros k1 k2 x1 x2 [[<- <-]|[_ X1]]%lookup_insert_Some [[<- <-]|[_ X2]]%lookup_insert_Some S Q; eauto.
    + contradiction (F k2 x2 X2 (eq_sym S) (eq_sym Q)).
    + contradiction (F k1 x1 X1 S Q).
  - intros k x [[<- <-]|[_ X]]%lookup_insert_Some; eauto. rewrite R. intros [? [=]].
Qed.

(** ** The operations *)

Section operations.
Context `{Env}.

Lemma get_or_create a b s : ChatInv (St.db s) ->
  wp (getOrCreateConversation a b) (fun s' r =>
    ChatInv (St.db s') /\ Db.message (St.db s') = Db.message (St.db s) /\
    if_ok (fun s' c => Db.conversation (St.db s') !! Conversation.id c = Some c /\
                       normalizePair a b = (Conversation.userAId c, Conversation.userBId c)) s' r) s.
Proof.
  intros I. unfold getOrCreateConversation. destruct (normalizePair a b) as [x y] eqn:P.
  apply wp_bind, wp_findFirst. intros [c|] E; apply head_where in E.
  - destruct E as [[<-%bool_decide_eq_true <-%bool_decide_eq_true]%andb_true_iff [k E]]. apply wp_ret. cbn. cbn in E.
    pose proof (conv_id _ I k c E) as <-. auto.
  - apply wp_bind, wp_findUnique. intros o1 _. apply wp_bind, wp_findUnique. intros o2 _.
    apply wp_bind, wp_throw_if; intros _; [cbn; auto|]. apply wp_bind, wp_run. intros s1 id [= <- <-]. cbv beta iota.
    apply wp_create; [intros o _; cbn; auto|]. intros N. cbn in N. cbn.
    split; [|split; [reflexivity|]].
    + apply inv_conversation; try assumption; try reflexivity. cbn.
      pose proof (normalizePair_idem a b) as Q. rewrite P in Q. exact Q.
    + rewrite lookup_insert_eq. auto.
Qed.

(** A booking of a trip that is on, between the two. *)
Definition TripIsOn (d : Db.t) (a b : string) : Prop :=
  exists k booking ride, Db.rideBooking d !! k = Some booking /\ Db.ride d !! RideBooking.rideId booking = Some ride /\
    (RideBooking.passengerId booking = a /\ Ride.driverId ride = b \/ RideBooking.passengerId booking = b /\ Ride.driverId ride = a) /\
    isChatAvailableForBooking booking ride = true.

Lemma statuses_apart b : bool_decide (b ∈ CHAT_PRE_START_BOOKING_STATUSES) = true -> bool_decide (b ∈ CHAT_RIDE_DAY_BOOKING_STATUSES) = false.
Proof. destruct b; reflexivity || (intros E; vm_compute in E; discriminate E). Qed.

Lemma chatBooking_trip d a b k x : Db.rideBooking d !! k = Some x -> chatBooking d a b x = true -> TripIsOn d a b.
Proof.
  unfold chatBooking. intros E. destruct (Db.ride d !! RideBooking.rideId x) as [ride|] eqn:R; [|discriminate]. cbv zeta. intros T.
  exists k, x, ride. split; [exact E|]. split; [exact R|]. unfold isChatAvailableForBooking.
  destruct (bool_decide (RideBooking.passengerId x = a) && bool_decide (Ride.driverId ride = b) ||
            bool_decide (RideBooking.passengerId x = b) && bool_decide (Ride.driverId ride = a)) eqn:P;
    [|rewrite !andb_false_r in T; discriminate T].
  split.
  - apply orb_true_iff in P as [[P%bool_decide_eq_true Q%bool_decide_eq_true]%andb_true_iff|[P%bool_decide_eq_true Q%bool_decide_eq_true]%andb_true_iff]; auto.
  - rewrite !andb_true_r in T. destruct (bool_decide (_ ∈ CHAT_PRE_START_BOOKING_STATUSES)) eqn:S.
    + rewrite (statuses_apart _ S) in T. rewrite orb_false_r in T. exact T.
    + rewrite andb_false_l, orb_false_l in T. destruct (bool_decide (_ ∈ CHAT_RIDE_DAY_BOOKING_STATUSES)); [exact T | discriminate T].
Qed.

Lemma can_chat a b s : wp (hasActiveRideChat a b) (fun s' r => s' = s /\ exists x, r = Ok x /\ (x = true -> TripIsOn (St.db s) a b)) s.
Proof.
  apply wp_get. split; [reflexivity|]. eexists. split; [reflexivity|]. intros N%negb_true_iff%bool_decide_eq_false.
  destruct (where_ _ _ _) as [|x l] eqn:W; [contradiction|].
  assert (I : In x (where_ prisma.rideBooking (chatBooking (St.db s) a b) (St.db s))) by (rewrite W; left; reflexivity).
  apply where_elem in I as [P [k E]]. exact (chatBooking_trip _ _ _ k x E P).
Qed.

Lemma can_chat_booking a b id s :
  wp (hasActiveRideChatForBooking a b id) (fun s' r => s' = s /\ exists x, r = Ok x /\ (x = true -> TripIsOn (St.db s) a b)) s.
Proof.
  unfold hasActiveRideChatForBooking, getBookingChatContext. apply wp_bind, wp_get, wp_ret. split; [reflexivity|]. eexists. split; [reflexivity|].
  destruct (Db.rideBooking (St.db s) !! id) as [x|] eqn:E; cbn; [|discriminate].
  destruct (Db.ride (St.db s) !! RideBooking.rideId x) as [ride|] eqn:R; cbn; [|discriminate].
  destruct (negb _ && negb _) eqn:P; [discriminate|]. intros T. exists id, x, ride. repeat (split; [assumption|]). split; [|exact T].
  apply andb_false_iff in P as [P|P]; apply negb_false_iff, andb_true_iff in P as [P%bool_decide_eq_true Q%bool_decide_eq_true]; auto.
Qed.

(** What sending leaves behind. *)
Definition Stored (senderId : string) (data : SendMessageInput.t) (m : Message.t) (d d' : Db.t) : Prop :=
  Db.message d !! Message.id m = None /\ Db.message d' = <[Message.id m := m]> (Db.message d) /\
  Message.receiverId m = SendMessageInput.receiverId data /\ Message.text m = truthy (SendMessageInput.text data) /\
  Message.createdAt m = now /\ Message.deliveredAt m = None /\ Message.readAt m = None /\
  (forall k x, Db.message d !! k = Some x -> Message.senderId x = senderId -> Message.clientMsgId x <> Some (SendMessageInput.clientMsgId data)) /\
  exists c, Db.conversation d' !! Message.conversationId m = Some c /\
    normalizePair senderId (SendMessageInput.receiverId data) = (Conversation.userAId c, Conversation.userBId c) /\
    Conversation.lastMsgAt c = Some now /\
    Conversation.lastMsgPreview c = Some (getMessagePreview (Message.type m) (SendMessageInput.text data)).

Definition Sent (senderId : string) (data : SendMessageInput.t) (s s' : St.t) (r : Res Message.t) : Prop :=
  match r with
  | Err _ => Db.message (St.db s') = Db.message (St.db s)
  | Ok m =>
      TripIsOn (St.db s) senderId (SendMessageInput.receiverId data) /\
      Message.senderId m = senderId /\ Message.clientMsgId m = Some (SendMessageInput.clientMsgId data) /\
      (s' = s /\ Db.message (St.db s) !! Message.id m = Some m \/ Stored senderId data m (St.db s) (St.db s'))
  end.

Lemma sentAs_true a b m : sentAs a b m = true <-> Message.senderId m = a /\ Message.clientMsgId m = Some b.
Proof. unfold sentAs. rewrite andb_true_iff, !bool_decide_eq_true. reflexivity. Qed.

Lemma truthy_ne (a b : string) : truthy (Some a) = Some b -> a = b.
Proof. destruct a; cbn; congruence. Qed.

(** The transaction. *)
Lemma store_spec senderId data c s0 s : ChatInv (St.db s) -> Db.message (St.db s) = Db.message (St.db s0) ->
  TripIsOn (St.db s0) senderId (SendMessageInput.receiverId data) ->
  Db.conversation (St.db s) !! Conversation.id c = Some c ->
  normalizePair senderId (SendMessageInput.receiverId data) = (Conversation.userAId c, Conversation.userBId c) ->
  wp (transaction (
        throw_if (negb (bool_decide (default "TEXT"%string (SendMessageInput.type data) ∈ MessageTypes))) "PrismaClientValidationError";;
        taken ← findFirst prisma.message (sentAs senderId (SendMessageInput.clientMsgId data));
        throw_if (bool_decide (is_Some taken)) "P2002";;
        id ← randomUUID;
        msg ← create prisma.message id (Message.defaults id now
          <| Message.conversationId := Conversation.id c |> <| Message.senderId := senderId |>
          <| Message.receiverId := SendMessageInput.receiverId data |> <| Message.type := default "TEXT"%string (SendMessageInput.type data) |>
          <| Message.text := truthy (SendMessageInput.text data) |>
          <| Message.payloadJson := if truthyJson (SendMessageInput.payloadJson data) then SendMessageInput.payloadJson data else None |>
          <| Message.clientMsgId := Some (SendMessageInput.clientMsgId data) |>);
        update prisma.conversation (Conversation.id c) (fun c =>
          c <| Conversation.lastMsgAt := Some (Message.createdAt msg) |>
            <| Conversation.lastMsgPreview := Some (getMessagePreview (default "TEXT"%string (SendMessageInput.type data)) (SendMessageInput.text data)) |>
            <| Conversation.updatedAt := now |>);;
        mret msg))
    (fun s' r => ChatInv (St.db s') /\ Sent senderId data s0 s' r) s.
Proof.
  intros I M T C P. apply wp_transaction, wp_bind, wp_throw_if; intros _; [exact (conj I M)|].
  apply wp_bind, wp_findFirst. intros taken E. apply head_where in E.
  apply wp_bind, wp_throw_if; intros N; [exact (conj I M)|]. apply bool_decide_eq_false in N.
  destruct taken as [x|]; [contradiction N; eauto|].
  assert (F : forall k x, Db.message (St.db s0) !! k = Some x -> Message.senderId x = senderId ->
    Message.clientMsgId x <> Some (SendMessageInput.clientMsgId data)).
  { intros k x X Q1 Q2. rewrite <- M in X. specialize (E k x X). rewrite (proj2 (sentAs_true _ _ x)) in E by auto. discriminate E. }
  apply wp_bind, wp_run. intros s1 id [= <- <-]. cbv beta iota. set (id := uuid (St.seq s)).
  apply wp_bind, wp_create; [intros o _; cbn; auto|]. intros Fr. cbn in Fr. cbv beta iota.
  set (m := setf _ _ _). set (s2 := s <| St.seq ::= S |> <| St.db ::= with_rows prisma.message <[id := m]> |>).
  assert (I2 : ChatInv (St.db s2)).
  { apply inv_message with c; try assumption; try reflexivity. cbn. intros k x X. rewrite M in X. exact (F k x X). }
  apply wp_bind, wp_update; [intros N'; cbn in N'; congruence|]. intros c' C'. assert (c' = c) as -> by (cbn in C'; congruence).
  apply wp_ret. cbn [Sent].
  split; [eapply (inv_last (St.db s2) (Conversation.id c) c (fun c => c <| Conversation.lastMsgAt := Some (Message.createdAt m) |>
    <| Conversation.lastMsgPreview := Some (getMessagePreview (default "TEXT"%string (SendMessageInput.type data)) (SendMessageInput.text data)) |>
    <| Conversation.updatedAt := now |>) I2 C'); reflexivity|].
  split; [exact T|]. split; [reflexivity|]. split; [reflexivity|]. right. rewrite M in Fr.
  split; [exact Fr|]. split; [cbn; rewrite M; reflexivity|]. do 5 (split; [reflexivity|]). split; [exact F|].
  eexists. split; [cbn; apply lookup_insert_eq|]. split; [exact P|]. split; reflexivity.
Qed.

Lemma send_spec senderId data s : ChatInv (St.db s) ->
  wp (sendMessage senderId data) (fun s' r => ChatInv (St.db s') /\ Sent senderId data s s' r) s.
Proof.
  intros I. unfold sendMessage. cbv zeta. set (type := default "TEXT"%string (SendMessageInput.type data)).
  assert (R : forall e, ChatInv (St.db s) /\ Sent senderId data s s (Err e)) by (intros; split; [exact I | reflexivity]).
  apply wp_bind, wp_throw_if; intros _; [apply R|].
  apply wp_bind. eapply (wp_mono _ (fun s' r => s' = s /\ exists x, r = Ok x /\ (x = true -> TripIsOn (St.db s) senderId (SendMessageInput.receiverId data)))).
  { destruct (truthy (SendMessageInput.bookingId data)); [apply can_chat_booking | apply can_chat]. }
  intros s' r [-> (x & -> & T)]. cbv beta iota.
  apply wp_bind, wp_throw_if; intros N; [apply R|]. apply negb_false_iff in N. specialize (T N).
  do 3 (apply wp_bind, wp_throw_if; intros _; [apply R|]).
  apply wp_bind. apply (wp_mono _ (fun s' r => s' = s /\ exists o, r = Ok o /\
    forall m, o = Some m -> Db.message (St.db s) !! Message.id m = Some m /\ Message.senderId m = senderId /\
                            Message.clientMsgId m = Some (SendMessageInput.clientMsgId data))).
  { destruct (truthy (Some (SendMessageInput.clientMsgId data))) as [client|] eqn:Cl.
    - apply truthy_ne in Cl as <-. apply wp_findFirst. intros o E. apply head_where in E. split; [reflexivity|]. exists o.
      split; [reflexivity|]. intros m ->. destruct E as [[Es Ec]%sentAs_true [k Ek]]. cbn in Ek. rewrite (msg_id _ I k m Ek). auto.
    - apply wp_ret. split; [reflexivity|]. exists None. split; [reflexivity|]. discriminate. }
  intros s' r [-> (o & -> & K)]. cbv beta iota. destruct o as [m|].
  - destruct (K m eq_refl) as (Em & Es & Ec). apply wp_ret. split; [exact I|]. cbn [Sent]. repeat (split; [assumption|]). left. auto.
  - apply wp_bind. eapply wp_mono; [exact (get_or_create _ _ s I)|]. intros s1 r (I1 & M1 & C). destruct r as [c|e]; cbv beta iota; [|exact (conj I1 M1)].
    cbn [if_ok] in C. destruct C as [C1 C2]. apply store_spec; assumption.
Qed.

Lemma keeps_getOrCreate a b : preserves (on_db ChatInv) (getOrCreateConversation a b).
Proof. apply preserves_wp. intros s I. eapply wp_mono; [exact (get_or_create a b s I)|]. intros s' r (I' & _). exact I'. Qed.

Lemma keeps_send a b : preserves (on_db ChatInv) (sendMessage a b).
Proof. apply preserves_wp. intros s I. eapply wp_mono; [exact (send_spec a b s I)|]. intros s' r (I' & _). exact I'. Qed.

Lemma keeps_receipts p f : receipts f -> preserves (on_db ChatInv) (updateMany prisma.message p f).
Proof. intros R. apply preserves_updateMany. intros d. apply inv_receipts, receipts_if, R. Qed.

Lemma keeps_delivered a b : preserves (on_db ChatInv) (markMessagesDelivered a b).
Proof.
  apply preserves_bind; [|intros; apply preserves_ret]. apply keeps_receipts. split; intros m; try reflexivity. cbn. eauto.
Qed.

Lemma keeps_markRead a b c : preserves (on_db ChatInv) (markMessagesRead a b c).
Proof.
  unfold markMessagesRead. preserve. apply keeps_receipts. split; intros m; try reflexivity. cbn. eauto.
Qed.
End operations.

(** ** Pages *)

Section pages.
Context {A : Type} (key : A -> Z).

(** Sorting and filtering commute. *)
Lemma insert_by_filter p x l : StronglySorted (fun a b => key a <= key b) l ->
  List.filter p (insert_by key x l) = if p x then insert_by key x (List.filter p l) else List.filter p l.
Proof.
  induction l as [|y l IH]; cbn; intros S; [destruct (p x); reflexivity|]. apply StronglySorted_inv in S as [S F].
  destruct (key x <=? key y) eqn:E; cbn.
  - destruct (p x) eqn:Px; [|reflexivity]. cbn. destruct (p y); cbn; [rewrite E; reflexivity|].
    destruct (List.filter p l) as [|z m] eqn:W; [reflexivity|]. cbn.
    assert (I : In z l) by (apply (filter_In p); rewrite W; left; reflexivity).
    rewrite (proj2 (Z.leb_le _ _)); [reflexivity|]. apply Z.leb_le in E. rewrite Forall_forall in F. specialize (F z). rewrite list_elem_of_In in F.
    specialize (F I). lia.
  - rewrite IH by exact S. destruct (p y) eqn:Py, (p x); cbn; try rewrite E; reflexivity.
Qed.

Lemma insert_by_sorted x l : StronglySorted (fun a b => key a <= key b) l -> StronglySorted (fun a b => key a <= key b) (insert_by key x l).
Proof.
  induction l as [|y l IH]; cbn; intros S; [repeat constructor|]. pose proof S as S'. apply StronglySorted_inv in S' as [S' F].
  destruct (key x <=? key y) eqn:E.
  - apply Z.leb_le in E. constructor; [exact S|]. constructor; [exact E|]. eapply Forall_impl; [exact F|]. cbn. lia.
  - apply Z.leb_gt in E. constructor; [apply IH, S'|]. rewrite insert_by_perm. constructor; [lia | exact F].
Qed.

Lemma sort_by_sorted l : StronglySorted (fun a b => key a <= key b) (sort_by key l).
Proof. induction l as [|x l IH]; cbn; [constructor | apply insert_by_sorted, IH]. Qed.

Lemma sort_by_filter p l : sort_by key (List.filter p l) = List.filter p (sort_by key l).
Proof.
  induction l as [|x l IH]; [reflexivity|]. change (sort_by key (x :: l)) with (insert_by key x (sort_by key l)).
  rewrite insert_by_filter by apply sort_by_sorted. rewrite <- IH. cbn. destruct (p x); reflexivity.
Qed.

(** Up to an element of a sorted list nothing is past it. *)
Lemma past_before pre m suf : StronglySorted (fun a b => key a <= key b) (pre ++ m :: suf) ->
  List.filter (fun x => key m <? key x) (pre ++ m :: suf) = List.filter (fun x => key m <? key x) suf.
Proof.
  intros S. assert (E1 : List.filter (fun x => key m <? key x) pre = []).
  { induction pre as [|y pre IH]; [reflexivity|]. cbn in S. apply StronglySorted_inv in S as [S F]. cbn.
    rewrite Forall_forall in F. specialize (F m). rewrite list_elem_of_In, in_app_iff in F. cbn in F.
    rewrite (proj2 (Z.ltb_ge _ _)) by (apply F; auto). apply IH, S. }
  rewrite List.filter_app, E1. cbn. rewrite Z.ltb_irrefl. reflexivity.
Qed.

Lemma sorted_after pre m suf x : StronglySorted (fun a b => key a <= key b) (pre ++ m :: suf) -> In x suf -> key m <= key x.
Proof.
  intros S I. induction pre as [|y pre IH]; cbn in S; apply StronglySorted_inv in S as [S F]; [|auto].
  rewrite Forall_forall in F. apply F, list_elem_of_In, I.
Qed.

(** Without ties everything behind it is. *)
Lemma past_element pre m suf : StronglySorted (fun a b => key a <= key b) (pre ++ m :: suf) ->
  (forall a b, In a (pre ++ m :: suf) -> In b (pre ++ m :: suf) -> key a = key b -> a = b) -> NoDup (pre ++ m :: suf) ->
  List.filter (fun x => key m <? key x) suf = suf.
Proof.
  intros S U N. apply NoDup_app in N as (_ & _ & [Nm _]%NoDup_cons).
  assert (L : forall x, In x suf -> key m < key x).
  { intros x I. pose proof (sorted_after pre m suf x S I) as Le.
    destruct (decide (key m = key x)) as [Q|Q]; [|lia]. exfalso. apply Nm. rewrite (U m x); rewrite ?in_app_iff; cbn; auto. apply list_elem_of_In, I. }
  clear - L. induction suf as [|x suf IH]; [reflexivity|]. cbn. rewrite (proj2 (Z.ltb_lt _ _)) by (apply L; left; reflexivity).
  f_equal. apply IH. intros y I. apply L. right. exact I.
Qed.

Lemma filter_sublist (q : A -> bool) l : sublist (List.filter q l) l.
Proof. induction l as [|x l IH]; cbn; [constructor|]. destruct (q x); constructor; exact IH. Qed.

Lemma sorted_filter q l : StronglySorted (fun a b => key a <= key b) l -> StronglySorted (fun a b => key a <= key b) (List.filter q l).
Proof.
  induction 1 as [|x l S IH F]; cbn; [constructor|]. destruct (q x); [|exact IH]. constructor; [exact IH|].
  rewrite Forall_forall in F |- *. intros y Hy%list_elem_of_In. apply filter_In in Hy as [Hy _]. apply F, list_elem_of_In, Hy.
Qed.

(** Past an element of what is past another. *)
Lemma past_past t m l : t <= key m ->
  List.filter (fun x => key m <? key x) (List.filter (fun x => t <? key x) l) = List.filter (fun x => key m <? key x) l.
Proof.
  intros Lt. induction l as [|x l IH]; [reflexivity|]. cbn. destruct (Z.ltb_spec t (key x)); cbn; rewrite IH; [reflexivity|].
  rewrite (proj2 (Z.ltb_ge _ _)) by lia. reflexivity.
Qed.
End pages.

(** A client follows [nextCursor] to the end. *)
Fixpoint allPages (fuel : nat) (userId conversationId : string) (cursor : option string) (limit : nat) (bookingId : option string) : H (list Message.t) :=
  match fuel with
  | O => throw "OUT_OF_FUEL"
  | S fuel =>
      page ← getMessages userId conversationId cursor limit bookingId;
      match MessagePage.nextCursor page with
      | None => mret (MessagePage.messages page)
      | Some c =>
          rest ← allPages fuel userId conversationId (Some c) limit bookingId;
          mret (MessagePage.messages page ++ rest)
      end
  end.

Section walk.
Context (s : St.t) (userId conversationId : string) (c : Conversation.t) (limit : nat) (bookingId : option string).
Context (I : ChatInv (St.db s)) (C : Db.conversation (St.db s) !! conversationId = Some c) (P : isParticipant userId c = true).
Context (Ids : Db.message (St.db s) !! EmptyString = None).

Let all := newestFirst (where_ prisma.message (inConversation conversationId) (St.db s)).

(** What is left behind a cursor: the messages strictly older than its message. *)
Definition older (m x : Message.t) : bool := - Message.createdAt m <? - Message.createdAt x.
Definition left_at (cursor : option string) (l : list Message.t) : Prop :=
  (cursor = None /\ l = all) \/
  exists m, In m all /\ cursor = Some (Message.id m) /\ l = List.filter (older m) all.

Lemma all_in m : In m all <-> exists k, Db.message (St.db s) !! k = Some m /\ Message.conversationId m = conversationId.
Proof.
  assert (E : all ≡ₚ where_ prisma.message (inConversation conversationId) (St.db s)) by apply sort_by_perm.
  rewrite <- list_elem_of_In, E, list_elem_of_In, where_elem. unfold inConversation. rewrite bool_decide_eq_true.
  split; [intros (Q & k & K) | intros (k & K & Q)]; eauto.
Qed.

Lemma all_nodup : NoDup all.
Proof.
  assert (E : all ≡ₚ where_ prisma.message (inConversation conversationId) (St.db s)) by apply sort_by_perm.
  rewrite E. apply (NoDup_fmap_1 Message.id). apply where_nodup. exact (msg_id _ I).
Qed.

Lemma messages_run cursor l : left_at cursor l ->
  getConversationMessages conversationId cursor limit s = (s, Ok (take (S limit) l)).
Proof.
  intros [[-> ->]|(m & M & -> & ->)].
  - unfold getConversationMessages. cbn [truthy]. unfold findMany, get. rewrite bind_run. reflexivity.
  - apply all_in in M as (k & M & Q). pose proof (msg_id _ I k m M) as Ek. unfold getConversationMessages.
    assert (T : truthy (Some (Message.id m)) = Some (Message.id m)).
    { destruct (Message.id m) eqn:Em; [|reflexivity]. rewrite <- Ek in M. congruence. }
    rewrite T. run_with (findById_run prisma.message (Message.id m) (inConversation conversationId) s m); [rewrite Ek; exact M | apply bool_decide_eq_true, Q |].
    unfold findMany, get. rewrite bind_run. cbn [fst snd].
    assert (F : where_ prisma.message (fun x => inConversation conversationId x && (Message.createdAt x <? Message.createdAt m)) (St.db s)
              = List.filter (older m) (where_ prisma.message (inConversation conversationId) (St.db s))).
    { unfold where_. induction (map_to_list _).*2 as [|x l IH]; [reflexivity|]. cbn [List.filter].
      assert (Eb : older m x = (Message.createdAt x <? Message.createdAt m)).
      { unfold older. destruct (Z.ltb_spec (Message.createdAt x) (Message.createdAt m)), (Z.ltb_spec (- Message.createdAt m) (- Message.createdAt x)); reflexivity || lia. }
      destruct (inConversation conversationId x); cbn [List.filter andb]; rewrite ?Eb, IH; reflexivity. }
    rewrite F. unfold newestFirst, sort_desc. rewrite sort_by_filter. reflexivity.
Qed.
End walk.

Section cover.
Context (s : St.t) (userId conversationId : string) (c : Conversation.t) (limit : nat) (bookingId : option string).
Context (I : ChatInv (St.db s)) (C : Db.conversation (St.db s) !! conversationId = Some c) (P : isParticipant userId c = true).
Context (Ids : Db.message (St.db s) !! EmptyString = None) (Pos : (0 < limit)%nat).

Let all := newestFirst (where_ prisma.message (inConversation conversationId) (St.db s)).

Lemma page_run suf cursor : left_at s conversationId cursor suf ->
  exists page, getMessages userId conversationId cursor limit bookingId s = (s, Ok page) /\ MessagePage.messages page = take limit suf /\
    if bool_decide (limit < length suf)%nat then exists m, last (take limit suf) = Some m /\ MessagePage.nextCursor page = Some (Message.id m)
    else MessagePage.nextCursor page = None.
Proof.
  intros K. unfold getMessages, getConversationChatContext.
  rewrite (bind_Ok _ _ s s (Some c)) by (apply findById_run; assumption). cbv beta iota.
  rewrite (bind_Ok _ _ s s (take (S limit) suf)) by (apply messages_run; assumption). cbv beta iota.
  assert (B : bool_decide (limit < length (take (S limit) suf))%nat = bool_decide (limit < length suf)%nat)
    by (apply bool_decide_ext; rewrite length_take; lia).
  rewrite B, take_take, (Nat.min_l limit (S limit)) by lia. clear B.
  assert (Q : exists o, cursorOf Message.id (bool_decide (limit < length suf)%nat) (take limit suf) s = (s, Ok o) /\
    if bool_decide (limit < length suf)%nat then exists m, last (take limit suf) = Some m /\ o = Some (Message.id m) else o = None).
  { unfold cursorOf. case_bool_decide as L; [|eexists; split; reflexivity]. destruct (last (take limit suf)) as [m|] eqn:La.
    - eexists. split; [reflexivity|]. eauto.
    - apply last_None in La. apply (f_equal length) in La. rewrite length_take in La. cbn in La. lia. }
  destruct Q as (o & Q & N). rewrite (bind_Ok _ _ s s o Q). cbv beta iota.
  assert (G : exists b, match truthy bookingId with
    | Some bookingId => hasActiveRideChatForBooking userId (peerOf userId c) bookingId
    | None => hasActiveRideChat userId (peerOf userId c) end s = (s, Ok b)) by (destruct (truthy bookingId); eexists; reflexivity).
  destruct G as [b G]. rewrite (bind_Ok _ _ s s b G). eexists. split; [reflexivity|]. split; [reflexivity | exact N].
Qed.

(** What the pages show of the messages left: in their order, one of every time, and all of
    them when the times are different. *)
Definition covers (shown l : list Message.t) : Prop :=
  sublist shown l /\ (forall m, In m l -> exists m', In m' shown /\ Message.createdAt m' = Message.createdAt m) /\
  ((forall a b, In a l -> In b l -> Message.createdAt a = Message.createdAt b -> a = b) -> shown = l).

Lemma covers_all l : covers l l.
Proof. split; [reflexivity|]. split; [intros m M; exists m; auto | reflexivity]. Qed.

(** A page, and what is shown of the messages older than its last. *)
Lemma covers_page pre m suf shown : StronglySorted (fun a b => - Message.createdAt a <= - Message.createdAt b) (pre ++ m :: suf) ->
  NoDup (pre ++ m :: suf) -> covers shown (List.filter (older m) (pre ++ m :: suf)) ->
  covers ((pre ++ [m]) ++ shown) (pre ++ m :: suf).
Proof.
  intros S N (Sb & Cv & Eq). pose proof (past_before (fun x => - Message.createdAt x) pre m suf S) as B.
  change (List.filter (older m) (pre ++ m :: suf) = List.filter (older m) suf) in B. rewrite B in Sb, Cv, Eq.
  rewrite <- app_assoc. cbn [app]. split; [|split].
  - apply sublist_app; [reflexivity|]. apply sublist_skip. etrans; [exact Sb | apply filter_sublist].
  - intros x [X|[<-|X]]%in_app_iff; [exists x; rewrite in_app_iff; auto | exists m; rewrite in_app_iff; cbn; auto |].
    pose proof (sorted_after (fun x => - Message.createdAt x) pre m suf x S X) as Le. cbn in Le.
    destruct (decide (Message.createdAt x = Message.createdAt m)) as [Q|Q]; [exists m; rewrite in_app_iff; cbn; auto|].
    destruct (Cv x) as (x' & X' & T); [|exists x'; rewrite in_app_iff; cbn; auto].
    apply filter_In. split; [exact X | apply Z.ltb_lt; lia].
  - intros U. do 2 f_equal.
    assert (Pe : List.filter (older m) suf = suf).
    { apply (past_element (fun x => - Message.createdAt x) pre m suf S); [|exact N]. intros a b Ia Ib Q. apply U; [assumption..|lia]. }
    rewrite Pe in Eq. apply Eq. intros a b Ia Ib. apply U; rewrite in_app_iff; cbn; auto.
Qed.

Lemma left_sorted cursor l : left_at s conversationId cursor l ->
  StronglySorted (fun a b => - Message.createdAt a <= - Message.createdAt b) l /\ NoDup l.
Proof.
  assert (S : StronglySorted (fun a b => - Message.createdAt a <= - Message.createdAt b) all) by apply (sort_by_sorted (fun m => - Message.createdAt m)).
  pose proof (all_nodup s conversationId I) as N. intros [[_ ->]|(m & _ & _ & ->)]; [split; assumption|].
  split; [apply (sorted_filter (fun m => - Message.createdAt m)), S | eapply sublist_NoDup; [exact N | apply filter_sublist]].
Qed.

(** The messages left behind the last one of a page. *)
Lemma left_next cursor l m : left_at s conversationId cursor l -> In m l ->
  left_at s conversationId (Some (Message.id m)) (List.filter (older m) l).
Proof.
  intros [[_ ->]|(m0 & M0 & _ & ->)] M; right; exists m; [auto|]. apply filter_In in M as [M Lt%Z.ltb_lt]. split; [exact M|].
  split; [reflexivity|]. apply (past_past (fun x => - Message.createdAt x) (- Message.createdAt m0) m). lia.
Qed.

Lemma walk_run fuel : forall cursor l, left_at s conversationId cursor l -> (length l < fuel)%nat ->
  exists shown, allPages fuel userId conversationId cursor limit bookingId s = (s, Ok shown) /\ covers shown l.
Proof.
  induction fuel as [|fuel IH]; intros cursor l K L; [lia|]. cbn [allPages].
  destruct (page_run l cursor K) as (page & R & M & N). rewrite (bind_Ok _ _ s s page R). cbv beta iota. rewrite M.
  case_bool_decide as B.
  2: { rewrite N. exists (take limit l). split; [reflexivity|]. rewrite take_ge by lia. apply covers_all. }
  destruct N as (m & La & ->). apply last_Some in La as [pre La].
  assert (El : l = pre ++ m :: drop limit l) by (rewrite <- (take_drop limit l) at 1; rewrite La, <- app_assoc; reflexivity).
  assert (Im : In m l) by (rewrite El, in_app_iff; cbn; auto).
  destruct (left_sorted cursor l K) as [S Nd]. pose proof (left_next cursor l m K Im) as K'.
  destruct (IH _ _ K') as (shown & R' & Cv).
  { pose proof (past_before (fun x => - Message.createdAt x) pre m (drop limit l)) as B'. rewrite <- El in B'. specialize (B' S).
    change (List.filter (older m) l = List.filter (older m) (drop limit l)) in B'. rewrite B'.
    pose proof (sublist_length _ _ (filter_sublist (older m) (drop limit l))). rewrite length_drop in *. lia. }
  rewrite (bind_Ok _ _ s s shown R'). rewrite La. eexists. split; [reflexivity|].
  pose proof (covers_page pre m (drop limit l) shown) as Cp. rewrite <- El in Cp. exact (Cp S Nd Cv).
Qed.
End cover.

(** ** What users can rely on *)

Inductive ChatCall :=
| OpenChat (userId receiverId : string)
| OpenBookingChat (userId bookingId : string)
| ListChats (userId : string) (cursor : option string) (limit : nat)
| Send (senderId : string) (data : SendMessageInput.t)
| ReadPage (userId conversationId : string) (cursor : option string) (limit : nat) (bookingId : option string)
| MarkDelivered (userId conversationId : string)
| MarkRead (userId conversationId lastReadMessageId : string)
| CountUnread (userId : string)
| Sync (userId : string).

Definition runChat `{Env} (call : ChatCall) : H unit :=
  match call with
  | OpenChat u r => openConversation u r;; mret tt
  | OpenBookingChat u b => openBookingConversation u b;; mret tt
  | ListChats u c l => getConversations u c l;; mret tt
  | Send u d => sendMessage u d;; mret tt
  | ReadPage u k c l b => getMessages u k c l b;; mret tt
  | MarkDelivered u k => markMessagesDelivered u k
  | MarkRead u k m => markMessagesRead u k m
  | CountUnread u => getUnreadCount u;; mret tt
  | Sync u => syncPending u;; mret tt
  end.

(** Between the calls the rest of the backend changes everything but the chat. *)
Inductive chat_step : St.t -> St.t -> Prop :=
| chat_call (env : Env) (call : ChatCall) (s : St.t) : chat_step s (runChat call s).1
| chat_elsewhere (s s' : St.t) : Db.conversation (St.db s') = Db.conversation (St.db s) ->
    Db.message (St.db s') = Db.message (St.db s) -> chat_step s s'.

Lemma inv_ext d d' : Db.conversation d' = Db.conversation d -> Db.message d' = Db.message d -> ChatInv d -> ChatInv d'.
Proof. intros E1 E2 [I1 I2 I3 I4 I5 I6 I7]. split; rewrite ?E1, ?E2; assumption. Qed.

Ltac chat_keep :=
  repeat lazymatch goal with
         | |- preserves _ (getOrCreateConversation _ _) => apply keeps_getOrCreate
         | |- preserves _ (sendMessage _ _) => apply keeps_send
         | |- preserves _ (markMessagesDelivered _ _) => apply keeps_delivered
         | |- preserves _ (markMessagesRead _ _ _) => apply keeps_markRead
         | |- _ => preserve_step
         end.

Lemma chat_step_keeps s s' : chat_step s s' -> ChatInv (St.db s) -> ChatInv (St.db s').
Proof.
  intros [env call x|x y E1 E2]; [|apply inv_ext; assumption].
  change (on_db ChatInv x -> on_db ChatInv (runChat call x).1). revert x. change (preserves (on_db ChatInv) (runChat call)).
  destruct call; cbn [runChat]; unfold openConversation, openBookingConversation, getConversations, getMessages, getConversationChatContext,
    getConversationMessages, hasActiveRideChat, hasActiveRideChatForBooking, getBookingChatContext, getUnreadCount, syncPending, getMessagesSince, cursorOf;
    cbv zeta; chat_keep.
Qed.

Lemma chat_run_keeps s s' : rtc chat_step s s' -> ChatInv (St.db s) -> ChatInv (St.db s').
Proof. induction 1 as [x|x y z S _ IH]; [auto|]. intros I. apply IH. exact (chat_step_keeps x y S I). Qed.

(** C25.  The chat is private, whatever the backend does: a page of messages shows only what the
    reader and the peer of the conversation wrote to each other, two people share at most
    one conversation, a client's message is stored once and what is read was delivered. *)
Theorem chat_is_private (s0 s s' : St.t) (userId conversationId : string) (cursor : option string) (limit : nat)
  (bookingId : option string) (page : MessagePage.t) :
  ChatInv (St.db s0) -> rtc chat_step s0 s ->
  getMessages userId conversationId cursor limit bookingId s = (s', Ok page) ->
  ChatInv (St.db s) /\ s' = s /\
  forall m, In m (MessagePage.messages page) -> Message.conversationId m = conversationId /\
    (Message.senderId m = userId /\ Message.receiverId m = MessagePage.peerId page \/
     Message.receiverId m = userId /\ Message.senderId m = MessagePage.peerId page).
Proof.
  intros I0 R E. pose proof (chat_run_keeps s0 s R I0) as I. split; [exact I|].
  assert (W : wp (getMessages userId conversationId cursor limit bookingId) (fun s' r => s' = s /\
    match r with Err _ => True | Ok page => forall m, In m (MessagePage.messages page) -> Message.conversationId m = conversationId /\
      (Message.senderId m = userId /\ Message.receiverId m = MessagePage.peerId page \/
       Message.receiverId m = userId /\ Message.senderId m = MessagePage.peerId page) end) s).
  2: { unfold wp in W. rewrite E in W. exact W. }
  unfold getMessages, getConversationChatContext. apply wp_bind, wp_findById; [intros _; apply wp_throw; auto|]. intros c C P. cbn in C. cbv beta iota.
  apply wp_bind. apply (wp_mono _ (fun s' r => s' = s /\ exists l, r = Ok l /\ forall m, In m l -> exists k, Db.message (St.db s) !! k = Some m /\
    Message.conversationId m = conversationId)).
  { assert (G : forall p l, l = where_ prisma.message (fun m => inConversation conversationId m && p m) (St.db s) ->
      forall m, In m (take (S limit) (newestFirst l)) -> exists k, Db.message (St.db s) !! k = Some m /\ Message.conversationId m = conversationId).
    { intros p l -> m M%in_take. unfold newestFirst, sort_desc in M. rewrite <- list_elem_of_In, sort_by_perm, list_elem_of_In, where_elem in M.
      destruct M as [[M%bool_decide_eq_true _]%andb_true_iff [k K]]. eauto. }
    unfold getConversationMessages. destruct (truthy cursor) as [cur|].
    - apply wp_bind, wp_findById; [intros _; apply wp_ret; split; [reflexivity|]; exists []; split; [reflexivity | intros m []]|].
      intros row _ _. cbv beta iota. apply wp_bind, wp_get, wp_ret. split; [reflexivity|]. eexists. split; [reflexivity|]. apply G with (p := fun m => Message.createdAt m <? Message.createdAt row). reflexivity.
    - apply wp_bind, wp_get, wp_ret. split; [reflexivity|]. eexists. split; [reflexivity|]. apply G with (p := fun _ => true).
      unfold where_. apply filter_ext. intros m. rewrite andb_true_r. reflexivity. }
  intros s1 r [-> (l & -> & L)]. cbv beta iota. apply wp_bind. unfold cursorOf.
  set (page0 := take limit l). apply (wp_mono _ (fun s' _ => s' = s)).
  { destruct (bool_decide _); [destruct (last page0)|]; reflexivity. }
  intros s1 [o|e] ->; cbv beta iota; [|auto]. apply wp_bind. apply (wp_mono _ (fun s' _ => s' = s)); [destruct (truthy bookingId); reflexivity|].
  intros s1 [b|e] ->; cbv beta iota; [|auto]. apply wp_ret. split; [reflexivity|]. cbn. intros m M%in_take. destruct (L m M) as (k & K & Q). split; [exact Q|].
  destruct (msg_conv _ I k m K) as (c' & C' & Pa). rewrite Q, C in C'. injection C' as <-. apply normalizePair_in in Pa as [[E1 E2]|[E1 E2]]; unfold peerOf;
    unfold isParticipant in P; rewrite E1, E2 in *; case_bool_decide; subst; auto; apply bool_decide_eq_true in P; auto.
Qed.

(** C26.  A message needs a trip: it is stored only when the sender and the receiver are the
    passenger and the driver of a booking whose trip is on, once per id the client gave it,
    as the latest of their conversation; whatever is refused stores nothing. *)
Theorem message_needs_a_trip (env : Env) (senderId : string) (data : SendMessageInput.t) (s s' : St.t) (r : Res Message.t) :
  ChatInv (St.db s) -> sendMessage senderId data s = (s', r) -> ChatInv (St.db s') /\ Sent senderId data s s' r.
Proof. intros I E. pose proof (send_spec senderId data s I) as W. unfold wp in W. rewrite E in W. exact W. Qed.

(** C27.  The pages of a conversation cover it: a participant who follows the cursors comes
    to the end, and receives messages of the conversation, the newest first and none twice.
    A message is left out only when one sent in the same millisecond is shown; when no two
    were, every message is received. *)
Theorem pages_cover_conversation (s : St.t) (userId conversationId : string) (c : Conversation.t) (limit fuel : nat) (bookingId : option string) :
  ChatInv (St.db s) -> Db.conversation (St.db s) !! conversationId = Some c -> isParticipant userId c = true ->
  Db.message (St.db s) !! EmptyString = None -> (0 < limit)%nat ->
  let all := newestFirst (where_ prisma.message (inConversation conversationId) (St.db s)) in
  (length all < fuel)%nat ->
  StronglySorted (fun a b => Message.createdAt b <= Message.createdAt a) all /\ NoDup all /\
  exists shown, allPages fuel userId conversationId None limit bookingId s = (s, Ok shown) /\ sublist shown all /\
    (forall m, In m all -> exists m', In m' shown /\ Message.createdAt m' = Message.createdAt m) /\
    ((forall a b, In a all -> In b all -> Message.createdAt a = Message.createdAt b -> a = b) -> shown = all).
Proof.
  intros I C P Ids Pos all F. split; [|split; [apply all_nodup; exact I|]].
  - eapply StronglySorted_ind with (P := fun l => StronglySorted (fun a b => Message.createdAt b <= Message.createdAt a) l);
      [constructor | | apply (sort_by_sorted (fun m => - Message.createdAt m))].
    intros m l _ S Fm. constructor; [exact S|]. eapply Forall_impl; [exact Fm|]. cbn. lia.
  - apply (walk_run s userId conversationId c limit bookingId I C P Ids Pos fuel None all); [left; split; reflexivity | exact F].
Qed.

(** ** A conversation *)

Definition demo_chat : St.t := St.Build_t (Db.empty
  <| Db.user := {["d1"%string := User.defaults "d1" 0; "p1"%string := User.defaults "p1" 0]} |>
  <| Db.ride := {["r1"%string := Ride.defaults "r1" 0 <| Ride.driverId := "d1"%string |> <| Ride.status := RideStatus.IN_PROGRESS |>]} |>
  <| Db.rideBooking := {["b1"%string := RideBooking.defaults "b1" 0 <| RideBooking.rideId := "r1"%string |>
       <| RideBooking.passengerId := "p1"%string |> <| RideBooking.status := BookingStatus.ONBOARD |>]} |>) [] 0.

Definition demo_text (to text id : string) : SendMessageInput.t := {|
  SendMessageInput.receiverId := to; SendMessageInput.text := Some text; SendMessageInput.clientMsgId := id;
  SendMessageInput.bookingId := None; SendMessageInput.type := None; SendMessageInput.payloadJson := None |}.

Definition demo_say (t : Z) (from to text id : string) (s : St.t) : St.t * Res Message.t :=
  @sendMessage (demo_env t no_failure) from (demo_text to text id) s.

(** Three messages, the second resent. *)
Definition demo_talk : St.t :=
  let s1 := (demo_say 1000 "p1" "d1" "At the corner" "m1" demo_chat).1 in
  let s2 := (demo_say 2000 "d1" "p1" "I see you" "m1" s1).1 in
  let s3 := (demo_say 2500 "d1" "p1" "I see you" "m1" s2).1 in
  (demo_say 3000 "p1" "d1" "Coming" "m2" s3).1.
Definition demo_conversation : string := "id".

Lemma demo_chat_inv : ChatInv (St.db demo_chat).
Proof. split; cbn; intros * E; rewrite lookup_empty in E; discriminate E. Qed.

Lemma demo_talk_run : rtc chat_step demo_chat demo_talk.
Proof.
  eapply rtc_l; [exact (@chat_call (demo_env 1000 no_failure) (Send "p1" (demo_text "d1" "At the corner" "m1")) demo_chat)|].
  eapply rtc_l; [exact (@chat_call (demo_env 2000 no_failure) (Send "d1" (demo_text "p1" "I see you" "m1")) _)|].
  eapply rtc_l; [exact (@chat_call (demo_env 2500 no_failure) (Send "d1" (demo_text "p1" "I see you" "m1")) _)|].
  eapply rtc_l; [exact (@chat_call (demo_env 3000 no_failure) (Send "p1" (demo_text "d1" "Coming" "m2")) _)|].
  vm_compute. apply rtc_refl.
Qed.

Lemma demo_talk_inv : ChatInv (St.db demo_talk).
Proof. exact (chat_run_keeps demo_chat demo_talk demo_talk_run demo_chat_inv). Qed.

Example demo_texts :
  (match (getMessages "d1" demo_conversation None 2 None demo_talk).2 with
   | Ok p => Some (map Message.text (MessagePage.messages p), MessagePage.hasMore p) | Err _ => None end)
  = Some ([Some "Coming"; Some "I see you"]%string, true).
Proof. vm_compute. reflexivity. Qed.

(** A stranger is refused. *)
Example strangers_cannot_write : (demo_say 4000 "x" "d1" "Hello" "m9" demo_talk).2 = Err "CHAT_NOT_ACTIVE"%string.
Proof. vm_compute. reflexivity. Qed.

Lemma chat_is_private_witness : exists page,
  getMessages "d1" demo_conversation None 2 None demo_talk = (demo_talk, Ok page) /\ length (MessagePage.messages page) = 2%nat /\
  forall m, In m (MessagePage.messages page) -> Message.conversationId m = demo_conversation /\
    (Message.senderId m = "d1"%string /\ Message.receiverId m = MessagePage.peerId page \/
     Message.receiverId m = "d1"%string /\ Message.senderId m = MessagePage.peerId page).
Proof.
  assert (E : exists page, (getMessages "d1" demo_conversation None 2 None demo_talk).2 = Ok page /\ length (MessagePage.messages page) = 2%nat)
    by (eexists; split; vm_compute; reflexivity).
  destruct E as (page & E & L). exists page.
  destruct (getMessages "d1" demo_conversation None 2 None demo_talk) as [s' r] eqn:G. cbn in E. subst r.
  destruct (chat_is_private demo_chat demo_talk s' "d1" demo_conversation None 2 None page demo_chat_inv demo_talk_run G) as (_ & -> & K).
  auto.
Defined.

Lemma message_needs_a_trip_witness :
  let r := demo_say 4000 "p1" "d1" "Thanks" "m3" demo_talk in
  r.2 <> Err "CHAT_NOT_ACTIVE"%string /\ ChatInv (St.db r.1) /\
  @Sent (demo_env 4000 no_failure) "p1" (demo_text "d1" "Thanks" "m3") demo_talk r.1 r.2.
Proof.
  intros r. split; [intros E; vm_compute in E; discriminate E|].
  apply (message_needs_a_trip (demo_env 4000 no_failure) "p1" (demo_text "d1" "Thanks" "m3") demo_talk r.1 r.2).
  - exact demo_talk_inv.
  - unfold r, demo_say. destruct (@sendMessage _ _ _ demo_talk). reflexivity.
Defined.

Lemma pages_cover_conversation_witness :
  let all := newestFirst (where_ prisma.message (inConversation demo_conversation) (St.db demo_talk)) in
  allPages 10 "p1" demo_conversation None 1 None demo_talk = (demo_talk, Ok all) /\ length all = 3%nat.
Proof.
  intros all. assert (L : length all = 3%nat) by (vm_compute; reflexivity).
  assert (P : match Db.conversation (St.db demo_talk) !! demo_conversation with Some c => isParticipant "p1" c | None => false end = true)
    by (vm_compute; reflexivity).
  assert (Ids : Db.message (St.db demo_talk) !! EmptyString = None) by (vm_compute; reflexivity).
  split; [|exact L].
  destruct (Db.conversation (St.db demo_talk) !! demo_conversation) as [c|] eqn:C; [|discriminate P].
  pose proof (fun A B => pages_cover_conversation demo_talk "p1" demo_conversation c 1 10 None demo_talk_inv C P Ids A B) as T.
  cbv zeta in T. fold all in T. rewrite L in T. destruct T as (_ & _ & shown & R & _ & _ & E); [lia | lia |].
  rewrite <- E; [exact R|]. clear E R. assert (Ts : map Message.createdAt all = [3000; 2000; 1000]) by (vm_compute; reflexivity).
  clearbody all. destruct all as [|x [|y [|z [|? ?]]]]; try discriminate L. injection Ts as Tx Ty Tz.
  intros a b [<-|[<-|[<-|[]]]] [<-|[<-|[<-|[]]]] Q; congruence.
Defined.

(** A client with more than a hundred messages pending receives a hundred of them when it
    connects, and the rest counts as delivered. *)
Definition demo_backlog : St.t := St.Build_t (Db.empty
  <| Db.message := list_to_map (map (fun n => let id := demo_uuid n in (id, Message.defaults id (Z.of_nat n)
       <| Message.conversationId := "c1"%string |> <| Message.senderId := "p1"%string |> <| Message.receiverId := "d1"%string |>)) (seq 0 101)) |>) [] 0.

Example backlog_is_lost :
  let r := @syncPending (demo_env 5000 no_failure) "d1" demo_backlog in
  (match r.2 with Ok l => Some (length l) | Err _ => None end,
   match (getMessagesSince "d1" None r.1).2 with Ok l => Some (length l) | Err _ => None end) = (Some 100%nat, Some 0%nat).
Proof. vm_compute. reflexivity. Qed.
