(* ===== verification/Redis.v ===== *)
(** * Redis

    The keys and commands of the cache ([cache/redis.ts]) as the handlers use them:
    values with an expiry, where every command is one atomic step at a later instant.
    Between two commands any time may pass ([delay]). *)

From Stdlib Require Import ZArith Lia.
From stdpp Require Import base list option strings gmap.
From S2P Require Import Prelude.

Open Scope Z_scope.

(** What the program stores: texts, counters and the JSON record of a one-time code. *)
Inductive Value :=
| VText (s : string)
| VInt (n : Z)
| VOtp (code : string) (attempts : Z).

Module Redis.
Record entry := { value : Value; expireAt : option Z }.
(** [clock] is in milliseconds; [commands] counts the commands that were sent. *)
Record t := { keys : gmap string entry; clock : Z; commands : nat }.
End Redis.

(** How long each command takes to arrive, and how Redis rounds the seconds of TTL. *)
Class Network := {
  delay : nat -> Z;
  delay_nonneg : forall n, 0 <= delay n;
  ttl_seconds : Z -> Z;
}.

Notation R := (M Redis.t).

(** An entry exists until its expiry has passed. *)
Definition liveAt (t : Z) (e : Redis.entry) : bool :=
  match Redis.expireAt e with None => true | Some x => t <=? x end.

Definition lookupAt (t : Z) (keys : gmap string Redis.entry) (key : string) : option Redis.entry :=
  match keys !! key with Some e => if liveAt t e then Some e else None | None => None end.

Section commands.
Context `{Network}.

(** One command: time passes, then it acts on the keys. *)
Definition command {A} (f : Z -> gmap string Redis.entry -> gmap string Redis.entry * Res A) : R A := fun s =>
  let t := Redis.clock s + delay (Redis.commands s) in
  let '(keys, r) := f t (Redis.keys s) in
  ({| Redis.keys := keys; Redis.clock := t; Redis.commands := S (Redis.commands s) |}, r).

Definition GET (key : string) : R (option Value) :=
  command (fun t keys => (keys, Ok (Redis.value <$> lookupAt t keys key))).

(** [SET key value EX seconds] *)
Definition SET_EX (key : string) (v : Value) (seconds : Z) : R unit :=
  command (fun t keys =>
    (<[key := {| Redis.value := v; Redis.expireAt := Some (t + seconds * 1000) |}]> keys, Ok tt)).

(** [SET key value KEEPTTL]: a key that is gone has no expiry to keep. *)
Definition SET_KEEPTTL (key : string) (v : Value) : R unit :=
  command (fun t keys =>
    let expireAt := match lookupAt t keys key with Some e => Redis.expireAt e | None => None end in
    (<[key := {| Redis.value := v; Redis.expireAt := expireAt |}]> keys, Ok tt)).

(** [SET key value EX seconds NX]: whether the key was set. *)
Definition SET_NX (key : string) (v : Value) (seconds : Z) : R bool :=
  command (fun t keys =>
    match lookupAt t keys key with
    | Some _ => (keys, Ok false)
    | None => (<[key := {| Redis.value := v; Redis.expireAt := Some (t + seconds * 1000) |}]> keys, Ok true)
    end).

Definition DEL (key : string) : R unit := command (fun _ keys => (delete key keys, Ok tt)).

(** [TTL key]: -2 for no key, -1 for a key without expiry. *)
Definition TTL (key : string) : R Z :=
  command (fun t keys => (keys, Ok
    match lookupAt t keys key with
    | None => -2
    | Some e => match Redis.expireAt e with None => -1 | Some x => ttl_seconds (x - t) end
    end)).

Definition PTTL (key : string) : R Z :=
  command (fun t keys => (keys, Ok
    match lookupAt t keys key with
    | None => -2
    | Some e => match Redis.expireAt e with None => -1 | Some x => x - t end
    end)).

Definition INCR (key : string) : R Z :=
  command (fun t keys =>
    match lookupAt t keys key with
    | None => (<[key := {| Redis.value := VInt 1; Redis.expireAt := None |}]> keys, Ok 1)
    | Some e =>
        match Redis.value e with
        | VInt n => (<[key := {| Redis.value := VInt (n + 1); Redis.expireAt := Redis.expireAt e |}]> keys, Ok (n + 1))
        | _ => (keys, Err "ERR value is not an integer or out of range")
        end
    end).

Definition PEXPIRE (key : string) (ms : Z) : R unit :=
  command (fun t keys =>
    match lookupAt t keys key with
    | Some e => (<[key := {| Redis.value := Redis.value e; Redis.expireAt := Some (t + ms) |}]> keys, Ok tt)
    | None => (keys, Ok tt)
    end).

Definition EXPIRE (key : string) (seconds : Z) : R unit := PEXPIRE key (seconds * 1000).

(** [Date.now()] *)
Definition Date_now : R Z := get Redis.clock.

(** ** Reasoning *)

Lemma wp_command {A} (f : Z -> gmap string Redis.entry -> gmap string Redis.entry * Res A) (Q : Redis.t -> Res A -> Prop) s :
  (forall t, Redis.clock s <= t -> t = Redis.clock s + delay (Redis.commands s) ->
     Q {| Redis.keys := (f t (Redis.keys s)).1; Redis.clock := t; Redis.commands := S (Redis.commands s) |}
       (f t (Redis.keys s)).2) -> wp (command f) Q s.
Proof.
  intros HQ. unfold wp, command. pose proof (delay_nonneg (Redis.commands s)) as D.
  set (t := Redis.clock s + delay (Redis.commands s)) in *. specialize (HQ t ltac:(lia) eq_refl).
  destruct (f t (Redis.keys s)) as [keys r]. exact HQ.
Qed.

(** An invariant of keys and clock is kept by a command that keeps it at every later time. *)
Definition on_redis (I : Z -> gmap string Redis.entry -> Prop) (s : Redis.t) : Prop := I (Redis.clock s) (Redis.keys s).

Lemma preserves_command {A} (I : Z -> gmap string Redis.entry -> Prop)
    (f : Z -> gmap string Redis.entry -> gmap string Redis.entry * Res A) :
  (forall t0 t keys, t0 <= t -> I t0 keys -> I t (f t keys).1) -> preserves (on_redis I) (command f).
Proof. intros F. apply preserves_wp. intros s Hs. apply wp_command. intros t L _. exact (F _ t _ L Hs). Qed.
End commands.
