(* ===== verification/Otp.v ===== *)
(** * One-time codes of sign-in

    Models [modules/otp/otp.service.ts] over the commands of [Redis.v]: a code is a
    record with its failed attempts, kept for five minutes.  A verification is two
    commands, so that verifications may interleave; [step] is one command of one of
    the verifications in flight. *)

From Stdlib Require Import ZArith QArith Qround Lia Lqa.
From stdpp Require Import base list option strings gmap pretty relations.
From S2P Require Import Prelude JsNumber Redis.

Open Scope Z_scope.

Definition OTP_EXPIRY_MINUTES : Z := 5.
Definition OTP_MAX_ATTEMPTS : Z := 5.
Definition OTP_RESEND_COOLDOWN_SEC : Z := 60.

Definition otpKey (identifier purpose method : string) : string :=
  "otp:" +:+ purpose +:+ ":" +:+ identifier +:+ ":" +:+ method.

(** What Twilio answers to a check. *)
Inductive TwilioCheck := CheckStatus (status : string) | CheckError (status : option Z).

(** The environment: its variables, [Math.random()] and Twilio. *)
Class OtpEnv := {
  NODE_ENV : option string;
  DISABLE_REAL_OTP : option string;
  OTP_ENGINE : option string;
  random : nat -> num;
  twilioVerification : nat -> string -> option string;
  twilioVerificationCheck : nat -> string -> string -> TwilioCheck;
}.

Module CreateOtpResult.
Record t := { success : bool; reason : option string; code : option string }.
End CreateOtpResult.

Module VerifyOtpResult.
Record t := { success : bool; reason : option string }.
End VerifyOtpResult.

Module ResendOtpResult.
Record t := { success : bool; otp : option string; reused : option bool; reason : option string }.
End ResendOtpResult.

Definition verified : VerifyOtpResult.t := {| VerifyOtpResult.success := true; VerifyOtpResult.reason := None |}.
Definition rejected (reason : string) : VerifyOtpResult.t :=
  {| VerifyOtpResult.success := false; VerifyOtpResult.reason := Some reason |}.

Section otp.
Context `{Network} `{OtpEnv}.

Definition isOtpDebugMode : bool :=
  bool_decide (NODE_ENV = Some "staging"%string) || bool_decide (DISABLE_REAL_OTP = Some "true"%string).
Definition useTwilioVerify (method : string) : bool :=
  negb isOtpDebugMode && bool_decide (OTP_ENGINE = Some "twilio_verify"%string) && bool_decide (method = "phone"%string).

(** [Math.floor(1000 + Math.random() * 9000).toString()] *)
Definition otpCode (r : num) : string := pretty (math_floor (nadd (num_of_Z 1000) (nmul r (num_of_Z 9000)))).

Definition inCooldown (ttl : Z) : bool := OTP_EXPIRY_MINUTES * 60 - OTP_RESEND_COOLDOWN_SEC <? ttl.

Definition createOtp (identifier purpose method : string) : R CreateOtpResult.t :=
  if useTwilioVerify method then
    n ← get Redis.commands;
    match twilioVerification n identifier with
    | Some e => throw e
    | None => mret {| CreateOtpResult.success := true; CreateOtpResult.code := Some "TWILIO_VERIFY"%string;
                      CreateOtpResult.reason := None |}
    end
  else
    let key := otpKey identifier purpose method in
    ttl ← TTL key;
    if inCooldown ttl then
      mret {| CreateOtpResult.success := false; CreateOtpResult.reason := Some "cooldown"%string;
              CreateOtpResult.code := None |}
    else
      n ← get Redis.commands;
      let code := otpCode (random n) in
      SET_EX key (VOtp code 0) (OTP_EXPIRY_MINUTES * 60);;
      mret {| CreateOtpResult.success := true; CreateOtpResult.code := Some code; CreateOtpResult.reason := None |}.

(** What follows the read of the record: at most one more command. *)
Definition decideOtp (key code : string) (data : option Value) : R VerifyOtpResult.t :=
  match data with
  | None => mret (rejected "expired")
  | Some (VOtp stored attempts) =>
      if OTP_MAX_ATTEMPTS <=? attempts then DEL key;; mret (rejected "too_many_attempts")
      else if decide (stored <> code) then
        SET_KEEPTTL key (VOtp stored (attempts + 1));; mret (rejected "invalid_otp")
      else DEL key;; mret verified
  | Some _ => throw "TypeError"
  end.

Definition verifyOtp (identifier purpose code method : string) : R VerifyOtpResult.t :=
  if useTwilioVerify method then
    n ← get Redis.commands;
    match twilioVerificationCheck n identifier code with
    | CheckStatus status => mret (if decide (status = "approved"%string) then verified else rejected "invalid_otp")
    | CheckError (Some 404) => mret (rejected "expired")
    | CheckError (Some 429) => mret (rejected "too_many_attempts")
    | CheckError _ => mret (rejected "invalid_otp")
    end
  else
    let key := otpKey identifier purpose method in
    data ← GET key;
    decideOtp key code data.

Definition resendOtp (identifier purpose method : string) : R ResendOtpResult.t :=
  let fresh :=
    otp ← createOtp identifier purpose method;
    mret {| ResendOtpResult.success := true; ResendOtpResult.otp := CreateOtpResult.code otp;
            ResendOtpResult.reused := Some false; ResendOtpResult.reason := None |} in
  if useTwilioVerify method then fresh
  else
    let key := otpKey identifier purpose method in
    ttl ← TTL key;
    if ttl <=? 0 then fresh
    else if inCooldown ttl then
      mret {| ResendOtpResult.success := false; ResendOtpResult.otp := None; ResendOtpResult.reused := None;
              ResendOtpResult.reason := Some "cooldown"%string |}
    else
      data ← GET key;
      match data with
      | None => fresh
      | Some (VOtp stored _) =>
          mret {| ResendOtpResult.success := true; ResendOtpResult.otp := Some stored;
                  ResendOtpResult.reused := Some true; ResendOtpResult.reason := None |}
      | Some _ => mret {| ResendOtpResult.success := true; ResendOtpResult.otp := None;
                          ResendOtpResult.reused := Some true; ResendOtpResult.reason := None |}
      end.

(** ** Verifications in flight *)

(** A verification that has not read the record, that has, or that has answered. *)
Inductive Flight :=
| Waiting (code : string)
| Loaded (code : string) (data : option Value)
| Answered (r : Res VerifyOtpResult.t).

(** One command of one of the verifications of a key. *)
Inductive step (key : string) : Redis.t * list Flight -> Redis.t * list Flight -> Prop :=
| step_load l1 l2 code data s s' : GET key s = (s', Ok data) ->
    step key (s, l1 ++ Waiting code :: l2) (s', l1 ++ Loaded code data :: l2)
| step_decide l1 l2 code data s s' r : decideOtp key code data s = (s', r) ->
    step key (s, l1 ++ Loaded code data :: l2) (s', l1 ++ Answered r :: l2).
End otp.

(** ** One after the other *)

Section sequential.
Context `{Network} `{OtpEnv}.
Context (identifier purpose method : string).
Notation key := (otpKey identifier purpose method).

(** The answers to guesses that are sent one after the other. *)
Fixpoint verifyAll (codes : list string) (s : Redis.t) : list (Res VerifyOtpResult.t) :=
  match codes with
  | [] => []
  | code :: codes =>
      let '(s', r) := verifyOtp identifier purpose code method s in r :: verifyAll codes s'
  end.

(** The guesses that are still compared with the code. *)
Definition guessesLeft (keys : gmap string Redis.entry) : nat :=
  match keys !! key with
  | Some e => match Redis.value e with VOtp _ attempts => Z.to_nat (OTP_MAX_ATTEMPTS - attempts) | _ => 0 end
  | None => 0
  end.

Definition isCode (e : Redis.entry) : Prop := exists code attempts, Redis.value e = VOtp code attempts.

(** How a result changes what is left. *)
Definition answeredBy (before after : gmap string Redis.entry) (r : Res VerifyOtpResult.t) : Prop :=
  (r = Ok (rejected "expired") /\ after = before) \/
  (r = Ok (rejected "too_many_attempts") /\ after !! key = None) \/
  (r = Ok (rejected "invalid_otp") /\ (exists e, after !! key = Some e /\ isCode e) /\
     (S (guessesLeft after) <= guessesLeft before)%nat) \/
  (r = Ok verified /\ is_Some (before !! key) /\ after !! key = None).

Lemma verifyOtp_answers code s : useTwilioVerify method = false ->
  (forall e, Redis.keys s !! key = Some e -> isCode e) ->
  wp (verifyOtp identifier purpose code method) (fun s' r => answeredBy (Redis.keys s) (Redis.keys s') r) s.
Proof.
  intros T C. unfold verifyOtp. rewrite T. wp_step. apply wp_command. intros t _ _. cbn.
  unfold lookupAt. destruct (Redis.keys s !! key) as [e|] eqn:E; [|left; auto].
  destruct (liveAt t e) eqn:Lt; [|left; auto]. destruct (C e eq_refl) as (stored & attempts & Ev). cbn. rewrite Ev.
  unfold decideOtp. destruct (OTP_MAX_ATTEMPTS <=? attempts) eqn:A.
  - wp_step. apply wp_command. intros t' _ _. cbn. wp_step. right. left. split; [reflexivity | apply lookup_delete_eq].
  - apply Z.leb_gt in A. destruct (decide (stored <> code)).
    + wp_step. apply wp_command. intros t' _ _. cbn. wp_step. right. right. left. split; [reflexivity|].
      split; [eexists; split; [apply lookup_insert_eq | exists stored, (attempts + 1); reflexivity]|].
      unfold guessesLeft. cbn. rewrite lookup_insert_eq, E. cbn. rewrite Ev. lia.
    + wp_step. apply wp_command. intros t' _ _. cbn. wp_step. right. right. right.
      split; [reflexivity|]. rewrite E. split; [eauto | apply lookup_delete_eq].
Qed.

Definition isInvalid (r : Res VerifyOtpResult.t) : bool :=
  match r with Ok v => bool_decide (VerifyOtpResult.reason v = Some "invalid_otp"%string) | Err _ => false end.
Definition isVerified (r : Res VerifyOtpResult.t) : bool :=
  match r with Ok v => VerifyOtpResult.success v | Err _ => false end.

(** Guesses sent one after the other are limited.  However many are sent and however
    long each takes, no more wrong guesses are compared with a code than its record has
    attempts left, and a code is accepted at most once. *)
Theorem sequential_guesses_are_limited (s : Redis.t) (codes : list string) : useTwilioVerify method = false ->
  (forall e, Redis.keys s !! key = Some e -> isCode e) ->
  (length (List.filter isInvalid (verifyAll codes s)) <= guessesLeft (Redis.keys s))%nat /\
  (length (List.filter isVerified (verifyAll codes s)) <= if Redis.keys s !! key then 1 else 0)%nat.
Proof.
  intros T. revert s. induction codes as [|code codes IH]; intros s C; cbn [verifyAll]; [split; cbn; lia|].
  pose proof (verifyOtp_answers code s T C) as W. unfold wp in W.
  destruct (verifyOtp identifier purpose code method s) as [s' r]. cbn [fst snd] in W.
  destruct W as [[-> E]|[[-> E]|[[-> [(e & E & Ie) L]]|[-> [[e Ee] E]]]]]; cbn [List.filter];
    [change (isInvalid (Ok (rejected "expired"))) with false; change (isVerified (Ok (rejected "expired"))) with false
    |change (isInvalid (Ok (rejected "too_many_attempts"))) with false;
     change (isVerified (Ok (rejected "too_many_attempts"))) with false
    |change (isInvalid (Ok (rejected "invalid_otp"))) with true; change (isVerified (Ok (rejected "invalid_otp"))) with false
    |change (isInvalid (Ok verified)) with false; change (isVerified (Ok verified)) with true]; cbv iota.
  - rewrite <- E. apply IH. rewrite E. exact C.
  - destruct (IH s') as [I1 I2]; [rewrite E; discriminate|]. unfold guessesLeft in I1 at 1. rewrite E in I1, I2.
    cbn. split; [lia|]. destruct (Redis.keys s !! key); lia.
  - destruct (IH s') as [I1 I2]; [rewrite E; intros ? [= <-]; exact Ie|]. rewrite E in I2. cbn.
    split; [lia|]. unfold guessesLeft in L at 2. destruct (Redis.keys s !! key); lia.
  - destruct (IH s') as [I1 I2]; [rewrite E; discriminate|]. unfold guessesLeft in I1 at 1. rewrite E in I1, I2.
    cbn. rewrite Ee. lia.
Qed.
End sequential.

(** ** All at once *)

Section concurrent.
Context `{Network} `{OtpEnv}.
Context (key : string) (stored : string) (attempts : Z).

(** The clock after [n] more commands. *)
Fixpoint clockAfter (n : nat) (s : Redis.t) : Z :=
  match n with O => Redis.clock s | S n => clockAfter n s + delay (Redis.commands s + n) end.

Definition loaded (code : string) : Flight := Loaded code (Some (VOtp stored attempts)).
Definition compared (code : string) : Flight :=
  Answered (Ok (if decide (code = stored) then verified else rejected "invalid_otp")).

(** All verifications read the record before any of them writes. *)
Lemma loads_run (codes : list string) (done : list Flight) (s : Redis.t) (e : Redis.entry) :
  Redis.keys s !! key = Some e -> Redis.value e = VOtp stored attempts ->
  (forall n, (n <= length codes)%nat -> liveAt (clockAfter n s) e = true) ->
  exists s', rtc (step key) (s, done ++ map Waiting codes) (s', done ++ map loaded codes) /\ Redis.keys s' = Redis.keys s.
Proof.
  revert done s. induction codes as [|code codes IH]; intros done s E V L; [exists s; split; constructor|].
  set (s1 := {| Redis.keys := Redis.keys s; Redis.clock := Redis.clock s + delay (Redis.commands s);
               Redis.commands := S (Redis.commands s) |}).
  assert (G : GET key s = (s1, Ok (Some (VOtp stored attempts)))).
  { unfold GET, command, lookupAt. pose proof (L 1%nat ltac:(cbn; lia)) as L1. cbn in L1. rewrite Nat.add_0_r in L1.
    rewrite E. cbn zeta. rewrite L1. cbn. rewrite V. reflexivity. }
  destruct (IH (done ++ [loaded code]) s1) as (s' & R & K).
  - exact E.
  - exact V.
  - intros n Hn. replace (clockAfter n s1) with (clockAfter (S n) s); [apply L; cbn; lia|].
    clear. induction n as [|n IH]; cbn [clockAfter]; [cbn; rewrite Nat.add_0_r; reflexivity|].
    cbn [clockAfter] in IH. rewrite <- IH. cbn. rewrite <- plus_n_Sm. reflexivity.
  - exists s'. split; [|exact K]. rewrite <- !app_assoc in R. cbn [app] in R. cbn [map].
    eapply rtc_l; [exact (step_load key done (map Waiting codes) code _ s s1 G) | exact R].
Qed.

Lemma decide_compares (code : string) (s : Redis.t) : attempts < OTP_MAX_ATTEMPTS -> exists s',
  decideOtp key code (Some (VOtp stored attempts)) s =
    (s', Ok (if decide (code = stored) then verified else rejected "invalid_otp")) /\
  (code <> stored -> exists e, Redis.keys s' !! key = Some e /\ Redis.value e = VOtp stored (attempts + 1)).
Proof.
  intros A. unfold decideOtp. replace (OTP_MAX_ATTEMPTS <=? attempts) with false by (symmetry; apply Z.leb_gt; exact A).
  destruct (decide (code = stored)) as [->|N].
  - rewrite decide_False by (intros F; apply F; reflexivity). eexists. split; [reflexivity | congruence].
  - rewrite decide_True by congruence. eexists. split; [reflexivity|]. intros _. cbn. eexists.
    split; [apply lookup_insert_eq | reflexivity].
Qed.

Lemma decides_run (codes : list string) (done : list Flight) (s : Redis.t) : attempts < OTP_MAX_ATTEMPTS ->
  exists s', rtc (step key) (s, done ++ map loaded codes) (s', done ++ map compared codes) /\
    (codes <> [] -> (forall code, In code codes -> code <> stored) ->
     exists e, Redis.keys s' !! key = Some e /\ Redis.value e = VOtp stored (attempts + 1)).
Proof.
  intros A. revert done s. induction codes as [|code codes IH]; intros done s; [exists s; split; [constructor | congruence]|].
  destruct (decide_compares code s A) as (s1 & D & W). destruct (IH (done ++ [compared code]) s1) as (s' & R & W').
  destruct codes as [|code2 codes].
  - exists s1. split; [|intros _ N; apply W, N; left; reflexivity]. apply rtc_once.
    exact (step_decide key done [] code _ s s1 _ D).
  - exists s'. split; [|intros _ N; apply W'; [discriminate | intros c Hc; apply N; right; exact Hc]].
    rewrite <- !app_assoc in R. eapply rtc_l; [exact (step_decide key done _ code _ s s1 _ D) | exact R].
Qed.

(** Guesses sent at once are not limited.  Any number of verifications may read the
    record before the first of them writes it back: every one of them is then compared
    with the code, whatever the limit, and together they count as one failed attempt. *)
Theorem concurrent_guesses_are_not_limited (codes : list string) (s : Redis.t) (e : Redis.entry) :
  Redis.keys s !! key = Some e -> Redis.value e = VOtp stored attempts -> attempts < OTP_MAX_ATTEMPTS ->
  (forall n, (n <= length codes)%nat -> liveAt (clockAfter n s) e = true) ->
  exists s', rtc (step key) (s, map Waiting codes) (s', map compared codes) /\
    (codes <> [] -> (forall code, In code codes -> code <> stored) ->
     exists e', Redis.keys s' !! key = Some e' /\ Redis.value e' = VOtp stored (attempts + 1)).
Proof.
  intros E V A L. destruct (loads_run codes [] s e E V L) as (s1 & R1 & _).
  destruct (decides_run codes [] s1 A) as (s2 & R2 & W). exists s2. split; [|exact W]. etrans; eassumption.
Qed.
End concurrent.

Section permanent.
Context `{Network} `{OtpEnv}.

(** A code can outlive its expiry.  When the record expires between the read and
    the write of a wrong guess, the write creates it anew without an expiry: from then on
    the old code is accepted at any later time. *)
Theorem late_write_makes_code_permanent (identifier purpose method stored wrong : string) (attempts x : Z) (s : Redis.t) :
  let key := otpKey identifier purpose method in
  useTwilioVerify method = false -> wrong <> stored -> attempts + 1 < OTP_MAX_ATTEMPTS ->
  Redis.keys s !! key = Some {| Redis.value := VOtp stored attempts; Redis.expireAt := Some x |} ->
  Redis.clock s + delay (Redis.commands s) <= x ->
  x < Redis.clock s + delay (Redis.commands s) + delay (S (Redis.commands s)) ->
  let s1 := (verifyOtp identifier purpose wrong method s).1 in
  Redis.keys s1 !! key = Some {| Redis.value := VOtp stored (attempts + 1); Redis.expireAt := None |} /\
  forall s2, Redis.keys s2 !! key = Redis.keys s1 !! key -> (verifyOtp identifier purpose stored method s2).2 = Ok verified.
Proof.
  intros key T N A E L1 L2 s1.
  assert (K : Redis.keys s1 !! key = Some {| Redis.value := VOtp stored (attempts + 1); Redis.expireAt := None |}).
  { enough (W : wp (verifyOtp identifier purpose wrong method) (fun s' _ => Redis.keys s' !! key =
      Some {| Redis.value := VOtp stored (attempts + 1); Redis.expireAt := None |}) s) by exact W.
    unfold verifyOtp. rewrite T. fold key. wp_step. apply wp_command. intros t _ ->. cbn. unfold lookupAt. rewrite E.
    unfold liveAt. cbn. rewrite (proj2 (Z.leb_le _ _) L1). cbn. unfold decideOtp.
    replace (OTP_MAX_ATTEMPTS <=? attempts) with false by (symmetry; apply Z.leb_gt; lia). rewrite decide_True by congruence.
    wp_step. apply wp_command. intros t' _ ->. cbn. wp_step. cbn. rewrite lookup_insert_eq. unfold lookupAt. rewrite E. unfold liveAt. cbn.
    replace (_ <=? x) with false by (symmetry; apply Z.leb_gt; exact L2). reflexivity. }
  split; [exact K|]. intros s2. rewrite K. intros E2.
  enough (W : wp (verifyOtp identifier purpose stored method) (fun _ r => r = Ok verified) s2) by exact W.
  unfold verifyOtp. rewrite T. fold key. wp_step. apply wp_command. intros t _ ->. cbn. unfold lookupAt. rewrite E2. cbn.
  unfold decideOtp. replace (OTP_MAX_ATTEMPTS <=? attempts + 1) with false by (symmetry; apply Z.leb_gt; lia).
  rewrite decide_False by (intros F; apply F; reflexivity). wp_step. apply wp_command. intros t' _ _. cbn. wp_step. reflexivity.
Qed.

End permanent.

(** ** Codes *)

Lemma otpCode_range (r : num) : (0 <= r)%Q -> (r <= 9007199254740991 # 9007199254740992)%Q ->
  1000 <= math_floor (nadd (num_of_Z 1000) (nmul r (num_of_Z 9000))) <= 9999.
Proof.
  intros R0 R1. unfold math_floor, nadd, nmul, num_of_Z. set (y := rnd (r * inject_Z 9000)).
  assert (Y0 : (0 <= y)%Q).
  { apply rnd_nonneg. apply Qmult_le_0_compat; [exact R0 | discriminate]. }
  assert (Y1 : (y <= rnd ((9007199254740991 # 9007199254740992) * inject_Z 9000))%Q).
  { apply rnd_mono; [apply Qmult_le_0_compat; [exact R0 | discriminate]|]. apply Qmult_le_compat_r; [exact R1 | discriminate]. }
  split.
  - assert (L : (rnd (inject_Z 1000) <= rnd (inject_Z 1000 + y))%Q) by (apply rnd_mono; [discriminate | lra]).
    apply Qfloor_resp_le in L. exact L.
  - assert (U : (rnd (inject_Z 1000 + y) <=
      rnd (inject_Z 1000 + rnd ((9007199254740991 # 9007199254740992) * inject_Z 9000)))%Q).
    { apply rnd_mono; [change (inject_Z 1000) with 1000%Q; lra|]. apply Qplus_le_r. exact Y1. }
    apply Qfloor_resp_le in U. refine (Z.le_trans _ _ _ U _). vm_compute. discriminate.
Qed.

Lemma four_digits (z : Z) : 1000 <= z <= 9999 -> String.length (pretty z) = 4%nat.
Proof.
  intros Z. assert (A : forallb (fun n => (String.length (pretty n) =? 4)%nat) (seqZ 1000 9000) = true) by (vm_compute; reflexivity).
  rewrite forallb_forall in A. apply Nat.eqb_eq, A. apply list_elem_of_In, elem_of_seqZ. lia.
Qed.

(** A code has four digits, for every value [Math.random()] takes below one. *)
Theorem otpCode_four_digits (r : num) : (0 <= r)%Q -> (r <= 9007199254740991 # 9007199254740992)%Q ->
  String.length (otpCode r) = 4%nat.
Proof. intros R0 R1. apply four_digits, otpCode_range; assumption. Qed.

(** ** Concrete runs *)

Definition demo_otp_env : OtpEnv := {|
  NODE_ENV := Some "production"%string; DISABLE_REAL_OTP := None; OTP_ENGINE := None; random := fun _ => (1 # 2)%Q;
  twilioVerification := fun _ _ => None; twilioVerificationCheck := fun _ _ _ => CheckStatus "approved" |}.

Lemma demo_delay_nonneg (d : nat -> nat) (n : nat) : 0 <= Z.of_nat (d n).
Proof. lia. Qed.

(** Five milliseconds a command; or the second command after six minutes. *)
Definition demo_network : Network :=
  {| delay := fun n => Z.of_nat 5; delay_nonneg := demo_delay_nonneg (fun _ => 5%nat); ttl_seconds := fun ms => ms / 1000 |}.
Definition slow_delay (n : nat) : Z := match n with 1%nat => 360000 | _ => 5 end.
Lemma slow_nonneg (n : nat) : 0 <= slow_delay n.
Proof. destruct n as [|[|n]]; cbn; lia. Qed.
Definition slow_network : Network :=
  {| delay := slow_delay; delay_nonneg := slow_nonneg; ttl_seconds := fun ms => ms / 1000 |}.

Definition demo_entry : Redis.entry := {| Redis.value := VOtp "4821" 0; Redis.expireAt := Some 300000 |}.
Definition demo_redis : Redis.t :=
  {| Redis.keys := {["otp:login:a@b.ee:email"%string := demo_entry]}; Redis.clock := 0; Redis.commands := 0 |}.
Definition demo_guesses : list string := ["1000"; "1001"; "1002"; "1003"; "1004"; "1005"; "4821"]%string.

Lemma sequential_guesses_are_limited_witness :
  (length (List.filter isInvalid (@verifyAll demo_network demo_otp_env "a@b.ee" "login" "email" demo_guesses demo_redis)) <= 5)%nat.
Proof.
  refine (proj1 (@sequential_guesses_are_limited demo_network demo_otp_env "a@b.ee" "login" "email" demo_redis demo_guesses
    eq_refl _)).
  intros e. cbn. intros [= <-]. exists "4821"%string, 0. reflexivity.
Defined.

Lemma concurrent_guesses_are_not_limited_witness : exists s', rtc (@step demo_network "otp:login:a@b.ee:email")
  (demo_redis, map Waiting demo_guesses) (s', map (compared "4821") demo_guesses).
Proof.
  destruct (@concurrent_guesses_are_not_limited demo_network "otp:login:a@b.ee:email" "4821" 0 demo_guesses demo_redis
    demo_entry eq_refl eq_refl eq_refl) as (s' & R & _); [|exists s'; exact R].
  intros n Hn. do 8 (destruct n as [|n]; [reflexivity|]). cbn in Hn. lia.
Defined.

Lemma late_write_makes_code_permanent_witness :
  (@verifyOtp slow_network demo_otp_env "a@b.ee" "login" "4821" "email"
     (@verifyOtp slow_network demo_otp_env "a@b.ee" "login" "1000" "email" demo_redis).1).2 = Ok verified.
Proof.
  refine (proj2 (@late_write_makes_code_permanent slow_network demo_otp_env "a@b.ee" "login" "email" "4821" "1000" 0 300000
    demo_redis eq_refl _ eq_refl eq_refl _ _) _ eq_refl); [discriminate | vm_compute; discriminate | vm_compute; reflexivity].
Defined.

Lemma otpCode_four_digits_witness : String.length (otpCode (1 # 2)) = 4%nat.
Proof. apply otpCode_four_digits; discriminate. Defined.
