(* ===== verification/SmsConfig.v ===== *)
(** * Settings of the message service

    Models [modules/sms/sms.config.ts]: the settings of the queue, of the provider and
    of the gate against abuse, read from the environment, with every check that refuses
    to start. *)

From Stdlib Require Import ZArith Lia.
From stdpp Require Import base list option strings pretty.
From S2P Require Import Prelude JsNumber JsText Time Gateway.

Open Scope Z_scope.

#[local] Instance Res_ret : MRet Res := fun _ a => Ok a.
#[local] Instance Res_bind : MBind Res := fun _ _ k m => match m with Ok a => k a | Err e => Err e end.

(** [process.env], and whether a text is an http or https URL ([new URL] of the platform). *)
Class Process := {
  env : string -> option string;
  isValidHttpUrl : string -> bool;
}.

(** ** Patterns *)

Definition is_letter (c : Ascii.ascii) : bool :=
  let n := Ascii.nat_of_ascii c in
  ((65 <=? n)%nat && (n <=? 90)%nat) || ((97 <=? n)%nat && (n <=? 122)%nat).
Definition is_alnum (c : Ascii.ascii) : bool := is_letter c || is_digit c.

Definition between (lo hi n : nat) : bool := (lo <=? n)%nat && (n <=? hi)%nat.

(** [/^\+[1-9]\d{1,14}$/] *)
Definition E164_PHONE_REGEX (s : string) : bool :=
  match chars s with
  | plus :: first :: rest =>
      is_char 43 plus && is_digit first && negb (is_char 48 first) && forallb is_digit rest && between 1 14 (length rest)
  | _ => false
  end.

(** [/^AC[a-zA-Z0-9]{32}$/], [/^MG[a-zA-Z0-9]{32}$/] *)
Definition sid (a b : nat) (s : string) : bool :=
  match chars s with
  | x :: y :: rest => is_char a x && is_char b y && forallb is_alnum rest && (length rest =? 32)%nat
  | _ => false
  end.
Definition TWILIO_ACCOUNT_SID_REGEX : string -> bool := sid 65 67.
Definition TWILIO_MESSAGING_SERVICE_SID_REGEX : string -> bool := sid 77 71.

(** [/^[A-Za-z][A-Za-z0-9]{0,10}$/] *)
Definition SNS_SENDER_ID_REGEX (s : string) : bool :=
  match chars s with
  | first :: rest => is_letter first && forallb is_alnum rest && (length rest <=? 10)%nat
  | [] => false
  end.

Definition isValidE164PhoneNumber (value : string) : bool := E164_PHONE_REGEX value.

Definition maskPhoneNumber (value : string) : string :=
  let n := String.length value in
  if (n <=? 6)%nat then String.substring 0 2 value +:+ "***"
  else String.substring 0 3 value +:+ "***" +:+ String.substring (n - 2) 2 value.

(** ** Defaults *)

Definition DEFAULT_SMS_MAX_BODY_LENGTH : Z := 1200.
Definition TWILIO_MAX_BODY_LENGTH : Z := 1600.
Definition DEFAULT_SMS_RETRY_ATTEMPTS : Z := 3.
Definition DEFAULT_SMS_RETRY_BACKOFF_MS : Z := 2000.
Definition DEFAULT_SMS_QUEUE_REMOVE_ON_COMPLETE_COUNT : Z := 1000.
Definition DEFAULT_SMS_QUEUE_REMOVE_ON_FAIL_COUNT : Z := 5000.
Definition DEFAULT_SMS_WORKER_CONCURRENCY : Z := 5.
Definition DEFAULT_SMS_PER_PHONE_DAILY_MAX : Z := 5.

Module SmsQueueConfig.
Record t := { maxBodyLength : Z; retryAttempts : Z; retryBackoffMs : Z; removeOnCompleteCount : Z;
  removeOnFailCount : Z; workerConcurrency : Z }.
End SmsQueueConfig.

Inductive SmsProviderName := twilio | messente | sns.
Inductive SnsSmsType := Transactional | Promotional.

Module SmsWorkerConfig.
Record t := {
  queueConfig : SmsQueueConfig.t;
  isProduction : bool;
  isMockMode : bool;
  provider : SmsProviderName;
  accountSid : option string;
  authToken : option string;
  phoneNumber : option string;
  messagingServiceSid : option string;
  statusCallbackUrl : option string;
  messenteUsername : option string;
  messentePassword : option string;
  messenteSender : option string;
  snsRegion : option string;
  snsSenderId : option string;
  snsSmsType : SnsSmsType;
}.
End SmsWorkerConfig.

Module SmsAbuseConfig.
Record t := {
  allowedCountryCodes : list string;
  perPhoneDailyMax : Z;
  dailySpendCap : option Z;
  monthlySpendCap : option Z;
  adminAlertEmail : option string;
}.
End SmsAbuseConfig.

Section settings.
Context `{Process}.

(** ** Readers *)

Definition parseBoolean (value : option string) : bool :=
  match value with Some v => bool_decide (toLowerCase (strip v) = "true"%string) | None => false end.

Definition blank (raw : option string) : bool :=
  match raw with Some raw => bool_decide (strip raw = EmptyString) | None => true end.

(** [null] is [None]. *)
Definition parseOptionalBoundedInteger (envName : string) (min max : Z) : Res (option Z) :=
  match env envName with
  | None => Ok None
  | Some raw =>
      if bool_decide (strip raw = EmptyString) then Ok None
      else match integer_of (js_Number raw) with
           | Some parsed =>
               if (parsed <? min) || (max <? parsed)
               then Err (envName +:+ " must be an integer between " +:+ pretty min +:+ " and " +:+ pretty max)
               else Ok (Some parsed)
           | None => Err (envName +:+ " must be an integer between " +:+ pretty min +:+ " and " +:+ pretty max)
           end
  end.

Definition parseBoundedInteger (envName : string) (fallback min max : Z) : Res Z :=
  match env envName with
  | None => Ok fallback
  | Some raw =>
      if bool_decide (strip raw = EmptyString) then Ok fallback
      else match integer_of (js_Number raw) with
           | Some parsed =>
               if (parsed <? min) || (max <? parsed)
               then Err (envName +:+ " must be an integer between " +:+ pretty min +:+ " and " +:+ pretty max)
               else Ok parsed
           | None => Err (envName +:+ " must be an integer between " +:+ pretty min +:+ " and " +:+ pretty max)
           end
  end.

(** [split(',')] *)
Fixpoint split_commas (l : list Ascii.ascii) : list (list Ascii.ascii) :=
  match l with
  | [] => [[]]
  | c :: l' =>
      if is_char 44 c then [] :: split_commas l'
      else match split_commas l' with x :: r => (c :: x) :: r | [] => [[c]] end
  end.

Definition quoted (s : string) : string :=
  let quote := String (Ascii.ascii_of_nat 34) EmptyString in quote +:+ s +:+ quote.

(** One code, without its plus: one to four digits. *)
Definition callingCode (code : list Ascii.ascii) : Res string :=
  let normalized := match code with c :: r => if is_char 43 c then r else code | [] => [] end in
  if forallb is_digit normalized && between 1 4 (length normalized) then Ok (string_of normalized)
  else Err ("SMS_ALLOWED_COUNTRY_CODES entry " +:+ quoted (string_of code) +:+ " must be 1-4 digits (E.164 calling code)").

Fixpoint callingCodes (codes : list (list Ascii.ascii)) : Res (list string) :=
  match codes with
  | [] => Ok []
  | c :: codes => code ← callingCode c; rest ← callingCodes codes; Ok (code :: rest)
  end.

Definition parseCallingCodes (value : option string) : Res (list string) :=
  match truthy value with
  | None => Ok []
  | Some value =>
      callingCodes (List.filter (fun code => (0 <? length code)%nat) (map trim (split_commas (chars value))))
  end.

Definition parseSmsProvider (value : option string) : Res SmsProviderName :=
  match truthy ((fun v => toLowerCase (strip v)) <$> value) with
  | None => Ok twilio
  | Some normalized =>
      if decide (normalized = "twilio"%string) then Ok twilio
      else if decide (normalized = "messente"%string) then Ok messente
      else if decide (normalized = "sns"%string) then Ok sns
      else Err "SMS_PROVIDER must be one of: twilio, messente, sns"
  end.

Definition parseSnsSmsType (value : option string) : Res SnsSmsType :=
  match truthy ((fun v => toLowerCase (strip v)) <$> value) with
  | None => Ok Transactional
  | Some normalized =>
      if decide (normalized = "transactional"%string) then Ok Transactional
      else if decide (normalized = "promotional"%string) then Ok Promotional
      else Err "SNS_SMS_TYPE must be one of: Transactional, Promotional"
  end.

(** ** Configurations *)

Definition getSmsQueueConfig : Res SmsQueueConfig.t :=
  maxBodyLength ← parseBoundedInteger "SMS_MAX_BODY_LENGTH" DEFAULT_SMS_MAX_BODY_LENGTH 1 TWILIO_MAX_BODY_LENGTH;
  retryAttempts ← parseBoundedInteger "SMS_RETRY_ATTEMPTS" DEFAULT_SMS_RETRY_ATTEMPTS 1 10;
  retryBackoffMs ← parseBoundedInteger "SMS_RETRY_BACKOFF_MS" DEFAULT_SMS_RETRY_BACKOFF_MS 500 120000;
  removeOnCompleteCount ← parseBoundedInteger "SMS_QUEUE_REMOVE_ON_COMPLETE_COUNT"
    DEFAULT_SMS_QUEUE_REMOVE_ON_COMPLETE_COUNT 1 100000;
  removeOnFailCount ← parseBoundedInteger "SMS_QUEUE_REMOVE_ON_FAIL_COUNT"
    DEFAULT_SMS_QUEUE_REMOVE_ON_FAIL_COUNT 1 100000;
  workerConcurrency ← parseBoundedInteger "SMS_WORKER_CONCURRENCY" DEFAULT_SMS_WORKER_CONCURRENCY 1 50;
  Ok {| SmsQueueConfig.maxBodyLength := maxBodyLength; SmsQueueConfig.retryAttempts := retryAttempts;
        SmsQueueConfig.retryBackoffMs := retryBackoffMs; SmsQueueConfig.removeOnCompleteCount := removeOnCompleteCount;
        SmsQueueConfig.removeOnFailCount := removeOnFailCount; SmsQueueConfig.workerConcurrency := workerConcurrency |}.

Definition refuse (b : bool) (e : string) : Res unit := if b then Err e else Ok tt.

(** Whether a setting is present and not empty, or satisfies a pattern when it is. *)
Definition given (o : option string) : bool := match truthy o with Some _ => true | None => false end.
Definition conforms (p : string -> bool) (o : option string) : bool :=
  match truthy o with Some v => p v | None => true end.

Definition loadSmsWorkerConfig : Res SmsWorkerConfig.t :=
  queueConfig ← getSmsQueueConfig;
  let isProduction := bool_decide (env "NODE_ENV" = Some "production"%string) in
  let isMockMode := parseBoolean (env "SMS_MOCK_MODE") || bool_decide (env "NODE_ENV" = Some "test"%string) in
  provider ← parseSmsProvider (env "SMS_PROVIDER");
  let accountSid := env "TWILIO_ACCOUNT_SID" in
  let authToken := env "TWILIO_AUTH_TOKEN" in
  let phoneNumber := env "TWILIO_PHONE_NUMBER" in
  let messagingServiceSid := env "TWILIO_MESSAGING_SERVICE_SID" in
  let statusCallbackUrl := env "TWILIO_STATUS_CALLBACK_URL" in
  let messenteUsername := env "MESSENTE_API_USERNAME" in
  let messentePassword := env "MESSENTE_API_PASSWORD" in
  let messenteSender := env "MESSENTE_SENDER" in
  let snsRegion := if given (env "SNS_REGION") then env "SNS_REGION" else env "AWS_REGION" in
  let snsSenderId := env "SNS_SENDER_ID" in
  snsSmsType ← parseSnsSmsType (env "SNS_SMS_TYPE");
  refuse (isProduction && isMockMode) "SMS_MOCK_MODE=true is not allowed in production";;
  match isMockMode, provider with
  | false, twilio =>
      refuse (negb (given accountSid) || negb (given authToken))
        "Twilio not configured. Missing TWILIO_ACCOUNT_SID or TWILIO_AUTH_TOKEN";;
      refuse (negb (conforms TWILIO_ACCOUNT_SID_REGEX accountSid)) "TWILIO_ACCOUNT_SID must be a valid AC-prefixed SID";;
      refuse (negb (given messagingServiceSid) && negb (given phoneNumber))
        "Twilio sender not configured. Set TWILIO_PHONE_NUMBER or TWILIO_MESSAGING_SERVICE_SID";;
      refuse (negb (conforms E164_PHONE_REGEX phoneNumber))
        "TWILIO_PHONE_NUMBER must be in E.164 format (example: +919876543210)";;
      refuse (negb (conforms TWILIO_MESSAGING_SERVICE_SID_REGEX messagingServiceSid))
        "TWILIO_MESSAGING_SERVICE_SID must be a valid MG-prefixed SID"
  | false, messente =>
      refuse (negb (given messenteUsername) || negb (given messentePassword))
        "Messente not configured. Missing MESSENTE_API_USERNAME or MESSENTE_API_PASSWORD";;
      refuse (negb (given messenteSender)) "Messente sender not configured. Set MESSENTE_SENDER"
  | false, sns =>
      refuse (negb (given snsRegion)) "SNS not configured. Set SNS_REGION (or AWS_REGION)";;
      refuse (negb (conforms SNS_SENDER_ID_REGEX snsSenderId))
        "SNS_SENDER_ID must be 1-11 alphanumeric characters starting with a letter"
  | true, _ => Ok tt
  end;;
  refuse (negb (conforms isValidHttpUrl statusCallbackUrl)) "TWILIO_STATUS_CALLBACK_URL must be a valid http/https URL";;
  refuse (isProduction && negb (conforms (String.prefix "https://") statusCallbackUrl))
    "TWILIO_STATUS_CALLBACK_URL must use https in production";;
  Ok {| SmsWorkerConfig.queueConfig := queueConfig; SmsWorkerConfig.isProduction := isProduction;
        SmsWorkerConfig.isMockMode := isMockMode; SmsWorkerConfig.provider := provider;
        SmsWorkerConfig.accountSid := accountSid; SmsWorkerConfig.authToken := authToken;
        SmsWorkerConfig.phoneNumber := phoneNumber; SmsWorkerConfig.messagingServiceSid := messagingServiceSid;
        SmsWorkerConfig.statusCallbackUrl := statusCallbackUrl; SmsWorkerConfig.messenteUsername := messenteUsername;
        SmsWorkerConfig.messentePassword := messentePassword; SmsWorkerConfig.messenteSender := messenteSender;
        SmsWorkerConfig.snsRegion := snsRegion; SmsWorkerConfig.snsSenderId := snsSenderId;
        SmsWorkerConfig.snsSmsType := snsSmsType |}.

Definition loadSmsAbuseConfig : Res SmsAbuseConfig.t :=
  allowedCountryCodes ← parseCallingCodes (env "SMS_ALLOWED_COUNTRY_CODES");
  perPhoneDailyMax ← parseBoundedInteger "SMS_PER_PHONE_DAILY_MAX" DEFAULT_SMS_PER_PHONE_DAILY_MAX 1 1000;
  dailySpendCap ← parseOptionalBoundedInteger "SMS_DAILY_SPEND_CAP" 1 10000000;
  monthlySpendCap ← parseOptionalBoundedInteger "SMS_MONTHLY_SPEND_CAP" 1 100000000;
  Ok {| SmsAbuseConfig.allowedCountryCodes := allowedCountryCodes; SmsAbuseConfig.perPhoneDailyMax := perPhoneDailyMax;
        SmsAbuseConfig.dailySpendCap := dailySpendCap; SmsAbuseConfig.monthlySpendCap := monthlySpendCap;
        SmsAbuseConfig.adminAlertEmail := truthy (strip <$> env "ADMIN_ALERT_EMAIL") |}.

(** [{ max, duration }], when both are set. *)
Definition loadQueueLimiterConfig (maxEnv durationEnv : string) : Res (option (Z * Z)) :=
  max ← parseOptionalBoundedInteger maxEnv 1 100000;
  duration ← parseOptionalBoundedInteger durationEnv 1 3600000;
  Ok (match max, duration with Some max, Some duration => Some (max, duration) | _, _ => None end).
End settings.

(** ** Settings are well formed *)

Definition within (lo hi n : Z) : Prop := lo <= n <= hi.
Definition within_option (lo hi : Z) (o : option Z) : Prop := forall n, o = Some n -> within lo hi n.

Record QueueOk (c : SmsQueueConfig.t) : Prop := {
  body_ok : within 1 TWILIO_MAX_BODY_LENGTH (SmsQueueConfig.maxBodyLength c);
  attempts_ok : within 1 10 (SmsQueueConfig.retryAttempts c);
  backoff_ok : within 500 120000 (SmsQueueConfig.retryBackoffMs c);
  complete_ok : within 1 100000 (SmsQueueConfig.removeOnCompleteCount c);
  fail_ok : within 1 100000 (SmsQueueConfig.removeOnFailCount c);
  concurrency_ok : within 1 50 (SmsQueueConfig.workerConcurrency c);
}.

(** What the provider in use needs in order to send. *)
Definition ProviderOk (c : SmsWorkerConfig.t) : Prop :=
  match SmsWorkerConfig.provider c with
  | twilio =>
      (exists account, SmsWorkerConfig.accountSid c = Some account /\ TWILIO_ACCOUNT_SID_REGEX account = true) /\
      given (SmsWorkerConfig.authToken c) = true /\
      (given (SmsWorkerConfig.messagingServiceSid c) = true \/ given (SmsWorkerConfig.phoneNumber c) = true) /\
      conforms E164_PHONE_REGEX (SmsWorkerConfig.phoneNumber c) = true /\
      conforms TWILIO_MESSAGING_SERVICE_SID_REGEX (SmsWorkerConfig.messagingServiceSid c) = true
  | messente =>
      given (SmsWorkerConfig.messenteUsername c) = true /\ given (SmsWorkerConfig.messentePassword c) = true /\
      given (SmsWorkerConfig.messenteSender c) = true
  | sns =>
      given (SmsWorkerConfig.snsRegion c) = true /\ conforms SNS_SENDER_ID_REGEX (SmsWorkerConfig.snsSenderId c) = true
  end.

Record WorkerOk `{Process} (c : SmsWorkerConfig.t) : Prop := {
  queue_ok : QueueOk (SmsWorkerConfig.queueConfig c);
  production_sends : SmsWorkerConfig.isProduction c = true -> SmsWorkerConfig.isMockMode c = false;
  provider_ok : SmsWorkerConfig.isMockMode c = false -> ProviderOk c;
  callback_ok : forall url, truthy (SmsWorkerConfig.statusCallbackUrl c) = Some url ->
    isValidHttpUrl url = true /\ (SmsWorkerConfig.isProduction c = true -> String.prefix "https://" url = true);
}.

Definition isCallingCode (code : string) : Prop := exists l, code = string_of l /\ forallb is_digit l = true /\ (1 <= length l <= 4)%nat.

Record AbuseOk (c : SmsAbuseConfig.t) : Prop := {
  codes_ok : Forall isCallingCode (SmsAbuseConfig.allowedCountryCodes c);
  daily_max_ok : within 1 1000 (SmsAbuseConfig.perPhoneDailyMax c);
  daily_cap_ok : within_option 1 10000000 (SmsAbuseConfig.dailySpendCap c);
  monthly_cap_ok : within_option 1 100000000 (SmsAbuseConfig.monthlySpendCap c);
}.

Lemma Res_bind_inv {A B} (m : Res A) (k : A -> Res B) b : (m ≫= k) = Ok b -> exists a, m = Ok a /\ k a = Ok b.
Proof. destruct m as [a|e]; [eauto | discriminate]. Qed.

Lemma refuse_inv b e u : refuse b e = Ok u -> b = false.
Proof. destruct b; [discriminate | reflexivity]. Qed.

Ltac res_inv :=
  repeat match goal with
  | H : (_ ≫= _) = Ok _ |- _ => apply Res_bind_inv in H; destruct H as (? & ? & H)
  | H : refuse _ _ = Ok _ |- _ => apply refuse_inv in H
  end.

Section well_formed.
Context `{Process}.

Lemma parseOptional_within name lo hi o : parseOptionalBoundedInteger name lo hi = Ok o -> within_option lo hi o.
Proof.
  unfold parseOptionalBoundedInteger, within_option, within. intros E n ->.
  destruct (env name) as [raw|]; [|discriminate]. destruct (bool_decide _); [discriminate|].
  destruct (integer_of _) as [z|]; [|discriminate]. destruct (z <? lo) eqn:L; [discriminate|].
  destruct (hi <? z) eqn:U; [discriminate|]. injection E as <-. lia.
Qed.

Lemma parseBounded_within name d lo hi n : within lo hi d -> parseBoundedInteger name d lo hi = Ok n -> within lo hi n.
Proof.
  unfold parseBoundedInteger, within. intros D E.
  destruct (env name) as [raw|]; [|congruence]. destruct (bool_decide _); [congruence|].
  destruct (integer_of _) as [z|]; [|discriminate]. destruct (z <? lo) eqn:L; [discriminate|].
  destruct (hi <? z) eqn:U; [discriminate|]. injection E as <-. lia.
Qed.

Lemma callingCode_ok l code : callingCode l = Ok code -> isCallingCode code.
Proof.
  unfold callingCode. set (n := match l with [] => [] | _ => _ end). destruct (forallb is_digit n) eqn:D; [|discriminate].
  unfold between. destruct (1 <=? length n)%nat eqn:L1; [|discriminate]. destruct (length n <=? 4)%nat eqn:L2; [|discriminate].
  intros [= <-]. apply Nat.leb_le in L1, L2. exists n. auto.
Qed.

Lemma callingCodes_ok codes l : callingCodes codes = Ok l -> Forall isCallingCode l.
Proof.
  revert l. induction codes as [|c codes IH]; intros l E; cbn in E; [injection E as <-; constructor|].
  res_inv. injection E as <-. constructor; [eapply callingCode_ok; eassumption | eauto].
Qed.

Lemma queue_config_ok c : getSmsQueueConfig = Ok c -> QueueOk c.
Proof.
  unfold getSmsQueueConfig. intros E. res_inv. injection E as <-.
  constructor; cbn; (eapply parseBounded_within; [|eassumption]); split; discriminate.
Qed.

Lemma given_conforms p o : given o = true -> conforms p o = true -> exists v, o = Some v /\ p v = true.
Proof. unfold given, conforms. destruct o as [[|c v]|]; cbn; try discriminate. eauto. Qed.

(** Settings that load are well formed.  Every bound holds, whatever the variables
    are; production never runs in mock mode; what the provider in use needs is present
    and of its form; the callback is an http URL, in production an https one; and the
    allowed countries are calling codes of one to four digits. *)
Theorem settings_are_well_formed (worker : SmsWorkerConfig.t) (abuse : SmsAbuseConfig.t) :
  loadSmsWorkerConfig = Ok worker -> loadSmsAbuseConfig = Ok abuse -> WorkerOk worker /\ AbuseOk abuse.
Proof.
  intros W A. split.
  - unfold loadSmsWorkerConfig in W. cbv zeta in W. apply Res_bind_inv in W as (queue & Q & W).
    apply Res_bind_inv in W as (p & P & W). apply Res_bind_inv in W as (ty & T & W).
    apply Res_bind_inv in W as (u1 & M1 & W). apply refuse_inv in M1. apply Res_bind_inv in W as (u2 & C & W).
    apply Res_bind_inv in W as (u3 & U1 & W). apply refuse_inv in U1. apply Res_bind_inv in W as (u4 & U2 & W).
    apply refuse_inv in U2. apply queue_config_ok in Q. injection W as <-. constructor; cbn -[given conforms sid].
    + exact Q.
    + intros E. rewrite E in M1. exact M1.
    + unfold ProviderOk. cbn -[given conforms sid]. intros E. rewrite E in C. destruct p; res_inv; cbn -[given conforms sid].
      * repeat match goal with H : negb _ = false |- _ => apply negb_false_iff in H end.
        repeat match goal with H : orb _ _ = false |- _ => apply orb_false_iff in H as [? ?] end.
        repeat match goal with H : negb _ = false |- _ => apply negb_false_iff in H end.
        split; [apply given_conforms; assumption|]. split; [assumption|]. split; [|split; assumption].
        repeat match goal with H : andb _ _ = false |- _ => apply andb_false_iff in H end.
        rewrite !negb_false_iff in *. tauto.
      * rewrite ?orb_false_iff, ?negb_false_iff in *. tauto.
      * rewrite ?orb_false_iff, ?negb_false_iff in *. tauto.
    + intros url E. apply negb_false_iff in U1. unfold conforms in U1, U2. rewrite E in U1, U2. split; [exact U1|].
      intros Ep. rewrite Ep in U2. apply negb_false_iff in U2. exact U2.
  - unfold loadSmsAbuseConfig in A. res_inv. injection A as <-. constructor; cbn.
    + match goal with H : parseCallingCodes _ = Ok _ |- _ => unfold parseCallingCodes in H; destruct (truthy _);
        [exact (callingCodes_ok _ _ H) | injection H as <-; constructor] end.
    + eapply parseBounded_within; [|eassumption]. split; discriminate.
    + eapply parseOptional_within; eassumption.
    + eapply parseOptional_within; eassumption.
Qed.
End well_formed.

(** ** Concrete settings *)

Definition demo_env (name : string) : option string :=
  if decide (name = "NODE_ENV"%string) then Some "production"%string
  else if decide (name = "SMS_PROVIDER"%string) then Some " Messente "%string
  else if decide (name = "MESSENTE_API_USERNAME"%string) then Some "user"%string
  else if decide (name = "MESSENTE_API_PASSWORD"%string) then Some "secret"%string
  else if decide (name = "MESSENTE_SENDER"%string) then Some "Deliivo"%string
  else if decide (name = "SMS_ALLOWED_COUNTRY_CODES"%string) then Some "372, +49"%string
  else if decide (name = "SMS_PER_PHONE_DAILY_MAX"%string) then Some "2"%string
  else None.
Definition demo_process : Process := {| env := demo_env; isValidHttpUrl := fun _ => true |}.

Lemma settings_are_well_formed_witness : exists worker abuse,
  @loadSmsWorkerConfig demo_process = Ok worker /\ @loadSmsAbuseConfig demo_process = Ok abuse /\
  SmsAbuseConfig.allowedCountryCodes abuse = ["372"; "49"]%string /\ @WorkerOk demo_process worker /\ AbuseOk abuse.
Proof.
  eexists _, _. split; [vm_compute; reflexivity|]. split; [vm_compute; reflexivity|]. split; [reflexivity|].
  apply (@settings_are_well_formed demo_process); vm_compute; reflexivity.
Defined.
