(* ===== verification/Limits.v ===== *)
(** * Limits on requests and messages

    Models the counters in Redis that keep callers within bounds: the store of the
    rate limiters ([middlewares/rateLimit.ts]) and the gate of outgoing messages
    ([modules/sms/sms.abuse.ts]). *)

From Stdlib Require Import ZArith Lia.
From stdpp Require Import base list option strings gmap pretty.
From S2P Require Import Prelude JsNumber JsText Money Schema Store Time Gateway Rewards Redis SmsConfig.

Open Scope Z_scope.

(** ** The store of a rate limiter *)

Module IncrementResponse.
Record t := { totalHits : Z; resetTime : Z }.
End IncrementResponse.

Section store.
Context `{Network}.

Definition increment (prefix : string) (windowMs : Z) (key : string) : R IncrementResponse.t :=
  let redisKey := prefix +:+ ":" +:+ key in
  try_catch (
    totalHits ← INCR redisKey;
    when (totalHits =? 1) (PEXPIRE redisKey windowMs);;
    ttl ← PTTL redisKey;
    now ← Date_now;
    mret {| IncrementResponse.totalHits := totalHits;
            IncrementResponse.resetTime := now + (if 0 <? ttl then ttl else windowMs) |})
  (fun _ =>
    now ← Date_now;
    mret {| IncrementResponse.totalHits := 0; IncrementResponse.resetTime := now + windowMs |}).

(** ** The gate of outgoing messages *)

Definition PER_PHONE_TTL_SEC : Z := 60 * 60 * 48.
Definition DAILY_TTL_SEC : Z := 60 * 60 * 48.
Definition MONTHLY_TTL_SEC : Z := 60 * 60 * 24 * 40.

(** [replace('-', '')]: the first dash. *)
Fixpoint drop_dash (s : string) : string :=
  match s with
  | EmptyString => EmptyString
  | String c s' => if (Ascii.nat_of_ascii c =? 45)%nat then s' else String c (drop_dash s')
  end.

Definition dayId (now : Z) : string := drop_dashes (String.substring 0 10 (toISOString now)).
Definition monthId (now : Z) : string := drop_dash (String.substring 0 7 (toISOString now)).

Definition bumpCounter (key : string) (ttlSec : Z) : R Z :=
  value ← INCR key;
  when (value =? 1) (EXPIRE key ttlSec);;
  mret value.

(** Whether the administrators are to be told; the mail itself is best effort. *)
Definition alertSpendCapOnce (scope windowId : string) (ttlSec : Z) : R bool :=
  SET_NX ("sms:spend:alerted:" +:+ scope +:+ ":" +:+ windowId) (VText "1") ttlSec.

(** One of the global caps: [Some e] refuses. *)
Definition checkSpendCap (scope window : string) (ttlSec : Z) (cap : option Z) : R (option string) :=
  match cap with
  | None => mret None
  | Some cap =>
      count ← bumpCounter ("sms:spend:" +:+ window) ttlSec;
      if cap <? count then
        alertSpendCapOnce scope window ttlSec;;
        mret (Some "SMS temporarily unavailable. Please try again later."%string)
      else mret None
  end.

(** [parsePhoneNumberFromString(to)?.countryCallingCode] is computed by a library. *)
Definition assertSmsAllowed (countryCallingCode : string -> option string) (config : SmsAbuseConfig.t) (to : string)
    : R (option string) :=
  if bool_decide (SmsAbuseConfig.allowedCountryCodes config <> []) &&
     match truthy (countryCallingCode to) with
     | Some code => negb (bool_decide (code ∈ SmsAbuseConfig.allowedCountryCodes config))
     | None => true
     end
  then mret (Some "SMS to this country is not supported"%string)
  else
    now ← Date_now;
    perPhoneCount ← bumpCounter ("sms:phone:" +:+ dayId now +:+ ":" +:+ to) PER_PHONE_TTL_SEC;
    if SmsAbuseConfig.perPhoneDailyMax config <? perPhoneCount then
      mret (Some "Too many OTP requests for this number today. Try again later."%string)
    else
      daily ← checkSpendCap "daily" (dayId now) DAILY_TTL_SEC (SmsAbuseConfig.dailySpendCap config);
      match daily with
      | Some e => mret (Some e)
      | None => checkSpendCap "monthly" (monthId now) MONTHLY_TTL_SEC (SmsAbuseConfig.monthlySpendCap config)
      end.
End store.

(** ** Windows of the rate limiter *)

(** Of values that count up from one, at most [max] are within [max]. *)
Lemma count_le_seqZ {A} (f : A -> Z) (l : list A) (n max : Z) : 0 <= max -> f <$> l = seqZ 1 n ->
  (length (List.filter (fun x => (f x <=? max)%Z) l) <= Z.to_nat max)%nat.
Proof.
  intros Hm E. assert (G : forall m, f <$> l = seqZ m n -> (length (List.filter (fun x => (f x <=? max)%Z) l) <= Z.to_nat (max + 1 - m))%nat).
  { clear E. revert n. induction l as [|x l IH]; intros n m E; [cbn; lia|].
    destruct (Z.le_gt_cases n 0) as [Ln|Ln]; [rewrite seqZ_nil in E by lia; discriminate|].
    rewrite (seqZ_cons m n) in E by lia. cbn in E. injection E as Ex El. specialize (IH _ _ El). cbn [List.filter].
    destruct (f x <=? max) eqn:C; [apply Z.leb_le in C | apply Z.leb_gt in C]; cbn [length]; lia. }
  specialize (G 1 E). replace (max + 1 - 1) with max in G by lia. exact G.
Qed.

Section windows.
Context `{Network}.

(** The hits of requests that come one after the other, each after some wait, with the
    times at which Redis counted them. *)
Fixpoint hits (prefix : string) (windowMs : Z) (key : string) (waits : list nat) (s : Redis.t) : list (Z * Res IncrementResponse.t) :=
  match waits with
  | [] => []
  | w :: waits =>
      let s0 := {| Redis.keys := Redis.keys s; Redis.clock := Redis.clock s + Z.of_nat w; Redis.commands := Redis.commands s |} in
      let '(s', r) := increment prefix windowMs key s0 in
      (Redis.clock s0 + delay (Redis.commands s0), r) :: hits prefix windowMs key waits s'
  end.

(** The counter stands at [n] and lives at least until [until]. *)
Definition counting (k : string) (n until : Z) (s : Redis.t) : Prop := exists e,
  Redis.keys s !! k = Some e /\ Redis.value e = VInt n /\
  match Redis.expireAt e with Some x => until <= x | None => False end.

Lemma wp_increment prefix windowMs key (s : Redis.t) (n until : Z) Q : 0 <= n ->
  let k := prefix +:+ ":" +:+ key in let t := Redis.clock s + delay (Redis.commands s) in
  (if n =? 0 then lookupAt t (Redis.keys s) k = None /\ until <= t + windowMs
   else counting k n until s /\ t <= until) ->
  (forall s' r, counting k (n + 1) until s' -> t <= Redis.clock s' -> IncrementResponse.totalHits r = n + 1 -> Q s' (Ok r)) ->
  wp (increment prefix windowMs key) Q s.
Proof.
  intros Hn k t Hc HQ. unfold increment. fold k. apply wp_try_catch. apply wp_bind. apply wp_command. intros t1 L1 E1.
  fold t in E1. subst t1.
  destruct (n =? 0) eqn:N; [apply Z.eqb_eq in N; subst n; destruct Hc as [Ab U] | apply Z.eqb_neq in N; destruct Hc as [(e & E & V & X) U]].
  - rewrite Ab. cbn. apply wp_bind. apply wp_command. intros t2 L2 _. cbn in L2. cbn. unfold lookupAt at 1 2.
    rewrite lookup_insert_eq. cbn. apply wp_bind. apply wp_command. intros t3 L3 _. cbn in L3. cbn.
    apply wp_bind. apply wp_get. apply wp_ret. apply HQ; [|cbn; lia | reflexivity].
    eexists. split; [apply lookup_insert_eq|]. split; [reflexivity|]. cbn. lia.
  - assert (Lk : lookupAt t (Redis.keys s) k = Some e).
    { unfold lookupAt. rewrite E. unfold liveAt. destruct (Redis.expireAt e) as [x|]; [|destruct X].
      rewrite (proj2 (Z.leb_le t x)) by lia. reflexivity. }
    rewrite Lk. cbn. rewrite V. cbn. replace (n + 1 =? 1) with false by (symmetry; apply Z.eqb_neq; lia). cbn [when].
    apply wp_bind. apply wp_ret. apply wp_bind. apply wp_command. intros t3 L3 _. cbn in L3. cbn.
    apply wp_bind. apply wp_get. apply wp_ret. apply HQ; [|cbn; lia | reflexivity].
    eexists. split; [apply lookup_insert_eq|]. split; [reflexivity | exact X].
Qed.

Lemma hits_count prefix windowMs key waits (s : Redis.t) (n until : Z) : 0 < n ->
  counting (prefix +:+ ":" +:+ key) n until s ->
  Forall (fun h => h.1 <= until) (hits prefix windowMs key waits s) ->
  exists rs, (hits prefix windowMs key waits s).*2 = map Ok rs /\ IncrementResponse.totalHits <$> rs = seqZ (n + 1) (Z.of_nat (length waits)).
Proof.
  revert n s. induction waits as [|w waits IH]; intros n s Hn C F; [exists []; split; reflexivity|].
  cbn [hits] in *. set (s0 := {| Redis.keys := _ |}) in *.
  destruct (increment prefix windowMs key s0) as [s' r] eqn:R.
  apply Forall_cons in F as [F1 F]. cbn in F1.
  assert (W : wp (increment prefix windowMs key) (fun s' r => counting (prefix +:+ ":" +:+ key) (n + 1) until s' /\
    exists v, r = Ok v /\ IncrementResponse.totalHits v = n + 1) s0).
  { apply (wp_increment prefix windowMs key s0 n until); [lia | | intros s1 v Cv _ Tv; eauto].
    replace (n =? 0) with false by (symmetry; apply Z.eqb_neq; lia). split; [exact C | exact F1]. }
  unfold wp in W. rewrite R in W. cbn in W. destruct W as [C' (v & -> & Tv)].
  destruct (IH (n + 1) s' ltac:(lia) C' F) as (rs & E1 & E2). exists (v :: rs). cbn [fmap list_fmap map].
  split; [f_equal; exact E1|]. rewrite E2, Tv. cbn [length]. rewrite Nat2Z.inj_succ, (seqZ_cons (n + 1) (Z.succ _)) by lia. f_equal.
  f_equal; lia.
Qed.

(** A window counts every request.  From the first request of a window, and however
    long the requests take, those that Redis counts before the window ends are
    numbered one, two, three and so on: at most [max] of them pass a limit of [max]. *)
Theorem window_counts_every_request (prefix key : string) (windowMs : Z) (w : nat) (waits : list nat) (s : Redis.t) :
  let t0 := Redis.clock s + Z.of_nat w + delay (Redis.commands s) in
  lookupAt t0 (Redis.keys s) (prefix +:+ ":" +:+ key) = None ->
  Forall (fun h => h.1 <= t0 + windowMs) (hits prefix windowMs key (w :: waits) s) ->
  (exists rs, (hits prefix windowMs key (w :: waits) s).*2 = map Ok rs /\
     IncrementResponse.totalHits <$> rs = seqZ 1 (Z.of_nat (length (w :: waits))) /\
     forall max, 0 <= max -> (length (List.filter (fun r => (IncrementResponse.totalHits r <=? max)%Z) rs) <= Z.to_nat max)%nat).
Proof.
  intros t0 Ab F.
  enough (A : exists rs, (hits prefix windowMs key (w :: waits) s).*2 = map Ok rs /\
     IncrementResponse.totalHits <$> rs = seqZ 1 (Z.of_nat (length (w :: waits)))).
  { destruct A as (rs & E1 & E2). exists rs. split; [exact E1|]. split; [exact E2|]. intros max Hm.
    apply (count_le_seqZ IncrementResponse.totalHits rs _ max Hm E2). }
  cbn [hits] in *. set (s0 := {| Redis.keys := _ |}) in *.
  destruct (increment prefix windowMs key s0) as [s' r] eqn:R. apply Forall_cons in F as [_ F].
  assert (W : wp (increment prefix windowMs key) (fun s' r => counting (prefix +:+ ":" +:+ key) (0 + 1) (t0 + windowMs) s' /\
    exists v, r = Ok v /\ IncrementResponse.totalHits v = 0 + 1) s0).
  { apply (wp_increment prefix windowMs key s0 0 (t0 + windowMs)); [lia | | intros s1 v Cv _ Tv; eauto].
    split; [exact Ab|]. unfold s0, t0. cbn. lia. }
  unfold wp in W. rewrite R in W. cbn in W. destruct W as [C' (v & -> & Tv)].
  destruct (hits_count prefix windowMs key waits s' 1 (t0 + windowMs) ltac:(lia) C' F) as (rs & E1 & E2).
  exists (v :: rs). cbn [fmap list_fmap map]. split; [f_equal; exact E1|].
  rewrite E2, Tv. cbn [length]. rewrite Nat2Z.inj_succ, (seqZ_cons 1 (Z.succ _)) by lia. f_equal. f_equal; lia.
Qed.
End windows.

(** ** Messages to one number in a day *)

Lemma substring_app (n : nat) (a b : string) : (n <= String.length a)%nat ->
  String.substring 0 n (a +:+ b) = String.substring 0 n a.
Proof.
  revert a. induction n as [|n IH]; intros a L; [destruct a, b; reflexivity|].
  destruct a as [|c a]; cbn in L; [lia|]. change (String c a +:+ b) with (String c (a +:+ b)). cbn. f_equal. apply IH. lia.
Qed.

Lemma string_length_app (a b : string) : String.length (a +:+ b) = (String.length a + String.length b)%nat.
Proof.
  induction a as [|c a IH]; [reflexivity|]. change (String c a +:+ b) with (String c (a +:+ b)). cbn. f_equal. exact IH.
Qed.

Lemma string_app_assoc (a b c : string) : a +:+ (b +:+ c) = (a +:+ b) +:+ c.
Proof.
  induction a as [|x a IH]; [reflexivity|]. change (String x (a +:+ (b +:+ c)) = String x ((a +:+ b) +:+ c)). f_equal. exact IH.
Qed.

Lemma repeat_length (n : nat) : String.length (repeat_string "0" n) = n.
Proof. induction n as [|n IH]; [reflexivity|].
  change (repeat_string "0" (S n)) with (String (Ascii.ascii_of_nat 48) (repeat_string "0" n)). cbn. f_equal. exact IH.
Qed.

Lemma padded_length (w : nat) (n : Z) : (w <= String.length (padded w n))%nat.
Proof. unfold padded. rewrite string_length_app, repeat_length. lia. Qed.

(** The first ten characters of a date are its year, month and day. *)
Lemma substring_date (y m d rest : string) : (4 <= String.length y)%nat -> (2 <= String.length m)%nat ->
  (2 <= String.length d)%nat ->
  String.substring 0 10 (y +:+ "-" +:+ m +:+ "-" +:+ d +:+ rest) = String.substring 0 10 (y +:+ "-" +:+ m +:+ "-" +:+ d).
Proof.
  intros Ly Lm Ld. replace (y +:+ "-" +:+ m +:+ "-" +:+ d +:+ rest) with ((y +:+ "-" +:+ m +:+ "-" +:+ d) +:+ rest)
    by (rewrite <- !string_app_assoc; reflexivity).
  apply substring_app. rewrite !string_length_app. cbn [String.length]. lia.
Qed.

(** The day key depends on the day alone. *)
Lemma dayId_of (a b : Z) : dayOf a = dayOf b -> dayId a = dayId b.
Proof.
  intros E. unfold dayId. f_equal. unfold toISOString. cbv zeta.
  replace (getUTCFullYear b) with (getUTCFullYear a) by (unfold getUTCFullYear; rewrite E; reflexivity).
  replace (getUTCMonth b) with (getUTCMonth a) by (unfold getUTCMonth; rewrite E; reflexivity).
  replace (getUTCDate b) with (getUTCDate a) by (unfold getUTCDate; rewrite E; reflexivity).
  assert (L : (4 <= String.length (if (0 <=? getUTCFullYear a)%Z && (getUTCFullYear a <=? 9999)%Z then padded 4 (getUTCFullYear a)
    else (if (getUTCFullYear a <? 0)%Z then "-" else "+") +:+ padded 6 (Z.abs (getUTCFullYear a))))%nat).
  { destruct (_ && _); [apply padded_length|]. rewrite string_length_app. pose proof (padded_length 6 (Z.abs (getUTCFullYear a))). lia. }
  rewrite !(substring_date _ _ _ _ L) by apply padded_length. reflexivity.
Qed.

Section daily.
Context `{Network}.
Context (countryCallingCode : string -> option string) (config : SmsAbuseConfig.t) (to : string) (day : Z).
Hypothesis prompt : forall n, delay n < msPerDay.

(** The counter of the number, and the time until which it is kept. *)
Definition phoneKey : string := "sms:phone:" +:+ dayId (day * msPerDay) +:+ ":" +:+ to.
Definition keptUntil : Z := (day + 2) * msPerDay.

(** At least [n] messages of the day are counted, as long as the key must be kept. *)
Definition counts (n : Z) (e : Redis.entry) : Prop :=
  match Redis.value e with VInt m => n <= m | _ => True end /\
  match Redis.expireAt e with Some x => keptUntil <= x | None => True end.

Definition counted (n : Z) (t : Z) (keys : gmap string Redis.entry) : Prop := day * msPerDay <= t /\
  (t <= keptUntil -> match keys !! phoneKey with None => n = 0 | Some e => counts n e end).

Lemma counted_entry n t k v x keys : counted n t keys ->
  (k = phoneKey -> t <= keptUntil -> counts n {| Redis.value := v; Redis.expireAt := x |}) ->
  counted n t (<[k := {| Redis.value := v; Redis.expireAt := x |}]> keys).
Proof.
  intros [L C] V. split; [exact L|]. intros Lt. specialize (C Lt). destruct (decide (k = phoneKey)) as [->|N].
  - rewrite lookup_insert_eq. exact (V eq_refl Lt).
  - rewrite lookup_insert_ne by exact N. exact C.
Qed.

(** A key that must be kept has not expired. *)
Lemma counted_lookup n t keys : counted n t keys -> t <= keptUntil ->
  match lookupAt t keys phoneKey with None => n = 0 | Some e => counts n e end.
Proof.
  intros [_ C] Lt. specialize (C Lt). unfold lookupAt, liveAt. destruct (keys !! phoneKey) as [e|]; [|exact C].
  pose proof (proj2 C) as X. destruct (Redis.expireAt e) as [x|]; [|exact C]. rewrite (proj2 (Z.leb_le t x)) by lia. exact C.
Qed.

Lemma counted_later n t0 t keys : t0 <= t -> counted n t0 keys -> counted n t keys.
Proof. intros L [L0 C]. split; [lia|]. intros Lt. apply C. lia. Qed.

Lemma counted_SET_NX n key s sec : 60 * 60 * 48 <= sec -> preserves (on_redis (counted n)) (SET_NX key (VText s) sec).
Proof.
  intros L. apply preserves_command. intros t0 t keys Lt C. apply (counted_later _ _ _ _ Lt) in C. cbv beta.
  destruct (lookupAt t keys key); [exact C|]. cbn [fst]. apply counted_entry; [exact C|]. intros _ _.
  split; [exact Logic.I|]. cbn. destruct C as [C _]. unfold keptUntil, msPerDay in *. lia.
Qed.

Lemma counted_INCR n key : preserves (on_redis (counted n)) (INCR key).
Proof.
  apply preserves_command. intros t0 t keys Lt C. apply (counted_later _ _ _ _ Lt) in C. cbv beta.
  destruct (lookupAt t keys key) as [e|] eqn:E.
  - destruct (Redis.value e) as [|m|] eqn:V; cbn [fst]; try exact C. apply counted_entry; [exact C|].
    intros -> Lk. pose proof (counted_lookup n t keys C Lk) as K. rewrite E in K. destruct K as [K1 K2]. rewrite V in K1.
    split; [cbn; lia | exact K2].
  - cbn [fst]. apply counted_entry; [exact C|]. intros -> Lk. pose proof (counted_lookup n t keys C Lk) as K.
    rewrite E in K. split; [cbn; lia | exact Logic.I].
Qed.

Lemma counted_EXPIRE n key sec : 60 * 60 * 48 <= sec -> preserves (on_redis (counted n)) (EXPIRE key sec).
Proof.
  intros L. apply preserves_command. intros t0 t keys Lt C. apply (counted_later _ _ _ _ Lt) in C. cbv beta.
  destruct (lookupAt t keys key) as [e|] eqn:E; cbn [fst]; [|exact C]. apply counted_entry; [exact C|].
  intros -> Lk. pose proof (counted_lookup n t keys C Lk) as K. rewrite E in K. split; [exact (proj1 K)|]. cbn.
  destruct C as [C _]. unfold keptUntil, msPerDay in *. lia.
Qed.

Lemma counted_bump n key sec : 60 * 60 * 48 <= sec -> preserves (on_redis (counted n)) (bumpCounter key sec).
Proof.
  intros L. apply preserves_bind; [apply counted_INCR|]. intros v. apply preserves_bind; [|intros; apply preserves_ret].
  unfold when. destruct (v =? 1); [apply counted_EXPIRE, L | apply preserves_ret].
Qed.

Lemma counted_spend n scope window sec cap : 60 * 60 * 48 <= sec ->
  preserves (on_redis (counted n)) (checkSpendCap scope window sec cap).
Proof.
  intros L. unfold checkSpendCap. destruct cap as [cap|]; [|apply preserves_ret].
  apply preserves_bind; [apply counted_bump, L|]. intros c. destruct (cap <? c); [|apply preserves_ret].
  apply preserves_bind; [apply counted_SET_NX, L|]. intros _. apply preserves_ret.
Qed.

Lemma phoneKey_at now : dayOf now = day -> "sms:phone:" +:+ dayId now +:+ ":" +:+ to = phoneKey.
Proof.
  intros D. unfold phoneKey. do 2 f_equal. apply dayId_of. rewrite D. symmetry. apply Z.div_mul. discriminate.
Qed.

Lemma counted_down n m t keys : 0 <= m <= n -> counted n t keys -> counted m t keys.
Proof.
  intros L [L0 C]. split; [exact L0|]. intros Lt. specialize (C Lt). destruct (keys !! phoneKey) as [e|]; [|lia].
  destruct C as [C1 C2]. split; [destruct (Redis.value e); lia || exact Logic.I | exact C2].
Qed.

(** The count of the number goes up by one, whatever it stood at. *)
Lemma bump_phone n now s : 0 <= n -> dayOf now = day -> Redis.clock s = now -> on_redis (counted n) s ->
  wp (bumpCounter phoneKey PER_PHONE_TTL_SEC) (fun s' r =>
    on_redis (counted n) s' /\ match r with Ok c => n + 1 <= c /\ on_redis (counted (n + 1)) s' | Err _ => True end) s.
Proof.
  intros Hn D Hs C. unfold bumpCounter. apply wp_bind.
  assert (Up : now + delay (Redis.commands s) <= keptUntil).
  { pose proof (prompt (Redis.commands s)). unfold keptUntil, msPerDay in *. unfold dayOf, msPerDay in D.
    pose proof (Z.mod_pos_bound now 86400000 ltac:(lia)). pose proof (Z.div_mod now 86400000 ltac:(lia)). lia. }
  apply wp_command. intros t L E. rewrite Hs in E. rewrite <- E in Up. unfold on_redis in C.
  apply (counted_later _ _ t _ L) in C. pose proof (counted_lookup n t _ C Up) as K.
  assert (G : forall v x, n + 1 <= v -> counts (n + 1) {| Redis.value := VInt v; Redis.expireAt := x |} ->
    let s1 := {| Redis.keys := <[phoneKey := {| Redis.value := VInt v; Redis.expireAt := x |}]> (Redis.keys s);
                 Redis.clock := t; Redis.commands := S (Redis.commands s) |} in
    wp (when (v =? 1) (EXPIRE phoneKey PER_PHONE_TTL_SEC);; mret v) (fun s' r =>
      on_redis (counted n) s' /\ match r with Ok c => n + 1 <= c /\ on_redis (counted (n + 1)) s' | Err _ => True end) s1).
  { intros v x Lv Cv s1. assert (C1 : on_redis (counted (n + 1)) s1).
    { split; [exact (proj1 C)|]. intros _. cbn. rewrite lookup_insert_eq. exact Cv. }
    apply wp_bind. apply (wp_preserves (on_redis (counted (n + 1)))); [|exact C1|].
    - unfold when. destruct (v =? 1); [apply counted_EXPIRE; discriminate | apply preserves_ret].
    - intros s2 [u|er] C2; [apply wp_ret|]; (split; [apply (counted_down (n + 1)); [lia | exact C2]|]); auto. }
  destruct (lookupAt t (Redis.keys s) phoneKey) as [e|].
  - destruct (Redis.value e) as [|m|] eqn:V; cbn; auto. destruct K as [K1 K2]. rewrite V in K1.
    apply G; [lia|]. split; [cbn; lia | exact K2].
  - subst n. apply G; [lia|]. split; [cbn; lia | exact Logic.I].
Qed.

(** A message that is allowed is counted, and is within the limit. *)
Lemma assert_counts n number s : 0 <= n -> dayOf (Redis.clock s) = day -> on_redis (counted n) s ->
  wp (assertSmsAllowed countryCallingCode config number) (fun s' r => on_redis (counted n) s' /\
    (number = to -> r = Ok None -> on_redis (counted (n + 1)) s' /\ n + 1 <= SmsAbuseConfig.perPhoneDailyMax config)) s.
Proof.
  intros Hn D C. unfold assertSmsAllowed. destruct (_ && _); [apply wp_ret; split; [exact C | discriminate]|].
  apply wp_bind, wp_get. cbv beta iota zeta.
  match goal with |- context [fun c : Z => if SmsAbuseConfig.perPhoneDailyMax config <? c then @?a c else @?b c] =>
    set (rest := fun c : Z => if SmsAbuseConfig.perPhoneDailyMax config <? c then a c else b c) end.
  assert (P : forall m c, preserves (on_redis (counted m)) (rest c)).
  { intros m c. unfold rest. destruct (_ <? c); [apply preserves_ret|].
    apply preserves_bind; [apply counted_spend; discriminate|].
    intros [e|]; [apply preserves_ret | apply counted_spend; discriminate]. }
  apply wp_bind. destruct (decide (number = to)) as [->|N].
  - rewrite (phoneKey_at _ D). refine (wp_mono _ _ _ _ (bump_phone n _ s Hn D eq_refl C) _).
    intros s1 [c|e]; cbv beta iota; [|intros [C1 _]; split; [exact C1 | discriminate]]. intros [C1 [Lc C2]].
    change (wp (rest c) (fun s' r => on_redis (counted n) s' /\ (to = to -> r = Ok None ->
      on_redis (counted (n + 1)) s' /\ n + 1 <= SmsAbuseConfig.perPhoneDailyMax config)) s1).
    apply wp_run. intros s2 r R. pose proof (P n c s1 C1) as P1. pose proof (P (n + 1) c s1 C2) as P2. rewrite R in P1, P2.
    split; [exact P1|]. intros _ ->. split; [exact P2|]. unfold rest in R. destruct (_ <? c) eqn:Lm; [discriminate R|].
    apply Z.ltb_ge in Lm. lia.
  - apply (wp_preserves (on_redis (counted n))); [apply counted_bump; discriminate | exact C|].
    intros s1 [c|e] C1; [|split; [exact C1 | contradiction]].
    apply (wp_preserves _ _ _ _ (P n c) C1). intros s2 r C2. split; [exact C2 | contradiction].
Qed.

(** Messages one after the other, each after some wait: their times, numbers and answers. *)
Fixpoint sends (calls : list (nat * string)) (s : Redis.t) : list (Z * string * Res (option string)) :=
  match calls with
  | [] => []
  | (w, number) :: calls =>
      let s0 := {| Redis.keys := Redis.keys s; Redis.clock := Redis.clock s + Z.of_nat w; Redis.commands := Redis.commands s |} in
      let '(s', r) := assertSmsAllowed countryCallingCode config number s0 in
      (Redis.clock s0, number, r) :: sends calls s'
  end.

Definition allowedTo (x : Z * string * Res (option string)) : bool :=
  bool_decide (x.1.2 = to) && match x.2 with Ok None => true | _ => false end.

Lemma sends_within n calls s : 0 <= n -> on_redis (counted n) s -> Forall (fun x => dayOf x.1.1 = day) (sends calls s) ->
  (length (List.filter allowedTo (sends calls s)) <= Z.to_nat (SmsAbuseConfig.perPhoneDailyMax config - n))%nat.
Proof.
  revert n s. induction calls as [|[w number] calls IH]; intros n s Hn C F; [cbn; lia|]. cbn [sends] in *.
  set (s0 := {| Redis.keys := _ |}) in *.
  assert (C0 : on_redis (counted n) s0) by (refine (counted_later _ _ _ _ _ C); cbn; lia).
  destruct (assertSmsAllowed countryCallingCode config number s0) as [s' r] eqn:R.
  apply Forall_cons in F as [F1 F]. pose proof (assert_counts n number s0 Hn F1 C0) as W. unfold wp in W. rewrite R in W.
  destruct W as [C1 W]. cbn [List.filter]. unfold allowedTo at 1. cbn [fst snd].
  destruct (bool_decide (number = to)) eqn:B; cbn [andb]; [|exact (IH n s' Hn C1 F)].
  apply bool_decide_eq_true in B. destruct r as [[e|]|e]; try exact (IH n s' Hn C1 F).
  destruct (W B eq_refl) as [C2 L]. specialize (IH (n + 1) s' ltac:(lia) C2 F). cbn [length]. lia.
Qed.

(** A number gets at most [perPhoneDailyMax] messages a day.  Whatever messages to
    this and to other numbers are asked for during a day, one after the other, and whatever
    other caps refuse: no more than the limit of them are allowed for the number. *)
Theorem number_is_capped_daily (calls : list (nat * string)) (s : Redis.t) :
  day * msPerDay <= Redis.clock s -> Redis.keys s !! phoneKey = None ->
  Forall (fun x => dayOf x.1.1 = day) (sends calls s) ->
  (length (List.filter allowedTo (sends calls s)) <= Z.to_nat (SmsAbuseConfig.perPhoneDailyMax config))%nat.
Proof.
  intros L E F. pose proof (sends_within 0 calls s ltac:(lia)) as W. rewrite Z.sub_0_r in W. apply W; [|exact F].
  split; [exact L|]. intros _. rewrite E. reflexivity.
Qed.
End daily.

(** ** Concrete runs *)

Lemma five_nonneg (n : nat) : 0 <= 5.
Proof. lia. Qed.
Definition quick_network : Network := {| delay := fun _ => 5; delay_nonneg := five_nonneg; ttl_seconds := fun ms => ms / 1000 |}.
Definition empty_redis : Redis.t := {| Redis.keys := ∅; Redis.clock := 0; Redis.commands := 0 |}.

Lemma forallb_Forall_le {A} (l : list (Z * A)) (m : Z) : forallb (fun h => h.1 <=? m) l = true -> Forall (fun h => h.1 <= m) l.
Proof. rewrite forallb_forall, Forall_forall. intros E x Hx. apply Z.leb_le, E, list_elem_of_In, Hx. Qed.

Lemma forallb_Forall_day {A B} (l : list (Z * A * B)) (d : Z) :
  forallb (fun x => dayOf x.1.1 =? d) l = true -> Forall (fun x => dayOf x.1.1 = d) l.
Proof. rewrite forallb_forall, Forall_forall. intros E x Hx. apply Z.eqb_eq, E, list_elem_of_In, Hx. Qed.

Lemma window_counts_every_request_witness : exists rs,
  (@hits quick_network "rl:auth" 60000 "10.0.0.1" [100; 200; 300]%nat empty_redis).*2 = map Ok rs /\
  IncrementResponse.totalHits <$> rs = [1; 2; 3].
Proof.
  destruct (@window_counts_every_request quick_network "rl:auth" "10.0.0.1" 60000 100 [200; 300]%nat empty_redis)
    as (rs & E1 & E2 & _); [vm_compute; reflexivity | | exists rs; split; [exact E1 | exact E2]].
  apply forallb_Forall_le. vm_compute. reflexivity.
Defined.

Definition demo_sms_config : SmsAbuseConfig.t := {|
  SmsAbuseConfig.allowedCountryCodes := ["372"%string]; SmsAbuseConfig.perPhoneDailyMax := 2;
  SmsAbuseConfig.dailySpendCap := Some 100; SmsAbuseConfig.monthlySpendCap := None; SmsAbuseConfig.adminAlertEmail := None |}.
Definition demo_calling (to : string) : option string := if String.prefix "+372" to then Some "372"%string else None.
Definition demo_sends : list (nat * string) := [(1000%nat, "+37255501"%string); (1000%nat, "+37255502"%string);
  (1000%nat, "+37255501"%string); (1000%nat, "+37255501"%string); (1000%nat, "+4915155"%string)].

Lemma prompt_quick n : @delay quick_network n < msPerDay.
Proof. reflexivity. Qed.

Lemma number_is_capped_daily_witness :
  (length (List.filter (allowedTo "+37255501") (@sends quick_network demo_calling demo_sms_config demo_sends empty_redis)) <= 2)%nat.
Proof.
  refine (@number_is_capped_daily quick_network demo_calling demo_sms_config "+37255501" 0 prompt_quick demo_sends empty_redis
    _ _ _); [discriminate | reflexivity |].
  apply forallb_Forall_day. vm_compute. reflexivity.
Defined.
