(* ===== verification/RideRequest.v ===== *)
(** * Ride requests at checkout

    Models [modules/ride-request/ride-request.booking.ts],
    [ride-request.payment.ts] and [ride-request.policy.ts]: a rider's request is
    answered by offers of drivers; selecting one reserves it for the checkout, and
    the payment confirms it together with the booking.  Also the overlap check of
    [publish-ride/draft-ride.service.ts] it uses. *)

From Stdlib Require Import ZArith QArith Lia.
From stdpp Require Import base list option strings gmap.
From S2P Require Import Prelude JsNumber Schema Store Money Time Gateway.

Open Scope Z_scope.

(** ** Policy *)

Definition REQUEST_CHECKOUT_MS : Z := 15 * 60 * 1000.

Definition assertRequestWindow (after before now : Z) : Res unit :=
  if (after <? now + 3 * 60 * 60 * 1000) || (before <? after) || (24 * 60 * 60 * 1000 <? before - after)
     || (now + 180 * 24 * 60 * 60 * 1000 <? before)
  then Err "Choose a future travel window of no more than 24 hours, at least three hours from now."
  else Ok tt.

Definition assertOfferFits (request : RideRequest.t) (departure seats : Z) : Res unit :=
  if (departure <? RideRequest.departureAfter request) || (RideRequest.departureBefore request <? departure)
  then Err "Departure must be inside the requested time window."
  else if seats <? RideRequest.seats request
  then Err "The vehicle must offer enough seats for the requesting party."
  else Ok tt.

(** ** Overlapping rides of a driver *)

Definition ACTIVE_DRIVER_RIDE_STATUSES : list RideStatus.t :=
  [RideStatus.PUBLISHED; RideStatus.SCHEDULED; RideStatus.READY_TO_START; RideStatus.IN_PROGRESS;
   RideStatus.COMPLETION_PENDING].
Definition MIN_OVERLAP_DURATION_SECONDS : Z := 60 * 60.

(** The start of a ride ([combineDepartureDateTimeUtc] of draft-ride.service.ts,
    which checks nothing): missing minutes count as 0, [None] is the invalid date,
    which no comparison accepts, and [Date.UTC] truncates its arguments. *)
Definition rideStart (departureDate : Z) (departureTime : string) : option Z :=
  let '(h, m) := clock_pieces departureTime in
  let minutes := match (split_colon (chars departureTime)).2 with None => Some (num_of_Z 0) | Some _ => m end in
  match h, minutes with
  | Some h, Some m => Some (setUTCHours departureDate (date_of_num h) (date_of_num m))
  | _, _ => None
  end.

Definition endTimeForRideWindow (start : Z) (durationSeconds : option Z) : Z :=
  start + Z.max (default 0 durationSeconds) MIN_OVERLAP_DURATION_SECONDS * 1000.

Definition overlaps (start1 : option Z) (duration1 : option Z) (start2 : option Z) (duration2 : option Z) : bool :=
  match start1, start2 with
  | Some a, Some b => (a <? endTimeForRideWindow b duration2) && (b <? endTimeForRideWindow a duration1)
  | _, _ => false
  end.

Section requests.
Context `{Env}.

Definition offerOfRide (d : Db.t) (rideId : string) : option RideRequestOffer.t :=
  head (where_ prisma.rideRequestOffer (fun o => bool_decide (RideRequestOffer.rideId o = rideId)) d).

Definition isBlockingRide (d : Db.t) (driverId : string) (exclude : option string) (dayStart : Z) (r : Ride.t) : bool :=
  bool_decide (Ride.driverId r = driverId) &&
  match truthy exclude with Some x => bool_decide (Ride.id r <> x) | None => true end &&
  (bool_decide (Ride.status r ∈ ACTIVE_DRIVER_RIDE_STATUSES) ||
   bool_decide (Ride.status r = RideStatus.DRAFT) &&
   match offerOfRide d (Ride.id r) with
   | Some o => bool_decide (RideRequestOffer.status o = "SELECTED"%string)
   | None => false
   end) &&
  (dayStart - msPerDay <=? Ride.departureDate r) && (Ride.departureDate r <=? dayStart + msPerDay).

Definition assertDriverHasNoOverlappingRide (driverId : string) (departureDate : Z) (departureTime : string)
    (routeDurationSeconds : option Z) (excludeRideId : option string) : H unit :=
  let draftStart := rideStart departureDate departureTime in
  let dayStart := dayOf departureDate * msPerDay in
  existingRides ← get (fun s =>
    where_ prisma.ride (isBlockingRide (St.db s) driverId excludeRideId dayStart) (St.db s));
  throw_if (existsb (fun ride =>
    overlaps draftStart routeDurationSeconds
      (rideStart (Ride.departureDate ride) (Ride.departureTime ride)) (Ride.routeDurationSeconds ride))
    existingRides) "DRIVER_RIDE_TIME_CONFLICT".

(** ** Selecting an offer *)

(** The rows an offer requires: [rideId] and [requestId] are foreign keys. *)
Definition includeOffer (offer : RideRequestOffer.t) : H (RideRequest.t * Ride.t) :=
  request ← findUniqueOrThrow prisma.rideRequest (RideRequestOffer.requestId offer);
  ride ← findUniqueOrThrow prisma.ride (RideRequestOffer.rideId offer);
  mret (request, ride).

Definition reserveRequestOffer (offerId riderId rideId : string) (seats : Z) : H unit :=
  offer ← findUnique prisma.rideRequestOffer offerId;
  match offer with
  | None => throw "OFFER_UNAVAILABLE"
  | Some offer =>
      included ← includeOffer offer;
      let '(request, ride) := included in
      throw_if (negb (bool_decide (RideRequestOffer.rideId offer = rideId) &&
                      bool_decide (RideRequest.riderId request = riderId) &&
                      (RideRequest.seats request =? seats) &&
                      bool_decide (RideRequestOffer.status offer = "OPEN"%string)) ||
                (RideRequestOffer.expiresAt offer <=? now)) "OFFER_UNAVAILABLE";;
      assertDriverHasNoOverlappingRide (RideRequestOffer.driverId offer) (Ride.departureDate ride)
        (Ride.departureTime ride) (Ride.routeDurationSeconds ride) (Some (RideRequestOffer.rideId offer));;
      changed ← updateManyId prisma.rideRequest (RideRequestOffer.requestId offer)
        (fun r => bool_decide (RideRequest.riderId r = riderId) &&
                  bool_decide (RideRequest.status r = "OPEN"%string) && (now <? RideRequest.expiresAt r))
        (fun r => r <| RideRequest.status := "CHECKOUT_PENDING"%string |>
                    <| RideRequest.checkoutExpiresAt :=
                         Some (Z.min (now + REQUEST_CHECKOUT_MS) (RideRequestOffer.expiresAt offer)) |>);
      throw_if (negb (changed =? 1)) "REQUEST_ALREADY_SELECTED";;
      selected ← updateManyId prisma.rideRequestOffer offerId
        (fun o => bool_decide (RideRequestOffer.status o = "OPEN"%string))
        (fun o => o <| RideRequestOffer.status := "SELECTED"%string |>);
      throw_if (negb (selected =? 1)) "OFFER_UNAVAILABLE"
  end.

(** ** The payment row of a request booking *)

(** [Number(process.env.PLATFORM_FEE_PERCENT || '0')]; [None] is not finite. *)
Definition feePercent : option num :=
  js_Number (default "0"%string (truthy PLATFORM_FEE_PERCENT)).

Definition ensureRequestPayment (booking : RideBooking.t) : H Payment.t :=
  match truthy (RideBooking.stripePaymentIntentId booking), truthy (RideBooking.paymentCurrency booking) with
  | None, _ => throw "REQUEST_PAYMENT_NOT_INITIALIZED"
  | _, None => throw "REQUEST_PAYMENT_CURRENCY_MISSING"
  | Some intentId, Some paymentCurrency =>
      fee ← match RideBooking.serviceFeeAmount booking, feePercent with
            | Some fee, _ => mret fee
            | None, None => throw "INVALID_PLATFORM_FEE"
            | None, Some percent =>
                if nlt percent (num_of_Z 0) || nlt (num_of_Z 100) percent then throw "INVALID_PLATFORM_FEE"
                else mret (ndiv (num_of_Z (math_round (nmul (RideBooking.totalPrice booking) percent))) (num_of_Z 100))
            end;
      throw_if (nlt fee (num_of_Z 0) || nlt (RideBooking.totalPrice booking) fee) "INVALID_PLATFORM_FEE";;
      let currency := toUpperCase paymentCurrency in
      existing ← findFirst prisma.payment (fun p => bool_decide (Payment.bookingId p = RideBooking.id booking));
      payment ← match existing with
        | Some payment => mret payment
        | None =>
            id ← randomUUID;
            create prisma.payment id
              (Payment.defaults id now
                <| Payment.bookingId := RideBooking.id booking |>
                <| Payment.rideId := RideBooking.rideId booking |>
                <| Payment.riderId := RideBooking.passengerId booking |>
                <| Payment.amountTotal := RideBooking.totalPrice booking |>
                <| Payment.currency := currency |>
                <| Payment.fareAmount := of_cents (to_cents (nsub (RideBooking.totalPrice booking) fee)) |>
                <| Payment.platformFeeAmount := fee |>
                <| Payment.stripePaymentIntentId := Some intentId |>
                <| Payment.status := PaymentStatus.PAYMENT_PENDING |>)
        end;
      throw_if (bool_decide (Payment.rideId payment <> RideBooking.rideId booking) ||
                bool_decide (Payment.riderId payment <> RideBooking.passengerId booking) ||
                negb (neqb (Payment.amountTotal payment) (RideBooking.totalPrice booking)) ||
                bool_decide (toUpperCase (Payment.currency payment) <> currency) ||
                match truthy (Payment.stripePaymentIntentId payment) with
                | Some i => bool_decide (i <> intentId)
                | None => false
                end) "REQUEST_PAYMENT_RECORD_MISMATCH";;
      match truthy (Payment.stripePaymentIntentId payment) with
      | Some _ => mret payment
      | None =>
          linked ← updateManyId prisma.payment (Payment.id payment)
            (fun p => bool_decide (Payment.stripePaymentIntentId p = None))
            (fun p => p <| Payment.stripePaymentIntentId := Some intentId |>);
          throw_if (linked =? 0) "REQUEST_PAYMENT_LINK_CHANGED";;
          mret payment
      end
  end.

(** ** Confirmation *)

(** [new Date(`${date}T${time}:00Z`)]: two digits, a colon and two digits, up to
    24:00; anything else is the invalid date. *)
Definition isoDeparture (departureDate : Z) (departureTime : string) : option Z :=
  match chars departureTime with
  | [a; b; c; d; e] =>
      if is_digit a && is_digit b && is_char 58 c && is_digit d && is_digit e then
        let h := 10 * digit_val a + digit_val b in
        let m := 10 * digit_val d + digit_val e in
        if (m <=? 59) && ((h <=? 23) || (h =? 24) && (m =? 0))
        then Some (dayOf departureDate * msPerDay + h * 3600000 + m * 60000) else None
      else None
  | _ => None
  end.

(** The fields of the booking a confirmation sets. *)
Definition confirmedBooking (ride : Ride.t) (pickupOtp dropOtp : string) (b : RideBooking.t) : RideBooking.t :=
  let expiries := bookingOtpExpiries (Ride.departureDate ride) (Ride.departureTime ride)
                    (Ride.routeDurationSeconds ride) now in
  b <| RideBooking.status := BookingStatus.CONFIRMED |>
    <| RideBooking.driverDecisionAt := Some now |>
    <| RideBooking.pickupOtp := Some pickupOtp |>
    <| RideBooking.dropOtp := Some dropOtp |>
    <| RideBooking.pickupOtpHash := Some (hashOtp pickupOtp) |>
    <| RideBooking.dropOtpHash := Some (hashOtp dropOtp) |>
    <| RideBooking.pickupOtpExpiresAt := fst <$> expiries |>
    <| RideBooking.dropOtpExpiresAt := snd <$> expiries |>
    <| RideBooking.otpAttemptCount := 0 |>.

(** The writes of a confirmation: booking, ride, offer, request and the other
    offers. *)
Definition matchRequest (bookingId : string) (offer : RideRequestOffer.t) (ride : Ride.t)
    : H (option RideRequestOffer.t) :=
  pickupOtp ← generateBookingOtp;
  dropOtp ← generateBookingOtp;
  update prisma.rideBooking bookingId (fun b =>
    confirmedBooking ride pickupOtp dropOtp b <| RideBooking.driverDecisionDeadlineAt := None |>);;
  update prisma.ride (RideRequestOffer.rideId offer) (fun r => r <| Ride.status := RideStatus.PUBLISHED |>);;
  update prisma.rideRequestOffer (RideRequestOffer.id offer)
    (fun o => o <| RideRequestOffer.status := "ACCEPTED"%string |>);;
  update prisma.rideRequest (RideRequestOffer.requestId offer)
    (fun r => r <| RideRequest.status := "MATCHED"%string |> <| RideRequest.checkoutExpiresAt := None |>);;
  updateMany prisma.rideRequestOffer
    (fun o => bool_decide (RideRequestOffer.requestId o = RideRequestOffer.requestId offer) &&
              bool_decide (RideRequestOffer.status o = "OPEN"%string))
    (fun o => o <| RideRequestOffer.status := "CLOSED"%string |>);;
  mret (Some offer).

Definition confirmRequestBooking (bookingId : string) : H (option RideRequestOffer.t) :=
  offer ← findFirst prisma.rideRequestOffer (fun o => bool_decide (RideRequestOffer.bookingId o = Some bookingId));
  match offer with
  | None => mret None
  | Some offer =>
      included ← includeOffer offer;
      let '(request, ride) := included in
      booking ← findUnique prisma.rideBooking bookingId;
      throw_if (negb (bool_decide (RideRequestOffer.status offer = "SELECTED"%string) &&
                      bool_decide (RideRequest.status request = "CHECKOUT_PENDING"%string)))
        "REQUEST_PAYMENT_REQUIRES_RECONCILIATION";;
      throw_if match isoDeparture (Ride.departureDate ride) (Ride.departureTime ride) with
               | Some departure => departure <=? now
               | None => false
               end "REQUEST_PAYMENT_REQUIRES_RECONCILIATION";;
      match booking with
      | None => throw "REQUEST_BOOKING_NOT_FOUND"
      | Some booking =>
          match truthy (RideBooking.stripePaymentIntentId booking) with
          | Some _ => ensureRequestPayment booking;; mret tt
          | None => mret tt
          end;;
          matchRequest bookingId offer ride
      end
  end.
End requests.
