(* ===== verification/Booking.v ===== *)
(** * Bookings of riders

    Models the rider's side of [modules/ride-booking/ride-booking.service.ts]:
    planning and creating a booking, applying a payment, confirming, resuming,
    extending, cancelling and withdrawing.  One Definition per function of the
    source, with its guards and its calls in order. *)

From Stdlib Require Import ZArith QArith Lia.
From stdpp Require Import base list option strings gmap.
From S2P Require Import Prelude JsNumber Money Schema Store Seats Payments Time Segment.
From S2P Require Import ViewToken Pricing Gateway RideRequest.

Open Scope Z_scope.

(** ** Statuses *)

Definition ACTIVE_BOOKING_STATUSES : list BookingStatus.t :=
  [BookingStatus.DRIVER_PENDING; BookingStatus.CONFIRMED; BookingStatus.IN_PROGRESS].

Definition WITHDRAWABLE_BOOKING_STATUSES : list BookingStatus.t :=
  [BookingStatus.PAYMENT_PENDING; BookingStatus.DRIVER_PENDING].

Definition CANCELLABLE_BOOKING_STATUSES : list BookingStatus.t :=
  [BookingStatus.PAYMENT_PENDING; BookingStatus.DRIVER_PENDING; BookingStatus.CONFIRMED].

Definition PAYMENT_SETTLED_BOOKING_STATUSES : list BookingStatus.t :=
  [BookingStatus.DRIVER_PENDING; BookingStatus.CONFIRMED; BookingStatus.WAITING_FOR_PICKUP;
   BookingStatus.DRIVER_ARRIVED; BookingStatus.OTP_PENDING; BookingStatus.ONBOARD; BookingStatus.DROP_PENDING;
   BookingStatus.DRIVER_DROPPED; BookingStatus.IN_PROGRESS; BookingStatus.COMPLETED; BookingStatus.DISPUTED].

Definition has_status (l : list BookingStatus.t) (b : RideBooking.t) : bool :=
  bool_decide (RideBooking.status b ∈ l).

Definition RESUMABLE_INTENT_STATUSES : list string :=
  ["requires_payment_method"; "requires_confirmation"; "requires_action"; "processing"]%string.

Definition UNCONFIRMED_INTENT_STATUS_CODES (status : string) : option string :=
  if decide (status = "requires_payment_method"%string) then Some "PAYMENT_METHOD_REQUIRED"%string
  else if decide (status = "requires_confirmation"%string) then Some "PAYMENT_NOT_CONFIRMED"%string
  else if decide (status = "requires_action"%string) then Some "PAYMENT_REQUIRES_ACTION"%string
  else if decide (status = "processing"%string) then Some "PAYMENT_PROCESSING"%string
  else if decide (status = "canceled"%string) then Some "PAYMENT_CANCELLED"%string
  else None.

Definition validateBookingSeats (seatsBooked : Z) : Res unit :=
  if seatsBooked <? 1 then Err "MINIMUM_ONE_SEAT_REQUIRED"
  else if MAX_SEATS_PER_BOOKING <? seatsBooked then Err "MAXIMUM_SEATS_EXCEEDED"
  else Ok tt.

(** A pure check inside a handler. *)
Definition check {A} (r : Res A) : H A := fun s => (s, r).

Lemma preserves_check {A} I (r : Res A) : preserves I (check r).
Proof. intros s Hs. exact Hs. Qed.

Lemma wp_check {A} (r : Res A) (Q : St.t -> Res A -> Prop) (s : St.t) :
  (forall a, r = Ok a -> Q s (Ok a)) -> (forall e, Q s (Err e)) -> wp (check r) Q s.
Proof. intros HO HE. unfold wp, check. cbn. destruct r; auto. Qed.

(** [wp_query], with the checks that throw. *)
Ltac wp_read :=
  lazymatch goal with
  | |- wp (check _) _ _ => apply wp_check; intros
  | |- _ => wp_query
  end; cbv beta iota.
#[export] Hint Resolve preserves_check : preserve.

(** ** The receipt of a stored booking *)

Definition reconstructPriceBreakdown (booking : RideBooking.t) (rideCurrency : option string)
    : option PriceBreakdown.t :=
  match RideBooking.serviceFeeAmount booking with
  | None => None
  | Some fee =>
      let subtotalCents := nsub (num_of_Z (to_cents (RideBooking.totalPrice booking))) (num_of_Z (to_cents fee)) in
      let seats := if 0 <? RideBooking.seatsBooked booking then RideBooking.seatsBooked booking else 1 in
      let serviceFeePercent := default (num_of_Z 0) (RideBooking.serviceFeePercent booking) in
      let percentFeeCents := num_of_Z (math_round (ndiv (nmul subtotalCents serviceFeePercent) (num_of_Z 100))) in
      let flatFeeCents := nmax (num_of_Z 0) (nsub (num_of_Z (to_cents fee)) percentFeeCents) in
      Some {| PriceBreakdown.basePricePerSeat :=
                default (ndiv (ndiv subtotalCents (num_of_Z 100)) (num_of_Z seats)) (RideBooking.segmentFare booking);
              PriceBreakdown.seatsBooked := RideBooking.seatsBooked booking;
              PriceBreakdown.subtotal := ndiv subtotalCents (num_of_Z 100);
              PriceBreakdown.luggageFee := num_of_Z 0;
              PriceBreakdown.serviceFee := fee;
              PriceBreakdown.totalPrice := RideBooking.totalPrice booking;
              PriceBreakdown.currency :=
                default (default "EUR"%string rideCurrency) (RideBooking.paymentCurrency booking);
              PriceBreakdown.serviceFeePercent := serviceFeePercent;
              PriceBreakdown.serviceFeeFlat := ndiv flatFeeCents (num_of_Z 100) |}
  end.

(** ** Filters of the booking list *)

Definition LEGACY_BOOKING_STATUS_ALIASES (item : string) : option BookingStatus.t :=
  if decide (item = "PENDING"%string) then Some BookingStatus.DRIVER_PENDING
  else if decide (item = "ACCEPTED"%string) then Some BookingStatus.CONFIRMED
  else if decide (item ∈ ["WITHDRAWN"; "REJECTED"; "EXPIRED"]%string) then Some BookingStatus.CANCELLED
  else None.

Definition resolveSegmentAddress (defaultAddress : string) (waypointId : option string)
    (waypoints : list RideWaypoint.t) : string :=
  match truthy waypointId with
  | None => defaultAddress
  | Some id =>
      match List.find (fun w => bool_decide (RideWaypoint.id w = id)) waypoints with
      | Some w => RideWaypoint.address w
      | None => defaultAddress
      end
  end.

Definition assertExplicitMeetingPointsSelected (waypoints : list RideWaypoint.t)
    (resolvedPickupWaypointId resolvedDropoffWaypointId : option string) : Res unit :=
  let hasConcretePickup := existsb (fun w => bool_decide (RideWaypoint.waypointType w = WaypointType.PICKUP)) waypoints in
  let hasConcreteDropoff := existsb (fun w => bool_decide (RideWaypoint.waypointType w = WaypointType.DROPOFF)) waypoints in
  if hasConcretePickup && bool_decide (truthy resolvedPickupWaypointId = None) then Err "PICKUP_POINT_REQUIRED"
  else if hasConcreteDropoff && bool_decide (truthy resolvedDropoffWaypointId = None) then Err "DROPOFF_POINT_REQUIRED"
  else Ok tt.

(** ** Inputs, plans and answers *)

Module CreateBookingInput.
Record t := {
  rideId : string;
  segmentId : option string;
  seatsBooked : Z;
  requiresChildSeat : bool;
  travelingWithChildUnderTwo : bool;
  bringingOwnChildSeat : bool;
  pickupWaypointId : option string;
  dropoffWaypointId : option string;
  responseExpiryOption : option string;
}.
End CreateBookingInput.

Module BookingPlan.
Record t := {
  ride : Ride.t;
  waypoints : list RideWaypoint.t;
  passenger : option User.t;
  departureAt : Z;
  resolvedPickupWaypointId : option string;
  resolvedDropoffWaypointId : option string;
  pickupPosition : Z;
  dropoffPosition : Z;
  pickupAddress : string;
  dropoffAddress : string;
  segmentFare : num;
  priceBreakdown : PriceBreakdown.t;
  driverDecisionDeadlineAt : Z;
  expiryHours : Z;
}.
End BookingPlan.

(** The answer to the rider: the booking row and what is added to it; the
    presentation of the ride ([mapBookingResponse]) is left out. *)
Module BookingResponse.
Record t := {
  booking : RideBooking.t;
  resumed : bool;
  priceBreakdown : option PriceBreakdown.t;
  payment : option (string * option string * string);
}.
End BookingResponse.

Definition mapBookingResponse (b : RideBooking.t) (breakdown : option PriceBreakdown.t)
    (payment : option (string * option string * string)) : BookingResponse.t :=
  {| BookingResponse.booking := b; BookingResponse.resumed := false;
     BookingResponse.priceBreakdown := breakdown; BookingResponse.payment := payment |}.

Module CancelBookingResult.
Record t := {
  bookingId : string;
  rideId : string;
  refundPercent : num;
  refundAmount : num;
  refundInitiated : bool;
}.
End CancelBookingResult.

Inductive PendingBookingReentry :=
| NONE
| REPLACE
| APPLIED (bookingId : string)
| RESUME (bookingId paymentIntentId : string) (clientSecret : option string) (currency : string).

Inductive Claim := CLAIMED | ALREADY_APPLIED | RIDE_FULL.
#[global] Instance Claim_eq_dec : EqDecision Claim.
Proof. solve_decision. Defined.

(** ** The index of active bookings *)

(** [RideBooking_active_rider_ride_key]: among the active rows, rider and ride
    determine the row.  Writing a row that breaks it is refused. *)
Definition activeConflict (b : RideBooking.t) (d : Db.t) : bool :=
  has_status ACTIVE_BOOKING_STATUSES b &&
  bool_decide (where_ prisma.rideBooking (fun b' =>
    bool_decide (RideBooking.id b' <> RideBooking.id b) &&
    bool_decide (RideBooking.rideId b' = RideBooking.rideId b) &&
    bool_decide (RideBooking.passengerId b' = RideBooking.passengerId b) &&
    has_status ACTIVE_BOOKING_STATUSES b') d <> []).

Definition checkActiveIndex (b : RideBooking.t) : H unit :=
  conflict ← get (fun s => activeConflict b (St.db s));
  throw_if conflict "P2002".

Definition createRideBooking (b : RideBooking.t) : H RideBooking.t :=
  checkActiveIndex b;; create prisma.rideBooking (RideBooking.id b) b.

(** [updateMany({ where: { id, ...p }, data })] that may make the row active. *)
Definition activateRideBooking (id : string) (p : RideBooking.t -> bool) (f : RideBooking.t -> RideBooking.t) : H Z :=
  old ← findUnique prisma.rideBooking id;
  match old with
  | Some b => if p b then checkActiveIndex (f b);; write prisma.rideBooking <[id := f b]>;; mret 1 else mret 0
  | None => mret 0
  end.

Section booking.
Context `{Env} `{Codec}.
(** The share of the route a segment covers, see [Segment.v]. *)
Variable routeSharesBetween : Ride.t -> SegmentPoint.t -> SegmentPoint.t -> option (num * num).

Definition rideOf (b : RideBooking.t) : H Ride.t := findUniqueOrThrow prisma.ride (RideBooking.rideId b).

(** ** Best-effort calls *)

Definition recordProviderFeeForIntent (intent : PaymentIntent.t) (bookingId : string) : H unit :=
  attempt (
    payment ← findByBooking bookingId;
    match payment, truthy (PaymentIntent.latest_charge intent) with
    | Some payment, Some chargeId =>
        call (StripeRetrieveCharge chargeId);;
        match chargeFee chargeId with
        | Some (fee, currency) =>
            recordProviderFeeExpense (Payment.id payment) bookingId (ndiv (num_of_Z fee) (num_of_Z 100))
              (toUpperCase (default (Payment.currency payment) (truthy (Some currency))));;
            mret tt
        | None => mret tt
        end
    | _, _ => mret tt
    end).

Definition releaseUnpaidPaymentIntent (paymentIntentId : string) : H unit :=
  attempt (cancelPaymentIntent paymentIntentId).

(** [try { reconciliationIssue.create } catch { log }] *)
Definition recordIssue (bookingId issueType severity description stripeState internalState : string) : H unit :=
  attempt (
    id ← randomUUID;
    create prisma.reconciliationIssue id
      {| ReconciliationIssue.id := id; ReconciliationIssue.paymentId := None;
         ReconciliationIssue.bookingId := Some bookingId; ReconciliationIssue.issueType := issueType;
         ReconciliationIssue.severity := severity; ReconciliationIssue.description := description;
         ReconciliationIssue.stripeState := Some stripeState;
         ReconciliationIssue.internalState := Some internalState; ReconciliationIssue.detectedAt := now;
         ReconciliationIssue.autoRepaired := false; ReconciliationIssue.repairedAt := None;
         ReconciliationIssue.resolvedBy := None; ReconciliationIssue.resolvedAt := None;
         ReconciliationIssue.resolution := None; ReconciliationIssue.metadataJson := None |}).

(** What the rider paid, or owes. *)
Definition paidAmount (b : RideBooking.t) : num := default (RideBooking.totalPrice b) (RideBooking.paymentAmount b).

(** ** A payment for a ride that is full *)

Definition refundRideFullPayment (bookingId : string) (intent : PaymentIntent.t) : H unit :=
  claimed ← updateManyId prisma.rideBooking bookingId
    (fun b => bool_decide (RideBooking.status b = BookingStatus.PAYMENT_PENDING))
    (fun b => b <| RideBooking.status := BookingStatus.RIDE_FULL_REFUNDED |>
                <| RideBooking.stripePaymentIntentId := Some (PaymentIntent.id intent) |>
                <| RideBooking.paymentCapturedAt := Some now |>
                <| RideBooking.refundPercent := Some (num_of_Z 100) |>);
  if claimed =? 0 then mret tt
  else
    booking ← findUnique prisma.rideBooking bookingId;
    match booking with
    | None => mret tt
    | Some booking =>
        ride ← rideOf booking;
        let refundAmount := paidAmount booking in
        try_catch (
          refundPaymentIntent (PaymentIntent.id intent) (toMinorCurrencyUnits refundAmount);;
          update prisma.rideBooking bookingId (fun b =>
            b <| RideBooking.refundedAt := Some now |> <| RideBooking.refundAmount := Some refundAmount |>);;
          mret tt)
        (fun _ => recordIssue bookingId "STRIPE_MISMATCH" "CRITICAL"
                    "Ride was full when payment succeeded; automatic refund failed"
                    (PaymentIntent.status intent) "RIDE_FULL_REFUNDED");;
        attempt (
          markBookingPaymentPaid bookingId (Ride.driverId ride);;
          markBookingPaymentRefunded bookingId (Ride.driverId ride) (Some refundAmount));;
        attempt (createNotification (RideBooking.passengerId booking) "booking.ride_full_refunded")
    end.

(** ** Seats of a paid booking *)

Definition reserveSeatsForBooking (input : ReleaseSeatsInput.t) (bookingId : option string) (allowDraft : bool)
    : H unit :=
  reserveRideSeats input bookingId;;
  ride ← findUnique prisma.ride (ReleaseSeatsInput.rideId input);
  throw_if (bool_decide (Ride.status <$> ride <>
    Some (if allowDraft then RideStatus.DRAFT else RideStatus.PUBLISHED))) "RIDE_NOT_FOUND".

(** The row after a successful payment. *)
Definition paidBooking (intent : PaymentIntent.t) (b : RideBooking.t) : RideBooking.t :=
  let capturedAmount := if 0 <? PaymentIntent.amount_received intent
                        then PaymentIntent.amount_received intent else PaymentIntent.amount intent in
  b <| RideBooking.status := BookingStatus.DRIVER_PENDING |>
    <| RideBooking.stripePaymentIntentId := Some (PaymentIntent.id intent) |>
    <| RideBooking.stripeChargeId := PaymentIntent.latest_charge intent |>
    <| RideBooking.paymentAmount := toMajorUnits (Some capturedAmount) |>
    <| RideBooking.paymentCurrency := Some (toUpperCase (PaymentIntent.currency intent)) |>
    <| RideBooking.paymentCapturedAt := Some now |>
    <| RideBooking.seatsReservedAt := Some now |>
    <| RideBooking.driverDecisionDeadlineAt := Some (now + DRIVER_DECISION_WINDOW_MS) |>.

(** The callback of the claiming transaction. *)
Definition claimPaidBooking (bookingId : string) (intent : PaymentIntent.t) : H Claim :=
  count ← activateRideBooking bookingId
    (fun b => bool_decide (RideBooking.status b = BookingStatus.PAYMENT_PENDING)) (paidBooking intent);
  if count =? 0 then mret ALREADY_APPLIED
  else
    reserving ← findUniqueOrThrow prisma.rideBooking bookingId;
    ride ← rideOf reserving;
    confirmRequestBooking bookingId;;
    reserveSeatsForBooking (seats_input reserving (Ride.totalSeats ride)) (Some bookingId) false;;
    mret CLAIMED.

(** The rest of the handler for a booking that moved on. *)
Definition settleClaimedBooking (bookingId : string) (intent : PaymentIntent.t) : H unit :=
  booking ← findUnique prisma.rideBooking bookingId;
  match booking with
  | None => mret tt
  | Some booking =>
      ride ← rideOf booking;
      if decide (RideBooking.status booking = BookingStatus.CONFIRMED) then
        markBookingPaymentPaid (RideBooking.id booking) (Ride.driverId ride);;
        for_each [RideBooking.passengerId booking; Ride.driverId ride]
          (fun userId => attempt (createNotification userId "ride_request.matched"))
      else
        departureAt ← check (combineDepartureDateTimeUtc (Ride.departureDate ride) (Ride.departureTime ride));
        let '(decisionDeadlineAt, expiryHours) :=
          calculateDeadline (RideBooking.responseExpiryOption booking) departureAt now in
        update prisma.rideBooking (RideBooking.id booking) (fun b =>
          b <| RideBooking.driverDecisionDeadlineAt := Some decisionDeadlineAt |>
            <| RideBooking.responseExpiryHours := Some expiryHours |>);;
        recordProviderFeeForIntent intent (RideBooking.id booking);;
        try_catch (markBookingPaymentPaid (RideBooking.id booking) (Ride.driverId ride);; mret tt)
          (fun _ => recordIssue (RideBooking.id booking) "MISSING_WEBHOOK" "HIGH"
                      "Booking advanced on Stripe success but Payment.status was not updated"
                      (PaymentIntent.status intent) "PAYMENT_PENDING");;
        attempt (
          createNotification (Ride.driverId ride) DRIVER_DECISION_NOTIFICATION_TYPE;;
          createNotification (RideBooking.passengerId booking) "booking.request.sent";;
          perform (EmitToUsers [Ride.driverId ride] "booking:updated" (RideBooking.id booking) "booking.requested");;
          enqueueDeadlineCheck (RideBooking.id booking) (Z.max 0 (decisionDeadlineAt - now)))
  end.

Definition applyStripePaymentSucceededToBooking (intent : PaymentIntent.t) : H bool :=
  match truthy (PaymentIntent.metadata_bookingId intent) with
  | None => mret false
  | Some bookingId =>
      claimed ← try_catch (transaction (claimPaidBooking bookingId intent))
        (fun error => if decide (error = "INSUFFICIENT_SEATS"%string) then mret RIDE_FULL
                      else if decide (error = "RIDE_NOT_FOUND"%string) then mret RIDE_FULL
                      else throw error);
      match claimed with
      | ALREADY_APPLIED =>
          accepted ← findFirst prisma.rideRequestOffer
            (fun o => bool_decide (RideRequestOffer.bookingId o = Some bookingId));
          match accepted with
          | Some offer =>
              when (bool_decide (RideRequestOffer.status offer = "ACCEPTED"%string))
                (markBookingPaymentPaid bookingId (RideRequestOffer.driverId offer);; mret tt)
          | None => mret tt
          end;;
          mret false
      | RIDE_FULL => refundRideFullPayment bookingId intent;; mret false
      | CLAIMED => settleClaimedBooking bookingId intent;; mret true
      end
  end.

(** ** Planning a booking *)

Definition waypointsOf (rideId : string) : H (list RideWaypoint.t) :=
  get (fun s => sort_by RideWaypoint.orderIndex
    (where_ prisma.rideWaypoint (fun w => bool_decide (RideWaypoint.rideId w = rideId)) (St.db s))).

(** The ends of the segment asked for. *)
Definition requestedSegment (input : CreateBookingInput.t) : Res (SegmentPointRef * SegmentPointRef) :=
  match truthy (CreateBookingInput.segmentId input) with
  | Some segmentId =>
      match decodeViewToken segmentId with
      | Ok payload =>
          if decide (ViewTokenPayload.rideId payload = CreateBookingInput.rideId input)
          then Ok (ViewTokenPayload.pickupRef payload, ViewTokenPayload.dropRef payload)
          else Err "INVALID_BOOKING_SEGMENT"
      | Err _ => Err "INVALID_BOOKING_SEGMENT"
      end
  | None =>
      Ok (match truthy (CreateBookingInput.pickupWaypointId input) with Some id => waypoint id | None => origin end,
          match truthy (CreateBookingInput.dropoffWaypointId input) with Some id => waypoint id | None => destination end)
  end.

(** The point a booking starts or ends at: by its waypoint, or an end of the ride. *)
Definition segmentPoint (points : list SegmentPoint.t) (waypointId : option string) (end_ : SegmentPointRef)
    : option SegmentPoint.t :=
  match waypointId with
  | Some id =>
      match List.find (fun p => bool_decide (SegmentPoint.waypointId p = Some id)) points with
      | Some p => Some p
      | None => findPointByRef points (Some (match truthy (Some id) with Some id => waypoint id | None => end_ end))
      end
  | None => findPointByRef points (Some end_)
  end.

Definition resolveBookingPlan (passengerId : string) (input : CreateBookingInput.t)
    (bypassBookingPaymentMode : bool) (feeTerms : ServiceFeeTerms.t) (requestOfferId : option string)
    : H BookingPlan.t :=
  let rideId := CreateBookingInput.rideId input in
  let seatsBooked := CreateBookingInput.seatsBooked input in
  let wantedStatus := if bool_decide (truthy requestOfferId = None) then RideStatus.PUBLISHED else RideStatus.DRAFT in
  ride ← findById prisma.ride rideId (fun r => bool_decide (Ride.status r = wantedStatus));
  match ride with
  | None => throw "RIDE_NOT_FOUND"
  | Some ride =>
      waypoints ← waypointsOf rideId;
      departureAt ← check (combineDepartureDateTimeUtc (Ride.departureDate ride) (Ride.departureTime ride));
      throw_if (isBookingWindowClosed departureAt now) "BOOKING_WINDOW_CLOSED";;
      throw_if (bool_decide (Ride.driverId ride = passengerId)) "CANNOT_BOOK_OWN_RIDE";;
      blocked ← get (fun s => existsb (fun bl =>
        bool_decide (bl = (passengerId, Ride.driverId ride)) || bool_decide (bl = (Ride.driverId ride, passengerId)))
        (Db.userBlock (St.db s)));
      throw_if blocked "USER_BLOCKED";;
      check (validateBookingSeats seatsBooked);;
      existingBooking ← findFirst prisma.rideBooking (fun b =>
        bool_decide (RideBooking.rideId b = rideId) && bool_decide (RideBooking.passengerId b = passengerId) &&
        has_status ACTIVE_BOOKING_STATUSES b);
      throw_if (bool_decide (is_Some existingBooking)) "BOOKING_ALREADY_EXISTS";;
      passenger ← findUnique prisma.user passengerId;
      throw_if (Ride.femaleOnly ride && bool_decide ((passenger ≫= User.gender) <> Some Gender.FEMALE))
        "FEMALE_ONLY_RIDE";;
      refs ← check (requestedSegment input);
      let segmentRide := {| seg_ride := ride; seg_waypoints := waypoints |} in
      let points := buildSegmentPoints segmentRide in
      match resolveSegmentView routeSharesBetween segmentRide points (Some refs.1) (Some refs.2) with
      | None => throw "INVALID_BOOKING_SEGMENT"
      | Some riderView =>
          let resolvedPickupWaypointId := SegmentView.pickupWaypointId riderView in
          let resolvedDropoffWaypointId := SegmentView.dropoffWaypointId riderView in
          check (assertExplicitMeetingPointsSelected waypoints resolvedPickupWaypointId resolvedDropoffWaypointId);;
          throw_if (Ride.availableSeats ride <? seatsBooked) "INSUFFICIENT_SEATS";;
          match segmentPoint points resolvedPickupWaypointId origin,
                segmentPoint points resolvedDropoffWaypointId destination with
          | Some pickupPoint, Some dropPoint =>
              let priceBreakdown := calculateBookingPrice
                {| PriceInput.basePricePerSeat := SegmentView.basePricePerSeat riderView;
                   PriceInput.seatsBooked := seatsBooked;
                   PriceInput.currency := Some (Ride.currency ride);
                   PriceInput.serviceFeePercent := ServiceFeeTerms.serviceFeePercent feeTerms;
                   PriceInput.serviceFeeFlat := ServiceFeeTerms.serviceFeeFlat feeTerms |} in
              let '(driverDecisionDeadlineAt, expiryHours) :=
                if bypassBookingPaymentMode
                then calculateDeadline (CreateBookingInput.responseExpiryOption input) departureAt now
                else (now + DRIVER_DECISION_WINDOW_MS, 1) in
              mret {| BookingPlan.ride := ride;
                      BookingPlan.waypoints := waypoints;
                      BookingPlan.passenger := passenger;
                      BookingPlan.departureAt := departureAt;
                      BookingPlan.resolvedPickupWaypointId := resolvedPickupWaypointId;
                      BookingPlan.resolvedDropoffWaypointId := resolvedDropoffWaypointId;
                      BookingPlan.pickupPosition := SegmentPoint.position pickupPoint;
                      BookingPlan.dropoffPosition := SegmentPoint.position dropPoint;
                      BookingPlan.pickupAddress := SegmentView.originAddress riderView;
                      BookingPlan.dropoffAddress := SegmentView.destinationAddress riderView;
                      BookingPlan.segmentFare := SegmentView.basePricePerSeat riderView;
                      BookingPlan.priceBreakdown := priceBreakdown;
                      BookingPlan.driverDecisionDeadlineAt := driverDecisionDeadlineAt;
                      BookingPlan.expiryHours := expiryHours |}
          | _, _ => throw "TypeError"
          end
      end
  end.

(** ** Failing an unpaid booking *)

Definition failBookingAndReleaseSeats (bookingId : string) : H unit :=
  transaction (
    existing ← findUnique prisma.rideBooking bookingId;
    match existing with
    | None => mret tt
    | Some existing =>
        ride ← rideOf existing;
        failed ← updateManyId prisma.rideBooking bookingId
          (fun b => bool_decide (RideBooking.status b = BookingStatus.PAYMENT_PENDING))
          (fun b => b <| RideBooking.status := BookingStatus.PAYMENT_FAILED |>);
        if failed =? 0 then mret tt
        else releaseBookingSeats bookingId (seats_input existing (Ride.totalSeats ride));; mret tt
    end).

(** ** An unpaid booking of the same rider on the same ride *)

Definition resolvePendingBookingReentry (passengerId rideId : string) : H PendingBookingReentry :=
  pending ← get (fun s => head (sort_desc RideBooking.createdAt
    (where_ prisma.rideBooking (fun b =>
      bool_decide (RideBooking.rideId b = rideId) && bool_decide (RideBooking.passengerId b = passengerId) &&
      bool_decide (RideBooking.status b = BookingStatus.PAYMENT_PENDING)) (St.db s))));
  match pending with
  | None => mret NONE
  | Some pending =>
      ride ← rideOf pending;
      let pendingId := RideBooking.id pending in
      if bool_decide (Ride.status ride <> RideStatus.PUBLISHED) then
        failBookingAndReleaseSeats pendingId;; mret REPLACE
      else
        match truthy (RideBooking.stripePaymentIntentId pending) with
        | None => failBookingAndReleaseSeats pendingId;; mret REPLACE
        | Some intentId =>
            intent ← try_catch (i ← retrieveIntent intentId; mret (Some i))
              (fun error => if isMissingStripeResourceError error then mret None
                            else throw "PAYMENT_VERIFICATION_UNAVAILABLE");
            match intent with
            | None => failBookingAndReleaseSeats pendingId;; mret REPLACE
            | Some intent =>
                if decide (PaymentIntent.status intent = "succeeded"%string) then
                  applyStripePaymentSucceededToBooking intent;; mret (APPLIED pendingId)
                else if decide (PaymentIntent.status intent ∈ RESUMABLE_INTENT_STATUSES) then
                  mret (RESUME pendingId (PaymentIntent.id intent) (PaymentIntent.client_secret intent)
                          (toUpperCase (PaymentIntent.currency intent)))
                else failBookingAndReleaseSeats pendingId;; mret REPLACE
            end
        end
  end.

Definition getBookingById (passengerId bookingId : string) : H (option BookingResponse.t) :=
  booking ← findById prisma.rideBooking bookingId (fun b => bool_decide (RideBooking.passengerId b = passengerId));
  match booking with
  | None => mret None
  | Some booking =>
      ride ← rideOf booking;
      mret (Some (mapBookingResponse booking (reconstructPriceBreakdown booking (Some (Ride.currency ride))) None))
  end.

(** ** Creating a booking *)

Definition buildBookingData (bookingId passengerId : string) (input : CreateBookingInput.t)
    (bypassBookingPaymentMode : bool) (plan : BookingPlan.t) : RideBooking.t :=
  let price := BookingPlan.priceBreakdown plan in
  RideBooking.defaults bookingId now
    <| RideBooking.rideId := CreateBookingInput.rideId input |>
    <| RideBooking.passengerId := passengerId |>
    <| RideBooking.seatsBooked := CreateBookingInput.seatsBooked input |>
    <| RideBooking.totalPrice := PriceBreakdown.totalPrice price |>
    <| RideBooking.pickupWaypointId := BookingPlan.resolvedPickupWaypointId plan |>
    <| RideBooking.dropoffWaypointId := BookingPlan.resolvedDropoffWaypointId plan |>
    <| RideBooking.pickupAddress := Some (BookingPlan.pickupAddress plan) |>
    <| RideBooking.dropoffAddress := Some (BookingPlan.dropoffAddress plan) |>
    <| RideBooking.segmentFare := Some (BookingPlan.segmentFare plan) |>
    <| RideBooking.serviceFeeAmount := Some (PriceBreakdown.serviceFee price) |>
    <| RideBooking.serviceFeePercent := Some (PriceBreakdown.serviceFeePercent price) |>
    <| RideBooking.pickupPosition := Some (BookingPlan.pickupPosition plan) |>
    <| RideBooking.dropoffPosition := Some (BookingPlan.dropoffPosition plan) |>
    <| RideBooking.status :=
         if bypassBookingPaymentMode then BookingStatus.DRIVER_PENDING else BookingStatus.PAYMENT_PENDING |>
    <| RideBooking.seatsReservedAt := if bypassBookingPaymentMode then Some now else None |>
    <| RideBooking.paymentAmount :=
         if bypassBookingPaymentMode then Some (PriceBreakdown.totalPrice price) else None |>
    <| RideBooking.paymentCurrency := Some (Ride.currency (BookingPlan.ride plan)) |>
    <| RideBooking.paymentCapturedAt := if bypassBookingPaymentMode then Some now else None |>
    <| RideBooking.driverDecisionDeadlineAt := Some (BookingPlan.driverDecisionDeadlineAt plan) |>
    <| RideBooking.responseExpiryOption := CreateBookingInput.responseExpiryOption input |>
    <| RideBooking.responseExpiryHours := Some (BookingPlan.expiryHours plan) |>.

(** A uniqueness violation means the rider has an active booking here. *)
Definition explainUnique {A} (m : H A) : H A :=
  try_catch m (fun error => if decide (error = "P2002"%string) then throw "BOOKING_ALREADY_EXISTS" else throw error).

Definition createBookingPayment (booking : RideBooking.t) (passengerId currency : string)
    (price : PriceBreakdown.t) (intentId : option string) : H Payment.t :=
  split ← check (resolvePaymentSplit price);
  createPayment (RideBooking.id booking) (RideBooking.rideId booking) passengerId
    (PaymentSplit.amountTotal split) (PaymentSplit.fareAmount split) (PaymentSplit.platformFeeAmount split)
    currency intentId (Some PaymentStatus.PAYMENT_PENDING).

Definition attachOffer (offerId bookingId : string) : H unit :=
  update prisma.rideRequestOffer offerId (fun o => o <| RideRequestOffer.bookingId := Some bookingId |>);; mret tt.

(** The callback of the transaction in bypass mode: booking, plan and payment. *)
Definition seedBypassBooking (bookingId passengerId : string) (input : CreateBookingInput.t)
    (feeTerms : ServiceFeeTerms.t) (requestOfferId : option string)
    : H (RideBooking.t * BookingPlan.t * string) :=
  let rideId := CreateBookingInput.rideId input in
  match truthy requestOfferId with
  | Some offerId => reserveRequestOffer offerId passengerId rideId (CreateBookingInput.seatsBooked input)
  | None => mret tt
  end;;
  plan ← resolveBookingPlan passengerId input true feeTerms requestOfferId;
  let row := buildBookingData bookingId passengerId input true plan in
  reserveSeatsForBooking (seats_input row (Ride.totalSeats (BookingPlan.ride plan))) None
    (bool_decide (is_Some (truthy requestOfferId)));;
  booking ← createRideBooking row;
  booking ← match truthy requestOfferId with
    | Some offerId =>
        attachOffer offerId (RideBooking.id booking);;
        confirmRequestBooking (RideBooking.id booking);;
        mret (booking <| RideBooking.status := BookingStatus.CONFIRMED |>)
    | None => mret booking
    end;
  payment ← createBookingPayment booking passengerId (Ride.currency (BookingPlan.ride plan))
    (BookingPlan.priceBreakdown plan) None;
  mret (booking, plan, Payment.id payment).

Definition notifyRiderBookingState (passengerId : string) (status : BookingStatus.t) : H unit :=
  createNotification passengerId
    (if decide (status = BookingStatus.DRIVER_PENDING) then "booking.request.sent" else "booking.payment.pending").

Definition createBypassBooking (bookingId passengerId : string) (input : CreateBookingInput.t)
    (feeTerms : ServiceFeeTerms.t) (requestOfferId : option string) : H BookingResponse.t :=
  seed ← explainUnique (transaction (seedBypassBooking bookingId passengerId input feeTerms requestOfferId));
  let '(booking, plan, paymentId) := seed in
  let driverId := Ride.driverId (BookingPlan.ride plan) in
  attempt (markPaymentPaid paymentId driverId);;
  (if bool_decide (truthy requestOfferId = None) then
     attempt (
       notifyRiderBookingState passengerId BookingStatus.DRIVER_PENDING;;
       createNotification driverId DRIVER_DECISION_NOTIFICATION_TYPE;;
       perform (EmitToUsers [driverId] "booking:updated" (RideBooking.id booking) "booking.requested");;
       enqueueDeadlineCheck (RideBooking.id booking)
         (Z.max 0 (BookingPlan.driverDecisionDeadlineAt plan - now)))
   else mret tt);;
  mret (mapBookingResponse booking (Some (BookingPlan.priceBreakdown plan)) None).

(** The callback of the transaction in stripe mode. *)
Definition seedStripeBooking (bookingId passengerId : string) (input : CreateBookingInput.t)
    (feeTerms : ServiceFeeTerms.t) (requestOfferId : option string) (preflightPlan : BookingPlan.t)
    (intentId currency : string) : H (RideBooking.t * BookingPlan.t) :=
  let rideId := CreateBookingInput.rideId input in
  match truthy requestOfferId with
  | Some offerId => reserveRequestOffer offerId passengerId rideId (CreateBookingInput.seatsBooked input)
  | None => mret tt
  end;;
  plan ← resolveBookingPlan passengerId input false feeTerms requestOfferId;
  throw_if (negb (neqb (PriceBreakdown.totalPrice (BookingPlan.priceBreakdown plan))
                       (PriceBreakdown.totalPrice (BookingPlan.priceBreakdown preflightPlan))))
    "BOOKING_PRICE_CHANGED";;
  booking ← createRideBooking
    (buildBookingData bookingId passengerId input false plan
       <| RideBooking.stripePaymentIntentId := Some intentId |>
       <| RideBooking.paymentAmount := Some (PriceBreakdown.totalPrice (BookingPlan.priceBreakdown plan)) |>
       <| RideBooking.paymentCurrency := Some currency |>);
  createBookingPayment booking passengerId currency (BookingPlan.priceBreakdown plan) (Some intentId);;
  match truthy requestOfferId with
  | Some offerId => attachOffer offerId (RideBooking.id booking)
  | None => mret tt
  end;;
  mret (booking, plan).

Definition createStripeBooking (bookingId passengerId : string) (input : CreateBookingInput.t)
    (feeTerms : ServiceFeeTerms.t) (requestOfferId : option string) : H BookingResponse.t :=
  preflightPlan ← resolveBookingPlan passengerId input false feeTerms requestOfferId;
  intent ← try_catch
    (createBookingPaymentIntent bookingId
       (PriceBreakdown.totalPrice (BookingPlan.priceBreakdown preflightPlan))
       (Ride.currency (BookingPlan.ride preflightPlan)))
    (fun _ => throw "PAYMENT_INITIALIZATION_FAILED");
  let '(intentId, clientSecret, currency) := intent in
  seed ← try_catch
    (transaction (seedStripeBooking bookingId passengerId input feeTerms requestOfferId preflightPlan intentId currency))
    (fun error =>
       attempt (cancelPaymentIntent intentId);;
       if decide (error = "P2002"%string) then throw "BOOKING_ALREADY_EXISTS" else throw error);
  let '(booking, plan) := seed in
  attempt (enqueuePaymentExpiryCheck (RideBooking.id booking) bookingPaymentWindowMs);;
  attempt (notifyRiderBookingState passengerId BookingStatus.PAYMENT_PENDING);;
  mret (mapBookingResponse booking (Some (BookingPlan.priceBreakdown plan))
          (Some (intentId, Some clientSecret, currency))).

Definition createBooking (passengerId : string) (input : CreateBookingInput.t) (requestOfferId : option string)
    : H BookingResponse.t :=
  passengerAccount ← findUnique prisma.user passengerId;
  throw_if (bool_decide ((passengerAccount ≫= User.tosAcceptedAt) = None) ||
            bool_decide ((passengerAccount ≫= User.privacyAcceptedAt) = None)) "TOS_NOT_ACCEPTED";;
  throw_if (default false (User.isBanned <$> passengerAccount)) "USER_BANNED";;
  throw_if match passengerAccount ≫= User.dob with
           | None => true
           | Some dob => calculateAgeYears dob now <? MINIMUM_BOOKING_AGE_YEARS
           end "PASSENGER_TOO_YOUNG";;
  bypassBookingPaymentMode ← isBypassBookingPaymentMode;
  let childSeatDeclared := CreateBookingInput.travelingWithChildUnderTwo input
                           || CreateBookingInput.requiresChildSeat input in
  throw_if (childSeatDeclared && negb (CreateBookingInput.bringingOwnChildSeat input)) "CHILD_SEAT_ACK_REQUIRED";;
  feeTerms ← resolveRideFeeTerms (CreateBookingInput.rideId input);
  bookingId ← randomUUID;
  if bypassBookingPaymentMode : bool then
    createBypassBooking bookingId passengerId input feeTerms requestOfferId
  else
    reentry ← (if bool_decide (truthy requestOfferId = None)
               then resolvePendingBookingReentry passengerId (CreateBookingInput.rideId input) else mret NONE);
    let fresh := createStripeBooking bookingId passengerId input feeTerms requestOfferId in
    match reentry with
    | RESUME existingId intentId clientSecret currency =>
        existing ← getBookingById passengerId existingId;
        match existing with
        | Some existing =>
            reschedulePaymentExpiryCheck existingId bookingPaymentWindowMs;;
            mret {| BookingResponse.booking := BookingResponse.booking existing; BookingResponse.resumed := true;
                    BookingResponse.priceBreakdown := BookingResponse.priceBreakdown existing;
                    BookingResponse.payment := Some (intentId, clientSecret, currency) |}
        | None => fresh
        end
    | APPLIED existingId =>
        existing ← getBookingById passengerId existingId;
        match existing with
        | Some existing =>
            mret {| BookingResponse.booking := BookingResponse.booking existing; BookingResponse.resumed := true;
                    BookingResponse.priceBreakdown := BookingResponse.priceBreakdown existing;
                    BookingResponse.payment := BookingResponse.payment existing |}
        | None => fresh
        end
    | NONE | REPLACE => fresh
    end.

(** ** Confirming and resuming a payment *)

Definition confirmBookingPayment (passengerId bookingId : string) : H (option BookingResponse.t) :=
  booking ← findById prisma.rideBooking bookingId (fun b => bool_decide (RideBooking.passengerId b = passengerId));
  match booking with
  | None => mret None
  | Some booking =>
      if has_status PAYMENT_SETTLED_BOOKING_STATUSES booking then getBookingById passengerId bookingId
      else
        throw_if (bool_decide (RideBooking.status booking <> BookingStatus.PAYMENT_PENDING)) "BOOKING_NOT_PAYABLE";;
        bypass ← isBypassBookingPaymentMode;
        throw_if bypass "PAYMENT_NOT_INITIALIZED";;
        match truthy (RideBooking.stripePaymentIntentId booking) with
        | None => throw "PAYMENT_NOT_INITIALIZED"
        | Some intentId =>
            intent ← try_catch (retrieveIntent intentId) (fun _ => throw "PAYMENT_VERIFICATION_UNAVAILABLE");
            if decide (PaymentIntent.status intent <> "succeeded"%string) then
              when (bool_decide (PaymentIntent.status intent = "canceled"%string))
                (failBookingAndReleaseSeats bookingId);;
              throw (default "PAYMENT_NOT_CONFIRMED"%string
                       (UNCONFIRMED_INTENT_STATUS_CODES (PaymentIntent.status intent)))
            else
              applyStripePaymentSucceededToBooking intent;;
              getBookingById passengerId bookingId
        end
  end.

Definition resumeBookingPayment (passengerId bookingId : string) : H (option BookingResponse.t) :=
  booking ← findById prisma.rideBooking bookingId (fun b => bool_decide (RideBooking.passengerId b = passengerId));
  match booking with
  | None => mret None
  | Some booking =>
      if has_status PAYMENT_SETTLED_BOOKING_STATUSES booking then getBookingById passengerId bookingId
      else
        throw_if (bool_decide (RideBooking.status booking <> BookingStatus.PAYMENT_PENDING)) "BOOKING_NOT_PAYABLE";;
        bypass ← isBypassBookingPaymentMode;
        throw_if bypass "PAYMENT_NOT_INITIALIZED";;
        match truthy (RideBooking.stripePaymentIntentId booking) with
        | None => throw "PAYMENT_NOT_INITIALIZED"
        | Some intentId =>
            intent ← try_catch (retrieveIntent intentId) (fun _ => throw "PAYMENT_VERIFICATION_UNAVAILABLE");
            if decide (PaymentIntent.status intent = "succeeded"%string) then
              applyStripePaymentSucceededToBooking intent;;
              getBookingById passengerId bookingId
            else if decide (PaymentIntent.status intent ∈ RESUMABLE_INTENT_STATUSES) then
              resumable ← getBookingById passengerId bookingId;
              match resumable with
              | None => mret None
              | Some resumable =>
                  reschedulePaymentExpiryCheck bookingId bookingPaymentWindowMs;;
                  mret (Some {| BookingResponse.booking := BookingResponse.booking resumable;
                                BookingResponse.resumed := true;
                                BookingResponse.priceBreakdown := BookingResponse.priceBreakdown resumable;
                                BookingResponse.payment :=
                                  Some (PaymentIntent.id intent, PaymentIntent.client_secret intent,
                                        toUpperCase (PaymentIntent.currency intent)) |})
              end
            else
              failBookingAndReleaseSeats bookingId;;
              throw "PAYMENT_CANCELLED"
        end
  end.

(** ** Waiting longer for the driver *)

Definition EXTENDED_DEADLINE_MS : Z := 60 * 60 * 1000.

(** Answers the new deadline. *)
Definition extendWaitForDriver (passengerId bookingId : string) : H Z :=
  booking ← findById prisma.rideBooking bookingId (fun b =>
    bool_decide (RideBooking.passengerId b = passengerId) &&
    bool_decide (RideBooking.status b = BookingStatus.DRIVER_PENDING));
  match booking with
  | None => throw "BOOKING_NOT_FOUND"
  | Some booking =>
      ride ← rideOf booking;
      throw_if match RideBooking.driverDecisionDeadlineAt booking with
               | None => true
               | Some deadline => now <? deadline
               end "DEADLINE_NOT_EXPIRED";;
      throw_if (bool_decide (is_Some (RideBooking.deadlineExtendedAt booking))) "ALREADY_EXTENDED";;
      update prisma.rideBooking bookingId (fun b =>
        b <| RideBooking.driverDecisionDeadlineAt := Some (now + EXTENDED_DEADLINE_MS) |>
          <| RideBooking.deadlineExtendedAt := Some now |>);;
      createNotification (Ride.driverId ride) "booking.rider.extended_wait";;
      mret (now + EXTENDED_DEADLINE_MS)
  end.

(** ** Cancelling *)

(** What a cancellation at [now] refunds: percent and amount. *)
Definition cancellationRefund (booking : RideBooking.t) (departureAt : Z) : num * num :=
  let isDeadlineExpired :=
    match RideBooking.driverDecisionDeadlineAt booking with Some t => t <? now | None => false end
    && bool_decide (RideBooking.status booking = BookingStatus.DRIVER_PENDING) in
  let isPaymentCaptured := bool_decide (is_Some (RideBooking.paymentCapturedAt booking))
    && bool_decide (is_Some (truthy (RideBooking.stripePaymentIntentId booking))) in
  let refundPercent :=
    if isDeadlineExpired then num_of_Z 100
    else if isPaymentCaptured then getRiderRefundPercent departureAt now else num_of_Z 0 in
  (refundPercent,
   if isPaymentCaptured then getRiderRefundAmount (paidAmount booking) refundPercent else num_of_Z 0).

Definition cancellationReason (booking : RideBooking.t) (reason : option string) : string :=
  if match RideBooking.driverDecisionDeadlineAt booking with Some t => t <? now | None => false end
     && bool_decide (RideBooking.status booking = BookingStatus.DRIVER_PENDING)
  then "DRIVER_NO_RESPONSE"
  else default "PASSENGER_CANCELLED"%string (truthy (strip <$> reason)).

Definition cancelledByPassenger (reason : string) (refundPercent refundAmount : num) (b : RideBooking.t) : RideBooking.t :=
  b <| RideBooking.status := BookingStatus.CANCELLED |>
    <| RideBooking.cancelledAt := Some now |>
    <| RideBooking.cancelledByRole := Some "PASSENGER"%string |>
    <| RideBooking.cancellationReason := Some reason |>
    <| RideBooking.refundPercent := Some refundPercent |>
    <| RideBooking.refundAmount := Some refundAmount |>.

Definition isCancellableBy (passengerId : string) (b : RideBooking.t) : bool :=
  bool_decide (RideBooking.passengerId b = passengerId) && has_status CANCELLABLE_BOOKING_STATUSES b.

(** [findFirst({ where: { bookingId, status: 'SELECTED', request: { riderId } } })] *)
Definition isCheckoutPending (passengerId bookingId : string) (d : Db.t) : bool :=
  existsb (fun o =>
    bool_decide (RideRequestOffer.bookingId o = Some bookingId) &&
    bool_decide (RideRequestOffer.status o = "SELECTED"%string) &&
    match Db.rideRequest d !! RideRequestOffer.requestId o with
    | Some r => bool_decide (RideRequest.riderId r = passengerId)
    | None => false
    end) (map_to_list (Db.rideRequestOffer d)).*2.

(** The transaction closes the booking and gives the seats back. *)
Definition cancelTransaction (passengerId bookingId reason : string) (refundPercent refundAmount : num)
    : H RideBooking.t :=
  current ← findById prisma.rideBooking bookingId (isCancellableBy passengerId);
  match current with
  | None => throw "BOOKING_NOT_CANCELLABLE"
  | Some current =>
      ride ← rideOf current;
      update prisma.rideBooking bookingId (cancelledByPassenger reason refundPercent refundAmount);;
      releaseBookingSeats (RideBooking.id current) (seats_input current (Ride.totalSeats ride));;
      mret current
  end.

Definition cancelBooking (passengerId bookingId : string) (reason : option string) : H CancelBookingResult.t :=
  checkout ← get (fun s => isCheckoutPending passengerId bookingId (St.db s));
  throw_if checkout
    "REQUEST_CHECKOUT_PENDING: Wait for the checkout reservation to expire before cancelling the request.";;
  booking ← findById prisma.rideBooking bookingId (isCancellableBy passengerId);
  match booking with
  | None => throw "BOOKING_NOT_FOUND"
  | Some booking =>
      ride ← rideOf booking;
      departureAt ← check (combineDepartureDateTimeUtc (Ride.departureDate ride) (Ride.departureTime ride));
      throw_if (bool_decide (RideBooking.status booking = BookingStatus.CONFIRMED) &&
                isConfirmedCancellationWindowClosed departureAt now) "CANCELLATION_WINDOW_CLOSED";;
      let isPaymentCaptured := bool_decide (is_Some (RideBooking.paymentCapturedAt booking))
        && bool_decide (is_Some (truthy (RideBooking.stripePaymentIntentId booking))) in
      let '(refundPercent, refundAmount) := cancellationRefund booking departureAt in
      updated ← transaction (cancelTransaction passengerId bookingId (cancellationReason booking reason)
                               refundPercent refundAmount);
      refundInitiated ←
        match truthy (RideBooking.stripePaymentIntentId booking) with
        | Some intentId =>
            if isPaymentCaptured then
              if nlt (num_of_Z 0) refundAmount then
                refundPaymentIntent intentId (toMinorCurrencyUnits refundAmount);;
                update prisma.rideBooking bookingId (fun b => b <| RideBooking.refundedAt := Some now |>);;
                mret true
              else mret false
            else releaseUnpaidPaymentIntent intentId;; mret false
        | None => mret false
        end;
      when (refundInitiated && nlt (num_of_Z 0) refundAmount)
        (attempt (markBookingPaymentRefunded bookingId (Ride.driverId ride) (Some refundAmount)));;
      createNotification (Ride.driverId ride) "booking.rider.cancelled";;
      mret {| CancelBookingResult.bookingId := RideBooking.id updated;
              CancelBookingResult.rideId := RideBooking.rideId updated;
              CancelBookingResult.refundPercent := refundPercent;
              CancelBookingResult.refundAmount := refundAmount;
              CancelBookingResult.refundInitiated := refundInitiated |}
  end.

(** ** Withdrawing a request *)

Definition withdrawnBooking (reason : option string) (amount : num) (b : RideBooking.t) : RideBooking.t :=
  let reason := default "RIDER_WITHDRAWN"%string reason in
  cancelledByPassenger reason (num_of_Z 100) amount b
    <| RideBooking.withdrawnAt := Some now |>
    <| RideBooking.withdrawnReason := Some reason |>.

Definition withdrawBooking (passengerId bookingId : string) (reason : option string) : H bool :=
  booking ← findById prisma.rideBooking bookingId (fun b =>
    bool_decide (RideBooking.passengerId b = passengerId) && has_status WITHDRAWABLE_BOOKING_STATUSES b);
  match booking with
  | None => throw "BOOKING_NOT_FOUND"
  | Some booking =>
      ride ← rideOf booking;
      bypassPayment ← isBypassBookingPaymentMode;
      withdrawn ← transaction (
        count ← updateManyId prisma.rideBooking bookingId (has_status WITHDRAWABLE_BOOKING_STATUSES)
          (withdrawnBooking reason (paidAmount booking));
        if count =? 0 then mret false
        else releaseBookingSeats bookingId (seats_input booking (Ride.totalSeats ride));; mret true);
      throw_if (negb withdrawn) "BOOKING_NOT_FOUND";;
      refundInitiated ←
        match bypassPayment : bool, truthy (RideBooking.stripePaymentIntentId booking),
              RideBooking.paymentCapturedAt booking with
        | true, _, _ => mret true
        | false, Some intentId, None => releaseUnpaidPaymentIntent intentId;; mret false
        | false, Some intentId, Some _ =>
            refundPaymentIntent intentId (toMinorCurrencyUnits (paidAmount booking));;
            update prisma.rideBooking bookingId (fun b => b <| RideBooking.refundedAt := Some now |>);;
            mret true
        | false, None, _ => mret false
        end;
      when refundInitiated
        (attempt (markBookingPaymentRefunded bookingId (Ride.driverId ride) (Some (paidAmount booking))));;
      createNotification (Ride.driverId ride) "booking.rider.withdrawn";;
      mret refundInitiated
  end.
End booking.

(** ** How a driver answers *)

Module DriverResponseMetrics.
Record t := {
  totalRequests : Z;
  accepted : Z;
  rejected : Z;
  expired : Z;
  totalResponseTimeMs : Z;
}.
End DriverResponseMetrics.

(** The loop over the bookings of the driver that had a deadline. *)
Definition countResponse (m : DriverResponseMetrics.t) (b : RideBooking.t) : DriverResponseMetrics.t :=
  let answered kind :=
    match RideBooking.driverDecisionAt b with
    | Some t =>
        if decide (RideBooking.status b = kind) then Some (t - RideBooking.createdAt b) else None
    | None => None
    end in
  {| DriverResponseMetrics.totalRequests := DriverResponseMetrics.totalRequests m + 1;
     DriverResponseMetrics.accepted :=
       DriverResponseMetrics.accepted m + (if answered BookingStatus.CONFIRMED then 1 else 0);
     DriverResponseMetrics.rejected :=
       DriverResponseMetrics.rejected m + (if answered BookingStatus.CANCELLED then 1 else 0);
     DriverResponseMetrics.expired :=
       DriverResponseMetrics.expired m +
         (match answered BookingStatus.CONFIRMED, answered BookingStatus.CANCELLED, RideBooking.autoCancelledAt b with
          | None, None, Some _ => 1 | _, _, _ => 0 end);
     DriverResponseMetrics.totalResponseTimeMs :=
       DriverResponseMetrics.totalResponseTimeMs m +
         default 0 (match answered BookingStatus.CONFIRMED with
                    | Some t => Some t | None => answered BookingStatus.CANCELLED end) |}.

(** Counts, accept rate in percent and average response time in ms and minutes. *)
Definition getDriverResponseMetrics (driverId : string)
    : H (DriverResponseMetrics.t * Z * option (Z * Z)) :=
  bookings ← get (fun s => where_ prisma.rideBooking (fun b =>
    match Db.ride (St.db s) !! RideBooking.rideId b with
    | Some r => bool_decide (Ride.driverId r = driverId)
    | None => false
    end && bool_decide (is_Some (RideBooking.driverDecisionDeadlineAt b))) (St.db s));
  let m := fold_left countResponse bookings
    {| DriverResponseMetrics.totalRequests := 0; DriverResponseMetrics.accepted := 0;
       DriverResponseMetrics.rejected := 0; DriverResponseMetrics.expired := 0;
       DriverResponseMetrics.totalResponseTimeMs := 0 |} in
  let responded := DriverResponseMetrics.accepted m + DriverResponseMetrics.rejected m in
  let total := num_of_Z (DriverResponseMetrics.totalResponseTimeMs m) in
  mret (m,
    if 0 <? DriverResponseMetrics.totalRequests m
    then math_round (nmul (ndiv (num_of_Z (DriverResponseMetrics.accepted m))
                                (num_of_Z (DriverResponseMetrics.totalRequests m))) (num_of_Z 100))
    else 0,
    if 0 <? responded
    then Some (math_round (ndiv total (num_of_Z responded)),
               math_round (ndiv (ndiv total (num_of_Z responded)) (num_of_Z 60000)))
    else None).
