(* ===== verification/DriverBooking.v ===== *)
(** * The driver's answer to a booking

    Models the decisions of [modules/driver-booking/driver-booking.service.ts]: accepting,
    rejecting and cancelling after acceptance.  The one-time codes of pickup and drop-off of
    the same file share the driver's override and are in [RideOps]. *)

From Stdlib Require Import ZArith Lia.
From stdpp Require Import base list option strings gmap.
From S2P Require Import Prelude JsNumber Money Schema Store Seats Payments Time Gateway.
From S2P Require Import RideRequest Booking.

Open Scope Z_scope.

Definition MAX_OTP_ATTEMPTS : Z := 5.
Definition DRIVER_PENALTY_PERCENT : num := num_of_Z 50.

Module SegmentInfo.
Record t := {
  pickupAddress : string;
  dropoffAddress : string;
  pickupWaypointId : option string;
  dropoffWaypointId : option string;
  isPartialRoute : bool;
}.
End SegmentInfo.

Module DriverBookingResult.
Record t := {
  bookingId : string;
  rideId : string;
  passengerId : string;
  status : BookingStatus.t;
  segment : SegmentInfo.t;
}.
End DriverBookingResult.

(** A booking with its ride, the driver and the waypoints. *)
Module DriverBookingRecord.
Record t := { booking : RideBooking.t; ride : Ride.t; driver : option User.t; waypoints : list RideWaypoint.t }.
End DriverBookingRecord.
Module R := DriverBookingRecord.

Definition resolveBookingSegment (r : R.t) : SegmentInfo.t :=
  let b := R.booking r in
  {| SegmentInfo.pickupAddress :=
       resolveSegmentAddress (Ride.originAddress (R.ride r)) (RideBooking.pickupWaypointId b) (R.waypoints r);
     SegmentInfo.dropoffAddress :=
       resolveSegmentAddress (Ride.destinationAddress (R.ride r)) (RideBooking.dropoffWaypointId b) (R.waypoints r);
     SegmentInfo.pickupWaypointId := RideBooking.pickupWaypointId b;
     SegmentInfo.dropoffWaypointId := RideBooking.dropoffWaypointId b;
     SegmentInfo.isPartialRoute :=
       bool_decide (is_Some (truthy (RideBooking.pickupWaypointId b))) ||
       bool_decide (is_Some (truthy (RideBooking.dropoffWaypointId b))) |}.

Section driver.
Context `{Env}.

Definition fetchDriverBooking (bookingId : string) : H (option R.t) :=
  booking ← findUnique prisma.rideBooking bookingId;
  match booking with
  | None => mret None
  | Some booking =>
      ride ← rideOf booking;
      driver ← findUnique prisma.user (Ride.driverId ride);
      waypoints ← waypointsOf (Ride.id ride);
      mret (Some {| R.booking := booking; R.ride := ride; R.driver := driver; R.waypoints := waypoints |})
  end.

Definition requireDriverBooking (driverId : string) (booking : option R.t) : H R.t :=
  match booking with
  | None => throw "BOOKING_NOT_FOUND"
  | Some r => throw_if (bool_decide (Ride.driverId (R.ride r) <> driverId)) "FORBIDDEN_DRIVER";; mret r
  end.

Definition assertDecisionWindowOpen (deadlineAt : option Z) : H unit :=
  throw_if match deadlineAt with None => false | Some t => t <? now end "BOOKING_DECISION_DEADLINE_PASSED".

Definition driverResult (r : R.t) (status : BookingStatus.t) : DriverBookingResult.t :=
  {| DriverBookingResult.bookingId := RideBooking.id (R.booking r);
     DriverBookingResult.rideId := RideBooking.rideId (R.booking r);
     DriverBookingResult.passengerId := RideBooking.passengerId (R.booking r);
     DriverBookingResult.status := status;
     DriverBookingResult.segment := resolveBookingSegment r |}.

Definition emitBookingUpdated (r : R.t) (action : string) : H unit :=
  perform (EmitToUsers [RideBooking.passengerId (R.booking r); Ride.driverId (R.ride r)]
             "booking:updated" (RideBooking.id (R.booking r)) action).

Definition acceptBooking (driverId bookingId : string) : H DriverBookingResult.t :=
  fetched ← fetchDriverBooking bookingId;
  r ← requireDriverBooking driverId fetched;
  throw_if (negb (default false (User.dlVerified <$> R.driver r))) "DRIVER_NOT_VERIFIED";;
  throw_if (bool_decide (RideBooking.status (R.booking r) <> BookingStatus.DRIVER_PENDING))
    "BOOKING_NOT_DRIVER_PENDING";;
  assertDecisionWindowOpen (RideBooking.driverDecisionDeadlineAt (R.booking r));;
  pickupOtp ← generateBookingOtp;
  dropOtp ← generateBookingOtp;
  confirmed ← updateManyId prisma.rideBooking bookingId
    (fun b => bool_decide (RideBooking.status b = BookingStatus.DRIVER_PENDING) &&
              bool_decide (is_Some (RideBooking.seatsReservedAt b)))
    (confirmedBooking (R.ride r) pickupOtp dropOtp);
  throw_if (confirmed =? 0) "BOOKING_NOT_DRIVER_PENDING";;
  createNotification (RideBooking.passengerId (R.booking r)) "booking.driver.accepted";;
  emitBookingUpdated r "driver.accepted";;
  mret (driverResult r BookingStatus.CONFIRMED).

(** The refund a driver's refusal starts: its id, and whether one is due. *)
Definition startFullRefund (booking : RideBooking.t) (bypassPayment : bool) : H (option string * bool) :=
  match truthy (RideBooking.stripePaymentIntentId booking), RideBooking.paymentCapturedAt booking with
  | Some intentId, Some _ =>
      if bypassPayment then mret (None, nlt (num_of_Z 0) (paidAmount booking))
      else refund ← refundPaymentIntent intentId (toMinorCurrencyUnits (paidAmount booking));
           mret (Some refund, true)
  | _, _ => mret (None, bypassPayment && nlt (num_of_Z 0) (paidAmount booking))
  end.

(** The fields both refusals set. *)
Definition refusedBooking (code : string) (amount : num) (refundId : option string) (refundInitiated : bool)
    (b : RideBooking.t) : RideBooking.t :=
  b <| RideBooking.status := BookingStatus.CANCELLED |>
    <| RideBooking.cancelledAt := Some now |>
    <| RideBooking.cancelledByRole := Some "DRIVER"%string |>
    <| RideBooking.cancellationReason := Some code |>
    <| RideBooking.refundPercent := Some (num_of_Z 100) |>
    <| RideBooking.refundAmount := Some amount |>
    <| RideBooking.refundId := refundId |>
    <| RideBooking.refundedAt ::= fun t => if refundInitiated then Some now else t |>.

(** The transaction of a refusal: only from [expected], with [f] and the release
    of the seats; [extra] is what else it writes. *)
Definition refuseTransaction (bookingId : string) (expected : BookingStatus.t) (code : string)
    (f : RideBooking.t -> RideBooking.t) (extra : RideBooking.t -> H unit) : H RideBooking.t :=
  transaction (
    current ← findUnique prisma.rideBooking bookingId;
    match current with
    | None => throw "BOOKING_NOT_FOUND"
    | Some current =>
        ride ← rideOf current;
        throw_if (bool_decide (RideBooking.status current <> expected)) code;;
        update prisma.rideBooking bookingId f;;
        releaseBookingSeats (RideBooking.id current) (seats_input current (Ride.totalSeats ride));;
        extra current;;
        mret current
    end).

Definition syncRefund (bookingId driverId : string) (refundInitiated : bool) (amount : num) : H unit :=
  when (refundInitiated && nlt (num_of_Z 0) amount)
    (attempt (markBookingPaymentRefunded bookingId driverId (Some amount))).

Definition rejectBooking (driverId bookingId reason : string) : H DriverBookingResult.t :=
  fetched ← fetchDriverBooking bookingId;
  r ← requireDriverBooking driverId fetched;
  throw_if (bool_decide (RideBooking.status (R.booking r) <> BookingStatus.DRIVER_PENDING))
    "BOOKING_NOT_DRIVER_PENDING";;
  assertDecisionWindowOpen (RideBooking.driverDecisionDeadlineAt (R.booking r));;
  bypassPayment ← isBypassBookingPaymentMode;
  refund ← startFullRefund (R.booking r) bypassPayment;
  let '(refundId, refundInitiated) := refund in
  let amount := paidAmount (R.booking r) in
  refuseTransaction bookingId BookingStatus.DRIVER_PENDING "BOOKING_NOT_DRIVER_PENDING"
    (fun b => refusedBooking "DRIVER_REJECTED" amount refundId refundInitiated b
                <| RideBooking.driverDecisionAt := Some now |>
                <| RideBooking.driverRejectionReason := Some reason |>)
    (fun _ => mret tt);;
  syncRefund bookingId driverId refundInitiated amount;;
  createNotification (RideBooking.passengerId (R.booking r)) "booking.driver.rejected";;
  emitBookingUpdated r "driver.rejected";;
  mret (driverResult r BookingStatus.CANCELLED).

Definition createPenalty (driverId bookingId : string) : H unit :=
  id ← randomUUID;
  create prisma.driverPenaltyEvent id
    {| DriverPenaltyEvent.id := id; DriverPenaltyEvent.driverId := driverId;
       DriverPenaltyEvent.bookingId := bookingId;
       DriverPenaltyEvent.penaltyPercent := DRIVER_PENALTY_PERCENT;
       DriverPenaltyEvent.reason := "DRIVER_CANCELLED_AFTER_ACCEPT"; DriverPenaltyEvent.createdAt := now |};;
  mret tt.

Definition cancelAfterAccept (driverId bookingId reason : string) : H DriverBookingResult.t :=
  fetched ← fetchDriverBooking bookingId;
  r ← requireDriverBooking driverId fetched;
  throw_if (bool_decide (RideBooking.status (R.booking r) <> BookingStatus.CONFIRMED)) "BOOKING_NOT_CONFIRMED";;
  bypassPayment ← isBypassBookingPaymentMode;
  refund ← startFullRefund (R.booking r) bypassPayment;
  let '(refundId, refundInitiated) := refund in
  let amount := paidAmount (R.booking r) in
  refuseTransaction bookingId BookingStatus.CONFIRMED "BOOKING_NOT_CONFIRMED"
    (fun b => refusedBooking "DRIVER_CANCELLED_AFTER_ACCEPT" amount refundId refundInitiated b
                <| RideBooking.driverCancellationReason := Some reason |>
                <| RideBooking.driverPenaltyAppliedAt := Some now |>
                <| RideBooking.driverPenaltyValue := Some DRIVER_PENALTY_PERCENT |>)
    (fun current => createPenalty driverId (RideBooking.id current));;
  syncRefund bookingId driverId refundInitiated amount;;
  createNotification (RideBooking.passengerId (R.booking r)) "booking.driver.cancelled";;
  emitBookingUpdated r "driver.cancelled";;
  mret (driverResult r BookingStatus.CANCELLED).
End driver.
