(* ===== verification/RideOps.v ===== *)
(** * Operations during a ride

    Models [modules/ride-operations/]: starting and finishing a ride, arriving,
    boarding, no-shows and drop-offs, the override of the driver
    ([force-override.ts] and its effects), locations and the replay of actions
    queued offline; the tracking links of [tracking.service.ts]; the opening of a
    dispute ([dispute.service.ts]); and the one-time codes of
    [driver-booking.service.ts], which share the override.  Ride events are stored
    under the client's [actionId]. *)

From Stdlib Require Import ZArith QArith Lia.
From stdpp Require Import base list option strings gmap.
From S2P Require Import Prelude JsNumber JsText Money Schema Store Seats Payments Time Gateway.
From S2P Require Import Rewards RideRequest Booking DriverBooking.

Open Scope Z_scope.

(** ** Statuses and constants *)

Definition RIDE_TRANSITIONS (st : RideStatus.t) : list RideStatus.t :=
  match st with
  | RideStatus.DRAFT => [RideStatus.PUBLISHED]
  | RideStatus.PUBLISHED => [RideStatus.SCHEDULED; RideStatus.READY_TO_START; RideStatus.CANCELLED; RideStatus.EXPIRED]
  | RideStatus.SCHEDULED => [RideStatus.READY_TO_START; RideStatus.CANCELLED; RideStatus.EXPIRED]
  | RideStatus.READY_TO_START => [RideStatus.IN_PROGRESS; RideStatus.CANCELLED; RideStatus.EXPIRED]
  | RideStatus.IN_PROGRESS => [RideStatus.COMPLETION_PENDING; RideStatus.CANCELLED; RideStatus.DISPUTED]
  | RideStatus.COMPLETION_PENDING => [RideStatus.COMPLETED; RideStatus.DISPUTED]
  | RideStatus.COMPLETED => [RideStatus.DISPUTED]
  | RideStatus.CANCELLED | RideStatus.EXPIRED | RideStatus.DISPUTED => []
  end.

Definition NON_TERMINAL_BOOKING_STATES : list BookingStatus.t :=
  [BookingStatus.DRIVER_PENDING; BookingStatus.CONFIRMED; BookingStatus.WAITING_FOR_PICKUP;
   BookingStatus.DRIVER_ARRIVED; BookingStatus.OTP_PENDING; BookingStatus.ONBOARD; BookingStatus.DROP_PENDING;
   BookingStatus.DRIVER_DROPPED; BookingStatus.IN_PROGRESS].

Definition WAIT_TIME_MINUTES : Z := 10.
Definition GEOFENCE_RADIUS_METERS : Z := 200.
Definition FORCE_REQUIRES_RIDE_IN_PROGRESS : string := "FORCE_REQUIRES_RIDE_IN_PROGRESS".

Definition OPEN_DISPUTE_STATUSES : list DisputeStatus.t :=
  [DisputeStatus.OPEN; DisputeStatus.EVIDENCE_COLLECTED; DisputeStatus.NEEDS_MANUAL_REVIEW;
   DisputeStatus.WAITING_FOR_USER_RESPONSE; DisputeStatus.ESCALATED].

(** The operations whose override opens a dispute. *)
Definition HIGH_RISK_ACTIONS : list string := ["PICKUP_OTP_VERIFIED"; "DROP_OTP_VERIFIED"; "NO_SHOW_MARKED"]%string.

(** ** Inputs *)

(** [clientTimestamp] is an instant: parsing it is [Date]'s. *)
Module RideEventInput.
Record t := {
  actionId : string;
  lat : option num;
  lng : option num;
  clientTimestamp : Z;
  force : bool;
  overrideReason : option string;
}.
End RideEventInput.

Module LocationInput.
Record t := { lat : num; lng : num; speed : option num; heading : option num; accuracy : option num; timestamp : Z }.
End LocationInput.

(** [clientTimestamp] is the text that was sent, [input] carries its instant. *)
Module OfflineAction.
Record t := { eventType : string; rideId : string; bookingId : option string; clientTimestamp : string;
              input : RideEventInput.t }.
End OfflineAction.

(** ** The override *)

(** The mutable list of the closure is threaded through the handler. *)
Module ForceContext.
Record t := { forced : bool; overrideReason : option string; skippedChecks : list string }.
#[global] Instance t_eta : Eta t := fun r => Build_t (forced r) (overrideReason r) (skippedChecks r).
End ForceContext.

Definition createForceContext (force : bool) (overrideReason : option string) : ForceContext.t := {|
  ForceContext.forced := force;
  ForceContext.overrideReason := truthy (trim_string <$> overrideReason);
  ForceContext.skippedChecks := [] |}.

Definition record_skip (c : ForceContext.t) (code : string) : ForceContext.t :=
  if bool_decide (code ∈ ForceContext.skippedChecks c) then c
  else c <| ForceContext.skippedChecks ::= fun l => l ++ [code] |>.

(** Throws [code] when violated, unless forced: then the check is recorded. *)
Definition assertOrForce (c : ForceContext.t) (violated : bool) (code : string) : H ForceContext.t :=
  if negb violated then mret c
  else if negb (ForceContext.forced c) then throw code
  else mret (record_skip c code).

Definition noteSkip (c : ForceContext.t) (code : string) : ForceContext.t :=
  if ForceContext.forced c then record_skip c code else c.

Definition force_metadata (c : ForceContext.t) : list (string * Json) :=
  if ForceContext.forced c then
    [("forced", JBool true); ("manualOverride", JBool true);
     ("overrideReason", joptional JString (ForceContext.overrideReason c));
     ("skippedChecks", JArray (map JString (ForceContext.skippedChecks c)))]%string
  else [].

Definition assertForceAllowedOnRide (c : ForceContext.t) (rideStatus : RideStatus.t) : H unit :=
  throw_if (ForceContext.forced c && bool_decide (rideStatus <> RideStatus.IN_PROGRESS))
    FORCE_REQUIRES_RIDE_IN_PROGRESS.

(** ** Distances *)

(** [Math.PI] *)
Definition MATH_PI : num := Qred (884279719003555 # 281474976710656).
Definition EARTH_RADIUS_METERS : num := num_of_Z 6371000.

Definition toRad (deg : num) : num := ndiv (nmul deg MATH_PI) (num_of_Z 180).

(** A pickup or drop-off point, and where it comes from. *)
Module RidePoint.
Record t := { lat : num; lng : num; address : string; source : string }.
End RidePoint.

Definition point_json (p : RidePoint.t) : Json := JObject
  [("lat", JNumber (RidePoint.lat p)); ("lng", JNumber (RidePoint.lng p));
   ("address", JString (RidePoint.address p)); ("source", JString (RidePoint.source p))]%string.

Definition pointOf (waypointId : option string) (waypoints : list RideWaypoint.t) (end_ : RidePoint.t) : RidePoint.t :=
  match truthy waypointId with
  | None => end_
  | Some id =>
      match List.find (fun w => bool_decide (RideWaypoint.id w = id)) waypoints with
      | Some w => {| RidePoint.lat := RideWaypoint.lat w; RidePoint.lng := RideWaypoint.lng w;
                     RidePoint.address := RideWaypoint.address w; RidePoint.source := "waypoint" |}
      | None => end_
      end
  end.

Definition resolvePickupPoint (b : RideBooking.t) (ride : Ride.t) (waypoints : list RideWaypoint.t) : RidePoint.t :=
  pointOf (RideBooking.pickupWaypointId b) waypoints
    {| RidePoint.lat := Ride.originLat ride; RidePoint.lng := Ride.originLng ride;
       RidePoint.address := "Origin pickup point"; RidePoint.source := "origin" |}.

Definition resolveDropoffPoint (b : RideBooking.t) (ride : Ride.t) (waypoints : list RideWaypoint.t) : RidePoint.t :=
  pointOf (RideBooking.dropoffWaypointId b) waypoints
    {| RidePoint.lat := Ride.destinationLat ride; RidePoint.lng := Ride.destinationLng ride;
       RidePoint.address := "Destination drop-off point"; RidePoint.source := "destination" |}.

(** ** What an operation answers *)

Module OperationResult.
Record t := {
  bookingId : string;
  rideId : string;
  status : BookingStatus.t;
  distanceMeters : option Z;
  geofenceValid : bool;
  force : ForceContext.t;
}.
End OperationResult.

Section operations.
Context `{Env}.

Definition haversineDistance (lat1 lng1 lat2 lng2 : num) : num :=
  let dLat := toRad (nsub lat2 lat1) in
  let dLng := toRad (nsub lng2 lng1) in
  let sq x := nmul x x in
  let a := nadd (sq (math_sin (ndiv dLat (num_of_Z 2))))
                (nmul (nmul (math_cos (toRad lat1)) (math_cos (toRad lat2)))
                      (sq (math_sin (ndiv dLng (num_of_Z 2))))) in
  let c := nmul (num_of_Z 2) (math_atan2 (math_sqrt a) (math_sqrt (nsub (num_of_Z 1) a))) in
  nmul EARTH_RADIUS_METERS c.

(** The distance of the reported position, when there is one. *)
Definition distanceTo (input : RideEventInput.t) (p : RidePoint.t) : option Z :=
  match RideEventInput.lat input, RideEventInput.lng input with
  | Some lat, Some lng =>
      Some (math_round (nmax (num_of_Z 0) (haversineDistance lat lng (RidePoint.lat p) (RidePoint.lng p))))
  | _, _ => None
  end.

Definition geofenceOk (distance : option Z) : bool :=
  match distance with None => true | Some m => m <=? GEOFENCE_RADIUS_METERS end.

Definition noShowAvailableAt (waitTimerStartedAt : option Z) : option Z :=
  match waitTimerStartedAt with
  | None => None
  | Some t => Some (if ALLOW_RIDE_SIMULATION then t else t + WAIT_TIME_MINUTES * 60000)
  end.

(** [None]: no restriction; the text of the variable is a number of minutes. *)
Definition getRideStartEarlyLimitMinutes : option num :=
  match truthy (trim_string <$> RIDE_START_EARLY_LIMIT_MINUTES) with
  | None => None
  | Some raw =>
      match js_Number raw with
      | Some minutes => if nlt minutes (num_of_Z 0) then None else Some minutes
      | None => None
      end
  end.

Definition isRideStartTooEarly (departureAt : Z) : bool :=
  match getRideStartEarlyLimitMinutes with
  | None => false
  | Some limitMinutes =>
      nlt (num_of_Z now) (nsub (num_of_Z departureAt) (nmul (nmul limitMinutes (num_of_Z 60)) (num_of_Z 1000)))
  end.

(** ** Events, disputes and tracking links *)

(** An event whose [actionId] was recorded before is answered, not written again. *)
Definition recordEvent (rideId : string) (bookingId : option string) (eventType actorType actorId : string)
    (input : RideEventInput.t) (metadata : list (string * Json)) (validationStatus : string)
    (force : option ForceContext.t) : H RideEvent.t :=
  existing ← findUnique prisma.rideEvent (RideEventInput.actionId input);
  match existing with
  | Some existing => mret existing
  | None =>
      id ← randomUUID;
      create prisma.rideEvent (RideEventInput.actionId input) {|
        RideEvent.id := id; RideEvent.rideId := rideId; RideEvent.bookingId := bookingId;
        RideEvent.actionId := RideEventInput.actionId input; RideEvent.eventType := eventType;
        RideEvent.actorType := actorType; RideEvent.actorId := actorId;
        RideEvent.lat := RideEventInput.lat input; RideEvent.lng := RideEventInput.lng input;
        RideEvent.clientTimestamp := RideEventInput.clientTimestamp input; RideEvent.serverTimestamp := now;
        RideEvent.validationStatus :=
          if match force with Some c => ForceContext.forced c | None => false end then "SUSPICIOUS" else validationStatus;
        RideEvent.metadataJson :=
          Some (JObject (spread metadata match force with Some c => force_metadata c | None => [] end)) |}
  end.

Definition createDispute (rideId bookingId raisedBy reason : string) (description : option string)
    (status : DisputeStatus.t) : H Dispute.t :=
  booking ← findUnique prisma.rideBooking bookingId;
  match booking with
  | None => throw "BOOKING_NOT_FOUND"
  | Some booking =>
      ride ← rideOf booking;
      let passengerId := RideBooking.passengerId booking in
      let driverId := Ride.driverId ride in
      throw_if (bool_decide (RideBooking.rideId booking <> rideId)) "BOOKING_RIDE_MISMATCH";;
      throw_if (bool_decide (raisedBy <> passengerId) && bool_decide (raisedBy <> driverId)) "FORBIDDEN_DISPUTE";;
      existing ← findFirst prisma.dispute (fun d =>
        bool_decide (Dispute.bookingId d = bookingId) && bool_decide (Dispute.raisedBy d = raisedBy) &&
        bool_decide (Dispute.status d ∈ OPEN_DISPUTE_STATUSES));
      throw_if (bool_decide (is_Some existing)) "DISPUTE_ALREADY_EXISTS";;
      id ← randomUUID;
      dispute ← create prisma.dispute id
        (Dispute.defaults id now
           <| Dispute.rideId := rideId |> <| Dispute.bookingId := bookingId |> <| Dispute.raisedBy := raisedBy |>
           <| Dispute.reason := reason |> <| Dispute.description := description |> <| Dispute.status := status |>);
      createNotification (if decide (raisedBy = passengerId) then driverId else passengerId) "dispute.created";;
      perform (EmitToUsers [passengerId; driverId] "dispute:updated" bookingId reason);;
      mret dispute
  end.

(** What a forced step owes to the others: never throws. *)
Definition handleForcedAction (c : ForceContext.t) (action rideId bookingId : string) (passengerId : option string)
    (actorId : string) : H unit :=
  when (ForceContext.forced c) (
    match truthy passengerId with
    | Some passengerId => attempt (createNotification passengerId "booking.forced_action")
    | None => mret tt
    end;;
    when (bool_decide (action ∈ HIGH_RISK_ACTIONS))
      (attempt (createDispute rideId bookingId actorId ("FORCED_" +:+ action) (ForceContext.overrideReason c)
                  DisputeStatus.NEEDS_MANUAL_REVIEW))).

Definition TRACKABLE_STATUSES : list BookingStatus.t :=
  [BookingStatus.CONFIRMED; BookingStatus.WAITING_FOR_PICKUP; BookingStatus.DRIVER_ARRIVED; BookingStatus.ONBOARD;
   BookingStatus.IN_PROGRESS].

Definition createTrackingLink (bookingId createdBy : string) (accessScope : option string) (ttlHours : option Z)
    (allowSystemCreation : bool) : H TrackingLink.t :=
  booking ← findUnique prisma.rideBooking bookingId;
  match booking with
  | None => throw "BOOKING_NOT_FOUND"
  | Some booking =>
      throw_if (negb allowSystemCreation && bool_decide (RideBooking.passengerId booking <> createdBy)) "FORBIDDEN";;
      throw_if (negb (has_status TRACKABLE_STATUSES booking)) "BOOKING_NOT_TRACKABLE";;
      token ← randomUUID;
      id ← randomUUID;
      create prisma.trackingLink id {|
        TrackingLink.id := id; TrackingLink.bookingId := bookingId; TrackingLink.token := token;
        TrackingLink.tokenHash := hashOtp token;
        TrackingLink.expiresAt := now + default 24 ttlHours * 60 * 60 * 1000;
        TrackingLink.accessScope := default "LOCATION_ONLY"%string accessScope;
        TrackingLink.createdBy := createdBy |}
  end.

(** ** Starting a ride *)

Definition assertRideTransition (currentStatus targetStatus : RideStatus.t) : H unit :=
  throw_if (negb (bool_decide (targetStatus ∈ RIDE_TRANSITIONS currentStatus))) "INVALID_RIDE_STATE_TRANSITION".

Definition emitBooking (userIds : list string) (bookingId action : string) : H unit :=
  perform (EmitToUsers userIds "booking:updated" bookingId action).

(** Sockets that are not awaited do not fail the handler. *)
Definition emitRide (rideId event : string) : H unit := attempt (perform (EmitToRide rideId event)).

(** [address.split(',')[0]] *)
Fixpoint before_comma (s : string) : string :=
  match s with
  | EmptyString => EmptyString
  | String c s' => if (Ascii.nat_of_ascii c =? 44)%nat then EmptyString else String c (before_comma s')
  end.

(** What a rider hears when the ride starts. *)
Definition announceStart (driverId : string) (ride : Ride.t) (booking : RideBooking.t) : H unit :=
  let passengerId := RideBooking.passengerId booking in
  passenger ← findUniqueOrThrow prisma.user passengerId;
  attempt (createTrackingLink (RideBooking.id booking) passengerId (Some "LOCATION_AND_ETA"%string) (Some 24) true);;
  when (bool_decide (RideBooking.status booking = BookingStatus.CONFIRMED))
    (emitBooking [driverId; passengerId] (RideBooking.id booking) "ride.started");;
  createNotification passengerId "ride.started";;
  match truthy (User.email passenger) with
  | Some email =>
      attempt (perform (SendMail email ("Live tracking started for " +:+ before_comma (Ride.originAddress ride)
                                         +:+ " to " +:+ before_comma (Ride.destinationAddress ride))))
  | None => mret tt
  end;;
  match truthy (User.phone passenger) with
  | Some phone => attempt (perform (SendSms phone))
  | None => mret tt
  end.

(** Answers the ride's new status and start. *)
Definition startRide (driverId rideId : string) (input : RideEventInput.t) : H (RideStatus.t * option Z) :=
  ride ← findUnique prisma.ride rideId;
  match ride with
  | None => throw "RIDE_NOT_FOUND"
  | Some ride =>
      bookings ← findMany prisma.rideBooking (fun b =>
        bool_decide (RideBooking.rideId b = rideId) &&
        has_status [BookingStatus.CONFIRMED; BookingStatus.DRIVER_PENDING] b);
      throw_if (bool_decide (Ride.driverId ride <> driverId)) "FORBIDDEN_DRIVER";;
      (if decide (Ride.status ride = RideStatus.PUBLISHED \/ Ride.status ride = RideStatus.READY_TO_START) then mret tt
       else assertRideTransition (Ride.status ride) RideStatus.IN_PROGRESS);;
      (if ALLOW_RIDE_SIMULATION then mret tt
       else
         departureAt ← check (combineDepartureDateTimeUtc (Ride.departureDate ride) (Ride.departureTime ride));
         throw_if (isRideStartTooEarly departureAt) "RIDE_TOO_EARLY");;
      updated ← update prisma.ride rideId (fun r =>
        r <| Ride.status := RideStatus.IN_PROGRESS |> <| Ride.actualStartTime := Some now |>
          <| Ride.currentStopSequence := Some 0 |>);
      updateMany prisma.rideBooking
        (fun b => bool_decide (RideBooking.rideId b = rideId) && bool_decide (RideBooking.status b = BookingStatus.CONFIRMED))
        (fun b => b <| RideBooking.status := BookingStatus.WAITING_FOR_PICKUP |>);;
      recordEvent rideId None "RIDE_STARTED" "DRIVER" driverId input [] "VALID" None;;
      emitRide rideId "ride:updated";;
      perform (EmitToUsers (driverId :: map RideBooking.passengerId bookings) "ride:updated" rideId "ride.started");;
      for_each bookings (announceStart driverId ride);;
      mret (Ride.status updated, Ride.actualStartTime updated)
  end.

(** ** At the pickup *)

(** A booking with its ride, for the driver of the ride. *)
Definition driverBooking (driverId bookingId : string) : H (RideBooking.t * Ride.t) :=
  booking ← findUnique prisma.rideBooking bookingId;
  match booking with
  | None => throw "BOOKING_NOT_FOUND"
  | Some booking =>
      ride ← rideOf booking;
      throw_if (bool_decide (Ride.driverId ride <> driverId)) "FORBIDDEN_DRIVER";;
      mret (booking, ride)
  end.

Definition riderBooking (passengerId bookingId : string) : H (RideBooking.t * Ride.t) :=
  booking ← findUnique prisma.rideBooking bookingId;
  match booking with
  | None => throw "BOOKING_NOT_FOUND"
  | Some booking =>
      ride ← rideOf booking;
      throw_if (bool_decide (RideBooking.passengerId booking <> passengerId)) "FORBIDDEN_PASSENGER";;
      mret (booking, ride)
  end.

Definition forceOf (input : RideEventInput.t) : ForceContext.t :=
  createForceContext (RideEventInput.force input) (RideEventInput.overrideReason input).

(** The position reported with the action is stored and shown on the map. *)
Definition reportLocation (driverId rideId : string) (input : RideEventInput.t) : H unit :=
  match RideEventInput.lat input, RideEventInput.lng input with
  | Some lat, Some lng =>
      id ← randomUUID;
      create prisma.locationUpdate id {|
        LocationUpdate.id := id; LocationUpdate.rideId := rideId; LocationUpdate.driverId := driverId;
        LocationUpdate.lat := lat; LocationUpdate.lng := lng; LocationUpdate.speed := None;
        LocationUpdate.heading := None; LocationUpdate.accuracy := None; LocationUpdate.timestamp := now |};;
      emitRide rideId "ride:location"
  | _, _ => mret tt
  end.

Definition point_metadata (name : string) (p : RidePoint.t) (distance : option Z) (actor : string)
    : list (string * Json) :=
  [(name, point_json p); ("distanceMeters", joptional (fun m => JNumber (num_of_Z m)) distance);
   ("geofenceValid", JBool (geofenceOk distance)); ("actor", JString actor)]%string.

Definition validity (ok : bool) : string := if ok then "VALID" else "WARNING".

Definition result (b : RideBooking.t) (status : BookingStatus.t) (distance : option Z) (c : ForceContext.t)
    : OperationResult.t := {|
  OperationResult.bookingId := RideBooking.id b; OperationResult.rideId := RideBooking.rideId b;
  OperationResult.status := status; OperationResult.distanceMeters := distance;
  OperationResult.geofenceValid := geofenceOk distance; OperationResult.force := c |}.

Definition driverArrived (driverId bookingId : string) (input : RideEventInput.t) : H OperationResult.t :=
  found ← driverBooking driverId bookingId;
  let '(booking, ride) := found in
  throw_if (bool_decide (Ride.status ride <> RideStatus.IN_PROGRESS)) "RIDE_NOT_IN_PROGRESS";;
  let force := forceOf input in
  assertForceAllowedOnRide force (Ride.status ride);;
  force ← assertOrForce force (bool_decide (RideBooking.status booking <> BookingStatus.WAITING_FOR_PICKUP))
            "BOOKING_NOT_WAITING_FOR_PICKUP";
  waypoints ← waypointsOf (Ride.id ride);
  let pickupPoint := resolvePickupPoint booking ride waypoints in
  let distance := distanceTo input pickupPoint in
  let force := if geofenceOk distance then force else noteSkip force "GEOFENCE_OUT_OF_RANGE" in
  update prisma.rideBooking bookingId (fun b =>
    b <| RideBooking.status := BookingStatus.DRIVER_ARRIVED |> <| RideBooking.driverArrivedAt := Some now |>
      <| RideBooking.waitTimerStartedAt := Some now |>);;
  reportLocation driverId (RideBooking.rideId booking) input;;
  recordEvent (RideBooking.rideId booking) (Some bookingId) "DRIVER_ARRIVED" "DRIVER" driverId input
    (("pickupRadiusMeters"%string, JNumber (num_of_Z GEOFENCE_RADIUS_METERS)) ::
     point_metadata "pickupPoint" pickupPoint distance "driver")
    (validity (geofenceOk distance)) (Some force);;
  handleForcedAction force "DRIVER_ARRIVED" (RideBooking.rideId booking) (RideBooking.id booking)
    (Some (RideBooking.passengerId booking)) driverId;;
  createNotification (RideBooking.passengerId booking) "booking.driver_arrived";;
  emitBooking [driverId; RideBooking.passengerId booking] bookingId "driver.arrived";;
  mret (result booking BookingStatus.DRIVER_ARRIVED distance force).

Definition riderArrivedAtPickup (passengerId bookingId : string) (input : RideEventInput.t) : H OperationResult.t :=
  found ← riderBooking passengerId bookingId;
  let '(booking, ride) := found in
  throw_if (negb (has_status [BookingStatus.WAITING_FOR_PICKUP; BookingStatus.DRIVER_ARRIVED] booking))
    "BOOKING_NOT_AT_PICKUP";;
  waypoints ← waypointsOf (Ride.id ride);
  let pickupPoint := resolvePickupPoint booking ride waypoints in
  let distance := distanceTo input pickupPoint in
  recordEvent (RideBooking.rideId booking) (Some bookingId) "RIDER_ARRIVED_AT_PICKUP" "RIDER" passengerId input
    (("pickupRadiusMeters"%string, JNumber (num_of_Z GEOFENCE_RADIUS_METERS)) ::
     point_metadata "pickupPoint" pickupPoint distance "rider")
    (validity (geofenceOk distance)) None;;
  createNotification (Ride.driverId ride) "booking.rider_arrived";;
  emitBooking [Ride.driverId ride; passengerId] bookingId "rider.arrived_at_pickup";;
  mret (result booking (RideBooking.status booking) distance (createForceContext false None)).

(** *** One-time codes *)

(** The guards and the check of a code, shared by the three handlers that verify
    one: [hash] and [expiresAt] are the stored code, [unavailable] tells when there
    is none.  Answers whether the code is right. *)
Definition verifyCode (bookingId : string) (booking : RideBooking.t) (input_otp hash : option string) (expiresAt : option Z)
    (unavailable : bool) (codes : string * string * string) (force : ForceContext.t) : H (bool * ForceContext.t) :=
  let '(notAvailable, expired, invalid) := codes in
  force ← assertOrForce force unavailable notAvailable;
  force ← assertOrForce force match expiresAt with Some t => t <? now | None => false end expired;
  force ← assertOrForce force (MAX_OTP_ATTEMPTS <=? RideBooking.otpAttemptCount booking) "OTP_ATTEMPT_LIMIT_EXCEEDED";
  let isValid := match truthy hash, truthy input_otp with
                 | Some hash, Some code => isOtpValid code hash
                 | _, _ => false
                 end in
  (if negb isValid && negb (ForceContext.forced force) then
     update prisma.rideBooking bookingId (fun b => b <| RideBooking.otpAttemptCount ::= Z.add 1 |>);;
     throw invalid
   else mret tt);;
  force ← assertOrForce force (negb isValid) invalid;
  mret (isValid, force).

Definition PICKUP_CODES : string * string * string :=
  ("PICKUP_OTP_NOT_AVAILABLE", "PICKUP_OTP_EXPIRED", "INVALID_PICKUP_OTP")%string.
Definition DROP_CODES : string * string * string :=
  ("DROP_OTP_NOT_AVAILABLE", "DROP_OTP_EXPIRED", "INVALID_DROP_OTP")%string.

Definition verifyPickupAndBoard (driverId bookingId : string) (otp : option string) (input : RideEventInput.t)
    : H OperationResult.t :=
  found ← driverBooking driverId bookingId;
  let '(booking, ride) := found in
  let force := forceOf input in
  assertForceAllowedOnRide force (Ride.status ride);;
  force ← assertOrForce force
    (negb (has_status [BookingStatus.DRIVER_ARRIVED; BookingStatus.WAITING_FOR_PICKUP] booking)) "BOOKING_NOT_READY_FOR_OTP";
  verified ← verifyCode bookingId booking otp (RideBooking.pickupOtpHash booking) (RideBooking.pickupOtpExpiresAt booking)
    (bool_decide (truthy (RideBooking.pickupOtpHash booking) = None)) PICKUP_CODES force;
  let '(isValid, force) := verified in
  update prisma.rideBooking bookingId (fun b =>
    b <| RideBooking.status := BookingStatus.ONBOARD |> <| RideBooking.pickupOtpVerifiedAt := Some now |>
      <| RideBooking.onboardedAt := Some now |>);;
  recordEvent (RideBooking.rideId booking) (Some bookingId) "PICKUP_OTP_VERIFIED" "DRIVER" driverId input
    [("otpValidated"%string, JBool isValid)] (validity isValid) (Some force);;
  handleForcedAction force "PICKUP_OTP_VERIFIED" (RideBooking.rideId booking) bookingId
    (Some (RideBooking.passengerId booking)) driverId;;
  createNotification (RideBooking.passengerId booking) "booking.pickup_verified";;
  emitBooking [driverId; RideBooking.passengerId booking] bookingId "pickup.verified";;
  mret (result booking BookingStatus.ONBOARD None force).

Definition markNoShow (driverId bookingId : string) (input : RideEventInput.t) : H OperationResult.t :=
  found ← driverBooking driverId bookingId;
  let '(booking, ride) := found in
  let force := forceOf input in
  assertForceAllowedOnRide force (Ride.status ride);;
  force ← assertOrForce force
    (negb (has_status [BookingStatus.DRIVER_ARRIVED; BookingStatus.WAITING_FOR_PICKUP] booking)) "BOOKING_NOT_AT_PICKUP";
  force ← match noShowAvailableAt (RideBooking.waitTimerStartedAt booking) with
          | Some availableAt => assertOrForce force (now <? availableAt) "WAIT_TIME_NOT_ELAPSED"
          | None => mret force
          end;
  update prisma.rideBooking bookingId (fun b =>
    b <| RideBooking.status := BookingStatus.NO_SHOW |> <| RideBooking.noShowMarkedAt := Some now |>);;
  recordEvent (RideBooking.rideId booking) (Some bookingId) "NO_SHOW_MARKED" "DRIVER" driverId input [] "VALID" (Some force);;
  handleForcedAction force "NO_SHOW_MARKED" (RideBooking.rideId booking) (RideBooking.id booking)
    (Some (RideBooking.passengerId booking)) driverId;;
  createNotification (RideBooking.passengerId booking) "booking.no_show";;
  emitBooking [driverId; RideBooking.passengerId booking] (RideBooking.id booking) "booking.no_show";;
  mret (result booking BookingStatus.NO_SHOW None force).

(** ** At the drop-off *)

Definition confirmDropoff (driverId bookingId : string) (input : RideEventInput.t) : H OperationResult.t :=
  found ← driverBooking driverId bookingId;
  let '(booking, ride) := found in
  let force := forceOf input in
  assertForceAllowedOnRide force (Ride.status ride);;
  force ← assertOrForce force
    (negb (has_status [BookingStatus.ONBOARD; BookingStatus.IN_PROGRESS] booking)) "BOOKING_NOT_ONBOARD";
  waypoints ← waypointsOf (Ride.id ride);
  let dropoffPoint := resolveDropoffPoint booking ride waypoints in
  let distance := distanceTo input dropoffPoint in
  let force := if geofenceOk distance then force else noteSkip force "GEOFENCE_OUT_OF_RANGE" in
  update prisma.rideBooking bookingId (fun b =>
    b <| RideBooking.status := BookingStatus.DROP_PENDING |> <| RideBooking.dropoffConfirmedAt := Some now |>);;
  reportLocation driverId (RideBooking.rideId booking) input;;
  recordEvent (RideBooking.rideId booking) (Some bookingId) "DROPOFF_CONFIRMED_DRIVER" "DRIVER" driverId input
    (point_metadata "dropoffPoint" dropoffPoint distance "driver") (validity (geofenceOk distance)) (Some force);;
  handleForcedAction force "DROPOFF_CONFIRMED_DRIVER" (RideBooking.rideId booking) (RideBooking.id booking)
    (Some (RideBooking.passengerId booking)) driverId;;
  createNotification (RideBooking.passengerId booking) "booking.dropoff_pending";;
  emitBooking [driverId; RideBooking.passengerId booking] (RideBooking.id booking) "driver.confirmed_dropoff";;
  mret (result booking BookingStatus.DROP_PENDING distance force).

(** The completion is written, then rewarded, then recorded. *)
Definition riderConfirmDropoff (passengerId bookingId : string) (input : RideEventInput.t) : H OperationResult.t :=
  found ← riderBooking passengerId bookingId;
  let '(booking, ride) := found in
  let force := forceOf input in
  assertForceAllowedOnRide force (Ride.status ride);;
  force ← assertOrForce force (bool_decide (RideBooking.status booking <> BookingStatus.DROP_PENDING))
            "BOOKING_NOT_DROP_PENDING";
  update prisma.rideBooking bookingId (fun b =>
    b <| RideBooking.status := BookingStatus.COMPLETED |> <| RideBooking.riderDropoffConfirmedAt := Some now |>
      <| RideBooking.completedAt := Some now |>);;
  awardBookingCompletionRewards bookingId;;
  recordEvent (RideBooking.rideId booking) (Some bookingId) "DROPOFF_CONFIRMED_RIDER" "RIDER" passengerId input []
    "VALID" (Some force);;
  handleForcedAction force "DROPOFF_CONFIRMED_RIDER" (RideBooking.rideId booking) bookingId
    (Some (Ride.driverId ride)) passengerId;;
  createNotification (Ride.driverId ride) "booking.dropoff_confirmed";;
  emitBooking [Ride.driverId ride; passengerId] bookingId "rider.confirmed_dropoff";;
  mret (result booking BookingStatus.COMPLETED None force).

Definition reportMissedPickup (passengerId bookingId : string) (input : RideEventInput.t) : H OperationResult.t :=
  found ← riderBooking passengerId bookingId;
  let '(booking, ride) := found in
  throw_if (negb (has_status [BookingStatus.WAITING_FOR_PICKUP; BookingStatus.CONFIRMED] booking))
    "BOOKING_NOT_WAITING_FOR_PICKUP";;
  update prisma.rideBooking bookingId (fun b => b <| RideBooking.status := BookingStatus.DRIVER_MISSED_PICKUP |>);;
  recordEvent (RideBooking.rideId booking) (Some bookingId) "MISSED_PICKUP_REPORTED" "RIDER" passengerId input []
    "VALID" None;;
  mret (result booking BookingStatus.DRIVER_MISSED_PICKUP None (createForceContext false None)).

(** ** Finishing a ride *)

(** The text of a status, as the enum is stored. *)
Definition status_text (st : BookingStatus.t) : string :=
  match st with
  | BookingStatus.PAYMENT_PENDING => "PAYMENT_PENDING" | BookingStatus.DRIVER_PENDING => "DRIVER_PENDING"
  | BookingStatus.CONFIRMED => "CONFIRMED" | BookingStatus.WAITING_FOR_PICKUP => "WAITING_FOR_PICKUP"
  | BookingStatus.DRIVER_ARRIVED => "DRIVER_ARRIVED" | BookingStatus.OTP_PENDING => "OTP_PENDING"
  | BookingStatus.ONBOARD => "ONBOARD" | BookingStatus.DROP_PENDING => "DROP_PENDING"
  | BookingStatus.DRIVER_DROPPED => "DRIVER_DROPPED" | BookingStatus.IN_PROGRESS => "IN_PROGRESS"
  | BookingStatus.PAYMENT_FAILED => "PAYMENT_FAILED" | BookingStatus.RIDE_FULL_REFUNDED => "RIDE_FULL_REFUNDED"
  | BookingStatus.CANCELLED => "CANCELLED" | BookingStatus.COMPLETED => "COMPLETED"
  | BookingStatus.NO_SHOW => "NO_SHOW" | BookingStatus.DRIVER_MISSED_PICKUP => "DRIVER_MISSED_PICKUP"
  | BookingStatus.DISPUTED => "DISPUTED"
  end.

Definition danglingBookings (l : list RideBooking.t) : list (string * Json) :=
  match l with
  | [] => []
  | _ => [("danglingBookings"%string, JArray (map (fun b => JObject
           [("bookingId", JString (RideBooking.id b)); ("status", JString (status_text (RideBooking.status b)))]%string) l))]
  end.

Definition finishRide (driverId rideId : string) (input : RideEventInput.t)
    : H (RideStatus.t * option Z * ForceContext.t) :=
  ride ← findUnique prisma.ride rideId;
  match ride with
  | None => throw "RIDE_NOT_FOUND"
  | Some ride =>
      bookings ← findMany prisma.rideBooking (fun b => bool_decide (RideBooking.rideId b = rideId));
      throw_if (bool_decide (Ride.driverId ride <> driverId)) "FORBIDDEN_DRIVER";;
      throw_if (bool_decide (Ride.status ride <> RideStatus.IN_PROGRESS)) "RIDE_NOT_IN_PROGRESS";;
      let force := forceOf input in
      assertForceAllowedOnRide force (Ride.status ride);;
      let nonTerminalBookings := List.filter (has_status NON_TERMINAL_BOOKING_STATES) bookings in
      force ← assertOrForce force (bool_decide (nonTerminalBookings <> [])) "BOOKINGS_NOT_ALL_TERMINAL";
      updated ← update prisma.ride rideId (fun r =>
        r <| Ride.status := RideStatus.COMPLETED |> <| Ride.actualEndTime := Some now |>);
      awardRideCompletionRewards rideId;;
      recordEvent rideId None "RIDE_FINISHED" "DRIVER" driverId input (danglingBookings nonTerminalBookings) "VALID"
        (Some force);;
      for_each (if ForceContext.forced force then nonTerminalBookings else []) (fun dangling =>
        handleForcedAction force "RIDE_FINISHED" rideId (RideBooking.id dangling)
          (Some (RideBooking.passengerId dangling)) driverId);;
      emitRide rideId "ride:updated";;
      perform (EmitToUsers [driverId] "ride:updated" rideId "ride.finished");;
      mret (Ride.status updated, Ride.actualEndTime updated, force)
  end.

(** ** Locations *)

Definition submitLocation (driverId rideId : string) (input : LocationInput.t) : H LocationUpdate.t :=
  ride ← findUnique prisma.ride rideId;
  match ride with
  | None => throw "RIDE_NOT_FOUND"
  | Some ride =>
      throw_if (bool_decide (Ride.driverId ride <> driverId)) "FORBIDDEN_DRIVER";;
      throw_if (bool_decide (Ride.status ride <> RideStatus.IN_PROGRESS)) "RIDE_NOT_IN_PROGRESS";;
      id ← randomUUID;
      create prisma.locationUpdate id {|
        LocationUpdate.id := id; LocationUpdate.rideId := rideId; LocationUpdate.driverId := driverId;
        LocationUpdate.lat := LocationInput.lat input; LocationUpdate.lng := LocationInput.lng input;
        LocationUpdate.speed := LocationInput.speed input; LocationUpdate.heading := LocationInput.heading input;
        LocationUpdate.accuracy := LocationInput.accuracy input; LocationUpdate.timestamp := LocationInput.timestamp input |}
  end.

Definition getLatestLocation (rideId : string) : H (option LocationUpdate.t) :=
  get (fun s => head (sort_desc LocationUpdate.timestamp
    (where_ prisma.locationUpdate (fun l => bool_decide (LocationUpdate.rideId l = rideId)) (St.db s)))).

(** ** Simulation *)

Definition assertDevSimulationEnabled : H unit := throw_if (negb ALLOW_RIDE_SIMULATION) "DEV_SIMULATION_DISABLED".

Definition simulation_metadata : list (string * Json) :=
  [("simulation", JBool true); ("reason", JString "ALLOW_RIDE_SIMULATION")]%string.

Definition devSimulatePickup (driverId bookingId : string) (input : RideEventInput.t) : H OperationResult.t :=
  assertDevSimulationEnabled;;
  found ← driverBooking driverId bookingId;
  let '(booking, ride) := found in
  throw_if (bool_decide (Ride.status ride <> RideStatus.IN_PROGRESS)) "RIDE_NOT_IN_PROGRESS";;
  throw_if (negb (has_status [BookingStatus.WAITING_FOR_PICKUP; BookingStatus.DRIVER_ARRIVED] booking))
    "BOOKING_NOT_READY_FOR_OTP";;
  update prisma.rideBooking bookingId (fun b =>
    b <| RideBooking.status := BookingStatus.ONBOARD |>
      <| RideBooking.driverArrivedAt := Some (default now (RideBooking.driverArrivedAt booking)) |>
      <| RideBooking.waitTimerStartedAt := Some (default now (RideBooking.waitTimerStartedAt booking)) |>
      <| RideBooking.pickupOtpVerifiedAt := Some now |> <| RideBooking.onboardedAt := Some now |>);;
  recordEvent (RideBooking.rideId booking) (Some bookingId) "DEV_PICKUP_SIMULATED" "DRIVER" driverId input
    simulation_metadata "WARNING" None;;
  createNotification (RideBooking.passengerId booking) "booking.pickup_simulated";;
  emitBooking [driverId; RideBooking.passengerId booking] bookingId "dev.pickup_simulated";;
  mret (result booking BookingStatus.ONBOARD None (createForceContext false None)).

Definition devSimulateDropoff (driverId bookingId : string) (input : RideEventInput.t) : H OperationResult.t :=
  assertDevSimulationEnabled;;
  found ← driverBooking driverId bookingId;
  let '(booking, ride) := found in
  throw_if (bool_decide (Ride.status ride <> RideStatus.IN_PROGRESS)) "RIDE_NOT_IN_PROGRESS";;
  throw_if (negb (has_status [BookingStatus.ONBOARD; BookingStatus.DROP_PENDING] booking)) "BOOKING_NOT_ONBOARD";;
  update prisma.rideBooking bookingId (fun b =>
    b <| RideBooking.status := BookingStatus.COMPLETED |>
      <| RideBooking.dropoffConfirmedAt := Some (default now (RideBooking.dropoffConfirmedAt booking)) |>
      <| RideBooking.riderDropoffConfirmedAt := Some now |> <| RideBooking.completedAt := Some now |>);;
  awardBookingCompletionRewards bookingId;;
  recordEvent (RideBooking.rideId booking) (Some bookingId) "DEV_DROPOFF_SIMULATED" "DRIVER" driverId input
    simulation_metadata "WARNING" None;;
  createNotification (RideBooking.passengerId booking) "booking.dropoff_simulated";;
  emitBooking [driverId; RideBooking.passengerId booking] bookingId "dev.dropoff_simulated";;
  mret (result booking BookingStatus.COMPLETED None (createForceContext false None)).

(** ** One-time codes of the booking flow *)

(** An override in this flow leaves an event of its own. *)
Definition auditForcedOtp (booking : RideBooking.t) (driverId : string) (force : ForceContext.t) (eventType : string)
    : H unit :=
  when (ForceContext.forced force) (
    actionId ← randomUUID;
    recordEvent (RideBooking.rideId booking) (Some (RideBooking.id booking)) eventType "DRIVER" driverId
      {| RideEventInput.actionId := actionId; RideEventInput.lat := None; RideEventInput.lng := None;
         RideEventInput.clientTimestamp := now; RideEventInput.force := true;
         RideEventInput.overrideReason := ForceContext.overrideReason force |}
      [("source", JString "driver-booking"); ("otpValidated", JBool false)]%string "VALID" (Some force);;
    handleForcedAction force eventType (RideBooking.rideId booking) (RideBooking.id booking)
      (Some (RideBooking.passengerId booking)) driverId).

Definition assertOtpGuard (booking : RideBooking.t) (expectedStatus : BookingStatus.t) (force : ForceContext.t)
    : H ForceContext.t :=
  assertOrForce force (bool_decide (RideBooking.status booking <> expectedStatus)) "INVALID_BOOKING_STATUS".

Definition verifyPickupOtp (driverId bookingId : string) (otp : option string) (forced : bool)
    (overrideReason : option string) : H (DriverBookingResult.t * ForceContext.t) :=
  fetched ← fetchDriverBooking bookingId;
  r ← requireDriverBooking driverId fetched;
  let booking := R.booking r in
  let force := createForceContext forced overrideReason in
  assertForceAllowedOnRide force (Ride.status (R.ride r));;
  force ← assertOtpGuard booking BookingStatus.CONFIRMED force;
  verified ← verifyCode bookingId booking otp (RideBooking.pickupOtpHash booking) (RideBooking.pickupOtpExpiresAt booking)
    (bool_decide (truthy (RideBooking.pickupOtpHash booking) = None) ||
     bool_decide (RideBooking.pickupOtpExpiresAt booking = None)) PICKUP_CODES force;
  let force := snd verified in
  update prisma.rideBooking bookingId (fun b =>
    b <| RideBooking.status := BookingStatus.IN_PROGRESS |> <| RideBooking.pickupOtpVerifiedAt := Some now |>
      <| RideBooking.otpAttemptCount := 0 |>);;
  createNotification (RideBooking.passengerId booking) "booking.trip.started";;
  auditForcedOtp booking driverId force "PICKUP_OTP_VERIFIED";;
  mret (driverResult r BookingStatus.IN_PROGRESS, force).

Definition verifyDropOtp (driverId bookingId : string) (otp : option string) (forced : bool)
    (overrideReason : option string) : H (DriverBookingResult.t * ForceContext.t) :=
  fetched ← fetchDriverBooking bookingId;
  r ← requireDriverBooking driverId fetched;
  let booking := R.booking r in
  let force := createForceContext forced overrideReason in
  assertForceAllowedOnRide force (Ride.status (R.ride r));;
  force ← assertOtpGuard booking BookingStatus.IN_PROGRESS force;
  verified ← verifyCode bookingId booking otp (RideBooking.dropOtpHash booking) (RideBooking.dropOtpExpiresAt booking)
    (bool_decide (truthy (RideBooking.dropOtpHash booking) = None) ||
     bool_decide (RideBooking.dropOtpExpiresAt booking = None)) DROP_CODES force;
  let force := snd verified in
  update prisma.rideBooking bookingId (fun b =>
    b <| RideBooking.status := BookingStatus.COMPLETED |> <| RideBooking.dropOtpVerifiedAt := Some now |>
      <| RideBooking.otpAttemptCount := 0 |>);;
  createNotification (RideBooking.passengerId booking) "booking.trip.completed";;
  awardBookingCompletionRewards bookingId;;
  auditForcedOtp booking driverId force "DROP_OTP_VERIFIED";;
  mret (driverResult r BookingStatus.COMPLETED, force).

(** ** Actions queued offline *)

Inductive SyncStatus := processed | duplicate | error (code : string).

(** The event of an action as it was queued. *)
Definition queuedEvent (id : string) (action : OfflineAction.t) (actorType actorId validationStatus : string)
    (metadata : option Json) : RideEvent.t :=
  let input := OfflineAction.input action in {|
  RideEvent.id := id; RideEvent.rideId := OfflineAction.rideId action;
  RideEvent.bookingId := OfflineAction.bookingId action; RideEvent.actionId := RideEventInput.actionId input;
  RideEvent.eventType := OfflineAction.eventType action; RideEvent.actorType := actorType;
  RideEvent.actorId := actorId; RideEvent.lat := RideEventInput.lat input; RideEvent.lng := RideEventInput.lng input;
  RideEvent.clientTimestamp := RideEventInput.clientTimestamp input; RideEvent.serverTimestamp := now;
  RideEvent.validationStatus := validationStatus; RideEvent.metadataJson := metadata |}.

(** The operation a manual action stands for, when there is one: always forced. *)
Definition recoveryOf (actorId actorType : string) (action : OfflineAction.t) (input : RideEventInput.t)
    : option (H unit) :=
  let eventType := OfflineAction.eventType action in
  if negb (bool_decide (actorType = "DRIVER"%string)) then None
  else if decide (eventType = "MANUAL_START_RIDE"%string) then
    Some (startRide actorId (OfflineAction.rideId action) input;; mret tt)
  else if decide (eventType = "MANUAL_FINISH_RIDE"%string) then
    Some (finishRide actorId (OfflineAction.rideId action) input;; mret tt)
  else
    match truthy (OfflineAction.bookingId action) with
    | None => None
    | Some bookingId =>
        if decide (eventType = "MANUAL_DRIVER_ARRIVED"%string) then
          Some (driverArrived actorId bookingId input;; mret tt)
        else if decide (eventType = "MANUAL_PICKUP_APPROVAL"%string) then
          Some (verifyPickupAndBoard actorId bookingId None input;; mret tt)
        else if decide (eventType = "MANUAL_CONFIRM_DROPOFF"%string) then
          Some (confirmDropoff actorId bookingId input;; mret tt)
        else None
    end.

(** Whether the operation was carried out, and the error it failed with. *)
Definition recover (m : option (H unit)) : H (bool * option string) :=
  match m with
  | None => mret (false, None)
  | Some m => try_catch (m;; mret (true, None)) (fun e => mret (false, Some e))
  end.

Definition recordRecovery (action : OfflineAction.t) (actorId actorType overrideReason : string)
    (recoveryError : option string) (autoRepaired : bool) : H unit :=
  id ← randomUUID;
  create prisma.reconciliationIssue id {|
    ReconciliationIssue.id := id; ReconciliationIssue.paymentId := None;
    ReconciliationIssue.bookingId := OfflineAction.bookingId action;
    ReconciliationIssue.issueType := "OFFLINE_MANUAL_RECOVERY";
    ReconciliationIssue.severity := if autoRepaired then "LOW" else "HIGH";
    ReconciliationIssue.description := actorType +:+ " queued " +:+ OfflineAction.eventType action
      +:+ " while the normal server path was unavailable.";
    ReconciliationIssue.stripeState := None;
    ReconciliationIssue.internalState := Some (if autoRepaired then "AUTO_RECONCILED" else "PENDING_RECONCILIATION")%string;
    ReconciliationIssue.detectedAt := now; ReconciliationIssue.autoRepaired := autoRepaired;
    ReconciliationIssue.repairedAt := if autoRepaired then Some now else None;
    ReconciliationIssue.resolvedBy := None;
    ReconciliationIssue.resolvedAt := if autoRepaired then Some now else None;
    ReconciliationIssue.resolution :=
      if autoRepaired then Some "Queued recovery action was applied automatically."%string else None;
    ReconciliationIssue.metadataJson := Some (JObject
      [("actionId", JString (RideEventInput.actionId (OfflineAction.input action)));
       ("rideId", JString (OfflineAction.rideId action));
       ("bookingId", joptional JString (OfflineAction.bookingId action)); ("actorId", JString actorId);
       ("actorType", JString actorType); ("eventType", JString (OfflineAction.eventType action));
       ("overrideReason", JString overrideReason);
       ("clientTimestamp", JString (OfflineAction.clientTimestamp action));
       ("recoveryError", joptional JString recoveryError)]%string) |};;
  mret tt.

(** The body of the loop for an action not seen before. *)
Definition syncAction (actorId : string) (action : OfflineAction.t) : H unit :=
  let rideId := OfflineAction.rideId action in
  let input := OfflineAction.input action in
  ride ← findUnique prisma.ride rideId;
  booking ← match truthy (OfflineAction.bookingId action) with
            | Some bookingId => findUnique prisma.rideBooking bookingId
            | None => mret None
            end;
  match ride with
  | None => throw "RIDE_OR_BOOKING_NOT_FOUND"
  | Some ride =>
      throw_if match booking with Some b => bool_decide (RideBooking.rideId b <> rideId) | None => false end
        "RIDE_OR_BOOKING_NOT_FOUND";;
      actorType ←
        (if decide (Ride.driverId ride = actorId) then mret "DRIVER"%string
         else if decide (RideBooking.passengerId <$> booking = Some actorId) then mret "RIDER"%string
         else throw "FORBIDDEN_ACTOR");
      if negb (String.prefix "MANUAL_" (OfflineAction.eventType action)) then
        id ← randomUUID;
        create prisma.rideEvent (RideEventInput.actionId input)
          (queuedEvent id action actorType actorId "VALID" None);;
        mret tt
      else
        let overrideReason := default "Manual recovery requested"%string (truthy (RideEventInput.overrideReason input)) in
        recovered ← recover (recoveryOf actorId actorType action
          {| RideEventInput.actionId := RideEventInput.actionId input; RideEventInput.lat := RideEventInput.lat input;
             RideEventInput.lng := RideEventInput.lng input;
             RideEventInput.clientTimestamp := RideEventInput.clientTimestamp input;
             RideEventInput.force := true; RideEventInput.overrideReason := Some overrideReason |});
        let '(autoRepaired, recoveryError) := recovered in
        (if autoRepaired : bool then mret tt
         else
           id ← randomUUID;
           create prisma.rideEvent (RideEventInput.actionId input)
             (queuedEvent id action actorType actorId "WARNING" (Some (JObject
               [("source", JString "OFFLINE_MANUAL_RECOVERY"); ("overrideReason", JString overrideReason);
                ("requiresReconciliation", JBool true); ("recoveryError", joptional JString recoveryError)]%string)));;
           mret tt);;
        recordRecovery action actorId actorType overrideReason recoveryError autoRepaired
  end.

Fixpoint syncOfflineActions (actorId : string) (actions : list OfflineAction.t) : H (list (string * SyncStatus)) :=
  match actions with
  | [] => mret []
  | action :: rest =>
      let actionId := RideEventInput.actionId (OfflineAction.input action) in
      existing ← findUnique prisma.rideEvent actionId;
      status ← match existing with
               | Some _ => mret duplicate
               | None => try_catch (syncAction actorId action;; mret processed) (fun e => mret (error e))
               end;
      results ← syncOfflineActions actorId rest;
      mret ((actionId, status) :: results)
  end.
End operations.
