(* ===== verification/Route.v ===== *)
(** * Routes on the map

    Models [modules/search-ride/polyline.utils.ts] (module [Polyline]) and the geometry of
    [modules/publish-ride/draft-ride.service.ts] (module [DraftRoute]), which carries its own
    decoder and encoder of Google's polylines.  The package [@mapbox/polyline] is a
    parameter; the trigonometric functions are those of the environment. *)

From Stdlib Require Import ZArith QArith Qround Lia Lqa.
From stdpp Require Import base list option strings.
From S2P Require Import Prelude JsNumber Money Schema Store Time Pricing RideOps.

Open Scope Z_scope.

Module LatLng.
Record t := { lat : num; lng : num }.
End LatLng.

(** [Math.max(0, Math.min(1, x))] *)
Definition clamp01 (x : num) : num := nmax (num_of_Z 0) (nmin (num_of_Z 1) x).

(** [@mapbox/polyline]; [None] is a thrown error. *)
Class PolylineCodec := {
  polyline_decode : string -> option (list (num * num));
  polyline_encode : list (num * num) -> string;
}.

Module Polyline.

Definition EARTH_RADIUS_KM : num := num_of_Z 6371.

(** [distance] is [None] for the [Infinity] of an empty route. *)
Module Nearest.
Record t := { point : LatLng.t; distance : option num; index : nat }.
End Nearest.

Module Covered.
Record t := { covered : bool; originIndex : Z; destIndex : Z }.
End Covered.

Module BoundingBox.
Record t := { minLat : num; maxLat : num; minLng : num; maxLng : num }.
End BoundingBox.

Section geometry.
Context `{Env}.

Definition calculateHaversineDistance (point1 point2 : LatLng.t) : num :=
  let dLat := toRad (nsub (LatLng.lat point2) (LatLng.lat point1)) in
  let dLng := toRad (nsub (LatLng.lng point2) (LatLng.lng point1)) in
  let half x := math_sin (ndiv x (num_of_Z 2)) in
  let a := nadd (nmul (half dLat) (half dLat))
                (nmul (nmul (nmul (math_cos (toRad (LatLng.lat point1))) (math_cos (toRad (LatLng.lat point2))))
                            (half dLng)) (half dLng)) in
  let c := nmul (num_of_Z 2) (math_atan2 (math_sqrt a) (math_sqrt (nsub (num_of_Z 1) a))) in
  nmul EARTH_RADIUS_KM c.

(** Distance of the point to the segment, and how far along the segment its projection falls. *)
Definition projectOntoSegment (point segStart segEnd : LatLng.t) : num * num :=
  let meanLatitudeRad := toRad (ndiv (nadd (nadd (LatLng.lat segStart) (LatLng.lat segEnd)) (LatLng.lat point))
                                     (num_of_Z 3)) in
  let longitudeScale := math_cos meanLatitudeRad in
  let segmentX := nmul (nsub (LatLng.lng segEnd) (LatLng.lng segStart)) longitudeScale in
  let segmentY := nsub (LatLng.lat segEnd) (LatLng.lat segStart) in
  let pointX := nmul (nsub (LatLng.lng point) (LatLng.lng segStart)) longitudeScale in
  let pointY := nsub (LatLng.lat point) (LatLng.lat segStart) in
  let segmentLengthSquared := nadd (nmul segmentX segmentX) (nmul segmentY segmentY) in
  if neqb segmentLengthSquared (num_of_Z 0)
  then (calculateHaversineDistance point segStart, num_of_Z 0)
  else
    let t := clamp01 (ndiv (nadd (nmul pointX segmentX) (nmul pointY segmentY)) segmentLengthSquared) in
    let projection := {|
      LatLng.lat := nadd (LatLng.lat segStart) (nmul t (nsub (LatLng.lat segEnd) (LatLng.lat segStart)));
      LatLng.lng := nadd (LatLng.lng segStart) (nmul t (nsub (LatLng.lng segEnd) (LatLng.lng segStart))) |} in
    (calculateHaversineDistance point projection, t).

Definition pointToSegmentDistance (point segStart segEnd : LatLng.t) : num :=
  (projectOntoSegment point segStart segEnd).1.

Fixpoint isPointOnRoute (point : LatLng.t) (routePoints : list LatLng.t) (toleranceKm : num) : bool :=
  match routePoints with
  | a :: (b :: _) as rest =>
      nle (pointToSegmentDistance point a b) toleranceKm || isPointOnRoute point rest toleranceKm
  | _ => false
  end.

(** [x < closest], where [None] is the initial [Infinity]. *)
Definition closer (x : num) (closest : option num) : bool :=
  match closest with None => true | Some c => nlt x c end.

(** The loop of [routeProgressKm]. *)
Fixpoint walkRoute (point : LatLng.t) (routePoints : list LatLng.t) (travelled : num) (closest : option num)
    (progressAtClosest : num) : num :=
  match routePoints with
  | segStart :: (segEnd :: _) as rest =>
      let segmentLength := calculateHaversineDistance segStart segEnd in
      let '(distance, fraction) := projectOntoSegment point segStart segEnd in
      if closer distance closest
      then walkRoute point rest (nadd travelled segmentLength) (Some distance)
             (nadd travelled (nmul segmentLength fraction))
      else walkRoute point rest (nadd travelled segmentLength) closest progressAtClosest
  | _ => progressAtClosest
  end.

Definition routeProgressKm (point : LatLng.t) (routePoints : list LatLng.t) : option num :=
  match routePoints with
  | [] => None
  | [_] => Some (num_of_Z 0)
  | _ => Some (walkRoute point routePoints (num_of_Z 0) None (num_of_Z 0))
  end.

(** The loop of [routeLengthKm]. *)
Fixpoint lengthFrom (routePoints : list LatLng.t) (total : num) : num :=
  match routePoints with
  | a :: (b :: _) as rest => lengthFrom rest (nadd total (calculateHaversineDistance a b))
  | _ => total
  end.

Definition routeLengthKm (routePoints : list LatLng.t) : num := lengthFrom routePoints (num_of_Z 0).

Fixpoint nearestFrom (point : LatLng.t) (routePoints : list LatLng.t) (i : nat) (best : Nearest.t) : Nearest.t :=
  match routePoints with
  | [] => best
  | p :: rest =>
      let distance := calculateHaversineDistance point p in
      nearestFrom point rest (S i)
        (if closer distance (Nearest.distance best)
         then {| Nearest.point := p; Nearest.distance := Some distance; Nearest.index := i |} else best)
  end.

Definition findNearestPointOnRoute (point : LatLng.t) (routePoints : list LatLng.t) : Nearest.t :=
  nearestFrom point routePoints 0
    {| Nearest.point := default point (head routePoints); Nearest.distance := None; Nearest.index := 0 |}.

Definition within (distance : option num) (toleranceKm : num) : bool :=
  match distance with Some d => nle d toleranceKm | None => false end.

(** An index out of range, which [sample_spec] excludes, would push [undefined]. *)
Definition samplePolylinePoints {A} (points : list A) (numSamples : Z) : list A :=
  let n := Z.of_nat (length points) in
  if n <=? numSamples then points
  else
    let step := ndiv (num_of_Z (n - 1)) (num_of_Z (numSamples - 1)) in
    omap (fun i => points !! Z.to_nat (math_round (nmul (num_of_Z (Z.of_nat i)) step))) (seq 0 (Z.to_nat numSamples)).

Definition calculateDirectionalMatch (source target : list LatLng.t) (toleranceKm : num) : num :=
  let matchCount := length (List.filter (fun point =>
    within (Nearest.distance (findNearestPointOnRoute point target)) toleranceKm) source) in
  ndiv (num_of_Z (Z.of_nat matchCount)) (num_of_Z (Z.of_nat (length source))).

Definition isRouteCovered (userOrigin userDestination : LatLng.t) (driverRoutePoints : list LatLng.t)
    (toleranceKm : num) : Covered.t :=
  match driverRoutePoints with
  | [] => {| Covered.covered := false; Covered.originIndex := -1; Covered.destIndex := -1 |}
  | _ =>
      let originMatch := findNearestPointOnRoute userOrigin driverRoutePoints in
      let destMatch := findNearestPointOnRoute userDestination driverRoutePoints in
      {| Covered.covered := within (Nearest.distance originMatch) toleranceKm &&
                            within (Nearest.distance destMatch) toleranceKm &&
                            (Nearest.index originMatch <? Nearest.index destMatch)%nat;
         Covered.originIndex := Z.of_nat (Nearest.index originMatch);
         Covered.destIndex := Z.of_nat (Nearest.index destMatch) |}
  end.

(** ** Bounding boxes *)

(** 111.32, as the nearest binary64. *)
Definition KM_PER_DEGREE : num := rnd (11132 # 100).

Definition getBoundingBox (lat lng radiusKm : num) : BoundingBox.t :=
  let latDelta := ndiv radiusKm KM_PER_DEGREE in
  let lngDelta := ndiv radiusKm (nmul KM_PER_DEGREE (math_cos (toRad lat))) in
  {| BoundingBox.minLat := nsub lat latDelta; BoundingBox.maxLat := nadd lat latDelta;
     BoundingBox.minLng := nsub lng lngDelta; BoundingBox.maxLng := nadd lng lngDelta |}.

Definition mergeTwo (merged box : BoundingBox.t) : BoundingBox.t := {|
  BoundingBox.minLat := nmin (BoundingBox.minLat merged) (BoundingBox.minLat box);
  BoundingBox.maxLat := nmax (BoundingBox.maxLat merged) (BoundingBox.maxLat box);
  BoundingBox.minLng := nmin (BoundingBox.minLng merged) (BoundingBox.minLng box);
  BoundingBox.maxLng := nmax (BoundingBox.maxLng merged) (BoundingBox.maxLng box) |}.

Definition mergeBoundingBoxes (boxes : list BoundingBox.t) : BoundingBox.t :=
  match boxes with
  | [] => {| BoundingBox.minLat := num_of_Z 0; BoundingBox.maxLat := num_of_Z 0;
             BoundingBox.minLng := num_of_Z 0; BoundingBox.maxLng := num_of_Z 0 |}
  | box :: rest => fold_left mergeTwo rest box
  end.

Definition inBox (box : BoundingBox.t) (lat lng : num) : bool :=
  nle (BoundingBox.minLat box) lat && nle lat (BoundingBox.maxLat box) &&
  nle (BoundingBox.minLng box) lng && nle lng (BoundingBox.maxLng box).
End geometry.

(** ** Encoded routes *)

Section codec.
Context `{Env} `{PolylineCodec}.

Definition decodePolyline (encoded : string) : list LatLng.t :=
  match polyline_decode encoded with
  | Some decoded => map (fun p => {| LatLng.lat := p.1; LatLng.lng := p.2 |}) decoded
  | None => []
  end.

Definition encodePolyline (points : list LatLng.t) : string :=
  polyline_encode (map (fun p => (LatLng.lat p, LatLng.lng p)) points).

Definition calculatePolylineSimilarity (polyline1 polyline2 : string) (sampleSize : Z) : num :=
  let points1 := decodePolyline polyline1 in
  let points2 := decodePolyline polyline2 in
  match points1, points2 with
  | [], _ | _, [] => num_of_Z 0
  | _, _ =>
      let sampled1 := samplePolylinePoints points1 sampleSize in
      let sampled2 := samplePolylinePoints points2 sampleSize in
      let score1 := calculateDirectionalMatch sampled1 sampled2 (num_of_Z 2) in
      let score2 := calculateDirectionalMatch sampled2 sampled1 (num_of_Z 2) in
      ndiv (nadd score1 score2) (num_of_Z 2)
  end.
End codec.
End Polyline.

(** ** The routes of a draft *)

Module DraftRoute.

(** [x | 0]: a number as a signed 32-bit integer. *)
Definition toInt32 (x : Z) : Z := (x + 2 ^ 31) mod 2 ^ 32 - 2 ^ 31.

(** *** Decoding

    A string is the list of its code units. *)

(** The inner loop: a value, low groups of five bits first, and what follows it.  Past the
    end [charCodeAt] is [NaN], which adds no bit and ends the loop. *)
Fixpoint readValue (encoded : list Z) (shift result : Z) : Z * list Z :=
  match encoded with
  | [] => (result, [])
  | unit :: rest =>
      let byte := unit - 63 in
      let result := Z.lor result (toInt32 (Z.shiftl (Z.land byte 31) (shift mod 32))) in
      if 32 <=? byte then readValue rest (shift + 5) result else (result, rest)
  end.

Definition unzigzag (result : Z) : Z :=
  if Z.odd result then Z.lnot (Z.shiftr result 1) else Z.shiftr result 1.

Definition degrees (e5 : Z) : num := ndiv (num_of_Z e5) (num_of_Z 100000).

Fixpoint decodeFrom (fuel : nat) (encoded : list Z) (lat lng : Z) : list LatLng.t :=
  match fuel, encoded with
  | S fuel, _ :: _ =>
      let '(dlat, rest) := readValue encoded 0 0 in
      let lat := lat + unzigzag dlat in
      let '(dlng, rest) := readValue rest 0 0 in
      let lng := lng + unzigzag dlng in
      {| LatLng.lat := degrees lat; LatLng.lng := degrees lng |} :: decodeFrom fuel rest lat lng
  | _, _ => []
  end.

(** Each round consumes a unit. *)
Definition decodeUnits (encoded : list Z) : list LatLng.t := decodeFrom (length encoded) encoded 0 0.

Definition code_units (s : string) : list Z := map (fun c => Z.of_nat (Ascii.nat_of_ascii c)) (chars s).

Definition decodePolyline (encoded : string) : list LatLng.t := decodeUnits (code_units encoded).

(** *** Encoding *)

(** A non-negative 32-bit integer has seven groups of five bits. *)
Fixpoint encodeGroups (fuel : nat) (n : Z) : list Z :=
  match fuel with
  | O => []
  | S fuel =>
      if 32 <=? n then Z.lor 32 (Z.land n 31) + 63 :: encodeGroups fuel (Z.shiftr n 5)
      else [n + 63]
  end.

Definition encodeUnsignedNumber (n : Z) : list Z := encodeGroups 7 n.

Definition encodeSignedNumber (n : Z) : list Z :=
  let sgn_num := toInt32 (Z.shiftl (toInt32 n) 1) in
  encodeUnsignedNumber (if n <? 0 then Z.lnot sgn_num else sgn_num).

Definition toE5 (x : num) : Z := math_round (nmul x (num_of_Z 100000)).

Fixpoint encodeFrom (points : list (num * num)) (prevLat prevLng : Z) : list Z :=
  match points with
  | [] => []
  | (lat, lng) :: rest =>
      encodeSignedNumber (toE5 lat - prevLat) ++ encodeSignedNumber (toE5 lng - prevLng) ++
      encodeFrom rest (toE5 lat) (toE5 lng)
  end.

Definition mockEncodePolyline (points : list (num * num)) : list Z := encodeFrom points 0 0.

(** *** Distances *)

Module Projection.
Record t := { offRouteMeters : option num; alongRouteMeters : num }.
End Projection.

Section geometry.
Context `{Env}.

Definition haversineDistance (p1 p2 : LatLng.t) : num :=
  let dLat := toRad (nsub (LatLng.lat p2) (LatLng.lat p1)) in
  let dLng := toRad (nsub (LatLng.lng p2) (LatLng.lng p1)) in
  let sq x := nmul x x in
  let a := nadd (sq (math_sin (ndiv dLat (num_of_Z 2))))
                (nmul (nmul (math_cos (toRad (LatLng.lat p1))) (math_cos (toRad (LatLng.lat p2))))
                      (sq (math_sin (ndiv dLng (num_of_Z 2))))) in
  nmul (nmul EARTH_RADIUS_METERS (num_of_Z 2)) (math_atan2 (math_sqrt a) (math_sqrt (nsub (num_of_Z 1) a))).

(** The loop of [projectOntoPath]; an [offRouteMeters] of [None] is [Infinity]. *)
Fixpoint projectFrom (point : LatLng.t) (path : list LatLng.t) (travelled : num) (best : Projection.t) : Projection.t :=
  match path with
  | start :: (end_ :: _) as rest =>
      let segmentLength := haversineDistance start end_ in
      let meanLatitude := ndiv (nmul (ndiv (nadd (nadd (LatLng.lat start) (LatLng.lat end_)) (LatLng.lat point))
                                       (num_of_Z 3)) MATH_PI) (num_of_Z 180) in
      let longitudeScale := math_cos meanLatitude in
      let segmentX := nmul (nsub (LatLng.lng end_) (LatLng.lng start)) longitudeScale in
      let segmentY := nsub (LatLng.lat end_) (LatLng.lat start) in
      let pointX := nmul (nsub (LatLng.lng point) (LatLng.lng start)) longitudeScale in
      let pointY := nsub (LatLng.lat point) (LatLng.lat start) in
      let segmentLengthSquared := nadd (nmul segmentX segmentX) (nmul segmentY segmentY) in
      let ratio := if neqb segmentLengthSquared (num_of_Z 0) then num_of_Z 0
                   else clamp01 (ndiv (nadd (nmul pointX segmentX) (nmul pointY segmentY)) segmentLengthSquared) in
      let projection := {|
        LatLng.lat := nadd (LatLng.lat start) (nmul ratio (nsub (LatLng.lat end_) (LatLng.lat start)));
        LatLng.lng := nadd (LatLng.lng start) (nmul ratio (nsub (LatLng.lng end_) (LatLng.lng start))) |} in
      let distance := haversineDistance point projection in
      projectFrom point rest (nadd travelled segmentLength)
        (if Polyline.closer distance (Projection.offRouteMeters best)
         then {| Projection.offRouteMeters := Some distance;
                 Projection.alongRouteMeters := nadd travelled (nmul ratio segmentLength) |}
         else best)
  | _ => best
  end.

Definition projectOntoPath (point : LatLng.t) (path : list LatLng.t) : Projection.t :=
  projectFrom point path (num_of_Z 0)
    {| Projection.offRouteMeters := None; Projection.alongRouteMeters := num_of_Z 0 |}.

Definition distanceFromPathMeters (point : LatLng.t) (path : list LatLng.t) : option num :=
  Projection.offRouteMeters (projectOntoPath point path).

Definition distanceFromRouteMeters (point : LatLng.t) (encodedPolyline : string) : option num :=
  distanceFromPathMeters point (decodePolyline encodedPolyline).

(** [distance > limit], infinite when there is no path. *)
Definition beyond (distance : option num) (limit : num) : bool :=
  match distance with Some d => nlt limit d | None => true end.

(** A point sampled, with its distance from the origin. *)
Fixpoint sampleFrom (points : list LatLng.t) (intervalMeters totalDistance nextSampleAt : num) : list (LatLng.t * num) :=
  match points with
  | p :: (q :: _) as rest =>
      let totalDistance := nadd totalDistance (haversineDistance p q) in
      if nle nextSampleAt totalDistance
      then (q, totalDistance) :: sampleFrom rest intervalMeters totalDistance (nadd nextSampleAt intervalMeters)
      else sampleFrom rest intervalMeters totalDistance nextSampleAt
  | _ => []
  end.

Definition samplePointsAlongRoute (points : list LatLng.t) (intervalMeters : num) : list (LatLng.t * num) :=
  sampleFrom points intervalMeters (num_of_Z 0) intervalMeters.
End geometry.

Definition selectEvenlySpacedRouteSamples {A} (points : list A) (maxSamples : Z) : list A :=
  let n := Z.of_nat (length points) in
  if maxSamples <=? 0 then []
  else if n <=? maxSamples then points
  else if maxSamples =? 1 then match points !! Z.to_nat (n / 2) with Some p => [p] | None => [] end
  else omap (fun index => points !! Z.to_nat
              (math_round (ndiv (num_of_Z (Z.of_nat index * (n - 1))) (num_of_Z (maxSamples - 1)))))
            (seq 0 (Z.to_nat maxSamples)).
End DraftRoute.

(** ** Encoding and decoding are inverse *)

Import DraftRoute.

Lemma toInt32_id (x : Z) : - 2 ^ 31 <= x < 2 ^ 31 -> toInt32 x = x.
Proof. intros Hx. unfold toInt32. rewrite Z.mod_small; lia. Qed.

(** Bits above those of [r] are added to it. *)
Lemma lor_shift (r m s : Z) : 0 <= s -> 0 <= r < 2 ^ s -> Z.lor r (Z.shiftl m s) = r + m * 2 ^ s.
Proof.
  intros Hs Hr. assert (L : Z.land r (Z.shiftl m s) = 0).
  { apply Z.bits_inj'. intros n Hn. rewrite Z.land_spec, Z.bits_0. destruct (Z.lt_ge_cases n s) as [C|C].
    - rewrite Z.shiftl_spec_low by exact C. apply andb_false_r.
    - rewrite <- (Z.mod_small r (2 ^ s)) by exact Hr. rewrite Z.mod_pow2_bits_high by lia. reflexivity. }
  rewrite <- Z.lxor_lor by exact L. rewrite <- Z.add_nocarry_lxor by exact L. rewrite Z.shiftl_mul_pow2 by exact Hs. reflexivity.
Qed.

Lemma group_bits (n : Z) : 0 <= n -> Z.land n 31 = n mod 32.
Proof. intros Hn. change 31 with (Z.ones 5). rewrite Z.land_ones by lia. reflexivity. Qed.

Lemma lor_continue (m : Z) : 0 <= m < 32 -> Z.lor 32 m = m + 32.
Proof. intros Hm. rewrite Z.lor_comm. change 32 with (Z.shiftl 1 5) at 1. rewrite lor_shift by lia. reflexivity. Qed.

Lemma readValue_groups fuel n k result rest : 0 <= n -> (0 < fuel)%nat -> n < 2 ^ (5 * Z.of_nat fuel) ->
  0 <= k -> 0 <= result < 2 ^ k -> n * 2 ^ k + result < 2 ^ 31 -> k < 32 ->
  readValue (encodeGroups fuel n ++ rest) k result = (result + n * 2 ^ k, rest).
Proof.
  revert n k result. induction fuel as [|fuel IH]; intros n k result Hn Hf Hu Hk Hr Hb H32; [lia|]. cbn [encodeGroups].
  assert (P : 0 < 2 ^ k) by (apply Z.pow_pos_nonneg; lia).
  destruct (Z.leb_spec 32 n) as [C|C].
  - assert (F : (0 < fuel)%nat).
    { destruct fuel; [|lia]. change (2 ^ (5 * Z.of_nat 1)) with 32 in Hu. lia. }
    assert (M : 0 <= n mod 32 < 32) by (apply Z.mod_pos_bound; lia).
    assert (D : n = 32 * (n / 32) + n mod 32) by (apply Z.div_mod; lia).
    cbn [app readValue]. rewrite group_bits by exact Hn. rewrite Z.add_simpl_r.
    rewrite lor_continue by lia.
    rewrite (proj2 (Z.leb_le 32 _)) by lia. rewrite (Z.mod_small k 32) by lia.
    assert (Q : 32 * 2 ^ k <= n * 2 ^ k) by (apply Z.mul_le_mono_nonneg_r; lia).
    assert (E5 : 2 ^ (k + 5) = 32 * 2 ^ k) by (rewrite Z.pow_add_r by lia; change (2 ^ 5) with 32; lia).
    assert (K : k + 5 < 31) by (apply (Z.pow_lt_mono_r_iff 2 (k + 5) 31); [lia | lia | rewrite E5; lia]).
    replace (Z.land (n mod 32 + 32) 31) with (n mod 32).
    2: { rewrite group_bits by lia. rewrite <- (Z.mul_1_l 32) at 3. rewrite Z.mod_add by lia. rewrite Z.mod_mod by lia. reflexivity. }
    rewrite toInt32_id.
    2: { rewrite Z.shiftl_mul_pow2 by lia. assert (2 ^ (k + 5) <= 2 ^ 31) by (apply Z.pow_le_mono_r; lia).
         rewrite Z.pow_add_r in H by lia. change (2 ^ 5) with 32 in H. nia. }
    rewrite lor_shift by lia. rewrite Z.shiftr_div_pow2 by lia. change (2 ^ 5) with 32.
    rewrite IH; [f_equal; rewrite Z.pow_add_r by lia; change (2 ^ 5) with 32; nia | | lia | | lia | | | lia].
    + apply Z.div_pos; lia.
    + apply Z.div_lt_upper_bound; [lia|]. replace (5 * Z.of_nat (S fuel)) with (5 + 5 * Z.of_nat fuel) in Hu by lia.
      rewrite Z.pow_add_r in Hu by lia. exact Hu.
    + rewrite Z.pow_add_r by lia. change (2 ^ 5) with 32. nia.
    + rewrite Z.pow_add_r by lia. change (2 ^ 5) with 32. nia.
  - cbn [app readValue]. rewrite Z.add_simpl_r, (proj2 (Z.leb_gt 32 n)) by lia. rewrite (Z.mod_small k 32) by lia.
    rewrite group_bits by exact Hn. rewrite (Z.mod_small n 32) by lia. rewrite toInt32_id.
    + rewrite lor_shift by lia. reflexivity.
    + rewrite Z.shiftl_mul_pow2 by lia. nia.
Qed.

Lemma readValue_unsigned n rest : 0 <= n < 2 ^ 31 -> readValue (encodeUnsignedNumber n ++ rest) 0 0 = (n, rest).
Proof.
  intros Hn. unfold encodeUnsignedNumber. rewrite readValue_groups; [f_equal; lia | lia..].
Qed.

Lemma unzigzag_signed n : - 2 ^ 30 <= n < 2 ^ 30 ->
  let z := if n <? 0 then Z.lnot (toInt32 (Z.shiftl (toInt32 n) 1)) else toInt32 (Z.shiftl (toInt32 n) 1) in
  0 <= z < 2 ^ 31 /\ unzigzag z = n.
Proof.
  intros Hn. rewrite (toInt32_id n) by lia. rewrite Z.shiftl_mul_pow2 by lia. rewrite toInt32_id by lia.
  unfold unzigzag. change (2 ^ 1) with 2. destruct (Z.ltb_spec n 0) as [C|C]; cbv zeta.
  - replace (Z.lnot (n * 2)) with (2 * (- n - 1) + 1) by (unfold Z.lnot; lia). split; [lia|].
    rewrite Z.odd_add, Z.odd_mul. cbn [Z.odd andb xorb negb]. rewrite Z.shiftr_div_pow2 by lia. change (2 ^ 1) with 2.
    rewrite Z.add_comm, Z.mul_comm, Z.div_add by lia. unfold Z.lnot. change (1 / 2) with 0. lia.
  - split; [lia|]. rewrite Z.odd_mul. rewrite andb_false_r. rewrite Z.shiftr_div_pow2 by lia. change (2 ^ 1) with 2.
    apply Z.div_mul. lia.
Qed.

Lemma readValue_signed n rest : - 2 ^ 30 <= n < 2 ^ 30 ->
  exists z, readValue (encodeSignedNumber n ++ rest) 0 0 = (z, rest) /\ unzigzag z = n.
Proof.
  intros Hn. destruct (unzigzag_signed n Hn) as [Z1 Z2]. unfold encodeSignedNumber.
  eexists. split; [apply readValue_unsigned, Z1 | exact Z2].
Qed.

Lemma encodeSigned_nonempty n : encodeSignedNumber n <> [].
Proof. unfold encodeSignedNumber, encodeUnsignedNumber. cbn [encodeGroups]. destruct (32 <=? _); discriminate. Qed.

Definition on_earth (p : num * num) : Prop := Z.abs (toE5 p.1) <= 18000000 /\ Z.abs (toE5 p.2) <= 18000000.

(** The nearest point of the grid of 1e-5 degrees. *)
Definition snapped (p : num * num) : LatLng.t := {| LatLng.lat := degrees (toE5 p.1); LatLng.lng := degrees (toE5 p.2) |}.

Lemma decode_encodeFrom points fuel lat lng : Z.abs lat <= 18000000 -> Z.abs lng <= 18000000 ->
  Forall on_earth points -> (length (encodeFrom points lat lng) <= fuel)%nat ->
  decodeFrom fuel (encodeFrom points lat lng) lat lng = map snapped points.
Proof.
  revert fuel lat lng. induction points as [|[x y] points IH]; intros fuel lat lng A B F L.
  - destruct fuel; reflexivity.
  - apply Forall_cons in F as [[X Y] F]. cbn [fst snd] in X, Y. cbn [encodeFrom] in L |- *.
    destruct (readValue_signed (toE5 x - lat) (encodeSignedNumber (toE5 y - lng) ++ encodeFrom points (toE5 x) (toE5 y)))
      as (z1 & R1 & U1); [lia|].
    destruct (readValue_signed (toE5 y - lng) (encodeFrom points (toE5 x) (toE5 y))) as (z2 & R2 & U2); [lia|].
    pose proof (encodeSigned_nonempty (toE5 x - lat)) as N. rewrite !length_app in L.
    destruct (encodeSignedNumber (toE5 x - lat)) as [|u us] eqn:E; [contradiction|].
    destruct fuel as [|fuel]; [cbn in L; lia|]. rewrite <- E in *. cbn [decodeFrom].
    assert (C : forall l, exists v vs, encodeSignedNumber (toE5 x - lat) ++ l = v :: vs) by (intros l; rewrite E; eauto).
    destruct (C (encodeSignedNumber (toE5 y - lng) ++ encodeFrom points (toE5 x) (toE5 y))) as (v & vs & Ev).
    rewrite Ev in *. rewrite R1, R2, U1, U2. cbn [map]. unfold snapped at 1. cbn [fst snd].
    replace (lat + (toE5 x - lat)) with (toE5 x) by lia. replace (lng + (toE5 y - lng)) with (toE5 y) by lia.
    f_equal. apply IH; try assumption. rewrite E in L. cbn [length] in L. lia.
Qed.

(** C31. A route that is encoded is read back: points anywhere on earth, encoded into a polyline
    and decoded, are the points rounded to the grid of 1e-5 degrees. *)
Theorem polyline_roundtrip (points : list (num * num)) : Forall on_earth points ->
  decodeUnits (mockEncodePolyline points) = map snapped points.
Proof. intros F. unfold decodeUnits, mockEncodePolyline. apply decode_encodeFrom; try exact F; lia. Qed.

(** ** Progress along a route *)

Import Polyline.

(** What ECMAScript and IEEE 754 say of [Math.sqrt] and [Math.atan2] on the arguments used:
    a root is not negative, and the angle of a point above the axis is not either. *)
Section geometry_laws.
Context `{Env}.
Hypothesis sqrt_nonneg : forall x, (0 <= math_sqrt x)%Q.
Hypothesis atan2_nonneg : forall y x, (0 <= y)%Q -> (0 <= math_atan2 y x)%Q.

Open Scope Q_scope.

Lemma nle_spec (x y : num) : nle x y = true <-> x <= y.
Proof. apply Qle_bool_iff. Qed.

Lemma distance_nonneg p q : 0 <= calculateHaversineDistance p q.
Proof.
  unfold calculateHaversineDistance, nmul at 1, EARTH_RADIUS_KM. apply rnd_nonneg, Qmult_le_0_compat; [discriminate|].
  unfold nmul at 1. apply rnd_nonneg, Qmult_le_0_compat; [discriminate | apply atan2_nonneg, sqrt_nonneg].
Qed.

Lemma distance_float p q : rnd (calculateHaversineDistance p q) == calculateHaversineDistance p q.
Proof.
  unfold calculateHaversineDistance, nmul at 1 5, EARTH_RADIUS_KM. apply rnd_idem, Qmult_le_0_compat; [discriminate|].
  unfold nmul at 1. apply rnd_nonneg, Qmult_le_0_compat; [discriminate | apply atan2_nonneg, sqrt_nonneg].
Qed.
Lemma clamp01_bounds x : 0 <= clamp01 x <= 1.
Proof.
  unfold clamp01. split; [apply nmax_lb_l|]. apply nmax_lub; [discriminate|]. apply nmin_lb_l.
Qed.

Lemma fraction_bounds p a b : 0 <= (projectOntoSegment p a b).2 <= 1.
Proof.
  unfold projectOntoSegment. cbv zeta. destruct (neqb _ _); cbn [snd]; [split; discriminate | apply clamp01_bounds].
Qed.

Lemma part_of_distance p q f : 0 <= f <= 1 -> 0 <= nmul (calculateHaversineDistance p q) f <= calculateHaversineDistance p q.
Proof.
  intros F. pose proof (distance_nonneg p q) as D. unfold nmul. split; [apply rnd_nonneg; nra|].
  rewrite <- (distance_float p q) at 2. apply rnd_mono; nra.
Qed.

(** [t] is the float the loop has added up so far. *)
Definition float (t : num) : Prop := 0 <= t /\ rnd t == t.

Lemma float_add t d : float t -> 0 <= d -> float (nadd t d) /\ t <= nadd t d.
Proof.
  intros [T1 T2] D. unfold nadd. split; [split; [apply rnd_nonneg; lra | apply rnd_idem; lra]|].
  rewrite <- T2 at 1. apply rnd_mono; lra.
Qed.

Lemma lengthFrom_ge pts t : float t -> t <= lengthFrom pts t.
Proof.
  revert t. induction pts as [|a [|b rest] IH]; intros t T; try apply Qle_refl. cbn [lengthFrom].
  destruct (float_add t _ T (distance_nonneg a b)) as [T' L]. exact (Qle_trans _ _ _ L (IH _ T')).
Qed.

Lemma walkRoute_bounds point pts t closest progress : float t -> 0 <= progress <= t ->
  0 <= walkRoute point pts t closest progress <= lengthFrom pts t.
Proof.
  revert t closest progress. induction pts as [|a [|b rest] IH]; intros t closest progress T P;
    try (cbn; split; [apply P | apply P]). cbn [walkRoute lengthFrom].
  pose proof (fraction_bounds point a b) as F. destruct (projectOntoSegment point a b) as [distance fraction]. cbn in F.
  destruct (float_add t _ T (distance_nonneg a b)) as [T' L].
  pose proof (part_of_distance a b fraction F) as [M1 M2]. destruct (float_add t _ T M1) as [_ L1].
  destruct (closer distance closest); apply (IH _ _ _ T').
  - split; [apply (Qle_trans _ t); [apply T | exact L1]|]. unfold nadd. apply rnd_mono; destruct T; lra.
  - split; [apply P | apply (Qle_trans _ t); [apply P | exact L]].
Qed.

(** A point is on the route: its progress is never before the start of the route nor past
    its length, so that shares of a route are between nothing and the whole. *)
Theorem progress_within_route (point : LatLng.t) (routePoints : list LatLng.t) (x : num) :
  routeProgressKm point routePoints = Some x -> 0 <= x <= routeLengthKm routePoints.
Proof.
  unfold routeProgressKm, routeLengthKm. assert (T : float (num_of_Z 0)) by (split; [discriminate | reflexivity]).
  destruct routePoints as [|a [|b rest]]; [discriminate | intros [= <-]; split; discriminate|]. intros E. apply (inj Some) in E as <-.
  apply walkRoute_bounds; [exact T | split; discriminate].
Qed.
End geometry_laws.

(** ** Samples of a route *)

Section samples.
Open Scope Q_scope.

(** The last of [k] steps over [n] points ends on the last point, whatever the rounding. *)
Lemma last_step (n k : Z) : (2 <= k < n)%Z -> (n <= 2 ^ 40)%Z ->
  math_round (nmul (num_of_Z (k - 1)) (ndiv (num_of_Z (n - 1)) (num_of_Z (k - 1)))) = (n - 1)%Z.
Proof.
  intros K N. assert (A : 1 <= inject_Z (k - 1)) by (change 1 with (inject_Z 1); rewrite <- Zle_Qle; lia).
  assert (B : 1 <= inject_Z (n - 1) <= 1099511627776).
  { split; [change 1 with (inject_Z 1) | change 1099511627776 with (inject_Z (2 ^ 40))]; rewrite <- Zle_Qle; lia. }
  assert (C : inject_Z (k - 1) <= inject_Z (n - 1)) by (rewrite <- Zle_Qle; lia).
  unfold nmul, ndiv, num_of_Z. set (a := inject_Z (k - 1)) in *. set (b := inject_Z (n - 1)) in *.
  assert (Q1 : 1 <= b / a) by (apply Qle_shift_div_l; lra).
  assert (E1 : Qabs.Qabs (rnd (b / a) - b / a) <= b / a * eps).
  { pose proof (rnd_rel (b / a)) as R. rewrite Qabs.Qabs_pos in R by lra. apply R. lra. }
  apply Qabs.Qabs_Qle_condition in E1.
  assert (M : a * (b / a) == b) by (apply Qmult_div_r; lra).
  set (q := b / a) in *. set (st := rnd q) in *.
  assert (Y : - (b * eps) <= a * st - b <= b * eps) by (unfold eps in *; split; nra).
  assert (E2 : Qabs.Qabs (rnd (a * st) - a * st) <= a * st * eps).
  { pose proof (rnd_rel (a * st)) as R. rewrite Qabs.Qabs_pos in R by (unfold eps in *; lra). apply R. unfold eps in *; lra. }
  apply Qabs.Qabs_Qle_condition in E2. apply math_round_unique; fold b; unfold eps in *; lra.
Qed.
Lemma omap_total {A B} (g : A -> option B) (l : list A) : (forall x, In x l -> is_Some (g x)) ->
  length (omap g l) = length l /\ forall j, omap g l !! j = (l !! j) ≫= g.
Proof.
  induction l as [|x l IH]; intros T; [split; [reflexivity | intros j; reflexivity]|].
  destruct (T x (or_introl eq_refl)) as [y E]. destruct (IH (fun z Hz => T z (or_intror Hz))) as [L J].
  cbn. rewrite E. split; [cbn; lia|]. intros [|j]; [cbn; congruence | exact (J j)].
Qed.

(** [k] points of the route in its order, from the first to the last. *)
Record Sampled {A} (points samples : list A) (k : Z) : Prop := {
  sampled_length : Z.of_nat (length samples) = k;
  sampled_first : samples !! 0%nat = points !! 0%nat;
  sampled_last : last samples = last points;
  sampled_order : exists f : nat -> nat, (forall i j, (i <= j)%nat -> (f i <= f j)%nat) /\
    forall i, (i < length samples)%nat -> samples !! i = points !! f i;
}.

Lemma picked {A} (points : list A) (k : Z) (f : nat -> Z) : (2 <= k)%Z ->
  f 0%nat = 0%Z -> f (Z.to_nat (k - 1)) = (Z.of_nat (length points) - 1)%Z ->
  (forall i j, (i <= j)%nat -> (f i <= f j)%Z) ->
  Sampled points (omap (fun i => points !! Z.to_nat (f i)) (seq 0 (Z.to_nat k))) k.
Proof.
  intros K F0 Fl Mono. set (g := fun i => points !! Z.to_nat (f i)).
  assert (P : (0 < length points)%nat) by (pose proof (Mono 0%nat (Z.to_nat (k - 1)) ltac:(lia)); lia).
  assert (R : forall i, (i < Z.to_nat k)%nat -> is_Some (g i)).
  { intros i Hi. apply lookup_lt_is_Some. pose proof (Mono i (Z.to_nat (k - 1)) ltac:(lia)). lia. }
  destruct (omap_total g (seq 0 (Z.to_nat k))) as [L J].
  { intros i Hi%in_seq. apply R. lia. }
  rewrite length_seq in L.
  assert (At : forall i, (i < Z.to_nat k)%nat -> omap g (seq 0 (Z.to_nat k)) !! i = points !! Z.to_nat (f i)).
  { intros i Hi. rewrite J, lookup_seq_lt by exact Hi. reflexivity. }
  split.
  - rewrite L. lia.
  - rewrite At by lia. rewrite F0. reflexivity.
  - rewrite !last_lookup, L. replace (pred (Z.to_nat k)) with (Z.to_nat (k - 1)) by lia. rewrite At by lia. rewrite Fl.
    f_equal. lia.
  - exists (fun i => Z.to_nat (f i)). split.
    + intros i j Hij. apply Z2Nat.inj_le; [..|exact (Mono i j Hij)]; pose proof (Mono 0%nat i ltac:(lia)); pose proof (Mono i j Hij); lia.
    + intros i Hi. apply At. lia.
Qed.

Lemma eq_Qeq (x y : Q) : x = y -> x == y.
Proof. intros ->. reflexivity. Qed.

Lemma math_round_0 x : x == 0 -> math_round x = 0%Z.
Proof. intros ->. reflexivity. Qed.

Lemma inject_le a b : (a <= b)%Z -> inject_Z a <= inject_Z b.
Proof. rewrite <- Zle_Qle. auto. Qed.

(** C3. Samples cover the route.  Of more points than asked for, the search compares exactly [numSamples],
    in the order of the route, and its first and last are always among them: the rounding
    of the steps neither runs past the end nor stops before it.  The same holds of the
    points along a driver's route at which towns are looked up. *)
Theorem samples_cover_route {A} (points : list A) (k : Z) :
  (2 <= k < Z.of_nat (length points))%Z -> (Z.of_nat (length points) <= 2 ^ 40)%Z ->
  Sampled points (samplePolylinePoints points k) k /\ Sampled points (selectEvenlySpacedRouteSamples points k) k.
Proof.
  intros K N. set (n := Z.of_nat (length points)) in *.
  assert (A1 : inject_Z 1 <= inject_Z (k - 1)) by (apply inject_le; lia). change (inject_Z 1) with 1 in A1. split.
  - unfold samplePolylinePoints. fold n. rewrite (proj2 (Z.leb_gt n k)) by lia. apply picked; [lia | | |].
    + apply math_round_0, rnd_zero. unfold num_of_Z. change (inject_Z (Z.of_nat 0)) with 0. ring.
    + rewrite Z2Nat.id by lia. apply last_step; lia.
    + intros i j Hij. apply math_round_mono. unfold nmul.
      assert (S : 0 <= ndiv (num_of_Z (n - 1)) (num_of_Z (k - 1))).
      { apply rnd_nonneg. apply Qle_shift_div_l; [unfold num_of_Z; lra|]. rewrite Qmult_0_l. apply (inject_le 0). lia. }
      assert (I0 : inject_Z 0 <= inject_Z (Z.of_nat i)) by (apply inject_le; lia). change (inject_Z 0) with 0 in I0.
      assert (I1 : inject_Z (Z.of_nat i) <= inject_Z (Z.of_nat j)) by (apply inject_le; lia). unfold num_of_Z at 1 4.
      apply rnd_mono; [apply Qmult_le_0_compat; assumption | apply Qmult_le_compat_r; assumption].
  - unfold selectEvenlySpacedRouteSamples. fold n.
    rewrite (proj2 (Z.leb_gt k 0)), (proj2 (Z.leb_gt n k)), (proj2 (Z.eqb_neq k 1)) by lia. apply picked; [lia | | |].
    + apply math_round_0, rnd_zero. change (num_of_Z (Z.of_nat 0 * (n - 1))) with 0. apply Qmult_0_l.
    + rewrite Z2Nat.id by lia. unfold ndiv, num_of_Z. fold n.
      transitivity (math_round (inject_Z (n - 1))); [apply math_round_proper | apply math_round_Z].
      transitivity (rnd (inject_Z (n - 1))); [|apply rnd_Z; lia]. apply eq_Qeq, rnd_proper. rewrite inject_Z_mult. field. lra.
    + intros i j Hij. apply math_round_mono. unfold ndiv.
      assert (I0 : 0 <= inject_Z (Z.of_nat i * (n - 1))) by (apply (inject_le 0); nia).
      assert (I1 : inject_Z (Z.of_nat i * (n - 1)) <= inject_Z (Z.of_nat j * (n - 1))) by (apply inject_le; nia).
      apply rnd_mono; unfold num_of_Z.
      * apply Qle_shift_div_l; [lra|]. rewrite Qmult_0_l. exact I0.
      * apply Qmult_le_compat_r; [exact I1|]. apply Qinv_le_0_compat. lra.
Qed.
End samples.

(** ** Comparing routes *)

Section compare.
Context `{Env}.
Open Scope Q_scope.

(** [i] is the first of the nearest points. *)
Definition nearest_at (point : LatLng.t) (pts : list LatLng.t) (r : Nearest.t) : Prop :=
  let d := calculateHaversineDistance point in
  pts !! Nearest.index r = Some (Nearest.point r) /\ Nearest.distance r = Some (d (Nearest.point r)) /\
  forall j q, pts !! j = Some q -> d (Nearest.point r) <= d q /\ ((j < Nearest.index r)%nat -> d (Nearest.point r) < d q).

Lemma nlt_spec (x y : num) : nlt x y = true <-> x < y.
Proof.
  unfold nlt. rewrite negb_true_iff. split.
  - intros E. apply Qnot_le_lt. intros L. apply Qle_bool_iff in L. congruence.
  - intros L. apply not_true_is_false. intros T. apply Qle_bool_iff in T. lra.
Qed.

Lemma nearestFrom_at point pts before best : nearest_at point before best ->
  nearest_at point (before ++ pts) (nearestFrom point pts (length before) best).
Proof.
  revert before best. induction pts as [|p pts IH]; intros before best N; [rewrite app_nil_r; exact N|].
  cbn [nearestFrom]. replace (before ++ p :: pts) with ((before ++ [p]) ++ pts) by (rewrite <- app_assoc; reflexivity).
  replace (S (length before)) with (length (before ++ [p])) by (rewrite length_app; cbn; lia). apply IH.
  destruct N as (N1 & N2 & N3). rewrite N2. cbn [closer].
  assert (Split : forall j q, (before ++ [p]) !! j = Some q -> before !! j = Some q \/ (j = length before /\ q = p)).
  { intros j q E. apply lookup_app_Some in E as [E|[L E]]; [auto|]. right.
    destruct (j - length before)%nat as [|m] eqn:D; [|destruct m; discriminate E]. injection E as <-. split; [lia | reflexivity]. }
  destruct (nlt _ _) eqn:C.
  - apply nlt_spec in C. split; cbn.
    + rewrite lookup_app_r by lia. rewrite Nat.sub_diag. reflexivity.
    + split; [reflexivity|]. intros j q E. apply Split in E as [E|[-> ->]].
      * destruct (N3 j q E) as [L _]. split; [apply Qlt_le_weak|intros _]; exact (Qlt_le_trans _ _ _ C L).
      * split; [apply Qle_refl | lia].
  - assert (C' : calculateHaversineDistance point (Nearest.point best) <= calculateHaversineDistance point p).
    { apply Qnot_lt_le. intros L. apply nlt_spec in L. congruence. }
    split; [apply lookup_app_l_Some, N1|]. split; [exact N2|]. intros j q E. apply Split in E as [E|[-> ->]]; [exact (N3 j q E)|].
    split; [exact C'|]. intros L. apply lookup_lt_Some in N1. lia.
Qed.

Lemma nearest_spec point p pts : nearest_at point (p :: pts) (findNearestPointOnRoute point (p :: pts)).
Proof.
  unfold findNearestPointOnRoute. cbn [nearestFrom Nearest.distance closer].
  apply (nearestFrom_at point pts [p]). split; [reflexivity|]. split; [reflexivity|].
  intros [|j] q E; [injection E as <-|destruct j; discriminate E]. split; [apply Qle_refl | cbn; lia].
Qed.
Context `{PolylineCodec}.

(** Two routes are as similar one way as the other. *)
Lemma similarity_symmetric p1 p2 n : calculatePolylineSimilarity p1 p2 n = calculatePolylineSimilarity p2 p1 n.
Proof.
  unfold calculatePolylineSimilarity. destruct (decodePolyline p1), (decodePolyline p2); try reflexivity.
  f_equal. unfold nadd. apply rnd_proper, Qplus_comm.
Qed.

Lemma merged_contains box1 box2 lat lng : inBox box1 lat lng = true \/ inBox box2 lat lng = true ->
  inBox (mergeTwo box1 box2) lat lng = true.
Proof.
  unfold inBox. rewrite !andb_true_iff, !nle_spec. cbn.
  pose proof (nmin_lb_l (BoundingBox.minLat box1) (BoundingBox.minLat box2)). pose proof (nmin_lb_r (BoundingBox.minLat box1) (BoundingBox.minLat box2)).
  pose proof (nmin_lb_l (BoundingBox.minLng box1) (BoundingBox.minLng box2)). pose proof (nmin_lb_r (BoundingBox.minLng box1) (BoundingBox.minLng box2)).
  pose proof (nmax_lb_l (BoundingBox.maxLat box1) (BoundingBox.maxLat box2)). pose proof (nmax_lb_r (BoundingBox.maxLat box1) (BoundingBox.maxLat box2)).
  pose proof (nmax_lb_l (BoundingBox.maxLng box1) (BoundingBox.maxLng box2)). pose proof (nmax_lb_r (BoundingBox.maxLng box1) (BoundingBox.maxLng box2)).
  intros [[[[]]]|[[[]]]]; repeat split; lra.
Qed.
End compare.

(** ** Witnesses *)

Definition demo_points : list (num * num) := [(5943 # 100, 2475 # 100); (583 # 10, 2672 # 100)]%Q.

Lemma polyline_roundtrip_witness :
  decodeUnits (mockEncodePolyline demo_points) = map snapped demo_points.
Proof. apply polyline_roundtrip. repeat constructor; vm_compute; discriminate. Defined.

Definition demo_route : list LatLng.t := map snapped demo_points.

Lemma progress_within_route_witness :
  exists x, @routeProgressKm (demo_env 0 no_failure) (snapped (59 # 1, 25 # 1)%Q) demo_route = Some x /\
    (0 <= x <= @routeLengthKm (demo_env 0 no_failure) demo_route)%Q.
Proof.
  destruct (@routeProgressKm (demo_env 0 no_failure) (snapped (59 # 1, 25 # 1)%Q) demo_route) as [x|] eqn:E; [|discriminate E].
  exists x. split; [reflexivity|].
  refine (@progress_within_route (demo_env 0 no_failure) _ _ _ demo_route x E).
  - intros y. apply nmax_lb_l.
  - intros y z Hy. exact Hy.
Defined.

Lemma samples_cover_route_witness :
  samplePolylinePoints (seq 0 100) 20 !! 0%nat = Some 0%nat /\ last (samplePolylinePoints (seq 0 100) 20) = Some 99%nat.
Proof.
  destruct (samples_cover_route (seq 0 100) 20) as [S _]; [rewrite length_seq; lia | rewrite length_seq; lia|].
  split; [exact (sampled_first _ _ _ S) | exact (sampled_last _ _ _ S)].
Defined.
