(* ===== verification/Eligibility.v ===== *)
(** * Eligibility to publish

    Models [modules/publish-ride/driver-eligibility.service.ts]: the three requirements a
    driver has to meet before a ride goes live, and the gate that throws the first one
    unmet. *)

From Stdlib Require Import ZArith Lia.
From stdpp Require Import base list option strings gmap.
From S2P Require Import Prelude JsNumber Money Schema Store Seats.

Open Scope Z_scope.

Module Eligibility.

Inductive PublishRequirementKey := DL_VERIFICATION | BANK_ACCOUNT | VEHICLE.

(** [vehicle] is its review status with the note of the rejection. *)
Module PublishRequirement.
Record t := {
  key : PublishRequirementKey;
  satisfied : bool;
  skipped : bool;
  reason : option string;
  actionUrl : option string;
  vehicle : option (VehicleVerificationStatus.t * option string);
}.
End PublishRequirement.

Module PublishEligibility.
Record t := { eligible : bool; requirements : list PublishRequirement.t }.
End PublishEligibility.

(** [process.env.SKIP_VEHICLE_VERIFICATION] *)
Class EligibilityEnv := { SKIP_VEHICLE_VERIFICATION : option string }.

Definition requirement (key : PublishRequirementKey) (satisfied : bool) (reason : string) (actionUrl : option string)
    (skipped : bool) : PublishRequirement.t := {|
  PublishRequirement.key := key;
  PublishRequirement.satisfied := if skipped then true else satisfied;
  PublishRequirement.skipped := skipped;
  PublishRequirement.reason := if skipped || satisfied then None else Some reason;
  PublishRequirement.actionUrl := if skipped || satisfied then None else actionUrl;
  PublishRequirement.vehicle := None |}.

Definition buildVehicleRequirement (vehicle : option Vehicle.t) (approvalSkipped : bool) : PublishRequirement.t :=
  match vehicle with
  | None =>
      {| PublishRequirement.key := VEHICLE; PublishRequirement.satisfied := false; PublishRequirement.skipped := false;
         PublishRequirement.reason := Some "VEHICLE_REQUIRED"%string;
         PublishRequirement.actionUrl := Some "/api/v1/vehicles/draft"%string; PublishRequirement.vehicle := None |}
  | Some vehicle =>
      let approved := bool_decide (Vehicle.verificationStatus vehicle = VehicleVerificationStatus.APPROVED) in
      if approvalSkipped || approved then
        {| PublishRequirement.key := VEHICLE; PublishRequirement.satisfied := true;
           PublishRequirement.skipped := approvalSkipped && negb approved; PublishRequirement.reason := None;
           PublishRequirement.actionUrl := None; PublishRequirement.vehicle := None |}
      else
        let rejected := bool_decide (Vehicle.verificationStatus vehicle = VehicleVerificationStatus.REJECTED) in
        {| PublishRequirement.key := VEHICLE; PublishRequirement.satisfied := false; PublishRequirement.skipped := false;
           PublishRequirement.reason := Some (if rejected then "VEHICLE_REJECTED" else "VEHICLE_NOT_VERIFIED")%string;
           PublishRequirement.actionUrl := Some "/api/v1/vehicles"%string;
           PublishRequirement.vehicle := Some (Vehicle.verificationStatus vehicle, Vehicle.rejectionReason vehicle) |}
  end.

Section eligibility.
Context `{Env} `{EligibilityEnv}.

Definition skipBankCheck : bool :=
  bool_decide (BOOKING_PAYMENT_MODE = Some "bypass"%string) || STRIPE_CONNECT_MOCK_MODE.

Definition skipVehicleVerification : bool := bool_decide (SKIP_VEHICLE_VERIFICATION = Some "true"%string).

Definition isDriversVehicle (driverId : string) (vehicleId : option string) (v : Vehicle.t) : bool :=
  bool_decide (Vehicle.userId v = driverId) && bool_decide (Vehicle.deletedAt v = None) &&
  match truthy vehicleId with Some id => bool_decide (Vehicle.id v = id) | None => true end.

Definition hasDlVerification (driverId : string) (p : DlVerification.t -> bool) : H bool :=
  found ← findFirst prisma.dlVerification (fun v => bool_decide (DlVerification.userId v = driverId) && p v);
  mret (bool_decide (is_Some found)).

Definition identityMismatched (v : DlVerification.t) : bool :=
  bool_decide (DlVerification.status v = DlVerificationStatus.IDENTITY_MISMATCH).

Definition underReview (v : DlVerification.t) : bool :=
  bool_decide (DlVerification.status v = DlVerificationStatus.PENDING) && bool_decide (is_Some (DlVerification.submittedAt v)).

Definition getDriverPublishEligibility (driverId : string) (vehicleId : option string) : H PublishEligibility.t :=
  driver ← findUnique prisma.user driverId;
  vehicle ← findFirst prisma.vehicle (isDriversVehicle driverId vehicleId);
  let dlVerified := default false (User.dlVerified <$> driver) in
  identityMismatch ← (if negb dlVerified then hasDlVerification driverId identityMismatched else mret false);
  licenceUnderReview ← (if negb dlVerified && negb identityMismatch then hasDlVerification driverId underReview
                        else mret false);
  let licenceReason := (if identityMismatch : bool then "DL_IDENTITY_MISMATCH"
                        else if licenceUnderReview : bool then "DL_VERIFICATION_PENDING" else "DRIVER_NOT_VERIFIED")%string in
  let requirements :=
    [requirement DL_VERIFICATION dlVerified licenceReason
       (Some (if licenceUnderReview : bool then "/api/v1/dl-verification/status" else "/api/v1/dl-verification")%string) false;
     requirement BANK_ACCOUNT (default false (User.stripeOnboardingComplete <$> driver)) "BANK_ACCOUNT_REQUIRED"
       (Some "/api/v1/payments/connect/onboard"%string) skipBankCheck;
     buildVehicleRequirement vehicle skipVehicleVerification] in
  mret {| PublishEligibility.eligible := forallb PublishRequirement.satisfied requirements;
          PublishEligibility.requirements := requirements |}.

Definition assertDriverCanPublish (driverId : string) (vehicleId : option string) : H unit :=
  eligibility ← getDriverPublishEligibility driverId vehicleId;
  if PublishEligibility.eligible eligibility then mret tt
  else
    let blocker := List.find (fun item => negb (PublishRequirement.satisfied item))
                     (PublishEligibility.requirements eligibility) in
    throw (default "DRIVER_NOT_ELIGIBLE"%string (blocker ≫= PublishRequirement.reason)).
End eligibility.
End Eligibility.

Import Eligibility.

(** ** The gate *)

Section gate.
Context `{Env} `{EligibilityEnv}.

(** What stands between a driver and publishing, in the order in which it is asked for. *)
Definition blocker (d : Db.t) (driverId : string) (vehicleId : option string) : option string :=
  let driver := Db.user d !! driverId in
  let licences p := existsb p (where_ prisma.dlVerification (fun v => bool_decide (DlVerification.userId v = driverId)) d) in
  if negb (default false (User.dlVerified <$> driver)) then
    Some (if licences identityMismatched then "DL_IDENTITY_MISMATCH"
          else if licences underReview then "DL_VERIFICATION_PENDING" else "DRIVER_NOT_VERIFIED")%string
  else if negb (skipBankCheck || default false (User.stripeOnboardingComplete <$> driver)) then
    Some "BANK_ACCOUNT_REQUIRED"%string
  else
    match head (where_ prisma.vehicle (isDriversVehicle driverId vehicleId) d) with
    | None => Some "VEHICLE_REQUIRED"%string
    | Some v =>
        if skipVehicleVerification then None
        else match Vehicle.verificationStatus v with
             | VehicleVerificationStatus.APPROVED => None
             | VehicleVerificationStatus.REJECTED => Some "VEHICLE_REJECTED"%string
             | _ => Some "VEHICLE_NOT_VERIFIED"%string
             end
    end.

Lemma found_exists {R} (t : Table R) (p q : R -> bool) d :
  bool_decide (is_Some (head (where_ t (fun r => p r && q r) d))) = existsb q (where_ t p d).
Proof.
  apply eq_true_iff_eq. rewrite bool_decide_eq_true, existsb_exists. split.
  - intros [r E]. exists r. assert (I : In r (where_ t (fun r => p r && q r) d)).
    { destruct (where_ _ _ _); [discriminate|]. injection E as ->. left. reflexivity. }
    apply where_elem in I as [[P Q]%andb_true_iff K]. split; [apply where_elem; auto | exact Q].
  - intros (r & [P K]%where_elem & Q). assert (I : In r (where_ t (fun r => p r && q r) d)).
    { apply where_elem. rewrite P, Q. auto. }
    destruct (where_ _ _ _); [destruct I | cbn; eauto].
Qed.

Lemma hasDlVerification_run driverId p s : hasDlVerification driverId p s =
  (s, Ok (existsb p (where_ prisma.dlVerification (fun v => bool_decide (DlVerification.userId v = driverId)) (St.db s)))).
Proof. unfold hasDlVerification, findFirst. rewrite bind_run. cbn [get fst snd]. rewrite <- found_exists. reflexivity. Qed.

Lemma vehicle_gate v skip :
  PublishRequirement.satisfied (buildVehicleRequirement v skip) = bool_decide (PublishRequirement.reason (buildVehicleRequirement v skip) = None) /\
  PublishRequirement.reason (buildVehicleRequirement v skip) =
    match v with
    | None => Some "VEHICLE_REQUIRED"%string
    | Some v =>
        if skip then None
        else match Vehicle.verificationStatus v with
             | VehicleVerificationStatus.APPROVED => None
             | VehicleVerificationStatus.REJECTED => Some "VEHICLE_REJECTED"%string
             | _ => Some "VEHICLE_NOT_VERIFIED"%string
             end
    end.
Proof.
  destruct v as [v|]; [|split; reflexivity]. unfold buildVehicleRequirement.
  destruct skip; [split; reflexivity|]. destruct (Vehicle.verificationStatus v); split; reflexivity.
Qed.

(** The requirements of a driver, from the tables. *)
Definition requirementsIn (d : Db.t) (driverId : string) (vehicleId : option string) : list PublishRequirement.t :=
  let driver := Db.user d !! driverId in
  let licensed := default false (User.dlVerified <$> driver) in
  let licences p := existsb p (where_ prisma.dlVerification (fun v => bool_decide (DlVerification.userId v = driverId)) d) in
  let mismatch := negb licensed && licences identityMismatched in
  let review := negb licensed && negb mismatch && licences underReview in
  [requirement DL_VERIFICATION licensed
     (if mismatch then "DL_IDENTITY_MISMATCH" else if review then "DL_VERIFICATION_PENDING" else "DRIVER_NOT_VERIFIED")%string
     (Some (if review then "/api/v1/dl-verification/status" else "/api/v1/dl-verification")%string) false;
   requirement BANK_ACCOUNT (default false (User.stripeOnboardingComplete <$> driver)) "BANK_ACCOUNT_REQUIRED"
     (Some "/api/v1/payments/connect/onboard"%string) skipBankCheck;
   buildVehicleRequirement (head (where_ prisma.vehicle (isDriversVehicle driverId vehicleId) d)) skipVehicleVerification].

Lemma eligibility_run driverId vehicleId s : getDriverPublishEligibility driverId vehicleId s =
  (s, Ok (let l := requirementsIn (St.db s) driverId vehicleId in
          {| PublishEligibility.eligible := forallb PublishRequirement.satisfied l; PublishEligibility.requirements := l |})).
Proof.
  unfold getDriverPublishEligibility, requirementsIn.
  rewrite (bind_Ok (findUnique prisma.user driverId) _ s s (Db.user (St.db s) !! driverId) eq_refl).
  rewrite (bind_Ok (findFirst _ _) _ s s _ eq_refl). cbv zeta.
  destruct (default false (User.dlVerified <$> Db.user (St.db s) !! driverId)); cbn [negb andb].
  - do 2 rewrite (bind_Ok (mret false) _ s s false eq_refl). reflexivity.
  - rewrite (bind_Ok _ _ _ _ _ (hasDlVerification_run _ _ _)).
    destruct (existsb identityMismatched _); cbn [negb andb].
    + rewrite (bind_Ok (mret false) _ s s false eq_refl). reflexivity.
    + rewrite (bind_Ok _ _ _ _ _ (hasDlVerification_run _ _ _)). reflexivity.
Qed.

Lemma assert_run (driverId : string) (vehicleId : option string) (s : St.t) :
  assertDriverCanPublish driverId vehicleId s =
    (s, match blocker (St.db s) driverId vehicleId with None => Ok tt | Some reason => Err reason end).
Proof.
  unfold assertDriverCanPublish. rewrite (bind_Ok _ _ _ _ _ (eligibility_run _ _ _)). cbv zeta.
  cbn [PublishEligibility.eligible PublishEligibility.requirements]. unfold requirementsIn, blocker.
  destruct (vehicle_gate (head (where_ prisma.vehicle (isDriversVehicle driverId vehicleId) (St.db s))) skipVehicleVerification) as [G R].
  set (vehicle := buildVehicleRequirement _ _) in *. rewrite <- R. clear R. cbv zeta.
  destruct (default false (User.dlVerified <$> Db.user (St.db s) !! driverId)); cbn [negb andb].
  - destruct skipBankCheck; cbn [orb].
    all: destruct (default false (User.stripeOnboardingComplete <$> Db.user (St.db s) !! driverId)); cbn [negb]; try reflexivity.
    all: cbn; rewrite G; destruct (PublishRequirement.reason vehicle) eqn:E; cbn; rewrite ?G, ?E; reflexivity.
  - destruct (existsb identityMismatched _), (existsb underReview _); reflexivity.
Qed.

(** A driver with nothing missing. *)
Record cleared (d : Db.t) (driverId : string) (vehicleId : option string) : Prop := {
  cleared_licence : exists u, Db.user d !! driverId = Some u /\ User.dlVerified u = true;
  cleared_bank : skipBankCheck = true \/ exists u, Db.user d !! driverId = Some u /\ User.stripeOnboardingComplete u = true;
  cleared_vehicle : exists v, head (where_ prisma.vehicle (isDriversVehicle driverId vehicleId) d) = Some v /\
    (skipVehicleVerification = true \/ Vehicle.verificationStatus v = VehicleVerificationStatus.APPROVED);
}.

Lemma blocker_cleared d driverId vehicleId : blocker d driverId vehicleId = None <-> cleared d driverId vehicleId.
Proof.
  unfold blocker. cbv zeta. split.
  - intros E. destruct (Db.user d !! driverId) as [u|] eqn:U; [|discriminate E]. cbn [default from_option fmap option_fmap option_map id] in E. unfold id in E.
    destruct (User.dlVerified u) eqn:L; [|discriminate E]. cbn [negb] in E.
    destruct (skipBankCheck || User.stripeOnboardingComplete u) eqn:B; [|discriminate E]. cbn [negb] in E.
    destruct (head _) as [v|] eqn:V; [|discriminate E]. split.
    + exists u. auto.
    + apply orb_true_iff in B as [B|B]; [left; exact B | right; exists u; auto].
    + exists v. split; [exact V|]. destruct skipVehicleVerification; [auto|]. destruct (Vehicle.verificationStatus v); try discriminate E. auto.
  - intros [(u & U & L) B (v & V & A)]. rewrite U. cbn [default from_option fmap option_fmap option_map id]. unfold id. rewrite L. cbn [negb].
    assert (B' : skipBankCheck || User.stripeOnboardingComplete u = true).
    { apply orb_true_iff. destruct B as [B|(u' & U' & B)]; [auto|]. right. congruence. }
    rewrite B', V. cbn [negb]. destruct A as [->|A]; [reflexivity|]. rewrite A. destruct skipVehicleVerification; reflexivity.
Qed.

(** The gate of publishing lets through exactly the drivers with nothing missing, and
    answers the first thing missing: the licence, with why it does not count yet, then
    payouts, then the vehicle.  It changes nothing. *)
Theorem publish_gate (driverId : string) (vehicleId : option string) (s : St.t) :
  let '(s', r) := assertDriverCanPublish driverId vehicleId s in
  s' = s /\ (r = Ok tt <-> cleared (St.db s) driverId vehicleId) /\
  (forall reason, r = Err reason <-> blocker (St.db s) driverId vehicleId = Some reason).
Proof.
  rewrite assert_run, <- blocker_cleared. split; [reflexivity|].
  destruct (blocker _ _ _); (split; [split | intros reason; split]); congruence.
Qed.
End gate.
