(* ===== verification/Vehicles.v ===== *)
(** * Vehicles

    Models [modules/vehicles/]: a driver's vehicles and their documents
    ([vehicle.service.ts], [vehicle-review.util.ts], [vehicle-documents.util.ts],
    [vehicle.constants.ts]), the draft a vehicle is entered in
    ([draft-vehicle.service.ts]), the audit of the documents' files
    ([vehicle-document-audit.service.ts]) and the administrator's decision
    ([modules/admin/admin.service.ts]).  The bucket is asked by [HeadObject] and
    [PromoteObject]; a draft is stored as JSON, here as its record.  The limit and the hours of
    an audit are whole numbers. *)

From Stdlib Require Import ZArith Lia.
From stdpp Require Import base list option strings gmap.
From S2P Require Import Prelude JsNumber Schema Store Time Gateway Licence LicenceReview Eligibility.

Open Scope Z_scope.

(** ** Constants *)

Definition DOCUMENT_REQUIRED_COUNTRIES : list string := ["EE"]%string.

Definition REQUIRED_DOCUMENT_TYPES : list DocumentType.t :=
  [DocumentType.VEHICLE_IMAGE_FRONT; DocumentType.VEHICLE_IMAGE_BACK; DocumentType.VEHICLE_DOCUMENT;
   DocumentType.INSURANCE_DOCUMENT].

Definition PRIMARY_IMAGE_DOCUMENT_TYPES : list DocumentType.t :=
  [DocumentType.VEHICLE_IMAGE; DocumentType.VEHICLE_IMAGE_FRONT].

Definition isPrimaryImageDocumentType (documentType : DocumentType.t) : bool :=
  bool_decide (documentType ∈ PRIMARY_IMAGE_DOCUMENT_TYPES).

Definition REQUEUE_APPROVED_ON_PHOTO_CHANGE : bool := false.

(** No letter outside ASCII has a capital E in its upper case. *)
Definition requiresFullDocumentSet (licenseCountry : string) : bool :=
  bool_decide (toUpperCase (strip licenseCountry) ∈ DOCUMENT_REQUIRED_COUNTRIES).

Definition PRIVATE_DOCUMENT_TYPES : list DocumentType.t :=
  [DocumentType.DRIVING_LICENSE; DocumentType.INSURANCE_DOCUMENT; DocumentType.VEHICLE_DOCUMENT].

Definition isPrivateDocumentType (documentType : DocumentType.t) : bool :=
  bool_decide (documentType ∈ PRIVATE_DOCUMENT_TYPES).

Definition MAX_VEHICLES_PER_USER : nat := 3.

(** ** Changes that need a new review *)

Inductive VehicleChangeKind := LICENSE_PLATE | VEHICLE_DETAILS | KYC_DOCUMENT | PRIMARY_PHOTO.

#[global] Instance VehicleChangeKind_eq_dec : EqDecision VehicleChangeKind.
Proof. solve_decision. Defined.

Definition REVIEW_RESET (v : Vehicle.t) : Vehicle.t :=
  v <| Vehicle.isVerified := false |> <| Vehicle.verificationStatus := VehicleVerificationStatus.PENDING |>
    <| Vehicle.rejectionReason := None |> <| Vehicle.reviewedAt := None |> <| Vehicle.reviewedById := None |>.

Definition changeKindForDocumentType (documentType : DocumentType.t) : VehicleChangeKind :=
  match documentType with
  | DocumentType.VEHICLE_IMAGE | DocumentType.VEHICLE_IMAGE_FRONT | DocumentType.VEHICLE_IMAGE_BACK => PRIMARY_PHOTO
  | _ => KYC_DOCUMENT
  end.

(** The fields to be written with the edit, if any. *)
Definition buildReviewReset (current : VehicleVerificationStatus.t) (change : VehicleChangeKind) : option (Vehicle.t -> Vehicle.t) :=
  match current with
  | VehicleVerificationStatus.REJECTED => Some REVIEW_RESET
  | VehicleVerificationStatus.PENDING => None
  | VehicleVerificationStatus.APPROVED =>
      if bool_decide (change = PRIMARY_PHOTO) && negb REQUEUE_APPROVED_ON_PHOTO_CHANGE then None else Some REVIEW_RESET
  end.

(** [{ ...edit, ...(reviewReset ?? {}) }] *)
Definition withReset (reset : option (Vehicle.t -> Vehicle.t)) (v : Vehicle.t) : Vehicle.t :=
  match reset with Some f => f v | None => v end.

(** ** Vehicles *)

Module UpdateVehicleDetailsInput.
Record t := { brand : string; model_num : string; model_name : string; type : VehicleType.t; color : string; year : Z }.
End UpdateVehicleDetailsInput.

Module VehicleDocumentResponse.
Record t := {
  id : string;
  documentType : DocumentType.t;
  previewKey : option string;
  image : option string;
  storageMissing : bool;
  createdAt : Z;
}.
End VehicleDocumentResponse.

Module VehicleView.
Record t := {
  vehicle : Vehicle.t;
  hasMissingDocuments : bool;
  missingDocumentTypes : list DocumentType.t;
  documents : list VehicleDocumentResponse.t;
}.
End VehicleView.

Module VehiclePage.
Record t := { vehicles : list VehicleView.t; page : Z; limit : Z; total : Z; totalPages : Z }.
End VehiclePage.

(** An image changed or not: the key that was stored before. *)
Module ImageResult.
Record t := { success : bool; previousImageKey : option string }.
End ImageResult.

Definition ownActive (userId : string) (v : Vehicle.t) : bool :=
  bool_decide (Vehicle.userId v = userId) && bool_decide (Vehicle.deletedAt v = None).

Definition countActive (userId : string) : H nat :=
  get (fun s => length (where_ prisma.vehicle (ownActive userId) (St.db s))).

Definition findOwned (userId vehicleId : string) : H (option Vehicle.t) :=
  findById prisma.vehicle vehicleId (ownActive userId).

Definition mapVehicleDocument (doc : VehicleDocument.t) : VehicleDocumentResponse.t := {|
  VehicleDocumentResponse.id := VehicleDocument.id doc;
  VehicleDocumentResponse.documentType := VehicleDocument.documentType doc;
  VehicleDocumentResponse.previewKey := VehicleDocument.imageKey doc;
  VehicleDocumentResponse.image := VehicleDocument.image doc;
  VehicleDocumentResponse.storageMissing := bool_decide (is_Some (VehicleDocument.storageMissingAt doc));
  VehicleDocumentResponse.createdAt := VehicleDocument.createdAt doc |}.

Definition documentsOf (vehicleId : string) (d : Db.t) : list VehicleDocument.t :=
  where_ prisma.vehicleDocument (fun doc => bool_decide (VehicleDocument.vehicleId doc = vehicleId)) d.

Definition mapVehicle (d : Db.t) (v : Vehicle.t) : VehicleView.t :=
  let documents := documentsOf (Vehicle.id v) d in
  let missing := map VehicleDocument.documentType
    (List.filter (fun doc => bool_decide (is_Some (VehicleDocument.storageMissingAt doc))) documents) in
  {| VehicleView.vehicle := v;
     VehicleView.hasMissingDocuments := negb (bool_decide (missing = []));
     VehicleView.missingDocumentTypes := missing;
     VehicleView.documents := map mapVehicleDocument documents |}.

Section service.
Context `{Env}.

Definition createVehicle (userId licenseCountry licenseNumber : string) : H Vehicle.t :=
  count ← countActive userId;
  throw_if (MAX_VEHICLES_PER_USER <=? count)%nat "MAX_VEHICLE_LIMIT_REACHED";;
  id ← randomUUID;
  create prisma.vehicle id (Vehicle.defaults id now
    <| Vehicle.userId := userId |> <| Vehicle.licenseCountry := licenseCountry |>
    <| Vehicle.licenseNumber := licenseNumber |>).

(** What the handlers do once they have read the vehicle [updateOwned] looks up. *)
Definition updateOwned (userId vehicleId : string) (k : Vehicle.t -> H Vehicle.t) : H Vehicle.t :=
  vehicle ← findOwned userId vehicleId;
  match vehicle with None => throw "VEHICLE_NOT_FOUND" | Some vehicle => k vehicle end.

Definition writePlate (vehicleId licenseCountry licenseNumber : string) (vehicle : Vehicle.t) : H Vehicle.t :=
  let reviewReset := buildReviewReset (Vehicle.verificationStatus vehicle) LICENSE_PLATE in
  update prisma.vehicle vehicleId (fun v => withReset reviewReset
    (v <| Vehicle.licenseCountry := licenseCountry |> <| Vehicle.licenseNumber := licenseNumber |>)).

Definition updateCreateVehicle (userId vehicleId licenseCountry licenseNumber : string) : H Vehicle.t :=
  updateOwned userId vehicleId (writePlate vehicleId licenseCountry licenseNumber).

Definition writeDetails (vehicleId : string) (input : UpdateVehicleDetailsInput.t) (vehicle : Vehicle.t) : H Vehicle.t :=
  let reviewReset := buildReviewReset (Vehicle.verificationStatus vehicle) VEHICLE_DETAILS in
  update prisma.vehicle vehicleId (fun v => withReset reviewReset
    (v <| Vehicle.brand := Some (UpdateVehicleDetailsInput.brand input) |>
       <| Vehicle.model_num := Some (UpdateVehicleDetailsInput.model_num input) |>
       <| Vehicle.model_name := Some (UpdateVehicleDetailsInput.model_name input) |>
       <| Vehicle.type := Some (UpdateVehicleDetailsInput.type input) |>
       <| Vehicle.color := Some (UpdateVehicleDetailsInput.color input) |>
       <| Vehicle.year := Some (UpdateVehicleDetailsInput.year input) |>)).

Definition updateVehicleDetailService (userId vehicleId : string) (input : UpdateVehicleDetailsInput.t) : H Vehicle.t :=
  updateOwned userId vehicleId (writeDetails vehicleId input).

(** Its one caller passes the address and the key of a confirmed image. *)
Definition updateVehicle (userId vehicleId imageUrl imageKey : string) : H ImageResult.t :=
  vehicle ← findOwned userId vehicleId;
  match vehicle with
  | None => mret {| ImageResult.success := false; ImageResult.previousImageKey := None |}
  | Some vehicle =>
      let reviewReset := buildReviewReset (Vehicle.verificationStatus vehicle) PRIMARY_PHOTO in
      update prisma.vehicle vehicleId (fun v => withReset reviewReset
        (v <| Vehicle.imageUrl := Some imageUrl |> <| Vehicle.imageKey := Some imageKey |>));;
      mret {| ImageResult.success := true; ImageResult.previousImageKey := Vehicle.imageKey vehicle |}
  end.

Definition clearVehicleImage (userId vehicleId : string) : H ImageResult.t :=
  vehicle ← findOwned userId vehicleId;
  match vehicle with
  | None => mret {| ImageResult.success := false; ImageResult.previousImageKey := None |}
  | Some vehicle =>
      update prisma.vehicle vehicleId (fun v => v <| Vehicle.imageUrl := None |> <| Vehicle.imageKey := None |>);;
      mret {| ImageResult.success := true; ImageResult.previousImageKey := Vehicle.imageKey vehicle |}
  end.

Definition keyedDocument (vehicleId imageKey : string) (doc : VehicleDocument.t) : bool :=
  bool_decide (VehicleDocument.imageKey doc = Some imageKey) && bool_decide (VehicleDocument.vehicleId doc = vehicleId).

Definition findVehicleDocumentByKey (userId vehicleId imageKey : string) : H (option VehicleDocument.t) :=
  get (fun s => head (where_ prisma.vehicleDocument (fun doc =>
    keyedDocument vehicleId imageKey doc &&
    match rows prisma.vehicle (St.db s) !! VehicleDocument.vehicleId doc with
    | Some v => ownActive userId v | None => false end) (St.db s))).

(** [...(reviewReset ? [prisma.vehicle.update(...)] : [])] *)
Definition resetReview (vehicleId : string) (reviewReset : option (Vehicle.t -> Vehicle.t)) : H unit :=
  match reviewReset with
  | Some reset => update prisma.vehicle vehicleId reset;; mret tt
  | None => mret tt
  end.

Definition deleteVehicleDocument (userId vehicleId imageKey : string) : H (option VehicleDocument.t) :=
  doc ← findVehicleDocumentByKey userId vehicleId imageKey;
  match doc with
  | None => mret None
  | Some doc =>
      vehicle ← findOwned userId vehicleId;
      let reviewReset := vehicle ≫= fun v =>
        buildReviewReset (Vehicle.verificationStatus v) (changeKindForDocumentType (VehicleDocument.documentType doc)) in
      transaction (remove prisma.vehicleDocument (VehicleDocument.id doc);; resetReview vehicleId reviewReset);;
      mret (Some doc)
  end.

Definition userOwnsVehicle (userId vehicleId : string) : H bool :=
  vehicle ← findOwned userId vehicleId;
  mret (bool_decide (is_Some vehicle)).

Definition newDocument (id vehicleId : string) (image imageKey : option string) (documentType : DocumentType.t) : VehicleDocument.t := {|
  VehicleDocument.id := id;
  VehicleDocument.vehicleId := vehicleId;
  VehicleDocument.image := image;
  VehicleDocument.imageKey := imageKey;
  VehicleDocument.documentType := documentType;
  VehicleDocument.storageMissingAt := None;
  VehicleDocument.storageCheckedAt := None;
  VehicleDocument.createdAt := now |}.

Definition addVehicleDocument (userId vehicleId imageKey : string) (imageUrl : option string) (documentType : DocumentType.t)
    : H VehicleDocument.t :=
  vehicle ← findOwned userId vehicleId;
  match vehicle with
  | None => throw "VEHICLE_NOT_FOUND"
  | Some vehicle =>
      existing ← findFirst prisma.vehicleDocument (keyedDocument vehicleId imageKey);
      match existing with
      | Some existing => mret existing
      | None =>
          let reviewReset := buildReviewReset (Vehicle.verificationStatus vehicle) (changeKindForDocumentType documentType) in
          transaction (
            deleteMany prisma.vehicleDocument (fun doc =>
              bool_decide (VehicleDocument.vehicleId doc = vehicleId) && bool_decide (VehicleDocument.documentType doc = documentType));;
            id ← randomUUID;
            document ← create prisma.vehicleDocument id (newDocument id vehicleId imageUrl (Some imageKey) documentType);
            resetReview vehicleId reviewReset;;
            mret document)
      end
  end.

Definition getVehicle (userId vehicleId : string) : H VehicleView.t :=
  vehicle ← findOwned userId vehicleId;
  match vehicle with
  | None => throw "VEHICLE_NOT_FOUND"
  | Some vehicle => get (fun s => mapVehicle (St.db s) vehicle)
  end.

(** Without an id: a page of the user's vehicles; the routes validate both numbers to be positive. *)
Definition getVehicles (userId : string) (page limit : Z) : H VehiclePage.t :=
  let actualPage := if page =? 0 then 1 else page in
  let actualLimit := if limit =? 0 then 10 else limit in
  get (fun s =>
    let all := sort_desc Vehicle.createdAt (where_ prisma.vehicle (ownActive userId) (St.db s)) in
    let total := Z.of_nat (length all) in
    {| VehiclePage.vehicles := map (mapVehicle (St.db s))
         (take (Z.to_nat actualLimit) (drop (Z.to_nat ((actualPage - 1) * actualLimit)) all));
       VehiclePage.page := actualPage; VehiclePage.limit := actualLimit; VehiclePage.total := total;
       VehiclePage.totalPages := (total + actualLimit - 1) / actualLimit |}).

Definition deleteVehicle (userId vehicleId : string) : H bool :=
  vehicle ← findOwned userId vehicleId;
  match vehicle with
  | None => throw "VEHICLE_NOT_FOUND"
  | Some _ => update prisma.vehicle vehicleId (fun v => v <| Vehicle.deletedAt := Some now |>);; mret true
  end.

(** ** The administrator's decision *)

(** The row and its owner; a vehicle has one, by its foreign key. *)
Definition loadVehicle (vehicleId : string) : H User.t :=
  vehicle ← findUnique prisma.vehicle vehicleId;
  match vehicle with
  | None => throw "VEHICLE_NOT_FOUND"
  | Some vehicle => findUniqueOrThrow prisma.user (Vehicle.userId vehicle)
  end.

Definition verifyVehicle (vehicleId : string) (reviewedById : option string) : H Vehicle.t :=
  user ← loadVehicle vehicleId;
  updated ← update prisma.vehicle vehicleId (fun v =>
    v <| Vehicle.isVerified := true |> <| Vehicle.verificationStatus := VehicleVerificationStatus.APPROVED |>
      <| Vehicle.rejectionReason := None |> <| Vehicle.reviewedAt := Some now |> <| Vehicle.reviewedById := reviewedById |>);
  notifyAdminVerificationChange user "vehicle.approved" "Deliivo: vehicle approved";;
  mret updated.

Definition rejectVehicle (vehicleId reason : string) (reviewedById : option string) : H Vehicle.t :=
  user ← loadVehicle vehicleId;
  updated ← update prisma.vehicle vehicleId (fun v =>
    v <| Vehicle.isVerified := false |> <| Vehicle.verificationStatus := VehicleVerificationStatus.REJECTED |>
      <| Vehicle.rejectionReason := Some reason |> <| Vehicle.reviewedAt := Some now |> <| Vehicle.reviewedById := reviewedById |>);
  notifyAdminVerificationChange user "vehicle.rejected" "Deliivo: vehicle review update";;
  mret updated.
End service.

(** ** Keys of stored objects *)

Definition PERMANENT_PREFIX : string := "uploads".
Definition PRIVATE_FOLDER : string := "vehicle-documents".

(** [s.split(sep)] for one character *)
Fixpoint splitOn (sep : Ascii.ascii) (s : string) : list string :=
  match s with
  | EmptyString => [EmptyString]
  | String c s' =>
      if Ascii.eqb c sep then EmptyString :: splitOn sep s'
      else match splitOn sep s' with piece :: rest => String c piece :: rest | [] => [String c EmptyString] end
  end.

Definition slash : Ascii.ascii := Ascii.ascii_of_nat 47.
Definition questionMark : Ascii.ascii := Ascii.ascii_of_nat 63.
Definition percent : Ascii.ascii := Ascii.ascii_of_nat 37.

(** What a byte says about the bytes that follow it in UTF-8: how many, and the range of the first. *)
Definition leadByte (n : nat) : option (nat * nat * nat) :=
  if (n <? 128)%nat then Some (0, 0, 0)%nat
  else if (n <? 194)%nat then None
  else if (n <? 224)%nat then Some (1, 128, 191)%nat
  else if (n =? 224)%nat then Some (2, 160, 191)%nat
  else if (n =? 237)%nat then Some (2, 128, 159)%nat
  else if (n <? 240)%nat then Some (2, 128, 191)%nat
  else if (n =? 240)%nat then Some (3, 144, 191)%nat
  else if (n <? 244)%nat then Some (3, 128, 191)%nat
  else if (n =? 244)%nat then Some (3, 128, 143)%nat
  else None.

(** [more] escapes are still to come of the character begun, the next between [lo] and [hi]. *)
Fixpoint decodeEscapes (l : list Ascii.ascii) (more lo hi : nat) : option (list Ascii.ascii) :=
  match l with
  | [] => if (more =? 0)%nat then Some [] else None
  | c :: rest =>
      if Ascii.eqb c percent then
        match rest with
        | a :: b :: rest =>
            match hexDigit a, hexDigit b with
            | Some x, Some y =>
                let n := (x * 16 + y)%nat in
                match more with
                | O => match leadByte n with
                       | Some (more, lo, hi) => cons (Ascii.ascii_of_nat n) <$> decodeEscapes rest more lo hi
                       | None => None
                       end
                | S more => if (lo <=? n)%nat && (n <=? hi)%nat then cons (Ascii.ascii_of_nat n) <$> decodeEscapes rest more 128 191
                            else None
                end
            | _, _ => None
            end
        | _ => None
        end
      else match more with O => cons c <$> decodeEscapes rest O lo hi | S _ => None end
  end.

(** [decodeURIComponent(s)], [None] where it throws. *)
Definition decodeURIComponent (s : string) : option string := string_of <$> decodeEscapes (chars s) 0 0 0.

Example escapes_decoded :
  map decodeURIComponent ["a%20b"; "%C3%a9"; "%E2%82%AC"; "%F0%9F%98%80"; "%C3"; "%ED%A0%80"; "50%"]%string =
  [Some "a b"; Some "é"; Some "€"; Some "😀"; None; None; None]%string.
Proof. vm_compute. reflexivity. Qed.

(** [url.slice(url.indexOf('/uploads/') + 1)] *)
Fixpoint afterMarker (url : string) : option string :=
  if String.prefix ("/" +:+ PERMANENT_PREFIX +:+ "/") url then
    match url with String _ rest => Some rest | EmptyString => None end
  else match url with String _ rest => afterMarker rest | EmptyString => None end.

Definition keyFromPublicUrl (url : string) : option string :=
  match afterMarker url with
  | None => None
  | Some raw =>
      let raw := default EmptyString (head (splitOn questionMark raw)) in
      Some (default raw (decodeURIComponent raw))
  end.

Definition isPrivateKey (key : string) : bool :=
  bool_decide (splitOn slash key !! 1%nat = Some PRIVATE_FOLDER) && bool_decide (head (splitOn slash key) = Some PERMANENT_PREFIX).

Definition buildPrivateKey (ownerId sourceKey : string) : string :=
  let filename := default sourceKey (last (splitOn slash sourceKey)) in
  PERMANENT_PREFIX +:+ "/" +:+ PRIVATE_FOLDER +:+ "/" +:+ ownerId +:+ "/" +:+ filename.

(** What the bucket holds when it is asked, by the number of calls made before. *)
Class Storage := { objectExists : nat -> string -> bool }.

Module DocumentSource.
Record t := { imageUrl : option string; imageKey : option string }.
End DocumentSource.

(** ** Drafts *)

Module DraftDocument.
Record t := { documentType : DocumentType.t; imageUrl : option string; imageKey : option string }.
End DraftDocument.

Module DraftVehicle.
Record t := {
  userId : string;
  step : Z;
  createdAt : Z;
  updatedAt : Z;
  licenseCountry : option string;
  licenseNumber : option string;
  brand : option string;
  model_num : option string;
  model_name : option string;
  type : option VehicleType.t;
  color : option string;
  year : option Z;
  documents : list DraftDocument.t;
}.
#[global] Instance t_eta : Eta t := fun r => Build_t
  (userId r) (step r) (createdAt r) (updatedAt r) (licenseCountry r) (licenseNumber r) (brand r) (model_num r)
  (model_name r) (type r) (color r) (year r) (documents r).
End DraftVehicle.

(** The database and the drafts in Redis, with their expiry. *)
Module VehicleSt.
Record t := { st : St.t; drafts : gmap string (DraftVehicle.t * Z) }.
#[global] Instance t_eta : Eta t := fun r => Build_t (st r) (drafts r).
End VehicleSt.

Notation V := (M VehicleSt.t).

(** A step on the database alone. *)
Definition onStore {A} (m : H A) : V A := fun s =>
  let '(st, r) := m (VehicleSt.st s) in (s <| VehicleSt.st := st |>, r).

Definition VEHICLE_DRAFT_TTL : Z := 30 * 60.

(** The new document takes the place of the first of its type. *)
Fixpoint putDocument (doc : DraftDocument.t) (documents : list DraftDocument.t) : list DraftDocument.t :=
  match documents with
  | [] => [doc]
  | d :: rest =>
      if decide (DraftDocument.documentType d = DraftDocument.documentType doc) then doc :: rest else d :: putDocument doc rest
  end.

Section storage.
Context `{Env} `{Storage}.

Definition headObject (key : string) : H bool :=
  n ← get (fun s => length (St.fx s));
  call (HeadObject key);;
  mret (objectExists n key).

Definition promoteObject (tmpKey permanentKey : string) (isPublic : bool) : H unit :=
  perform (PromoteObject tmpKey permanentKey isPublic).

(** [imageKey || (imageUrl ? keyFromPublicUrl(imageUrl) : null)], and [null] when that is empty. *)
Definition locator (imageKey imageUrl : option string) : option string :=
  match truthy imageKey with
  | Some key => Some key
  | None => truthy (truthy imageUrl ≫= keyFromPublicUrl)
  end.

Definition normalizeDocumentSource (ownerId : string) (documentType : DocumentType.t) (source : DocumentSource.t) : H DocumentSource.t :=
  if negb (isPrivateDocumentType documentType) then
    mret {| DocumentSource.imageUrl := DocumentSource.imageUrl source; DocumentSource.imageKey := None |}
  else
    let currentKey := match DocumentSource.imageKey source with
                      | Some key => Some key
                      | None => truthy (DocumentSource.imageUrl source) ≫= keyFromPublicUrl
                      end in
    match truthy currentKey with
    | None => throw "PRIVATE_DOCUMENT_KEY_UNRESOLVED"
    | Some currentKey =>
        if isPrivateKey currentKey then
          mret {| DocumentSource.imageUrl := None; DocumentSource.imageKey := Some currentKey |}
        else
          let privateKey := buildPrivateKey ownerId currentKey in
          try_catch (promoteObject currentKey privateKey false) (fun _ => throw "PRIVATE_DOCUMENT_REKEY_FAILED");;
          mret {| DocumentSource.imageUrl := None; DocumentSource.imageKey := Some privateKey |}
    end.

(** The types of the documents the bucket says it does not hold; a call that fails is logged. *)
Fixpoint findMissingDocumentObjects (documents : list DraftDocument.t) : H (list DocumentType.t) :=
  match documents with
  | [] => mret []
  | doc :: rest =>
      missing ← match locator (DraftDocument.imageKey doc) (DraftDocument.imageUrl doc) with
                | None => mret []
                | Some key =>
                    try_catch (exists_ ← headObject key;
                               mret (if exists_ : bool then [] else [DraftDocument.documentType doc]))
                      (fun _ => mret [])
                end;
      others ← findMissingDocumentObjects rest;
      mret (missing ++ others)
  end.
End storage.

Section draft.
Context `{Env}.

Definition getDraft (userId : string) : V DraftVehicle.t := fun s =>
  (s, match VehicleSt.drafts s !! userId with
      | Some (draft, expiry) => if now <=? expiry then Ok draft else Err "DRAFT_NOT_FOUND"
      | None => Err "DRAFT_NOT_FOUND"
      end).

Definition getActiveDraft (userId : string) : V (option DraftVehicle.t) :=
  try_catch (draft ← getDraft userId; mret (Some draft))
    (fun e => if decide (e = "DRAFT_NOT_FOUND"%string) then mret None else throw e).

Definition saveDraft (draft : DraftVehicle.t) : V DraftVehicle.t := fun s =>
  let draft := draft <| DraftVehicle.updatedAt := now |> in
  (s <| VehicleSt.drafts ::= <[DraftVehicle.userId draft := (draft, now + VEHICLE_DRAFT_TTL * 1000)]> |>, Ok draft).

Definition delDraft (userId : string) : V unit := modify (fun s => s <| VehicleSt.drafts ::= delete userId |>).

Definition createWithLicense (userId licenseCountry licenseNumber : string) : V DraftVehicle.t :=
  delDraft userId;;
  saveDraft {| DraftVehicle.userId := userId; DraftVehicle.step := 1; DraftVehicle.createdAt := now;
    DraftVehicle.updatedAt := now; DraftVehicle.licenseCountry := Some licenseCountry;
    DraftVehicle.licenseNumber := Some licenseNumber; DraftVehicle.brand := None; DraftVehicle.model_num := None;
    DraftVehicle.model_name := None; DraftVehicle.type := None; DraftVehicle.color := None; DraftVehicle.year := None;
    DraftVehicle.documents := [] |}.

Definition updateVehicleDetails (userId : string) (input : UpdateVehicleDetailsInput.t) : V DraftVehicle.t :=
  draft ← getDraft userId;
  saveDraft (draft
    <| DraftVehicle.brand := Some (UpdateVehicleDetailsInput.brand input) |>
    <| DraftVehicle.model_num := Some (UpdateVehicleDetailsInput.model_num input) |>
    <| DraftVehicle.model_name := Some (UpdateVehicleDetailsInput.model_name input) |>
    <| DraftVehicle.type := Some (UpdateVehicleDetailsInput.type input) |>
    <| DraftVehicle.color := Some (UpdateVehicleDetailsInput.color input) |>
    <| DraftVehicle.year := Some (UpdateVehicleDetailsInput.year input) |>
    <| DraftVehicle.step ::= Z.max 2 |>).

Definition addDocument (userId : string) (documentType : DocumentType.t) (source : DocumentSource.t) : V DraftVehicle.t :=
  draft ← getDraft userId;
  saveDraft (draft
    <| DraftVehicle.documents ::= putDocument {| DraftDocument.documentType := documentType;
         DraftDocument.imageUrl := DocumentSource.imageUrl source; DraftDocument.imageKey := DocumentSource.imageKey source |} |>
    <| DraftVehicle.step ::= Z.max 3 |>).
End draft.

(** ** Saving a draft *)

Section save.
Context `{Env} `{Storage} `{Eligibility.EligibilityEnv}.

(** The handler of the route: the source is normalised before it is stored. *)
Definition uploadDraftDocument (userId : string) (documentType : DocumentType.t) (source : DocumentSource.t) : V DraftVehicle.t :=
  normalized ← onStore (normalizeDocumentSource userId documentType source);
  addDocument userId documentType normalized.

Definition document_type_name (t : DocumentType.t) : string :=
  match t with
  | DocumentType.VEHICLE_IMAGE => "VEHICLE_IMAGE"
  | DocumentType.VEHICLE_IMAGE_FRONT => "VEHICLE_IMAGE_FRONT"
  | DocumentType.VEHICLE_IMAGE_BACK => "VEHICLE_IMAGE_BACK"
  | DocumentType.VEHICLE_DOCUMENT => "VEHICLE_DOCUMENT"
  | DocumentType.DRIVING_LICENSE => "DRIVING_LICENSE"
  | DocumentType.INSURANCE_DOCUMENT => "INSURANCE_DOCUMENT"
  end.

Definition namesOf (types : list DocumentType.t) : string := String.concat "," (map document_type_name types).

Definition missingRequired (documents : list DraftDocument.t) : list DocumentType.t :=
  List.filter (fun type => negb (bool_decide (type ∈ map DraftDocument.documentType documents))) REQUIRED_DOCUMENT_TYPES.

Definition shouldAutoVerifyVehicle : bool := bool_decide (Eligibility.SKIP_VEHICLE_VERIFICATION = Some "true"%string).

(** The row of a document: one of a private type never keeps an address. *)
Definition savedDocument (vehicleId : string) (doc : DraftDocument.t) (id : string) : VehicleDocument.t :=
  newDocument id vehicleId
    (if isPrivateDocumentType (DraftDocument.documentType doc) then None else DraftDocument.imageUrl doc)
    (DraftDocument.imageKey doc) (DraftDocument.documentType doc).

(** [year || null] *)
Definition truthyYear (year : option Z) : option Z := match year with Some 0 => None | _ => year end.

Definition savedVehicle (userId : string) (draft : DraftVehicle.t) (licenseCountry licenseNumber id : string) : Vehicle.t :=
  let vehicleImage := List.find (fun d => isPrimaryImageDocumentType (DraftDocument.documentType d)) (DraftVehicle.documents draft) in
  Vehicle.defaults id now
    <| Vehicle.userId := userId |>
    <| Vehicle.licenseCountry := licenseCountry |> <| Vehicle.licenseNumber := licenseNumber |>
    <| Vehicle.brand := truthy (DraftVehicle.brand draft) |> <| Vehicle.model_num := truthy (DraftVehicle.model_num draft) |>
    <| Vehicle.model_name := truthy (DraftVehicle.model_name draft) |> <| Vehicle.type := DraftVehicle.type draft |>
    <| Vehicle.color := truthy (DraftVehicle.color draft) |> <| Vehicle.year := truthyYear (DraftVehicle.year draft) |>
    <| Vehicle.imageUrl := truthy (vehicleImage ≫= DraftDocument.imageUrl) |>
    <| Vehicle.isVerified := shouldAutoVerifyVehicle |>
    <| Vehicle.verificationStatus := if shouldAutoVerifyVehicle then VehicleVerificationStatus.APPROVED else VehicleVerificationStatus.PENDING |>
    <| Vehicle.reviewedAt := if shouldAutoVerifyVehicle then Some now else None |>.

(** One nested [create]: the vehicle and the rows of its documents. *)
Definition createWithDocuments (mk : string -> Vehicle.t) (documents : list DraftDocument.t) : H Vehicle.t :=
  transaction (
    id ← randomUUID;
    vehicle ← create prisma.vehicle id (mk id);
    for_each documents (fun doc =>
      docId ← randomUUID;
      create prisma.vehicleDocument docId (savedDocument id doc docId);;
      mret tt);;
    mret vehicle).

(** The checks on the draft before anything is asked of the bucket. *)
Definition checkDraft (userId : string) (draft : DraftVehicle.t) : H (string * string) :=
  match truthy (DraftVehicle.licenseCountry draft), truthy (DraftVehicle.licenseNumber draft) with
  | Some licenseCountry, Some licenseNumber =>
      user ← findUnique prisma.user userId;
      match user with
      | None => throw "USER_NOT_FOUND"
      | Some user =>
          count ← countActive userId;
          throw_if (MAX_VEHICLES_PER_USER <=? count)%nat "MAX_VEHICLE_LIMIT_REACHED";;
          when (requiresFullDocumentSet licenseCountry) (
            let missing := missingRequired (DraftVehicle.documents draft) in
            throw_if (negb (bool_decide (missing = []))) ("VEHICLE_DOCUMENTS_REQUIRED:" +:+ namesOf missing);;
            when (negb (User.dlVerified user)) (
              onFile ← hasDlDocumentOnFile userId;
              throw_if (negb onFile) "DL_DOCUMENT_REQUIRED"));;
          mret (licenseCountry, licenseNumber)
      end
  | _, _ => throw "LICENSE_REQUIRED"
  end.

Definition saveVehicle (userId : string) : V Vehicle.t :=
  draft ← getDraft userId;
  plate ← onStore (checkDraft userId draft);
  let '(licenseCountry, licenseNumber) := (plate : string * string) in
  missingObjects ← onStore (findMissingDocumentObjects (DraftVehicle.documents draft));
  throw_if (negb (bool_decide (missingObjects = []))) ("VEHICLE_DOCUMENT_MISSING:" +:+ namesOf missingObjects);;
  vehicle ← onStore (createWithDocuments (savedVehicle userId draft licenseCountry licenseNumber)
    (List.filter (fun doc => negb (isPrimaryImageDocumentType (DraftDocument.documentType doc))) (DraftVehicle.documents draft)));
  delDraft userId;;
  mret vehicle.
End save.

(** ** The audit of the documents' files *)

Definition DEFAULT_BATCH_SIZE : Z := 200.
Definition DEFAULT_RECHECK_AFTER_HOURS : Z := 20.

Module AuditOptions.
Record t := { limit : option Z; batchSize : Z; recheckAfterHours : Z; dryRun : bool; notify : bool }.
Definition defaults : t := {|
  limit := None; batchSize := DEFAULT_BATCH_SIZE; recheckAfterHours := DEFAULT_RECHECK_AFTER_HOURS;
  dryRun := false; notify := true |}.
End AuditOptions.

(** [missingByDocumentType] in the order the types were first met. *)
Module AuditSummary.
Record t := {
  checked : Z;
  missing : Z;
  recovered : Z;
  inconclusive : Z;
  vehiclesNotified : Z;
  missingByDocumentType : list (DocumentType.t * Z);
}.
#[global] Instance t_eta : Eta t := fun r => Build_t
  (checked r) (missing r) (recovered r) (inconclusive r) (vehiclesNotified r) (missingByDocumentType r).
Definition zero : t := {| checked := 0; missing := 0; recovered := 0; inconclusive := 0; vehiclesNotified := 0;
  missingByDocumentType := [] |}.
End AuditSummary.

Inductive Verdict := present | missing.

#[global] Instance Verdict_eq_dec : EqDecision Verdict.
Proof. solve_decision. Defined.

Definition resolveDocumentKey (doc : VehicleDocument.t) : option string :=
  locator (VehicleDocument.imageKey doc) (VehicleDocument.image doc).

Fixpoint countType (type : DocumentType.t) (counts : list (DocumentType.t * Z)) : list (DocumentType.t * Z) :=
  match counts with
  | [] => [(type, 1)]
  | (t, n) :: rest => if decide (t = type) then (t, n + 1) :: rest else (t, n) :: countType type rest
  end.

(** [touchedVehicles.add(id)] *)
Definition addTouched (id : string) (touched : list string) : list string :=
  if decide (id ∈ touched) then touched else touched ++ [id].

(** The order [storageCheckedAt: 'asc'] of Postgres: rows that were never checked lead. *)
Definition neverFirst (documents : list VehicleDocument.t) : list VehicleDocument.t :=
  List.filter (fun doc => bool_decide (VehicleDocument.storageCheckedAt doc = None)) documents ++
  sort_by (fun doc => default 0 (VehicleDocument.storageCheckedAt doc))
    (List.filter (fun doc => negb (bool_decide (VehicleDocument.storageCheckedAt doc = None))) documents).

(** What a pass carries along: the summary and the vehicles touched. *)
Notation Pass := (AuditSummary.t * list string)%type.

Section audit.
Context `{Env} `{Storage}.

(** A verdict, [None] when the bucket could not be asked. *)
Definition checkDocument (doc : VehicleDocument.t) : H (option Verdict) :=
  match resolveDocumentKey doc with
  | None => mret (Some missing)
  | Some key =>
      try_catch (exists_ ← headObject key; mret (Some (if exists_ : bool then present else missing)))
        (fun _ => mret None)
  end.

Definition recordVerdict (verdict : Verdict) (doc : VehicleDocument.t) : VehicleDocument.t :=
  doc <| VehicleDocument.storageCheckedAt := Some now |>
      <| VehicleDocument.storageMissingAt :=
           match verdict with missing => Some (default now (VehicleDocument.storageMissingAt doc)) | present => None end |>.

Definition tally (verdict : option Verdict) (doc : VehicleDocument.t) (summary : AuditSummary.t) : AuditSummary.t :=
  let summary := summary <| AuditSummary.checked ::= Z.succ |> in
  match verdict with
  | None => summary <| AuditSummary.inconclusive ::= Z.succ |>
  | Some missing =>
      summary <| AuditSummary.missing ::= Z.succ |>
              <| AuditSummary.missingByDocumentType ::= countType (VehicleDocument.documentType doc) |>
  | Some present =>
      if bool_decide (is_Some (VehicleDocument.storageMissingAt doc))
      then summary <| AuditSummary.recovered ::= Z.succ |> else summary
  end.

(** One row. The stored time of discovery is the one read with the page; a row read once per
    pass still has it. *)
Definition auditDocument (dryRun : bool) (pass : Pass) (doc : VehicleDocument.t) : H Pass :=
  let '(summary, touched) := pass in
  verdict ← checkDocument doc;
  match verdict with
  | None => mret (tally None doc summary, touched)
  | Some verdict =>
      (if dryRun then mret tt
       else (update prisma.vehicleDocument (VehicleDocument.id doc) (fun row =>
               let stamped := recordVerdict verdict doc in
               row <| VehicleDocument.storageCheckedAt := VehicleDocument.storageCheckedAt stamped |>
                   <| VehicleDocument.storageMissingAt := VehicleDocument.storageMissingAt stamped |>);; mret tt));;
      mret (tally (Some verdict) doc summary, addTouched (VehicleDocument.vehicleId doc) touched)
  end.

Fixpoint auditPage (dryRun : bool) (documents : list VehicleDocument.t) (pass : Pass) : H Pass :=
  match documents with
  | [] => mret pass
  | doc :: rest => pass ← auditDocument dryRun pass doc; auditPage dryRun rest pass
  end.

(** The rows a pass takes: of vehicles that are not deleted, without a recent verdict. *)
Definition auditable (staleBefore : Z) (d : Db.t) (doc : VehicleDocument.t) : bool :=
  match rows prisma.vehicle d !! VehicleDocument.vehicleId doc with
  | Some v => bool_decide (Vehicle.deletedAt v = None)
  | None => false
  end &&
  match VehicleDocument.storageCheckedAt doc with None => true | Some t => t <? staleBefore end.

Definition auditQuery (staleBefore take_ : Z) (d : Db.t) : list VehicleDocument.t :=
  take (Z.to_nat take_) (neverFirst (where_ prisma.vehicleDocument (auditable staleBefore d) d)).

(** [while (limit === undefined || summary.checked < limit)]: [None] when the rounds allowed
    are used up. *)
Fixpoint auditLoop (rounds : nat) (o : AuditOptions.t) (staleBefore : Z) (pass : Pass) : H (option Pass) :=
  match rounds with
  | O => mret None
  | S rounds =>
      let checked := AuditSummary.checked pass.1 in
      if match AuditOptions.limit o with Some limit => limit <=? checked | None => false end then mret (Some pass)
      else
        let take_ := match AuditOptions.limit o with
                     | None => AuditOptions.batchSize o
                     | Some limit => Z.min (AuditOptions.batchSize o) (limit - checked)
                     end in
        documents ← get (fun s => auditQuery staleBefore take_ (St.db s));
        if bool_decide (documents = []) then mret (Some pass)
        else
          pass ← auditPage (AuditOptions.dryRun o) documents pass;
          if Z.of_nat (length documents) <? take_ then mret (Some pass)
          else auditLoop rounds o staleBefore pass
  end.

(** The message; a failure is logged and the stamp stays. *)
Definition notifyOwner (vehicleId : string) : H bool :=
  vehicle ← findUnique prisma.vehicle vehicleId;
  match vehicle with
  | None => mret false
  | Some vehicle =>
      if bool_decide (is_Some (Vehicle.documentIssueNotifiedAt vehicle)) then mret false
      else
        user ← findUniqueOrThrow prisma.user (Vehicle.userId vehicle);
        update prisma.vehicle vehicleId (fun v => v <| Vehicle.documentIssueNotifiedAt := Some now |>);;
        attempt (
          createNotification (User.id user) "vehicle.document.missing";;
          match truthy (User.email user) with
          | Some email => perform (SendMail email "Deliivo: Vehicle document did not reach us")
          | None => mret tt
          end);;
        mret true
  end.

Definition settleVehicle (vehicleId : string) (missingTypes : list DocumentType.t) (notify : bool) : H bool :=
  vehicle ← findUnique prisma.vehicle vehicleId;
  match vehicle with
  | None => mret false
  | Some vehicle =>
      if bool_decide (missingTypes = []) then
        (if bool_decide (is_Some (Vehicle.documentIssueNotifiedAt vehicle))
         then update prisma.vehicle vehicleId (fun v => v <| Vehicle.documentIssueNotifiedAt := None |>);; mret tt
         else mret tt);;
        mret false
      else if negb notify then mret false
      else notifyOwner vehicleId
  end.

Fixpoint settleAll (vehicles : list string) (notify : bool) (summary : AuditSummary.t) : H AuditSummary.t :=
  match vehicles with
  | [] => mret summary
  | vehicleId :: rest =>
      stillMissing ← findMany prisma.vehicleDocument (fun doc =>
        bool_decide (VehicleDocument.vehicleId doc = vehicleId) && bool_decide (is_Some (VehicleDocument.storageMissingAt doc)));
      notified ← settleVehicle vehicleId (map VehicleDocument.documentType stillMissing) notify;
      settleAll rest notify (if notified : bool then summary <| AuditSummary.vehiclesNotified ::= Z.succ |> else summary)
  end.

Definition auditVehicleDocuments (rounds : nat) (o : AuditOptions.t) : H (option AuditSummary.t) :=
  let staleBefore := now - AuditOptions.recheckAfterHours o * 60 * 60 * 1000 in
  done ← auditLoop rounds o staleBefore (AuditSummary.zero, []);
  match done with
  | None => mret None
  | Some (summary, touched) =>
      if AuditOptions.dryRun o then mret (Some summary)
      else summary ← settleAll touched (AuditOptions.notify o) summary; mret (Some summary)
  end.
End audit.
