(* ===== verification/Draft.v ===== *)
(** * Drafts of rides

    Models [modules/publish-ride/draft-ride.service.ts] up to publishing, with
    [waypoint-time.utils.ts]: a driver's draft is kept in Redis for an hour and filled in
    step by step.  Its geometry is in [Route] and its publishing in [Publish]; the towns it
    suggests along the route, which it does not store, are not modelled.  A draft is stored as
    JSON, here as its record; Google's answers are parameters, [None] where the request
    fails.  Redis answers every command here: the source lets a command that fails escape as
    its error, before a draft is stored, or after a ride was published beside its draft. *)

From Stdlib Require Import ZArith QArith Lia.
From stdpp Require Import base list option strings pretty gmap.
From S2P Require Import Prelude JsNumber JsText Money Schema Store Seats Time Segment Pricing Gateway RideRequest RideOps Route.
From S2P Require Import Eligibility.

Open Scope Z_scope.

Import Eligibility.

Module DraftRide.

Definition DRAFT_TTL : Z := 3600.
Definition ROUTES_TTL : Z := 300.
Definition MAX_STOPOVER_POINTS : nat := 3.
Definition MAX_ORIGIN_PICKUP_POINTS : nat := 3.
Definition MAX_DESTINATION_DROPOFF_POINTS : nat := 3.

Definition BALTIC_COUNTRY_CODES : list string := ["EE"; "LV"; "LT"]%string.
Definition EUROPE_COUNTRY_CODES : list string :=
  ["AL"; "AD"; "AT"; "BY"; "BE"; "BA"; "BG"; "HR"; "CY"; "CZ"; "DK"; "EE"; "FI"; "FR";
   "DE"; "GR"; "HU"; "IS"; "IE"; "IT"; "XK"; "LV"; "LI"; "LT"; "LU"; "MT"; "MD"; "MC";
   "ME"; "NL"; "MK"; "NO"; "PL"; "PT"; "RO"; "SM"; "RS"; "SK"; "SI"; "ES"; "SE"; "CH";
   "UA"; "GB"; "VA"]%string.

(** ** Data *)

Module LocationInput.
Record t := {
  placeId : string;
  address : string;
  lat : num;
  lng : num;
  parentPlaceId : option string;
  parentAddress : option string;
  parentLat : option num;
  parentLng : option num;
  estimatedArrivalTime : option string;
  recommendedPrice : option num;
  minPrice : option num;
  maxPrice : option num;
  driverPricePerSeat : option num;
}.
#[global] Instance t_eta : Eta t := fun r => Build_t
  (placeId r) (address r) (lat r) (lng r) (parentPlaceId r) (parentAddress r) (parentLat r) (parentLng r)
  (estimatedArrivalTime r) (recommendedPrice r) (minPrice r) (maxPrice r) (driverPricePerSeat r).
End LocationInput.

(** [departureDate] is the instant its text stands for. *)
Module Draft.
Record t := {
  userId : string;
  step : Z;
  createdAt : Z;
  updatedAt : Z;
  originPlaceId : option string;
  originAddress : option string;
  originLat : option num;
  originLng : option num;
  pickups : option (list LocationInput.t);
  destinationPlaceId : option string;
  destinationAddress : option string;
  destinationLat : option num;
  destinationLng : option num;
  dropoffs : option (list LocationInput.t);
  routePolyline : option string;
  routeDistanceMeters : option Z;
  routeDurationSeconds : option Z;
  routeDescription : option string;
  routeWarnings : option (list string);
  routeIsPublishable : option bool;
  routeBlockedReason : option string;
  stopovers : option (list LocationInput.t);
  departureDate : option Z;
  departureTime : option string;
  totalSeats : option Z;
  basePricePerSeat : option num;
  currency : option string;
  vehicleId : option string;
  maxLuggagePerPerson : option Z;
  backSeatOnly : option bool;
  noSmoking : option bool;
  alcoholFreeRide : option bool;
  noBicycles : option bool;
  childSeatAvailable : option bool;
  notes : option string;
  femaleOnly : option bool;
}.
#[global] Instance t_eta : Eta t := fun r => Build_t
  (userId r) (step r) (createdAt r) (updatedAt r) (originPlaceId r) (originAddress r) (originLat r)
  (originLng r) (pickups r) (destinationPlaceId r) (destinationAddress r) (destinationLat r)
  (destinationLng r) (dropoffs r) (routePolyline r) (routeDistanceMeters r) (routeDurationSeconds r)
  (routeDescription r) (routeWarnings r) (routeIsPublishable r) (routeBlockedReason r) (stopovers r)
  (departureDate r) (departureTime r) (totalSeats r) (basePricePerSeat r) (currency r) (vehicleId r)
  (maxLuggagePerPerson r) (backSeatOnly r) (noSmoking r) (alcoholFreeRide r) (noBicycles r)
  (childSeatAvailable r) (notes r) (femaleOnly r).
End Draft.

Definition newDraft (userId : string) (at_ : Z) : Draft.t := {|
  Draft.userId := userId;
  Draft.step := 1;
  Draft.createdAt := at_;
  Draft.updatedAt := at_;
  Draft.originPlaceId := None;
  Draft.originAddress := None;
  Draft.originLat := None;
  Draft.originLng := None;
  Draft.pickups := None;
  Draft.destinationPlaceId := None;
  Draft.destinationAddress := None;
  Draft.destinationLat := None;
  Draft.destinationLng := None;
  Draft.dropoffs := None;
  Draft.routePolyline := None;
  Draft.routeDistanceMeters := None;
  Draft.routeDurationSeconds := None;
  Draft.routeDescription := None;
  Draft.routeWarnings := None;
  Draft.routeIsPublishable := None;
  Draft.routeBlockedReason := None;
  Draft.stopovers := None;
  Draft.departureDate := None;
  Draft.departureTime := None;
  Draft.totalSeats := None;
  Draft.basePricePerSeat := None;
  Draft.currency := None;
  Draft.vehicleId := None;
  Draft.maxLuggagePerPerson := None;
  Draft.backSeatOnly := None;
  Draft.noSmoking := None;
  Draft.alcoholFreeRide := None;
  Draft.noBicycles := None;
  Draft.childSeatAvailable := None;
  Draft.notes := None;
  Draft.femaleOnly := None |}.

(** The texts of distance and duration are left out. *)
Module RouteOption.
Record t := {
  index : nat;
  polyline : string;
  distanceMeters : Z;
  durationSeconds : option Z;
  description : string;
  warnings : list string;
  isPublishable : bool;
  blockedReason : option string;
}.
End RouteOption.

(** What Google answers. *)
Module AddressComponent.
Record t := { long_name : option string; short_name : option string; types : list string }.
End AddressComponent.

Module RouteStep.
Record t := { instructions : option string; maneuver : option string; travelMode : option string }.
End RouteStep.

Module GoogleRoute.
Record t := {
  distanceMeters : option Z;
  duration : option string;
  encodedPolyline : option string;
  description : option string;
  warnings : list string;
  legs : list (list RouteStep.t);
}.
End GoogleRoute.

(** The services of [maps/google.service.ts] and the Routes API; [parseInt] reads the
    duration, [None] being NaN. *)
Class Google := {
  placeDetails : string -> option (list AddressComponent.t);
  directions : LatLng.t -> LatLng.t -> list LatLng.t -> bool -> option (list GoogleRoute.t);
  parseInt : string -> option Z;
}.

(** [process.env] of publishing *)
Class PublishEnv := {
  GOOGLE_MAPS_MOCK_MODE : bool;
  CITY_POINT_RADIUS_METERS : num;
  STOPOVER_POINT_RADIUS_METERS : num;
  ROUTE_POINT_RADIUS_METERS : num;
}.

(** The database with the drafts and the routes in Redis, and when they expire. *)
Module DraftSt.
Record t := { st : St.t; drafts : gmap string (Draft.t * Z); routes : gmap string (list RouteOption.t * Z) }.
#[global] Instance t_eta : Eta t := fun r => Build_t (st r) (drafts r) (routes r).
End DraftSt.

Notation D := (M DraftSt.t).

Definition lift {A} (m : H A) : D A := fun s =>
  let '(st, r) := m (DraftSt.st s) in (s <| DraftSt.st := st |>, r).

Definition pure {A} (r : Res A) : D A := fun s => (s, r).

(** ** Places *)

Section places.
Context `{Google}.

Definition getPlaceCountryCode (placeId : string) : Res string :=
  match placeDetails placeId with
  | None => Err "LOCATION_COUNTRY_UNVERIFIED"
  | Some address_components =>
      let country := List.find (fun c => existsb (String.eqb "country") (AddressComponent.types c)) address_components in
      match truthy (country ≫= AddressComponent.short_name) with
      | Some code => Ok (toUpperCase code)
      | None => Err "LOCATION_COUNTRY_UNVERIFIED"
      end
  end.

Definition validateBalticPlace (placeId : string) : Res unit :=
  match getPlaceCountryCode placeId with
  | Err e => Err e
  | Ok code => if existsb (String.eqb code) BALTIC_COUNTRY_CODES then Ok tt else Err "LOCATION_OUTSIDE_BALTICS"
  end.

Definition validateEuropeanDestinationPlace (placeId : string) : Res unit :=
  match getPlaceCountryCode placeId with
  | Err e => Err e
  | Ok code => if existsb (String.eqb code) EUROPE_COUNTRY_CODES then Ok tt else Err "DESTINATION_OUTSIDE_EUROPE"
  end.
End places.

(** ** Routes that cannot be driven *)

Definition WATER_ROUTE_KEYWORDS : list string := ["ferry"; "water"; "boat"; "ship"]%string.
Definition ROUTE_BLOCKED_REASON : string := "NON_ROAD_ROUTE_NOT_ALLOWED".

Definition normalizeRouteText (value : option string) : string := toLowerCase (default EmptyString value).

Definition detectBlockedRoute (route : GoogleRoute.t) : bool * option string :=
  let stepHints := flat_map (flat_map (fun step =>
    [normalizeRouteText (RouteStep.instructions step); normalizeRouteText (RouteStep.maneuver step);
     normalizeRouteText (RouteStep.travelMode step)])) (GoogleRoute.legs route) in
  let combinedText := (map (fun warning => normalizeRouteText (Some warning)) (GoogleRoute.warnings route) ++
                       [normalizeRouteText (GoogleRoute.description route)] ++ stepHints)%list in
  let hasWaterSegment := existsb (fun entry => existsb (fun keyword => includes keyword entry) WATER_ROUTE_KEYWORDS) combinedText in
  if hasWaterSegment then (false, Some ROUTE_BLOCKED_REASON) else (true, None).

(** ** Times at the waypoints

    A clock time is [HH:mm] (the validator); of anything else the source computes
    ["NaN:NaN"]. *)
Definition arrivalClock (departureTime : string) (minutes : Z) : string :=
  let '(h, m) := clock_pieces departureTime in
  match integer_of h, integer_of m with
  | Some hours, Some departureMinutes =>
      let arrivalMinutes := hours * 60 + departureMinutes + minutes in
      pad2 (Z.rem (arrivalMinutes / 60) 24) +:+ ":" +:+ pad2 (Z.rem arrivalMinutes 60)
  | _, _ => "NaN:NaN"
  end.

(** [if (!n)] for a count that may be missing *)
Definition truthy_Z (n : option Z) : option Z := match n with Some 0 => None | n => n end.

(** [Math.ceil(seconds / 60)] *)
Definition ceilMinutes (seconds : Z) : Z := math_ceil (ndiv (num_of_Z seconds) (num_of_Z 60)).

Definition calculateWaypointArrivalTimes (departureTime : string) (routeDurationSeconds : option Z) (waypointCount : Z)
    : list string :=
  match truthy_Z routeDurationSeconds with
  | None => [departureTime]
  | Some seconds =>
      if waypointCount <=? 1 then [departureTime]
      else
        let minutesPerSegment := ndiv (num_of_Z (ceilMinutes seconds)) (num_of_Z (waypointCount - 1)) in
        departureTime :: map (fun i => arrivalClock departureTime (math_ceil (nmul minutesPerSegment (num_of_Z i))))
                             (seqZ 1 (waypointCount - 1))
  end.

Definition arrivalTimeAtRouteFraction (departureTime : string) (routeDurationSeconds : Z) (routeFraction : num) : string :=
  let fraction := nmax (num_of_Z 0) (nmin (num_of_Z 1) routeFraction) in
  arrivalClock departureTime (math_ceil (nmul (ndiv (num_of_Z routeDurationSeconds) (num_of_Z 60)) fraction)).

(** ** Steps *)

Module PricingInput.
Record t := {
  basePricePerSeat : num;
  stopoverPricing : option (list (string * num * option string));
}.
End PricingInput.

Module CapacityInput.
Record t := {
  totalSeats : Z;
  maxLuggagePerPerson : option Z;
  backSeatOnly : option bool;
  noSmoking : option bool;
  alcoholFreeRide : option bool;
  noBicycles : option bool;
  childSeatAvailable : option bool;
}.
End CapacityInput.

Module StopoverRecommendedPrice.
Record t := {
  placeId : string;
  address : string;
  distanceFromOriginKm : num;
  fare : StopoverFare.t;
  driverPricePerSeat : option num;
  estimatedArrivalTime : option string;
}.
End StopoverRecommendedPrice.

Module PriceQuote.
Record t := {
  basePricePerSeat : num;
  seats : Z;
  currency : string;
  feeTerms : ServiceFeeTerms.t;
  perSeat : PriceBreakdown.t;
  fullRide : PriceBreakdown.t;
}.
End PriceQuote.

Module PriceRecommendation.
Record t := {
  calculation : PriceCalculation.t;
  currency : string;
  quote : PriceQuote.t;
  estimatedRouteCost : num;
  distanceKm : num;
  pricePerKm : num;
  pricingConfigFallback : bool;
  stopoverPricing : option (list StopoverRecommendedPrice.t);
}.
End PriceRecommendation.

Definition locationOf (p : LocationInput.t) : LatLng.t :=
  {| LatLng.lat := LocationInput.lat p; LatLng.lng := LocationInput.lng p |}.

Definition listOf {A} (l : option (list A)) : list A := default [] l.

(** [String.fromCharCode] of the units of an encoded polyline *)
Definition fromCharCodes (units : list Z) : string := string_of (map (fun u => Ascii.ascii_of_nat (Z.to_nat u)) units).

Definition NEXT_STEP (step : Z) : option string :=
  (match step with
   | 1 => Some "destination"
   | 4 => Some "compute-routes"
   | 7 => Some "stopovers"
   | 8 => Some "schedule"
   | 9 => Some "capacity"
   | 10 => Some "pricing"
   | 12 => Some "notes"
   | 13 => Some "publish"
   | _ => None
   end)%string.

(** The draft without its owner and step, and the next step. *)
Definition formatDraftResponse (draft : Draft.t) : Draft.t * option string :=
  (draft, truthy (NEXT_STEP (Draft.step draft))).

Definition atLeast (step : Z) (draft : Draft.t) : Draft.t := draft <| Draft.step ::= fun s => Z.max s step |>.

Section steps.
Context `{Env} `{EligibilityEnv} `{Google} `{PublishEnv}.

Definition getDraft (userId : string) : D Draft.t := fun s =>
  (s, match DraftSt.drafts s !! userId with
      | Some (draft, expiry) => if now <=? expiry then Ok draft else Err "DRAFT_NOT_FOUND"
      | None => Err "DRAFT_NOT_FOUND"
      end).

Definition saveDraft (draft : Draft.t) : D Draft.t := fun s =>
  let draft := draft <| Draft.updatedAt := now |> in
  (s <| DraftSt.drafts ::= <[Draft.userId draft := (draft, now + DRAFT_TTL * 1000)]> |>, Ok draft).

Definition delDraft (userId : string) : D unit := modify (fun s => s <| DraftSt.drafts ::= delete userId |>).
Definition delRoutes (userId : string) : D unit := modify (fun s => s <| DraftSt.routes ::= delete userId |>).

Definition createWithOrigin (driverId originPlaceId originAddress : string) (originLat originLng : num)
    (pickup : option LocationInput.t) : D Draft.t :=
  lift (assertDriverCanPublish driverId None);;
  pure (validateBalticPlace originPlaceId);;
  delDraft driverId;;
  delRoutes driverId;;
  saveDraft (newDraft driverId now
    <| Draft.originPlaceId := Some originPlaceId |> <| Draft.originAddress := Some originAddress |>
    <| Draft.originLat := Some originLat |> <| Draft.originLng := Some originLng |>
    <| Draft.pickups := (fun p => [p]) <$> pickup |>).

(** Too far from the place it belongs to. *)
Definition farFrom (place : LatLng.t) (radiusMeters : num) (point : LocationInput.t) : bool :=
  nlt radiusMeters (DraftRoute.haversineDistance place (locationOf point)).

Definition offRoute (routePolyline : string) (point : LocationInput.t) : bool :=
  DraftRoute.beyond (DraftRoute.distanceFromRouteMeters (locationOf point) routePolyline) ROUTE_POINT_RADIUS_METERS.

(** [draft.routePolyline && points?.some(...)] *)
Definition outsideRoute (draft : Draft.t) (points : list LocationInput.t) : bool :=
  match truthy (Draft.routePolyline draft) with
  | Some routePolyline => existsb (offRoute routePolyline) points
  | None => false
  end.

Definition updatePickups (driverId : string) (pickups : option (list LocationInput.t)) : D Draft.t :=
  throw_if (MAX_ORIGIN_PICKUP_POINTS <? length (listOf pickups))%nat "MAX_PICKUP_POINTS_EXCEEDED";;
  draft ← getDraft driverId;
  match Draft.originLat draft, Draft.originLng draft with
  | Some lat, Some lng =>
      let origin := {| LatLng.lat := lat; LatLng.lng := lng |} in
      throw_if (existsb (farFrom origin CITY_POINT_RADIUS_METERS) (listOf pickups)) "PICKUP_OUTSIDE_CITY_RADIUS";;
      throw_if (outsideRoute draft (listOf pickups)) "MEETING_POINT_OUTSIDE_ROUTE";;
      saveDraft (atLeast 2 (draft <| Draft.pickups := pickups |>))
  | _, _ => throw "ORIGIN_REQUIRED"
  end.

Definition updateDestination (driverId destinationPlaceId destinationAddress : string) (destinationLat destinationLng : num)
    (dropoff : option LocationInput.t) : D Draft.t :=
  pure (validateEuropeanDestinationPlace destinationPlaceId);;
  draft ← getDraft driverId;
  let draft := draft <| Draft.destinationPlaceId := Some destinationPlaceId |>
                     <| Draft.destinationAddress := Some destinationAddress |>
                     <| Draft.destinationLat := Some destinationLat |> <| Draft.destinationLng := Some destinationLng |> in
  let draft := match dropoff with Some p => draft <| Draft.dropoffs := Some [p] |> | None => draft end in
  saveDraft (atLeast 2 draft).

Definition updateDropoffs (driverId : string) (dropoffs : option (list LocationInput.t)) : D Draft.t :=
  throw_if (MAX_DESTINATION_DROPOFF_POINTS <? length (listOf dropoffs))%nat "MAX_DROPOFF_POINTS_EXCEEDED";;
  draft ← getDraft driverId;
  match Draft.destinationLat draft, Draft.destinationLng draft with
  | Some lat, Some lng =>
      let destination := {| LatLng.lat := lat; LatLng.lng := lng |} in
      throw_if (existsb (farFrom destination CITY_POINT_RADIUS_METERS) (listOf dropoffs)) "DROPOFF_OUTSIDE_CITY_RADIUS";;
      throw_if (outsideRoute draft (listOf dropoffs)) "MEETING_POINT_OUTSIDE_ROUTE";;
      saveDraft (atLeast 5 (draft <| Draft.dropoffs := dropoffs |>))
  | _, _ => throw "DESTINATION_REQUIRED"
  end.

(** *** The routes *)

(** [a * k], a constant of the source *)
Definition times (a : num) (k : Q) : num := nmul a (rnd k).

Definition mockRoute (distMeters : Z) (factor : Q) (speed : Z) (points : list (num * num)) : GoogleRoute.t := {|
  GoogleRoute.distanceMeters := Some (math_round (times (num_of_Z distMeters) factor));
  GoogleRoute.duration := Some (pretty (math_round (ndiv (times (num_of_Z distMeters) factor) (num_of_Z speed))) +:+ "s");
  GoogleRoute.encodedPolyline := Some (fromCharCodes (DraftRoute.mockEncodePolyline points));
  GoogleRoute.description := None; GoogleRoute.warnings := []; GoogleRoute.legs := [] |}.

(** Three synthetic routes. *)
Definition mockRoutes (origin destination : LatLng.t) : list GoogleRoute.t :=
  let distMeters := math_round (DraftRoute.haversineDistance origin destination) in
  let 'LatLng.Build_t oLat oLng := origin in
  let 'LatLng.Build_t dLat dLng := destination in
  let midLat := ndiv (nadd oLat dLat) (num_of_Z 2) in
  let midLng := ndiv (nadd oLng dLng) (num_of_Z 2) in
  [mockRoute distMeters (115 # 100) 25
     [(oLat, oLng); (nadd midLat (rnd (15 # 100)), nsub midLng (rnd (5 # 100))); (dLat, dLng)];
   mockRoute distMeters (135 # 100) 22
     [(oLat, oLng); (nsub oLat (rnd (1 # 10)), nadd oLng (times (nsub dLng oLng) (3 # 10)));
      (nsub midLat (rnd (2 # 10)), midLng);
      (nsub dLat (rnd (1 # 10)), nsub dLng (times (nsub dLng oLng) (2 # 10))); (dLat, dLng)];
   mockRoute distMeters (11 # 10) 28
     [(oLat, oLng); (nadd midLat (rnd (5 # 100)), nadd midLng (rnd (1 # 10))); (dLat, dLng)]].

(** [s.replace('s', '')] *)
Fixpoint dropFirstS (s : string) : string :=
  match s with
  | EmptyString => EmptyString
  | String c s' => if is_char 115 c then s' else String c (dropFirstS s')
  end.

Definition routeOption (index : nat) (route : GoogleRoute.t) : RouteOption.t :=
  let '(isPublishable, blockedReason) := detectBlockedRoute route in
  {| RouteOption.index := index;
     RouteOption.polyline := default EmptyString (GoogleRoute.encodedPolyline route);
     RouteOption.distanceMeters := default 0 (GoogleRoute.distanceMeters route);
     RouteOption.durationSeconds := parseInt (default "0"%string (truthy (dropFirstS <$> GoogleRoute.duration route)));
     RouteOption.description := default EmptyString (GoogleRoute.description route);
     RouteOption.warnings := GoogleRoute.warnings route;
     RouteOption.isPublishable := isPublishable;
     RouteOption.blockedReason := blockedReason |}.

(** The options and the one that is selected. *)
Definition computeRouteOptions (driverId : string) (includeAlternatives : bool) : D (list RouteOption.t * option nat) :=
  draft ← getDraft driverId;
  match truthy_num (Draft.originLat draft), truthy_num (Draft.destinationLat draft) with
  | Some originLat, Some destinationLat =>
      let origin := {| LatLng.lat := originLat; LatLng.lng := default (num_of_Z 0) (Draft.originLng draft) |} in
      let destination := {| LatLng.lat := destinationLat; LatLng.lng := default (num_of_Z 0) (Draft.destinationLng draft) |} in
      data ← (if GOOGLE_MAPS_MOCK_MODE then mret (mockRoutes origin destination)
              else match directions origin destination (map locationOf (listOf (Draft.stopovers draft))) includeAlternatives with
                   | Some routes => mret routes
                   | None => throw "fetch failed"
                   end);
      throw_if (bool_decide (data = [])) "NO_ROUTES_FOUND";;
      let routes := imap routeOption data in
      modify (fun s => s <| DraftSt.routes ::= <[driverId := (routes, now + ROUTES_TTL * 1000)]> |>);;
      mret (routes, const 0%nat <$> truthy (Draft.routePolyline draft))
  | _, _ => throw "ORIGIN_AND_DESTINATION_REQUIRED"
  end.

Definition selectRoute (driverId : string) (routeIndex : Z) : D Draft.t :=
  draft ← getDraft driverId;
  cached ← get (fun s => DraftSt.routes s !! driverId);
  match cached with
  | Some (routes, expiry) =>
      throw_if (expiry <? now) "ROUTES_EXPIRED";;
      throw_if ((routeIndex <? 0) || (Z.of_nat (length routes) <=? routeIndex)) "INVALID_ROUTE_INDEX";;
      match routes !! Z.to_nat routeIndex with
      | Some selectedRoute =>
          saveDraft (atLeast 7 (draft
            <| Draft.routePolyline := Some (RouteOption.polyline selectedRoute) |>
            <| Draft.routeDistanceMeters := Some (RouteOption.distanceMeters selectedRoute) |>
            <| Draft.routeDurationSeconds := RouteOption.durationSeconds selectedRoute |>
            <| Draft.routeDescription := Some (RouteOption.description selectedRoute) |>
            <| Draft.routeWarnings := Some (RouteOption.warnings selectedRoute) |>
            <| Draft.routeIsPublishable := Some (RouteOption.isPublishable selectedRoute) |>
            <| Draft.routeBlockedReason := RouteOption.blockedReason selectedRoute |>))
      | None => throw "TypeError"
      end
  | None => throw "ROUTES_EXPIRED"
  end.

(** *** Stopovers, schedule and capacity *)

Definition farFromTown (stopover : LocationInput.t) : bool :=
  match LocationInput.parentLat stopover, LocationInput.parentLng stopover with
  | Some lat, Some lng => farFrom {| LatLng.lat := lat; LatLng.lng := lng |} STOPOVER_POINT_RADIUS_METERS stopover
  | _, _ => true
  end.

Definition updateStopovers (driverId : string) (stopovers : option (list LocationInput.t)) : D Draft.t :=
  throw_if (MAX_STOPOVER_POINTS <? length (listOf stopovers))%nat "MAX_STOPOVER_POINTS_EXCEEDED";;
  draft ← getDraft driverId;
  throw_if (existsb farFromTown (listOf stopovers)) "STOPOVER_OUTSIDE_CITY_RADIUS";;
  throw_if (outsideRoute draft (listOf stopovers)) "MEETING_POINT_OUTSIDE_ROUTE";;
  saveDraft (atLeast 8 (draft <| Draft.stopovers := stopovers |>)).

Definition updateSchedule (driverId : string) (departureDate : Z) (departureTime : string) : D Draft.t :=
  throw_if (isPublishDepartureTooSoon departureDate departureTime now) "DEPARTURE_TOO_SOON";;
  draft ← getDraft driverId;
  saveDraft (atLeast 9 (draft <| Draft.departureDate := Some departureDate |> <| Draft.departureTime := Some departureTime |>)).

Definition updateCapacity (driverId : string) (input : CapacityInput.t) : D Draft.t :=
  draft ← getDraft driverId;
  vehicle ← lift (findFirst prisma.vehicle (isDriversVehicle driverId None));
  let orFalse b := Some (default false b) in
  saveDraft (atLeast 10 (draft
    <| Draft.totalSeats := Some (CapacityInput.totalSeats input) |>
    <| Draft.vehicleId := truthy (Vehicle.id <$> vehicle) |>
    <| Draft.maxLuggagePerPerson := Some (default 2 (CapacityInput.maxLuggagePerPerson input)) |>
    <| Draft.backSeatOnly := orFalse (CapacityInput.backSeatOnly input) |>
    <| Draft.noSmoking := orFalse (CapacityInput.noSmoking input) |>
    <| Draft.alcoholFreeRide := orFalse (CapacityInput.alcoholFreeRide input) |>
    <| Draft.noBicycles := orFalse (CapacityInput.noBicycles input) |>
    <| Draft.childSeatAvailable := orFalse (CapacityInput.childSeatAvailable input) |>)).

(** *** Prices *)

(** [distanceMeters / 1000] *)
Definition kilometers (meters : num) : num := ndiv meters (num_of_Z 1000).

Definition fareAt (origin : LatLng.t) (totalDistanceKm base : num) (stopover : LocationInput.t) : num * StopoverFare.t :=
  let distFromOriginKm := kilometers (DraftRoute.haversineDistance origin (locationOf stopover)) in
  (distFromOriginKm, calculateStopoverFare base distFromOriginKm totalDistanceKm).

Definition clampFare (fare : StopoverFare.t) (price : num) : num :=
  clampToRange price (StopoverFare.minPrice fare) (StopoverFare.maxPrice fare).

(** [Math.round(km * 10) / 10] *)
Definition round1 (km : num) : num := ndiv (num_of_Z (math_round (nmul km (num_of_Z 10)))) (num_of_Z 10).

Definition positive (x : option num) : option num :=
  match x with Some p => if nlt (num_of_Z 0) p then Some p else None | None => None end.

(** Where the fares of the stops start from. *)
Definition originOf (draft : Draft.t) : option LatLng.t :=
  match truthy_num (Draft.originLat draft), truthy_num (Draft.originLng draft) with
  | Some lat, Some lng => Some {| LatLng.lat := lat; LatLng.lng := lng |}
  | _, _ => None
  end.

Definition recommendStopover (origin : LatLng.t) (distanceKm base : num) (arrivalTimes : list string) (index : nat)
    (stopover : LocationInput.t) : StopoverRecommendedPrice.t :=
  let '(km, fare) := fareAt origin distanceKm base stopover in
  {| StopoverRecommendedPrice.placeId := LocationInput.placeId stopover;
     StopoverRecommendedPrice.address := LocationInput.address stopover;
     StopoverRecommendedPrice.distanceFromOriginKm := round1 km;
     StopoverRecommendedPrice.fare := fare;
     StopoverRecommendedPrice.driverPricePerSeat := clampFare fare <$> LocationInput.driverPricePerSeat stopover;
     StopoverRecommendedPrice.estimatedArrivalTime := arrivalTimes !! S index |}.

Definition recommendStopovers (draft : Draft.t) (distanceKm base : num) : option (list StopoverRecommendedPrice.t) :=
  match listOf (Draft.stopovers draft), originOf draft with
  | (_ :: _) as stopovers, Some start =>
      let arrivalTimes := match truthy (Draft.departureTime draft), truthy_Z (Draft.routeDurationSeconds draft) with
        | Some departureTime, Some seconds =>
            calculateWaypointArrivalTimes departureTime (Some seconds) (Z.of_nat (length stopovers) + 2)
        | _, _ => []
        end in
      Some (sort_cmp (fun a b => nsub (StopoverRecommendedPrice.distanceFromOriginKm a) (StopoverRecommendedPrice.distanceFromOriginKm b))
        (imap (recommendStopover start distanceKm base arrivalTimes) stopovers))
  | _, _ => None
  end.

Definition getRecommendedPrice (driverId : string) (candidateBasePricePerSeat : option num) : D PriceRecommendation.t :=
  draft ← getDraft driverId;
  match truthy_Z (Draft.routeDistanceMeters draft) with
  | None => throw "ROUTE_REQUIRED_FOR_PRICING"
  | Some meters =>
      let distanceKm := kilometers (num_of_Z meters) in
      priced ← lift (try_catch
        (c ← getPricePreview distanceKm None; mret (c, false))
        (fun error => if decide (error = "PRICING_CONFIG_NOT_FOUND"%string)
                      then mret (calculatePrice distanceKm (DEFAULT_BALTIC_PRICING_CONFIG now), true) else throw error));
      let '(calculation, pricingConfigFallback) := priced in
      let pricePerKm := PriceCalculation.recommendedRatePerKm calculation in
      let quotedBasePrice := default (PriceCalculation.recommendedPricePerSeat calculation) (positive candidateBasePricePerSeat) in
      let stopoverPricing := recommendStopovers draft distanceKm quotedBasePrice in
      let currency := default "EUR"%string (match truthy (Some (PriceCalculation.currency calculation)) with
                                            | Some c => Some c | None => truthy (Draft.currency draft) end) in
      feeTerms ← lift (resolveActiveFeeTerms (Some (PriceCalculation.regionCode calculation)));
      let seats := match Draft.totalSeats draft with Some n => if 0 <? n then n else 1 | None => 1 end in
      let priceFor seatsBooked := calculateBookingPrice {|
        PriceInput.basePricePerSeat := quotedBasePrice; PriceInput.seatsBooked := seatsBooked;
        PriceInput.currency := Some currency;
        PriceInput.serviceFeePercent := ServiceFeeTerms.serviceFeePercent feeTerms;
        PriceInput.serviceFeeFlat := ServiceFeeTerms.serviceFeeFlat feeTerms |} in
      mret {| PriceRecommendation.calculation := calculation;
              PriceRecommendation.currency := currency;
              PriceRecommendation.quote := {|
                PriceQuote.basePricePerSeat := quotedBasePrice; PriceQuote.seats := seats; PriceQuote.currency := currency;
                PriceQuote.feeTerms := feeTerms; PriceQuote.perSeat := priceFor 1; PriceQuote.fullRide := priceFor seats |};
              PriceRecommendation.estimatedRouteCost := of_cents (to_cents (nmul distanceKm pricePerKm));
              PriceRecommendation.distanceKm := round1 distanceKm;
              PriceRecommendation.pricePerKm := of_cents (to_cents pricePerKm);
              PriceRecommendation.pricingConfigFallback := pricingConfigFallback;
              PriceRecommendation.stopoverPricing := stopoverPricing |}
  end.

(** *** Saving the prices *)

Definition givenPrice (input : PricingInput.t) (placeId : string) : option (string * num * option string) :=
  PricingInput.stopoverPricing input ≫= List.find (fun item => bool_decide (item.1.1 = placeId)).

(** A stop with the fare of its distance; the driver's own fare is held in its range. *)
Definition priceStopover (input : PricingInput.t) (origin : LatLng.t) (totalDistanceKm : num) (stopover : LocationInput.t)
    : LocationInput.t :=
  let fare := (fareAt origin totalDistanceKm (PricingInput.basePricePerSeat input) stopover).2 in
  let driverPricePerSeat :=
    match givenPrice input (LocationInput.placeId stopover) with
    | Some chosen => Some (clampFare fare chosen.1.2)
    | None => clampFare fare <$> LocationInput.driverPricePerSeat stopover
    end in
  stopover <| LocationInput.recommendedPrice := Some (StopoverFare.recommendedPrice fare) |>
           <| LocationInput.minPrice := Some (StopoverFare.minPrice fare) |>
           <| LocationInput.maxPrice := Some (StopoverFare.maxPrice fare) |>
           <| LocationInput.driverPricePerSeat := driverPricePerSeat |>.

(** A drop-off is priced by the distance left to the destination. *)
Definition priceDropoff (base : num) (destination : LatLng.t) (totalDistanceKm : num) (dropoff : LocationInput.t)
    : LocationInput.t :=
  let distFromDestinationKm := kilometers (DraftRoute.haversineDistance (locationOf dropoff) destination) in
  let travelledDistanceKm := nsub totalDistanceKm distFromDestinationKm in
  let distanceRatio := nmax (num_of_Z 0) (ndiv travelledDistanceKm totalDistanceKm) in
  let dropoffBasePrice := nmul base distanceRatio in
  dropoff <| LocationInput.recommendedPrice := Some (of_cents (to_cents dropoffBasePrice)) |>
          <| LocationInput.minPrice := Some (of_cents (to_cents (times dropoffBasePrice (8 # 10)))) |>
          <| LocationInput.maxPrice := Some (of_cents (to_cents (times dropoffBasePrice (167 # 100)))) |>.

Definition givenArrival (input : PricingInput.t) (stopover : LocationInput.t) : LocationInput.t :=
  match truthy (givenPrice input (LocationInput.placeId stopover) ≫= snd) with
  | Some time => stopover <| LocationInput.estimatedArrivalTime := Some time |>
  | None => stopover
  end.

(** The time at a point by its distance from the origin; of points of one place, the nearest. *)
Definition arriveAt (origin : LatLng.t) (departureTime : string) (seconds totalDistanceMeters : Z)
    (points : list LocationInput.t) (point : LocationInput.t) : LocationInput.t :=
  let distance p := DraftRoute.haversineDistance origin (locationOf p) in
  let sorted := sort_cmp (fun a b => nsub (distance a) (distance b)) points in
  match List.find (fun p => bool_decide (LocationInput.placeId p = LocationInput.placeId point)) sorted with
  | Some wp =>
      let ratio := ndiv (distance wp) (num_of_Z totalDistanceMeters) in
      point <| LocationInput.estimatedArrivalTime :=
        Some (arrivalClock departureTime (math_ceil (nmul (num_of_Z (ceilMinutes seconds)) ratio))) |>
  | None => point
  end.

Definition withArrivals (draft : Draft.t) : Draft.t :=
  match truthy (Draft.departureTime draft), truthy_Z (Draft.routeDurationSeconds draft), originOf draft with
  | Some departureTime, Some seconds, Some start =>
      let meters := default 0 (Draft.routeDistanceMeters draft) in
      if 0 <? meters then
        let arrive points := map (arriveAt start departureTime seconds meters points) points in
        draft <| Draft.pickups ::= fmap arrive |> <| Draft.stopovers ::= fmap arrive |> <| Draft.dropoffs ::= fmap arrive |>
      else draft
  | _, _, _ => draft
  end.

Definition destinationOf (draft : Draft.t) : option LatLng.t :=
  match truthy_num (Draft.destinationLat draft), truthy_num (Draft.destinationLng draft) with
  | Some lat, Some lng => Some {| LatLng.lat := lat; LatLng.lng := lng |}
  | _, _ => None
  end.

Definition withPrices (input : PricingInput.t) (draft : Draft.t) : Draft.t :=
  let draft := draft <| Draft.basePricePerSeat := Some (PricingInput.basePricePerSeat input) |> in
  let totalDistanceKm := kilometers (num_of_Z (default 0 (Draft.routeDistanceMeters draft))) in
  let far := nlt (num_of_Z 0) totalDistanceKm in
  let draft := match originOf draft with
    | Some start => if far then draft <| Draft.stopovers ::= fmap (map (priceStopover input start totalDistanceKm)) |> else draft
    | None => draft
    end in
  match destinationOf draft with
  | Some end_ =>
      if far then draft <| Draft.dropoffs ::= fmap (map (priceDropoff (PricingInput.basePricePerSeat input) end_ totalDistanceKm)) |>
      else draft
  | None => draft
  end.

Definition updatePricing (driverId : string) (input : PricingInput.t) : D Draft.t :=
  draft ← getDraft driverId;
  let draft := withPrices input draft in
  let draft := match PricingInput.stopoverPricing input with
    | Some _ => draft <| Draft.stopovers ::= fmap (map (givenArrival input)) |>
    | None => draft
    end in
  saveDraft (atLeast 12 (withArrivals draft)).

Definition updateNotes (driverId notes : string) (femaleOnly : option bool) : D Draft.t :=
  draft ← getDraft driverId;
  let draft := draft <| Draft.notes := Some notes |> in
  draft ← match femaleOnly with
          | Some true =>
              driver ← lift (findUnique prisma.user driverId);
              throw_if (bool_decide ((driver ≫= User.gender) <> Some Gender.FEMALE)) "FEMALE_ONLY_NOT_ALLOWED";;
              mret (draft <| Draft.femaleOnly := Some true |>)
          | Some false => mret (draft <| Draft.femaleOnly := Some false |>)
          | None => mret draft
          end;
  saveDraft (atLeast 13 draft).

Definition getUserDraft (driverId : string) : D Draft.t := getDraft driverId.

Definition deleteDraft (driverId : string) : D unit :=
  exists_ ← get (fun s => match DraftSt.drafts s !! driverId with Some (_, expiry) => now <=? expiry | None => false end);
  throw_if (negb exists_) "DRAFT_NOT_FOUND";;
  delDraft driverId;;
  delRoutes driverId.
End steps.

Definition formatDuration (seconds : Z) : string :=
  let hours := seconds / 3600 in
  let minutes := Z.rem seconds 3600 / 60 in
  if 0 <? hours then pretty hours +:+ "h " +:+ pretty minutes +:+ "min" else pretty minutes +:+ " min".

Definition calculateDraftCompletion (draft : Draft.t) : Z :=
  let done (b : bool) : Z := if b then 1 else 0 in
  let completed :=
    done (bool_decide (is_Some (truthy (Draft.originAddress draft)))) +
    done (bool_decide (is_Some (truthy (Draft.destinationAddress draft)))) +
    done (bool_decide (is_Some (Draft.departureDate draft))) +
    done (match Draft.totalSeats draft with Some n => 0 <? n | None => false end) +
    done (bool_decide (is_Some (positive (Draft.basePricePerSeat draft)))) +
    done (bool_decide (is_Some (truthy (Draft.routePolyline draft)))) in
  math_round (nmul (ndiv (num_of_Z completed) (num_of_Z 6)) (num_of_Z 100)).
End DraftRide.
