(* ===== verification/Publish.v ===== *)
(** * Publishing a draft

    Models [publishRide] of [modules/publish-ride/draft-ride.service.ts]: the checks on the
    draft, and one transaction that makes the ride with its waypoints, its legs and the
    snapshot of its prices.  The two places are checked at once in the source; the error
    is that of the origin when both fail. *)

From Stdlib Require Import ZArith QArith Lia.
From stdpp Require Import base list option strings gmap.
From S2P Require Import Prelude JsNumber JsText Money Schema Store Seats Time Segment Pricing Gateway RideRequest Booking RideOps Route.
From S2P Require Import Eligibility Draft.

Open Scope Z_scope.

Import Eligibility DraftRide.

Module PublishDraft.

(** A column of type [Date] keeps the day. *)
Definition dateColumn (instant : Z) : Z := dayOf instant * msPerDay.

Section publish.
Context `{Env} `{EligibilityEnv} `{Google} `{PublishEnv}.

(** What the table needs and the checks do not ask for: a missing value is refused by Prisma. *)
Definition required {A} (x : option A) : H A :=
  match x with Some x => mret x | None => throw "PrismaClientValidationError" end.

(** The rows of the waypoints, in the order of the route; ids are given when they are written. *)
Definition pickupRow (rideId : string) (i : nat) (p : LocationInput.t) : RideWaypoint.t :=
  {| RideWaypoint.id := EmptyString; RideWaypoint.rideId := rideId; RideWaypoint.placeId := LocationInput.placeId p;
     RideWaypoint.address := LocationInput.address p; RideWaypoint.lat := LocationInput.lat p;
     RideWaypoint.lng := LocationInput.lng p; RideWaypoint.waypointType := WaypointType.PICKUP;
     RideWaypoint.orderIndex := Z.of_nat i;
     RideWaypoint.pricePerSeat := Some (default (num_of_Z 0) (LocationInput.recommendedPrice p));
     RideWaypoint.estimatedArrivalTime := None; RideWaypoint.createdAt := now |}.

Definition dropoffRow (rideId : string) (basePricePerSeat : num) (i : nat) (p : LocationInput.t) : RideWaypoint.t :=
  pickupRow rideId i p <| RideWaypoint.waypointType := WaypointType.DROPOFF |>
    <| RideWaypoint.orderIndex := Z.of_nat i + 100 |>
    <| RideWaypoint.pricePerSeat := Some (default basePricePerSeat (LocationInput.recommendedPrice p)) |>.

Definition stopoverRow (rideId : string) (i : nat) (p : LocationInput.t) : RideWaypoint.t :=
  pickupRow rideId i p <| RideWaypoint.waypointType := WaypointType.STOPOVER |>
    <| RideWaypoint.orderIndex := Z.of_nat i + 50 |>
    <| RideWaypoint.pricePerSeat :=
         match LocationInput.driverPricePerSeat p with Some x => Some x | None => LocationInput.recommendedPrice p end |>.

Definition waypointRows (rideId : string) (basePricePerSeat : num) (draft : Draft.t) : list RideWaypoint.t :=
  sort_by RideWaypoint.orderIndex
    (imap (pickupRow rideId) (listOf (Draft.pickups draft)) ++
     imap (dropoffRow rideId basePricePerSeat) (listOf (Draft.dropoffs draft)) ++
     imap (stopoverRow rideId) (listOf (Draft.stopovers draft))).

(** With the times of arrival, when the duration of the route is known. *)
Definition timedRows (departureTime : string) (routeDurationSeconds : option Z) (rows : list RideWaypoint.t) : list RideWaypoint.t :=
  match truthy_Z routeDurationSeconds with
  | None => rows
  | Some seconds =>
      let arrivalTimes := calculateWaypointArrivalTimes departureTime (Some seconds) (Z.of_nat (length rows)) in
      imap (fun i w => w <| RideWaypoint.estimatedArrivalTime := truthy (arrivalTimes !! i) |>) rows
  end.

Definition createWaypoint (row : RideWaypoint.t) : H unit :=
  id ← randomUUID; create prisma.rideWaypoint id (row <| RideWaypoint.id := id |>);; mret tt.

Definition createLeg (rideId : string) (i : nat) : H unit :=
  id ← randomUUID;
  create prisma.rideSegmentCapacity id
    {| RideSegmentCapacity.id := id; RideSegmentCapacity.rideId := rideId;
       RideSegmentCapacity.fromPosition := Z.of_nat i; RideSegmentCapacity.toPosition := Z.of_nat i + 1;
       RideSegmentCapacity.occupiedSeats := 0 |};; mret tt.

Definition snapshotPrice (ride : Ride.t) : H unit :=
  match Ride.routeDistanceMeters ride with
  | Some meters =>
      when (0 <? meters)
        (try_catch
           (validated ← validateAndSnapshotPricing (Ride.id ride) (kilometers (num_of_Z meters)) (Ride.basePricePerSeat ride) None;
            throw_if (negb (pv_valid validated.1)) "PRICE_OUT_OF_RANGE")
           (fun error => if decide (error = "PRICING_CONFIG_NOT_FOUND"%string) then mret tt else throw error))
  | None => mret tt
  end.

Definition newRide (id driverId : string) (draft : Draft.t) (vehicle : Vehicle.t) (departureDate : Z) (departureTime : string)
    (totalSeats : Z) (basePricePerSeat : num) : H Ride.t :=
  originPlaceId ← required (Draft.originPlaceId draft);
  originAddress ← required (Draft.originAddress draft);
  originLat ← required (Draft.originLat draft);
  originLng ← required (Draft.originLng draft);
  destinationPlaceId ← required (Draft.destinationPlaceId draft);
  destinationAddress ← required (Draft.destinationAddress draft);
  destinationLat ← required (Draft.destinationLat draft);
  destinationLng ← required (Draft.destinationLng draft);
  mret {| Ride.id := id;
          Ride.driverId := driverId;
          Ride.vehicleId := Some (Vehicle.id vehicle);
          Ride.originPlaceId := originPlaceId;
          Ride.originAddress := originAddress;
          Ride.originLat := originLat;
          Ride.originLng := originLng;
          Ride.destinationPlaceId := destinationPlaceId;
          Ride.destinationAddress := destinationAddress;
          Ride.destinationLat := destinationLat;
          Ride.destinationLng := destinationLng;
          Ride.routePolyline := Draft.routePolyline draft;
          Ride.routeDistanceMeters := Draft.routeDistanceMeters draft;
          Ride.routeDurationSeconds := Draft.routeDurationSeconds draft;
          Ride.departureDate := dateColumn departureDate;
          Ride.departureTime := departureTime;
          Ride.totalSeats := totalSeats;
          Ride.availableSeats := totalSeats;
          Ride.basePricePerSeat := basePricePerSeat;
          Ride.currency := default "EUR"%string (truthy (Draft.currency draft));
          Ride.maxLuggagePerPerson := default 2 (Draft.maxLuggagePerPerson draft);
          Ride.backSeatOnly := default false (Draft.backSeatOnly draft);
          Ride.femaleOnly := default false (Draft.femaleOnly draft);
          Ride.noSmoking := default false (Draft.noSmoking draft);
          Ride.alcoholFreeRide := default false (Draft.alcoholFreeRide draft);
          Ride.noBicycles := default false (Draft.noBicycles draft);
          Ride.childSeatAvailable := default false (Draft.childSeatAvailable draft);
          Ride.notes := truthy (Draft.notes draft);
          Ride.status := RideStatus.PUBLISHED;
          Ride.actualStartTime := None;
          Ride.actualEndTime := None;
          Ride.currentStopSequence := None;
          Ride.createdAt := now |}.

(** The transaction; the lock on the driver's row makes it one step. *)
Definition insertRide (driverId : string) (draft : Draft.t) (vehicle : Vehicle.t) (departureDate : Z) (departureTime : string)
    (totalSeats : Z) (basePricePerSeat : num) : H Ride.t :=
  assertDriverHasNoOverlappingRide driverId departureDate departureTime (Draft.routeDurationSeconds draft) None;;
  id ← randomUUID;
  row ← newRide id driverId draft vehicle departureDate departureTime totalSeats basePricePerSeat;
  ride ← create prisma.ride id row;
  let rows := timedRows (Ride.departureTime ride) (Ride.routeDurationSeconds ride)
                (waypointRows id (Ride.basePricePerSeat ride) draft) in
  for_each rows createWaypoint;;
  for_each (seq 0 (S (length rows))) (createLeg id);;
  snapshotPrice ride;;
  mret ride.

(** [publishRide] without Redis and the notification. *)
Definition publishDraft (driverId : string) (draft : Draft.t) : H Ride.t :=
  match truthy (Draft.originPlaceId draft), truthy (Draft.destinationPlaceId draft) with
  | Some originPlaceId, Some destinationPlaceId =>
  match truthy (Draft.routePolyline draft) with
  | None => throw "ROUTE_REQUIRED"
  | Some routePolyline =>
  match Draft.departureDate draft, truthy (Draft.departureTime draft) with
  | Some departureDate, Some departureTime =>
      throw_if (isPublishDepartureTooSoon departureDate departureTime now) "DEPARTURE_TOO_SOON";;
      match truthy_Z (Draft.totalSeats draft), truthy_num (Draft.basePricePerSeat draft) with
      | Some totalSeats, Some basePricePerSeat =>
          check (validateBalticPlace originPlaceId);;
          check (validateEuropeanDestinationPlace destinationPlaceId);;
          assertDriverCanPublish driverId None;;
          driver ← findUnique prisma.user driverId;
          throw_if (default false (Draft.femaleOnly draft) && bool_decide ((driver ≫= User.gender) <> Some Gender.FEMALE))
            "FEMALE_ONLY_NOT_ALLOWED";;
          throw_if (bool_decide (Draft.routeIsPublishable draft = Some false))
            (default ROUTE_BLOCKED_REASON (truthy (Draft.routeBlockedReason draft)));;
          throw_if (bool_decide (listOf (Draft.pickups draft) = []) || bool_decide (listOf (Draft.dropoffs draft) = []))
            "MEETING_POINTS_REQUIRED";;
          assertDriverHasNoOverlappingRide driverId departureDate departureTime (Draft.routeDurationSeconds draft) None;;
          throw_if (existsb (offRoute routePolyline)
            (listOf (Draft.pickups draft) ++ listOf (Draft.dropoffs draft) ++ listOf (Draft.stopovers draft)))
            "MEETING_POINT_OUTSIDE_ROUTE";;
          vehicle ← findFirst prisma.vehicle (isDriversVehicle driverId None);
          match vehicle with
          | None => throw "VEHICLE_REQUIRED"
          | Some vehicle =>
              transaction (insertRide driverId draft vehicle departureDate departureTime totalSeats basePricePerSeat)
          end
      | _, _ => throw "CAPACITY_AND_PRICING_REQUIRED"
      end
  | _, _ => throw "SCHEDULE_REQUIRED"
  end end
  | _, _ => throw "ORIGIN_AND_DESTINATION_REQUIRED"
  end.

Definition publishRide (driverId : string) : D Ride.t :=
  draft ← getDraft driverId;
  ride ← lift (publishDraft driverId draft);
  delDraft driverId;;
  delRoutes driverId;;
  lift (createNotification driverId "ride.published");;
  mret ride.
End publish.
End PublishDraft.
