(* ===== verification/RequestMarket.v ===== *)
(** * The market of ride requests

    Models [modules/ride-request/ride-request.service.ts]: riders ask for a ride, drivers
    answer with offers (each with a ride of its own that is not published yet), and the
    rider checks one out; the reservation of the checkout and its confirmation are in
    [RideRequest].  Requests that are not paid in time go back to the market. *)

From Stdlib Require Import ZArith QArith Lia.
From stdpp Require Import base list option strings gmap.
From S2P Require Import Prelude JsNumber JsText Money Schema Store Seats Payments Time Segment ViewToken Pricing Gateway RideRequest Booking RideOps Route.
From S2P Require Import Eligibility Draft Publish.

Open Scope Z_scope.

Import Eligibility DraftRide PublishDraft.

(** ** Data *)

Module RequestInput.
Record t := {
  originPlaceId : string;
  destinationPlaceId : string;
  departureAfter : Z;
  departureBefore : Z;
  seats : Z;
  luggage : Z;
  budgetPerSeat : option num;
  notes : string;
}.
End RequestInput.

Module OfferInput.
Record t := {
  vehicleId : string;
  departureAt : Z;
  totalSeats : Z;
  pricePerSeat : num;
  expiresInHours : Z;
}.
End OfferInput.

Inductive RequestView := BROWSE | MINE | OFFERS | ADMIN.
#[global] Instance RequestView_eq_dec : EqDecision RequestView.
Proof. solve_decision. Defined.

Module RequestQuery.
Record t := {
  view : RequestView;
  page : Z;
  from : option string;
  to : option string;
  date : option Z;
  seats : option Z;
}.
End RequestQuery.

(** Of a user others see the name and the picture. *)
Module Person.
Record t := { id : string; firstName : option string; avatarUrl : option string }.
End Person.

Module RequestSummary.
Record t := {
  id : string;
  riderId : string;
  rider : option Person.t;
  originAddress : string;
  destinationAddress : string;
  departureAfter : Z;
  departureBefore : Z;
  seats : Z;
  luggage : Z;
  budgetPerSeat : option num;
  status : string;
  expiresAt : Z;
  openOffers : Z;
}.
End RequestSummary.

Module RequestPage.
Record t := { items : list RequestSummary.t; total : Z; page : Z; totalPages : Z }.
End RequestPage.

Module OfferView.
Record t := {
  offer : RideRequestOffer.t;
  driver : option Person.t;
  ride : Ride.t;
  price : PriceBreakdown.t;
}.
End OfferView.

Module RequestDetails.
Record t := { request : RideRequest.t; rider : option Person.t; isOwner : bool; offers : list OfferView.t }.
End RequestDetails.

(** An offer as the sweep reads it: its booking, the booking's payment and ride. *)
Module Expired.
Record t := { offer : RideRequestOffer.t; booking : option (RideBooking.t * Ride.t); payment : option Payment.t }.
End Expired.

(** Address and place of a place id, and the routes between two points. *)
Class RequestMaps := {
  placeAddress : string -> option (string * LatLng.t);
  multiRoute : LatLng.t -> LatLng.t -> option (list GoogleRoute.t);
}.

(** [Promise.all] of calls that return. *)
Fixpoint collect `{Env} {A B} (f : A -> H B) (l : list A) : H (list B) :=
  match l with
  | [] => mret []
  | x :: l => y ← f x; ys ← collect f l; mret (y :: ys)
  end.

(** Hour and minute of an instant, as [toISOString] has them. *)
Definition isoClock (t : Z) : string :=
  let m := t mod msPerDay / 60000 in pad2 (m / 60) +:+ ":" +:+ pad2 (m mod 60).

Definition isOpen {R} (status : R -> string) (r : R) : bool := bool_decide (status r = "OPEN"%string).

(** An open row past its time is shown as expired. *)
Definition shownStatus `{Env} (status : string) (expiresAt : Z) : string :=
  if bool_decide (status = "OPEN"%string) && (expiresAt <? now) then "EXPIRED" else status.

Section market.
Context `{Env} `{EligibilityEnv} `{Google} `{RequestMaps}.

Definition notify (userId : string) : H unit := attempt (createNotification userId "ride_request.updated").

Definition personOf (d : Db.t) (userId : string) : option Person.t :=
  (fun u => {| Person.id := User.id u; Person.firstName := User.firstName u; Person.avatarUrl := User.avatarUrl u |})
    <$> Db.user d !! userId.

Definition assertActiveUser (id : string) : H unit :=
  user ← findUnique prisma.user id;
  match user with
  | None => throw "Sign in before using ride requests."
  | Some user =>
      throw_if (User.isBanned user) "Your account is blocked from using ride requests.";;
      match User.dob user with
      | None => throw "Add your date of birth in your profile before using ride requests."
      | Some dob =>
          throw_if (calculateAgeYears dob now <? MINIMUM_BOOKING_AGE_YEARS)
            "You must be at least 8 years old to use ride requests.";;
          throw_if (bool_decide (User.tosAcceptedAt user = None) || bool_decide (User.privacyAcceptedAt user = None))
            "Accept the Terms of Service and Privacy Policy before using ride requests."
      end
  end.

Definition isPending (riderId : string) (r : RideRequest.t) : bool :=
  bool_decide (RideRequest.riderId r = riderId) &&
  bool_decide (RideRequest.status r ∈ ["OPEN"; "CHECKOUT_PENDING"]%string) && (now <? RideRequest.expiresAt r).

Definition newRequest (id riderId : string) (input : RequestInput.t) (origin destination : string * LatLng.t) : RideRequest.t :=
  RideRequest.defaults id now
    <| RideRequest.riderId := riderId |>
    <| RideRequest.originPlaceId := RequestInput.originPlaceId input |>
    <| RideRequest.originAddress := origin.1 |>
    <| RideRequest.originLat := LatLng.lat origin.2 |> <| RideRequest.originLng := LatLng.lng origin.2 |>
    <| RideRequest.destinationPlaceId := RequestInput.destinationPlaceId input |>
    <| RideRequest.destinationAddress := destination.1 |>
    <| RideRequest.destinationLat := LatLng.lat destination.2 |> <| RideRequest.destinationLng := LatLng.lng destination.2 |>
    <| RideRequest.departureAfter := RequestInput.departureAfter input |>
    <| RideRequest.departureBefore := RequestInput.departureBefore input |>
    <| RideRequest.seats := RequestInput.seats input |> <| RideRequest.luggage := RequestInput.luggage input |>
    <| RideRequest.budgetPerSeat := RequestInput.budgetPerSeat input |>
    <| RideRequest.notes := Some (RequestInput.notes input) |>
    <| RideRequest.expiresAt := RequestInput.departureAfter input - 30 * 60000 |>.

Definition createRequest (riderId : string) (input : RequestInput.t) : H RideRequest.t :=
  assertActiveUser riderId;;
  check (assertRequestWindow (RequestInput.departureAfter input) (RequestInput.departureBefore input) now);;
  throw_if (bool_decide (RequestInput.originPlaceId input = RequestInput.destinationPlaceId input))
    "Choose different pickup and destination locations.";;
  check (validateBalticPlace (RequestInput.originPlaceId input));;
  check (validateEuropeanDestinationPlace (RequestInput.destinationPlaceId input));;
  match placeAddress (RequestInput.originPlaceId input), placeAddress (RequestInput.destinationPlaceId input) with
  | Some start, Some finish =>
      transaction (
        open_ ← findMany prisma.rideRequest (isPending riderId);
        throw_if (5 <=? length open_)%nat "You can have up to five open requests.";;
        id ← randomUUID;
        create prisma.rideRequest id (newRequest id riderId input start finish))
  | _, _ => throw "PLACE_DETAILS_FAILED"
  end.

(** *** Browsing *)

Definition offersOf (d : Db.t) (requestId : string) : list RideRequestOffer.t :=
  where_ prisma.rideRequestOffer (fun o => bool_decide (RideRequestOffer.requestId o = requestId)) d.

Definition isLiveOffer (o : RideRequestOffer.t) : bool := isOpen RideRequestOffer.status o && (now <? RideRequestOffer.expiresAt o).

Definition blockBetween (d : Db.t) (a b : string) : bool :=
  existsb (fun bl => bool_decide (bl = (a, b)) || bool_decide (bl = (b, a))) (Db.userBlock d).

(** What a view lists, before the filters. *)
Definition inView (d : Db.t) (userId : string) (view : RequestView) (r : RideRequest.t) : bool :=
  match view with
  | MINE => bool_decide (RideRequest.riderId r = userId)
  | OFFERS => existsb (fun o => bool_decide (RideRequestOffer.driverId o = userId)) (offersOf d (RideRequest.id r))
  | ADMIN => true
  | BROWSE =>
      isOpen RideRequest.status r && (now <? RideRequest.expiresAt r) && bool_decide (RideRequest.riderId r <> userId) &&
      negb (default true (User.isBanned <$> Db.user d !! RideRequest.riderId r)) &&
      negb (blockBetween d (RideRequest.riderId r) userId)
  end.

Definition containsInsensitive (needle haystack : string) : bool := includes (toLowerCase needle) (toLowerCase haystack).

Definition requestWhere (d : Db.t) (userId : string) (q : RequestQuery.t) (r : RideRequest.t) : bool :=
  inView d userId (RequestQuery.view q) r &&
  match truthy (RequestQuery.from q) with Some s => containsInsensitive s (RideRequest.originAddress r) | None => true end &&
  match truthy (RequestQuery.to q) with Some s => containsInsensitive s (RideRequest.destinationAddress r) | None => true end &&
  match RequestQuery.date q with
  | Some date => (date <=? RideRequest.departureAfter r) && (RideRequest.departureAfter r <? date + 86400000)
  | None => true
  end &&
  match truthy_Z (RequestQuery.seats q) with Some n => RideRequest.seats r <=? n | None => true end.

Definition summary (d : Db.t) (r : RideRequest.t) : RequestSummary.t := {|
  RequestSummary.id := RideRequest.id r;
  RequestSummary.riderId := RideRequest.riderId r;
  RequestSummary.rider := personOf d (RideRequest.riderId r);
  RequestSummary.originAddress := before_comma (RideRequest.originAddress r);
  RequestSummary.destinationAddress := before_comma (RideRequest.destinationAddress r);
  RequestSummary.departureAfter := RideRequest.departureAfter r;
  RequestSummary.departureBefore := RideRequest.departureBefore r;
  RequestSummary.seats := RideRequest.seats r;
  RequestSummary.luggage := RideRequest.luggage r;
  RequestSummary.budgetPerSeat := RideRequest.budgetPerSeat r;
  RequestSummary.status := shownStatus (RideRequest.status r) (RideRequest.expiresAt r);
  RequestSummary.expiresAt := RideRequest.expiresAt r;
  RequestSummary.openOffers := Z.of_nat (length (List.filter isLiveOffer (offersOf d (RideRequest.id r)))) |}.

Definition listRequests (userId : string) (q : RequestQuery.t) (admin : bool) : H RequestPage.t :=
  throw_if (bool_decide (RequestQuery.view q = ADMIN) && negb admin) "FORBIDDEN";;
  found ← get (fun s => (sort_desc RideRequest.createdAt (where_ prisma.rideRequest (requestWhere (St.db s) userId q) (St.db s)), St.db s));
  let '(all, d) := found in
  let total := Z.of_nat (length all) in
  mret {| RequestPage.items := map (summary d) (take 20 (drop (Z.to_nat ((RequestQuery.page q - 1) * 20)) all));
          RequestPage.total := total; RequestPage.page := RequestQuery.page q;
          RequestPage.totalPages := Z.max 1 ((total + 19) / 20) |}.

Definition offerView (request : RideRequest.t) (offer : RideRequestOffer.t) : H OfferView.t :=
  ride ← findUniqueOrThrow prisma.ride (RideRequestOffer.rideId offer);
  driver ← get (fun s => personOf (St.db s) (RideRequestOffer.driverId offer));
  terms ← resolveRideFeeTerms (RideRequestOffer.rideId offer);
  mret {| OfferView.offer := offer <| RideRequestOffer.status ::= fun st => shownStatus st (RideRequestOffer.expiresAt offer) |>;
          OfferView.driver := driver; OfferView.ride := ride;
          OfferView.price := calculateBookingPrice {|
            PriceInput.basePricePerSeat := Ride.basePricePerSeat ride; PriceInput.seatsBooked := RideRequest.seats request;
            PriceInput.currency := Some (Ride.currency ride);
            PriceInput.serviceFeePercent := ServiceFeeTerms.serviceFeePercent terms;
            PriceInput.serviceFeeFlat := ServiceFeeTerms.serviceFeeFlat terms |} |}.

Definition requestDetails (id userId : string) (admin : bool) : H RequestDetails.t :=
  request ← findUnique prisma.rideRequest id;
  match request with
  | None => throw "NOT_FOUND"
  | Some request =>
      d ← get St.db;
      let offers := sort_desc RideRequestOffer.createdAt (offersOf d id) in
      let owner := bool_decide (RideRequest.riderId request = userId) in
      let ownOffers := List.filter (fun o => bool_decide (RideRequestOffer.driverId o = userId)) offers in
      throw_if (negb owner && negb admin &&
        (blockBetween d userId (RideRequest.riderId request) ||
         negb (isOpen RideRequest.status request) && bool_decide (ownOffers = []))) "NOT_FOUND";;
      views ← collect (offerView request) (if owner || admin then offers else ownOffers);
      mret {| RequestDetails.request := request <| RideRequest.status ::= fun st => shownStatus st (RideRequest.expiresAt request) |>;
              RequestDetails.rider := personOf d (RideRequest.riderId request);
              RequestDetails.isOwner := owner; RequestDetails.offers := views |}
  end.

(** *** Offers *)

(** A route that can be driven: its line, its length and its time. *)
Definition drivable (route : option GoogleRoute.t) : option (string * Z * Z) :=
  match truthy (route ≫= GoogleRoute.encodedPolyline), truthy_Z (route ≫= GoogleRoute.distanceMeters),
        parseInt (default EmptyString (route ≫= GoogleRoute.duration)) with
  | Some polyline, Some meters, Some duration => if 0 <? duration then Some (polyline, meters, duration) else None
  | _, _, _ => None
  end.

(** [detectBlockedRoute(undefined)] throws. *)
Definition routeIsPublishable (route : option GoogleRoute.t) : H bool :=
  match route with Some route => mret (detectBlockedRoute route).1 | None => throw "TypeError" end.

(** The ride of an offer: the whole route, not published. *)
Definition offeredRide (id driverId : string) (request : RideRequest.t) (input : OfferInput.t) (route : string * Z * Z) : Ride.t :=
  Ride.defaults id now
    <| Ride.driverId := driverId |> <| Ride.vehicleId := Some (OfferInput.vehicleId input) |>
    <| Ride.originPlaceId := RideRequest.originPlaceId request |> <| Ride.originAddress := RideRequest.originAddress request |>
    <| Ride.originLat := RideRequest.originLat request |> <| Ride.originLng := RideRequest.originLng request |>
    <| Ride.destinationPlaceId := RideRequest.destinationPlaceId request |>
    <| Ride.destinationAddress := RideRequest.destinationAddress request |>
    <| Ride.destinationLat := RideRequest.destinationLat request |> <| Ride.destinationLng := RideRequest.destinationLng request |>
    <| Ride.departureDate := dateColumn (OfferInput.departureAt input) |>
    <| Ride.departureTime := isoClock (OfferInput.departureAt input) |>
    <| Ride.totalSeats := OfferInput.totalSeats input |> <| Ride.availableSeats := OfferInput.totalSeats input |>
    <| Ride.basePricePerSeat := OfferInput.pricePerSeat input |> <| Ride.currency := "EUR"%string |>
    <| Ride.maxLuggagePerPerson := math_ceil (ndiv (num_of_Z (RideRequest.luggage request)) (num_of_Z (RideRequest.seats request))) |>
    <| Ride.routePolyline := Some route.1.1 |> <| Ride.routeDistanceMeters := Some route.1.2 |>
    <| Ride.routeDurationSeconds := Some route.2 |>
    <| Ride.status := RideStatus.DRAFT |>
    <| Ride.notes := Some "Shared ride arranged from a rider request. The journey does not depend on additional riders joining."%string |>.

(** The transaction of an offer. *)
Definition insertOffer (requestId driverId : string) (request : RideRequest.t) (input : OfferInput.t) (route : string * Z * Z)
    : H RideRequestOffer.t :=
  current ← findUnique prisma.rideRequest requestId;
  throw_if (match current with
            | None => true
            | Some c => negb (isOpen RideRequest.status c) || (RideRequest.expiresAt c <=? now)
            end) "REQUEST_UNAVAILABLE";;
  mine ← findMany prisma.rideRequestOffer (fun o =>
    bool_decide (RideRequestOffer.requestId o = requestId) && bool_decide (RideRequestOffer.driverId o = driverId) && isLiveOffer o);
  throw_if (negb (bool_decide (mine = []))) "Withdraw your existing offer before sending another.";;
  assertDriverHasNoOverlappingRide driverId (dateColumn (OfferInput.departureAt input)) (isoClock (OfferInput.departureAt input))
    (Some route.2) None;;
  rideId ← randomUUID;
  ride ← create prisma.ride rideId (offeredRide rideId driverId request input route);
  createLeg rideId 0;;
  pricing ← validateAndSnapshotPricing rideId (kilometers (num_of_Z route.1.2)) (OfferInput.pricePerSeat input) None;
  throw_if (negb (pv_valid pricing.1)) "PRICE_OUT_OF_RANGE";;
  offerId ← randomUUID;
  create prisma.rideRequestOffer offerId
    (RideRequestOffer.defaults offerId now
      <| RideRequestOffer.requestId := requestId |> <| RideRequestOffer.driverId := driverId |>
      <| RideRequestOffer.rideId := rideId |>
      <| RideRequestOffer.expiresAt := Z.min (RideRequest.expiresAt request) (now + OfferInput.expiresInHours input * 3600000) |>).

Definition createOffer (requestId driverId : string) (input : OfferInput.t) : H RideRequestOffer.t :=
  assertActiveUser driverId;;
  assertDriverCanPublish driverId (Some (OfferInput.vehicleId input));;
  details ← requestDetails requestId driverId false;
  let request := RequestDetails.request details in
  throw_if (bool_decide (RideRequest.riderId request = driverId) || negb (isOpen RideRequest.status request) ||
            (RideRequest.expiresAt request <=? now)) "REQUEST_UNAVAILABLE";;
  let departure := OfferInput.departureAt input in
  check (assertRequestWindow departure departure now);;
  check (assertOfferFits request departure (OfferInput.totalSeats input));;
  match multiRoute {| LatLng.lat := RideRequest.originLat request; LatLng.lng := RideRequest.originLng request |}
                   {| LatLng.lat := RideRequest.destinationLat request; LatLng.lng := RideRequest.destinationLng request |} with
  | None => throw "ROUTES_FAILED"
  | Some routeOptions =>
      let route := head routeOptions in
      publishable ← routeIsPublishable route;
      throw_if (negb publishable) "NON_ROAD_ROUTE_NOT_ALLOWED";;
      match drivable route with
      | None => throw "A drivable route could not be calculated."
      | Some route =>
          offer ← transaction (insertOffer requestId driverId request input route);
          notify (RideRequest.riderId request);;
          mret offer
      end
  end.

Definition closeRequest (id userId : string) (admin : bool) : H unit :=
  transaction (
    updated ← updateManyId prisma.rideRequest id
      (fun r => (admin || bool_decide (RideRequest.riderId r = userId)) && isOpen RideRequest.status r)
      (fun r => r <| RideRequest.status := "CANCELLED"%string |>);
    throw_if (updated =? 0) "Only an open request can be cancelled. For a confirmed journey, cancel the booking instead.";;
    updateMany prisma.rideRequestOffer
      (fun o => bool_decide (RideRequestOffer.requestId o = id) && isOpen RideRequestOffer.status o)
      (fun o => o <| RideRequestOffer.status := "CLOSED"%string |>);;
    mret tt).

Definition withdrawOffer (id driverId : string) : H unit :=
  updated ← updateManyId prisma.rideRequestOffer id
    (fun o => bool_decide (RideRequestOffer.driverId o = driverId) && isOpen RideRequestOffer.status o)
    (fun o => o <| RideRequestOffer.status := "WITHDRAWN"%string |>);
  throw_if (updated =? 0) "This offer is already selected or closed.".

(** *** Checkout *)

Section checkout.
Context `{Codec}.
Variable routeSharesBetween : Ride.t -> SegmentPoint.t -> SegmentPoint.t -> option (num * num).

(** The booking of an offer that was checked out before. *)
Definition resumeCheckout (riderId bookingId : string) (offer : RideRequestOffer.t) (request : RideRequest.t)
    : H (option BookingResponse.t) :=
  booking ← getBookingById riderId bookingId;
  match booking with
  | None => throw "NOT_FOUND"
  | Some booking =>
      throw_if (bool_decide (RideRequestOffer.status offer = "SELECTED"%string) &&
                match RideRequest.checkoutExpiresAt request with Some t => t <=? now | None => true end)
        "Checkout expired. Refresh after the reservation is released.";;
      row ← findUnique prisma.rideBooking bookingId;
      match row, row ≫= fun r => truthy (RideBooking.stripePaymentIntentId r) with
      | Some row, Some intentId =>
          if decide (RideBooking.status row = BookingStatus.PAYMENT_PENDING) then
            intent ← retrieveIntent intentId;
            if decide (PaymentIntent.status intent = "succeeded"%string) then
              applyStripePaymentSucceededToBooking intent;;
              getBookingById riderId bookingId
            else
              ensureRequestPayment row;;
              mret (Some {| BookingResponse.booking := BookingResponse.booking booking;
                            BookingResponse.resumed := BookingResponse.resumed booking;
                            BookingResponse.priceBreakdown := BookingResponse.priceBreakdown booking;
                            BookingResponse.payment :=
                              Some (PaymentIntent.id intent, PaymentIntent.client_secret intent, PaymentIntent.currency intent) |})
          else mret (Some booking)
      | _, _ => mret (Some booking)
      end
  end.

Definition checkoutInput (rideId : string) (seats : Z) : CreateBookingInput.t := {|
  CreateBookingInput.rideId := rideId;
  CreateBookingInput.segmentId := None;
  CreateBookingInput.seatsBooked := seats;
  CreateBookingInput.requiresChildSeat := false;
  CreateBookingInput.travelingWithChildUnderTwo := false;
  CreateBookingInput.bringingOwnChildSeat := false;
  CreateBookingInput.pickupWaypointId := None;
  CreateBookingInput.dropoffWaypointId := None;
  CreateBookingInput.responseExpiryOption := None |}.

Definition checkoutOffer (offerId riderId : string) : H (option BookingResponse.t) :=
  offer ← findUnique prisma.rideRequestOffer offerId;
  match offer with
  | None => throw "NOT_FOUND"
  | Some offer =>
      included ← includeOffer offer;
      let '(request, ride) := included in
      throw_if (bool_decide (RideRequest.riderId request <> riderId)) "NOT_FOUND";;
      match truthy (RideRequestOffer.bookingId offer), bool_decide (RideRequestOffer.status offer ∈ ["SELECTED"; "ACCEPTED"]%string) with
      | Some bookingId, true => resumeCheckout riderId bookingId offer request
      | _, _ =>
          assertActiveUser riderId;;
          assertActiveUser (RideRequestOffer.driverId offer);;
          assertDriverCanPublish (RideRequestOffer.driverId offer) (Ride.vehicleId ride);;
          booking ← createBooking routeSharesBetween riderId (checkoutInput (RideRequestOffer.rideId offer) (RideRequest.seats request)) (Some offerId);
          mret (Some booking)
      end
  end.
End checkout.

(** *** Checkouts that were not paid in time *)

Definition paymentOfBooking (d : Db.t) (bookingId : string) : option Payment.t :=
  head (where_ prisma.payment (fun p => bool_decide (Payment.bookingId p = bookingId)) d).

Definition snapshotOffer (d : Db.t) (offer : RideRequestOffer.t) : Expired.t :=
  let booking := b ← (RideRequestOffer.bookingId offer ≫= fun id => Db.rideBooking d !! id);
                 (fun r => (b, r)) <$> Db.ride d !! RideBooking.rideId b in
  {| Expired.offer := offer; Expired.booking := booking;
     Expired.payment := b ← booking; paymentOfBooking d (RideBooking.id b.1) |}.

Definition checkoutExpired (d : Db.t) (o : RideRequestOffer.t) : bool :=
  bool_decide (RideRequestOffer.status o = "SELECTED"%string) &&
  match Db.rideRequest d !! RideRequestOffer.requestId o ≫= RideRequest.checkoutExpiresAt with
  | Some t => t <=? now
  | None => false
  end.

(** The payment is the one the sweep saw. *)
Definition samePayment (seen current : option Payment.t) : bool :=
  match seen, current with
  | Some p, Some c => bool_decide (Payment.id c = Payment.id p) &&
                      bool_decide (Payment.stripePaymentIntentId c = Payment.stripePaymentIntentId p)
  | None, None => true
  | _, _ => false
  end.

(** [false] when the booking changed since it was read. *)
Definition cancelExpired (seen : option Payment.t) (booking : RideBooking.t) (ride : Ride.t) : H bool :=
  current ← get (fun s => paymentOfBooking (St.db s) (RideBooking.id booking));
  updated ← updateManyId prisma.rideBooking (RideBooking.id booking)
    (fun b => bool_decide (RideBooking.status b = BookingStatus.PAYMENT_PENDING) &&
              bool_decide (RideBooking.stripePaymentIntentId b = RideBooking.stripePaymentIntentId booking) &&
              samePayment seen current)
    (fun b => b <| RideBooking.status := BookingStatus.CANCELLED |> <| RideBooking.cancelledAt := Some now |>
                <| RideBooking.cancellationReason := Some "Ride request checkout expired"%string |>);
  if updated =? 0 then
    mret (bool_decide (RideBooking.status booking ∈ [BookingStatus.PAYMENT_FAILED; BookingStatus.CANCELLED]))
  else releaseBookingSeats (RideBooking.id booking) (seats_input booking (Ride.totalSeats ride));; mret true.

Definition releaseCheckout (x : Expired.t) : H unit :=
  let offer := Expired.offer x in
  released ← match Expired.booking x with
             | Some (booking, ride) => cancelExpired (Expired.payment x) booking ride
             | None => mret true
             end;
  when released (
    expired ← updateManyId prisma.rideRequestOffer (RideRequestOffer.id offer)
      (fun o => bool_decide (RideRequestOffer.status o = "SELECTED"%string))
      (fun o => o <| RideRequestOffer.status := "EXPIRED"%string |>);
    when (negb (expired =? 0)) (
      update prisma.ride (RideRequestOffer.rideId offer) (fun r => r <| Ride.status := RideStatus.CANCELLED |>);;
      updateManyId prisma.rideRequest (RideRequestOffer.requestId offer)
        (fun r => bool_decide (RideRequest.status r = "CHECKOUT_PENDING"%string))
        (fun r => r <| RideRequest.status := "OPEN"%string |> <| RideRequest.checkoutExpiresAt := None |>);;
      mret tt)).

(** Whether the reservation may be released: the payment cannot succeed any more. *)
Definition settleIntent (x : Expired.t) : H bool :=
  let own := Expired.booking x ≫= fun b => truthy (RideBooking.stripePaymentIntentId b.1) in
  match (match own with Some i => Some i | None => truthy (Expired.payment x ≫= Payment.stripePaymentIntentId) end) with
  | None => mret true
  | Some intentId =>
      intent ← retrieveIntent intentId;
      if decide (PaymentIntent.status intent = "succeeded"%string) then
        applyStripePaymentSucceededToBooking intent;; mret false
      else
        when (bool_decide (PaymentIntent.status intent <> "canceled"%string)) (cancelPaymentIntent intentId);;
        mret true
  end.

Definition expireCheckout (x : Expired.t) : H unit :=
  attempt (release ← settleIntent x; when release (transaction (releaseCheckout x))).

Definition expireRequestCheckouts : H unit :=
  pending ← get (fun s => map (snapshotOffer (St.db s)) (take 100 (where_ prisma.rideRequestOffer (checkoutExpired (St.db s)) (St.db s))));
  for_each pending expireCheckout;;
  updateMany prisma.rideRequest (fun r => isOpen RideRequest.status r && (RideRequest.expiresAt r <=? now))
    (fun r => r <| RideRequest.status := "EXPIRED"%string |>);;
  updateMany prisma.rideRequestOffer (fun o => isOpen RideRequestOffer.status o && (RideRequestOffer.expiresAt o <=? now))
    (fun o => o <| RideRequestOffer.status := "EXPIRED"%string |>);;
  mret tt.
End market.
