(* ===== verification/Deletion.v ===== *)
(** * Deleting an account

    Models [deleteUserAccount] of [modules/user/user-gdpr.service.ts]: the rides and
    bookings of the user are cancelled and refunded, the sessions end and most of the personal
    data is removed.  What Redis remembers of the user, and [hardDeleteUserAccount], which goes
    on to erase every row of the user by raw SQL, are not modelled. *)

From Stdlib Require Import ZArith Lia.
From stdpp Require Import base list option strings gmap.
From S2P Require Import Prelude JsNumber Money Schema Store Seats Time Gateway.

Open Scope Z_scope.

Module UserGdpr.

Definition ACTIVE_BOOKING_STATUSES : list BookingStatus.t :=
  [BookingStatus.DRIVER_PENDING; BookingStatus.CONFIRMED; BookingStatus.IN_PROGRESS].

Definition CANCELLABLE_RIDE_STATUSES : list RideStatus.t := [RideStatus.PUBLISHED; RideStatus.IN_PROGRESS].

Definition isActive (b : RideBooking.t) : bool := bool_decide (RideBooking.status b ∈ ACTIVE_BOOKING_STATUSES).

(** An offer that is being checked out, of the driver or on a request of the rider. *)
Definition checkoutOf (userId : string) (d : Db.t) (o : RideRequestOffer.t) : bool :=
  bool_decide (RideRequestOffer.status o = "SELECTED"%string) &&
  (bool_decide (RideRequestOffer.driverId o = userId) ||
   match Db.rideRequest d !! RideRequestOffer.requestId o with
   | Some r => bool_decide (RideRequest.riderId r = userId)
   | None => false
   end).

(** The rides to cancel, each with its bookings. *)
Definition activeRides (userId : string) (d : Db.t) : list (Ride.t * list RideBooking.t) :=
  map (fun ride => (ride, where_ prisma.rideBooking (fun b => bool_decide (RideBooking.rideId b = Ride.id ride) && isActive b) d))
    (where_ prisma.ride (fun r => bool_decide (Ride.driverId r = userId) && bool_decide (Ride.status r ∈ CANCELLABLE_RIDE_STATUSES)) d).

(** The bookings of a passenger, each with its ride. *)
Definition activeBookings (userId : string) (d : Db.t) : list (RideBooking.t * Ride.t) :=
  omap (fun b => pair b <$> Db.ride d !! RideBooking.rideId b)
    (where_ prisma.rideBooking (fun b => bool_decide (RideBooking.passengerId b = userId) && isActive b) d).

Definition anonymous (u : User.t) : User.t :=
  u <| User.firstName := None |> <| User.lastName := None |> <| User.salutation := None |> <| User.gender := None |>
    <| User.dob := None |> <| User.email := None |> <| User.phone := None |> <| User.avatarUrl := None |>
    <| User.detectedCountry := None |> <| User.emailVerified := false |> <| User.phoneVerified := false |>
    <| User.isVerified := false |> <| User.isBanned := true |> <| User.stripeAccountId := None |>
    <| User.tosAcceptedAt := None |> <| User.tosVersion := None |> <| User.privacyAcceptedAt := None |>
    <| User.privacyVersion := None |>.

(** The intent and the amount to give back. *)
Definition refundOf (b : RideBooking.t) : option (string * Z) :=
  match truthy (RideBooking.stripePaymentIntentId b), truthy_num (RideBooking.paymentAmount b) with
  | Some intent, Some amount => Some (intent, toMinorCurrencyUnits amount)
  | _, _ => None
  end.

Section deletion.
Context `{Env}.

(** [booking] as it was read. *)
Definition cancelled (booking b : RideBooking.t) : RideBooking.t :=
  b <| RideBooking.status := BookingStatus.CANCELLED |> <| RideBooking.cancelledAt := Some now |>
    <| RideBooking.cancelledByRole := Some "SYSTEM"%string |> <| RideBooking.refundAmount := RideBooking.paymentAmount booking |>
    <| RideBooking.refundPercent := Some (num_of_Z 100) |>.

Definition cancelAndRefund (booking : RideBooking.t) (totalSeats : Z) : H unit :=
  update prisma.rideBooking (RideBooking.id booking) (cancelled booking);;
  releaseBookingSeats (RideBooking.id booking) (seats_input booking totalSeats);;
  match refundOf booking with
  | Some (intent, amountMinor) =>
      refundPaymentIntent intent amountMinor;;
      update prisma.rideBooking (RideBooking.id booking) (fun b => b <| RideBooking.refundedAt := Some now |>);;
      mret tt
  | None => mret tt
  end.

(** One transaction per ride. *)
Definition cancelDriverRide (r : Ride.t * list RideBooking.t) : H unit :=
  transaction (
    update prisma.ride (Ride.id r.1) (fun ride => ride <| Ride.status := RideStatus.CANCELLED |>);;
    for_each r.2 (fun booking => cancelAndRefund booking (Ride.totalSeats r.1))).

(** One transaction per booking. *)
Definition cancelOwnBooking (b : RideBooking.t * Ride.t) : H unit := transaction (cancelAndRefund b.1 (Ride.totalSeats b.2)).

(** The offers on a deleted request go with it. *)
Definition deleteRequests (userId : string) : H unit :=
  requests ← findMany prisma.rideRequest (fun r => bool_decide (RideRequest.riderId r = userId));
  deleteMany prisma.rideRequest (fun r => bool_decide (RideRequest.riderId r = userId));;
  deleteMany prisma.rideRequestOffer (fun o => bool_decide (RideRequestOffer.requestId o ∈ map RideRequest.id requests));;
  mret tt.

Definition deleteUserAccount (userId : string) : H unit :=
  checkouts ← get (fun s => where_ prisma.rideRequestOffer (checkoutOf userId (St.db s)) (St.db s));
  throw_if (negb (bool_decide (checkouts = [])))
    "A ride request payment is still being processed. Please retry account deletion after checkout expires.";;
  deleteRequests userId;;
  deleteMany prisma.rideRequestOffer (fun o =>
    bool_decide (RideRequestOffer.driverId o = userId) && negb (bool_decide (RideRequestOffer.status o = "ACCEPTED"%string)));;
  rides ← get (fun s => activeRides userId (St.db s));
  for_each rides cancelDriverRide;;
  bookings ← get (fun s => activeBookings userId (St.db s));
  for_each bookings cancelOwnBooking;;
  deleteMany prisma.refreshToken (fun t => bool_decide (RefreshToken.userId t = userId));;
  update prisma.user userId anonymous;;
  mret tt.
End deletion.
End UserGdpr.
