(* ===== verification/Disputes.v ===== *)
(** * Disputes

    Models [modules/dispute/]: collecting the evidence of a dispute, the rule
    engine that evaluates it ([dispute.service.ts]) and the settlement that refunds
    the rider or releases the driver's money ([dispute-settlement.service.ts]).
    Opening a dispute is in [RideOps.v]; how often a payment is refunded, by settlements and
    by administrators, in [Support.v].  Evidence is the JSON object stored with
    the dispute: dates are ISO texts and a missing value is null. *)

From Stdlib Require Import ZArith QArith Lia.
From stdpp Require Import base list option strings gmap pretty.
From S2P Require Import Prelude JsNumber JsText Money Schema Store Seats Payments Payout Time Gateway.
From S2P Require Import Rewards RideRequest Booking DriverBooking RideOps.

Open Scope Z_scope.

(** ** JSON *)

(** [j.name] and [j?.name]; [None] is undefined. *)
Definition jfield (name : string) (j : option Json) : option Json :=
  match j with
  | Some (JObject fields) => snd <$> List.find (fun f => bool_decide (f.1 = name)) fields
  | _ => None
  end.

(** [a ?? b] *)
Definition jor (a b : option Json) : option Json :=
  match a with None | Some JNull => b | _ => a end.

(** [Boolean(j)] *)
Definition jtruthy (j : option Json) : bool :=
  match j with
  | None | Some JNull => false
  | Some (JBool b) => b
  | Some (JNumber n) => negb (Qeq_bool n 0)
  | Some (JString s) => negb (bool_decide (s = EmptyString))
  | Some (JArray _) | Some (JObject _) => true
  end.

(** [Number(j) > 0] for the counts of the evidence. *)
Definition jcount (j : option Json) : num :=
  match j with Some (JNumber n) => n | _ => num_of_Z 0 end.

Definition isoDate (t : option Z) : Json := joptional (fun t => JString (toISOString t)) t.
Definition jnumber (n : Z) : Json := JNumber (num_of_Z n).

(** ** Evidence *)

Definition MANUAL_OVERRIDE_EVENT_HINTS : list string := ["MANUAL"; "OVERRIDE"; "FALLBACK"; "SUPPORT"; "DEV"]%string.

Definition isManualOverrideEvent (eventType : string) (metadataJson : option Json) : bool :=
  existsb (fun hint => includes hint (toUpperCase eventType)) MANUAL_OVERRIDE_EVENT_HINTS ||
  existsb (fun name => jtruthy (jfield name metadataJson))
    ["manualOverride"; "supportOverride"; "simulation"; "overrideReason"]%string.

Definition buildEvidenceFactor (key label : string) (passed : bool) (weight : Z) (detail : string) : Json := JObject
  [("key", JString key); ("label", JString label); ("passed", JBool passed); ("weight", jnumber weight);
   ("detail", JString detail)]%string.

Definition rideStatus_text (st : RideStatus.t) : string :=
  match st with
  | RideStatus.DRAFT => "DRAFT" | RideStatus.PUBLISHED => "PUBLISHED" | RideStatus.SCHEDULED => "SCHEDULED"
  | RideStatus.READY_TO_START => "READY_TO_START" | RideStatus.IN_PROGRESS => "IN_PROGRESS"
  | RideStatus.COMPLETION_PENDING => "COMPLETION_PENDING" | RideStatus.COMPLETED => "COMPLETED"
  | RideStatus.CANCELLED => "CANCELLED" | RideStatus.EXPIRED => "EXPIRED" | RideStatus.DISPUTED => "DISPUTED"
  end.

Definition disputeStatus_text (st : DisputeStatus.t) : string :=
  match st with
  | DisputeStatus.OPEN => "OPEN" | DisputeStatus.EVIDENCE_COLLECTED => "EVIDENCE_COLLECTED"
  | DisputeStatus.AUTO_RESOLVED_RIDER_REFUND => "AUTO_RESOLVED_RIDER_REFUND"
  | DisputeStatus.AUTO_RESOLVED_DRIVER_PAYOUT => "AUTO_RESOLVED_DRIVER_PAYOUT"
  | DisputeStatus.NEEDS_MANUAL_REVIEW => "NEEDS_MANUAL_REVIEW"
  | DisputeStatus.WAITING_FOR_USER_RESPONSE => "WAITING_FOR_USER_RESPONSE"
  | DisputeStatus.RESOLVED_REFUND => "RESOLVED_REFUND" | DisputeStatus.RESOLVED_PAYOUT => "RESOLVED_PAYOUT"
  | DisputeStatus.RESOLVED_SPLIT => "RESOLVED_SPLIT" | DisputeStatus.ESCALATED => "ESCALATED"
  end.

(** The fields of the booking that both the selection and the snapshot carry. *)
Definition bookingFields (b : RideBooking.t) : list (string * Json) :=
  [("status", JString (status_text (RideBooking.status b))); ("passengerId", JString (RideBooking.passengerId b));
   ("pickupOtpVerifiedAt", isoDate (RideBooking.pickupOtpVerifiedAt b));
   ("dropOtpVerifiedAt", isoDate (RideBooking.dropOtpVerifiedAt b));
   ("driverArrivedAt", isoDate (RideBooking.driverArrivedAt b));
   ("waitTimerStartedAt", isoDate (RideBooking.waitTimerStartedAt b));
   ("onboardedAt", isoDate (RideBooking.onboardedAt b));
   ("dropoffConfirmedAt", isoDate (RideBooking.dropoffConfirmedAt b));
   ("riderDropoffConfirmedAt", isoDate (RideBooking.riderDropoffConfirmedAt b));
   ("noShowMarkedAt", isoDate (RideBooking.noShowMarkedAt b)); ("cancelledAt", isoDate (RideBooking.cancelledAt b));
   ("cancelledByRole", joptional JString (RideBooking.cancelledByRole b));
   ("cancellationReason", joptional JString (RideBooking.cancellationReason b));
   ("driverDecisionDeadlineAt", isoDate (RideBooking.driverDecisionDeadlineAt b));
   ("driverDecisionAt", isoDate (RideBooking.driverDecisionAt b));
   ("deadlineExpiredNotifiedAt", isoDate (RideBooking.deadlineExpiredNotifiedAt b));
   ("deadlineExtendedAt", isoDate (RideBooking.deadlineExtendedAt b));
   ("autoCancelledAt", isoDate (RideBooking.autoCancelledAt b)); ("completedAt", isoDate (RideBooking.completedAt b));
   ("createdAt", JString (toISOString (RideBooking.createdAt b)))]%string.

Definition locationJson (l : LocationUpdate.t) : Json := JObject
  [("lat", JNumber (LocationUpdate.lat l)); ("lng", JNumber (LocationUpdate.lng l));
   ("timestamp", JString (toISOString (LocationUpdate.timestamp l)));
   ("speed", joptional JNumber (LocationUpdate.speed l))]%string.

(** The columns selected of an event. *)
Definition eventJson (e : RideEvent.t) : Json := JObject
  [("eventType", JString (RideEvent.eventType e)); ("actorType", JString (RideEvent.actorType e));
   ("actorId", JString (RideEvent.actorId e)); ("clientTimestamp", JString (toISOString (RideEvent.clientTimestamp e)));
   ("lat", joptional JNumber (RideEvent.lat e)); ("lng", joptional JNumber (RideEvent.lng e));
   ("validationStatus", JString (RideEvent.validationStatus e));
   ("metadataJson", default JNull (RideEvent.metadataJson e))]%string.

Definition isOverride (e : RideEvent.t) : bool :=
  isManualOverrideEvent (RideEvent.eventType e) (RideEvent.metadataJson e).

Definition hasPosition (e : RideEvent.t) : bool :=
  bool_decide (is_Some (RideEvent.lat e)) && bool_decide (is_Some (RideEvent.lng e)).

Definition overrideJson (e : RideEvent.t) : Json := JObject
  [("eventType", JString (RideEvent.eventType e)); ("actorType", JString (RideEvent.actorType e));
   ("actorId", JString (RideEvent.actorId e)); ("timestamp", JString (toISOString (RideEvent.clientTimestamp e)));
   ("validationStatus", JString (RideEvent.validationStatus e)); ("hasLocation", JBool (hasPosition e));
   ("metadata", default JNull (RideEvent.metadataJson e))]%string.

Definition rideEventJson (e : RideEvent.t) : Json := JObject
  [("eventType", JString (RideEvent.eventType e)); ("actorType", JString (RideEvent.actorType e));
   ("actorId", JString (RideEvent.actorId e)); ("timestamp", JString (toISOString (RideEvent.clientTimestamp e)));
   ("hasLocation", JBool (bool_decide (is_Some (RideEvent.lat e)))); ("lat", joptional JNumber (RideEvent.lat e));
   ("lng", joptional JNumber (RideEvent.lng e)); ("validationStatus", JString (RideEvent.validationStatus e));
   ("isManualOverride", JBool (isOverride e))]%string.

Definition factorSummary (b : RideBooking.t) (locations riderGps overrides : nat) : list Json :=
  let some {A} (o : option A) := bool_decide (is_Some o) in
  let otp := some (RideBooking.pickupOtpVerifiedAt b) in
  let rider := some (RideBooking.riderDropoffConfirmedAt b) in
  let driver := some (RideBooking.dropoffConfirmedAt b) in
  let noShow := some (RideBooking.noShowMarkedAt b) in
  [buildEvidenceFactor "driver_gps" "Driver GPS history" (0 <? locations)%nat (if (0 <? locations)%nat then 20 else -20)
     (if (0 <? locations)%nat then pretty locations +:+ " driver location updates recorded."
      else "No driver location history was captured for the ride.");
   buildEvidenceFactor "rider_gps" "Rider GPS evidence" (0 <? riderGps)%nat (if (0 <? riderGps)%nat then 10 else -10)
     (if (0 <? riderGps)%nat then pretty riderGps +:+ " rider-side location-marking events recorded."
      else "No rider-side GPS evidence was recorded.");
   buildEvidenceFactor "manual_override" "Manual override signals" (0 <? overrides)%nat
     (if (0 <? overrides)%nat then -15 else 5)
     (if (0 <? overrides)%nat
      then pretty overrides +:+ " manual or fallback actions were recorded and must be reviewed with the ride evidence."
      else "No manual override actions were recorded.");
   buildEvidenceFactor "otp" "Pickup OTP evidence" otp (if otp then 20 else -5)
     (if otp then "Pickup OTP was verified before the ride progressed." else "Pickup OTP was not verified.");
   buildEvidenceFactor "dropoff_confirmation" "Drop-off confirmation" (rider || driver)
     (if rider || driver then 20 else -5)
     (if rider then "Rider confirmed drop-off." else if driver then "Driver marked the drop-off."
      else "No drop-off confirmation exists yet.");
   buildEvidenceFactor "no_show" "No-show evidence" noShow (if noShow then -10 else 5)
     (if noShow then "Booking was marked as no-show." else "No no-show mark was recorded.")]%string.

(** The position the driver or rider was last seen at. *)
Definition latestPosition {A} (lat lng : A -> option num) (at_ : A -> Z) (l : list A) : Json :=
  match last l with
  | None => JNull
  | Some x => JObject [("lat", joptional JNumber (lat x)); ("lng", joptional JNumber (lng x));
                       ("timestamp", JString (toISOString (at_ x)))]%string
  end.

Definition buildEvidence (b : RideBooking.t) (r : Ride.t) (locations : list LocationUpdate.t) (events : list RideEvent.t)
    : list (string * Json) :=
  let riderGps := List.filter (fun e => bool_decide (RideEvent.actorType e = "RIDER"%string) && hasPosition e) events in
  let overrides := List.filter isOverride events in
  let count {A} (l : list A) := jnumber (Z.of_nat (length l)) in
  let firstLast {A} (f : A -> Json) (l : list A) :=
    [("count", count l); ("firstUpdate", joptional f (head l)); ("lastUpdate", joptional f (last l))]%string in
  let happened {A} (o : option A) := JBool (bool_decide (is_Some o)) in
  [("booking", JObject (("id"%string, JString (RideBooking.id b)) :: bookingFields b));
   ("ride", JObject
      [("id", JString (Ride.id r)); ("status", JString (rideStatus_text (Ride.status r)));
       ("driverId", JString (Ride.driverId r)); ("actualStartTime", isoDate (Ride.actualStartTime r));
       ("actualEndTime", isoDate (Ride.actualEndTime r))]);
   ("signalSummary", JObject
      [("driverGpsCount", count locations); ("riderGpsCount", count riderGps); ("manualOverrideCount", count overrides);
       ("rideEventCount", count events);
       ("hasGpsSignals", JBool ((0 <? length locations)%nat || (0 <? length riderGps)%nat))]);
   ("locationHistory", JObject (firstLast locationJson locations));
   ("driverGps", JObject (firstLast locationJson locations ++
      [("latestPosition", latestPosition (fun l => Some (LocationUpdate.lat l)) (fun l => Some (LocationUpdate.lng l))
                            LocationUpdate.timestamp locations)]));
   ("riderGps", JObject (firstLast eventJson riderGps ++
      [("latestPosition", latestPosition RideEvent.lat RideEvent.lng RideEvent.clientTimestamp riderGps)]));
   ("manualOverrides", JObject [("count", count overrides); ("events", JArray (map overrideJson overrides))]);
   ("rideEvents", JArray (map rideEventJson events));
   ("otpVerified", happened (RideBooking.pickupOtpVerifiedAt b));
   ("dropoffConfirmed", happened (RideBooking.dropoffConfirmedAt b));
   ("riderConfirmedDropoff", happened (RideBooking.riderDropoffConfirmedAt b));
   ("noShowMarked", happened (RideBooking.noShowMarkedAt b));
   ("bookingSnapshot", JObject (bookingFields b));
   ("factorSummary", JArray (factorSummary b (length locations) (length riderGps) (length overrides)))]%string.

(** How an administrator may settle a dispute. *)
Inductive DisputeResolution := REFUND | PAYOUT | SPLIT | ESCALATE.
#[global] Instance DisputeResolution_eq_dec : EqDecision DisputeResolution.
Proof. solve_decision. Defined.

(** What [evaluateDispute] returns. *)
Module Evaluation.
Record t := { recommendation : string; riskScore : num; status : DisputeStatus.t; factors : list Json }.
End Evaluation.

Section disputes.
Context `{Env}.

(** The two queries. *)
Definition locationsOf (dispute : Dispute.t) (d : Db.t) : list LocationUpdate.t :=
  sort_by LocationUpdate.timestamp (where_ prisma.locationUpdate
    (fun l => bool_decide (LocationUpdate.rideId l = Dispute.rideId dispute)) d).

Definition eventsOf (dispute : Dispute.t) (d : Db.t) : list RideEvent.t :=
  sort_by RideEvent.serverTimestamp (where_ prisma.rideEvent
    (fun e => bool_decide (RideEvent.rideId e = Dispute.rideId dispute) &&
              bool_decide (RideEvent.bookingId e = Some (Dispute.bookingId dispute))) d).

Definition collectEvidence (disputeId : string) : H Json :=
  dispute ← findUnique prisma.dispute disputeId;
  match dispute with
  | None => throw "DISPUTE_NOT_FOUND"
  | Some dispute =>
      booking ← findUniqueOrThrow prisma.rideBooking (Dispute.bookingId dispute);
      ride ← findUniqueOrThrow prisma.ride (Dispute.rideId dispute);
      locationHistory ← get (fun s => locationsOf dispute (St.db s));
      rideEvents ← get (fun s => eventsOf dispute (St.db s));
      let evidence := JObject (buildEvidence booking ride locationHistory rideEvents) in
      update prisma.dispute disputeId (fun d =>
        d <| Dispute.evidenceJson := Some evidence |> <| Dispute.status := DisputeStatus.EVIDENCE_COLLECTED |>);;
      mret evidence
  end.

(** ** The rule engine *)

(** What the evidence says. *)
Record Signals := {
  driverGpsCount : num;
  riderGpsCount : num;
  manualOverrideCount : num;
  rideCompleted : bool;
  riderDropoffConfirmed : bool;
  driverDropoffConfirmed : bool;
  pickupOtpVerified : bool;
  noShowMarked : bool;
}.

Definition readSignals (evidence : Json) : Signals :=
  let e := Some evidence in
  let snapshot name := jfield name (jfield "bookingSnapshot" e) in
  let happened name1 name2 := jtruthy (jfield name1 e) || jtruthy (snapshot name2) in {|
  driverGpsCount := jcount (jor (jfield "count" (jfield "locationHistory" e)) (jfield "count" (jfield "driverGps" e)));
  riderGpsCount := jcount (jfield "count" (jfield "riderGps" e));
  manualOverrideCount := jcount (jfield "count" (jfield "manualOverrides" e));
  rideCompleted :=
    match jfield "status" (jfield "ride" e) with Some (JString s) => bool_decide (s = "COMPLETED"%string) | _ => false end
    || jtruthy (snapshot "completedAt"%string);
  riderDropoffConfirmed := happened "riderConfirmedDropoff" "riderDropoffConfirmedAt"%string;
  driverDropoffConfirmed := happened "dropoffConfirmed" "dropoffConfirmedAt"%string;
  pickupOtpVerified := happened "otpVerified" "pickupOtpVerifiedAt"%string;
  noShowMarked := happened "noShowMarked" "noShowMarkedAt"%string |}.

Definition hasGpsSignals (g : Signals) : bool := nlt (num_of_Z 0) (driverGpsCount g) || nlt (num_of_Z 0) (riderGpsCount g).
Definition hasStrongGpsSignals (g : Signals) : bool :=
  nlt (num_of_Z 0) (driverGpsCount g) && nlt (num_of_Z 0) (riderGpsCount g).

Definition riskScoreOf (g : Signals) : num :=
  let step (b : bool) (f : num -> num) x := if b then f x else x in
  let s := rnd (5 # 10) in
  let s := if hasStrongGpsSignals g then nsub s (rnd (18 # 100))
           else if hasGpsSignals g then nsub s (rnd (8 # 100)) else nadd s (rnd (15 # 100)) in
  let s := step (nlt (num_of_Z 0) (manualOverrideCount g)) (fun s =>
             nadd s (nmin (rnd (2 # 10)) (nadd (rnd (8 # 100)) (nmul (manualOverrideCount g) (rnd (3 # 100)))))) s in
  let s := step (pickupOtpVerified g) (fun s => nadd s (rnd (1 # 10))) s in
  let s := step (riderDropoffConfirmed g) (fun s => nsub s (rnd (28 # 100))) s in
  let s := step (driverDropoffConfirmed g && rideCompleted g) (fun s => nsub s (rnd (12 # 100))) s in
  let s := step (noShowMarked g && pickupOtpVerified g) (fun s => nadd s (rnd (25 # 100))) s in
  nmin (num_of_Z 1) (nmax (num_of_Z 0) (of_cents (to_fixed2_cents s))).

(** The recommendation and the status it leads to. *)
Definition MANUAL_REVIEW : string * DisputeStatus.t := ("MANUAL_REVIEW"%string, DisputeStatus.NEEDS_MANUAL_REVIEW).

Definition recommend (g : Signals) : string * DisputeStatus.t :=
  if noShowMarked g && pickupOtpVerified g
  then ("REFUND_RIDER"%string, DisputeStatus.AUTO_RESOLVED_RIDER_REFUND)
  else if riderDropoffConfirmed g && (rideCompleted g || driverDropoffConfirmed g || hasStrongGpsSignals g)
  then ("PAYOUT_DRIVER"%string, DisputeStatus.AUTO_RESOLVED_DRIVER_PAYOUT)
  else if nlt (num_of_Z 0) (manualOverrideCount g) && negb (hasStrongGpsSignals g) then MANUAL_REVIEW
  else if negb (hasGpsSignals g) then MANUAL_REVIEW
  else if driverDropoffConfirmed g && negb (riderDropoffConfirmed g) && rideCompleted g then MANUAL_REVIEW
  else MANUAL_REVIEW.

Definition evaluationFactor (st : DisputeStatus.t) : Json :=
  let auto := bool_decide (st <> DisputeStatus.NEEDS_MANUAL_REVIEW) in
  buildEvidenceFactor "evaluation_path" "Evaluation path" auto (if auto then 25 else 0)
    match st with
    | DisputeStatus.AUTO_RESOLVED_RIDER_REFUND => "Dispute auto-resolved in favor of the rider."
    | DisputeStatus.AUTO_RESOLVED_DRIVER_PAYOUT => "Dispute auto-resolved in favor of the driver."
    | _ => "The dispute remains in manual review."
    end.

(** The data of the update that records an evaluation. *)
Definition recordEvaluation (recommendation : string) (riskScore : num) (status : DisputeStatus.t) (evidence : Json)
    (factors : list Json) (d : Dispute.t) : Dispute.t :=
  let evaluation := JObject
    [("recommendation", JString recommendation); ("riskScore", JNumber riskScore);
     ("status", JString (disputeStatus_text status)); ("evaluatedAt", JString (toISOString now));
     ("factors", JArray factors)]%string in
  let fields := match evidence with JObject l => l | _ => [] end in
  let d := d <| Dispute.recommendation := Some recommendation |> <| Dispute.riskScore := Some riskScore |>
             <| Dispute.status := status |>
             <| Dispute.evidenceJson := Some (JObject (spread fields [("evaluation"%string, evaluation)])) |> in
  if String.prefix "AUTO_RESOLVED" (disputeStatus_text status)
  then d <| Dispute.resolvedAt := Some now |> <| Dispute.resolution := Some recommendation |> else d.

Definition evaluateDispute (disputeId : string) : H Evaluation.t :=
  dispute ← findUnique prisma.dispute disputeId;
  match dispute with
  | None => throw "DISPUTE_NOT_FOUND"
  | Some dispute =>
      match Dispute.evidenceJson dispute with
      | None | Some JNull => throw "EVIDENCE_NOT_COLLECTED"
      | Some evidence =>
          let g := readSignals evidence in
          let riskScore := riskScoreOf g in
          let '(recommendation, status) := recommend g in
          let collected := match jfield "factorSummary" (Some evidence) with Some (JArray l) => l | _ => [] end in
          let factors := evaluationFactor status :: collected in
          update prisma.dispute disputeId (recordEvaluation recommendation riskScore status evidence factors);;
          mret {| Evaluation.recommendation := recommendation; Evaluation.riskScore := riskScore;
                  Evaluation.status := status; Evaluation.factors := factors |}
      end
  end.

(** The resolution without settlement, for the four resolutions an administrator names. *)
Definition resolveDispute (disputeId resolution resolvedBy : string) : H Dispute.t :=
  dispute ← findUnique prisma.dispute disputeId;
  match dispute with
  | None => throw "DISPUTE_NOT_FOUND"
  | Some _ =>
      let newStatus :=
        if bool_decide (resolution = "REFUND"%string) then DisputeStatus.RESOLVED_REFUND
        else if bool_decide (resolution = "PAYOUT"%string) then DisputeStatus.RESOLVED_PAYOUT
        else if bool_decide (resolution = "SPLIT"%string) then DisputeStatus.RESOLVED_SPLIT
        else DisputeStatus.ESCALATED in
      update prisma.dispute disputeId (fun d =>
        d <| Dispute.status := newStatus |> <| Dispute.resolution := Some resolution |>
          <| Dispute.resolvedBy := Some resolvedBy |> <| Dispute.resolvedAt := Some now |>)
  end.

(** ** Settlement *)

Definition clampRefundPercent (value : option num) (fallback : num) : num :=
  match value with
  | None => fallback
  | Some value => nmin (num_of_Z 100) (nmax (num_of_Z 0) (num_of_Z (math_round value)))
  end.

Definition round2 (value : num) : num := of_cents (to_fixed2_cents value).

Definition SETTLEABLE_DISPUTE_STATUSES : list DisputeStatus.t :=
  OPEN_DISPUTE_STATUSES ++ [DisputeStatus.AUTO_RESOLVED_RIDER_REFUND; DisputeStatus.AUTO_RESOLVED_DRIVER_PAYOUT].

Definition hasOpenDisputeForBooking (bookingId : string) : H bool :=
  disputes ← findMany prisma.dispute (fun d =>
    bool_decide (Dispute.bookingId d = bookingId) && bool_decide (Dispute.status d ∈ OPEN_DISPUTE_STATUSES));
  mret (bool_decide (disputes <> [])).

(** [booking.refundedAt || booking.refundAmount] *)
Definition existingRefund (b : RideBooking.t) : bool :=
  bool_decide (is_Some (RideBooking.refundedAt b)) ||
  match RideBooking.refundAmount b with Some x => negb (Qeq_bool x 0) | None => false end.

(** The gross amount the settlement is about. *)
Definition settledAmount (payment : option Payment.t) (b : RideBooking.t) : num :=
  default (default (RideBooking.totalPrice b) (RideBooking.paymentAmount b)) (Payment.amountTotal <$> payment).

Definition resolution_text (r : DisputeResolution) : string :=
  match r with REFUND => "REFUND" | PAYOUT => "PAYOUT" | SPLIT => "SPLIT" | ESCALATE => "ESCALATE" end.

(** The block that gives the money back: the booking first, then Stripe. *)
Definition refundBooking (booking : RideBooking.t) (payment : option Payment.t) (driverId currency : string)
    (resolution : DisputeResolution) (refundAmount refundPercent : num) (split : RefundSplit.t) : H unit :=
  let id := RideBooking.id booking in
  update prisma.rideBooking id (fun b =>
    b <| RideBooking.refundAmount := Some refundAmount |> <| RideBooking.refundPercent := Some refundPercent |>
      <| RideBooking.status := if decide (resolution = REFUND) then BookingStatus.CANCELLED else BookingStatus.DISPUTED |>);;
  match payment with
  | Some payment => update prisma.payment (Payment.id payment) (set_status PaymentStatus.REFUND_PENDING);; mret tt
  | None => mret tt
  end;;
  match truthy (RideBooking.stripePaymentIntentId booking), RideBooking.paymentCapturedAt booking with
  | Some intentId, Some _ =>
      refundId ← refundPaymentIntent intentId (toMinorCurrencyUnits refundAmount);
      update prisma.rideBooking id (fun b =>
        b <| RideBooking.refundId := Some refundId |> <| RideBooking.refundedAt := Some now |>);;
      mret tt
  | _, _ => update prisma.rideBooking id (fun b => b <| RideBooking.refundedAt := Some now |>);; mret tt
  end;;
  match payment with
  | Some payment =>
      recordRefund (Payment.id payment) id (RideBooking.passengerId booking) driverId refundAmount
        (RefundSplit.fareRefundAmount split) (RefundSplit.feeRefundAmount split) currency;;
      update prisma.payment (Payment.id payment) (fun p =>
        p <| Payment.refundedFareAmount ::= fun x => nadd x (RefundSplit.fareRefundAmount split) |>
          <| Payment.refundedFeeAmount ::= fun x => nadd x (RefundSplit.feeRefundAmount split) |>);;
      mret tt
  | None => mret tt
  end.

(** The payment after a refund: a share may be left for the driver. *)
Definition afterRefund (resolution : DisputeResolution) (payoutAmount : num) (p : Payment.t) : Payment.t :=
  if decide (resolution = REFUND) then set_status PaymentStatus.REFUNDED p
  else if nlt (num_of_Z 0) payoutAmount
  then p <| Payment.status := PaymentStatus.PAYOUT_ELIGIBLE |> <| Payment.payoutEligibleAt := Some now |>
  else p <| Payment.status := PaymentStatus.REFUNDED |> <| Payment.payoutEligibleAt := None |>.

(** What a resolution does, and the final status of the dispute and its text. *)
Definition applyResolution (booking : RideBooking.t) (payment : option Payment.t) (ride : Ride.t)
    (resolution : DisputeResolution) (refundPercentInput : option num) : H (DisputeStatus.t * string) :=
  let paymentAmount := settledAmount payment booking in
  let paymentCurrency := default (default (Ride.currency ride) (RideBooking.paymentCurrency booking))
                           (Payment.currency <$> payment) in
  match resolution with
  | ESCALATE => mret (DisputeStatus.ESCALATED, resolution_text resolution)
  | REFUND | SPLIT =>
      let refundPercent := if decide (resolution = REFUND) then num_of_Z 100
                           else clampRefundPercent refundPercentInput (num_of_Z 50) in
      let refundAmount := round2 (ndiv (nmul paymentAmount refundPercent) (num_of_Z 100)) in
      let refundSplit := resolveRefundSplit paymentAmount (default paymentAmount (Payment.fareAmount <$> payment))
                           refundAmount in
      let payoutAmount := nmax (num_of_Z 0)
        (round2 (nsub (default paymentAmount (netFareAmount <$> payment)) (RefundSplit.fareRefundAmount refundSplit))) in
      when (nlt (num_of_Z 0) refundAmount && negb (existingRefund booking))
        (refundBooking booking payment (Ride.driverId ride) paymentCurrency resolution refundAmount refundPercent
           refundSplit);;
      match payment with
      | Some payment => update prisma.payment (Payment.id payment) (afterRefund resolution payoutAmount);; mret tt
      | None => mret tt
      end;;
      mret (if decide (resolution = REFUND) then (DisputeStatus.RESOLVED_REFUND, "REFUND"%string)
            else (DisputeStatus.RESOLVED_SPLIT, ("SPLIT:" +:+ number_to_string refundPercent +:+ "%_REFUND")%string))
  | PAYOUT =>
      throw_if (existingRefund booking && nle (num_of_Z 100) (default (num_of_Z 0) (RideBooking.refundPercent booking)))
        "BOOKING_ALREADY_REFUNDED";;
      match payment with
      | Some payment =>
          update prisma.payment (Payment.id payment) (fun p =>
            p <| Payment.status := PaymentStatus.PAYOUT_ELIGIBLE |> <| Payment.payoutEligibleAt := Some now |>);;
          mret tt
      | None => mret tt
      end;;
      update prisma.rideBooking (RideBooking.id booking) (fun b =>
        b <| RideBooking.status := if decide (RideBooking.status booking = BookingStatus.DISPUTED)
                                   then BookingStatus.COMPLETED else RideBooking.status booking |>);;
      mret (DisputeStatus.RESOLVED_PAYOUT, resolution_text resolution)
  end.

Definition settleDispute (disputeId : string) (resolution : DisputeResolution) (resolvedBy : string)
    (refundPercent : option num) : H Dispute.t :=
  dispute ← findUnique prisma.dispute disputeId;
  match dispute with
  | None => throw "DISPUTE_NOT_FOUND"
  | Some dispute =>
      booking ← findUniqueOrThrow prisma.rideBooking (Dispute.bookingId dispute);
      ride ← rideOf booking;
      payment ← findByBooking (RideBooking.id booking);
      throw_if (negb (bool_decide (Dispute.status dispute ∈ SETTLEABLE_DISPUTE_STATUSES))) "DISPUTE_ALREADY_RESOLVED";;
      settled ← applyResolution booking payment ride resolution refundPercent;
      let '(finalStatus, resolutionText) := settled in
      updatedDispute ← update prisma.dispute (Dispute.id dispute) (fun d =>
        d <| Dispute.status := finalStatus |> <| Dispute.resolution := Some resolutionText |>
          <| Dispute.resolvedBy := Some resolvedBy |>
          <| Dispute.resolvedAt := if decide (finalStatus = DisputeStatus.ESCALATED) then None else Some now |>);
      promise_all [createNotification (RideBooking.passengerId booking) "dispute.resolved";
                   createNotification (Ride.driverId ride) "dispute.resolved"];;
      perform (EmitToUsers [RideBooking.passengerId booking; Ride.driverId ride] "dispute:updated" (RideBooking.id booking)
                 resolutionText);;
      mret updatedDispute
  end.

(** ** The administrator's requests (dispute.controller.ts) *)

(** A clear case is settled at once. *)
Definition adminEvaluate (disputeId adminId : string) : H Evaluation.t :=
  result ← evaluateDispute disputeId;
  match Evaluation.status result with
  | DisputeStatus.AUTO_RESOLVED_RIDER_REFUND => settleDispute disputeId REFUND adminId None;; mret result
  | DisputeStatus.AUTO_RESOLVED_DRIVER_PAYOUT => settleDispute disputeId PAYOUT adminId None;; mret result
  | _ => mret result
  end.
End disputes.

(** ** Evidence and evaluation *)

Section evaluation.
Context `{Env}.

Lemma jfield_hd name v l : jfield name (Some (JObject ((name, v) :: l))) = Some v.
Proof. cbn. rewrite bool_decide_eq_true_2; reflexivity. Qed.

Lemma followed_not_empty s c s' : s +:+ String c s' <> EmptyString.
Proof. destruct s; discriminate. Qed.

Lemma toISOString_not_empty t : toISOString t <> EmptyString.
Proof.
  unfold toISOString. cbv zeta. destruct (_ && _).
  - apply followed_not_empty.
  - destruct (getUTCFullYear t <? 0); discriminate.
Qed.

(** A date is present in the evidence exactly when the booking has it. *)
Lemma jtruthy_isoDate o : jtruthy (Some (isoDate o)) = bool_decide (is_Some o).
Proof.
  destruct o as [t|]; cbn [isoDate joptional jtruthy].
  - rewrite bool_decide_eq_false_2 by apply toISOString_not_empty. rewrite bool_decide_eq_true_2; [reflexivity | eauto].
  - rewrite bool_decide_eq_false_2; [reflexivity | intros [? [=]]].
Qed.

Lemma count_positive {A} (l : list A) :
  nlt (num_of_Z 0) (num_of_Z (Z.of_nat (length l))) = bool_decide (l <> []).
Proof.
  unfold nlt, num_of_Z. destruct l as [|x l].
  - rewrite bool_decide_eq_false_2; [reflexivity | auto].
  - rewrite bool_decide_eq_true_2 by discriminate. apply negb_true_iff, Bool.not_true_iff_false.
    rewrite Qle_bool_iff, <- Zle_Qle. cbn [length]. lia.
Qed.

(** The positions a rider reported. *)
Definition riderPositions (events : list RideEvent.t) : list RideEvent.t :=
  List.filter (fun e => bool_decide (RideEvent.actorType e = "RIDER"%string) && hasPosition e) events.

Definition present {A} (o : option A) : bool := bool_decide (is_Some o).

(** What the evidence of a booking says, read from the rows. *)
Definition signalsOf (b : RideBooking.t) (r : Ride.t) (locations : list LocationUpdate.t)
    (events : list RideEvent.t) : Signals := {|
  driverGpsCount := num_of_Z (Z.of_nat (length locations));
  riderGpsCount := num_of_Z (Z.of_nat (length (riderPositions events)));
  manualOverrideCount := num_of_Z (Z.of_nat (length (List.filter isOverride events)));
  rideCompleted := bool_decide (Ride.status r = RideStatus.COMPLETED) || present (RideBooking.completedAt b);
  riderDropoffConfirmed := present (RideBooking.riderDropoffConfirmedAt b);
  driverDropoffConfirmed := present (RideBooking.dropoffConfirmedAt b);
  pickupOtpVerified := present (RideBooking.pickupOtpVerifiedAt b);
  noShowMarked := present (RideBooking.noShowMarkedAt b) |}.

Lemma rideStatus_completed st :
  bool_decide (rideStatus_text st = "COMPLETED"%string) = bool_decide (st = RideStatus.COMPLETED).
Proof. destruct st; reflexivity. Qed.

(** What was collected is what the rule engine reads. *)
Lemma readSignals_of_evidence b r locations events :
  readSignals (JObject (buildEvidence b r locations events)) = signalsOf b r locations events.
Proof.
  unfold readSignals. cbv zeta.
  set (e := Some (JObject (buildEvidence b r locations events))).
  assert (F1 : jfield "status" (jfield "ride" e) = Some (JString (rideStatus_text (Ride.status r)))) by reflexivity.
  rewrite F1, rideStatus_completed. clear F1.
  assert (S : forall n o, jfield n (jfield "bookingSnapshot" e) = Some (isoDate o) ->
     jtruthy (jfield n (jfield "bookingSnapshot" e)) = present o).
  { intros n o ->. apply jtruthy_isoDate. }
  rewrite (S "completedAt"%string (RideBooking.completedAt b)) by reflexivity.
  rewrite (S "riderDropoffConfirmedAt"%string (RideBooking.riderDropoffConfirmedAt b)) by reflexivity.
  rewrite (S "dropoffConfirmedAt"%string (RideBooking.dropoffConfirmedAt b)) by reflexivity.
  rewrite (S "pickupOtpVerifiedAt"%string (RideBooking.pickupOtpVerifiedAt b)) by reflexivity.
  rewrite (S "noShowMarkedAt"%string (RideBooking.noShowMarkedAt b)) by reflexivity.
  assert (T : forall n {A} (o : option A), jfield n e = Some (JBool (present o)) ->
     jtruthy (jfield n e) || present o = present o).
  { intros n A o ->. cbn. apply orb_diag. }
  rewrite (T "riderConfirmedDropoff"%string _ (RideBooking.riderDropoffConfirmedAt b)) by reflexivity.
  rewrite (T "dropoffConfirmed"%string _ (RideBooking.dropoffConfirmedAt b)) by reflexivity.
  rewrite (T "otpVerified"%string _ (RideBooking.pickupOtpVerifiedAt b)) by reflexivity.
  rewrite (T "noShowMarked"%string _ (RideBooking.noShowMarkedAt b)) by reflexivity.
  reflexivity.
Qed.

(** The cases that are decided without an administrator. *)
Definition decided (b : RideBooking.t) (r : Ride.t) (locations : list LocationUpdate.t)
    (events : list RideEvent.t) : DisputeStatus.t :=
  if present (RideBooking.noShowMarkedAt b) && present (RideBooking.pickupOtpVerifiedAt b)
  then DisputeStatus.AUTO_RESOLVED_RIDER_REFUND
  else if present (RideBooking.riderDropoffConfirmedAt b) &&
          (bool_decide (Ride.status r = RideStatus.COMPLETED) || present (RideBooking.completedAt b) ||
           present (RideBooking.dropoffConfirmedAt b) ||
           (bool_decide (locations <> []) && bool_decide (riderPositions events <> [])))
  then DisputeStatus.AUTO_RESOLVED_DRIVER_PAYOUT
  else DisputeStatus.NEEDS_MANUAL_REVIEW.

Lemma recommend_decided b r locations events :
  (recommend (signalsOf b r locations events)).2 = decided b r locations events.
Proof.
  unfold recommend, decided, hasStrongGpsSignals, hasGpsSignals, signalsOf, MANUAL_REVIEW. cbn.
  rewrite !count_positive, <- !orb_assoc.
  repeat lazymatch goal with |- context [if ?c then _ else _] => destruct c end; reflexivity.
Qed.

Lemma riskScore_bounds g : (0 <= riskScoreOf g <= 1)%Q.
Proof.
  unfold riskScoreOf. cbv zeta. set (x := nmax (num_of_Z 0) _).
  assert (X : (0 <= x)%Q).
  { subst x. unfold nmax, nle. destruct (Qle_bool _ _) eqn:E; [apply Qle_bool_iff in E; exact E | apply Qle_refl]. }
  unfold nmin, nle. destruct (Qle_bool (num_of_Z 1) x) eqn:E; [split; discriminate|].
  split; [exact X|]. apply Qlt_le_weak, Qnot_le_lt. rewrite <- Qle_bool_iff. change (num_of_Z 1) with 1%Q in E. congruence.
Qed.

Lemma recommend_cases g : (recommend g).2 ∈
  [DisputeStatus.AUTO_RESOLVED_RIDER_REFUND; DisputeStatus.AUTO_RESOLVED_DRIVER_PAYOUT; DisputeStatus.NEEDS_MANUAL_REVIEW].
Proof.
  apply list_elem_of_In. unfold recommend, MANUAL_REVIEW.
  repeat lazymatch goal with |- context [if ?c then _ else _] => destruct c end; cbn; auto.
Qed.

Lemma recordEvaluation_fields rec risk st evidence factors d :
  st ∈ [DisputeStatus.AUTO_RESOLVED_RIDER_REFUND; DisputeStatus.AUTO_RESOLVED_DRIVER_PAYOUT; DisputeStatus.NEEDS_MANUAL_REVIEW] ->
  Dispute.status (recordEvaluation rec risk st evidence factors d) = st /\
  Dispute.recommendation (recordEvaluation rec risk st evidence factors d) = Some rec /\
  Dispute.resolvedAt (recordEvaluation rec risk st evidence factors d) =
    if decide (st = DisputeStatus.NEEDS_MANUAL_REVIEW) then Dispute.resolvedAt d else Some now.
Proof.
  rewrite list_elem_of_In. cbn [In]. intros [<-|[<-|[<-|[]]]]; repeat split; reflexivity.
Qed.

Lemma with_dispute_twice id d1 d2 (d : Db.t) :
  with_rows prisma.dispute <[id := d2]> (with_rows prisma.dispute <[id := d1]> d) =
  with_rows prisma.dispute <[id := d2]> d.
Proof. cbn. unfold setf. cbn. rewrite insert_insert_eq. reflexivity. Qed.

Lemma set_db_dispute id d1 d2 (s : St.t) :
  s <| St.db ::= with_rows prisma.dispute <[id := d1]> |> <| St.db ::= with_rows prisma.dispute <[id := d2]> |> =
  s <| St.db ::= with_rows prisma.dispute <[id := d2]> |>.
Proof. destruct s. unfold setf. cbn -[with_rows]. f_equal. apply with_dispute_twice. Qed.

(** C37. Evaluating a dispute decides by its evidence.  For any dispute, also one
    that was settled before, collecting the evidence and evaluating it succeeds and
    changes that dispute alone: its status is the refund of the rider when a no-show
    is recorded against a verified pickup code, the payout of the driver when the
    rider confirmed the drop-off and the ride's state or both parties' positions
    support it, and the administrator's review in every other case; the risk score
    lies between 0 and 1. *)
Theorem evaluation_decides (s : St.t) (id : string) (d : Dispute.t) (b : RideBooking.t) (r : Ride.t) :
  Db.dispute (St.db s) !! id = Some d ->
  Db.rideBooking (St.db s) !! Dispute.bookingId d = Some b ->
  Db.ride (St.db s) !! Dispute.rideId d = Some r ->
  exists ev d',
    (collectEvidence id;; evaluateDispute id) s =
      (s <| St.db ::= with_rows prisma.dispute <[id := d']> |>, Ok ev) /\
    Dispute.status d' = decided b r (locationsOf d (St.db s)) (eventsOf d (St.db s)) /\
    Evaluation.status ev = Dispute.status d' /\
    Dispute.recommendation d' = Some (Evaluation.recommendation ev) /\
    (0 <= Evaluation.riskScore ev <= 1)%Q /\
    Dispute.resolvedAt d' =
      if decide (Dispute.status d' = DisputeStatus.NEEDS_MANUAL_REVIEW) then Dispute.resolvedAt d else Some now.
Proof.
  intros Ed Eb Er.
  set (evidence := JObject (buildEvidence b r (locationsOf d (St.db s)) (eventsOf d (St.db s)))).
  set (d1 := d <| Dispute.evidenceJson := Some evidence |> <| Dispute.status := DisputeStatus.EVIDENCE_COLLECTED |>).
  set (s1 := s <| St.db ::= with_rows prisma.dispute <[id := d1]> |>).
  assert (C : collectEvidence id s = (s1, Ok evidence)).
  { unfold collectEvidence. run_with (findUnique_run prisma.dispute id s).
    rewrite (Ed : rows prisma.dispute _ !! _ = _).
    run_with (findUniqueOrThrow_run prisma.rideBooking). run_with (findUniqueOrThrow_run prisma.ride).
    etrans; [apply bind_Ok; reflexivity|]. etrans; [apply bind_Ok; reflexivity|].
    etrans; [apply bind_Ok, (update_run prisma.dispute id); exact Ed|]. reflexivity. }
  assert (E1 : rows prisma.dispute (St.db s1) !! id = Some d1) by apply lookup_insert_eq.
  pose proof (recommend_decided b r (locationsOf d (St.db s)) (eventsOf d (St.db s))) as D.
  destruct (recommend (signalsOf b r (locationsOf d (St.db s)) (eventsOf d (St.db s)))) as [rec st] eqn:R.
  cbn in D. subst st.
  eexists _, _. split.
  { rewrite (bind_Ok _ _ _ _ _ C). unfold evaluateDispute. run_with (findUnique_run prisma.dispute id s1).
    rewrite E1. cbn [d1 Dispute.evidenceJson setf]. unfold evidence at 1. cbv beta iota zeta.
    fold evidence. unfold evidence at 1 2 3. rewrite readSignals_of_evidence, R. cbv beta iota.
    etrans; [apply bind_Ok, (update_run prisma.dispute id); exact E1|]. cbv beta. unfold mret, M_ret. f_equal.
    apply set_db_dispute. }
  match goal with |- Dispute.status (recordEvaluation ?x ?y ?z ?e ?f ?d) = _ /\ _ =>
    destruct (recordEvaluation_fields x y z e f d) as (F1 & F2 & F3) end.
  { rewrite <- recommend_decided. apply recommend_cases. }
  split; [exact F1|]. split; [symmetry; exact F1|]. split; [exact F2|]. split; [apply riskScore_bounds|].
  rewrite F1. exact F3.
Qed.
End evaluation.

(** ** Settlements *)

(** The requests of the administration of disputes. *)
Inductive AdminRequest :=
| Collect (disputeId : string)
| Evaluate (disputeId adminId : string)
| Resolve (disputeId : string) (resolution : DisputeResolution) (adminId : string) (refundPercent : option num).

(** The refunds asked of Stripe for a payment intent, answered or refused. *)
Definition isRefundOf (intentId : string) (e : Effect * option string) : bool :=
  match e.1 with StripeRefund i _ => bool_decide (i = intentId) | _ => false end.

(** The refunds asked for are counted with those Stripe refuses; the refunds made are
    those it accepts. *)
Inductive Tally := Asked | Made.

Definition counts (t : Tally) (answer : option string) : bool :=
  match t with Asked => true | Made => bool_decide (answer = None) end.
Definition refund_calls (t : Tally) (intentId : string) (fx : list (Effect * option string)) : nat :=
  length (List.filter (fun e => isRefundOf intentId e && counts t e.2) fx).

(** The booking whose row rules a refund out: for any request, or for those of disputes. *)
Definition marked (t : Tally) (b : RideBooking.t) : bool :=
  match t with Asked => existingRefund b | Made => bool_decide (is_Some (RideBooking.refundedAt b)) end.

Lemma marked_existing t b : marked t b = true -> existingRefund b = true.
Proof. destruct t; [auto|]. cbn. intros M. unfold existingRefund. rewrite M. reflexivity. Qed.

Lemma marked_refunded t b : is_Some (RideBooking.refundedAt b) -> marked t b = true.
Proof.
  intros M. assert (B : bool_decide (is_Some (RideBooking.refundedAt b)) = true) by (apply bool_decide_eq_true; exact M).
  destruct t; cbn; [unfold existingRefund; rewrite B; reflexivity | exact B].
Qed.

Lemma refund_calls_cons t intentId e answer fx : refund_calls t intentId ((e, answer) :: fx) =
  ((if isRefundOf intentId (e, answer) && counts t answer then 1 else 0) + refund_calls t intentId fx)%nat.
Proof. unfold refund_calls. cbn [List.filter snd]. destruct (_ && _); reflexivity. Qed.

Lemma refund_calls_other t intentId e answer fx : isRefundOf intentId (e, answer) = false ->
  refund_calls t intentId ((e, answer) :: fx) = refund_calls t intentId fx.
Proof. intros F. rewrite refund_calls_cons, F. reflexivity. Qed.

Lemma positive_not_zero (x : num) : nlt (num_of_Z 0) x = true -> negb (Qeq_bool x 0) = true.
Proof.
  unfold nlt. intros A%negb_true_iff. apply negb_true_iff, Bool.not_true_iff_false. intros Q%Qeq_bool_iff.
  assert (Qle_bool x (num_of_Z 0) = true) by (apply Qle_bool_iff; rewrite Q; apply Qle_refl). congruence.
Qed.

Section settlement.
Context `{Env}.

Definition serve (r : AdminRequest) : H unit :=
  match r with
  | Collect id => collectEvidence id;; mret tt
  | Evaluate id adminId => adminEvaluate id adminId;; mret tt
  | Resolve id resolution adminId refundPercent => settleDispute id resolution adminId refundPercent;; mret tt
  end.

Fixpoint serve_all (rs : list AdminRequest) (s : St.t) : St.t :=
  match rs with [] => s | r :: rs => serve_all rs (serve r s).1 end.

(** Room for at most one refund of the intent, none once its booking has one. *)
Record refund_room (t : Tally) (intentId bookingId : string) (n : nat) (s : St.t) : Prop := {
  room_calls : (refund_calls t intentId (St.fx s) <= n)%nat;
  room_keyed : forall k b, Db.rideBooking (St.db s) !! k = Some b -> RideBooking.id b = k;
  room_owner : forall k b, Db.rideBooking (St.db s) !! k = Some b ->
    truthy (RideBooking.stripePaymentIntentId b) = Some intentId ->
    k = bookingId /\ (marked t b = false -> (refund_calls t intentId (St.fx s) < n)%nat);
}.

Section room.
Context (t : Tally) (intentId bookingId : string) (n : nat).
Notation I := (refund_room t intentId bookingId n).

Lemma room_other (s s' : St.t) :
  Db.rideBooking (St.db s') = Db.rideBooking (St.db s) ->
  refund_calls t intentId (St.fx s') = refund_calls t intentId (St.fx s) -> I s -> I s'.
Proof. intros E F [N K O]. split; rewrite ?E, ?F; auto. Qed.

Lemma room_update {R} (tb : Table R) id f :
  (forall g d, Db.rideBooking (with_rows tb g d) = Db.rideBooking d) -> preserves I (update tb id f).
Proof.
  intros T. apply preserves_wp. intros s Hs. wp_query; [exact Hs|].
  apply (room_other s); [apply T | reflexivity | exact Hs].
Qed.

(** A write to a booking that leaves its intent, and its refund if it has one. *)
Lemma room_put (s : St.t) id b b' : I s -> Db.rideBooking (St.db s) !! id = Some b ->
  RideBooking.id b' = RideBooking.id b ->
  RideBooking.stripePaymentIntentId b' = RideBooking.stripePaymentIntentId b ->
  (marked t b = true -> marked t b' = true) ->
  I (s <| St.db ::= with_rows prisma.rideBooking <[id := b']> |>).
Proof.
  intros [N K O] E F1 F2 F3. split; [exact N | |]; intros k x; cbn; rewrite lookup_insert_Some.
  - intros [[<- <-]|[_ E']]; [rewrite F1|]; eauto.
  - intros [[<- <-]|[_ E']]; [|exact (O k x E')]. rewrite F2. intros T. destruct (O _ b E T) as [Rk Rn].
    split; [exact Rk|]. intros X. apply Rn. destruct (marked t b); [rewrite F3 in X by reflexivity|]; congruence.
Qed.

Lemma room_booking id f :
  (forall b, RideBooking.id (f b) = RideBooking.id b /\
             RideBooking.stripePaymentIntentId (f b) = RideBooking.stripePaymentIntentId b /\
             (marked t b = true -> marked t (f b) = true)) ->
  preserves I (update prisma.rideBooking id f).
Proof.
  intros F. apply preserves_wp. intros s Hs. wp_query; [exact Hs|]. destruct (F r) as (F1 & F2 & F3).
  exact (room_put s id r (f r) Hs E F1 F2 F3).
Qed.

Lemma room_call e : (forall r, isRefundOf intentId (e, r) = false) -> preserves I (call e).
Proof.
  intros F s Hs. apply (room_other s); [reflexivity | | exact Hs].
  unfold call. cbn [fst]. apply (refund_calls_other t intentId e), F.
Qed.

Lemma room_perform e : (forall r, isRefundOf intentId (e, r) = false) -> preserves I (perform e).
Proof. intros F. apply preserves_bind; [exact (room_call e F) | intros; apply preserves_ret]. Qed.

Lemma room_ledger es : preserves I (createLedgerEntries es).
Proof. apply preserves_for_each. intros e s Hs. apply (room_other s); [reflexivity | reflexivity | exact Hs]. Qed.

Lemma room_uuid : preserves I randomUUID.
Proof. intros s Hs. apply (room_other s); [reflexivity | reflexivity | exact Hs]. Qed.

Lemma room_recordRefund a b c d e f g h : preserves I (recordRefund a b c d e f g h).
Proof.
  apply preserves_bind; [exact room_uuid|]. intros. cbv zeta.
  apply preserves_bind; [apply room_ledger | intros; apply preserves_ret].
Qed.

(** Closes the invariance of a handler that asks for no refund. *)
Ltac room := repeat first
  [ preserve_step
  | apply room_update; reflexivity
  | apply room_recordRefund
  | apply room_perform; reflexivity
  | apply preserves_promise_all; intros ? Hin; cbn [In] in Hin; repeat destruct Hin as [<-|Hin]; [..|destruct Hin] ].

Lemma refunded_at_booking id f :
  (forall b, exists o, f b = b <| RideBooking.refundId := o |> <| RideBooking.refundedAt := Some now |> \/
                       f b = b <| RideBooking.refundedAt := Some now |>) ->
  preserves I (update prisma.rideBooking id f).
Proof.
  intros F. apply room_booking. intros b.
  destruct (F b) as (o & [->| ->]); repeat split; intros _; apply marked_refunded; cbn; eauto.
Qed.

Lemma room_after_refund (payment : option Payment.t) id rider driverId amount (split : RefundSplit.t) currency :
  preserves I (match payment with
  | Some payment =>
      recordRefund (Payment.id payment) id rider driverId amount
        (RefundSplit.fareRefundAmount split) (RefundSplit.feeRefundAmount split) currency;;
      update prisma.payment (Payment.id payment) (fun p =>
        p <| Payment.refundedFareAmount ::= fun x => nadd x (RefundSplit.fareRefundAmount split) |>
          <| Payment.refundedFeeAmount ::= fun x => nadd x (RefundSplit.feeRefundAmount split) |>);;
      mret tt
  | None => mret tt
  end).
Proof. room. Qed.

Lemma refund_calls_own m answer (s : St.t) :
  refund_calls t intentId (St.fx (s <| St.fx ::= cons (StripeRefund intentId m, answer) |>)) =
  ((if counts t answer then 1 else 0) + refund_calls t intentId (St.fx s))%nat.
Proof.
  etrans; [apply refund_calls_cons|]. unfold isRefundOf. cbn [fst]. rewrite bool_decide_eq_true_2 by reflexivity. reflexivity.
Qed.

(** A refund of another intent. *)
Lemma room_call_other (s : St.t) i m answer : i <> intentId -> I s -> I (s <| St.fx ::= cons (StripeRefund i m, answer) |>).
Proof.
  intros Ne Hs. apply (room_other s); [reflexivity | | exact Hs]. apply (refund_calls_other t intentId (StripeRefund i m)).
  unfold isRefundOf. cbn [fst]. apply bool_decide_eq_false_2, Ne.
Qed.

(** The refund of a booking's intent refused: where refusals count the booking was marked. *)
Lemma room_refused (s : St.t) id b i m e : I s -> Db.rideBooking (St.db s) !! id = Some b ->
  truthy (RideBooking.stripePaymentIntentId b) = Some i ->
  (i = intentId -> (refund_calls t intentId (St.fx s) < n)%nat) -> (t = Asked -> marked t b = true) ->
  I (s <| St.fx ::= cons (StripeRefund i m, Some e) |>).
Proof.
  intros Hs E T C X. destruct (decide (i = intentId)) as [->|Ne]; [|apply room_call_other; assumption].
  specialize (C eq_refl). destruct Hs as [N K O]. split; [rewrite refund_calls_own; destruct (counts t _); lia | exact K|].
  intros k x Ek Tk. destruct (O k x Ek Tk) as [-> R]. split; [reflexivity|]. rewrite refund_calls_own. cbn in Ek.
  destruct (O id b E T) as [-> _]. assert (x = b) as -> by congruence.
  destruct t; [intros M; rewrite X in M by reflexivity; discriminate | exact R].
Qed.

(** The refund of a booking's intent accepted, and the booking marked as refunded. *)
Lemma room_refunded (s : St.t) id b b' i m : I s -> Db.rideBooking (St.db s) !! id = Some b ->
  truthy (RideBooking.stripePaymentIntentId b) = Some i ->
  (i = intentId -> (refund_calls t intentId (St.fx s) < n)%nat) ->
  RideBooking.id b' = RideBooking.id b -> RideBooking.stripePaymentIntentId b' = RideBooking.stripePaymentIntentId b ->
  is_Some (RideBooking.refundedAt b') ->
  I (s <| St.fx ::= cons (StripeRefund i m, None) |> <| St.db ::= with_rows prisma.rideBooking <[id := b']> |>).
Proof.
  intros Hs E T C F1 F2 M%(marked_refunded t). destruct (decide (i = intentId)) as [->|Ne].
  - specialize (C eq_refl). destruct Hs as [N K O]. destruct (O id b E T) as [-> _]. split.
    + change (refund_calls t intentId (St.fx (s <| St.fx ::= cons (StripeRefund intentId m, None) |>)) <= n)%nat.
      rewrite refund_calls_own. destruct (counts t _); lia.
    + intros k x. cbn. rewrite lookup_insert_Some. intros [[<- <-]|[_ E']]; [rewrite F1|]; eauto.
    + intros k x. cbn. rewrite lookup_insert_Some. intros [[<- <-]|[Ne E']] Tx; [|destruct (O k x E' Tx); congruence].
      split; [reflexivity | congruence].
  - apply (room_put (s <| St.fx ::= cons (StripeRefund i m, None) |>) id b); auto using room_call_other.
Qed.

(** The refund of a booking that has none uses the room. *)
Lemma room_refundBooking (s : St.t) booking payment driverId currency resolution amount percent split :
  I s -> Db.rideBooking (St.db s) !! RideBooking.id booking = Some booking -> existingRefund booking = false ->
  nlt (num_of_Z 0) amount = true ->
  wp (refundBooking booking payment driverId currency resolution amount percent split) (fun s' _ => I s') s.
Proof.
  intros Hs E X A. unfold refundBooking. cbv zeta. wp_query. wp_query; [congruence|].
  assert (r = booking) as -> by (cbn in E0; congruence). clear E0.
  match goal with |- context [_ <| St.db ::= with_rows _ <[_ := ?x]> |>] => set (b1 := x) end.
  assert (Xb : marked t booking = false).
  { destruct (marked t booking) eqn:M; [apply marked_existing in M; congruence | reflexivity]. }
  assert (X1 : t = Asked -> marked t b1 = true).
  { intros ->. unfold marked, existingRefund, b1. cbn. apply orb_true_iff. right. exact (positive_not_zero amount A). }
  assert (H1 : I (s <| St.db ::= with_rows prisma.rideBooking <[RideBooking.id booking := b1]> |>)).
  { apply (room_put s _ booking b1 Hs E eq_refl eq_refl). congruence. }
  set (s1 := s <| St.db ::= _ |>) in *.
  (* The booking is not marked: there is room for its refund. *)
  assert (C : truthy (RideBooking.stripePaymentIntentId booking) = Some intentId ->
              (refund_calls t intentId (St.fx s1) < n)%nat).
  { intros T. destruct (room_owner _ _ _ _ _ Hs _ _ E T) as [_ R]. exact (R Xb). }
  apply wp_bind.
  apply (wp_mono _ (fun s2 _ => I s2 /\ St.fx s2 = St.fx s1 /\ Db.rideBooking (St.db s2) = Db.rideBooking (St.db s1))).
  { destruct payment as [p|]; [|wp_query; auto]. wp_query. wp_query; [auto|]. wp_query.
    split; [apply (room_other s1); [reflexivity..|exact H1] | auto]. }
  intros s2 [?|e] (H2 & F2 & B2); [|exact H2]. apply wp_bind. rewrite <- F2 in C. clear H1.
  assert (E1 : Db.rideBooking (St.db s2) !! RideBooking.id booking = Some b1).
  { rewrite B2. apply lookup_insert_eq. }
  apply (wp_mono _ (fun s' _ => I s')).
  2: { intros s' [?|e] H'; [|exact H']. apply (wp_preserves I); [apply room_after_refund | exact H' | auto]. }
  destruct (truthy (RideBooking.stripePaymentIntentId booking)) as [i|] eqn:T.
  2: { apply (wp_preserves I); [|exact H2 | auto]. apply preserves_bind; [|intros; apply preserves_ret].
       apply refunded_at_booking. intros b. exists None. auto. }
  destruct (RideBooking.paymentCapturedAt booking).
  2: { apply (wp_preserves I); [|exact H2 | auto]. apply preserves_bind; [|intros; apply preserves_ret].
       apply refunded_at_booking. intros b. exists None. auto. }
  assert (Ci : i = intentId -> (refund_calls t intentId (St.fx s2) < n)%nat) by (intros ->; apply C; reflexivity).
  unfold refundPaymentIntent. wp_query. wp_query. destruct o as [e|].
  - exact (room_refused s2 _ b1 i _ e H2 E1 T Ci X1).
  - wp_query. wp_query; [cbn in *; congruence|]. assert (r = b1) as -> by (cbn in *; congruence). wp_query.
    apply (room_refunded s2 _ b1); cbn; eauto.
Qed.

Lemma room_applyResolution (s : St.t) booking payment ride resolution percent :
  I s -> Db.rideBooking (St.db s) !! RideBooking.id booking = Some booking ->
  wp (applyResolution booking payment ride resolution percent) (fun s' _ => I s') s.
Proof.
  intros Hs E. unfold applyResolution. cbv zeta.
  assert (Refund : forall m, preserves I m -> forall amount driverId currency resolution percent split,
    wp (when (nlt (num_of_Z 0) amount && negb (existingRefund booking))
          (refundBooking booking payment driverId currency resolution amount percent split);; m)
       (fun s' (_ : Res (DisputeStatus.t * string)) => I s') s).
  { intros m Hm amount driverId currency res pct split. apply wp_bind.
    apply (wp_mono _ (fun s' _ => I s')).
    - wp_query; [|exact Hs].
      match goal with Hc : _ && _ = true |- _ => apply andb_prop in Hc as [A X%negb_true_iff] end.
      apply room_refundBooking; assumption.
    - intros s' [?|e] H'; [|exact H']. apply (wp_preserves I); [exact Hm | exact H' | auto]. }
  destruct resolution; [apply Refund; room | | apply Refund; room | exact Hs].
  apply (wp_preserves I); [|exact Hs | auto].
  apply preserves_bind; [apply preserves_throw_if|]. intros _.
  apply preserves_bind; [room|]. intros _. apply preserves_bind; [|intros; apply preserves_ret].
  apply room_booking. repeat split; auto.
Qed.

Lemma room_settleDispute id resolution by_ percent : preserves I (settleDispute id resolution by_ percent).
Proof.
  apply preserves_wp. intros s Hs. unfold settleDispute, rideOf, findByBooking. wp_query. wp_query. wp_query; [|exact Hs].
  wp_query. wp_query; [exact Hs|]. wp_query. wp_query; [exact Hs|]. wp_query. wp_query. wp_query. wp_query; [exact Hs|].
  wp_query.
  match goal with E : rows prisma.rideBooking _ !! _ = Some ?b |- _ =>
    pose proof (room_keyed _ _ _ _ _ Hs _ _ E) as K; rewrite <- K in E;
    apply (wp_mono _ (fun s' _ => I s')); [exact (room_applyResolution s b _ _ _ _ Hs E)|] end.
  intros s' [[st text]|e] H'; [|exact H']. apply (wp_preserves I); [|exact H' | auto]. room.
Qed.

Lemma room_collectEvidence id : preserves I (collectEvidence id).
Proof. unfold collectEvidence. room. Qed.

Lemma room_evaluateDispute id : preserves I (evaluateDispute id).
Proof. unfold evaluateDispute. room. Qed.

Lemma room_serve r : preserves I (serve r).
Proof.
  destruct r as [id|id adminId|id resolution adminId percent]; (apply preserves_bind; [|intros; apply preserves_ret]).
  - apply room_collectEvidence.
  - apply preserves_bind; [apply room_evaluateDispute|]. intros ev.
    destruct (Evaluation.status ev); first [apply preserves_ret | apply preserves_bind; [apply room_settleDispute | intros; apply preserves_ret]].
  - apply room_settleDispute.
Qed.

Lemma room_serve_all rs (s : St.t) : I s -> I (serve_all rs s).
Proof. revert s. induction rs as [|r rs IH]; intros s Hs; [exact Hs|]. apply IH, room_serve, Hs. Qed.
End room.

End settlement.

(** ** What a settlement leaves *)

Section outcomes.
Context `{Env}.

(** A dispute with its booking, ride and payment, none of the money returned. *)
Record disputed (s : St.t) (id : string) (d : Dispute.t) (b : RideBooking.t) (r : Ride.t) (p : Payment.t) : Prop := {
  disputed_row : Db.dispute (St.db s) !! id = Some d;
  disputed_id : Dispute.id d = id;
  disputed_open : Dispute.status d ∈ SETTLEABLE_DISPUTE_STATUSES;
  disputed_booking : Db.rideBooking (St.db s) !! Dispute.bookingId d = Some b;
  disputed_booking_id : RideBooking.id b = Dispute.bookingId d;
  disputed_ride : Db.ride (St.db s) !! RideBooking.rideId b = Some r;
  disputed_payment : Db.payment (St.db s) !! Payment.id p = Some p;
  disputed_payment_of : Payment.bookingId p = RideBooking.id b;
  disputed_one_payment : forall k q, Db.payment (St.db s) !! k = Some q ->
    Payment.bookingId q = RideBooking.id b -> k = Payment.id p;
}.

Lemma disputed_found s id d b r p : disputed s id d b r p ->
  head (where_ prisma.payment (fun q => bool_decide (Payment.bookingId q = RideBooking.id b)) (St.db s)) = Some p.
Proof.
  intros D. apply (findFirst_unique prisma.payment _ _ (Payment.id p)).
  - apply D.
  - apply bool_decide_eq_true, D.
  - intros k q Ek Hq%bool_decide_eq_true. pose proof (disputed_one_payment _ _ _ _ _ _ D k q Ek Hq) as ->.
    cbn in Ek. rewrite (disputed_payment _ _ _ _ _ _ D) in Ek. congruence.
Qed.

(** A settlement fetches the rows and applies the resolution. *)
Lemma wp_settleDispute s id d b r p resolution by_ percent Q : disputed s id d b r p ->
  wp (applyResolution b (Some p) r resolution percent) (fun s' x =>
    match x with
    | Err e => Q s' (Err e)
    | Ok (status, text) => exists d1, Db.dispute (St.db s') !! id = Some d1 /\ forall s2 y,
        St.db s2 = with_rows prisma.dispute <[id := d1 <| Dispute.status := status |>
          <| Dispute.resolution := Some text |> <| Dispute.resolvedBy := Some by_ |>
          <| Dispute.resolvedAt := if decide (status = DisputeStatus.ESCALATED) then None else Some now |>]>
          (St.db s') ->
        (forall i, refund_calls Asked i (St.fx s2) = refund_calls Asked i (St.fx s')) -> Q s2 y
    end) s ->
  wp (settleDispute id resolution by_ percent) Q s.
Proof.
  intros D HQ. unfold settleDispute, rideOf, findByBooking. wp_query. wp_query. cbn in E.
  rewrite (disputed_row _ _ _ _ _ _ D) in E. subst o. wp_query. wp_query; [cbn in E; destruct D; congruence|].
  assert (r0 = b) as -> by (cbn in E; destruct D; congruence). wp_query. wp_query; [cbn in E0; destruct D; congruence|].
  assert (r0 = r) as -> by (cbn in E0; destruct D; congruence). wp_query. wp_query.
  rewrite (disputed_found _ _ _ _ _ _ D) in E1. subst o. wp_query. wp_query.
  { match goal with Hd : negb _ = true |- _ => apply negb_true_iff, bool_decide_eq_false in Hd end. destruct D. contradiction. }
  wp_query. eapply wp_mono; [exact HQ|]. intros s1 [[status text]|e] HQ1; [|exact HQ1].
  destruct HQ1 as (d1 & Ed & HQ1). wp_query. rewrite (disputed_id _ _ _ _ _ _ D). wp_query; [cbn in *; congruence|].
  assert (r0 = d1) as -> by (cbn in *; congruence).
  set (s2 := s1 <| St.db ::= _ |>).
  apply (wp_preserves (fun s' => St.db s' = St.db s2 /\ forall i, refund_calls Asked i (St.fx s') = refund_calls Asked i (St.fx s1))).
  - apply preserves_bind.
    + apply preserves_promise_all. intros m [<-|[<-|[]]]; apply preserves_bind; intros; try apply preserves_ret; intros s' X; exact X.
    + intros. apply preserves_bind; [|intros; apply preserves_ret]. apply preserves_bind; intros; try apply preserves_ret.
      intros s' X; exact X.
  - split; reflexivity.
  - intros s3 y [E3 F3]. apply HQ1; assumption.
Qed.

(** A settlement pays the driver again.  Settling a dispute for the driver makes
    the payment eligible for a payout whatever its status was: a payment that was
    already paid out joins the driver's next payout with the same net fare. *)
Theorem payout_settlement_pays_again (s : St.t) (id adminId : string) (d : Dispute.t) (b : RideBooking.t) (r : Ride.t)
    (p : Payment.t) :
  disputed s id d b r p -> existingRefund b = false ->
  (forall k x, Db.dispute (St.db s) !! k = Some x -> Dispute.bookingId x = RideBooking.id b ->
     Dispute.status x ∈ OPEN_DISPUTE_STATUSES -> k = id) ->
  wp (settleDispute id PAYOUT adminId None) (fun s' _ => exists p',
       Db.payment (St.db s') !! Payment.id p = Some p' /\ Payment.id p' = Payment.id p /\
       netFareAmount p' = netFareAmount p /\ In p' (payableOf s' (Ride.driverId r))) s.
Proof.
  intros D X U. pose proof D as [Ed Hd _ Eb Hb Er Ep Hp _]. apply (wp_settleDispute s id d b r p); [exact D|].
  unfold applyResolution. wp_query. wp_query. { rewrite X in *. discriminate. }
  wp_query. wp_query. wp_query; [cbn in *; congruence|]. assert (r0 = p) as -> by (cbn in *; congruence).
  wp_query. wp_query. wp_query; [cbn in *; congruence|]. assert (r0 = b) as -> by (cbn in *; congruence). wp_query.
  exists d. split; [exact Ed|]. intros s2 _ E2 _.
  set (p' := p <| Payment.status := _ |> <| Payment.payoutEligibleAt := _ |>) in *.
  assert (Ep' : Db.payment (St.db s2) !! Payment.id p = Some p') by (rewrite E2; apply lookup_insert_eq).
  exists p'. split; [exact Ep'|]. split; [reflexivity|]. split; [reflexivity|].
  apply where_elem. split; [|exists (Payment.id p); exact Ep']. unfold isPayable. rewrite !andb_true_iff. repeat split.
  - unfold Payout.rideOf, bookingOf. rewrite E2. cbn. rewrite Hp, lookup_insert_eq. cbn. rewrite Er. apply bool_decide_eq_true_2. reflexivity.
  - unfold noOpenDispute. apply negb_true_iff, Bool.not_true_iff_false. rewrite existsb_exists.
    intros (x & Hx & [Bx Sx]%andb_prop). apply bool_decide_eq_true in Bx, Sx. rewrite <- list_elem_of_In in Hx.
    apply list_elem_of_fmap in Hx as ([k x'] & -> & Hk%elem_of_map_to_list). cbn in Bx, Sx. rewrite E2 in Hk. cbn in Hk.
    apply lookup_insert_Some in Hk as [[<- <-]|[Ne Hk]].
    + revert Sx. cbn. rewrite list_elem_of_In. cbn. intuition congruence.
    + apply Ne. symmetry. apply (U k x'); [exact Hk | cbn in Bx; congruence | exact Sx].
Qed.

(** A refund that Stripe refuses is lost.  The settlement marks the booking
    before it asks for the refund: when the call fails the settlement throws, and the
    next attempt finds the booking marked, asks for no refund, writes no ledger entry
    and resolves the dispute with the payment REFUNDED.  The booking is cancelled
    without giving its seats back. *)
Theorem failed_settlement_refund_is_lost (s : St.t) (id adminId intentId err : string) (d : Dispute.t)
    (b : RideBooking.t) (r : Ride.t) (p : Payment.t) (captured : Z) :
  disputed s id d b r p -> existingRefund b = false ->
  truthy (RideBooking.stripePaymentIntentId b) = Some intentId -> RideBooking.paymentCapturedAt b = Some captured ->
  let amount := round2 (ndiv (nmul (Payment.amountTotal p) (num_of_Z 100)) (num_of_Z 100)) in
  nlt (num_of_Z 0) amount = true ->
  fails (length (St.fx s)) (StripeRefund intentId (Some (toMinorCurrencyUnits amount))) = Some err ->
  let s1 := (settleDispute id REFUND adminId None s).1 in
  (settleDispute id REFUND adminId None s).2 = Err err /\
  wp (settleDispute id REFUND adminId None) (fun s2 _ =>
    (exists d2, Db.dispute (St.db s2) !! id = Some d2 /\ Dispute.status d2 = DisputeStatus.RESOLVED_REFUND) /\
    (exists p2, Db.payment (St.db s2) !! Payment.id p = Some p2 /\ Payment.status p2 = PaymentStatus.REFUNDED /\
       Payment.refundedFareAmount p2 = Payment.refundedFareAmount p) /\
    (exists b2, Db.rideBooking (St.db s2) !! RideBooking.id b = Some b2 /\
       RideBooking.status b2 = BookingStatus.CANCELLED /\ RideBooking.refundId b2 = RideBooking.refundId b /\
       RideBooking.seatsReservedAt b2 = RideBooking.seatsReservedAt b) /\
    Db.ledgerEntry (St.db s2) = Db.ledgerEntry (St.db s) /\ Db.ride (St.db s2) = Db.ride (St.db s) /\
    refund_calls Asked intentId (St.fx s2) = refund_calls Asked intentId (St.fx s1)) s1.
Proof.
  intros D X T C amount A F. pose proof D as [Ed Hd Od Eb Hb Er Ep Hp Up].
  assert (Eb' : Db.rideBooking (St.db s) !! RideBooking.id b = Some b) by (rewrite Hb; exact Eb).
  set (b1 := b <| RideBooking.refundAmount := Some amount |> <| RideBooking.refundPercent := Some (num_of_Z 100) |>
               <| RideBooking.status := BookingStatus.CANCELLED |>).
  set (p1 := set_status PaymentStatus.REFUND_PENDING p).
  set (s1' := s <| St.db ::= with_rows prisma.rideBooking <[RideBooking.id b := b1]> |>
                <| St.db ::= with_rows prisma.payment <[Payment.id p := p1]> |>
                <| St.fx ::= cons (StripeRefund intentId (Some (toMinorCurrencyUnits amount)), Some err) |>).
  assert (R1 : settleDispute id REFUND adminId None s = (s1', Err err)).
  { enough (W : wp (settleDispute id REFUND adminId None) (fun s' x => s' = s1' /\ x = Err err) s).
    { unfold wp in W. destruct (settleDispute id REFUND adminId None s) as [s2 x]. cbn in W. destruct W. congruence. }
    apply (wp_settleDispute s id d b r p); [exact D|]. unfold applyResolution, settledAmount. cbn [default fmap option_fmap option_map].
    rewrite !decide_True by reflexivity. unfold Datatypes.id at 1 2 3 4 5 6 7 8 9. fold amount. rewrite A, X. cbn [andb negb].
    wp_query. unfold when, refundBooking. wp_query. wp_query; [cbn in *; congruence|]. assert (r0 = b) as -> by (cbn in *; congruence).
    rewrite decide_True by reflexivity. rewrite T, C. wp_query. wp_query. wp_query; [cbn in *; congruence|].
    assert (r0 = p) as -> by (cbn in *; congruence). wp_query. unfold refundPaymentIntent. wp_query. wp_query. wp_query.
    match goal with Hf : fails _ _ = o |- _ => change (fails (length (St.fx s))
      (StripeRefund intentId (Some (toMinorCurrencyUnits amount))) = o) in Hf; rewrite F in Hf; subst o end.
    split; reflexivity. }
  cbv zeta. rewrite R1. split; [reflexivity|]. cbn [fst].
  assert (D1 : disputed s1' id d b1 r p1).
  { split; try assumption; try (cbn; apply lookup_insert_eq); try reflexivity.
    all: try (cbn; rewrite <- Hb; apply lookup_insert_eq).
    intros k q. cbn. rewrite lookup_insert_Some. intros [[<- _]|[_ Ek]]; [reflexivity|]. apply (Up k q Ek). }
  assert (X1 : existingRefund b1 = true).
  { unfold existingRefund, b1. cbn. apply orb_true_iff. right. apply (positive_not_zero amount A). }
  apply (wp_settleDispute s1' id d b1 r p1); [exact D1|]. unfold applyResolution, settledAmount.
  cbn [default fmap option_fmap option_map]. rewrite !decide_True by reflexivity. rewrite X1, andb_false_r. cbn [when].
  pose proof (disputed_payment _ _ _ _ _ _ D1) as Ep1.
  wp_query. wp_query. wp_query. wp_query. wp_query; [cbn in *; congruence|].
  assert (r0 = p1) as -> by (cbn in *; congruence). wp_query. wp_query. exists d. split; [exact Ed|]. intros s2 _ E2 F2. rewrite !E2, F2. repeat split.
  - eexists. split; [apply lookup_insert_eq | reflexivity].
  - eexists. split; [apply lookup_insert_eq|]. split; reflexivity.
  - eexists. split; [apply lookup_insert_eq|]. repeat split.
Qed.
End outcomes.

(** ** Witnesses: a ride of 10.00 under dispute *)

Section witnesses.

Definition demo_booking : RideBooking.t :=
  RideBooking.defaults "b1" 0 <| RideBooking.rideId := "r1"%string |> <| RideBooking.passengerId := "u1"%string |>
    <| RideBooking.status := BookingStatus.CONFIRMED |> <| RideBooking.seatsReservedAt := Some 0 |>
    <| RideBooking.stripePaymentIntentId := Some "pi_1"%string |> <| RideBooking.paymentCapturedAt := Some 0 |>
    <| RideBooking.riderDropoffConfirmedAt := Some 900 |> <| RideBooking.dropoffConfirmedAt := Some 800 |>.

Definition demo_dispute : Dispute.t :=
  Dispute.defaults "x1" 0 <| Dispute.bookingId := "b1"%string |> <| Dispute.rideId := "r1"%string |>
    <| Dispute.raisedBy := "u1"%string |> <| Dispute.status := DisputeStatus.OPEN |>.

Definition demo_disputed (st : PaymentStatus.t) : St.t :=
  St.Build_t (St.db demo_payout <| Db.payment := {["p1"%string := demo_payment st]} |>
    <| Db.rideBooking := {["b1"%string := demo_booking]} |>
    <| Db.dispute := {["x1"%string := demo_dispute]} |>) [] 0.

Lemma demo_disputed_ok st : disputed (demo_disputed st) "x1" demo_dispute demo_booking
  (Ride.defaults "r1" 0 <| Ride.driverId := "d1"%string |>) (demo_payment st).
Proof.
  split; try reflexivity.
  - apply list_elem_of_In. cbn. auto.
  - intros k q. cbn. rewrite lookup_singleton_Some. intros [<- _] _. reflexivity.
Qed.

Lemma evaluation_decides_witness :
  let env := demo_env 1000 no_failure in
  exists s' ev, (collectEvidence "x1";; evaluateDispute "x1") (demo_disputed PaymentStatus.HELD_IN_ESCROW) = (s', Ok ev) /\
    Evaluation.status ev = DisputeStatus.AUTO_RESOLVED_DRIVER_PAYOUT /\ (0 <= Evaluation.riskScore ev <= 1)%Q.
Proof.
  intros env.
  destruct (@evaluation_decides env (demo_disputed PaymentStatus.HELD_IN_ESCROW) "x1" demo_dispute demo_booking
    (Ride.defaults "r1" 0 <| Ride.driverId := "d1"%string |>) eq_refl eq_refl eq_refl)
    as (ev & d' & R & S & T & _ & B & _).
  eexists _, ev. split; [exact R|]. split; [|exact B]. rewrite T, S. vm_compute. reflexivity.
Defined.

(** The driver is paid out twice. *)
Lemma payout_settlement_pays_again_witness :
  let env := demo_env 1000 no_failure in
  let s' := (settleDispute "x1" PAYOUT "a1" None (demo_disputed PaymentStatus.PAYOUT_COMPLETED)).1 in
  (exists p', Db.payment (St.db s') !! "p1"%string = Some p' /\ In p' (payableOf s' "d1")) /\
  List.filter (fun e => match e.1 with StripeTransfer _ _ _ _ => true | _ => false end)
    (St.fx (processDriverPayout "d1" s').1) = [(StripeTransfer 1000 "eur" "acct_1" "id", None)].
Proof.
  intros env s'. split; [|vm_compute; reflexivity].
  destruct (@payout_settlement_pays_again env (demo_disputed PaymentStatus.PAYOUT_COMPLETED) "x1" "a1" demo_dispute
    demo_booking (Ride.defaults "r1" 0 <| Ride.driverId := "d1"%string |>) (demo_payment PaymentStatus.PAYOUT_COMPLETED)
    (demo_disputed_ok _) eq_refl) as (p' & E & _ & _ & P).
  - intros k x. cbn. rewrite lookup_singleton_Some. intros [<- _] _ _. reflexivity.
  - exists p'. split; [exact E | exact P].
Defined.

Lemma failed_settlement_refund_is_lost_witness :
  let env := demo_env 1000 (fun n _ => if (n =? 0)%nat then Some "api_error"%string else None) in
  let s1 := (settleDispute "x1" REFUND "a1" None (demo_disputed PaymentStatus.HELD_IN_ESCROW)).1 in
  let s2 := (settleDispute "x1" REFUND "a1" None s1).1 in
  (settleDispute "x1" REFUND "a1" None (demo_disputed PaymentStatus.HELD_IN_ESCROW)).2 = Err "api_error" /\
  Db.ledgerEntry (St.db s2) = [] /\ refund_calls Asked "pi_1" (St.fx s2) = refund_calls Asked "pi_1" (St.fx s1).
Proof.
  intros env s1 s2.
  destruct (@failed_settlement_refund_is_lost env (demo_disputed PaymentStatus.HELD_IN_ESCROW) "x1" "a1" "pi_1" "api_error"
    demo_dispute demo_booking (Ride.defaults "r1" 0 <| Ride.driverId := "d1"%string |>)
    (demo_payment PaymentStatus.HELD_IN_ESCROW) 0 (demo_disputed_ok _) eq_refl eq_refl eq_refl) as [R W].
  - vm_compute. reflexivity.
  - vm_compute. reflexivity.
  - destruct W as (_ & _ & _ & L & _ & F). split; [exact R|]. split; [exact L | exact F].
Defined.
End witnesses.
