(* ===== verification/Reconciliation.v ===== *)
(** * Reconciliation

    Models [modules/reconciliation/reconciliation.service.ts]: the hourly
    comparison of payments with Stripe's intents and its automatic repair, the daily
    checks of escrow, ledger and disputes, and the administrator's handling of the
    issues they raise. *)

From Stdlib Require Import ZArith QArith Qabs Lia Lqa.
From stdpp Require Import base list option strings gmap pretty.
From S2P Require Import Prelude JsNumber JsText Money Schema Store Seats Payments Payout Time Gateway Booking Disputes.

Open Scope Z_scope.

(** ** States that agree *)

(** The states a payment may be in when its intent is in a state; none for a state
    that is not listed. *)
Definition STRIPE_TO_INTERNAL_MAP (stripeStatus : string) : list PaymentStatus.t :=
  if bool_decide (stripeStatus = "requires_payment_method"%string)
  then [PaymentStatus.CREATED; PaymentStatus.PAYMENT_PENDING]
  else if bool_decide (stripeStatus = "requires_confirmation"%string)
  then [PaymentStatus.CREATED; PaymentStatus.PAYMENT_PENDING]
  else if bool_decide (stripeStatus = "requires_action"%string) then [PaymentStatus.PAYMENT_PENDING]
  else if bool_decide (stripeStatus = "processing"%string) then [PaymentStatus.PAYMENT_PENDING]
  else if bool_decide (stripeStatus = "requires_capture"%string)
  then [PaymentStatus.PAID; PaymentStatus.HELD_IN_ESCROW]
  else if bool_decide (stripeStatus = "succeeded"%string)
  then [PaymentStatus.PAID; PaymentStatus.HELD_IN_ESCROW; PaymentStatus.PAYOUT_ELIGIBLE;
        PaymentStatus.TRANSFER_CREATED; PaymentStatus.PAYOUT_COMPLETED]
  else if bool_decide (stripeStatus = "canceled"%string)
  then [PaymentStatus.PAYMENT_FAILED; PaymentStatus.REFUNDED]
  else [].

(** The one repair that is safe: [(stripeStatus, internalStatus, targetStatus)]. *)
Definition SAFE_REPAIRS : list (string * PaymentStatus.t * PaymentStatus.t) :=
  [("succeeded"%string, PaymentStatus.PAYMENT_PENDING, PaymentStatus.PAID)].

Definition findRepair (stripeStatus : string) (internalStatus : PaymentStatus.t) : option PaymentStatus.t :=
  snd <$> List.find (fun r => bool_decide (r.1.1 = stripeStatus) && bool_decide (r.1.2 = internalStatus)) SAFE_REPAIRS.

(** [Math.abs(x)] *)
Definition math_abs (x : num) : num := if Qle_bool 0 x then x else (- x)%Q.

(** The sums of the entries of a payment on each side. *)
Definition sumOf (dir : Direction.t) (entries : list LedgerEntry.t) : num :=
  fold_left (fun sum e => nadd sum (LedgerEntry.amount e))
    (List.filter (fun e => bool_decide (LedgerEntry.direction e = dir)) entries) (num_of_Z 0).

Definition imbalanced (entries : list LedgerEntry.t) : bool :=
  nlt (rnd (1 # 100)) (math_abs (nsub (sumOf Direction.DEBIT entries) (sumOf Direction.CREDIT entries))).

Definition RESOLVED_DISPUTE_STATUSES : list DisputeStatus.t :=
  [DisputeStatus.RESOLVED_REFUND; DisputeStatus.RESOLVED_PAYOUT; DisputeStatus.RESOLVED_SPLIT;
   DisputeStatus.AUTO_RESOLVED_RIDER_REFUND; DisputeStatus.AUTO_RESOLVED_DRIVER_PAYOUT].

Definition payoutStates : list PaymentStatus.t :=
  [PaymentStatus.PAYOUT_ELIGIBLE; PaymentStatus.TRANSFER_CREATED; PaymentStatus.PAYOUT_COMPLETED].

(** The payment is in a state the resolution of its dispute leads to. *)
Definition settlementValid (dispute : DisputeStatus.t) (payment : PaymentStatus.t) : bool :=
  match dispute with
  | DisputeStatus.RESOLVED_REFUND | DisputeStatus.AUTO_RESOLVED_RIDER_REFUND =>
      bool_decide (payment = PaymentStatus.REFUNDED)
  | DisputeStatus.RESOLVED_PAYOUT | DisputeStatus.AUTO_RESOLVED_DRIVER_PAYOUT => bool_decide (payment ∈ payoutStates)
  | DisputeStatus.RESOLVED_SPLIT => bool_decide (payment ∈ payoutStates ++ [PaymentStatus.REFUNDED])
  | _ => true
  end.

(** The outcome for one payment. *)
Module Reconciled.
Record t := { issue : bool; repaired : bool }.
End Reconciled.

Module HourlyResult.
Record t := { checked : nat; issues : nat; repaired : nat }.
End HourlyResult.

Module DailyResult.
Record t := { staleEscrow : nat; ledgerIssues : nat }.
End DailyResult.

(** The counts of the administrator's summary; the severities in the order they
    first appear. *)
Module IssueSummary.
Record t := { open : nat; autoRepaired : nat; total : nat; bySeverity : list (string * nat) }.
End IssueSummary.

Section reconciliation.
Context `{Env}.

Definition createIssue (paymentId bookingId issueType severity description internalState : string)
    (f : ReconciliationIssue.t -> ReconciliationIssue.t) : H unit :=
  id ← randomUUID;
  create prisma.reconciliationIssue id
    (f (ReconciliationIssue.defaults id now
          <| ReconciliationIssue.paymentId := Some paymentId |>
          <| ReconciliationIssue.bookingId := Some bookingId |>
          <| ReconciliationIssue.issueType := issueType |>
          <| ReconciliationIssue.severity := severity |>
          <| ReconciliationIssue.description := description |>
          <| ReconciliationIssue.internalState := Some internalState |>));;
  mret tt.

(** ** One payment against its intent *)

Definition reconcilePayment (payment : Payment.t) : H Reconciled.t :=
  match truthy (Payment.stripePaymentIntentId payment) with
  | None => mret {| Reconciled.issue := false; Reconciled.repaired := false |}
  | Some intentId =>
      pi ← retrieveIntent intentId;
      let stripeStatus := PaymentIntent.status pi in
      let status := Payment.status payment in
      if bool_decide (status ∈ STRIPE_TO_INTERNAL_MAP stripeStatus)
      then mret {| Reconciled.issue := false; Reconciled.repaired := false |}
      else
        match findRepair stripeStatus status with
        | Some targetStatus =>
            update prisma.payment (Payment.id payment) (set_status targetStatus);;
            createIssue (Payment.id payment) (Payment.bookingId payment) "MISSING_WEBHOOK" "MEDIUM"
              ("Auto-repaired: Stripe=" +:+ stripeStatus +:+ ", internal was " +:+ show_status status +:+
               ", moved to " +:+ show_status targetStatus) (show_status status)
              (fun i => i <| ReconciliationIssue.stripeState := Some stripeStatus |>
                          <| ReconciliationIssue.autoRepaired := true |>
                          <| ReconciliationIssue.repairedAt := Some now |>);;
            mret {| Reconciled.issue := true; Reconciled.repaired := true |}
        | None =>
            createIssue (Payment.id payment) (Payment.bookingId payment) "STRIPE_MISMATCH" "HIGH"
              ("State mismatch: Stripe=" +:+ stripeStatus +:+ ", internal=" +:+ show_status status)
              (show_status status) (fun i => i <| ReconciliationIssue.stripeState := Some stripeStatus |>);;
            mret {| Reconciled.issue := true; Reconciled.repaired := false |}
        end
  end.

(** [try { ... } catch { logError }] around each payment. *)
Fixpoint reconcileAll (payments : list Payment.t) : H (nat * nat) :=
  match payments with
  | [] => mret (0, 0)%nat
  | payment :: rest =>
      result ← try_catch (reconcilePayment payment)
                 (fun _ => mret {| Reconciled.issue := false; Reconciled.repaired := false |});
      counts ← reconcileAll rest;
      mret (counts.1 + (if Reconciled.issue result then 1 else 0),
            counts.2 + (if Reconciled.repaired result then 1 else 0))%nat
  end.

Definition runHourlyReconciliation : H HourlyResult.t :=
  let twoHoursAgo := now - 2 * 60 * 60 * 1000 in
  payments ← findMany prisma.payment (fun p =>
    bool_decide (is_Some (Payment.stripePaymentIntentId p)) && (twoHoursAgo <=? paymentUpdatedAt p) &&
    negb (bool_decide (Payment.status p ∈ [PaymentStatus.PAYOUT_COMPLETED; PaymentStatus.REFUNDED])));
  counts ← reconcileAll payments;
  mret {| HourlyResult.checked := length payments; HourlyResult.issues := counts.1;
          HourlyResult.repaired := counts.2 |}.

(** ** Daily checks *)

Definition flagStale (payment : Payment.t) : H nat :=
  createIssue (Payment.id payment) (Payment.bookingId payment) "STALE_ESCROW" "HIGH"
    ("Completed booking payment is still HELD_IN_ESCROW past the " +:+ pretty PAYOUT_ELIGIBILITY_DELAY_MINUTES +:+
     " minute payout eligibility delay.") (show_status PaymentStatus.HELD_IN_ESCROW) (fun i => i);;
  mret 1%nat.

Definition paymentEntries (paymentId : string) (d : Db.t) : list LedgerEntry.t :=
  List.filter (fun e => bool_decide (LedgerEntry.paymentId e = Some paymentId)) (Db.ledgerEntry d).

Definition checkLedger (payment : Payment.t) : H nat :=
  entries ← get (fun s => paymentEntries (Payment.id payment) (St.db s));
  let totalDebit := sumOf Direction.DEBIT entries in
  let totalCredit := sumOf Direction.CREDIT entries in
  if imbalanced entries then
    createIssue (Payment.id payment) (Payment.bookingId payment) "LEDGER_IMBALANCE" "CRITICAL"
      ("Ledger imbalance: debits=" +:+ to_fixed2_string totalDebit +:+ ", credits=" +:+ to_fixed2_string totalCredit +:+
       ", diff=" +:+ to_fixed2_string (nsub totalDebit totalCredit)) "LEDGER"
      (fun i => i <| ReconciliationIssue.metadataJson := Some (JObject
         [("totalDebit", JNumber totalDebit); ("totalCredit", JNumber totalCredit);
          ("entries", JNumber (num_of_Z (Z.of_nat (length entries))))]%string) |>);;
    mret 1%nat
  else mret 0%nat.

Definition checkSettlement (dispute : Dispute.t) : H nat :=
  payment ← findByBooking (Dispute.bookingId dispute);
  match payment with
  | None => mret 0%nat
  | Some payment =>
      if settlementValid (Dispute.status dispute) (Payment.status payment) then mret 0%nat
      else
        createIssue (Payment.id payment) (Dispute.bookingId dispute) "DISPUTE_PAYMENT_MISMATCH" "CRITICAL"
          ("Dispute " +:+ Dispute.id dispute +:+ " is " +:+ disputeStatus_text (Dispute.status dispute) +:+
           " but payment is " +:+ show_status (Payment.status payment) +:+ ".") (show_status (Payment.status payment))
          (fun i => i <| ReconciliationIssue.metadataJson := Some (JObject
             [("disputeId", JString (Dispute.id dispute));
              ("disputeStatus", JString (disputeStatus_text (Dispute.status dispute)));
              ("resolution", joptional JString (Dispute.resolution dispute))]%string) |>);;
        mret 1%nat
  end.

(** The loop of one check, counting the issues it raised. *)
Fixpoint count_issues {A} (check : A -> H nat) (l : list A) : H nat :=
  match l with
  | [] => mret 0%nat
  | x :: rest => n ← check x; k ← count_issues check rest; mret (n + k)%nat
  end.

Definition DAY_MS : Z := 24 * 60 * 60 * 1000.

Definition runDailyReconciliation : H DailyResult.t :=
  let staleThreshold := now - Z.max PAYOUT_ELIGIBILITY_DELAY_MINUTES 30 * 60 * 1000 in
  stalePayments ← get (fun s => where_ prisma.payment (isReleasable (St.db s) staleThreshold) (St.db s));
  staleEscrow ← count_issues flagStale stalePayments;
  completedPayments ← findMany prisma.payment (fun p =>
    bool_decide (Payment.status p ∈ [PaymentStatus.PAYOUT_COMPLETED; PaymentStatus.REFUNDED]) &&
    (now - DAY_MS <=? paymentUpdatedAt p));
  ledgerIssues ← count_issues checkLedger completedPayments;
  resolvedDisputes ← findMany prisma.dispute (fun d =>
    bool_decide (Dispute.status d ∈ RESOLVED_DISPUTE_STATUSES) &&
    match Dispute.resolvedAt d with Some t => now - DAY_MS <=? t | None => false end);
  disputeIssues ← count_issues checkSettlement resolvedDisputes;
  mret {| DailyResult.staleEscrow := staleEscrow; DailyResult.ledgerIssues := ledgerIssues + disputeIssues |}.

(** ** Issues *)

Definition resolveIssue (issueId adminId resolution : string) : H ReconciliationIssue.t :=
  issue ← findUnique prisma.reconciliationIssue issueId;
  match issue with
  | None => throw "ISSUE_NOT_FOUND"
  | Some issue =>
      throw_if (bool_decide (is_Some (ReconciliationIssue.resolvedAt issue))) "ISSUE_ALREADY_RESOLVED";;
      update prisma.reconciliationIssue issueId (fun i =>
        i <| ReconciliationIssue.resolvedBy := Some adminId |> <| ReconciliationIssue.resolvedAt := Some now |>
          <| ReconciliationIssue.resolution := Some resolution |>)
  end.

Definition isOpenIssue (i : ReconciliationIssue.t) : bool := bool_decide (ReconciliationIssue.resolvedAt i = None).

(** [groupBy]: a count per severity. *)
Definition countBySeverity (issues : list ReconciliationIssue.t) : list (string * nat) :=
  map (fun severity => (severity, length (List.filter (fun i =>
         bool_decide (ReconciliationIssue.severity i = severity)) issues)))
    (remove_dups (map ReconciliationIssue.severity issues)).

Definition getIssueSummary : H IssueSummary.t :=
  issues ← findMany prisma.reconciliationIssue (fun _ => true);
  mret {| IssueSummary.open := length (List.filter isOpenIssue issues);
          IssueSummary.autoRepaired := length (List.filter ReconciliationIssue.autoRepaired issues);
          IssueSummary.total := length issues;
          IssueSummary.bySeverity := countBySeverity (List.filter isOpenIssue issues) |}.
End reconciliation.

(** ** The ledger check *)

Section ledger_check.
Open Scope Q_scope.

Lemma rnd_tiny (x : Q) : Qabs x <= 1 # 1000000 -> Qabs (rnd x) <= 1 # 1000.
Proof.
  intros Hx. destruct (Qeq_dec x 0) as [E|N].
  { rewrite (rnd_zero x E). vm_compute. discriminate. }
  rewrite rnd_red. pose proof (rnd_at_error (ulp_exp x) x) as R.
  assert (U : Qpower 2 (ulp_exp x) <= 1 # 1000000).
  { eapply Qle_trans with (Qpower 2 (-20)); [|vm_compute; discriminate]. apply p2_mono. unfold ulp_exp.
    destruct (ilog2_spec x N) as [L _].
    assert (ilog2 x < 0)%Z; [|lia]. apply p2_lt_inv. eapply Qle_lt_trans; [exact L|].
    eapply Qle_lt_trans; [exact Hx|]. reflexivity. }
  apply Qabs_Qle_condition in Hx, R. apply Qabs_Qle_condition. lra.
Qed.

(** A difference is flagged when it exceeds one cent by more than its error. *)
Lemma flag_difference (d c : num) : (1 # 100) + (1 # 1000) <= Qabs (d - c) -> Qabs (d - c) <= 10000000000 ->
  nlt (rnd (1 # 100)) (math_abs (nsub d c)) = true.
Proof.
  intros L U. assert (S : 1 # 1000000 <= Qabs (d - c)) by lra. apply rnd_rel in S. unfold eps in S. unfold nsub.
  assert (R : rnd (1 # 100) <= 10001 # 1000000) by (vm_compute; discriminate).
  unfold nlt. apply negb_true_iff, Bool.not_true_iff_false. rewrite Qle_bool_iff. intros X.
  assert (Y : 10001 # 1000000 < math_abs (rnd (d - c))); [|lra].
  unfold math_abs. revert L U S. generalize (rnd (d - c)). intros v L U S.
  apply Qabs_Qle_condition in S. apply Qabs_Qle_condition in U. revert L S. apply Qabs_case; intros N L S.
  - assert (P : Qle_bool 0 v = true) by (apply Qle_bool_iff; lra). rewrite P. lra.
  - destruct (Qle_bool 0 v) eqn:P; [apply Qle_bool_iff in P; lra|]. lra.
Qed.

Lemma no_flag_difference (d c : num) : Qabs (d - c) <= 9 # 1000 ->
  nlt (rnd (1 # 100)) (math_abs (nsub d c)) = false.
Proof.
  intros U. unfold nlt, nsub. apply negb_false_iff, Qle_bool_iff.
  assert (R : 9999 # 1000000 <= rnd (1 # 100)) by (vm_compute; discriminate).
  eapply Qle_trans; [|exact R].
  assert (V : Qabs (rnd (d - c)) <= 91 # 10000).
  { destruct (Qlt_le_dec (Qabs (d - c)) (1 # 1000000)) as [S|S].
    - eapply Qle_trans; [apply rnd_tiny; lra | discriminate].
    - apply rnd_rel in S. unfold eps in S. pose proof U as U'. apply Qabs_Qle_condition in S, U'.
      apply Qabs_Qle_condition. lra. }
  unfold math_abs. revert V. generalize (rnd (d - c)). intros v V. apply Qabs_Qle_condition in V.
  destruct (Qle_bool 0 v); lra.
Qed.

(** The sum of a list of amounts, each a number of cents, is off by little. *)
Lemma fold_error (cs : list Z) (acc : num) (a : Z) (e : Q) :
  (forall c, In c cs -> (0 <= c)%Z) -> (0 <= a)%Z -> (a + fold_right Z.add 0%Z cs <= wide_cents / 2)%Z ->
  0 <= acc -> Qabs (acc - inject_Z a * (1 # 100)) <= e -> 0 <= e -> (length cs <= 100)%nat ->
  e + inject_Z (Z.of_nat (length cs)) * (1 # 50000) <= 1 # 100 ->
  Qabs (fold_left (fun sum c => nadd sum (of_cents c)) cs acc - inject_Z (a + fold_right Z.add 0%Z cs) * (1 # 100))
    <= e + inject_Z (Z.of_nat (length cs)) * (1 # 50000).
Proof.
  revert acc a e. induction cs as [|c cs IH]; intros acc a e Pos Ha Sum Pacc Err Pe Len Room.
  - cbn [fold_left fold_right length Z.of_nat]. rewrite Z.add_0_r. change (inject_Z (Z.of_nat 0)) with 0. eapply Qle_trans; [exact Err|]. lra.
  - cbn [fold_left fold_right length] in *.
    assert (Hc : (0 <= c)%Z) by (apply Pos; left; reflexivity).
    assert (Hs : (0 <= fold_right Z.add 0 cs)%Z).
    { assert (Pos' : forall x, In x cs -> (0 <= x)%Z) by (intros; apply Pos; right; assumption). clear - Pos'.
      induction cs as [|x cs IH]; cbn; [lia|].
      specialize (Pos' x (or_introl eq_refl)) as Hx. specialize (IH (fun y Hy => Pos' y (or_intror Hy))). lia. }
    rewrite Nat2Z.inj_succ, <- Z.add_1_r, (inject_Z_plus (Z.of_nat (length cs)) 1) in Room |- *. change (inject_Z 1) with 1 in *.
    assert (L0 : 0 <= inject_Z (Z.of_nat (length cs))) by (rewrite <- (Zle_Qle 0); lia).
    unfold wide_cents in Sum. change (1000000000000 / 2)%Z with 500000000000%Z in Sum.
    assert (B : inject_Z a + inject_Z c <= 500000000000) by (rewrite <- inject_Z_plus, <- (Zle_Qle _ 500000000000); lia).
    assert (A0 : 0 <= inject_Z a) by (rewrite <- (Zle_Qle 0); lia).
    assert (C0 : 0 <= inject_Z c) by (rewrite <- (Zle_Qle 0); lia).
    assert (Oc : Qabs (of_cents c - inject_Z c * (1 # 100)) <= 1 # 100000).
    { unfold of_cents, ndiv, num_of_Z. apply rnd_abs; unfold Qdiv; change (/ 100) with (1 # 100); lra. }
    assert (Op : 0 <= of_cents c).
    { unfold of_cents, ndiv, num_of_Z. apply rnd_nonneg. unfold Qdiv. change (/ 100) with (1 # 100). lra. }
    pose proof Err as Err'. apply Qabs_Qle_condition in Err', Oc.
    assert (R : Qabs (nadd acc (of_cents c) - (acc + of_cents c)) <= 1 # 100000).
    { apply rnd_abs; lra. }
    apply Qabs_Qle_condition in R.
    assert (N0 : 0 <= nadd acc (of_cents c)) by (apply rnd_nonneg; lra).
    rewrite Z.add_assoc.
    assert (Goal' := IH (nadd acc (of_cents c)) (a + c)%Z (e + (1 # 50000)) (fun x Hx => Pos x (or_intror Hx))
       ltac:(lia) ltac:(unfold wide_cents; change (1000000000000 / 2)%Z with 500000000000%Z; lia) N0).
    assert (E1 : Qabs (nadd acc (of_cents c) - inject_Z (a + c) * (1 # 100)) <= e + (1 # 50000)).
    { rewrite inject_Z_plus. apply Qabs_Qle_condition. lra. }
    specialize (Goal' E1 ltac:(lra) ltac:(lia) ltac:(lra)).
    eapply Qle_trans; [exact Goal'|]. lra.
Qed.
End ledger_check.

(** The cents of the entries on one side. *)
Definition sideCents (dir : Direction.t) (entries : list LedgerEntry.t) : list Z :=
  map (fun e => to_cents (LedgerEntry.amount e))
    (List.filter (fun e => bool_decide (LedgerEntry.direction e = dir)) entries).
Definition sumCents (dir : Direction.t) (entries : list LedgerEntry.t) : Z := fold_right Z.add 0 (sideCents dir entries).

(** Amounts in whole cents, not too many and not too large. *)
Record checkable (entries : list LedgerEntry.t) : Prop := {
  checkable_cents : forall e, In e entries -> exists c, 0 <= c <= safe_cents /\ LedgerEntry.amount e = of_cents c;
  checkable_length : (length entries <= 100)%nat;
  checkable_sum : forall dir, sumCents dir entries <= wide_cents / 2;
}.

Lemma filter_length {A} (f : A -> bool) (l : list A) : (length (List.filter f l) <= length l)%nat.
Proof. induction l as [|x l IH]; cbn; [lia|]. destruct (f x); cbn; lia. Qed.

Lemma fold_left_amounts (es : list LedgerEntry.t) (acc : num) :
  (forall e, In e es -> exists c, 0 <= c <= safe_cents /\ LedgerEntry.amount e = of_cents c) ->
  fold_left (fun sum e => nadd sum (LedgerEntry.amount e)) es acc =
  fold_left (fun sum c => nadd sum (of_cents c)) (map (fun e => to_cents (LedgerEntry.amount e)) es) acc.
Proof.
  revert acc. induction es as [|e es IH]; intros acc He; [reflexivity|]. cbn [fold_left map].
  destruct (He e (or_introl eq_refl)) as (c & Hc & E).
  rewrite IH by (intros; apply He; right; assumption). rewrite E, to_cents_of_cents by lia. reflexivity.
Qed.

Lemma sumOf_error (dir : Direction.t) (entries : list LedgerEntry.t) : checkable entries ->
  (Qabs (sumOf dir entries - inject_Z (sumCents dir entries) * (1 # 100)) <= 1 # 500)%Q /\ 0 <= sumCents dir entries.
Proof.
  intros [C L S]. unfold sumOf, sumCents in *. specialize (S dir).
  assert (C' : forall e, In e (List.filter (fun e => bool_decide (LedgerEntry.direction e = dir)) entries) ->
     exists c, 0 <= c <= safe_cents /\ LedgerEntry.amount e = of_cents c).
  { intros e He. apply C. apply filter_In in He. apply He. }
  assert (P : forall c, In c (sideCents dir entries) -> 0 <= c).
  { intros c Hc. apply in_map_iff in Hc as (e & <- & He). destruct (C' e He) as (c & Hc & ->).
    rewrite to_cents_of_cents; lia. }
  assert (N : (length (sideCents dir entries) <= 100)%nat).
  { unfold sideCents. rewrite length_map. pose proof (filter_length (fun e => bool_decide (LedgerEntry.direction e = dir)) entries). lia. }
  split.
  - rewrite (fold_left_amounts _ _ C'). fold (sideCents dir entries).
    assert (B : (inject_Z (Z.of_nat (length (sideCents dir entries))) <= 100)%Q) by (rewrite <- (Zle_Qle _ 100); lia).
    eapply Qle_trans; [apply (fold_error (sideCents dir entries) (num_of_Z 0) 0 0 P)|]; try assumption; try lia; try discriminate.
    + cbn [length]. lra.
    + lra.
  - clear - P. induction (sideCents dir entries) as [|c l IH]; cbn; [lia|].
    pose proof (P c (or_introl eq_refl)). specialize (IH (fun x Hx => P x (or_intror Hx))). lia.
Qed.

Lemma inject_Z_sub (a b : Z) : (inject_Z (a - b) == inject_Z a - inject_Z b)%Q.
Proof. unfold Qminus. rewrite <- inject_Z_opp, <- inject_Z_plus. reflexivity. Qed.

Lemma imbalanced_cents (entries : list LedgerEntry.t) : checkable entries ->
  (sumCents Direction.DEBIT entries = sumCents Direction.CREDIT entries -> imbalanced entries = false) /\
  (2 <= Z.abs (sumCents Direction.DEBIT entries - sumCents Direction.CREDIT entries) -> imbalanced entries = true).
Proof.
  intros C. destruct (sumOf_error Direction.DEBIT entries C) as [Ed Pd].
  destruct (sumOf_error Direction.CREDIT entries C) as [Ec Pc].
  pose proof (checkable_sum _ C Direction.DEBIT) as Ud. pose proof (checkable_sum _ C Direction.CREDIT) as Uc.
  unfold imbalanced. revert Ed Ec. generalize (sumOf Direction.DEBIT entries) (sumOf Direction.CREDIT entries).
  revert Pd Pc Ud Uc. generalize (sumCents Direction.DEBIT entries) (sumCents Direction.CREDIT entries).
  unfold wide_cents. change (1000000000000 / 2) with 500000000000.
  intros a b Pa Pb Ua Ub d c Ed Ec. apply Qabs_Qle_condition in Ed, Ec. split.
  - intros ->. apply no_flag_difference, Qabs_Qle_condition. lra.
  - intros D. apply flag_difference.
    + assert (X : (2 <= inject_Z a - inject_Z b \/ 2 <= inject_Z b - inject_Z a)%Q).
      { rewrite <- !inject_Z_sub, <- !(Zle_Qle 2). lia. }
      apply Qabs_case; intros; lra.
    + assert (X : (inject_Z a <= 500000000000 /\ inject_Z b <= 500000000000 /\ 0 <= inject_Z a /\ 0 <= inject_Z b)%Q).
      { rewrite <- !(Zle_Qle 0), <- !(Zle_Qle _ 500000000000). lia. }
      apply Qabs_Qle_condition. lra.
Qed.

(** The daily ledger check compares cents.  For a payment of up to a hundred
    entries in whole cents, the binary64 sums and the tolerance of 0.01 raise no
    issue when debits and credits are equal, and always raise one when they differ
    by two cents or more. *)
Theorem ledger_check_correct `{Env} (s : St.t) (payment : Payment.t) :
  let entries := paymentEntries (Payment.id payment) (St.db s) in
  checkable entries -> unused_ids prisma.reconciliationIssue s ->
  let raises n := (checkLedger payment s).2 = Ok n /\
    size (Db.reconciliationIssue (St.db (checkLedger payment s).1)) = (n + size (Db.reconciliationIssue (St.db s)))%nat in
  (sumCents Direction.DEBIT entries = sumCents Direction.CREDIT entries -> raises 0%nat) /\
  (2 <= Z.abs (sumCents Direction.DEBIT entries - sumCents Direction.CREDIT entries) -> raises 1%nat).
Proof.
  intros entries C U raises. destruct (imbalanced_cents entries C) as [F0 F1]. subst raises. cbv beta.
  enough (W : wp (checkLedger payment) (fun s' r => r = Ok (if imbalanced entries then 1 else 0)%nat /\
     size (Db.reconciliationIssue (St.db s')) =
       ((if imbalanced entries then 1 else 0) + size (Db.reconciliationIssue (St.db s)))%nat) s).
  { split; intros X; [rewrite (F0 X) in W | rewrite (F1 X) in W]; exact W. }
  unfold checkLedger. wp_query. wp_query. fold entries. destruct (imbalanced entries); [|split; reflexivity].
  unfold createIssue. wp_query. wp_query. apply wp_run. intros s2 r [= <- <-]. wp_query. wp_query.
  { exfalso. unfold unused_ids in U. cbn in *. specialize (U (St.seq s) (Nat.le_refl _)). congruence. }
  wp_query. wp_query. split; [reflexivity|]. cbn in *. rewrite map_size_insert_None by assumption. reflexivity.
Qed.

(** ** What the checks see of the payment flows *)

Section flows.
Context `{Env}.

Lemma paymentEntries_append pid es (d : Db.t) : Forall (fun e => LedgerEntry.paymentId e = Some pid) es ->
  paymentEntries pid (append_entries es d) = (paymentEntries pid d ++ es)%list.
Proof.
  intros F. unfold paymentEntries, append_entries. cbn. rewrite List.filter_app. f_equal.
  induction F as [|e es E F IH]; cbn; [reflexivity|]. rewrite bool_decide_eq_true_2 by exact E. congruence.
Qed.

Lemma group_entries pid (F : string -> list LedgerEntry.t) (s : St.t) : (forall g, group_of pid g (F g)) ->
  paymentEntries pid (St.db ((groupId ← randomUUID; createLedgerEntries (F groupId);; mret groupId) s).1) =
  (paymentEntries pid (St.db s) ++ stamp (S (St.seq s)) (F (uuid (St.seq s))))%list.
Proof.
  intros G. rewrite group_run. apply (paymentEntries_append pid (stamp _ _) (St.db s)).
  eapply Forall_impl; [apply stamp_group, G | intros e []; assumption].
Qed.

(** What a driver was paid for a ride: the payment received, then the transfer. *)
Definition receivedThenPaid (p : Payment.t) (did : string) : H unit :=
  recordPaymentReceived (Payment.id p) (Payment.bookingId p) (Payment.riderId p) did
    (Payment.amountTotal p) (Payment.fareAmount p) (Payment.platformFeeAmount p) (Payment.currency p);;
  recordTransfer (Payment.id p) (Payment.bookingId p) did (netFareAmount p) (Payment.currency p);;
  mret tt.

Definition receivedEntries (p : Payment.t) (did : string) (t f : Z) (groupId : string) : list LedgerEntry.t :=
  [ entry groupId (Some (Payment.id p)) (Some (Payment.bookingId p)) (Some (Payment.riderId p)) AccountType.RIDER
      EntryType.RIDER_PAYMENT_RECEIVED Direction.DEBIT (of_cents t) (Payment.currency p) now;
    entry groupId (Some (Payment.id p)) (Some (Payment.bookingId p)) (Some did) AccountType.DRIVER
      EntryType.DRIVER_EARNING_LIABILITY Direction.CREDIT (of_cents (t - f)) (Payment.currency p) now ] ++
  (if 0 <? f then
   [ entry groupId (Some (Payment.id p)) (Some (Payment.bookingId p)) None AccountType.PLATFORM
       EntryType.PLATFORM_FEE_REVENUE Direction.CREDIT (of_cents f) (Payment.currency p) now ] else []).

Definition transferEntries (p : Payment.t) (did : string) (amount : Z) (groupId : string) : list LedgerEntry.t :=
  [ entry groupId (Some (Payment.id p)) (Some (Payment.bookingId p)) (Some did) AccountType.DRIVER
      EntryType.DRIVER_TRANSFER_CREATED Direction.DEBIT (of_cents amount) (Payment.currency p) now ].

Lemma receivedThenPaid_entries (s : St.t) (p : Payment.t) (did : string) (t f : Z) :
  PaymentCents p t f 0 0 -> paymentEntries (Payment.id p) (St.db s) = [] ->
  paymentEntries (Payment.id p) (St.db (receivedThenPaid p did s).1) =
    (stamp (S (St.seq s)) (receivedEntries p did t f (uuid (St.seq s))) ++
     stamp (S (St.seq (s <| St.seq ::= Nat.add (S (length (receivedEntries p did t f (uuid (St.seq s))))) |>)))
       (transferEntries p did (t - f) (uuid (St.seq (s <| St.seq ::= Nat.add (S (length (receivedEntries p did t f (uuid (St.seq s))))) |>)))))%list.
Proof.
  intros C E. pose proof (netFareAmount_cents p t f 0 0 C) as N. destruct C as [Et Ef Ep _ _ Hf Ht _ _].
  unfold max_split_cents in Ht. unfold receivedThenPaid. rewrite Et, Ef, Ep, N. replace (t - f - 0) with (t - f) by lia.
  pose proof (group_run (receivedEntries p did t f) s) as R1.
  match type of R1 with _ = (?x, _) => set (s1 := x) in R1 end.
  assert (Q1 : recordPaymentReceived (Payment.id p) (Payment.bookingId p) (Payment.riderId p) did (of_cents t)
    (of_cents (t - f)) (of_cents f) (Payment.currency p) s = (s1, Ok (uuid (St.seq s)))).
  { unfold recordPaymentReceived. rewrite sign_of_cents by (unfold safe_cents; lia). exact R1. }
  rewrite (bind_Ok _ _ _ _ _ Q1). pose proof (group_run (transferEntries p did (t - f)) s1) as R2.
  match type of R2 with _ = (?x, _) => set (s2 := x) in R2 end.
  assert (Q2 : recordTransfer (Payment.id p) (Payment.bookingId p) did (of_cents (t - f)) (Payment.currency p) s1 =
    (s2, Ok (uuid (St.seq s1)))) by exact R2.
  rewrite (bind_Ok _ _ _ _ _ Q2).
  etrans; [apply (paymentEntries_append (Payment.id p) (stamp _ _) (St.db s1)); repeat constructor|].
  f_equal. etrans; [apply (paymentEntries_append (Payment.id p) (stamp _ _) (St.db s))|].
  - eapply Forall_impl; [apply stamp_group; unfold receivedEntries; destruct (0 <? f); repeat constructor | intros e []; assumption].
  - rewrite E. reflexivity.
Qed.

(** Computes the two sides of a list of entries. *)
Ltac sides := cbn;
  change (bool_decide (Direction.DEBIT = Direction.DEBIT)) with true;
  change (bool_decide (Direction.CREDIT = Direction.CREDIT)) with true;
  change (bool_decide (Direction.DEBIT = Direction.CREDIT)) with false;
  change (bool_decide (Direction.CREDIT = Direction.DEBIT)) with false; cbn.

Lemma receivedThenPaid_sums (p : Payment.t) (did : string) (t f : Z) (m n : nat) (g h : string) :
  0 <= f <= t -> t <= max_split_cents ->
  let es := (stamp m (receivedEntries p did t f g) ++ stamp n (transferEntries p did (t - f) h))%list in
  checkable es /\ sumCents Direction.DEBIT es = t + (t - f) /\ sumCents Direction.CREDIT es = t.
Proof.
  unfold max_split_cents. intros Hf Ht.
  assert (X : forall x, 0 <= x <= 2 * t -> to_cents (of_cents x) = x) by (intros; apply to_cents_of_cents; unfold safe_cents; lia).
  unfold receivedEntries, transferEntries. destruct (Z.ltb_spec 0 f); cbn [app stamp length].
  all: assert (SD : forall dir es, sumCents dir es = fold_right Z.add 0 (sideCents dir es)) by reflexivity.
  all: cbv zeta; rewrite !SD; unfold sideCents; sides; rewrite ?X by lia; split; [|lia].
  all: split; [| cbn [length]; lia | intros []; rewrite SD; unfold sideCents; sides; rewrite ?X by lia; unfold wide_cents;
         change (1000000000000 / 2) with 500000000000; lia].
  all: intros e; cbn [In]; intuition subst; eexists; (split; [|reflexivity]); unfold safe_cents; lia.
Qed.

(** Every payout fails the daily check.  The transfer to the driver posts a
    debit without its counterpart: a payment that was received and paid out in full
    is reported as a CRITICAL ledger imbalance, the difference being the fare. *)
Theorem paid_out_payment_is_flagged (s : St.t) (p : Payment.t) (did : string) (t f : Z) :
  PaymentCents p t f 0 0 -> paymentEntries (Payment.id p) (St.db s) = [] -> 2 <= t - f ->
  let s1 := (receivedThenPaid p did s).1 in
  unused_ids prisma.reconciliationIssue s1 ->
  wp (checkLedger p) (fun s2 r => r = Ok 1%nat /\ exists i,
    Db.reconciliationIssue (St.db s2) !! ReconciliationIssue.id i = Some i /\
    ReconciliationIssue.paymentId i = Some (Payment.id p) /\
    ReconciliationIssue.issueType i = "LEDGER_IMBALANCE"%string /\ ReconciliationIssue.severity i = "CRITICAL"%string) s1.
Proof.
  intros C E D s1 U. pose proof (receivedThenPaid_entries s p did t f C E) as Es. fold s1 in Es.
  destruct (receivedThenPaid_sums p did t f (S (St.seq s)) (S (St.seq (s <| St.seq ::= Nat.add (S (length (receivedEntries p did t f (uuid (St.seq s))))) |>)))
    (uuid (St.seq s)) (uuid (St.seq (s <| St.seq ::= Nat.add (S (length (receivedEntries p did t f (uuid (St.seq s))))) |>)))
    (pc_fee_bounds _ _ _ _ _ C) (pc_total_bound _ _ _ _ _ C)) as (Ck & Sd & Sc).
  cbv zeta in Ck, Sd, Sc. rewrite <- Es in Ck, Sd, Sc.
  destruct (imbalanced_cents _ Ck) as [_ F]. unfold checkLedger. wp_query. wp_query.
  rewrite F by lia. unfold createIssue. wp_query. wp_query. apply wp_run. intros s2 r [= <- <-]. wp_query. wp_query.
  { exfalso. unfold unused_ids in U. cbn in *. specialize (U (St.seq s1) (Nat.le_refl _)). congruence. }
  wp_query. wp_query. split; [reflexivity|]. eexists. cbn. split; [apply lookup_insert_eq|]. auto.
Qed.
End flows.

(** ** The repair *)

Section repair.
Context `{Env}.

(** A repaired payment is stranded.  When Stripe reports an intent as succeeded
    and the payment is still pending, the hourly check sets it PAID without the ledger
    entries and the outbox event of a payment received; the webhook that arrives later
    finds it PAID and adds neither, so it is never moved into escrow or paid out. *)
Theorem repaired_payment_is_stranded (s : St.t) (p : Payment.t) (intentId : string) :
  Db.payment (St.db s) !! Payment.id p = Some p -> Payment.status p = PaymentStatus.PAYMENT_PENDING ->
  (forall k q, Db.payment (St.db s) !! k = Some q -> Payment.bookingId q = Payment.bookingId p -> k = Payment.id p) ->
  truthy (Payment.stripePaymentIntentId p) = Some intentId ->
  PaymentIntent.status (intentOf (length (St.fx s)) intentId) = "succeeded"%string ->
  fails (length (St.fx s)) (StripeRetrieveIntent intentId) = None ->
  unused_ids prisma.reconciliationIssue s ->
  exists s1, reconcilePayment p s = (s1, Ok {| Reconciled.issue := true; Reconciled.repaired := true |}) /\
    Db.payment (St.db s1) !! Payment.id p = Some (set_status PaymentStatus.PAID p) /\
    Db.ledgerEntry (St.db s1) = Db.ledgerEntry (St.db s) /\
    Db.paymentEventOutbox (St.db s1) = Db.paymentEventOutbox (St.db s) /\
    forall driverId, markBookingPaymentPaid (Payment.bookingId p) driverId s1
      = (s1, Ok (Some (set_status PaymentStatus.PAID p))).
Proof.
  intros E T U I P F Un.
  enough (W : wp (reconcilePayment p) (fun s1 r =>
    r = Ok {| Reconciled.issue := true; Reconciled.repaired := true |} /\
    Db.payment (St.db s1) = <[Payment.id p := set_status PaymentStatus.PAID p]> (Db.payment (St.db s)) /\
    Db.ledgerEntry (St.db s1) = Db.ledgerEntry (St.db s) /\
    Db.paymentEventOutbox (St.db s1) = Db.paymentEventOutbox (St.db s)) s).
  { destruct (reconcilePayment p s) as [s1 r] eqn:R. unfold wp in W. rewrite R in W. destruct W as (Rr & Wp & Wl & Wo).
    cbn in Rr, Wp, Wl, Wo. exists s1. split; [congruence|].
    assert (E1 : Db.payment (St.db s1) !! Payment.id p = Some (set_status PaymentStatus.PAID p)).
    { rewrite Wp. apply lookup_insert_eq. }
    split; [exact E1|]. split; [exact Wl|]. split; [exact Wo|]. intros driverId. unfold markBookingPaymentPaid, findByBooking.
    etrans; [apply bind_Ok; reflexivity|]. cbv beta.
    rewrite (findFirst_unique prisma.payment _ _ (Payment.id p) (set_status PaymentStatus.PAID p) E1).
    - reflexivity.
    - apply bool_decide_eq_true. reflexivity.
    - intros k q Ek Hq%bool_decide_eq_true. cbn in Ek. rewrite Wp in Ek.
      apply lookup_insert_Some in Ek as [[_ <-]|[Ne Ek]]; [reflexivity|]. exfalso. apply Ne. symmetry. exact (U k q Ek Hq). }
  unfold reconcilePayment. rewrite I. unfold retrieveIntent. wp_query. wp_query. wp_query. wp_query. wp_query.
  match goal with Hf : fails _ _ = o |- _ => rewrite F in Hf; subst o end. wp_query. rewrite P, T.
  change (bool_decide (PaymentStatus.PAYMENT_PENDING ∈ STRIPE_TO_INTERNAL_MAP "succeeded")) with false.
  change (findRepair "succeeded" PaymentStatus.PAYMENT_PENDING) with (Some PaymentStatus.PAID). cbv beta iota.
  wp_query. wp_query; [cbn in *; congruence|]. assert (r = p) as -> by (cbn in *; congruence).
  unfold createIssue. wp_query. wp_query. apply wp_run. intros s2 r [= <- <-]. wp_query. wp_query.
  { exfalso. unfold unused_ids in Un. cbn in *. specialize (Un (St.seq s) (Nat.le_refl _)). congruence. }
  wp_query. wp_query. repeat split.
Qed.

(** What an hourly run may have done to the payments. *)
Record only_repaired (d0 d : Db.t) : Prop := {
  repaired_payments : forall k p, Db.payment d0 !! k = Some p ->
    Db.payment d !! k = Some p \/
    (Payment.status p = PaymentStatus.PAYMENT_PENDING /\ Db.payment d !! k = Some (set_status PaymentStatus.PAID p) /\
     exists n intentId, Payment.stripePaymentIntentId p = Some intentId /\
       PaymentIntent.status (intentOf n intentId) = "succeeded"%string);
  repaired_bookings : Db.rideBooking d = Db.rideBooking d0;
  repaired_ledger : Db.ledgerEntry d = Db.ledgerEntry d0;
}.

Lemma truthy_Some o i : truthy o = Some i -> o = Some i.
Proof. destruct o as [[|c r]|]; cbn; congruence. Qed.

Lemma findRepair_Some st internal target : findRepair st internal = Some target ->
  st = "succeeded"%string /\ internal = PaymentStatus.PAYMENT_PENDING /\ target = PaymentStatus.PAID.
Proof.
  unfold findRepair. cbn. destruct (bool_decide _ && bool_decide _) eqn:B; [|discriminate].
  apply andb_prop in B as [B1%bool_decide_eq_true B2%bool_decide_eq_true]. intros [= <-]. auto.
Qed.

Lemma only_repaired_issue d0 d g : only_repaired d0 d -> only_repaired d0 (with_rows prisma.reconciliationIssue g d).
Proof. intros [A B C]. split; assumption. Qed.

Lemma wp_createIssue pid bid ty sev desc st f (I : Db.t -> Prop) Q (s : St.t) :
  (forall d g, I d -> I (with_rows prisma.reconciliationIssue g d)) -> I (St.db s) ->
  (forall s' r, I (St.db s') -> Db.payment (St.db s') = Db.payment (St.db s) -> Q s' r) ->
  wp (createIssue pid bid ty sev desc st f) Q s.
Proof.
  intros Hg Hs HQ. unfold createIssue. wp_query. apply wp_run. intros s2 r [= <- <-]. wp_query. wp_query.
  - apply HQ; [exact Hs | reflexivity].
  - wp_query. apply HQ; [apply Hg, Hs | reflexivity].
Qed.

(** One payment, as it was listed. *)
Lemma wp_reconcilePayment d0 p Q (s : St.t) : only_repaired d0 (St.db s) ->
  Db.payment d0 !! Payment.id p = Some p -> Db.payment (St.db s) !! Payment.id p = Some p ->
  (forall s' r, only_repaired d0 (St.db s') ->
     (forall k, k <> Payment.id p -> Db.payment (St.db s') !! k = Db.payment (St.db s) !! k) -> Q s' r) ->
  wp (reconcilePayment p) Q s.
Proof.
  intros O E0 E HQ. unfold reconcilePayment. destruct (truthy _) as [i|] eqn:T; [|wp_query; apply HQ; auto].
  apply truthy_Some in T. unfold retrieveIntent. wp_query. wp_query. wp_query. wp_query. wp_query.
  destruct o as [e|]; [apply HQ; auto|]. wp_query.
  destruct (bool_decide _); [wp_query; apply HQ; auto|].
  destruct (findRepair _ _) as [target|] eqn:R.
  - apply findRepair_Some in R as (R1 & R2 & ->). wp_query. wp_query; [cbn in *; congruence|].
    assert (r = p) as -> by (cbn in *; congruence). wp_query.
    apply (wp_createIssue _ _ _ _ _ _ _ (only_repaired d0)); [intros; apply only_repaired_issue; assumption | |].
    + destruct O as [Op Ob Ol]. split; [|exact Ob | exact Ol]. intros k q Ek. cbn.
      destruct (decide (k = Payment.id p)) as [->|Ne].
      * rewrite lookup_insert_eq. rewrite E0 in Ek. injection Ek as <-. right. split; [exact R2|].
        split; [reflexivity|]. exists (length (St.fx s)), i. auto.
      * rewrite lookup_insert_ne by congruence. exact (Op k q Ek).
    + intros s' [x|e] O' Ep; [wp_query|]; apply HQ; auto; intros k Ne; rewrite Ep; apply lookup_insert_ne; congruence.
  - wp_query. apply (wp_createIssue _ _ _ _ _ _ _ (only_repaired d0)); [intros; apply only_repaired_issue; assumption | exact O |].
    intros s' [x|e] O' Ep; [wp_query|]; apply HQ; auto; intros k Ne; rewrite Ep; reflexivity.
Qed.

Lemma wp_reconcileAll d0 l Q (s : St.t) : NoDup (map Payment.id l) -> only_repaired d0 (St.db s) ->
  (forall p, In p l -> Db.payment d0 !! Payment.id p = Some p /\ Db.payment (St.db s) !! Payment.id p = Some p) ->
  (forall s' r, only_repaired d0 (St.db s') -> Q s' r) -> wp (reconcileAll l) Q s.
Proof.
  revert Q s. induction l as [|p l IH]; intros Q s N O L HQ; cbn [reconcileAll]; [wp_query; auto|].
  cbn in N. apply NoDup_cons in N as [Np N]. destruct (L p (or_introl eq_refl)) as [L0 L1].
  wp_query. wp_query. apply (wp_reconcilePayment d0); [exact O | exact L0 | exact L1|]. intros s' r O' Same.
  assert (Next : forall x, wp (counts ← reconcileAll l;
      mret (counts.1 + (if Reconciled.issue x then 1 else 0), counts.2 + (if Reconciled.repaired x then 1 else 0))%nat) Q s').
  { intros x. wp_query. apply IH; [exact N | exact O' | |].
    - intros q Hq. destruct (L q (or_intror Hq)) as [M0 M1]. split; [exact M0|]. rewrite Same; [exact M1|].
      intros X. apply Np. rewrite <- X. apply list_elem_of_In, in_map, Hq.
    - intros s'' [c|e] O''; [wp_query|]; apply HQ; exact O''. }
  destruct r as [x|e]; [|wp_query]; apply Next.
Qed.

(** The hourly check only repairs.  Whatever Stripe answers and whichever calls
    fail, an hourly run leaves bookings and ledger as they are, and changes a payment
    only by setting one that is pending to PAID, when Stripe reported its intent as
    succeeded. *)
Theorem hourly_only_repairs (s : St.t) : payments_keyed (St.db s) ->
  only_repaired (St.db s) (St.db (runHourlyReconciliation s).1).
Proof.
  intros K. enough (W : wp runHourlyReconciliation (fun s' _ => only_repaired (St.db s) (St.db s')) s) by exact W.
  unfold runHourlyReconciliation. wp_query. apply wp_get. wp_query.
  apply (wp_reconcileAll (St.db s)).
  - apply where_nodup. exact K.
  - split; auto.
  - intros p Hp. apply where_elem in Hp as [_ [k Ek]]. cbn in Ek. rewrite (K k p Ek). auto.
  - intros s' [c|e] O; [wp_query|]; exact O.
Qed.
End repair.

(** ** Witnesses *)

Section witnesses.

Definition demo_pending : Payment.t :=
  demo_payment PaymentStatus.PAYMENT_PENDING <| Payment.stripePaymentIntentId := Some "pi_1"%string |>.
Definition demo_unpaid : St.t := St.Build_t (Db.empty <| Db.payment := {["p1"%string := demo_pending]} |>) [] 0.

(** The ledger of a payment that was just received. *)
Definition demo_received (env : Env) : St.t :=
  (@markPaymentPaid env "p1" "d1" (demo_state PaymentStatus.PAYMENT_PENDING)).1.

Lemma ledger_check_correct_witness :
  let env := demo_env 1000 no_failure in
  (checkLedger (demo_payment PaymentStatus.PAID) (demo_received env)).2 = Ok 0%nat.
Proof.
  intros env. apply (@ledger_check_correct env (demo_received env) (demo_payment PaymentStatus.PAID)).
  - split.
    + assert (A : map LedgerEntry.amount (paymentEntries "p1" (St.db (demo_received env))) =
        [of_cents 1020; of_cents 1000; of_cents 20]) by (vm_compute; reflexivity).
      intros e He%(in_map LedgerEntry.amount). change (Payment.id (demo_payment PaymentStatus.PAID)) with "p1"%string in He.
      rewrite A in He. unfold safe_cents.
      destruct He as [<-|[<-|[<-|[]]]]; [exists 1020 | exists 1000 | exists 20]; (split; [lia | reflexivity]).
    + vm_compute. lia.
    + intros []; vm_compute; discriminate.
  - intros n _. apply lookup_empty.
  - vm_compute. reflexivity.
Defined.

Lemma paid_out_payment_is_flagged_witness :
  let env := demo_env 1000 no_failure in
  (checkLedger (demo_payment PaymentStatus.PAYOUT_COMPLETED)
     (receivedThenPaid (demo_payment PaymentStatus.PAYOUT_COMPLETED) "d1" (demo_state PaymentStatus.PAYOUT_COMPLETED)).1).2
  = Ok 1%nat.
Proof.
  intros env.
  destruct (@paid_out_payment_is_flagged env (demo_state PaymentStatus.PAYOUT_COMPLETED)
    (demo_payment PaymentStatus.PAYOUT_COMPLETED) "d1" 1020 20 (demo_payment_cents _) eq_refl ltac:(lia)) as [R _].
  - intros n _. apply lookup_empty.
  - exact R.
Defined.

Lemma repaired_payment_is_stranded_witness :
  let env := demo_env 1000 no_failure in
  exists s1, reconcilePayment demo_pending demo_unpaid
    = (s1, Ok {| Reconciled.issue := true; Reconciled.repaired := true |}) /\
    markBookingPaymentPaid "b1" "d1" s1 = (s1, Ok (Some (set_status PaymentStatus.PAID demo_pending))) /\
    Db.ledgerEntry (St.db s1) = [].
Proof.
  intros env.
  destruct (@repaired_payment_is_stranded env demo_unpaid demo_pending "pi_1" eq_refl eq_refl) as (s1 & R & _ & L & _ & W).
  - intros k q. cbn. rewrite lookup_singleton_Some. intros [<- _] _. reflexivity.
  - vm_compute. reflexivity.
  - vm_compute. reflexivity.
  - vm_compute. reflexivity.
  - intros n _. apply lookup_empty.
  - exists s1. split; [exact R|]. split; [exact (W "d1"%string) | exact L].
Defined.

Lemma hourly_only_repairs_witness :
  let env := demo_env 1000 no_failure in
  Db.ledgerEntry (St.db (runHourlyReconciliation demo_unpaid).1) = [] /\
  HourlyResult.repaired <$> (match (runHourlyReconciliation demo_unpaid).2 with Ok r => Some r | Err _ => None end)
    = Some 1%nat.
Proof.
  intros env. split; [|vm_compute; reflexivity].
  apply (@hourly_only_repairs env demo_unpaid). intros k p. cbn. rewrite lookup_singleton_Some.
  intros [<- <-]. reflexivity.
Defined.
End witnesses.
