(* ===== verification/Admin.v ===== *)
(** * The administrator's bookings

    Models what an administrator does to a booking in [modules/admin/admin.service.ts]: the
    refund, the forced completion and the opening of a dispute.  Its decisions about licences
    are in [LicenceReview], those about vehicles in [Vehicles]; the lists, statistics, exports
    and bans of that file are not modelled. *)

From Stdlib Require Import ZArith QArith Lia Ascii String.
From stdpp Require Import base list option strings gmap.
From S2P Require Import Prelude JsNumber JsText Money Schema Store Seats Payments Payout Time Gateway.
From S2P Require Import Rewards RideRequest Booking DriverBooking RideOps Disputes Reconciliation.

Open Scope Z_scope.

Definition ACTIVE_RIDE_RESOLUTION_BOOKING_STATUSES : list BookingStatus.t :=
  [BookingStatus.CONFIRMED; BookingStatus.WAITING_FOR_PICKUP; BookingStatus.DRIVER_ARRIVED; BookingStatus.OTP_PENDING;
   BookingStatus.ONBOARD; BookingStatus.DROP_PENDING; BookingStatus.IN_PROGRESS].

Definition TERMINAL_RIDE_RESOLUTION_BOOKING_STATUSES : list BookingStatus.t :=
  [BookingStatus.PAYMENT_FAILED; BookingStatus.CANCELLED; BookingStatus.COMPLETED; BookingStatus.NO_SHOW;
   BookingStatus.DRIVER_MISSED_PICKUP; BookingStatus.DISPUTED].

Definition FORCE_COMPLETABLE_RIDE_STATUSES : list RideStatus.t := [RideStatus.IN_PROGRESS; RideStatus.COMPLETION_PENDING].

(** [s.split(',')[0]] *)
Fixpoint beforeComma (s : string) : string :=
  match s with
  | EmptyString => EmptyString
  | String c s' => if decide (c = ","%char) then EmptyString else String c (beforeComma s')
  end.

(** What [adminForceCompleteBooking] returns beside the ids. *)
Module ForceCompleted.
Record t := { rideCompleted : bool; paymentMarkedEligible : bool }.
End ForceCompleted.

Section admin.
Context `{Env}.

Definition adminRideEventData (id actionId rideId bookingId adminId eventType reason : string) : RideEvent.t := {|
  RideEvent.id := id; RideEvent.rideId := rideId; RideEvent.bookingId := Some bookingId;
  RideEvent.actionId := actionId; RideEvent.eventType := eventType; RideEvent.actorType := "ADMIN";
  RideEvent.actorId := adminId; RideEvent.lat := None; RideEvent.lng := None;
  RideEvent.clientTimestamp := now; RideEvent.serverTimestamp := now; RideEvent.validationStatus := "WARNING";
  RideEvent.metadataJson := Some (JObject
    [("supportOverride", JBool true); ("bookingId", JString bookingId); ("reason", JString reason)]%string) |}.

(** [tx.rideEvent.create({ data: adminRideEventData(...) })] *)
Definition recordAdminEvent (rideId bookingId adminId eventType reason : string) : H unit :=
  actionId ← randomUUID;
  id ← randomUUID;
  create prisma.rideEvent id (adminRideEventData id actionId rideId bookingId adminId eventType reason);;
  mret tt.

(** ** Refund *)

(** The booking once its refund was ordered. *)
Definition adminRefunded (amount : num) (b : RideBooking.t) : RideBooking.t :=
  b <| RideBooking.status := BookingStatus.CANCELLED |> <| RideBooking.refundAmount := Some amount |>
    <| RideBooking.refundPercent := Some (num_of_Z 100) |> <| RideBooking.cancelledAt := Some now |>
    <| RideBooking.cancelledByRole := Some "ADMIN"%string |>.

(** The payment and the ledger follow, best effort. *)
Definition syncAdminRefund (bookingId : string) (amount : num) : H unit :=
  updated ← findUnique prisma.rideBooking bookingId;
  match updated with
  | None => mret tt
  | Some updated =>
      ride ← rideOf updated;
      match truthy (Some (Ride.driverId ride)) with
      | Some driverId => markBookingPaymentRefunded bookingId driverId (Some amount);; mret tt
      | None => mret tt
      end
  end.

Definition adminRefundBooking (bookingId : string) : H bool :=
  booking ← findUnique prisma.rideBooking bookingId;
  match booking with
  | None => throw "BOOKING_NOT_FOUND"
  | Some booking =>
      throw_if (bool_decide (is_Some (RideBooking.refundedAt booking))) "ALREADY_REFUNDED";;
      match truthy (RideBooking.stripePaymentIntentId booking), RideBooking.paymentAmount booking with
      | Some intentId, Some amount =>
          throw_if (Qeq_bool amount 0) "NO_PAYMENT_TO_REFUND";;
          transaction (
            update prisma.rideBooking bookingId (adminRefunded amount);;
            refundPaymentIntent intentId (toMinorCurrencyUnits amount);;
            update prisma.rideBooking bookingId (fun b => b <| RideBooking.refundedAt := Some now |>));;
          attempt (syncAdminRefund bookingId amount);;
          mret true
      | _, _ => throw "NO_PAYMENT_TO_REFUND"
      end
  end.

(** ** Forced completion *)

(** The open issues about a booking, its payment or its ride. *)
Definition isIssueOf (bookingId : string) (payment : option Payment.t) (rideId : string)
    (i : ReconciliationIssue.t) : bool :=
  bool_decide (ReconciliationIssue.resolvedAt i = None) &&
  (bool_decide (ReconciliationIssue.bookingId i = Some bookingId) ||
   bool_decide (ReconciliationIssue.paymentId i = Some (from_option Payment.id "__none__"%string payment)) ||
   match jfield "rideId" (ReconciliationIssue.metadataJson i) with
   | Some (JString id) => bool_decide (id = rideId)
   | _ => false
   end).

Definition resolvedIssue (adminId resolution : string) (i : ReconciliationIssue.t) : ReconciliationIssue.t :=
  i <| ReconciliationIssue.resolvedBy := Some adminId |> <| ReconciliationIssue.resolvedAt := Some now |>
    <| ReconciliationIssue.resolution := Some resolution |>.

Definition openDisputesOf (bookingId : string) : H (list Dispute.t) :=
  findMany prisma.dispute (fun d =>
    bool_decide (Dispute.bookingId d = bookingId) && bool_decide (Dispute.status d ∈ OPEN_DISPUTE_STATUSES)).

(** The payment becomes payable; answers whether it did. *)
Definition releaseEscrow (payment : option Payment.t) : H bool :=
  match payment with
  | Some payment =>
      if decide (Payment.status payment = PaymentStatus.HELD_IN_ESCROW) then
        update prisma.payment (Payment.id payment) (fun p =>
          p <| Payment.status := PaymentStatus.PAYOUT_ELIGIBLE |> <| Payment.payoutEligibleAt := Some now |>);;
        mret true
      else mret false
  | None => mret false
  end.

Definition forceCompleteTransaction (booking : RideBooking.t) (ride : Ride.t) (payment : option Payment.t)
    (adminId reason : string) : H ForceCompleted.t :=
  let bookingId := RideBooking.id booking in
  let rideId := RideBooking.rideId booking in
  update prisma.rideBooking bookingId (fun b =>
    b <| RideBooking.status := BookingStatus.COMPLETED |> <| RideBooking.completedAt := Some now |>
      <| RideBooking.riderDropoffConfirmedAt := Some (default now (RideBooking.riderDropoffConfirmedAt booking)) |>);;
  remainingActiveBookings ← findMany prisma.rideBooking (fun b =>
    bool_decide (RideBooking.rideId b = rideId) && bool_decide (RideBooking.id b <> bookingId) &&
    has_status ACTIVE_RIDE_RESOLUTION_BOOKING_STATUSES b);
  let rideCompleted := bool_decide (remainingActiveBookings = []) in
  when rideCompleted (
    update prisma.ride rideId (fun r =>
      r <| Ride.status := RideStatus.COMPLETED |>
        <| Ride.actualEndTime := Some (default now (Ride.actualEndTime ride)) |>);; mret tt);;
  paymentMarkedEligible ← releaseEscrow payment;
  recordAdminEvent rideId bookingId adminId "ADMIN_FORCE_COMPLETED_BOOKING" reason;;
  updateMany prisma.reconciliationIssue (isIssueOf bookingId payment rideId)
    (resolvedIssue adminId ("Admin force-completed booking: " +:+ reason));;
  mret {| ForceCompleted.rideCompleted := rideCompleted;
          ForceCompleted.paymentMarkedEligible := paymentMarkedEligible |}.

Definition adminForceCompleteBooking (bookingId adminId reason : string) : H ForceCompleted.t :=
  booking ← findUnique prisma.rideBooking bookingId;
  match booking with
  | None => throw "BOOKING_NOT_FOUND"
  | Some booking =>
      payment ← findByBooking bookingId;
      disputes ← openDisputesOf bookingId;
      ride ← rideOf booking;
      throw_if (negb (has_status ACTIVE_RIDE_RESOLUTION_BOOKING_STATUSES booking)) "BOOKING_NOT_FORCE_COMPLETABLE";;
      throw_if (negb (bool_decide (Ride.status ride ∈ FORCE_COMPLETABLE_RIDE_STATUSES))) "RIDE_NOT_FORCE_COMPLETABLE";;
      throw_if (bool_decide (disputes <> [])) "OPEN_DISPUTE_EXISTS";;
      result ← transaction (forceCompleteTransaction booking ride payment adminId reason);
      promise_all [createNotification (RideBooking.passengerId booking) "booking.admin_force_completed";
                   createNotification (Ride.driverId ride) "booking.admin_force_completed"];;
      awardBookingCompletionRewards bookingId;;
      when (ForceCompleted.rideCompleted result) (awardRideCompletionRewards (RideBooking.rideId booking);; mret tt);;
      mret result
  end.

(** ** Disputes opened by support *)

Definition openDisputeTransaction (booking : RideBooking.t) (ride : Ride.t) (payment : option Payment.t)
    (adminId reason disputeDescription : string) : H Dispute.t :=
  let bookingId := RideBooking.id booking in
  let rideId := RideBooking.rideId booking in
  let route := beforeComma (Ride.originAddress ride) +:+ " to " +:+ beforeComma (Ride.destinationAddress ride) in
  let paymentId := Payment.id <$> payment in
  id ← randomUUID;
  created ← create prisma.dispute id
    (Dispute.defaults id now
      <| Dispute.rideId := rideId |> <| Dispute.bookingId := bookingId |> <| Dispute.raisedBy := adminId |>
      <| Dispute.reason := reason |> <| Dispute.description := Some disputeDescription |>
      <| Dispute.status := DisputeStatus.NEEDS_MANUAL_REVIEW |>);
  update prisma.rideBooking bookingId (fun b => b <| RideBooking.status := BookingStatus.DISPUTED |>);;
  when (bool_decide (Ride.status ride ∈ FORCE_COMPLETABLE_RIDE_STATUSES))
    (update prisma.ride rideId (fun r => r <| Ride.status := RideStatus.DISPUTED |>);; mret tt);;
  recordAdminEvent rideId bookingId adminId "ADMIN_OPENED_MONEY_DISPUTE" reason;;
  issueId ← randomUUID;
  create prisma.reconciliationIssue issueId
    (ReconciliationIssue.defaults issueId now
      <| ReconciliationIssue.paymentId := paymentId |> <| ReconciliationIssue.bookingId := Some bookingId |>
      <| ReconciliationIssue.issueType := "ADMIN_MONEY_DISPUTE"%string |>
      <| ReconciliationIssue.severity := "HIGH"%string |>
      <| ReconciliationIssue.description := "Admin opened a money-resolution dispute for " +:+ route +:+ ". " +:+ reason |>
      <| ReconciliationIssue.internalState :=
           Some (from_option (fun p => show_status (Payment.status p)) (status_text (RideBooking.status booking))
                   payment) |>
      <| ReconciliationIssue.metadataJson := Some (JObject
           [("rideId", JString rideId); ("bookingId", JString bookingId); ("paymentId", joptional JString paymentId);
            ("adminId", JString adminId)]%string) |>);;
  updateMany prisma.reconciliationIssue
    (fun i => isIssueOf bookingId payment rideId i &&
              bool_decide (ReconciliationIssue.issueType i ∈ ["OVERDUE_RIDE_COMPLETION"; "STALE_ESCROW"]%string))
    (resolvedIssue adminId ("Superseded by admin dispute " +:+ id +:+ ": " +:+ reason));;
  mret created.

(** The dispute and whether it was created. *)
Definition adminOpenBookingDispute (bookingId adminId reason : string) (description : option string)
    : H (Dispute.t * bool) :=
  booking ← findUnique prisma.rideBooking bookingId;
  match booking with
  | None => throw "BOOKING_NOT_FOUND"
  | Some booking =>
      payment ← findByBooking bookingId;
      disputes ← openDisputesOf bookingId;
      ride ← rideOf booking;
      match sort_desc Dispute.createdAt disputes with
      | dispute :: _ => mret (dispute, false)
      | [] =>
          throw_if (has_status TERMINAL_RIDE_RESOLUTION_BOOKING_STATUSES booking) "BOOKING_ALREADY_TERMINAL";;
          let disputeDescription :=
            default ("Support opened a money-resolution dispute for a stuck ride. " +:+ reason)
                    (truthy (trim_string <$> description)) in
          dispute ← transaction (openDisputeTransaction booking ride payment adminId reason disputeDescription);
          promise_all [createNotification (RideBooking.passengerId booking) "dispute.admin_opened";
                       createNotification (Ride.driverId ride) "dispute.admin_opened"];;
          mret (dispute, true)
      end
  end.
End admin.
