(* ===== verification/Deadlines.v ===== *)
(** * Deadlines of bookings

    Models the jobs of [queue/deadline.queue.ts] and the sweeper of
    [services/booking-deadline-checker.service.ts]: unpaid bookings are closed out,
    drivers are reminded, riders are told, and requests nobody answered are
    cancelled with a full refund. *)

From Stdlib Require Import ZArith Lia.
From stdpp Require Import base list option strings gmap.
From S2P Require Import Prelude JsNumber Money Schema Store Seats Payments Time Gateway.
From S2P Require Import RideRequest Booking DriverBooking.

Open Scope Z_scope.

Section deadlines.
Context `{Env}.

(** ** Unpaid bookings *)

Definition expiredBooking (b : RideBooking.t) : RideBooking.t :=
  b <| RideBooking.status := BookingStatus.PAYMENT_FAILED |>
    <| RideBooking.cancellationReason := Some "PAYMENT_NOT_COMPLETED"%string |>.

Definition expireUnpaidBooking (bookingId : string) : H bool :=
  booking ← findUnique prisma.rideBooking bookingId;
  match booking with
  | None => mret false
  | Some booking =>
      ride ← rideOf booking;
      if decide (RideBooking.status booking <> BookingStatus.PAYMENT_PENDING) then mret false
      else
        expired ← transaction (
          claimed ← updateManyId prisma.rideBooking bookingId
            (fun b => bool_decide (RideBooking.status b = BookingStatus.PAYMENT_PENDING)) expiredBooking;
          if claimed =? 0 then mret false
          else releaseBookingSeats bookingId (seats_input booking (Ride.totalSeats ride));; mret true);
        if negb expired then mret false
        else
          match truthy (RideBooking.stripePaymentIntentId booking) with
          | Some intentId => attempt (cancelPaymentIntent intentId)
          | None => mret tt
          end;;
          attempt (createNotification (RideBooking.passengerId booking) "booking.payment.expired");;
          mret true
  end.

(** ** Reminders *)

Definition handleDeadlineReminder (bookingId : string) : H unit :=
  booking ← findUnique prisma.rideBooking bookingId;
  match booking with
  | None => mret tt
  | Some booking =>
      ride ← rideOf booking;
      if bool_decide (RideBooking.status booking <> BookingStatus.DRIVER_PENDING) ||
         bool_decide (is_Some (RideBooking.reminderSentAt booking)) then mret tt
      else
        update prisma.rideBooking bookingId (fun b => b <| RideBooking.reminderSentAt := Some now |>);;
        createNotification (Ride.driverId ride) "booking.driver.deadline_reminder"
  end.

Definition handleInitialDeadline (bookingId : string) : H unit :=
  booking ← findUnique prisma.rideBooking bookingId;
  match booking with
  | None => mret tt
  | Some booking =>
      if bool_decide (RideBooking.status booking <> BookingStatus.DRIVER_PENDING) ||
         bool_decide (is_Some (RideBooking.deadlineExpiredNotifiedAt booking)) then mret tt
      else
        update prisma.rideBooking bookingId (fun b => b <| RideBooking.deadlineExpiredNotifiedAt := Some now |>);;
        createNotification (RideBooking.passengerId booking) "booking.driver.deadline_expired";;
        perform (EnqueueJob "extended" bookingId EXTENDED_DEADLINE_MS)
  end.

(** ** Automatic cancellation *)

(** The fields both automatic cancellations set. *)
Definition autoCancelledBooking (amount : num) (b : RideBooking.t) : RideBooking.t :=
  b <| RideBooking.status := BookingStatus.CANCELLED |>
    <| RideBooking.cancelledAt := Some now |>
    <| RideBooking.autoCancelledAt := Some now |>
    <| RideBooking.cancelledByRole := Some "SYSTEM"%string |>
    <| RideBooking.cancellationReason := Some "DRIVER_NO_RESPONSE_EXTENDED"%string |>
    <| RideBooking.refundPercent := Some (num_of_Z 100) |>
    <| RideBooking.refundAmount := Some amount |>.

(** The transaction of the job, on the row [booking] read before it: cancels
    without looking at the row again, releases the seats and refunds. *)
Definition extendedDeadlineTransaction (bookingId : string) (booking : RideBooking.t) (ride : Ride.t)
    (bypassPayment : bool) : H unit :=
  let fullRefundAmount := paidAmount booking in
  update prisma.rideBooking bookingId (autoCancelledBooking fullRefundAmount);;
  releaseBookingSeats bookingId (seats_input booking (Ride.totalSeats ride));;
  refund ← startFullRefund booking bypassPayment;
  let '(refundId, refundInitiated) := refund in
  when (bool_decide (is_Some (truthy refundId)) || refundInitiated)
    (update prisma.rideBooking bookingId (fun b =>
       b <| RideBooking.refundId := refundId |> <| RideBooking.refundedAt := Some now |>);; mret tt).

Definition handleExtendedDeadline (bookingId : string) : H unit :=
  booking ← findUnique prisma.rideBooking bookingId;
  match booking with
  | None => mret tt
  | Some booking =>
      ride ← rideOf booking;
      if bool_decide (RideBooking.status booking <> BookingStatus.DRIVER_PENDING) ||
         bool_decide (is_Some (RideBooking.autoCancelledAt booking)) then mret tt
      else
        bypassPayment ← isBypassBookingPaymentMode;
        transaction (extendedDeadlineTransaction bookingId booking ride bypassPayment);;
        createNotification (RideBooking.passengerId booking) "booking.cancelled.no_driver_response"
  end.

(** The worker: a job of another name does nothing. *)
Definition deadlineWorker (name bookingId : string) : H unit :=
  if decide (name = "initial"%string) then handleInitialDeadline bookingId
  else if decide (name = "extended"%string) then handleExtendedDeadline bookingId
  else if decide (name = "reminder"%string) then handleDeadlineReminder bookingId
  else if decide (name = "payment-expiry"%string) then expireUnpaidBooking bookingId;; mret tt
  else mret tt.

(** ** The sweeper *)

Definition handleExpiredDeadline (booking : RideBooking.t) : H unit :=
  update prisma.rideBooking (RideBooking.id booking)
    (fun b => b <| RideBooking.deadlineExpiredNotifiedAt := Some now |>);;
  createNotification (RideBooking.passengerId booking) "booking.driver.deadline_expired".

(** Here the refund comes first, and its failure is logged. *)
Definition autoCancelBooking (booking : RideBooking.t) : H unit :=
  ride ← rideOf booking;
  bypassPayment ← isBypassBookingPaymentMode;
  let fullRefundAmount := paidAmount booking in
  refund ← try_catch (startFullRefund booking bypassPayment) (fun _ => mret (None, false));
  let '(refundId, refundInitiated) := refund in
  transaction (
    update prisma.rideBooking (RideBooking.id booking) (fun b =>
      autoCancelledBooking fullRefundAmount b
        <| RideBooking.refundId := refundId |>
        <| RideBooking.refundedAt ::= fun t => if (refundInitiated : bool) then Some now else t |>);;
    releaseBookingSeats (RideBooking.id booking) (seats_input booking (Ride.totalSeats ride)));;
  createNotification (RideBooking.passengerId booking) "booking.cancelled.no_driver_response".

Definition isPastDeadline (b : RideBooking.t) : bool :=
  bool_decide (RideBooking.status b = BookingStatus.DRIVER_PENDING) &&
  match RideBooking.driverDecisionDeadlineAt b with Some t => t <=? now | None => false end.

(** Answers how many of each kind were handled. *)
Definition checkExpiredDeadlines : H (nat * nat) :=
  expiredBookings ← findMany prisma.rideBooking (fun b =>
    isPastDeadline b && bool_decide (RideBooking.deadlineExpiredNotifiedAt b = None));
  for_each expiredBookings handleExpiredDeadline;;
  extendedExpiredBookings ← findMany prisma.rideBooking (fun b =>
    isPastDeadline b && bool_decide (is_Some (RideBooking.deadlineExtendedAt b)) &&
    bool_decide (RideBooking.autoCancelledAt b = None));
  for_each extendedExpiredBookings autoCancelBooking;;
  mret (length expiredBookings, length extendedExpiredBookings).
End deadlines.
