(* ===== verification/Maintenance.v ===== *)
(** * Scheduled maintenance

    Models the jobs of [queue/maintenance.queue.ts] that act on rides, bookings and payments:
    the check of overdue rides, which promotes, closes and reports them, the sweep of unpaid
    bookings, and the schedule of reconciliation, payouts and outbox.  The audit of vehicle
    documents is in [Vehicles], the recovery of identity decisions in [Licence]; the jobs on
    files, uploads and old notifications touch no state of the model. *)

From Stdlib Require Import ZArith Lia.
From stdpp Require Import base list option strings gmap pretty.
From S2P Require Import Prelude JsNumber JsText Money Schema Store Seats Payments Payout Time Gateway.
From S2P Require Import Rewards RideRequest Booking DriverBooking RideOps RequestMarket Disputes Reconciliation Deadlines.

Open Scope Z_scope.

(** ** Overdue rides *)

Definition getExpectedRideEnd (departureAt : Z) (routeDurationSeconds : option Z) : option Z :=
  match routeDurationSeconds with
  | Some seconds => if seconds <=? 0 then None else Some (departureAt + seconds * 1000)
  | None => None
  end.

(** An unpaid booking holds no seat and does not count. *)
Definition OVERDUE_BOOKING_STATUSES : list BookingStatus.t :=
  [BookingStatus.DRIVER_PENDING; BookingStatus.CONFIRMED; BookingStatus.WAITING_FOR_PICKUP;
   BookingStatus.DRIVER_ARRIVED; BookingStatus.OTP_PENDING; BookingStatus.ONBOARD; BookingStatus.DROP_PENDING;
   BookingStatus.IN_PROGRESS].

(** Rides that have not begun. *)
Definition UNSTARTED_RIDE_STATUSES : list RideStatus.t :=
  [RideStatus.PUBLISHED; RideStatus.SCHEDULED; RideStatus.READY_TO_START].

(** A ride and its bookings, as the check reads them. *)
Definition OverdueRide : Type := Ride.t * list RideBooking.t.

Definition activeOf (bookings : list RideBooking.t) : list RideBooking.t :=
  List.filter (fun b => bool_decide (RideBooking.status b ∈ OVERDUE_BOOKING_STATUSES)) bookings.

Module Closed.
Record t := { closed : bool; status : RideStatus.t; bookingsCancelled : nat }.
End Closed.

Module OverdueCounts.
Record t := { promoted : nat; autoClosed : nat; completionAlerts : nat }.
Definition zero : t := {| promoted := 0; autoClosed := 0; completionAlerts := 0 |}.
Definition add (a b : t) : t :=
  {| promoted := promoted a + promoted b; autoClosed := autoClosed a + autoClosed b;
     completionAlerts := completionAlerts a + completionAlerts b |}.
End OverdueCounts.

Section maintenance.
Context `{Env}.

Definition notifyRideStakeholders (driverId : string) (bookings : list RideBooking.t) (type : string) : H unit :=
  createNotification driverId type;;
  promise_all (map (fun b => createNotification (RideBooking.passengerId b) type) bookings).

Definition hasOpenRideIssue (issueType rideId : string) : H (option ReconciliationIssue.t) :=
  findFirst prisma.reconciliationIssue (fun i =>
    bool_decide (ReconciliationIssue.issueType i = issueType) &&
    bool_decide (ReconciliationIssue.resolvedAt i = None) &&
    match jfield "rideId" (ReconciliationIssue.metadataJson i) with
    | Some (JString id) => bool_decide (id = rideId)
    | _ => false
    end).

(** [reconciliationIssue.create] for a ride. *)
Definition createRideIssue (issueType severity description internalState : string) (metadata : list (string * Json))
    : H unit :=
  id ← randomUUID;
  create prisma.reconciliationIssue id
    (ReconciliationIssue.defaults id now
      <| ReconciliationIssue.issueType := issueType |> <| ReconciliationIssue.severity := severity |>
      <| ReconciliationIssue.description := description |>
      <| ReconciliationIssue.internalState := Some internalState |>
      <| ReconciliationIssue.metadataJson := Some (JObject metadata) |>);;
  mret tt.

(** The booking when its ride was never started. *)
Definition overdueCancelled (b : RideBooking.t) : RideBooking.t :=
  b <| RideBooking.status := BookingStatus.CANCELLED |> <| RideBooking.cancelledAt := Some now |>
    <| RideBooking.cancelledByRole := Some "SYSTEM"%string |>
    <| RideBooking.cancellationReason := Some "RIDE_NOT_STARTED_IN_TIME"%string |>
    <| RideBooking.refundPercent := Some (num_of_Z 100) |>.

Definition releaseOverdue (ride : Ride.t) (booking : RideBooking.t) : H unit :=
  update prisma.rideBooking (RideBooking.id booking) (fun b =>
    b <| RideBooking.refundAmount := Some (paidAmount booking) |>);;
  releaseBookingSeats (RideBooking.id booking)
    {| ReleaseSeatsInput.rideId := Ride.id ride; ReleaseSeatsInput.seatsBooked := RideBooking.seatsBooked booking;
       ReleaseSeatsInput.pickupPosition := RideBooking.pickupPosition booking;
       ReleaseSeatsInput.dropoffPosition := RideBooking.dropoffPosition booking;
       ReleaseSeatsInput.totalSeats := Ride.totalSeats ride |};;
  mret tt.

(** The transaction: answers whether the ride was closed by it. *)
Definition closeTransaction (ride : Ride.t) (activeBookings : list RideBooking.t) (terminal : RideStatus.t) : H bool :=
  count ← updateManyId prisma.ride (Ride.id ride)
    (fun r => bool_decide (Ride.status r ∈ UNSTARTED_RIDE_STATUSES) && bool_decide (Ride.actualStartTime r = None))
    (fun r => r <| Ride.status := terminal |>);
  if count =? 0 then mret false
  else if bool_decide (activeBookings = []) then mret true
  else
    updateMany prisma.rideBooking (fun b => bool_decide (RideBooking.id b ∈ map RideBooking.id activeBookings))
      overdueCancelled;;
    for_each activeBookings (releaseOverdue ride);;
    mret true.

Definition closeOverdueUnstartedRide (ride : OverdueRide) (departureAt : Z) : H Closed.t :=
  let '(ride, bookings) := ride in
  let activeBookings := activeOf bookings in
  let terminal := if (0 <? length activeBookings)%nat then RideStatus.CANCELLED else RideStatus.EXPIRED in
  let rideId := Ride.id ride in
  let at_ := toISOString departureAt in
  rideClosed ← transaction (closeTransaction ride activeBookings terminal);
  if negb rideClosed
  then mret {| Closed.closed := false; Closed.status := terminal; Closed.bookingsCancelled := 0 |}
  else if bool_decide (activeBookings = []) then
    createNotification (Ride.driverId ride) "ride.overdue.expired";;
    createRideIssue "OVERDUE_RIDE_EXPIRED" "LOW"
      ("Ride " +:+ rideId +:+ " was never started and expired after " +:+ at_ +:+ ".") "RIDE_EXPIRED"
      [("rideId", JString rideId); ("departureAt", JString at_); ("activeBookings", jnumber 0)]%string;;
    mret {| Closed.closed := true; Closed.status := terminal; Closed.bookingsCancelled := 0 |}
  else
    notifyRideStakeholders (Ride.driverId ride) activeBookings "ride.overdue.auto_cancelled";;
    createRideIssue "OVERDUE_RIDE_AUTO_CANCELLED" "HIGH"
      ("Ride " +:+ rideId +:+ " never started by " +:+ at_ +:+ " and was automatically cancelled.") "RIDE_CANCELLED"
      [("rideId", JString rideId); ("departureAt", JString at_);
       ("activeBookings", jnumber (Z.of_nat (length activeBookings))); ("refundsTriggered", jnumber 0)]%string;;
    mret {| Closed.closed := true; Closed.status := terminal; Closed.bookingsCancelled := length activeBookings |}.

(** The departure has passed: the ride waits for its driver. *)
Definition promoteRide (ride : OverdueRide) (departureAt : Z) : H unit :=
  let '(ride, bookings) := ride in
  updateManyId prisma.ride (Ride.id ride)
    (fun r => bool_decide (Ride.status r ∈ [RideStatus.PUBLISHED; RideStatus.SCHEDULED]) &&
              bool_decide (Ride.actualStartTime r = None))
    (fun r => r <| Ride.status := RideStatus.READY_TO_START |>);;
  notifyRideStakeholders (Ride.driverId ride) (activeOf bookings) "ride.overdue.ready_to_start";;
  existingIssue ← hasOpenRideIssue "OVERDUE_RIDE_START" (Ride.id ride);
  match existingIssue with
  | Some _ => mret tt
  | None =>
      createRideIssue "OVERDUE_RIDE_START" "MEDIUM"
        ("Ride " +:+ Ride.id ride +:+ " passed scheduled departure and is waiting for manual start.")
        (rideStatus_text (Ride.status ride))
        [("rideId", JString (Ride.id ride)); ("departureAt", JString (toISOString departureAt));
         ("routeDurationSeconds", JString (from_option pretty EmptyString (Ride.routeDurationSeconds ride)))]%string
  end.

(** The ride runs late; reported once. *)
Definition alertCompletion (ride : OverdueRide) (departureAt expectedEndAt : Z) : H nat :=
  let '(ride, bookings) := ride in
  existingIssue ← hasOpenRideIssue "OVERDUE_RIDE_COMPLETION" (Ride.id ride);
  match existingIssue with
  | Some _ => mret 0%nat
  | None =>
      createRideIssue "OVERDUE_RIDE_COMPLETION" "MEDIUM"
        ("Ride " +:+ Ride.id ride +:+ " is still IN_PROGRESS past the expected end time.") "RIDE_IN_PROGRESS_OVERDUE"
        [("rideId", JString (Ride.id ride)); ("departureAt", JString (toISOString departureAt));
         ("expectedEndAt", JString (toISOString expectedEndAt));
         ("routeDurationSeconds", JString (from_option pretty EmptyString (Ride.routeDurationSeconds ride)))]%string;;
      notifyRideStakeholders (Ride.driverId ride) (activeOf bookings) "ride.overdue.in_progress";;
      mret 1%nat
  end.

(** Closes a ride nobody started in time, or reports one that runs late. *)
Definition closeOrAlert (ride : OverdueRide) (departureAt : Z) (promoted : nat) : H OverdueCounts.t :=
  let expectedEndAt := getExpectedRideEnd departureAt (Ride.routeDurationSeconds ride.1) in
  let autoCancelAt := departureAt + RIDE_OVERDUE_CANCEL_AFTER_MINUTES * 60 * 1000 in
  let status := Ride.status ride.1 in
  let counts autoClosed alerts :=
    {| OverdueCounts.promoted := promoted; OverdueCounts.autoClosed := autoClosed;
       OverdueCounts.completionAlerts := alerts |} in
  if bool_decide (status ∈ UNSTARTED_RIDE_STATUSES) && (autoCancelAt <=? now) &&
     bool_decide (Ride.actualStartTime ride.1 = None)
  then
    result ← closeOverdueUnstartedRide ride departureAt;
    mret (counts (if Closed.closed result then 1 else 0) 0)%nat
  else
    match expectedEndAt with
    | Some endAt =>
        if bool_decide (status = RideStatus.IN_PROGRESS) &&
           (endAt + RIDE_OVERDUE_END_GRACE_MINUTES * 60 * 1000 <=? now) &&
           bool_decide (Ride.actualEndTime ride.1 = None)
        then alerts ← alertCompletion ride departureAt endAt; mret (counts 0%nat alerts)
        else mret (counts 0 0)%nat
    | None => mret (counts 0 0)%nat
    end.

(** One ride of the check; a ride without a valid departure time is skipped. *)
Definition checkOverdueRide (ride : OverdueRide) : H OverdueCounts.t :=
  match combineDepartureDateTimeUtc (Ride.departureDate ride.1) (Ride.departureTime ride.1) with
  | Err _ => mret OverdueCounts.zero
  | Ok departureAt =>
      let promote := bool_decide (Ride.status ride.1 ∈ [RideStatus.PUBLISHED; RideStatus.SCHEDULED]) &&
                     (departureAt <=? now) in
      when promote (promoteRide ride departureAt);;
      closeOrAlert ride departureAt (if promote then 1 else 0)
  end.

Fixpoint checkOverdueRides (rides : list OverdueRide) : H OverdueCounts.t :=
  match rides with
  | [] => mret OverdueCounts.zero
  | ride :: rest => c ← checkOverdueRide ride; c' ← checkOverdueRides rest; mret (OverdueCounts.add c c')
  end.

(** All rides are read, with their bookings, before the first is handled. *)
Definition overdueRides (d : Db.t) : list OverdueRide :=
  map (fun r => (r, where_ prisma.rideBooking (fun b => bool_decide (RideBooking.rideId b = Ride.id r)) d))
    (where_ prisma.ride (fun r =>
       bool_decide (Ride.status r ∈ UNSTARTED_RIDE_STATUSES ++ [RideStatus.IN_PROGRESS]) &&
       (Ride.departureDate r <=? now)) d).

Definition runRideOverdueCheck : H OverdueCounts.t :=
  rides ← get (fun s => overdueRides (St.db s));
  checkOverdueRides rides.

(** ** Unpaid bookings *)

(** [try { if (await expireUnpaidBooking(id)) expired++ } catch { logError }] *)
Fixpoint expireEach (bookings : list RideBooking.t) : H nat :=
  match bookings with
  | [] => mret 0%nat
  | b :: rest =>
      expired ← try_catch (expireUnpaidBooking (RideBooking.id b)) (fun _ => mret false);
      n ← expireEach rest;
      mret ((if expired : bool then 1 else 0) + n)%nat
  end.

Definition SWEEP_BATCH : nat := 200.

(** Answers how many were checked and how many expired. *)
Definition runUnpaidBookingSweep : H (nat * nat) :=
  let cutoff := now - bookingPaymentWindowMs * 2 in
  stale ← findMany prisma.rideBooking (fun b =>
    bool_decide (RideBooking.status b = BookingStatus.PAYMENT_PENDING) &&
    (RideBooking.createdAt b <? cutoff) && (bookingUpdatedAt b <? cutoff));
  let stale := take SWEEP_BATCH stale in
  expired ← expireEach stale;
  mret (length stale, expired).

(** ** The worker *)

Definition maintenanceWorker (name : string) : H unit :=
  if decide (name = "ride-request-expiry"%string) then expireRequestCheckouts
  else if decide (name = "ride-overdue-check"%string) then runRideOverdueCheck;; mret tt
  else if decide (name = "unpaid-booking-sweep"%string) then runUnpaidBookingSweep;; mret tt
  else if decide (name = "hourly-reconciliation"%string) then runHourlyReconciliation;; mret tt
  else if decide (name = "daily-reconciliation"%string) then runDailyReconciliation;; mret tt
  else if decide (name = "payout-eligibility"%string) then checkAndMarkEligible;; mret tt
  else if decide (name = "auto-driver-payouts"%string) then
    checkAndMarkEligible;;
    when AUTO_PROCESS_DRIVER_PAYOUTS (processEligibleDriverPayouts;; mret tt)
  else if decide (name = "payment-outbox"%string) then processOutboxEvents 25;; mret tt
  else mret tt.
End maintenance.
