(* ===== verification/Webhook.v ===== *)
(** * Stripe webhooks

    Models [modules/payments/stripe.webhook.controller.ts]: an event is stored
    under its id and then processed.  The signature check is Stripe's
    [constructEvent]: here the events are the verified ones. *)

From Stdlib Require Import ZArith Lia.
From stdpp Require Import base list option strings gmap.
From S2P Require Import Prelude JsNumber Money Schema Store Seats Payments Time Gateway.
From S2P Require Import RideRequest Booking.

Open Scope Z_scope.

(** The fields read of Stripe's [Charge] and [Refund]. *)
Module Charge.
Record t := { payment_intent : option string; latestRefundId : option string; amount_refunded : Z; refunded : bool }.
End Charge.
Module Refund.
Record t := { id : string; payment_intent : option string; amount : Z; status : string }.
End Refund.

Inductive EventObject :=
| payment_intent_succeeded (intent : PaymentIntent.t)
| payment_intent_payment_failed (intent : PaymentIntent.t)
| charge_refunded (charge : Charge.t)
| refund_created_or_updated (refund : Refund.t)
| other_event.

Module StripeEvent.
Record t := { id : string; data : EventObject }.
End StripeEvent.

(** The HTTP answer: received, or a duplicate. *)
Inductive WebhookAnswer := Received | Duplicate.
#[global] Instance WebhookAnswer_eq_dec : EqDecision WebhookAnswer.
Proof. solve_decision. Defined.

Section webhook.
Context `{Env}.

Definition applyPaymentIntentFailed (intent : PaymentIntent.t) : H unit :=
  match truthy (PaymentIntent.metadata_bookingId intent) with
  | None => mret tt
  | Some bookingId =>
      selected ← findFirst prisma.rideRequestOffer (fun o =>
        bool_decide (RideRequestOffer.bookingId o = Some bookingId) &&
        bool_decide (RideRequestOffer.status o = "SELECTED"%string));
      if bool_decide (is_Some selected) then mret tt
      else
        failedBooking ← transaction (
          booking ← findUnique prisma.rideBooking bookingId;
          match booking with
          | None => mret None
          | Some booking =>
              ride ← rideOf booking;
              if decide (RideBooking.status booking <> BookingStatus.PAYMENT_PENDING) then mret None
              else
                update prisma.rideBooking bookingId
                  (fun b => b <| RideBooking.status := BookingStatus.PAYMENT_FAILED |>);;
                releaseBookingSeats (RideBooking.id booking) (seats_input booking (Ride.totalSeats ride));;
                mret (Some booking)
          end);
        match failedBooking with
        | None => mret tt
        | Some booking => createNotification (RideBooking.passengerId booking) "booking.payment.failed"
        end
  end.

(** [updateMany({ where: { stripePaymentIntentId }, data })], then the payment of
    the booking found under the intent. *)
Definition updateRefund (paymentIntentId : string) (f : RideBooking.t -> RideBooking.t) (settled : bool)
    (amount : option num) : H unit :=
  updateMany prisma.rideBooking
    (fun b => bool_decide (RideBooking.stripePaymentIntentId b = Some paymentIntentId)) f;;
  when settled (
    booking ← findFirst prisma.rideBooking
      (fun b => bool_decide (RideBooking.stripePaymentIntentId b = Some paymentIntentId));
    match booking with
    | None => mret tt
    | Some booking =>
        ride ← rideOf booking;
        markBookingPaymentRefunded (RideBooking.id booking) (Ride.driverId ride) amount;;
        mret tt
    end).

Definition applyChargeRefunded (charge : Charge.t) : H unit :=
  match truthy (Charge.payment_intent charge) with
  | None => mret tt
  | Some paymentIntentId =>
      let amount := toMajorUnits (Some (Charge.amount_refunded charge)) in
      updateRefund paymentIntentId (fun b =>
        b <| RideBooking.refundId ::= fun old => match Charge.latestRefundId charge with Some i => Some i | None => old end |>
          <| RideBooking.refundAmount := amount |>
          <| RideBooking.refundedAt ::= fun t => if Charge.refunded charge then Some now else t |>)
        (Charge.refunded charge) amount
  end.

Definition applyRefundUpdated (refund : Refund.t) : H unit :=
  match truthy (Refund.payment_intent refund) with
  | None => mret tt
  | Some paymentIntentId =>
      let amount := toMajorUnits (Some (Refund.amount refund)) in
      let succeeded := bool_decide (Refund.status refund = "succeeded"%string) in
      updateRefund paymentIntentId (fun b =>
        b <| RideBooking.refundId := Some (Refund.id refund) |>
          <| RideBooking.refundAmount := amount |>
          <| RideBooking.refundedAt ::= fun t => if succeeded then Some now else t |>)
        succeeded amount
  end.

Definition processStripeEvent (event : StripeEvent.t) : H unit :=
  match StripeEvent.data event with
  | payment_intent_succeeded intent => applyStripePaymentSucceededToBooking intent;; mret tt
  | payment_intent_payment_failed intent => applyPaymentIntentFailed intent
  | charge_refunded charge => applyChargeRefunded charge
  | refund_created_or_updated refund => applyRefundUpdated refund
  | other_event => mret tt
  end.

(** The handler for a signed event: the event is recorded before it is processed,
    and an event recorded earlier is only acknowledged. *)
Definition handleStripeWebhook (event : StripeEvent.t) : H WebhookAnswer :=
  existing ← get (fun s => bool_decide (StripeEvent.id event ∈ Db.stripeWebhookEvent (St.db s)));
  if existing : bool then mret Duplicate
  else
    modify (fun s => s <| St.db ::= fun d => d <| Db.stripeWebhookEvent ::= cons (StripeEvent.id event) |> |>);;
    processStripeEvent event;;
    mret Received.
End webhook.
