(* ===== verification/Invariant.v ===== *)
(** * What every handler keeps

    [Good]: the seat counters agree with the bookings ([SeatInv]), a booking holds
    its seats unless it is unpaid, failed, cancelled or refunded, and a rider has at most
    one active booking on a ride.  [Ext d0 d]: since [d0] no booking or ride has
    disappeared, the data the seats depend on is unchanged, and statuses have moved
    along [BOOKING_TRANSITIONS].  A handler is [safe] when it keeps both, whether it
    returns or throws.

    Both are stated in a [Mode] of [Seats.v].  Under [loosely], which overrides,
    administrators and disputes keep too, the counters promise at most the seats that are free,
    a booking that waits for its payment holds none, and none returns to that status. *)

From Stdlib Require Import ZArith Lia.
From stdpp Require Import base list option strings gmap relations.
From S2P Require Import Prelude JsNumber Money Schema Store Seats Payments Time Gateway.
From S2P Require Import RideRequest Booking.

Open Scope Z_scope.

(** ** Statuses *)

(** The states in which a booking holds no seats. *)
Definition UNHELD_BOOKING_STATUSES : list BookingStatus.t :=
  [BookingStatus.PAYMENT_PENDING; BookingStatus.PAYMENT_FAILED; BookingStatus.CANCELLED;
   BookingStatus.RIDE_FULL_REFUNDED].

(** The moves of the handlers; those of a ride under way are the ones made
    without the override ([force]).  The check of overdue rides cancels any booking of
    a ride that was never started; support completes any that is under way. *)
Definition BOOKING_TRANSITIONS (st : BookingStatus.t) : list BookingStatus.t :=
  match st with
  | BookingStatus.PAYMENT_PENDING =>
      [BookingStatus.DRIVER_PENDING; BookingStatus.PAYMENT_FAILED; BookingStatus.RIDE_FULL_REFUNDED;
       BookingStatus.CANCELLED]
  | BookingStatus.DRIVER_PENDING => [BookingStatus.CONFIRMED; BookingStatus.CANCELLED]
  | BookingStatus.CONFIRMED =>
      [BookingStatus.CANCELLED; BookingStatus.WAITING_FOR_PICKUP; BookingStatus.IN_PROGRESS;
       BookingStatus.DRIVER_MISSED_PICKUP; BookingStatus.COMPLETED]
  | BookingStatus.WAITING_FOR_PICKUP =>
      [BookingStatus.DRIVER_ARRIVED; BookingStatus.ONBOARD; BookingStatus.NO_SHOW; BookingStatus.DRIVER_MISSED_PICKUP;
       BookingStatus.CANCELLED; BookingStatus.COMPLETED]
  | BookingStatus.DRIVER_ARRIVED =>
      [BookingStatus.ONBOARD; BookingStatus.NO_SHOW; BookingStatus.CANCELLED; BookingStatus.COMPLETED]
  | BookingStatus.OTP_PENDING => [BookingStatus.CANCELLED; BookingStatus.COMPLETED]
  | BookingStatus.ONBOARD => [BookingStatus.DROP_PENDING; BookingStatus.COMPLETED; BookingStatus.CANCELLED]
  | BookingStatus.IN_PROGRESS => [BookingStatus.DROP_PENDING; BookingStatus.COMPLETED; BookingStatus.CANCELLED]
  | BookingStatus.DROP_PENDING => [BookingStatus.COMPLETED; BookingStatus.CANCELLED]
  | _ => []
  end.

Section invariant.
Context `{mode : Mode}.

(** Under [exactly] a booking moves along the table; overrides, administrators and
    disputes move it anywhere but back to the state before payment. *)
Definition moves (a b : BookingStatus.t) : Prop :=
  if strict then b ∈ BOOKING_TRANSITIONS a else b <> BookingStatus.PAYMENT_PENDING.

Lemma moves_table a b : b ∈ BOOKING_TRANSITIONS a -> moves a b.
Proof.
  intros M. unfold moves. destruct strict; [exact M|]. intros ->.
  apply list_elem_of_In in M. destruct a; cbn in M; intuition discriminate.
Qed.

(** A status nothing leaves. *)
Lemma moves_final a b : strict = true -> BOOKING_TRANSITIONS a = [] -> rtc moves a b -> b = a.
Proof.
  intros X F M. inversion M as [|? c ? Hm]; subst; [reflexivity|].
  unfold moves in Hm. rewrite X in Hm. apply list_elem_of_In in Hm. rewrite F in Hm. destruct Hm.
Qed.

Lemma moves_exact a b : strict = true -> rtc moves a b -> rtc (fun x y => y ∈ BOOKING_TRANSITIONS x) a b.
Proof.
  intros X. induction 1 as [a|a c b M _ IH]; [constructor|]. apply (rtc_l _ _ c); [|exact IH].
  unfold moves in M. rewrite X in M. exact M.
Qed.

(** Nothing returns to the state before payment. *)
Lemma moves_paid a b : rtc moves a b -> b = BookingStatus.PAYMENT_PENDING -> a = BookingStatus.PAYMENT_PENDING.
Proof.
  induction 1 as [a|a c b Hm _ IH]; [auto|]. intros Hb. specialize (IH Hb). subst c. exfalso.
  unfold moves in Hm. destruct strict; [|contradiction].
  apply list_elem_of_In in Hm. destruct a; cbn in Hm; intuition discriminate.
Qed.

(** ** The invariant *)

Record Good (d : Db.t) : Prop := {
  good_seats : SeatInv d;
  good_pending : forall k b, Db.rideBooking d !! k = Some b ->
    RideBooking.status b = BookingStatus.PAYMENT_PENDING -> RideBooking.seatsReservedAt b = None;
  good_held : strict = true -> forall k b, Db.rideBooking d !! k = Some b ->
    RideBooking.status b ∉ UNHELD_BOOKING_STATUSES -> is_Some (RideBooking.seatsReservedAt b);
  good_unheld : strict = true -> forall k b, Db.rideBooking d !! k = Some b ->
    RideBooking.status b ∈ UNHELD_BOOKING_STATUSES -> RideBooking.seatsReservedAt b = None;
  good_active : strict = true -> forall k1 k2 b1 b2,
    Db.rideBooking d !! k1 = Some b1 -> Db.rideBooking d !! k2 = Some b2 ->
    RideBooking.rideId b1 = RideBooking.rideId b2 -> RideBooking.passengerId b1 = RideBooking.passengerId b2 ->
    RideBooking.status b1 ∈ ACTIVE_BOOKING_STATUSES -> RideBooking.status b2 ∈ ACTIVE_BOOKING_STATUSES ->
    k1 = k2;
}.

(** The row is the same booking, further along. *)
Definition follows (b0 b : RideBooking.t) : Prop :=
  same_seats b0 b /\ RideBooking.passengerId b = RideBooking.passengerId b0 /\
  rtc moves (RideBooking.status b0) (RideBooking.status b).

Definition same_ride (r0 r : Ride.t) : Prop :=
  Ride.id r = Ride.id r0 /\ Ride.totalSeats r = Ride.totalSeats r0 /\ Ride.driverId r = Ride.driverId r0.

Record Ext (d0 d : Db.t) : Prop := {
  ext_booking : forall k b0, Db.rideBooking d0 !! k = Some b0 ->
    exists b, Db.rideBooking d !! k = Some b /\ follows b0 b;
  ext_ride : forall k r0, Db.ride d0 !! k = Some r0 ->
    exists r, Db.ride d !! k = Some r /\ same_ride r0 r;
}.

Definition Life (d0 d : Db.t) : Prop := Good d /\ Ext d0 d.

Definition safe {A} (m : H A) : Prop := forall d0, preserves (on_db (Life d0)) m.

#[global] Instance same_seats_preorder : PreOrder same_seats.
Proof.
  split; [intros b; repeat split|]. intros a b c (A1 & A2 & A3 & A4 & A5) (B1 & B2 & B3 & B4 & B5).
  repeat split; congruence.
Qed.

#[global] Instance follows_preorder : PreOrder follows.
Proof.
  split; [intros b; repeat split; constructor|].
  intros a b c (A1 & A2 & A3) (B1 & B2 & B3).
  split; [|split]; [etrans; eassumption | congruence | etrans; eassumption].
Qed.

#[global] Instance same_ride_preorder : PreOrder same_ride.
Proof.
  split; [intros r; repeat split|]. intros a b c (A1 & A2 & A3) (B1 & B2 & B3). repeat split; congruence.
Qed.

#[global] Instance Ext_preorder : PreOrder Ext.
Proof.
  split.
  - intros d. split; intros k x E; exists x; split; (assumption || reflexivity).
  - intros d1 d2 d3 [B1 R1] [B2 R2]. split.
    + intros k b0 E. destruct (B1 k b0 E) as (b & Eb & F1). destruct (B2 k b Eb) as (b' & Eb' & F2).
      exists b'. split; [assumption | etrans; eassumption].
    + intros k r0 E. destruct (R1 k r0 E) as (r & Er & F1). destruct (R2 k r Er) as (r' & Er' & F2).
      exists r'. split; [assumption | etrans; eassumption].
Qed.

Lemma life_refl d : Good d -> Life d d.
Proof. intros G. split; [assumption | reflexivity]. Qed.

Lemma life_trans d0 d1 d2 : Life d0 d1 -> Life d1 d2 -> Life d0 d2.
Proof. intros [_ E1] [G2 E2]. split; [assumption | etrans; eassumption]. Qed.

(** ** Handlers that leave bookings, rides and legs alone *)

Definition same_core (d0 d : Db.t) : Prop :=
  Db.rideBooking d = Db.rideBooking d0 /\ Db.ride d = Db.ride d0 /\
  Db.rideSegmentCapacity d = Db.rideSegmentCapacity d0.

Definition quiet {A} (m : H A) : Prop := forall d0, preserves (on_db (same_core d0)) m.

Lemma good_core d d' : same_core d d' -> Good d -> Good d'.
Proof.
  intros (E1 & E2 & E3) [S Hp Hh Hu Ha]. split; try (rewrite E1; assumption).
  destruct S as [I1 I2 I3 I4 I5 I6]. split; unfold held in *; rewrite ?E1, ?E2, ?E3; try assumption;
    intros k x; rewrite ?E1, ?E2; auto.
Qed.

Lemma ext_core d d' : same_core d d' -> Ext d d'.
Proof.
  intros (E1 & E2 & E3). split; intros k x E; exists x; split; try reflexivity; congruence.
Qed.

Lemma life_core d0 d d' : same_core d d' -> Life d0 d -> Life d0 d'.
Proof.
  intros C [G E]. split; [exact (good_core d d' C G) | etrans; [exact E | exact (ext_core d d' C)]].
Qed.

Lemma quiet_safe {A} (m : H A) : quiet m -> safe m.
Proof. intros Q d0 s L. apply (life_core d0 (St.db s)); [|exact L]. apply Q. repeat split. Qed.

(** ** Rules for the proofs of safety *)

Lemma safe_start {A} (m : H A) :
  (forall s, Good (St.db s) -> wp m (fun s' _ => Life (St.db s) (St.db s')) s) -> safe m.
Proof. intros W d0 s L. exact (life_trans d0 _ _ L (W s (proj1 L))). Qed.

Lemma wp_safe {A} (m : H A) d0 Q s :
  safe m -> Life d0 (St.db s) -> (forall s' r, Life d0 (St.db s') -> Q s' r) -> wp m Q s.
Proof. intros S L HQ. apply HQ, S, L. Qed.

Lemma wp_safe_end {A} (m : H A) d0 s :
  safe m -> Life d0 (St.db s) -> wp m (fun s' _ => Life d0 (St.db s')) s.
Proof. intros S L. exact (S d0 s L). Qed.

Lemma wp_quiet {A} (m : H A) Q s :
  quiet m -> (forall s' r, same_core (St.db s) (St.db s') -> Q s' r) -> wp m Q s.
Proof. intros S HQ. apply HQ, S. repeat split. Qed.

(** ** Writes to one booking *)

(** Nothing the invariant is about changes. *)
Definition neutral (b b' : RideBooking.t) : Prop :=
  same_seats b b' /\ RideBooking.passengerId b' = RideBooking.passengerId b /\
  RideBooking.seatsReservedAt b' = RideBooking.seatsReservedAt b /\
  RideBooking.status b' = RideBooking.status b.

(** The booking ends in a state that holds no seats; the seats themselves are
    given back by [releaseBookingSeats]. *)
Definition closes (b b' : RideBooking.t) : Prop :=
  same_seats b b' /\ RideBooking.passengerId b' = RideBooking.passengerId b /\
  RideBooking.seatsReservedAt b' = RideBooking.seatsReservedAt b /\
  moves (RideBooking.status b) (RideBooking.status b') /\
  RideBooking.status b' ∈ UNHELD_BOOKING_STATUSES.

Definition put_booking (id : string) (b : RideBooking.t) (d : Db.t) : Db.t :=
  d <| Db.rideBooking ::= <[id := b]> |>.

Lemma life_put (d d' : Db.t) (id : string) (b' : RideBooking.t) :
  Good d -> SeatInv d' -> Db.rideBooking d' = <[id := b']> (Db.rideBooking d) ->
  (RideBooking.status b' = BookingStatus.PAYMENT_PENDING -> RideBooking.seatsReservedAt b' = None) ->
  (strict = true -> RideBooking.status b' ∉ UNHELD_BOOKING_STATUSES -> is_Some (RideBooking.seatsReservedAt b')) ->
  (strict = true -> RideBooking.status b' ∈ UNHELD_BOOKING_STATUSES -> RideBooking.seatsReservedAt b' = None) ->
  (strict = true -> RideBooking.status b' ∈ ACTIVE_BOOKING_STATUSES -> forall k b2, k <> id -> Db.rideBooking d !! k = Some b2 ->
     RideBooking.rideId b2 = RideBooking.rideId b' -> RideBooking.passengerId b2 = RideBooking.passengerId b' ->
     RideBooking.status b2 ∈ ACTIVE_BOOKING_STATUSES -> False) ->
  (forall b, Db.rideBooking d !! id = Some b -> follows b b') ->
  (forall k r, Db.ride d !! k = Some r -> exists r', Db.ride d' !! k = Some r' /\ same_ride r r') ->
  Life d d'.
Proof.
  intros [S Hp Hh Hu Ha] S' Eb Hp' Hh' Hu' Ha' Hf Hr. split.
  - split; [exact S' | | | |].
    + intros k b. rewrite Eb, lookup_insert_Some. intros [[-> ->]|[_ E]]; [assumption | exact (Hp k b E)].
    + intros X k b. rewrite Eb, lookup_insert_Some. intros [[-> ->]|[_ E]]; [auto | exact (Hh X k b E)].
    + intros X k b. rewrite Eb, lookup_insert_Some. intros [[-> ->]|[_ E]]; [auto | exact (Hu X k b E)].
    + intros X k1 k2 b1 b2. rewrite Eb, !lookup_insert_Some.
      intros [[<- <-]|[N1 E1]] [[<- <-]|[N2 E2]] R P A1 A2.
      * reflexivity.
      * exfalso. eapply (Ha' X A1 k2 b2); eauto.
      * exfalso. eapply (Ha' X A2 k1 b1); eauto.
      * exact (Ha X k1 k2 b1 b2 E1 E2 R P A1 A2).
  - split; [|exact Hr]. intros k b0 E. rewrite Eb. destruct (decide (k = id)) as [->|N].
    + exists b'. rewrite lookup_insert_eq. split; [reflexivity | exact (Hf b0 E)].
    + exists b0. rewrite lookup_insert_ne by congruence. split; [assumption | reflexivity].
Qed.

Lemma held_not_pending st : st ∉ UNHELD_BOOKING_STATUSES -> st <> BookingStatus.PAYMENT_PENDING.
Proof. intros U ->. apply U, list_elem_of_In. cbn. auto. Qed.

Lemma unheld_not_active st : st ∈ UNHELD_BOOKING_STATUSES -> st ∈ ACTIVE_BOOKING_STATUSES -> False.
Proof.
  rewrite !list_elem_of_In. cbn. destruct st; intuition discriminate.
Qed.

Lemma life_neutral (d : Db.t) (id : string) (b b' : RideBooking.t) :
  Good d -> Db.rideBooking d !! id = Some b -> neutral b b' -> Life d (put_booking id b' d).
Proof.
  intros G E (S & P & R & T). pose proof S as (_ & S2 & _). apply (life_put d _ id b' G).
  - apply (SeatInv_booking d id b b' (good_seats d G) E S). rewrite R. reflexivity.
  - reflexivity.
  - rewrite T, R. apply (good_pending d G id b E).
  - rewrite T, R. intros X. apply (good_held d G X id b E).
  - rewrite T, R. intros X. apply (good_unheld d G X id b E).
  - rewrite T, S2, P. intros X A k b2 N E2 Er Ep A2. apply N. exact (good_active d G X k id b2 b E2 E Er Ep A2 A).
  - intros b0 E0. rewrite E in E0. injection E0 as <-. split; [|split]; [assumption | assumption|].
    rewrite T. constructor.
  - intros k r Er. exists r. split; [exact Er | reflexivity].
Qed.

(** The booking goes on with the ride, its seats kept. *)
Definition advances (b b' : RideBooking.t) : Prop :=
  same_seats b b' /\ RideBooking.passengerId b' = RideBooking.passengerId b /\
  RideBooking.seatsReservedAt b' = RideBooking.seatsReservedAt b /\
  moves (RideBooking.status b) (RideBooking.status b') /\
  RideBooking.status b ∉ UNHELD_BOOKING_STATUSES /\ RideBooking.status b' ∉ UNHELD_BOOKING_STATUSES.

(** A move that keeps its seats only leads to an active status from an active one. *)
Lemma moves_active a b : strict = true -> moves a b -> a ∉ UNHELD_BOOKING_STATUSES ->
  b ∈ ACTIVE_BOOKING_STATUSES -> a ∈ ACTIVE_BOOKING_STATUSES.
Proof.
  intros X. unfold moves. rewrite X, !list_elem_of_In. destruct a; cbn; intuition (subst; intuition discriminate).
Qed.

Lemma life_advance (d : Db.t) (id : string) (b b' : RideBooking.t) :
  Good d -> Db.rideBooking d !! id = Some b -> advances b b' -> Life d (put_booking id b' d).
Proof.
  intros G E (S & P & R & M & U & U'). pose proof S as (_ & S2 & _). apply (life_put d _ id b' G).
  - apply (SeatInv_booking d id b b' (good_seats d G) E S). rewrite R. reflexivity.
  - reflexivity.
  - intros A. destruct (held_not_pending _ U' A).
  - intros X _. rewrite R. exact (good_held d G X id b E U).
  - intros _ A. contradiction.
  - rewrite S2, P. intros X A k b2 N E2 Er Ep A2. apply N.
    exact (good_active d G X k id b2 b E2 E Er Ep A2 (moves_active _ _ X M U A)).
  - intros b0 E0. rewrite E in E0. injection E0 as <-. split; [|split]; [assumption | assumption | apply rtc_once, M].
  - intros k r Er. exists r. split; [exact Er | reflexivity].
Qed.

Lemma follows_closes b b' : closes b b' -> follows b b'.
Proof. intros (S & P & _ & M & _). split; [|split]; [assumption | assumption | apply rtc_once, M]. Qed.

(** Closing a booking that holds no seats. *)
Lemma life_close (d : Db.t) (id : string) (b b' : RideBooking.t) :
  Good d -> Db.rideBooking d !! id = Some b -> closes b b' -> RideBooking.seatsReservedAt b = None ->
  Life d (put_booking id b' d).
Proof.
  intros G E C N. pose proof C as (S & P & R & M & U). apply (life_put d _ id b' G).
  - apply (SeatInv_booking d id b b' (good_seats d G) E S). rewrite R. reflexivity.
  - reflexivity.
  - congruence.
  - intros _ A. contradiction.
  - congruence.
  - intros _ A. exfalso. exact (unheld_not_active _ U A).
  - intros b0 E0. rewrite E in E0. injection E0 as <-. apply follows_closes, C.
  - intros k r Er. exists r. split; [exact Er | reflexivity].
Qed.

(** Closing a booking and giving its seats back. *)
Lemma life_close_release (d : Db.t) (id : string) (b b' : RideBooking.t) (r : Ride.t) :
  Good d -> Db.rideBooking d !! id = Some b -> closes b b' -> is_Some (RideBooking.seatsReservedAt b) ->
  Db.ride d !! RideBooking.rideId b = Some r ->
  Life d (release_db (seats_input b (Ride.totalSeats r)) r (put_booking id (cleared b') d)).
Proof.
  intros G E C N Er. pose proof C as (S & P & R & M & U).
  assert (SC : same_seats b (cleared b')) by exact S.
  apply (life_put d _ id (cleared b') G).
  - eapply (SeatInv_give d _ id b (cleared b') r); try eassumption; try reflexivity. exact (good_seats d G).
  - reflexivity.
  - reflexivity.
  - intros _ A. contradiction.
  - reflexivity.
  - intros _ A. exfalso. exact (unheld_not_active _ U A).
  - intros b0 E0. rewrite E in E0. injection E0 as <-. exact (follows_closes b b' C).
  - intros k x Ex. unfold release_db, put_available, on_range. cbn.
    destruct (decide (k = RideBooking.rideId b)) as [->|Nk].
    + rewrite lookup_insert_eq. rewrite Er in Ex. injection Ex as <-. eexists. split; [reflexivity|].
      repeat split.
    + rewrite lookup_insert_ne by congruence. exists x. split; [assumption | reflexivity].
Qed.

(** The seats input built from a row read earlier. *)
Lemma input_stable (d0 d : Db.t) (id : string) (b0 b : RideBooking.t) (r0 : Ride.t) :
  Ext d0 d -> Db.rideBooking d0 !! id = Some b0 -> Db.rideBooking d !! id = Some b ->
  Db.ride d0 !! RideBooking.rideId b0 = Some r0 ->
  exists r, Db.ride d !! RideBooking.rideId b = Some r /\ same_ride r0 r /\
    seats_input b0 (Ride.totalSeats r0) = seats_input b (Ride.totalSeats r).
Proof.
  intros X E0 E Er0. destruct (ext_booking _ _ X id b0 E0) as (b1 & E1 & (S & _)).
  rewrite E in E1. injection E1 as <-. destruct S as (S1 & S2 & S3 & S4 & S5).
  destruct (ext_ride _ _ X _ r0 Er0) as (r & Er & SR). rewrite <- S2 in Er.
  exists r. split; [exact Er|]. split; [exact SR|]. destruct SR as (_ & T & _).
  unfold seats_input. rewrite S2, S3, S4, S5, T. reflexivity.
Qed.

Lemma cleared_id b : RideBooking.seatsReservedAt b = None -> cleared b = b.
Proof. destruct b. cbn. intros ->. reflexivity. Qed.

(** The release after a booking has been closed, with an input read before. *)
Lemma wp_release (d0 d : Db.t) (s : St.t) (id : string) (b0 b b' : RideBooking.t) (r0 : Ride.t) Q :
  Life d0 d -> Db.rideBooking d0 !! id = Some b0 -> Db.ride d0 !! RideBooking.rideId b0 = Some r0 ->
  Db.rideBooking d !! id = Some b -> closes b b' -> St.db s = put_booking id b' d ->
  (forall s' x, Life d0 (St.db s') ->
     St.fx s' = St.fx s /\ Db.rideBooking (St.db s') = <[id := cleared b']> (Db.rideBooking d) -> Q s' (Ok x)) ->
  wp (releaseBookingSeats id (seats_input b0 (Ride.totalSeats r0))) Q s.
Proof.
  intros [G X] E0 Er0 E C Es HQ.
  destruct (input_stable d0 d id b0 b r0 X E0 E Er0) as (r & Er & _ & Ei). rewrite Ei.
  assert (Eb' : Db.rideBooking (St.db s) !! id = Some b') by (rewrite Es; apply lookup_insert_eq).
  assert (Er' : Db.ride (St.db s) !! ReleaseSeatsInput.rideId (seats_input b (Ride.totalSeats r)) = Some r)
    by (rewrite Es; exact Er).
  apply wp_run. intros s' res. rewrite (releaseBookingSeats_run id _ s b' r Eb' Er').
  pose proof C as (_ & _ & R & _).
  destruct (RideBooking.seatsReservedAt b') as [t|] eqn:Hs; intros [= <- <-]; apply HQ;
    try (apply (life_trans d0 d); [split; assumption|]); cycle 1.
  - split; [reflexivity|]. cbn. rewrite Es. apply insert_insert_eq.
  - rewrite Es. apply (life_close d id b b' G E C). congruence.
  - split; [reflexivity|]. rewrite (cleared_id b' Hs), Es. reflexivity.
  - cbn. rewrite Es.
    replace (setf Db.rideBooking <[id := cleared b']> (put_booking id b' d)) with (put_booking id (cleared b') d).
    + apply (life_close_release d id b b' r G E C); [rewrite <- R; eauto | exact Er].
    + unfold put_booking, setf. cbn. rewrite insert_insert_eq. reflexivity.
Qed.

(** ** Writes of the handlers *)

Lemma SeatInv_core d d' : same_core d d' -> SeatInv d -> SeatInv d'.
Proof.
  intros (E1 & E2 & E3) [I1 I2 I3 I4 I5 I6].
  split; unfold held in *; rewrite ?E1, ?E2, ?E3; try assumption; intros k x; rewrite ?E1, ?E2; auto.
Qed.

Lemma safe_update_neutral (id : string) f :
  (forall b, neutral b (f b)) -> safe (update prisma.rideBooking id f).
Proof.
  intros N d0. apply preserves_update. intros d b L E.
  apply (life_trans d0 d); [exact L|]. exact (life_neutral d id b (f b) (proj1 L) E (N b)).
Qed.

(** Nothing changes that the seats depend on, or the booking goes on. *)
Definition goes_on (b b' : RideBooking.t) : Prop := neutral b b' \/ advances b b'.

Lemma goes_on_same b b' : goes_on b b' ->
  same_seats b b' /\ RideBooking.passengerId b' = RideBooking.passengerId b /\
  RideBooking.seatsReservedAt b' = RideBooking.seatsReservedAt b.
Proof. intros [(S & P & R & _)|(S & P & R & _)]; auto. Qed.

Lemma goes_on_status b b' : goes_on b b' ->
  rtc moves (RideBooking.status b) (RideBooking.status b') /\
  (strict = true -> RideBooking.status b' ∈ ACTIVE_BOOKING_STATUSES -> RideBooking.status b ∈ ACTIVE_BOOKING_STATUSES) /\
  (RideBooking.status b' = BookingStatus.PAYMENT_PENDING -> RideBooking.status b = BookingStatus.PAYMENT_PENDING) /\
  (RideBooking.status b' ∈ UNHELD_BOOKING_STATUSES <-> RideBooking.status b ∈ UNHELD_BOOKING_STATUSES).
Proof.
  intros [(_ & _ & _ & ->)|(_ & _ & _ & M & U & U')]; [split; [constructor | tauto]|].
  split; [apply rtc_once, M|]. split; [exact (fun X => moves_active _ _ X M U)|].
  split; [intros T; destruct (held_not_pending _ U' T) | tauto].
Qed.

(** The seats do not depend on a change of all rows that keeps what they hold. *)
Lemma SeatInv_all (d : Db.t) g :
  SeatInv d -> (forall b, same_seats b (g b) /\ RideBooking.seatsReservedAt (g b) = RideBooking.seatsReservedAt b) ->
  SeatInv (d <| Db.rideBooking ::= fmap g |>).
Proof.
  intros I Sa.
  assert (Z1 : forall k b, seatsOn k (g b) = seatsOn k b).
  { intros k b. destruct (Sa b) as (S & R). apply (seatsOn_same k b (g b) S). rewrite R. reflexivity. }
  assert (Z2 : forall c b, seatsOnEdge c (g b) = seatsOnEdge c b).
  { intros c b. unfold seatsOnEdge. rewrite Z1, (covers_same c b (g b)); [reflexivity | apply Sa]. }
  assert (L : forall k b', (g <$> Db.rideBooking d) !! k = Some b' ->
            exists b, Db.rideBooking d !! k = Some b /\ b' = g b).
  { intros k b'. rewrite lookup_fmap. destruct (Db.rideBooking d !! k) as [b|]; [intros [= <-]; eauto | discriminate]. }
  split; cbn.
  - intros k b' (b & E & ->)%L. destruct (Sa b) as ((S1 & _) & _). rewrite S1. exact (inv_booking_id d I k b E).
  - exact (inv_ride_id d I).
  - intros k b' (b & E & ->)%L. destruct (Sa b) as ((_ & _ & S3 & _) & _). rewrite S3. exact (inv_seats_pos d I k b E).
  - intros k b' (b & E & ->)%L. destruct (Sa b) as ((_ & S2 & _) & _). rewrite S2. exact (inv_ride d I k b E).
  - intros k r E. unfold held. cbn. rewrite sum_map_fmap, (sum_map_ext _ (seatsOn k)) by (intros; apply Z1).
    exact (inv_available d I k r E).
  - intros k c E. rewrite sum_map_fmap, (sum_map_ext _ (seatsOnEdge c)) by (intros; apply Z2).
    exact (inv_occupied d I k c E).
Qed.

(** [updateMany] with such a change. *)
Lemma life_all (d : Db.t) g :
  Good d -> (forall b, goes_on b (g b)) -> Life d (d <| Db.rideBooking ::= fmap g |>).
Proof.
  intros G N. pose proof (fun b => goes_on_same b (g b) (N b)) as Sa.
  pose proof (fun b => goes_on_status b (g b) (N b)) as St.
  assert (L : forall k b', (g <$> Db.rideBooking d) !! k = Some b' ->
            exists b, Db.rideBooking d !! k = Some b /\ b' = g b).
  { intros k b'. rewrite lookup_fmap. destruct (Db.rideBooking d !! k) as [b|]; [intros [= <-]; eauto | discriminate]. }
  split.
  - split; cbn.
    + apply SeatInv_all; [exact (good_seats d G)|]. intros b. destruct (Sa b) as (S & _ & R). auto.
    + intros k b' (b & E & ->)%L U. destruct (Sa b) as (_ & _ & R). rewrite R.
      apply (good_pending d G k b E), (St b), U.
    + intros X k b' (b & E & ->)%L U. destruct (Sa b) as (_ & _ & R). rewrite R.
      apply (good_held d G X k b E). rewrite <- (proj2 (proj2 (proj2 (St b)))). exact U.
    + intros X k b' (b & E & ->)%L U. destruct (Sa b) as (_ & _ & R). rewrite R.
      apply (good_unheld d G X k b E). rewrite <- (proj2 (proj2 (proj2 (St b)))). exact U.
    + intros X k1 k2 b1' b2' (b1 & E1 & ->)%L (b2 & E2 & ->)%L.
      destruct (Sa b1) as ((_ & A1 & _) & P1 & _), (Sa b2) as ((_ & A2 & _) & P2 & _).
      rewrite A1, A2, P1, P2. intros R P T1 T2.
      exact (good_active d G X k1 k2 b1 b2 E1 E2 R P (proj1 (proj2 (St b1)) X T1) (proj1 (proj2 (St b2)) X T2)).
  - split; cbn.
    + intros k b E. exists (g b). rewrite lookup_fmap, E. split; [reflexivity|].
      destruct (Sa b) as (S & P & _). split; [|split]; [assumption | assumption | apply St].
    + intros k r E. exists r. split; [exact E | reflexivity].
Qed.

(** The booking was closed and its seats given back. *)
Definition closed_out (b b' : RideBooking.t) : Prop :=
  same_seats b b' /\ RideBooking.passengerId b' = RideBooking.passengerId b /\
  moves (RideBooking.status b) (RideBooking.status b') /\
  RideBooking.status b' ∈ UNHELD_BOOKING_STATUSES /\ RideBooking.seatsReservedAt b' = None.

(** Closing any number of bookings. *)
Lemma life_close_many (d d' : Db.t) :
  Good d -> SeatInv d' ->
  (forall k b', Db.rideBooking d' !! k = Some b' ->
     exists b, Db.rideBooking d !! k = Some b /\ (b' = b \/ closed_out b b')) ->
  (forall k b, Db.rideBooking d !! k = Some b -> is_Some (Db.rideBooking d' !! k)) ->
  (forall k r, Db.ride d !! k = Some r -> exists r', Db.ride d' !! k = Some r' /\ same_ride r r') ->
  Life d d'.
Proof.
  intros G S' B D R. split.
  - split; [exact S' | | | |].
    + intros k b' E T. destruct (B k b' E) as (b & E0 & [->|(_ & _ & _ & _ & N)]); [|exact N].
      exact (good_pending d G k b E0 T).
    + intros X k b' E U. destruct (B k b' E) as (b & E0 & [->|(_ & _ & _ & U' & _)]); [|contradiction].
      exact (good_held d G X k b E0 U).
    + intros X k b' E U. destruct (B k b' E) as (b & E0 & [->|(_ & _ & _ & _ & N)]); [|exact N].
      exact (good_unheld d G X k b E0 U).
    + intros X k1 k2 b1' b2' E1 E2 Rr P A1 A2.
      destruct (B k1 b1' E1) as (b1 & F1 & [->|(_ & _ & _ & U & _)]); [|destruct (unheld_not_active _ U A1)].
      destruct (B k2 b2' E2) as (b2 & F2 & [->|(_ & _ & _ & U & _)]); [|destruct (unheld_not_active _ U A2)].
      exact (good_active d G X k1 k2 b1 b2 F1 F2 Rr P A1 A2).
  - split; [|exact R]. intros k b E. destruct (D k b E) as [b' E']. exists b'. split; [exact E'|].
    destruct (B k b' E') as (b0 & E0 & C). rewrite E in E0. injection E0 as <-.
    destruct C as [->|(S & P & M & _)]; [reflexivity|]. split; [exact S|]. split; [exact P | apply rtc_once, M].
Qed.

Lemma safe_updateMany_all p f :
  (forall b, p b = true -> goes_on b (f b)) -> safe (updateMany prisma.rideBooking p f).
Proof.
  intros N d0 s L. rewrite updateMany_run.
  apply (life_trans d0 (St.db s)); [exact L|]. apply life_all; [exact (proj1 L)|].
  intros b. destruct (p b) eqn:P; [exact (N b P) | left; repeat split].
Qed.

Lemma safe_updateMany_neutral p f :
  (forall b, neutral b (f b)) -> safe (updateMany prisma.rideBooking p f).
Proof. intros N. apply safe_updateMany_all. intros b _. left. apply N. Qed.

(** A transaction is safe when its callback is safe where it returns. *)
Lemma safe_transaction {A} (m : H A) :
  (forall s, Good (St.db s) ->
     wp m (fun s' r => match r with Ok _ => Life (St.db s) (St.db s') | Err _ => True end) s) ->
  safe (transaction m).
Proof.
  intros W. apply safe_start. intros s G. apply wp_transaction. apply (wp_mono _ _ _ _ (W s G)).
  intros s' [a|e] L; [exact L | apply life_refl, G].
Qed.

Lemma safe_bind {A B} (m : H A) (k : A -> H B) : safe m -> (forall a, safe (k a)) -> safe (m ≫= k).
Proof. intros Sm Sk d0. apply preserves_bind; [apply Sm | intros a; apply Sk]. Qed.

(** The status of a ride is not what the seats depend on. *)
Lemma SeatInv_ride (d : Db.t) (rid : string) (r r' : Ride.t) :
  SeatInv d -> Db.ride d !! rid = Some r -> same_ride r r' -> Ride.availableSeats r' = Ride.availableSeats r ->
  SeatInv (d <| Db.ride ::= <[rid := r']> |>).
Proof.
  intros I E (S1 & S2 & _) A. destruct I as [I1 I2 I3 I4 I5 I6]. split; cbn; try assumption.
  - intros k x. rewrite lookup_insert_Some. intros [[<- <-]|[_ Ex]]; [rewrite S1; eauto | eauto].
  - intros k b Eb. destruct (decide (rid = RideBooking.rideId b)) as [<-|N].
    + rewrite lookup_insert_eq. eauto.
    + rewrite lookup_insert_ne by assumption. eauto.
  - intros k x. rewrite lookup_insert_Some. unfold held. cbn.
    intros [[<- <-]|[_ Ex]]; [rewrite A, S2; exact (I5 _ r E) | exact (I5 k x Ex)].
Qed.

(** *** Confirming the request of a booking *)

(** The row after [confirmRequestBooking]. *)
Definition confirms (b b' : RideBooking.t) : Prop :=
  same_seats b b' /\ RideBooking.passengerId b' = RideBooking.passengerId b /\
  RideBooking.seatsReservedAt b' = RideBooking.seatsReservedAt b /\
  RideBooking.status b' = BookingStatus.CONFIRMED.

Inductive Confirmed (id : string) (d d' : Db.t) : Prop :=
| confirmed_nothing : same_core d d' -> Confirmed id d d'
| confirmed_request b b' rid r :
    Db.rideBooking d !! id = Some b -> confirms b b' -> Db.ride d !! rid = Some r ->
    same_core (put_booking id b' d <| Db.ride ::= <[rid := r <| Ride.status := RideStatus.PUBLISHED |>]> |>) d' ->
    Confirmed id d d'.

(** The conditions on a state in which the row of [id] is about to be counted. *)
Lemma confirmed_ride id d d' : Confirmed id d d' -> forall k r, Db.ride d !! k = Some r ->
  exists r', Db.ride d' !! k = Some r' /\ same_ride r r' /\ Ride.availableSeats r' = Ride.availableSeats r.
Proof.
  intros [(_ & ER & _)|b b' rid x _ _ Ex (_ & ER & _)] k r Er; rewrite ER; cbn.
  - exists r. repeat split. assumption.
  - destruct (decide (k = rid)) as [->|N].
    + rewrite lookup_insert_eq. rewrite Ex in Er. injection Er as <-. eexists. split; [reflexivity|]. repeat split.
    + rewrite lookup_insert_ne by congruence. exists r. repeat split. assumption.
Qed.

(** Only the status of a ride changes. *)
Lemma life_ride (d : Db.t) (rid : string) (r r' : Ride.t) :
  Good d -> Db.ride d !! rid = Some r -> same_ride r r' -> Ride.availableSeats r' = Ride.availableSeats r ->
  Life d (d <| Db.ride ::= <[rid := r']> |>).
Proof.
  intros [S Hp Hh Hu Ha] E SR A. split.
  - split; [exact (SeatInv_ride d rid r r' S E SR A) | exact Hp | exact Hh | exact Hu | exact Ha].
  - split; cbn; [intros k b Eb; exists b; split; [exact Eb | reflexivity]|].
    intros k x Ex. destruct (decide (k = rid)) as [->|N].
    + exists r'. rewrite lookup_insert_eq. split; [reflexivity|]. rewrite E in Ex. injection Ex as <-. exact SR.
    + exists x. rewrite lookup_insert_ne by congruence. split; [exact Ex | reflexivity].
Qed.

(** Confirming a row that waits for the driver. *)
Lemma life_confirm_row (d : Db.t) (id : string) (b b' : RideBooking.t) :
  Good d -> Db.rideBooking d !! id = Some b -> RideBooking.status b = BookingStatus.DRIVER_PENDING ->
  confirms b b' -> Life d (put_booking id b' d).
Proof.
  intros G E T (S & P & R & T'). pose proof S as (_ & S2 & _).
  assert (A : RideBooking.status b ∈ ACTIVE_BOOKING_STATUSES) by (rewrite T; apply list_elem_of_In; cbn; auto).
  apply (life_put d _ id b' G).
  - apply (SeatInv_booking d id b b' (good_seats d G) E S). rewrite R. reflexivity.
  - reflexivity.
  - congruence.
  - intros X _. rewrite R. apply (good_held d G X id b E). intros U. exact (unheld_not_active _ U A).
  - intros _ U. exfalso. rewrite T', list_elem_of_In in U. cbn in U. intuition discriminate.
  - rewrite S2, P. intros X _ k b2 N E2 Er Ep A2. apply N. exact (good_active d G X k id b2 b E2 E Er Ep A2 A).
  - intros b0 E0. rewrite E in E0. injection E0 as <-. split; [|split]; [assumption | assumption|].
    apply rtc_once, moves_table. rewrite T, T'. apply list_elem_of_In. cbn. auto.
  - intros k r Er. exists r. split; [exact Er | reflexivity].
Qed.

Lemma life_confirmed (id : string) (d d' : Db.t) (b : RideBooking.t) :
  Good d -> Db.rideBooking d !! id = Some b -> RideBooking.status b = BookingStatus.DRIVER_PENDING ->
  Confirmed id d d' -> Life d d'.
Proof.
  intros G E T [Co|b0 b' rid x E0 C Ex Co]; [apply (life_core d d d' Co), life_refl, G|].
  rewrite E in E0. injection E0 as <-. pose proof (life_confirm_row d id b b' G E T C) as L.
  apply (life_core _ _ _ Co), (life_trans _ _ _ L).
  apply (life_ride _ rid x); [exact (proj1 L) | exact Ex | repeat split | reflexivity].
Qed.

(** *** Becoming active *)

(** No other active booking of the rider on the ride. *)
Definition alone (id : string) (b : RideBooking.t) (d : Db.t) : Prop := forall k b2,
  k <> id -> Db.rideBooking d !! k = Some b2 ->
  RideBooking.rideId b2 = RideBooking.rideId b -> RideBooking.passengerId b2 = RideBooking.passengerId b ->
  RideBooking.status b2 ∈ ACTIVE_BOOKING_STATUSES -> False.

(** What the unique index checks. *)
Lemma activeConflict_alone (d : Db.t) (b : RideBooking.t) :
  (forall k b2, Db.rideBooking d !! k = Some b2 -> RideBooking.id b2 = k) ->
  RideBooking.status b ∈ ACTIVE_BOOKING_STATUSES -> activeConflict b d = false ->
  alone (RideBooking.id b) b d.
Proof.
  intros K A C k b2 N E Er Ep A2. unfold activeConflict, has_status in C.
  rewrite (bool_decide_eq_true_2 (RideBooking.status b ∈ _)) in C by assumption.
  apply bool_decide_eq_false in C. apply C. intros Nil.
  assert (I : In b2 []); [|destruct I]. rewrite <- Nil. apply where_elem. split; [|exists k; exact E].
  rewrite (K k b2 E). rewrite !bool_decide_eq_true_2 by assumption. reflexivity.
Qed.

Lemma activeConflict_inactive (d : Db.t) (b : RideBooking.t) :
  RideBooking.status b ∉ ACTIVE_BOOKING_STATUSES -> activeConflict b d = false.
Proof. intros N. unfold activeConflict, has_status. rewrite bool_decide_eq_false_2 by assumption. reflexivity. Qed.

Lemma reserve_db_core (i : ReleaseSeatsInput.t) (x : option string) (r : Ride.t) (d d' : Db.t) :
  same_core d d' -> same_core (reserve_db i x r d) (reserve_db i x r d').
Proof.
  intros (E1 & E2 & E3). unfold reserve_db, put_available, on_range, heldByOthers, same_core. cbn.
  rewrite E1, E2, E3. repeat split; reflexivity.
Qed.

Lemma heldByOthers_core (d d' : Db.t) (rid : string) (x : option string) :
  same_core d d' -> heldByOthers d' rid x = heldByOthers d rid x.
Proof. intros (E1 & _). unfold heldByOthers. rewrite E1. reflexivity. Qed.

Lemma same_core_sym d d' : same_core d d' -> same_core d' d.
Proof. intros (?&?&?). repeat split; congruence. Qed.

Lemma same_core_trans d1 d2 d3 : same_core d1 d2 -> same_core d2 d3 -> same_core d1 d3.
Proof. intros (?&?&?) (?&?&?). repeat split; congruence. Qed.

(** A paid booking: it waits for the driver or is confirmed, and holds its seats. *)
Definition seated (b : RideBooking.t) : Prop :=
  (RideBooking.status b = BookingStatus.DRIVER_PENDING \/ RideBooking.status b = BookingStatus.CONFIRMED) /\
  is_Some (RideBooking.seatsReservedAt b).

Lemma confirmed_seated (id : string) (d d2 : Db.t) (b1 : RideBooking.t) :
  Confirmed id (put_booking id b1 d) d2 -> seated b1 ->
  exists b2, Db.rideBooking d2 !! id = Some b2 /\ seated b2.
Proof.
  intros [(-> & _)|b0 b2 rid x E0 (S0 & P0 & R0 & T0) Ex (-> & _)] Se.
  - exists b1. split; [apply lookup_insert_eq | exact Se].
  - exists b2. split; [apply lookup_insert_eq|]. unfold put_booking in E0. cbn in E0.
    rewrite lookup_insert_eq in E0. injection E0 as <-. split; [auto | rewrite R0; apply Se].
Qed.

(** A row is written active, its request may be confirmed, and then its seats are
    reserved: the transaction of a payment. *)
Lemma life_claim (d d2 : Db.t) (id : string) (b b1 : RideBooking.t) (r : Ride.t) :
  Good d -> Db.rideBooking d !! id = Some b -> RideBooking.status b = BookingStatus.PAYMENT_PENDING ->
  same_seats b b1 -> RideBooking.passengerId b1 = RideBooking.passengerId b ->
  RideBooking.status b1 = BookingStatus.DRIVER_PENDING -> is_Some (RideBooking.seatsReservedAt b1) ->
  alone id b1 d -> Confirmed id (put_booking id b1 d) d2 ->
  Db.ride d2 !! RideBooking.rideId b = Some r ->
  let i := seats_input b (Ride.totalSeats r) in
  (Ride.totalSeats r <? heldByOthers d2 (RideBooking.rideId b) (Some id) + RideBooking.seatsBooked b) = false ->
  Life d (reserve_db i (Some id) r d2).
Proof.
  intros G E T S P T1 Hs Al C Er i Lt.
  pose proof (good_seats d G) as I. pose proof S as (_ & S2 & _).
  assert (U : RideBooking.seatsReservedAt b = None).
  { exact (good_pending d G id b E T). }
  assert (Row : exists b2 dm, same_core (put_booking id b2 dm) d2 /\ SeatInv dm /\
            Db.rideBooking dm = Db.rideBooking d /\ same_seats b b2 /\
            RideBooking.passengerId b2 = RideBooking.passengerId b /\ is_Some (RideBooking.seatsReservedAt b2) /\
            (RideBooking.status b2 = BookingStatus.DRIVER_PENDING \/ RideBooking.status b2 = BookingStatus.CONFIRMED)).
  { destruct C as [Co|b0 b2 rid x E0 (S0 & P0 & R0 & T0) Ex Co].
    - exists b1, d. tauto.
    - unfold put_booking in E0. cbn in E0. rewrite lookup_insert_eq in E0. injection E0 as <-.
      exists b2, (d <| Db.ride ::= <[rid := x <| Ride.status := RideStatus.PUBLISHED |>]> |>).
      split; [|split].
      + refine (same_core_trans _ _ _ _ Co). unfold put_booking. repeat split; cbn. apply insert_insert_eq.
      + eapply SeatInv_ride; [exact I | exact Ex | repeat split | reflexivity].
      + split; [reflexivity|]. split; [etrans; eassumption|]. rewrite P0, R0. auto. }
  destruct Row as (b2 & dm & Co & Im & Eb & S' & P' & Hs' & T2).
  assert (A2 : RideBooking.status b2 ∈ ACTIVE_BOOKING_STATUSES)
    by (apply list_elem_of_In; cbn; destruct T2 as [-> | ->]; auto).
  assert (Eb2 : Db.rideBooking d2 = <[id := b2]> (Db.rideBooking d))
    by (destruct Co as (-> & _); cbn; rewrite Eb; reflexivity).
  apply (life_put d _ id b2 G).
  - apply (SeatInv_core (reserve_db i (Some id) r (put_booking id b2 dm)));
      [apply reserve_db_core, Co|].
    apply (SeatInv_claim dm id b b2 r Im); try assumption.
    + rewrite Eb. exact E.
    + destruct Co as (_ & ER & _). rewrite ER in Er. exact Er.
    + rewrite (heldByOthers_core _ _ _ _ Co) in Lt. exact Lt.
  - exact Eb2.
  - destruct T2 as [-> | ->]; discriminate.
  - intros _ _. exact Hs'.
  - intros _ Un. exfalso. exact (unheld_not_active _ Un A2).
  - intros _ _ k b3 N E3 Er3 Ep3. pose proof S' as (_ & S2' & _).
    apply (Al k b3 N E3); congruence.
  - intros b0 E0. rewrite E in E0. injection E0 as <-. split; [|split]; [assumption | assumption|].
    rewrite T. apply (rtc_l _ _ BookingStatus.DRIVER_PENDING); [apply moves_table, list_elem_of_In; cbn; auto|].
    destruct T2 as [-> | ->]; [constructor | apply rtc_once, moves_table, list_elem_of_In; cbn; auto].
  - intros k x Ex. destruct (confirmed_ride id _ d2 C k x Ex) as (x' & Ex' & SR & _).
    unfold reserve_db, put_available, on_range. cbn.
    destruct (decide (k = RideBooking.rideId b)) as [->|N].
    + rewrite lookup_insert_eq. rewrite Er in Ex'. injection Ex' as <-.
      eexists. split; [reflexivity|]. exact SR.
    + rewrite lookup_insert_ne by congruence. eauto.
Qed.

(** A new row without seats. *)
Lemma life_create (d : Db.t) (b : RideBooking.t) :
  Good d -> Db.rideBooking d !! RideBooking.id b = None -> RideBooking.id b <> EmptyString ->
  0 < RideBooking.seatsBooked b -> RideBooking.status b = BookingStatus.PAYMENT_PENDING ->
  RideBooking.seatsReservedAt b = None -> is_Some (Db.ride d !! RideBooking.rideId b) ->
  Life d (put_booking (RideBooking.id b) b d).
Proof.
  intros G E Ne Pos T U R.
  assert (NA : RideBooking.status b ∈ ACTIVE_BOOKING_STATUSES -> False).
  { rewrite T, list_elem_of_In. cbn. intuition discriminate. }
  apply (life_put d _ (RideBooking.id b) b G); try tauto.
  - apply SeatInv_create; try assumption; [apply G | reflexivity].
  - intros _ A. exfalso. apply A. rewrite T. apply list_elem_of_In. cbn. auto.
  - intros b0 E0. congruence.
  - intros k r Er. exists r. split; [exact Er | reflexivity].
Qed.

(** A new row with its seats. *)
Lemma life_book (d : Db.t) (b : RideBooking.t) (r : Ride.t) :
  Good d -> Db.rideBooking d !! RideBooking.id b = None -> RideBooking.id b <> EmptyString ->
  0 < RideBooking.seatsBooked b -> RideBooking.status b = BookingStatus.DRIVER_PENDING ->
  is_Some (RideBooking.seatsReservedAt b) -> Db.ride d !! RideBooking.rideId b = Some r ->
  alone (RideBooking.id b) b d ->
  let i := seats_input b (Ride.totalSeats r) in
  (Ride.totalSeats r <? heldByOthers d (RideBooking.rideId b) None + RideBooking.seatsBooked b) = false ->
  Life d (put_booking (RideBooking.id b) b (reserve_db i None r d)).
Proof.
  intros G E Ne Pos T U R Al i Lt. apply (life_put d _ (RideBooking.id b) b G).
  - apply SeatInv_book; try assumption; [apply G | reflexivity].
  - reflexivity.
  - rewrite T. discriminate.
  - intros _ _. exact U.
  - intros _ Un. exfalso. rewrite T, list_elem_of_In in Un. cbn in Un. intuition discriminate.
  - intros _ _ k b2 N E2 Er Ep A. exact (Al k b2 N E2 Er Ep A).
  - intros b0 E0. congruence.
  - intros k x Ex. unfold reserve_db, put_available, on_range, put_booking. cbn.
    destruct (decide (k = RideBooking.rideId b)) as [->|N].
    + rewrite lookup_insert_eq. rewrite R in Ex. injection Ex as <-. eexists. split; [reflexivity|]. repeat split.
    + rewrite lookup_insert_ne by congruence. exists x. split; [assumption | reflexivity].
Qed.
End invariant.
