(* ===== verification/Safe.v ===== *)
(** * Every handler is safe

    For each handler of the backend that touches bookings: it keeps the invariant
    of [Invariant.v] and moves bookings only forward, whether it returns or throws.
    Handlers of payments, requests and configurations are [quiet]: they leave
    bookings, rides and legs alone. *)

From Stdlib Require Import ZArith Lia.
From stdpp Require Import base list option strings gmap relations.
From S2P Require Import Prelude JsNumber Money Schema Store Seats Payments Time Segment.
From S2P Require Import ViewToken Pricing Gateway RideRequest Booking DriverBooking Deadlines Webhook Invariant.

Open Scope Z_scope.

(** ** Quiet parts *)

(** A table other than bookings, rides and legs. *)
Class Aside {R} (t : Table R) : Prop := aside : forall g d, same_core d (with_rows t g d).

#[global] Instance aside_payment : Aside prisma.payment.
Proof. repeat split. Qed.
#[global] Instance aside_outbox : Aside prisma.paymentEventOutbox.
Proof. repeat split. Qed.
#[global] Instance aside_request : Aside prisma.rideRequest.
Proof. repeat split. Qed.
#[global] Instance aside_offer : Aside prisma.rideRequestOffer.
Proof. repeat split. Qed.
#[global] Instance aside_issue : Aside prisma.reconciliationIssue.
Proof. repeat split. Qed.
#[global] Instance aside_penalty : Aside prisma.driverPenaltyEvent.
Proof. repeat split. Qed.
#[global] Instance aside_config : Aside prisma.pricingConfig.
Proof. repeat split. Qed.
#[global] Instance aside_snapshot : Aside prisma.ridePricingSnapshot.
Proof. repeat split. Qed.

#[global] Instance aside_vehicle : Aside prisma.vehicle.
Proof. repeat split. Qed.
#[global] Instance aside_dlVerification : Aside prisma.dlVerification.
Proof. repeat split. Qed.
#[global] Instance aside_rideRating : Aside prisma.rideRating.
Proof. repeat split. Qed.
#[global] Instance aside_userRatingStats : Aside prisma.userRatingStats.
Proof. repeat split. Qed.

Section quiet.
Context `{Env}.

Lemma quiet_write {R} (t : Table R) `{!Aside t} g d0 : preserves (on_db (same_core d0)) (write t g).
Proof. apply preserves_write. intros d C. exact (same_core_trans _ _ _ C (aside g d)). Qed.

Lemma quiet_update {R} (t : Table R) `{!Aside t} id f d0 : preserves (on_db (same_core d0)) (update t id f).
Proof. apply preserves_update. intros d r C _. exact (same_core_trans _ _ _ C (aside _ d)). Qed.

Lemma quiet_create {R} (t : Table R) `{!Aside t} id r d0 : preserves (on_db (same_core d0)) (create t id r).
Proof. apply preserves_create. intros d C _. exact (same_core_trans _ _ _ C (aside _ d)). Qed.

Lemma quiet_updateManyId {R} (t : Table R) `{!Aside t} id p f d0 :
  preserves (on_db (same_core d0)) (updateManyId t id p f).
Proof. apply preserves_updateManyId. intros d r C _ _. exact (same_core_trans _ _ _ C (aside _ d)). Qed.

Lemma quiet_updateMany {R} (t : Table R) `{!Aside t} p f d0 :
  preserves (on_db (same_core d0)) (updateMany t p f).
Proof.
  intros s C. rewrite updateMany_run. exact (same_core_trans _ _ _ C (aside _ (St.db s))).
Qed.

Lemma quiet_ledger es d0 : preserves (on_db (same_core d0)) (createLedgerEntries es).
Proof. intros s C. rewrite createLedgerEntries_run. exact C. Qed.
End quiet.

(** [quiet]: the handler writes only to tables aside. *)
Ltac quiet_step :=
  lazymatch goal with
  | |- preserves _ (update _ _ _) => apply quiet_update; exact _
  | |- preserves _ (create _ _ _) => apply quiet_create; exact _
  | |- preserves _ (updateManyId _ _ _ _) => apply quiet_updateManyId; exact _
  | |- preserves _ (updateMany _ _ _) => apply quiet_updateMany; exact _
  | |- preserves _ (createLedgerEntries _) => apply quiet_ledger
  | |- preserves _ (transaction _) => apply preserves_transaction
  | |- preserves _ (attempt _) => apply preserves_attempt
  | |- _ => preserve_step
  end.
Ltac solve_quiet := intros; intros ?d0; repeat quiet_step.

Section payments.
Context `{Env}.

Lemma quiet_writeOutboxEvent a b c e : quiet (writeOutboxEvent a b c e).
Proof. unfold writeOutboxEvent. solve_quiet. Qed.

Lemma quiet_markStatus target f id : quiet (markStatus target f id).
Proof. unfold markStatus, assertTransition. solve_quiet. Qed.

Lemma quiet_markPaymentPaid a b : quiet (markPaymentPaid a b).
Proof.
  unfold markPaymentPaid, assertTransition, recordPaymentReceived, writeOutboxEvent. solve_quiet.
Qed.

Lemma quiet_markRefunded a b c : quiet (markRefunded a b c).
Proof. unfold markRefunded, assertTransition, recordRefund. solve_quiet. Qed.

Lemma quiet_findByBooking a : quiet (findByBooking a).
Proof. unfold findByBooking. solve_quiet. Qed.

Lemma quiet_markBookingPaymentPaid a b : quiet (markBookingPaymentPaid a b).
Proof.
  intros d0. unfold markBookingPaymentPaid, markPaymentPending.
  repeat first [ apply quiet_findByBooking | apply quiet_markStatus | apply quiet_markPaymentPaid | quiet_step ].
Qed.

Lemma quiet_markBookingPaymentRefunded a b c : quiet (markBookingPaymentRefunded a b c).
Proof.
  intros d0. unfold markBookingPaymentRefunded.
  repeat first [ apply quiet_findByBooking | apply quiet_markRefunded | quiet_step ].
Qed.

Lemma quiet_createPayment a b c d e f g h i : quiet (createPayment a b c d e f g h i).
Proof. unfold createPayment. solve_quiet. Qed.

Lemma quiet_ensureRequestPayment b : quiet (ensureRequestPayment b).
Proof. unfold ensureRequestPayment. solve_quiet. Qed.

Lemma quiet_recordProviderFee i b : quiet (recordProviderFeeForIntent i b).
Proof.
  unfold recordProviderFeeForIntent, recordProviderFeeExpense, findByBooking. solve_quiet.
Qed.

Lemma quiet_recordIssue a b c d e f : quiet (recordIssue a b c d e f).
Proof. unfold recordIssue. solve_quiet. Qed.

Lemma quiet_createPenalty a b : quiet (createPenalty a b).
Proof. unfold createPenalty. solve_quiet. Qed.

Lemma quiet_reserveRequestOffer a b c d : quiet (reserveRequestOffer a b c d).
Proof. unfold reserveRequestOffer, includeOffer, assertDriverHasNoOverlappingRide. solve_quiet. Qed.

Lemma quiet_attachOffer a b : quiet (attachOffer a b).
Proof. unfold attachOffer. solve_quiet. Qed.

Lemma quiet_createBookingPayment a b c d e : quiet (createBookingPayment a b c d e).
Proof.
  intros d0. unfold createBookingPayment. apply preserves_bind; [|intros; apply quiet_createPayment].
  intros s C. exact C.
Qed.

Lemma quiet_startFullRefund b x : quiet (startFullRefund b x).
Proof. unfold startFullRefund, refundPaymentIntent. solve_quiet. Qed.

Lemma quiet_syncRefund a b c d : quiet (syncRefund a b c d).
Proof.
  intros d0. unfold syncRefund. repeat first [ apply quiet_markBookingPaymentRefunded | quiet_step ].
Qed.
End payments.

(** ** The handlers are safe *)

Create HintDb quiet discriminated.
#[export] Hint Resolve quiet_markBookingPaymentPaid quiet_markBookingPaymentRefunded quiet_markPaymentPaid
  quiet_recordProviderFee quiet_recordIssue quiet_startFullRefund quiet_syncRefund : quiet.

(** Calls and reads are quiet. *)
Ltac safe_loop := repeat first
  [ apply quiet_safe; solve [auto with quiet] | preserve_step | apply preserves_transaction | apply preserves_attempt ].
Ltac solve_safe := intros; intros ?d0; safe_loop.

(** [closes] for a concrete row whose status is known. *)
Ltac solve_closes T :=
  repeat split; [rewrite T; apply moves_table, list_elem_of_In; cbn; auto | apply list_elem_of_In; cbn; auto].

Section handlers.
Context `{Env} `{Codec} `{Mode}.
Variable routeSharesBetween : Ride.t -> SegmentPoint.t -> SegmentPoint.t -> option (num * num).

Lemma same_core_refl d : same_core d d.
Proof. repeat split. Qed.

Lemma matchRequest_spec (id : string) (offer : RideRequestOffer.t) (ride : Ride.t) (d : Db.t) (s : St.t) :
  same_core d (St.db s) -> wp (matchRequest id offer ride) (if_ok (fun s' _ => Confirmed id d (St.db s'))) s.
Proof.
  intros C. unfold matchRequest, generateBookingOtp, if_ok.
  repeat (apply wp_bind; apply wp_run; intros ? ? [= <- <-]; cbv beta iota).
  do 2 (wp_query; wp_query; [exact I|]).
  wp_query. apply wp_quiet; [solve_quiet|]. intros s1 [|] C1; [|exact I].
  wp_query. apply wp_quiet; [solve_quiet|]. intros s2 [|] C2; [|exact I].
  wp_query. apply wp_quiet; [solve_quiet|]. intros s3 [|] C3; [|exact I].
  apply wp_ret. destruct C as (EB & ER & EC). cbn in *.
  eapply confirmed_request; [rewrite <- EB; exact E | | rewrite <- ER; exact E0 |].
  2: refine (same_core_trans _ _ _ (same_core_trans _ _ _ _ C1) (same_core_trans _ _ _ C2 C3)).
  2: unfold put_booking; repeat split; cbn; [rewrite EB; reflexivity | rewrite ER; reflexivity | assumption].
  repeat split.
Qed.

Lemma confirm_spec (id : string) (s : St.t) :
  wp (confirmRequestBooking id) (if_ok (fun s' _ => Confirmed id (St.db s) (St.db s'))) s.
Proof.
  unfold confirmRequestBooking, includeOffer. wp_query. wp_query.
  destruct o as [offer|]; [|apply wp_ret; apply confirmed_nothing, same_core_refl].
  repeat wp_query; try exact I; cbv beta iota.
  - apply wp_quiet; [apply quiet_ensureRequestPayment|]. intros s1 [|] C; [|exact I].
    apply wp_ret. apply matchRequest_spec, C.
  - apply matchRequest_spec, same_core_refl.
Qed.

Lemma wp_activate (id : string) p f Q s :
  ((forall b, Db.rideBooking (St.db s) !! id = Some b -> p b = false) -> Q s (Ok 0)) ->
  (Q s (Err "P2002")) ->
  (forall b, Db.rideBooking (St.db s) !! id = Some b -> p b = true -> activeConflict (f b) (St.db s) = false ->
     Q (s <| St.db ::= put_booking id (f b) |>) (Ok 1)) ->
  wp (activateRideBooking id p f) Q s.
Proof.
  intros H0' H1' H2'. unfold activateRideBooking, checkActiveIndex. wp_query. wp_query.
  destruct o as [b|]; [|apply wp_ret, H0'; intros b Eb; cbn in E; congruence].
  destruct (p b) eqn:P; [|apply wp_ret, H0'; intros b' Eb'; cbn in E; congruence].
  repeat wp_step; [exact H1'|]. apply wp_run. intros s' r [= <- <-]. apply wp_ret.
  apply H2'; assumption.
Qed.

Lemma wp_reserve (i : ReleaseSeatsInput.t) (x : option string) (draft : bool) (r : Ride.t) Q s :
  Db.ride (St.db s) !! ReleaseSeatsInput.rideId i = Some r ->
  (forall s' e, Q s' (Err e)) ->
  ((ReleaseSeatsInput.totalSeats i
     <? heldByOthers (St.db s) (ReleaseSeatsInput.rideId i) x + ReleaseSeatsInput.seatsBooked i) = false ->
   Q (s <| St.db ::= reserve_db i x r |>) (Ok tt)) ->
  wp (reserveSeatsForBooking i x draft) Q s.
Proof.
  intros Er HE HQ. unfold reserveSeatsForBooking. apply wp_bind, wp_run. intros s' res.
  rewrite (reserveRideSeats_run i x s r Er). destruct (_ <? _) eqn:Lt; intros [= <- <-]; [apply HE|].
  wp_query. wp_query. apply wp_throw_if; intros _; [apply HE | apply HQ; reflexivity].
Qed.

Lemma paid_row intent b : same_seats b (paidBooking intent b) /\
  RideBooking.passengerId (paidBooking intent b) = RideBooking.passengerId b /\
  RideBooking.status (paidBooking intent b) = BookingStatus.DRIVER_PENDING /\
  is_Some (RideBooking.seatsReservedAt (paidBooking intent b)) /\
  RideBooking.id (paidBooking intent b) = RideBooking.id b.
Proof. repeat split. eexists. reflexivity. Qed.

(** What the claiming callback answers with. *)
Definition claim_of (id : string) (d d' : Db.t) (c : Claim) : Prop :=
  match c with
  | CLAIMED =>
      (exists b, Db.rideBooking d !! id = Some b /\ RideBooking.status b = BookingStatus.PAYMENT_PENDING) /\
      exists b', Db.rideBooking d' !! id = Some b' /\ seated b'
  | ALREADY_APPLIED => d' = d /\ forall b, Db.rideBooking d !! id = Some b ->
      RideBooking.status b <> BookingStatus.PAYMENT_PENDING
  | RIDE_FULL => False
  end.

(** The claiming transaction of a payment, on a row that waits for it. *)
Lemma claim_spec (id : string) (intent : PaymentIntent.t) (s : St.t) :
  Good (St.db s) ->
  wp (claimPaidBooking id intent)
     (if_ok (fun s' c => Life (St.db s) (St.db s') /\ claim_of id (St.db s) (St.db s') c)) s.
Proof.
  intros G. pose proof (good_seats _ G) as I. unfold claimPaidBooking, rideOf.
  apply wp_bind, wp_activate; [intros Np | exact Logic.I |].
  { split; [apply life_refl, G|]. split; [reflexivity|]. intros b E. exact (bool_decide_eq_false_1 _ (Np b E)). }
  intros b E P C. cbn [Z.eqb]. apply bool_decide_eq_true in P.
  destruct (paid_row intent b) as (S & Pa & T & Hs & Ei).
  wp_query. wp_query; [exact Logic.I|]. wp_query. wp_query; [exact Logic.I|].
  assert (Er' : r = paidBooking intent b).
  { cbn in E0. rewrite lookup_insert_eq in E0. congruence. }
  subst r. change (RideBooking.rideId (paidBooking intent b)) with (RideBooking.rideId b) in E1.
  wp_query. apply (wp_mono _ _ _ _ (confirm_spec id _)). intros s2 [o|e] Co; [|exact Logic.I]. cbn [if_ok] in Co.
  destruct (confirmed_ride _ _ _ Co (RideBooking.rideId b) r0 E1) as (r2 & Er2 & (_ & Tot & _) & _).
  change (seats_input (paidBooking intent b) (Ride.totalSeats r0)) with (seats_input b (Ride.totalSeats r0)).
  rewrite <- Tot. wp_query. eapply wp_reserve; [exact Er2 | intros; exact Logic.I|]. intros Lt.
  apply wp_ret. cbn [if_ok]. split.
  - apply (life_claim (St.db s) (St.db s2) id b (paidBooking intent b) r2); try assumption.
    rewrite <- (proj1 (inv_booking_id _ I id b E)), <- Ei.
    apply activeConflict_alone; [apply I | rewrite T; apply list_elem_of_In; cbn; auto | exact C].
  - split; [eauto|]. apply (confirmed_seated id (St.db s) _ (paidBooking intent b) Co). split; [auto | exact Hs].
Qed.

(** Neutral rows. *)
Ltac neutral := intros; repeat split.

Lemma safe_settle (id : string) (intent : PaymentIntent.t) : safe (settleClaimedBooking id intent).
Proof.
  unfold settleClaimedBooking, rideOf, createNotification. solve_safe.
  apply safe_update_neutral. neutral.
Qed.

(** A guarded write that closes a row holding no seats. *)
Lemma safe_close_unpaid (id : string) p f :
  (forall b, p b = true -> RideBooking.status b = BookingStatus.PAYMENT_PENDING) ->
  (forall b, p b = true -> closes b (f b)) ->
  safe (updateManyId prisma.rideBooking id p f).
Proof.
  intros Hp Hf d0. apply preserves_updateManyId. intros d b L E P. apply (life_trans d0 d); [exact L|].
  apply (life_close d id b (f b) (proj1 L) E (Hf b P)).
  exact (good_pending d (proj1 L) id b E (Hp b P)).
Qed.

Lemma safe_refundRideFull (id : string) (intent : PaymentIntent.t) : safe (refundRideFullPayment id intent).
Proof.
  unfold refundRideFullPayment, rideOf, createNotification, refundPaymentIntent. solve_safe.
  - apply safe_close_unpaid; intros b T%bool_decide_eq_true; [exact T | solve_closes T].
  - apply safe_update_neutral. neutral.
Qed.

Lemma safe_apply (intent : PaymentIntent.t) : safe (applyStripePaymentSucceededToBooking intent).
Proof.
  unfold applyStripePaymentSucceededToBooking. destruct (truthy _) as [id|]; [|solve_safe].
  apply safe_bind.
  - intros d0. apply preserves_try_catch; [|intros error; safe_loop].
    apply safe_transaction. intros s G. apply (wp_mono _ _ _ _ (claim_spec id intent s G)).
    intros s' [c|e]; [intros [L _]; exact L | trivial].
  - intros [| |]; [apply safe_bind; [apply safe_settle | solve_safe] | solve_safe |].
    apply safe_bind; [apply safe_refundRideFull | solve_safe].
Qed.

(** A callback that reads a row, closes it and gives its seats back. *)
Lemma safe_failBooking (id : string) : safe (failBookingAndReleaseSeats id).
Proof.
  unfold failBookingAndReleaseSeats, rideOf. apply safe_transaction. intros s G.
  pose proof (life_refl _ G) as L.
  wp_query. wp_query. destruct o as [b0|]; [|apply wp_ret, L].
  wp_query. wp_query; [exact I|]. wp_query. wp_query; [apply wp_ret, L|]. apply bool_decide_eq_true in P.
  cbn [Z.eqb]. wp_query. eapply (wp_release (St.db s) (St.db s)); try eassumption; [| reflexivity |].
  - solve_closes P.
  - intros s' x L' _. apply wp_ret, L'.
Qed.

Lemma safe_getBookingById (a b : string) : safe (getBookingById a b).
Proof. unfold getBookingById, rideOf. solve_safe. Qed.

Lemma safe_reentry (a b : string) : safe (resolvePendingBookingReentry a b).
Proof.
  unfold resolvePendingBookingReentry, rideOf. intros d0.
  repeat first [ apply safe_failBooking | apply safe_apply | preserve_step ].
Qed.

Lemma safe_reschedule (a : string) (b : Z) : safe (reschedulePaymentExpiryCheck a b).
Proof.
  intros d0. apply preserves_reschedule. intros d r L E. apply (life_trans d0 d); [exact L|].
  apply (life_neutral d a r r (proj1 L) E). neutral.
Qed.

(** *** Creating a booking *)

(** A plan changes nothing; it is made for the ride and for at least one seat. *)
Lemma plan_spec (passengerId : string) (input : CreateBookingInput.t) (bypass : bool) (terms : ServiceFeeTerms.t)
    (offer : option string) (s : St.t) :
  wp (resolveBookingPlan routeSharesBetween passengerId input bypass terms offer)
     (if_ok (fun s' plan => s' = s /\ 0 < CreateBookingInput.seatsBooked input /\
        Db.ride (St.db s) !! CreateBookingInput.rideId input = Some (BookingPlan.ride plan))) s.
Proof.
  unfold resolveBookingPlan, waypointsOf. set (shares := routeSharesBetween).
  repeat (wp_read; try exact Logic.I).
  split; [reflexivity|]. split; [|assumption].
  match goal with E : validateBookingSeats _ = Ok _ |- _ => revert E; clear end.
  unfold validateBookingSeats. destruct (Z.ltb_spec (CreateBookingInput.seatsBooked input) 1); [discriminate | lia].
Qed.

(** Taking the offer of a request, when the booking is for one. *)
Lemma reserve_offer_quiet (offer : option string) (riderId rideId : string) (seats : Z) :
  quiet (match truthy offer with
         | Some offerId => reserveRequestOffer offerId riderId rideId seats
         | None => mret tt
         end).
Proof. destruct (truthy offer); [apply quiet_reserveRequestOffer | solve_quiet]. Qed.

Lemma seedStripe_spec (bookingId passengerId : string) (input : CreateBookingInput.t) (terms : ServiceFeeTerms.t)
    (offer : option string) (preflight : BookingPlan.t) (intentId currency : string) (s : St.t) :
  bookingId <> EmptyString -> Good (St.db s) ->
  wp (seedStripeBooking routeSharesBetween bookingId passengerId input terms offer preflight intentId currency)
     (if_ok (fun s' _ => Life (St.db s) (St.db s'))) s.
Proof.
  intros Ne G. unfold seedStripeBooking, createRideBooking, checkActiveIndex.
  wp_query. apply wp_quiet; [apply reserve_offer_quiet|]. intros s1 [[]|] C1; [|exact I].
  pose proof (good_core _ _ C1 G) as G1. wp_query.
  apply (wp_mono _ _ _ _ (plan_spec passengerId input false terms offer s1)).
  intros s1' [plan|] P; [|exact I]. destruct P as (-> & Pos & Er).
  wp_query. wp_query; [exact I|]. wp_query. set (row := _ <| RideBooking.paymentCurrency := _ |>).
  repeat (wp_query; try exact I).
  apply wp_quiet; [apply quiet_createBookingPayment|]. intros s2 [p|] C2; [|exact I].
  assert (L : Life (St.db s) (St.db s2)).
  { apply (life_core _ (put_booking bookingId row (St.db s1))); [exact C2|].
    apply (life_trans _ (St.db s1)); [exact (life_core _ _ _ C1 (life_refl _ G))|].
    apply (life_create (St.db s1) row G1); try reflexivity; try assumption. cbn. rewrite Er. eauto. }
  wp_query. apply wp_quiet; [destruct (truthy offer); [apply quiet_attachOffer | solve_quiet]|].
  intros s3 [u|] C3; [|exact I]. apply wp_ret. exact (life_core _ _ _ C3 L).
Qed.

Lemma seedBypass_spec (bookingId passengerId : string) (input : CreateBookingInput.t) (terms : ServiceFeeTerms.t)
    (offer : option string) (s : St.t) :
  bookingId <> EmptyString -> Good (St.db s) ->
  wp (seedBypassBooking routeSharesBetween bookingId passengerId input terms offer)
     (if_ok (fun s' _ => Life (St.db s) (St.db s'))) s.
Proof.
  intros Ne G. unfold seedBypassBooking, createRideBooking, checkActiveIndex.
  wp_query. apply wp_quiet; [apply reserve_offer_quiet|]. intros s1 [[]|] C1; [|exact I].
  pose proof (good_core _ _ C1 G) as G1. wp_query.
  apply (wp_mono _ _ _ _ (plan_spec passengerId input true terms offer s1)).
  intros s1' [plan|] P; [|exact I]. destruct P as (-> & Pos & Er).
  set (row := buildBookingData bookingId passengerId input true plan).
  wp_query. apply (wp_reserve _ _ _ (BookingPlan.ride plan)); [exact Er | intros; exact I|]. intros Lt.
  set (i := seats_input row (Ride.totalSeats (BookingPlan.ride plan))) in *.
  set (d1 := reserve_db i None (BookingPlan.ride plan) (St.db s1)).
  assert (LB : activeConflict row d1 = false -> Db.rideBooking d1 !! bookingId = None ->
            Life (St.db s) (put_booking bookingId row d1)).
  { intros Cf En. apply (life_trans _ (St.db s1)); [exact (life_core _ _ _ C1 (life_refl _ G))|].
    apply (life_book (St.db s1) row (BookingPlan.ride plan) G1); try assumption; try reflexivity.
    - eexists. reflexivity.
    - apply (activeConflict_alone (St.db s1) row);
        [apply G1 | apply list_elem_of_In; cbn; auto | exact Cf]. }
  wp_query. wp_query. wp_query. wp_query. wp_query; [exact I|]. wp_query; [exact I|].
  match goal with Hc : activeConflict row _ = false, En : _ !! _ = None |- _ => specialize (LB Hc En) end.
  wp_query. destruct (truthy offer) as [offerId|].
  - wp_query. apply wp_quiet; [apply quiet_attachOffer|]. intros s2 [u|] C2; [|exact I].
    wp_query. apply (wp_mono _ _ _ _ (confirm_spec (RideBooking.id row) s2)). intros s3 [u3|] C3; [|exact I].
    apply wp_ret.
    assert (L2 : Life (St.db s) (St.db s2)) by exact (life_core _ _ _ C2 LB).
    assert (L3 : Life (St.db s) (St.db s3)).
    { apply (life_trans _ (St.db s2)); [exact L2|].
      apply (life_confirmed bookingId (St.db s2) (St.db s3) row (proj1 L2)); [|reflexivity | exact C3].
      destruct C2 as (-> & _). apply lookup_insert_eq. }
    wp_query. apply wp_quiet; [apply quiet_createBookingPayment|]. intros s4 [u4|] C4; [|exact I].
    apply wp_ret. exact (life_core _ _ _ C4 L3).
  - apply wp_ret. wp_query. apply wp_quiet; [apply quiet_createBookingPayment|]. intros s4 [u4|] C4; [|exact I].
    apply wp_ret. exact (life_core _ _ _ C4 LB).
Qed.

Hypothesis uuid_nonempty : forall n, uuid n <> EmptyString.

Lemma safe_with_uuid {A} (k : string -> H A) :
  (forall id, id <> EmptyString -> safe (k id)) -> safe (randomUUID ≫= k).
Proof.
  intros Hk d0 s L. rewrite bind_run. cbn. apply (Hk _ (uuid_nonempty (St.seq s))). exact L.
Qed.

Lemma safe_createBypass (bookingId passengerId : string) (input : CreateBookingInput.t) (terms : ServiceFeeTerms.t)
    (offer : option string) :
  bookingId <> EmptyString ->
  safe (createBypassBooking routeSharesBetween bookingId passengerId input terms offer).
Proof.
  intros Ne. unfold createBypassBooking, explainUnique, notifyRiderBookingState, createNotification.
  apply safe_bind; [|intros [[b plan] pid]; solve_safe].
  intros d0. apply preserves_try_catch; [|intros error; safe_loop].
  apply safe_transaction. intros s G. exact (seedBypass_spec bookingId passengerId input terms offer s Ne G).
Qed.

Lemma safe_plan (passengerId : string) (input : CreateBookingInput.t) (bypass : bool) (terms : ServiceFeeTerms.t)
    (offer : option string) : safe (resolveBookingPlan routeSharesBetween passengerId input bypass terms offer).
Proof. unfold resolveBookingPlan, waypointsOf. solve_safe. Qed.

Lemma safe_createStripe (bookingId passengerId : string) (input : CreateBookingInput.t) (terms : ServiceFeeTerms.t)
    (offer : option string) :
  bookingId <> EmptyString ->
  safe (createStripeBooking routeSharesBetween bookingId passengerId input terms offer).
Proof.
  intros Ne. unfold createStripeBooking, notifyRiderBookingState, createNotification, cancelPaymentIntent,
    enqueuePaymentExpiryCheck.
  apply safe_bind; [apply safe_plan|]. intros preflight.
  apply safe_bind; [solve_safe|]. intros [[intentId secret] currency].
  apply safe_bind; [|intros [b plan]; solve_safe].
  intros d0. apply preserves_try_catch; [|intros error; safe_loop].
  apply safe_transaction. intros s G.
  exact (seedStripe_spec bookingId passengerId input terms offer preflight intentId currency s Ne G).
Qed.

Lemma safe_feeTerms (rideId : string) : safe (resolveRideFeeTerms rideId).
Proof.
  apply quiet_safe. unfold resolveRideFeeTerms, findSnapshot, resolveActiveFeeTerms, getActivePricingConfig,
    ensureDefaultPricingConfig. solve_quiet.
Qed.

Lemma safe_createBooking (passengerId : string) (input : CreateBookingInput.t) (offer : option string) :
  safe (createBooking routeSharesBetween passengerId input offer).
Proof.
  unfold createBooking. intros d0.
  repeat first
    [ apply safe_feeTerms
    | lazymatch goal with
      | |- preserves _ (randomUUID ≫= _) =>
          refine (safe_with_uuid _ _ d0); intros bookingId Ne; clear d0; intros d0
      | |- preserves _ (createBypassBooking _ _ _ _ _ _) => apply safe_createBypass; assumption
      | |- preserves _ (createStripeBooking _ _ _ _ _ _) => apply safe_createStripe; assumption
      | |- preserves _ (resolvePendingBookingReentry _ _) => apply safe_reentry
      | |- preserves _ (getBookingById _ _) => apply safe_getBookingById
      | |- preserves _ (reschedulePaymentExpiryCheck _ _) => apply safe_reschedule
      end
    | preserve_step ].
Qed.

(** *** The rider's other handlers *)

Lemma safe_confirmPayment (a b : string) : safe (confirmBookingPayment a b).
Proof.
  unfold confirmBookingPayment. intros d0.
  repeat first [ apply safe_getBookingById | apply safe_failBooking | apply safe_apply | preserve_step ].
Qed.

Lemma safe_resumePayment (a b : string) : safe (resumeBookingPayment a b).
Proof.
  unfold resumeBookingPayment. intros d0.
  repeat first [ apply safe_getBookingById | apply safe_failBooking | apply safe_apply | apply safe_reschedule
               | preserve_step ].
Qed.

Lemma safe_extend (a b : string) : safe (extendWaitForDriver a b).
Proof.
  unfold extendWaitForDriver, rideOf, createNotification. solve_safe. apply safe_update_neutral. neutral.
Qed.

(** *** Closing handlers *)

(** A guarded close with an input read before, as a transaction. *)
Lemma close_many_spec (d0 : Db.t) (s : St.t) (id : string) p f (b0 : RideBooking.t) (r0 : Ride.t) :
  Life d0 (St.db s) -> Db.rideBooking d0 !! id = Some b0 -> Db.ride d0 !! RideBooking.rideId b0 = Some r0 ->
  (forall b, p b = true -> closes b (f b)) ->
  wp (transaction (
        count ← updateManyId prisma.rideBooking id p f;
        if count =? 0 then mret false
        else releaseBookingSeats id (seats_input b0 (Ride.totalSeats r0));; mret true))
     (fun s' _ => Life d0 (St.db s')) s.
Proof.
  intros L E0 Er0 Hf. wp_query. wp_query. wp_query; [apply wp_ret, L|]. cbn [Z.eqb]. wp_query.
  eapply (wp_release d0 (St.db s)); try eassumption; [exact (Hf r P) | reflexivity |].
  intros s' x L' _. apply wp_ret, L'.
Qed.

Lemma closes_cancel (l : list BookingStatus.t) (b b' : RideBooking.t) : same_seats b b' -> RideBooking.passengerId b' = RideBooking.passengerId b ->
  RideBooking.seatsReservedAt b' = RideBooking.seatsReservedAt b -> RideBooking.status b' = BookingStatus.CANCELLED ->
  RideBooking.status b ∈ l -> (forall st, st ∈ l -> moves st BookingStatus.CANCELLED) -> closes b b'.
Proof.
  intros S P R T M Hl. split; [exact S|]. repeat split; [assumption | assumption | rewrite T; apply Hl, M|].
  rewrite T. apply list_elem_of_In. cbn. auto.
Qed.

Lemma cancellable_moves st : st ∈ CANCELLABLE_BOOKING_STATUSES -> moves st BookingStatus.CANCELLED.
Proof.
  rewrite list_elem_of_In. cbn. intros [<-|[<-|[<-|[]]]]; apply moves_table, list_elem_of_In; cbn; auto.
Qed.

Lemma withdrawable_moves st : st ∈ WITHDRAWABLE_BOOKING_STATUSES -> moves st BookingStatus.CANCELLED.
Proof. rewrite list_elem_of_In. cbn. intros [<-|[<-|[]]]; apply moves_table, list_elem_of_In; cbn; auto. Qed.

(** The cancelling transaction: it throws only when there is nothing to cancel. *)
Lemma cancel_spec (passengerId id reason : string) (percent amount : num) (s : St.t) :
  Good (St.db s) ->
  wp (cancelTransaction passengerId id reason percent amount)
     (fun s' r => match r with
        | Ok b => Life (St.db s) (St.db s') /\ St.fx s' = St.fx s /\
            Db.rideBooking (St.db s) !! id = Some b /\
            Db.rideBooking (St.db s') =
              <[id := cleared (cancelledByPassenger reason percent amount b)]> (Db.rideBooking (St.db s))
        | Err _ => forall b, Db.rideBooking (St.db s) !! id = Some b -> isCancellableBy passengerId b = false
        end) s.
Proof.
  intros G. unfold cancelTransaction, rideOf. wp_query. wp_query; [exact E|].
  wp_query. wp_query; [destruct (inv_ride _ (good_seats _ G) id r E); cbn in E0; congruence|].
  apply andb_prop in P as [_ P]. apply bool_decide_eq_true in P.
  rewrite (proj1 (inv_booking_id _ (good_seats _ G) id r E)).
  wp_query. wp_query; [congruence|]. wp_query. assert (r1 = r) as -> by congruence.
  eapply (wp_release (St.db s) (St.db s)); try eassumption; [apply life_refl, G | | reflexivity |].
  - eapply closes_cancel; [repeat split.. | exact P | exact cancellable_moves].
  - intros s' x L [Ef Eb]. apply wp_ret. split; [exact L|]. split; [exact Ef|]. split; [exact E | exact Eb].
Qed.

Lemma safe_cancel (a b : string) (reason : option string) : safe (cancelBooking a b reason).
Proof.
  unfold cancelBooking, rideOf, refundPaymentIntent, releaseUnpaidPaymentIntent, cancelPaymentIntent,
    createNotification.
  intros d0. repeat first
    [ apply safe_transaction; intros s G; apply (wp_mono _ _ _ _ (cancel_spec a b _ _ _ s G));
        intros s' [x|e]; [intros [L _]; exact L | trivial]
    | apply safe_update_neutral; neutral
    | apply quiet_safe; solve [auto with quiet] | preserve_step | apply preserves_attempt ].
Qed.

Lemma safe_withdraw (a b : string) (reason : option string) : safe (withdrawBooking a b reason).
Proof.
  apply safe_start. intros s G. pose proof (life_refl _ G) as L.
  unfold withdrawBooking, rideOf. wp_query. wp_query; [wp_query; exact L|].
  wp_query. wp_query; [exact L|]. wp_query. apply wp_quiet; [intros d0; auto with preserve|].
  intros s1 [bypass|] C1; [|exact (life_core _ _ _ C1 L)]. wp_query.
  apply (wp_mono _ _ _ _ (close_many_spec (St.db s) s1 b (has_status WITHDRAWABLE_BOOKING_STATUSES)
    (withdrawnBooking reason (paidAmount r)) r r0 (life_core _ _ _ C1 L) E E0
    ltac:(intros b0 P0%bool_decide_eq_true;
          eapply closes_cancel; [repeat split.. | exact P0 | exact withdrawable_moves]))).
  intros s2 [w|] L2; [|exact L2].
  apply wp_safe_end; [|exact L2].
  unfold refundPaymentIntent, releaseUnpaidPaymentIntent, cancelPaymentIntent, createNotification. solve_safe.
  apply safe_update_neutral. neutral.
Qed.

(** *** The driver's handlers *)

Lemma safe_fetch (a : string) : safe (fetchDriverBooking a).
Proof. unfold fetchDriverBooking, rideOf, waypointsOf. solve_safe. Qed.

Lemma safe_accept (a b : string) : safe (acceptBooking a b).
Proof.
  unfold acceptBooking, requireDriverBooking, assertDecisionWindowOpen, emitBookingUpdated, createNotification.
  intros d0. repeat first [ apply safe_fetch | preserve_step ].
  apply preserves_updateManyId. intros d b0 L E P. apply andb_prop in P as [P Hs].
  apply bool_decide_eq_true in P. apply bool_decide_eq_true in Hs.
  apply (life_trans d0 d); [exact L|].
  apply (life_confirm_row d b b0 _ (proj1 L) E P). repeat split.
Qed.

Lemma safe_refuse (id code : string) (expected : BookingStatus.t) f extra :
  moves expected BookingStatus.CANCELLED ->
  (forall b, same_seats b (f b) /\ RideBooking.passengerId (f b) = RideBooking.passengerId b /\
     RideBooking.seatsReservedAt (f b) = RideBooking.seatsReservedAt b /\
     RideBooking.status (f b) = BookingStatus.CANCELLED) ->
  (forall b, quiet (extra b)) ->
  safe (refuseTransaction id expected code f extra).
Proof.
  intros M Hf Hx. unfold refuseTransaction, rideOf. apply safe_transaction. intros s G.
  wp_query. wp_query. destruct o as [b0|]; [|exact I].
  wp_query. wp_query; [exact I|]. wp_query. wp_query; [exact I|].
  wp_query. wp_query; [exact I|]. wp_query.
  rewrite (proj1 (inv_booking_id _ (good_seats _ G) id b0 E)).
  eapply (wp_release (St.db s) (St.db s)); try eassumption; [apply life_refl, G | | reflexivity |].
  - assert (r0 = b0) as -> by congruence. destruct (Hf b0) as (S & P & R & T).
    apply (closes_cancel [expected]); try assumption.
    + match goal with Hb : bool_decide (_ <> expected) = false |- _ => apply bool_decide_eq_false in Hb end.
      destruct (decide (RideBooking.status b0 = expected)) as [->|N];
        [apply list_elem_of_In; cbn; auto | contradiction].
    + intros st [<-|[]]%list_elem_of_In. exact M.
  - intros s' x L _. wp_query. apply wp_quiet; [apply Hx|]. intros s2 [u|] C; [|exact I].
    apply wp_ret. exact (life_core _ _ _ C L).
Qed.

Lemma moves_cancel st : st ∈ [BookingStatus.DRIVER_PENDING; BookingStatus.CONFIRMED] -> moves st BookingStatus.CANCELLED.
Proof. rewrite list_elem_of_In. cbn. intros [<-|[<-|[]]]; apply moves_table, list_elem_of_In; cbn; auto. Qed.

Lemma safe_reject (a b c : string) : safe (rejectBooking a b c).
Proof.
  unfold rejectBooking, requireDriverBooking, assertDecisionWindowOpen, emitBookingUpdated, createNotification.
  intros d0. repeat first
    [ apply safe_fetch
    | apply safe_refuse; [apply moves_cancel, list_elem_of_In; cbn; auto | repeat split | intros ?; solve_quiet]
    | apply quiet_safe; solve [auto with quiet] | preserve_step ].
Qed.

Lemma safe_cancelAfterAccept (a b c : string) : safe (cancelAfterAccept a b c).
Proof.
  unfold cancelAfterAccept, requireDriverBooking, emitBookingUpdated, createNotification.
  intros d0. repeat first
    [ apply safe_fetch
    | apply safe_refuse; [apply moves_cancel, list_elem_of_In; cbn; auto | repeat split | intros ?; apply quiet_createPenalty]
    | apply quiet_safe; solve [auto with quiet] | preserve_step ].
Qed.

(** *** Deadlines *)

Lemma safe_expire (id : string) : safe (expireUnpaidBooking id).
Proof.
  apply safe_start. intros s G. pose proof (life_refl _ G) as L.
  unfold expireUnpaidBooking, rideOf. wp_query. wp_query. destruct o as [b0|]; [|exact L].
  wp_query. wp_query; [exact L|]. wp_step; [exact L|]. wp_query.
  apply (wp_mono _ _ _ _ (close_many_spec (St.db s) s id
    (fun b => bool_decide (RideBooking.status b = BookingStatus.PAYMENT_PENDING)) expiredBooking b0 r L E E0
    ltac:(intros b P%bool_decide_eq_true; solve_closes P))).
  intros s2 [w|] L2; [|exact L2]. apply wp_safe_end; [|exact L2].
  unfold cancelPaymentIntent, createNotification. solve_safe.
Qed.

Lemma safe_reminder (id : string) : safe (handleDeadlineReminder id).
Proof.
  unfold handleDeadlineReminder, rideOf, createNotification. solve_safe. apply safe_update_neutral. neutral.
Qed.

Lemma safe_initial (id : string) : safe (handleInitialDeadline id).
Proof.
  unfold handleInitialDeadline, createNotification. solve_safe. apply safe_update_neutral. neutral.
Qed.

Lemma closes_auto (b b' : RideBooking.t) : same_seats b b' -> RideBooking.passengerId b' = RideBooking.passengerId b ->
  RideBooking.seatsReservedAt b' = RideBooking.seatsReservedAt b -> RideBooking.status b' = BookingStatus.CANCELLED ->
  RideBooking.status b = BookingStatus.DRIVER_PENDING -> closes b b'.
Proof.
  intros S P R T D. apply (closes_cancel [BookingStatus.DRIVER_PENDING]); try assumption.
  - rewrite D. apply list_elem_of_In. cbn. auto.
  - intros st [<-|[]]%list_elem_of_In. apply moves_table, list_elem_of_In. cbn. auto.
Qed.

Lemma safe_extended (id : string) : safe (handleExtendedDeadline id).
Proof.
  apply safe_start. intros s G. pose proof (life_refl _ G) as L.
  unfold handleExtendedDeadline, extendedDeadlineTransaction, rideOf, createNotification.
  wp_query. wp_query. destruct o as [b0|]; [|exact L].
  wp_query. wp_query; [exact L|]. wp_step; [exact L|].
  match goal with Hb : _ || _ = false |- _ => apply orb_false_elim in Hb as [Hb _]; rename Hb into T end.
  apply bool_decide_eq_false in T.
  assert (D : RideBooking.status b0 = BookingStatus.DRIVER_PENDING)
    by (destruct (decide (RideBooking.status b0 = BookingStatus.DRIVER_PENDING)); tauto). clear T.
  wp_query. apply wp_quiet; [intros d0; auto with preserve|].
  intros s1 [bypass|] C1; [|exact (life_core _ _ _ C1 L)].
  assert (L1 : Life (St.db s) (St.db s1)) by exact (life_core _ _ _ C1 L).
  assert (E1 : Db.rideBooking (St.db s1) !! id = Some b0) by (destruct C1 as (-> & _); exact E).
  wp_query. wp_query. wp_query. wp_query; [exact L1|].
  assert (r0 = b0) as -> by (cbn in E2; congruence). wp_query.
  apply (wp_release (St.db s) (St.db s1) _ id b0 b0 (autoCancelledBooking (paidAmount b0) b0)); try assumption;
    [apply closes_auto; try reflexivity; [repeat split | exact D] | reflexivity |].
  intros s2 x L2 _.
  match goal with |- wp ?m _ _ => assert (Sf : safe m) end.
  { solve_safe. apply safe_update_neutral. neutral. }
  apply (wp_safe _ (St.db s) _ _ Sf L2). intros s3 [u|] L3; [|exact L1].
  apply wp_safe_end; [solve_safe | exact L3].
Qed.

Lemma safe_worker (name id : string) : safe (deadlineWorker name id).
Proof.
  unfold deadlineWorker. intros d0.
  repeat first [ apply safe_initial | apply safe_extended | apply safe_reminder | apply safe_expire | preserve_step ].
Qed.

(** *** The sweeper *)

(** A row of the list the sweeper works on: it is still as it was read. *)
Definition waiting (d : Db.t) (b : RideBooking.t) : Prop :=
  Db.rideBooking d !! RideBooking.id b = Some b /\ RideBooking.status b = BookingStatus.DRIVER_PENDING.

Lemma autoCancel_spec (d0 : Db.t) (b : RideBooking.t) (s : St.t) :
  Life d0 (St.db s) -> waiting (St.db s) b ->
  wp (autoCancelBooking b) (fun s' _ => Life d0 (St.db s') /\
    forall k, k <> RideBooking.id b -> Db.rideBooking (St.db s') !! k = Db.rideBooking (St.db s) !! k) s.
Proof.
  intros L [E D]. assert (Ls : Life (St.db s) (St.db s)) by (apply life_refl, L).
  assert (Keep : forall s1, same_core (St.db s) (St.db s1) -> Life d0 (St.db s1) /\
            forall k, k <> RideBooking.id b -> Db.rideBooking (St.db s1) !! k = Db.rideBooking (St.db s) !! k).
  { intros s1 C. split; [exact (life_core _ _ _ C L) | destruct C as (-> & _); reflexivity]. }
  unfold autoCancelBooking, rideOf, createNotification.
  wp_query. wp_query; [apply Keep, same_core_refl|].
  wp_query. apply wp_quiet; [intros dq; auto with preserve|].
  intros s1 [bypass|] C1; [|apply Keep, C1].
  wp_query. apply wp_quiet.
  { intros dq. apply preserves_try_catch; [apply quiet_startFullRefund | intros; apply preserves_ret]. }
  intros s2 [[refundId initiated]|] C2'; [|apply Keep, (same_core_trans _ _ _ C1 C2')].
  pose proof (same_core_trans _ _ _ C1 C2') as C2. pose proof (Keep s2 C2) as [L2 _].
  assert (E2 : Db.rideBooking (St.db s2) !! RideBooking.id b = Some b) by (destruct C2 as (-> & _); exact E).
  assert (Er2 : Db.ride (St.db s2) !! RideBooking.rideId b = Some r) by (destruct C2 as (_ & -> & _); exact E0).
  wp_query. wp_query. wp_query. wp_query; [cbn in E1; congruence|].
  assert (r0 = b) as -> by (cbn in E1; congruence).
  eapply (wp_release (St.db s2) (St.db s2) _ (RideBooking.id b) b b _ r);
    [exact (life_refl _ (proj1 L2)) | exact E2 | exact Er2 | exact E2 | | reflexivity |].
  - apply closes_auto; try reflexivity; [repeat split | exact D].
  - intros s3 x L3 O3. apply wp_quiet; [intros dq; apply preserves_perform|]. intros s4 u C4.
    assert (K4 : Life d0 (St.db s4) /\
              forall k, k <> RideBooking.id b -> Db.rideBooking (St.db s4) !! k = Db.rideBooking (St.db s) !! k).
    { split; [exact (life_core _ _ _ C4 (life_trans _ _ _ L2 L3))|]. intros k N.
      destruct C4 as (-> & _), O3 as [_ ->]. rewrite lookup_insert_ne by congruence.
      destruct C2 as (-> & _). reflexivity. }
    destruct u; exact K4.
Qed.

Lemma autoCancel_all (d0 : Db.t) (l : list RideBooking.t) (s : St.t) :
  Life d0 (St.db s) -> NoDup (map RideBooking.id l) -> Forall (waiting (St.db s)) l ->
  wp (for_each l autoCancelBooking) (fun s' _ => Life d0 (St.db s')) s.
Proof.
  revert s. induction l as [|b l IH]; intros s L N W; [exact L|].
  inversion N as [|? ? Nb Nl]; subst. inversion W as [|? ? Wb Wl]; subst.
  cbn [for_each]. apply wp_bind, (wp_mono _ _ _ _ (autoCancel_spec d0 b s L Wb)).
  intros s1 [u|e] [L1 O]; [|exact L1]. apply IH; [exact L1 | exact Nl|].
  apply Forall_forall. intros c Hc. rewrite Forall_forall in Wl. destruct (Wl c Hc) as [Ec Dc].
  split; [|exact Dc]. rewrite O; [exact Ec|]. intros Eq. apply Nb. rewrite <- Eq.
  apply list_elem_of_In, in_map, list_elem_of_In, Hc.
Qed.

Lemma safe_sweep : safe checkExpiredDeadlines.
Proof.
  unfold checkExpiredDeadlines. apply safe_bind; [solve_safe|]. intros l1.
  apply safe_bind.
  { intros d0. apply preserves_for_each. intros b. unfold handleExpiredDeadline, createNotification.
    safe_loop. apply safe_update_neutral. neutral. }
  intros _. apply safe_start. intros s G. wp_query. apply wp_run. intros s' r R.
  unfold findMany, get in R. injection R as <- <-.
  set (l := where_ _ _ _). wp_query. apply (wp_mono _ (fun s' _ => Life (St.db s) (St.db s'))).
  - apply autoCancel_all; [apply life_refl, G | |].
    + apply where_nodup. intros k b E. exact (proj1 (inv_booking_id _ (good_seats _ G) k b E)).
    + apply Forall_forall. intros b [P [k E]]%list_elem_of_In%where_elem.
      rewrite !andb_true_iff in P. destruct P as [[P _] _]. apply andb_prop in P as [P _].
      apply bool_decide_eq_true in P. split; [|exact P].
      rewrite (proj1 (inv_booking_id _ (good_seats _ G) k b E)). exact E.
  - intros s2 [u|] L2; exact L2.
Qed.

(** *** Webhooks *)

Lemma safe_failed (intent : PaymentIntent.t) : safe (applyPaymentIntentFailed intent).
Proof.
  unfold applyPaymentIntentFailed. destruct (truthy _) as [id|]; [|solve_safe].
  apply safe_bind; [solve_safe|]. intros sel.
  destruct (bool_decide (is_Some sel)); [solve_safe|].
  apply safe_bind; [|intros [b|]; unfold createNotification; solve_safe].
  apply safe_transaction. intros s G. pose proof (life_refl _ G) as L. unfold rideOf.
  wp_query. wp_query. destruct o as [b0|]; [|apply wp_ret, L].
  wp_query. wp_query; [exact I|]. wp_step; [apply wp_ret, L|].
  assert (T : RideBooking.status b0 = BookingStatus.PAYMENT_PENDING) by (apply dec_stable; assumption).
  wp_query. wp_query; [exact I|]. wp_query.
  rewrite (proj1 (inv_booking_id _ (good_seats _ G) id b0 E)).
  assert (r0 = b0) as -> by congruence.
  eapply (wp_release (St.db s) (St.db s) _ id b0 b0 _ r); try eassumption; [| reflexivity |].
  - solve_closes T.
  - intros s' x L' _. apply wp_ret, L'.
Qed.

Lemma safe_updateRefund (intentId : string) f (settled : bool) (amount : option num) :
  (forall b, neutral b (f b)) -> safe (updateRefund intentId f settled amount).
Proof.
  intros N. unfold updateRefund, rideOf. intros d0.
  repeat first
    [ apply safe_updateMany_neutral; exact N | apply quiet_safe; solve [auto with quiet] | preserve_step ].
Qed.

Lemma safe_webhook (event : StripeEvent.t) : safe (handleStripeWebhook event).
Proof.
  unfold handleStripeWebhook, processStripeEvent, applyChargeRefunded, applyRefundUpdated. intros d0.
  repeat first
    [ apply safe_apply | apply safe_failed | apply safe_updateRefund; neutral | preserve_step ].
  intros s L. apply (life_core d0 (St.db s)); [repeat split | exact L].
Qed.
End handlers.
