(* ===== verification/DriverRides.v ===== *)
(** * A driver's published rides

    Models [modules/publish-ride/publish-ride.service.ts] and what it reads of
    [driver-booking-stops.ts], [utils/booking-reference.ts] and [utils/ride-timezone.ts]:
    the rides a driver sees, with the statuses the listing itself moves, and the driver's
    start, completion and cancellation of a ride by the endpoints of publishing. *)

From Stdlib Require Import ZArith QArith Lia.
From stdpp Require Import base list option strings gmap.
From S2P Require Import Prelude JsNumber JsText Money Schema Store Seats Payments Time Gateway.
From S2P Require Import Rewards RideRequest Booking DriverBooking RideOps.

Open Scope Z_scope.

(** The offset of Europe/Tallinn from UTC at an instant, in milliseconds ([Intl]). *)
Class RideZone := { rideTimeOffset : Z -> Z }.

Module PublishRide.

Definition UNSTARTED_RIDE_STATUSES : list RideStatus.t :=
  [RideStatus.PUBLISHED; RideStatus.SCHEDULED; RideStatus.READY_TO_START].

Definition ACTIVE_BOOKING_STATUSES : list BookingStatus.t :=
  [BookingStatus.DRIVER_PENDING; BookingStatus.CONFIRMED; BookingStatus.WAITING_FOR_PICKUP;
   BookingStatus.DRIVER_ARRIVED; BookingStatus.OTP_PENDING; BookingStatus.ONBOARD; BookingStatus.DROP_PENDING;
   BookingStatus.IN_PROGRESS].

(** The bookings a driver is shown. *)
Definition LISTED_BOOKING_STATUSES : list BookingStatus.t :=
  [BookingStatus.DRIVER_PENDING; BookingStatus.CONFIRMED; BookingStatus.WAITING_FOR_PICKUP;
   BookingStatus.DRIVER_ARRIVED; BookingStatus.OTP_PENDING; BookingStatus.IN_PROGRESS; BookingStatus.ONBOARD;
   BookingStatus.DROP_PENDING; BookingStatus.DRIVER_DROPPED; BookingStatus.NO_SHOW;
   BookingStatus.DRIVER_MISSED_PICKUP; BookingStatus.COMPLETED; BookingStatus.CANCELLED; BookingStatus.DISPUTED].

(** ** What a driver is shown of a booking *)

Module Amounts.
Record t := {
  currency : string;
  riderTotalAmount : num;
  serviceFeeAmount : num;
  driverNetAmount : num;
  serviceFeePercent : option num;
}.
End Amounts.

Definition resolveDriverBookingAmounts (booking : RideBooking.t) (payment : option Payment.t) (rideCurrency : string)
    : Amounts.t :=
  match payment with
  | Some p =>
      let refunded := to_cents (Payment.refundedFareAmount p) + to_cents (Payment.refundedFeeAmount p) in
      {| Amounts.currency := default rideCurrency (truthy (Some (Payment.currency p)));
         Amounts.riderTotalAmount := of_cents (Z.max 0 (to_cents (Payment.amountTotal p) - refunded));
         Amounts.serviceFeeAmount := netPlatformFeeAmount p;
         Amounts.driverNetAmount := netFareAmount p;
         Amounts.serviceFeePercent := RideBooking.serviceFeePercent booking |}
  | None =>
      let serviceFeeAmount := default (num_of_Z 0) (RideBooking.serviceFeeAmount booking) in
      {| Amounts.currency := rideCurrency;
         Amounts.riderTotalAmount := RideBooking.totalPrice booking;
         Amounts.serviceFeeAmount := serviceFeeAmount;
         Amounts.driverNetAmount := of_cents (to_cents (RideBooking.totalPrice booking) - to_cents serviceFeeAmount);
         Amounts.serviceFeePercent := RideBooking.serviceFeePercent booking |}
  end.

Module BookingStop.
Record t := {
  address : string;
  placeId : option string;
  lat : option num;
  lng : option num;
  estimatedArrivalTime : option string;
  isFullRoute : bool;
}.
End BookingStop.

(** An end of the ride. *)
Module Endpoint.
Record t := { address : string; placeId : string; lat : num; lng : num; time : option string }.
End Endpoint.

Definition sameAddress (a b : string) : bool :=
  bool_decide (a <> EmptyString) && bool_decide (b <> EmptyString) &&
  bool_decide (toLowerCase (trim_string a) = toLowerCase (trim_string b)).

Definition resolveStop (waypoints : list RideWaypoint.t) (waypointId snapshotAddress : option string) (endpoint : Endpoint.t)
    : BookingStop.t :=
  let waypoint := match truthy waypointId with
                  | Some id => List.find (fun w => bool_decide (RideWaypoint.id w = id)) waypoints
                  | None => None
                  end in
  let atEndpoint :=
    {| BookingStop.address := Endpoint.address endpoint; BookingStop.placeId := Some (Endpoint.placeId endpoint);
       BookingStop.lat := Some (Endpoint.lat endpoint); BookingStop.lng := Some (Endpoint.lng endpoint);
       BookingStop.estimatedArrivalTime := Endpoint.time endpoint; BookingStop.isFullRoute := true |} in
  match waypoint, truthy snapshotAddress with
  | Some w, snapshot =>
      {| BookingStop.address := default (RideWaypoint.address w) snapshot;
         BookingStop.placeId := Some (RideWaypoint.placeId w); BookingStop.lat := Some (RideWaypoint.lat w);
         BookingStop.lng := Some (RideWaypoint.lng w);
         BookingStop.estimatedArrivalTime := RideWaypoint.estimatedArrivalTime w;
         BookingStop.isFullRoute := bool_decide (RideWaypoint.waypointType w <> WaypointType.STOPOVER) |}
  | None, None => atEndpoint
  | None, Some snapshot =>
      if sameAddress snapshot (Endpoint.address endpoint) then atEndpoint
      else {| BookingStop.address := snapshot; BookingStop.placeId := None; BookingStop.lat := None;
              BookingStop.lng := None; BookingStop.estimatedArrivalTime := None; BookingStop.isFullRoute := false |}
  end.

(** Pickup and drop-off. *)
Definition resolveBookingStops (ride : Ride.t) (waypoints : list RideWaypoint.t) (booking : RideBooking.t)
    : BookingStop.t * BookingStop.t :=
  let destinationArrival :=
    match List.find (fun w => bool_decide (RideWaypoint.waypointType w = WaypointType.DROPOFF)) waypoints with
    | Some w => RideWaypoint.estimatedArrivalTime w
    | None => None
    end in
  (resolveStop waypoints (RideBooking.pickupWaypointId booking) (RideBooking.pickupAddress booking)
     {| Endpoint.address := Ride.originAddress ride; Endpoint.placeId := Ride.originPlaceId ride;
        Endpoint.lat := Ride.originLat ride; Endpoint.lng := Ride.originLng ride;
        Endpoint.time := Some (Ride.departureTime ride) |},
   resolveStop waypoints (RideBooking.dropoffWaypointId booking) (RideBooking.dropoffAddress booking)
     {| Endpoint.address := Ride.destinationAddress ride; Endpoint.placeId := Ride.destinationPlaceId ride;
        Endpoint.lat := Ride.destinationLat ride; Endpoint.lng := Ride.destinationLng ride;
        Endpoint.time := destinationArrival |}).

(** [bookingId.replace(/[^a-zA-Z0-9]/g, '').toUpperCase().slice(-6)] *)
Definition is_alphanumeric (c : Ascii.ascii) : bool :=
  let n := Ascii.nat_of_ascii c in
  is_digit c || ((65 <=? n)%nat && (n <=? 90)%nat) || ((97 <=? n)%nat && (n <=? 122)%nat).
Definition formatBookingReference (bookingId : string) : string :=
  let compactId := List.filter is_alphanumeric (chars bookingId) in
  "DLV-" +:+ toUpperCase (string_of (drop (length compactId - 6) compactId)).

Module DecisionDeadline.
Record t := { deadlineAt : Z; timeRemainingMs : Z; timeRemainingSeconds : Z; isExpired : bool }.
End DecisionDeadline.

(** The booking without its hidden columns, and what is added to it. *)
Module BookingView.
Record t := {
  booking : RideBooking.t;
  bookingReference : string;
  amounts : Amounts.t;
  decisionDeadline : option DecisionDeadline.t;
  noShowAvailableAt : option Z;
  pickupLocation : BookingStop.t;
  dropoffLocation : BookingStop.t;
}.
End BookingView.

Module RideView.
Record t := { ride : Ride.t; waypoints : list RideWaypoint.t; bookedSeats : Z; bookings : list BookingView.t }.
End RideView.

Module RidePage.
Record t := { rides : list RideView.t; page : Z; limit : Z; total : Z; totalPages : Z }.
End RidePage.

Section rides.
Context `{Env} `{RideZone}.

Definition decisionDeadline (booking : RideBooking.t) : option DecisionDeadline.t :=
  match RideBooking.status booking, RideBooking.driverDecisionDeadlineAt booking with
  | BookingStatus.DRIVER_PENDING, Some deadline =>
      let timeRemainingMs := deadline - now in
      Some {| DecisionDeadline.deadlineAt := deadline;
              DecisionDeadline.timeRemainingMs := Z.max 0 timeRemainingMs;
              DecisionDeadline.timeRemainingSeconds := Z.max 0 (timeRemainingMs / 1000);
              DecisionDeadline.isExpired := timeRemainingMs <=? 0 |}
  | _, _ => None
  end.

Definition enhanceBooking (ride : Ride.t) (waypoints : list RideWaypoint.t) (payment : option Payment.t)
    (booking : RideBooking.t) : BookingView.t :=
  let '(pickup, dropoff) := resolveBookingStops ride waypoints booking in
  {| BookingView.booking := booking;
     BookingView.bookingReference := formatBookingReference (RideBooking.id booking);
     BookingView.amounts := resolveDriverBookingAmounts booking payment (Ride.currency ride);
     BookingView.decisionDeadline := decisionDeadline booking;
     BookingView.noShowAvailableAt :=
       if decide (RideBooking.status booking = BookingStatus.DRIVER_ARRIVED)
       then RideOps.noShowAvailableAt (RideBooking.waitTimerStartedAt booking) else None;
     BookingView.pickupLocation := pickup; BookingView.dropoffLocation := dropoff |}.

(** A ride with its waypoints and the listed bookings, the latest first. *)
Definition viewRide (d : Db.t) (ride : Ride.t) : RideView.t :=
  let waypoints := sort_by RideWaypoint.orderIndex
    (where_ prisma.rideWaypoint (fun w => bool_decide (RideWaypoint.rideId w = Ride.id ride)) d) in
  let bookings := sort_desc RideBooking.createdAt
    (where_ prisma.rideBooking (fun b => bool_decide (RideBooking.rideId b = Ride.id ride) &&
                                         has_status LISTED_BOOKING_STATUSES b) d) in
  let paymentOf b := head (where_ prisma.payment (fun p => bool_decide (Payment.bookingId p = RideBooking.id b)) d) in
  {| RideView.ride := ride; RideView.waypoints := waypoints;
     RideView.bookedSeats := sumReservedSeats
       (List.filter (fun b => negb (bool_decide (RideBooking.status b = BookingStatus.CANCELLED))) bookings);
     RideView.bookings := map (fun b => enhanceBooking ride waypoints (paymentOf b) b) bookings |}.

(** ** The listing moves statuses *)

(** [combineDepartureDateTimeInRideTimezone]: the clock time is taken as Tallinn's. *)
Definition combineDepartureDateTimeInRideTimezone (departureDate : Z) (departureTime : string) : Res Z :=
  match clock_time departureTime with
  | None => Err "INVALID_RIDE_DEPARTURE_TIME"
  | Some (hours, minutes) =>
      let rideDay := dayOf (departureDate + rideTimeOffset departureDate) in
      let utcGuess := rideDay * msPerDay + hours * 3600000 + minutes * 60000 in
      Ok (utcGuess - rideTimeOffset utcGuess)
  end.

Definition isUnstarted (statuses : list RideStatus.t) (driverId : string) (r : Ride.t) : bool :=
  bool_decide (Ride.driverId r = driverId) && bool_decide (Ride.status r ∈ statuses) &&
  bool_decide (Ride.actualStartTime r = None).

Definition reconcileRide (driverId : string) (candidate : Ride.t * list BookingStatus.t) : H unit :=
  let '(ride, statuses) := candidate in
  match combineDepartureDateTimeInRideTimezone (Ride.departureDate ride) (Ride.departureTime ride) with
  | Err _ => mret tt
  | Ok departureAt =>
      if now <? departureAt then mret tt
      else
        let autoCloseAt := departureAt + RIDE_OVERDUE_CANCEL_AFTER_MINUTES * 60 * 1000 in
        let hasActiveBookings := existsb (fun st => bool_decide (st ∈ ACTIVE_BOOKING_STATUSES)) statuses in
        if (autoCloseAt <=? now) && negb hasActiveBookings then
          updateManyId prisma.ride (Ride.id ride) (isUnstarted UNSTARTED_RIDE_STATUSES driverId)
            (fun r => r <| Ride.status := RideStatus.EXPIRED |>);; mret tt
        else if bool_decide (Ride.status ride ∈ [RideStatus.PUBLISHED; RideStatus.SCHEDULED]) then
          updateManyId prisma.ride (Ride.id ride) (isUnstarted [RideStatus.PUBLISHED; RideStatus.SCHEDULED] driverId)
            (fun r => r <| Ride.status := RideStatus.READY_TO_START |>);; mret tt
        else mret tt
  end.

Definition reconcileCandidates (driverId : string) (d : Db.t) : list (Ride.t * list BookingStatus.t) :=
  map (fun r => (r, map RideBooking.status
                      (where_ prisma.rideBooking (fun b => bool_decide (RideBooking.rideId b = Ride.id r)) d)))
    (where_ prisma.ride (fun r => isUnstarted UNSTARTED_RIDE_STATUSES driverId r && (Ride.departureDate r <=? now)) d).

Definition reconcileDriverRideListStatuses (driverId : string) : H unit :=
  candidates ← get (fun s => reconcileCandidates driverId (St.db s));
  promise_all (map (reconcileRide driverId) candidates).

(** A ride made for a request is listed once its offer was accepted. *)
Definition isListedRide (driverId : string) (statuses : list RideStatus.t) (d : Db.t) (r : Ride.t) : bool :=
  bool_decide (Ride.driverId r = driverId) &&
  match offerOfRide d (Ride.id r) with
  | Some o => bool_decide (RideRequestOffer.status o = "ACCEPTED"%string)
  | None => true
  end &&
  (bool_decide (statuses = []) || bool_decide (Ride.status r ∈ statuses)).

(** [page] and [limit] are positive: the query was validated. *)
Definition getUserRides (driverId : string) (statuses : list RideStatus.t) (page limit : Z) : H RidePage.t :=
  reconcileDriverRideListStatuses driverId;;
  d ← get St.db;
  let all := sort_desc Ride.createdAt (where_ prisma.ride (isListedRide driverId statuses d) d) in
  let total := Z.of_nat (length all) in
  mret {| RidePage.rides := map (viewRide d) (take (Z.to_nat limit) (drop (Z.to_nat ((page - 1) * limit)) all));
          RidePage.page := page; RidePage.limit := limit; RidePage.total := total;
          RidePage.totalPages := (total + limit - 1) / limit |}.

(** Whether the driver has rated each passenger is read from a table that is not modelled. *)
Definition getRideById (driverId rideId : string) : H RideView.t :=
  ride ← findById prisma.ride rideId (fun r => bool_decide (Ride.driverId r = driverId));
  match ride with
  | None => throw "RIDE_NOT_FOUND"
  | Some ride => d ← get St.db; mret (viewRide d ride)
  end.

(** ** Cancelling a ride *)

Definition CANCELLED_WITH_RIDE : list BookingStatus.t := [BookingStatus.DRIVER_PENDING; BookingStatus.CONFIRMED].

Definition ofRide (rideId : string) (statuses : list BookingStatus.t) (b : RideBooking.t) : bool :=
  bool_decide (RideBooking.rideId b = rideId) && has_status statuses b.

Definition cancelledWithRide (b : RideBooking.t) : RideBooking.t :=
  b <| RideBooking.status := BookingStatus.CANCELLED |> <| RideBooking.cancelledAt := Some now |>
    <| RideBooking.cancelledByRole := Some "DRIVER"%string |>
    <| RideBooking.cancellationReason := Some "DRIVER_CANCELLED_RIDE"%string |>
    <| RideBooking.refundPercent := Some (num_of_Z 100) |> <| RideBooking.seatsReservedAt := None |>.

(** [Some] of the intent when the booking was paid for. *)
Definition capturedIntent (b : RideBooking.t) : option string :=
  match RideBooking.paymentCapturedAt b with
  | Some _ => truthy (RideBooking.stripePaymentIntentId b)
  | None => None
  end.

Definition refundWithRide (booking : RideBooking.t) : H unit :=
  match capturedIntent booking with
  | Some intentId =>
      refundPaymentIntent intentId (toMinorCurrencyUnits (paidAmount booking));;
      update prisma.rideBooking (RideBooking.id booking) (fun b => b <| RideBooking.refundedAt := Some now |>);;
      mret tt
  | None => mret tt
  end.

Definition cancelRideTransaction (rideId : string) (activeBookings : list RideBooking.t) (bypassPayment : bool) : H unit :=
  update prisma.ride rideId (fun r => r <| Ride.status := RideStatus.CANCELLED |>);;
  updateMany prisma.rideBooking (ofRide rideId CANCELLED_WITH_RIDE) cancelledWithRide;;
  for_each activeBookings (fun booking =>
    update prisma.rideBooking (RideBooking.id booking) (fun b => b <| RideBooking.refundAmount := Some (paidAmount booking) |>);;
    mret tt);;
  when (negb bypassPayment) (for_each activeBookings refundWithRide).

Definition cancelRide (driverId rideId : string) : H unit :=
  ride ← findById prisma.ride rideId (fun r =>
    bool_decide (Ride.driverId r = driverId) && bool_decide (Ride.status r = RideStatus.PUBLISHED));
  match ride with
  | None => throw "RIDE_NOT_FOUND_OR_CANNOT_CANCEL"
  | Some ride =>
      activeBookings ← findMany prisma.rideBooking (ofRide rideId CANCELLED_WITH_RIDE);
      bypassPayment ← isBypassBookingPaymentMode;
      transaction (cancelRideTransaction rideId activeBookings bypassPayment);;
      for_each activeBookings (fun booking =>
        when ((bypassPayment || bool_decide (is_Some (capturedIntent booking))) && nlt (num_of_Z 0) (paidAmount booking))
          (attempt (markBookingPaymentRefunded (RideBooking.id booking) driverId (Some (paidAmount booking)))));;
      promise_all (map (fun booking =>
        createNotification (RideBooking.passengerId booking) "booking.cancelled.driver_cancelled_ride") activeBookings)
  end.

(** ** Starting and completing a ride *)

(** [None] is the invalid date, before which nothing is too early. *)
Definition startOf (ride : Ride.t) : option Z :=
  match clock_pieces (Ride.departureTime ride) with
  | (Some hours, Some minutes) =>
      Some (setUTCHours (Ride.departureDate ride) (date_of_num hours) (date_of_num minutes))
  | _ => None
  end.

Definition startRide (driverId rideId : string) : H Ride.t :=
  ride ← findById prisma.ride rideId (fun r =>
    bool_decide (Ride.driverId r = driverId) && bool_decide (Ride.status r = RideStatus.PUBLISHED));
  match ride with
  | None => throw "RIDE_NOT_FOUND_OR_CANNOT_START"
  | Some ride =>
      (if ALLOW_RIDE_SIMULATION then mret tt
       else throw_if match startOf ride with
                     | Some departureAt => isRideStartTooEarly departureAt
                     | None => false
                     end "RIDE_TOO_EARLY");;
      transaction (
        updatedRide ← update prisma.ride rideId (fun r =>
          r <| Ride.status := RideStatus.IN_PROGRESS |> <| Ride.actualStartTime := Some now |>
            <| Ride.currentStopSequence := Some 0 |>);
        updateMany prisma.rideBooking (ofRide rideId [BookingStatus.CONFIRMED])
          (fun b => b <| RideBooking.status := BookingStatus.WAITING_FOR_PICKUP |>);;
        mret updatedRide)
  end.

Definition completeRide (driverId rideId : string) : H unit :=
  ride ← findById prisma.ride rideId (fun r =>
    bool_decide (Ride.driverId r = driverId) && bool_decide (Ride.status r = RideStatus.IN_PROGRESS));
  match ride with
  | None => throw "RIDE_NOT_FOUND_OR_CANNOT_COMPLETE"
  | Some _ =>
      transaction (
        update prisma.ride rideId (fun r => r <| Ride.status := RideStatus.COMPLETED |>);;
        updateMany prisma.rideBooking (ofRide rideId [BookingStatus.IN_PROGRESS])
          (fun b => b <| RideBooking.status := BookingStatus.COMPLETED |>);;
        mret tt);;
      awardRideCompletionRewards rideId;;
      completedBookings ← findMany prisma.rideBooking (ofRide rideId [BookingStatus.COMPLETED]);
      promise_all (map (fun b => createNotification (RideBooking.passengerId b) "ride.completed") completedBookings);;
      promise_all (map (fun b => awardBookingCompletionRewards (RideBooking.id b);; mret tt) completedBookings)
  end.
End rides.
End PublishRide.
