(* ===== verification/Search.v ===== *)
(** * Searching rides

    Models [modules/search-ride/search-ride.service.ts]: the two searches, the list of
    available rides, and the details of a ride, opened by its id or by the token of a
    search result.  Query parameters are parsed: [Number(x) || default] is the
    caller's.  [Intl]'s time zone is [RideZone]. *)

From Stdlib Require Import ZArith QArith Lia.
From stdpp Require Import base list option strings gmap.
From S2P Require Import Prelude JsNumber JsText Money Schema Store Seats Time Segment ViewToken Pricing.
From S2P Require Import Gateway Rewards RideRequest Booking RideOps Route DriverRides.

Open Scope Z_scope.

Module Search.

Definition RADIUS_KM : num := num_of_Z 10.
Definition BASE_SCORE : num := num_of_Z 1000.
Definition DISTANCE_PENALTY_FACTOR : num := num_of_Z 50.
Definition EXACT_ORIGIN_DEST_BONUS : num := num_of_Z 100.
Definition PICKUP_AT_ORIGIN_BONUS : num := num_of_Z 20.
Definition DROP_AT_DEST_BONUS : num := num_of_Z 20.
Definition ALT_ROUTE_PENALTY : num := num_of_Z 30.

Definition activeBookingStatuses : list BookingStatus.t :=
  [BookingStatus.PAYMENT_PENDING; BookingStatus.DRIVER_PENDING; BookingStatus.CONFIRMED;
   BookingStatus.WAITING_FOR_PICKUP; BookingStatus.DRIVER_ARRIVED; BookingStatus.OTP_PENDING;
   BookingStatus.IN_PROGRESS; BookingStatus.ONBOARD; BookingStatus.DROP_PENDING; BookingStatus.DRIVER_DROPPED;
   BookingStatus.COMPLETED].

Definition rideDetailViewerBookingStatuses : list BookingStatus.t :=
  activeBookingStatuses ++
  [BookingStatus.CANCELLED; BookingStatus.NO_SHOW; BookingStatus.DRIVER_MISSED_PICKUP; BookingStatus.DISPUTED].

(** ** Times *)

Inductive DeparturePeriod := morning | afternoon | evening.

(** Clock times are compared as text. *)
Definition departurePeriodFilter (period : DeparturePeriod) (time : string) : bool :=
  match period with
  | morning => String.leb "05:00" time && String.ltb time "12:00"
  | afternoon => String.leb "12:00" time && String.ltb time "17:00"
  | evening => String.leb "17:00" time && String.leb time "23:59"
  end.

(** ** Matching a ride *)

Inductive PointType := ORIGIN | WAYPOINT | DEST.

Module DPoint.
Record t := { index : Z; waypointId : option string; lat : num; lng : num; address : string; pointType : PointType }.
End DPoint.

Inductive RideMatchType := COND_1 | COND_2 | COND_3 | COND_4 | ALT_ROUTE.
#[global] Instance RideMatchType_eq_dec : EqDecision RideMatchType.
Proof. solve_decision. Defined.
#[global] Instance PointType_eq_dec : EqDecision PointType.
Proof. solve_decision. Defined.

Module Match.
Record t := {
  pickupIndex : Z;
  dropIndex : Z;
  pickupMatchedPoint : PointType;
  dropMatchedPoint : PointType;
  pickupDistanceKm : num;
  dropDistanceKm : num;
  matchType : RideMatchType;
  score : Z;
  pickupRef : SegmentPointRef;
  dropRef : SegmentPointRef;
}.
End Match.

Definition round2 (n : num) : num := ndiv (num_of_Z (math_round (nmul n (num_of_Z 100)))) (num_of_Z 100).

Definition toSegmentPointRef (point : DPoint.t) : option SegmentPointRef :=
  match DPoint.pointType point with
  | ORIGIN => Some origin
  | DEST => Some destination
  | WAYPOINT => waypoint <$> truthy (DPoint.waypointId point)
  end.

Fixpoint waypointDPoints (ws : list RideWaypoint.t) (i : Z) : list DPoint.t :=
  match ws with
  | [] => []
  | w :: ws' =>
      {| DPoint.index := i; DPoint.waypointId := Some (RideWaypoint.id w); DPoint.lat := RideWaypoint.lat w;
         DPoint.lng := RideWaypoint.lng w; DPoint.address := RideWaypoint.address w; DPoint.pointType := WAYPOINT |}
      :: waypointDPoints ws' (i + 1)
  end.

Definition buildDPoints (ride : SegmentRide) : list DPoint.t :=
  let r := seg_ride ride in
  let ws := sortedWaypoints ride in
  [ {| DPoint.index := 0; DPoint.waypointId := None; DPoint.lat := Ride.originLat r; DPoint.lng := Ride.originLng r;
       DPoint.address := Ride.originAddress r; DPoint.pointType := ORIGIN |} ] ++
  waypointDPoints ws 1 ++
  [ {| DPoint.index := Z.of_nat (length ws) + 1; DPoint.waypointId := None; DPoint.lat := Ride.destinationLat r;
       DPoint.lng := Ride.destinationLng r; DPoint.address := Ride.destinationAddress r; DPoint.pointType := DEST |} ].

(** The types are those of the points at the two indices. *)
Definition classifyMatch (pickupIdx dropIdx lastIdx : Z) (pickupType dropType : PointType) : RideMatchType :=
  if (pickupIdx =? 0) && (dropIdx =? lastIdx) then COND_1
  else if bool_decide (pickupType = WAYPOINT) && (dropIdx =? lastIdx) then COND_4
  else if bool_decide (pickupType = WAYPOINT) && bool_decide (dropType = WAYPOINT) then COND_3
  else COND_2.

Definition computeScore (pickupDistKm dropDistKm : num) (pickupIdx dropIdx lastIdx : Z) (matchType : RideMatchType) : Z :=
  let score := nsub BASE_SCORE (nmul pickupDistKm DISTANCE_PENALTY_FACTOR) in
  let score := nsub score (nmul dropDistKm DISTANCE_PENALTY_FACTOR) in
  let score := if (pickupIdx =? 0) && (dropIdx =? lastIdx) then nadd score EXACT_ORIGIN_DEST_BONUS else score in
  let score := if pickupIdx =? 0 then nadd score PICKUP_AT_ORIGIN_BONUS else score in
  let score := if dropIdx =? lastIdx then nadd score DROP_AT_DEST_BONUS else score in
  let score := if decide (matchType = ALT_ROUTE) then nsub score ALT_ROUTE_PENALTY else score in
  math_round (nmax (num_of_Z 0) score).

Section matching.
Context `{Env} `{PolylineCodec}.

Definition haversine : LatLng.t -> LatLng.t -> num := Polyline.calculateHaversineDistance.

Definition dPointLocation (p : DPoint.t) : LatLng.t := {| LatLng.lat := DPoint.lat p; LatLng.lng := DPoint.lng p |}.

(** The points within the radius, with their positions and distances. *)
Fixpoint matchesFrom (rider : LatLng.t) (radiusKm : num) (dPoints : list DPoint.t) (idx : Z) : list (Z * DPoint.t * num) :=
  match dPoints with
  | [] => []
  | p :: rest =>
      let d := haversine rider (dPointLocation p) in
      if nle d radiusKm then (idx, p, d) :: matchesFrom rider radiusKm rest (idx + 1)
      else matchesFrom rider radiusKm rest (idx + 1)
  end.

(** [bestCost] and [bestMatch]; a cost of [None] is [Infinity]. *)
Definition considerPair (lastIdx : Z) (best : option num * option Match.t) (pair : (Z * DPoint.t * num) * (Z * DPoint.t * num))
    : option num * option Match.t :=
  let '((pickupIdx, pickupPoint, pickupDistance), (dropIdx, dropPoint, dropDistance)) := pair in
  let cost := nadd pickupDistance dropDistance in
  if (pickupIdx <? dropIdx) && Polyline.closer cost best.1 then
    let matchType := classifyMatch pickupIdx dropIdx lastIdx (DPoint.pointType pickupPoint) (DPoint.pointType dropPoint) in
    let score := computeScore pickupDistance dropDistance pickupIdx dropIdx lastIdx matchType in
    match toSegmentPointRef pickupPoint, toSegmentPointRef dropPoint with
    | Some pickupRef, Some dropRef =>
        (Some cost, Some {| Match.pickupIndex := pickupIdx; Match.dropIndex := dropIdx;
          Match.pickupMatchedPoint := DPoint.pointType pickupPoint; Match.dropMatchedPoint := DPoint.pointType dropPoint;
          Match.pickupDistanceKm := round2 pickupDistance; Match.dropDistanceKm := round2 dropDistance;
          Match.matchType := matchType; Match.score := score; Match.pickupRef := pickupRef; Match.dropRef := dropRef |})
    | _, _ => (Some cost, best.2)
    end
  else best.

(** The two nested loops: every pickup with every drop-off. *)
Definition bestPair (riderOrigin riderDest : LatLng.t) (radiusKm : num) (dPoints : list DPoint.t) : option Match.t :=
  let originMatches := matchesFrom riderOrigin radiusKm dPoints 0 in
  let destMatches := matchesFrom riderDest radiusKm dPoints 0 in
  (fold_left (considerPair (Z.of_nat (length dPoints) - 1))
     (flat_map (fun pickup => map (pair pickup) destMatches) originMatches) (None, None)).2.

Definition evaluateAltRoute (riderOrigin riderDest : LatLng.t) (driverPolyline : string) (radiusKm : num) : option Match.t :=
  match Polyline.decodePolyline driverPolyline with
  | [] => None
  | routePoints =>
      let originNearest := Polyline.findNearestPointOnRoute riderOrigin routePoints in
      let destNearest := Polyline.findNearestPointOnRoute riderDest routePoints in
      match Polyline.Nearest.distance originNearest, Polyline.Nearest.distance destNearest with
      | Some originDistance, Some destDistance =>
          if nle originDistance radiusKm && nle destDistance radiusKm &&
             (Polyline.Nearest.index originNearest <? Polyline.Nearest.index destNearest)%nat
          then Some {| Match.pickupIndex := Z.of_nat (Polyline.Nearest.index originNearest);
                       Match.dropIndex := Z.of_nat (Polyline.Nearest.index destNearest);
                       Match.pickupMatchedPoint := WAYPOINT; Match.dropMatchedPoint := WAYPOINT;
                       Match.pickupDistanceKm := round2 originDistance; Match.dropDistanceKm := round2 destDistance;
                       Match.matchType := ALT_ROUTE;
                       Match.score := computeScore originDistance destDistance (-1) (-1) (-1) ALT_ROUTE;
                       Match.pickupRef := origin; Match.dropRef := destination |}
          else None
      | _, _ => None
      end
  end.
End matching.

(** ** What a search shows *)

(** The columns of a vehicle that are shown. *)
Module VehicleCard.
Record t := {
  id : string;
  brand : option string;
  model_num : option string;
  model_name : option string;
  type : option VehicleType.t;
  color : option string;
  year : option Z;
  imageUrl : option string;
  isVerified : bool;
}.
End VehicleCard.

Definition mapRideVehicle (vehicle : option Vehicle.t) : option VehicleCard.t :=
  (fun v => {| VehicleCard.id := Vehicle.id v; VehicleCard.brand := Vehicle.brand v;
               VehicleCard.model_num := Vehicle.model_num v; VehicleCard.model_name := Vehicle.model_name v;
               VehicleCard.type := Vehicle.type v; VehicleCard.color := Vehicle.color v;
               VehicleCard.year := Vehicle.year v; VehicleCard.imageUrl := Vehicle.imageUrl v;
               VehicleCard.isVerified := Vehicle.isVerified v |}) <$> vehicle.

Module TrustStats.
Record t := { rating : option num; ratingCount : Z; successfulPublishedRides : Z; successfulCompletedRides : Z }.
End TrustStats.

(** The statistics of one driver; the source loads those of all at once. *)
Definition driverTrustStats (d : Db.t) (driverId : string) : TrustStats.t :=
  let row := head (where_ prisma.userRatingStats (fun r => bool_decide (UserRatingStats.userId r = driverId)) d) in
  {| TrustStats.rating := (fun r => number_to_fixed2 (UserRatingStats.averageRating r)) <$> row;
     TrustStats.ratingCount := default 0 (UserRatingStats.totalRatings <$> row);
     TrustStats.successfulPublishedRides := Z.of_nat (length (where_ prisma.ride (fun r =>
       bool_decide (Ride.driverId r = driverId) && bool_decide (Ride.status r = RideStatus.COMPLETED)) d));
     TrustStats.successfulCompletedRides := Z.of_nat (length (where_ prisma.rideBooking (fun b =>
       bool_decide (RideBooking.passengerId b = driverId) && bool_decide (RideBooking.status b = BookingStatus.COMPLETED)) d)) |}.

Module DriverCard.
Record t := { id : string; firstName : option string; avatarUrl : option string; isVerified : bool; trust : TrustStats.t }.
End DriverCard.

(** The driver on a details page: [id], [firstName] and [avatarUrl]. *)
Definition detailsDriver (d : Db.t) (driverId : string) : string * option string * option string :=
  (driverId, Db.user d !! driverId ≫= User.firstName, Db.user d !! driverId ≫= User.avatarUrl).

Definition driverCard (d : Db.t) (driverId : string) : DriverCard.t :=
  let driver := Db.user d !! driverId in
  {| DriverCard.id := driverId;
     DriverCard.firstName := driver ≫= User.firstName;
     DriverCard.avatarUrl := driver ≫= User.avatarUrl;
     DriverCard.isVerified := default false (User.isVerified <$> driver);
     DriverCard.trust := driverTrustStats d driverId |}.

Definition present (v : Vehicle.t) : bool := bool_decide (Vehicle.deletedAt v = None).

Definition latestVehicleOf (d : Db.t) (driverId : string) : option Vehicle.t :=
  head (sort_desc Vehicle.createdAt
    (where_ prisma.vehicle (fun v => bool_decide (Vehicle.userId v = driverId) && present v) d)).

Definition vehicleById (d : Db.t) (vehicleId : string) : option Vehicle.t :=
  match Db.vehicle d !! vehicleId with
  | Some v => if present v then Some v else None
  | None => None
  end.

(** In lists a ride with a vehicle shows that one or none. *)
Definition listedVehicle (d : Db.t) (ride : Ride.t) : option Vehicle.t :=
  match truthy (Ride.vehicleId ride) with
  | Some vehicleId => vehicleById d vehicleId
  | None => latestVehicleOf d (Ride.driverId ride)
  end.

(** In the details the driver's latest one stands in. *)
Definition shownVehicle (d : Db.t) (ride : Ride.t) : option Vehicle.t :=
  match truthy (Ride.vehicleId ride) ≫= vehicleById d with
  | Some v => Some v
  | None => latestVehicleOf d (Ride.driverId ride)
  end.

Definition bookingsOf (d : Db.t) (rideId : string) (statuses : list BookingStatus.t) : list RideBooking.t :=
  where_ prisma.rideBooking (fun b => bool_decide (RideBooking.rideId b = rideId) && has_status statuses b) d.

(** The bookings whose columns the viewer is shown. *)
Definition mapVisibleRideBookings (bookings : list RideBooking.t) (driverId : string) (viewerId : option string)
    : list RideBooking.t :=
  match truthy viewerId with
  | None => []
  | Some viewer =>
      if bool_decide (viewer = driverId) then bookings
      else List.filter (fun b => bool_decide (RideBooking.passengerId b = viewer)) bookings
  end.

(** [{ riderTotalPerSeat, serviceFeePerSeat }] *)
Definition riderSeatAmounts (basePricePerSeat : num) (currency : string) (feeTerms : num * num) : num * num :=
  let quote := calculateBookingPrice {|
    PriceInput.basePricePerSeat := basePricePerSeat; PriceInput.seatsBooked := 1;
    PriceInput.currency := Some currency; PriceInput.serviceFeePercent := feeTerms.1;
    PriceInput.serviceFeeFlat := feeTerms.2 |} in
  (PriceBreakdown.totalPrice quote, PriceBreakdown.serviceFee quote).

Definition termsPair (t : ServiceFeeTerms.t) : num * num :=
  (ServiceFeeTerms.serviceFeePercent t, ServiceFeeTerms.serviceFeeFlat t).

Definition feeTermsOf (terms : gmap string ServiceFeeTerms.t) (rideId : string) : num * num :=
  match terms !! rideId with Some t => termsPair t | None => (num_of_Z 0, num_of_Z 0) end.

Definition waypointsOf (d : Db.t) (rideId : string) : list RideWaypoint.t :=
  sort_by RideWaypoint.orderIndex (where_ prisma.rideWaypoint (fun w => bool_decide (RideWaypoint.rideId w = rideId)) d).

Definition withWaypoints (d : Db.t) (ride : Ride.t) : SegmentRide :=
  {| seg_ride := ride; seg_waypoints := waypointsOf d (Ride.id ride) |}.

Inductive SortBy := price | departure | distance.
#[global] Instance SortBy_eq_dec : EqDecision SortBy.
Proof. solve_decision. Defined.

(** ** The rider's query *)

Module Query.
Record t := {
  originLat : num;
  originLng : num;
  destinationLat : num;
  destinationLng : num;
  departureDate : option Z;
  departureTime : option string;
  departurePeriod : option DeparturePeriod;
  seatsRequired : Z;
  maxPrice : option num;
  femaleOnly : bool;
  sortBy : SortBy;
  ascending : bool;
  page : Z;
  limit : Z;
  radiusKm : num;
  userRoutePolyline : option string;
  includeAlternates : bool;
}.
End Query.

(** ** Results

    [distances] are those of the rider's ends to the ride's, where they are shown; [ride] stands for the columns of the ride that are copied unchanged. *)
Module SearchResult.
Record t := {
  ride : Ride.t;
  driver : DriverCard.t;
  vehicle : option VehicleCard.t;
  bookings : list RideBooking.t;
  riderTotalPerSeat : num;
  serviceFeePerSeat : num;
  distances : option (num * num);
  hasActiveBooking : bool;
}.
End SearchResult.

Module EnhancedResult.
Record t := {
  ride : Ride.t;
  driver : DriverCard.t;
  vehicle : option VehicleCard.t;
  bookings : list RideBooking.t;
  originPlaceId : string;
  originAddress : string;
  originLat : num;
  originLng : num;
  destinationPlaceId : string;
  destinationAddress : string;
  destinationLat : num;
  destinationLng : num;
  routeDistanceMeters : option Z;
  routeDurationSeconds : option Z;
  departureTime : string;
  basePricePerSeat : num;
  riderTotalPerSeat : num;
  serviceFeePerSeat : num;
  distanceFromOrigin : num;
  distanceFromDestination : num;
  matchType : RideMatchType;
  score : Z;
  pickupMatchedPoint : PointType;
  dropMatchedPoint : PointType;
  pickupDistanceKm : num;
  dropDistanceKm : num;
  relevantWaypoints : list RideWaypoint.t;
  isSegmentView : bool;
  segmentId : option string;
  segment : option SegmentView.t;
  hasActiveBooking : bool;
}.
End EnhancedResult.

(** What a details page shows; [segment] is the part the token stands for. *)
Module RideDetails.
Record t := {
  ride : Ride.t;
  driver : string * option string * option string;
  vehicle : option VehicleCard.t;
  bookings : list RideBooking.t;
  waypoints : list RideWaypoint.t;
  originAddress : string;
  destinationAddress : string;
  routeDistanceMeters : option Z;
  routeDurationSeconds : option Z;
  departureTime : string;
  basePricePerSeat : num;
  riderTotalPerSeat : num;
  serviceFeePerSeat : num;
  segment : option SegmentView.t;
  segmentId : option string;
}.
End RideDetails.

Module Page.
Record t (A : Type) := { items : list A; page : Z; limit : Z; total : Z; totalPages : Z }.
Arguments items {A}. Arguments page {A}. Arguments limit {A}. Arguments total {A}. Arguments totalPages {A}.
End Page.

(** [list.slice(skip, skip + limit)] of a positive page *)
Definition slice_page {A} (page limit : Z) (l : list A) : list A :=
  take (Z.to_nat limit) (drop (Z.to_nat ((page - 1) * limit)) l).

(** [Math.ceil(total / limit)] *)
Definition pageCount (total limit : Z) : Z := math_ceil (ndiv (num_of_Z total) (num_of_Z limit)).

Section search.
Context `{Env} `{Codec} `{RideZone} `{PolylineCodec}.

(** The instant of a departure; formatting the invalid date of a time that is none throws. *)
Definition combineDepartureDateTimeInRideTimezone (departureDate : Z) (departureTime : string) : Res Z :=
  match rideStart departureDate departureTime with
  | Some utcGuess => Ok (utcGuess - rideTimeOffset utcGuess)
  | None => Err "RangeError"
  end.

Definition isFutureRideDeparture (departureDate : Z) (departureTime : string) : Res bool :=
  match combineDepartureDateTimeInRideTimezone departureDate departureTime with
  | Ok t => Ok (now <? t)
  | Err e => Err e
  end.

Definition isFutureRide (r : Ride.t) : Res bool := isFutureRideDeparture (Ride.departureDate r) (Ride.departureTime r).

(** [rides.filter((ride) => isFutureRideDeparture(...))] *)
Fixpoint futureRides (rides : list Ride.t) : Res (list Ride.t) :=
  match rides with
  | [] => Ok []
  | r :: rides =>
      match isFutureRide r with
      | Err e => Err e
      | Ok future =>
          match futureRides rides with
          | Ok l => Ok (if future then r :: l else l)
          | Err e => Err e
          end
      end
  end.

Definition gender (d : Db.t) (userId : option string) : option Gender.t :=
  truthy userId ≫= fun id => Db.user d !! id ≫= User.gender.

Definition isFemale (d : Db.t) (userId : option string) : bool := bool_decide (gender d userId = Some Gender.FEMALE).

(** A ride of someone else, on which the viewer has no active booking. *)
Definition notOwn (d : Db.t) (viewer : option string) (r : Ride.t) : bool :=
  match truthy viewer with
  | None => true
  | Some id =>
      bool_decide (Ride.driverId r <> id) &&
      forallb (fun b => negb (bool_decide (RideBooking.passengerId b = id))) (bookingsOf d (Ride.id r) activeBookingStatuses)
  end.

(** Female-only rides are for women, who may ask for nothing else. *)
Definition femaleVisible (d : Db.t) (viewer : option string) (onlyFemale : bool) (r : Ride.t) : bool :=
  if isFemale d viewer && onlyFemale then Ride.femaleOnly r
  else if isFemale d viewer then true else negb (Ride.femaleOnly r).

Definition onDate (q : Query.t) (r : Ride.t) : bool :=
  match Query.departureDate q with
  | Some date => Ride.departureDate r =? dayOf date * msPerDay
  | None => dayOf now * msPerDay <=? Ride.departureDate r
  end.

Definition inPeriod (q : Query.t) (r : Ride.t) : bool :=
  match Query.departurePeriod q with Some p => departurePeriodFilter p (Ride.departureTime r) | None => true end.

Definition riderOrigin (q : Query.t) : LatLng.t := {| LatLng.lat := Query.originLat q; LatLng.lng := Query.originLng q |}.
Definition riderDest (q : Query.t) : LatLng.t :=
  {| LatLng.lat := Query.destinationLat q; LatLng.lng := Query.destinationLng q |}.

Definition rideOrigin (r : Ride.t) : LatLng.t := {| LatLng.lat := Ride.originLat r; LatLng.lng := Ride.originLng r |}.
Definition rideDest (r : Ride.t) : LatLng.t := {| LatLng.lat := Ride.destinationLat r; LatLng.lng := Ride.destinationLng r |}.

(** ** The basic search *)

Definition basicWhere (q : Query.t) (viewer : option string) (d : Db.t) (r : Ride.t) : bool :=
  let originBB := Polyline.getBoundingBox (Query.originLat q) (Query.originLng q) (Query.radiusKm q) in
  let destBB := Polyline.getBoundingBox (Query.destinationLat q) (Query.destinationLng q) (Query.radiusKm q) in
  bool_decide (Ride.status r = RideStatus.PUBLISHED) && (Query.seatsRequired q <=? Ride.availableSeats r) && onDate q r &&
  Polyline.inBox originBB (Ride.originLat r) (Ride.originLng r) &&
  Polyline.inBox destBB (Ride.destinationLat r) (Ride.destinationLng r) &&
  match truthy (Query.departureTime q) with
  | Some time => bool_decide (Ride.departureTime r = time)
  | None => inPeriod q r
  end &&
  notOwn d viewer r &&
  match truthy_num (Query.maxPrice q) with Some p => nle (Ride.basePricePerSeat r) p | None => true end &&
  femaleVisible d viewer (Query.femaleOnly q) r.

Definition signed (ascending : bool) (x : Z) : Z := if ascending then x else - x.

(** [orderBy] of the query: the price or the date of departure. *)
Definition getOrderBy (sortBy : SortBy) (ascending : bool) (l : list Ride.t) : list Ride.t :=
  match sortBy with
  | price => sort_cmp (fun a b => if ascending then nsub (Ride.basePricePerSeat a) (Ride.basePricePerSeat b)
                                  else nsub (Ride.basePricePerSeat b) (Ride.basePricePerSeat a)) l
  | _ => sort_by (fun r => signed ascending (Ride.departureDate r)) l
  end.

Definition hasBookingOf (viewer : option string) (bookings : list RideBooking.t) : bool :=
  match truthy viewer with
  | Some id => existsb (fun b => bool_decide (RideBooking.passengerId b = id)) bookings
  | None => false
  end.

Definition searchResult (d : Db.t) (terms : gmap string ServiceFeeTerms.t) (viewer : option string)
    (distances : option (num * num)) (r : Ride.t) : SearchResult.t :=
  let bookings := bookingsOf d (Ride.id r) activeBookingStatuses in
  let amounts := riderSeatAmounts (Ride.basePricePerSeat r) (Ride.currency r) (feeTermsOf terms (Ride.id r)) in
  {| SearchResult.ride := r;
     SearchResult.driver := driverCard d (Ride.driverId r);
     SearchResult.vehicle := mapRideVehicle (listedVehicle d r);
     SearchResult.bookings := mapVisibleRideBookings bookings (Ride.driverId r) viewer;
     SearchResult.riderTotalPerSeat := amounts.1;
     SearchResult.serviceFeePerSeat := amounts.2;
     SearchResult.distances := distances;
     SearchResult.hasActiveBooking := hasBookingOf viewer bookings |}.

Definition searchRides (q : Query.t) (viewer : option string) : H (Page.t SearchResult.t) :=
  d ← get St.db;
  rides ← check (futureRides
    (take 200 (getOrderBy (Query.sortBy q) (Query.ascending q) (where_ prisma.ride (basicWhere q viewer d) d))));
  terms ← resolveFeeTermsForRides (map Ride.id rides);
  let measured r := (haversine (riderOrigin q) (rideOrigin r), haversine (riderDest q) (rideDest r)) in
  let found := List.filter (fun r => nle (measured r).1 (Query.radiusKm q) && nle (measured r).2 (Query.radiusKm q)) rides in
  let dist r := nadd (measured r).1 (measured r).2 in
  let sorted := if decide (Query.sortBy q = distance)
                then sort_cmp (fun a b => if Query.ascending q then nsub (dist a) (dist b) else nsub (dist b) (dist a)) found
                else found in
  let total := Z.of_nat (length sorted) in
  mret {| Page.items := map (fun r => searchResult d terms viewer (Some (measured r)) r)
                          (slice_page (Query.page q) (Query.limit q) sorted); Page.page := Query.page q;
          Page.limit := Query.limit q; Page.total := total; Page.totalPages := pageCount total (Query.limit q) |}.

(** ** The rides that are available *)

(** The wall clock of the zone, as an instant of UTC. *)
Definition rideNow : Z := now + rideTimeOffset now.

Definition currentRideTime : string :=
  let minutes := rideNow mod msPerDay / 60000 in pad2 (minutes / 60) +:+ ":" +:+ pad2 (minutes mod 60).

Definition availableWhere (viewer : option string) (d : Db.t) (r : Ride.t) : bool :=
  let todayRideDate := dayOf rideNow * msPerDay in
  bool_decide (Ride.status r = RideStatus.PUBLISHED) && (1 <=? Ride.availableSeats r) &&
  ((todayRideDate <? Ride.departureDate r) ||
   (Ride.departureDate r =? todayRideDate) && String.ltb currentRideTime (Ride.departureTime r)) &&
  notOwn d viewer r && (isFemale d viewer || negb (Ride.femaleOnly r)).

(** Dates first, then clock times as text. *)
Definition departureOrder (l : list Ride.t) : list Ride.t :=
  sort_by Ride.departureDate
    (sort_cmp (fun a b => if String.leb (Ride.departureTime a) (Ride.departureTime b) then num_of_Z 0 else num_of_Z 1) l).

(** Distances are not computed for this list. *)
Definition getAvailableRides (page limit : Z) (viewer : option string) : H (Page.t SearchResult.t) :=
  d ← get St.db;
  let candidates := departureOrder (where_ prisma.ride (availableWhere viewer d) d) in
  rides ← check (futureRides (slice_page page limit candidates));
  terms ← resolveFeeTermsForRides (map Ride.id rides);
  let total := Z.of_nat (length candidates) in
  mret {| Page.items := map (searchResult d terms viewer None) rides;
          Page.page := page; Page.limit := limit; Page.total := total; Page.totalPages := pageCount total limit |}.

(** ** The advanced search *)

Definition advancedWhere (q : Query.t) (viewer : option string) (d : Db.t) (r : Ride.t) : bool :=
  let expandedRadius := nmul (Query.radiusKm q) (num_of_Z 2) in
  let mergedBB := Polyline.mergeBoundingBoxes
    [Polyline.getBoundingBox (Query.originLat q) (Query.originLng q) expandedRadius;
     Polyline.getBoundingBox (Query.destinationLat q) (Query.destinationLng q) expandedRadius] in
  bool_decide (Ride.status r = RideStatus.PUBLISHED) && (Query.seatsRequired q <=? Ride.availableSeats r) && onDate q r &&
  (Polyline.inBox mergedBB (Ride.originLat r) (Ride.originLng r) ||
   Polyline.inBox mergedBB (Ride.destinationLat r) (Ride.destinationLng r) ||
   existsb (fun w => Polyline.inBox mergedBB (RideWaypoint.lat w) (RideWaypoint.lng w)) (waypointsOf d (Ride.id r))) &&
  inPeriod q r && notOwn d viewer r && femaleVisible d viewer (Query.femaleOnly q) r.

Definition findMatch (q : Query.t) (segmentRide : SegmentRide) : option Match.t :=
  match bestPair (riderOrigin q) (riderDest q) (Query.radiusKm q) (buildDPoints segmentRide) with
  | Some m => Some m
  | None =>
      match Query.includeAlternates q, truthy (Query.userRoutePolyline q), truthy (Ride.routePolyline (seg_ride segmentRide)) with
      | true, Some _, Some polyline => evaluateAltRoute (riderOrigin q) (riderDest q) polyline (Query.radiusKm q)
      | _, _, _ => None
      end
  end.

(** The share of the driver's route between two points ([routeSharesBetween] of segment-view.utils.ts). *)
Definition routeSharesBetween (ride : Ride.t) (pickup drop : SegmentPoint.t) : option (num * num) :=
  match truthy (Ride.routePolyline ride) with
  | None => None
  | Some encoded =>
      let routePoints := Polyline.decodePolyline encoded in
      let totalKm := Polyline.routeLengthKm routePoints in
      let at_ p := {| LatLng.lat := SegmentPoint.lat p; LatLng.lng := SegmentPoint.lng p |} in
      if nle totalKm (num_of_Z 0) then None
      else
        match Polyline.routeProgressKm (at_ pickup) routePoints, Polyline.routeProgressKm (at_ drop) routePoints with
        | Some pickupKm, Some dropKm =>
            let legShare := ndiv (nsub dropKm pickupKm) totalKm in
            if nle legShare (num_of_Z 0) then None
            else Some (nmin (num_of_Z 1) (nmax (num_of_Z 0) (ndiv pickupKm totalKm)), nmin (num_of_Z 1) legShare)
        | _, _ => None
        end
  end.

(** The rider's part of the ride, when the match is not the whole of it. *)
Definition riderViewOf (segmentRide : SegmentRide) (m : Match.t) : option SegmentView.t :=
  match Match.matchType m with
  | COND_1 | ALT_ROUTE => None
  | _ => resolveSegmentView routeSharesBetween segmentRide (buildSegmentPoints segmentRide)
           (Some (Match.pickupRef m)) (Some (Match.dropRef m))
  end.

Definition issueToken (ride : Ride.t) (m : Match.t) (riderView : option SegmentView.t) : H (option string) :=
  match riderView with
  | Some _ =>
      token ← check (encodeViewToken {| ViewTokenPayload.rideId := Ride.id ride;
                       ViewTokenPayload.pickupRef := Match.pickupRef m; ViewTokenPayload.dropRef := Match.dropRef m |});
      mret (Some token)
  | None => mret None
  end.

Definition enhancedResult (q : Query.t) (d : Db.t) (terms : gmap string ServiceFeeTerms.t) (viewer : option string)
    (segmentRide : SegmentRide) (m : Match.t) (riderView : option SegmentView.t) (segmentId : option string)
    : EnhancedResult.t :=
  let r := seg_ride segmentRide in
  let viewed {A} (f : SegmentView.t -> A) (whole : A) : A := match riderView with Some v => f v | None => whole end in
  let riderFacingPrice := viewed SegmentView.basePricePerSeat (Ride.basePricePerSeat r) in
  let amounts := riderSeatAmounts riderFacingPrice (Ride.currency r) (feeTermsOf terms (Ride.id r)) in
  let near w :=
    let wpLoc := {| LatLng.lat := RideWaypoint.lat w; LatLng.lng := RideWaypoint.lng w |} in
    nle (haversine (riderOrigin q) wpLoc) (Query.radiusKm q) || nle (haversine (riderDest q) wpLoc) (Query.radiusKm q) in
  let bookings := bookingsOf d (Ride.id r) activeBookingStatuses in
  {| EnhancedResult.ride := r;
     EnhancedResult.driver := driverCard d (Ride.driverId r);
     EnhancedResult.vehicle := mapRideVehicle (listedVehicle d r);
     EnhancedResult.bookings := mapVisibleRideBookings bookings (Ride.driverId r) viewer;
     EnhancedResult.originPlaceId := viewed SegmentView.originPlaceId (Ride.originPlaceId r);
     EnhancedResult.originAddress := viewed SegmentView.originAddress (Ride.originAddress r);
     EnhancedResult.originLat := viewed SegmentView.originLat (Ride.originLat r);
     EnhancedResult.originLng := viewed SegmentView.originLng (Ride.originLng r);
     EnhancedResult.destinationPlaceId := viewed SegmentView.destinationPlaceId (Ride.destinationPlaceId r);
     EnhancedResult.destinationAddress := viewed SegmentView.destinationAddress (Ride.destinationAddress r);
     EnhancedResult.destinationLat := viewed SegmentView.destinationLat (Ride.destinationLat r);
     EnhancedResult.destinationLng := viewed SegmentView.destinationLng (Ride.destinationLng r);
     EnhancedResult.routeDistanceMeters := viewed SegmentView.routeDistanceMeters (Ride.routeDistanceMeters r);
     EnhancedResult.routeDurationSeconds := viewed SegmentView.routeDurationSeconds (Ride.routeDurationSeconds r);
     EnhancedResult.departureTime := default (Ride.departureTime r) (riderView ≫= SegmentView.departureTime);
     EnhancedResult.basePricePerSeat := riderFacingPrice;
     EnhancedResult.riderTotalPerSeat := amounts.1;
     EnhancedResult.serviceFeePerSeat := amounts.2;
     EnhancedResult.distanceFromOrigin := haversine (riderOrigin q) (rideOrigin r);
     EnhancedResult.distanceFromDestination := haversine (riderDest q) (rideDest r);
     EnhancedResult.matchType := Match.matchType m;
     EnhancedResult.score := Match.score m;
     EnhancedResult.pickupMatchedPoint := Match.pickupMatchedPoint m;
     EnhancedResult.dropMatchedPoint := Match.dropMatchedPoint m;
     EnhancedResult.pickupDistanceKm := Match.pickupDistanceKm m;
     EnhancedResult.dropDistanceKm := Match.dropDistanceKm m;
     EnhancedResult.relevantWaypoints := List.filter near (seg_waypoints segmentRide);
     EnhancedResult.isSegmentView := bool_decide (is_Some riderView);
     EnhancedResult.segmentId := segmentId;
     EnhancedResult.segment := riderView;
     EnhancedResult.hasActiveBooking := hasBookingOf viewer bookings |}.

(** The limit is on what the rider pays, not on the driver's fare. *)
Definition tooDear (q : Query.t) (riderTotal : num) : bool :=
  match truthy_num (Query.maxPrice q) with Some p => nlt p riderTotal | None => false end.

(** One candidate: its result, unless it does not match or is too dear. *)
Definition evaluateRide (q : Query.t) (viewer : option string) (d : Db.t) (terms : gmap string ServiceFeeTerms.t)
    (ride : Ride.t) : H (option EnhancedResult.t) :=
  let segmentRide := withWaypoints d ride in
  match findMatch q segmentRide with
  | None => mret None
  | Some m =>
      let riderView := riderViewOf segmentRide m in
      segmentId ← issueToken ride m riderView;
      let result := enhancedResult q d terms viewer segmentRide m riderView segmentId in
      mret (if tooDear q (EnhancedResult.riderTotalPerSeat result) then None else Some result)
  end.

Fixpoint evaluateRides (q : Query.t) (viewer : option string) (d : Db.t) (terms : gmap string ServiceFeeTerms.t)
    (rides : list Ride.t) : H (list EnhancedResult.t) :=
  match rides with
  | [] => mret []
  | ride :: rest =>
      result ← evaluateRide q viewer d terms ride;
      results ← evaluateRides q viewer d terms rest;
      mret (match result with Some x => x :: results | None => results end)
  end.

(** The better score first, then the rider's order. *)
Definition resultOrder (q : Query.t) (a b : EnhancedResult.t) : num :=
  let diff x y := if Query.ascending q then nsub x y else nsub y x in
  if EnhancedResult.score a =? EnhancedResult.score b then
    match Query.sortBy q with
    | price => diff (EnhancedResult.riderTotalPerSeat a) (EnhancedResult.riderTotalPerSeat b)
    | distance =>
        diff (nadd (EnhancedResult.distanceFromOrigin a) (EnhancedResult.distanceFromDestination a))
             (nadd (EnhancedResult.distanceFromOrigin b) (EnhancedResult.distanceFromDestination b))
    | departure =>
        diff (num_of_Z (Ride.departureDate (EnhancedResult.ride a))) (num_of_Z (Ride.departureDate (EnhancedResult.ride b)))
    end
  else num_of_Z (EnhancedResult.score b - EnhancedResult.score a).

Definition ofType (t : RideMatchType) (l : list EnhancedResult.t) : list EnhancedResult.t :=
  List.filter (fun r => bool_decide (EnhancedResult.matchType r = t)) l.

(** The page, and the groups [cond1], [cond2], [cond3], [cond4] and [altRoute]. *)
Definition searchRidesAdvanced (q : Query.t) (viewer : option string)
    : H (Page.t EnhancedResult.t * list (list EnhancedResult.t)) :=
  d ← get St.db;
  candidateRides ← check (futureRides (take 200 (where_ prisma.ride (advancedWhere q viewer d) d)));
  terms ← resolveFeeTermsForRides (map Ride.id candidateRides);
  results ← evaluateRides q viewer d terms candidateRides;
  let evaluatedRides := sort_cmp (resultOrder q) results in
  let total := Z.of_nat (length evaluatedRides) in
  mret ({| Page.items := slice_page (Query.page q) (Query.limit q) evaluatedRides; Page.page := Query.page q;
           Page.limit := Query.limit q; Page.total := total; Page.totalPages := pageCount total (Query.limit q) |},
        map (fun t => ofType t evaluatedRides) [COND_1; COND_2; COND_3; COND_4; ALT_ROUTE]).

(** ** The details of a ride *)

Definition rideDetailsVisible (d : Db.t) (viewer : option string) (canViewFemaleOnly : bool) (r : Ride.t) : bool :=
  (canViewFemaleOnly || negb (Ride.femaleOnly r)) &&
  (bool_decide (Ride.status r = RideStatus.PUBLISHED) ||
   match truthy viewer with
   | Some id =>
       bool_decide (Ride.driverId r = id) ||
       existsb (fun b => bool_decide (RideBooking.passengerId b = id)) (bookingsOf d (Ride.id r) rideDetailViewerBookingStatuses)
   | None => false
   end).

Definition findVisibleRide (d : Db.t) (rideId : string) (viewer : option string) : option Ride.t :=
  match Db.ride d !! rideId with
  | Some r => if rideDetailsVisible d viewer (isFemale d viewer) r then Some r else None
  | None => None
  end.

Definition rideDetails (d : Db.t) (r : Ride.t) (viewer : option string) (feeTerms : ServiceFeeTerms.t)
    (riderView : option SegmentView.t) (viewToken : option string) : RideDetails.t :=
  let viewed {A} (f : SegmentView.t -> A) (whole : A) : A := match riderView with Some v => f v | None => whole end in
  let base := viewed SegmentView.basePricePerSeat (Ride.basePricePerSeat r) in
  let amounts := riderSeatAmounts base (Ride.currency r) (termsPair feeTerms) in
  {| RideDetails.ride := r;
     RideDetails.driver := detailsDriver d (Ride.driverId r);
     RideDetails.vehicle := mapRideVehicle (shownVehicle d r);
     RideDetails.bookings := mapVisibleRideBookings (bookingsOf d (Ride.id r) rideDetailViewerBookingStatuses) (Ride.driverId r) viewer;
     RideDetails.waypoints := waypointsOf d (Ride.id r);
     RideDetails.originAddress := viewed SegmentView.originAddress (Ride.originAddress r);
     RideDetails.destinationAddress := viewed SegmentView.destinationAddress (Ride.destinationAddress r);
     RideDetails.routeDistanceMeters := viewed SegmentView.routeDistanceMeters (Ride.routeDistanceMeters r);
     RideDetails.routeDurationSeconds := viewed SegmentView.routeDurationSeconds (Ride.routeDurationSeconds r);
     RideDetails.departureTime := default (Ride.departureTime r) (riderView ≫= SegmentView.departureTime);
     RideDetails.basePricePerSeat := base;
     RideDetails.riderTotalPerSeat := amounts.1;
     RideDetails.serviceFeePerSeat := amounts.2;
     RideDetails.segment := riderView;
     RideDetails.segmentId := viewToken |}.

Definition getRideDetails (rideId : string) (viewer : option string) : H (option RideDetails.t) :=
  d ← get St.db;
  match findVisibleRide d rideId viewer with
  | None => mret None
  | Some r =>
      feeTerms ← resolveRideFeeTerms (Ride.id r);
      mret (Some (rideDetails d r viewer feeTerms None None))
  end.

Definition getRideViewByToken (viewToken : string) (viewer : option string) : H (option RideDetails.t) :=
  payload ← check (decodeViewToken viewToken);
  d ← get St.db;
  match findVisibleRide d (ViewTokenPayload.rideId payload) viewer with
  | None => mret None
  | Some r =>
      let segmentRide := withWaypoints d r in
      match resolveSegmentView routeSharesBetween segmentRide (buildSegmentPoints segmentRide)
              (Some (ViewTokenPayload.pickupRef payload)) (Some (ViewTokenPayload.dropRef payload)) with
      | None => throw INVALID_VIEW_TOKEN
      | Some riderView =>
          feeTerms ← resolveRideFeeTerms (Ride.id r);
          mret (Some (rideDetails d r viewer feeTerms (Some riderView) (Some viewToken)))
      end
  end.

(** The same, with the error of the token renamed. *)
Definition getRideSegmentById (segmentId : string) (viewer : option string) : H (option RideDetails.t) := fun s =>
  match getRideViewByToken segmentId viewer s with
  | (s', Err e) => (s', Err (if decide (e = INVALID_VIEW_TOKEN) then "INVALID_SEGMENT_ID"%string else e))
  | x => x
  end.
End search.
End Search.

Import Search.

(** ** The chosen pair of points *)

Section best.
Context `{Env}.
Variables (from to_ : LatLng.t) (radiusKm : num) (ride : SegmentRide).

(** A pickup and a later drop-off, both within the radius. *)
Record valid_pair (i j : nat) (p d : DPoint.t) : Prop := {
  pair_pickup : buildDPoints ride !! i = Some p;
  pair_drop : buildDPoints ride !! j = Some d;
  pair_order : (i < j)%nat;
  pair_near_pickup : nle (haversine from (dPointLocation p)) radiusKm = true;
  pair_near_drop : nle (haversine to_ (dPointLocation d)) radiusKm = true;
}.

Definition pair_cost (p d : DPoint.t) : num := nadd (haversine from (dPointLocation p)) (haversine to_ (dPointLocation d)).

Lemma matchesFrom_elem rider l k i p x :
  In (i, p, x) (matchesFrom rider radiusKm l k) <->
  exists n, l !! n = Some p /\ i = k + Z.of_nat n /\ x = haversine rider (dPointLocation p) /\
            nle (haversine rider (dPointLocation p)) radiusKm = true.
Proof.
  revert k. induction l as [|y l IH]; intros k; cbn [matchesFrom].
  - split; [intros [] | intros (n & E & _); rewrite lookup_nil in E; discriminate].
  - assert (T : In (i, p, x) (matchesFrom rider radiusKm l (k + 1)) <->
      exists n, (y :: l) !! S n = Some p /\ i = k + Z.of_nat (S n) /\ x = haversine rider (dPointLocation p) /\
            nle (haversine rider (dPointLocation p)) radiusKm = true).
    { rewrite IH. split; intros (n & A & B & C); exists n; (split; [exact A | split; [lia | exact C]]). }
    destruct (nle (haversine rider (dPointLocation y)) radiusKm) eqn:N.
    + cbn [In]. rewrite T. split.
      * intros [[= <- <- <-]|(n & A)]; [exists 0%nat; repeat split; [lia | exact N] | exists (S n); exact A].
      * intros ([|n] & A & B & C & D); [left|right; exists n; auto]. injection A as <-. rewrite C, B, Z.add_0_r. reflexivity.
    + rewrite T. split; [intros (n & A); exists (S n); exact A|].
      intros ([|n] & A & B & C & D); [injection A as <-; congruence | exists n; auto].
Qed.

Definition pairs : list ((Z * DPoint.t * num) * (Z * DPoint.t * num)) :=
  flat_map (fun pickup => map (pair pickup) (matchesFrom to_ radiusKm (buildDPoints ride) 0))
    (matchesFrom from radiusKm (buildDPoints ride) 0).

Lemma pairs_elem i p x j d y : In ((i, p, x), (j, d, y)) pairs -> i < j ->
  valid_pair (Z.to_nat i) (Z.to_nat j) p d /\ nadd x y = pair_cost p d /\ 0 <= i /\ 0 <= j.
Proof.
  intros I L. apply in_flat_map in I as (u & I1 & (v & [= -> ->] & I2)%in_map_iff).
  apply matchesFrom_elem in I1 as (n & A1 & -> & -> & A2). apply matchesFrom_elem in I2 as (m & B1 & -> & -> & B2).
  split; [|split; [reflexivity | lia]]. rewrite !Z.add_0_l, !Nat2Z.id. constructor; try assumption. lia.
Qed.

Lemma valid_in_pairs i j p d : valid_pair i j p d ->
  In ((Z.of_nat i, p, haversine from (dPointLocation p)), (Z.of_nat j, d, haversine to_ (dPointLocation d))) pairs.
Proof.
  intros [A B L C D]. apply in_flat_map. exists (Z.of_nat i, p, haversine from (dPointLocation p)). split.
  - apply matchesFrom_elem. exists i. auto.
  - apply in_map, matchesFrom_elem. exists j. auto.
Qed.

Hypothesis named : forall w, In w (seg_waypoints ride) -> RideWaypoint.id w <> EmptyString.

Lemma point_ref p : In p (buildDPoints ride) -> exists r, toSegmentPointRef p = Some r.
Proof.
  intros I. unfold buildDPoints in I. cbn in I. destruct I as [<-|I]; [eexists; reflexivity|].
  apply in_app_or in I as [I|[<-|[]]]; [|eexists; reflexivity].
  assert (W : forall ws k, (forall w, In w ws -> RideWaypoint.id w <> EmptyString) -> In p (waypointDPoints ws k) ->
    exists r, toSegmentPointRef p = Some r).
  { induction ws as [|w ws IH]; intros k Hw Ip; [destruct Ip|]. destruct Ip as [<-|Ip].
    - unfold toSegmentPointRef. cbn. pose proof (Hw w (or_introl eq_refl)) as N.
      destruct (RideWaypoint.id w); [contradiction | eexists; reflexivity].
    - apply (IH _ (fun x Hx => Hw x (or_intror Hx)) Ip). }
  apply (W (sortedWaypoints ride) 1); [|exact I]. intros w Hw. apply named. unfold sortedWaypoints in Hw.
  apply (Permutation_in _ (sort_by_perm _ _)) in Hw. exact Hw.
Qed.

(** What the match says of its pair. *)
Definition match_of (m : Match.t) (i j : nat) (p d : DPoint.t) : Prop :=
  Match.pickupIndex m = Z.of_nat i /\ Match.dropIndex m = Z.of_nat j /\
  toSegmentPointRef p = Some (Match.pickupRef m) /\ toSegmentPointRef d = Some (Match.dropRef m) /\
  Match.matchType m = classifyMatch (Z.of_nat i) (Z.of_nat j) (Z.of_nat (length (buildDPoints ride)) - 1)
                        (DPoint.pointType p) (DPoint.pointType d).

Definition best_so_far (best : option num * option Match.t) (seen : list ((Z * DPoint.t * num) * (Z * DPoint.t * num))) : Prop :=
  match best with
  | (None, None) => forall u v, In (u, v) seen -> u.1.1 < v.1.1 -> False
  | (Some c, Some m) =>
      (exists i j p d, valid_pair i j p d /\ c = pair_cost p d /\ match_of m i j p d) /\
      forall u v, In (u, v) seen -> u.1.1 < v.1.1 -> (c <= nadd u.2 v.2)%Q
  | _ => False
  end.

Lemma considerPair_best best seen u v : In (u, v) pairs -> best_so_far best seen ->
  best_so_far (considerPair (Z.of_nat (length (buildDPoints ride)) - 1) best (u, v)) (seen ++ [(u, v)]).
Proof.
  intros I B. destruct u as [[i p] x], v as [[j d] y]. unfold considerPair.
  assert (Grow : forall u' v', In (u', v') (seen ++ [((i, p, x), (j, d, y))]) -> In (u', v') seen \/ (u' = (i, p, x) /\ v' = (j, d, y))).
  { intros u' v' Hx. apply in_app_or in Hx as [Hx|[[= <- <-]|[]]]; auto. }
  destruct (Z.ltb_spec i j) as [L|L]; cbn [andb].
  - destruct (pairs_elem _ _ _ _ _ _ I L) as (V & C & I0 & J0).
    destruct (Polyline.closer (nadd x y) best.1) eqn:Cl.
    + destruct (point_ref p) as [r1 R1]; [apply list_elem_of_In, list_elem_of_lookup; eexists; apply V|].
      destruct (point_ref d) as [r2 R2]; [apply list_elem_of_In, list_elem_of_lookup; eexists; apply V|].
      rewrite R1, R2. split.
      * exists (Z.to_nat i), (Z.to_nat j), p, d. split; [exact V|]. split; [exact C|].
        unfold match_of. cbn. rewrite !Z2Nat.id by lia. auto.
      * intros u' v' Hs L'. apply Grow in Hs as [Hs|[-> ->]]; [|apply Qle_refl].
        destruct best as [[c|] [m|]]; try contradiction; [|destruct (B u' v' Hs L')].
        cbn [fst snd Polyline.closer] in Cl. apply nlt_spec in Cl. exact (Qle_trans _ _ _ (Qlt_le_weak _ _ Cl) (proj2 B u' v' Hs L')).
    + destruct best as [[c|] [m|]]; try contradiction; [|discriminate Cl]. split; [exact (proj1 B)|].
      intros u' v' Hs L'. apply Grow in Hs as [Hs|[-> ->]]; [exact (proj2 B u' v' Hs L')|]. cbn [fst snd Polyline.closer] in Cl |- *.
      apply Qnot_lt_le. intros T. apply nlt_spec in T. rewrite T in Cl. discriminate Cl.
  - destruct best as [[c|] [m|]]; try contradiction.
    + split; [exact (proj1 B)|]. intros u' v' Hs L'. apply Grow in Hs as [Hs|[-> ->]]; [exact (proj2 B u' v' Hs L') | exact (False_ind _ (Zle_not_lt _ _ L L'))].
    + intros u' v' Hs L'. apply Grow in Hs as [Hs|[-> ->]]; [exact (B u' v' Hs L') | exact (False_ind _ (Zle_not_lt _ _ L L'))].
Qed.

Lemma bestPair_best : exists c, best_so_far (c, bestPair from to_ radiusKm (buildDPoints ride)) pairs.
Proof.
  unfold bestPair. fold pairs. set (lastIdx := _ - 1).
  assert (W : forall todo seen best, (forall u v, In (u, v) todo -> In (u, v) pairs) -> best_so_far best seen ->
    best_so_far (fold_left (considerPair lastIdx) todo best) (seen ++ todo)).
  { induction todo as [|[u v] todo IH]; intros seen best T B; [rewrite app_nil_r; exact B|]. cbn [fold_left].
    replace (seen ++ (u, v) :: todo)%list with ((seen ++ [(u, v)]) ++ todo)%list by (rewrite <- app_assoc; reflexivity).
    apply IH; [intros u' v' Hx; apply T; right; exact Hx|]. apply considerPair_best; [apply T; left; reflexivity | exact B]. }
  specialize (W pairs [] (None, None) (fun u v X => X) (fun u v X => False_ind _ X)). cbn [app] in W.
  destruct (fold_left (considerPair lastIdx) pairs (None, None)) as [c o]. exists c. exact W.
Qed.
End best.

Lemma if_some {A} (b : bool) (x y : A) : (if b then Some x else None) = Some y -> x = y.
Proof. destruct b; [intros E; exact (inj Some _ _ E) | discriminate]. Qed.

Lemma mret_inv {A} (x y : A) (s s' : St.t) : (mret x : H A) s = (s', Ok y) -> s = s' /\ x = y.
Proof. intros [= -> ->]. auto. Qed.

Lemma some_inv {A B} (o : option A) (f : A -> option B) y :
  match o with Some x => f x | None => None end = Some y -> exists x, f x = Some y.
Proof. destruct o; [eauto | discriminate]. Qed.

Section theorems.
Context `{Env} `{Codec} `{RideZone} `{PolylineCodec}.

(** A ride is matched at its cheapest pair of points.  When a search finds a match, it is
    at two points of the route in the order of travel, both within the radius, at least
    as close as any other such pair; and it finds one whenever there is such a pair. *)
Theorem best_match_is_cheapest (from to_ : LatLng.t) (radiusKm : num) (ride : SegmentRide) :
  (forall w, In w (seg_waypoints ride) -> RideWaypoint.id w <> EmptyString) ->
  match bestPair from to_ radiusKm (buildDPoints ride) with
  | Some m => exists i j p d, valid_pair from to_ radiusKm ride i j p d /\ match_of ride m i j p d /\
      forall i' j' p' d', valid_pair from to_ radiusKm ride i' j' p' d' -> (pair_cost from to_ p d <= pair_cost from to_ p' d')%Q
  | None => forall i j p d, ~ valid_pair from to_ radiusKm ride i j p d
  end.
Proof.
  intros N. destruct (bestPair_best from to_ radiusKm ride N) as [c B].
  destruct (bestPair from to_ radiusKm (buildDPoints ride)) as [m|]; destruct c as [c|]; try contradiction.
  - destruct B as [(i & j & p & d & V & -> & M) L]. exists i, j, p, d. split; [exact V|]. split; [exact M|].
    intros i' j' p' d' V'. refine (L _ _ (valid_in_pairs _ _ _ _ _ _ _ _ V') _). cbn [fst snd]. destruct V'. lia.
  - intros i j p d V. refine (B _ _ (valid_in_pairs _ _ _ _ _ _ _ _ V) _). cbn [fst snd]. destruct V. lia.
Qed.

(** A match along the road is scored as if it ended at the driver's destination.  It is
    scored with positions of -1 so that no bonus applies, but the last position is -1
    as well, and the bonus for a drop-off at the destination is added. *)
Theorem alt_route_gets_drop_bonus (from to_ : LatLng.t) (polyline : string) (radiusKm : num) (m : Match.t) :
  evaluateAltRoute from to_ polyline radiusKm = Some m ->
  exists d1 d2, Match.pickupDistanceKm m = round2 d1 /\ Match.dropDistanceKm m = round2 d2 /\
    Match.score m = math_round (nmax (num_of_Z 0) (nsub (nadd
      (nsub (nsub BASE_SCORE (nmul d1 DISTANCE_PENALTY_FACTOR)) (nmul d2 DISTANCE_PENALTY_FACTOR))
      DROP_AT_DEST_BONUS) ALT_ROUTE_PENALTY)).
Proof.
  unfold evaluateAltRoute. destruct (Polyline.decodePolyline polyline); [intros E; discriminate E|].
  intros E. apply some_inv in E as [d1 E]. apply some_inv in E as [d2 E]. apply if_some in E. rewrite <- E. exists d1, d2.
  split; [reflexivity|]. split; [reflexivity|]. reflexivity.
Qed.

Lemma altRoute_type from to_ polyline radiusKm m : evaluateAltRoute from to_ polyline radiusKm = Some m ->
  Match.matchType m = ALT_ROUTE.
Proof.
  unfold evaluateAltRoute. destruct (Polyline.decodePolyline polyline); [intros E; discriminate E|].
  intros E. apply some_inv in E as [d1 E]. apply some_inv in E as [d2 E]. apply if_some in E. rewrite <- E. reflexivity.
Qed.

(** ** What a search shows *)

Lemma in_slice {A} page limit (l : list A) x : In x (slice_page page limit l) -> In x l.
Proof. unfold slice_page. intros I%list_elem_of_In%elem_of_take. destruct I as (i & E & _). rewrite lookup_drop in E.
  apply list_elem_of_In, list_elem_of_lookup. eauto. Qed.


Lemma evaluateRide_inv q viewer d terms ride s s' x : evaluateRide q viewer d terms ride s = (s', Ok (Some x)) ->
  exists m token, findMatch q (withWaypoints d ride) = Some m /\
    let riderView := riderViewOf (withWaypoints d ride) m in
    issueToken ride m riderView s = (s, Ok token) /\
    x = enhancedResult q d terms viewer (withWaypoints d ride) m riderView token /\
    tooDear q (EnhancedResult.riderTotalPerSeat x) = false.
Proof.
  unfold evaluateRide. destruct (findMatch q (withWaypoints d ride)) as [m|]; [|intros E; discriminate E]. cbv zeta.
  set (v := riderViewOf _ m). rewrite bind_run.
  assert (I : exists r, issueToken ride m v s = (s, r)).
  { unfold issueToken. destruct v; [|eexists; reflexivity]. unfold check. rewrite bind_run. cbn [fst snd].
    destruct (encodeViewToken _); eexists; reflexivity. }
  destruct I as [[token|e] I]; rewrite I; cbn [fst snd]; [|discriminate].
  destruct (tooDear q _) eqn:T; [discriminate|]. intros E. exists m, token. split; [reflexivity|]. split; [exact I|].
  apply mret_inv in E as [_ X]. apply (inj Some) in X. rewrite <- X. split; [reflexivity | exact T].
Qed.

Lemma evaluateRides_in q viewer d terms rides s s' l x : evaluateRides q viewer d terms rides s = (s', Ok l) -> In x l ->
  exists ride s1 s2, In ride rides /\ evaluateRide q viewer d terms ride s1 = (s2, Ok (Some x)).
Proof.
  revert s s' l. induction rides as [|r rides IH]; intros s s' l E I.
  { apply mret_inv in E as [_ <-]. destruct I. }
  cbn [evaluateRides] in E. apply bind_inv in E as (o & s1 & E1 & E). apply bind_inv in E as (l2 & s2 & E2 & E).
  apply mret_inv in E as [_ <-].
  assert (Later : In x l2 -> exists ride s1 s2, In ride (r :: rides) /\ evaluateRide q viewer d terms ride s1 = (s2, Ok (Some x))).
  { intros I2. destruct (IH _ _ _ E2 I2) as (ride & u & v & Hr & Hx). exists ride, u, v. split; [right; exact Hr | exact Hx]. }
  destruct o as [y|]; [|exact (Later I)]. destruct I as [->|I]; [|exact (Later I)].
  exists r, s, s1. split; [left; reflexivity | exact E1].
Qed.

Lemma check_inv {A} (x : Res A) (s s' : St.t) a : check x s = (s', Ok a) -> x = Ok a /\ s' = s.
Proof. intros [= <- ->]. auto. Qed.

Lemma futureRides_in rides l r : futureRides rides = Ok l -> In r l -> In r rides /\ isFutureRide r = Ok true.
Proof.
  revert l. induction rides as [|x rides IH]; cbn; intros l E I; [injection E as <-; destruct I|].
  destruct (isFutureRide x) as [future|] eqn:F; [|discriminate]. destruct (futureRides rides) as [l'|]; [|discriminate].
  injection E as <-. destruct future; [destruct I as [<-|I]; [auto|]|]; destruct (IH _ eq_refl I); auto.
Qed.

(** A ride the viewer may be shown with this many seats wanted. *)
Record offered (d : Db.t) (viewer : option string) (seats : Z) (r : Ride.t) : Prop := {
  offered_stored : exists k, Db.ride d !! k = Some r;
  offered_published : Ride.status r = RideStatus.PUBLISHED;
  offered_seats : seats <= Ride.availableSeats r;
  offered_future : isFutureRide r = Ok true;
  offered_not_own : notOwn d viewer r = true;
  offered_female : Ride.femaleOnly r = true -> isFemale d viewer = true;
}.

Lemma femaleVisible_spec d viewer only r : femaleVisible d viewer only r = true ->
  Ride.femaleOnly r = true -> isFemale d viewer = true.
Proof. unfold femaleVisible. destruct (isFemale d viewer), only; cbn; try reflexivity; intros E F; rewrite F in E; discriminate E. Qed.

Ltac split_guards := repeat match goal with E : _ && _ = true |- _ => apply andb_true_iff in E as [E ?] end.

Lemma offered_of (p : Db.t -> Ride.t -> bool) d viewer seats r :
  (p d r = true -> Ride.status r = RideStatus.PUBLISHED /\ seats <= Ride.availableSeats r /\ notOwn d viewer r = true /\
     (Ride.femaleOnly r = true -> isFemale d viewer = true)) ->
  In r (where_ prisma.ride (p d) d) -> isFutureRide r = Ok true -> offered d viewer seats r.
Proof. intros W [P K]%where_elem F. apply W in P as (? & ? & ? & ?). constructor; assumption. Qed.

Lemma basicWhere_offered q viewer d r : In r (where_ prisma.ride (basicWhere q viewer d) d) -> isFutureRide r = Ok true ->
  offered d viewer (Query.seatsRequired q) r.
Proof.
  apply (offered_of (basicWhere q viewer)). unfold basicWhere. cbv zeta. intros E. split_guards.
  split; [apply (bool_decide_eq_true_1 _); assumption|]. split; [apply Z.leb_le; assumption|]. split; [assumption|].
  eapply femaleVisible_spec. eassumption.
Qed.

Lemma advancedWhere_offered q viewer d r : In r (where_ prisma.ride (advancedWhere q viewer d) d) -> isFutureRide r = Ok true ->
  offered d viewer (Query.seatsRequired q) r.
Proof.
  apply (offered_of (advancedWhere q viewer)). unfold advancedWhere. cbv zeta. intros E. split_guards.
  split; [apply (bool_decide_eq_true_1 _); assumption|]. split; [apply Z.leb_le; assumption|]. split; [assumption|].
  eapply femaleVisible_spec. eassumption.
Qed.

Lemma availableWhere_offered viewer d r : In r (where_ prisma.ride (availableWhere viewer d) d) -> isFutureRide r = Ok true ->
  offered d viewer 1 r.
Proof.
  apply (offered_of (availableWhere viewer)). unfold availableWhere. cbv zeta. intros E. split_guards.
  split; [apply (bool_decide_eq_true_1 _); assumption|]. split; [apply Z.leb_le; assumption|]. split; [assumption|].
  intros Fm. match goal with E : _ || negb _ = true |- _ => rewrite Fm in E; cbn [negb] in E; rewrite orb_false_r in E; exact E end.
Qed.

(** Of the bookings of another's ride a viewer sees their own. *)
Definition private (d : Db.t) (viewer : option string) (bookings : list RideBooking.t) : Prop :=
  Forall (fun b => viewer = Some (RideBooking.passengerId b)) bookings.

Lemma visible_private d viewer r bookings : notOwn d viewer r = true ->
  private d viewer (mapVisibleRideBookings bookings (Ride.driverId r) viewer).
Proof.
  unfold private, mapVisibleRideBookings, notOwn. destruct viewer as [v|]; [|constructor].
  destruct (truthy (Some v)) as [v'|] eqn:T; [|constructor].
  assert (v' = v) as -> by (unfold truthy in T; destruct v; [discriminate T | injection T; auto]).
  intros [N _]%andb_true_iff. apply bool_decide_eq_true in N. rewrite bool_decide_eq_false_2 by (intros ->; contradiction).
  apply List.Forall_forall. intros b [_ Eb]%filter_In. apply bool_decide_eq_true in Eb. rewrite Eb. reflexivity.
Qed.

(** C30. The lists a rider is shown hold only rides the rider can book.  Every ride of the two
    searches and of the list of available rides is published, departs in the future, has
    the seats asked for, is not the viewer's and not one the viewer is already on, is
    open to the viewer's gender; of its bookings only the viewer's appear; and the
    advanced search shows none above the rider's price. *)
Theorem searches_show_only_bookable_rides (q : Query.t) (viewer : option string) (s s' : St.t) :
  (forall found, searchRides q viewer s = (s', Ok found) -> forall x, In x (Page.items found) ->
     offered (St.db s) viewer (Query.seatsRequired q) (SearchResult.ride x) /\ private (St.db s) viewer (SearchResult.bookings x)) /\
  (forall page limit found, getAvailableRides page limit viewer s = (s', Ok found) -> forall x, In x (Page.items found) ->
     offered (St.db s) viewer 1 (SearchResult.ride x) /\ private (St.db s) viewer (SearchResult.bookings x)) /\
  (forall found groups, searchRidesAdvanced q viewer s = (s', Ok (found, groups)) -> forall x, In x (Page.items found) ->
     offered (St.db s) viewer (Query.seatsRequired q) (EnhancedResult.ride x) /\
     private (St.db s) viewer (EnhancedResult.bookings x) /\ tooDear q (EnhancedResult.riderTotalPerSeat x) = false).
Proof.
  split; [|split].
  - intros found E x I. unfold searchRides in E. rewrite bind_run in E. cbn [get fst snd] in E.
    apply bind_inv in E as (rides & s0 & [Er _]%check_inv & E).
    apply bind_inv in E as (terms & s1 & _ & E). apply mret_inv in E as [_ <-]. cbn [Page.items] in I.
    apply in_map_iff in I as (r & <- & I). apply in_slice in I.
    assert (In r (take 200 (getOrderBy (Query.sortBy q) (Query.ascending q) (where_ prisma.ride (basicWhere q viewer (St.db s)) (St.db s))))
            /\ isFutureRide r = Ok true) as [Ir F].
    { case_decide; [apply in_sort_cmp in I|]; apply filter_In in I as [I _]; exact (futureRides_in _ _ _ Er I). }
    assert (O : offered (St.db s) viewer (Query.seatsRequired q) r).
    { apply basicWhere_offered; [|exact F]. apply in_take in Ir. unfold getOrderBy in Ir.
      destruct (Query.sortBy q); first [exact (proj1 (in_sort_cmp _ _ _) Ir) | exact (Permutation_in _ (sort_by_perm _ _) Ir)]. }
    split; [exact O | apply visible_private, (offered_not_own _ _ _ _ O)].
  - intros page limit found E x I. unfold getAvailableRides in E. rewrite bind_run in E. cbn [get fst snd] in E.
    apply bind_inv in E as (rides & s0 & [Er _]%check_inv & E).
    apply bind_inv in E as (terms & s1 & _ & E). apply mret_inv in E as [_ <-]. cbn [Page.items] in I.
    apply in_map_iff in I as (r & <- & I). apply (futureRides_in _ _ _ Er) in I as [I F]. apply in_slice in I.
    assert (O : offered (St.db s) viewer 1 r).
    { apply availableWhere_offered; [|exact F]. unfold departureOrder in I.
      apply (Permutation_in _ (sort_by_perm _ _)), in_sort_cmp in I. exact I. }
    split; [exact O | apply visible_private, (offered_not_own _ _ _ _ O)].
  - intros found groups E x I. unfold searchRidesAdvanced in E. rewrite bind_run in E. cbn [get fst snd] in E.
    apply bind_inv in E as (rides & s0 & [Ef _]%check_inv & E).
    apply bind_inv in E as (terms & s1 & _ & E). apply bind_inv in E as (results & s2 & Ev & E).
    apply mret_inv in E as [_ E]. apply pair_equal_spec in E as [<- _]. cbn [Page.items] in I.
    apply in_slice, in_sort_cmp in I. destruct (evaluateRides_in _ _ _ _ _ _ _ _ _ Ev I) as (r & u & v & Ir & Er).
    apply evaluateRide_inv in Er as (m & token & _ & _ & -> & T). apply (futureRides_in _ _ _ Ef) in Ir as [Ir F]. apply in_take in Ir.
    assert (O : offered (St.db s) viewer (Query.seatsRequired q) r) by (exact (advancedWhere_offered _ _ _ _ Ir F)).
    split; [exact O|]. split; [apply visible_private, (offered_not_own _ _ _ _ O) | exact T].
Qed.
End theorems.
