(* ===== verification/Quotes.v ===== *)
(** * From a search to a booking

    Composes [Search] with [Booking]: the price a search shows for a part of a ride is
    the price of the page its token opens, and of the booking made with the token. *)

From Stdlib Require Import ZArith QArith Lia.
From stdpp Require Import base list option strings gmap.
From S2P Require Import Prelude JsNumber JsText Money Schema Store Seats Time Segment ViewToken Pricing.
From S2P Require Import Gateway Rewards RideRequest Booking RideOps Route Safe DriverRides Search.

Open Scope Z_scope.

Import Search.

Section quotes.
Context `{Env} `{Codec} `{RideZone} `{PolylineCodec}.

(** ** The price of a plan *)

Definition quoteOf (base : num) (currency : string) (seats : Z) (terms : num * num) : PriceBreakdown.t :=
  calculateBookingPrice {| PriceInput.basePricePerSeat := base; PriceInput.seatsBooked := seats;
    PriceInput.currency := Some currency; PriceInput.serviceFeePercent := terms.1; PriceInput.serviceFeeFlat := terms.2 |}.

Lemma plan_price (passengerId : string) (input : CreateBookingInput.t) (bypass : bool) (terms : ServiceFeeTerms.t) (s : St.t) :
  wp (resolveBookingPlan routeSharesBetween passengerId input bypass terms None)
     (if_ok (fun _ plan => exists r refs view,
        Db.ride (St.db s) !! CreateBookingInput.rideId input = Some r /\ requestedSegment input = Ok refs /\
        (let ride := {| seg_ride := r; seg_waypoints := waypointsOf (St.db s) (CreateBookingInput.rideId input) |} in
         resolveSegmentView routeSharesBetween ride (buildSegmentPoints ride) (Some refs.1) (Some refs.2) = Some view) /\
        BookingPlan.priceBreakdown plan =
          quoteOf (SegmentView.basePricePerSeat view) (Ride.currency r) (CreateBookingInput.seatsBooked input) (termsPair terms))) s.
Proof.
  unfold resolveBookingPlan, Booking.waypointsOf. set (shares := routeSharesBetween).
  repeat (wp_read; try exact Logic.I).
  do 3 eexists. split; [eassumption|]. split; [eassumption|]. split; [eassumption|]. reflexivity.
Qed.

(** ** The refs of a match *)

Lemma point_ref_valid ride p r : (forall w, In w (seg_waypoints ride) -> notBlank (RideWaypoint.id w) = true) ->
  In p (buildDPoints ride) -> toSegmentPointRef p = Some r -> valid_ref r.
Proof.
  intros N I. unfold buildDPoints in I. cbn in I. destruct I as [<-|I]; [intros [= <-]; exact Logic.I|].
  apply in_app_or in I as [I|[<-|[]]]; [|intros [= <-]; exact Logic.I].
  assert (W : forall ws k, (forall w, In w ws -> notBlank (RideWaypoint.id w) = true) -> In p (waypointDPoints ws k) ->
    toSegmentPointRef p = Some r -> valid_ref r).
  { induction ws as [|w ws IH]; intros k Hw Ip; [destruct Ip|]. destruct Ip as [<-|Ip].
    - unfold toSegmentPointRef. cbn. pose proof (Hw w (or_introl eq_refl)) as Nw.
      destruct (RideWaypoint.id w) eqn:Ew; [discriminate Nw|]. intros [= <-]. exact Nw.
    - apply (IH _ (fun x Hx => Hw x (or_intror Hx)) Ip). }
  apply (W (sortedWaypoints ride) 1); [|exact I]. intros w Hw. apply N. unfold sortedWaypoints in Hw.
  apply (Permutation_in _ (sort_by_perm _ _)) in Hw. exact Hw.
Qed.

Lemma view_refs_valid q ride m view : (forall w, In w (seg_waypoints ride) -> notBlank (RideWaypoint.id w) = true) ->
  findMatch q ride = Some m -> riderViewOf ride m = Some view ->
  valid_ref (Match.pickupRef m) /\ valid_ref (Match.dropRef m) /\
  resolveSegmentView routeSharesBetween ride (buildSegmentPoints ride) (Some (Match.pickupRef m)) (Some (Match.dropRef m)) = Some view.
Proof.
  intros N F V. assert (V' : Match.matchType m <> ALT_ROUTE /\
    resolveSegmentView routeSharesBetween ride (buildSegmentPoints ride) (Some (Match.pickupRef m)) (Some (Match.dropRef m)) = Some view).
  { unfold riderViewOf in V. destruct (Match.matchType m); try discriminate V; split; try discriminate; exact V. }
  destruct V' as [T V']. split; [|split; [|exact V']]; clear V V'.
  all: unfold findMatch in F.
  all: pose proof (bestPair_best (riderOrigin q) (riderDest q) (Query.radiusKm q) ride) as B.
  all: destruct B as [c B]; [intros w Hw E; specialize (N w Hw); rewrite E in N; discriminate N|].
  all: destruct (bestPair _ _ _ _) as [m'|].
  all: try (apply (inj Some) in F; subst m'; destruct c as [c|]; [|contradiction];
    destruct B as [(i & j & p & d & [Ep Ed _ _ _] & _ & (_ & _ & Rp & Rd & _)) _];
    apply list_elem_of_lookup_2, list_elem_of_In in Ep; apply list_elem_of_lookup_2, list_elem_of_In in Ed;
    first [exact (point_ref_valid _ _ _ N Ep Rp) | exact (point_ref_valid _ _ _ N Ed Rd)]).
  all: exfalso; apply T.
  all: destruct (Query.includeAlternates q); [|discriminate F].
  all: destruct (truthy (Query.userRoutePolyline q)); [|discriminate F].
  all: destruct (truthy (Ride.routePolyline (seg_ride ride))) as [pl|]; [|discriminate F].
  all: exact (altRoute_type _ _ _ _ _ F).
Qed.

(** ** The token of a result *)

(** What the tables hold: rows under their ids, and ids that are not blank. *)
Record named_rows (d : Db.t) : Prop := {
  rides_keyed : forall k r, Db.ride d !! k = Some r -> Ride.id r = k;
  rides_named : forall k r, Db.ride d !! k = Some r -> notBlank k = true;
  waypoints_named : forall k w, Db.rideWaypoint d !! k = Some w -> notBlank (RideWaypoint.id w) = true;
}.

Lemma waypointsOf_named d rideId w : named_rows d -> In w (waypointsOf d rideId) -> notBlank (RideWaypoint.id w) = true.
Proof.
  intros N I. unfold waypointsOf in I. apply (Permutation_in _ (sort_by_perm _ _)) in I.
  apply where_elem in I as [_ [k K]]. exact (waypoints_named _ N k w K).
Qed.

(** A result with a token: its ride, the points its token names, and its price. *)
Lemma result_token q viewer d terms s r s' x token : named_rows d -> (forall p, TokenLaws p) ->
  Db.ride d !! Ride.id r = Some r ->
  evaluateRide q viewer d terms r s = (s', Ok (Some x)) -> EnhancedResult.segmentId x = Some token ->
  exists p view, decodeViewToken token = Ok p /\ ViewTokenPayload.rideId p = Ride.id r /\
    (let ride := withWaypoints d r in
     resolveSegmentView routeSharesBetween ride (buildSegmentPoints ride)
       (Some (ViewTokenPayload.pickupRef p)) (Some (ViewTokenPayload.dropRef p)) = Some view) /\
    EnhancedResult.ride x = r /\ EnhancedResult.segment x = Some view /\
    EnhancedResult.riderTotalPerSeat x =
      PriceBreakdown.totalPrice (quoteOf (SegmentView.basePricePerSeat view) (Ride.currency r) 1 (feeTermsOf terms (Ride.id r))).
Proof.
  intros N TL K Er Tk. apply evaluateRide_inv in Er as (m & tk & F & I & -> & _).
  change (tk = Some token) in Tk. subst tk. unfold issueToken in I.
  destruct (riderViewOf (withWaypoints d r) m) as [view|] eqn:V; [|apply mret_inv in I as [_ I]; discriminate I].
  destruct (view_refs_valid q (withWaypoints d r) m view (fun w => waypointsOf_named d (Ride.id r) w N) F V) as (V1 & V2 & W).
  apply bind_inv in I as (tk & s1 & I & E). apply mret_inv in E as [_ E]. injection E as ->.
  unfold check in I. injection I as <- I.
  set (p := {| ViewTokenPayload.rideId := Ride.id r; ViewTokenPayload.pickupRef := Match.pickupRef m;
               ViewTokenPayload.dropRef := Match.dropRef m |}) in I.
  exists p, view. split; [exact (token_decodes p token (TL p) (rides_named _ N _ _ K) V1 V2 I)|].
  split; [reflexivity|]. split; [exact W|]. split; [reflexivity|]. split; reflexivity.
Qed.

(** C19. The price a search quotes is the price charged.  A result for a part of a ride carries a
    token.  As long as the tables have not changed, the page the token opens shows the
    same part at the same price for a seat, and a booking of a seat with the token, at
    the ride's fee terms, is planned at that price. *)
Theorem search_quote_is_charged (q : Query.t) (viewer : option string) (s s' : St.t) found groups x token :
  named_rows (St.db s) -> SnapInv (St.db s) -> (forall p, TokenLaws p) ->
  searchRidesAdvanced q viewer s = (s', Ok (found, groups)) -> In x (Page.items found) ->
  EnhancedResult.segmentId x = Some token ->
  let rideId := Ride.id (EnhancedResult.ride x) in
  exists s1 s2 terms details,
    resolveRideFeeTerms rideId s = (s1, Ok terms) /\
    getRideViewByToken token viewer s = (s2, Ok (Some details)) /\
    RideDetails.segment details = EnhancedResult.segment x /\
    RideDetails.riderTotalPerSeat details = EnhancedResult.riderTotalPerSeat x /\
    forall passengerId input s3 plan,
      CreateBookingInput.rideId input = rideId -> CreateBookingInput.segmentId input = Some token ->
      CreateBookingInput.seatsBooked input = 1 ->
      resolveBookingPlan routeSharesBetween passengerId input false terms None s = (s3, Ok plan) ->
      PriceBreakdown.totalPrice (BookingPlan.priceBreakdown plan) = EnhancedResult.riderTotalPerSeat x.
Proof.
  intros N U TL E I Tk rideId. subst rideId. unfold searchRidesAdvanced in E. rewrite bind_run in E. cbn [get fst snd] in E.
  apply bind_inv in E as (rides & s0' & [Ef ->]%check_inv & E).
  destruct (bulk_terms_agree (map Ride.id rides) s U) as (s0 & terms & Eb & Agree).
  rewrite (bind_Ok _ _ _ _ _ Eb) in E. apply bind_inv in E as (results & sr & Ev & E).
  apply mret_inv in E as [_ E]. apply pair_equal_spec in E as [<- _]. cbn [Page.items] in I.
  apply in_slice, in_sort_cmp in I. destruct (evaluateRides_in _ _ _ _ _ _ _ _ _ Ev I) as (r & u & v & Ir & Er).
  assert (Ir' := Ir). apply (futureRides_in _ _ _ Ef) in Ir as [Ir F]. apply in_take in Ir.
  destruct (advancedWhere_offered _ _ _ _ Ir F) as [[k K] Pub _ _ _ Fem].
  assert (k = Ride.id r) as -> by (symmetry; exact (rides_keyed _ N _ _ K)).
  destruct (result_token _ _ _ _ _ _ _ _ _ N TL K Er Tk) as (p & view & D & Hp & W & -> & -> & ->).
  destruct (Agree (Ride.id r)) as (s1 & t & Et & Lt); [apply list_elem_of_In, in_map, Ir'|].
  assert (Ft : feeTermsOf terms (Ride.id r) = termsPair t) by (unfold feeTermsOf; rewrite Lt; reflexivity).
  assert (Vis : findVisibleRide (St.db s) (Ride.id r) viewer = Some r).
  { unfold findVisibleRide. rewrite K. unfold rideDetailsVisible. rewrite (bool_decide_eq_true_2 _ Pub), orb_true_l, andb_true_r.
    destruct (Ride.femaleOnly r); [rewrite (Fem eq_refl)|rewrite orb_true_r]; reflexivity. }
  exists s1, s1, t, (rideDetails (St.db s) r viewer t (Some view) (Some token)). split; [exact Et|].
  split.
  { unfold getRideViewByToken. rewrite bind_run. unfold check. cbn [fst snd]. rewrite D. rewrite bind_run. cbn [get fst snd].
    rewrite Hp, Vis. cbv zeta in W |- *. rewrite W. rewrite (bind_Ok _ _ _ _ _ Et). reflexivity. }
  split; [reflexivity|]. split; [rewrite Ft; reflexivity|].
  intros passengerId input s3 plan Hr Hs Hn Ep. pose proof (plan_price passengerId input false t s) as P.
  unfold wp in P. rewrite Ep in P. cbn [fst snd if_ok] in P. destruct P as (r' & refs & view' & K' & Rq & W' & ->).
  rewrite Hr, K in K'. injection K' as <-.
  assert (Rq' : requestedSegment input = Ok (ViewTokenPayload.pickupRef p, ViewTokenPayload.dropRef p)).
  { unfold requestedSegment. rewrite Hs. destruct token; [discriminate D|]. cbn [truthy]. rewrite D, Hp, Hr.
    rewrite decide_True by reflexivity. reflexivity. }
  rewrite Rq' in Rq. injection Rq as <-. rewrite Hr in W'. cbv zeta in W, W'. cbn [fst snd] in W'.
  unfold withWaypoints in W. rewrite W in W'. injection W' as <-. rewrite Hn, Ft. reflexivity.
Qed.
End quotes.

(** ** Witnesses *)

Definition quiet_codec : PolylineCodec := {| polyline_decode := fun _ => None; polyline_encode := fun _ => ""%string |}.
Definition quiet_zone : RideZone := {| rideTimeOffset := fun _ => 10800000 |}.

Definition demo_trip : Ride.t :=
  Ride.defaults "ride" 0 <| Ride.driverId := "d1"%string |> <| Ride.status := RideStatus.PUBLISHED |>
    <| Ride.originLat := 59 # 1 |> <| Ride.originLng := 25 # 1 |> <| Ride.destinationLat := 58 # 1 |>
    <| Ride.destinationLng := 27 # 1 |> <| Ride.departureDate := 86400000 |> <| Ride.departureTime := "10:00"%string |>
    <| Ride.totalSeats := 3 |> <| Ride.availableSeats := 3 |> <| Ride.basePricePerSeat := num_of_Z 20 |>
    <| Ride.currency := "EUR"%string |>.

Definition demo_stop : RideWaypoint.t :=
  RideWaypoint.defaults "w1" 0 <| RideWaypoint.rideId := "ride"%string |> <| RideWaypoint.orderIndex := 1 |>
    <| RideWaypoint.lat := 117 # 2 |> <| RideWaypoint.lng := 26 # 1 |> <| RideWaypoint.waypointType := WaypointType.STOPOVER |>
    <| RideWaypoint.pricePerSeat := Some (num_of_Z 8) |>.

Definition demo_search : St.t :=
  {| St.db := St.db demo_pricing <| Db.ride := {["ride"%string := demo_trip]} |>
                                 <| Db.rideWaypoint := {["w1"%string := demo_stop]} |>; St.fx := []; St.seq := 0 |}.

(** From the stop to the destination. *)
Definition demo_query : Query.t := {|
  Query.originLat := 117 # 2; Query.originLng := 26 # 1; Query.destinationLat := 58 # 1; Query.destinationLng := 27 # 1;
  Query.departureDate := None; Query.departureTime := None; Query.departurePeriod := None; Query.seatsRequired := 1;
  Query.maxPrice := None; Query.femaleOnly := false; Query.sortBy := price; Query.ascending := true; Query.page := 1;
  Query.limit := 10; Query.radiusKm := RADIUS_KM; Query.userRoutePolyline := None; Query.includeAlternates := false |}.

Definition demo_find : St.t * Res (Page.t EnhancedResult.t * list (list EnhancedResult.t)) :=
  @searchRidesAdvanced (demo_env 1000 no_failure) demo_codec quiet_zone quiet_codec demo_query (Some "p1"%string) demo_search.

Definition demo_result : option EnhancedResult.t :=
  match demo_find.2 with Ok (found, _) => head (Page.items found) | Err _ => None end.

Example demo_result_shown :
  (fun x => (EnhancedResult.matchType x, EnhancedResult.score x, Qred (EnhancedResult.basePricePerSeat x),
             neqb (EnhancedResult.riderTotalPerSeat x) (rnd (69 # 5)), bool_decide (is_Some (EnhancedResult.segmentId x)))) <$> demo_result
  = Some (COND_4, 1020, 12%Q, true, true).
Proof. vm_compute. reflexivity. Qed.

Lemma demo_search_named : named_rows (St.db demo_search).
Proof.
  assert (R : forall k r, Db.ride (St.db demo_search) !! k = Some r -> k = "ride"%string /\ r = demo_trip).
  { intros k r E. change (({["ride"%string := demo_trip]} : gmap string Ride.t) !! k = Some r) in E.
    apply lookup_singleton_Some in E as [<- <-]. auto. }
  split.
  - intros k r [-> ->]%R. reflexivity.
  - intros k r [-> _]%R. reflexivity.
  - intros k w E. change (({["w1"%string := demo_stop]} : gmap string RideWaypoint.t) !! k = Some w) in E.
    apply lookup_singleton_Some in E as [<- <-]. reflexivity.
Qed.

Lemma demo_search_snaps : SnapInv (St.db demo_search).
Proof. exact demo_SnapInv. Qed.

(** What the first result and its token are, computed once. *)
Lemma demo_find_token : exists s' found groups x token,
  demo_find = (s', Ok (found, groups)) /\ In x (Page.items found) /\ EnhancedResult.segmentId x = Some token /\
  Ride.id (EnhancedResult.ride x) = "ride"%string.
Proof.
  assert (R : match demo_find.2 with
              | Ok (found, _) => match Page.items found with
                  | x :: _ => bool_decide (is_Some (EnhancedResult.segmentId x)) && bool_decide (Ride.id (EnhancedResult.ride x) = "ride"%string)
                  | [] => false end
              | Err _ => false end = true) by (vm_compute; reflexivity).
  destruct demo_find as [s' [[found groups]|e]]; cbn [snd] in R; [|discriminate R].
  destruct (Page.items found) as [|x l] eqn:I; [discriminate R|]. apply andb_true_iff in R as [R1 R2].
  apply bool_decide_eq_true_1 in R1 as [token T]. apply bool_decide_eq_true_1 in R2.
  exists s', found, groups, x, token. split; [reflexivity|]. split; [rewrite I; left; reflexivity|]. auto.
Qed.

Lemma search_quote_is_charged_witness :
  exists x token details s2,
    @getRideViewByToken (demo_env 1000 no_failure) demo_codec quiet_codec token (Some "p1"%string) demo_search
      = (s2, Ok (Some details)) /\
    RideDetails.riderTotalPerSeat details = EnhancedResult.riderTotalPerSeat x.
Proof.
  destruct demo_find_token as (s' & found & groups & x & token & F & I & T & _).
  destruct (@search_quote_is_charged (demo_env 1000 no_failure) demo_codec quiet_zone quiet_codec demo_query
    (Some "p1"%string) demo_search s' found groups x token demo_search_named demo_search_snaps demo_laws F I T)
    as (s1 & s2 & terms & details & _ & V & _ & P & _).
  exists x, token, details, s2. split; [exact V | exact P].
Defined.

Lemma best_match_is_cheapest_witness :
  exists m, @bestPair (demo_env 1000 no_failure) (riderOrigin demo_query) (riderDest demo_query) RADIUS_KM
    (buildDPoints (withWaypoints (St.db demo_search) demo_trip)) = Some m /\
  exists i j p d, @valid_pair (demo_env 1000 no_failure) (riderOrigin demo_query) (riderDest demo_query) RADIUS_KM
    (withWaypoints (St.db demo_search) demo_trip) i j p d.
Proof.
  assert (N : forall w, In w (seg_waypoints (withWaypoints (St.db demo_search) demo_trip)) -> RideWaypoint.id w <> EmptyString).
  { intros w I E. apply (waypointsOf_named _ _ _ demo_search_named) in I. rewrite E in I. discriminate I. }
  pose proof (@best_match_is_cheapest (demo_env 1000 no_failure) (riderOrigin demo_query) (riderDest demo_query) RADIUS_KM
    (withWaypoints (St.db demo_search) demo_trip) N) as B.
  assert (S : bool_decide (is_Some (@bestPair (demo_env 1000 no_failure) (riderOrigin demo_query) (riderDest demo_query) RADIUS_KM
    (buildDPoints (withWaypoints (St.db demo_search) demo_trip)))) = true) by (vm_compute; reflexivity).
  destruct (@bestPair _ _ _ _ _) as [m|]; [|discriminate S]. exists m. split; [reflexivity|].
  destruct B as (i & j & p & d & V & _). exists i, j, p, d. exact V.
Defined.

Definition demo_polyline : PolylineCodec := {|
  polyline_decode := fun _ => Some [(59 # 1, 25 # 1); (117 # 2, 26 # 1); (58 # 1, 27 # 1)]%Q; polyline_encode := fun _ => ""%string |}.

Lemma alt_route_gets_drop_bonus_witness :
  exists m, @evaluateAltRoute (demo_env 1000 no_failure) demo_polyline (riderOrigin demo_query) (riderDest demo_query) "x"
    RADIUS_KM = Some m /\ Match.score m = 990 /\
  exists d1 d2, Match.pickupDistanceKm m = round2 d1 /\ Match.dropDistanceKm m = round2 d2.
Proof.
  assert (S : Match.score <$> @evaluateAltRoute (demo_env 1000 no_failure) demo_polyline (riderOrigin demo_query) (riderDest demo_query) "x"
    RADIUS_KM = Some 990) by (vm_compute; reflexivity).
  destruct (@evaluateAltRoute _ _ _ _ _ _) as [m|] eqn:E; [|discriminate S]. exists m. split; [reflexivity|].
  split; [injection S; auto|].
  destruct (@alt_route_gets_drop_bonus (demo_env 1000 no_failure) demo_polyline (riderOrigin demo_query) (riderDest demo_query) "x" RADIUS_KM m E)
    as (d1 & d2 & E1 & E2 & _). exists d1, d2. auto.
Defined.

Lemma searches_show_only_bookable_rides_witness :
  exists x, Ride.id (EnhancedResult.ride x) = "ride"%string /\
    @offered (demo_env 1000 no_failure) quiet_zone (St.db demo_search) (Some "p1"%string) 1 (EnhancedResult.ride x).
Proof.
  destruct demo_find_token as (s' & found & groups & x & token & F & I & _ & Id). exists x. split; [exact Id|].
  destruct (@searches_show_only_bookable_rides (demo_env 1000 no_failure) demo_codec quiet_zone quiet_codec demo_query
    (Some "p1"%string) demo_search s') as (_ & _ & A).
  exact (proj1 (A found groups F x I)).
Defined.
