(* ===== verification/Publishing.v ===== *)
(** * What publishing does

    Theorems on [Publish]: the ride, its waypoints and legs; that a failure leaves the
    database alone; that rides of one driver do not overlap, unless a route takes longer
    than a day; and that publishing keeps the invariant of seats and bookings. *)

From Stdlib Require Import ZArith QArith Qround Lia.
From stdpp Require Import base list option strings gmap.
From S2P Require Import Prelude JsNumber JsText Money Schema Store Seats Time Segment Pricing Gateway RideRequest Booking RideOps Route.
From S2P Require Import Invariant Safe Eligibility Draft Publish.

Open Scope Z_scope.

Import Eligibility DraftRide PublishDraft.

(** ** Writing many rows *)

(** A table is a field of the database. *)
Class TableLaws {R} (t : Table R) : Prop := {
  rows_with_rows : forall f d, rows t (with_rows t f d) = f (rows t d);
  with_rows_twice : forall f g d, with_rows t f (with_rows t g d) = with_rows t (fun m => f (g m)) d;
  with_rows_const : forall f d, with_rows t f d = with_rows t (fun _ => f (rows t d)) d;
  with_rows_same : forall d, with_rows t (fun _ => rows t d) d = d;
}.

#[global] Instance laws_waypoint : TableLaws prisma.rideWaypoint.
Proof. split; try reflexivity. intros []. reflexivity. Qed.
#[global] Instance laws_leg : TableLaws prisma.rideSegmentCapacity.
Proof. split; try reflexivity. intros []. reflexivity. Qed.

(** The rows under their ids, in front of the table. *)
Definition under {R X} (mk : string -> X -> R) (ks : list string) (l : list X) : gmap string R :=
  list_to_map (zip_with (fun k x => (k, mk k x)) ks l).

Definition fresh_ids {R} (ks : list string) (m : gmap string R) : Prop := NoDup ks /\ forall k, k ∈ ks -> m !! k = None.

Lemma under_None {R X} (mk : string -> X -> R) ks l k : k ∉ ks -> under mk ks l !! k = None.
Proof.
  intros N. apply not_elem_of_list_to_map_1. intros E. apply N. clear N. revert l E.
  induction ks as [|k' ks IH]; intros [|x l] E; cbn in E; try solve [inversion E].
  apply elem_of_cons in E as [->|E]; [left | right; exact (IH _ E)].
Qed.

Lemma under_Some {R X} (mk : string -> X -> R) ks l k r : under mk ks l !! k = Some r ->
  exists i x, ks !! i = Some k /\ l !! i = Some x /\ r = mk k x.
Proof.
  intros E. apply elem_of_list_to_map_2 in E. revert l E.
  induction ks as [|k' ks IH]; intros [|x l] E; cbn in E; try solve [inversion E].
  apply elem_of_cons in E as [[= -> ->]|E]; [exists 0%nat, x; auto|].
  destruct (IH _ E) as (i & y & A & B & C). exists (S i), y. auto.
Qed.

Section batch.
Context `{Env} {R : Type} (t : Table R) `{!TableLaws t}.

Lemma insert_all {X} (mk : string -> X -> R) (l : list X) (s : St.t) :
  wp (for_each l (fun x => id ← randomUUID; create t id (mk id x);; mret tt))
     (if_ok (fun s' _ => exists ks, length ks = length l /\ fresh_ids ks (rows t (St.db s)) /\
        St.db s' = with_rows t (fun m => under mk ks l ∪ m) (St.db s))) s.
Proof.
  revert s. induction l as [|x l IH]; intros s.
  - apply wp_ret. exists []. split; [reflexivity|]. split; [split; [constructor | intros k E; inversion E]|].
    cbn. rewrite with_rows_const. change (under mk [] []) with (∅ : gmap string R). rewrite (left_id_L ∅ (∪)). rewrite with_rows_same. reflexivity.
  - cbn [for_each]. apply wp_bind, wp_bind, wp_run. intros s1 r [= <- <-]. cbv beta iota. apply wp_bind.
    apply wp_create; [intros o E; exact I|]. intros E. apply wp_ret. cbn [St.db] in *.
    eapply wp_mono; [apply IH|]. intros s' [u|e]; [|intros; exact I]. cbn [if_ok St.db]. intros (ks & L & [ND F] & E').
    cbn in F, E'. rewrite rows_with_rows in F.
    assert (N : uuid (St.seq s) ∉ ks).
    { intros I. specialize (F _ I). rewrite lookup_insert_eq in F. discriminate F. }
    exists (uuid (St.seq s) :: ks). split; [cbn; rewrite L; reflexivity|]. split.
    + split; [constructor; assumption|]. intros k [->|I]%elem_of_cons; [exact E|].
      specialize (F k I). rewrite lookup_insert_ne in F by (intros <-; contradiction). exact F.
    + rewrite E', with_rows_twice, (with_rows_const (fun m => under mk ks l ∪ _)), (with_rows_const (fun m => under mk (_ :: ks) (x :: l) ∪ m)).
      assert (M : under mk ks l ∪ <[uuid (St.seq s) := mk (uuid (St.seq s)) x]> (rows t (St.db s)) =
                  under mk (uuid (St.seq s) :: ks) (x :: l) ∪ rows t (St.db s)); [|rewrite M; reflexivity].
      apply map_eq. intros k.
      change (under mk (uuid (St.seq s) :: ks) (x :: l)) with (<[uuid (St.seq s) := mk (uuid (St.seq s)) x]> (under mk ks l)).
      destruct (decide (k = uuid (St.seq s))) as [->|Nk].
      * rewrite !lookup_union, !lookup_insert_eq, (under_None _ _ _ _ N). destruct (rows t (St.db s) !! _); reflexivity.
      * rewrite !lookup_union, !lookup_insert_ne by congruence. reflexivity.
Qed.
End batch.

(** ** The transaction *)

Section insert.
Context `{Env} `{EligibilityEnv} `{Google} `{PublishEnv}.

Definition only_snapshots (d d' : Db.t) : Prop := exists m, d' = d <| Db.ridePricingSnapshot := m |>.

Definition liveConfig (d : Db.t) : option PricingConfig.t :=
  head (sort_desc PricingConfig.validFrom
    (where_ prisma.pricingConfig (fun c => bool_decide (PricingConfig.regionCode c = DEFAULT_REGION) && isLive now c) d)).

(** The price is at least the lowest of the configuration, whose fees the ride keeps. *)
Definition priced (ride : Ride.t) (d d' : Db.t) : Prop :=
  forall meters config, Ride.routeDistanceMeters ride = Some meters -> 0 < meters -> liveConfig d = Some config ->
    nlt (Ride.basePricePerSeat ride)
        (PriceCalculation.minAllowedPricePerSeat (calculatePrice (kilometers (num_of_Z meters)) config)) = false /\
    exists k sn, Db.ridePricingSnapshot d' !! k = Some sn /\ RidePricingSnapshot.rideId sn = Ride.id ride /\
      RidePricingSnapshot.serviceFeePercent sn = PricingConfig.serviceFeePercent config /\
      RidePricingSnapshot.serviceFeeFlat sn = PricingConfig.serviceFeeFlat config.

Lemma snapshot_validation (rideId : string) (km price : num) s :
  wp (validateAndSnapshotPricing rideId km price None)
     (fun s' r => only_snapshots (St.db s) (St.db s') /\
        match r with
        | Ok (v, _) => forall config, liveConfig (St.db s) = Some config -> pv_valid v = true ->
            nlt price (PriceCalculation.minAllowedPricePerSeat (calculatePrice km config)) = false /\
            exists k sn, Db.ridePricingSnapshot (St.db s') !! k = Some sn /\ RidePricingSnapshot.rideId sn = rideId /\
              RidePricingSnapshot.serviceFeePercent sn = PricingConfig.serviceFeePercent config /\
              RidePricingSnapshot.serviceFeeFlat sn = PricingConfig.serviceFeeFlat config
        | Err e => e = "PRICING_CONFIG_NOT_FOUND"%string -> liveConfig (St.db s) = None
        end) s.
Proof.
  assert (Same : only_snapshots (St.db s) (St.db s)) by (exists (Db.ridePricingSnapshot (St.db s)); destruct (St.db s); reflexivity).
  unfold validateAndSnapshotPricing, getActivePricingConfig. cbv zeta. apply wp_bind, wp_get.
  change (head _) with (liveConfig (St.db s)). destruct (liveConfig (St.db s)) as [config|]; [|split; [exact Same | intros _; reflexivity]].
  destruct (pv_valid _) eqn:V; cbn [negb].
  2: { apply wp_ret. split; [exact Same|]. intros c [= <-] V'. rewrite V in V'. discriminate V'. }
  apply wp_bind, wp_run. intros s1 r [= <- <-]. cbv beta iota. apply wp_bind.
  unfold createSnapshot, findSnapshot. wp_query. wp_query. destruct o as [old|].
  { split; [exact Same | intros Er; discriminate Er]. }
  apply wp_create; [intros old Eo; split; [exact Same | intros Er; discriminate Er]|]. intros Ef. apply wp_ret.
  split; [eexists; reflexivity|]. intros c [= <-] _. split.
  - unfold validateDriverPrice in V. destruct (nlt _ _); [discriminate V | reflexivity].
  - eexists (uuid (St.seq s)), _. cbn. rewrite lookup_insert_eq. split; [reflexivity|]. repeat split.
Qed.

Lemma snapshot_spec (ride : Ride.t) s :
  wp (snapshotPrice ride) (if_ok (fun s' _ => only_snapshots (St.db s) (St.db s') /\ priced ride (St.db s) (St.db s'))) s.
Proof.
  assert (Same : only_snapshots (St.db s) (St.db s)) by (exists (Db.ridePricingSnapshot (St.db s)); destruct (St.db s); reflexivity).
  unfold snapshotPrice. destruct (Ride.routeDistanceMeters ride) as [meters|] eqn:Em.
  2: { apply wp_ret. split; [exact Same|]. intros m c E. congruence. }
  apply wp_when; intros L.
  2: { apply Z.ltb_ge in L. split; [exact Same|]. intros m c E P. assert (m = meters) by congruence. lia. }
  apply wp_try_catch. apply wp_bind. eapply wp_mono; [apply snapshot_validation|].
  intros s1 [[v id]|e] [O R].
  - apply wp_throw_if; intros V; [cbn; exact I|]. apply negb_false_iff in V. split; [exact O|].
    intros m c E _ Lc. assert (m = meters) as -> by congruence. exact (R c Lc V).
  - case_decide as D; [|exact I]. apply wp_ret. split; [exact O|]. intros m c _ _ Lc. rewrite (R D) in Lc. discriminate Lc.
Qed.

(** ** The ride that is made *)

Definition legOf (rideId : string) (id : string) (i : nat) : RideSegmentCapacity.t :=
  {| RideSegmentCapacity.id := id; RideSegmentCapacity.rideId := rideId; RideSegmentCapacity.fromPosition := Z.of_nat i;
     RideSegmentCapacity.toPosition := Z.of_nat i + 1; RideSegmentCapacity.occupiedSeats := 0 |}.

Definition waypointOf (id : string) (w : RideWaypoint.t) : RideWaypoint.t := w <| RideWaypoint.id := id |>.

(** The rows of the route, with the times of arrival. *)
Definition routeRows (ride : Ride.t) (draft : Draft.t) : list RideWaypoint.t :=
  timedRows (Ride.departureTime ride) (Ride.routeDurationSeconds ride)
    (waypointRows (Ride.id ride) (Ride.basePricePerSeat ride) draft).

(** The tables after the transaction: one ride more, its waypoints, and one leg more than
    it has waypoints, all legs empty; bookings are untouched. *)
Record inserted (draft : Draft.t) (ride : Ride.t) (d d' : Db.t) : Prop := {
  ins_fresh : Db.ride d !! Ride.id ride = None;
  ins_ride : Db.ride d' = <[Ride.id ride := ride]> (Db.ride d);
  ins_bookings : Db.rideBooking d' = Db.rideBooking d;
  ins_waypoints : exists ks, length ks = length (routeRows ride draft) /\ fresh_ids ks (Db.rideWaypoint d) /\
    Db.rideWaypoint d' = under waypointOf ks (routeRows ride draft) ∪ Db.rideWaypoint d;
  ins_legs : exists ks, length ks = S (length (routeRows ride draft)) /\ fresh_ids ks (Db.rideSegmentCapacity d) /\
    Db.rideSegmentCapacity d' = under (legOf (Ride.id ride)) ks (seq 0 (S (length (routeRows ride draft)))) ∪ Db.rideSegmentCapacity d;
  ins_priced : priced ride d d';
}.

(** The row, from the draft. *)
Record from_draft (driverId : string) (draft : Draft.t) (vehicle : Vehicle.t) (date : Z) (time : string) (seats : Z) (price : num)
    (ride : Ride.t) : Prop := {
  row_driver : Ride.driverId ride = driverId;
  row_vehicle : Ride.vehicleId ride = Some (Vehicle.id vehicle);
  row_origin : Some (Ride.originPlaceId ride) = Draft.originPlaceId draft;
  row_destination : Some (Ride.destinationPlaceId ride) = Draft.destinationPlaceId draft;
  row_route : Ride.routePolyline ride = Draft.routePolyline draft /\
    Ride.routeDistanceMeters ride = Draft.routeDistanceMeters draft /\
    Ride.routeDurationSeconds ride = Draft.routeDurationSeconds draft;
  row_departure : Ride.departureDate ride = dateColumn date /\ Ride.departureTime ride = time;
  row_seats : Ride.totalSeats ride = seats /\ Ride.availableSeats ride = seats;
  row_price : Ride.basePricePerSeat ride = price;
  row_status : Ride.status ride = RideStatus.PUBLISHED;
}.

Lemma newRide_spec id driverId draft vehicle date time seats price s :
  wp (newRide id driverId draft vehicle date time seats price)
     (fun s' r => s' = s /\ match r with Ok ride => Ride.id ride = id /\ from_draft driverId draft vehicle date time seats price ride
                            | Err _ => True end) s.
Proof.
  unfold newRide, required. repeat wp_step; try (split; [reflexivity | exact I]).
  split; [reflexivity|]. split; [reflexivity|]. split; cbn; repeat split; congruence.
Qed.

(** No ride of the driver that counts is under way at the time. *)
Definition free_slot (d : Db.t) (driverId : string) (date : Z) (time : string) (duration : option Z) : Prop :=
  forall r, In r (where_ prisma.ride (isBlockingRide d driverId None (dayOf date * msPerDay)) d) ->
    overlaps (rideStart date time) duration (rideStart (Ride.departureDate r) (Ride.departureTime r)) (Ride.routeDurationSeconds r) = false.

Lemma overlap_spec driverId date time duration s :
  wp (assertDriverHasNoOverlappingRide driverId date time duration None)
     (fun s' r => s' = s /\ match r with Ok _ => free_slot (St.db s) driverId date time duration | Err _ => True end) s.
Proof.
  unfold assertDriverHasNoOverlappingRide. cbv zeta. apply wp_bind, wp_get. apply wp_throw_if; intros E; [split; [reflexivity | exact I]|].
  split; [reflexivity|]. intros r Ir. apply not_true_iff_false. intros O. apply not_true_iff_false in E. apply E, existsb_exists. eauto.
Qed.

Lemma insert_spec driverId draft vehicle date time seats price s :
  wp (insertRide driverId draft vehicle date time seats price)
     (if_ok (fun s' ride => from_draft driverId draft vehicle date time seats price ride /\
        inserted draft ride (St.db s) (St.db s') /\
        free_slot (St.db s) driverId date time (Draft.routeDurationSeconds draft))) s.
Proof.
  unfold insertRide. apply wp_bind. eapply wp_mono; [apply overlap_spec|]. intros s0 [[]|e] [-> Slot]; [|exact I].
  apply wp_bind, wp_run. intros s1 r [= <- <-]. cbv beta iota. apply wp_bind.
  eapply wp_mono; [apply newRide_spec|]. intros s2 [ride|e] [-> F]; [|exact I]. destruct F as [Id F].
  apply wp_bind. apply wp_create; [intros o E; exact I|]. cbn. intros E. apply wp_bind.
  rewrite <- Id. fold (routeRows ride draft).
  eapply wp_mono; [exact (insert_all prisma.rideWaypoint waypointOf (routeRows ride draft) _)|].
  intros s3 [[]|e]; [|intros; exact I]. cbn [if_ok]. intros (ks & L & Fr & Ew). apply wp_bind.
  eapply wp_mono; [exact (insert_all prisma.rideSegmentCapacity (legOf (Ride.id ride)) (seq 0 (S (length (routeRows ride draft)))) _)|].
  intros s4 [[]|e]; [|intros; exact I]. cbn [if_ok]. intros (ls & Ll & Fl & El). apply wp_bind.
  eapply wp_mono; [apply snapshot_spec|]. intros s5 [[]|e]; [|intros; exact I]. cbn [if_ok]. intros [[m Em] Pr].
  apply wp_ret. split; [exact F|]. split; [|exact Slot].
  assert (Dw : Db.rideWaypoint (St.db s5) = under waypointOf ks (routeRows ride draft) ∪ Db.rideWaypoint (St.db s)).
  { rewrite Em. cbn. rewrite El. cbn. rewrite Ew. reflexivity. }
  assert (Dl : Db.rideSegmentCapacity (St.db s5) =
    under (legOf (Ride.id ride)) ls (seq 0 (S (length (routeRows ride draft)))) ∪ Db.rideSegmentCapacity (St.db s)).
  { rewrite Em. cbn -[under seq]. rewrite El. cbn -[under seq]. rewrite Ew. reflexivity. }
  rewrite length_seq in Ll. split.
  - rewrite Id. exact E.
  - rewrite Em. cbn. rewrite El. cbn. rewrite Ew. reflexivity.
  - rewrite Em. cbn. rewrite El. cbn. rewrite Ew. reflexivity.
  - exists ks. split; [exact L|]. split; [|exact Dw]. destruct Fr as [ND Fr]. split; [exact ND | exact Fr].
  - exists ls. split; [exact Ll|]. split; [|exact Dl]. destruct Fl as [ND Fl]. split; [exact ND|].
    intros k Hk. specialize (Fl k Hk). rewrite Ew in Fl. exact Fl.
  - intros meters c Hm P Lc. apply (Pr meters c Hm P). rewrite El, Ew. exact Lc.
Qed.
End insert.

(** ** Publishing *)

Section publishing.
Context `{Env} `{EligibilityEnv} `{Google} `{PublishEnv} `{Mode}.

(** What a published ride went through. *)
Record publishable (d : Db.t) (driverId : string) (draft : Draft.t) (date : Z) (time : string) (seats : Z) (price : num)
    (vehicle : Vehicle.t) : Prop := {
  pub_origin : exists place, truthy (Draft.originPlaceId draft) = Some place /\ validateBalticPlace place = Ok tt;
  pub_destination : exists place, truthy (Draft.destinationPlaceId draft) = Some place /\ validateEuropeanDestinationPlace place = Ok tt;
  pub_schedule : Draft.departureDate draft = Some date /\ Draft.departureTime draft = Some time /\
    isPublishDepartureTooSoon date time now = false;
  pub_capacity : Draft.totalSeats draft = Some seats /\ seats <> 0 /\ Draft.basePricePerSeat draft = Some price;
  pub_driver : cleared d driverId None;
  pub_vehicle : head (where_ prisma.vehicle (isDriversVehicle driverId None) d) = Some vehicle;
  pub_female : Draft.femaleOnly draft = Some true -> exists u, Db.user d !! driverId = Some u /\ User.gender u = Some Gender.FEMALE;
  pub_road : Draft.routeIsPublishable draft <> Some false;
  pub_points : listOf (Draft.pickups draft) <> [] /\ listOf (Draft.dropoffs draft) <> [];
  pub_corridor : exists polyline, truthy (Draft.routePolyline draft) = Some polyline /\
    forall p, In p (listOf (Draft.pickups draft) ++ listOf (Draft.dropoffs draft) ++ listOf (Draft.stopovers draft)) ->
      offRoute polyline p = false;
}.

Lemma truthy_some (x : option string) y : truthy x = Some y -> x = Some y.
Proof. destruct x as [[|c s]|]; cbn; congruence. Qed.

Lemma truthy_Z_some x n : truthy_Z x = Some n -> x = Some n /\ n <> 0.
Proof. destruct x as [[|p|p]|]; cbn; intros [= <-]; split; congruence. Qed.

Lemma truthy_num_some x p : truthy_num x = Some p -> x = Some p.
Proof. unfold truthy_num. destruct x as [y|]; [|discriminate]. repeat case_match; congruence. Qed.

(** A published ride, from the gates and the transaction. *)
Lemma publish_spec (driverId : string) (draft : Draft.t) (s : St.t) :
  wp (publishDraft driverId draft)
     (fun s' r => match r with
        | Ok ride => exists date time seats price vehicle,
            publishable (St.db s) driverId draft date time seats price vehicle /\
            from_draft driverId draft vehicle date time seats price ride /\
            inserted draft ride (St.db s) (St.db s') /\
            free_slot (St.db s) driverId date time (Draft.routeDurationSeconds draft)
        | Err _ => St.db s' = St.db s
        end) s.
Proof.
  unfold publishDraft.
  destruct (truthy (Draft.originPlaceId draft)) as [origin|] eqn:Eo; [|reflexivity].
  destruct (truthy (Draft.destinationPlaceId draft)) as [destination|] eqn:Ed; [|reflexivity].
  destruct (truthy (Draft.routePolyline draft)) as [polyline|] eqn:Er; [|reflexivity].
  destruct (Draft.departureDate draft) as [date|] eqn:Edd; [|reflexivity].
  destruct (truthy (Draft.departureTime draft)) as [time|] eqn:Et; [|reflexivity].
  apply wp_bind, wp_throw_if; intros Soon; [reflexivity|].
  destruct (truthy_Z (Draft.totalSeats draft)) as [seats|] eqn:Es; [|reflexivity].
  destruct (truthy_num (Draft.basePricePerSeat draft)) as [price|] eqn:Ep; [|reflexivity].
  repeat (apply wp_bind, wp_check; [|reflexivity]; intros [] ?).
  apply wp_bind, wp_run. rewrite assert_run. intros s0 r [= <- <-].
  destruct (blocker (St.db s) driverId None) eqn:B; [reflexivity|]. apply blocker_cleared in B. cbv beta iota.
  apply wp_bind, wp_findUnique. intros driver Eu.
  apply wp_bind, wp_throw_if; intros Female; [reflexivity|].
  apply wp_bind, wp_throw_if; intros Road; [reflexivity|].
  apply wp_bind, wp_throw_if; intros Points; [reflexivity|].
  apply wp_bind. eapply wp_mono; [apply overlap_spec|]. intros s0 [[]|e] [-> _]; [|reflexivity].
  apply wp_bind, wp_throw_if; intros Off; [reflexivity|].
  apply wp_bind, wp_findFirst. intros [vehicle|] Ev; [|reflexivity].
  apply wp_transaction. eapply wp_mono; [apply insert_spec|]. intros s1 [ride|e]; [|reflexivity]. cbn [if_ok].
  intros (F & I & Slot). exists date, time, seats, price, vehicle. split; [|auto].
  apply truthy_Z_some in Es as [Es Ns]. apply truthy_num_some in Ep.
  apply orb_false_iff in Points as [P1 P2]. apply bool_decide_eq_false_1 in P1. apply bool_decide_eq_false_1 in P2.
  apply bool_decide_eq_false_1 in Road.
  split; try (eexists; split; [eassumption | assumption]).
  - auto using truthy_some.
  - auto.
  - exact B.
  - exact Ev.
  - intros Ef. rewrite Ef in Female. cbn in Female. apply bool_decide_eq_false_1 in Female.
    apply dec_stable in Female. destruct driver as [u|]; [|discriminate Female]. eauto.
  - exact Road.
  - auto.
  - exists polyline. split; [exact Er|]. intros p Ip. apply not_true_iff_false. intros O.
    apply not_true_iff_false in Off. apply Off, existsb_exists. eauto.
Qed.

(** *** The invariant *)

(** A ride that is new, with all its seats free and its legs empty. *)
Lemma life_new_ride (ride : Ride.t) (d d' : Db.t) :
  0 <= Ride.totalSeats ride -> Ride.availableSeats ride = Ride.totalSeats ride -> Db.ride d !! Ride.id ride = None ->
  Db.ride d' = <[Ride.id ride := ride]> (Db.ride d) -> Db.rideBooking d' = Db.rideBooking d ->
  (forall k c, Db.rideSegmentCapacity d' !! k = Some c -> Db.rideSegmentCapacity d !! k = Some c \/
     RideSegmentCapacity.rideId c = Ride.id ride /\ RideSegmentCapacity.occupiedSeats c = 0) ->
  Good d -> Life d d'.
Proof.
  intros P A N Er Eb Ec G. pose proof (good_seats d G) as I.
  assert (Z0 : forall k b, Db.rideBooking d !! k = Some b -> seatsOn (Ride.id ride) b = 0).
  { intros k b E. unfold seatsOn, holdsOn. destruct (inv_ride d I k b E) as [r Hr].
    rewrite bool_decide_eq_false_2 by congruence. reflexivity. }
  split; [split|split].
  - split; unfold held; rewrite ?Er, ?Eb.
    + exact (inv_booking_id d I).
    + intros k r [[<- <-]|[_ E]]%lookup_insert_Some; [reflexivity | exact (inv_ride_id d I k r E)].
    + exact (inv_seats_pos d I).
    + intros k b E. destruct (inv_ride d I k b E) as [r Hr]. rewrite lookup_insert_ne by congruence. eauto.
    + intros k r [[<- <-]|[_ E]]%lookup_insert_Some; [|exact (inv_available d I k r E)].
      rewrite A, sum_map_zero by exact Z0. split; [by_agrees | exact P].
    + intros k c E. destruct (Ec k c E) as [E'|[R O]]; [exact (inv_occupied d I k c E')|].
      rewrite O, sum_map_zero; [by_agrees|]. intros k' b E'.
      unfold seatsOnEdge. rewrite R, (Z0 _ _ E'). destruct (covers _ _); reflexivity.
  - rewrite Eb. exact (good_pending d G).
  - rewrite Eb. exact (good_held d G).
  - rewrite Eb. exact (good_unheld d G).
  - rewrite Eb. exact (good_active d G).
  - intros k b E. rewrite Eb. exists b. split; [exact E | reflexivity].
  - intros k r E. rewrite Er. exists r. split; [rewrite lookup_insert_ne by congruence; exact E | reflexivity].
Qed.

Lemma life_inserted driverId draft vehicle date time seats price ride (d d' : Db.t) :
  0 <= seats -> from_draft driverId draft vehicle date time seats price ride -> inserted draft ride d d' ->
  Good d -> Life d d'.
Proof.
  intros P F [N Er Eb _ (ls & _ & _ & El) _]. destruct (row_seats _ _ _ _ _ _ _ _ F) as [St Sa].
  apply life_new_ride with ride; try assumption; [rewrite St; exact P | congruence|].
  intros k c. rewrite El. intros [E|[_ E]]%lookup_union_Some_raw; [right | left; exact E].
  apply under_Some in E as (i & x & _ & _ & ->). split; reflexivity.
Qed.

(** The capacity the validator lets through. *)
Definition valid_capacity (draft : Draft.t) : bool :=
  match Draft.totalSeats draft with Some n => 0 <=? n | None => true end.

Lemma safe_publish driverId draft : valid_capacity draft = true -> safe (publishDraft driverId draft).
Proof.
  intros V. apply safe_start. intros s G. eapply wp_mono; [apply publish_spec|]. cbv beta.
  intros s' [ride|e]; [|intros ->; apply life_refl, G].
  intros (date & time & seats & price & vehicle & P & F & I & _).
  eapply life_inserted; [|exact F | exact I | exact G].
  unfold valid_capacity in V. destruct (pub_capacity _ _ _ _ _ _ _ _ P) as [E _]. rewrite E in V. apply Z.leb_le, V.
Qed.

Lemma lift_run {A} (m : H A) (s : DraftSt.t) :
  lift m s = (s <| DraftSt.st := (m (DraftSt.st s)).1 |>, (m (DraftSt.st s)).2).
Proof. unfold lift. destruct (m (DraftSt.st s)). reflexivity. Qed.

(** A notice leaves the tables alone. *)
Lemma notice_keeps userId type s : St.db (createNotification userId type s).1 = St.db s.
Proof. change (wp (createNotification userId type) (fun s' _ => St.db s' = St.db s) s). unfold createNotification. wp_query. reflexivity. Qed.

(** *** Theorems *)

(** C20.  A published ride is one the driver may offer, that riders can find and book:
    the driver has a verified licence, payouts and an approved vehicle, the route is on
    the road from a Baltic place to a European one, it leaves no sooner than allowed,
    every meeting point lies in the corridor of the route and there is one at each end;
    and what is stored is the draft: one ride, its waypoints in order, one empty leg more than waypoints, all
    seats free, at a price no lower than the lowest allowed, in a slot in which the driver
    has no other ride.  Nothing that was there is lost. *)
Theorem publish_makes_bookable_ride (driverId : string) (draft : Draft.t) (s s' : St.t) (ride : Ride.t) :
  publishDraft driverId draft s = (s', Ok ride) ->
  exists date time seats price vehicle,
    publishable (St.db s) driverId draft date time seats price vehicle /\
    from_draft driverId draft vehicle date time seats price ride /\
    inserted draft ride (St.db s) (St.db s') /\
    free_slot (St.db s) driverId date time (Draft.routeDurationSeconds draft).
Proof.
  intros E. pose proof (publish_spec driverId draft s) as W. unfold wp in W. rewrite E in W. exact W.
Qed.

(** C21.  Publishing is all or nothing: when it fails, the database and the driver's draft
    are as before, or the ride is there, complete, its draft gone, and only the notice to
    the driver failed.  (Redis is taken to answer, see [Draft].) *)
Theorem publish_all_or_nothing (driverId error : string) (s s' : DraftSt.t) :
  publishRide driverId s = (s', Err error) ->
  (St.db (DraftSt.st s') = St.db (DraftSt.st s) /\ DraftSt.drafts s' = DraftSt.drafts s /\ DraftSt.routes s' = DraftSt.routes s) \/
  (exists draft expiry st1 ride, DraftSt.drafts s !! driverId = Some (draft, expiry) /\ now <= expiry /\
     publishDraft driverId draft (DraftSt.st s) = (st1, Ok ride) /\
     St.db (DraftSt.st s') = St.db st1 /\ DraftSt.drafts s' !! driverId = None).
Proof.
  unfold publishRide, getDraft. rewrite bind_run. cbn [fst snd].
  destruct (DraftSt.drafts s !! driverId) as [[draft expiry]|] eqn:Ed; [|intros [= <- _]; auto].
  destruct (now <=? expiry) eqn:X; [|intros [= <- _]; auto]. apply Z.leb_le in X.
  rewrite bind_run, lift_run. pose proof (publish_spec driverId draft (DraftSt.st s)) as W. unfold wp in W.
  destruct (publishDraft driverId draft (DraftSt.st s)) as [st1 [ride|e]] eqn:P; cbn [fst snd] in *.
  2: { intros [= <- _]. left. auto. }
  clear W. intros E. right. exists draft, expiry, st1, ride. split; [reflexivity|]. split; [exact X|]. split; [exact P|].
  revert E. unfold delDraft, delRoutes. rewrite !bind_run. cbn [modify fst snd].
  set (x := s <| DraftSt.st := st1 |> <| DraftSt.drafts ::= delete driverId |> <| DraftSt.routes ::= delete driverId |>).
  rewrite lift_run. change (DraftSt.st x) with st1.
  pose proof (notice_keeps driverId "ride.published" st1) as N.
  destruct (createNotification driverId "ride.published" st1) as [st2 r]. cbn [fst snd] in N |- *.
  intros E. assert (E1 : s' = s <| DraftSt.st := st2 |> <| DraftSt.drafts ::= delete driverId |> <| DraftSt.routes ::= delete driverId |>).
  { change (s <| DraftSt.st := st2 |> <| DraftSt.drafts ::= delete driverId |> <| DraftSt.routes ::= delete driverId |>)
      with (x <| DraftSt.st := st2 |>). destruct r; [discriminate E | injection E as <- _; reflexivity]. }
  rewrite E1. cbn. split; [exact N | apply lookup_delete_eq].
Qed.

(** *** One ride at a time *)

Definition live (r : Ride.t) : bool := bool_decide (Ride.status r ∈ ACTIVE_DRIVER_RIDE_STATUSES).

Definition clash (r1 r2 : Ride.t) : bool :=
  overlaps (rideStart (Ride.departureDate r1) (Ride.departureTime r1)) (Ride.routeDurationSeconds r1)
           (rideStart (Ride.departureDate r2) (Ride.departureTime r2)) (Ride.routeDurationSeconds r2).

(** A day, a clock time and at most a day on the road. *)
Definition timetabled (r : Ride.t) : Prop :=
  Ride.departureDate r = dateColumn (Ride.departureDate r) /\ is_Some (clock_time (Ride.departureTime r)) /\
  default 0 (Ride.routeDurationSeconds r) <= 24 * 60 * 60.

Record one_at_a_time (d : Db.t) : Prop := {
  rides_timetabled : forall k r, Db.ride d !! k = Some r -> live r = true -> timetabled r;
  rides_apart : forall k1 k2 r1 r2, Db.ride d !! k1 = Some r1 -> Db.ride d !! k2 = Some r2 -> k1 <> k2 ->
    Ride.driverId r1 = Ride.driverId r2 -> live r1 = true -> live r2 = true -> clash r1 r2 = false;
}.

Lemma overlaps_comm a da b db : overlaps a da b db = overlaps b db a da.
Proof. unfold overlaps. destruct a, b; auto using andb_comm. Qed.

Lemma integer_of_date (n : option num) z : integer_of n = Some z -> exists x, n = Some x /\ date_of_num x = z.
Proof.
  destruct n as [x|]; [|discriminate]. cbn. destruct (Qeq_bool x (inject_Z (Qfloor x))) eqn:E; [|discriminate].
  intros [= <-]. exists x. split; [reflexivity|]. unfold date_of_num. destruct (Qle_bool 0 x); [reflexivity|].
  apply Qeq_bool_eq in E. etrans; [exact (Qceiling_comp _ _ E) | apply Qceiling_Z].
Qed.

Lemma rideStart_day (date : Z) (time : string) : is_Some (clock_time time) ->
  exists h m, 0 <= h <= 23 /\ 0 <= m <= 59 /\ rideStart date time = Some (dayOf date * msPerDay + h * 3600000 + m * 60000).
Proof.
  intros [[h m] E]. unfold clock_time, rideStart in *.
  destruct (clock_pieces time) as [h' m'] eqn:P.
  destruct (integer_of h') as [h1|] eqn:Eh; [|discriminate E]. destruct (integer_of m') as [m1|] eqn:Em; [|discriminate E].
  destruct ((0 <=? h1) && (h1 <=? 23) && (0 <=? m1) && (m1 <=? 59)) eqn:B; [|discriminate E]. clear E.
  apply integer_of_date in Eh as (x & -> & <-), Em as (y & -> & <-).
  exists (date_of_num x), (date_of_num y). split; [lia|]. split; [lia|].
  unfold clock_pieces in P. destruct (split_colon (chars time)) as [hs [r|]]; [reflexivity | discriminate P].
Qed.

Lemma far_days_apart (r1 r2 : Ride.t) : timetabled r1 -> timetabled r2 ->
  Ride.departureDate r1 + msPerDay < Ride.departureDate r2 -> clash r1 r2 = false.
Proof.
  intros (D1 & C1 & L1) (D2 & C2 & L2) Far. unfold clash.
  destruct (rideStart_day (Ride.departureDate r1) _ C1) as (h1 & m1 & Hh1 & Hm1 & ->).
  destruct (rideStart_day (Ride.departureDate r2) _ C2) as (h2 & m2 & Hh2 & Hm2 & ->).
  unfold dateColumn in D1, D2. unfold overlaps, endTimeForRideWindow, MIN_OVERLAP_DURATION_SECONDS, msPerDay in *.
  apply andb_false_iff. right. apply Z.ltb_ge.
  assert (dayOf (Ride.departureDate r1) + 1 < dayOf (Ride.departureDate r2)) by lia. lia.
Qed.

Lemma clash_comm r1 r2 : clash r1 r2 = clash r2 r1.
Proof. apply overlaps_comm. Qed.

Lemma dayOf_dateColumn date : dayOf (dateColumn date) = dayOf date.
Proof. unfold dateColumn, dayOf, msPerDay. apply Z.div_mul. lia. Qed.

Lemma too_soon_clock date time at_ : isPublishDepartureTooSoon date time at_ = false -> is_Some (clock_time time).
Proof. unfold isPublishDepartureTooSoon, getDepartureAtUtc. destruct (clock_time time) as [[h m]|]; [eauto | discriminate]. Qed.

Lemma rideStart_column date time : rideStart (dateColumn date) time = rideStart date time.
Proof. unfold rideStart, setUTCHours. rewrite dayOf_dateColumn. reflexivity. Qed.

(** The new ride and a ride of about the same day that was there. *)
Lemma new_ride_slot (driverId : string) (draft : Draft.t) date time seats price vehicle ride (d : Db.t) (k : string) (r : Ride.t) :
  from_draft driverId draft vehicle date time seats price ride ->
  free_slot d driverId date time (Draft.routeDurationSeconds draft) ->
  Db.ride d !! k = Some r -> Ride.driverId r = driverId -> live r = true ->
  Ride.departureDate ride - msPerDay <= Ride.departureDate r <= Ride.departureDate ride + msPerDay -> clash ride r = false.
Proof.
  intros F Slot E Dr L Near.
  destruct (row_departure _ _ _ _ _ _ _ _ F) as [Fd Ft]. destruct (row_route _ _ _ _ _ _ _ _ F) as (_ & _ & Fs).
  assert (Day : Ride.departureDate ride = dayOf date * msPerDay) by (rewrite Fd; reflexivity).
  assert (B : isBlockingRide d driverId None (dayOf date * msPerDay) r = true).
  { unfold isBlockingRide. rewrite Dr. unfold live in L. rewrite L, (bool_decide_eq_true_2 (driverId = driverId)) by reflexivity.
    cbn. apply andb_true_iff. split; apply Z.leb_le; lia. }
  assert (In r (where_ prisma.ride (isBlockingRide d driverId None (dayOf date * msPerDay)) d)) as I.
  { apply where_elem. split; [exact B | exists k; exact E]. }
  specialize (Slot r I). unfold clash. rewrite Ft, Fs, <- Slot. f_equal. rewrite Fd. apply rideStart_column.
Qed.

(** Or of any day, when both take at most a day. *)
Lemma new_ride_apart (driverId : string) (draft : Draft.t) date time seats price vehicle ride (d : Db.t) (k : string) (r : Ride.t) :
  from_draft driverId draft vehicle date time seats price ride -> timetabled ride ->
  free_slot d driverId date time (Draft.routeDurationSeconds draft) ->
  Db.ride d !! k = Some r -> Ride.driverId r = driverId -> live r = true -> timetabled r -> clash ride r = false.
Proof.
  intros F T Slot E Dr L Tr.
  destruct (Z.lt_ge_cases (Ride.departureDate r + msPerDay) (Ride.departureDate ride)) as [B|B1].
  { rewrite clash_comm. apply far_days_apart; auto. }
  destruct (Z.lt_ge_cases (Ride.departureDate ride + msPerDay) (Ride.departureDate r)) as [B|B2].
  { apply far_days_apart; auto. }
  apply (new_ride_slot driverId draft date time seats price vehicle ride d k r F Slot E Dr L). lia.
Qed.

(** C22.  A driver is not on two rides at once.  A ride that is published clashes with no
    live ride of its driver that leaves from the day before to the day after, however
    long it takes; these are the only ones looked at.  That is enough for routes of at
    most a day: publishing one keeps the live rides of each driver apart, as long as
    those there had a time of departure and took at most a day themselves. *)
Theorem rides_of_driver_do_not_overlap (driverId : string) (draft : Draft.t) (s : St.t) :
  (forall ride k r, (publishDraft driverId draft s).2 = Ok ride ->
     Db.ride (St.db s) !! k = Some r -> Ride.driverId r = driverId -> live r = true ->
     Ride.departureDate ride - msPerDay <= Ride.departureDate r <= Ride.departureDate ride + msPerDay ->
     clash ride r = false) /\
  (default 0 (Draft.routeDurationSeconds draft) <= 24 * 60 * 60 ->
   one_at_a_time (St.db s) -> one_at_a_time (St.db (publishDraft driverId draft s).1)).
Proof.
  pose proof (publish_spec driverId draft s) as W. unfold wp in W.
  destruct (publishDraft driverId draft s) as [s' [ride|e]]; cbn [fst snd] in *.
  2: { rewrite W. split; [discriminate | auto]. }
  destruct W as (date & time & seats & price & vehicle & P & F & I & Slot).
  split; [intros ? k r [= <-]; eapply new_ride_slot; eassumption|]. intros Short [T A].
  destruct (pub_schedule _ _ _ _ _ _ _ _ P) as (_ & _ & Soon).
  destruct (row_departure _ _ _ _ _ _ _ _ F) as [Fd Ft]. destruct (row_route _ _ _ _ _ _ _ _ F) as (_ & _ & Fs).
  assert (Tn : timetabled ride).
  { split; [|split].
    - rewrite Fd at 2. unfold dateColumn at 1. rewrite dayOf_dateColumn. exact Fd.
    - rewrite Ft. exact (too_soon_clock _ _ _ Soon).
    - rewrite Fs. exact Short. }
  pose proof (row_driver _ _ _ _ _ _ _ _ F) as Dr.
  assert (N : forall k r, Db.ride (St.db s) !! k = Some r -> Ride.driverId ride = Ride.driverId r -> live r = true -> clash ride r = false).
  { intros k r E D L. eapply new_ride_apart; eauto; congruence. }
  split; rewrite (ins_ride _ _ _ _ I).
  - intros k r [[<- <-]|[_ E]]%lookup_insert_Some; eauto.
  - intros k1 k2 r1 r2 [[<- <-]|[N1 E1]]%lookup_insert_Some [[<- <-]|[N2 E2]]%lookup_insert_Some Nk D L1 L2; eauto.
    + contradiction.
    + rewrite clash_comm. eauto.
Qed.
End publishing.

(** ** A demo: from one end of a short route to the other, tomorrow at ten *)

Definition demo_publish_env : Env := demo_env 1000 no_failure.
#[local] Instance demo_eligibility : EligibilityEnv := {| SKIP_VEHICLE_VERIFICATION := None |}.
Definition demo_country : AddressComponent.t :=
  {| AddressComponent.long_name := Some "Estonia"%string; AddressComponent.short_name := Some "EE"%string;
     AddressComponent.types := ["country"; "political"]%string |}.
#[local] Instance demo_google : Google := {|
  placeDetails := fun _ => Some [demo_country];
  directions := fun _ _ _ _ => None;
  parseInt := fun _ => Some 3600 |}.
#[local] Instance demo_publishing : PublishEnv := {|
  GOOGLE_MAPS_MOCK_MODE := false;
  CITY_POINT_RADIUS_METERS := num_of_Z 25000;
  STOPOVER_POINT_RADIUS_METERS := num_of_Z 5000;
  ROUTE_POINT_RADIUS_METERS := num_of_Z 2000 |}.

Definition demo_point (place : string) (lat lng : num) : LocationInput.t := {|
  LocationInput.placeId := place; LocationInput.address := place; LocationInput.lat := lat; LocationInput.lng := lng;
  LocationInput.parentPlaceId := None; LocationInput.parentAddress := None; LocationInput.parentLat := None;
  LocationInput.parentLng := None; LocationInput.estimatedArrivalTime := None; LocationInput.recommendedPrice := None;
  LocationInput.minPrice := None; LocationInput.maxPrice := None; LocationInput.driverPricePerSeat := None |}.

Definition demo_draft : Draft.t := newDraft "d1" 0
  <| Draft.originPlaceId := Some "tallinn"%string |> <| Draft.originAddress := Some "Tallinn"%string |>
  <| Draft.originLat := Some (num_of_Z 59) |> <| Draft.originLng := Some (num_of_Z 24) |>
  <| Draft.destinationPlaceId := Some "tartu"%string |> <| Draft.destinationAddress := Some "Tartu"%string |>
  <| Draft.destinationLat := Some (num_of_Z 58) |> <| Draft.destinationLng := Some (num_of_Z 26) |>
  <| Draft.pickups := Some [demo_point "station" (num_of_Z 0) (num_of_Z 0)] |>
  <| Draft.dropoffs := Some [demo_point "market" (num_of_Z 0) (num_of_Z 0)] |>
  <| Draft.routePolyline := Some "????"%string |> <| Draft.routeDurationSeconds := Some 7200 |>
  <| Draft.departureDate := Some msPerDay |> <| Draft.departureTime := Some "10:00"%string |>
  <| Draft.totalSeats := Some 3 |> <| Draft.basePricePerSeat := Some (num_of_Z 12) |>.

Definition demo_driver : User.t :=
  User.defaults "d1" 0 <| User.dlVerified := true |> <| User.stripeOnboardingComplete := true |>.
Definition demo_vehicle : Vehicle.t :=
  Vehicle.defaults "v1" 0 <| Vehicle.userId := "d1"%string |>
    <| Vehicle.verificationStatus := VehicleVerificationStatus.APPROVED |>.

Definition demo_tables : Db.t :=
  Db.empty <| Db.user := {["d1"%string := demo_driver]} |> <| Db.vehicle := {["v1"%string := demo_vehicle]} |>.
Definition demo_start : St.t := St.Build_t demo_tables [] 0.
Definition demo_drafts : DraftSt.t := {| DraftSt.st := demo_start;
  DraftSt.drafts := {["d1"%string := (demo_draft, 3600000)]}; DraftSt.routes := ∅ |}.

Definition demo_published : St.t * Res Ride.t := @publishDraft demo_publish_env _ _ _ "d1" demo_draft demo_start.
Definition demo_ride_made : Ride.t := match demo_published.2 with Ok r => r | Err _ => Ride.defaults EmptyString 0 end.

Lemma demo_publish_runs : @publishDraft demo_publish_env _ _ _ "d1" demo_draft demo_start = (demo_published.1, Ok demo_ride_made).
Proof.
  change (demo_published = (demo_published.1, Ok demo_ride_made)).
  assert (E : match demo_published.2 with Ok _ => true | Err _ => false end = true) by (vm_compute; reflexivity).
  unfold demo_ride_made. destruct demo_published as [s [r|e]]; [reflexivity | discriminate E].
Qed.

Lemma publish_makes_bookable_ride_witness :
  exists date time seats price vehicle,
    @publishable demo_publish_env _ _ _ demo_tables "d1" demo_draft date time seats price vehicle /\
    from_draft "d1" demo_draft vehicle date time seats price demo_ride_made /\
    Db.rideSegmentCapacity (St.db demo_published.1) <> ∅ /\ seats = 3.
Proof.
  destruct (@publish_makes_bookable_ride demo_publish_env _ _ _ "d1" demo_draft demo_start _ _ demo_publish_runs)
    as (date & time & seats & price & vehicle & P & F & _ & _).
  exists date, time, seats, price, vehicle. split; [exact P|]. split; [exact F|]. split.
  - intros E. apply (f_equal size) in E. vm_compute in E. discriminate E.
  - destruct (pub_capacity _ _ _ _ _ _ _ _ P) as [E _]. injection E as <-. reflexivity.
Defined.

(** The notice to the driver fails. *)
Definition demo_no_notice : Env := demo_env 1000 (fun _ e => match e with Notify _ _ => Some "down"%string | _ => None end).
Definition demo_unnoticed : DraftSt.t := (@publishRide demo_no_notice _ _ _ "d1" demo_drafts).1.

Lemma publish_all_or_nothing_witness :
  size (Db.ride (St.db (DraftSt.st demo_unnoticed))) = 1%nat /\ DraftSt.drafts demo_unnoticed !! "d1"%string = None.
Proof.
  assert (E : @publishRide demo_no_notice _ _ _ "d1" demo_drafts = (demo_unnoticed, Err "down"%string)).
  { unfold demo_unnoticed. assert (X : match (@publishRide demo_no_notice _ _ _ "d1" demo_drafts).2 with Err e => e = "down"%string | Ok _ => False end)
      by (vm_compute; reflexivity).
    destruct (@publishRide demo_no_notice _ _ _ "d1" demo_drafts) as [s [r|e]]; cbn [fst snd] in *; [contradiction | rewrite X; reflexivity]. }
  assert (S1 : size (Db.ride (St.db (DraftSt.st demo_unnoticed))) = 1%nat) by (vm_compute; reflexivity).
  split; [exact S1|].
  destruct (@publish_all_or_nothing demo_no_notice _ _ _ "d1" "down" demo_drafts demo_unnoticed E) as [(D & _)|(draft & expiry & st1 & ride & _ & _ & _ & _ & G)].
  - rewrite D in S1. vm_compute in S1. discriminate S1.
  - exact G.
Defined.

(** A ride two days after the demo's, and the demo's route taking fifty-five hours: it is
    published, though the driver would still be under way. *)
Definition demo_later : Ride.t := demo_ride_made <| Ride.id := "later"%string |> <| Ride.departureDate := 3 * msPerDay |>.
Definition demo_planned : St.t := St.Build_t (demo_tables <| Db.ride := {["later"%string := demo_later]} |>) [] 0.
Definition demo_long : Draft.t := demo_draft <| Draft.routeDurationSeconds := Some 198000 |>.

Example long_route_overlaps :
  match @publishDraft demo_publish_env _ _ _ "d1" demo_long demo_planned with
  | (s', Ok ride) => Db.ride (St.db s') !! "later"%string = Some demo_later /\ Ride.driverId demo_later = Ride.driverId ride /\
      live demo_later = true /\ live ride = true /\ clash ride demo_later = true
  | _ => False
  end.
Proof. vm_compute. repeat split. Qed.

Lemma rides_of_driver_do_not_overlap_witness :
  Db.ride (St.db demo_published.1) !! "id"%string <> None /\ one_at_a_time (St.db demo_published.1).
Proof.
  split; [vm_compute; discriminate|].
  apply (@rides_of_driver_do_not_overlap demo_publish_env _ _ _ "d1" demo_draft demo_start); [vm_compute; discriminate|].
  assert (No : forall k r, Db.ride (St.db demo_start) !! k = Some r -> False).
  { intros k r E. change ((∅ : gmap string Ride.t) !! k = Some r) in E. rewrite lookup_empty in E. discriminate E. }
  split; intros; exfalso; eauto.
Defined.
