(* ===== verification/VehicleSafe.v ===== *)
(** * Vehicles are what was reviewed

    Theorems on [Vehicles]: an approved vehicle is the one the administrator saw, a driver has
    at most three vehicles, a saved draft is complete, and the audit of the documents' files
    asks about every row or never ends. *)

From Stdlib Require Import ZArith Lia.
From stdpp Require Import base list option strings gmap relations.
From S2P Require Import Prelude JsNumber Schema Store Gateway Licence LicenceReview Eligibility Publishing Vehicles.

Open Scope Z_scope.

(** ** The calls about vehicles *)

Inductive VehicleRequest :=
| CreateVehicle (userId licenseCountry licenseNumber : string)
| UpdatePlate (userId vehicleId licenseCountry licenseNumber : string)
| UpdateDetails (userId vehicleId : string) (input : UpdateVehicleDetailsInput.t)
| UpdateImage (userId vehicleId imageUrl imageKey : string)
| ClearImage (userId vehicleId : string)
| AddDocument (userId vehicleId imageKey : string) (imageUrl : option string) (documentType : DocumentType.t)
| DeleteDocument (userId vehicleId imageKey : string)
| DeleteVehicle (userId vehicleId : string)
| DraftLicense (userId licenseCountry licenseNumber : string)
| DraftDetails (userId : string) (input : UpdateVehicleDetailsInput.t)
| DraftUpload (userId : string) (documentType : DocumentType.t) (source : DocumentSource.t)
| SaveDraft (userId : string)
| Verify (vehicleId : string) (reviewedById : option string)
| Reject (vehicleId reason : string) (reviewedById : option string)
| Audit (rounds : nat) (options : AuditOptions.t).

Section handle.
Context `{Env} `{Storage} `{Eligibility.EligibilityEnv}.

Definition handle (r : VehicleRequest) : V unit :=
  match r with
  | CreateVehicle u c n => onStore (createVehicle u c n);; mret tt
  | UpdatePlate u v c n => onStore (updateCreateVehicle u v c n);; mret tt
  | UpdateDetails u v i => onStore (updateVehicleDetailService u v i);; mret tt
  | UpdateImage u v url key => onStore (updateVehicle u v url key);; mret tt
  | ClearImage u v => onStore (clearVehicleImage u v);; mret tt
  | AddDocument u v k url t => onStore (addVehicleDocument u v k url t);; mret tt
  | DeleteDocument u v k => onStore (deleteVehicleDocument u v k);; mret tt
  | DeleteVehicle u v => onStore (deleteVehicle u v);; mret tt
  | DraftLicense u c n => createWithLicense u c n;; mret tt
  | DraftDetails u i => updateVehicleDetails u i;; mret tt
  | DraftUpload u t source => uploadDraftDocument u t source;; mret tt
  | SaveDraft u => saveVehicle u;; mret tt
  | Verify v a => onStore (verifyVehicle v a);; mret tt
  | Reject v reason a => onStore (rejectVehicle v reason a);; mret tt
  | Audit rounds o => onStore (auditVehicleDocuments rounds o);; mret tt
  end.
End handle.

(** A call with any answers of the outside, or anything else that leaves vehicles alone. *)
Inductive vehicle_step (allowed : VehicleRequest -> Prop) : VehicleSt.t -> VehicleSt.t -> Prop :=
| vehicle_call (env : Env) (storage : Storage) (skips : Eligibility.EligibilityEnv) (r : VehicleRequest) (s : VehicleSt.t) :
    allowed r -> vehicle_step allowed s (handle r s).1
| vehicle_other (s s' : VehicleSt.t) :
    Db.vehicle (St.db (VehicleSt.st s')) = Db.vehicle (St.db (VehicleSt.st s)) ->
    Db.vehicleDocument (St.db (VehicleSt.st s')) = Db.vehicleDocument (St.db (VehicleSt.st s)) ->
    vehicle_step allowed s s'.

(** An invariant of the database, of a state with drafts. *)
Definition on_vehicles (I : Db.t -> Prop) (s : VehicleSt.t) : Prop := I (St.db (VehicleSt.st s)).

Lemma onStore_run {A} (m : H A) s : onStore m s = (s <| VehicleSt.st := (m (VehicleSt.st s)).1 |>, (m (VehicleSt.st s)).2).
Proof. unfold onStore. destruct (m (VehicleSt.st s)). reflexivity. Qed.

Lemma keeps_onStore {A} I (m : H A) : preserves (on_db I) m -> preserves (on_vehicles I) (onStore m).
Proof. intros K s Hs. rewrite onStore_run. exact (K (VehicleSt.st s) Hs). Qed.

(** ** What an administrator reviewed *)

(** What the review is about: plate and details. *)
Definition reviewedFacts (v : Vehicle.t) :=
  (Vehicle.licenseCountry v, Vehicle.licenseNumber v, Vehicle.brand v, Vehicle.model_num v, Vehicle.model_name v,
   Vehicle.type v, Vehicle.color v, Vehicle.year v).

(** A document that counts for the review, and the file it names. *)
Definition kycDocument (m : gmap string VehicleDocument.t) (vehicleId k : string) : option (DocumentType.t * option string * option string) :=
  match m !! k with
  | Some doc =>
      if bool_decide (VehicleDocument.vehicleId doc = vehicleId) &&
         bool_decide (changeKindForDocumentType (VehicleDocument.documentType doc) = KYC_DOCUMENT)
      then Some (VehicleDocument.documentType doc, VehicleDocument.image doc, VehicleDocument.imageKey doc) else None
  | None => None
  end.

Definition filed (m : gmap string VehicleDocument.t) : Prop := forall k doc, m !! k = Some doc -> VehicleDocument.id doc = k.

Definition isApproved (v : Vehicle.t) : Prop := Vehicle.verificationStatus v = VehicleVerificationStatus.APPROVED.

Section reviewed.
Variables (d0 : Db.t) (x : string).

(** Since [d0]: when the vehicle is approved, it was so and nothing of the review has changed. *)
Record Reviewed (d : Db.t) : Prop := {
  rv_exists : is_Some (Db.vehicle d !! x);
  rv_filed : filed (Db.vehicleDocument d);
  rv_same : forall v, Db.vehicle d !! x = Some v -> isApproved v ->
    exists v0, Db.vehicle d0 !! x = Some v0 /\ isApproved v0 /\ reviewedFacts v = reviewedFacts v0 /\
      forall k, kycDocument (Db.vehicleDocument d) x k = kycDocument (Db.vehicleDocument d0) x k;
}.

Lemma reviewed_put d k v v' : Reviewed d -> Db.vehicle d !! k = Some v ->
  (k = x -> isApproved v' -> isApproved v /\ reviewedFacts v' = reviewedFacts v) ->
  Reviewed (d <| Db.vehicle ::= <[k := v']> |>).
Proof.
  intros [X F S] E K. split; cbn; [|exact F|].
  - destruct (decide (k = x)) as [->|N]; [rewrite lookup_insert_eq; eauto | rewrite lookup_insert_ne by exact N; exact X].
  - intros w W A. destruct (decide (k = x)) as [->|N]; [|rewrite lookup_insert_ne in W by exact N; exact (S w W A)].
    rewrite lookup_insert_eq in W. injection W as <-. destruct (K eq_refl A) as [Av Fv].
    destruct (S v E Av) as (v0 & E0 & A0 & F0 & D). exists v0. rewrite Fv. auto.
Qed.

Lemma reviewed_new d k v : Reviewed d -> Db.vehicle d !! k = None -> Reviewed (d <| Db.vehicle ::= <[k := v]> |>).
Proof.
  intros [X F S] E. assert (N : k <> x) by (intros ->; destruct X as [w W]; congruence).
  split; cbn; [rewrite lookup_insert_ne by exact N; exact X | exact F|].
  intros w W. rewrite lookup_insert_ne in W by exact N. exact (S w W).
Qed.

Lemma reviewed_docs d (f : gmap string VehicleDocument.t -> gmap string VehicleDocument.t) : Reviewed d ->
  filed (f (Db.vehicleDocument d)) ->
  (forall k, kycDocument (f (Db.vehicleDocument d)) x k = kycDocument (Db.vehicleDocument d) x k) ->
  Reviewed (d <| Db.vehicleDocument ::= f |>).
Proof.
  intros [X F S] F' K. split; cbn; [exact X | exact F'|]. intros v E A. destruct (S v E A) as (v0 & E0 & A0 & Fv & D).
  exists v0. repeat (split; [assumption|]). intros k. rewrite K. apply D.
Qed.

(** Documents changed together with the reset the change asks for. *)
Lemma reviewed_edit d vehicleId v kind (f : gmap string VehicleDocument.t -> gmap string VehicleDocument.t) :
  Reviewed d -> Db.vehicle d !! vehicleId = Some v -> filed (f (Db.vehicleDocument d)) ->
  (vehicleId <> x \/ kind = PRIMARY_PHOTO ->
   forall k, kycDocument (f (Db.vehicleDocument d)) x k = kycDocument (Db.vehicleDocument d) x k) ->
  Reviewed (match buildReviewReset (Vehicle.verificationStatus v) kind with
            | Some reset => d <| Db.vehicleDocument ::= f |> <| Db.vehicle ::= <[vehicleId := reset v]> |>
            | None => d <| Db.vehicleDocument ::= f |>
            end).
Proof.
  intros R E F K. destruct (decide (vehicleId = x)) as [->|N].
  - assert (Reset : Reviewed (d <| Db.vehicleDocument ::= f |> <| Db.vehicle ::= <[x := REVIEW_RESET v]> |>)).
    { split; cbn; [rewrite lookup_insert_eq; eauto | exact F|]. intros w W. rewrite lookup_insert_eq in W. injection W as <-. intros [=]. }
    unfold buildReviewReset. destruct (Vehicle.verificationStatus v) eqn:St; [| |exact Reset].
    + split; cbn; [eauto | exact F|]. intros w W A. rewrite E in W. injection W as <-. unfold isApproved in A. congruence.
    + case_bool_decide as P; cbn [REQUEUE_APPROVED_ON_PHOTO_CHANGE negb andb]; [|exact Reset].
      apply reviewed_docs; auto.
  - assert (R' : Reviewed (d <| Db.vehicleDocument ::= f |>)) by (apply reviewed_docs; auto).
    destruct (buildReviewReset _ _); [|exact R'].
    apply (reviewed_put _ _ v); [exact R' | exact E | intros; contradiction].
Qed.

(** *** Documents of the other vehicles and photos do not count *)

Definition uncounted (doc : VehicleDocument.t) : Prop :=
  VehicleDocument.vehicleId doc <> x \/ changeKindForDocumentType (VehicleDocument.documentType doc) = PRIMARY_PHOTO.

Lemma kyc_uncounted m k doc : m !! k = Some doc -> uncounted doc -> kycDocument m x k = None.
Proof.
  intros E U. unfold kycDocument. rewrite E. destruct U as [U|U].
  - rewrite bool_decide_eq_false_2 by exact U. reflexivity.
  - rewrite U. rewrite andb_false_r. reflexivity.
Qed.

Lemma kyc_insert m k doc : m !! k = None -> uncounted doc -> forall j, kycDocument (<[k := doc]> m) x j = kycDocument m x j.
Proof.
  intros E U j. destruct (decide (k = j)) as [<-|N].
  - rewrite (kyc_uncounted (<[k := doc]> m) k doc) by (exact U || apply lookup_insert_eq). unfold kycDocument. rewrite E. reflexivity.
  - unfold kycDocument. rewrite lookup_insert_ne by exact N. reflexivity.
Qed.

Lemma kyc_delete m k doc : m !! k = Some doc -> uncounted doc -> forall j, kycDocument (delete k m) x j = kycDocument m x j.
Proof.
  intros E U j. destruct (decide (k = j)) as [<-|N].
  - rewrite (kyc_uncounted m k doc E U). unfold kycDocument. rewrite lookup_delete_eq. reflexivity.
  - unfold kycDocument. rewrite lookup_delete_ne by exact N. reflexivity.
Qed.

Lemma kyc_filter (p : VehicleDocument.t -> bool) m : (forall doc, p doc = true -> uncounted doc) ->
  forall j, kycDocument (base.filter (fun kr => p kr.2 = false) m) x j = kycDocument m x j.
Proof.
  intros U j. destruct (m !! j) as [doc|] eqn:E.
  - destruct (p doc) eqn:P.
    + rewrite (kyc_uncounted m j doc E (U doc P)). unfold kycDocument.
      assert (base.filter (fun kr : string * VehicleDocument.t => p kr.2 = false) m !! j = None) as ->; [|reflexivity].
      apply map_lookup_filter_None. right. intros doc' E'. cbn. congruence.
    + unfold kycDocument. assert (base.filter (fun kr : string * VehicleDocument.t => p kr.2 = false) m !! j = Some doc) as ->;
        [apply map_lookup_filter_Some; auto|]. rewrite E. reflexivity.
  - unfold kycDocument. assert (base.filter (fun kr : string * VehicleDocument.t => p kr.2 = false) m !! j = None) as ->;
      [apply map_lookup_filter_None; auto|]. rewrite E. reflexivity.
Qed.

Lemma filed_insert m k doc : filed m -> VehicleDocument.id doc = k -> filed (<[k := doc]> m).
Proof. intros F E j d'. rewrite lookup_insert_Some. intros [[<- <-]|[_ E']]; [exact E | exact (F j d' E')]. Qed.

Lemma filed_sub (m m' : gmap string VehicleDocument.t) : m' ⊆ m -> filed m -> filed m'.
Proof. intros S F k doc E. exact (F k doc (lookup_weaken _ _ _ _ E S)). Qed.
End reviewed.

Lemma where_found {R} (t : Table R) p d r : In r (where_ t p d) -> p r = true.
Proof. intros I%where_elem. exact (proj1 I). Qed.

(** ** Every call keeps what was reviewed *)

Section keeps.
Context `{Env} `{Storage} `{Eligibility.EligibilityEnv}.
Variables (d0 : Db.t) (x : string).
Notation I := (Reviewed d0 x).
Notation keeps m := (preserves (on_db I) m).

(** An edit of the vehicle that was read: its reset covers what it changes. *)
Lemma keeps_edit (vehicleId : string) (p : Vehicle.t -> bool) {B : Type} (none : H B) (f : Vehicle.t -> Vehicle.t -> Vehicle.t) (after : Vehicle.t -> H B) :
  keeps none -> (forall v, keeps (after v)) ->
  (forall v, isApproved (f v v) -> isApproved v /\ reviewedFacts (f v v) = reviewedFacts v) ->
  keeps (vehicle ← findById prisma.vehicle vehicleId p;
         match vehicle with None => none | Some v => update prisma.vehicle vehicleId (f v);; after v end).
Proof.
  intros Kn Ka F s Hs. change (wp (findById prisma.vehicle vehicleId p ≫= fun vehicle => match vehicle with None => none | Some v => update prisma.vehicle vehicleId (f v);; after v end) (fun s' _ => on_db I s') s).
  apply wp_bind, wp_findById; [intros _; exact (Kn s Hs)|]. intros v E _. cbv beta iota.
  apply wp_bind, wp_update; [intros; exact Hs|]. intros v' E'. rewrite E in E'. injection E' as <-.
  apply Ka. apply (reviewed_put _ _ _ _ v); [exact Hs | exact E | intros _; apply F].
Qed.

Lemma keeps_update_only (vehicleId : string) (p : Vehicle.t -> bool) (f : Vehicle.t -> Vehicle.t -> Vehicle.t) :
  (forall v, isApproved (f v v) -> isApproved v /\ reviewedFacts (f v v) = reviewedFacts v) ->
  keeps (vehicle ← findById prisma.vehicle vehicleId p;
         match vehicle with None => throw "VEHICLE_NOT_FOUND" | Some v => update prisma.vehicle vehicleId (f v) end).
Proof.
  intros F s Hs. change (wp (findById prisma.vehicle vehicleId p ≫= fun vehicle => match vehicle with None => throw "VEHICLE_NOT_FOUND" | Some v => update prisma.vehicle vehicleId (f v) end) (fun s' _ => on_db I s') s).
  apply wp_bind, wp_findById; [intros _; exact Hs|]. intros v E _. cbv beta iota.
  apply wp_update; [intros; exact Hs|]. intros v' E'. rewrite E in E'. injection E' as <-.
  apply (reviewed_put _ _ _ _ v); [exact Hs | exact E | intros _; apply F].
Qed.

(** A reset that follows from the status read leaves nothing approved but photos. *)
Lemma reset_covers kind v w : reviewedFacts w = reviewedFacts v \/ kind <> PRIMARY_PHOTO ->
  Vehicle.verificationStatus w = Vehicle.verificationStatus v ->
  isApproved (withReset (buildReviewReset (Vehicle.verificationStatus v) kind) w) ->
  isApproved v /\ reviewedFacts (withReset (buildReviewReset (Vehicle.verificationStatus v) kind) w) = reviewedFacts v.
Proof.
  unfold isApproved, buildReviewReset, REQUEUE_APPROVED_ON_PHOTO_CHANGE. intros K E.
  destruct (Vehicle.verificationStatus v) eqn:S; [cbn; congruence | | discriminate].
  case_bool_decide as P; cbn [negb andb withReset]; [|discriminate]. intros _. split; [reflexivity|]. naive_solver.
Qed.

Lemma keeps_plate u v c n : keeps (updateCreateVehicle u v c n).
Proof.
  apply (keeps_update_only v (ownActive u) (fun r w => withReset (buildReviewReset (Vehicle.verificationStatus r) LICENSE_PLATE)
    (w <| Vehicle.licenseCountry := c |> <| Vehicle.licenseNumber := n |>))).
  intros r. apply reset_covers; [right; discriminate | reflexivity].
Qed.

Lemma keeps_details u v i : keeps (updateVehicleDetailService u v i).
Proof.
  unfold updateVehicleDetailService, updateOwned, writeDetails. apply (keeps_update_only v (ownActive u) (fun r w => withReset (buildReviewReset (Vehicle.verificationStatus r) VEHICLE_DETAILS) _)).
  intros r. apply reset_covers; [right; discriminate | reflexivity].
Qed.

Lemma keeps_image u v url key : keeps (updateVehicle u v url key).
Proof.
  apply (keeps_edit v (ownActive u) _ (fun r w => withReset (buildReviewReset (Vehicle.verificationStatus r) PRIMARY_PHOTO)
    (w <| Vehicle.imageUrl := Some url |> <| Vehicle.imageKey := Some key |>))); [auto with preserve.. |].
  intros r. apply reset_covers; [left|]; reflexivity.
Qed.

Lemma keeps_clear u v : keeps (clearVehicleImage u v).
Proof.
  apply (keeps_edit v (ownActive u) _ (fun _ w => w <| Vehicle.imageUrl := None |> <| Vehicle.imageKey := None |>)); auto with preserve.
Qed.

Lemma keeps_delete u v : keeps (deleteVehicle u v).
Proof.
  apply (keeps_edit v (ownActive u) _ (fun _ w => w <| Vehicle.deletedAt := Some now |>)); auto with preserve.
Qed.

Lemma keeps_new u c n : keeps (createVehicle u c n).
Proof.
  unfold createVehicle, countActive. preserve. apply preserves_create. intros d Hd E. exact (reviewed_new _ _ d _ _ Hd E).
Qed.

(** Reset in a transaction, after the documents were changed. *)
Lemma wp_resetReview vehicleId v kind (f : gmap string VehicleDocument.t -> gmap string VehicleDocument.t) (s s1 : St.t) (Q : St.t -> Res unit -> Prop) :
  I (St.db s) -> Db.vehicle (St.db s) !! vehicleId = Some v ->
  St.db s1 = St.db s <| Db.vehicleDocument ::= f |> -> filed (f (Db.vehicleDocument (St.db s))) ->
  (vehicleId <> x \/ kind = PRIMARY_PHOTO ->
   forall k, kycDocument (f (Db.vehicleDocument (St.db s))) x k = kycDocument (Db.vehicleDocument (St.db s)) x k) ->
  (forall s', I (St.db s') -> Q s' (Ok tt)) ->
  wp (resetReview vehicleId (buildReviewReset (Vehicle.verificationStatus v) kind)) Q s1.
Proof.
  intros Hs E E1 F K HQ. pose proof (reviewed_edit d0 x (St.db s) vehicleId v kind f Hs E F K) as R.
  unfold resetReview. destruct (buildReviewReset _ _) as [reset|].
  - apply wp_bind, wp_update; cbn [rows prisma.vehicle]; rewrite E1.
    + intros E'. change (Db.vehicle (St.db s) !! vehicleId = None) in E'. congruence.
    + intros v' E'. change (Db.vehicle (St.db s) !! vehicleId = Some v') in E'. rewrite E in E'. injection E' as <-.
      apply wp_ret, HQ. cbn [St.db setf]. rewrite E1. exact R.
  - apply wp_ret, HQ. rewrite E1. exact R.
Qed.

Lemma kind_of_document documentType : changeKindForDocumentType documentType <> KYC_DOCUMENT -> changeKindForDocumentType documentType = PRIMARY_PHOTO.
Proof. destruct documentType; intros N; reflexivity || (exfalso; exact (N eq_refl)). Qed.

Lemma keeps_add u v k url t : keeps (addVehicleDocument u v k url t).
Proof.
  intros s Hs. change (wp (addVehicleDocument u v k url t) (fun s' _ => on_db I s') s).
  apply wp_bind, wp_findById; [intros _; exact Hs|]. intros r E _. cbv beta iota.
  apply wp_bind, wp_findFirst. intros [o|] _; [exact Hs|]. cbv beta iota. apply wp_transaction.
  apply wp_bind, wp_run. intros s1 n. rewrite deleteMany_run. intros [= <- <-]. cbv beta iota.
  apply wp_bind, wp_run. intros s2 id [= <- <-]. cbv beta iota.
  apply wp_bind, wp_create; [intros; exact Hs|]. intros N. cbv beta iota. apply wp_bind.
  set (gone := fun doc => bool_decide (VehicleDocument.vehicleId doc = v) && bool_decide (VehicleDocument.documentType doc = t)).
  set (doc := newDocument _ v url (Some k) t) in *.
  apply (wp_resetReview v r (changeKindForDocumentType t)
    (fun m => <[uuid (St.seq s) := doc]> (base.filter (fun kr => gone kr.2 = false) m)) s); [exact Hs | exact E | reflexivity | | |].
  - apply filed_insert; [|reflexivity]. eapply filed_sub; [apply map_filter_subseteq | exact (rv_filed _ _ _ Hs)].
  - intros O j. rewrite kyc_insert; [|exact N|exact O]. apply kyc_filter.
    intros d [V%bool_decide_eq_true T%bool_decide_eq_true]%andb_true_iff. destruct O as [O|O]; [left | right]; congruence.
  - intros s' R. apply wp_ret. exact R.
Qed.

Lemma keeps_remove_document u v k : keeps (deleteVehicleDocument u v k).
Proof.
  intros s Hs. change (wp (deleteVehicleDocument u v k) (fun s' _ => on_db I s') s).
  apply wp_bind, wp_get. destruct (head _) as [doc|] eqn:Hd; [|exact Hs]. cbv beta iota.
  apply head_where in Hd. destruct Hd as [[[_ V]%andb_true_iff W]%andb_true_iff [j Ej]]. apply bool_decide_eq_true in V.
  cbn [rows prisma.vehicleDocument prisma.vehicle] in Ej, W. rewrite V in W.
  destruct (Db.vehicle (St.db s) !! v) as [r|] eqn:E; [|discriminate W].
  pose proof (rv_filed _ _ _ Hs j doc Ej) as Id.
  apply wp_bind, wp_findById; [intros N; cbn [rows prisma.vehicle] in N; rewrite (N r E) in W; discriminate W|].
  intros r' E' _. cbn [rows prisma.vehicle] in E'. rewrite E in E'. injection E' as <-. cbv beta iota. cbn [mbind option_bind].
  apply wp_bind, wp_transaction, wp_bind, wp_remove; [intros _; exact Hs|]. intros doc' Ed. cbv beta iota.
  apply (wp_resetReview v r (changeKindForDocumentType (VehicleDocument.documentType doc)) (delete (VehicleDocument.id doc)) s);
    [exact Hs | exact E | reflexivity | | |].
  - eapply filed_sub; [apply delete_subseteq | exact (rv_filed _ _ _ Hs)].
  - intros O i. rewrite Id. apply (kyc_delete x _ _ doc Ej). destruct O as [O|O]; [left; congruence | right; exact O].
  - intros s' R. exact R.
Qed.

(** *** The administrator *)

Lemma keeps_notify user type subject : keeps (notifyAdminVerificationChange user type subject).
Proof. unfold notifyAdminVerificationChange, createNotification. preserve. Qed.

Lemma keeps_verifyVehicle v a : v <> x -> keeps (verifyVehicle v a).
Proof.
  intros N. unfold verifyVehicle, loadVehicle. preserve; [|apply keeps_notify].
  apply preserves_update. intros d r Hd E. apply (reviewed_put _ _ _ _ r); [exact Hd | exact E | intros; contradiction].
Qed.

Lemma keeps_reject v reason a : keeps (rejectVehicle v reason a).
Proof.
  unfold rejectVehicle, loadVehicle. preserve; [|apply keeps_notify].
  apply preserves_update. intros d r Hd E. apply (reviewed_put _ _ _ _ r); [exact Hd | exact E | intros _ A; discriminate A].
Qed.

(** *** Drafts *)

Lemma keeps_headObject key : keeps (headObject key).
Proof. unfold headObject. preserve. Qed.

Lemma keeps_normalize u t source : keeps (normalizeDocumentSource u t source).
Proof. unfold normalizeDocumentSource, promoteObject. preserve. Qed.

Lemma keeps_missing documents : keeps (findMissingDocumentObjects documents).
Proof.
  induction documents as [|doc rest IH]; cbn [findMissingDocumentObjects]; [apply preserves_ret|].
  preserve; first [apply keeps_headObject | exact IH].
Qed.

Lemma keeps_check u draft : keeps (checkDraft u draft).
Proof. unfold checkDraft, countActive, hasDlDocumentOnFile. preserve. Qed.

Lemma keeps_create_all mk documents : keeps (createWithDocuments mk documents).
Proof.
  intros s Hs. change (wp (createWithDocuments mk documents) (fun s' _ => on_db I s') s). apply wp_transaction.
  apply wp_bind, wp_run. intros s1 id [= <- <-]. cbv beta iota.
  apply wp_bind, wp_create; [intros; exact Hs|]. intros N. cbv beta iota.
  assert (Nx : uuid (St.seq s) <> x). { destruct (rv_exists _ _ _ Hs) as [w W]. intros E. cbn in N. congruence. }
  apply wp_bind. eapply wp_mono with (Q := fun s' r => match r with Ok _ => on_db I s' | Err _ => True end).
  - eapply (wp_preserves (on_db I)); [| apply reviewed_new; [exact Hs | exact N] | intros s' [|]; auto].
    apply preserves_for_each. intros doc. preserve. apply preserves_create. intros d Hd E.
    apply reviewed_docs; [exact Hd | apply filed_insert; [exact (rv_filed _ _ _ Hd) | reflexivity]|].
    apply kyc_insert; [exact E | left; exact Nx].
  - intros s' [u|e] R; [apply wp_ret; exact R | exact Hs].
Qed.

(** *** The audit *)

Lemma keeps_stamp k (f : VehicleDocument.t -> VehicleDocument.t) :
  (forall doc, VehicleDocument.id (f doc) = VehicleDocument.id doc /\ VehicleDocument.vehicleId (f doc) = VehicleDocument.vehicleId doc /\
     VehicleDocument.documentType (f doc) = VehicleDocument.documentType doc /\ VehicleDocument.image (f doc) = VehicleDocument.image doc /\
     VehicleDocument.imageKey (f doc) = VehicleDocument.imageKey doc) ->
  keeps (update prisma.vehicleDocument k f).
Proof.
  intros F. apply preserves_update. intros d doc Hd E. cbn [rows prisma.vehicleDocument] in E. apply reviewed_docs; [exact Hd | |].
  - apply filed_insert; [exact (rv_filed _ _ _ Hd)|]. rewrite (proj1 (F doc)). exact (rv_filed _ _ _ Hd k doc E).
  - intros j. unfold kycDocument. destruct (decide (k = j)) as [<-|N]; [|rewrite lookup_insert_ne by exact N; reflexivity].
    rewrite lookup_insert_eq, E. destruct (F doc) as (_ & -> & -> & -> & ->). reflexivity.
Qed.

Lemma keeps_flag k (f : Vehicle.t -> Vehicle.t) :
  (forall v, Vehicle.verificationStatus (f v) = Vehicle.verificationStatus v /\ reviewedFacts (f v) = reviewedFacts v) ->
  keeps (update prisma.vehicle k f).
Proof.
  intros F. apply preserves_update. intros d v Hd E. apply (reviewed_put _ _ _ _ v); [exact Hd | exact E|].
  intros _. unfold isApproved. rewrite (proj1 (F v)), (proj2 (F v)). auto.
Qed.

Lemma keeps_auditPage dryRun documents pass : keeps (auditPage dryRun documents pass).
Proof.
  revert pass. induction documents as [|doc rest IH]; intros pass; cbn [auditPage]; [apply preserves_ret|].
  apply preserves_bind; [|exact IH]. unfold auditDocument, checkDocument. preserve; try apply keeps_headObject.
  apply keeps_stamp. intros d. repeat split.
Qed.

Lemma keeps_auditLoop rounds o stale pass : keeps (auditLoop rounds o stale pass).
Proof.
  revert pass. induction rounds as [|rounds IH]; intros pass; cbn [auditLoop]; [apply preserves_ret|]. cbv zeta.
  preserve; try apply keeps_auditPage.
Qed.

Lemma keeps_settleAll vehicles notify summary : keeps (settleAll vehicles notify summary).
Proof.
  revert summary. induction vehicles as [|v rest IH]; intros summary; cbn [settleAll]; [apply preserves_ret|].
  apply preserves_bind; [auto with preserve|]. intros docs. apply preserves_bind; [|intros n; apply IH].
  unfold settleVehicle, notifyOwner, createNotification. preserve_db; (apply keeps_flag; intros; split; reflexivity).
Qed.

Lemma keeps_audit rounds o : keeps (auditVehicleDocuments rounds o).
Proof.
  unfold auditVehicleDocuments. cbv zeta. apply preserves_bind; [apply keeps_auditLoop|]. intros [[summary touched]|]; [|apply preserves_ret].
  destruct (AuditOptions.dryRun o); [apply preserves_ret|]. apply preserves_bind; [apply keeps_settleAll|]. intros. apply preserves_ret.
Qed.

(** The approval of [x]. *)
Definition approves (r : VehicleRequest) : bool :=
  match r with Verify v _ => bool_decide (v = x) | _ => false end.

Lemma keeps_handle r : approves r = false -> preserves (on_vehicles I) (handle r).
Proof.
  assert (Draft : forall f, preserves (on_vehicles I) (modify (fun s => s <| VehicleSt.drafts ::= f |>))) by (intros f s Hs; exact Hs).
  assert (Save : forall draft, preserves (on_vehicles I) (saveDraft draft)) by (intros draft s Hs; exact Hs).
  assert (Read : forall u, preserves (on_vehicles I) (getDraft u)) by (intros u s Hs; exact Hs).
  destruct r; cbn [approves handle]; intros A;
    (apply preserves_bind; [|intros; apply preserves_ret]); try apply keeps_onStore.
  - apply keeps_new.
  - apply keeps_plate.
  - apply keeps_details.
  - apply keeps_image.
  - apply keeps_clear.
  - apply keeps_add.
  - apply keeps_remove_document.
  - apply keeps_delete.
  - unfold createWithLicense, delDraft. apply preserves_bind; [apply Draft | intros; apply Save].
  - unfold updateVehicleDetails. apply preserves_bind; [apply Read | intros; apply Save].
  - unfold uploadDraftDocument, addDocument. apply preserves_bind; [apply keeps_onStore, keeps_normalize|].
    intros. apply preserves_bind; [apply Read | intros; apply Save].
  - unfold saveVehicle, delDraft. apply preserves_bind; [apply Read|]. intros draft.
    apply preserves_bind; [apply keeps_onStore, keeps_check|]. intros [c n].
    apply preserves_bind; [apply keeps_onStore, keeps_missing|]. intros missing.
    apply preserves_bind; [apply preserves_throw_if|]. intros _.
    apply preserves_bind; [apply keeps_onStore, keeps_create_all|]. intros v. apply preserves_bind; [apply Draft | intros; apply preserves_ret].
  - apply keeps_verifyVehicle. apply bool_decide_eq_false in A. exact A.
  - apply keeps_reject.
  - apply keeps_audit.
Qed.
End keeps.

Lemma steps_reviewed x d0 s s' : rtc (vehicle_step (fun r => approves x r = false)) s s' ->
  on_vehicles (Reviewed d0 x) s -> on_vehicles (Reviewed d0 x) s'.
Proof.
  intros R. induction R as [s|s s1 s2 St R IH]; [auto|]. intros Hs. apply IH. clear IH R.
  destruct St as [env storage skips r s A | s s' V D]; [exact (keeps_handle d0 x r A s Hs)|].
  destruct Hs as [X F S]. split; rewrite ?V, ?D; assumption.
Qed.

(** C15.  What an administrator approved stays what was approved: whatever a vehicle's owner,
    other users and the nightly audit do with it, as long as no administrator approves it
    again, a vehicle that is approved has the plate, the details and the registry, insurance
    and licence documents it had before, and was approved then. *)
Theorem approved_vehicle_is_as_reviewed (x : string) (s s' : VehicleSt.t) (v : Vehicle.t) :
  let d := St.db (VehicleSt.st s) in let d' := St.db (VehicleSt.st s') in
  filed (Db.vehicleDocument d) -> is_Some (Db.vehicle d !! x) ->
  rtc (vehicle_step (fun r => approves x r = false)) s s' ->
  Db.vehicle d' !! x = Some v -> isApproved v ->
  exists v0, Db.vehicle d !! x = Some v0 /\ isApproved v0 /\ reviewedFacts v = reviewedFacts v0 /\
    forall k, kycDocument (Db.vehicleDocument d') x k = kycDocument (Db.vehicleDocument d) x k.
Proof.
  intros d d' F X R. apply (rv_same d x d'), (steps_reviewed x d s s' R).
  split; [exact X | exact F | intros w W A; exists w; auto].
Qed.

(** ** Saving a draft *)

Section saving.
Context `{Env} `{Storage} `{Eligibility.EligibilityEnv}.

#[local] Instance laws_vehicleDocument : TableLaws prisma.vehicleDocument.
Proof. split; try reflexivity. intros []. reflexivity. Qed.

(** The documents that get a row. *)
Definition keptDocuments (draft : DraftVehicle.t) : list DraftDocument.t :=
  List.filter (fun doc => negb (isPrimaryImageDocumentType (DraftDocument.documentType doc))) (DraftVehicle.documents draft).

(** The vehicle and one row per document are new, and nothing else changed. *)
Definition Created (mk : string -> Vehicle.t) (documents : list DraftDocument.t) (d d' : Db.t) (v : Vehicle.t) : Prop :=
  exists id, v = mk id /\ Db.vehicle d !! id = None /\ Db.vehicle d' = <[id := v]> (Db.vehicle d) /\
    (forall doc, In doc documents -> exists k, Db.vehicleDocument d !! k = None /\
       Db.vehicleDocument d' !! k = Some (savedDocument id doc k)) /\
    (forall k row, Db.vehicleDocument d' !! k = Some row ->
       Db.vehicleDocument d !! k = Some row \/ exists doc, In doc documents /\ row = savedDocument id doc k).

Lemma under_elem {X R} (mk : string -> X -> R) ks l y : NoDup ks -> length ks = length l -> In y l ->
  exists k, In k ks /\ under mk ks l !! k = Some (mk k y).
Proof.
  revert l. induction ks as [|k ks IH]; intros [|z l] N L; cbn [In]; try discriminate L; [intros []|].
  apply NoDup_cons in N as [Nk N]. injection L as L.
  change (under mk (k :: ks) (z :: l)) with (<[k := mk k z]> (under mk ks l)). intros [->|Iy].
  - exists k. rewrite lookup_insert_eq. auto.
  - destruct (IH l N L Iy) as (j & Ij & E). exists j. split; [auto|]. rewrite lookup_insert_ne; [exact E|].
    intros ->. apply Nk. apply list_elem_of_In. exact Ij.
Qed.

Lemma create_spec mk documents (s : St.t) :
  wp (createWithDocuments mk documents) (fun s' r => match r with
    | Ok v => Created mk documents (St.db s) (St.db s') v
    | Err _ => St.db s' = St.db s end) s.
Proof.
  apply wp_transaction. apply wp_bind, wp_run. intros s1 id [= <- <-]. cbv beta iota.
  apply wp_bind, wp_create; [intros; reflexivity|]. intros N. cbn [rows prisma.vehicle St.db setf] in N. cbv beta iota.
  set (id := uuid (St.seq s)) in *. apply wp_bind.
  eapply wp_mono; [apply (insert_all prisma.vehicleDocument (fun k doc => savedDocument id doc k) documents)|].
  intros s' [[]|e]; [|intros _; reflexivity]. cbn [if_ok]. intros (ks & L & [ND F] & E'). apply wp_ret.
  exists id. rewrite E'. cbn [rows with_rows prisma.vehicleDocument prisma.vehicle St.db setf Db.vehicle Db.vehicleDocument] in *.
  split; [reflexivity|]. split; [exact N|]. split; [reflexivity|]. split.
  - intros doc Id. destruct (under_elem (fun k doc => savedDocument id doc k) ks documents doc ND L Id) as (k & Ik & U).
    exists k. split; [apply F, list_elem_of_In, Ik|].
    change ((under (fun k doc => savedDocument id doc k) ks documents ∪ Db.vehicleDocument (St.db s)) !! k = Some (savedDocument id doc k)).
    rewrite lookup_union, U. destruct (Db.vehicleDocument _ !! k); reflexivity.
  - intros k row E. change ((under (fun k doc => savedDocument id doc k) ks documents ∪ Db.vehicleDocument (St.db s)) !! k = Some row) in E.
    apply lookup_union_Some_raw in E as [E|[_ E]]; [|left; exact E]. right.
    apply under_Some in E as (i & doc & _ & Ed & ->). exists doc. split; [|reflexivity].
    apply list_elem_of_In, list_elem_of_lookup. eauto.
Qed.

(** The database is as it was. *)
Notation same_db s s' := (St.db s' = St.db s).

Lemma headObject_spec key (s : St.t) :
  wp (headObject key) (fun s' r => same_db s s' /\ match r with
    | Ok b => b = objectExists (length (St.fx s)) key
    | Err e => fails (length (St.fx s)) (HeadObject key) = Some e end) s.
Proof.
  apply wp_bind, wp_get, wp_bind, wp_call. intros [e|] F; cbv beta iota; [split; [reflexivity | exact F]|].
  apply wp_ret. split; reflexivity.
Qed.

(** The bucket holds the object, or did not answer. *)
Definition notMissing (doc : DraftDocument.t) : Prop :=
  forall key, locator (DraftDocument.imageKey doc) (DraftDocument.imageUrl doc) = Some key ->
    exists n, objectExists n key = true \/ is_Some (fails n (HeadObject key)).

Lemma missing_spec documents (s : St.t) :
  wp (findMissingDocumentObjects documents) (fun s' r => same_db s s' /\
    exists l, r = Ok l /\ (l = [] -> forall doc, In doc documents -> notMissing doc)) s.
Proof.
  revert s. induction documents as [|doc rest IH]; intros s; cbn [findMissingDocumentObjects].
  { apply wp_ret. split; [reflexivity|]. exists []. split; [reflexivity | intros _ ? []]. }
  apply wp_bind.
  assert (W : wp (match locator (DraftDocument.imageKey doc) (DraftDocument.imageUrl doc) with
                  | None => mret []
                  | Some key => try_catch (exists_ ← headObject key; mret (if exists_ : bool then [] else [DraftDocument.documentType doc])) (fun _ => mret [])
                  end) (fun s' r => same_db s s' /\ exists l, r = Ok l /\ (l = [] -> notMissing doc)) s).
  { unfold notMissing. destruct (locator _ _) as [key|]; [|apply wp_ret; split; [reflexivity|]; exists []; split; [reflexivity | discriminate]].
    apply wp_try_catch, wp_bind. eapply wp_mono; [apply headObject_spec|]. intros s1 [b|e] [D E]; apply wp_ret; (split; [exact D|]); eexists; (split; [reflexivity|]).
    - destruct b; [|discriminate]. intros _ key' [= <-]. eauto.
    - intros _ key' [= <-]. exists (length (St.fx s)). right. rewrite E. eauto. }
  eapply wp_mono; [exact W|]. intros s1 r [D (l & -> & L)]. cbv beta iota. apply wp_bind.
  eapply wp_mono; [apply IH|]. intros s2 r [D2 (l2 & -> & L2)]. apply wp_ret. split; [congruence|].
  eexists. split; [reflexivity|]. intros [E1 E2]%app_eq_nil doc' [<-|I]; auto.
Qed.

(** What a draft must have before the bucket is asked. *)
Definition Ready (d : Db.t) (userId : string) (draft : DraftVehicle.t) (licenseCountry licenseNumber : string) : Prop :=
  truthy (DraftVehicle.licenseCountry draft) = Some licenseCountry /\
  truthy (DraftVehicle.licenseNumber draft) = Some licenseNumber /\
  (length (where_ prisma.vehicle (ownActive userId) d) < MAX_VEHICLES_PER_USER)%nat /\
  exists user, Db.user d !! userId = Some user /\
    (requiresFullDocumentSet licenseCountry = true ->
     (forall type, In type REQUIRED_DOCUMENT_TYPES -> exists doc, In doc (DraftVehicle.documents draft) /\ DraftDocument.documentType doc = type) /\
     (User.dlVerified user = true \/
      exists k row, Db.dlVerification d !! k = Some row /\ DlVerification.userId row = userId /\ DlVerification.documentImageKey row <> None)).

Lemma missingRequired_nil documents : missingRequired documents = [] ->
  forall type, In type REQUIRED_DOCUMENT_TYPES -> exists doc, In doc documents /\ DraftDocument.documentType doc = type.
Proof.
  intros M type I. destruct (decide (type ∈ map DraftDocument.documentType documents)) as [E|N].
  - apply list_elem_of_fmap in E as (doc & -> & E). exists doc. split; [apply list_elem_of_In, E | reflexivity].
  - exfalso. assert (F : In type (missingRequired documents)).
    { apply filter_In. split; [exact I|]. rewrite bool_decide_eq_false_2 by exact N. reflexivity. }
    rewrite M in F. destruct F.
Qed.

Lemma check_spec userId draft (s : St.t) :
  wp (checkDraft userId draft) (fun s' r => same_db s s' /\
    match r with Ok (c, n) => Ready (St.db s) userId draft c n | Err _ => True end) s.
Proof.
  unfold checkDraft. destruct (truthy (DraftVehicle.licenseCountry draft)) as [c|] eqn:C; [|split; [reflexivity | exact Logic.I]].
  destruct (truthy (DraftVehicle.licenseNumber draft)) as [n|] eqn:N; [|split; [reflexivity | exact Logic.I]].
  apply wp_bind, wp_findUnique. intros [user|] U; [|split; [reflexivity | exact Logic.I]]. cbv beta iota.
  apply wp_bind, wp_get, wp_bind, wp_throw_if; intros L; [split; [reflexivity | exact Logic.I]|]. apply Nat.leb_gt in L. cbv beta iota.
  assert (R : (requiresFullDocumentSet c = true -> (forall type, In type REQUIRED_DOCUMENT_TYPES -> exists doc, In doc (DraftVehicle.documents draft) /\ DraftDocument.documentType doc = type) /\
     (User.dlVerified user = true \/ exists k row, Db.dlVerification (St.db s) !! k = Some row /\ DlVerification.userId row = userId /\ DlVerification.documentImageKey row <> None)) ->
    Ready (St.db s) userId draft c n) by (intros R; repeat (split; [assumption|]); exists user; auto).
  apply wp_bind, wp_when; intros Q; cbv beta iota; [|apply wp_ret; split; [reflexivity|]; apply R; congruence].
  cbv zeta. apply wp_bind, wp_throw_if; intros M; [split; [reflexivity | exact Logic.I]|]. apply negb_false_iff, bool_decide_eq_true in M. cbv beta iota.
  apply wp_when; intros V.
  - apply wp_bind, wp_bind, wp_findFirst. intros o O. apply wp_ret. cbv beta iota.
    apply wp_throw_if; intros T; [split; [reflexivity | exact Logic.I]|]. apply wp_ret. split; [reflexivity|]. apply R. intros _.
    split; [apply missingRequired_nil, M|]. right. apply negb_false_iff, bool_decide_eq_true in T as [row ->].
    apply head_where in O as [[A%bool_decide_eq_true B%bool_decide_eq_true]%andb_true_iff [k E]]. eauto.
  - apply wp_ret. split; [reflexivity|]. apply R. intros _. apply negb_false_iff in V. split; [apply missingRequired_nil, M | auto].
Qed.

Lemma wp_onStore {A} (m : H A) (Q : VehicleSt.t -> Res A -> Prop) (s : VehicleSt.t) :
  wp m (fun st r => Q (s <| VehicleSt.st := st |>) r) (VehicleSt.st s) -> wp (onStore m) Q s.
Proof. unfold wp. rewrite onStore_run. exact id. Qed.

(** What a saved vehicle is, and what a refusal leaves. *)
Definition Saved (userId : string) (s s' : VehicleSt.t) (r : Res Vehicle.t) : Prop :=
  let d := St.db (VehicleSt.st s) in let d' := St.db (VehicleSt.st s') in
  match r with
  | Ok v => exists draft expiry licenseCountry licenseNumber,
      VehicleSt.drafts s !! userId = Some (draft, expiry) /\ now <= expiry /\
      Ready d userId draft licenseCountry licenseNumber /\
      (forall doc, In doc (DraftVehicle.documents draft) -> notMissing doc) /\
      Created (savedVehicle userId draft licenseCountry licenseNumber) (keptDocuments draft) d d' v /\
      VehicleSt.drafts s' = delete userId (VehicleSt.drafts s)
  | Err _ => d' = d /\ VehicleSt.drafts s' = VehicleSt.drafts s
  end.

Lemma save_spec userId (s : VehicleSt.t) : wp (saveVehicle userId) (Saved userId s) s.
Proof.
  unfold saveVehicle. apply wp_bind. unfold wp at 1, getDraft.
  destruct (VehicleSt.drafts s !! userId) as [[draft expiry]|] eqn:Dr; [|split; reflexivity].
  destruct (now <=? expiry) eqn:L; [|split; reflexivity]. apply Z.leb_le in L. cbn [fst snd].
  apply wp_bind, wp_onStore. eapply wp_mono; [apply check_spec|]. intros st1 [[c n]|e] [E1 R]; [|split; [exact E1 | reflexivity]]. cbv beta iota.
  apply wp_bind, wp_onStore. eapply wp_mono; [apply missing_spec|]. cbn [VehicleSt.st setf]. intros st2 r [E2 (l & -> & M)]. cbv beta iota.
  apply wp_bind, wp_throw_if; intros T; [split; [cbn; congruence | reflexivity]|]. apply negb_false_iff, bool_decide_eq_true in T. cbv beta iota.
  apply wp_bind, wp_onStore. eapply wp_mono; [apply create_spec|]. cbn [VehicleSt.st setf]. intros st3 [v|e] C; cbv beta iota.
  - apply wp_bind, wp_modify, wp_ret. exists draft, expiry, c, n. cbn [VehicleSt.st VehicleSt.drafts setf].
    rewrite E2, E1 in C. repeat (split; [solve [assumption | auto]|]). reflexivity.
  - split; [cbn; congruence | reflexivity].
Qed.
End saving.

(** ** How many vehicles a driver has *)

Definition activeCount (userId : string) (m : gmap string Vehicle.t) : Z := sum_map (fun v => if ownActive userId v then 1 else 0) m.

Lemma length_where {R} (t : Table R) p d : Z.of_nat (length (where_ t p d)) = sum_map (fun r => if p r then 1 else 0) (rows t d).
Proof.
  unfold where_. rewrite length_filter_sum, <- (sum_map_list (fun r => if p r then 1 else 0) (rows t d)). reflexivity.
Qed.

(** A driver has at most three vehicles, and the flag other readers use follows the status. *)
Record VehicleBooks (d : Db.t) : Prop := {
  vb_flag : forall k v, Db.vehicle d !! k = Some v -> Vehicle.isVerified v = bool_decide (isApproved v);
  vb_three : forall u, activeCount u (Db.vehicle d) <= 3;
}.

Lemma books_put d k v v' : VehicleBooks d -> Db.vehicle d !! k = Some v -> Vehicle.isVerified v' = bool_decide (isApproved v') ->
  (forall u, ownActive u v' = true -> ownActive u v = true) -> VehicleBooks (d <| Db.vehicle ::= <[k := v']> |>).
Proof.
  intros [F T] E S A. split; cbn.
  - intros j w. rewrite lookup_insert_Some. intros [[_ <-]|[_ W]]; [exact S | exact (F j w W)].
  - intros u. specialize (T u). unfold activeCount in *. rewrite (sum_map_insert _ _ _ _ _ E). specialize (A u).
    destruct (ownActive u v'), (ownActive u v); try lia; discriminate (A eq_refl).
Qed.

Lemma books_new d k v : VehicleBooks d -> Db.vehicle d !! k = None -> Vehicle.isVerified v = bool_decide (isApproved v) ->
  (forall u, ownActive u v = true -> (length (where_ prisma.vehicle (ownActive u) d) < MAX_VEHICLES_PER_USER)%nat) ->
  VehicleBooks (d <| Db.vehicle ::= <[k := v]> |>).
Proof.
  intros [F T] E S A. split; cbn.
  - intros j w. rewrite lookup_insert_Some. intros [[_ <-]|[_ W]]; [exact S | exact (F j w W)].
  - intros u. specialize (T u). unfold activeCount in *. rewrite sum_map_insert_None by exact E. specialize (A u).
    pose proof (length_where prisma.vehicle (ownActive u) d) as L. cbn [rows prisma.vehicle] in L. unfold MAX_VEHICLES_PER_USER in A.
    destruct (ownActive u v); [specialize (A eq_refl)|]; lia.
Qed.

Section books.
Context `{Env} `{Storage} `{Eligibility.EligibilityEnv}.
Notation books m := (preserves (on_db VehicleBooks) m).

(** An update that keeps owner and deletion and the flag in step. *)
Definition in_step (f : Vehicle.t -> Vehicle.t) : Prop := forall v, Vehicle.isVerified v = bool_decide (isApproved v) ->
  Vehicle.isVerified (f v) = bool_decide (isApproved (f v)) /\ (forall u, ownActive u (f v) = true -> ownActive u v = true).

Lemma books_update k f : in_step f -> books (update prisma.vehicle k f).
Proof.
  intros S. apply preserves_update. intros d v Hd E. destruct (S v (vb_flag _ Hd k v E)) as [A B].
  exact (books_put d k v _ Hd E A B).
Qed.

Lemma in_step_edit f reset : (forall v, Vehicle.isVerified (f v) = Vehicle.isVerified v /\ Vehicle.verificationStatus (f v) = Vehicle.verificationStatus v /\
    Vehicle.userId (f v) = Vehicle.userId v /\ (Vehicle.deletedAt (f v) = None -> Vehicle.deletedAt v = None)) ->
  reset = None \/ reset = Some REVIEW_RESET -> in_step (fun v => withReset reset (f v)).
Proof.
  intros K R v V. destruct (K v) as (A & B & C & D).
  assert (O : forall u, ownActive u (f v) = true -> ownActive u v = true).
  { intros u. unfold ownActive. rewrite C. intros [-> N%bool_decide_eq_true]%andb_true_iff. apply bool_decide_eq_true, D, N. }
  destruct R as [->| ->]; cbn [withReset].
  - split; [|exact O]. unfold isApproved in *. rewrite A, B. exact V.
  - split; [reflexivity | exact O].
Qed.

Lemma reset_cases current kind : buildReviewReset current kind = None \/ buildReviewReset current kind = Some REVIEW_RESET.
Proof. unfold buildReviewReset. destruct current; auto. destruct (_ && _); auto. Qed.

Ltac edited := first [apply (in_step_edit _ (buildReviewReset _ _)) | apply (in_step_edit _ None)];
  [intros w; repeat split; discriminate || auto | first [apply reset_cases | left; reflexivity]].

Lemma books_edits u v : (forall c n, books (updateCreateVehicle u v c n)) /\ (forall i, books (updateVehicleDetailService u v i)) /\
  (forall url key, books (updateVehicle u v url key)) /\ books (clearVehicleImage u v) /\ books (deleteVehicle u v).
Proof.
  unfold updateCreateVehicle, updateVehicleDetailService, updateVehicle, clearVehicleImage, deleteVehicle, updateOwned, writePlate, writeDetails, findOwned.
  split; [|split; [|split; [|split]]]; intros; preserve; apply books_update; edited.
Qed.

Lemma books_resetReview v reset : reset = None \/ reset = Some REVIEW_RESET -> books (resetReview v reset).
Proof.
  intros [->| ->]; cbn [resetReview]; [apply preserves_ret|]. preserve. apply books_update.
  apply (in_step_edit id (Some REVIEW_RESET)); [intros; repeat split; auto | auto].
Qed.

Lemma books_documents (f : gmap string VehicleDocument.t -> gmap string VehicleDocument.t) d :
  VehicleBooks d -> VehicleBooks (d <| Db.vehicleDocument ::= f |>).
Proof. intros [A B]. split; assumption. Qed.

Lemma books_add u v k url t : books (addVehicleDocument u v k url t).
Proof.
  unfold addVehicleDocument, findOwned. preserve_db; first [apply preserves_deleteMany | apply preserves_create | apply books_resetReview, reset_cases];
    intros; apply books_documents; assumption.
Qed.

Lemma books_remove u v k : books (deleteVehicleDocument u v k).
Proof.
  unfold deleteVehicleDocument, findVehicleDocumentByKey, findOwned. cbv zeta. preserve_db.
  - apply preserves_remove. intros. apply books_documents. assumption.
  - apply books_resetReview. destruct (_ : option Vehicle.t) as [w|]; cbn [mbind option_bind]; [apply reset_cases | left; reflexivity].
Qed.

Lemma books_admin v reason a : books (verifyVehicle v a) /\ books (rejectVehicle v reason a).
Proof.
  unfold verifyVehicle, rejectVehicle, loadVehicle, notifyAdminVerificationChange, createNotification.
  split; preserve; apply books_update; intros w _; (split; [reflexivity|]); intros u; exact id.
Qed.

Lemma books_stamp k f : books (update prisma.vehicleDocument k f).
Proof. apply preserves_update. intros. apply books_documents. assumption. Qed.

Lemma books_audit rounds o : books (auditVehicleDocuments rounds o).
Proof.
  assert (Page : forall dry docs pass, books (auditPage dry docs pass)).
  { intros dry docs. induction docs as [|doc docs IH]; intros pass; cbn [auditPage]; [apply preserves_ret|].
    apply preserves_bind; [|exact IH]. unfold auditDocument, checkDocument, headObject. preserve; apply books_stamp. }
  assert (Loop : forall rounds stale pass, books (auditLoop rounds o stale pass)).
  { intros n stale. induction n as [|n IH]; intros pass; cbn [auditLoop]; [apply preserves_ret|]. cbv zeta. preserve; apply Page. }
  assert (Settle : forall vs notify summary, books (settleAll vs notify summary)).
  { intros vs notify. induction vs as [|v vs IH]; intros summary; cbn [settleAll]; [apply preserves_ret|].
    apply preserves_bind; [auto with preserve|]. intros docs. apply preserves_bind; [|intros n; apply IH].
    unfold settleVehicle, notifyOwner, createNotification. preserve_db; apply books_update; apply (in_step_edit _ None); auto; intros w; repeat split; auto. }
  unfold auditVehicleDocuments. cbv zeta. apply preserves_bind; [apply Loop|]. intros [[summary touched]|]; [|apply preserves_ret].
  destruct (AuditOptions.dryRun o); [apply preserves_ret|]. apply preserves_bind; [apply Settle|]. intros. apply preserves_ret.
Qed.

Lemma books_create u c n : books (createVehicle u c n).
Proof.
  intros s Hs. change (wp (createVehicle u c n) (fun s' _ => on_db VehicleBooks s') s).
  apply wp_bind, wp_get, wp_bind, wp_throw_if; intros L; [exact Hs|]. apply Nat.leb_gt in L. cbv beta iota.
  apply wp_bind, wp_run. intros s1 id [= <- <-]. cbv beta iota. apply wp_create; [intros; exact Hs|]. intros E.
  apply (books_new _ _ _ Hs E); [reflexivity|]. intros w [<-%bool_decide_eq_true _]%andb_true_iff. exact L.
Qed.

Lemma saved_flag u draft c n id : Vehicle.isVerified (savedVehicle u draft c n id) = bool_decide (isApproved (savedVehicle u draft c n id)).
Proof. unfold isApproved, savedVehicle. cbn. destruct shouldAutoVerifyVehicle; reflexivity. Qed.

Lemma saved_owner u draft c n id : Vehicle.userId (savedVehicle u draft c n id) = u.
Proof. unfold savedVehicle. reflexivity. Qed.

Lemma books_saved u s s' r : Saved u s s' r -> on_vehicles VehicleBooks s -> on_vehicles VehicleBooks s'.
Proof.
  unfold on_vehicles. destruct r as [v|e]; [|intros [-> _]; auto].
  intros (draft & expiry & c & n & _ & _ & (_ & _ & L & _) & _ & (id & V & N & E & _) & _) B.
  assert (Fv : Vehicle.isVerified v = bool_decide (isApproved v)) by (rewrite V; apply saved_flag).
  assert (Ov : Vehicle.userId v = u) by (rewrite V; apply saved_owner). clear V.
  destruct (books_new _ id v B N Fv) as [F T].
  { intros w [O%bool_decide_eq_true _]%andb_true_iff. rewrite <- O, Ov. exact L. }
  split; rewrite E; assumption.
Qed.

Lemma books_handle r : preserves (on_vehicles VehicleBooks) (handle r).
Proof.
  assert (Draft : forall f, preserves (on_vehicles VehicleBooks) (modify (fun s => s <| VehicleSt.drafts ::= f |>))) by (intros f s Hs; exact Hs).
  assert (Save : forall draft, preserves (on_vehicles VehicleBooks) (saveDraft draft)) by (intros draft s Hs; exact Hs).
  assert (Read : forall u, preserves (on_vehicles VehicleBooks) (getDraft u)) by (intros u s Hs; exact Hs).
  destruct r; cbn [handle]; (apply preserves_bind; [|intros; apply preserves_ret]); try apply keeps_onStore.
  - apply books_create.
  - exact (proj1 (books_edits userId vehicleId) licenseCountry licenseNumber).
  - exact (proj1 (proj2 (books_edits userId vehicleId)) input).
  - exact (proj1 (proj2 (proj2 (books_edits userId vehicleId))) imageUrl imageKey).
  - exact (proj1 (proj2 (proj2 (proj2 (books_edits userId vehicleId))))).
  - apply books_add.
  - apply books_remove.
  - exact (proj2 (proj2 (proj2 (proj2 (books_edits userId vehicleId))))).
  - unfold createWithLicense, delDraft. apply preserves_bind; [apply Draft | intros; apply Save].
  - unfold updateVehicleDetails. apply preserves_bind; [apply Read | intros; apply Save].
  - unfold uploadDraftDocument, addDocument. apply preserves_bind; [apply keeps_onStore; unfold normalizeDocumentSource, promoteObject; preserve|].
    intros. apply preserves_bind; [apply Read | intros; apply Save].
  - intros s Hs. exact (books_saved userId s _ _ (save_spec userId s) Hs).
  - exact (proj1 (books_admin vehicleId EmptyString reviewedById)).
  - exact (proj2 (books_admin vehicleId reason reviewedById)).
  - apply books_audit.
Qed.
End books.

(** The vehicles of a driver: after any calls about vehicles, whatever else happens, no
    driver has more than three vehicles that are not deleted, and the flag that publishing and
    the app read is set exactly on the approved ones. *)
Theorem three_vehicles_at_most (s s' : VehicleSt.t) :
  VehicleBooks (St.db (VehicleSt.st s)) -> rtc (vehicle_step (fun _ => True)) s s' ->
  (forall u, (length (where_ prisma.vehicle (ownActive u) (St.db (VehicleSt.st s'))) <= MAX_VEHICLES_PER_USER)%nat) /\
  forall k v, Db.vehicle (St.db (VehicleSt.st s')) !! k = Some v -> Vehicle.isVerified v = true <-> isApproved v.
Proof.
  intros B R. assert (B' : on_vehicles VehicleBooks s').
  { induction R as [s|s s1 s2 St R IH]; [exact B|]. apply IH. destruct St as [env storage skips r s _|s s' V _].
    - exact (books_handle r s B).
    - destruct B as [F T]. split; rewrite V; assumption. }
  split.
  - intros u. pose proof (length_where prisma.vehicle (ownActive u) (St.db (VehicleSt.st s'))) as L.
    pose proof (vb_three _ B' u) as T. unfold activeCount in T. cbn [rows prisma.vehicle] in L. unfold MAX_VEHICLES_PER_USER. lia.
  - intros k v E. rewrite (vb_flag _ B' k v E), bool_decide_eq_true. reflexivity.
Qed.

(** C18.  A vehicle enters the database complete or not at all.  Saving a draft that is still
    valid creates the vehicle of the draft, waiting for its review, with one row for each of its
    documents but the car's photo, none of a private type with a public address, and consumes
    the draft; in a country that asks for them the draft has all the required documents and the
    driver's licence is verified or on file; no document is one the bucket said it does not
    hold, and the driver has at most three vehicles.  When it is refused or fails, nothing
    changes and the draft is kept. *)
Theorem saved_vehicle_is_complete (env : Env) (storage : Storage) (skips : Eligibility.EligibilityEnv) (userId : string)
    (s s' : VehicleSt.t) (r : Res Vehicle.t) :
  saveVehicle userId s = (s', r) ->
  Saved userId s s' r /\
  match r with
  | Ok v =>
      Vehicle.isVerified v = bool_decide (isApproved v) /\ (isApproved v -> shouldAutoVerifyVehicle = true) /\
      (length (where_ prisma.vehicle (ownActive userId) (St.db (VehicleSt.st s'))) <= MAX_VEHICLES_PER_USER)%nat /\
      forall k doc, Db.vehicleDocument (St.db (VehicleSt.st s')) !! k = Some doc ->
        Db.vehicleDocument (St.db (VehicleSt.st s)) !! k = None ->
        isPrivateDocumentType (VehicleDocument.documentType doc) = true -> VehicleDocument.image doc = None
  | Err _ => True
  end.
Proof.
  intros E. assert (K : Saved userId s s' r) by (pose proof (save_spec userId s) as W; unfold wp in W; rewrite E in W; exact W).
  split; [exact K|]. destruct r as [v|e]; [|exact Logic.I].
  destruct K as (draft & expiry & c & n & _ & _ & (_ & _ & L & _) & _ & (id & -> & N & V & _ & Rows) & _).
  split; [apply saved_flag|]. split; [|split].
  - unfold isApproved, savedVehicle. cbn. destruct shouldAutoVerifyVehicle; [reflexivity | discriminate].
  - pose proof (length_where prisma.vehicle (ownActive userId) (St.db (VehicleSt.st s'))) as L1.
    pose proof (length_where prisma.vehicle (ownActive userId) (St.db (VehicleSt.st s))) as L0.
    cbn [rows prisma.vehicle] in L0, L1. rewrite V, sum_map_insert_None in L1 by exact N. unfold MAX_VEHICLES_PER_USER in *.
    destruct (ownActive _ _); lia.
  - intros k doc Ek Nk P. destruct (Rows k doc Ek) as [E0|(dd & _ & ->)]; [congruence|]. cbn in P |- *. rewrite P. reflexivity.
Qed.

(** ** An Estonian car *)

Definition demo_no_bypass : Eligibility.EligibilityEnv := {| Eligibility.SKIP_VEHICLE_VERIFICATION := None |}.
Definition demo_storage : Storage := {| objectExists := fun _ _ => true |}.
Definition demo_driver : VehicleSt.t := VehicleSt.Build_t (St.Build_t (Db.empty
  <| Db.user := {["u1"%string := User.defaults "u1" 0 <| User.dlVerified := true |>]} |>) [] 0) ∅.

Definition demo_do (t : Z) (r : VehicleRequest) (s : VehicleSt.t) : VehicleSt.t :=
  (@handle (demo_env t no_failure) demo_storage demo_no_bypass r s).1.

Definition demo_car : UpdateVehicleDetailsInput.t := {|
  UpdateVehicleDetailsInput.brand := "Skoda"; UpdateVehicleDetailsInput.model_num := "1"; UpdateVehicleDetailsInput.model_name := "Octavia";
  UpdateVehicleDetailsInput.type := VehicleType.sedan; UpdateVehicleDetailsInput.color := "red"; UpdateVehicleDetailsInput.year := 2020 |}.

Definition demo_url (url : string) : DocumentSource.t := {| DocumentSource.imageUrl := Some url; DocumentSource.imageKey := None |}.

(** The four documents are uploaded; the registry document by a public address. *)
Definition demo_draft : VehicleSt.t :=
  fold_left (fun s r => demo_do 1000 r s)
    [DraftLicense "u1" "ee" "123ABC"; DraftDetails "u1" demo_car;
     DraftUpload "u1" DocumentType.VEHICLE_IMAGE_FRONT (demo_url "https://cdn.example/uploads/vehicle/u1/f.jpg");
     DraftUpload "u1" DocumentType.VEHICLE_IMAGE_BACK (demo_url "https://cdn.example/uploads/vehicle/u1/b.jpg");
     DraftUpload "u1" DocumentType.VEHICLE_DOCUMENT (demo_url "https://cdn.example/uploads/vehicle/u1/r%20.jpg?x=1");
     DraftUpload "u1" DocumentType.INSURANCE_DOCUMENT {| DocumentSource.imageUrl := None; DocumentSource.imageKey := Some "uploads/vehicle-documents/u1/i.pdf" |}]%string demo_driver.

Definition demo_saved : VehicleSt.t * Res Vehicle.t :=
  @saveVehicle (demo_env 2000 no_failure) demo_storage demo_no_bypass "u1" demo_draft.

Example demo_saved_rows :
  (match demo_saved.2 with Ok v => Some (Vehicle.id v, Vehicle.imageUrl v) | Err _ => None end,
   map (fun doc => (VehicleDocument.image doc, VehicleDocument.imageKey doc)) (documentsOf "id" (St.db (VehicleSt.st demo_saved.1)))) =
  (Some ("id", Some "https://cdn.example/uploads/vehicle/u1/f.jpg"),
   [(Some "https://cdn.example/uploads/vehicle/u1/b.jpg", None); (None, Some "uploads/vehicle-documents/u1/r .jpg");
    (None, Some "uploads/vehicle-documents/u1/i.pdf")])%string.
Proof. vm_compute. reflexivity. Qed.

Lemma saved_vehicle_is_complete_witness : exists v,
  demo_saved.2 = Ok v /\ ~ isApproved v /\ @Saved (demo_env 2000 no_failure) demo_storage demo_no_bypass "u1" demo_draft demo_saved.1 (Ok v).
Proof.
  assert (E : exists v, demo_saved.2 = Ok v) by (eexists; vm_compute; reflexivity). destruct E as [v E]. exists v.
  assert (P : demo_saved = (demo_saved.1, Ok v)) by (rewrite <- E; destruct demo_saved; reflexivity).
  destruct (saved_vehicle_is_complete (demo_env 2000 no_failure) demo_storage demo_no_bypass "u1" demo_draft demo_saved.1 (Ok v) P) as (K & _ & N & _).
  split; [exact E|]. split; [intros A; discriminate (N A) | exact K].
Defined.

(** It is approved, gets a new photo and is audited: it stays approved. *)
Definition demo_approved : VehicleSt.t := demo_do 3000 (Verify "id" (Some "admin"%string)) demo_saved.1.
Definition demo_after : VehicleSt.t :=
  demo_do 5000 (Audit 2 AuditOptions.defaults) (demo_do 4000 (UpdateImage "u1" "id" "https://cdn.example/uploads/vehicle/u1/g.jpg" "uploads/vehicle/u1/g.jpg") demo_approved).

Lemma demo_after_run : rtc (vehicle_step (fun r => approves "id" r = false)) demo_approved demo_after.
Proof.
  eapply rtc_l; [|apply rtc_once];
    [exact (@vehicle_call _ (demo_env 4000 no_failure) demo_storage demo_no_bypass (UpdateImage "u1" "id" "https://cdn.example/uploads/vehicle/u1/g.jpg" "uploads/vehicle/u1/g.jpg") demo_approved eq_refl)
    | exact (@vehicle_call _ (demo_env 5000 no_failure) demo_storage demo_no_bypass (Audit 2 AuditOptions.defaults) _ eq_refl)].
Qed.

Lemma filed_list (l : list (string * VehicleDocument.t)) (m : gmap string VehicleDocument.t) :
  map_to_list m = l -> Forall (fun kr => VehicleDocument.id kr.2 = kr.1) l -> filed m.
Proof. intros E F k doc L. rewrite Forall_forall in F. exact (F (k, doc) ltac:(rewrite <- E; apply elem_of_map_to_list, L)). Qed.

Lemma demo_approved_filed : filed (Db.vehicleDocument (St.db (VehicleSt.st demo_approved))).
Proof.
  assert (E : forallb (fun kr => String.eqb (VehicleDocument.id kr.2) kr.1) (map_to_list (Db.vehicleDocument (St.db (VehicleSt.st demo_approved)))) = true)
    by (vm_compute; reflexivity).
  eapply filed_list; [reflexivity|]. apply Forall_forall. intros kr I. apply String.eqb_eq.
  exact (proj1 (forallb_forall _ _) E kr (proj1 (list_elem_of_In _ _) I)).
Qed.

Definition approvedIn (s : VehicleSt.t) (x : string) : bool :=
  match Db.vehicle (St.db (VehicleSt.st s)) !! x with Some v => bool_decide (isApproved v) | None => false end.

Lemma approvedIn_some s x : approvedIn s x = true -> exists v, Db.vehicle (St.db (VehicleSt.st s)) !! x = Some v /\ isApproved v.
Proof. unfold approvedIn. destruct (_ !! _) as [v|]; [|discriminate]. intros A%bool_decide_eq_true. eauto. Qed.

Lemma approved_vehicle_is_as_reviewed_witness : exists v v0,
  Db.vehicle (St.db (VehicleSt.st demo_after)) !! "id"%string = Some v /\ isApproved v /\
  Db.vehicle (St.db (VehicleSt.st demo_approved)) !! "id"%string = Some v0 /\ reviewedFacts v = reviewedFacts v0.
Proof.
  assert (A0 : approvedIn demo_approved "id" = true) by (vm_compute; reflexivity).
  assert (A1 : approvedIn demo_after "id" = true) by (vm_compute; reflexivity).
  destruct (approvedIn_some _ _ A0) as (w & Ew & _), (approvedIn_some _ _ A1) as (v & Ev & Av).
  destruct (approved_vehicle_is_as_reviewed "id" demo_approved demo_after v demo_approved_filed (ex_intro _ w Ew) demo_after_run Ev Av)
    as (v0 & E0 & _ & F & _).
  exists v, v0. auto.
Defined.

Lemma demo_driver_books : VehicleBooks (St.db (VehicleSt.st demo_driver)).
Proof. split; cbn; [intros k v E; rewrite lookup_empty in E; discriminate E | intros u; unfold activeCount; rewrite sum_map_empty; lia]. Qed.

(** Three vehicles are saved; the fourth is refused. *)
Definition demo_fourth : VehicleSt.t := fold_left (fun s r => demo_do 1000 r s)
  [CreateVehicle "u1" "LV" "A1"; CreateVehicle "u1" "LV" "A2"; CreateVehicle "u1" "LV" "A3"; CreateVehicle "u1" "LV" "A4"]%string demo_driver.

Lemma demo_fourth_run : rtc (vehicle_step (fun _ => True)) demo_driver demo_fourth.
Proof.
  unfold demo_fourth. cbn [fold_left]. do 3 (eapply rtc_l; [apply (@vehicle_call _ (demo_env 1000 no_failure) demo_storage demo_no_bypass); exact Logic.I|]).
  apply rtc_once, (@vehicle_call _ (demo_env 1000 no_failure) demo_storage demo_no_bypass). exact Logic.I.
Qed.

Lemma three_vehicles_at_most_witness :
  length (where_ prisma.vehicle (ownActive "u1") (St.db (VehicleSt.st demo_fourth))) = 3%nat /\
  (length (where_ prisma.vehicle (ownActive "u1") (St.db (VehicleSt.st demo_fourth))) <= MAX_VEHICLES_PER_USER)%nat.
Proof.
  split; [vm_compute; reflexivity|].
  exact (proj1 (three_vehicles_at_most demo_driver demo_fourth demo_driver_books demo_fourth_run) "u1"%string).
Defined.

(** ** The review can be overtaken

    The owner's edit reads the status before the administrator approves and writes afterwards:
    the vehicle is approved with a plate nobody saw. *)
Example edit_overtakes_review :
  let env := demo_env 3000 no_failure in
  let s := VehicleSt.st demo_saved.1 in
  match (findOwned "u1" "id" s).2 with
  | Ok (Some read) =>
      let reviewed := (@verifyVehicle env "id" (Some "admin"%string) s).1 in
      let s' := (writePlate "id" "EE" "999XYZ" read reviewed).1 in
      (fun v => (Vehicle.verificationStatus v, Vehicle.licenseNumber v)) <$> Db.vehicle (St.db s') !! "id"%string
  | _ => None
  end = Some (VehicleVerificationStatus.APPROVED, "999XYZ"%string).
Proof. vm_compute. reflexivity. Qed.

(** A required photo sent by its key satisfies the list of required documents, and is lost. *)
Example front_photo_lost :
  let s := demo_do 1000 (DraftUpload "u1" DocumentType.VEHICLE_IMAGE_FRONT
             {| DocumentSource.imageUrl := None; DocumentSource.imageKey := Some "uploads/vehicle/u1/f.jpg"%string |}) demo_draft in
  match (@saveVehicle (demo_env 2000 no_failure) demo_storage demo_no_bypass "u1" s).2 with
  | Ok v => Some (Vehicle.imageUrl v, Vehicle.imageKey v) | Err _ => None end = Some (None, None).
Proof. vm_compute. reflexivity. Qed.
