(* ===== verification/VehicleAudit.v ===== *)
(** * The audit of vehicle documents

    What [auditVehicleDocuments] of [Vehicles] records when the bucket answers, and when the
    pass never ends. *)

From Stdlib Require Import ZArith Lia.
From stdpp Require Import base list option strings gmap.
From S2P Require Import Prelude JsNumber Schema Store Gateway Licence LicenceReview Eligibility Publishing Vehicles VehicleSafe.

Open Scope Z_scope.

(** ** The page of a pass *)

Lemma neverFirst_perm l : neverFirst l ≡ₚ l.
Proof.
  unfold neverFirst. rewrite sort_by_perm. induction l as [|doc l IH]; [reflexivity|]. cbn.
  destruct (bool_decide _); cbn; [rewrite IH; reflexivity|]. rewrite <- Permutation_middle, IH. reflexivity.
Qed.

Section audit.
Context `{Env} `{Storage}.
Variable stale : Z.
Hypothesis Stale : stale <= now.

(** The rows a pass has to look at, under their ids. *)
Definition pending (d : Db.t) : list VehicleDocument.t := where_ prisma.vehicleDocument (auditable stale d) d.

Lemma in_auditQuery n d doc : In doc (auditQuery stale n d) -> In doc (pending d).
Proof. intros I%in_take. rewrite <- list_elem_of_In, neverFirst_perm, list_elem_of_In in I. exact I. Qed.

Lemma auditQuery_all n d : Z.of_nat (length (auditQuery stale n d)) < n -> forall doc, In doc (pending d) -> In doc (auditQuery stale n d).
Proof.
  intros L doc I. unfold auditQuery in *. rewrite length_take in L. rewrite take_ge by lia.
  rewrite <- list_elem_of_In, neverFirst_perm, list_elem_of_In. exact I.
Qed.

Lemma auditQuery_nodup n d : filed (Db.vehicleDocument d) -> NoDup (map VehicleDocument.id (auditQuery stale n d)).
Proof.
  intros F. unfold auditQuery. rewrite <- firstn_map. eapply sublist_NoDup; [|apply sublist_take].
  rewrite (Permutation_map VehicleDocument.id (neverFirst_perm _)). apply (where_nodup prisma.vehicleDocument VehicleDocument.id). exact F.
Qed.

Lemma pending_filed d doc : filed (Db.vehicleDocument d) -> In doc (pending d) -> Db.vehicleDocument d !! VehicleDocument.id doc = Some doc.
Proof. intros F [_ [k E]]%where_elem. cbn in E. rewrite (F k doc E). exact E. Qed.

(** ** When the bucket answers *)

Section answers.
Variable holds : string -> bool.
Hypothesis Answers : forall n key, fails n (HeadObject key) = None /\ objectExists n key = holds key.

(** What the audit finds out about a row, and writes. *)
Definition verdictOf (doc : VehicleDocument.t) : Verdict :=
  match resolveDocumentKey doc with Some key => if holds key then present else missing | None => missing end.

Definition judged (doc : VehicleDocument.t) : VehicleDocument.t := recordVerdict (verdictOf doc) doc.

Lemma judged_id doc : VehicleDocument.id (judged doc) = VehicleDocument.id doc.
Proof. reflexivity. Qed.

(** The rows of [docs] are judged, the others as they were. *)
Record Judged (docs : list VehicleDocument.t) (d d' : Db.t) : Prop := {
  jd_docs : forall doc, In doc docs -> Db.vehicleDocument d' !! VehicleDocument.id doc = Some (judged doc);
  jd_others : forall k, (forall doc, In doc docs -> VehicleDocument.id doc <> k) -> Db.vehicleDocument d' !! k = Db.vehicleDocument d !! k;
  jd_vehicle : Db.vehicle d' = Db.vehicle d;
  jd_user : Db.user d' = Db.user d;
}.

Lemma check_answer doc (s : St.t) : wp (checkDocument doc) (fun s' r => St.db s' = St.db s /\ r = Ok (Some (verdictOf doc))) s.
Proof.
  unfold checkDocument, verdictOf. destruct (resolveDocumentKey doc) as [key|]; [|apply wp_ret; split; reflexivity].
  apply wp_try_catch, wp_bind, wp_bind, wp_get, wp_bind, wp_call. intros r F. rewrite (proj1 (Answers _ _)) in F. subst r.
  apply wp_ret. rewrite (proj2 (Answers _ _)). apply wp_ret. split; reflexivity.
Qed.

Lemma stamp_row verdict doc : doc <| VehicleDocument.storageCheckedAt := VehicleDocument.storageCheckedAt (recordVerdict verdict doc) |>
  <| VehicleDocument.storageMissingAt := VehicleDocument.storageMissingAt (recordVerdict verdict doc) |> = recordVerdict verdict doc.
Proof. destruct doc. reflexivity. Qed.

(** What a pass has counted and touched after more rows. *)
Definition Counted (docs : list VehicleDocument.t) (pass pass' : Pass) : Prop :=
  AuditSummary.checked pass'.1 = AuditSummary.checked pass.1 + Z.of_nat (length docs) /\
  AuditSummary.inconclusive pass'.1 = AuditSummary.inconclusive pass.1 /\
  (NoDup pass.2 -> NoDup pass'.2) /\
  forall v, In v pass'.2 <-> In v pass.2 \/ exists doc, In doc docs /\ VehicleDocument.vehicleId doc = v.

Lemma in_addTouched v w l : In v (addTouched w l) <-> In v l \/ w = v.
Proof.
  unfold addTouched. destruct (decide (w ∈ l)) as [I|N].
  - apply list_elem_of_In in I. split; [auto | intros [J| <-]; assumption].
  - rewrite in_app_iff. cbn. tauto.
Qed.

Lemma nodup_addTouched w l : NoDup l -> NoDup (addTouched w l).
Proof.
  unfold addTouched. destruct (decide (w ∈ l)) as [I|N]; [auto|]. intros L. apply NoDup_app. split; [exact L|]. split.
  - intros v Iv ->%list_elem_of_singleton. contradiction.
  - apply NoDup_singleton.
Qed.

Lemma counted_one doc v pass : Counted [doc] pass (tally (Some v) doc pass.1, addTouched (VehicleDocument.vehicleId doc) pass.2).
Proof.
  unfold Counted. cbn [fst snd length]. split; [|split; [|split; [apply nodup_addTouched|]]].
  - unfold tally. destruct v; [destruct (bool_decide _)|]; cbn; lia.
  - unfold tally. destruct v; [destruct (bool_decide _)|]; reflexivity.
  - intros w. rewrite in_addTouched. cbn [In]. split; [intros [I|<-]; eauto 6 | intros [I|(x & [<-|[]] & <-)]; auto].
Qed.

Lemma counted_app docs docs' p p' p'' : Counted docs p p' -> Counted docs' p' p'' -> Counted (docs ++ docs') p p''.
Proof.
  intros (A & B & C & D) (A' & B' & C' & D'). unfold Counted. rewrite length_app, A', B', A, B. split; [lia|].
  split; [reflexivity|]. split; [auto|]. intros v. rewrite D', D. split; [intros [[I|(x & I & E)]|(x & I & E)] | intros [I|(x & [I|I]%in_app_iff & E)]]; rewrite ?in_app_iff; eauto 7 using in_or_app.
Qed.

Lemma page_judges docs pass (s : St.t) : NoDup (map VehicleDocument.id docs) ->
  (forall doc, In doc docs -> Db.vehicleDocument (St.db s) !! VehicleDocument.id doc = Some doc) ->
  wp (auditPage false docs pass) (fun s' r => Judged docs (St.db s) (St.db s') /\ exists pass', r = Ok pass' /\ Counted docs pass pass') s.
Proof.
  revert pass s. induction docs as [|doc rest IH]; intros pass s ND F; cbn [auditPage].
  - apply wp_ret. split; [split; auto; intros ? []|]. exists pass. split; [reflexivity|]. unfold Counted. cbn. split; [lia|]. split; [reflexivity|].
    split; [exact id|]. intros v. split; [auto | intros [Iv|(? & [] & _)]; exact Iv].
  - cbn [map] in ND. apply NoDup_cons in ND as [Nd ND]. destruct pass as [summary touched].
    unfold auditDocument. apply wp_bind, wp_bind. eapply wp_mono; [apply check_answer|]. intros s1 r [D1 ->]. cbv beta iota.
    apply wp_bind, wp_bind, wp_update; cbn [rows prisma.vehicleDocument]; rewrite D1.
    { intros N. rewrite (F doc (or_introl eq_refl)) in N. discriminate N. }
    intros row Er. rewrite (F doc (or_introl eq_refl)) in Er. injection Er as <-. apply wp_ret. cbv beta iota. apply wp_ret. cbv beta iota.
    rewrite stamp_row. fold (judged doc).
    set (s2 := s1 <| St.db ::= _ |>).
    assert (D2 : Db.vehicleDocument (St.db s2) = <[VehicleDocument.id doc := judged doc]> (Db.vehicleDocument (St.db s))) by (unfold s2; cbn; rewrite D1; reflexivity).
    assert (Ne : forall d, In d rest -> VehicleDocument.id d <> VehicleDocument.id doc).
    { intros d Id E. apply Nd. rewrite <- E. apply list_elem_of_In, in_map, Id. }
    eapply wp_mono; [apply (IH _ s2 ND)|].
    { intros d Id. rewrite D2, lookup_insert_ne by (apply not_eq_sym, Ne, Id). exact (F d (or_intror Id)). }
    intros s' r [[A B C U] (pass' & -> & K)]. split.
    + split.
      * intros d [<-|Id]; [|exact (A d Id)]. rewrite B by exact Ne. rewrite D2, lookup_insert_eq. reflexivity.
      * intros k Nk. rewrite B by (intros d Id; apply Nk; right; exact Id). rewrite D2, lookup_insert_ne by (apply Nk; left; reflexivity). reflexivity.
      * rewrite C. unfold s2. cbn. rewrite D1. reflexivity.
      * rewrite U. unfold s2. cbn. rewrite D1. reflexivity.
    + exists pass'. split; [reflexivity|]. apply (counted_app [doc] rest _ _ _ (counted_one doc _ (summary, touched)) K).
Qed.

(** ** One round after the other *)

Lemma judged_perm docs docs' d d' : docs ≡ₚ docs' -> Judged docs d d' -> Judged docs' d d'.
Proof.
  intros P [A B C U]. assert (E : forall x, In x docs' <-> In x docs) by (intros x; rewrite <- !list_elem_of_In, P; reflexivity).
  split; [intros x I; apply A, E, I | intros k N; apply B; intros x I; apply N, E, I | exact C | exact U].
Qed.

Lemma counted_perm docs docs' p p' : docs ≡ₚ docs' -> Counted docs p p' -> Counted docs' p p'.
Proof.
  intros P (A & B & C & D). unfold Counted. rewrite <- (Permutation_length P). repeat (split; [assumption|]).
  intros v. rewrite D. assert (E : forall x, In x docs' <-> In x docs) by (intros x; rewrite <- !list_elem_of_In, P; reflexivity).
  setoid_rewrite E. reflexivity.
Qed.

Lemma judged_filed docs d d' : Judged docs d d' -> filed (Db.vehicleDocument d) -> filed (Db.vehicleDocument d').
Proof.
  intros [A B _ _] F k doc E. destruct (decide (k ∈ map VehicleDocument.id docs)) as [I|N].
  - apply list_elem_of_fmap in I as (x & -> & I). apply list_elem_of_In in I. rewrite (A x I) in E. injection E as <-. reflexivity.
  - rewrite B in E; [exact (F k doc E)|]. intros x I <-. apply N, list_elem_of_fmap. exists x. split; [reflexivity | apply list_elem_of_In, I].
Qed.

(** A row with a verdict of today is not looked at again. *)
Lemma judged_settled docs d d' doc : Judged docs d d' -> filed (Db.vehicleDocument d') -> In doc (pending d') ->
  forall x, In x docs -> VehicleDocument.id x <> VehicleDocument.id doc.
Proof.
  intros J F P x I E. pose proof (pending_filed d' doc F P) as Ed. rewrite <- E, (jd_docs _ _ _ J x I) in Ed. injection Ed as Ed.
  apply where_elem in P as [P _]. apply andb_true_iff in P as [_ P]. rewrite <- Ed in P.
  change (now <? stale = true) in P. apply Z.ltb_lt in P. lia.
Qed.

Lemma pending_nodup d : filed (Db.vehicleDocument d) -> NoDup (map VehicleDocument.id (pending d)).
Proof. exact (where_nodup prisma.vehicleDocument VehicleDocument.id _ d). Qed.

Lemma pending_rest page d d' : Judged page d d' -> filed (Db.vehicleDocument d) -> NoDup (map VehicleDocument.id page) ->
  (forall doc, In doc page -> In doc (pending d)) -> pending d ≡ₚ page ++ pending d'.
Proof.
  intros J F N S. pose proof (judged_filed _ _ _ J F) as F'.
  assert (Same : forall doc, (forall x, In x page -> VehicleDocument.id x <> VehicleDocument.id doc) -> In doc (pending d') <-> In doc (pending d)).
  { intros doc D. pose proof (jd_others _ _ _ J _ D) as O. unfold pending. rewrite !where_elem.
    assert (A : auditable stale d' doc = auditable stale d doc) by (unfold auditable; cbn [rows prisma.vehicle]; rewrite (jd_vehicle _ _ _ J); reflexivity).
    rewrite A. cbn [rows prisma.vehicleDocument]. split; intros [P [k E]]; (split; [exact P|]); exists k.
    - pose proof (F' k doc E) as <-. rewrite <- O. exact E.
    - pose proof (F k doc E) as <-. rewrite O. exact E. }
  apply NoDup_Permutation.
  - apply (NoDup_fmap_1 VehicleDocument.id), pending_nodup, F.
  - apply NoDup_app. split; [apply (NoDup_fmap_1 VehicleDocument.id), N|]. split; [|apply (NoDup_fmap_1 VehicleDocument.id), pending_nodup, F'].
    intros x I%list_elem_of_In I'%list_elem_of_In. exact (judged_settled _ _ _ x J F' I' x I eq_refl).
  - intros doc. rewrite elem_of_app, !list_elem_of_In. split.
    + intros I. destruct (decide (VehicleDocument.id doc ∈ map VehicleDocument.id page)) as [E|E].
      * left. apply list_elem_of_fmap in E as (x & E & Ix). apply list_elem_of_In in Ix.
        pose proof (pending_filed d doc F I) as E1. pose proof (pending_filed d x F (S x Ix)) as E2. rewrite E, E2 in E1. injection E1 as <-. exact Ix.
      * right. apply Same; [|exact I]. intros x Ix Q. apply E. rewrite <- Q. apply list_elem_of_fmap. exists x. split; [reflexivity | apply list_elem_of_In, Ix].
    + intros [I|I]; [exact (S doc I)|]. apply Same; [|exact I]. exact (judged_settled _ _ _ doc J F' I).
Qed.

Lemma judged_app page rest d d1 d2 : Judged page d d1 -> Judged rest d1 d2 ->
  (forall x y, In x page -> In y rest -> VehicleDocument.id x <> VehicleDocument.id y) -> Judged (page ++ rest) d d2.
Proof.
  intros [A B C U] [A' B' C' U'] N. split.
  - intros doc [I|I]%in_app_iff; [|exact (A' doc I)]. rewrite B' by (intros y Iy E; exact (N doc y I Iy (eq_sym E))). exact (A doc I).
  - intros k Nk. rewrite B', B; [reflexivity | |]; intros x I; apply Nk, in_app_iff; auto.
  - congruence.
  - congruence.
Qed.

Lemma loop_judges o rounds pass (s : St.t) :
  AuditOptions.limit o = None -> 0 < AuditOptions.batchSize o -> AuditOptions.dryRun o = false ->
  filed (Db.vehicleDocument (St.db s)) -> (length (pending (St.db s)) < rounds)%nat ->
  wp (auditLoop rounds o stale pass) (fun s' r => Judged (pending (St.db s)) (St.db s) (St.db s') /\
    exists pass', r = Ok (Some pass') /\ Counted (pending (St.db s)) pass pass') s.
Proof.
  intros Lim Size Dry. revert pass s. induction rounds as [|rounds IH]; intros pass s F L; [lia|]. cbn [auditLoop]. rewrite Lim, Dry. cbv zeta.
  apply wp_bind, wp_get. cbv beta iota. set (d := St.db s) in *. set (page := auditQuery stale (AuditOptions.batchSize o) d).
  pose proof (auditQuery_nodup (AuditOptions.batchSize o) d F) as N. fold page in N.
  assert (S : forall doc, In doc page -> In doc (pending d)) by (intros doc; apply in_auditQuery).
  assert (All : Z.of_nat (length page) < AuditOptions.batchSize o -> pending d ≡ₚ page).
  { intros Short. apply NoDup_Permutation; [apply (NoDup_fmap_1 VehicleDocument.id), pending_nodup, F | apply (NoDup_fmap_1 VehicleDocument.id), N|].
    intros doc. rewrite !list_elem_of_In. split; [exact (auditQuery_all _ d Short doc) | exact (S doc)]. }
  case_bool_decide as E; cbv beta iota.
  - apply wp_ret. rewrite E in All. cbn [length] in All. specialize (All ltac:(lia)).
    split; [apply (judged_perm []); [symmetry; exact All|]; split; auto; intros ? []|]. exists pass. split; [reflexivity|].
    apply (counted_perm []); [symmetry; exact All|]. unfold Counted. cbn. split; [lia|]. split; [reflexivity|].
    split; [exact id|]. intros v. split; [auto | intros [Iv|(? & [] & _)]; exact Iv].
  - apply wp_bind. eapply wp_mono; [apply (page_judges page pass s N)|].
    { intros doc I. exact (pending_filed d doc F (S doc I)). }
    intros s1 r [J (pass1 & -> & K)]. cbv beta iota. destruct (_ <? _) eqn:Short; [apply Z.ltb_lt in Short | apply Z.ltb_ge in Short].
    + apply wp_ret. specialize (All Short). split; [apply (judged_perm page); [symmetry; exact All | exact J]|].
      exists pass1. split; [reflexivity|]. apply (counted_perm page); [symmetry; exact All | exact K].
    + pose proof (pending_rest page d (St.db s1) J F N S) as P. pose proof (judged_filed _ _ _ J F) as F1.
      assert (L1 : (length (pending (St.db s1)) < rounds)%nat).
      { rewrite P, length_app in L. destruct page; [contradiction E; reflexivity|]. cbn [length] in L. lia. }
      eapply wp_mono; [apply (IH pass1 s1 F1 L1)|]. intros s2 r [J2 (pass2 & -> & K2)]. split.
      * apply (judged_perm (page ++ pending (St.db s1))); [symmetry; exact P|]. apply (judged_app _ _ _ _ _ J J2).
        intros x y Ix Iy. exact (judged_settled _ _ _ y J F1 Iy x Ix).
      * exists pass2. split; [reflexivity|]. apply (counted_perm (page ++ pending (St.db s1))); [symmetry; exact P|].
        exact (counted_app _ _ _ _ _ K K2).
Qed.

(** ** Telling the owners *)

Definition missingOf (d : Db.t) (vehicleId : string) : list VehicleDocument.t :=
  where_ prisma.vehicleDocument (fun doc =>
    bool_decide (VehicleDocument.vehicleId doc = vehicleId) && bool_decide (is_Some (VehicleDocument.storageMissingAt doc))) d.

(** The owner of a vehicle is told once, until its documents are there again. *)
Definition warned (anyMissing : bool) (v : Vehicle.t) : Vehicle.t :=
  v <| Vehicle.documentIssueNotifiedAt := if anyMissing then Some (default now (Vehicle.documentIssueNotifiedAt v)) else None |>.

Definition warns (d : Db.t) (vehicleId : string) : bool := negb (bool_decide (missingOf d vehicleId = [])).

Definition owned (d : Db.t) : Prop := forall k v, Db.vehicle d !! k = Some v -> is_Some (Db.user d !! Vehicle.userId v).

(** The vehicles of the list are warned about or cleared, nothing else changes. *)
Record Settled (w : string -> bool) (vehicles : list string) (d d' : Db.t) : Prop := {
  sd_documents : Db.vehicleDocument d' = Db.vehicleDocument d;
  sd_user : Db.user d' = Db.user d;
  sd_vehicles : forall x, In x vehicles -> Db.vehicle d' !! x = warned (w x) <$> Db.vehicle d !! x;
  sd_others : forall x, ~ In x vehicles -> Db.vehicle d' !! x = Db.vehicle d !! x;
}.

Lemma warned_same (b : bool) (v : Vehicle.t) : Vehicle.documentIssueNotifiedAt v = (if b then Some (default now (Vehicle.documentIssueNotifiedAt v)) else None) -> warned b v = v.
Proof. intros E. unfold warned. rewrite <- E. destruct v. reflexivity. Qed.

Lemma settled_same w x v d : Db.vehicle d !! x = Some v -> warned (w x) v = v -> Settled w [x] d d.
Proof. intros E S. split; auto. intros y [<-|[]]. rewrite E. cbn. rewrite S. reflexivity. Qed.

Lemma settled_put w x v d : Db.vehicle d !! x = Some v -> Settled w [x] d (d <| Db.vehicle ::= <[x := warned (w x) v]> |>).
Proof.
  intros E. split; cbn [Db.vehicle Db.vehicleDocument Db.user setf]; try reflexivity.
  - intros y [<-|[]]. rewrite lookup_insert_eq, E. reflexivity.
  - intros y N. apply lookup_insert_ne. intros ->. apply N. left. reflexivity.
Qed.

(** The message leaves the database alone. *)
Lemma told_db (user : User.t) (subject : string) (s : St.t) :
  St.db ((createNotification (User.id user) "vehicle.document.missing";;
          match truthy (User.email user) with Some email => perform (SendMail email subject) | None => mret tt end) s).1 = St.db s.
Proof.
  symmetry. refine ((_ : preserves (on_db (eq (St.db s))) _) s eq_refl). unfold createNotification. preserve.
Qed.

Lemma settle_one x types w (s : St.t) : owned (St.db s) -> w x = negb (bool_decide (types = [])) ->
  wp (settleVehicle x types true) (fun s' r => Settled w [x] (St.db s) (St.db s') /\ exists b, r = Ok b) s.
Proof.
  intros O W. unfold settleVehicle. apply wp_bind, wp_findUnique. cbn [rows prisma.vehicle]. intros [v|] E.
  2: { apply wp_ret. split; [|eauto]. split; auto. intros y [<-|[]]. rewrite E. reflexivity. }
  cbv beta iota. case_bool_decide as T; cbn [negb] in *.
  - case_bool_decide as N; apply wp_bind.
    + apply wp_bind, wp_update; cbn [rows prisma.vehicle]; rewrite E; [discriminate|]. intros ? [= <-]. apply wp_ret, wp_ret.
      split; [|eauto]. assert (R : warned (w x) v = v <| Vehicle.documentIssueNotifiedAt := None |>) by (rewrite W; reflexivity).
      cbn [St.db setf]. rewrite <- R. apply settled_put, E.
    + apply wp_ret, wp_ret. split; [|eauto]. apply (settled_same w x v _ E), warned_same. rewrite W.
      destruct (Vehicle.documentIssueNotifiedAt v); [exfalso; apply N; eauto | reflexivity].
  - unfold notifyOwner. apply wp_bind, wp_findUnique. cbn [rows prisma.vehicle]. rewrite E. intros ? <-. cbv beta iota.
    case_bool_decide as N.
    + apply wp_ret. split; [|eauto]. apply (settled_same w x v _ E), warned_same. rewrite W. destruct N as [t ->]. reflexivity.
    + destruct (O x v E) as [u U]. apply wp_bind, wp_findUniqueOrThrow; cbn [rows prisma.user]; rewrite U; [discriminate|]. intros ? [= <-].
      apply wp_bind, wp_update; cbn [rows prisma.vehicle]; rewrite E; [discriminate|]. intros ? [= <-]. cbv beta iota.
      apply wp_bind, wp_attempt. apply wp_ret. split; [|eauto].
      assert (R : warned (w x) v = v <| Vehicle.documentIssueNotifiedAt := Some now |>).
      { rewrite W. unfold warned. destruct (Vehicle.documentIssueNotifiedAt v); [exfalso; apply N; eauto | reflexivity]. }
      rewrite told_db. cbn [St.db setf]. rewrite <- R. apply settled_put, E.
Qed.

Lemma settled_owned w l d d' : Settled w l d d' -> owned d -> owned d'.
Proof.
  intros [_ U V N] O k v E. rewrite U. destruct (decide (k ∈ l)) as [I|I].
  - apply list_elem_of_In in I. rewrite (V k I) in E. destruct (Db.vehicle d !! k) as [v0|] eqn:E0; [|discriminate E].
    injection E as <-. exact (O k v0 E0).
  - rewrite N in E by (rewrite <- list_elem_of_In; exact I). exact (O k v E).
Qed.

Lemma settle_all vehicles w summary (s : St.t) : owned (St.db s) -> NoDup vehicles -> (forall x, w x = warns (St.db s) x) ->
  wp (settleAll vehicles true summary) (fun s' r => Settled w vehicles (St.db s) (St.db s') /\
    exists summary', r = Ok summary' /\ AuditSummary.checked summary' = AuditSummary.checked summary /\
      AuditSummary.inconclusive summary' = AuditSummary.inconclusive summary) s.
Proof.
  revert summary s. induction vehicles as [|x rest IH]; intros summary s O ND W; cbn [settleAll].
  { apply wp_ret. split; [split; auto; intros ? []|]. exists summary. auto. }
  apply NoDup_cons in ND as [Nx ND]. rewrite list_elem_of_In in Nx. apply wp_bind, wp_run. intros s1 l [= <- <-]. cbv beta iota.
  apply wp_bind. eapply wp_mono; [apply (settle_one x _ w s O)|].
  { rewrite W. unfold warns. fold (missingOf (St.db s) x). f_equal. apply bool_decide_ext. destruct (missingOf _ x); cbn; split; auto; discriminate. }
  intros s1 r [S1 [b ->]]. cbv beta iota.
  eapply wp_mono; [apply (IH _ s1 (settled_owned _ _ _ _ S1 O) ND)|].
  { intros y. rewrite W. unfold warns, missingOf, where_. cbn [rows prisma.vehicleDocument]. rewrite (sd_documents _ _ _ _ S1). reflexivity. }
  intros s2 r [S2 (summary' & -> & C & N)]. split.
  - destruct S1 as [D1 U1 V1 N1], S2 as [D2 U2 V2 N2]. split; [congruence | congruence | |].
    + intros y [<-|I].
      * rewrite N2 by exact Nx. apply V1. left. reflexivity.
      * rewrite V2 by exact I. rewrite N1; [reflexivity|]. intros [<-|[]]. contradiction.
    + intros y I. rewrite N2, N1; [reflexivity | |]; intros J; apply I; [destruct J as [<-|[]]; left; reflexivity | right; exact J].
  - exists summary'. split; [reflexivity|]. rewrite C, N. destruct b; split; reflexivity.
Qed.

(** The whole pass. *)
Lemma audit_spec o rounds (s : St.t) :
  AuditOptions.limit o = None -> 0 < AuditOptions.batchSize o -> AuditOptions.dryRun o = false -> AuditOptions.notify o = true ->
  stale = now - AuditOptions.recheckAfterHours o * 60 * 60 * 1000 ->
  filed (Db.vehicleDocument (St.db s)) -> owned (St.db s) -> (length (pending (St.db s)) < rounds)%nat ->
  wp (auditVehicleDocuments rounds o) (fun s' r => exists d1 touched summary,
    Judged (pending (St.db s)) (St.db s) d1 /\ Settled (warns d1) touched d1 (St.db s') /\
    (forall v, In v touched <-> exists doc, In doc (pending (St.db s)) /\ VehicleDocument.vehicleId doc = v) /\
    r = Ok (Some summary) /\ AuditSummary.checked summary = Z.of_nat (length (pending (St.db s))) /\ AuditSummary.inconclusive summary = 0) s.
Proof.
  intros Lim Size Dry Not St F O L. unfold auditVehicleDocuments. rewrite <- St. cbv zeta. apply wp_bind.
  eapply wp_mono; [apply (loop_judges o rounds _ s Lim Size Dry F L)|]. intros s1 r [J ([summary touched] & -> & (C & N & D & T))]. cbv beta iota.
  rewrite Dry, Not. apply wp_bind. eapply wp_mono; [apply (settle_all touched (warns (St.db s1)) summary s1)|].
  - intros k v E. rewrite (jd_vehicle _ _ _ J) in E. rewrite (jd_user _ _ _ J). exact (O k v E).
  - apply D. constructor.
  - reflexivity.
  - intros s2 r [S (summary' & -> & C' & N')]. apply wp_ret. exists (St.db s1), touched, summary'.
    split; [exact J|]. split; [exact S|]. split; [intros v; rewrite T; cbn [snd]; split; [intros [[]|K]; exact K | intros K; right; exact K]|]. split; [reflexivity|].
    cbn [fst AuditSummary.checked AuditSummary.inconclusive AuditSummary.zero] in C, N. rewrite C', N', C, N. split; [lia | reflexivity].
Qed.
End answers.

(** ** When it never ends *)

(** No row of the page gets a verdict that is written. *)
Definition unanswered (dryRun : bool) (docs : list VehicleDocument.t) : Prop :=
  dryRun = true \/
  ((forall n key, is_Some (fails n (HeadObject key))) /\ forall doc, In doc docs -> is_Some (resolveDocumentKey doc)).

Ltac idle := apply wp_ret; split; [reflexivity|]; eexists; split; [reflexivity|]; first [left; assumption | right; reflexivity].

Lemma page_idle dryRun docs pass (s : St.t) : unanswered dryRun docs ->
  wp (auditPage dryRun docs pass) (fun s' r => St.db s' = St.db s /\ exists summary touched,
    r = Ok (summary, touched)) s.
Proof.
  revert pass s. induction docs as [|doc rest IH]; intros [summary touched] s U; cbn [auditPage].
  { apply wp_ret. split; [reflexivity|]. eauto. }
  apply wp_bind. unfold auditDocument. apply wp_bind.
  apply (wp_mono _ (fun s' r => St.db s' = St.db s /\ exists v, r = Ok v /\ (dryRun = true \/ v = None))).
  { unfold checkDocument. destruct U as [U|[Fa Lo]].
    - destruct (resolveDocumentKey doc); [|idle]. apply wp_try_catch, wp_bind, wp_bind, wp_get, wp_bind, wp_call.
      intros [e|] _; [idle|]. apply wp_ret. idle.
    - destruct (Lo doc (or_introl eq_refl)) as [key ->]. apply wp_try_catch, wp_bind, wp_bind, wp_get, wp_bind, wp_call. intros r Fr.
      destruct (Fa (length (St.fx s)) key) as [e Fe]. rewrite Fe in Fr. subst r. idle. }
  intros s1 r [D1 (v & -> & V)]. cbv beta iota.
  assert (Ur : unanswered dryRun rest) by (destruct U as [U|[Fa Lo]]; [left; exact U | right; split; [exact Fa|]; intros d I; apply Lo; right; exact I]).
  destruct v as [v|].
  - destruct V as [->|[=]]. apply wp_bind, wp_ret, wp_ret. cbv beta iota.
    eapply wp_mono; [apply (IH _ s1 Ur)|]. intros s2 r [D2 K]. split; [congruence | exact K].
  - apply wp_ret. cbv beta iota. eapply wp_mono; [apply (IH _ s1 Ur)|]. intros s2 r [D2 K]. split; [congruence | exact K].
Qed.

Lemma loop_idle o d rounds pass (s : St.t) : AuditOptions.limit o = None -> 0 < AuditOptions.batchSize o -> St.db s = d ->
  AuditOptions.batchSize o <= Z.of_nat (length (pending d)) -> unanswered (AuditOptions.dryRun o) (pending d) ->
  wp (auditLoop rounds o stale pass) (fun s' r => St.db s' = d /\ r = Ok None) s.
Proof.
  intros Lim Size. revert pass s. induction rounds as [|rounds IH]; intros pass s D B U; cbn [auditLoop]; [apply wp_ret; auto|].
  rewrite Lim. cbv zeta. apply wp_bind, wp_get. cbv beta iota. rewrite D. set (page := auditQuery stale (AuditOptions.batchSize o) d).
  assert (L : Z.of_nat (length page) = AuditOptions.batchSize o).
  { unfold page, auditQuery. rewrite length_take, (Permutation_length (neverFirst_perm _)). unfold pending in B. lia. }
  rewrite bool_decide_eq_false_2 by (intros E; rewrite E in L; cbn in L; lia).
  assert (Up : unanswered (AuditOptions.dryRun o) page).
  { destruct U as [U|[Fa Lo]]; [left; exact U | right; split; [exact Fa|]; intros doc I; apply Lo, in_auditQuery with (n := AuditOptions.batchSize o), I]. }
  apply wp_bind. eapply wp_mono; [apply (page_idle _ page pass s Up)|]. intros s1 r [D1 (summary & touched & ->)]. cbv beta iota.
  rewrite (proj2 (Z.ltb_ge _ _)) by lia. apply IH; [congruence | exact B | exact U].
Qed.
End audit.

Definition staleOf (env : Env) (o : AuditOptions.t) : Z := now - AuditOptions.recheckAfterHours o * 60 * 60 * 1000.

(** C16.  The nightly audit looks at every row it has to: when the bucket answers, a pass
    without a limit ends, and every document without a recent verdict is stamped with what the
    bucket holds, a file that is missing keeping the time it was first missed; the owner of each
    vehicle looked at is told once while a document of it is missing, and the mark is cleared
    when none is; nothing else changes. *)
Theorem audit_records_every_row (env : Env) (storage : Storage) (holds : string -> bool) (o : AuditOptions.t) (rounds : nat) (s : St.t) :
  (forall n key, fails n (HeadObject key) = None /\ objectExists n key = holds key) ->
  AuditOptions.limit o = None -> 0 < AuditOptions.batchSize o -> 0 <= AuditOptions.recheckAfterHours o ->
  AuditOptions.dryRun o = false -> AuditOptions.notify o = true ->
  filed (Db.vehicleDocument (St.db s)) -> owned (St.db s) -> (length (pending (staleOf env o) (St.db s)) < rounds)%nat ->
  exists s' summary, auditVehicleDocuments rounds o s = (s', Ok (Some summary)) /\
    let rows := pending (staleOf env o) (St.db s) in
    let missingNow := warns (St.db s') in
    AuditSummary.checked summary = Z.of_nat (length rows) /\ AuditSummary.inconclusive summary = 0 /\
    (forall doc, In doc rows -> Db.vehicleDocument (St.db s') !! VehicleDocument.id doc = Some (judged holds doc)) /\
    (forall k, (forall doc, In doc rows -> VehicleDocument.id doc <> k) ->
       Db.vehicleDocument (St.db s') !! k = Db.vehicleDocument (St.db s) !! k) /\
    (forall doc, In doc rows -> Db.vehicle (St.db s') !! VehicleDocument.vehicleId doc =
       warned (missingNow (VehicleDocument.vehicleId doc)) <$> Db.vehicle (St.db s) !! VehicleDocument.vehicleId doc) /\
    (forall v, (forall doc, In doc rows -> VehicleDocument.vehicleId doc <> v) ->
       Db.vehicle (St.db s') !! v = Db.vehicle (St.db s) !! v).
Proof.
  intros A Lim Size Re Dry Not F O L. set (st := staleOf env o) in *.
  assert (Stale : st <= now) by (unfold st, staleOf; lia).
  pose proof (audit_spec st Stale holds A o rounds s Lim Size Dry Not eq_refl F O L) as W. unfold wp in W.
  destruct (auditVehicleDocuments rounds o s) as [s' r]. cbn [fst snd] in W.
  destruct W as (d1 & touched & summary & [Jd Jo Jv Ju] & [Sd Su Sv So] & T & -> & C & N). exists s', summary.
  assert (E : forall v, warns (St.db s') v = warns d1 v) by (intros v; unfold warns, missingOf, where_; cbn [Store.rows prisma.vehicleDocument]; rewrite Sd; reflexivity).
  split; [reflexivity|]. cbv zeta. split; [exact C|]. split; [exact N|]. split; [|split; [|split]].
  - intros doc I. rewrite Sd. exact (Jd doc I).
  - intros k K. rewrite Sd. exact (Jo k K).
  - intros doc I. rewrite E, (Sv _ (proj2 (T _) (ex_intro _ doc (conj I eq_refl)))), Jv. reflexivity.
  - intros v K. rewrite So, Jv; [reflexivity|]. intros (doc & I & Q)%T. exact (K doc I Q).
Qed.

(** C17.  The audit that never ends: without a limit, a dry run over at least one full page of
    rows that are due, or a pass over as many while the bucket does not answer, reads the same
    page again and again, however many rounds it is given, and writes nothing. *)
Theorem audit_never_ends (env : Env) (storage : Storage) (o : AuditOptions.t) (rounds : nat) (s : St.t) :
  let rows := pending (staleOf env o) (St.db s) in
  AuditOptions.limit o = None -> 0 < AuditOptions.batchSize o -> AuditOptions.batchSize o <= Z.of_nat (length rows) ->
  (AuditOptions.dryRun o = true \/
   (forall n key, is_Some (fails n (HeadObject key))) /\ forall doc, In doc rows -> is_Some (resolveDocumentKey doc)) ->
  exists s', auditVehicleDocuments rounds o s = (s', Ok None) /\ St.db s' = St.db s.
Proof.
  intros rows Lim Size B U. pose proof (loop_idle (staleOf env o) o (St.db s) rounds (AuditSummary.zero, []) s Lim Size eq_refl B U) as W.
  unfold wp in W. unfold auditVehicleDocuments. fold (staleOf env o). cbv zeta.
  destruct (auditLoop rounds o (staleOf env o) (AuditSummary.zero, []) s) as [s1 r] eqn:E. cbn [fst snd] in W. destruct W as [D ->].
  exists s1. split; [|exact D]. rewrite (bind_Ok _ _ _ _ _ E). reflexivity.
Qed.

(** ** A vehicle with two documents, one of which the bucket lost *)

Definition demo_document (id vehicleId key : string) (t : DocumentType.t) : VehicleDocument.t :=
  @newDocument (demo_env 0 no_failure) id vehicleId None (Some key) t.

Definition demo_garage : St.t := St.Build_t (Db.empty
  <| Db.user := {["u1"%string := User.defaults "u1" 0]} |>
  <| Db.vehicle := {["v1"%string := Vehicle.defaults "v1" 0 <| Vehicle.userId := "u1"%string |>]} |>
  <| Db.vehicleDocument := <["a"%string := demo_document "a" "v1" "uploads/a" DocumentType.VEHICLE_DOCUMENT]>
       {["b"%string := demo_document "b" "v1" "uploads/b" DocumentType.INSURANCE_DOCUMENT]} |>) [] 0.

Definition demo_holds (key : string) : bool := bool_decide (key = "uploads/a"%string).
Definition demo_bucket : Storage := {| objectExists := fun _ key => demo_holds key |}.
Definition demo_night : Env := demo_env 100000000 no_failure.

(** One row per round. *)
Definition demo_options : AuditOptions.t := {|
  AuditOptions.limit := None; AuditOptions.batchSize := 1; AuditOptions.recheckAfterHours := 20;
  AuditOptions.dryRun := false; AuditOptions.notify := true |}.

Lemma demo_documents k doc : Db.vehicleDocument (St.db demo_garage) !! k = Some doc ->
  (k = "a" /\ doc = demo_document "a" "v1" "uploads/a" DocumentType.VEHICLE_DOCUMENT)%string \/
  (k = "b" /\ doc = demo_document "b" "v1" "uploads/b" DocumentType.INSURANCE_DOCUMENT)%string.
Proof. cbn. rewrite lookup_insert_Some, lookup_singleton_Some. intros [[<- <-]|(_ & <- & <-)]; auto. Qed.

Lemma demo_filed : filed (Db.vehicleDocument (St.db demo_garage)).
Proof. intros k doc E. destruct (demo_documents k doc E) as [[-> ->]|[-> ->]]; reflexivity. Qed.

Lemma demo_owned : owned (St.db demo_garage).
Proof. intros k v. cbn. rewrite lookup_singleton_Some. intros [<- <-]. cbn. eexists. apply lookup_singleton_eq. Qed.

Lemma demo_pending : pending (staleOf demo_night demo_options) (St.db demo_garage) =
  [demo_document "a" "v1" "uploads/a" DocumentType.VEHICLE_DOCUMENT; demo_document "b" "v1" "uploads/b" DocumentType.INSURANCE_DOCUMENT].
Proof. vm_compute. reflexivity. Qed.

Lemma audit_records_every_row_witness : exists s' summary,
  @auditVehicleDocuments demo_night demo_bucket 3 demo_options demo_garage = (s', Ok (Some summary)) /\
  AuditSummary.checked summary = 2 /\
  Db.vehicleDocument (St.db s') !! "b"%string = Some (@judged demo_night demo_holds (demo_document "b" "v1" "uploads/b" DocumentType.INSURANCE_DOCUMENT)).
Proof.
  destruct (audit_records_every_row demo_night demo_bucket demo_holds demo_options 3 demo_garage) as (s' & summary & E & C & _ & J & _);
    [intros n key; split; reflexivity | reflexivity | reflexivity | discriminate | reflexivity | reflexivity | exact demo_filed | exact demo_owned
    | rewrite demo_pending; cbn; lia |].
  exists s', summary. split; [exact E|]. rewrite demo_pending in C, J. split; [exact C|].
  apply (J (demo_document "b" "v1" "uploads/b" DocumentType.INSURANCE_DOCUMENT)). right. left. reflexivity.
Defined.

Example owner_is_told :
  let s' := (@auditVehicleDocuments demo_night demo_bucket 3 demo_options demo_garage).1 in
  (Vehicle.documentIssueNotifiedAt <$> Db.vehicle (St.db s') !! "v1"%string, St.fx s') =
  (Some (Some 100000000), [(Notify "u1" "vehicle.document.missing", None); (HeadObject "uploads/b", None); (HeadObject "uploads/a", None)])%string.
Proof. vm_compute. reflexivity. Qed.

(** The dry run the script's documentation asks for, over two hundred documents. *)
Definition demo_backfill : St.t := St.Build_t (Db.empty
  <| Db.vehicle := {["v1"%string := Vehicle.defaults "v1" 0]} |>
  <| Db.vehicleDocument := list_to_map (map (fun n => let id := demo_uuid n in (id, demo_document id "v1" "uploads/a" DocumentType.VEHICLE_DOCUMENT)) (seq 0 200)) |>) [] 0.

Definition demo_dry : AuditOptions.t := {|
  AuditOptions.limit := None; AuditOptions.batchSize := DEFAULT_BATCH_SIZE; AuditOptions.recheckAfterHours := DEFAULT_RECHECK_AFTER_HOURS;
  AuditOptions.dryRun := true; AuditOptions.notify := true |}.

Lemma demo_backfill_size : length (pending (staleOf demo_night demo_dry) (St.db demo_backfill)) = 200%nat.
Proof. vm_compute. reflexivity. Qed.

Lemma audit_never_ends_witness : exists s',
  @auditVehicleDocuments demo_night demo_bucket 1000 demo_dry demo_backfill = (s', Ok None) /\ St.db s' = St.db demo_backfill.
Proof.
  apply (audit_never_ends demo_night demo_bucket demo_dry 1000 demo_backfill); [reflexivity | reflexivity | | left; reflexivity].
  rewrite demo_backfill_size. discriminate.
Defined.
