(* ===== verification/Drafting.v ===== *)
(** * What the steps of a draft keep

    Theorems on [Draft]: a driver's draft is well formed after any sequence of steps, in
    any order, up to the ride it becomes, and the bookings keep their invariant; and the
    fares of the stops that are saved are those the driver was shown. *)

From Stdlib Require Import ZArith QArith Lia.
From stdpp Require Import base list option strings gmap relations.
From S2P Require Import Prelude JsNumber JsText Money Schema Store Seats Time Segment Pricing Gateway RideRequest Booking RideOps Route.
From S2P Require Import Invariant Safe Eligibility Draft Publish Publishing.

Open Scope Z_scope.

Import Eligibility DraftRide PublishDraft.

#[local] Existing Instance exactly.

(** ** Well-formed drafts *)

(** Why a route may be refused. *)
Definition explained (isPublishable : bool) (blockedReason : option string) : Prop :=
  if isPublishable then blockedReason = None else blockedReason = Some ROUTE_BLOCKED_REASON.

Record WellFormed (owner : string) (draft : Draft.t) : Prop := {
  wf_owner : Draft.userId draft = owner;
  wf_step : 1 <= Draft.step draft <= 13;
  wf_pickups : (length (listOf (Draft.pickups draft)) <= MAX_ORIGIN_PICKUP_POINTS)%nat;
  wf_dropoffs : (length (listOf (Draft.dropoffs draft)) <= MAX_DESTINATION_DROPOFF_POINTS)%nat;
  wf_stopovers : (length (listOf (Draft.stopovers draft)) <= MAX_STOPOVER_POINTS)%nat;
  wf_seats : forall n, Draft.totalSeats draft = Some n -> 1 <= n <= 50;
  wf_route : forall b, Draft.routeIsPublishable draft = Some b -> explained b (Draft.routeBlockedReason draft);
}.

(** The two keys of Redis, and since [d0] the bookings and rides. *)
Record DraftInv (d0 : Db.t) (s : DraftSt.t) : Prop := {
  inv_drafts : forall k draft expiry, DraftSt.drafts s !! k = Some (draft, expiry) -> WellFormed k draft;
  inv_routes : forall k routes expiry o, DraftSt.routes s !! k = Some (routes, expiry) -> In o routes ->
    explained (RouteOption.isPublishable o) (RouteOption.blockedReason o);
  inv_life : Life d0 (St.db (DraftSt.st s));
}.

Section rules.
Context `{Env}.
Variable d0 : Db.t.
Notation Inv := (DraftInv d0).

Lemma wp_getDraft userId Q s :
  Inv s -> (forall draft, WellFormed userId draft -> Q s (Ok draft)) -> (forall e, Q s (Err e)) -> wp (getDraft userId) Q s.
Proof.
  intros I HO HE. unfold wp, getDraft. cbn [fst snd]. destruct (DraftSt.drafts s !! userId) as [[draft expiry]|] eqn:E; [|apply HE].
  destruct (now <=? expiry); [apply HO; exact (inv_drafts d0 s I _ _ _ E) | apply HE].
Qed.

Lemma keeps_saveDraft draft : WellFormed (Draft.userId draft) draft -> preserves Inv (saveDraft draft).
Proof.
  intros W s [D R L]. split; [|exact R | exact L]. unfold saveDraft. cbn. intros k x expiry.
  intros [[<- E]|[_ E]]%lookup_insert_Some; [|exact (D _ _ _ E)].
  injection E as <- _. destruct W. split; assumption.
Qed.

Lemma keeps_delDraft userId : preserves Inv (delDraft userId).
Proof. intros s [D R L]. split; [|exact R | exact L]. cbn. intros k x e [_ E]%lookup_delete_Some. exact (D _ _ _ E). Qed.

Lemma keeps_delRoutes userId : preserves Inv (delRoutes userId).
Proof. intros s [D R L]. split; [exact D | |exact L]. cbn. intros k x e o [_ E]%lookup_delete_Some. exact (R _ _ _ _ E). Qed.

Lemma keeps_lift {A} (m : H A) : safe m -> preserves Inv (lift m).
Proof.
  intros S s [D R L]. specialize (S d0 (DraftSt.st s) L). rewrite lift_run. cbn [fst].
  split; [exact D | exact R | exact S].
Qed.

Lemma keeps_pure {A} (r : Res A) : preserves Inv (pure r).
Proof. intros s I. exact I. Qed.

Lemma keeps_getDraft userId : preserves Inv (getDraft userId).
Proof. intros s I. exact I. Qed.

(** A step reads the draft and saves one that is as well formed. *)
Lemma keeps_step {A} userId (k : Draft.t -> D A) :
  (forall draft, WellFormed userId draft -> preserves Inv (k draft)) -> preserves Inv (draft ← getDraft userId; k draft).
Proof.
  intros K s I. change (wp (draft ← getDraft userId; k draft) (fun s' _ => Inv s') s). apply wp_bind.
  apply wp_getDraft; [exact I | | intros e; exact I]. intros draft W. exact (K draft W s I).
Qed.

Lemma keeps_guard {A} (b : bool) e (k : unit -> D A) :
  (b = false -> preserves Inv (k tt)) -> preserves Inv (throw_if b e ≫= k).
Proof. intros K s I. destruct b; [exact I | exact (K eq_refl s I)]. Qed.

Lemma keeps_read {A B} (f : DraftSt.t -> A) (k : A -> D B) :
  (forall s, Inv s -> Inv (k (f s) s).1) -> preserves Inv (get f ≫= k).
Proof. intros K s I. exact (K s I). Qed.

Lemma wf_atLeast owner n draft : 1 <= n <= 13 -> WellFormed owner draft -> WellFormed owner (atLeast n draft).
Proof. intros N []. split; cbn; auto. lia. Qed.

Lemma wf_save owner n draft : 1 <= n <= 13 -> WellFormed owner draft -> preserves Inv (saveDraft (atLeast n draft)).
Proof. intros N W. apply keeps_saveDraft. apply wf_atLeast; [exact N|]. cbn. rewrite (wf_owner _ _ W). exact W. Qed.
End rules.

Create HintDb drafts discriminated.
#[export] Hint Resolve keeps_delDraft keeps_delRoutes keeps_pure keeps_getDraft : drafts.

(** Through the steps of a request, up to what it saves. *)
Ltac keep_step :=
  lazymatch goal with
  | |- preserves _ (getDraft _ ≫= _) => apply keeps_step; intros ?draft ?W
  | |- preserves _ (throw_if _ _ ≫= _) => apply keeps_guard; intros ?Guard
  | |- preserves _ (lift _) => apply keeps_lift
  | |- preserves _ (saveDraft (atLeast _ _)) => eapply wf_save; [lia|]
  | |- _ => first [ solve [auto with drafts] | preserve_step ]
  end.

(** No rides and no bookings. *)
Lemma good_empty (d : Db.t) : Db.ride d = ∅ -> Db.rideBooking d = ∅ -> Db.rideSegmentCapacity d = ∅ -> Good d.
Proof.
  intros R B C.
  assert (NR : forall k r, Db.ride d !! k = Some r -> False) by (intros k r; rewrite R, lookup_empty; discriminate).
  assert (NB : forall k b, Db.rideBooking d !! k = Some b -> False) by (intros k b; rewrite B, lookup_empty; discriminate).
  assert (NC : forall k c, Db.rideSegmentCapacity d !! k = Some c -> False) by (intros k c; rewrite C, lookup_empty; discriminate).
  split; [split|..]; intros; exfalso; eauto.
Qed.

(** ** The requests of a draft *)

Inductive DraftRequest :=
| CreateWithOrigin (driverId placeId address : string) (lat lng : num) (pickup : option LocationInput.t)
| UpdatePickups (driverId : string) (pickups : option (list LocationInput.t))
| UpdateDestination (driverId placeId address : string) (lat lng : num) (dropoff : option LocationInput.t)
| UpdateDropoffs (driverId : string) (dropoffs : option (list LocationInput.t))
| ComputeRoutes (driverId : string) (includeAlternatives : bool)
| SelectRoute (driverId : string) (routeIndex : Z)
| UpdateStopovers (driverId : string) (stopovers : option (list LocationInput.t))
| UpdateSchedule (driverId : string) (departureDate : Z) (departureTime : string)
| UpdateCapacity (driverId : string) (input : CapacityInput.t)
| RecommendedPrice (driverId : string) (candidate : option num)
| UpdatePricing (driverId : string) (input : PricingInput.t)
| UpdateNotes (driverId notes : string) (femaleOnly : option bool)
| GetDraft (driverId : string)
| DeleteDraft (driverId : string)
| Publish (driverId : string).

(** The validator of the capacity. *)
Definition valid_request (r : DraftRequest) : bool :=
  match r with
  | UpdateCapacity _ input => (1 <=? CapacityInput.totalSeats input) && (CapacityInput.totalSeats input <=? 50)
  | _ => true
  end.

Definition runDraft `{Env} `{EligibilityEnv} `{Google} `{PublishEnv} (r : DraftRequest) : D unit :=
  match r with
  | CreateWithOrigin d p a lat lng pickup => createWithOrigin d p a lat lng pickup;; mret tt
  | UpdatePickups d l => updatePickups d l;; mret tt
  | UpdateDestination d p a lat lng dropoff => updateDestination d p a lat lng dropoff;; mret tt
  | UpdateDropoffs d l => updateDropoffs d l;; mret tt
  | ComputeRoutes d b => computeRouteOptions d b;; mret tt
  | SelectRoute d i => selectRoute d i;; mret tt
  | UpdateStopovers d l => updateStopovers d l;; mret tt
  | UpdateSchedule d date time => updateSchedule d date time;; mret tt
  | UpdateCapacity d i => updateCapacity d i;; mret tt
  | RecommendedPrice d c => getRecommendedPrice d c;; mret tt
  | UpdatePricing d i => updatePricing d i;; mret tt
  | UpdateNotes d n f => updateNotes d n f;; mret tt
  | GetDraft d => getUserDraft d;; mret tt
  | DeleteDraft d => deleteDraft d
  | Publish d => publishRide d;; mret tt
  end.

Section requests.
Context `{Env} `{EligibilityEnv} `{Google} `{PublishEnv}.
Variable d0 : Db.t.
Notation Inv := (DraftInv d0).

Lemma quiet_assertCanPublish driverId v : quiet (assertDriverCanPublish driverId v).
Proof. intros d s C. rewrite assert_run. exact C. Qed.

Lemma wf_new driverId : WellFormed driverId (newDraft driverId now).
Proof. split; cbn; try lia; try reflexivity; intros; discriminate. Qed.

Lemma keeps_create d p a lat lng pickup : preserves Inv (createWithOrigin d p a lat lng pickup).
Proof.
  unfold createWithOrigin. repeat keep_step.
  - apply quiet_safe, quiet_assertCanPublish.
  - apply keeps_saveDraft. split; cbn; try lia; try reflexivity; try (intros; discriminate). destruct pickup; cbn; unfold MAX_ORIGIN_PICKUP_POINTS; lia.
Qed.

Lemma keeps_pickups d l : preserves Inv (updatePickups d l).
Proof.
  unfold updatePickups. repeat keep_step. apply Nat.ltb_ge in Guard. destruct W; split; auto.
Qed.

Lemma keeps_destination d p a lat lng x : preserves Inv (updateDestination d p a lat lng x).
Proof.
  unfold updateDestination. repeat keep_step. destruct W. destruct x; split; auto; cbn; unfold MAX_DESTINATION_DROPOFF_POINTS; first [reflexivity | lia].
Qed.

Lemma keeps_dropoffs d l : preserves Inv (updateDropoffs d l).
Proof.
  unfold updateDropoffs. repeat keep_step. apply Nat.ltb_ge in Guard. destruct W; split; auto.
Qed.

Lemma detected (route : GoogleRoute.t) : let '(ok, reason) := detectBlockedRoute route in explained ok reason.
Proof. unfold detectBlockedRoute. destruct (existsb _ _); reflexivity. Qed.

Lemma option_explained i route : explained (RouteOption.isPublishable (routeOption i route)) (RouteOption.blockedReason (routeOption i route)).
Proof. unfold routeOption. pose proof (detected route) as D. destruct (detectBlockedRoute route). exact D. Qed.

Lemma keeps_routes driverId (l : list GoogleRoute.t) e :
  preserves Inv (modify (fun s => s <| DraftSt.routes ::= <[driverId := (imap routeOption l, e)]> |>)).
Proof.
  intros s [D R L]. split; [exact D | | exact L]. cbn. intros k routes expiry o.
  intros [[<- E]|[_ E]]%lookup_insert_Some I; [|exact (R _ _ _ _ E I)].
  injection E as <- <-. apply list_elem_of_In, elem_of_lookup_imap in I as (i & route & -> & _). apply option_explained.
Qed.

Lemma keeps_compute d b : preserves Inv (computeRouteOptions d b).
Proof.
  unfold computeRouteOptions. repeat keep_step. all: try apply keeps_routes. all: repeat keep_step.
Qed.

Lemma keeps_select d i : preserves Inv (selectRoute d i).
Proof.
  unfold selectRoute. keep_step. apply keeps_read. intros s I.
  destruct (DraftSt.routes s !! d) as [[routes expiry]|] eqn:E; [|exact I].
  assert (R : forall o, In o routes -> explained (RouteOption.isPublishable o) (RouteOption.blockedReason o))
    by exact (fun o => inv_routes d0 s I _ _ _ o E).
  clear E. refine ((_ : preserves Inv _) s I). do 2 keep_step.
  destruct (routes !! Z.to_nat i) as [o|] eqn:O; [|keep_step]. keep_step. destruct W; split; auto.
  cbn. intros b [= <-]. apply R, list_elem_of_In, (list_elem_of_lookup_2 _ _ _ O).
Qed.

Lemma keeps_stopovers d l : preserves Inv (updateStopovers d l).
Proof. unfold updateStopovers. repeat keep_step. apply Nat.ltb_ge in Guard. destruct W; split; auto. Qed.

Lemma keeps_schedule d date time : preserves Inv (updateSchedule d date time).
Proof. unfold updateSchedule. repeat keep_step. destruct W; split; auto. Qed.

Lemma keeps_capacity d i : 1 <= CapacityInput.totalSeats i <= 50 -> preserves Inv (updateCapacity d i).
Proof.
  intros V. unfold updateCapacity. repeat keep_step; [solve_safe|]. destruct W; split; auto. cbn. intros n [= <-]. exact V.
Qed.

Lemma quiet_activeTerms region : quiet (resolveActiveFeeTerms region).
Proof. unfold resolveActiveFeeTerms, getActivePricingConfig, ensureDefaultPricingConfig. solve_quiet. Qed.

Lemma keeps_recommended d c : preserves Inv (getRecommendedPrice d c).
Proof.
  unfold getRecommendedPrice, getPricePreview, getActivePricingConfig. repeat keep_step; apply quiet_safe.
  - solve_quiet.
  - apply quiet_activeTerms.
Qed.

Lemma length_listOf {A B} (f : list A -> list B) (l : option (list A)) :
  (forall x, length (f x) = length x) -> length (listOf (f <$> l)) = length (listOf l).
Proof. intros E. destruct l; [apply E | reflexivity]. Qed.

Lemma wf_withPrices owner input draft : WellFormed owner draft -> WellFormed owner (withPrices input draft).
Proof.
  intros []. unfold withPrices. cbv zeta. split; repeat case_match; cbn -[listOf]; rewrite ?length_listOf by (intros; apply length_map); auto.
Qed.

Lemma wf_withArrivals owner draft : WellFormed owner draft -> WellFormed owner (withArrivals draft).
Proof.
  intros []. unfold withArrivals. cbv zeta. split; repeat case_match; cbn -[listOf]; rewrite ?length_listOf by (intros; apply length_map); auto.
Qed.

Lemma wf_givenArrival owner input draft : WellFormed owner draft ->
  WellFormed owner (draft <| Draft.stopovers ::= fmap (map (givenArrival input)) |>).
Proof. intros []. split; cbn -[listOf]; rewrite ?length_listOf by (intros; apply length_map); auto. Qed.

Lemma keeps_pricing d i : preserves Inv (updatePricing d i).
Proof.
  unfold updatePricing. repeat keep_step.
  apply wf_withArrivals. destruct (PricingInput.stopoverPricing i); [apply wf_givenArrival|]; apply wf_withPrices, W.
Qed.

Lemma keeps_notes d n f : preserves Inv (updateNotes d n f).
Proof.
  unfold updateNotes. keep_step.
  assert (K : forall g, preserves Inv (saveDraft (atLeast 13 (draft <| Draft.notes := Some n |> <| Draft.femaleOnly := g |>)))).
  { intros g. keep_step. destruct W; split; auto. }
  destruct f as [[|]|]; [| exact (K _) | exact (K (Draft.femaleOnly draft))].
  apply preserves_wp. intros s I. do 2 apply wp_bind.
  eapply wp_preserves; [apply keeps_lift; solve_safe | exact I|]. intros s1 [driver|e] I1; [|exact I1].
  apply wp_bind, wp_throw_if; intros _; [exact I1|]. exact (K (Some true) s1 I1).
Qed.

Lemma quiet_notice userId type : quiet (createNotification userId type).
Proof. unfold createNotification. solve_quiet. Qed.

Lemma keeps_publish d : preserves Inv (publishRide d).
Proof.
  unfold publishRide. repeat keep_step; [|apply quiet_safe, quiet_notice]. apply safe_publish. unfold valid_capacity.
  destruct (Draft.totalSeats draft) as [n|] eqn:E; [|reflexivity]. apply Z.leb_le. pose proof (wf_seats _ _ W n E). lia.
Qed.

Lemma keeps_deleteDraft d : preserves Inv (deleteDraft d).
Proof. unfold deleteDraft. repeat keep_step. Qed.

Lemma keeps_runDraft r : valid_request r = true -> preserves Inv (runDraft r).
Proof.
  destruct r; cbn [runDraft valid_request]; intros V;
    try lazymatch goal with |- preserves _ (_ ≫= _) => apply preserves_bind; [|intros ?; apply preserves_ret] end.
  - apply keeps_create.
  - apply keeps_pickups.
  - apply keeps_destination.
  - apply keeps_dropoffs.
  - apply keeps_compute.
  - apply keeps_select.
  - apply keeps_stopovers.
  - apply keeps_schedule.
  - apply keeps_capacity. lia.
  - apply keeps_recommended.
  - apply keeps_pricing.
  - apply keeps_notes.
  - apply keeps_getDraft.
  - apply keeps_deleteDraft.
  - apply keeps_publish.
Qed.
End requests.

(** A request of a driver, at any time and with any answers of the outside. *)
Inductive draft_step : DraftSt.t -> DraftSt.t -> Prop :=
| draft_request (env : Env) (skips : EligibilityEnv) (google : Google) (limits : PublishEnv) (r : DraftRequest) (s : DraftSt.t) :
    valid_request r = true -> draft_step s (runDraft r s).1.

(** C23.  A draft is well formed whatever order its steps are taken in, also when some fail:
    it is stored under its driver, on a step between the first and the last, with at most
    three meeting points at each end and on the way, one to fifty seats, and a route that
    may not be driven says why.  Publishing is one of the steps: the rides and bookings
    keep the invariant of seats, and nothing that was there is lost. *)
Theorem drafts_stay_well_formed (s s' : DraftSt.t) :
  DraftInv (St.db (DraftSt.st s)) s -> rtc draft_step s s' -> DraftInv (St.db (DraftSt.st s)) s'.
Proof.
  generalize (St.db (DraftSt.st s)) as d0. intros d0 I R. induction R as [s|s s1 s2 [env skips google limits r s0 V] _ IH]; [exact I|].
  apply IH. exact (keeps_runDraft d0 r V s0 I).
Qed.

Definition demo_empty_drafts : DraftSt.t := demo_drafts <| DraftSt.drafts := ∅ |>.
Definition demo_drafting : DraftSt.t :=
  (@runDraft demo_publish_env demo_eligibility demo_google demo_publishing
     (CreateWithOrigin "d1" "tallinn" "Tallinn" (num_of_Z 59) (num_of_Z 24) None) demo_empty_drafts).1.

Lemma drafts_stay_well_formed_witness :
  exists draft expiry, DraftSt.drafts demo_drafting !! "d1"%string = Some (draft, expiry) /\ WellFormed "d1" draft.
Proof.
  assert (E : exists x, DraftSt.drafts demo_drafting !! "d1"%string = Some x) by (vm_compute; eexists; reflexivity).
  destruct E as [[draft expiry] E]. exists draft, expiry. split; [exact E|].
  assert (I : DraftInv (St.db (DraftSt.st demo_empty_drafts)) demo_drafting).
  { apply (drafts_stay_well_formed demo_empty_drafts demo_drafting).
    - split.
      + intros k x e L. change ((∅ : gmap string (Draft.t * Z)) !! k = Some (x, e)) in L. rewrite lookup_empty in L. discriminate L.
      + intros k x e o L. change ((∅ : gmap string (list RouteOption.t * Z)) !! k = Some (x, e)) in L. rewrite lookup_empty in L. discriminate L.
      + apply life_refl, good_empty; reflexivity.
    - apply rtc_once, draft_request. reflexivity. }
  exact (inv_drafts _ _ I _ _ _ E).
Defined.

(** ** The prices of the stops *)

(** The price of a stop, wherever else it changed. *)
Definition same_fare (p q : LocationInput.t) : Prop :=
  LocationInput.placeId p = LocationInput.placeId q /\
  LocationInput.recommendedPrice p = LocationInput.recommendedPrice q /\
  LocationInput.minPrice p = LocationInput.minPrice q /\ LocationInput.maxPrice p = LocationInput.maxPrice q /\
  LocationInput.driverPricePerSeat p = LocationInput.driverPricePerSeat q.

(** A stop is saved with the fare it was shown with, and the driver's own price held in its range. *)
Definition saved_as_shown (shown : StopoverRecommendedPrice.t) (p : LocationInput.t) : Prop :=
  let fare := StopoverRecommendedPrice.fare shown in
  LocationInput.placeId p = StopoverRecommendedPrice.placeId shown /\
  LocationInput.recommendedPrice p = Some (StopoverFare.recommendedPrice fare) /\
  LocationInput.minPrice p = Some (StopoverFare.minPrice fare) /\
  LocationInput.maxPrice p = Some (StopoverFare.maxPrice fare) /\
  forall price, LocationInput.driverPricePerSeat p = Some price -> exists x, price = clampFare fare x.

Section prices.
Context `{Env} `{EligibilityEnv} `{Google} `{PublishEnv}.

Lemma arriveAt_fare o time secs m pts p : same_fare (arriveAt o time secs m pts p) p.
Proof. unfold arriveAt. cbv zeta. destruct (List.find _ _); repeat split. Qed.

Lemma givenArrival_fare input p : same_fare (givenArrival input p) p.
Proof. unfold givenArrival. destruct (truthy _); repeat split. Qed.

Lemma same_fare_trans p q r : same_fare p q -> same_fare q r -> same_fare p r.
Proof. intros (A1 & A2 & A3 & A4 & A5) (B1 & B2 & B3 & B4 & B5). repeat split; congruence. Qed.

Lemma same_fare_refl p : same_fare p p.
Proof. repeat split. Qed.

(** A draft with some of its stops' fields changed, the fares kept. *)
Definition refined (d d' : Draft.t) : Prop :=
  exists f, Draft.stopovers d' = map f <$> Draft.stopovers d /\ forall p, same_fare (f p) p.

Lemma refined_same d d' : Draft.stopovers d' = Draft.stopovers d -> refined d d'.
Proof.
  intros E. exists id. rewrite E. split; [destruct (Draft.stopovers d); cbn; rewrite ?map_id; reflexivity | intros p; apply same_fare_refl].
Qed.

Lemma refined_refl d : refined d d.
Proof. apply refined_same. reflexivity. Qed.

Lemma refined_trans a b c : refined a b -> refined b c -> refined a c.
Proof.
  intros (f & E1 & F1) (g & E2 & F2). exists (fun p => g (f p)). split.
  - rewrite E2, E1. destruct (Draft.stopovers a); cbn; [rewrite map_map|]; reflexivity.
  - intros p. eapply same_fare_trans; eauto.
Qed.

Lemma refined_arrivals d : refined d (withArrivals d).
Proof.
  unfold withArrivals. cbv zeta.
  destruct (truthy (Draft.departureTime d)) as [time|]; [|apply refined_refl].
  destruct (truthy_Z (Draft.routeDurationSeconds d)) as [seconds|]; [|apply refined_refl].
  destruct (originOf d) as [start|]; [|apply refined_refl].
  destruct (0 <? _); [|apply refined_refl].
  exists (arriveAt start time seconds (default 0 (Draft.routeDistanceMeters d)) (listOf (Draft.stopovers d))).
  split; [cbn; destruct (Draft.stopovers d); reflexivity | intros p; apply arriveAt_fare].
Qed.

Lemma refined_given input d : refined d (d <| Draft.stopovers ::= fmap (map (givenArrival input)) |>).
Proof. exists (givenArrival input). split; [reflexivity | apply givenArrival_fare]. Qed.

Lemma withPrices_stopovers input d start :
  originOf d = Some start -> nlt (num_of_Z 0) (kilometers (num_of_Z (default 0 (Draft.routeDistanceMeters d)))) = true ->
  Draft.stopovers (withPrices input d) =
    map (priceStopover input start (kilometers (num_of_Z (default 0 (Draft.routeDistanceMeters d))))) <$> Draft.stopovers d.
Proof.
  intros O F. unfold withPrices. cbv zeta. 
  change (originOf (d <| Draft.basePricePerSeat := Some (PricingInput.basePricePerSeat input) |>)) with (originOf d).
  rewrite O.
  change (Draft.routeDistanceMeters (d <| Draft.basePricePerSeat := Some (PricingInput.basePricePerSeat input) |>)) with (Draft.routeDistanceMeters d).
  rewrite F. destruct (destinationOf _); reflexivity.
Qed.

(** What [updatePricing] saves. *)
Lemma pricing_run driverId input s s' draft : updatePricing driverId input s = (s', Ok draft) ->
  exists stored expiry, DraftSt.drafts s !! driverId = Some (stored, expiry) /\ now <= expiry /\ refined (withPrices input stored) draft.
Proof.
  unfold updatePricing. intros E. apply bind_inv in E as (stored & s0 & Eg & E).
  unfold getDraft in Eg. destruct (DraftSt.drafts s !! driverId) as [[d expiry]|] eqn:Ed; [|discriminate Eg].
  destruct (now <=? expiry) eqn:X; [|discriminate Eg]. injection Eg as <- <-. apply Z.leb_le in X.
  exists d, expiry. split; [reflexivity|]. split; [exact X|].
  unfold saveDraft in E. injection E as _ <-.
  eapply refined_trans; [|eapply refined_trans; [apply refined_arrivals | apply refined_same; reflexivity]].
  destruct (PricingInput.stopoverPricing input); [apply refined_given | apply refined_refl].
Qed.

(** What [getRecommendedPrice] shows; it saves nothing. *)
Lemma recommended_run driverId candidate s s' shown : getRecommendedPrice driverId candidate s = (s', Ok shown) ->
  DraftSt.drafts s' = DraftSt.drafts s /\
  exists stored expiry meters, DraftSt.drafts s !! driverId = Some (stored, expiry) /\
    Draft.routeDistanceMeters stored = Some meters /\
    PriceRecommendation.stopoverPricing shown =
      recommendStopovers stored (kilometers (num_of_Z meters)) (PriceQuote.basePricePerSeat (PriceRecommendation.quote shown)) /\
    (forall base, positive candidate = Some base -> PriceQuote.basePricePerSeat (PriceRecommendation.quote shown) = base).
Proof.
  unfold getRecommendedPrice. intros E. apply bind_inv in E as (stored & s0 & Eg & E).
  unfold getDraft in Eg. destruct (DraftSt.drafts s !! driverId) as [[d expiry]|] eqn:Ed; [|discriminate Eg].
  destruct (now <=? expiry); [|discriminate Eg]. injection Eg as <- <-.
  destruct (truthy_Z (Draft.routeDistanceMeters d)) as [meters|] eqn:Em; [|discriminate E].
  apply truthy_Z_some in Em as [Em _].
  apply bind_inv in E as ([calculation fallback] & s1 & E1 & E). cbv beta iota zeta in E. apply bind_inv in E as (terms & s2 & E2 & E).
  rewrite lift_run in E1. rewrite lift_run in E2. injection E1 as <- _. injection E2 as <- _. injection E as <- <-.
  split; [reflexivity|]. exists d, expiry, meters. split; [reflexivity|]. split; [exact Em|]. split; [reflexivity|].
  intros base P. cbn. rewrite P. reflexivity.
Qed.

(** C24.  A driver is charged for what the driver was shown: saving the base price that was
    previewed saves every stop with the fare of the preview, and a price of the driver's
    own is held in the range of the preview.  No stop is left out. *)
Theorem saved_fares_are_those_shown (driverId : string) (input : PricingInput.t) (s s1 s2 : DraftSt.t)
    (stored draft : Draft.t) (expiry meters : Z) (shown : PriceRecommendation.t) :
  DraftSt.drafts s !! driverId = Some (stored, expiry) -> Draft.routeDistanceMeters stored = Some meters ->
  nlt (num_of_Z 0) (kilometers (num_of_Z meters)) = true -> is_Some (originOf stored) ->
  nlt (num_of_Z 0) (PricingInput.basePricePerSeat input) = true ->
  getRecommendedPrice driverId (Some (PricingInput.basePricePerSeat input)) s = (s1, Ok shown) ->
  updatePricing driverId input s1 = (s2, Ok draft) ->
  length (listOf (Draft.stopovers draft)) = length (listOf (PriceRecommendation.stopoverPricing shown)) /\
  forall p, In p (listOf (Draft.stopovers draft)) ->
    exists q, In q (listOf (PriceRecommendation.stopoverPricing shown)) /\ saved_as_shown q p.
Proof.
  intros Es Em Far [start O] Pos E1 E2.
  apply recommended_run in E1 as (Keep & d1 & x1 & m1 & Es1 & Em1 & Sh & Base).
  specialize (Base (PricingInput.basePricePerSeat input)). cbn in Base. rewrite Pos in Base. specialize (Base eq_refl).
  assert (d1 = stored) as -> by congruence. assert (m1 = meters) as -> by congruence.
  apply pricing_run in E2 as (d2 & x2 & Es2 & _ & f & Ef & F).
  rewrite Keep in Es2. assert (d2 = stored) as -> by congruence.
  rewrite (withPrices_stopovers input stored start O) in Ef by (rewrite Em; exact Far).
  rewrite Em in Ef. cbn [default from_option] in Ef. unfold id in Ef. rewrite Base in Sh.
  unfold recommendStopovers in Sh. rewrite O in Sh.
  destruct (Draft.stopovers stored) as [[|x l]|] eqn:El; cbn [listOf default from_option fmap option_fmap option_map id map] in Ef, Sh; rewrite Ef, Sh.
  1, 3: split; [reflexivity | intros p []].
  set (stops := x :: l) in *. change (f (priceStopover input start (kilometers (num_of_Z meters)) x) :: _)
    with (map f (map (priceStopover input start (kilometers (num_of_Z meters))) stops)).
  cbn [listOf default from_option id]. unfold id. split.
  - rewrite !length_map. unfold sort_cmp. rewrite sort_le_perm, length_imap. reflexivity.
  - intros p (y & <- & (z & <- & Iz)%in_map_iff)%in_map_iff.
    apply list_elem_of_In, list_elem_of_lookup in Iz as [i Ei].
    eexists (recommendStopover start _ _ _ i z). split.
    + apply in_sort_cmp, list_elem_of_In, elem_of_lookup_imap. exists i, z. split; [reflexivity | exact Ei].
    + destruct (F (priceStopover input start (kilometers (num_of_Z meters)) z)) as (A1 & A2 & A3 & A4 & A5).
      unfold saved_as_shown, recommendStopover. destruct (fareAt _ _ _ z) as [km fare] eqn:Ff. cbn.
      rewrite A1, A2, A3, A4, A5. unfold priceStopover. rewrite Ff. repeat split.
      cbn. destruct (givenPrice _ _) as [g|]; [intros price [= <-]; eauto|].
      destruct (LocationInput.driverPricePerSeat z); [intros price [= <-]; eauto | discriminate].
Qed.
End prices.

(** Half way, at 6 euros of 12. *)
Definition demo_priced : Draft.t := demo_draft
  <| Draft.stopovers := Some [demo_point "paide" (num_of_Z 58) (num_of_Z 25)] |> <| Draft.routeDistanceMeters := Some 186000 |>.
Definition demo_pricing : PricingInput.t := {|
  PricingInput.basePricePerSeat := num_of_Z 12;
  PricingInput.stopoverPricing := Some [("paide"%string, num_of_Z 6, None)] |}.
Definition demo_previewing : DraftSt.t := demo_drafts <| DraftSt.drafts := {["d1"%string := (demo_priced, 3600000)]} |>.

Definition demo_preview := @getRecommendedPrice demo_publish_env "d1" (Some (num_of_Z 12)) demo_previewing.
Definition demo_saving := @updatePricing demo_publish_env "d1" demo_pricing demo_preview.1.

(** The result of a run that returns. *)
Lemma run_returns {S A} (x : S * Res A) : match x.2 with Ok _ => true | Err _ => false end = true -> exists a, x = (x.1, Ok a).
Proof. destruct x as [s [a|e]]; cbn; [eauto | discriminate]. Qed.

Lemma saved_fares_are_those_shown_witness :
  exists shown draft, demo_preview = (demo_preview.1, Ok shown) /\ demo_saving = (demo_saving.1, Ok draft) /\
    listOf (Draft.stopovers draft) <> [] /\
    forall p, In p (listOf (Draft.stopovers draft)) ->
      exists q, In q (listOf (PriceRecommendation.stopoverPricing shown)) /\ saved_as_shown q p.
Proof.
  destruct (run_returns demo_preview ltac:(vm_compute; reflexivity)) as [shown E1].
  destruct (run_returns demo_saving ltac:(vm_compute; reflexivity)) as [draft E2].
  exists shown, draft. split; [exact E1|]. split; [exact E2|].
  assert (N : match demo_saving.2 with Ok d => bool_decide (length (listOf (Draft.stopovers d)) = 1%nat) | Err _ => false end = true)
    by (vm_compute; reflexivity).
  rewrite E2 in N. cbn [snd] in N. apply bool_decide_eq_true_1 in N. split; [intros X; rewrite X in N; discriminate N|].
  refine (proj2 (@saved_fares_are_those_shown demo_publish_env "d1" demo_pricing demo_previewing demo_preview.1 demo_saving.1
    demo_priced draft 3600000 186000 shown _ _ _ _ _ E1 E2)); vm_compute; try reflexivity; eauto.
Defined.
