(* ===== verification/RideSafe.v ===== *)
(** * Operations during a ride are safe

    The handlers of [RideOps.v] that are not overridden keep the invariant of
    [Invariant.v] and move bookings along [BOOKING_TRANSITIONS]; rewards, events,
    disputes, tracking links and locations leave bookings alone. *)

From Stdlib Require Import ZArith Lia.
From stdpp Require Import base list option strings gmap relations.
From S2P Require Import Prelude JsNumber JsText Money Schema Store Seats Payments Time Gateway Rewards.
From S2P Require Import RideRequest Booking DriverBooking RideOps Invariant Safe.

Open Scope Z_scope.

#[global] Instance aside_user : Aside prisma.user.
Proof. repeat split. Qed.
#[global] Instance aside_referral : Aside prisma.rewardReferral.
Proof. repeat split. Qed.
#[global] Instance aside_wallet : Aside prisma.rewardWalletEntry.
Proof. repeat split. Qed.
#[global] Instance aside_event : Aside prisma.rideEvent.
Proof. repeat split. Qed.
#[global] Instance aside_location : Aside prisma.locationUpdate.
Proof. repeat split. Qed.
#[global] Instance aside_link : Aside prisma.trackingLink.
Proof. repeat split. Qed.
#[global] Instance aside_dispute : Aside prisma.dispute.
Proof. repeat split. Qed.

(** ** Quiet parts *)

Section quiet.
Context `{Env} `{Mode}.

Lemma quiet_grantWalletEntry i : quiet (grantWalletEntry i).
Proof. unfold grantWalletEntry, loadLatestRewardEntry. solve_quiet. Qed.

Lemma quiet_notifyReward a b c : quiet (maybeSendRewardNotification a b c).
Proof. unfold maybeSendRewardNotification, createNotification. solve_quiet. Qed.

Lemma quiet_awardCampaign a b c d e f g h i : quiet (awardCampaignReward a b c d e f g h i).
Proof.
  intros d0. unfold awardCampaignReward, firstActiveCampaign.
  repeat first [apply quiet_grantWalletEntry | quiet_step].
Qed.

Lemma quiet_upsertReferral a f g : quiet (upsertReferral a f g).
Proof. unfold upsertReferral. solve_quiet. Qed.

Lemma quiet_rewardReferrer a b c d e f g h i : quiet (rewardReferrer a b c d e f g h i).
Proof.
  intros d0. unfold rewardReferrer.
  repeat first [apply quiet_awardCampaign | apply quiet_upsertReferral | quiet_step].
Qed.

Lemma quiet_awardBooking a : quiet (awardBookingCompletionRewards a).
Proof.
  intros d0. unfold awardBookingCompletionRewards.
  repeat first [apply quiet_awardCampaign | apply quiet_rewardReferrer | apply quiet_notifyReward | quiet_step].
Qed.

Lemma quiet_awardRide a : quiet (awardRideCompletionRewards a).
Proof.
  intros d0. unfold awardRideCompletionRewards.
  repeat first [apply quiet_awardCampaign | apply quiet_rewardReferrer | apply quiet_notifyReward | quiet_step].
Qed.

Lemma quiet_recordEvent a b c d e f g h i : quiet (recordEvent a b c d e f g h i).
Proof. unfold recordEvent. solve_quiet. Qed.

Lemma quiet_createDispute a b c d e f : quiet (createDispute a b c d e f).
Proof. unfold createDispute, rideOf, createNotification. solve_quiet. Qed.

Lemma quiet_handleForced a b c d e f : quiet (handleForcedAction a b c d e f).
Proof.
  intros d0. unfold handleForcedAction, createNotification. repeat first [apply quiet_createDispute | quiet_step].
Qed.

Lemma quiet_trackingLink a b c d e : quiet (createTrackingLink a b c d e).
Proof. unfold createTrackingLink. solve_quiet. Qed.

Lemma quiet_emitRide a b : quiet (emitRide a b).
Proof. unfold emitRide. solve_quiet. Qed.

Lemma quiet_announceStart a b c : quiet (announceStart a b c).
Proof.
  intros d0. unfold announceStart, emitBooking, createNotification. repeat first [apply quiet_trackingLink | quiet_step].
Qed.

Lemma quiet_reportLocation a b c : quiet (reportLocation a b c).
Proof. intros d0. unfold reportLocation. repeat first [apply quiet_emitRide | quiet_step]. Qed.

Lemma quiet_auditForcedOtp a b c d : quiet (auditForcedOtp a b c d).
Proof.
  intros d0. unfold auditForcedOtp.
  repeat first [apply quiet_recordEvent | apply quiet_handleForced | quiet_step].
Qed.

Lemma quiet_submitLocation a b c : quiet (submitLocation a b c).
Proof. unfold submitLocation. solve_quiet. Qed.

Lemma quiet_check {A} (r : Res A) : quiet (check r).
Proof. intros d0 s C. exact C. Qed.

Lemma quiet_driverBooking a b : quiet (driverBooking a b).
Proof. unfold driverBooking, rideOf. solve_quiet. Qed.

Lemma quiet_riderBooking a b : quiet (riderBooking a b).
Proof. unfold riderBooking, rideOf. solve_quiet. Qed.
End quiet.

#[export] Hint Resolve quiet_awardBooking quiet_awardRide quiet_recordEvent quiet_handleForced quiet_emitRide
  quiet_announceStart quiet_reportLocation quiet_auditForcedOtp quiet_submitLocation quiet_driverBooking
  quiet_riderBooking quiet_check : quiet.

Lemma quiet_at {A} (m : H A) d0 : quiet m -> preserves (on_db (same_core d0)) m.
Proof. intros Q. exact (Q d0). Qed.

(** [quiet] through the lemmas of the database. *)
Ltac quiet_loop := repeat first [ apply quiet_at; solve [auto with quiet] | quiet_step ].

(** ** Guards without the override *)

Section guards.
Context `{Env} `{Mode}.

Lemma forceOf_unforced input : RideEventInput.force input = false -> ForceContext.forced (forceOf input) = false.
Proof. exact id. Qed.

Lemma wp_assertOrForce c violated code Q (s : St.t) :
  ForceContext.forced c = false -> (violated = true -> Q s (Err code)) -> (violated = false -> Q s (Ok c)) ->
  wp (assertOrForce c violated code) Q s.
Proof. intros F. unfold assertOrForce, wp. rewrite F. destruct violated; cbn; auto. Qed.

Lemma wp_assertForceAllowed c st Q (s : St.t) :
  ForceContext.forced c = false -> Q s (Ok tt) -> wp (assertForceAllowedOnRide c st) Q s.
Proof. intros F. unfold assertForceAllowedOnRide, wp. rewrite F. exact id. Qed.

(** The booking and its ride as they are. *)
Lemma wp_driverBooking driverId id Q (s : St.t) :
  (forall e, Q s (Err e)) ->
  (forall b r, Db.rideBooking (St.db s) !! id = Some b -> Db.ride (St.db s) !! RideBooking.rideId b = Some r ->
     Ride.driverId r = driverId -> Q s (Ok (b, r))) ->
  wp (driverBooking driverId id) Q s.
Proof.
  intros HE HQ. unfold driverBooking, rideOf. wp_query. wp_query. destruct o as [b|]; [|apply HE].
  wp_query. wp_query; [apply HE|]. wp_query. wp_query; [apply HE|]. wp_query. apply HQ; [exact E | exact E0|].
  lazymatch goal with Hd : _ = false |- _ => apply bool_decide_eq_false in Hd; apply dec_stable; exact Hd end.
Qed.

Lemma wp_riderBooking passengerId id Q (s : St.t) :
  (forall e, Q s (Err e)) ->
  (forall b r, Db.rideBooking (St.db s) !! id = Some b -> Db.ride (St.db s) !! RideBooking.rideId b = Some r ->
     RideBooking.passengerId b = passengerId -> Q s (Ok (b, r))) ->
  wp (riderBooking passengerId id) Q s.
Proof.
  intros HE HQ. unfold riderBooking, rideOf. wp_query. wp_query. destruct o as [b|]; [|apply HE].
  wp_query. wp_query; [apply HE|]. wp_query. wp_query; [apply HE|]. wp_query. apply HQ; [exact E | exact E0|].
  lazymatch goal with Hd : _ = false |- _ => apply bool_decide_eq_false in Hd; apply dec_stable; exact Hd end.
Qed.

(** Without the override, a code is right, or counted as an attempt and refused. *)
Lemma wp_verifyCode bookingId booking otp hash expiresAt unavailable codes force Q (s : St.t) :
  ForceContext.forced force = false ->
  (forall e, Q s (Err e)) ->
  (forall b e, Db.rideBooking (St.db s) !! bookingId = Some b ->
     Q (s <| St.db ::= put_booking bookingId (b <| RideBooking.otpAttemptCount ::= Z.add 1 |>) |>) (Err e)) ->
  (unavailable = false -> (forall t, expiresAt = Some t -> now <= t) ->
   RideBooking.otpAttemptCount booking < MAX_OTP_ATTEMPTS ->
   (exists h code, truthy hash = Some h /\ truthy otp = Some code /\ isOtpValid code h = true) ->
   Q s (Ok (true, force))) ->
  wp (verifyCode bookingId booking otp hash expiresAt unavailable codes force) Q s.
Proof.
  intros F HE HU HQ. unfold verifyCode. destruct codes as [[c1 c2] c3].
  wp_query. apply wp_assertOrForce; [exact F | intros; apply HE | intros U]. cbv beta iota.
  wp_query. apply wp_assertOrForce; [exact F | intros; apply HE | intros X]. cbv beta iota.
  wp_query. apply wp_assertOrForce; [exact F | intros; apply HE | intros A%Z.leb_gt]. cbv beta iota.
  rewrite F, andb_true_r.
  set (v := match truthy hash, truthy otp with Some _, Some _ => _ | _, _ => false end).
  destruct v eqn:V; cbn [negb]; cbv beta iota.
  - wp_query. wp_query. wp_query. apply wp_assertOrForce; [exact F | discriminate | intros _]. wp_query.
    apply HQ; [exact U | | exact A |].
    + intros t Et. rewrite Et in X. apply Z.ltb_ge in X. exact X.
    + unfold v in V. destruct (truthy hash) as [h|]; [|discriminate]. destruct (truthy otp) as [code|]; [|discriminate].
      eauto.
  - wp_query. wp_query. wp_query; [apply HE|]. wp_query. apply HU. exact E.
Qed.
End guards.

(** Membership of a concrete status. *)
Ltac solve_in := try apply moves_table; apply list_elem_of_In; cbn; auto 12.
Ltac solve_not_in := let A := fresh in intros A; apply list_elem_of_In in A; cbn in A; intuition discriminate.

(** A concrete move of a booking whose status is known. *)
Ltac solve_advances T :=
  repeat split; cbn; rewrite ?T; first [solve_in | solve_not_in].

Section writes.
Context `{Env} `{Mode}.

(** The status is written over the row that was read, then nothing else about the
    bookings changes. *)
Lemma wp_advance {A} (d0 : Db.t) (s : St.t) (id : string) (b : RideBooking.t) f (k : RideBooking.t -> H A) :
  Life d0 (St.db s) -> Db.rideBooking (St.db s) !! id = Some b -> advances b (f b) -> (forall x, quiet (k x)) ->
  wp (update prisma.rideBooking id f ≫= k) (fun s' _ => Life d0 (St.db s')) s.
Proof.
  intros L E Ad Qk. apply wp_bind. apply wp_update; [intros N; cbn in N; congruence|]. intros r Er.
  assert (r = b) as -> by (cbn in Er; congruence).
  apply wp_safe_end; [apply quiet_safe, Qk|]. apply (life_trans d0 _ _ L).
  exact (life_advance _ id b (f b) (proj1 L) E Ad).
Qed.

Lemma has_status_In l b : has_status l b = true -> In (RideBooking.status b) l.
Proof. intros P%bool_decide_eq_true. apply list_elem_of_In, P. Qed.
End writes.

(** The cases of a guard on the status. *)
Ltac by_status P :=
  apply has_status_In in P; cbn in P;
  repeat match goal with Hp : _ \/ _ |- _ => destruct Hp as [Hp|Hp] end; try contradiction; symmetry in P.

Ltac tail_quiet :=
  intros ? ?d0; unfold emitBooking, createNotification;
  quiet_loop.

(** ** The handlers *)

Section handlers.
Context `{Env} `{Mode}.

Lemma safe_recordEvent a b c d e f g h i : safe (recordEvent a b c d e f g h i).
Proof. apply quiet_safe, quiet_recordEvent. Qed.

(** The status of the ride, then everything that follows. *)
Lemma wp_ride_write {A} (d0 : Db.t) (s : St.t) (id : string) f (k : Ride.t -> H A) :
  Life d0 (St.db s) -> (forall r, same_ride r (f r) /\ Ride.availableSeats (f r) = Ride.availableSeats r) ->
  (forall x, safe (k x)) -> wp (update prisma.ride id f ≫= k) (fun s' _ => Life d0 (St.db s')) s.
Proof.
  intros L Sr Sk. apply wp_bind. apply wp_update; [intros _; exact L|]. intros r Er.
  apply wp_safe_end; [apply Sk|]. apply (life_trans d0 _ _ L).
  exact (life_ride _ id r (f r) (proj1 L) Er (proj1 (Sr r)) (proj2 (Sr r))).
Qed.

Lemma safe_start_ride a b input : safe (startRide a b input).
Proof.
  apply safe_start. intros s G. pose proof (life_refl _ G) as L. unfold startRide, rideOf.
  wp_query. wp_query. destruct o as [ride|]; [|wp_query; exact L].
  wp_query. apply wp_run. intros ? ? [= <- <-]. wp_query. wp_query; [exact L|].
  wp_query. apply wp_quiet; [unfold assertRideTransition; solve_quiet|]. intros s1 [u|e] C1; pose proof (life_core _ _ _ C1 L) as L1; [|exact L1].
  wp_query. apply wp_quiet; [intros d0; quiet_loop|]. intros s2 [u2|e] C2; pose proof (life_core _ _ _ C2 L1) as L2; [|exact L2].
  apply wp_ride_write; [exact L2 | intros; repeat split|]. intros x. apply safe_bind.
  - apply safe_updateMany_all. intros bk P. apply andb_prop in P as [_ T%bool_decide_eq_true]. right. solve_advances T.
  - intros ?. apply quiet_safe. intros d0. quiet_loop.
Qed.

Lemma safe_driverArrived a b input : RideEventInput.force input = false -> safe (driverArrived a b input).
Proof.
  intros F. apply safe_start. intros s G. pose proof (life_refl _ G) as L. unfold driverArrived.
  wp_query. apply wp_driverBooking; [intros; exact L|]. intros bk r E Er _. cbv beta iota.
  wp_query. wp_query; [exact L|]. wp_query. apply wp_assertForceAllowed; [exact F|].
  wp_query. apply wp_assertOrForce; [exact F | intros; exact L|]. intros T%bool_decide_eq_false%dec_stable.
  wp_query. apply wp_run. intros ? ? [= <- <-]. cbv beta iota.
  apply (wp_advance _ _ _ bk); [exact L | exact E | solve_advances T | tail_quiet].
Qed.

Lemma safe_riderArrived a b input : safe (riderArrivedAtPickup a b input).
Proof.
  apply quiet_safe. intros d0. unfold riderArrivedAtPickup, waypointsOf, emitBooking, createNotification. quiet_loop.
Qed.

Lemma safe_verifyPickup a b otp input : RideEventInput.force input = false -> safe (verifyPickupAndBoard a b otp input).
Proof.
  intros F. apply safe_start. intros s G. pose proof (life_refl _ G) as L. unfold verifyPickupAndBoard.
  wp_query. apply wp_driverBooking; [intros; exact L|]. intros bk r E Er _. cbv beta iota.
  wp_query. apply wp_assertForceAllowed; [exact F|].
  wp_query. apply wp_assertOrForce; [exact F | intros; exact L|]. intros T%negb_false_iff. cbv beta iota.
  wp_query. apply wp_verifyCode; [exact F | intros; exact L | |].
  - intros b1 e E1. apply (life_neutral _ b b1); [exact G | exact E1 | repeat split].
  - intros _ _ _ _. cbv beta iota. by_status T.
    all: apply (wp_advance _ _ _ bk); [exact L | exact E | solve_advances T | tail_quiet].
Qed.

Lemma safe_markNoShow a b input : RideEventInput.force input = false -> safe (markNoShow a b input).
Proof.
  intros F. apply safe_start. intros s G. pose proof (life_refl _ G) as L. unfold markNoShow.
  wp_query. apply wp_driverBooking; [intros; exact L|]. intros bk r E Er _. cbv beta iota.
  wp_query. apply wp_assertForceAllowed; [exact F|].
  wp_query. apply wp_assertOrForce; [exact F | intros; exact L|]. intros T%negb_false_iff. cbv beta iota.
  assert (W : forall force, ForceContext.forced force = false ->
    wp (update prisma.rideBooking b (fun b => b <| RideBooking.status := BookingStatus.NO_SHOW |>
          <| RideBooking.noShowMarkedAt := Some now |>);;
        recordEvent (RideBooking.rideId bk) (Some b) "NO_SHOW_MARKED" "DRIVER" a input [] "VALID" (Some force);;
        handleForcedAction force "NO_SHOW_MARKED" (RideBooking.rideId bk) (RideBooking.id bk)
          (Some (RideBooking.passengerId bk)) a;;
        createNotification (RideBooking.passengerId bk) "booking.no_show";;
        emitBooking [a; RideBooking.passengerId bk] (RideBooking.id bk) "booking.no_show";;
        mret (result bk BookingStatus.NO_SHOW None force)) (fun s' _ => Life (St.db s) (St.db s')) s).
  { intros force _. by_status T.
    all: apply (wp_advance _ _ _ bk); [exact L | exact E | solve_advances T | tail_quiet]. }
  wp_query. destruct (noShowAvailableAt _) as [t|]; cbv beta iota; [|apply wp_ret, W, F].
  apply wp_assertOrForce; [exact F | intros; exact L | intros _; apply W, F].
Qed.

Lemma safe_confirmDropoff a b input : RideEventInput.force input = false -> safe (confirmDropoff a b input).
Proof.
  intros F. apply safe_start. intros s G. pose proof (life_refl _ G) as L. unfold confirmDropoff.
  wp_query. apply wp_driverBooking; [intros; exact L|]. intros bk r E Er _. cbv beta iota.
  wp_query. apply wp_assertForceAllowed; [exact F|].
  wp_query. apply wp_assertOrForce; [exact F | intros; exact L|]. intros T%negb_false_iff. cbv beta iota.
  wp_query. apply wp_run. intros ? ? [= <- <-]. cbv beta iota. by_status T.
  all: apply (wp_advance _ _ _ bk); [exact L | exact E | solve_advances T | tail_quiet].
Qed.

Lemma safe_riderConfirmDropoff a b input : RideEventInput.force input = false -> safe (riderConfirmDropoff a b input).
Proof.
  intros F. apply safe_start. intros s G. pose proof (life_refl _ G) as L. unfold riderConfirmDropoff.
  wp_query. apply wp_riderBooking; [intros; exact L|]. intros bk r E Er _. cbv beta iota.
  wp_query. apply wp_assertForceAllowed; [exact F|].
  wp_query. apply wp_assertOrForce; [exact F | intros; exact L|]. intros T%bool_decide_eq_false%dec_stable.
  apply (wp_advance _ _ _ bk); [exact L | exact E | solve_advances T | tail_quiet].
Qed.

Lemma safe_missedPickup a b input : safe (reportMissedPickup a b input).
Proof.
  apply safe_start. intros s G. pose proof (life_refl _ G) as L. unfold reportMissedPickup.
  wp_query. apply wp_riderBooking; [intros; exact L|]. intros bk r E Er _. cbv beta iota.
  wp_query. wp_query; [exact L|]. match goal with Hd : negb _ = false |- _ => apply negb_false_iff in Hd; rename Hd into T end.
  by_status T. all: apply (wp_advance _ _ _ bk); [exact L | exact E | solve_advances T | tail_quiet].
Qed.

Lemma safe_finishRide a b input : RideEventInput.force input = false -> safe (finishRide a b input).
Proof.
  intros F. apply safe_start. intros s G. pose proof (life_refl _ G) as L. unfold finishRide.
  wp_query. wp_query. destruct o as [ride|]; [|wp_query; exact L].
  wp_query. apply wp_run. intros ? ? [= <- <-]. wp_query. wp_query; [exact L|]. wp_query. wp_query; [exact L|].
  wp_query. apply wp_assertForceAllowed; [exact F|].
  wp_query. apply wp_assertOrForce; [exact F | intros; exact L|]. intros _. cbv beta iota.
  apply wp_ride_write; [exact L | intros; repeat split|]. intros x. apply quiet_safe. unfold emitBooking.
  intros d0. quiet_loop.
Qed.

Lemma safe_devPickup a b input : safe (devSimulatePickup a b input).
Proof.
  apply safe_start. intros s G. pose proof (life_refl _ G) as L. unfold devSimulatePickup, assertDevSimulationEnabled.
  wp_query. wp_query; [exact L|].
  wp_query. apply wp_driverBooking; [intros; exact L|]. intros bk r E Er _. cbv beta iota.
  wp_query. wp_query; [exact L|]. wp_query. wp_query; [exact L|].
  match goal with Hd : negb (has_status _ _) = false |- _ => apply negb_false_iff in Hd; rename Hd into T end.
  by_status T. all: apply (wp_advance _ _ _ bk); [exact L | exact E | solve_advances T | tail_quiet].
Qed.

Lemma safe_devDropoff a b input : safe (devSimulateDropoff a b input).
Proof.
  apply safe_start. intros s G. pose proof (life_refl _ G) as L. unfold devSimulateDropoff, assertDevSimulationEnabled.
  wp_query. wp_query; [exact L|].
  wp_query. apply wp_driverBooking; [intros; exact L|]. intros bk r E Er _. cbv beta iota.
  wp_query. wp_query; [exact L|]. wp_query. wp_query; [exact L|].
  match goal with Hd : negb (has_status _ _) = false |- _ => apply negb_false_iff in Hd; rename Hd into T end.
  by_status T. all: apply (wp_advance _ _ _ bk); [exact L | exact E | solve_advances T | tail_quiet].
Qed.

(** *** The codes of the booking flow *)

Lemma wp_fetched {A} driverId id (k : R.t -> H A) Q (s : St.t) :
  (forall e, Q s (Err e)) ->
  (forall r, Db.rideBooking (St.db s) !! id = Some (R.booking r) ->
     Db.ride (St.db s) !! RideBooking.rideId (R.booking r) = Some (R.ride r) ->
     Ride.driverId (R.ride r) = driverId -> wp (k r) Q s) ->
  wp (fetched ← fetchDriverBooking id; r ← requireDriverBooking driverId fetched; k r) Q s.
Proof.
  intros HE HQ. unfold fetchDriverBooking, requireDriverBooking, rideOf, waypointsOf.
  wp_query. wp_query. wp_query. destruct o as [b|]; [|repeat wp_query; apply HE].
  wp_query. wp_query; [apply HE|]. wp_query. wp_query. repeat wp_query; [apply HE|].
  apply HQ; cbn; [exact E | exact E0|].
  lazymatch goal with Hd : _ = false |- _ => apply bool_decide_eq_false in Hd; apply dec_stable; exact Hd end.
Qed.

Lemma safe_verifyPickupOtp a b otp reason : safe (verifyPickupOtp a b otp false reason).
Proof.
  apply safe_start. intros s G. pose proof (life_refl _ G) as L. unfold verifyPickupOtp.
  apply wp_fetched; [intros; exact L|]. intros r E Er _.
  wp_query. apply wp_assertForceAllowed; [reflexivity|]. unfold assertOtpGuard.
  wp_query. apply wp_assertOrForce; [reflexivity | intros; exact L|]. intros T%bool_decide_eq_false%dec_stable.
  cbv beta iota. wp_query. apply wp_verifyCode; [reflexivity | intros; exact L | |].
  - intros b1 e E1. apply (life_neutral _ b b1); [exact G | exact E1 | repeat split].
  - intros _ _ _ _. cbv beta iota.
    apply (wp_advance _ _ _ (R.booking r)); [exact L | exact E | solve_advances T | tail_quiet].
Qed.

Lemma safe_verifyDropOtp a b otp reason : safe (verifyDropOtp a b otp false reason).
Proof.
  apply safe_start. intros s G. pose proof (life_refl _ G) as L. unfold verifyDropOtp.
  apply wp_fetched; [intros; exact L|]. intros r E Er _.
  wp_query. apply wp_assertForceAllowed; [reflexivity|]. unfold assertOtpGuard.
  wp_query. apply wp_assertOrForce; [reflexivity | intros; exact L|]. intros T%bool_decide_eq_false%dec_stable.
  cbv beta iota. wp_query. apply wp_verifyCode; [reflexivity | intros; exact L | |].
  - intros b1 e E1. apply (life_neutral _ b b1); [exact G | exact E1 | repeat split].
  - intros _ _ _ _. cbv beta iota.
    apply (wp_advance _ _ _ (R.booking r)); [exact L | exact E | solve_advances T | tail_quiet].
Qed.

(** *** Actions queued offline *)

(** An action that is only recorded: manual ones run the operation overridden. *)
Definition recordedOnly (action : OfflineAction.t) : bool :=
  negb (String.prefix "MANUAL_" (OfflineAction.eventType action)).

Lemma quiet_syncAction a action : recordedOnly action = true -> quiet (syncAction a action).
Proof. intros M d0. unfold recordedOnly in M. unfold syncAction. rewrite M. quiet_loop. Qed.

Lemma quiet_sync a actions : forallb recordedOnly actions = true -> quiet (syncOfflineActions a actions).
Proof.
  induction actions as [|action rest IH]; intros M d0; cbn [syncOfflineActions]; [quiet_loop|].
  apply andb_prop in M as [M Ms]. pose proof (quiet_syncAction a action M d0). specialize (IH Ms d0). quiet_loop.
Qed.
End handlers.
