(* ===== verification/DriverSafe.v ===== *)
(** * A driver's published rides are safe

    The listing, the start and the completion of a ride by the endpoints of publishing
    ([DriverRides.v]) keep the invariant of [Invariant.v]. *)

From Stdlib Require Import ZArith Lia.
From stdpp Require Import base list option strings gmap relations.
From S2P Require Import Prelude JsNumber JsText Money Schema Store Seats Payments Time Gateway Rewards.
From S2P Require Import RideRequest Booking DriverBooking RideOps Invariant Safe RideSafe DriverRides.

Open Scope Z_scope.

Section handlers.
Context `{Env} `{RideZone} `{Mode}.

Lemma safe_ride_status (id : string) p st : safe (updateManyId prisma.ride id p (fun r => r <| Ride.status := st |>)).
Proof.
  intros d0. apply preserves_updateManyId. intros d r L Er _. apply (life_trans d0 d); [exact L|].
  exact (life_ride d id r (r <| Ride.status := st |>) (proj1 L) Er ltac:(repeat split) eq_refl).
Qed.

Lemma safe_ride_update (id : string) f : (forall r, same_ride r (f r) /\ Ride.availableSeats (f r) = Ride.availableSeats r) ->
  safe (update prisma.ride id f).
Proof.
  intros F d0. apply preserves_update. intros d r L Er. apply (life_trans d0 d); [exact L|].
  destruct (F r) as [F1 F2]. exact (life_ride d id r (f r) (proj1 L) Er F1 F2).
Qed.

Lemma safe_reconcileRide driverId c : safe (PublishRide.reconcileRide driverId c).
Proof.
  destruct c as [ride statuses]. unfold PublishRide.reconcileRide.
  destruct (PublishRide.combineDepartureDateTimeInRideTimezone _ _); [|solve_safe].
  destruct (_ <? _); [solve_safe|]. destruct (_ && _); [apply safe_bind; [apply safe_ride_status | solve_safe]|].
  destruct (bool_decide _); [apply safe_bind; [apply safe_ride_status | solve_safe] | solve_safe].
Qed.

Lemma safe_promise_all (ms : list (H unit)) : (forall m, In m ms -> safe m) -> safe (promise_all ms).
Proof. intros S d0. apply preserves_promise_all. intros m Hm. apply S, Hm. Qed.

Lemma safe_reconcile driverId : safe (PublishRide.reconcileDriverRideListStatuses driverId).
Proof.
  unfold PublishRide.reconcileDriverRideListStatuses. intros d0. apply preserves_bind; [apply preserves_get|].
  intros l. apply safe_promise_all. intros m (c & <- & _)%in_map_iff. apply safe_reconcileRide.
Qed.

Lemma safe_getUserRides a b c d : safe (PublishRide.getUserRides a b c d).
Proof. apply safe_bind; [apply safe_reconcile|]. intros _. solve_safe. Qed.

Lemma safe_getRideById a b : safe (PublishRide.getRideById a b).
Proof. unfold PublishRide.getRideById. solve_safe. Qed.

Lemma safe_publish_start a b : safe (PublishRide.startRide a b).
Proof.
  unfold PublishRide.startRide. solve_safe.
  - apply safe_ride_update. intros r. repeat split.
  - apply safe_updateMany_all. intros bk P. apply andb_prop in P as [_ T%bool_decide_eq_true].
    apply list_elem_of_In in T as [T|[]]. symmetry in T. right. solve_advances T.
Qed.

Lemma safe_publish_complete a b : safe (PublishRide.completeRide a b).
Proof.
  unfold PublishRide.completeRide. solve_safe.
  - apply safe_ride_update. intros r. repeat split.
  - apply safe_updateMany_all. intros bk P. apply andb_prop in P as [_ T%bool_decide_eq_true].
    apply list_elem_of_In in T as [T|[]]. symmetry in T. right. solve_advances T.
  - apply preserves_promise_all. intros m (x & <- & _)%in_map_iff. apply preserves_perform.
  - apply preserves_promise_all. intros m (x & <- & _)%in_map_iff. apply preserves_bind; [apply quiet_safe, quiet_awardBooking|].
    intros _. apply preserves_ret.
Qed.
End handlers.

