(* ===== verification/MarketSafe.v ===== *)
(** * The market of requests is safe

    [safe] for the operations of [RequestMarket]: the ride of an offer is a new ride with
    all its seats free, and a checkout that was not paid gives back what it holds. *)

From Stdlib Require Import ZArith Lia.
From stdpp Require Import base list option strings gmap relations.
From S2P Require Import Prelude JsNumber JsText Money Schema Store Seats Payments Time Segment ViewToken Pricing Gateway.
From S2P Require Import RideRequest Booking RideOps Route Eligibility Draft Publish RequestMarket.
From S2P Require Import Invariant Safe Publishing Drafting RideSafe DriverSafe.

Open Scope Z_scope.

Import Eligibility DraftRide PublishDraft.

Section quiet.
Context `{Env} `{EligibilityEnv} `{Google} `{RequestMaps} `{Mode}.

Lemma quiet_assertActiveUser id : quiet (assertActiveUser id).
Proof. unfold assertActiveUser. solve_quiet. Qed.

Lemma quiet_createRequest riderId input : quiet (createRequest riderId input).
Proof.
  intros d0. unfold createRequest. repeat first [apply quiet_assertActiveUser | quiet_step].
Qed.

Lemma quiet_listRequests userId q admin : quiet (listRequests userId q admin).
Proof. unfold listRequests. solve_quiet. Qed.

Lemma quiet_feeTerms rideId : quiet (resolveRideFeeTerms rideId).
Proof.
  unfold resolveRideFeeTerms, findSnapshot, resolveActiveFeeTerms, getActivePricingConfig, ensureDefaultPricingConfig. solve_quiet.
Qed.

Lemma quiet_collect {A B} (f : A -> H B) l : (forall x, quiet (f x)) -> quiet (collect f l).
Proof.
  intros Q. induction l as [|x l IH]; intros d0; cbn [collect]; [apply preserves_ret|].
  pose proof (Q x d0). specialize (IH d0). repeat first [assumption | quiet_step].
Qed.

Lemma quiet_requestDetails id userId admin : quiet (requestDetails id userId admin).
Proof.
  intros d0. unfold requestDetails, offerView.
  repeat first [apply quiet_feeTerms | apply quiet_collect; intros ? ? | quiet_step].
Qed.

Lemma quiet_closeRequest id userId admin : quiet (closeRequest id userId admin).
Proof. unfold closeRequest. solve_quiet. Qed.

Lemma quiet_withdrawOffer id driverId : quiet (withdrawOffer id driverId).
Proof. unfold withdrawOffer. solve_quiet. Qed.
End quiet.

Section safe.
Context `{Env} `{EligibilityEnv} `{Google} `{RequestMaps} `{Mode}.

Lemma insertOffer_spec requestId driverId request input route s : 0 <= OfferInput.totalSeats input -> Good (St.db s) ->
  wp (insertOffer requestId driverId request input route) (if_ok (fun s' _ => Life (St.db s) (St.db s'))) s.
Proof.
  intros P G. unfold insertOffer. apply wp_bind, wp_findUnique. intros current Ec.
  apply wp_bind, wp_throw_if; intros U; [exact I|]. apply wp_bind, wp_get. apply wp_bind, wp_throw_if; intros W; [exact I|].
  apply wp_bind. eapply wp_mono; [apply overlap_spec|]. intros s0 [[]|e] [-> _]; [|exact I].
  apply wp_bind, wp_run. intros s1 r [= <- <-]. cbv beta iota. apply wp_bind, wp_create; [intros; exact I|]. intros E0.
  set (ride := offeredRide _ driverId request input route) in *.
  apply wp_bind. unfold createLeg. apply wp_bind, wp_run. intros s1 r [= <- <-]. cbv beta iota.
  apply wp_bind, wp_create; [intros; exact I|]. intros E1. apply wp_ret. apply wp_bind.
  eapply wp_mono; [apply snapshot_validation|]. intros s2 [[v id]|e] [[m Em] _]; [|exact I].
  apply wp_bind, wp_throw_if; intros V; [exact I|].
  apply wp_bind, wp_run. intros s3 r [= <- <-]. cbv beta iota. apply wp_create; [intros; exact I|].
  intros E2. cbn [if_ok]. cbn [St.db] in *.
  apply (life_new_ride ride); [exact P | reflexivity | exact E0 | cbn; rewrite Em; reflexivity.. | | exact G].
  cbn. rewrite Em. cbn. intros k c [[_ <-]|[_ E]]%lookup_insert_Some; [right; split; reflexivity | left; exact E].
Qed.

Lemma safe_createOffer requestId driverId input : 0 <= OfferInput.totalSeats input -> safe (createOffer requestId driverId input).
Proof.
  intros P. unfold createOffer, routeIsPublishable, notify. intros d0.
  repeat first [ apply quiet_safe, quiet_assertActiveUser | apply quiet_safe, quiet_assertCanPublish
               | apply quiet_safe, quiet_requestDetails | apply safe_transaction; intros s G; apply insertOffer_spec; assumption
               | apply quiet_safe, quiet_notice | preserve_step | apply preserves_attempt ].
Qed.

Section checkout.
Context `{Codec}.
Variable routeSharesBetween : Ride.t -> SegmentPoint.t -> SegmentPoint.t -> option (num * num).

Lemma safe_checkoutOffer offerId riderId : (forall n, uuid n <> EmptyString) -> safe (checkoutOffer routeSharesBetween offerId riderId).
Proof.
  intros U d0. unfold checkoutOffer, resumeCheckout, includeOffer, retrieveIntent.
  repeat first [ apply quiet_safe, quiet_assertActiveUser | apply quiet_safe, quiet_assertCanPublish | apply safe_createBooking, U
               | apply safe_getBookingById | apply safe_apply | apply quiet_safe, quiet_ensureRequestPayment | preserve_step ].
Qed.
End checkout.

(** *** The sweep *)

(** The booking and the ride were there when the sweep began. *)
Definition seen (d0 : Db.t) (x : Expired.t) : Prop :=
  match Expired.booking x with
  | Some (b, r) => Db.rideBooking d0 !! RideBooking.id b = Some b /\ Db.ride d0 !! RideBooking.rideId b = Some r
  | None => True
  end.

Lemma seen_snapshot d offer : Good d -> seen d (snapshotOffer d offer).
Proof.
  intros G. unfold seen, snapshotOffer. cbn. destruct (RideRequestOffer.bookingId offer) as [id|]; [|exact I]. cbn.
  destruct (Db.rideBooking d !! id) as [b|] eqn:Eb; [|exact I]. cbn.
  destruct (Db.ride d !! RideBooking.rideId b) as [r|] eqn:Er; [|exact I]. cbn.
  destruct (inv_booking_id _ (good_seats _ G) id b Eb) as [-> _]. auto.
Qed.

Lemma wp_cancelExpired d0 p b r s : Db.rideBooking d0 !! RideBooking.id b = Some b -> Db.ride d0 !! RideBooking.rideId b = Some r ->
  Life d0 (St.db s) -> wp (cancelExpired p b r) (fun s' _ => Life d0 (St.db s')) s.
Proof.
  intros Eb Er L. unfold cancelExpired. apply wp_bind, wp_get. apply wp_bind, wp_updateManyId; [intros E; exact L|].
  intros b1 E P. cbn [Z.eqb]. apply wp_bind. apply andb_prop in P as [[T%bool_decide_eq_true _]%andb_prop _].
  eapply (wp_release d0 (St.db s)); [exact L | exact Eb | exact Er | exact E | | reflexivity |]; [solve_closes T|].
  intros s' x L' _. exact L'.
Qed.

Lemma wp_releaseCheckout d0 x s : seen d0 x -> Life d0 (St.db s) -> wp (releaseCheckout x) (fun s' _ => Life d0 (St.db s')) s.
Proof.
  intros Sx L. unfold releaseCheckout. apply wp_bind.
  assert (R : wp (match Expired.booking x with Some (booking, ride) => cancelExpired (Expired.payment x) booking ride | None => mret true end)
                 (fun s' _ => Life d0 (St.db s')) s).
  { unfold seen in Sx. destruct (Expired.booking x) as [[b r]|]; [destruct Sx; apply wp_cancelExpired; assumption | exact L]. }
  eapply wp_mono; [exact R|]. intros s1 [ok|e] L1; [|exact L1].
  eapply wp_safe_end; [|exact L1]. intros d.
  repeat first [ apply safe_ride_update; intros ?; split; [repeat split | reflexivity] | apply quiet_safe; solve [solve_quiet] | preserve_step ].
Qed.

Lemma safe_settleIntent x : safe (settleIntent x).
Proof.
  unfold settleIntent, retrieveIntent, cancelPaymentIntent. intros d0.
  repeat first [ apply safe_apply | apply quiet_safe; solve [solve_quiet] | preserve_step ].
Qed.

Lemma keeps_expireCheckout d0 x : seen d0 x -> preserves (on_db (Life d0)) (expireCheckout x).
Proof.
  intros Sx. unfold expireCheckout. apply preserves_attempt. apply preserves_bind; [apply safe_settleIntent|].
  intros b. apply preserves_when, preserves_transaction. intros s L. exact (wp_releaseCheckout d0 x s Sx L).
Qed.

Lemma keeps_each d0 l : Forall (seen d0) l -> preserves (on_db (Life d0)) (for_each l expireCheckout).
Proof.
  induction 1 as [|x l Sx _ IH]; cbn [for_each]; [apply preserves_ret|].
  apply preserves_bind; [exact (keeps_expireCheckout d0 x Sx) | intros _; exact IH].
Qed.

Lemma safe_requestExpiry : safe expireRequestCheckouts.
Proof.
  apply safe_start. intros s G. unfold expireRequestCheckouts. apply wp_bind, wp_get.
  set (l := map _ _). assert (F : Forall (seen (St.db s)) l).
  { apply Forall_forall. intros x I. apply list_elem_of_In, in_map_iff in I as (o & <- & _). apply seen_snapshot, G. }
  pose proof (keeps_each (St.db s) l F s (life_refl _ G)) as K. apply wp_bind. unfold wp. revert K.
  destruct (for_each l expireCheckout s) as [s1 [[]|e]]; cbn [fst snd]; intros K; [|exact K].
  eapply wp_safe_end; [|exact K]. apply quiet_safe. solve_quiet.
Qed.
End safe.
