(* ===== verification/Market.v ===== *)
(** * A request is matched once

    What the market of requests keeps, through [RequestMarket], the reservation and the
    confirmation of [RequestBooking] and the payments of [Booking]: at most one offer of a
    request is ever selected or accepted, and an offer and its request are in states that
    fit. *)

From Stdlib Require Import ZArith Lia.
From stdpp Require Import base list option strings gmap relations.
From S2P Require Import Prelude JsNumber JsText Money Schema Store Seats Payments Time Segment ViewToken Pricing Gateway.
From S2P Require Import RideRequest Booking RideOps Route Eligibility Draft Publish RequestMarket.
From S2P Require Import Invariant Safe Publishing Drafting MarketSafe.

Open Scope Z_scope.

Import Eligibility DraftRide PublishDraft.

(** ** The invariant *)

(** The states a request may be in while it has an offer in the state. *)
Definition fits (offer request : string) : bool :=
  if decide (offer = "SELECTED"%string) then bool_decide (request = "CHECKOUT_PENDING"%string)
  else if decide (offer = "ACCEPTED"%string) then bool_decide (request = "MATCHED"%string)
  else if decide (offer = "OPEN"%string) then bool_decide (request ∈ ["OPEN"; "CHECKOUT_PENDING"; "EXPIRED"]%string)
  else true.

Definition taken (o : RideRequestOffer.t) : bool := bool_decide (RideRequestOffer.status o ∈ ["SELECTED"; "ACCEPTED"]%string).

Definition offer_fits (d : Db.t) (o : RideRequestOffer.t) : Prop :=
  exists r, Db.rideRequest d !! RideRequestOffer.requestId o = Some r /\
    fits (RideRequestOffer.status o) (RideRequest.status r) = true.

Record MarketInv (d : Db.t) : Prop := {
  market_offer : forall k o, Db.rideRequestOffer d !! k = Some o -> RideRequestOffer.id o = k /\ offer_fits d o;
  market_once : forall k1 k2 o1 o2, Db.rideRequestOffer d !! k1 = Some o1 -> Db.rideRequestOffer d !! k2 = Some o2 ->
    RideRequestOffer.requestId o1 = RideRequestOffer.requestId o2 -> taken o1 = true -> taken o2 = true -> k1 = k2;
}.

(** A write after which no more offers are taken. *)
Lemma market_write (d d' : Db.t) :
  MarketInv d ->
  (forall k o', Db.rideRequestOffer d' !! k = Some o' -> RideRequestOffer.id o' = k /\ offer_fits d' o') ->
  (forall k o', Db.rideRequestOffer d' !! k = Some o' -> taken o' = true ->
     exists o, Db.rideRequestOffer d !! k = Some o /\ taken o = true /\ RideRequestOffer.requestId o = RideRequestOffer.requestId o') ->
  MarketInv d'.
Proof.
  intros [F O] F' T'. split; [exact F'|]. intros k1 k2 o1 o2 E1 E2 R T1 T2.
  destruct (T' k1 o1 E1 T1) as (p1 & Ep1 & Tp1 & Rp1). destruct (T' k2 o2 E2 T2) as (p2 & Ep2 & Tp2 & Rp2).
  apply (O k1 k2 p1 p2); congruence.
Qed.

(** One request changes. *)
Lemma market_request (d : Db.t) (q : string) (r r' : RideRequest.t) :
  MarketInv d -> Db.rideRequest d !! q = Some r ->
  (forall k o, Db.rideRequestOffer d !! k = Some o -> RideRequestOffer.requestId o = q ->
     fits (RideRequestOffer.status o) (RideRequest.status r) = true -> fits (RideRequestOffer.status o) (RideRequest.status r') = true) ->
  MarketInv (d <| Db.rideRequest ::= <[q := r']> |>).
Proof.
  intros M Er F. apply (market_write d); [exact M | | intros k o E T; exists o; auto].
  intros k o E. destruct (market_offer d M k o E) as [I (x & Ex & Fx)]. split; [exact I|].
  unfold offer_fits. cbn. destruct (decide (RideRequestOffer.requestId o = q)) as [Q|N].
  - exists r'. rewrite Q, lookup_insert_eq. split; [reflexivity|]. apply (F k o E Q). congruence.
  - exists x. rewrite lookup_insert_ne by congruence. auto.
Qed.

(** One offer changes; it is not taken unless it was, or no other offer of the request is. *)
Lemma market_one_offer (d : Db.t) (k : string) (o o' : RideRequestOffer.t) :
  MarketInv d -> Db.rideRequestOffer d !! k = Some o -> RideRequestOffer.id o' = RideRequestOffer.id o ->
  RideRequestOffer.requestId o' = RideRequestOffer.requestId o -> offer_fits d o' ->
  (taken o' = true -> taken o = true \/ forall k2 o2, Db.rideRequestOffer d !! k2 = Some o2 ->
     RideRequestOffer.requestId o2 = RideRequestOffer.requestId o -> taken o2 = true -> k2 = k) ->
  MarketInv (d <| Db.rideRequestOffer ::= <[k := o']> |>).
Proof.
  intros [F O] E Hi Hr Hf Ht. split; cbn.
  - intros k1 o1 [[<- <-]|[_ E1]]%lookup_insert_Some; [|exact (F k1 o1 E1)].
    split; [rewrite Hi; exact (proj1 (F k o E)) | exact Hf].
  - intros k1 k2 o1 o2 [[<- <-]|[N1 E1]]%lookup_insert_Some [[<- <-]|[N2 E2]]%lookup_insert_Some R T1 T2; try reflexivity.
    + destruct (Ht T1) as [T|U]; [apply (O k k2 o o2); congruence | symmetry; apply (U k2 o2); congruence].
    + destruct (Ht T2) as [T|U]; [apply (O k1 k o1 o); congruence | apply (U k1 o1); congruence].
    + exact (O k1 k2 o1 o2 E1 E2 R T1 T2).
Qed.

(** ** Calls that leave the market alone *)

Definition same_market (d0 d : Db.t) : Prop :=
  Db.rideRequest d = Db.rideRequest d0 /\ Db.rideRequestOffer d = Db.rideRequestOffer d0.

#[global] Instance same_market_preorder : PreOrder same_market.
Proof. split; [split; reflexivity|]. intros a b c [A1 A2] [B1 B2]. split; congruence. Qed.

Lemma market_same d d' : same_market d d' -> MarketInv d -> MarketInv d'.
Proof.
  intros [E1 E2] [F O]. split; rewrite E2; [|exact O]. intros k o E. unfold offer_fits. rewrite E1. exact (F k o E).
Qed.

Class Elsewhere {R} (t : Table R) : Prop := elsewhere : forall g d, same_market d (with_rows t g d).

Ltac solve_elsewhere := intros ? ?; split; reflexivity.
#[global] Instance elsewhere_ride : Elsewhere prisma.ride. Proof. solve_elsewhere. Qed.
#[global] Instance elsewhere_booking : Elsewhere prisma.rideBooking. Proof. solve_elsewhere. Qed.
#[global] Instance elsewhere_leg : Elsewhere prisma.rideSegmentCapacity. Proof. solve_elsewhere. Qed.
#[global] Instance elsewhere_payment : Elsewhere prisma.payment. Proof. solve_elsewhere. Qed.
#[global] Instance elsewhere_outbox : Elsewhere prisma.paymentEventOutbox. Proof. solve_elsewhere. Qed.
#[global] Instance elsewhere_issue : Elsewhere prisma.reconciliationIssue. Proof. solve_elsewhere. Qed.
#[global] Instance elsewhere_config : Elsewhere prisma.pricingConfig. Proof. solve_elsewhere. Qed.
#[global] Instance elsewhere_snapshot : Elsewhere prisma.ridePricingSnapshot. Proof. solve_elsewhere. Qed.

Definition calm {A} (m : H A) : Prop := forall d0, preserves (on_db (same_market d0)) m.
Definition fair {A} (m : H A) : Prop := preserves (on_db MarketInv) m.

Section calm.
Context `{Env}.

Lemma calm_fair {A} (m : H A) : calm m -> fair m.
Proof. intros C s M. apply (market_same (St.db s)); [|exact M]. exact (C (St.db s) s (conj eq_refl eq_refl)). Qed.

Lemma calm_update {R} (t : Table R) `{!Elsewhere t} id f : calm (update t id f).
Proof. intros d0. apply preserves_update. intros d r C _. etrans; [exact C | apply elsewhere]. Qed.

Lemma calm_create {R} (t : Table R) `{!Elsewhere t} id r : calm (create t id r).
Proof. intros d0. apply preserves_create. intros d C _. etrans; [exact C | apply elsewhere]. Qed.

Lemma calm_updateManyId {R} (t : Table R) `{!Elsewhere t} id p f : calm (updateManyId t id p f).
Proof. intros d0. apply preserves_updateManyId. intros d r C _ _. etrans; [exact C | apply elsewhere]. Qed.

Lemma calm_updateMany {R} (t : Table R) `{!Elsewhere t} p f : calm (updateMany t p f).
Proof. intros d0 s C. rewrite updateMany_run. unfold on_db in *. cbn. etrans; [exact C | apply elsewhere]. Qed.

Lemma calm_write {R} (t : Table R) `{!Elsewhere t} g : calm (write t g).
Proof. intros d0. apply preserves_write. intros d C. etrans; [exact C | apply elsewhere]. Qed.

Lemma calm_ledger es : calm (createLedgerEntries es).
Proof. intros d0 s C. rewrite createLedgerEntries_run. exact C. Qed.
End calm.

Ltac calm_step :=
  lazymatch goal with
  | |- preserves _ (update _ _ _) => apply calm_update; exact _
  | |- preserves _ (create _ _ _) => apply calm_create; exact _
  | |- preserves _ (updateManyId _ _ _ _) => apply calm_updateManyId; exact _
  | |- preserves _ (updateMany _ _ _) => apply calm_updateMany; exact _
  | |- preserves _ (write _ _) => apply calm_write; exact _
  | |- preserves _ (createLedgerEntries _) => apply calm_ledger
  | |- preserves _ (transaction _) => apply preserves_transaction
  | |- preserves _ (attempt _) => apply preserves_attempt
  | |- _ => preserve_step
  end.
Ltac solve_calm := intros; intros ?d0; repeat calm_step.

Section handlers.
Context `{Env}.

Lemma calm_ensureRequestPayment b : calm (ensureRequestPayment b).
Proof. unfold ensureRequestPayment. solve_calm. Qed.

Lemma calm_markPaymentPaid a b : calm (markPaymentPaid a b).
Proof. unfold markPaymentPaid, assertTransition, recordPaymentReceived, writeOutboxEvent. solve_calm. Qed.

Lemma calm_markBookingPaymentPaid a b : calm (markBookingPaymentPaid a b).
Proof.
  intros d0. unfold markBookingPaymentPaid, markPaymentPending, findByBooking, markStatus, assertTransition.
  repeat first [apply calm_markPaymentPaid | calm_step].
Qed.

Lemma calm_markBookingPaymentRefunded a b c : calm (markBookingPaymentRefunded a b c).
Proof.
  unfold markBookingPaymentRefunded, markRefunded, assertTransition, recordRefund, findByBooking, writeOutboxEvent. solve_calm.
Qed.

Lemma calm_createBookingPayment a b c d e : calm (createBookingPayment a b c d e).
Proof. intros d0. unfold createBookingPayment, createPayment. repeat calm_step. all: try (intros s C; exact C). Qed.

Lemma calm_recordIssue a b c d e f : calm (recordIssue a b c d e f).
Proof. unfold recordIssue. solve_calm. Qed.

Lemma calm_releaseBookingSeats a b : calm (releaseBookingSeats a b).
Proof. unfold releaseBookingSeats, releaseSegmentSeats, recomputeAvailableSeats, heldSeats, lockRideForSeats. solve_calm. Qed.

Lemma calm_reserveSeats a b c : calm (reserveSeatsForBooking a b c).
Proof. unfold reserveSeatsForBooking, reserveRideSeats, recomputeAvailableSeats, heldSeats, lockRideForSeats. solve_calm. Qed.

Lemma calm_activate a p f : calm (activateRideBooking a p f).
Proof. unfold activateRideBooking, checkActiveIndex. solve_calm. Qed.

Lemma calm_refundRideFull a b : calm (refundRideFullPayment a b).
Proof.
  intros d0. unfold refundRideFullPayment, rideOf, refundPaymentIntent, createNotification.
  repeat first [apply calm_markBookingPaymentPaid | apply calm_markBookingPaymentRefunded | apply calm_recordIssue | calm_step].
Qed.

Lemma calm_settle a b : calm (settleClaimedBooking a b).
Proof.
  intros d0. unfold settleClaimedBooking, rideOf, createNotification, recordProviderFeeForIntent, recordProviderFeeExpense, findByBooking, enqueueDeadlineCheck.
  repeat first [apply calm_markBookingPaymentPaid | apply calm_recordIssue | calm_step].
Qed.
End handlers.

(** ** The operations of the market *)

Section fair.
Context `{Env} `{EligibilityEnv} `{Google} `{RequestMaps}.

Lemma calm_assertCanPublish driverId vehicleId : calm (assertDriverCanPublish driverId vehicleId).
Proof. intros d0 s C. rewrite assert_run. exact C. Qed.

(** A request that is open has no offer taken. *)
Lemma open_not_taken d q r k o : MarketInv d -> Db.rideRequest d !! q = Some r -> RideRequest.status r = "OPEN"%string ->
  Db.rideRequestOffer d !! k = Some o -> RideRequestOffer.requestId o = q -> taken o = false.
Proof.
  intros M Er S E Q. destruct (market_offer d M k o E) as [_ (x & Ex & F)]. rewrite Q, Er in Ex. injection Ex as <-.
  rewrite S in F. unfold taken. apply bool_decide_eq_false_2. intros T. rewrite !elem_of_cons in T.
  destruct T as [T|[T|T]]; [rewrite T in F; discriminate F.. | inversion T].
Qed.

Lemma fits_open st : fits st "OPEN" = true -> fits st "CHECKOUT_PENDING" = true /\ fits st "EXPIRED" = true.
Proof.
  unfold fits. destruct (decide (st = _)); [discriminate|]. destruct (decide (st = _)); [discriminate|].
  destruct (decide (st = _)); split; reflexivity.
Qed.

Lemma fair_reserve offerId riderId rideId seats : fair (reserveRequestOffer offerId riderId rideId seats).
Proof.
  apply preserves_wp. intros s M. unfold on_db in M. unfold reserveRequestOffer, includeOffer.
  apply wp_bind, wp_findUnique. intros [offer|] Eo; [|exact M].
  apply wp_bind, wp_bind, wp_findUniqueOrThrow; [intros _; exact M|]. intros request Er.
  apply wp_bind, wp_findUniqueOrThrow; [intros _; exact M|]. intros ride Erd. apply wp_ret.
  apply wp_bind, wp_throw_if; intros G; [exact M|].
  apply wp_bind. unfold assertDriverHasNoOverlappingRide. apply wp_bind, wp_get. apply wp_throw_if; intros _; [exact M|].
  apply wp_bind, wp_updateManyId; [intros _; exact M|]. intros r Er2 P. cbv beta iota.
  assert (r = request) as -> by congruence. cbn in Eo, Er2.
  apply andb_prop in P as [[_ S%bool_decide_eq_true]%andb_prop _].
  set (request' := request <| RideRequest.status := "CHECKOUT_PENDING"%string |> <| RideRequest.checkoutExpiresAt := _ |>).
  assert (M1 : MarketInv (St.db s <| Db.rideRequest ::= <[RideRequestOffer.requestId offer := request']> |>)).
  { apply (market_request _ _ request request' M Er2). intros k o _ _ F. rewrite S in F. exact (proj1 (fits_open _ F)). }
  apply wp_bind, wp_throw_if; intros _; [exact M1|].
  apply wp_bind, wp_updateManyId; [intros _; apply wp_throw_if; intros _; exact M1|].
  intros o Eo2 P2%bool_decide_eq_true. cbn in Eo2. assert (o = offer) as -> by congruence.
  assert (M2 : MarketInv (St.db s <| Db.rideRequest ::= <[RideRequestOffer.requestId offer := request']> |>
                                   <| Db.rideRequestOffer ::= <[offerId := offer <| RideRequestOffer.status := "SELECTED"%string |>]> |>)).
  { apply (market_one_offer _ offerId offer); [exact M1 | exact Eo2 | reflexivity.. | |].
    - exists request'. cbn. rewrite lookup_insert_eq. split; reflexivity.
    - intros _. right. intros k2 o2 E2 Q T. cbn in E2.
      rewrite (open_not_taken _ _ request k2 o2 M Er2 S E2 Q) in T. discriminate T. }
  apply wp_throw_if; intros _; exact M2.
Qed.

Lemma fair_attach offerId bookingId : fair (attachOffer offerId bookingId).
Proof.
  unfold attachOffer. apply preserves_bind; [|intros; apply preserves_ret]. apply preserves_update. intros d o M E.
  destruct (market_offer d M _ o E) as [_ F].
  apply (market_one_offer d offerId o (o <| RideRequestOffer.bookingId := Some bookingId |>)); auto.
Qed.

(** The writes of a match, together. *)
Definition matched (o : RideRequestOffer.t) (r : RideRequest.t) (d : Db.t) : Db.t :=
  d <| Db.rideRequestOffer ::= <[RideRequestOffer.id o := o <| RideRequestOffer.status := "ACCEPTED"%string |>]> |>
    <| Db.rideRequest ::= <[RideRequestOffer.requestId o :=
         r <| RideRequest.status := "MATCHED"%string |> <| RideRequest.checkoutExpiresAt := None |>]> |>
    <| Db.rideRequestOffer ::= fmap (fun x =>
         if bool_decide (RideRequestOffer.requestId x = RideRequestOffer.requestId o) && bool_decide (RideRequestOffer.status x = "OPEN"%string)
         then x <| RideRequestOffer.status := "CLOSED"%string |> else x) |>.

Lemma fits_other st : fits st "CHECKOUT_PENDING" = true -> st <> "SELECTED"%string -> st <> "OPEN"%string -> fits st "MATCHED" = true.
Proof.
  unfold fits. destruct (decide (st = "SELECTED"%string)); [contradiction|]. destruct (decide (st = "ACCEPTED"%string)); [reflexivity|].
  destruct (decide (st = "OPEN"%string)); [contradiction | reflexivity].
Qed.

Lemma market_matched d o r : MarketInv d -> Db.rideRequestOffer d !! RideRequestOffer.id o = Some o ->
  RideRequestOffer.status o = "SELECTED"%string -> Db.rideRequest d !! RideRequestOffer.requestId o = Some r ->
  RideRequest.status r = "CHECKOUT_PENDING"%string -> MarketInv (matched o r d).
Proof.
  intros M Eo So Er Sr.
  assert (To : taken o = true) by (unfold taken; rewrite So; reflexivity).
  apply (market_write d); [exact M | |].
  - intros k o'. cbn. rewrite lookup_fmap_Some. intros (x & <- & [[<- <-]|[N E]]%lookup_insert_Some).
    + cbn. rewrite (bool_decide_eq_false_2 ("ACCEPTED"%string = "OPEN"%string)) by discriminate. rewrite andb_false_r.
      split; [reflexivity|]. eexists. cbn. rewrite lookup_insert_eq. split; reflexivity.
    + destruct (market_offer d M k x E) as [I (y & Ey & F)]. unfold offer_fits. cbn.
      destruct (decide (RideRequestOffer.requestId x = RideRequestOffer.requestId o)) as [Q|Q].
      * rewrite (bool_decide_eq_true_2 _ Q). rewrite Q, Er in Ey. injection Ey as <-. rewrite Sr in F. cbn [andb].
        case_bool_decide as O; (split; [exact I|]); eexists; cbn; rewrite Q, lookup_insert_eq; (split; [reflexivity|]); [reflexivity|].
        apply fits_other; [exact F | | exact O]. intros S. apply N.
        apply (market_once d M _ k o x Eo E (eq_sym Q) To). unfold taken. rewrite S. reflexivity.
      * rewrite (bool_decide_eq_false_2 _ Q). cbn [andb]. split; [exact I|]. exists y.
        rewrite lookup_insert_ne by congruence. auto.
  - intros k o'. cbn. rewrite lookup_fmap_Some. intros (x & <- & [[<- <-]|[N E]]%lookup_insert_Some) T.
    + exists o. split; [exact Eo|]. split; [exact To|]. destruct (_ && _); reflexivity.
    + exists x. split; [exact E|]. revert T. destruct (_ && _); [intros T; vm_compute in T; discriminate T | auto].
Qed.

Lemma fair_confirm bookingId : fair (confirmRequestBooking bookingId).
Proof.
  apply preserves_wp. intros s M. unfold on_db in M. unfold confirmRequestBooking, includeOffer.
  apply wp_bind, wp_findFirst. intros [offer|] Eo; [|exact M].
  assert (Io : In offer (where_ prisma.rideRequestOffer (fun o => bool_decide (RideRequestOffer.bookingId o = Some bookingId)) (St.db s))).
  { destruct (where_ _ _ _); [discriminate Eo|]. injection Eo as ->. left. reflexivity. }
  apply where_elem in Io as [_ [k Ek]]. cbn in Ek. destruct (market_offer _ M k offer Ek) as [<- _].
  apply wp_bind, wp_bind, wp_findUniqueOrThrow; [intros _; exact M|]. intros request Er.
  apply wp_bind, wp_findUniqueOrThrow; [intros _; exact M|]. intros ride _. apply wp_ret.
  apply wp_bind, wp_findUnique. intros booking _. apply wp_bind, wp_throw_if; intros G; [exact M|].
  apply negb_false_iff, andb_prop in G as [So%bool_decide_eq_true Sr%bool_decide_eq_true].
  apply wp_bind, wp_throw_if; intros _; [exact M|]. destruct booking as [booking|]; [|exact M].
  set (d := St.db s) in *.
  assert (Frame : forall s1, same_market d (St.db s1) -> on_db MarketInv s1) by (intros s1 S1; exact (market_same _ _ S1 M)).
  apply wp_bind.
  assert (C : calm (match truthy (RideBooking.stripePaymentIntentId booking) with
                    | Some _ => ensureRequestPayment booking;; mret tt | None => mret tt end)).
  { intros d0. repeat first [apply calm_ensureRequestPayment | calm_step]. }
  eapply (wp_preserves (on_db (same_market d))); [apply C | split; reflexivity|]. intros s1 [u|e] S1; [|exact (Frame _ S1)]. clear C.
  unfold matchRequest. apply wp_bind, wp_run. intros s2 r2 [= <- <-]. cbv beta iota. apply wp_bind, wp_run. intros s3 r3 [= <- <-]. cbv beta iota.
  apply wp_bind, wp_update; [intros _; apply Frame; exact (conj (proj1 S1) (proj2 S1))|]. intros b Eb.
  apply wp_bind, wp_update; [intros _; apply Frame; exact (conj (proj1 S1) (proj2 S1))|]. intros rd Erd.
  destruct S1 as [Q1 Q2].
  apply wp_bind, wp_update; [intros N; exfalso; cbn in N; congruence|]. intros o1 Eo1.
  assert (o1 = offer) as -> by (cbn in Eo1; congruence).
  apply wp_bind, wp_update; [intros N; exfalso; cbn in N, Er; congruence|]. intros r1 Er1.
  assert (r1 = request) as -> by (cbn in Er1, Er; congruence).
  apply wp_bind. apply wp_run. intros s4 r4. rewrite updateMany_run. intros [= <- <-]. apply wp_ret.
  apply (market_same (matched offer request d)); [|apply market_matched; assumption].
  split; unfold matched; cbn; rewrite ?Q1, ?Q2; reflexivity.
Qed.

Ltac fair_step :=
  lazymatch goal with
  | |- preserves _ (match ?x with _ => _ end) => destruct x
  | |- preserves _ (_ ≫= _) => apply preserves_bind; [|intros ?]
  | |- preserves _ (reserveRequestOffer _ _ _ _) => apply fair_reserve
  | |- preserves _ (attachOffer _ _) => apply fair_attach
  | |- preserves _ (confirmRequestBooking _) => apply fair_confirm
  | |- preserves _ (settleClaimedBooking _ _) => apply calm_fair, calm_settle
  | |- preserves _ (refundRideFullPayment _ _) => apply calm_fair, calm_refundRideFull
  | |- preserves _ (activateRideBooking _ _ _) => apply calm_fair, calm_activate
  | |- preserves _ (reserveSeatsForBooking _ _ _) => apply calm_fair, calm_reserveSeats
  | |- preserves _ (createBookingPayment _ _ _ _ _) => apply calm_fair, calm_createBookingPayment
  | |- preserves _ (markPaymentPaid _ _) => apply calm_fair, calm_markPaymentPaid
  | |- preserves _ (markBookingPaymentPaid _ _) => apply calm_fair, calm_markBookingPaymentPaid
  | |- preserves _ (releaseBookingSeats _ _) => apply calm_fair, calm_releaseBookingSeats
  | |- preserves _ (ensureRequestPayment _) => apply calm_fair, calm_ensureRequestPayment
  | |- preserves _ (transaction _) => apply preserves_transaction
  | |- preserves _ (attempt _) => apply preserves_attempt
  | |- preserves _ (try_catch _ _) => apply preserves_try_catch; [|intros ?]
  | |- preserves _ (when _ _) => apply preserves_when
  | |- preserves _ (update _ _ _) => apply calm_fair, calm_update; exact _
  | |- preserves _ (create _ _ _) => apply calm_fair, calm_create; exact _
  | |- preserves _ (updateManyId _ _ _ _) => apply calm_fair, calm_updateManyId; exact _
  | |- preserves _ (updateMany _ _ _) => apply calm_fair, calm_updateMany; exact _
  | |- _ => preserve_step
  end.

Lemma fair_apply intent : fair (applyStripePaymentSucceededToBooking intent).
Proof. unfold fair, applyStripePaymentSucceededToBooking, claimPaidBooking, rideOf. repeat fair_step. Qed.

Lemma fair_getBookingById a b : fair (getBookingById a b).
Proof. unfold fair, getBookingById, rideOf. repeat fair_step. Qed.

Section booking.
Context `{Codec}.
Variable routeSharesBetween : Ride.t -> SegmentPoint.t -> SegmentPoint.t -> option (num * num).

Lemma fair_plan a b c d e : fair (resolveBookingPlan routeSharesBetween a b c d e).
Proof. unfold fair, resolveBookingPlan, waypointsOf. cbv zeta. repeat fair_step. Qed.

Lemma fair_createRideBooking row : fair (createRideBooking row).
Proof. unfold fair, createRideBooking, checkActiveIndex. repeat fair_step. Qed.

Lemma fair_reentry a b : fair (resolvePendingBookingReentry a b).
Proof.
  unfold fair, resolvePendingBookingReentry, failBookingAndReleaseSeats, retrieveIntent, rideOf. cbv zeta.
  repeat first [lazymatch goal with |- preserves _ (applyStripePaymentSucceededToBooking _) => apply fair_apply end | fair_step].
Qed.

Lemma fair_createBooking a b c : fair (createBooking routeSharesBetween a b c).
Proof.
  assert (T : fair (resolveRideFeeTerms (CreateBookingInput.rideId b))).
  { apply calm_fair. unfold resolveRideFeeTerms, findSnapshot, resolveActiveFeeTerms, getActivePricingConfig, ensureDefaultPricingConfig. solve_calm. }
  unfold fair, createBooking, createBypassBooking, createStripeBooking, seedBypassBooking, seedStripeBooking, explainUnique,
    createBookingPaymentIntent, notifyRiderBookingState, createNotification, enqueueDeadlineCheck, reschedulePaymentExpiryCheck,
    enqueuePaymentExpiryCheck, cancelPaymentIntent. cbv zeta.
  repeat first [ lazymatch goal with
                 | |- preserves _ (resolveRideFeeTerms _) => exact T
                 | |- preserves _ (resolveBookingPlan _ _ _ _ _ _) => apply fair_plan
                 | |- preserves _ (createRideBooking _) => apply fair_createRideBooking
                 | |- preserves _ (resolvePendingBookingReentry _ _) => apply fair_reentry
                 | |- preserves _ (getBookingById _ _) => apply fair_getBookingById
                 end | fair_step ].
Qed.

Lemma fair_checkout a b : fair (checkoutOffer routeSharesBetween a b).
Proof.
  unfold fair, checkoutOffer, resumeCheckout, includeOffer, retrieveIntent, assertActiveUser.
  repeat first [ lazymatch goal with
                 | |- preserves _ (createBooking _ _ _ _) => apply fair_createBooking
                 | |- preserves _ (applyStripePaymentSucceededToBooking _) => apply fair_apply
                 | |- preserves _ (getBookingById _ _) => apply fair_getBookingById
                 | |- preserves _ (assertDriverCanPublish _ _) => apply calm_fair, calm_assertCanPublish
                 end | fair_step ].
Qed.
End booking.

(** *** Asking *)

Lemma calm_assertActiveUser id : calm (assertActiveUser id).
Proof. unfold assertActiveUser. solve_calm. Qed.

Lemma calm_feeTerms rideId : calm (resolveRideFeeTerms rideId).
Proof.
  unfold resolveRideFeeTerms, findSnapshot, resolveActiveFeeTerms, getActivePricingConfig, ensureDefaultPricingConfig. solve_calm.
Qed.

Lemma calm_collect {A B} (f : A -> Store.H B) l : (forall x, calm (f x)) -> calm (collect f l).
Proof.
  intros C. induction l as [|x l IH]; intros d0; cbn [collect]; [apply preserves_ret|].
  pose proof (C x d0). specialize (IH d0). repeat first [assumption | calm_step].
Qed.

Lemma calm_requestDetails id userId admin : calm (requestDetails id userId admin).
Proof.
  intros d0. unfold requestDetails, offerView.
  repeat first [apply calm_feeTerms | apply calm_collect; intros ? ? | calm_step].
Qed.

Lemma calm_listRequests userId q admin : calm (listRequests userId q admin).
Proof. unfold listRequests. solve_calm. Qed.

Lemma calm_notify userId : calm (notify userId).
Proof. unfold notify, createNotification. solve_calm. Qed.

Lemma fair_transaction {A} (m : Store.H A) :
  (forall s, on_db MarketInv s -> wp m (if_ok (fun s' _ => on_db MarketInv s')) s) -> fair (transaction m).
Proof.
  intros W. apply preserves_wp. intros s M. apply wp_transaction. apply (wp_mono _ _ _ _ (W s M)).
  intros s' [a|e] M'; [exact M' | exact M].
Qed.

Lemma fair_create_request id r : fair (create prisma.rideRequest id r).
Proof.
  apply preserves_create. intros d M E. cbn in E. apply (market_write d); [exact M | | intros k o Eo T; exists o; auto].
  intros k o Eo. destruct (market_offer d M k o Eo) as [I (x & Ex & F)]. split; [exact I|]. exists x. cbn.
  rewrite lookup_insert_ne by congruence. auto.
Qed.

Lemma fair_createRequest riderId input : fair (createRequest riderId input).
Proof.
  unfold fair, createRequest. repeat first [ apply calm_fair, calm_assertActiveUser | apply fair_create_request | fair_step ].
Qed.

(** *** Offering *)

(** A new offer of an open request. *)
Lemma market_new_offer d id o r : MarketInv d -> RideRequestOffer.id o = id -> RideRequestOffer.status o = "OPEN"%string ->
  Db.rideRequest d !! RideRequestOffer.requestId o = Some r -> RideRequest.status r = "OPEN"%string ->
  MarketInv (d <| Db.rideRequestOffer ::= <[id := o]> |>).
Proof.
  intros M Hi So Er Sr. apply (market_write d); [exact M | |].
  - intros k o'. cbn. intros [[<- <-]|[_ E]]%lookup_insert_Some; [|exact (market_offer d M k o' E)].
    split; [exact Hi|]. exists r. rewrite So, Sr. split; [exact Er | reflexivity].
  - intros k o'. cbn. intros [[<- <-]|[_ E]]%lookup_insert_Some T; [|exists o'; auto].
    unfold taken in T. rewrite So in T. vm_compute in T. discriminate T.
Qed.

Lemma wp_calm {A} (m : Store.H A) Q d0 s : calm m -> same_market d0 (St.db s) ->
  (forall s' a, same_market d0 (St.db s') -> wp (mret a) (if_ok Q) s') -> wp m (if_ok Q) s.
Proof.
  intros C S K. eapply (wp_preserves (on_db (same_market d0))); [apply C | exact S|].
  intros s' [a|e] S'; [exact (K s' a S') | exact I].
Qed.

(** What an offer writes besides itself. *)
Lemma calm_slot driverId date time duration : calm (assertDriverHasNoOverlappingRide driverId date time duration None).
Proof. unfold assertDriverHasNoOverlappingRide. solve_calm. Qed.

Lemma calm_createLeg rideId i : calm (createLeg rideId i).
Proof. unfold createLeg. solve_calm. Qed.

Lemma calm_snapshot rideId km price seats : calm (validateAndSnapshotPricing rideId km price seats).
Proof.
  unfold validateAndSnapshotPricing, getActivePricingConfig, createSnapshot, findSnapshot. solve_calm.
Qed.

Lemma fair_insertOffer requestId driverId request input route s : on_db MarketInv s ->
  wp (insertOffer requestId driverId request input route) (if_ok (fun s' _ => on_db MarketInv s')) s.
Proof.
  intros M. set (d0 := St.db s). assert (S : same_market d0 (St.db s)) by reflexivity.
  unfold insertOffer. apply wp_bind, wp_findUnique. intros current Ec.
  apply wp_bind, wp_throw_if; intros U; [exact I|]. destruct current as [r|]; [|discriminate U].
  apply orb_false_iff in U as [So%negb_false_iff%bool_decide_eq_true _].
  apply wp_bind, wp_get. apply wp_bind, wp_throw_if; intros _; [exact I|].
  apply wp_bind, (wp_calm _ _ d0); [apply calm_slot | exact S | intros s1 [] S1]. apply wp_ret.
  apply wp_bind, wp_run. intros s2 rid [= <- <-]. cbv beta iota.
  apply wp_bind, (wp_calm _ _ d0); [apply calm_create; exact _ | exact S1 | intros s2 ride S2]. apply wp_ret.
  apply wp_bind, (wp_calm _ _ d0); [apply calm_createLeg | exact S2 | intros s3 leg S3]. apply wp_ret.
  apply wp_bind, (wp_calm _ _ d0); [apply calm_snapshot | exact S3 | intros s4 [v pid] S4]. apply wp_ret.
  apply wp_bind, wp_throw_if; intros _; [exact I|].
  apply wp_bind, wp_run. intros s5 oid [= <- <-]. cbv beta iota. apply wp_create; [intros; exact I|]. intros _.
  apply (market_new_offer _ _ _ r (market_same _ _ S4 M)); [reflexivity.. | | exact So].
  destruct S4 as [Q _]. cbn [St.db]. rewrite Q. exact Ec.
Qed.

Lemma fair_createOffer requestId driverId input : fair (createOffer requestId driverId input).
Proof.
  unfold fair, createOffer, routeIsPublishable.
  repeat first [ apply calm_fair, calm_assertActiveUser | apply calm_fair, calm_assertCanPublish | apply calm_fair, calm_requestDetails
               | apply fair_transaction; intros s; apply fair_insertOffer | apply calm_fair, calm_notify | fair_step ].
Qed.

(** *** Closing *)

(** Open offers that leave the market. *)
Lemma market_leave d (p : RideRequestOffer.t -> bool) st :
  (forall q, fits st q = true) -> st <> "SELECTED"%string -> st <> "ACCEPTED"%string -> MarketInv d ->
  MarketInv (d <| Db.rideRequestOffer ::= fmap (fun o => if p o then o <| RideRequestOffer.status := st |> else o) |>).
Proof.
  intros F N1 N2 M. apply (market_write d); [exact M | |].
  - intros k o'. cbn. rewrite lookup_fmap_Some. intros (o & <- & E). destruct (market_offer d M k o E) as [I (r & Er & Fr)].
    destruct (p o); (split; [exact I|]); exists r; (split; [exact Er|]); [apply F | exact Fr].
  - intros k o'. cbn. rewrite lookup_fmap_Some. intros (o & <- & E) T. exists o. split; [exact E|].
    destruct (p o); [|auto]. unfold taken in T. apply bool_decide_eq_true in T. cbn in T. rewrite !elem_of_cons in T.
    destruct T as [T|[T|T]]; [contradiction.. | inversion T].
Qed.

(** A request is cancelled with its open offers. *)
Lemma fair_closeRequest id userId admin : fair (closeRequest id userId admin).
Proof.
  unfold closeRequest. apply fair_transaction. intros s M. apply wp_bind, wp_updateManyId.
  { intros _. apply wp_bind, wp_throw_if; intros E; [exact I | discriminate E]. }
  intros r Er P. apply andb_prop in P as [_ So%bool_decide_eq_true]. cbn in Er.
  apply wp_bind, wp_throw_if; intros _; [exact I|].
  apply wp_bind, wp_run. intros s1 n. rewrite updateMany_run. intros [= <- <-]. apply wp_ret. cbn [if_ok]. unfold on_db. cbn.
  apply (market_write (St.db s)); [exact M | |].
  - intros k o'. cbn. rewrite lookup_fmap_Some. intros (o & <- & E). destruct (market_offer _ M k o E) as [I (x & Ex & F)].
    destruct (decide (RideRequestOffer.requestId o = id)) as [Q|Q].
    + rewrite (bool_decide_eq_true_2 _ Q). rewrite Q, Er in Ex. injection Ex as <-. rewrite So in F. unfold isOpen. cbn [andb].
      case_bool_decide as O; (split; [exact I|]); eexists; cbn; rewrite Q, lookup_insert_eq; (split; [reflexivity|]); [reflexivity|].
      unfold fits in *. do 2 (destruct (decide (_ = _)); [discriminate F|]). destruct (decide (_ = _)); [contradiction | reflexivity].
    + rewrite (bool_decide_eq_false_2 _ Q). cbn [andb]. split; [exact I|]. exists x. cbn. rewrite lookup_insert_ne by congruence. auto.
  - intros k o'. cbn. rewrite lookup_fmap_Some. intros (o & <- & E) T. exists o. split; [exact E|].
    revert T. destruct (_ && _); [intros T; vm_compute in T; discriminate T | auto].
Qed.

(** An offer of a closed kind fits any request. *)
Lemma market_leave_one d k o o' : MarketInv d -> Db.rideRequestOffer d !! k = Some o -> RideRequestOffer.id o' = RideRequestOffer.id o ->
  RideRequestOffer.requestId o' = RideRequestOffer.requestId o -> (forall q, fits (RideRequestOffer.status o') q = true) ->
  taken o' = false -> MarketInv (d <| Db.rideRequestOffer ::= <[k := o']> |>).
Proof.
  intros M E Hi Hr F T. apply (market_one_offer d k o); [exact M | exact E | exact Hi | exact Hr | | rewrite T; discriminate].
  destruct (market_offer d M k o E) as [_ (r & Er & _)]. exists r. rewrite Hr. auto.
Qed.

Lemma fair_withdraw id driverId : fair (withdrawOffer id driverId).
Proof.
  unfold withdrawOffer. apply preserves_bind; [|intros; apply preserves_throw_if]. apply preserves_updateManyId. intros d o M E _.
  apply (market_leave_one d id o _ M E); reflexivity.
Qed.

(** *** The sweep *)

(** The offers of [d0] are still there, for the same requests. *)
Definition offers_stay (d0 d : Db.t) : Prop :=
  forall k o, Db.rideRequestOffer d0 !! k = Some o ->
    exists o', Db.rideRequestOffer d !! k = Some o' /\ RideRequestOffer.requestId o' = RideRequestOffer.requestId o.

Definition steady {A} (m : Store.H A) : Prop := forall d0, preserves (on_db (offers_stay d0)) m.

Lemma calm_steady {A} (m : Store.H A) : calm m -> steady m.
Proof. intros C d0 s S k o E. destruct (C (St.db s) s (conj eq_refl eq_refl)) as [_ Q]. rewrite Q. exact (S k o E). Qed.

Lemma steady_update id f : (forall o, RideRequestOffer.requestId (f o) = RideRequestOffer.requestId o) -> steady (update prisma.rideRequestOffer id f).
Proof.
  intros F d0. apply preserves_update. intros d x S E k o Eo. cbn. destruct (S k o Eo) as (o' & Eo' & R).
  destruct (decide (k = id)) as [->|N].
  - exists (f x). rewrite lookup_insert_eq. rewrite F. split; [reflexivity|]. cbn in E. congruence.
  - exists o'. rewrite lookup_insert_ne by congruence. auto.
Qed.

Lemma steady_updateMany p f : (forall o, RideRequestOffer.requestId (f o) = RideRequestOffer.requestId o) -> steady (updateMany prisma.rideRequestOffer p f).
Proof.
  intros F d0 s S k o Eo. rewrite updateMany_run. cbn. destruct (S k o Eo) as (o' & Eo' & R). rewrite lookup_fmap, Eo'.
  eexists. split; [reflexivity|]. destruct (p o'); [rewrite F|]; exact R.
Qed.

Lemma steady_request id f : steady (update prisma.rideRequest id f).
Proof. intros d0. apply preserves_update. intros d x S E. exact S. Qed.

Ltac steady_step :=
  lazymatch goal with
  | |- preserves _ (update prisma.rideRequestOffer _ _) => apply steady_update; reflexivity
  | |- preserves _ (updateMany prisma.rideRequestOffer _ _) => apply steady_updateMany; reflexivity
  | |- preserves _ (update prisma.rideRequest _ _) => apply steady_request
  | |- preserves _ (update _ _ _) => apply calm_steady, calm_update; exact _
  | |- preserves _ (updateManyId _ _ _ _) => apply calm_steady, calm_updateManyId; exact _
  | |- preserves _ (updateMany _ _ _) => apply calm_steady, calm_updateMany; exact _
  | |- preserves _ (ensureRequestPayment _) => apply calm_steady, calm_ensureRequestPayment
  | |- preserves _ (settleClaimedBooking _ _) => apply calm_steady, calm_settle
  | |- preserves _ (refundRideFullPayment _ _) => apply calm_steady, calm_refundRideFull
  | |- preserves _ (activateRideBooking _ _ _) => apply calm_steady, calm_activate
  | |- preserves _ (reserveSeatsForBooking _ _ _) => apply calm_steady, calm_reserveSeats
  | |- preserves _ (releaseBookingSeats _ _) => apply calm_steady, calm_releaseBookingSeats
  | |- preserves _ (markBookingPaymentPaid _ _) => apply calm_steady, calm_markBookingPaymentPaid
  | |- preserves _ (when _ _) => apply preserves_when
  | |- preserves _ (transaction _) => apply preserves_transaction
  | |- preserves _ (attempt _) => apply preserves_attempt
  | |- preserves _ (try_catch _ _) => apply preserves_try_catch; [|intros ?]
  | |- _ => preserve_step
  end.

Lemma steady_confirm bookingId : steady (confirmRequestBooking bookingId).
Proof. intros d0. unfold confirmRequestBooking, matchRequest, includeOffer. repeat steady_step. Qed.

Lemma steady_apply intent : steady (applyStripePaymentSucceededToBooking intent).
Proof.
  intros d0. unfold applyStripePaymentSucceededToBooking, claimPaidBooking, rideOf.
  repeat first [lazymatch goal with |- preserves _ (confirmRequestBooking _) => apply steady_confirm end | steady_step].
Qed.

(** The offer is one of [d0], for the same request. *)
Definition sweeps (d0 : Db.t) (x : Expired.t) : Prop :=
  Db.rideRequestOffer d0 !! RideRequestOffer.id (Expired.offer x) = Some (Expired.offer x).

Definition market_from (d0 d : Db.t) : Prop := MarketInv d /\ offers_stay d0 d.

Lemma from_both {A} (m : Store.H A) d0 : fair m -> steady m -> preserves (on_db (market_from d0)) m.
Proof. intros F S s [M O]. split; [exact (F s M) | exact (S d0 s O)]. Qed.

Lemma from_calm {A} (m : Store.H A) d0 : calm m -> preserves (on_db (market_from d0)) m.
Proof. intros C. apply from_both; [apply calm_fair, C | apply calm_steady, C]. Qed.

(** A request goes back to the market when its only selected offer has expired. *)
Lemma market_reopen d q r t : MarketInv d -> Db.rideRequest d !! q = Some r -> RideRequest.status r = "CHECKOUT_PENDING"%string ->
  (forall k o, Db.rideRequestOffer d !! k = Some o -> RideRequestOffer.requestId o = q -> taken o = false) ->
  MarketInv (d <| Db.rideRequest ::= <[q := r <| RideRequest.status := "OPEN"%string |> <| RideRequest.checkoutExpiresAt := t |>]> |>).
Proof.
  intros M Er Sr N. apply (market_request d q r); [exact M | exact Er|]. intros k o E Q F. specialize (N k o E Q).
  unfold taken in N. apply bool_decide_eq_false in N. rewrite !elem_of_cons in N. cbn. rewrite Sr in F. unfold fits in *.
  do 2 (destruct (decide (_ = _)); [exfalso; apply N; auto|]). destruct (decide (_ = _)); reflexivity.
Qed.

Lemma wp_release_offer d0 x s : sweeps d0 x -> market_from d0 (St.db s) ->
  wp (releaseCheckout x) (fun s' _ => market_from d0 (St.db s')) s.
Proof.
  intros E0 F. unfold sweeps in E0. unfold releaseCheckout. apply wp_bind.
  assert (C : calm (match Expired.booking x with Some (booking, ride) => cancelExpired (Expired.payment x) booking ride | None => mret true end)).
  { intros d. unfold cancelExpired. repeat first [apply calm_releaseBookingSeats | calm_step]. }
  eapply (wp_preserves (on_db (market_from d0))); [apply from_calm, C | exact F|].
  clear s F C. intros s [ok|e] F; [|exact F]. apply wp_when; intros _; [|exact F].
  destruct F as [M O]. destruct (O _ _ E0) as (o & Eo & Ro).
  apply wp_bind, wp_updateManyId; [intros _; split; [exact M | exact O]|]. intros o1 Eo1 So%bool_decide_eq_true. cbn in Eo1.
  assert (o1 = o) as -> by congruence. clear Eo1. cbn [Z.eqb negb]. apply wp_when; intros W; [clear W | discriminate W].
  set (id := RideRequestOffer.id (Expired.offer x)) in *. set (q := RideRequestOffer.requestId (Expired.offer x)) in *.
  set (o' := o <| RideRequestOffer.status := "EXPIRED"%string |>).
  assert (M1 : MarketInv (St.db s <| Db.rideRequestOffer ::= <[id := o']> |>)) by (apply (market_leave_one _ id o o' M Eo); reflexivity).
  assert (O1 : offers_stay d0 (St.db s <| Db.rideRequestOffer ::= <[id := o']> |>)).
  { intros k p Ek. cbn. destruct (decide (k = id)) as [->|N].
    - exists o'. rewrite lookup_insert_eq. split; [reflexivity|]. cbn. assert (p = Expired.offer x) as -> by congruence. exact Ro.
    - rewrite lookup_insert_ne by congruence. exact (O k p Ek). }
  apply wp_bind, wp_update; [intros _; split; [exact M1 | exact O1]|]. intros ride _.
  apply wp_bind, wp_updateManyId; [intros _; split; [refine (market_same _ _ _ M1); split; reflexivity | exact O1]|]. intros r Er Sr%bool_decide_eq_true. cbn in Er. apply wp_ret.
  split; [|exact O1]. eapply market_same; [|apply (market_reopen _ q r None M1 Er Sr)]; [split; reflexivity|].
  assert (To : taken o = true) by (unfold taken; rewrite So; reflexivity).
  intros k p. cbn. intros [[<- <-]|[N E]]%lookup_insert_Some Q; [reflexivity|].
  destruct (taken p) eqn:Tp; [|reflexivity]. exfalso. apply N.
  apply (market_once (St.db s) M id k o p); [exact Eo | exact E | congruence | exact To | exact Tp].
Qed.

Lemma from_settleIntent d0 x : preserves (on_db (market_from d0)) (settleIntent x).
Proof.
  apply from_both.
  - unfold fair, settleIntent, retrieveIntent, cancelPaymentIntent.
    repeat first [lazymatch goal with |- preserves _ (applyStripePaymentSucceededToBooking _) => apply fair_apply end | fair_step].
  - intros d. unfold settleIntent, retrieveIntent, cancelPaymentIntent.
    repeat first [lazymatch goal with |- preserves _ (applyStripePaymentSucceededToBooking _) => apply steady_apply end | steady_step].
Qed.

Lemma from_each d0 l : Forall (sweeps d0) l -> preserves (on_db (market_from d0)) (for_each l expireCheckout).
Proof.
  induction 1 as [|x l Sx _ IH]; cbn [for_each]; [apply preserves_ret|].
  apply preserves_bind; [|intros _; exact IH]. unfold expireCheckout. apply preserves_attempt.
  apply preserves_bind; [apply from_settleIntent|]. intros b. apply preserves_when, preserves_transaction.
  apply preserves_wp. intros s F. exact (wp_release_offer d0 x s Sx F).
Qed.

Lemma market_requests_expire d (p : RideRequest.t -> bool) : (forall r, p r = true -> RideRequest.status r = "OPEN"%string) -> MarketInv d ->
  MarketInv (d <| Db.rideRequest ::= fmap (fun r => if p r then r <| RideRequest.status := "EXPIRED"%string |> else r) |>).
Proof.
  intros P M. apply (market_write d); [exact M | | intros k o E T; exists o; auto].
  intros k o E. destruct (market_offer d M k o E) as [I (r & Er & F)]. split; [exact I|]. eexists. cbn.
  rewrite lookup_fmap, Er. split; [reflexivity|]. destruct (p r) eqn:Pr; [|exact F].
  rewrite (P r Pr) in F. exact (proj2 (fits_open _ F)).
Qed.

Lemma fair_sweep : fair expireRequestCheckouts.
Proof.
  apply preserves_wp. intros s M. unfold on_db in M. unfold expireRequestCheckouts. apply wp_bind, wp_get. set (l := map _ _).
  assert (L : Forall (sweeps (St.db s)) l).
  { apply Forall_forall. intros x I. apply list_elem_of_In, in_map_iff in I as (o & <- & I).
    apply in_take, where_elem in I as [_ [k Ek]]. cbn in Ek. destruct (market_offer _ M k o Ek) as [<- _]. exact Ek. }
  apply wp_bind. eapply (wp_preserves (on_db (market_from (St.db s)))); [apply from_each, L | split; [exact M | intros k o E; eauto]|].
  intros s1 [u|e] [M1 _]; [|exact M1].
  apply wp_bind, wp_run. intros s2 n. rewrite updateMany_run. intros [= <- <-]. cbv beta iota.
  apply wp_bind, wp_run. intros s3 n2. rewrite updateMany_run. intros [= <- <-]. cbv beta iota. apply wp_ret.
  unfold on_db. cbn. eapply market_same; [|apply market_leave with (st := "EXPIRED"%string); [reflexivity | discriminate.. |]].
  2: { eapply market_requests_expire; [|exact M1]. intros r P. apply andb_prop in P as [P _]. exact (bool_decide_eq_true_1 _ P). }
  split; reflexivity.
Qed.
End fair.

(** ** Any sequence of calls *)

Notation Shares := (Ride.t -> SegmentPoint.t -> SegmentPoint.t -> option (num * num)).

Inductive MarketCall :=
| AskRide (riderId : string) (input : RequestInput.t)
| OfferRide (requestId driverId : string) (input : OfferInput.t)
| CloseRequest (id userId : string) (admin : bool)
| WithdrawOffer (id driverId : string)
| CheckoutOffer (offerId riderId : string)
| BookRide (passengerId : string) (input : CreateBookingInput.t) (offer : option string)
| PaymentSucceeded (intent : PaymentIntent.t)
| BrowseRequests (userId : string) (q : RequestQuery.t) (admin : bool)
| ShowRequest (id userId : string) (admin : bool)
| SweepRequests.

Definition runMarket `{Env} `{EligibilityEnv} `{Google} `{RequestMaps} `{Codec} (shares : Shares) (c : MarketCall) : H unit :=
  match c with
  | AskRide r i => createRequest r i;; mret tt
  | OfferRide q d i => createOffer q d i;; mret tt
  | CloseRequest i u a => closeRequest i u a
  | WithdrawOffer i d => withdrawOffer i d
  | CheckoutOffer o r => checkoutOffer shares o r;; mret tt
  | BookRide p i o => createBooking shares p i o;; mret tt
  | PaymentSucceeded i => applyStripePaymentSucceededToBooking i;; mret tt
  | BrowseRequests u q a => listRequests u q a;; mret tt
  | ShowRequest i u a => requestDetails i u a;; mret tt
  | SweepRequests => expireRequestCheckouts
  end.

Inductive market_step : St.t -> St.t -> Prop :=
| market_call (env : Env) (skips : EligibilityEnv) (google : Google) (maps : RequestMaps) (codec : Codec) (shares : Shares)
    (c : MarketCall) (s : St.t) : market_step s (runMarket shares c s).1.

Lemma market_step_keeps s s' : market_step s s' -> MarketInv (St.db s) -> MarketInv (St.db s').
Proof.
  destruct 1 as [env skips google maps codec shares c s]. intros M.
  destruct c; cbn [runMarket];
    try lazymatch goal with |- context [(_ ≫= _) _] => refine (preserves_bind (on_db MarketInv) _ _ _ (fun _ => preserves_ret _ _) s M) end.
  - apply fair_createRequest.
  - apply fair_createOffer.
  - apply fair_closeRequest, M.
  - apply fair_withdraw, M.
  - apply fair_checkout.
  - apply fair_createBooking.
  - apply fair_apply.
  - apply calm_fair, calm_listRequests.
  - apply calm_fair, calm_requestDetails.
  - apply fair_sweep, M.
Qed.

(** C35.  Whatever riders, drivers, the payment provider and the sweep do, at most one offer of
    a request is selected or accepted; a selected offer has its request in checkout, an
    accepted one has it matched, and a cancelled request has no open offer. *)
Theorem request_is_matched_once (s s' : St.t) : MarketInv (St.db s) -> rtc market_step s s' ->
  (forall k1 k2 o1 o2, Db.rideRequestOffer (St.db s') !! k1 = Some o1 -> Db.rideRequestOffer (St.db s') !! k2 = Some o2 ->
     RideRequestOffer.requestId o1 = RideRequestOffer.requestId o2 -> taken o1 = true -> taken o2 = true -> k1 = k2) /\
  (forall k o, Db.rideRequestOffer (St.db s') !! k = Some o ->
     exists r, Db.rideRequest (St.db s') !! RideRequestOffer.requestId o = Some r /\
       (RideRequestOffer.status o = "SELECTED"%string -> RideRequest.status r = "CHECKOUT_PENDING"%string) /\
       (RideRequestOffer.status o = "ACCEPTED"%string -> RideRequest.status r = "MATCHED"%string) /\
       (RideRequest.status r = "CANCELLED"%string -> RideRequestOffer.status o <> "OPEN"%string)).
Proof.
  intros M R. assert (M' : MarketInv (St.db s')).
  { induction R as [s|s s1 s' S _ IH]; [exact M|]. exact (IH (market_step_keeps _ _ S M)). }
  split; [exact (market_once _ M')|]. intros k o E. destruct (market_offer _ M' k o E) as [_ (r & Er & F)].
  exists r. split; [exact Er|]. unfold fits in F. repeat split; intros S.
  - rewrite S in F. exact (bool_decide_eq_true_1 _ F).
  - rewrite S in F. exact (bool_decide_eq_true_1 _ F).
  - intros O. rewrite O, S in F. discriminate F.
Qed.

(** ** What others see of a request *)

Section privacy.
Context `{Env}.

Lemma wp_collect {A B} (f : A -> H B) (P : A -> B -> Prop) l s :
  (forall x s, wp (f x) (if_ok (fun _ y => P x y)) s) -> wp (collect f l) (if_ok (fun _ ys => Forall2 P l ys)) s.
Proof.
  intros F. revert s. induction l as [|x l IH]; intros s; cbn [collect]; [constructor|].
  apply wp_bind. eapply wp_mono; [apply F|]. intros s1 [y|e] Py; [|exact I].
  apply wp_bind. eapply wp_mono; [apply IH|]. intros s2 [ys|e] Pys; [|exact I]. constructor; assumption.
Qed.

Lemma offerView_spec request o s :
  wp (offerView request o) (if_ok (fun _ v => RideRequestOffer.driverId (OfferView.offer v) = RideRequestOffer.driverId o)) s.
Proof.
  unfold offerView. apply wp_bind, wp_findUniqueOrThrow; [intros; exact I|]. intros ride _. apply wp_bind, wp_get.
  apply wp_bind, wp_run. intros s1 [terms|e] _; [|exact I]. reflexivity.
Qed.

(** A user who did not ask for the ride and is no admin sees a request only when it is
    open or they made it an offer, never across a block, and of its offers their own. *)
Theorem strangers_see_only_their_offers (id userId : string) (s s' : St.t) (v : RequestDetails.t) :
  requestDetails id userId false s = (s', Ok v) -> RequestDetails.isOwner v = false ->
  (forall o, In o (RequestDetails.offers v) -> RideRequestOffer.driverId (OfferView.offer o) = userId) /\
  exists r, Db.rideRequest (St.db s) !! id = Some r /\ RideRequest.riderId r <> userId /\
    blockBetween (St.db s) userId (RideRequest.riderId r) = false /\
    (RideRequest.status r = "OPEN"%string \/
     exists o, In o (offersOf (St.db s) id) /\ RideRequestOffer.driverId o = userId).
Proof.
  intros E.
  assert (W : wp (requestDetails id userId false) (if_ok (fun _ v => RequestDetails.isOwner v = false ->
    (forall o, In o (RequestDetails.offers v) -> RideRequestOffer.driverId (OfferView.offer o) = userId) /\
    exists r, Db.rideRequest (St.db s) !! id = Some r /\ RideRequest.riderId r <> userId /\
      blockBetween (St.db s) userId (RideRequest.riderId r) = false /\
      (RideRequest.status r = "OPEN"%string \/
       exists o, In o (offersOf (St.db s) id) /\ RideRequestOffer.driverId o = userId))) s).
  2: { unfold wp in W. rewrite E in W. exact W. }
  clear E s' v. unfold requestDetails. apply wp_bind, wp_findUnique. intros [r|] Er; [|exact I]. cbn in Er.
  apply wp_bind, wp_get. cbv zeta. apply wp_bind, wp_throw_if; intros G; [exact I|].
  set (own := List.filter _ _) in *.
  assert (Own : forall o, In o own -> In o (offersOf (St.db s) id) /\ RideRequestOffer.driverId o = userId).
  { intros o [Io D%bool_decide_eq_true]%filter_In. split; [|exact D]. exact (Permutation.Permutation_in _ (sort_by_perm _ _) Io). }
  apply wp_bind. eapply wp_mono; [apply wp_collect; intros o s1; apply (offerView_spec r o s1)|].
  intros s1 [views|e] F; [|exact I]. apply wp_ret. cbn [if_ok RequestDetails.isOwner RequestDetails.offers].
  intros N. rewrite N in *. apply bool_decide_eq_false in N. cbn [negb andb orb] in *.
  apply orb_false_iff in G as [B G]. split.
  - intros v Iv. apply list_elem_of_In, list_elem_of_lookup in Iv as [i Ei].
    destruct (Forall2_lookup_r _ _ _ _ _ F Ei) as (o & Eo & D). rewrite D. apply Own. eapply list_elem_of_In, list_elem_of_lookup; eauto.
  - exists r. repeat split; [exact Er | exact N | exact B|]. destruct (decide (RideRequest.status r = "OPEN"%string)) as [O|O]; [left; exact O | right].
    unfold isOpen in G. rewrite (bool_decide_eq_false_2 _ O) in G. cbn [negb andb] in G.
    apply bool_decide_eq_false in G. destruct own as [|o l]; [contradiction|]. exists o. apply Own. left. reflexivity.
Qed.
End privacy.

(** ** A market *)

Definition demo_offer (id driver ride status : string) : RideRequestOffer.t :=
  RideRequestOffer.defaults id 0 <| RideRequestOffer.requestId := "q"%string |> <| RideRequestOffer.driverId := driver |>
    <| RideRequestOffer.rideId := ride |> <| RideRequestOffer.status := status |> <| RideRequestOffer.expiresAt := 100000 |>.

Definition demo_market (status : string) (checkout : option Z) (first : string) : St.t :=
  St.Build_t (Db.empty
    <| Db.rideRequest := {["q"%string := RideRequest.defaults "q" 0 <| RideRequest.riderId := "r"%string |>
         <| RideRequest.status := status |> <| RideRequest.expiresAt := 100000 |> <| RideRequest.checkoutExpiresAt := checkout |>]} |>
    <| Db.rideRequestOffer := {["o1"%string := demo_offer "o1" "d1" "r1" first; "o2"%string := demo_offer "o2" "d2" "r2" "OPEN"]} |>
    <| Db.ride := {["r1"%string := Ride.defaults "r1" 0; "r2"%string := Ride.defaults "r2" 0]} |>) [] 0.

Definition demo_checkout : St.t := demo_market "CHECKOUT_PENDING" (Some 500) "SELECTED".

Lemma demo_checkout_inv : MarketInv (St.db demo_checkout).
Proof.
  split; cbn.
  - intros k o [[<- <-]|[_ [<- <-]%lookup_singleton_Some]]%lookup_insert_Some;
      (split; [reflexivity|]; eexists; split; reflexivity).
  - intros k1 k2 o1 o2 [[<- <-]|[_ [<- <-]%lookup_singleton_Some]]%lookup_insert_Some
      [[<- <-]|[_ [<- <-]%lookup_singleton_Some]]%lookup_insert_Some _ T1 T2; try reflexivity; vm_compute in T1, T2; discriminate.
Qed.

(** The driver of the other offer withdraws; the checkout is not paid and is released. *)
Definition demo_market_env : Env := demo_env 1000 no_failure.
#[local] Instance demo_request_maps : RequestMaps := {| placeAddress := fun _ => None; multiRoute := fun _ _ => None |}.
Definition demo_withdrawn : St.t :=
  (@runMarket demo_market_env demo_eligibility demo_google _ demo_codec (fun _ _ _ => None) (WithdrawOffer "o2" "d2") demo_checkout).1.
Definition demo_released : St.t :=
  (@runMarket demo_market_env demo_eligibility demo_google _ demo_codec (fun _ _ _ => None) SweepRequests demo_withdrawn).1.

Lemma request_is_matched_once_witness :
  (RideRequestOffer.status <$> Db.rideRequestOffer (St.db demo_released)) = {["o1" := "EXPIRED"; "o2" := "WITHDRAWN"]}%string /\
  forall k o, Db.rideRequestOffer (St.db demo_released) !! k = Some o ->
     exists r, Db.rideRequest (St.db demo_released) !! RideRequestOffer.requestId o = Some r /\
       (RideRequestOffer.status o = "SELECTED"%string -> RideRequest.status r = "CHECKOUT_PENDING"%string) /\
       (RideRequestOffer.status o = "ACCEPTED"%string -> RideRequest.status r = "MATCHED"%string) /\
       (RideRequest.status r = "CANCELLED"%string -> RideRequestOffer.status o <> "OPEN"%string).
Proof.
  split; [vm_compute; reflexivity|].
  refine (proj2 (request_is_matched_once demo_checkout demo_released demo_checkout_inv _)).
  refine (rtc_l _ _ demo_withdrawn _ _ (rtc_once _ _ _)); apply market_call.
Defined.

(** One of two drivers looks at a request in checkout. *)
Definition demo_stranger : St.t * Res RequestDetails.t := @requestDetails demo_market_env "q" "d2" false demo_checkout.

Lemma strangers_see_only_their_offers_witness : exists v,
  demo_stranger = (demo_stranger.1, Ok v) /\ length (RequestDetails.offers v) = 1%nat /\
  forall o, In o (RequestDetails.offers v) -> RideRequestOffer.driverId (OfferView.offer o) = "d2"%string.
Proof.
  assert (E : exists v, demo_stranger = (demo_stranger.1, Ok v)).
  { assert (E : match demo_stranger.2 with Ok _ => true | Err _ => false end = true) by (vm_compute; reflexivity).
    destruct demo_stranger as [s [v|e]]; [exists v; reflexivity | discriminate E]. }
  destruct E as [v E]. exists v.
  assert (F : (RequestDetails.isOwner v, length (RequestDetails.offers v)) =
    match demo_stranger.2 with Ok w => (RequestDetails.isOwner w, length (RequestDetails.offers w)) | Err _ => (true, 0%nat) end) by (rewrite E; reflexivity).
  vm_compute in F. injection F as F1 F2. split; [exact E|]. split; [exact F2|].
  exact (proj1 (@strangers_see_only_their_offers demo_market_env "q" "d2" demo_checkout _ v E F1)).
Defined.
