(* ===== verification/JobSafe.v ===== *)
(** * Scheduled jobs are safe

    The jobs of [Maintenance.v] keep the invariant of [Invariant.v]: the check of
    overdue rides cancels bookings together with their seats, the sweep closes unpaid
    bookings, and reconciliation, payouts and outbox leave bookings alone. *)

From Stdlib Require Import ZArith Lia.
From stdpp Require Import base list option strings gmap relations pretty.
From S2P Require Import Prelude JsNumber JsText Money Schema Store Seats Payments Payout Time Gateway Rewards.
From S2P Require Import RideRequest Booking DriverBooking RideOps Disputes Reconciliation Admin Deadlines Maintenance.
From S2P Require Import Invariant Safe RideSafe MarketSafe.

Open Scope Z_scope.

#[global] Instance aside_payoutBatch : Aside prisma.payoutBatch.
Proof. repeat split. Qed.
#[global] Instance aside_payoutItem : Aside prisma.payoutItem.
Proof. repeat split. Qed.

(** ** Closing the bookings of a ride *)

(** The ride [rideId] of [d] has the status [terminal] in [d'], its bookings [ids] are
    cancelled, and all but [rest] have given their seats back and note the refund due;
    nothing else has changed. *)
Record closing `{Mode} (rideId : string) (terminal : RideStatus.t) (ids rest : list string) (d d' : Db.t) : Prop := {
  closing_seats : SeatInv d';
  closing_rides : forall k r, Db.ride d !! k = Some r -> exists r', Db.ride d' !! k = Some r' /\ same_ride r r' /\
    if decide (k = rideId) then Ride.status r' = terminal else r' = r;
  closing_rows : forall k b', Db.rideBooking d' !! k = Some b' -> exists b, Db.rideBooking d !! k = Some b /\
    if decide (k ∈ ids) then
      same_seats b b' /\ RideBooking.passengerId b' = RideBooking.passengerId b /\
      RideBooking.status b' = BookingStatus.CANCELLED /\ RideBooking.refundPercent b' = Some (num_of_Z 100) /\
      RideBooking.stripePaymentIntentId b' = RideBooking.stripePaymentIntentId b /\
      (k ∉ rest -> RideBooking.seatsReservedAt b' = None /\ RideBooking.refundAmount b' = Some (paidAmount b))
    else b' = b;
  closing_kept : forall k b, Db.rideBooking d !! k = Some b -> is_Some (Db.rideBooking d' !! k);
}.

(** The row of a ride that was read before: it may only have been promoted. *)
Definition fresh (r0 r : Ride.t) : Prop :=
  same_ride r0 r /\ Ride.actualStartTime r = Ride.actualStartTime r0 /\
  (Ride.status r0 ∈ UNSTARTED_RIDE_STATUSES -> Ride.status r ∈ UNSTARTED_RIDE_STATUSES).

(** What [checkOverdueRide] was given still describes the rows. *)
Definition current (d : Db.t) (ride : OverdueRide) : Prop :=
  (exists r, Db.ride d !! Ride.id ride.1 = Some r /\ fresh ride.1 r) /\
  (forall b, In b ride.2 -> Db.rideBooking d !! RideBooking.id b = Some b /\ RideBooking.rideId b = Ride.id ride.1).

Lemma current_core d d' ride : same_core d d' -> current d ride -> current d' ride.
Proof. intros (E1 & E2 & _) [R B]. unfold current. rewrite E1, E2. auto. Qed.

Section close.
Context `{Env} `{Mode}.

Lemma closing_release terminal ids rest (d : Db.t) (ride : Ride.t) (b : RideBooking.t) (s : St.t) Q :
  closing (Ride.id ride) terminal ids (RideBooking.id b :: rest) d (St.db s) -> RideBooking.id b ∈ ids ->
  Db.rideBooking d !! RideBooking.id b = Some b -> RideBooking.rideId b = Ride.id ride ->
  (exists r, Db.ride d !! Ride.id ride = Some r /\ same_ride ride r) ->
  (forall s', closing (Ride.id ride) terminal ids rest d (St.db s') -> Q s' (Ok tt)) ->
  wp (releaseOverdue ride b) Q s.
Proof.
  intros C In E Er (r0 & Er0 & SR0) HQ. unfold releaseOverdue.
  destruct (closing_kept _ _ _ _ _ _ C _ b E) as [b' E'].
  destruct (closing_rows _ _ _ _ _ _ C _ b' E') as (b0 & Eb0 & R). rewrite E in Eb0. injection Eb0 as <-.
  rewrite decide_True in R by exact In. destruct R as (S & P & T & RP & SI & _).
  destruct (closing_rides _ _ _ _ _ _ C _ r0 Er0) as (r & Er' & SR & _). pose proof SR as (_ & SR2 & _). pose proof SR0 as (_ & SR02 & _).
  wp_query. wp_query; [cbn in *; congruence|]. assert (r1 = b') as -> by (cbn in *; congruence). clear E0.
  set (b1 := b' <| RideBooking.refundAmount := Some (paidAmount b) |>).
  set (s1 := s <| St.db ::= _ |>).
  assert (S1 : same_seats b b1) by exact S.
  assert (I1 : SeatInv (St.db s1)).
  { apply (SeatInv_booking _ _ b' b1); [apply C | exact E' | repeat split | reflexivity]. }
  assert (Ei : {| ReleaseSeatsInput.rideId := Ride.id ride; ReleaseSeatsInput.seatsBooked := RideBooking.seatsBooked b;
       ReleaseSeatsInput.pickupPosition := RideBooking.pickupPosition b;
       ReleaseSeatsInput.dropoffPosition := RideBooking.dropoffPosition b;
       ReleaseSeatsInput.totalSeats := Ride.totalSeats ride |} = seats_input b1 (Ride.totalSeats r)).
  { destruct S1 as (_ & A2 & A3 & A4 & A5). unfold seats_input. rewrite A2, A3, A4, A5, Er. f_equal. congruence. }
  rewrite Ei. wp_query. apply wp_run. intros s2 x.
  assert (E1 : Db.rideBooking (St.db s1) !! RideBooking.id b = Some b1) by apply lookup_insert_eq.
  assert (Rid : RideBooking.rideId b1 = Ride.id ride) by (destruct S1 as (_ & -> & _); exact Er).
  assert (Er1 : Db.ride (St.db s1) !! ReleaseSeatsInput.rideId (seats_input b1 (Ride.totalSeats r)) = Some r).
  { change (Db.ride (St.db s1) !! RideBooking.rideId b1 = Some r). rewrite Rid. exact Er'. }
  rewrite (releaseBookingSeats_run _ _ s1 b1 r E1 Er1).
  (* Both ways the row ends without seats and the others are as before. *)
  assert (Fin : forall d2, SeatInv d2 -> Db.rideBooking d2 = <[RideBooking.id b := cleared b1]> (Db.rideBooking (St.db s)) ->
     (forall k x, Db.ride (St.db s) !! k = Some x -> exists x', Db.ride d2 !! k = Some x' /\ same_ride x x' /\
        Ride.status x' = Ride.status x /\ (k <> Ride.id ride -> x' = x)) ->
     closing (Ride.id ride) terminal ids rest d d2).
  { intros d2 I2 B2 R2. split; [exact I2 | | |].
    - intros k x0 Ek. destruct (closing_rides _ _ _ _ _ _ C k x0 Ek) as (x1 & Ek1 & SR1 & W1).
      destruct (R2 k x1 Ek1) as (x2 & Ek2 & SR2' & T2 & W2). exists x2. split; [exact Ek2|].
      split; [etrans; eassumption|]. destruct (decide (k = Ride.id ride)); [congruence|]. rewrite W2; assumption.
    - intros k y. rewrite B2, lookup_insert_Some. intros [[<- <-]|[Ne Ek]].
      + exists b. split; [exact E|]. rewrite decide_True by exact In. repeat split; try assumption; apply S1.
      + destruct (closing_rows _ _ _ _ _ _ C k y Ek) as (y0 & Ey0 & Ry). exists y0. split; [exact Ey0|].
        destruct (decide (k ∈ ids)); [|exact Ry]. destruct Ry as (A1 & A2 & A3 & A4 & A5 & A6).
        repeat (split; [assumption|]). intros N. apply A6. intros X. apply list_elem_of_In in X as [X|X]; [congruence|].
        apply N. apply list_elem_of_In. exact X.
    - intros k y Ek. rewrite B2. destruct (decide (k = RideBooking.id b)) as [->|Ne].
      + rewrite lookup_insert_eq. eauto.
      + rewrite lookup_insert_ne by congruence. exact (closing_kept _ _ _ _ _ _ C k y Ek). }
  destruct (RideBooking.seatsReservedAt b1) as [t|] eqn:Hs; intros [= <- <-]; wp_query; apply HQ, Fin.
  - apply (SeatInv_give (St.db s1) _ (RideBooking.id b) b1 (cleared b1) r I1 E1).
    + rewrite Hs. eauto.
    + repeat split.
    + reflexivity.
    + rewrite Rid. exact Er'.
    + reflexivity.
  - cbn. apply insert_insert_eq.
  - intros k x Ek. pose proof Rid as Rid'. cbn in Rid'. cbn. unfold put_available, on_range. cbn. rewrite Rid'.
    destruct (decide (k = Ride.id ride)) as [->|Ne].
    + rewrite lookup_insert_eq. assert (x = r) as -> by congruence. eexists. split; [reflexivity|]. repeat split. congruence.
    + rewrite lookup_insert_ne by congruence. exists x. repeat split. exact Ek.
  - exact I1.
  - rewrite (cleared_id b1 Hs). reflexivity.
  - intros k x Ek. exists x. repeat split. exact Ek.
Qed.

Lemma closing_loop terminal ids l (d : Db.t) (ride : Ride.t) (s : St.t) Q :
  closing (Ride.id ride) terminal ids (map RideBooking.id l) d (St.db s) ->
  (forall b, In b l -> RideBooking.id b ∈ ids /\ Db.rideBooking d !! RideBooking.id b = Some b /\
                       RideBooking.rideId b = Ride.id ride) ->
  (exists r, Db.ride d !! Ride.id ride = Some r /\ same_ride ride r) ->
  (forall s', closing (Ride.id ride) terminal ids [] d (St.db s') -> Q s' (Ok tt)) ->
  wp (for_each l (releaseOverdue ride)) Q s.
Proof.
  revert s. induction l as [|b l IH]; intros s C L R HQ; cbn [for_each]; [wp_query; apply HQ, C|].
  destruct (L b (or_introl eq_refl)) as (A1 & A2 & A3). wp_query.
  apply (closing_release terminal ids (map RideBooking.id l) d); try assumption. intros s' C'.
  apply IH; [exact C' | intros x Hx; apply L; right; exact Hx | exact R | exact HQ].
Qed.
End close.

(** ** The check of overdue rides *)

(** The invariant is kept; other rides and their bookings are untouched. *)
Record only_ride `{Mode} (rideId : string) (d d' : Db.t) : Prop := {
  only_life : Life d d';
  only_bookings : forall k b, Db.rideBooking d !! k = Some b -> RideBooking.rideId b <> rideId ->
    Db.rideBooking d' !! k = Some b;
  only_rides : forall k r, Db.ride d !! k = Some r -> k <> rideId -> Db.ride d' !! k = Some r;
}.

Lemma only_ride_core `{Mode} rideId d d' : Good d -> same_core d d' -> only_ride rideId d d'.
Proof.
  intros G C. split; [apply (life_core d d d' C), life_refl, G | |]; intros k x E _; destruct C as (E1 & E2 & _); congruence.
Qed.

Lemma only_ride_trans `{Mode} rideId d1 d2 d3 : only_ride rideId d1 d2 -> only_ride rideId d2 d3 -> only_ride rideId d1 d3.
Proof.
  intros [L1 B1 R1] [L2 B2 R2]. split; [exact (life_trans _ _ _ L1 L2) | |]; intros k x E N; auto.
Qed.

Lemma active_moves `{Mode} st : st ∈ OVERDUE_BOOKING_STATUSES -> moves st BookingStatus.CANCELLED.
Proof. intros T. apply moves_table. revert T. rewrite !list_elem_of_In. destruct st; cbn; intuition discriminate. Qed.

Section check.
Context `{Env} `{Mode}.

(** Closing bookings is a change the invariant allows. *)
Lemma closing_life (bookings : list RideBooking.t) (rideId : string) terminal (d d' : Db.t) : Good d ->
  (forall b, In b bookings -> Db.rideBooking d !! RideBooking.id b = Some b /\ RideBooking.rideId b = rideId /\
     RideBooking.status b ∈ OVERDUE_BOOKING_STATUSES) ->
  closing rideId terminal (map RideBooking.id bookings) [] d d' -> only_ride rideId d d'.
Proof.
  intros G B C.
  assert (Row : forall k b, Db.rideBooking d !! k = Some b -> k ∈ map RideBooking.id bookings ->
     RideBooking.rideId b = rideId /\ RideBooking.status b ∈ OVERDUE_BOOKING_STATUSES).
  { intros k b E In. apply list_elem_of_In, in_map_iff in In as (b0 & <- & Hb). destruct (B b0 Hb) as (E0 & R & A).
    rewrite E in E0. injection E0 as ->. auto. }
  split.
  - apply life_close_many; [exact G | apply C | | apply C |].
    + intros k b' E'. destruct (closing_rows _ _ _ _ _ _ C k b' E') as (b & E & R). exists b. split; [exact E|].
      destruct (decide _) as [In|_]; [right | left; exact R]. destruct R as (S & P & T & _ & _ & N).
      split; [exact S|]. split; [exact P|]. rewrite T. split; [apply active_moves, (Row k b E In)|].
      split; [apply list_elem_of_In; cbn; auto|]. apply N. intros X. apply list_elem_of_In in X. exact X.
    + intros k r E. destruct (closing_rides _ _ _ _ _ _ C k r E) as (r' & E' & S & _). eauto.
  - intros k b E N. destruct (closing_kept _ _ _ _ _ _ C k b E) as [b' E'].
    destruct (closing_rows _ _ _ _ _ _ C k b' E') as (b0 & E0 & R). rewrite E in E0. injection E0 as <-.
    destruct (decide _) as [In|_]; [|congruence]. destruct (N (proj1 (Row k b E In))).
  - intros k r E N. destruct (closing_rides _ _ _ _ _ _ C k r E) as (r' & E' & _ & S).
    rewrite decide_False in S by exact N. congruence.
Qed.

(** The transaction: nothing, or the ride and its bookings closed together. *)
Lemma wp_closeTransaction (s : St.t) (ride : Ride.t) (bookings : list RideBooking.t) terminal Q : Good (St.db s) ->
  (exists r, Db.ride (St.db s) !! Ride.id ride = Some r /\ fresh ride r) ->
  (forall b, In b bookings -> Db.rideBooking (St.db s) !! RideBooking.id b = Some b /\
     RideBooking.rideId b = Ride.id ride) ->
  ((Ride.status ride ∈ UNSTARTED_RIDE_STATUSES -> Ride.actualStartTime ride = None -> False) -> Q s (Ok false)) ->
  (forall s', closing (Ride.id ride) terminal (map RideBooking.id bookings) [] (St.db s) (St.db s') -> Q s' (Ok true)) ->
  wp (closeTransaction ride bookings terminal) Q s.
Proof.
  intros G (r & Er & SR) B Q0 Q1. unfold closeTransaction. wp_query. wp_query.
  { change (0 =? 0) with true. cbv beta iota. wp_query. apply Q0. intros U N. destruct SR as (_ & N' & U').
    specialize (E r Er). rewrite !bool_decide_eq_true_2 in E by (congruence || auto). discriminate. }
  cbn in E. assert (r0 = r) as -> by congruence. change (1 =? 0) with false. cbv beta iota.
  set (r1 := r <| Ride.status := terminal |>). set (s1 := s <| St.db ::= _ |>).
  pose proof (life_ride (St.db s) (Ride.id ride) r r1 G Er ltac:(repeat split) eq_refl) as [G1 X1].
  change (St.db s <| Db.ride ::= <[Ride.id ride := r1]> |>) with (St.db s1) in G1, X1.
  assert (Rides : forall k x, Db.ride (St.db s) !! k = Some x -> exists x', Db.ride (St.db s1) !! k = Some x' /\
    same_ride x x' /\ if decide (k = Ride.id ride) then Ride.status x' = terminal else x' = x).
  { intros k x Ek. change (Db.ride (St.db s1)) with (<[Ride.id ride := r1]> (Db.ride (St.db s))).
    destruct (decide (k = Ride.id ride)) as [->|Ne].
    - exists r1. rewrite lookup_insert_eq. assert (x = r) as -> by congruence. repeat split.
    - exists x. rewrite lookup_insert_ne by congruence. repeat split. exact Ek. }
  destruct (bool_decide (bookings = [])) eqn:Nil.
  { apply bool_decide_eq_true in Nil. subst bookings. wp_query. apply Q1. split; [apply G1 | exact Rides | |].
    - intros k b' E'. exists b'. split; [exact E'|]. cbn [map]. rewrite decide_False; [reflexivity|].
      intros X. apply list_elem_of_In in X. exact X.
    - intros k b E'. exists b. exact E'. }
  wp_query. apply wp_run. intros s2 x. rewrite updateMany_run. intros [= <- <-].
  set (g := fun b => if bool_decide (RideBooking.id b ∈ map RideBooking.id bookings) then overdueCancelled b else b).
  set (s2 := s1 <| St.db ::= _ |>). wp_query.
  apply (closing_loop terminal (map RideBooking.id bookings) bookings (St.db s) ride).
  - split.
    + apply (SeatInv_all (St.db s1) g); [apply G1|]. intros b. unfold g.
      destruct (bool_decide (RideBooking.id b ∈ _)); repeat split.
    + exact Rides.
    + intros k b'. change (Db.rideBooking (St.db s2)) with (g <$> Db.rideBooking (St.db s)). rewrite lookup_fmap.
      destruct (Db.rideBooking (St.db s) !! k) as [b|] eqn:Ek; [|discriminate]. intros [= <-]. exists b. split; [reflexivity|].
      destruct (inv_booking_id _ (good_seats _ G) k b Ek) as [Eid _]. unfold g. rewrite Eid.
      destruct (decide (k ∈ map RideBooking.id bookings)) as [In|Ni].
      * rewrite bool_decide_eq_true_2 by exact In. split; [repeat split|]. do 4 (split; [reflexivity|]). intros X. contradiction.
      * rewrite bool_decide_eq_false_2 by exact Ni. reflexivity.
    + intros k b Ek. change (Db.rideBooking (St.db s2)) with (g <$> Db.rideBooking (St.db s)). rewrite lookup_fmap, Ek. eauto.
  - intros b Hb. split; [apply list_elem_of_In, in_map, Hb | apply B, Hb].
  - exists r. split; [exact Er | apply SR].
  - intros s' C. wp_query. apply Q1, C.
Qed.

Lemma quiet_notifyStakeholders a b c : quiet (notifyRideStakeholders a b c).
Proof.
  unfold notifyRideStakeholders, createNotification. intros d0. apply preserves_bind; [apply preserves_perform|]. intros _.
  apply preserves_promise_all. intros m Hm. apply in_map_iff in Hm as (x & <- & _). apply preserves_perform.
Qed.

Lemma quiet_createRideIssue a b c d e : quiet (createRideIssue a b c d e).
Proof. unfold createRideIssue. solve_quiet. Qed.

Lemma quiet_alertCompletion a b c : quiet (alertCompletion a b c).
Proof.
  destruct a as [r bs]. intros d0. unfold alertCompletion, hasOpenRideIssue.
  repeat first [apply quiet_notifyStakeholders | apply quiet_createRideIssue | quiet_step].
Qed.

(** The status a ride that is closed gets. *)
Definition terminalOf (bookings : list RideBooking.t) : RideStatus.t :=
  if (0 <? length (activeOf bookings))%nat then RideStatus.CANCELLED else RideStatus.EXPIRED.

(** Closing a ride, whatever the notices answer. *)
Lemma wp_closeOverdue (s : St.t) (ride : OverdueRide) departureAt Q : Good (St.db s) -> current (St.db s) ride ->
  (forall s' x, only_ride (Ride.id ride.1) (St.db s) (St.db s') ->
     (forall c, x = Ok c -> (Ride.status ride.1 ∈ UNSTARTED_RIDE_STATUSES -> Ride.actualStartTime ride.1 = None -> False) \/
        exists d, closing (Ride.id ride.1) (terminalOf ride.2) (map RideBooking.id (activeOf ride.2)) [] (St.db s) d /\
                  same_core d (St.db s')) -> Q s' x) ->
  wp (closeOverdueUnstartedRide ride departureAt) Q s.
Proof.
  destruct ride as [ride bookings]. intros G [R B] HQ. cbn in R, B. unfold closeOverdueUnstartedRide. cbv zeta.
  assert (BA : forall b, In b (activeOf bookings) -> Db.rideBooking (St.db s) !! RideBooking.id b = Some b /\
     RideBooking.rideId b = Ride.id ride /\ RideBooking.status b ∈ OVERDUE_BOOKING_STATUSES).
  { intros b Hb. apply filter_In in Hb as [Hb A]. apply bool_decide_eq_true in A. destruct (B b Hb). auto. }
  wp_query. wp_query. apply wp_closeTransaction; [exact G | exact R | intros b Hb; destruct (BA b Hb) as (?&?&_); auto | |].
  - intros N. cbn [negb]. wp_query. apply HQ; [apply only_ride_core; [exact G | repeat split]|]. auto.
  - intros s1 C. cbn [negb]. pose proof (closing_life _ _ _ _ _ G BA C) as O. cbn [fst snd] in HQ.
    match goal with |- wp ?m _ _ => assert (Qu : quiet m) end.
    { intros d0. unfold createNotification.
      repeat first [apply quiet_notifyStakeholders | apply quiet_createRideIssue | quiet_step]. }
    apply wp_quiet; [exact Qu|]. intros s' x Co. apply HQ.
    + apply (only_ride_trans _ _ _ _ O). apply only_ride_core; [apply O | exact Co].
    + intros c _. right. exists (St.db s1). auto.
Qed.

Lemma wp_promote (s : St.t) (ride : OverdueRide) departureAt Q : Good (St.db s) ->
  (forall s' x, only_ride (Ride.id ride.1) (St.db s) (St.db s') -> Db.rideBooking (St.db s') = Db.rideBooking (St.db s) ->
     (current (St.db s) ride -> current (St.db s') ride) -> Q s' x) -> wp (promoteRide ride departureAt) Q s.
Proof.
  destruct ride as [ride bookings]. cbn [fst]. intros G HQ. unfold promoteRide. wp_query.
  assert (Qu : forall n, quiet ((fun _ : Z =>
    notifyRideStakeholders (Ride.driverId ride) (activeOf bookings) "ride.overdue.ready_to_start";;
    existingIssue ← hasOpenRideIssue "OVERDUE_RIDE_START" (Ride.id ride);
    match existingIssue with
    | Some _ => mret tt
    | None =>
        createRideIssue "OVERDUE_RIDE_START" "MEDIUM"
          ("Ride " +:+ Ride.id ride +:+ " passed scheduled departure and is waiting for manual start.")
          (rideStatus_text (Ride.status ride))
          [("rideId", JString (Ride.id ride)); ("departureAt", JString (toISOString departureAt));
           ("routeDurationSeconds", JString (from_option pretty EmptyString (Ride.routeDurationSeconds ride)))]%string
    end) n)).
  { intros n d0. unfold hasOpenRideIssue.
    repeat first [apply quiet_notifyStakeholders | apply quiet_createRideIssue | quiet_step]. }
  wp_query.
  - apply wp_quiet; [apply (Qu 0)|]. intros s' x C. apply HQ; [apply only_ride_core; assumption | apply C|].
    intros Cu. exact (current_core _ _ _ C Cu).
  - apply wp_quiet; [apply (Qu 0)|]. intros s' x C.
    pose proof (life_ride (St.db s) (Ride.id ride) r (r <| Ride.status := RideStatus.READY_TO_START |>) G E
      ltac:(repeat split) eq_refl) as L. apply HQ; [| apply C |].
    + refine (only_ride_trans _ _ _ _ _ (only_ride_core _ _ _ (proj1 L) C)). split; [exact L | auto |].
      intros k y Ey N. cbn. rewrite lookup_insert_ne by congruence. exact Ey.
    + intros [(y & Ey & F1 & F2 & F3) Bk]. apply (current_core _ _ _ C). split; [|exact Bk].
      assert (y = r) as -> by (cbn in *; congruence). eexists. split; [cbn; apply lookup_insert_eq|].
      repeat split; cbn; try apply F1; try apply F2. intros _. apply list_elem_of_In. cbn. auto.
Qed.
End check.

Section jobs.
Context `{Env} `{Mode}.

Lemma current_only (d d' : Db.t) (rideId : string) (ride : OverdueRide) : only_ride rideId d d' ->
  Ride.id ride.1 <> rideId -> current d ride -> current d' ride.
Proof.
  intros [_ Bk Rk] N [(r & Er & F) B]. split.
  - exists r. split; [exact (Rk _ r Er N) | exact F].
  - intros b Hb. destruct (B b Hb) as [E R]. split; [|exact R]. apply (Bk _ b E). rewrite R. exact N.
Qed.

(** The ride should be closed by now. *)
Definition due (ride : OverdueRide) : Prop := exists departureAt,
  combineDepartureDateTimeUtc (Ride.departureDate ride.1) (Ride.departureTime ride.1) = Ok departureAt /\
  departureAt + RIDE_OVERDUE_CANCEL_AFTER_MINUTES * 60 * 1000 <= now /\
  Ride.status ride.1 ∈ UNSTARTED_RIDE_STATUSES /\ Ride.actualStartTime ride.1 = None.

(** The ride and its active bookings are closed. *)
Definition closedDown (ride : OverdueRide) (d : Db.t) : Prop :=
  (exists r, Db.ride d !! Ride.id ride.1 = Some r /\ Ride.status r = terminalOf ride.2) /\
  forall b, In b (activeOf ride.2) -> exists b', Db.rideBooking d !! RideBooking.id b = Some b' /\
    RideBooking.rideId b' = Ride.id ride.1 /\ RideBooking.status b' = BookingStatus.CANCELLED /\
    RideBooking.stripePaymentIntentId b' = RideBooking.stripePaymentIntentId b /\
    RideBooking.seatsReservedAt b' = None /\ RideBooking.refundPercent b' = Some (num_of_Z 100) /\
    RideBooking.refundAmount b' = Some (paidAmount b).

Lemma closedDown_only (d d' : Db.t) (rideId : string) (ride : OverdueRide) : only_ride rideId d d' ->
  Ride.id ride.1 <> rideId -> closedDown ride d -> closedDown ride d'.
Proof.
  intros [_ Bk Rk] N [(r & Er & T) B]. split; [exists r; split; [exact (Rk _ r Er N) | exact T]|].
  intros b Hb. destruct (B b Hb) as (b' & E & R & Rest). exists b'. split; [|auto]. apply (Bk _ b' E). congruence.
Qed.

Lemma closing_closedDown (d d1 d2 : Db.t) (ride : OverdueRide) : current d ride ->
  closing (Ride.id ride.1) (terminalOf ride.2) (map RideBooking.id (activeOf ride.2)) [] d d1 -> same_core d1 d2 ->
  closedDown ride d2.
Proof.
  intros [(r & Er & _) B] C Co. pose proof Co as (E1 & E2 & _). split.
  - destruct (closing_rides _ _ _ _ _ _ C _ r Er) as (r' & Er' & _ & T). rewrite decide_True in T by reflexivity.
    exists r'. rewrite E2. auto.
  - intros b Hb. pose proof Hb as Hb'. apply filter_In in Hb' as [Hb' _]. destruct (B b Hb') as [E R].
    destruct (closing_kept _ _ _ _ _ _ C _ b E) as [b' E']. exists b'. rewrite E1. split; [exact E'|].
    destruct (closing_rows _ _ _ _ _ _ C _ b' E') as (b0 & Eb0 & Rows). rewrite E in Eb0. injection Eb0 as <-.
    rewrite decide_True in Rows by (apply list_elem_of_In, in_map, Hb).
    destruct Rows as ((_ & S & _) & _ & T & P & I & N). destruct N as [N1 N2]; [intros X; apply list_elem_of_In in X; exact X|].
    repeat split; congruence.
Qed.

Lemma wp_closeOrAlert (s : St.t) (ride : OverdueRide) departureAt n Q : Good (St.db s) -> current (St.db s) ride ->
  combineDepartureDateTimeUtc (Ride.departureDate ride.1) (Ride.departureTime ride.1) = Ok departureAt ->
  (forall s' x, only_ride (Ride.id ride.1) (St.db s) (St.db s') ->
     (due ride -> forall c, x = Ok c -> closedDown ride (St.db s')) -> Q s' x) -> wp (closeOrAlert ride departureAt n) Q s.
Proof.
  intros G Cu Dep HQ. pose proof (only_ride_core (Ride.id ride.1) _ (St.db s) G ltac:(repeat split)) as Same.
  unfold closeOrAlert. cbv zeta. destruct (_ && _ && _) eqn:Cond.
  - wp_query. apply wp_closeOverdue; [exact G | exact Cu|]. intros s' x O' Cl.
    apply andb_prop in Cond as [[Cu' _]%andb_prop Cn]. apply bool_decide_eq_true in Cu', Cn.
    destruct x as [c|e]; [wp_query|]; apply HQ; try exact O'; [|discriminate]. intros _ c' _.
    destruct (Cl c eq_refl) as [N|(d1 & C & Co)]; [destruct (N Cu' Cn)|]. exact (closing_closedDown _ _ _ _ Cu C Co).
  - assert (Nd : due ride -> False).
    { intros (dep & Hd & Le & U & N). rewrite Dep in Hd. injection Hd as <-. apply Bool.not_true_iff_false in Cond.
      apply Cond. rewrite !andb_true_iff. repeat split; [apply bool_decide_eq_true; exact U | apply Z.leb_le; exact Le |
      apply bool_decide_eq_true; exact N]. }
    assert (HQ' : forall s' x, only_ride (Ride.id ride.1) (St.db s) (St.db s') -> Q s' x).
    { intros s' x O. apply HQ; [exact O|]. intros D. destruct (Nd D). }
    destruct (getExpectedRideEnd _ _) as [endAt|]; [|wp_query; apply HQ', Same].
    destruct (bool_decide (Ride.status ride.1 = RideStatus.IN_PROGRESS) && _ && _); [|wp_query; apply HQ', Same].
    apply wp_quiet.
    + intros d0. apply preserves_bind; [apply quiet_alertCompletion | intros; apply preserves_ret].
    + intros s' x C. apply HQ', only_ride_core; [exact G | exact C].
Qed.

Lemma wp_checkOverdueRide (s : St.t) (ride : OverdueRide) Q : Good (St.db s) -> current (St.db s) ride ->
  (forall s' x, only_ride (Ride.id ride.1) (St.db s) (St.db s') ->
     (due ride -> forall c, x = Ok c -> closedDown ride (St.db s')) -> Q s' x) -> wp (checkOverdueRide ride) Q s.
Proof.
  intros G Cu HQ. pose proof (only_ride_core (Ride.id ride.1) _ (St.db s) G ltac:(repeat split)) as Same.
  unfold checkOverdueRide. destruct (combineDepartureDateTimeUtc _ _) as [departureAt|e] eqn:Dep.
  2: { wp_query. apply HQ; [exact Same|]. intros (? & X & _). congruence. }
  cbv zeta. wp_query. apply wp_when.
  - intros _. apply wp_promote; [exact G|]. intros s1 x O1 _ C1. specialize (C1 Cu).
    destruct x; [|apply HQ; [exact O1 | discriminate]]. apply wp_closeOrAlert; [apply O1 | exact C1 | exact Dep|].
    intros s' y O' Cl. apply HQ; [exact (only_ride_trans _ _ _ _ O1 O') | exact Cl].
  - intros _. apply wp_closeOrAlert; assumption.
Qed.

(** The rides one after the other: those that are due are closed when nothing fails. *)
Lemma wp_checkOverdueRides d0 rides (s : St.t) Q : Good (St.db s) -> Life d0 (St.db s) ->
  NoDup (map (fun r : OverdueRide => Ride.id r.1) rides) -> (forall r, In r rides -> current (St.db s) r) ->
  (forall s' x, Life d0 (St.db s') ->
     (forall k, k ∉ map (fun r : OverdueRide => Ride.id r.1) rides ->
        forall ride, Ride.id ride.1 = k -> closedDown ride (St.db s) -> closedDown ride (St.db s')) ->
     (forall r c, In r rides -> due r -> x = Ok c -> closedDown r (St.db s')) -> Q s' x) ->
  wp (checkOverdueRides rides) Q s.
Proof.
  revert Q s. induction rides as [|r rides IH]; intros Q s G L N C HQ; cbn [checkOverdueRides].
  { wp_query. apply HQ; [exact L | auto |]. intros ? ? []. }
  cbn in N. apply NoDup_cons in N as [Nr N]. wp_query.
  apply wp_checkOverdueRide; [exact G | apply C; left; reflexivity|]. intros s1 x O Cl.
  pose proof (life_trans _ _ _ L (only_life _ _ _ O)) as L1.
  destruct x as [c|e].
  2: { apply HQ; [exact L1 | | discriminate]. intros k Nk ride E Cd. apply (closedDown_only _ _ _ _ O); [|exact Cd].
       intros X. apply Nk. rewrite <- E, X. apply list_elem_of_In. left. reflexivity. }
  wp_query. apply IH; [apply O | exact L1 | exact N | |].
  - intros r' Hr'. apply (current_only _ _ _ _ O); [|apply C; right; exact Hr'].
    intros X. apply Nr. rewrite <- X. apply list_elem_of_In, (in_map (fun r : OverdueRide => Ride.id r.1)), Hr'.
  - intros s' y Ly Keep Cl'.
    assert (Fin : forall z, (forall c', z = Ok c' -> exists c'', y = Ok c'') -> Q s' z).
    { intros z Hz. apply HQ; [exact Ly | |].
      - intros k Nk ride E Cd. cbn [map] in Nk. apply (Keep k).
        + intros X. apply Nk. apply list_elem_of_In. right. apply list_elem_of_In, X.
        + exact E.
        + apply (closedDown_only _ _ _ _ O); [|exact Cd]. intros X. apply Nk. rewrite <- E, X.
          apply list_elem_of_In. left. reflexivity.
      - intros r' c' Hr' D Ez. destruct (Hz c' Ez) as [c'' Ey]. destruct Hr' as [<-|Hr']; [|exact (Cl' r' c'' Hr' D Ey)].
        apply (Keep (Ride.id r.1)); [exact Nr | reflexivity | exact (Cl D c eq_refl)]. }
    destruct y as [c'|e]; [wp_query|]; apply Fin; [eauto | discriminate].
Qed.

Lemma overdueRides_current (d : Db.t) : Good d ->
  NoDup (map (fun r : OverdueRide => Ride.id r.1) (overdueRides d)) /\ forall r, In r (overdueRides d) -> current d r.
Proof.
  intros G. split.
  - unfold overdueRides. rewrite map_map. apply (where_nodup prisma.ride). apply (inv_ride_id _ (good_seats _ G)).
  - intros r Hr. apply in_map_iff in Hr as (x & <- & Hx). apply where_elem in Hx as [_ [k Ek]]. split; cbn.
    + cbn in Ek. rewrite (inv_ride_id _ (good_seats _ G) k x Ek). exists x. split; [exact Ek | repeat split; auto].
    + intros b Hb. apply where_elem in Hb as [Rb [kb Ekb]]. apply bool_decide_eq_true in Rb. split; [|exact Rb].
      cbn in Ekb. destruct (inv_booking_id _ (good_seats _ G) kb b Ekb) as [-> _]. exact Ekb.
Qed.

Lemma safe_overdueCheck : safe runRideOverdueCheck.
Proof.
  apply safe_start. intros s G. unfold runRideOverdueCheck. wp_query. wp_query.
  destruct (overdueRides_current _ G) as [N C].
  apply (wp_checkOverdueRides (St.db s)); auto. apply life_refl, G.
Qed.

(** ** The other jobs *)

Lemma quiet_createIssue a b c d e f g : quiet (createIssue a b c d e f g).
Proof. unfold createIssue. solve_quiet. Qed.

Lemma quiet_reconcilePayment p : quiet (reconcilePayment p).
Proof.
  unfold reconcilePayment, retrieveIntent. intros d0. repeat first [apply quiet_createIssue | quiet_step].
Qed.

Lemma quiet_hourly : quiet runHourlyReconciliation.
Proof.
  assert (A : forall l, quiet (reconcileAll l)).
  { induction l as [|p l IH]; intros d0; cbn [reconcileAll]; [apply preserves_ret|]. specialize (IH d0).
    repeat first [apply quiet_reconcilePayment | quiet_step]. }
  intros d0. unfold runHourlyReconciliation. repeat first [apply A | quiet_step].
Qed.

Lemma quiet_countIssues {A} (f : A -> H nat) l : (forall x, quiet (f x)) -> quiet (count_issues f l).
Proof.
  intros F. induction l as [|x l IH]; intros d0; cbn [count_issues]; [apply preserves_ret|].
  pose proof (F x d0). specialize (IH d0). repeat quiet_step.
Qed.

Lemma quiet_daily : quiet runDailyReconciliation.
Proof.
  intros d0. unfold runDailyReconciliation.
  repeat first
    [ apply quiet_countIssues; intros x d1; unfold flagStale, checkLedger, checkSettlement;
      repeat first [apply quiet_createIssue | apply quiet_findByBooking | quiet_step]
    | quiet_step ].
Qed.
Lemma quiet_outboxHandler ty h payload : outboxHandler ty = Some h -> quiet (h payload).
Proof.
  unfold outboxHandler, markHeldInEscrow, markPayoutEligible.
  repeat case_decide; intros [= <-] d0; repeat first [ apply quiet_markStatus | preserve_step ].
Qed.

Lemma quiet_processEvent e : quiet (processEvent e).
Proof.
  intros d0. unfold processEvent. destruct (outboxHandler (PaymentEventOutbox.eventType e)) as [h|] eqn:Eh.
  - pose proof (fun p => quiet_outboxHandler _ _ p Eh d0). repeat quiet_step.
  - repeat quiet_step.
Qed.

Lemma quiet_processOutbox n : quiet (processOutboxEvents n).
Proof.
  assert (P : forall es, quiet (processEvents es)).
  { induction es as [|e es IH]; intros d0; cbn [processEvents]; [auto with preserve|].
    pose proof (quiet_processEvent e d0). specialize (IH d0). repeat quiet_step. }
  intros d0. pose proof (fun es => P es d0). unfold processOutboxEvents. repeat quiet_step.
Qed.

Lemma quiet_eligible : quiet checkAndMarkEligible.
Proof.
  intros d0. pose proof (quiet_processOutbox 50 d0). unfold checkAndMarkEligible. repeat quiet_step.
Qed.

Lemma quiet_payout id : quiet (processDriverPayout id).
Proof.
  intros d0. unfold processDriverPayout, createBatch, settleBatch, markTransferCreated, markPayoutCompleted, recordTransfer,
    recordPayoutFailureReversal.
  repeat first [apply quiet_markStatus | quiet_step].
Qed.

Lemma quiet_payEach l : quiet (payEach l).
Proof.
  induction l as [|c l IH]; intros d0; cbn [payEach]; [apply preserves_ret|]. specialize (IH d0).
  repeat first [apply quiet_payout | quiet_step].
Qed.

Lemma quiet_payouts : quiet processEligibleDriverPayouts.
Proof.
  intros d0. unfold processEligibleDriverPayouts, getEligiblePayoutCandidates. repeat first [apply quiet_payEach | quiet_step].
Qed.

Lemma safe_expireEach l : safe (expireEach l).
Proof.
  induction l as [|b l IH]; intros d0; cbn [expireEach]; [apply preserves_ret|]. specialize (IH d0).
  repeat first [apply safe_expire | preserve_step].
Qed.

Lemma safe_unpaidSweep : safe runUnpaidBookingSweep.
Proof. intros d0. unfold runUnpaidBookingSweep. cbv zeta. repeat first [apply safe_expireEach | preserve_step]. Qed.

Lemma safe_maintenance name : safe (maintenanceWorker name).
Proof.
  unfold maintenanceWorker. repeat case_decide;
    try lazymatch goal with |- safe (_ ≫= _) => apply safe_bind; [|intros ?] end;
    first [ apply safe_requestExpiry | apply safe_overdueCheck | apply safe_unpaidSweep | apply quiet_safe, quiet_hourly | apply quiet_safe, quiet_daily
          | apply quiet_safe, quiet_eligible | apply quiet_safe, quiet_processOutbox
          | intros d0; repeat first [apply (quiet_safe _ quiet_payouts) | preserve_step] ].
Qed.

Lemma quiet_collectEvidence id : quiet (collectEvidence id).
Proof. unfold collectEvidence. solve_quiet. Qed.

Lemma quiet_evaluateDispute id : quiet (evaluateDispute id).
Proof. unfold evaluateDispute. solve_quiet. Qed.

Lemma quiet_resolveIssue a b c : quiet (resolveIssue a b c).
Proof. unfold resolveIssue. solve_quiet. Qed.

(** ** Support *)

Lemma quiet_recordAdminEvent a b c d e : quiet (recordAdminEvent a b c d e).
Proof. unfold recordAdminEvent. solve_quiet. Qed.

Lemma quiet_releaseEscrow p : quiet (releaseEscrow p).
Proof. unfold releaseEscrow. solve_quiet. Qed.

Lemma safe_forceComplete a b c : safe (adminForceCompleteBooking a b c).
Proof.
  apply safe_start. intros s G. pose proof (life_refl _ G) as L. unfold adminForceCompleteBooking, rideOf, findByBooking,
    openDisputesOf, createNotification. wp_query. wp_query. destruct o as [bk|]; [|wp_query; exact L].
  assert (Eid : RideBooking.id bk = a) by apply (inv_booking_id _ (good_seats _ G) a bk E).
  wp_query. wp_query. wp_query. apply wp_get. wp_query. wp_query; [exact L|]. wp_query. wp_query; [exact L|].
  wp_query. wp_query; [exact L|]. wp_query. wp_query; [exact L|]. wp_query. wp_query.
  match goal with Hd : negb (has_status _ _) = false |- _ => apply negb_false_iff in Hd; rename Hd into T end.
  apply (wp_mono _ (fun s' _ => Life (St.db s) (St.db s'))).
  - unfold forceCompleteTransaction. cbv zeta. rewrite Eid. wp_query.
    wp_query; [exact L|]. cbn in E1. assert (r0 = bk) as -> by congruence.
    match goal with |- wp _ _ ?s1 => assert (L1 : Life (St.db s) (St.db s1)) end.
    { eapply life_advance; [exact G | exact E|]. by_status T; solve_advances T. }
    wp_query. apply wp_get. wp_query. wp_query.
    + wp_query. wp_query; [exact L1|]. wp_query.
      apply wp_safe_end; [apply quiet_safe; intros d0; repeat first [apply quiet_recordAdminEvent | apply quiet_releaseEscrow | quiet_step]|].
      apply (life_trans _ _ _ L1). eapply life_ride; [apply L1 | exact E3 | repeat split | reflexivity].
    + apply wp_safe_end; [|exact L1].
      apply quiet_safe. intros d0. repeat first [apply quiet_recordAdminEvent | apply quiet_releaseEscrow | quiet_step].
  - intros s1 [x|e] L1; [|exact L]. apply wp_safe_end; [|exact L1].
    apply quiet_safe. intros d0. apply preserves_bind.
    { apply preserves_promise_all. intros m [<-|[<-|[]]]; apply preserves_perform. }
    intros _. repeat first [apply quiet_awardBooking | apply quiet_awardRide | quiet_step].
Qed.
End jobs.
