(* ===== verification/Overrides.v ===== *)
(** * What overrides, administrators and disputes keep

    The driver's override skips the status of a booking, the administrator's refund and the
    settlement of a dispute cancel it in any status without giving its seats back, support
    moves it to a dispute, and cancelling a whole ride gives seats back without counting
    them.  They leave the table of [Invariant.v]; but under [loosely] the invariant is kept
    by all of them: no row but one that waits for its payment is known to hold no seats,
    and the counters never promise a seat that is taken. *)

From Stdlib Require Import ZArith Lia.
From stdpp Require Import base list option strings gmap relations.
From S2P Require Import Prelude JsNumber JsText Money Schema Store Seats Payments Time Gateway Rewards.
From S2P Require Import RideRequest Booking DriverBooking RideOps Disputes Admin Invariant Safe RideSafe DriverRides DriverSafe JobSafe.

Open Scope Z_scope.

Section loose.
Context `{Env} `{Mode} (Loose : strict = false).

(** The row keeps its seats and does not return to the state before payment. *)
Definition moves_on (b b' : RideBooking.t) : Prop :=
  same_seats b b' /\ RideBooking.passengerId b' = RideBooking.passengerId b /\
  RideBooking.seatsReservedAt b' = RideBooking.seatsReservedAt b /\
  (RideBooking.status b' = BookingStatus.PAYMENT_PENDING -> RideBooking.status b = BookingStatus.PAYMENT_PENDING).

Lemma moves_any a b : (b = BookingStatus.PAYMENT_PENDING -> a = BookingStatus.PAYMENT_PENDING) -> rtc moves a b.
Proof.
  intros P. destruct (decide (b = BookingStatus.PAYMENT_PENDING)) as [->|N]; [rewrite P by reflexivity; constructor|].
  apply rtc_once. unfold moves. rewrite Loose. exact N.
Qed.

Lemma life_moves_on (d : Db.t) (id : string) (b b' : RideBooking.t) :
  Good d -> Db.rideBooking d !! id = Some b -> moves_on b b' -> Life d (put_booking id b' d).
Proof.
  intros G E (S & P & R & T). apply (life_put d _ id b' G).
  - apply (SeatInv_booking d id b b' (good_seats d G) E S). rewrite R. reflexivity.
  - reflexivity.
  - intros T'. rewrite R. exact (good_pending d G id b E (T T')).
  - congruence.
  - congruence.
  - congruence.
  - intros b0 E0. rewrite E in E0. injection E0 as <-. split; [|split]; [assumption | assumption | exact (moves_any _ _ T)].
  - intros k r Er. exists r. split; [exact Er | reflexivity].
Qed.

Lemma safe_moves_on (id : string) f : (forall b, moves_on b (f b)) -> safe (update prisma.rideBooking id f).
Proof.
  intros N d0. apply preserves_update. intros d b L E.
  apply (life_trans d0 d); [exact L|]. exact (life_moves_on d id b (f b) (proj1 L) E (N b)).
Qed.

(** Rows that are cancelled and give their seats back uncounted. *)
Definition drops (b b' : RideBooking.t) : Prop :=
  same_seats b b' /\ RideBooking.passengerId b' = RideBooking.passengerId b /\
  RideBooking.seatsReservedAt b' = None /\ RideBooking.status b' <> BookingStatus.PAYMENT_PENDING.

Lemma SeatInv_drop (d : Db.t) g : SeatInv d -> (forall b, g b = b \/ drops b (g b)) ->
  SeatInv (d <| Db.rideBooking ::= fmap g |>).
Proof.
  intros I D.
  assert (S : forall b, same_seats b (g b)) by (intros b; destruct (D b) as [->|(S & _)]; [reflexivity | exact S]).
  assert (L : forall k b', (g <$> Db.rideBooking d) !! k = Some b' -> exists b, Db.rideBooking d !! k = Some b /\ b' = g b).
  { intros k b'. rewrite lookup_fmap. destruct (Db.rideBooking d !! k) as [b|]; [intros [= <-]; eauto | discriminate]. }
  assert (On : forall k i b, Db.rideBooking d !! i = Some b -> seatsOn k (g b) <= seatsOn k b).
  { intros k i b E. destruct (D b) as [->|(_ & _ & R & _)]; [lia|].
    rewrite (proj1 (not_reserved_seats (RideSegmentCapacity.defaults "" 0) k (g b) R)).
    pose proof (inv_seats_pos d I i b E). unfold seatsOn. destruct (holdsOn k b); lia. }
  split; cbn.
  - intros k b' (b & E & ->)%L. destruct (S b) as (S1 & _). rewrite S1. exact (inv_booking_id d I k b E).
  - exact (inv_ride_id d I).
  - intros k b' (b & E & ->)%L. destruct (S b) as (_ & _ & S3 & _). rewrite S3. exact (inv_seats_pos d I k b E).
  - intros k b' (b & E & ->)%L. destruct (S b) as (_ & S2 & _). rewrite S2. exact (inv_ride d I k b E).
  - intros k r E. unfold held. cbn. rewrite sum_map_fmap. destruct (inv_available d I k r E) as [A P].
    pose proof (sum_map_le (fun b => seatsOn k (g b)) (seatsOn k) (Db.rideBooking d) (On k)).
    unfold agrees, held in *. rewrite Loose in *. lia.
  - intros k c E. rewrite sum_map_fmap. pose proof (inv_occupied d I k c E) as A.
    assert (sum_map (fun b => seatsOnEdge c (g b)) (Db.rideBooking d) <= sum_map (seatsOnEdge c) (Db.rideBooking d)).
    { apply sum_map_le. intros i b Ei. unfold seatsOnEdge. rewrite (covers_same c b (g b) (S b)).
      destruct (covers c b); [exact (On _ i b Ei) | lia]. }
    unfold agrees in *. rewrite Loose in *. lia.
Qed.

Lemma safe_drop p f : (forall b, p b = true -> drops b (f b)) -> safe (updateMany prisma.rideBooking p f).
Proof.
  intros N d0 s L. rewrite updateMany_run. apply (life_trans d0 (St.db s)); [exact L|].
  pose proof (proj1 L) as G. set (g := fun b => if p b then f b else b).
  assert (D : forall b, g b = b \/ drops b (g b)) by (intros b; unfold g; destruct (p b) eqn:P; auto).
  split; [split|split]; try congruence; cbn.
  - exact (SeatInv_drop _ g (good_seats _ G) D).
  - intros k b'. rewrite lookup_fmap. destruct (Db.rideBooking (St.db s) !! k) as [b|] eqn:E; [|discriminate]. intros [= <-].
    change (if p b then f b else b) with (g b).
    destruct (D b) as [->|(_ & _ & R & _)]; [exact (good_pending _ G k b E) | auto].
  - intros k b E. exists (g b). rewrite lookup_fmap, E. split; [reflexivity|].
    destruct (D b) as [->|(S & P & _ & T)]; [reflexivity|]. split; [exact S|]. split; [exact P | apply moves_any; contradiction].
  - intros k r E. exists r. split; [exact E | reflexivity].
Qed.

Ltac row_moves_on := intros ?b; repeat split; cbn; try discriminate; try reflexivity; auto.

Ltac loose_step := first
  [ apply quiet_safe; solve [auto with quiet]
  | apply safe_moves_on; solve [row_moves_on]
  | apply safe_ride_update; solve [intros ?; split; [repeat split | reflexivity]]
  | apply preserves_transaction | apply preserves_attempt | preserve_step ].
Ltac solve_loose := intros; intros ?d0; repeat loose_step.

(** ** Overridden steps of a ride *)

Lemma quiet_assertOrForce c violated code : quiet (assertOrForce c violated code).
Proof. unfold assertOrForce. solve_quiet. Qed.

Lemma quiet_forceAllowed c st : quiet (assertForceAllowedOnRide c st).
Proof. unfold assertForceAllowedOnRide. solve_quiet. Qed.

Lemma quiet_waypointsOf rideId : quiet (waypointsOf rideId).
Proof. unfold waypointsOf. solve_quiet. Qed.

Lemma quiet_emitBooking a b c : quiet (emitBooking a b c).
Proof. unfold emitBooking. solve_quiet. Qed.

Lemma quiet_notify a b : quiet (createNotification a b).
Proof. unfold createNotification. solve_quiet. Qed.

Lemma quiet_rideOf b : quiet (rideOf b).
Proof. unfold rideOf. solve_quiet. Qed.

#[local] Hint Resolve quiet_assertOrForce quiet_forceAllowed quiet_waypointsOf quiet_emitBooking quiet_notify quiet_rideOf : quiet.

Lemma loose_verifyCode a b c d e f g h : safe (verifyCode a b c d e f g h).
Proof. unfold verifyCode. solve_loose. Qed.

Lemma loose_driverArrived a b i : safe (driverArrived a b i).
Proof. unfold driverArrived. solve_loose. Qed.

Lemma loose_verifyPickup a b o i : safe (verifyPickupAndBoard a b o i).
Proof. unfold verifyPickupAndBoard. solve_loose. all: apply loose_verifyCode. Qed.

Lemma loose_markNoShow a b i : safe (markNoShow a b i).
Proof. unfold markNoShow. solve_loose. Qed.

Lemma loose_confirmDropoff a b i : safe (confirmDropoff a b i).
Proof. unfold confirmDropoff. solve_loose. Qed.

Lemma loose_riderConfirmDropoff a b i : safe (riderConfirmDropoff a b i).
Proof. unfold riderConfirmDropoff. solve_loose. Qed.

Lemma loose_finishRide a b i : safe (finishRide a b i).
Proof. unfold finishRide. solve_loose. Qed.

Lemma loose_verifyPickupOtp a b o f w : safe (verifyPickupOtp a b o f w).
Proof. unfold verifyPickupOtp, fetchDriverBooking, requireDriverBooking, assertOtpGuard. solve_loose. all: apply loose_verifyCode. Qed.

Lemma loose_verifyDropOtp a b o f w : safe (verifyDropOtp a b o f w).
Proof. unfold verifyDropOtp, fetchDriverBooking, requireDriverBooking, assertOtpGuard. solve_loose. all: apply loose_verifyCode. Qed.
(** *** Actions queued offline *)

Lemma loose_recover a t action input : safe (recover (recoveryOf a t action input)).
Proof.
  unfold recover, recoveryOf. destruct (negb _); [solve_safe|].
  repeat (destruct (decide _); [intros d0; apply preserves_try_catch; [|intros; apply preserves_ret];
    repeat first [apply safe_start_ride | apply loose_finishRide | preserve_step]|]).
  destruct (truthy _); [|solve_safe].
  repeat (destruct (decide _); [intros d0; apply preserves_try_catch; [|intros; apply preserves_ret];
    repeat first [apply loose_driverArrived | apply loose_verifyPickup | apply loose_confirmDropoff | preserve_step]|]).
  solve_safe.
Qed.

Lemma quiet_recordRecovery a b c d e f : quiet (recordRecovery a b c d e f).
Proof. unfold recordRecovery. solve_quiet. Qed.

Lemma loose_syncAction a action : safe (syncAction a action).
Proof.
  unfold syncAction. intros d0.
  repeat first [apply loose_recover | apply quiet_safe, quiet_recordRecovery | apply quiet_safe; solve [solve_quiet] | preserve_step].
Qed.

Lemma loose_sync a actions : safe (syncOfflineActions a actions).
Proof.
  induction actions as [|action rest IH]; intros d0; cbn [syncOfflineActions]; [apply preserves_ret|].
  repeat first [apply loose_syncAction | apply IH | preserve_step].
Qed.

(** ** Administrators *)

Lemma quiet_syncAdminRefund id amount : quiet (syncAdminRefund id amount).
Proof. intros d0. unfold syncAdminRefund. repeat first [apply quiet_rideOf | apply quiet_markBookingPaymentRefunded | quiet_step]. Qed.

Lemma loose_adminRefund id : safe (adminRefundBooking id).
Proof.
  unfold adminRefundBooking, refundPaymentIntent. intros d0.
  repeat first [apply quiet_safe, quiet_syncAdminRefund | loose_step].
Qed.

Lemma quiet_openDisputesOf id : quiet (openDisputesOf id).
Proof. unfold openDisputesOf. solve_quiet. Qed.

Lemma quiet_adminEvent a b c d e : quiet (recordAdminEvent a b c d e).
Proof. unfold recordAdminEvent. solve_quiet. Qed.

Lemma quiet_notices a b t : quiet (promise_all [createNotification a t; createNotification b t]).
Proof. intros d0. apply preserves_promise_all. intros m [<-|[<-|[]]]; apply quiet_notify. Qed.

Lemma loose_adminOpenDispute a b c d : safe (adminOpenBookingDispute a b c d).
Proof.
  unfold adminOpenBookingDispute, openDisputeTransaction. intros d0.
  repeat first [apply quiet_safe, quiet_findByBooking | apply quiet_safe, quiet_openDisputesOf | apply quiet_safe, quiet_adminEvent
               | apply quiet_safe, quiet_notices | apply quiet_safe; solve [solve_quiet] | loose_step].
Qed.

(** ** Disputes *)

Lemma quiet_refundPayment p f : quiet (update prisma.payment p f;; mret tt).
Proof. solve_quiet. Qed.

Lemma loose_refundBooking a b c d e f g h : safe (refundBooking a b c d e f g h).
Proof.
  unfold refundBooking, refundPaymentIntent, recordRefund. intros d0.
  repeat first [ apply safe_moves_on; intros ?; repeat split; cbn; destruct (decide _); discriminate
               | apply quiet_safe; solve [solve_quiet] | loose_step ].
Qed.

(** The last write repeats the status that was read; nothing has moved the booking since. *)
Lemma loose_applyResolution (booking : RideBooking.t) payment ride resolution percent (s : St.t) :
  Good (St.db s) -> Db.rideBooking (St.db s) !! RideBooking.id booking = Some booking ->
  wp (applyResolution booking payment ride resolution percent) (fun s' _ => Life (St.db s) (St.db s')) s.
Proof.
  intros G E. pose proof (life_refl _ G) as L. unfold applyResolution. destruct resolution; [| | |exact L].
  1,3: apply wp_safe_end; [|exact L]; intros d0; repeat first [apply loose_refundBooking | apply quiet_safe; solve [solve_quiet] | loose_step].
  apply wp_bind, wp_throw_if; intros _; [exact L|]. apply wp_bind.
  apply wp_quiet; [solve_quiet|]. intros s1 [u|e] C; pose proof (life_core _ _ _ C L) as L1; [|exact L1].
  apply wp_bind, wp_update; [intros _; exact L1|]. intros r Er.
  assert (r = booking) as -> by (destruct C as (EB & _); cbn in Er; rewrite EB in Er; congruence).
  apply wp_ret, (life_trans _ _ _ L1). apply (life_moves_on (St.db s1) (RideBooking.id booking) booking); [apply L1 | exact Er|].
  repeat split. cbn. destruct (decide _); [discriminate | auto].
Qed.

Lemma loose_settleDispute id resolution by_ percent : safe (settleDispute id resolution by_ percent).
Proof.
  apply safe_start. intros s G. pose proof (life_refl _ G) as L. unfold settleDispute.
  apply wp_bind, wp_findUnique. intros [d|] Ed; [|exact L].
  apply wp_bind. apply wp_findUniqueOrThrow; [intros _; exact L|]. intros b E.
  apply wp_bind. unfold rideOf. apply wp_findUniqueOrThrow; [intros _; exact L|]. intros ride Er.
  apply wp_bind. apply wp_quiet; [apply quiet_findByBooking|]. intros s1 [payment|e] C; pose proof (life_core _ _ _ C L) as L1; [|exact L1].
  apply wp_bind, wp_throw_if; intros _; [exact L1|]. apply wp_bind.
  eapply wp_mono.
  { apply loose_applyResolution; [apply L1|]. rewrite (proj1 C). cbn in E.
    rewrite (proj1 (inv_booking_id _ (good_seats _ G) _ b E)). exact E. }
  intros s2 [[st text]|e] L2; pose proof (life_trans _ _ _ L1 L2) as L3; [|exact L3].
  apply wp_safe_end; [|exact L3]. apply quiet_safe. intros d0.
  repeat first [apply quiet_notices | quiet_step].
Qed.

Lemma loose_adminEvaluate id adminId : safe (adminEvaluate id adminId).
Proof.
  intros d0. unfold adminEvaluate. apply preserves_bind; [apply quiet_safe, quiet_evaluateDispute|]. intros r.
  destruct (Evaluation.status r); repeat first [apply loose_settleDispute | preserve_step].
Qed.

(** ** Cancelling a whole ride *)

Lemma loose_cancelTransaction rideId l bypass : safe (PublishRide.cancelRideTransaction rideId l bypass).
Proof.
  unfold PublishRide.cancelRideTransaction, PublishRide.refundWithRide, refundPaymentIntent. intros d0.
  apply preserves_bind; [apply safe_ride_update; intros ?; split; [repeat split | reflexivity]|]. intros _.
  apply preserves_bind; [apply safe_drop; intros b _; repeat split; discriminate|]. intros _.
  repeat first [apply preserves_for_each; intros ? | loose_step].
Qed.

Lemma loose_cancelRide driverId rideId : safe (PublishRide.cancelRide driverId rideId).
Proof.
  unfold PublishRide.cancelRide. intros d0.
  repeat first [apply preserves_transaction, loose_cancelTransaction | apply preserves_for_each; intros ?
               | apply preserves_promise_all; intros ? (x & <- & _)%in_map_iff; apply quiet_safe, quiet_notify | loose_step].
Qed.
End loose.
