(* ===== verification/DeletionSafe.v ===== *)
(** * Deleting an account keeps the books

    [UserGdpr.deleteUserAccount] keeps the invariant of [Invariant.v], whatever fails, and
    when it returns the user's rides are cancelled, the bookings on them and the user's own
    that count as active are cancelled and refunded, no session can be renewed and the
    user's row is [anonymous]; the user's licences, vehicles, documents and messages stay. *)

From Stdlib Require Import ZArith Lia.
From stdpp Require Import base list option strings gmap relations.
From S2P Require Import Prelude JsNumber JsText Money Schema Store Seats Payments Time Gateway Rewards Sessions.
From S2P Require Import RideRequest Booking Deletion Invariant Safe RideSafe MarketSafe.

Open Scope Z_scope.

Import UserGdpr.

#[global] Instance aside_refreshToken : Aside prisma.refreshToken.
Proof. repeat split. Qed.

Lemma active_cancels `{Mode} b : isActive b = true -> moves (RideBooking.status b) BookingStatus.CANCELLED.
Proof.
  intros A. apply moves_table. revert A. unfold isActive. rewrite bool_decide_eq_true, !list_elem_of_In. destruct (RideBooking.status b); cbn; intuition discriminate.
Qed.

Section cancelling.
Context `{Env} `{Mode}.

Lemma quiet_deleteMany {R} (t : Table R) `{!Aside t} p : quiet (deleteMany t p).
Proof. intros d0. apply preserves_deleteMany. intros d C. exact (same_core_trans _ _ _ C (aside _ d)). Qed.

Lemma quiet_deleteRequests u : quiet (deleteRequests u).
Proof.
  intros d0. unfold deleteRequests. repeat first [apply quiet_deleteMany; exact _ | quiet_step].
Qed.

(** A booking after the deletion. *)
Definition final (b : RideBooking.t) : RideBooking.t :=
  let c := cleared (cancelled b b) in
  match refundOf b with Some _ => c <| RideBooking.refundedAt := Some now |> | None => c end.

Definition paidBack (b : RideBooking.t) (l : list (Effect * option string)) : Prop :=
  forall i a, refundOf b = Some (i, a) -> In (StripeRefund i (Some a), None) l.

(** The bookings [L] were closed; the rest is as it was. *)
Definition cancels (dl : Db.t) (L : list RideBooking.t) (s s' : St.t) (r : Res unit) : Prop :=
  Life dl (St.db s') /\ (exists l, St.fx s' = l ++ St.fx s) /\
  (r = Ok tt -> (forall b, In b L -> Db.rideBooking (St.db s') !! RideBooking.id b = Some (final b) /\ paidBack b (St.fx s')) /\
                (forall k, k ∉ map RideBooking.id L -> Db.rideBooking (St.db s') !! k = Db.rideBooking (St.db s) !! k)).

Lemma paidBack_app b l l' : paidBack b l -> paidBack b (l' ++ l).
Proof. intros P i a E. apply in_app_iff. right. exact (P i a E). Qed.

Lemma cancels_app dl L1 L2 s s1 s2 r : NoDup (map RideBooking.id (L1 ++ L2)) ->
  cancels dl L1 s s1 (Ok tt) -> cancels dl L2 s1 s2 r -> cancels dl (L1 ++ L2) s s2 r.
Proof.
  rewrite map_app. intros (_ & D & _)%NoDup_app (A1 & [l1 A2] & A3) (B1 & [l2 B2] & B3). destruct (A3 eq_refl) as [A4 A5].
  split; [exact B1|]. split; [exists (l2 ++ l1); rewrite B2, A2, app_assoc; reflexivity|]. intros ->. destruct (B3 eq_refl) as [B4 B5]. split.
  - intros b [I|I]%in_app_iff; [|exact (B4 b I)]. destruct (A4 b I) as [E P]. split; [|rewrite B2; apply paidBack_app, P].
    rewrite B5; [exact E|]. apply D. apply list_elem_of_In, in_map, I.
  - intros k N. rewrite map_app, elem_of_app in N. rewrite B5, A5; [reflexivity | |]; intros X; apply N; auto.
Qed.

Lemma wp_cancels_all {A} (body : A -> H unit) (rowsOf : A -> list RideBooking.t) dl l s :
  (forall x s, In x l -> Life dl (St.db s) -> (forall b, In b (rowsOf x) -> Db.rideBooking (St.db s) !! RideBooking.id b = Some b) ->
     wp (body x) (cancels dl (rowsOf x) s) s) ->
  NoDup (map RideBooking.id (concat (map rowsOf l))) -> Life dl (St.db s) ->
  (forall b, In b (concat (map rowsOf l)) -> Db.rideBooking (St.db s) !! RideBooking.id b = Some b) ->
  wp (for_each l body) (cancels dl (concat (map rowsOf l)) s) s.
Proof.
  revert s. induction l as [|x l IH]; intros s B N L R; cbn [map concat for_each] in *.
  - apply wp_ret. split; [exact L|]. split; [exists []; reflexivity|]. intros _. split; [intros b [] | reflexivity].
  - apply wp_bind. apply (wp_mono _ (cancels dl (rowsOf x) s)); [refine (B x s (or_introl eq_refl) L _); intros b I; apply R, in_app_iff; auto|].
    intros s1 [[]|e] C; [|destruct C as (C1 & C2 & _); split; [exact C1|]; split; [exact C2 | discriminate]].
    pose proof C as (C1 & _ & C3). destruct (C3 eq_refl) as [_ C4]. pose proof N as N'. rewrite map_app in N'. apply NoDup_app in N' as (_ & D & N').
    apply (wp_mono _ (cancels dl (concat (map rowsOf l)) s1)).
    + refine (IH s1 (fun y z I => B y z (or_intror I)) N' C1 _).
      intros b I. rewrite C4; [apply R, in_app_iff; auto|]. intros X. apply (D _ X). apply list_elem_of_In, in_map, I.
    + intros s2 r C5. exact (cancels_app dl _ _ s s1 s2 r N C C5).
Qed.

Lemma wp_cancel_transaction dl L (m : H unit) s : Life dl (St.db s) -> wp m (cancels dl L s) s -> wp (transaction m) (cancels dl L s) s.
Proof.
  intros Lf W. apply wp_transaction. eapply wp_mono; [exact W|]. intros s' [u|e] (C1 & C2 & C3); [exact (conj C1 (conj C2 C3))|].
  split; [exact Lf|]. split; [exact C2 | discriminate].
Qed.

Lemma refunded_neutral c x : neutral c (c <| RideBooking.refundedAt := x |>).
Proof. repeat split. Qed.

Lemma cancelled_closes b : isActive b = true -> closes b (cancelled b b).
Proof. intros A. destruct b. repeat split; [exact (active_cancels _ A) | apply list_elem_of_In; cbn; auto]. Qed.

Lemma cancel_one dl (b : RideBooking.t) (r : Ride.t) s : Life dl (St.db s) -> isActive b = true ->
  Db.rideBooking dl !! RideBooking.id b = Some b -> Db.ride dl !! RideBooking.rideId b = Some r ->
  Db.rideBooking (St.db s) !! RideBooking.id b = Some b ->
  wp (cancelAndRefund b (Ride.totalSeats r)) (cancels dl [b] s) s.
Proof.
  intros L A E0 Er0 E. unfold cancelAndRefund.
  apply wp_bind, wp_update; [intros N; cbn in N; congruence|]. intros x Ex. assert (x = b) as -> by (cbn in Ex; congruence).
  pose proof (cancelled_closes b A) as C.
  apply wp_bind. apply (wp_release dl (St.db s) _ (RideBooking.id b) b b (cancelled b b) r); try assumption; [reflexivity|].
  intros s1 y L1 [F1 B1]. change (St.fx s1 = St.fx s) in F1. cbv beta iota.
  assert (Row : Db.rideBooking (St.db s1) !! RideBooking.id b = Some (cleared (cancelled b b))) by (rewrite B1; apply lookup_insert_eq).
  assert (Rest : forall k, k ∉ [RideBooking.id b] -> Db.rideBooking (St.db s1) !! k = Db.rideBooking (St.db s) !! k).
  { intros k N. rewrite B1, lookup_insert_ne; [reflexivity|]. intros X. apply N. apply list_elem_of_In. left. exact X. }
  destruct (refundOf b) as [[i a]|] eqn:R.
  - unfold refundPaymentIntent. apply wp_bind, wp_call. intros o _. destruct o as [e|]; cbv beta iota.
    + split; [exact L1|]. split; [eexists [_]; cbn; rewrite F1; reflexivity | discriminate].
    + apply wp_bind, wp_update; [intros N; cbn in N; congruence|]. intros x Ex2. apply wp_ret.
      assert (x = cleared (cancelled b b)) as -> by (cbn in Ex2; congruence). split; [|split].
      * refine (life_trans _ _ _ L1 _). exact (life_neutral _ _ _ _ (proj1 L1) Row (refunded_neutral _ _)).
      * eexists [_]. cbn. rewrite F1. reflexivity.
      * intros _. split.
        -- intros b' [<-|[]]. unfold final. rewrite R. cbn. rewrite lookup_insert_eq. split; [reflexivity|].
           intros i' a' E'. rewrite R in E'. injection E' as <- <-. left. reflexivity.
        -- intros k N. cbn. rewrite lookup_insert_ne; [exact (Rest k N)|]. intros X. apply N. apply list_elem_of_In. left. exact X.
  - apply wp_ret. split; [exact L1|]. split; [exists []; exact F1|]. intros _. split; [|exact Rest].
    intros b' [<-|[]]. unfold final. rewrite R. split; [exact Row|]. intros i a E'. congruence.
Qed.
End cancelling.

Section account.
Context `{Env} `{Mode}.

Lemma concat_single {A} (l : list A) : concat (map (fun x => [x]) l) = l.
Proof. induction l as [|x l IH]; cbn; congruence. Qed.

Lemma listed_booking (d : Db.t) p b : Good d -> In b (where_ prisma.rideBooking p d) ->
  p b = true /\ Db.rideBooking d !! RideBooking.id b = Some b.
Proof.
  intros G [P [k E]]%where_elem. split; [exact P|]. cbn in E. rewrite (proj1 (inv_booking_id _ (good_seats _ G) k b E)). exact E.
Qed.

Lemma listed_rides u d x : Good d -> In x (activeRides u d) ->
  Db.ride d !! Ride.id x.1 = Some x.1 /\ Ride.driverId x.1 = u /\ Ride.status x.1 ∈ CANCELLABLE_RIDE_STATUSES /\
  x.2 = where_ prisma.rideBooking (fun b => bool_decide (RideBooking.rideId b = Ride.id x.1) && isActive b) d.
Proof.
  intros G. unfold activeRides. rewrite in_map_iff. intros (r & <- & I). cbn [fst snd].
  apply where_elem in I as [[D%bool_decide_eq_true S%bool_decide_eq_true]%andb_true_iff [k E]]. cbn in E.
  rewrite (inv_ride_id _ (good_seats _ G) k r E). auto.
Qed.

Lemma listed_once u d : Good d -> NoDup (map RideBooking.id (concat (map snd (activeRides u d)))).
Proof.
  intros G. unfold activeRides. rewrite map_map. cbn [snd].
  assert (N : NoDup (map Ride.id (where_ prisma.ride (fun r => bool_decide (Ride.driverId r = u) && bool_decide (Ride.status r ∈ CANCELLABLE_RIDE_STATUSES)) d)))
    by (apply (where_nodup prisma.ride); exact (inv_ride_id _ (good_seats _ G))).
  induction (where_ prisma.ride _ d) as [|r l IH]; [constructor|]. cbn [map concat] in *. apply NoDup_cons in N as [Nr N].
  rewrite map_app. apply NoDup_app. split; [|split; [|exact (IH N)]].
  - apply (where_nodup prisma.rideBooking). intros k b E. exact (proj1 (inv_booking_id _ (good_seats _ G) k b E)).
  - intros k I1 I2. apply list_elem_of_In, in_map_iff in I1 as (b1 & <- & I1). apply list_elem_of_In, in_map_iff in I2 as (b2 & Q & I2).
    apply in_concat in I2 as (m & M & I2). apply in_map_iff in M as (r2 & <- & M).
    destruct (listed_booking d _ b1 G I1) as [[P1%bool_decide_eq_true _]%andb_true_iff E1].
    destruct (listed_booking d _ b2 G I2) as [[P2%bool_decide_eq_true _]%andb_true_iff E2].
    assert (b1 = b2) by congruence. subst b2. apply Nr. rewrite <- P1, P2. apply list_elem_of_In, in_map, M.
Qed.

Lemma cancel_ride u dl x s : Good dl -> Life dl (St.db s) -> In x (activeRides u dl) ->
  (forall b, In b x.2 -> Db.rideBooking (St.db s) !! RideBooking.id b = Some b) ->
  wp (cancelDriverRide x) (cancels dl x.2 s) s.
Proof.
  intros G L I R. destruct (listed_rides u dl x G I) as (Er & _ & _ & Ex). unfold cancelDriverRide. apply wp_cancel_transaction; [exact L|].
  apply wp_bind, wp_update; [intros _; split; [exact L|]; split; [exists []; reflexivity | discriminate]|].
  intros r' Er'. set (s1 := s <| St.db ::= _ |>).
  assert (L1 : Life dl (St.db s1)).
  { refine (life_trans _ _ _ L _). apply (life_ride _ _ r'); [exact (proj1 L) | exact Er' | repeat split | reflexivity]. }
  eapply (wp_mono _ (cancels dl x.2 s1)); [|intros s2 r C; exact C].
  rewrite <- (concat_single x.2) at 2. apply wp_cancels_all with (rowsOf := fun b => [b]); rewrite ?concat_single.
  - intros b s2 Ib L2 Rb. rewrite Ex in Ib. destruct (listed_booking dl _ b G Ib) as [[P%bool_decide_eq_true A]%andb_true_iff E].
    apply (cancel_one dl b x.1 s2 L2 A E); [rewrite P; exact Er | apply Rb; left; reflexivity].
  - rewrite Ex. apply (where_nodup prisma.rideBooking). intros k b E. exact (proj1 (inv_booking_id _ (good_seats _ G) k b E)).
  - exact L1.
  - exact R.
Qed.

Lemma cancel_own u dl x s : Good dl -> Life dl (St.db s) -> In x (activeBookings u dl) ->
  (forall b, In b [x.1] -> Db.rideBooking (St.db s) !! RideBooking.id b = Some b) ->
  wp (cancelOwnBooking x) (cancels dl [x.1] s) s.
Proof.
  intros G L I R. unfold activeBookings in I. apply list_elem_of_In, list_elem_of_omap in I as (b & I & E). apply list_elem_of_In in I.
  destruct (Db.ride dl !! RideBooking.rideId b) as [r|] eqn:Er; [|discriminate E]. injection E as <-. cbn [fst snd] in *.
  destruct (listed_booking dl _ b G I) as [[_ A]%andb_true_iff Eb]. unfold cancelOwnBooking. apply wp_cancel_transaction; [exact L|].
  apply (cancel_one dl b r s L A Eb Er). apply R. left. reflexivity.
Qed.

(** ** What the cancellations leave alone *)

(** Licences, vehicles and messages. *)
Definition papers (d : Db.t) := (Db.dlVerification d, Db.vehicle d, Db.vehicleDocument d, Db.conversation d, Db.message d).

(** Rows aside, and the rides of the user that are closed. *)
Record apart (d0 d : Db.t) : Prop := {
  apart_user : Db.user d = Db.user d0;
  apart_token : Db.refreshToken d = Db.refreshToken d0;
  apart_request : Db.rideRequest d = Db.rideRequest d0;
  apart_offer : Db.rideRequestOffer d = Db.rideRequestOffer d0;
  apart_papers : papers d = papers d0;
}.

Definition shut (u k : string) (d : Db.t) : Prop :=
  forall r, Db.ride d !! k = Some r -> Ride.driverId r = u -> Ride.status r ∉ CANCELLABLE_RIDE_STATUSES.

(** Bookings and legs do not matter, and of a ride that it stays the driver's and is closed
    at most. *)
Record Undisturbed (I : Db.t -> Prop) : Prop := {
  un_booking : forall g d, I d -> I (with_rows prisma.rideBooking g d);
  un_leg : forall g d, I d -> I (with_rows prisma.rideSegmentCapacity g d);
  un_ride : forall id f d r, I d -> Db.ride d !! id = Some r -> Ride.driverId (f r) = Ride.driverId r ->
    Ride.status (f r) = Ride.status r \/ Ride.status (f r) = RideStatus.CANCELLED -> I (with_rows prisma.ride <[id := f r]> d);
}.

Lemma undisturbed_apart d0 : Undisturbed (apart d0).
Proof. split; [intros g d [] | intros g d [] | intros id f d r [] _ _ _]; split; assumption. Qed.

Lemma undisturbed_shut u k : Undisturbed (shut u k).
Proof.
  split; [auto | auto |]. intros id f d r S E D T x. cbn. intros [[<- <-]|[_ X]]%lookup_insert_Some Q; [|exact (S x X Q)].
  destruct T as [->| ->]; [apply S; congruence|]. intros N. apply list_elem_of_In in N. cbn in N. intuition discriminate.
Qed.

Section undisturbed.
Context (I : Db.t -> Prop) (UI : Undisturbed I).

Ltac un_step :=
  lazymatch goal with
  | |- preserves _ (update prisma.rideBooking _ _) => apply preserves_update; intros; apply (un_booking _ UI); assumption
  | |- preserves _ (updateManyId prisma.rideBooking _ _ _) => apply preserves_updateManyId; intros; apply (un_booking _ UI); assumption
  | |- preserves _ (updateMany prisma.rideSegmentCapacity _ _) => apply preserves_updateMany; intros; apply (un_leg _ UI); assumption
  | |- preserves _ (update prisma.ride _ _) => apply preserves_update; intros; apply (un_ride _ UI); auto
  | |- preserves _ (transaction _) => apply preserves_transaction
  | |- _ => preserve_step
  end.

Lemma un_cancelAndRefund b n : preserves (on_db I) (cancelAndRefund b n).
Proof.
  unfold cancelAndRefund, releaseBookingSeats, releaseSegmentSeats, recomputeAvailableSeats, heldSeats, lockRideForSeats, refundPaymentIntent.
  repeat un_step.
Qed.

Lemma un_driverRide x : preserves (on_db I) (cancelDriverRide x).
Proof. unfold cancelDriverRide. repeat first [apply un_cancelAndRefund | un_step]. Qed.

Lemma un_ownBooking x : preserves (on_db I) (cancelOwnBooking x).
Proof. apply preserves_transaction, un_cancelAndRefund. Qed.
End undisturbed.

Lemma shut_ride u x s s' : cancelDriverRide x s = (s', Ok tt) -> on_db (shut u (Ride.id x.1)) s'.
Proof.
  intros E. assert (W : wp (cancelDriverRide x) (if_ok (fun s' _ => on_db (shut u (Ride.id x.1)) s')) s); [|unfold wp in W; rewrite E in W; exact W].
  apply wp_transaction, wp_bind, wp_update; [intros _; exact Logic.I|]. intros r Er.
  eapply (wp_preserves (on_db (shut u (Ride.id x.1)))).
  - apply preserves_for_each. intros b. apply un_cancelAndRefund, undisturbed_shut.
  - intros y. cbn. rewrite lookup_insert_eq. intros [= <-] _ N. apply list_elem_of_In in N. cbn in N. intuition discriminate.
  - intros s2 [[]|e] S; [exact S | exact Logic.I].
Qed.

Lemma shut_rides u l s s' : for_each l cancelDriverRide s = (s', Ok tt) ->
  (forall k r, Db.ride (St.db s) !! k = Some r -> Ride.driverId r = u -> Ride.status r ∈ CANCELLABLE_RIDE_STATUSES -> exists x, In x l /\ Ride.id x.1 = k) ->
  forall k, shut u k (St.db s').
Proof.
  intros E L k.
  assert (P : preserves (on_db (shut u k)) (for_each l cancelDriverRide)) by (apply preserves_for_each; intros; apply un_driverRide, undisturbed_shut).
  specialize (P s). rewrite E in P. destruct (Db.ride (St.db s) !! k) as [r|] eqn:Er; [|apply P; intros x X; congruence].
  destruct (decide (Ride.driverId r = u /\ Ride.status r ∈ CANCELLABLE_RIDE_STATUSES)) as [[D S]|N].
  - destruct (L k r Er D S) as (x & I & <-).
    apply (for_each_all (fun x s => on_db (shut u (Ride.id x.1)) s) cancelDriverRide) with (l := l) (s := s); [| |exact E|exact I].
    + intros y z. apply un_driverRide, undisturbed_shut.
    + intros y z z'. apply shut_ride.
  - apply P. intros x X D S. apply N. replace r with x by congruence. auto.
Qed.

(** ** The whole deletion *)

(** The user's bookings, and those on the rides the user still drives. *)
Definition affected (u : string) (d : Db.t) (b : RideBooking.t) : Prop :=
  isActive b = true /\ (RideBooking.passengerId b = u \/
    exists r, Db.ride d !! RideBooking.rideId b = Some r /\ Ride.driverId r = u /\ Ride.status r ∈ CANCELLABLE_RIDE_STATUSES).

Record Gone (u : string) (s s' : St.t) : Prop := {
  gone_rides : forall k r, Db.ride (St.db s') !! k = Some r -> Ride.driverId r = u -> Ride.status r ∉ CANCELLABLE_RIDE_STATUSES;
  gone_cancelled : forall k b, Db.rideBooking (St.db s) !! k = Some b -> affected u (St.db s) b ->
    Db.rideBooking (St.db s') !! k = Some (final b) /\ paidBack b (St.fx s');
  gone_others : forall k b, Db.rideBooking (St.db s) !! k = Some b -> ~ affected u (St.db s) b -> Db.rideBooking (St.db s') !! k = Some b;
  gone_sessions : forall k t, Db.refreshToken (St.db s') !! k = Some t -> RefreshToken.userId t <> u;
  gone_requests : forall k r, Db.rideRequest (St.db s') !! k = Some r -> RideRequest.riderId r <> u;
  gone_offers : forall k o, Db.rideRequestOffer (St.db s') !! k = Some o -> RideRequestOffer.driverId o = u ->
    RideRequestOffer.status o = "ACCEPTED"%string;
  gone_user : exists x, Db.user (St.db s) !! u = Some x /\ Db.user (St.db s') !! u = Some (anonymous x);
  gone_papers : papers (St.db s') = papers (St.db s);
}.

(** The rides first. *)
Lemma rides_spec u s : Good (St.db s) ->
  wp (for_each (activeRides u (St.db s)) cancelDriverRide) (fun s1 r =>
    cancels (St.db s) (concat (map snd (activeRides u (St.db s)))) s s1 r /\ apart (St.db s) (St.db s1) /\
    (r = Ok tt -> forall k, shut u k (St.db s1))) s.
Proof.
  intros G. pose proof (life_refl _ G) as L.
  assert (W : wp (for_each (activeRides u (St.db s)) cancelDriverRide) (cancels (St.db s) (concat (map snd (activeRides u (St.db s)))) s) s).
  { apply wp_cancels_all; [|exact (listed_once u _ G) | exact L |].
    - intros x s1 I L1 R. exact (cancel_ride u _ x s1 G L1 I R).
    - intros b I. apply in_concat in I as (m & M & I). apply in_map_iff in M as (x & <- & M).
      destruct (listed_rides u _ x G M) as (_ & _ & _ & E). rewrite E in I. exact (proj2 (listed_booking _ _ b G I)). }
  apply wp_run. intros s1 r R. unfold wp in W. rewrite R in W. split; [exact W|]. split.
  - assert (P : preserves (on_db (apart (St.db s))) (for_each (activeRides u (St.db s)) cancelDriverRide))
      by (apply preserves_for_each; intros; apply un_driverRide, undisturbed_apart).
    specialize (P s). rewrite R in P. apply P. split; reflexivity.
  - intros ->. apply (shut_rides u _ s s1 R). intros k x E D S. exists (x, where_ prisma.rideBooking (fun b => bool_decide (RideBooking.rideId b = Ride.id x) && isActive b) (St.db s)).
    split; [|exact (inv_ride_id _ (good_seats _ G) k x E)]. unfold activeRides. apply in_map_iff. exists x. split; [reflexivity|]. apply where_elem.
    rewrite !bool_decide_eq_true_2 by assumption. split; [reflexivity | eauto].
Qed.

(** Then the user's own bookings. *)
Lemma bookings_spec u s : Good (St.db s) ->
  wp (for_each (activeBookings u (St.db s)) cancelOwnBooking) (fun s1 r =>
    cancels (St.db s) (map fst (activeBookings u (St.db s))) s s1 r /\ apart (St.db s) (St.db s1) /\
    (forall k, shut u k (St.db s) -> shut u k (St.db s1))) s.
Proof.
  intros G. pose proof (life_refl _ G) as L.
  assert (In1 : forall x, In x (activeBookings u (St.db s)) -> In x.1 (where_ prisma.rideBooking (fun b => bool_decide (RideBooking.passengerId b = u) && isActive b) (St.db s))).
  { intros x I. apply list_elem_of_In, list_elem_of_omap in I as (b & I & E). apply list_elem_of_In in I.
    destruct (Db.ride _ !! _); [|discriminate E]. injection E as <-. exact I. }
  assert (C1 : concat (map (fun x => [x.1]) (activeBookings u (St.db s))) = map fst (activeBookings u (St.db s)))
    by (induction (activeBookings u (St.db s)) as [|x l IH]; cbn; [reflexivity | rewrite IH; [reflexivity | intros; apply In1; right; assumption]]).
  assert (W : wp (for_each (activeBookings u (St.db s)) cancelOwnBooking) (cancels (St.db s) (map fst (activeBookings u (St.db s))) s) s).
  { rewrite <- C1. apply wp_cancels_all with (rowsOf := fun x => [x.1]); rewrite ?C1; [| |exact L|].
    - intros x s1 I L1 R. exact (cancel_own u _ x s1 G L1 I R).
    - assert (N : NoDup (map RideBooking.id (where_ prisma.rideBooking (fun b => bool_decide (RideBooking.passengerId b = u) && isActive b) (St.db s))))
        by (apply (where_nodup prisma.rideBooking); intros k b E; exact (proj1 (inv_booking_id _ (good_seats _ G) k b E))).
      unfold activeBookings. clear C1 In1. induction (where_ prisma.rideBooking _ _) as [|b l IH]; [constructor|].
      cbn [map] in N. apply NoDup_cons in N as [Nb N]. cbn [omap list_omap]. destruct (Db.ride (St.db s) !! RideBooking.rideId b); cbn [fmap option_fmap option_map map fst]; [|exact (IH N)].
      apply NoDup_cons. split; [|exact (IH N)]. intros I. apply Nb. apply list_elem_of_In, in_map_iff in I as (y & Q & I).
      apply in_map_iff in I as (x & <- & I). rewrite <- Q. apply list_elem_of_In, in_map.
      apply list_elem_of_In, list_elem_of_omap in I as (z & Iz & E). destruct (Db.ride _ !! _); [|discriminate E]. injection E as <-. apply list_elem_of_In, Iz.
    - intros b I. apply in_map_iff in I as (x & <- & I). exact (proj2 (listed_booking _ _ _ G (In1 x I))). }
  apply wp_run. intros s1 r R. unfold wp in W. rewrite R in W. split; [exact W|]. split.
  - assert (P : preserves (on_db (apart (St.db s))) (for_each (activeBookings u (St.db s)) cancelOwnBooking))
      by (apply preserves_for_each; intros; apply un_ownBooking, undisturbed_apart).
    specialize (P s). rewrite R in P. apply P. split; reflexivity.
  - intros k S. assert (P : preserves (on_db (shut u k)) (for_each (activeBookings u (St.db s)) cancelOwnBooking))
      by (apply preserves_for_each; intros; apply un_ownBooking, undisturbed_shut).
    specialize (P s). rewrite R in P. exact (P S).
Qed.

(** The market first: what is left of the user's requests and offers. *)
Lemma market_spec u s :
  let s1 := (deleteRequests u s).1 in
  let s2 := (deleteMany prisma.rideRequestOffer (fun o =>
    bool_decide (RideRequestOffer.driverId o = u) && negb (bool_decide (RideRequestOffer.status o = "ACCEPTED"%string))) s1).1 in
  (deleteRequests u s).2 = Ok tt /\ same_core (St.db s) (St.db s2) /\ St.fx s2 = St.fx s /\
  Db.user (St.db s2) = Db.user (St.db s) /\ papers (St.db s2) = papers (St.db s) /\
  (forall k r, Db.rideRequest (St.db s2) !! k = Some r -> RideRequest.riderId r <> u) /\
  (forall k o, Db.rideRequestOffer (St.db s2) !! k = Some o -> RideRequestOffer.driverId o = u -> RideRequestOffer.status o = "ACCEPTED"%string).
Proof.
  cbv zeta. repeat split.
  - cbn. intros k r. intros [_ F]%map_lookup_filter_Some. cbn in F. apply bool_decide_eq_false in F. exact F.
  - cbn. intros k o [_ F]%map_lookup_filter_Some D. cbn in F. rewrite bool_decide_eq_true_2 in F by exact D.
    apply negb_false_iff, bool_decide_eq_true in F. exact F.
Qed.

(** The bookings the two loops close. *)
Definition onRides (u : string) (d : Db.t) : list RideBooking.t := concat (map snd (activeRides u d)).
Definition ofPassenger (u : string) (d : Db.t) : list RideBooking.t := map fst (activeBookings u d).

Lemma in_onRides u d b : Good d -> (In b (onRides u d) <-> Db.rideBooking d !! RideBooking.id b = Some b /\ isActive b = true /\
  exists r, Db.ride d !! RideBooking.rideId b = Some r /\ Ride.driverId r = u /\ Ride.status r ∈ CANCELLABLE_RIDE_STATUSES).
Proof.
  intros G. unfold onRides. rewrite in_concat. split.
  - intros (m & M & I). apply in_map_iff in M as (x & <- & M).
    destruct (listed_rides u _ x G M) as (Er & D & S & Ex). rewrite Ex in I. destruct (listed_booking _ _ b G I) as [[P%bool_decide_eq_true A]%andb_true_iff E].
    split; [exact E|]. split; [exact A|]. exists x.1. rewrite P. auto.
  - intros (E & A & r & Er & D & S). exists (where_ prisma.rideBooking (fun b => bool_decide (RideBooking.rideId b = Ride.id r) && isActive b) d). split.
    + apply in_map_iff. eexists (r, _). split; [reflexivity|]. unfold activeRides. apply in_map_iff. exists r. split; [reflexivity|].
      apply where_elem. rewrite !bool_decide_eq_true_2 by assumption. split; [reflexivity | eauto].
    + apply where_elem. rewrite (inv_ride_id _ (good_seats _ G) _ r Er), bool_decide_eq_true_2, A by reflexivity. split; [reflexivity | eauto].
Qed.

Lemma in_ofPassenger u d b : Good d -> (In b (ofPassenger u d) <->
  Db.rideBooking d !! RideBooking.id b = Some b /\ isActive b = true /\ RideBooking.passengerId b = u).
Proof.
  intros G. unfold ofPassenger. split.
  - intros I. apply in_map_iff in I as (x & <- & I). apply list_elem_of_In, list_elem_of_omap in I as (y & I & Q). apply list_elem_of_In in I.
    destruct (Db.ride d !! _); [|discriminate Q]. injection Q as <-. destruct (listed_booking _ _ _ G I) as [[P%bool_decide_eq_true A]%andb_true_iff E]. auto.
  - intros (E & A & P). destruct (inv_ride _ (good_seats _ G) _ b E) as [r Er]. apply in_map_iff. exists (b, r). split; [reflexivity|].
    apply list_elem_of_In, list_elem_of_omap. exists b. split; [|rewrite Er; reflexivity]. apply list_elem_of_In, where_elem.
    rewrite bool_decide_eq_true_2, A by exact P. split; [reflexivity | eauto].
Qed.

(** A listed row is recognised by its id. *)
Lemma listed_id (L : list RideBooking.t) d b : Db.rideBooking d !! RideBooking.id b = Some b ->
  (forall x, In x L -> Db.rideBooking d !! RideBooking.id x = Some x) -> RideBooking.id b ∈ map RideBooking.id L -> In b L.
Proof.
  intros E Q I. apply list_elem_of_In, in_map_iff in I as (x & Ex & I). replace b with x; [exact I|]. pose proof (Q x I). congruence.
Qed.

Lemma final_inactive b : isActive (final b) = false.
Proof. unfold final, isActive. destruct (refundOf b); reflexivity. Qed.

(** Both loops, on one booking. *)
Lemma loops_on_booking u d s1 s2 b : Good d -> Good (St.db s1) -> Db.rideBooking d !! RideBooking.id b = Some b ->
  (forall x, In x (onRides u d) -> Db.rideBooking (St.db s1) !! RideBooking.id x = Some (final x) /\ paidBack x (St.fx s1)) ->
  (forall k, k ∉ map RideBooking.id (onRides u d) -> Db.rideBooking (St.db s1) !! k = Db.rideBooking d !! k) ->
  (forall x, In x (ofPassenger u (St.db s1)) -> Db.rideBooking (St.db s2) !! RideBooking.id x = Some (final x) /\ paidBack x (St.fx s2)) ->
  (forall k, k ∉ map RideBooking.id (ofPassenger u (St.db s1)) -> Db.rideBooking (St.db s2) !! k = Db.rideBooking (St.db s1) !! k) ->
  (exists l, St.fx s2 = l ++ St.fx s1) ->
  (affected u d b -> Db.rideBooking (St.db s2) !! RideBooking.id b = Some (final b) /\ paidBack b (St.fx s2)) /\
  (~ affected u d b -> Db.rideBooking (St.db s2) !! RideBooking.id b = Some b).
Proof.
  intros G G1 E D1 D2 D3 D4 [l F].
  assert (L1 : forall x, In x (onRides u d) -> Db.rideBooking d !! RideBooking.id x = Some x) by (intros x I; apply (in_onRides u d x G), I).
  assert (L2 : forall x, In x (ofPassenger u (St.db s1)) -> Db.rideBooking (St.db s1) !! RideBooking.id x = Some x)
    by (intros x I; apply (in_ofPassenger u _ x G1), I).
  destruct (decide (RideBooking.id b ∈ map RideBooking.id (onRides u d))) as [I|N].
  - apply (listed_id _ d b E L1) in I. destruct (D1 b I) as [Eb P]. split.
    + intros _. rewrite D4; [split; [exact Eb | rewrite F; apply paidBack_app, P]|]. intros (x & Q & Ix)%list_elem_of_In%in_map_iff.
      pose proof (L2 x Ix) as Ex. rewrite Q, Eb in Ex. injection Ex as <-. apply (in_ofPassenger u _ _ G1) in Ix as (_ & A & _).
      rewrite final_inactive in A. discriminate A.
    + intros Na. exfalso. apply Na. apply (in_onRides u d b G) in I as (_ & A & R). split; [exact A | right; exact R].
  - assert (E1 : Db.rideBooking (St.db s1) !! RideBooking.id b = Some b) by (rewrite D2; assumption). split.
    + intros [A [P|R]]; [apply D3, (in_ofPassenger u _ b G1); auto|]. exfalso. apply N. apply list_elem_of_In, in_map, (in_onRides u d b G). auto.
    + intros Na. rewrite D4; [exact E1|]. intros I. apply (listed_id _ _ b E1 L2), (in_ofPassenger u _ b G1) in I as (_ & A & P).
      apply Na. split; [exact A | left; exact P].
Qed.

Lemma delete_spec u s : Good (St.db s) ->
  wp (deleteUserAccount u) (fun s' r => Life (St.db s) (St.db s') /\ (r = Ok tt -> Gone u s s')) s.
Proof.
  intros G. pose proof (life_refl _ G) as L. unfold deleteUserAccount. apply wp_bind, wp_get. apply wp_bind, wp_throw_if; intros _; [split; [exact L | discriminate]|].
  destruct (market_spec u s) as (O1 & SC & F2 & U2 & P2 & RQ & OF). set (s1 := (deleteRequests u s).1) in *.
  apply wp_bind, wp_run. intros x y R1. assert (x = s1 /\ y = Ok tt) as [-> ->] by (unfold s1; rewrite R1 in *; auto). cbv beta iota.
  apply wp_bind, wp_run. intros s2 y. rewrite deleteMany_run in *. cbn [fst] in SC, F2, U2, P2, RQ, OF. intros [= <- <-]. cbv beta iota.
  match type of SC with same_core _ (St.db ?z) => set (s2 := z) in * end.
  pose proof (good_core _ _ SC G) as G2. pose proof (life_core _ _ _ SC L) as L2. destruct SC as (S1 & S2 & S3).
  apply wp_bind, wp_get. apply wp_bind. eapply wp_mono; [exact (rides_spec u s2 G2)|]. intros s3 r (C1 & A1 & Sh1). pose proof C1 as (L3 & [l3 F3] & D1).
  pose proof (life_trans _ _ _ L2 L3) as L3'. destruct r as [[]|e]; cbv beta iota; [|split; [exact L3' | discriminate]].
  specialize (Sh1 eq_refl). destruct (D1 eq_refl) as [D2 D3].
  apply wp_bind, wp_get. apply wp_bind. eapply wp_mono; [exact (bookings_spec u s3 (proj1 L3))|]. intros s4 r (C2 & A2 & Sh2). pose proof C2 as (L4 & F4 & D4).
  pose proof (life_trans _ _ _ L3' L4) as L4'. destruct r as [[]|e]; cbv beta iota; [|split; [exact L4' | discriminate]].
  destruct (D4 eq_refl) as [D5 D6].
  apply wp_bind, wp_run. intros s5 y. rewrite deleteMany_run. intros [= <- <-]. cbv beta iota. set (s5 := s4 <| St.db ::= _ |>).
  assert (L5 : Life (St.db s) (St.db s5)) by (refine (life_core _ _ _ _ L4'); repeat split).
  apply wp_bind, wp_update; [intros _; split; [exact L5 | discriminate]|]. intros x Ex. apply wp_ret.
  split; [refine (life_core _ _ _ _ L5); repeat split|]. intros _.
  assert (B : forall k b, Db.rideBooking (St.db s) !! k = Some b ->
    (affected u (St.db s) b -> Db.rideBooking (St.db s4) !! k = Some (final b) /\ paidBack b (St.fx s4)) /\
    (~ affected u (St.db s) b -> Db.rideBooking (St.db s4) !! k = Some b)).
  { intros k b E. pose proof (proj1 (inv_booking_id _ (good_seats _ G) k b E)) as <-. rewrite <- S1 in E.
    pose proof (loops_on_booking u _ s3 s4 b G2 (proj1 L3) E D2 D3 D5 D6 F4) as Q. unfold affected in *. rewrite S2 in Q. exact Q. }
  split; cbn.
  - intros k r E D. exact (Sh2 k (Sh1 k) r E D).
  - intros k b E. apply (B k b E).
  - intros k b E. apply (B k b E).
  - intros k t [_ F]%map_lookup_filter_Some. cbn in F. apply bool_decide_eq_false in F. exact F.
  - intros k r E. rewrite (apart_request _ _ A2), (apart_request _ _ A1) in E. exact (RQ k r E).
  - intros k o E. rewrite (apart_offer _ _ A2), (apart_offer _ _ A1) in E. exact (OF k o E).
  - exists x. rewrite lookup_insert_eq. cbn in Ex. rewrite (apart_user _ _ A2), (apart_user _ _ A1), U2 in Ex. auto.
  - change (papers (St.db s4) = papers (St.db s)). rewrite (apart_papers _ _ A2), (apart_papers _ _ A1). exact P2.
Qed.

Lemma safe_deleteUserAccount u : safe (deleteUserAccount u).
Proof.
  apply safe_start. intros s G. eapply wp_mono; [exact (delete_spec u s G)|]. intros s' r [L _]. exact L.
Qed.
End account.
