(* ===== verification/Lifecycle.v ===== *)
(** * The life of a booking

    [run] dispatches a request, a job or a webhook to its handler, every one that writes a
    booking, a ride or a leg but the hard deletion of an account ([hardDeleteUserAccount],
    behind a setting), which erases every row of the user and is not modelled; [step] is
    one such call, at any time and with any answers of the outside, or the publishing of a
    ride, an offer with its ride, or the checkout of an offer.  Under [loosely] every request
    is a step; under [exactly] only the [ordinary] ones are: without the driver's override,
    and without the refunds and disputes of administrators and the cancellation of a whole
    ride, after which the counters are no longer exact and final bookings move
    ([Overrides.v]).  The theorems hold after any sequence of steps. *)

From Stdlib Require Import ZArith Lia.
From stdpp Require Import base list option strings gmap relations.
From S2P Require Import Prelude JsNumber Money Schema Store Seats Payments Time Segment.
From S2P Require Import ViewToken Pricing Gateway RideRequest Booking DriverBooking RideOps Deadlines Webhook.
From S2P Require Import Disputes Reconciliation Admin Maintenance Invariant Safe DriverRides Eligibility Draft Publish Publishing RequestMarket MarketSafe.
From S2P Require Import Deletion RideSafe DriverSafe JobSafe Overrides DeletionSafe.

Open Scope Z_scope.

Inductive Request :=
| CreateBooking (passengerId : string) (input : CreateBookingInput.t) (offer : option string)
| ConfirmPayment (passengerId bookingId : string)
| ResumePayment (passengerId bookingId : string)
| ExtendWait (passengerId bookingId : string)
| CancelBooking (passengerId bookingId : string) (reason : option string)
| WithdrawBooking (passengerId bookingId : string) (reason : option string)
| AcceptBooking (driverId bookingId : string)
| RejectBooking (driverId bookingId reason : string)
| CancelAfterAccept (driverId bookingId reason : string)
| DeadlineJob (name bookingId : string)
| Sweep
| StripeEvent_ (event : StripeEvent.t)
| Outbox (batchSize : nat)
| StartRide (driverId rideId : string) (input : RideEventInput.t)
| DriverArrived (driverId bookingId : string) (input : RideEventInput.t)
| RiderArrived (passengerId bookingId : string) (input : RideEventInput.t)
| VerifyPickup (driverId bookingId : string) (otp : option string) (input : RideEventInput.t)
| MarkNoShow (driverId bookingId : string) (input : RideEventInput.t)
| ConfirmDropoff (driverId bookingId : string) (input : RideEventInput.t)
| RiderConfirmDropoff (passengerId bookingId : string) (input : RideEventInput.t)
| ReportMissedPickup (passengerId bookingId : string) (input : RideEventInput.t)
| FinishRide (driverId rideId : string) (input : RideEventInput.t)
| SubmitLocation (driverId rideId : string) (input : LocationInput.t)
| SimulatePickup (driverId bookingId : string) (input : RideEventInput.t)
| SimulateDropoff (driverId bookingId : string) (input : RideEventInput.t)
| VerifyPickupOtp (driverId bookingId : string) (otp : option string) (forced : bool) (overrideReason : option string)
| VerifyDropOtp (driverId bookingId : string) (otp : option string) (forced : bool) (overrideReason : option string)
| SyncOffline (actorId : string) (actions : list OfflineAction.t)
| MaintenanceJob (name : string)
| CollectEvidence (disputeId : string)
| EvaluateDispute (disputeId : string)
| ResolveIssue (issueId adminId resolution : string)
| ForceComplete (bookingId adminId reason : string)
| ListDriverRides (driverId : string) (statuses : list RideStatus.t) (page limit : Z)
| StartPublished (driverId rideId : string)
| CompletePublished (driverId rideId : string)
| DeleteAccount (userId : string)
| AdminRefund (bookingId : string)
| AdminOpenDispute (bookingId adminId reason : string) (description : option string)
| AdminEvaluate (disputeId adminId : string)
| SettleDispute (disputeId : string) (resolution : DisputeResolution) (adminId : string) (refundPercent : option num)
| CancelRide (driverId rideId : string).

(** A request that keeps to the table of moves and counts every seat: it does not use the
    driver's override (starting a ride, reporting a missed pickup and the simulation ignore
    it), and is no refund or dispute of an administrator and no cancellation of a ride. *)
Definition ordinary (r : Request) : bool :=
  match r with
  | DriverArrived _ _ i | VerifyPickup _ _ _ i | MarkNoShow _ _ i | ConfirmDropoff _ _ i | RiderConfirmDropoff _ _ i
  | FinishRide _ _ i => negb (RideEventInput.force i)
  | VerifyPickupOtp _ _ _ forced _ | VerifyDropOtp _ _ _ forced _ => negb forced
  | SyncOffline _ actions => forallb recordedOnly actions
  | AdminRefund _ | AdminOpenDispute _ _ _ _ | AdminEvaluate _ _ | SettleDispute _ _ _ _ | CancelRide _ _ => false
  | _ => true
  end.

(** The share of a route a segment covers, computed outside. *)
Notation Shares := (Ride.t -> SegmentPoint.t -> SegmentPoint.t -> option (num * num)).

Definition run `{Env} `{Codec} `{RideZone} (shares : Shares) (r : Request) : H unit :=
  match r with
  | CreateBooking p i o => createBooking shares p i o;; mret tt
  | ConfirmPayment p b => confirmBookingPayment p b;; mret tt
  | ResumePayment p b => resumeBookingPayment p b;; mret tt
  | ExtendWait p b => extendWaitForDriver p b;; mret tt
  | CancelBooking p b r => cancelBooking p b r;; mret tt
  | WithdrawBooking p b r => withdrawBooking p b r;; mret tt
  | AcceptBooking d b => acceptBooking d b;; mret tt
  | RejectBooking d b r => rejectBooking d b r;; mret tt
  | CancelAfterAccept d b r => cancelAfterAccept d b r;; mret tt
  | DeadlineJob n b => deadlineWorker n b
  | Sweep => checkExpiredDeadlines;; mret tt
  | StripeEvent_ e => handleStripeWebhook e;; mret tt
  | Outbox n => processOutboxEvents n;; mret tt
  | StartRide d r i => startRide d r i;; mret tt
  | DriverArrived d b i => driverArrived d b i;; mret tt
  | RiderArrived p b i => riderArrivedAtPickup p b i;; mret tt
  | VerifyPickup d b o i => verifyPickupAndBoard d b o i;; mret tt
  | MarkNoShow d b i => markNoShow d b i;; mret tt
  | ConfirmDropoff d b i => confirmDropoff d b i;; mret tt
  | RiderConfirmDropoff p b i => riderConfirmDropoff p b i;; mret tt
  | ReportMissedPickup p b i => reportMissedPickup p b i;; mret tt
  | FinishRide d r i => finishRide d r i;; mret tt
  | SubmitLocation d r i => submitLocation d r i;; mret tt
  | SimulatePickup d b i => devSimulatePickup d b i;; mret tt
  | SimulateDropoff d b i => devSimulateDropoff d b i;; mret tt
  | VerifyPickupOtp d b o f w => verifyPickupOtp d b o f w;; mret tt
  | VerifyDropOtp d b o f w => verifyDropOtp d b o f w;; mret tt
  | SyncOffline a l => syncOfflineActions a l;; mret tt
  | MaintenanceJob n => maintenanceWorker n
  | CollectEvidence d => collectEvidence d;; mret tt
  | EvaluateDispute d => evaluateDispute d;; mret tt
  | ResolveIssue i a r => resolveIssue i a r;; mret tt
  | ForceComplete b a r => adminForceCompleteBooking b a r;; mret tt
  | ListDriverRides d l p n => PublishRide.getUserRides d l p n;; mret tt
  | StartPublished d r => PublishRide.startRide d r;; mret tt
  | CompletePublished d r => PublishRide.completeRide d r;; mret tt
  | DeleteAccount u => UserGdpr.deleteUserAccount u
  | AdminRefund b => adminRefundBooking b;; mret tt
  | AdminOpenDispute b a r d => adminOpenBookingDispute b a r d;; mret tt
  | AdminEvaluate d a => adminEvaluate d a;; mret tt
  | SettleDispute d r a p => settleDispute d r a p;; mret tt
  | CancelRide d r => PublishRide.cancelRide d r
  end.

(** [crypto.randomUUID] never answers the empty string.  The capacities of drafts and offers are those the
    validators let through; the market's other operations leave rides and bookings alone. *)
Inductive step `{Mode} : St.t -> St.t -> Prop :=
| step_run (env : Env) (codec : Codec) (zone : RideZone) (shares : Shares) (r : Request) (s : St.t) :
    (forall n, uuid n <> EmptyString) -> (strict = true -> ordinary r = true) -> step s (run shares r s).1
| step_publish (env : Env) (skips : Eligibility.EligibilityEnv) (google : DraftRide.Google) (limits : DraftRide.PublishEnv)
    (driverId : string) (draft : DraftRide.Draft.t) (s : St.t) :
    valid_capacity draft = true -> step s (PublishDraft.publishDraft driverId draft s).1
| step_offer (env : Env) (skips : Eligibility.EligibilityEnv) (google : DraftRide.Google) (maps : RequestMaps)
    (requestId driverId : string) (input : OfferInput.t) (s : St.t) :
    0 <= OfferInput.totalSeats input -> step s (createOffer requestId driverId input s).1
| step_checkout (env : Env) (skips : Eligibility.EligibilityEnv) (codec : Codec) (shares : Shares) (offerId riderId : string) (s : St.t) :
    (forall n, uuid n <> EmptyString) -> step s (checkoutOffer shares offerId riderId s).1.

(** ** Every request is safe *)

Section requests.
Context `{Env} `{Codec} `{RideZone} `{Mode}.

Lemma safe_ordinary shares (U : forall n, uuid n <> EmptyString) (r : Request) : ordinary r = true -> safe (run shares r).
Proof.
  destruct r; cbn [run ordinary]; intros F; try discriminate; try apply negb_true_iff in F; subst;
    try lazymatch goal with |- safe (_ ≫= _) => apply safe_bind; [|intros ?; solve_safe] end.
  - apply safe_createBooking, U.
  - apply safe_confirmPayment.
  - apply safe_resumePayment.
  - apply safe_extend.
  - apply safe_cancel.
  - apply safe_withdraw.
  - apply safe_accept.
  - apply safe_reject.
  - apply safe_cancelAfterAccept.
  - exact (safe_worker shares name bookingId).
  - apply safe_sweep.
  - apply safe_webhook.
  - apply quiet_safe, quiet_processOutbox.
  - apply safe_start_ride.
  - apply safe_driverArrived, F.
  - apply safe_riderArrived.
  - apply safe_verifyPickup, F.
  - apply safe_markNoShow, F.
  - apply safe_confirmDropoff, F.
  - apply safe_riderConfirmDropoff, F.
  - apply safe_missedPickup.
  - apply safe_finishRide, F.
  - apply quiet_safe, quiet_submitLocation.
  - apply safe_devPickup.
  - apply safe_devDropoff.
  - apply safe_verifyPickupOtp.
  - apply safe_verifyDropOtp.
  - apply quiet_safe, quiet_sync, F.
  - apply safe_maintenance.
  - apply quiet_safe, quiet_collectEvidence.
  - apply quiet_safe, quiet_evaluateDispute.
  - apply quiet_safe, quiet_resolveIssue.
  - apply safe_forceComplete.
  - apply safe_getUserRides.
  - apply safe_publish_start.
  - apply safe_publish_complete.
  - apply safe_deleteUserAccount.
Qed.

Lemma safe_extraordinary shares (r : Request) : strict = false -> ordinary r = false -> safe (run shares r).
Proof.
  intros Loose. destruct r; cbn [run ordinary]; intros F; try discriminate F;
    try lazymatch goal with |- safe (_ ≫= _) => apply safe_bind; [|intros ?; solve_safe] end.
  - apply (loose_driverArrived Loose).
  - apply (loose_verifyPickup Loose).
  - apply (loose_markNoShow Loose).
  - apply (loose_confirmDropoff Loose).
  - apply (loose_riderConfirmDropoff Loose).
  - apply (loose_finishRide).
  - apply (loose_verifyPickupOtp Loose).
  - apply (loose_verifyDropOtp Loose).
  - apply (loose_sync Loose).
  - apply (loose_adminRefund Loose).
  - apply (loose_adminOpenDispute Loose).
  - apply (loose_adminEvaluate Loose).
  - apply (loose_settleDispute Loose).
  - apply (loose_cancelRide Loose).
Qed.

Lemma safe_run shares (U : forall n, uuid n <> EmptyString) (r : Request) :
  (strict = true -> ordinary r = true) -> safe (run shares r).
Proof.
  intros F. destruct (ordinary r) eqn:O; [exact (safe_ordinary shares U r O)|].
  apply safe_extraordinary; [|exact O]. destruct strict; [discriminate (F eq_refl) | reflexivity].
Qed.
End requests.

(** ** Reachability *)

Section reachability.
Context `{Mode}.

Lemma step_life s s' : Good (St.db s) -> step s s' -> Life (St.db s) (St.db s').
Proof.
  intros G St. destruct St as [env codec zone shares r s U F|env skips google limits driverId draft s V
    |env skips google maps requestId driverId input s V|env skips codec shares offerId riderId s U].
  - exact (safe_run shares U r F (St.db s) s (life_refl _ G)).
  - exact (safe_publish driverId draft V (St.db s) s (life_refl _ G)).
  - exact (safe_createOffer requestId driverId input V (St.db s) s (life_refl _ G)).
  - exact (safe_checkoutOffer shares offerId riderId U (St.db s) s (life_refl _ G)).
Qed.

Lemma steps_life s s' : Good (St.db s) -> rtc step s s' -> Life (St.db s) (St.db s').
Proof.
  intros G R. induction R as [s|s s1 s2 St R IH]; [apply life_refl, G|].
  pose proof (step_life s s1 G St) as L. exact (life_trans _ _ _ L (IH (proj1 L))).
Qed.

(** *** Seats *)

(** C1.  No ride is oversold, whatever happens short of erasing a user's rows: from a state that satisfies the invariant,
    after any sequence of requests, jobs, sweeps, webhooks, deleted accounts, rides published,
    offered or cancelled, offers checked out, steps of a ride, overridden or not, and refunds
    and disputes of administrators (each with any clock, any ids and any answer or failure of
    the outside) the seats shown free on a ride are at most its seats minus those its
    bookings hold and never negative, no ride or leg carries more than its seats, and a
    booking that waits for its payment holds none.  When every request was [ordinary], the
    counters of rides and legs are exact, a booking holds its seats unless it is unpaid,
    failed, cancelled or refunded, when it holds none, and a rider has at most one active
    booking on a ride. *)
Theorem no_ride_oversold_by_any_run (s s' : St.t) :
  Good (St.db s) -> rtc step s s' ->
  let d := St.db s' in
  (forall k r, Db.ride d !! k = Some r ->
     0 <= Ride.availableSeats r <= Ride.totalSeats r - held d k /\ 0 <= held d k <= Ride.totalSeats r) /\
  (forall k c r, Db.rideSegmentCapacity d !! k = Some c -> Db.ride d !! RideSegmentCapacity.rideId c = Some r ->
     0 <= seatsOver d c <= Ride.totalSeats r /\ seatsOver d c <= RideSegmentCapacity.occupiedSeats c) /\
  (forall k b, Db.rideBooking d !! k = Some b ->
     RideBooking.status b = BookingStatus.PAYMENT_PENDING -> RideBooking.seatsReservedAt b = None) /\
  (strict = true ->
    (forall k r, Db.ride d !! k = Some r -> Ride.availableSeats r = Ride.totalSeats r - held d k) /\
    (forall k c, Db.rideSegmentCapacity d !! k = Some c -> RideSegmentCapacity.occupiedSeats c = seatsOver d c) /\
    (forall k b, Db.rideBooking d !! k = Some b ->
       (RideBooking.status b ∉ UNHELD_BOOKING_STATUSES -> is_Some (RideBooking.seatsReservedAt b)) /\
       (RideBooking.status b ∈ UNHELD_BOOKING_STATUSES -> RideBooking.seatsReservedAt b = None)) /\
    (forall k1 k2 b1 b2, Db.rideBooking d !! k1 = Some b1 -> Db.rideBooking d !! k2 = Some b2 ->
       RideBooking.rideId b1 = RideBooking.rideId b2 -> RideBooking.passengerId b1 = RideBooking.passengerId b2 ->
       RideBooking.status b1 ∈ ACTIVE_BOOKING_STATUSES -> RideBooking.status b2 ∈ ACTIVE_BOOKING_STATUSES ->
       k1 = k2)).
Proof.
  intros G R d. destruct (steps_life s s' G R) as [G' _]. destruct (SeatInv_bounds _ (good_seats _ G')) as [A B].
  assert (Le : forall x y, agrees x y -> x <= y) by (intros; by_agrees).
  split; [intros k r E; destruct (A k r E) as (Ag%Le & P & Q); fold d in Ag, Q; lia|].
  split; [intros k c r E Er; destruct (B k c r E Er) as (Ag%Le & Q); split; assumption|].
  split; [exact (good_pending _ G')|]. intros X.
  assert (Eq : forall x y, agrees x y -> x = y) by (intros x y; unfold agrees; rewrite X; auto).
  split; [intros k r E; exact (Eq _ _ (proj1 (A k r E)))|].
  split; [intros k c E; symmetry; exact (Eq _ _ (inv_occupied _ (good_seats _ G') k c E))|].
  split; [|exact (good_active _ G' X)].
  intros k b E. split; [exact (good_held _ G' X k b E) | exact (good_unheld _ G' X k b E)].
Qed.

(** C2.  A booking is for good: whatever happens, overridden steps, refunds of
    administrators, disputes and cancelled rides included (but not the erasing of a user's
    rows), it stays in the store with its
    ride, its rider and its seats, and once paid or closed it never waits for a payment
    again.  When every request was [ordinary], its status only moves along
    [BOOKING_TRANSITIONS], and a failed, cancelled, refunded, missed or completed booking is
    final. *)
Theorem bookings_only_move_forward (s s' : St.t) (k : string) (b : RideBooking.t) :
  Good (St.db s) -> rtc step s s' -> Db.rideBooking (St.db s) !! k = Some b ->
  exists b', Db.rideBooking (St.db s') !! k = Some b' /\ same_seats b b' /\
    RideBooking.passengerId b' = RideBooking.passengerId b /\
    (RideBooking.status b' = BookingStatus.PAYMENT_PENDING -> RideBooking.status b = BookingStatus.PAYMENT_PENDING) /\
    (strict = true ->
       rtc (fun x y => y ∈ BOOKING_TRANSITIONS x) (RideBooking.status b) (RideBooking.status b') /\
       (BOOKING_TRANSITIONS (RideBooking.status b) = [] -> RideBooking.status b' = RideBooking.status b)).
Proof.
  intros G R E. destruct (steps_life s s' G R) as [_ X]. destruct (ext_booking _ _ X k b E) as (b' & E' & S & P & M).
  exists b'. split; [exact E'|]. split; [exact S|]. split; [exact P|]. split; [exact (moves_paid _ _ M)|].
  intros Ex. split; [exact (moves_exact _ _ Ex M) | intros F; exact (moves_final _ _ Ex F M)].
Qed.
End reachability.

(** ** Witnesses: a three-seat ride, a request that waits for the driver and an
    unpaid one *)

Definition demo_ride : Ride.t :=
  Ride.defaults "r1" 0 <| Ride.driverId := "d1"%string |> <| Ride.totalSeats := 3 |>
    <| Ride.availableSeats := 2 |> <| Ride.status := RideStatus.PUBLISHED |>
    <| Ride.departureTime := "23:00"%string |>.
Definition demo_waiting : RideBooking.t :=
  RideBooking.defaults "b1" 0 <| RideBooking.rideId := "r1"%string |> <| RideBooking.passengerId := "p1"%string |>
    <| RideBooking.status := BookingStatus.DRIVER_PENDING |> <| RideBooking.seatsReservedAt := Some 5 |>
    <| RideBooking.stripePaymentIntentId := Some "pi_1"%string |> <| RideBooking.paymentCapturedAt := Some 5 |>
    <| RideBooking.totalPrice := num_of_Z 12 |>.
Definition demo_unpaid : RideBooking.t :=
  RideBooking.defaults "b2" 0 <| RideBooking.rideId := "r1"%string |> <| RideBooking.passengerId := "p2"%string |>
    <| RideBooking.seatsBooked := 2 |> <| RideBooking.stripePaymentIntentId := Some "pi_2"%string |>
    <| RideBooking.totalPrice := num_of_Z 20 |>.
Definition demo_intent : PaymentIntent.t := {|
  PaymentIntent.id := "pi_2"; PaymentIntent.status := "succeeded"; PaymentIntent.amount := 2000;
  PaymentIntent.amount_received := 2000; PaymentIntent.currency := "eur"; PaymentIntent.latest_charge := None;
  PaymentIntent.metadata_bookingId := Some "b2"%string; PaymentIntent.client_secret := None |}.
Definition demo_db (b1 b2 : RideBooking.t) (available : Z) : Db.t :=
  Db.empty <| Db.ride := {["r1"%string := demo_ride <| Ride.availableSeats := available |>]} |>
    <| Db.rideBooking := <["b1"%string := b1]> {["b2"%string := b2]} |>.
Definition demo_state : St.t := St.Build_t (demo_db demo_waiting demo_unpaid 2) [] 0.
Definition demo_at : Env := demo_env 1000 no_failure.
(** Summer time in Tallinn. *)
Definition demo_zone : RideZone := {| rideTimeOffset := fun _ => 10800000 |}.

Definition demo_accepted : RideBooking.t := demo_waiting <| RideBooking.status := BookingStatus.CONFIRMED |>.

(** The request waits for the driver, or is accepted. *)
Lemma demo_good_of `{Mode} (b1 : RideBooking.t) : b1 = demo_waiting \/ b1 = demo_accepted -> Good (demo_db b1 demo_unpaid 2).
Proof.
  intros B.
  assert (L : forall k b, Db.rideBooking (demo_db b1 demo_unpaid 2) !! k = Some b ->
            (k = "b1"%string /\ b = b1) \/ (k = "b2"%string /\ b = demo_unpaid)).
  { intros k b. cbn. rewrite lookup_insert_Some, lookup_singleton_Some.
    intros [[<- <-]|(_ & <- & <-)]; auto. }
  assert (Ag : forall x, agrees x x) by (intros; by_agrees).
  split; [split|..].
  - intros k b E. destruct B, (L k b E) as [[-> ->]|[-> ->]]; subst b1; split; (reflexivity || discriminate).
  - intros k r. cbn. rewrite lookup_singleton_Some. intros [<- <-]. reflexivity.
  - intros k b E. destruct B, (L k b E) as [[-> ->]|[-> ->]]; subst b1; reflexivity.
  - intros k b E. destruct B, (L k b E) as [[-> ->]|[-> ->]]; subst b1; eexists; reflexivity.
  - intros k r Er.
    change (({["r1"%string := demo_ride <| Ride.availableSeats := 2 |>]} : gmap string Ride.t) !! k = Some r) in Er.
    apply lookup_singleton_Some in Er as [<- <-]. split; [|vm_compute; discriminate].
    match goal with |- agrees ?x ?y => replace y with x by (destruct B; subst b1; vm_compute; reflexivity) end. apply Ag.
  - intros k c E. change ((∅ : gmap string RideSegmentCapacity.t) !! k = Some c) in E.
    rewrite lookup_empty in E. discriminate.
  - intros k b E. destruct (L k b E) as [[-> ->]|[-> ->]]; [destruct B; subst b1; discriminate | reflexivity].
  - intros _ k b E. destruct (L k b E) as [[-> ->]|[-> ->]]; intros A.
    + destruct B; subst b1; eexists; reflexivity.
    + exfalso. apply A. apply list_elem_of_In. cbn. auto.
  - intros _ k b E. destruct (L k b E) as [[-> ->]|[-> ->]]; intros A; [|reflexivity].
    exfalso. destruct B; subst b1; apply list_elem_of_In in A; cbn in A; intuition discriminate.
  - intros _ k1 k2 x1 x2 E1 E2. destruct B, (L k1 x1 E1) as [[-> ->]|[-> ->]], (L k2 x2 E2) as [[-> ->]|[-> ->]];
      subst b1; intros R P; (reflexivity || discriminate P).
Qed.

Lemma demo_good `{Mode} : Good (St.db demo_state).
Proof. apply demo_good_of. left. reflexivity. Qed.

Definition demo_event : StripeEvent.t :=
  {| StripeEvent.id := "evt_1"; StripeEvent.data := payment_intent_succeeded demo_intent |}.

(** The payment of [b2] arrives, then the rider of [b1] cancels. *)
Definition demo_run1 : St.t :=
  (@run demo_at demo_codec demo_zone (fun _ _ _ => None) (StripeEvent_ demo_event) demo_state).1.
Definition demo_run2 : St.t :=
  (@run demo_at demo_codec demo_zone (fun _ _ _ => None) (CancelBooking "p1" "b1" None) demo_run1).1.

Lemma demo_uuid_nonempty n : demo_uuid n <> EmptyString.
Proof. destruct n; discriminate. Qed.

Lemma demo_steps `{Mode} : rtc step demo_state demo_run2.
Proof.
  apply (rtc_l _ _ demo_run1); [|apply rtc_once]; apply step_run; (exact demo_uuid_nonempty || reflexivity).
Qed.

(** Or the administrator refunds [b2], whose two seats stay held, and the driver cancels the
    ride: the seat of [b1] is given back, and the counter does not say so. *)
Definition demo_run3 : St.t := (@run demo_at demo_codec demo_zone (fun _ _ _ => None) (AdminRefund "b2") demo_run1).1.
Definition demo_run4 : St.t := (@run demo_at demo_codec demo_zone (fun _ _ _ => None) (CancelRide "d1" "r1") demo_run3).1.

Lemma demo_loose_steps : rtc (@step loosely) demo_state demo_run4.
Proof.
  apply (rtc_l _ _ demo_run1); [|apply (rtc_l _ _ demo_run3); [|apply rtc_once]]; apply step_run;
    (exact demo_uuid_nonempty || discriminate).
Qed.

Lemma no_ride_oversold_by_any_run_witness :
  (exists r, Db.ride (St.db demo_run2) !! "r1"%string = Some r /\ Ride.availableSeats r = 1 /\
    Ride.availableSeats r = Ride.totalSeats r - held (St.db demo_run2) "r1" /\
    0 <= held (St.db demo_run2) "r1" <= Ride.totalSeats r) /\
  (exists r, Db.ride (St.db demo_run4) !! "r1"%string = Some r /\ Ride.availableSeats r = 0 /\
    Ride.availableSeats r <= Ride.totalSeats r - held (St.db demo_run4) "r1" /\ held (St.db demo_run4) "r1" = 2).
Proof.
  split.
  - assert (E : exists r, Db.ride (St.db demo_run2) !! "r1"%string = Some r /\ Ride.availableSeats r = 1)
      by (vm_compute; eexists; split; reflexivity).
    destruct E as (r & Er & Ea). exists r. split; [exact Er|]. split; [exact Ea|].
    destruct (@no_ride_oversold_by_any_run exactly demo_state demo_run2 demo_good demo_steps) as (A & _ & _ & X).
    split; [exact (proj1 (X eq_refl) "r1"%string r Er) | apply (A "r1"%string r Er)].
  - assert (E : exists r, Db.ride (St.db demo_run4) !! "r1"%string = Some r /\ Ride.availableSeats r = 0)
      by (vm_compute; eexists; split; reflexivity).
    destruct E as (r & Er & Ea). exists r. split; [exact Er|]. split; [exact Ea|].
    split; [|vm_compute; reflexivity].
    apply (proj1 (@no_ride_oversold_by_any_run loosely demo_state demo_run4 demo_good demo_loose_steps) "r1"%string r Er).
Defined.

Lemma bookings_only_move_forward_witness :
  (exists b', Db.rideBooking (St.db demo_run2) !! "b1"%string = Some b' /\
    rtc (fun x y => y ∈ BOOKING_TRANSITIONS x) (RideBooking.status demo_waiting) (RideBooking.status b')) /\
  (exists b', Db.rideBooking (St.db demo_run4) !! "b1"%string = Some b' /\ same_seats demo_waiting b').
Proof.
  split.
  - destruct (@bookings_only_move_forward exactly demo_state demo_run2 "b1" demo_waiting demo_good demo_steps eq_refl)
      as (b' & E & _ & _ & _ & M).
    exists b'. split; [exact E | exact (proj1 (M eq_refl))].
  - destruct (@bookings_only_move_forward loosely demo_state demo_run4 "b1" demo_waiting demo_good demo_loose_steps eq_refl)
      as (b' & E & S & _).
    exists b'. split; [exact E | exact S].
Defined.
