(* ===== verification/Accounts.v ===== *)
(** * What a deleted account leaves

    What [UserGdpr.deleteUserAccount] achieves when it returns, and what it leaves of the
    user, together with the sessions of [Sessions]. *)

From Stdlib Require Import ZArith Lia.
From stdpp Require Import base list option strings gmap relations.
From S2P Require Import Prelude JsNumber Money Schema Store Seats Time Gateway Sessions RideRequest Booking.
From S2P Require Import Deletion Invariant DeletionSafe Lifecycle.

Open Scope Z_scope.

Import UserGdpr.

(** C7.  What a deletion that returns has done: each published or running ride of the user is
    cancelled; the bookings that wait for the driver, are confirmed or in progress, on those
    rides or of the user, are cancelled, hold no seat, and what was paid for them was given
    back; every other booking is as it was (those that wait for the pickup, are on board or
    are being dropped off stay open), and the seats still add up; no request remains, and of
    the offers the accepted ones only; no refresh token of the user opens a session again.
    The user's row is banned and has lost name, date of birth, contact data, consents and the
    Stripe account, and keeps the key of the photo and the name on the Stripe account;
    driving licences, vehicles with their documents, and messages stay as they are. *)
Theorem account_deletion_closes_account `{Mode} (env : Env) (auth : Auth) (u token : string) (decoded : DecodedToken.t) (s s' : St.t) :
  Good (St.db s) -> deleteUserAccount u s = (s', Ok tt) ->
  Good (St.db s') /\ Gone u s s' /\
  (forall b, RideBooking.status (final b) = BookingStatus.CANCELLED /\ RideBooking.seatsReservedAt (final b) = None /\
             RideBooking.refundAmount (final b) = RideBooking.paymentAmount b) /\
  (forall x, User.isBanned (anonymous x) = true /\
     (User.firstName (anonymous x), User.lastName (anonymous x), User.dob (anonymous x), User.email (anonymous x),
      User.phone (anonymous x), User.stripeAccountId (anonymous x)) = (None, None, None, None, None, None) /\
     User.avatarKey (anonymous x) = User.avatarKey x /\ User.stripeAccountName (anonymous x) = User.stripeAccountName x) /\
  (verifyRefreshToken token = Ok decoded -> DecodedToken.id decoded = u ->
   refreshTokenService token s' = (s', Ok (failure "INVALID_REFRESH"))).
Proof.
  intros G E. pose proof (delete_spec u s G) as W. unfold wp in W. rewrite E in W. cbn [fst snd] in W. destruct W as [[G' _] K]. specialize (K eq_refl).
  split; [exact G'|]. split; [exact K|]. split; [intros b; unfold final; destruct (refundOf b); repeat split|].
  split; [intros x; repeat split|]. intros V D.
  assert (N : head (where_ prisma.refreshToken (fun r => hasToken token r && bool_decide (RefreshToken.userId r = DecodedToken.id decoded) &&
    negb (RefreshToken.revoked r)) (St.db s')) = None).
  { rewrite where_nil; [reflexivity|]. intros k r R. pose proof (gone_sessions _ _ _ K k r R) as Q. rewrite (bool_decide_eq_false_2 (_ = _)) by congruence.
    rewrite andb_false_r. reflexivity. }
  unfold refreshTokenService. rewrite V. unfold try_catch, findFirst, get. rewrite bind_run. cbn [fst snd]. rewrite N. reflexivity.
Qed.

(** ** The driver of a ride leaves *)

#[local] Existing Instance exactly.

Definition demo_paid_waiting : RideBooking.t := demo_waiting <| RideBooking.paymentAmount := Some (num_of_Z 12) |>.
Definition demo_before : Db.t := put_booking "b1" demo_paid_waiting (St.db demo_state).

Definition demo_leaving : St.t := St.Build_t (demo_before
  <| Db.user := {["d1"%string := User.defaults "d1" 0 <| User.email := Some "d@example.ee"%string |>]} |>
  <| Db.refreshToken := {["t1"%string := RefreshToken.defaults "t1" 0 <| RefreshToken.userId := "d1"%string |> <| RefreshToken.token := "secret"%string |>]} |>) [] 0.

Lemma demo_paid_neutral : neutral demo_waiting demo_paid_waiting.
Proof. unfold demo_paid_waiting. generalize demo_waiting. intros b. repeat split. Qed.

Lemma demo_before_good : Good demo_before.
Proof. exact (proj1 (life_neutral (St.db demo_state) "b1" demo_waiting demo_paid_waiting demo_good eq_refl demo_paid_neutral)). Qed.

Lemma demo_leaving_good : Good (St.db demo_leaving).
Proof. refine (good_core demo_before _ _ demo_before_good). unfold same_core, demo_leaving. cbn [St.db]. generalize demo_before. intros d. repeat split. Qed.

Definition demo_left : St.t := (@deleteUserAccount demo_at "d1" demo_leaving).1.

Definition demo_d1_auth : Auth := {|
  jwt_sign := fun secret payload jti _ _ => secret +:+ ":" +:+ DecodedToken.id payload +:+ ":" +:+ jti;
  jwt_verify := fun _ _ _ => Ok {| DecodedToken.id := "d1"; DecodedToken.role := UserRole.USER |};
  env_ACCESS_TOKEN_SECRET := Some "access"; env_JWT_SECRET := None; env_REFRESH_TOKEN_SECRET := Some "refresh";
  GOOGLE_CLIENT_ID := None; verifyIdToken := fun _ _ => Ok None;
  TEMP_ADMIN_LOGIN_ENABLED := None; TEMP_ADMIN_LOGIN_EMAIL := None; TEMP_ADMIN_LOGIN_PASSWORD := None |}%string.

Lemma account_deletion_closes_account_witness :
  Good (St.db demo_left) /\ Db.rideBooking (St.db demo_left) !! "b1"%string = Some (@final demo_at demo_paid_waiting) /\
  In (StripeRefund "pi_1" (Some 1200), None) (St.fx demo_left) /\
  @refreshTokenService demo_at demo_d1_auth "secret" demo_left = (demo_left, Ok (failure "INVALID_REFRESH")).
Proof.
  assert (E : @deleteUserAccount demo_at "d1" demo_leaving = (demo_left, Ok tt)).
  { assert (R : (@deleteUserAccount demo_at "d1" demo_leaving).2 = Ok tt) by (vm_compute; reflexivity).
    unfold demo_left. destruct (@deleteUserAccount demo_at "d1" demo_leaving). cbn in *. congruence. }
  destruct (account_deletion_closes_account demo_at demo_d1_auth "d1" "secret" {| DecodedToken.id := "d1"; DecodedToken.role := UserRole.USER |}
    demo_leaving demo_left demo_leaving_good E) as (G & K & _ & _ & R).
  destruct (gone_cancelled _ _ _ K "b1" demo_paid_waiting eq_refl) as [B P].
  { split; [reflexivity|]. right. exists demo_ride. split; [reflexivity|]. split; [reflexivity|]. apply list_elem_of_In. left. reflexivity. }
  split; [exact G|]. split; [exact B|]. split; [|exact (R eq_refl eq_refl)]. apply P. vm_compute. reflexivity.
Defined.

(** The access token is not affected: the guard asks Redis only, where a deletion leaves no
    mark. *)
Example deleted_account_still_allowed :
  @protect demo_at demo_d1_auth (Some "Bearer token"%string) (fun _ => Ok false) =
  Allowed _ {| DecodedToken.id := "d1"; DecodedToken.role := UserRole.USER |}.
Proof. vm_compute. reflexivity. Qed.
