(* ===== verification/Overdue.v ===== *)
(** * Rides that were never started

    What the check of overdue rides of [Maintenance.v] leaves: the rides that are due
    are closed together with their bookings and seats, and the refunds it notes on
    the bookings are asked of Stripe neither by the check nor by a later settlement. *)

From Stdlib Require Import ZArith Lia.
From stdpp Require Import base list option strings gmap.
From S2P Require Import Prelude JsNumber JsText Money Schema Store Seats Payments Payout Time Gateway Rewards.
From S2P Require Import RideRequest Booking DriverBooking RideOps Disputes Reconciliation Deadlines Maintenance.
From S2P Require Import Invariant Safe RideSafe JobSafe Lifecycle.

Open Scope Z_scope.

(** ** The effects of the check *)

Section unasked.
Context `{Env} `{Mode}.
Context (intentId bookingId : string) (n : nat).

(** At most [n] refunds of the intent have been asked for. *)
Definition asked_le (s : St.t) : Prop := (refund_calls Asked intentId (St.fx s) <= n)%nat.
Notation I := asked_le.

Lemma asked_store {A} (m : H A) : (forall s, St.fx (m s).1 = St.fx s) -> preserves I m.
Proof. intros F s Hs. unfold asked_le. rewrite F. exact Hs. Qed.

Lemma asked_perform e : (forall r, isRefundOf intentId (e, r) = false) -> preserves I (perform e).
Proof.
  intros F. apply preserves_bind; [|intros; apply preserves_ret]. intros s Hs. unfold asked_le, call. cbn [fst].
  etrans; [apply Nat.eq_le_incl, (refund_calls_other Asked intentId e), F | exact Hs].
Qed.

Lemma asked_transaction {A} (m : H A) : preserves I m -> preserves I (transaction m).
Proof. intros Hm s Hs. specialize (Hm s Hs). unfold transaction. destruct (m s) as [s' [a|e]]; exact Hm. Qed.

Section table.
Context {R : Type} (t : Table R).

Lemma asked_write g : preserves I (write t g).
Proof. apply asked_store. reflexivity. Qed.

Lemma asked_update id f : preserves I (update t id f).
Proof.
  apply asked_store. intros s. unfold update. rewrite bind_run. cbn. destruct (rows t (St.db s) !! id); reflexivity.
Qed.

Lemma asked_updateManyId id p f : preserves I (updateManyId t id p f).
Proof.
  apply asked_store. intros s. unfold updateManyId. rewrite bind_run. cbn.
  destruct (rows t (St.db s) !! id) as [r|]; [destruct (p r)|]; reflexivity.
Qed.

Lemma asked_create id r : preserves I (create t id r).
Proof.
  apply asked_store. intros s. unfold create. rewrite bind_run. cbn. destruct (rows t (St.db s) !! id); reflexivity.
Qed.

Lemma asked_updateMany p f : preserves I (updateMany t p f).
Proof. apply preserves_bind; [apply preserves_get|]. intros c. apply preserves_bind; [apply asked_write | intros; apply preserves_ret]. Qed.
End table.

Lemma asked_uuid : preserves I randomUUID.
Proof. apply asked_store. reflexivity. Qed.

(** One step of a handler that asks for no refund. *)
Ltac asked_step := first
  [ preserve_step | apply asked_update | apply asked_updateManyId | apply asked_updateMany | apply asked_create
  | apply asked_write | apply asked_uuid | apply asked_transaction | apply asked_perform; reflexivity
  | apply preserves_promise_all; let M := fresh in intros ? M; apply in_map_iff in M as (? & <- & _) ].

Lemma asked_releaseBookingSeats id input : preserves I (releaseBookingSeats id input).
Proof.
  unfold releaseBookingSeats, releaseSegmentSeats, recomputeAvailableSeats, heldSeats, lockRideForSeats.
  repeat asked_step.
Qed.

Lemma asked_closeTransaction ride bookings terminal : preserves I (closeTransaction ride bookings terminal).
Proof. unfold closeTransaction, releaseOverdue. repeat first [apply asked_releaseBookingSeats | asked_step]. Qed.

Lemma asked_checkOverdueRide ride : preserves I (checkOverdueRide ride).
Proof.
  destruct ride as [ride bookings].
  unfold checkOverdueRide, closeOrAlert, promoteRide, alertCompletion, closeOverdueUnstartedRide, notifyRideStakeholders,
    createNotification, hasOpenRideIssue, createRideIssue.
  repeat first [apply asked_closeTransaction | asked_step | cbv zeta].
Qed.

Lemma asked_check : preserves I runRideOverdueCheck.
Proof.
  apply preserves_bind; [apply preserves_get|]. intros rides. induction rides as [|r rides IH]; cbn [checkOverdueRides].
  - apply preserves_ret.
  - repeat first [apply asked_checkOverdueRide | apply IH | asked_step].
Qed.

End unasked.

(** ** The owner of an intent *)

Section owner.
Context `{Env} `{Mode}.
Context (intentId bookingId : string).

(** The intent belongs to one booking. *)
Definition owned (d : Db.t) : Prop := forall k b, Db.rideBooking d !! k = Some b ->
  truthy (RideBooking.stripePaymentIntentId b) = Some intentId -> k = bookingId.
Notation I := (on_db owned).

Lemma owned_put d id b b' : owned d -> Db.rideBooking d !! id = Some b ->
  RideBooking.stripePaymentIntentId b' = RideBooking.stripePaymentIntentId b ->
  owned (with_rows prisma.rideBooking <[id := b']> d).
Proof.
  intros O E F k x. cbn. rewrite lookup_insert_Some. intros [[<- <-]|[_ Ek]]; [rewrite F|]; eauto.
Qed.

Lemma owned_all d (g : RideBooking.t -> RideBooking.t) : owned d ->
  (forall b, RideBooking.stripePaymentIntentId (g b) = RideBooking.stripePaymentIntentId b) ->
  owned (with_rows prisma.rideBooking (fmap g) d).
Proof.
  intros O F k x. cbn. rewrite lookup_fmap. destruct (Db.rideBooking d !! k) as [b|] eqn:E; [|discriminate].
  intros [= <-]. rewrite F. exact (O k b E).
Qed.

Ltac owned_row := intros; first [ assumption | eapply owned_put; [assumption | eassumption | reflexivity] ].

Ltac owned_step := first
  [ preserve_step | apply preserves_update; owned_row | apply preserves_updateManyId; owned_row
  | apply preserves_create; owned_row | apply preserves_transaction | apply preserves_perform | apply preserves_randomUUID
  | apply preserves_write; intros; first [assumption | apply owned_all; [assumption | intros; try case_match; reflexivity]]
  | apply preserves_promise_all; let M := fresh in intros ? M; apply in_map_iff in M as (? & <- & _) ].

Lemma owned_releaseBookingSeats id input : preserves I (releaseBookingSeats id input).
Proof.
  unfold releaseBookingSeats, releaseSegmentSeats, recomputeAvailableSeats, heldSeats, lockRideForSeats, updateMany.
  repeat owned_step.
Qed.

Lemma owned_closeTransaction ride bookings terminal : preserves I (closeTransaction ride bookings terminal).
Proof.
  unfold closeTransaction, releaseOverdue, updateMany. repeat first [apply owned_releaseBookingSeats | owned_step].
Qed.

Lemma owned_checkOverdueRide ride : preserves I (checkOverdueRide ride).
Proof.
  destruct ride as [ride bookings].
  unfold checkOverdueRide, closeOrAlert, promoteRide, alertCompletion, closeOverdueUnstartedRide, notifyRideStakeholders,
    createNotification, hasOpenRideIssue, createRideIssue.
  repeat first [apply owned_closeTransaction | owned_step | cbv zeta].
Qed.

Lemma owned_check : preserves I runRideOverdueCheck.
Proof.
  apply preserves_bind; [apply preserves_get|]. intros rides. induction rides as [|r rides IH]; cbn [checkOverdueRides].
  - apply preserves_ret.
  - repeat first [apply owned_checkOverdueRide | apply IH | owned_step].
Qed.
End owner.

(** ** Results *)

Section results.
Context `{Env} `{Mode}.

Lemma overdue_check_run (s : St.t) (c : OverdueCounts.t) : Good (St.db s) -> (runRideOverdueCheck s).2 = Ok c ->
  Good (St.db (runRideOverdueCheck s).1) /\
  forall ride, In ride (overdueRides (St.db s)) -> due ride -> closedDown ride (St.db (runRideOverdueCheck s).1).
Proof.
  intros G R. destruct (overdueRides_current _ G) as [N C].
  assert (W : wp runRideOverdueCheck (fun s' x => Good (St.db s') /\ forall ride, In ride (overdueRides (St.db s)) ->
    due ride -> x = Ok c -> closedDown ride (St.db s')) s).
  { unfold runRideOverdueCheck. wp_query. wp_query.
    apply (wp_checkOverdueRides (St.db s)); [exact G | apply life_refl, G | exact N | exact C|].
    intros s' x L _ Cl. split; [exact (proj1 L)|]. intros ride Hr D E. exact (Cl ride c Hr D E). }
  unfold wp in W. destruct (runRideOverdueCheck s) as [s' x]. cbn in *. destruct W as [G' W]. auto.
Qed.

(** C10. The check of overdue rides closes them.  Unless a notice fails, every ride
    whose departure passed by the configured time and that nobody started is closed
    when the job is done: it is [EXPIRED] when nobody booked and [CANCELLED]
    otherwise, its open bookings are [CANCELLED], they hold no seat, and the whole
    amount paid is noted as their refund. *)
Theorem overdue_check_closes_unstarted_rides (s : St.t) (c : OverdueCounts.t) :
  Good (St.db s) -> (runRideOverdueCheck s).2 = Ok c ->
  forall ride, In ride (overdueRides (St.db s)) -> due ride -> closedDown ride (St.db (runRideOverdueCheck s).1).
Proof. intros G R. apply (overdue_check_run s c G R). Qed.

(** No dispute returns their money.  The check asks Stripe for nothing and leaves
    the money to disputes; but the refund it notes counts as one that was made, so
    that no later evaluation or settlement of any dispute asks for it either. *)
Theorem overdue_refund_is_never_settled (s : St.t) (c : OverdueCounts.t) (ride : OverdueRide) (b : RideBooking.t)
    (intentId : string) (rs : list AdminRequest) :
  Good (St.db s) -> (runRideOverdueCheck s).2 = Ok c ->
  In ride (overdueRides (St.db s)) -> due ride -> In b (activeOf ride.2) ->
  truthy (RideBooking.stripePaymentIntentId b) = Some intentId -> nlt (num_of_Z 0) (paidAmount b) = true ->
  (forall k x, Db.rideBooking (St.db s) !! k = Some x ->
     truthy (RideBooking.stripePaymentIntentId x) = Some intentId -> k = RideBooking.id b) ->
  (exists b', Db.rideBooking (St.db (runRideOverdueCheck s).1) !! RideBooking.id b = Some b' /\
     RideBooking.refundAmount b' = Some (paidAmount b)) /\
  (refund_calls Asked intentId (St.fx (serve_all rs (runRideOverdueCheck s).1)) <= refund_calls Asked intentId (St.fx s))%nat.
Proof.
  intros G R Hr D Hb T P U. destruct (overdue_check_run s c G R) as [G' Cl].
  destruct (Cl ride Hr D) as [_ Bk]. destruct (Bk b Hb) as (b' & E & _ & _ & Ti & _ & _ & A).
  split; [eauto|]. pose proof (asked_check intentId (refund_calls Asked intentId (St.fx s)) s (le_n _)) as N.
  pose proof (owned_check intentId (RideBooking.id b) s U) as O.
  apply (room_calls Asked intentId (RideBooking.id b)). apply room_serve_all. split; [exact N | |].
  - intros k x Ek. apply (inv_booking_id _ (good_seats _ G') k x Ek).
  - intros k x Ek Tk. pose proof (O k x Ek Tk) as ->. split; [reflexivity|]. rewrite E in Ek. injection Ek as <-.
    intros X. unfold marked, existingRefund in X. rewrite A in X. cbn in X. apply orb_false_iff in X as [_ X].
    rewrite (positive_not_zero _ P) in X. discriminate.
Qed.
End results.

(** ** Concrete runs *)

(** The day after the departure of the demo ride. *)
Definition demo_late : Env := demo_env 100000000 no_failure.
Definition demo_overdue : OverdueRide := (demo_ride <| Ride.availableSeats := 2 |>, [demo_waiting; demo_unpaid]).

Lemma demo_overdue_in : In demo_overdue (@overdueRides demo_late (St.db demo_state)).
Proof. left. vm_compute. reflexivity. Qed.

Lemma demo_due : @due demo_late demo_overdue.
Proof.
  exists 82800000. repeat split; [vm_compute; discriminate|]. apply list_elem_of_In. cbn. auto.
Qed.

Lemma overdue_check_closes_unstarted_rides_witness :
  closedDown demo_overdue (St.db (@runRideOverdueCheck demo_late demo_state).1).
Proof.
  exact (@overdue_check_closes_unstarted_rides demo_late exactly demo_state
    {| OverdueCounts.promoted := 1; OverdueCounts.autoClosed := 1; OverdueCounts.completionAlerts := 0 |}
    demo_good ltac:(vm_compute; reflexivity) demo_overdue demo_overdue_in demo_due).
Defined.

Lemma overdue_refund_is_never_settled_witness : exists s1 : St.t,
  (exists b', Db.rideBooking (St.db s1) !! "b1"%string = Some b' /\
     RideBooking.refundAmount b' = Some (num_of_Z 12)) /\
  (refund_calls Asked "pi_1" (St.fx (@serve_all demo_late [Evaluate "x1" "a1"; Resolve "x1" REFUND "a1" None]
     s1)) <= 0)%nat.
Proof.
  exists (@runRideOverdueCheck demo_late demo_state).1.
  refine (@overdue_refund_is_never_settled demo_late exactly demo_state
    {| OverdueCounts.promoted := 1; OverdueCounts.autoClosed := 1; OverdueCounts.completionAlerts := 0 |}
    demo_overdue demo_waiting "pi_1" _ demo_good ltac:(vm_compute; reflexivity) demo_overdue_in demo_due
    (or_introl eq_refl) eq_refl ltac:(vm_compute; reflexivity) _).
  intros k x. cbn. rewrite lookup_insert_Some, lookup_singleton_Some.
  intros [[<- <-]|[_ [<- <-]]]; [reflexivity | discriminate].
Defined.
