(* ===== verification/Support.v ===== *)
(** * What support does to a booking

    The outcome of the administrator's refund and forced completion of [Admin.v],
    and of the disputes support opens: the seats and payments they leave, and how
    often a payment is given back when disputes and administrators both may. *)

From Stdlib Require Import ZArith QArith Lia.
From stdpp Require Import base list option strings gmap.
From S2P Require Import Prelude JsNumber JsText Money Schema Store Seats Payments Payout Time Gateway Rewards.
From S2P Require Import RideRequest Booking DriverBooking RideOps Disputes Reconciliation Admin.
From S2P Require Import Invariant Safe RideSafe JobSafe Lifecycle.

Open Scope Z_scope.

(** ** The refund *)

(** A booking whose payment an administrator may refund. *)
Record refundable (s : St.t) (id : string) (b : RideBooking.t) (r : Ride.t) (intentId : string) (amount : num) : Prop := {
  refundable_row : Db.rideBooking (St.db s) !! id = Some b;
  refundable_id : RideBooking.id b = id;
  refundable_ride : Db.ride (St.db s) !! RideBooking.rideId b = Some r;
  refundable_none : RideBooking.refundedAt b = None;
  refundable_intent : truthy (RideBooking.stripePaymentIntentId b) = Some intentId;
  refundable_amount : RideBooking.paymentAmount b = Some amount;
  refundable_positive : Qeq_bool amount 0 = false;
}.

Section refund.
Context `{Env} `{Mode}.

Definition refundEffect (intentId : string) (amount : num) : Effect :=
  StripeRefund intentId (Some (toMinorCurrencyUnits amount)).

(** The booking when Stripe has accepted the refund. *)
Definition refundedRow (amount : num) (b : RideBooking.t) : RideBooking.t :=
  adminRefunded amount b <| RideBooking.refundedAt := Some now |>.

Lemma with_booking_twice id b1 b2 (d : Db.t) :
  with_rows prisma.rideBooking <[id := b2]> (with_rows prisma.rideBooking <[id := b1]> d) =
  with_rows prisma.rideBooking <[id := b2]> d.
Proof. cbn. unfold setf. cbn. rewrite insert_insert_eq. reflexivity. Qed.

Lemma wp_adminRefund s id b r intentId amount Q : refundable s id b r intentId amount ->
  (forall e, fails (length (St.fx s)) (refundEffect intentId amount) = Some e ->
     Q (s <| St.fx ::= cons (refundEffect intentId amount, Some e) |>) (Err e)) ->
  (forall s1, fails (length (St.fx s)) (refundEffect intentId amount) = None ->
     St.db s1 = with_rows prisma.rideBooking <[id := refundedRow amount b]> (St.db s) ->
     St.fx s1 = (refundEffect intentId amount, None) :: St.fx s ->
     Q (syncAdminRefund id amount s1).1 (Ok true)) ->
  wp (adminRefundBooking id) Q s.
Proof.
  intros [E I Er N T A P] HE HQ. unfold adminRefundBooking, refundPaymentIntent. wp_query. wp_query.
  assert (o = Some b) as -> by (cbn in *; congruence). wp_query. rewrite N. wp_query; [discriminate|].
  rewrite T, A. cbv beta iota. wp_query. rewrite P. wp_query; [discriminate|]. wp_query. wp_query. wp_query.
  wp_query; [cbn in *; congruence|]. assert (r0 = b) as -> by (cbn in *; congruence). wp_query. wp_query.
  change (St.fx (s <| St.db ::= _ |>)) with (St.fx s) in *.
  match goal with Hf : fails _ _ = o |- _ => rename Hf into F end. change (fails (length (St.fx s)) (refundEffect intentId amount) = o) in F.
  destruct o as [e|].
  - replace (_ <| St.db := St.db s |>) with (s <| St.fx ::= cons (refundEffect intentId amount, Some e) |>) by (destruct s; reflexivity).
    apply HE, F.
  - wp_query; [cbn in E2; rewrite lookup_insert_eq in E2; discriminate|].
    cbn in E2. rewrite lookup_insert_eq in E2. injection E2 as <-.
    match goal with |- wp _ _ ?x => set (s1 := x) end.
    wp_query. apply wp_attempt. wp_query.
    apply (HQ s1); [exact F | | reflexivity]. apply with_booking_twice.
Qed.

Lemma quiet_syncAdmin id amount : quiet (syncAdminRefund id amount).
Proof.
  intros d0. unfold syncAdminRefund, rideOf. repeat first [apply quiet_markBookingPaymentRefunded | quiet_step].
Qed.

(** The seats held on a ride do not change with a row that keeps its own. *)
Lemma held_put (d : Db.t) id b b' rideId : Db.rideBooking d !! id = Some b -> same_seats b b' ->
  RideBooking.seatsReservedAt b' = RideBooking.seatsReservedAt b ->
  sum_map (seatsOn rideId) (<[id := b']> (Db.rideBooking d)) = held d rideId.
Proof.
  intros E (_ & S1 & S2 & _) R. rewrite (sum_map_insert _ _ _ _ _ E). unfold held, seatsOn, holdsOn.
  rewrite S1, S2, R. lia.
Qed.

(** The administrator's refund is all or nothing.  It asks Stripe for the whole
    amount paid.  When Stripe refuses, nothing has changed; when it accepts, the booking
    is [CANCELLED] and marked as refunded whatever happens to the payment's own row.
    The rides and every other booking are as they were. *)
Theorem admin_refund_all_or_nothing (s : St.t) (id : string) (b : RideBooking.t) (r : Ride.t) (intentId : string)
    (amount : num) : refundable s id b r intentId amount ->
  wp (adminRefundBooking id) (fun s' x =>
    match fails (length (St.fx s)) (refundEffect intentId amount) with
    | Some e => x = Err e /\ St.db s' = St.db s
    | None => x = Ok true /\ Db.rideBooking (St.db s') = <[id := refundedRow amount b]> (Db.rideBooking (St.db s)) /\
        Db.ride (St.db s') = Db.ride (St.db s) /\
        Db.rideSegmentCapacity (St.db s') = Db.rideSegmentCapacity (St.db s)
    end) s.
Proof.
  intros R. apply (wp_adminRefund s id b r intentId amount); [exact R | |].
  - intros e ->. auto.
  - intros s1 -> E _. destruct (quiet_syncAdmin id amount (St.db s1) s1) as (E1 & E2 & E3); [repeat split|].
    rewrite E1, E2, E3, E. repeat split.
Qed.

Lemma refused_cancel passengerId id reason (s : St.t) b : Db.rideBooking (St.db s) !! id = Some b ->
  RideBooking.status b = BookingStatus.CANCELLED ->
  wp (cancelBooking passengerId id reason) (fun s' x => s' = s /\ exists e, x = Err e) s.
Proof.
  intros E T. unfold cancelBooking. wp_query. wp_query. wp_query. wp_query; [eauto|]. wp_query.
  wp_query; [wp_query; eauto|]. exfalso. assert (r = b) as -> by (cbn in *; congruence).
  unfold isCancellableBy, has_status in P. rewrite T in P. rewrite andb_false_r in P. discriminate.
Qed.

Lemma refused_decision {A} driverId id st e (s : St.t) b (k : R.t -> H A) : Db.rideBooking (St.db s) !! id = Some b ->
  RideBooking.status b <> st ->
  wp (fetched ← fetchDriverBooking id; r ← requireDriverBooking driverId fetched;
      throw_if (bool_decide (RideBooking.status (R.booking r) <> st)) e;; k r) (fun s' x => s' = s /\ exists e, x = Err e) s.
Proof.
  intros E T. unfold fetchDriverBooking, requireDriverBooking, rideOf, waypointsOf. wp_query. wp_query. wp_query.
  assert (o = Some b) as -> by (cbn in *; congruence). wp_query. wp_query; [eauto|]. wp_query. wp_query. wp_query.
  apply wp_get. wp_query. wp_query. wp_query. wp_query; [eauto|]. wp_query. wp_query. wp_query; [eauto|].
  cbn in *. rewrite bool_decide_eq_true_2 in * by assumption. discriminate.
Qed.

(** A refund by the administrator leaves the seats taken.  The booking is
    [CANCELLED] but keeps its seats: the ride counts as many seats taken as before, a
    reservation that did not fit still does not, and neither the rider nor the driver
    can close the booking again to free them. *)
Theorem admin_refund_strands_seats (s : St.t) (id : string) (b : RideBooking.t) (r : Ride.t) (intentId : string)
    (amount : num) : refundable s id b r intentId amount ->
  fails (length (St.fx s)) (refundEffect intentId amount) = None ->
  let s1 := (adminRefundBooking id s).1 in let rideId := RideBooking.rideId b in
  (exists b1, Db.rideBooking (St.db s1) !! id = Some b1 /\ RideBooking.status b1 = BookingStatus.CANCELLED /\
     RideBooking.seatsReservedAt b1 = RideBooking.seatsReservedAt b) /\
  held (St.db s1) rideId = held (St.db s) rideId /\
  (forall i, ReleaseSeatsInput.rideId i = rideId ->
     ReleaseSeatsInput.totalSeats i < held (St.db s) rideId + ReleaseSeatsInput.seatsBooked i ->
     reserveRideSeats i None s1 = (s1, Err "INSUFFICIENT_SEATS")) /\
  (forall (m : H unit),
     (exists p reason, m = (cancelBooking p id reason;; mret tt)) \/
     (exists d reason, m = (rejectBooking d id reason;; mret tt)) \/
     (exists d reason, m = (cancelAfterAccept d id reason;; mret tt)) ->
     (m s1).1 = s1 /\ exists e, (m s1).2 = Err e).
Proof.
  intros R F s1 rideId.
  assert (D : Db.rideBooking (St.db s1) = <[id := refundedRow amount b]> (Db.rideBooking (St.db s)) /\
              Db.ride (St.db s1) = Db.ride (St.db s)).
  { enough (W : wp (adminRefundBooking id) (fun s' _ =>
      Db.rideBooking (St.db s') = <[id := refundedRow amount b]> (Db.rideBooking (St.db s)) /\
      Db.ride (St.db s') = Db.ride (St.db s)) s).
    { unfold wp in W. subst s1. destruct (adminRefundBooking id s). exact W. }
    apply (wp_adminRefund s id b r intentId amount); [exact R | congruence|].
    intros s2 _ E _. destruct (quiet_syncAdmin id amount (St.db s2) s2) as (E1 & E2 & _); [repeat split|].
    rewrite E1, E2, E. auto. }
  destruct D as [D1 D2]. assert (E1 : Db.rideBooking (St.db s1) !! id = Some (refundedRow amount b)).
  { rewrite D1. apply lookup_insert_eq. }
  assert (Hd : held (St.db s1) rideId = held (St.db s) rideId).
  { unfold held at 1. rewrite D1. apply (held_put _ _ b); [apply R | repeat split | reflexivity]. }
  split; [eauto|]. split; [exact Hd|]. split.
  - intros i Ei Lt. rewrite (reserveRideSeats_run i None s1 r).
    + rewrite heldByOthers_None, Ei, Hd. apply Z.ltb_lt in Lt. rewrite Lt. reflexivity.
    + rewrite D2, Ei. apply R.
  - intros m Hm.
    enough (W : wp m (fun s' x => s' = s1 /\ exists e, x = Err e) s1).
    { unfold wp in W. destruct (m s1). exact W. }
    destruct Hm as [(p & reason & ->)|[(p & reason & ->)|(p & reason & ->)]]; wp_query.
    + apply (wp_mono _ (fun s' x => s' = s1 /\ exists e, x = Err e)); [exact (refused_cancel _ _ _ _ _ E1 eq_refl)|].
      intros s' x [-> [e ->]]. eauto.
    + apply (wp_mono _ (fun s' x => s' = s1 /\ exists e, x = Err e));
        [apply (refused_decision _ _ _ _ _ _ _ E1); discriminate|]. intros s' x [-> [e ->]]. eauto.
    + apply (wp_mono _ (fun s' x => s' = s1 /\ exists e, x = Err e));
        [apply (refused_decision _ _ _ _ _ _ _ E1); discriminate|]. intros s' x [-> [e ->]]. eauto.
Qed.

(** A refund after the payout is not recorded.  Once the driver's money is on its
    way the payment cannot become refunded: the rider gets the whole amount back, the
    booking says so, but payment and ledger stay as if only the driver had been paid,
    and the request answers success. *)
Theorem admin_refund_after_payout_is_unrecorded (s : St.t) (id : string) (b : RideBooking.t) (r : Ride.t)
    (intentId : string) (amount : num) (p : Payment.t) : refundable s id b r intentId amount ->
  Db.payment (St.db s) !! Payment.id p = Some p -> Payment.bookingId p = id ->
  (forall k q, Db.payment (St.db s) !! k = Some q -> Payment.bookingId q = id -> q = p) ->
  Payment.status p ∈ [PaymentStatus.TRANSFER_CREATED; PaymentStatus.PAYOUT_COMPLETED] ->
  fails (length (St.fx s)) (refundEffect intentId amount) = None ->
  wp (adminRefundBooking id) (fun s' x =>
    x = Ok true /\ St.fx s' = (refundEffect intentId amount, None) :: St.fx s /\
    Db.rideBooking (St.db s') = <[id := refundedRow amount b]> (Db.rideBooking (St.db s)) /\
    Db.payment (St.db s') = Db.payment (St.db s) /\ Db.ledgerEntry (St.db s') = Db.ledgerEntry (St.db s)) s.
Proof.
  intros R Ep Bp Up Sp F. apply (wp_adminRefund s id b r intentId amount); [exact R | congruence|].
  intros s1 _ E Fx.
  assert (W : wp (syncAdminRefund id amount) (fun s' _ => s' = s1) s1).
  { unfold syncAdminRefund, rideOf, markBookingPaymentRefunded, findByBooking, markRefunded, assertTransition.
    wp_query. wp_query. destruct o as [u|]; [|wp_query; reflexivity].
    wp_query. wp_query; [reflexivity|]. destruct (truthy _) as [driverId|]; [|wp_query; reflexivity].
    wp_query. wp_query. wp_query.
    assert (o = Some p) as ->.
    { match goal with Ho : head _ = o |- _ => rewrite <- Ho end.
      apply (findFirst_unique prisma.payment _ _ (Payment.id p)).
      - rewrite E. exact Ep.
      - apply bool_decide_eq_true, Bp.
      - rewrite E. intros k q Ek Hq%bool_decide_eq_true. exact (Up k q Ek Hq). }
    wp_query. wp_query. wp_query; [reflexivity|].
    match goal with Er : rows prisma.payment _ !! _ = Some ?x |- _ =>
      assert (x = p) as -> by (rewrite E in Er; cbn in *; congruence) end.
    apply list_elem_of_In in Sp. cbn in Sp. destruct Sp as [T|[T|[]]]; rewrite <- T.
    all: rewrite !decide_False by discriminate; wp_query; wp_query; wp_query; [reflexivity | discriminate]. }
  unfold wp in W. destruct (syncAdminRefund id amount s1) as [s2 x]. cbn in W. subst s2. cbn [fst].
  rewrite Fx, E. repeat split.
Qed.
End refund.

(** ** Every refund of a payment *)

(** The requests that give a booking's money back or decide about it. *)
Inductive MoneyRequest :=
| OfDispute (r : AdminRequest)
| Refund (bookingId : string).

Section refunds.
Context `{Env}.

Definition answer (r : MoneyRequest) : H unit :=
  match r with OfDispute r => serve r | Refund bookingId => adminRefundBooking bookingId;; mret tt end.

Fixpoint answer_all (rs : list MoneyRequest) (s : St.t) : St.t :=
  match rs with [] => s | r :: rs => answer_all rs (answer r s).1 end.

Definition ofDispute (r : MoneyRequest) : bool := match r with OfDispute _ => true | Refund _ => false end.

Section made.
Context (intentId bookingId : string) (n : nat).
Notation I := (refund_room Made intentId bookingId n).

Lemma room_syncAdmin id amount : preserves I (syncAdminRefund id amount).
Proof.
  unfold syncAdminRefund, rideOf, markBookingPaymentRefunded, findByBooking, markRefunded, assertTransition.
  repeat first [preserve_step | apply room_update; reflexivity | apply room_recordRefund].
Qed.

(** The administrator's refund is asked for a booking without one, and marks it. *)
Lemma room_adminRefund id : preserves I (adminRefundBooking id).
Proof.
  apply preserves_wp. intros s Hs. unfold adminRefundBooking, refundPaymentIntent. wp_query. wp_query.
  destruct o as [b|]; [|wp_query; exact Hs]. wp_query. wp_query; [exact Hs|].
  destruct (truthy _) as [i|] eqn:T; [|wp_query; exact Hs]. destruct (RideBooking.paymentAmount b) as [amount|]; [|wp_query; exact Hs].
  wp_query. wp_query; [exact Hs|]. wp_query. wp_query. wp_query. wp_query; [destruct s; exact Hs|].
  assert (r = b) as -> by (cbn in *; congruence). wp_query. wp_query.
  assert (M : marked Made b = false) by assumption.
  assert (Hb : I (s <| St.db ::= with_rows prisma.rideBooking <[id := adminRefunded amount b]> |>)).
  { apply (room_put Made intentId bookingId n s id b (adminRefunded amount b) Hs E eq_refl eq_refl). congruence. }
  assert (C : i = intentId -> (refund_calls Made intentId (St.fx s) < n)%nat).
  { intros ->. exact (proj2 (room_owner _ _ _ _ _ Hs _ _ E T) M). }
  destruct o as [e|].
  - replace (_ <| St.db := St.db s |>) with
      (s <| St.fx ::= cons (StripeRefund i (Some (toMinorCurrencyUnits amount)), Some e) |>) by (destruct s; reflexivity).
    apply (room_refused Made intentId bookingId n s id b); [exact Hs | exact E | exact T | exact C | discriminate].
  - assert (E1 : rows prisma.rideBooking (with_rows prisma.rideBooking <[id := adminRefunded amount b]> (St.db s)) !! id =
                 Some (adminRefunded amount b)) by apply lookup_insert_eq.
    wp_query; [cbn in *; congruence|].
    assert (r = adminRefunded amount b) as -> by (cbn in *; congruence). wp_query. apply wp_attempt. wp_query.
    apply room_syncAdmin.
    apply (room_refunded Made intentId bookingId n _ id (adminRefunded amount b)); cbn; eauto.
Qed.

Lemma room_answer r : preserves I (answer r).
Proof.
  destruct r as [r|id]; [apply room_serve|]. apply preserves_bind; [apply room_adminRefund | intros; apply preserves_ret].
Qed.

Lemma room_answer_all rs (s : St.t) : I s -> I (answer_all rs s).
Proof. revert s. induction rs as [|r rs IH]; intros s Hs; [exact Hs|]. apply IH, room_answer, Hs. Qed.
End made.

Lemma room_asked intentId bookingId n rs (s : St.t) : forallb ofDispute rs = true ->
  refund_room Asked intentId bookingId n s -> refund_room Asked intentId bookingId n (answer_all rs s).
Proof.
  revert s. induction rs as [|[r|id] rs IH]; intros s; cbn; [auto | | discriminate].
  intros D Hs. apply IH; [exact D|]. apply room_serve, Hs.
Qed.

(** The room a booking leaves at the start. *)
Lemma room_start (t : Tally) (s : St.t) bookingId intentId b :
  (forall k x, Db.rideBooking (St.db s) !! k = Some x -> RideBooking.id x = k) ->
  Db.rideBooking (St.db s) !! bookingId = Some b ->
  (forall k x, Db.rideBooking (St.db s) !! k = Some x ->
     truthy (RideBooking.stripePaymentIntentId x) = Some intentId -> k = bookingId) ->
  refund_room t intentId bookingId (refund_calls t intentId (St.fx s) + if marked t b then 0 else 1) s.
Proof.
  intros K E U. split; [lia | exact K|]. intros k x Ek T. pose proof (U k x Ek T) as ->. split; [reflexivity|].
  assert (x = b) as -> by congruence. intros ->. lia.
Qed.

(** C6. A payment is refunded at most once.  Both parties may have disputes open on one
    booking, evaluations may be repeated, administrators may order the refund itself
    and calls may fail.  Over any sequence of evaluations and settlements of any disputes and of
    refunds by an administrator, Stripe makes at most one refund of a booking's payment,
    and none when the booking is marked as refunded.  Over evaluations and
    settlements alone at most one is even asked for, and none when the booking has a
    refund noted. *)
Theorem settlements_refund_once (s : St.t) (rs : list MoneyRequest) (bookingId intentId : string) (b : RideBooking.t) :
  (forall k x, Db.rideBooking (St.db s) !! k = Some x -> RideBooking.id x = k) ->
  Db.rideBooking (St.db s) !! bookingId = Some b ->
  (forall k x, Db.rideBooking (St.db s) !! k = Some x ->
     truthy (RideBooking.stripePaymentIntentId x) = Some intentId -> k = bookingId) ->
  (refund_calls Made intentId (St.fx (answer_all rs s)) <=
   refund_calls Made intentId (St.fx s) + if decide (is_Some (RideBooking.refundedAt b)) then 0 else 1)%nat /\
  (forallb ofDispute rs = true ->
   refund_calls Asked intentId (St.fx (answer_all rs s)) <=
   refund_calls Asked intentId (St.fx s) + if existingRefund b then 0 else 1)%nat.
Proof.
  intros K E U. split.
  - pose proof (room_answer_all _ _ _ rs s (room_start Made s bookingId intentId b K E U)) as [N _ _].
    cbn [marked] in N. case_decide as D.
    + rewrite bool_decide_eq_true_2 in N by exact D. exact N.
    + rewrite bool_decide_eq_false_2 in N by exact D. exact N.
  - intros D. pose proof (room_asked _ _ _ rs s D (room_start Asked s bookingId intentId b K E U)) as [N _ _]. exact N.
Qed.
End refunds.

(** ** Forced completion *)

Section completion.
Context `{Env} `{Mode}.

Lemma noOpenDispute_none d id : noOpenDispute d id = true ->
  where_ prisma.dispute (fun x => bool_decide (Dispute.bookingId x = id) &&
    bool_decide (Dispute.status x ∈ OPEN_DISPUTE_STATUSES)) d = [].
Proof.
  unfold noOpenDispute. intros N%negb_true_iff. destruct (where_ _ _ _) as [|x l] eqn:Eo; [reflexivity|]. exfalso.
  assert (In x (x :: l)) as Hx by (left; reflexivity). rewrite <- Eo in Hx. unfold where_ in Hx.
  apply filter_In in Hx as [Hx Px]. apply Bool.not_true_iff_false in N. apply N, existsb_exists. eauto.
Qed.

(** Rewards write to their own tables. *)
Definition off_rewards (d0 d : Db.t) : Prop :=
  Db.payment d = Db.payment d0 /\ Db.reconciliationIssue d = Db.reconciliationIssue d0 /\
  Db.dispute d = Db.dispute d0 /\ same_core d0 d.

Ltac reward_step := first
  [ preserve_step
  | apply preserves_update; intros; assumption | apply preserves_create; intros; assumption
  | apply preserves_updateManyId; intros; assumption | apply preserves_write; intros; assumption
  | apply preserves_transaction | apply preserves_attempt ].

Lemma reward_campaign d0 a b c d e f g h i : preserves (on_db (off_rewards d0)) (awardCampaignReward a b c d e f g h i).
Proof.
  unfold awardCampaignReward, firstActiveCampaign, grantWalletEntry, loadLatestRewardEntry. repeat reward_step.
Qed.

Lemma reward_referrer d0 a b c d e f g h i : preserves (on_db (off_rewards d0)) (rewardReferrer a b c d e f g h i).
Proof. unfold rewardReferrer, upsertReferral. repeat first [apply reward_campaign | reward_step]. Qed.

Lemma reward_booking d0 a : preserves (on_db (off_rewards d0)) (awardBookingCompletionRewards a).
Proof.
  unfold awardBookingCompletionRewards, maybeSendRewardNotification, createNotification.
  repeat first [apply reward_campaign | apply reward_referrer | apply preserves_perform | reward_step].
Qed.

Lemma reward_ride d0 a : preserves (on_db (off_rewards d0)) (awardRideCompletionRewards a).
Proof.
  unfold awardRideCompletionRewards, maybeSendRewardNotification, createNotification.
  repeat first [apply reward_campaign | apply reward_referrer | apply preserves_perform | reward_step].
Qed.
(** Another booking of the ride is under way. *)
Definition othersActive (d : Db.t) (b : RideBooking.t) : Prop := exists k x, Db.rideBooking d !! k = Some x /\
  RideBooking.rideId x = RideBooking.rideId b /\ RideBooking.id x <> RideBooking.id b /\
  has_status ACTIVE_RIDE_RESOLUTION_BOOKING_STATUSES x = true.

(** What a forced completion makes of the database. *)
Record force_completed (d d' : Db.t) (b : RideBooking.t) (r : Ride.t) (payment : option Payment.t)
    (adminId resolution : string) : Prop := {
  fc_booking : exists b', Db.rideBooking d' = <[RideBooking.id b := b']> (Db.rideBooking d) /\ same_seats b b' /\
    RideBooking.seatsReservedAt b' = RideBooking.seatsReservedAt b /\
    RideBooking.status b' = BookingStatus.COMPLETED /\ RideBooking.completedAt b' = Some now;
  fc_ride : exists r', Db.ride d' = <[RideBooking.rideId b := r']> (Db.ride d) /\
    (othersActive d b /\ r' = r \/ ~ othersActive d b /\ Ride.status r' = RideStatus.COMPLETED);
  fc_payment : Db.payment d' = match payment with
    | Some p => if decide (Payment.status p = PaymentStatus.HELD_IN_ESCROW)
                then <[Payment.id p := set_eligible p]> (Db.payment d) else Db.payment d
    | None => Db.payment d
    end;
  fc_issues : Db.reconciliationIssue d' =
    (fun i => if isIssueOf (RideBooking.id b) payment (RideBooking.rideId b) i then resolvedIssue adminId resolution i else i)
      <$> Db.reconciliationIssue d;
}.

Lemma force_completed_off d d1 d2 b r payment adminId resolution : off_rewards d1 d2 ->
  force_completed d d1 b r payment adminId resolution -> force_completed d d2 b r payment adminId resolution.
Proof.
  intros (O1 & O2 & _ & O3 & O4 & _) [F1 F2 F3 F4]. split; rewrite ?O1, ?O2, ?O3, ?O4; assumption.
Qed.

(** The payments after [releaseEscrow]. *)
Definition released (payment : option Payment.t) (d : Db.t) : Db.t :=
  match payment with
  | Some p => if decide (Payment.status p = PaymentStatus.HELD_IN_ESCROW)
              then with_rows prisma.payment <[Payment.id p := set_eligible p]> d else d
  | None => d
  end.

Lemma wp_releaseEscrow (s : St.t) payment Q :
  (forall p, payment = Some p -> Db.payment (St.db s) !! Payment.id p = Some p) ->
  (forall x, Q (s <| St.db ::= released payment |>) (Ok x)) -> wp (releaseEscrow payment) Q s.
Proof.
  intros Ep HQ. unfold releaseEscrow. unfold released in HQ. destruct payment as [p|].
  - destruct (decide _) as [T|T].
    + pose proof (Ep p eq_refl) as E0. wp_query. wp_query; [cbn in *; congruence|].
      assert (r = p) as -> by (cbn in *; congruence). wp_query. exact (HQ true).
    + wp_query. destruct s. exact (HQ false).
  - wp_query. destruct s. exact (HQ false).
Qed.

Lemma wp_recordAdminEvent (s : St.t) a b c d e Q : Db.rideEvent (St.db s) !! uuid (S (St.seq s)) = None ->
  (forall s', (exists k v, St.db s' = with_rows prisma.rideEvent <[k := v]> (St.db s)) -> Q s' (Ok tt)) ->
  wp (recordAdminEvent a b c d e) Q s.
Proof.
  intros F HQ. unfold recordAdminEvent. wp_query. apply wp_run. intros ? ? [= <- <-]. wp_query.
  apply wp_run. intros ? ? [= <- <-]. wp_query. wp_query; [cbn in E; congruence|]. wp_query. apply HQ. eauto.
Qed.

(** The query of the other active bookings, after the booking itself was completed. *)
Lemma others_spec (d : Db.t) (b b1 : RideBooking.t) :
  Db.rideBooking d !! RideBooking.id b = Some b -> RideBooking.id b1 = RideBooking.id b ->
  bool_decide (where_ prisma.rideBooking (fun x => bool_decide (RideBooking.rideId x = RideBooking.rideId b) &&
      bool_decide (RideBooking.id x <> RideBooking.id b) && has_status ACTIVE_RIDE_RESOLUTION_BOOKING_STATUSES x)
    (with_rows prisma.rideBooking <[RideBooking.id b := b1]> d) = []) = false <-> othersActive d b.
Proof.
  intros Eb I1. set (others := where_ _ _ _). rewrite bool_decide_eq_false. split.
  - intros N. destruct others as [|x l] eqn:Eo; [congruence|]. assert (In x others) as Hx by (rewrite Eo; left; reflexivity).
    apply where_elem in Hx as [Hp [k Ek]]. apply andb_prop in Hp as [[Hp1 Hp2]%andb_prop Hp3].
    apply bool_decide_eq_true in Hp1, Hp2. cbn in Ek. rewrite lookup_insert_Some in Ek.
    destruct Ek as [[_ <-]|[_ Ek]]; [congruence|]. exists k, x. auto.
  - intros (k & x & Ek & Hr & Hi & Ha) N. assert (In x others) as Hx.
    { apply where_elem. split; [rewrite Ha, !bool_decide_eq_true_2 by assumption; reflexivity|].
      exists k. cbn. rewrite lookup_insert_ne; [exact Ek|]. intros <-. congruence. }
    rewrite N in Hx. destruct Hx.
Qed.

Lemma with_ride_same id r (d : Db.t) : Db.ride d !! id = Some r -> with_rows prisma.ride <[id := r]> d = d.
Proof. intros E. destruct d. cbn in *. unfold setf. cbn. rewrite insert_id by exact E. reflexivity. Qed.

(** The steps after the booking and its ride were written. *)
Lemma wp_forceTail (d : Db.t) (s : St.t) (b b1 : RideBooking.t) (r r' : Ride.t) (payment : option Payment.t) adminId reason rc Q :
  St.db s = with_rows prisma.ride <[RideBooking.rideId b := r']> (with_rows prisma.rideBooking <[RideBooking.id b := b1]> d) ->
  same_seats b b1 -> RideBooking.seatsReservedAt b1 = RideBooking.seatsReservedAt b ->
  RideBooking.status b1 = BookingStatus.COMPLETED -> RideBooking.completedAt b1 = Some now ->
  (othersActive d b /\ r' = r \/ ~ othersActive d b /\ Ride.status r' = RideStatus.COMPLETED) ->
  (forall p, payment = Some p -> Db.payment d !! Payment.id p = Some p) ->
  Db.rideEvent d !! uuid (S (St.seq s)) = None ->
  (forall s' x, force_completed d (St.db s') b r payment adminId ("Admin force-completed booking: " +:+ reason) ->
     Q s' (Ok x)) ->
  wp (pe ← releaseEscrow payment;
      recordAdminEvent (RideBooking.rideId b) (RideBooking.id b) adminId "ADMIN_FORCE_COMPLETED_BOOKING" reason;;
      updateMany prisma.reconciliationIssue (isIssueOf (RideBooking.id b) payment (RideBooking.rideId b))
        (resolvedIssue adminId ("Admin force-completed booking: " +:+ reason));;
      mret {| ForceCompleted.rideCompleted := rc; ForceCompleted.paymentMarkedEligible := pe |}) Q s.
Proof.
  intros E S1 S2 S3 S4 Hr Ep Fresh HQ. wp_query. apply wp_releaseEscrow; [rewrite E; exact Ep|]. intros pe. wp_query.
  apply wp_recordAdminEvent.
  { cbn. rewrite E. unfold released. destruct payment; [destruct (decide _)|]; exact Fresh. }
  intros s1 (k & v & E1). wp_query. apply wp_run. intros s2 x. rewrite updateMany_run. intros [= <- <-]. wp_query.
  apply HQ. cbn. rewrite E1. cbn. rewrite E. split.
  - exists b1. repeat (split; [first [assumption | unfold released; destruct payment; [destruct (decide _)|]; reflexivity]|]). exact S4.
  - exists r'. split; [|exact Hr]. unfold released. destruct payment; [destruct (decide _)|]; reflexivity.
  - unfold released. destruct payment; [destruct (decide _)|]; reflexivity.
  - unfold released. destruct payment; [destruct (decide _)|]; reflexivity.
Qed.

Lemma wp_forceTransaction (s : St.t) (b : RideBooking.t) (r : Ride.t) (payment : option Payment.t) adminId reason Q :
  Db.rideBooking (St.db s) !! RideBooking.id b = Some b -> Db.ride (St.db s) !! RideBooking.rideId b = Some r ->
  (forall p, payment = Some p -> Db.payment (St.db s) !! Payment.id p = Some p) ->
  Db.rideEvent (St.db s) !! uuid (S (St.seq s)) = None ->
  (forall s' x, force_completed (St.db s) (St.db s') b r payment adminId ("Admin force-completed booking: " +:+ reason) ->
     Q s' (Ok x)) ->
  wp (forceCompleteTransaction b r payment adminId reason) Q s.
Proof.
  intros Eb Er Ep Fresh HQ. unfold forceCompleteTransaction. cbv zeta.
  wp_query. wp_query; [cbn in *; congruence|]. assert (r0 = b) as -> by (cbn in *; congruence). clear E.
  match goal with |- context [with_rows prisma.rideBooking <[_ := ?x]>] => set (b1 := x) end.
  wp_query. apply wp_get. wp_query.
  match goal with |- context [bool_decide (?l = [])] => destruct (bool_decide (l = [])) eqn:B end; cbn [when].
  - wp_query. wp_query; [cbn in E; congruence|]. wp_query.
    eapply (wp_forceTail (St.db s) _ b b1 r); [reflexivity | repeat split | reflexivity | reflexivity | reflexivity | | exact Ep | exact Fresh | exact HQ].
  right. split; [|reflexivity]. intros X. apply (others_spec _ _ b1 Eb eq_refl) in X. apply Bool.not_true_iff_false in X. exact (X B).
- wp_query. eapply (wp_forceTail (St.db s) _ b b1 r r); [| repeat split | reflexivity | reflexivity | reflexivity | | exact Ep | exact Fresh | exact HQ].
    + symmetry. apply with_ride_same. exact Er.
    + left. split; [apply (others_spec _ _ b1 Eb eq_refl), B | reflexivity].
Qed.

(** Support completes a booking that is stuck.  For a booking under way on a ride
    under way, without an open dispute, and whatever notices and rewards answer: the booking is
    [COMPLETED] with its seats, its ride is [COMPLETED] exactly when no other booking
    is under way, money in escrow becomes payable, every open issue about the booking, its
    payment or its ride is resolved, and no other row of these tables changes. *)
Theorem force_complete_exact (s : St.t) (id adminId reason : string) (b : RideBooking.t) (r : Ride.t) :
  Db.rideBooking (St.db s) !! id = Some b -> RideBooking.id b = id ->
  has_status ACTIVE_RIDE_RESOLUTION_BOOKING_STATUSES b = true ->
  Db.ride (St.db s) !! RideBooking.rideId b = Some r -> Ride.status r ∈ FORCE_COMPLETABLE_RIDE_STATUSES ->
  noOpenDispute (St.db s) id = true ->
  (forall k p, Db.payment (St.db s) !! k = Some p -> Payment.id p = k) ->
  Db.rideEvent (St.db s) !! uuid (S (St.seq s)) = None ->
  wp (adminForceCompleteBooking id adminId reason) (fun s' _ => exists payment,
    payment = head (where_ prisma.payment (fun p => bool_decide (Payment.bookingId p = id)) (St.db s)) /\
    force_completed (St.db s) (St.db s') b r payment adminId ("Admin force-completed booking: " +:+ reason)) s.
Proof.
  intros E I A Er Sr D K Fresh. unfold adminForceCompleteBooking, rideOf, findByBooking, openDisputesOf, createNotification.
  wp_query. wp_query. assert (o = Some b) as -> by (cbn in *; congruence). wp_query. wp_query. wp_query. apply wp_get.
  wp_query. wp_query; [cbn in *; congruence|]. assert (r0 = r) as -> by (cbn in *; congruence).
  wp_query. rewrite A. wp_query; [discriminate|]. wp_query. rewrite bool_decide_eq_true_2 by exact Sr. wp_query; [discriminate|].
  wp_query. wp_query; [|wp_query; wp_query].
  { exfalso. match goal with Hn : bool_decide (_ <> []) = true |- _ => apply bool_decide_eq_true in Hn; apply Hn end.
    apply noOpenDispute_none, D. }
  apply wp_forceTransaction; [rewrite I; exact E | exact Er | | exact Fresh|].
  { intros p Hp. subst o. apply head_Some_elem_of in Hp. apply list_elem_of_In, where_elem in Hp as [_ [k Ek]].
    cbn in Ek. rewrite (K k p Ek). exact Ek. }
  intros s1 x F. cbv beta iota.
  assert (Off : preserves (on_db (off_rewards (St.db s1)))
    (promise_all [perform (Notify (RideBooking.passengerId b) "booking.admin_force_completed");
       perform (Notify (Ride.driverId r) "booking.admin_force_completed")];;
     awardBookingCompletionRewards id;;
     when (ForceCompleted.rideCompleted x) (awardRideCompletionRewards (RideBooking.rideId b);; mret tt);; mret x)).
  { apply preserves_bind.
    { apply preserves_promise_all. intros m [<-|[<-|[]]]; apply preserves_perform. }
    intros _. repeat first [apply reward_booking | apply reward_ride | reward_step]. }
  eexists. split; [symmetry; eassumption|]. eapply force_completed_off; [|exact F].
  apply Off. repeat split.
Qed.
End completion.

(** ** Disputes hold the money *)

(** The payment is keyed by its id and its booking has an open dispute. *)
Record on_hold (p : Payment.t) (d : Db.t) : Prop := {
  hold_dispute : exists k x, Db.dispute d !! k = Some x /\ Dispute.bookingId x = Payment.bookingId p /\
    Dispute.status x ∈ OPEN_DISPUTE_STATUSES;
  hold_payment : Db.payment d !! Payment.id p = Some p;
  hold_keyed : forall k q, Db.payment d !! k = Some q -> Payment.id q = k;
}.

(** A transfer pays fares of one driver that are payable, so of bookings without an open
    dispute: its amount is their total, each fare counted once. *)
Definition transfers_payable (d : Db.t) (e : Effect) : Prop :=
  match e with
  | StripeTransfer cents _ _ _ => exists driverId payments,
      cents = to_cents (payoutTotal payments) /\ NoDup (map Payment.id payments) /\
      forall q, In q payments -> Db.payment d !! Payment.id q = Some q /\ isPayable d driverId q = true
  | _ => True
  end.

(** The ledger's entries about a payment. *)
Definition isEntryOf (p : Payment.t) (e : LedgerEntry.t) : bool :=
  bool_decide (LedgerEntry.paymentId e = Some (Payment.id p)).
Definition entriesOf (p : Payment.t) (d : Db.t) : list LedgerEntry.t := List.filter (isEntryOf p) (Db.ledgerEntry d).

(** Between two states no money moved for the payment: the row and its ledger entries are as
    they were, it is on no new payout, and no transfer includes its fare. *)
Record untouched (p : Payment.t) (s0 s : St.t) : Prop := {
  untouched_hold : on_hold p (St.db s);
  untouched_entries : entriesOf p (St.db s) = entriesOf p (St.db s0);
  untouched_items : forall k i, Db.payoutItem (St.db s) !! k = Some i -> PayoutItem.paymentId i = Payment.id p ->
    exists i0, Db.payoutItem (St.db s0) !! k = Some i0 /\ PayoutItem.paymentId i0 = Payment.id p;
  untouched_transfers : exists new, St.fx s = new ++ St.fx s0 /\
    forall e, In e new -> transfers_payable (St.db s0) e.1;
}.

Section hold.
Context `{Env} `{Mode}.
Context (p : Payment.t) (s0 : St.t).

Lemma hold_not_free d : on_hold p d -> noOpenDispute d (Payment.bookingId p) = false.
Proof.
  intros [(k & x & E & B & O) _ _]. unfold noOpenDispute. apply negb_false_iff, existsb_exists. exists x. split.
  - apply list_elem_of_In, list_elem_of_fmap. exists (k, x). split; [reflexivity | apply elem_of_map_to_list, E].
  - rewrite !bool_decide_eq_true_2 by assumption. reflexivity.
Qed.

Lemma hold_payable d driverId q : on_hold p d -> In q (where_ prisma.payment (isPayable d driverId) d) ->
  Payment.id q <> Payment.id p.
Proof.
  intros O Hq E. apply where_elem in Hq as [Hq [k Ek]]. cbn in Ek. pose proof (hold_keyed _ _ O k q Ek) as Kq.
  pose proof (hold_payment _ _ O) as Ep. assert (q = p) as -> by (rewrite <- E, Kq in Ep; congruence).
  unfold isPayable in Hq. rewrite hold_not_free, andb_false_r in Hq by exact O. discriminate.
Qed.

(** What payouts keep: the tables they only read, and the payments still payable. *)
Record held_back (s : St.t) : Prop := {
  held_untouched : untouched p s0 s;
  held_tables : Db.dispute (St.db s) = Db.dispute (St.db s0) /\ Db.rideBooking (St.db s) = Db.rideBooking (St.db s0) /\
    Db.ride (St.db s) = Db.ride (St.db s0);
  held_payable : forall k q, Db.payment (St.db s) !! k = Some q -> Payment.status q = PaymentStatus.PAYOUT_ELIGIBLE ->
    Db.payment (St.db s0) !! k = Some q;
}.
Notation I := held_back.

Lemma payable_start s driverId q : I s -> isPayable (St.db s) driverId q = isPayable (St.db s0) driverId q.
Proof.
  intros Hs. destruct (held_tables _ Hs) as (E1 & E2 & E3).
  unfold isPayable, noOpenDispute, Payout.rideOf, Payout.bookingOf. rewrite E1, E2, E3. reflexivity.
Qed.

(** The transfer of what is payable at the time. *)
Lemma payable_transfers s driverId : I s ->
  let payments := where_ prisma.payment (isPayable (St.db s) driverId) (St.db s) in
  forall currency account batchId,
    transfers_payable (St.db s0) (StripeTransfer (to_cents (payoutTotal payments)) currency account batchId).
Proof.
  intros Hs payments currency account batchId. exists driverId, payments. split; [reflexivity|]. split.
  - apply (where_nodup prisma.payment Payment.id). exact (hold_keyed _ _ (untouched_hold _ _ _ (held_untouched _ Hs))).
  - intros q Hq. apply where_elem in Hq as [Hq [k Ek]]. cbn in Ek.
    pose proof (hold_keyed _ _ (untouched_hold _ _ _ (held_untouched _ Hs)) k q Ek) as Kq. split.
    + rewrite Kq. apply (held_payable _ Hs k q Ek). unfold isPayable in Hq.
      rewrite !andb_true_iff, !bool_decide_eq_true in Hq. apply Hq.
    + rewrite <- (payable_start s) by exact Hs. exact Hq.
Qed.

Lemma held_transfer e : transfers_payable (St.db s0) e -> preserves I (call e).
Proof.
  intros T s [[A B C (new & F & N)] Tb P]. split; [split|..]; try assumption.
  eexists ((e, _) :: new). split; [unfold call; cbn; rewrite F; reflexivity|].
  intros x [<-|Hx]; [exact T | exact (N x Hx)].
Qed.

Lemma held_uuid : preserves I randomUUID.
Proof. intros s [[A B C D] Tb P]. split; [split|..]; assumption. Qed.

(** A write to another payment, which is not payable after it. *)
Lemma held_payment id f : id <> Payment.id p ->
  (forall q, Payment.id (f q) = Payment.id q /\ Payment.status (f q) <> PaymentStatus.PAYOUT_ELIGIBLE) ->
  preserves I (update prisma.payment id f).
Proof.
  intros N F. apply preserves_wp. intros s Hs. wp_query; [exact Hs|]. cbn in E. destruct (F r) as [F1 F2].
  destruct Hs as [[[D Ep K] B C T] Tb P]. split; [split; [split; [exact D | |]|..]|..]; try assumption; cbn.
  - rewrite lookup_insert_ne by congruence. exact Ep.
  - intros k x. rewrite lookup_insert_Some. intros [[<- <-]|[_ Ek]]; [rewrite F1|]; eauto.
  - intros k x. rewrite lookup_insert_Some. intros [[<- <-]|[_ Ek]]; [contradiction | eauto].
Qed.

Lemma held_mark target id : id <> Payment.id p -> target <> PaymentStatus.PAYOUT_ELIGIBLE ->
  preserves I (markStatus target Datatypes.id id).
Proof.
  intros N T. unfold markStatus, assertTransition. repeat preserve_step. apply held_payment; [exact N|].
  intros q. split; [reflexivity | exact T].
Qed.

(** Entries about another payment. *)
Lemma held_entries es : (forall e, In e es -> LedgerEntry.paymentId e <> Some (Payment.id p)) ->
  preserves I (createLedgerEntries es).
Proof.
  intros N s [[A B C D] Tb P]. rewrite createLedgerEntries_run. cbn [fst].
  split; [split; [destruct A; split; assumption|..]|..]; try assumption.
  change (List.filter (isEntryOf p) (Db.ledgerEntry (St.db s) ++ stamp (St.seq s) es) = entriesOf p (St.db s0)).
  rewrite List.filter_app. etrans; [|exact B]. etrans; [|apply app_nil_r]. f_equal.
  generalize (St.seq s). clear -N. induction es as [|e es IH]; intros n; [reflexivity|]. cbn [stamp List.filter].
  unfold isEntryOf at 1. rewrite bool_decide_eq_false_2; [apply IH; intros; apply N; right; assumption|].
  apply (N e). left. reflexivity.
Qed.

Lemma held_entry (q : Payment.t) (m : string -> LedgerEntry.t) : Payment.id q <> Payment.id p ->
  (forall g, LedgerEntry.paymentId (m g) = Some (Payment.id q)) ->
  preserves I (groupId ← randomUUID; createLedgerEntries [m groupId];; mret groupId).
Proof.
  intros N F. apply preserves_bind; [exact held_uuid|]. intros g. apply preserves_bind; [|intros; apply preserves_ret].
  apply held_entries. intros e [<-|[]]. rewrite F. congruence.
Qed.

Lemma held_batch id r : preserves I (create prisma.payoutBatch id r).
Proof.
  apply preserves_wp. intros s Hs. wp_query; [exact Hs|]. destruct Hs as [[[D Ep K] B C T] Tb P].
  repeat (split; try assumption).
Qed.

Lemma held_batch_update id f : preserves I (update prisma.payoutBatch id f).
Proof.
  apply preserves_wp. intros s Hs. wp_query; [exact Hs|]. destruct Hs as [[[D Ep K] B C T] Tb P].
  repeat (split; try assumption).
Qed.

Lemma held_item id i : PayoutItem.paymentId i <> Payment.id p -> preserves I (create prisma.payoutItem id i).
Proof.
  intros N. apply preserves_wp. intros s Hs. wp_query; [exact Hs|]. destruct Hs as [[[D Ep K] B C T] Tb P].
  repeat (split; try assumption). intros k x. cbn. rewrite lookup_insert_Some.
  intros [[<- <-]|[_ Ek]]; [contradiction | exact (C k x Ek)].
Qed.

Lemma held_items cond st : preserves I (updateMany prisma.payoutItem cond (fun i => i <| PayoutItem.status := st |>)).
Proof.
  intros s [[[D Ep K] B C T] Tb P]. rewrite updateMany_run. cbn [fst]. repeat (split; try assumption).
  intros k x. cbn. rewrite lookup_fmap. destruct (Db.payoutItem (St.db s) !! k) as [i|] eqn:E; [|discriminate].
  intros [= <-] F. apply (C k i E). rewrite <- F. destruct (cond i); reflexivity.
Qed.

Ltac hold_step := first
  [ preserve_step | apply preserves_attempt | exact held_uuid | apply held_batch | apply held_batch_update | apply held_items ].

Lemma held_settle driverId batchId transferId payments :
  (forall q, In q payments -> Payment.id q <> Payment.id p) ->
  preserves I (settleBatch driverId batchId transferId payments).
Proof.
  intros N. unfold settleBatch, markTransferCreated, markPayoutCompleted.
  assert (M : forall target, target <> PaymentStatus.PAYOUT_ELIGIBLE -> preserves I
    (for_each payments (fun q => markStatus target Datatypes.id (Payment.id q);; mret tt))).
  { intros target T. apply preserves_for_each_in. intros q Hq. apply preserves_bind; [|intros; apply preserves_ret].
    apply held_mark; [exact (N q Hq) | exact T]. }
  apply preserves_bind; [apply M; discriminate|]. intros ?. apply preserves_bind.
  { apply preserves_for_each_in. intros q Hq. apply preserves_bind; [|intros; apply preserves_ret].
    apply (held_entry q); [exact (N q Hq) | reflexivity]. }
  intros ?. apply preserves_bind; [hold_step|]. intros ?. apply preserves_bind; [apply M; discriminate|].
  intros ?. repeat hold_step.
Qed.

Lemma held_createBatch driverId currency amount payments :
  (forall q, In q payments -> Payment.id q <> Payment.id p) -> preserves I (createBatch driverId currency amount payments).
Proof.
  intros N. unfold createBatch. apply preserves_bind; [exact held_uuid|]. intros batchId.
  apply preserves_bind; [apply held_batch|]. intros batch. apply preserves_bind; [|intros; apply preserves_ret].
  apply preserves_for_each_in. intros q Hq. apply preserves_bind; [exact held_uuid|]. intros itemId.
  apply preserves_bind; [|intros; apply preserves_ret]. apply held_item. exact (N q Hq).
Qed.

Lemma held_reversals driverId reason payments : (forall q, In q payments -> Payment.id q <> Payment.id p) ->
  preserves I (for_each payments (fun q =>
    attempt (recordPayoutFailureReversal (Payment.id q) (Payment.bookingId q) driverId (netFareAmount q)
               (Payment.currency q) reason))).
Proof.
  intros N. apply preserves_for_each_in. intros q Hq. apply preserves_attempt.
  apply (held_entry q); [exact (N q Hq) | reflexivity].
Qed.

Lemma held_payout driverId : preserves I (processDriverPayout driverId).
Proof.
  apply preserves_wp. intros s Hs. unfold processDriverPayout. wp_query. wp_query.
  assert (N : forall q, In q (where_ prisma.payment (isPayable (St.db s) driverId) (St.db s)) -> Payment.id q <> Payment.id p).
  { intros q. apply hold_payable. exact (untouched_hold _ _ _ (held_untouched _ Hs)). }
  pose proof (payable_transfers s driverId Hs) as T. cbv zeta in T.
  set (payments := where_ _ _ _) in *. apply (wp_preserves I); [|exact Hs | auto].
  destruct payments as [|first rest] eqn:L; [apply preserves_ret|]. rewrite <- L in *. cbv zeta.
  repeat first [ apply held_createBatch, N | apply held_settle, N | apply held_reversals, N | apply held_transfer, T | hold_step ].
Qed.

Lemma held_payEach l : preserves I (payEach l).
Proof.
  induction l as [|c l IH]; cbn [payEach]; [apply preserves_ret|]. repeat first [apply held_payout | apply IH | hold_step].
Qed.

Lemma held_start : on_hold p (St.db s0) -> I s0.
Proof.
  intros O. split; [split; eauto | auto | auto]. exists []. split; [reflexivity | intros ? []].
Qed.

Lemma held_all s : I s -> I (processEligibleDriverPayouts s).1.
Proof.
  revert s. change (preserves I processEligibleDriverPayouts). unfold processEligibleDriverPayouts, getEligiblePayoutCandidates.
  repeat first [apply held_payEach | hold_step].
Qed.
End hold.

Section payouts.
Context `{Env} `{Mode}.

(** C32. An open dispute holds the money.  However many payouts run, and whatever Stripe
    answers, the payment of a booking with an open dispute is neither transferred nor
    changed: its row and its entries in the ledger stay as they are, it is put on no
    payout, and the amount of every transfer asked of Stripe is the total of fares
    that may be paid, each counted once, so of bookings without an open dispute. *)
Theorem open_dispute_holds_payout (p : Payment.t) (s : St.t) : on_hold p (St.db s) ->
  untouched p s (processEligibleDriverPayouts s).1.
Proof. intros O. apply (held_untouched p s), held_all, held_start, O. Qed.
End payouts.

(** ** Concrete runs *)

Definition demo_onboard : RideBooking.t :=
  demo_waiting <| RideBooking.status := BookingStatus.ONBOARD |> <| RideBooking.paymentAmount := Some (num_of_Z 12) |>.
Definition demo_under_way : Ride.t :=
  demo_ride <| Ride.availableSeats := 2 |> <| Ride.status := RideStatus.IN_PROGRESS |>.
Definition demo_money (st : PaymentStatus.t) : Payment.t :=
  Payments.demo_payment st <| Payment.bookingId := "b1"%string |>.
Definition demo_support (st : PaymentStatus.t) : St.t := St.Build_t
  (demo_db demo_onboard demo_unpaid 2 <| Db.ride := {["r1"%string := demo_under_way]} |>
     <| Db.payment := {["p1"%string := demo_money st]} |>) [] 0.

Lemma demo_refundable st :
  refundable (demo_support st) "b1" demo_onboard demo_under_way "pi_1" (num_of_Z 12).
Proof. split; reflexivity. Qed.

Lemma demo_one_payment st k q : Db.payment (St.db (demo_support st)) !! k = Some q -> q = demo_money st /\ k = Payment.id q.
Proof. cbn. rewrite lookup_singleton_Some. intros [<- <-]. auto. Qed.

Lemma admin_refund_all_or_nothing_witness :
  wp (@adminRefundBooking demo_at "b1") (fun _ x => x = Ok true) (demo_support PaymentStatus.PAID).
Proof.
  refine (wp_mono _ _ _ _ (@admin_refund_all_or_nothing demo_at _ _ _ _ _ _ (demo_refundable PaymentStatus.PAID)) _).
  intros s' x [E _]. exact E.
Defined.

(** The dispute is settled for the rider twice and the administrator refunds as well;
    Stripe refuses the first attempt. *)
Lemma settlements_refund_once_witness :
  let env := demo_env 1000 (fun n _ => if (n =? 0)%nat then Some "api_error"%string else None) in
  let rs := [Refund "b1"; OfDispute (Resolve "x1" REFUND "a1" None); OfDispute (Collect "x1"); Refund "b1";
             OfDispute (Evaluate "x1" "a1"); Refund "b1"] in
  let s := demo_disputed PaymentStatus.HELD_IN_ESCROW <| St.db ::= fun d => d <| Db.rideBooking := {["b1"%string :=
             Disputes.demo_booking <| RideBooking.paymentAmount := Some (num_of_Z 10) |>]} |> |> in
  (refund_calls Made "pi_1" (St.fx (answer_all rs s)) <= 1)%nat /\
  refund_calls Asked "pi_1" (St.fx (answer_all rs s)) = 2%nat.
Proof.
  intros env rs s. split; [|vm_compute; reflexivity].
  destruct (@settlements_refund_once env s rs "b1" "pi_1"
    (Disputes.demo_booking <| RideBooking.paymentAmount := Some (num_of_Z 10) |>)) as [N _].
  - intros k x. cbn. rewrite lookup_singleton_Some. intros [<- <-]. reflexivity.
  - reflexivity.
  - intros k x. cbn. rewrite lookup_singleton_Some. intros [<- _] _. reflexivity.
  - etrans; [exact N|]. vm_compute. auto.
Defined.

Lemma admin_refund_strands_seats_witness :
  @reserveRideSeats {| ReleaseSeatsInput.rideId := "r1"; ReleaseSeatsInput.seatsBooked := 3;
      ReleaseSeatsInput.pickupPosition := None; ReleaseSeatsInput.dropoffPosition := None;
      ReleaseSeatsInput.totalSeats := 3 |} None (@adminRefundBooking demo_at "b1" (demo_support PaymentStatus.PAID)).1 =
  ((@adminRefundBooking demo_at "b1" (demo_support PaymentStatus.PAID)).1, Err "INSUFFICIENT_SEATS").
Proof.
  destruct (@admin_refund_strands_seats demo_at _ _ _ _ _ _ (demo_refundable PaymentStatus.PAID) eq_refl) as (_ & _ & F & _).
  apply F; reflexivity.
Defined.

Lemma admin_refund_after_payout_is_unrecorded_witness :
  wp (@adminRefundBooking demo_at "b1") (fun s' x => x = Ok true /\
    Db.payment (St.db s') = Db.payment (St.db (demo_support PaymentStatus.PAYOUT_COMPLETED)))
    (demo_support PaymentStatus.PAYOUT_COMPLETED).
Proof.
  refine (wp_mono _ _ _ _ (@admin_refund_after_payout_is_unrecorded demo_at _ _ _ _ _ _
    (demo_money PaymentStatus.PAYOUT_COMPLETED) (demo_refundable PaymentStatus.PAYOUT_COMPLETED) eq_refl eq_refl _ _ eq_refl) _).
  - intros k q E _. apply (demo_one_payment _ _ _ E).
  - apply list_elem_of_In. cbn. auto.
  - intros s' x (A & _ & _ & B & _). auto.
Defined.

Lemma force_complete_exact_witness :
  wp (@adminForceCompleteBooking demo_at "b1" "a1" "stuck") (fun s' _ =>
    exists r', Db.ride (St.db s') !! "r1"%string = Some r' /\ Ride.status r' = RideStatus.COMPLETED)
    (demo_support PaymentStatus.HELD_IN_ESCROW).
Proof.
  refine (wp_mono _ _ _ _ (@force_complete_exact demo_at (demo_support PaymentStatus.HELD_IN_ESCROW) "b1" "a1" "stuck"
    demo_onboard demo_under_way eq_refl eq_refl eq_refl eq_refl _ eq_refl _ eq_refl) _).
  - apply list_elem_of_In. cbn. auto.
  - intros k q E. symmetry. apply (demo_one_payment _ _ _ E).
  - intros s' x (payment & _ & F). destruct (fc_ride _ _ _ _ _ _ _ F) as (r' & E & C). exists r'.
    split; [rewrite E; apply lookup_insert_eq|]. destruct C as [[(k & y & Ey & _ & N & A) _]|[_ C]]; [|exact C].
    exfalso. cbn in Ey. rewrite lookup_insert_Some, lookup_singleton_Some in Ey.
    destruct Ey as [[_ <-]|[_ [_ <-]]]; [apply N; reflexivity | discriminate].
Defined.

Definition demo_open : Dispute.t :=
  Dispute.defaults "x1" 0 <| Dispute.bookingId := "b1"%string |> <| Dispute.rideId := "r1"%string |>.
Definition demo_held : St.t := demo_support PaymentStatus.PAYOUT_ELIGIBLE
  <| St.db ::= fun d => d <| Db.dispute := {["x1"%string := demo_open]} |> |>.

(** Two rides of the driver are paid: the one in dispute is not. *)
Definition demo_other : Payment.t := Payments.demo_payment PaymentStatus.PAYOUT_ELIGIBLE
  <| Payment.id := "p2"%string |> <| Payment.bookingId := "b2"%string |>.
Definition demo_driver : User.t := User.defaults "d1" 0
  <| User.stripeAccountId := Some "acct_1"%string |> <| User.stripeOnboardingComplete := true |>.
Definition demo_two : St.t := demo_held <| St.db ::= fun d => d
  <| Db.payment ::= <["p2"%string := demo_other]> |> <| Db.user := {["d1"%string := demo_driver]} |>
  <| Db.rideBooking ::= <["b2"%string := demo_onboard <| RideBooking.id := "b2"%string |>]> |> |>.

Lemma open_dispute_holds_payout_witness :
  let p := demo_money PaymentStatus.PAYOUT_ELIGIBLE in
  let s := (@processEligibleDriverPayouts demo_at demo_two).1 in
  Db.payment (St.db s) !! "p1"%string = Some p /\ entriesOf p (St.db s) = [] /\
  map (fun e => Payment.status <$> Db.payment (St.db s) !! e) ["p1"; "p2"]%string =
    [Some PaymentStatus.PAYOUT_ELIGIBLE; Some PaymentStatus.PAYOUT_COMPLETED].
Proof.
  intros p s. destruct (@open_dispute_holds_payout demo_at p demo_two) as [O E _ _].
  - split.
    + exists "x1"%string, demo_open. repeat split. apply list_elem_of_In. cbn. auto.
    + reflexivity.
    + intros k q. cbn. rewrite lookup_insert_Some, lookup_singleton_Some. intros [[<- <-]|[_ [<- <-]]]; reflexivity.
  - split; [exact (hold_payment _ _ O)|]. split; [exact E|]. vm_compute. reflexivity.
Defined.
