(* ===== verification/Outcomes.v ===== *)
(** * What the handlers achieve

    The outcomes of the handlers that move money or close bookings, over the
    states of [Lifecycle.v]: a payment gets its seats or its money back and is
    applied once, a cancellation does what it says, an unpaid booking is closed;
    and three ways in which a payment or a confirmed booking is lost. *)

From Stdlib Require Import ZArith Lia.
From stdpp Require Import base list option strings gmap relations.
From S2P Require Import Prelude JsNumber JsText Money Schema Store Seats Payments Time Segment.
From S2P Require Import ViewToken Pricing Gateway RideRequest Booking DriverBooking Deadlines Webhook.
From S2P Require Import Invariant Safe Lifecycle.

Open Scope Z_scope.

(** The calls made stay in the log. *)
Definition on_fx (I : list (Effect * option string) -> Prop) (s : St.t) : Prop := I (St.fx s).
Definition called (e : Effect) (l : list (Effect * option string)) : Prop := exists r, In (e, r) l.
(** *** Calls and rows that stay *)

Section stay.
Context `{Env} `{Mode}.

(** Whatever is known of the log survives writes, and calls when it only grows. *)
Lemma fx_update {R} (t : Table R) id f I : preserves (on_fx I) (update t id f).
Proof. intros s L. unfold update. rewrite bind_run. cbn. destruct (rows t (St.db s) !! id); exact L. Qed.

Lemma fx_create {R} (t : Table R) id r I : preserves (on_fx I) (create t id r).
Proof. intros s L. unfold create. rewrite bind_run. cbn. destruct (rows t (St.db s) !! id); exact L. Qed.

Lemma fx_updateManyId {R} (t : Table R) id p f I : preserves (on_fx I) (updateManyId t id p f).
Proof.
  intros s L. unfold updateManyId. rewrite bind_run. cbn.
  destruct (rows t (St.db s) !! id) as [r|]; [destruct (p r)|]; exact L.
Qed.

Lemma fx_ledger es I : preserves (on_fx I) (createLedgerEntries es).
Proof. intros s L. rewrite createLedgerEntries_run. exact L. Qed.

Lemma fx_randomUUID I : preserves (on_fx I) randomUUID.
Proof. intros s L. exact L. Qed.

Lemma fx_call e e' : preserves (on_fx (called e)) (call e').
Proof. intros s [r L]. exists r. right. exact L. Qed.

Lemma fx_perform e e' : preserves (on_fx (called e)) (perform e').
Proof. apply preserves_bind; [apply fx_call | intros; apply preserves_ret]. Qed.

Lemma fx_transaction {A} I (m : H A) : preserves (on_fx I) m -> preserves (on_fx I) (transaction m).
Proof. intros P s L. specialize (P s L). unfold transaction. destruct (m s) as [s' [a|x]]; exact P. Qed.
End stay.

Ltac fx_step :=
  lazymatch goal with
  | |- preserves _ (update _ _ _) => apply fx_update
  | |- preserves _ (create _ _ _) => apply fx_create
  | |- preserves _ (updateManyId _ _ _ _) => apply fx_updateManyId
  | |- preserves _ (createLedgerEntries _) => apply fx_ledger
  | |- preserves _ randomUUID => apply fx_randomUUID
  | |- preserves _ (call _) => apply fx_call
  | |- preserves _ (perform _) => apply fx_perform
  | |- preserves _ (transaction _) => apply fx_transaction
  | |- preserves _ (attempt _) => apply preserves_attempt
  | |- _ => preserve_step
  end.

Section rows.
Context `{Env} `{Mode}.

(** The row of a booking is there and satisfies [P]. *)
Definition row (id : string) (P : RideBooking.t -> Prop) (d : Db.t) : Prop :=
  exists b, Db.rideBooking d !! id = Some b /\ P b.

Lemma quiet_row {A} (m : H A) id P : quiet m -> preserves (on_db (row id P)) m.
Proof.
  intros Q s (b & E & Pb). exists b. destruct (Q (St.db s) s (same_core_refl _)) as (-> & _). auto.
Qed.

Lemma update_row id P k f : (forall b, P b -> P (f b)) -> preserves (on_db (row id P)) (update prisma.rideBooking k f).
Proof.
  intros Hf. apply preserves_update. intros d r (b & E & Pb) Er. unfold row. cbn in Er |- *.
  destruct (decide (k = id)) as [->|N].
  - rewrite lookup_insert_eq. rewrite E in Er. injection Er as <-. eauto.
  - rewrite lookup_insert_ne by exact N. eauto.
Qed.

Lemma fx_markBookingPaymentPaid a b I : preserves (on_fx I) (markBookingPaymentPaid a b).
Proof.
  unfold markBookingPaymentPaid, markPaymentPending, markStatus, markPaymentPaid, findByBooking, assertTransition,
    recordPaymentReceived, writeOutboxEvent. repeat fx_step.
Qed.

Lemma fx_markBookingPaymentRefunded a b c I : preserves (on_fx I) (markBookingPaymentRefunded a b c).
Proof.
  unfold markBookingPaymentRefunded, findByBooking, markRefunded, assertTransition, recordRefund. repeat fx_step.
Qed.

(** What is left to do for a paid booking keeps it paid and its seats held. *)
Lemma settle_seated id intent : preserves (on_db (row id seated)) (settleClaimedBooking id intent).
Proof.
  unfold settleClaimedBooking, rideOf, createNotification.
  repeat lazymatch goal with
    | |- preserves _ (update prisma.rideBooking _ _) => apply update_row; intros ? [? ?]; split; assumption
    | |- preserves _ (attempt _) => apply preserves_attempt
    | |- preserves _ (markBookingPaymentPaid _ _) => apply quiet_row, quiet_markBookingPaymentPaid
    | |- preserves _ (recordProviderFeeForIntent _ _) => apply quiet_row, quiet_recordProviderFee
    | |- preserves _ (recordIssue _ _ _ _ _ _) => apply quiet_row, quiet_recordIssue
    | |- _ => preserve_step
    end.
Qed.
End rows.

(** *** A payment gets its seats or its money back *)

Section refunds.
Context `{Env} `{Mode}.

(** [m] makes the call [e] in every run. *)
Definition calls {A} (e : Effect) (m : H A) : Prop := forall s, called e (St.fx (m s).1).

Lemma calls_call e : calls e (call e).
Proof. intros s. eexists. left. reflexivity. Qed.

Lemma calls_bind {A B} e (m : H A) (k : A -> H B) :
  calls e m -> (forall a, preserves (on_fx (called e)) (k a)) -> calls e (m ≫= k).
Proof.
  intros C K s. specialize (C s). rewrite bind_run. destruct (m s) as [s' [a|x]]; [exact (K a s' C) | exact C].
Qed.

Lemma calls_try_catch {A} e (m : H A) h :
  calls e m -> (forall x, preserves (on_fx (called e)) (h x)) -> calls e (try_catch m h).
Proof.
  intros C K s. specialize (C s). unfold try_catch. destruct (m s) as [s' [a|x]]; [exact C | exact (K x s' C)].
Qed.

(** A booking whose payment came too late for the ride. *)
Definition turned_away (b : RideBooking.t) : Prop := RideBooking.status b = BookingStatus.RIDE_FULL_REFUNDED.

Lemma refund_spec id intent s b :
  Good (St.db s) -> Db.rideBooking (St.db s) !! id = Some b -> RideBooking.status b = BookingStatus.PAYMENT_PENDING ->
  wp (refundRideFullPayment id intent) (fun s' _ =>
    row id turned_away (St.db s') /\
    called (StripeRefund (PaymentIntent.id intent) (Some (toMinorCurrencyUnits (paidAmount b)))) (St.fx s')) s.
Proof.
  intros G E T. destruct (inv_ride _ (good_seats _ G) id b E) as [r Er].
  unfold refundRideFullPayment, rideOf, refundPaymentIntent.
  wp_query. wp_query; [specialize (E0 b E); rewrite bool_decide_eq_true_2 in E0 by exact T; discriminate|].
  cbn in E0. assert (r0 = b) as -> by congruence. cbn [Z.eqb].
  wp_query. wp_query. cbn in E1. rewrite lookup_insert_eq in E1. destruct o as [b1|]; [|discriminate].
  injection E1 as <-. wp_query. wp_query; [cbn in E1; congruence|].
  change (paidAmount _) with (paidAmount b). unfold createNotification, recordIssue. split.
  - match goal with |- row _ _ (St.db (?m ?s1).1) =>
      assert (K : preserves (on_db (row id turned_away)) m); [|apply K] end.
    + repeat first
        [ apply update_row; intros ?; exact Datatypes.id
        | apply quiet_row; solve [auto with quiet | solve_quiet] | preserve_step | apply preserves_attempt ].
    + eexists. split; [apply lookup_insert_eq | reflexivity].
  - apply calls_bind; [apply calls_try_catch; [apply calls_bind; [apply calls_call|]|]|];
      intros; repeat first
        [ apply fx_markBookingPaymentPaid | apply fx_markBookingPaymentRefunded | fx_step ].
Qed.
End refunds.

(** *** Payments *)
Section payments.
Context `{Env} `{Mode}.

(** The claim of a payment and what its errors turn into. *)
Definition claimStep (id : string) (intent : PaymentIntent.t) : H Claim :=
  try_catch (transaction (claimPaidBooking id intent))
    (fun error => if decide (error = "INSUFFICIENT_SEATS"%string) then mret RIDE_FULL
                  else if decide (error = "RIDE_NOT_FOUND"%string) then mret RIDE_FULL
                  else throw error).

Lemma claimStep_spec id intent s : Good (St.db s) ->
  wp (claimStep id intent) (fun s' r =>
    match r with
    | Ok RIDE_FULL | Err _ => St.db s' = St.db s
    | Ok c => Life (St.db s) (St.db s') /\ claim_of id (St.db s) (St.db s') c
    end) s.
Proof.
  intros G. apply wp_try_catch, wp_transaction. apply (wp_mono _ _ _ _ (claim_spec id intent s G)).
  intros s' [c|e]; cbn [if_ok].
  - intros [L C]. destruct c; [auto | auto | destruct C].
  - intros _. repeat wp_step; reflexivity.
Qed.

Lemma apply_claim id intent : truthy (PaymentIntent.metadata_bookingId intent) = Some id ->
  applyStripePaymentSucceededToBooking intent =
    (claimed ← claimStep id intent;
     match claimed with
     | ALREADY_APPLIED =>
         accepted ← findFirst prisma.rideRequestOffer
           (fun o => bool_decide (RideRequestOffer.bookingId o = Some id));
         match accepted with
         | Some offer =>
             when (bool_decide (RideRequestOffer.status offer = "ACCEPTED"%string))
               (markBookingPaymentPaid id (RideRequestOffer.driverId offer);; mret tt)
         | None => mret tt
         end;;
         mret false
     | RIDE_FULL => refundRideFullPayment id intent;; mret false
     | CLAIMED => settleClaimedBooking id intent;; mret true
     end).
Proof. intros M. unfold applyStripePaymentSucceededToBooking. rewrite M. reflexivity. Qed.

(** A payment for a booking that does not wait for one. *)
Lemma claimStep_idle id intent s b : Db.rideBooking (St.db s) !! id = Some b ->
  RideBooking.status b <> BookingStatus.PAYMENT_PENDING ->
  claimStep id intent s = (s, Ok ALREADY_APPLIED).
Proof.
  intros E T. unfold claimStep, try_catch, transaction, claimPaidBooking, activateRideBooking.
  rewrite !bind_run. cbn. rewrite E. rewrite bool_decide_eq_false_2 by exact T. reflexivity.
Qed.

(** What a payment leads to, seen from the booking [b] it is for. *)
Definition paid_or_refunded (d : Db.t) (id : string) (b : RideBooking.t) (intent : PaymentIntent.t)
    (s' : St.t) (answer : Res bool) : Prop :=
  row id seated (St.db s') \/
  row id turned_away (St.db s') /\
    called (StripeRefund (PaymentIntent.id intent) (Some (toMinorCurrencyUnits (paidAmount b)))) (St.fx s') \/
  (exists error, answer = Err error) /\ St.db s' = d.

Lemma booking_truthy d id b o : Good d -> Db.rideBooking d !! id = Some b -> o = Some id -> truthy o = Some id.
Proof.
  intros G E ->. destruct (inv_booking_id _ (good_seats _ G) id b E) as [_ N]. destruct id; [contradiction | reflexivity].
Qed.

(** C3.  A payment is never lost: when Stripe reports that a booking that waits
    for its payment has been paid, the booking gets its seats (waiting for the
    driver, or confirmed), or it is closed and Stripe is asked for a full refund,
    or the handler throws and has changed nothing. *)
Theorem payment_gets_seat_or_refund (s : St.t) (id : string) (b : RideBooking.t) (intent : PaymentIntent.t) :
  Good (St.db s) -> Db.rideBooking (St.db s) !! id = Some b ->
  RideBooking.status b = BookingStatus.PAYMENT_PENDING -> PaymentIntent.metadata_bookingId intent = Some id ->
  wp (applyStripePaymentSucceededToBooking intent) (paid_or_refunded (St.db s) id b intent) s.
Proof.
  intros G E T M. rewrite (apply_claim id) by exact (booking_truthy _ _ _ _ G E M).
  apply wp_bind, (wp_mono _ _ _ _ (claimStep_spec id intent s G)).
  intros s1 [[| |]|e] K; cbv beta iota in K |- *; [| | |right; right; eauto].
  - left. destruct K as [_ (_ & Se)].
    apply (preserves_bind (on_db (row id seated))); [apply settle_seated | intros; apply preserves_ret | exact Se].
  - exfalso. destruct K as [_ (_ & N)]. exact (N b E T).
  - wp_query. rewrite <- K in G, E. apply (wp_mono _ _ _ _ (refund_spec id intent s1 b G E T)).
    intros s2 [u|x] R; right; left; exact R.
Qed.
(** Reporting a payment for a booking that does not wait for one: at most the payment row of
    an accepted offer follows. *)
Lemma report_idle id intent s b :
  truthy (PaymentIntent.metadata_bookingId intent) = Some id -> Db.rideBooking (St.db s) !! id = Some b ->
  RideBooking.status b <> BookingStatus.PAYMENT_PENDING ->
  wp (applyStripePaymentSucceededToBooking intent)
     (fun s' answer => answer <> Ok true /\ same_core (St.db s) (St.db s') /\ St.fx s' = St.fx s) s.
Proof.
  intros Tr E T. rewrite (apply_claim id intent Tr).
  apply wp_bind, wp_run. intros s3 r. rewrite (claimStep_idle id intent s b E T).
  intros [= <- <-]. wp_query. wp_query.
  assert (P : forall offer, quiet (markBookingPaymentPaid id (RideRequestOffer.driverId offer)) /\
            forall I, preserves (on_fx I) (markBookingPaymentPaid id (RideRequestOffer.driverId offer)))
    by (intros offer; split; [apply quiet_markBookingPaymentPaid | intros I; apply fx_markBookingPaymentPaid]).
  destruct o as [offer|]; [|repeat wp_step; split; [discriminate | split; [apply same_core_refl | reflexivity]]].
  destruct (P offer) as [Q F]. wp_query. wp_query.
  2: { split; [discriminate | split; [apply same_core_refl | reflexivity]]. }
  wp_query. apply wp_run. intros s3 r R.
  pose proof (Q (St.db s) s (same_core_refl _)) as Q2. pose proof (F (fun l => l = St.fx s) s eq_refl) as F2.
  rewrite R in Q2, F2. destruct r; repeat wp_step; (split; [discriminate | split; [exact Q2 | exact F2]]).
Qed.
End payments.

(** C4.  A payment is applied once: after it has been applied, whatever happens in
    between, reporting it again (for the same booking, with any intent) is not
    another application: bookings, rides and legs stay as they are and nothing is
    called outside, neither a notification nor a refund. *)
Theorem payment_settles_once `{Mode} (env env' : Env) (s s1 s2 : St.t) (intent intent' : PaymentIntent.t) :
  Good (St.db s) -> @applyStripePaymentSucceededToBooking env intent s = (s1, Ok true) -> rtc step s1 s2 ->
  PaymentIntent.metadata_bookingId intent' = PaymentIntent.metadata_bookingId intent ->
  wp (@applyStripePaymentSucceededToBooking env' intent')
     (fun s3 answer => answer <> Ok true /\ same_core (St.db s2) (St.db s3) /\ St.fx s3 = St.fx s2) s2.
Proof.
  intros G Run Steps M.
  destruct (truthy (PaymentIntent.metadata_bookingId intent)) as [id|] eqn:Tr;
    [|unfold applyStripePaymentSucceededToBooking in Run; rewrite Tr in Run; discriminate].
  (* the first application paid the row *)
  assert (R1 : Good (St.db s1) /\ row id seated (St.db s1)).
  { pose proof (@safe_apply env _ intent (St.db s) s (life_refl _ G)) as L1. rewrite Run in L1. cbn in L1.
    split; [exact (proj1 L1)|]. rewrite (@apply_claim env id intent Tr) in Run.
    apply bind_inv in Run as (c & sc & Rc & Run). pose proof (@claimStep_spec env _ id intent s G) as K.
    unfold wp in K. rewrite Rc in K. cbn in K. destruct c.
    - apply bind_inv in Run as (u & sd & Rd & [= <-]). destruct K as [_ (_ & Se)].
      pose proof (@settle_seated env id intent sc Se) as Sd. rewrite Rd in Sd. exact Sd.
    - apply bind_inv in Run as (? & ? & _ & Run). apply bind_inv in Run as (? & ? & _ & [=]).
    - apply bind_inv in Run as (? & ? & _ & [=]). }
  destruct R1 as [G1 (b1 & E1 & (T1 & _))].
  destruct (steps_life s1 s2 G1 Steps) as [G2 X]. destruct (ext_booking _ _ X id b1 E1) as (b2 & E2 & _ & _ & Mv).
  apply (@report_idle env' id intent' s2 b2); [rewrite M; exact Tr | exact E2|].
  intros Eq. pose proof (moves_paid _ _ Mv Eq). destruct T1; congruence.
Qed.

(** *** Cancelling *)

Section cancelling.
Context `{Env} `{Mode}.










End cancelling.

(** *** What can go wrong *)

(** No query touches the list of received events. *)
Class Eventless {R} (t : Table R) : Prop :=
  eventless : forall g d, Db.stripeWebhookEvent (with_rows t g d) = Db.stripeWebhookEvent d.

#[global] Instance eventless_booking : Eventless prisma.rideBooking.
Proof. repeat split. Qed.
#[global] Instance eventless_ride : Eventless prisma.ride.
Proof. repeat split. Qed.
#[global] Instance eventless_leg : Eventless prisma.rideSegmentCapacity.
Proof. repeat split. Qed.
#[global] Instance eventless_payment : Eventless prisma.payment.
Proof. repeat split. Qed.
#[global] Instance eventless_outbox : Eventless prisma.paymentEventOutbox.
Proof. repeat split. Qed.
#[global] Instance eventless_request : Eventless prisma.rideRequest.
Proof. repeat split. Qed.
#[global] Instance eventless_offer : Eventless prisma.rideRequestOffer.
Proof. repeat split. Qed.
#[global] Instance eventless_issue : Eventless prisma.reconciliationIssue.
Proof. repeat split. Qed.

(** The event was received. *)
Notation received id := (on_db (fun d => id ∈ Db.stripeWebhookEvent d)).

Section events.
Context `{Env} `{Mode}.


Lemma received_write {R} (t : Table R) `{!Eventless t} id g : preserves (received id) (write t g).
Proof. apply preserves_write. intros d E. rewrite eventless. exact E. Qed.

Lemma received_update {R} (t : Table R) `{!Eventless t} id k f : preserves (received id) (update t k f).
Proof. apply preserves_update. intros d r E _. rewrite eventless. exact E. Qed.

Lemma received_create {R} (t : Table R) `{!Eventless t} id k r : preserves (received id) (create t k r).
Proof. apply preserves_create. intros d E _. rewrite eventless. exact E. Qed.

Lemma received_updateManyId {R} (t : Table R) `{!Eventless t} id k p f :
  preserves (received id) (updateManyId t k p f).
Proof. apply preserves_updateManyId. intros d r E _ _. rewrite eventless. exact E. Qed.

Lemma received_updateMany {R} (t : Table R) `{!Eventless t} id p f : preserves (received id) (updateMany t p f).
Proof. intros s E. rewrite updateMany_run. unfold on_db. cbn. rewrite eventless. exact E. Qed.

Lemma received_ledger id es : preserves (received id) (createLedgerEntries es).
Proof. intros s E. rewrite createLedgerEntries_run. exact E. Qed.
End events.

Create HintDb received discriminated.

Ltac received_step :=
  lazymatch goal with
  | |- preserves _ (update _ _ _) => apply received_update; exact _
  | |- preserves _ (create _ _ _) => apply received_create; exact _
  | |- preserves _ (updateManyId _ _ _ _) => apply received_updateManyId; exact _
  | |- preserves _ (updateMany _ _ _) => apply received_updateMany; exact _
  | |- preserves _ (write _ _) => apply received_write; exact _
  | |- preserves _ (createLedgerEntries _) => apply received_ledger
  | |- preserves _ (transaction _) => apply preserves_transaction
  | |- preserves _ (attempt _) => apply preserves_attempt
  | |- preserves _ (markBookingPaymentPaid _ _) => solve [auto 1 with received]
  | |- preserves _ (markBookingPaymentRefunded _ _ _) => solve [auto 1 with received]
  | |- preserves _ (claimPaidBooking _ _) => solve [auto 1 with received]
  | |- _ => preserve_step
  end.

Section reprocessing.
Context `{Env} `{Mode}.

Lemma received_paid id a b : preserves (received id) (markBookingPaymentPaid a b).
Proof.
  unfold markBookingPaymentPaid, markPaymentPending, markStatus, markPaymentPaid, findByBooking, assertTransition,
    recordPaymentReceived, writeOutboxEvent. repeat received_step.
Qed.
Local Hint Resolve received_paid : received.

Lemma received_refunded id a b c : preserves (received id) (markBookingPaymentRefunded a b c).
Proof.
  unfold markBookingPaymentRefunded, findByBooking, markRefunded, assertTransition, recordRefund. repeat received_step.
Qed.
Local Hint Resolve received_refunded : received.

Lemma received_claim id a intent : preserves (received id) (claimPaidBooking a intent).
Proof.
  unfold claimPaidBooking, activateRideBooking, checkActiveIndex, rideOf, confirmRequestBooking, includeOffer,
    ensureRequestPayment, matchRequest, reserveSeatsForBooking, reserveRideSeats, recomputeAvailableSeats,
    lockRideForSeats, heldSeats.
  repeat received_step.
Qed.
Local Hint Resolve received_claim : received.

Lemma received_process id event : preserves (received id) (processStripeEvent event).
Proof.
  unfold processStripeEvent, applyStripePaymentSucceededToBooking, refundRideFullPayment, settleClaimedBooking,
    recordProviderFeeForIntent, recordProviderFeeExpense, recordIssue, findByBooking, refundPaymentIntent,
    applyPaymentIntentFailed, releaseBookingSeats, releaseSegmentSeats, recomputeAvailableSeats, lockRideForSeats,
    heldSeats, applyChargeRefunded,
    applyRefundUpdated, updateRefund, createNotification, rideOf.
  repeat received_step.
Qed.
End reprocessing.

(** C11.  A Stripe event whose processing throws is lost: it was recorded before it
    was processed, so every redelivery, at any time and in any environment, is
    answered as a duplicate and changes nothing. *)
Theorem failed_event_never_reprocessed (env env' : Env) (event : StripeEvent.t) (s s1 : St.t) (error : string) :
  @handleStripeWebhook env event s = (s1, Err error) ->
  @handleStripeWebhook env' event s1 = (s1, Ok Duplicate).
Proof.
  unfold handleStripeWebhook. intros Run. rewrite !bind_run in Run. cbn in Run.
  case_bool_decide as Old; [discriminate Run|].
  unfold mbind, M_bind, modify in Run.
  match type of Run with context [@processStripeEvent env event ?s0] =>
    pose proof (@received_process env (StripeEvent.id event) event s0) as K; 
    destruct (@processStripeEvent env event s0) as [s2 [u|x]]; [discriminate Run|] end.
  injection Run as <- <-. cbn in K. rewrite bind_run. cbn.
  rewrite bool_decide_eq_true_2; [reflexivity|]. apply K. constructor.
Qed.

(** C12.  A payment that succeeds after its booking was closed is kept: the report of a
    payment for a booking that failed or was cancelled meanwhile is no application, leaves
    bookings, rides and legs as they are, and calls nothing outside, so no refund is asked
    for.  Unless an accepted offer has that booking (a request that was confirmed and
    cancelled after), nothing at all changes; when one has, only its payment is marked as
    paid. *)
Theorem late_payment_is_ignored (env : Env) (intent : PaymentIntent.t) (s : St.t) (id : string) (b : RideBooking.t) :
  PaymentIntent.metadata_bookingId intent = Some id -> id <> EmptyString ->
  Db.rideBooking (St.db s) !! id = Some b ->
  RideBooking.status b ∈ [BookingStatus.PAYMENT_FAILED; BookingStatus.CANCELLED] ->
  wp (@applyStripePaymentSucceededToBooking env intent)
     (fun s' answer => answer <> Ok true /\ same_core (St.db s) (St.db s') /\ St.fx s' = St.fx s) s /\
  @applyStripePaymentSucceededToBooking env intent s =
    match head (where_ prisma.rideRequestOffer (fun o => bool_decide (RideRequestOffer.bookingId o = Some id)) (St.db s)) with
    | Some offer =>
        if bool_decide (RideRequestOffer.status offer = "ACCEPTED"%string)
        then (@markBookingPaymentPaid env id (RideRequestOffer.driverId offer);; mret false) s
        else (s, Ok false)
    | None => (s, Ok false)
    end.
Proof.
  intros M Ne E T.
  assert (Tr : truthy (PaymentIntent.metadata_bookingId intent) = Some id) by (rewrite M; destruct id; [contradiction | reflexivity]).
  assert (NT : RideBooking.status b <> BookingStatus.PAYMENT_PENDING)
    by (intros Eq; rewrite Eq in T; apply list_elem_of_In in T; cbn in T; intuition discriminate).
  split; [exact (@report_idle env id intent s b Tr E NT)|].
  rewrite (@apply_claim env id intent Tr), (bind_Ok _ _ _ _ _ (@claimStep_idle env id intent s b E NT)).
  rewrite bind_run. cbn [fst snd findFirst get]. destruct (head _) as [offer|]; [|reflexivity].
  destruct (bool_decide _); [|reflexivity]. cbn [when].
  rewrite !bind_run. destruct (@markBookingPaymentPaid env id _ s) as [s1 [u|e]]; reflexivity.
Qed.

(** The job that closes unanswered requests decides on a row it read before its
    transaction. *)
Section deadlines.
Context `{Env} `{Mode}.

Definition cancelled (b : RideBooking.t) : Prop :=
  RideBooking.status b = BookingStatus.CANCELLED /\ RideBooking.seatsReservedAt b = None.

(** The last write of the job's transaction. *)
Lemma stale_end id refundId (initiated : bool) (d : Db.t) s (P : St.t -> string -> Prop) :
  row id cancelled (St.db s) ->
  wp (when (bool_decide (is_Some (truthy refundId)) || initiated)
        (update prisma.rideBooking id (fun b =>
           b <| RideBooking.refundId := refundId |> <| RideBooking.refundedAt := Some now |>);; mret tt))
     (fun s' answer => match answer with
        | Ok _ => match answer with Ok _ => row id cancelled (St.db s') | Err e => P s' e end
        | Err _ => match answer with
                   | Ok _ => row id cancelled (St.db (s' <| St.db := d |>))
                   | Err e => P (s' <| St.db := d |>) e
                   end
        end) s.
Proof.
  intros (b1 & E1 & C1). wp_query; [|exists b1; auto].
  wp_query. wp_query; [cbn in E; congruence|]. assert (r = b1) as -> by (cbn in E; congruence).
  eexists. split; [apply lookup_insert_eq | exact C1].
Qed.

(** A confirmed booking can be cancelled by a late deadline job: the job read
    the booking while it waited for the driver, the driver accepted, and the job's
    transaction, which does not look at the status again, cancels the confirmed
    booking and frees its seats; only a failing refund call stops it. *)
Theorem stale_deadline_job_cancels_confirmed (s : St.t) (id : string) (stale b : RideBooking.t) (ride : Ride.t)
    (bypass : bool) :
  Good (St.db s) -> Db.rideBooking (St.db s) !! id = Some b -> RideBooking.status b = BookingStatus.CONFIRMED ->
  same_seats stale b -> Db.ride (St.db s) !! RideBooking.rideId b = Some ride ->
  wp (transaction (extendedDeadlineTransaction id stale ride bypass))
     (fun s' answer => match answer with
        | Ok _ => row id cancelled (St.db s')
        | Err _ => bypass = false /\ St.db s' = St.db s /\ exists i, called (StripeRefund i
                     (Some (toMinorCurrencyUnits (paidAmount stale)))) (St.fx s')
        end) s.
Proof.
  intros G E T S Er. apply wp_transaction. unfold extendedDeadlineTransaction. cbv zeta.
  assert (Ei : seats_input stale (Ride.totalSeats ride) = seats_input b (Ride.totalSeats ride)).
  { destruct S as (_ & S2 & S3 & S4 & S5). unfold seats_input. congruence. }
  rewrite Ei. wp_query. wp_query; [cbn in E0; congruence|]. assert (r = b) as -> by (cbn in E0; congruence).
  wp_query.
  eapply (wp_release (St.db s) (St.db s) _ id b b); [apply life_refl, G | exact E | exact Er | exact E | | reflexivity |].
  { eapply (closes_cancel [BookingStatus.CONFIRMED]); [repeat split.. | |].
    - rewrite T. apply list_elem_of_In. cbn. auto.
    - intros st [<-|[]]%list_elem_of_In. apply moves_table, list_elem_of_In. cbn. auto. }
  intros s1 x L [Ef Eb].
  assert (R1 : row id cancelled (St.db s1)).
  { eexists. rewrite Eb. split; [apply lookup_insert_eq | split; reflexivity]. }
  wp_query. unfold startFullRefund, refundPaymentIntent.
  destruct (truthy (RideBooking.stripePaymentIntentId stale)) as [i|]; [|apply wp_ret, stale_end, R1].
  destruct (RideBooking.paymentCapturedAt stale); [|apply wp_ret, stale_end, R1].
  destruct bypass; [apply wp_ret, stale_end, R1|].
  wp_query. wp_query. destruct o as [e|]; [|apply wp_ret, stale_end, R1].
  split; [reflexivity|]. split; [reflexivity|]. exists i. eexists. left. reflexivity.
Qed.

Definition unpaid_closed (b : RideBooking.t) : Prop :=
  RideBooking.status b = BookingStatus.PAYMENT_FAILED /\ RideBooking.seatsReservedAt b = None.

(** C8.  No unpaid booking lingers: the payment-expiry job always returns, whatever
    Stripe and the notification service answer, and leaves a booking that still
    waits for its payment closed. *)
Theorem unpaid_booking_is_closed (s : St.t) (id : string) (b : RideBooking.t) :
  Good (St.db s) -> Db.rideBooking (St.db s) !! id = Some b ->
  RideBooking.status b = BookingStatus.PAYMENT_PENDING ->
  wp (expireUnpaidBooking id) (fun s' answer => answer = Ok true /\ row id unpaid_closed (St.db s')) s.
Proof.
  intros G E T. destruct (inv_ride _ (good_seats _ G) id b E) as [ride Er].
  unfold expireUnpaidBooking, rideOf, cancelPaymentIntent, createNotification.
  wp_query. wp_query. cbn in E0. assert (o = Some b) as -> by congruence.
  wp_query. wp_query; [cbn in E1; congruence|]. assert (r = ride) as -> by (cbn in E1; congruence).
  wp_query; [contradiction|]. wp_query. apply wp_transaction. wp_query.
  wp_query; [specialize (E2 b E); rewrite bool_decide_eq_true_2 in E2 by exact T; discriminate|].
  assert (r = b) as -> by (cbn in E2; congruence). cbn [Z.eqb]. wp_query.
  eapply (wp_release (St.db s) (St.db s) _ id b b);
    [apply life_refl, G | exact E | exact Er | exact E | | reflexivity |].
  { solve_closes T. }
  intros s1 x L [_ Eb].
  assert (R1 : row id unpaid_closed (St.db s1)).
  { eexists. rewrite Eb. split; [apply lookup_insert_eq | repeat split]. }
  apply wp_ret. cbn [negb].
  match goal with |- wp ?m _ _ => assert (Q : quiet m) by solve_quiet end.
  split; [|exact (quiet_row _ id unpaid_closed Q s1 R1)].
  match goal with |- (?m s1).2 = _ => change (wp m (fun _ r => r = Ok true) s1) end.
  destruct (truthy _) as [i|]; repeat first [apply wp_attempt | wp_step]; reflexivity.
Qed.
End deadlines.

(** ** Witnesses, on the states of [Lifecycle.v] *)

#[local] Existing Instance exactly.

Lemma payment_gets_seat_or_refund_witness :
  wp (@applyStripePaymentSucceededToBooking demo_at demo_intent)
     (paid_or_refunded (St.db demo_state) "b2" demo_unpaid demo_intent) demo_state /\
  (@applyStripePaymentSucceededToBooking demo_at demo_intent demo_state).2 = Ok true.
Proof.
  split; [|vm_compute; reflexivity].
  exact (@payment_gets_seat_or_refund demo_at _ demo_state "b2" demo_unpaid demo_intent demo_good
           eq_refl eq_refl eq_refl).
Defined.

Definition demo_paid : St.t := (@applyStripePaymentSucceededToBooking demo_at demo_intent demo_state).1.

(** The administrator gives the money back before Stripe reports the payment again. *)
Definition demo_given_back : St.t :=
  (@run demo_at demo_codec demo_zone (fun _ _ _ => None) (AdminRefund "b2") demo_paid).1.

Lemma payment_settles_once_witness :
  wp (@applyStripePaymentSucceededToBooking demo_at demo_intent)
     (fun s3 answer => answer <> Ok true /\ same_core (St.db demo_given_back) (St.db s3) /\ St.fx s3 = St.fx demo_given_back)
     demo_given_back.
Proof.
  assert (R : @applyStripePaymentSucceededToBooking demo_at demo_intent demo_state = (demo_paid, Ok true)).
  { unfold demo_paid. assert (A : (@applyStripePaymentSucceededToBooking demo_at demo_intent demo_state).2 = Ok true)
      by (vm_compute; reflexivity).
    rewrite <- A. apply surjective_pairing. }
  apply (@payment_settles_once loosely demo_at demo_at demo_state demo_paid demo_given_back demo_intent demo_intent demo_good R);
    [|reflexivity].
  apply rtc_once, step_run; [exact demo_uuid_nonempty | discriminate].
Defined.

(** Stripe refuses the refund. *)
Definition demo_refusing : Env := demo_env 1000 (fun _ e =>
  match e with StripeRefund _ _ => Some "charge_disputed"%string | _ => None end).


(** The rider of the unpaid booking has another one on the ride. *)
Definition demo_twice : St.t :=
  St.Build_t (demo_db demo_waiting (demo_unpaid <| RideBooking.passengerId := "p1"%string |>) 2) [] 0.

Lemma failed_event_never_reprocessed_witness :
  (@handleStripeWebhook demo_at demo_event demo_twice).2 = Err "P2002" /\
  let s1 := (@handleStripeWebhook demo_at demo_event demo_twice).1 in
  @handleStripeWebhook demo_at demo_event s1 = (s1, Ok Duplicate).
Proof.
  assert (A : (@handleStripeWebhook demo_at demo_event demo_twice).2 = Err "P2002") by (vm_compute; reflexivity).
  split; [exact A|]. cbv zeta.
  apply (failed_event_never_reprocessed demo_at demo_at demo_event demo_twice _ "P2002").
  rewrite <- A. apply surjective_pairing.
Defined.

Lemma late_payment_is_ignored_witness :
  let s := St.Build_t (demo_db demo_waiting (expiredBooking demo_unpaid) 2) [] 0 in
  @applyStripePaymentSucceededToBooking demo_at demo_intent s = (s, Ok false).
Proof.
  intros s. rewrite (proj2 (late_payment_is_ignored demo_at demo_intent s "b2" (expiredBooking demo_unpaid)
    eq_refl ltac:(discriminate) eq_refl ltac:(apply list_elem_of_In; cbn; auto))).
  reflexivity.
Defined.

Definition demo_accepted_state : St.t := St.Build_t (demo_db demo_accepted demo_unpaid 2) [] 0.
Definition demo_late_job : H unit := transaction (@extendedDeadlineTransaction demo_at "b1" demo_waiting
  (demo_ride <| Ride.availableSeats := 2 |>) false).

Lemma stale_deadline_job_cancels_confirmed_witness :
  (demo_late_job demo_accepted_state).2 = Ok tt /\ row "b1" cancelled (St.db (demo_late_job demo_accepted_state).1).
Proof.
  assert (A : (demo_late_job demo_accepted_state).2 = Ok tt) by (vm_compute; reflexivity). split; [exact A|].
  assert (G : Good (St.db demo_accepted_state)) by exact (demo_good_of demo_accepted (or_intror eq_refl)).
  assert (Eb : Db.rideBooking (St.db demo_accepted_state) !! "b1"%string = Some demo_accepted) by reflexivity.
  assert (S : same_seats demo_waiting demo_accepted) by (vm_compute; repeat split).
  assert (Er : Db.ride (St.db demo_accepted_state) !! RideBooking.rideId demo_accepted =
               Some (demo_ride <| Ride.availableSeats := 2 |>)) by reflexivity.
  pose proof (@stale_deadline_job_cancels_confirmed demo_at _ demo_accepted_state "b1" demo_waiting demo_accepted
    _ false G Eb eq_refl S Er) as W.
  unfold wp in W. fold demo_late_job in W. rewrite A in W. exact W.
Defined.

Lemma unpaid_booking_is_closed_witness :
  wp (@expireUnpaidBooking demo_refusing "b2") (fun s' answer => answer = Ok true /\ row "b2" unpaid_closed (St.db s'))
     demo_state.
Proof.
  exact (@unpaid_booking_is_closed demo_refusing _ demo_state "b2" demo_unpaid demo_good eq_refl eq_refl).
Defined.

(** Stripe reports one partial refund of 5 EUR as created and as updated; both reports are
    booked: of a fare of 10 EUR the driver is left 0.20 instead of 5.10. *)
Definition demo_partial (id : string) : StripeEvent.t := {| StripeEvent.id := id;
  StripeEvent.data := refund_created_or_updated {| Refund.id := "re_1"; Refund.payment_intent := Some "pi_1"%string;
    Refund.amount := 500; Refund.status := "succeeded" |} |}.

Example refund_events_booked_twice :
  let s0 := St.Build_t (demo_db demo_waiting demo_unpaid 2 <| Db.payment := {["p1"%string :=
              Payments.demo_payment PaymentStatus.HELD_IN_ESCROW <| Payment.bookingId := "b1"%string |>]} |>) [] 0 in
  let s1 := (@handleStripeWebhook demo_at (demo_partial "evt_1") s0).1 in
  let s2 := (@handleStripeWebhook demo_at (demo_partial "evt_2") s1).1 in
  map (fun s => (fun p => (Payment.status p, to_fixed2_string (Payment.refundedFareAmount p))) <$> Db.payment (St.db s) !! "p1"%string) [s1; s2] =
  [Some (PaymentStatus.PAYOUT_ELIGIBLE, "4.90"%string); Some (PaymentStatus.PAYOUT_ELIGIBLE, "9.80"%string)].
Proof. vm_compute. reflexivity. Qed.
