(* ===== verification/DriverTrips.v ===== *)
(** * Properties of a driver's published rides

    The seats a driver is shown are the seats sold; looking at the list closes rides
    that have not departed; a cancellation of a ride refunds all of its passengers or,
    when Stripe refuses one of them, undoes all but the refunds made before it. *)

From Stdlib Require Import ZArith QArith Lia.
From stdpp Require Import base list option strings gmap relations sorting.
From S2P Require Import Prelude JsNumber JsText Money Schema Store Seats Payments Time Gateway Rewards.
From S2P Require Import RideRequest Booking DriverBooking RideOps Invariant Safe RideSafe DriverRides DriverSafe.
From S2P Require Import Lifecycle Outcomes.

Open Scope Z_scope.

(** ** The seats a driver is shown *)

Lemma fold_sum {A} (w : A -> Z) (l : list A) (acc : Z) :
  fold_left (fun total x => total + w x) l acc = acc + foldr (fun x n => w x + n) 0 l.
Proof. revert acc. induction l as [|x l IH]; intros acc; cbn; [lia|]. rewrite IH. lia. Qed.

Lemma foldr_filter {A} (w : A -> Z) (p : A -> bool) (l : list A) :
  foldr (fun x n => w x + n) 0 (List.filter p l) = foldr (fun x n => (if p x then w x else 0) + n) 0 l.
Proof. induction l as [|x l IH]; [reflexivity|]. cbn. destruct (p x); cbn; lia. Qed.

Definition seatsHeldBy (b : RideBooking.t) : Z := if RideBooking.seatsReservedAt b then RideBooking.seatsBooked b else 0.

(** A booking that is not listed, or is cancelled, holds no seats. *)
Lemma unlisted_unheld (d : Db.t) (k : string) (b : RideBooking.t) : @Good exactly d -> Db.rideBooking d !! k = Some b ->
  has_status PublishRide.LISTED_BOOKING_STATUSES b && negb (bool_decide (RideBooking.status b = BookingStatus.CANCELLED)) = false ->
  seatsHeldBy b = 0.
Proof.
  intros G E F. unfold seatsHeldBy. rewrite (good_unheld d G eq_refl k b E); [reflexivity|].
  unfold has_status in F. destruct (RideBooking.status b); cbn in F; try discriminate F; apply list_elem_of_In; cbn; auto.
Qed.

(** The seats a driver is shown as booked are the seats sold.  Whatever the driver's
    view leaves out, the sum it shows is the seats of the ride minus its free seats. *)
Theorem booked_seats_are_sold `{Env} (d : Db.t) (r : Ride.t) : @Good exactly d -> Db.ride d !! Ride.id r = Some r ->
  PublishRide.RideView.bookedSeats (PublishRide.viewRide d r) = Ride.totalSeats r - Ride.availableSeats r.
Proof.
  intros G Er. destruct (available_exact d _ r (good_seats d G) Er) as [A _].
  replace (Ride.totalSeats r - Ride.availableSeats r) with (held d (Ride.id r)) by lia.
  unfold PublishRide.viewRide. cbn [PublishRide.RideView.bookedSeats]. unfold sumReservedSeats.
  set (keep := fun b : RideBooking.t => negb (bool_decide (RideBooking.status b = BookingStatus.CANCELLED))).
  unfold sort_desc. rewrite (fold_sum seatsHeldBy), foldr_filter, (foldr_perm _ _ _ (sort_by_perm _ _)). unfold where_. rewrite foldr_filter.
  unfold held. rewrite <- (sum_map_list _ (Db.rideBooking d)). apply sum_map_ext. intros k b E.
  unfold seatsOn, holdsOn. destruct (bool_decide (RideBooking.rideId b = Ride.id r)); cbn [andb]; [|reflexivity].
  change (match RideBooking.seatsReservedAt b with Some _ => RideBooking.seatsBooked b | None => 0 end) with (seatsHeldBy b).
  replace (if bool_decide (is_Some (RideBooking.seatsReservedAt b)) then RideBooking.seatsBooked b else 0) with (seatsHeldBy b).
  2: { unfold seatsHeldBy. destruct (RideBooking.seatsReservedAt b); reflexivity. }
  pose proof (unlisted_unheld d k b G E) as U. fold (keep b) in U. destruct (has_status _ b), (keep b); cbn in U; auto; try (symmetry; auto).
Qed.

(** ** The listing and the time zone *)

Section listing.
Context `{Env} `{RideZone} `{Mode}.

Definition expired (rideId : string) (d : Db.t) : Prop :=
  exists r, Db.ride d !! rideId = Some r /\ Ride.status r = RideStatus.EXPIRED.

Lemma reconcile_other (P : option Ride.t -> Prop) driverId rideId (c : Ride.t * list BookingStatus.t) : Ride.id c.1 <> rideId ->
  preserves (on_db (fun d => P (Db.ride d !! rideId))) (PublishRide.reconcileRide driverId c).
Proof.
  intros N. destruct c as [ride statuses]. unfold PublishRide.reconcileRide.
  destruct (PublishRide.combineDepartureDateTimeInRideTimezone _ _); [|apply preserves_ret].
  assert (W : forall p f, preserves (on_db (fun d => P (Db.ride d !! rideId))) (updateManyId prisma.ride (Ride.id ride) p f)).
  { intros p f. apply preserves_updateManyId. intros d r0 Hp _ _. cbn. rewrite lookup_insert_ne by exact N. exact Hp. }
  destruct (_ <? _); [apply preserves_ret|]. destruct (_ && _); [|destruct (bool_decide _); [|apply preserves_ret]];
    (apply preserves_bind; [apply W | intros; apply preserves_ret]).
Qed.

(** Two hours after the departure in Tallinn a ride without passengers is closed. *)
Definition closes_ride (driverId : string) (c : Ride.t * list BookingStatus.t) (departureAt : Z) : Prop :=
  PublishRide.isUnstarted PublishRide.UNSTARTED_RIDE_STATUSES driverId c.1 = true /\
  PublishRide.combineDepartureDateTimeInRideTimezone (Ride.departureDate c.1) (Ride.departureTime c.1) = Ok departureAt /\
  departureAt <= now /\ departureAt + RIDE_OVERDUE_CANCEL_AFTER_MINUTES * 60 * 1000 <= now /\
  forall st, In st c.2 -> st ∉ PublishRide.ACTIVE_BOOKING_STATUSES.

Lemma reconcile_own driverId c departureAt (s : St.t) : closes_ride driverId c departureAt ->
  Db.ride (St.db s) !! Ride.id c.1 = Some c.1 ->
  wp (PublishRide.reconcileRide driverId c) (fun s' _ => expired (Ride.id c.1) (St.db s')) s.
Proof.
  destruct c as [ride statuses]. intros (U & D & L1 & L2 & A) E. cbn in *. unfold PublishRide.reconcileRide.
  rewrite D. replace (now <? departureAt) with false by (symmetry; apply Z.ltb_ge; exact L1).
  rewrite (proj2 (Z.leb_le _ _) L2). replace (existsb _ statuses) with false.
  2: { symmetry. apply not_true_is_false. intros (st & Hst & T%bool_decide_eq_true)%existsb_exists. exact (A st Hst T). }
  cbn [negb andb]. wp_query. apply wp_updateManyId.
  - intros C. exfalso. specialize (C ride E). congruence.
  - intros r Er _. wp_query. cbn in Er. rewrite E in Er. injection Er as <-. eexists. split; [apply lookup_insert_eq | reflexivity].
Qed.

(** A ride that is expired is no longer moved. *)
Lemma expired_stays driverId rideId c : preserves (on_db (expired rideId)) (PublishRide.reconcileRide driverId c).
Proof.
  destruct c as [ride statuses]. unfold PublishRide.reconcileRide.
  destruct (PublishRide.combineDepartureDateTimeInRideTimezone _ _); [|apply preserves_ret].
  assert (W : forall l st, RideStatus.EXPIRED ∉ l -> preserves (on_db (expired rideId))
    (updateManyId prisma.ride (Ride.id ride) (PublishRide.isUnstarted l driverId) (fun r => r <| Ride.status := st |>))).
  { intros l st N. apply preserves_updateManyId. intros d r0 (r & Er & T) Er0 P. cbn in *.
    destruct (decide (Ride.id ride = rideId)) as [<-|D]; [|exists r; cbn; rewrite lookup_insert_ne by exact D; auto].
    exfalso. rewrite Er in Er0. injection Er0 as <-. apply andb_prop in P as [P _]. apply andb_prop in P as [_ P].
    apply bool_decide_eq_true in P. rewrite T in P. exact (N P). }
  destruct (_ <? _); [apply preserves_ret|]. destruct (_ && _); [|destruct (bool_decide _); [|apply preserves_ret]];
    (apply preserves_bind; [apply W; solve_not_in | intros; apply preserves_ret]).
Qed.

Lemma reconcile_all driverId c departureAt (l : list (Ride.t * list BookingStatus.t)) (s : St.t) :
  NoDup (map (fun x => Ride.id x.1) l) -> In c l -> closes_ride driverId c departureAt ->
  Db.ride (St.db s) !! Ride.id c.1 = Some c.1 ->
  wp (promise_all (map (PublishRide.reconcileRide driverId) l)) (fun s' _ => expired (Ride.id c.1) (St.db s')) s.
Proof.
  intros N Hc C. revert s. induction l as [|x l IH]; [destruct Hc|]. intros s E. cbn [map promise_all].
  cbn [map] in N. apply NoDup_cons in N as [Nx N].
  assert (W : wp (PublishRide.reconcileRide driverId x) (fun s' _ =>
    expired (Ride.id c.1) (St.db s') \/ (In c l /\ Db.ride (St.db s') !! Ride.id c.1 = Some c.1)) s).
  { destruct Hc as [->|Hc]; [apply (wp_mono _ _ _ _ (reconcile_own driverId c departureAt s C E)); auto|].
    assert (D : Ride.id x.1 <> Ride.id c.1).
    { intros D. apply Nx. rewrite D. apply list_elem_of_In. exact (in_map (fun x => Ride.id x.1) l c Hc). }
    apply (wp_preserves _ _ _ _ (reconcile_other (fun o => o = Some c.1) driverId (Ride.id c.1) x D) E).
    intros s' _ E'. right. split; [exact Hc | exact E']. }
  unfold wp in *. destruct (PublishRide.reconcileRide driverId x s) as [s1 r1]. cbn in W.
  assert (W2 : expired (Ride.id c.1) (St.db (promise_all (map (PublishRide.reconcileRide driverId) l) s1).1)).
  { destruct W as [X|[Hl E1]]; [|exact (IH N Hl s1 E1)].
    refine (preserves_promise_all (on_db (expired (Ride.id c.1))) _ _ s1 X). intros m (x' & <- & _)%in_map_iff. apply expired_stays. }
  destruct (promise_all _ s1) as [s2 r2]. cbn in *. destruct r1; exact W2.
Qed.

(** The list of a driver's rides closes rides that have not departed.  Booking and the
    check of overdue rides take the clock time of a departure as UTC; the list takes it
    as the time in Tallinn, which is [off] ahead.  A ride without passengers is expired as
    soon as [off] less the two hours of grace remain: in summer an hour before it departs. *)
Theorem listing_expires_ride_early (driverId : string) (statuses : list RideStatus.t) (page limit : Z) (s : St.t)
    (ride : Ride.t) (departureAt off : Z) :
  SeatInv (St.db s) -> Db.ride (St.db s) !! Ride.id ride = Some ride ->
  PublishRide.isUnstarted PublishRide.UNSTARTED_RIDE_STATUSES driverId ride = true -> Ride.departureDate ride <= now ->
  combineDepartureDateTimeUtc (Ride.departureDate ride) (Ride.departureTime ride) = Ok departureAt ->
  dayOf (Ride.departureDate ride + rideTimeOffset (Ride.departureDate ride)) = dayOf (Ride.departureDate ride) ->
  rideTimeOffset departureAt = off -> 0 <= RIDE_OVERDUE_CANCEL_AFTER_MINUTES ->
  (forall k b, Db.rideBooking (St.db s) !! k = Some b -> RideBooking.rideId b = Ride.id ride ->
     RideBooking.status b ∉ PublishRide.ACTIVE_BOOKING_STATUSES) ->
  departureAt - (off - RIDE_OVERDUE_CANCEL_AFTER_MINUTES * 60 * 1000) <= now ->
  expired (Ride.id ride) (St.db (PublishRide.getUserRides driverId statuses page limit s).1).
Proof.
  intros I E U L D Dz O Gr A Nw.
  enough (W : wp (PublishRide.getUserRides driverId statuses page limit) (fun s' _ => expired (Ride.id ride) (St.db s')) s) by exact W.
  unfold PublishRide.getUserRides. apply wp_bind. unfold PublishRide.reconcileDriverRideListStatuses. apply wp_bind, wp_get.
  set (c := (ride, map RideBooking.status (where_ prisma.rideBooking (fun b => bool_decide (RideBooking.rideId b = Ride.id ride)) (St.db s)))).
  refine (wp_mono _ _ _ _ (reconcile_all driverId c (departureAt - off) _ s _ _ _ E) _).
  - unfold PublishRide.reconcileCandidates. rewrite map_map. cbn.
    apply (where_nodup prisma.ride Ride.id). exact (inv_ride_id _ I).
  - unfold PublishRide.reconcileCandidates. apply in_map_iff. exists ride. split; [reflexivity|].
    apply where_elem. split; [rewrite U, (proj2 (Z.leb_le _ _) L); reflexivity | eauto].
  - split; [exact U|]. cbn. split; [|split; [lia | split; [lia|]]].
    + unfold PublishRide.combineDepartureDateTimeInRideTimezone. unfold combineDepartureDateTimeUtc in D.
      destruct (clock_time (Ride.departureTime ride)) as [[h m]|]; [|discriminate]. injection D as D.
      rewrite DateUTC_of_date in D. rewrite Dz. cbv zeta. rewrite D, O. reflexivity.
    + intros st (b & <- & [P [k Ek]]%where_elem)%in_map_iff. apply bool_decide_eq_true in P. exact (A k b Ek P).
  - intros s' [u|e] X; [|exact X]. apply wp_bind, wp_get. apply wp_ret. exact X.
Qed.
End listing.

(** ** Cancelling a ride *)

Section cancellation.
Context `{Env} `{Mode}.

(** The call was made, and succeeded. *)
Definition done (e : Effect) (l : list (Effect * option string)) : Prop := In (e, None) l.

Lemma done_perform e e' : preserves (on_fx (done e)) (perform e').
Proof. apply preserves_bind; [intros s D; right; exact D | intros; apply preserves_ret]. Qed.

Lemma for_each_app {A} (l1 l2 : list A) (body : A -> H unit) (s : St.t) :
  for_each (l1 ++ l2) body s = (for_each l1 body;; for_each l2 body) s.
Proof.
  revert s. induction l1 as [|x l1 IH]; intros s; [reflexivity|].
  cbn [app for_each]. rewrite !bind_run. destruct (body x s) as [s1 [u|e]]; [|reflexivity].
  cbn [fst snd]. rewrite (IH s1), !bind_run. reflexivity.
Qed.

(** A loop that writes the row of each of the bookings, from [g] to [f]. *)
Section loop.
Context (body : RideBooking.t -> H unit) (g f : RideBooking.t -> RideBooking.t).
Context (P : RideBooking.t -> list (Effect * option string) -> Prop) (E : string -> list (Effect * option string) -> Prop).
Notation id := RideBooking.id.
Hypothesis grows : forall x e l, P x l -> P x (e :: l).

Definition wrote (x : RideBooking.t) (s s' : St.t) : Prop :=
  Db.rideBooking (St.db s') = <[id x := f x]> (Db.rideBooking (St.db s)) /\
  Db.ride (St.db s') = Db.ride (St.db s) /\ Db.rideSegmentCapacity (St.db s') = Db.rideSegmentCapacity (St.db s) /\
  P x (St.fx s') /\ exists l, St.fx s' = l ++ St.fx s.

Definition wrote_all (l : list RideBooking.t) (s s' : St.t) : Prop :=
  (forall x, In x l -> Db.rideBooking (St.db s') !! id x = Some (f x) /\ P x (St.fx s')) /\
  (forall k, k ∉ map id l -> Db.rideBooking (St.db s') !! k = Db.rideBooking (St.db s) !! k) /\
  Db.ride (St.db s') = Db.ride (St.db s) /\ Db.rideSegmentCapacity (St.db s') = Db.rideSegmentCapacity (St.db s).

Lemma grows_app x l l' : P x l -> P x (l' ++ l).
Proof. induction l' as [|e l' IH]; [auto|]. intros Hp. apply grows, IH, Hp. Qed.

Lemma wp_wrote_all (l : list RideBooking.t) (s : St.t) : NoDup (map id l) ->
  (forall x s, In x l -> Db.rideBooking (St.db s) !! id x = Some (g x) ->
     wp (body x) (fun s' r => match r with Ok _ => wrote x s s' | Err e => E e (St.fx s') end) s) ->
  (forall x, In x l -> Db.rideBooking (St.db s) !! id x = Some (g x)) ->
  wp (for_each l body) (fun s' r => match r with
    | Ok _ => wrote_all l s s' /\ exists l', St.fx s' = l' ++ St.fx s
    | Err e => E e (St.fx s') end) s.
Proof.
  revert s. induction l as [|x l IH]; intros s N B R.
  - apply wp_ret. split; [|exists []; reflexivity]. split; [intros y []|]. auto.
  - cbn [map] in N. apply NoDup_cons in N as [Nx N]. cbn [for_each]. apply wp_bind.
    apply (wp_mono _ _ _ _ (B x s (or_introl eq_refl) (R x (or_introl eq_refl)))).
    intros s1 [u|e]; [|exact (fun X => X)]. intros (W1 & W2 & W3 & W4 & (l1 & W5)).
    refine (wp_mono _ _ _ _ (IH s1 N (fun y s Hy => B y s (or_intror Hy)) _) _).
    + intros y Hy. rewrite W1, lookup_insert_ne; [exact (R y (or_intror Hy))|].
      intros C. apply Nx. rewrite C. apply list_elem_of_In, in_map, Hy.
    + intros s2 [u2|e]; [|exact (fun X => X)]. intros [(V1 & V2 & V3 & V4) (l2 & V5)]. split; [|exists (l2 ++ l1); rewrite V5, W5, app_assoc; reflexivity].
      split; [|split; [|split; congruence]].
      * intros y [<-|Hy]; [|exact (V1 y Hy)]. rewrite (V2 _ Nx), W1. split; [apply lookup_insert_eq|]. rewrite V5. apply grows_app, W4.
      * intros k Nk. rewrite V2, W1, lookup_insert_ne; [reflexivity | |]; intros C; apply Nk; cbn [map]; rewrite list_elem_of_In in *; cbn; auto.
Qed.
End loop.

(** A booking cancelled with its ride. *)
Definition closedWithRide (bypass : bool) (b : RideBooking.t) : RideBooking.t :=
  let b' := PublishRide.cancelledWithRide b <| RideBooking.refundAmount := Some (paidAmount b) |> in
  if bypass then b' else match PublishRide.capturedIntent b with
                         | Some _ => b' <| RideBooking.refundedAt := Some now |>
                         | None => b'
                         end.

(** The refund of a booking, when one is due, was made. *)
Definition refunded (bypass : bool) (b : RideBooking.t) (l : list (Effect * option string)) : Prop :=
  bypass = false -> forall i, PublishRide.capturedIntent b = Some i ->
  done (StripeRefund i (Some (toMinorCurrencyUnits (paidAmount b)))) l.

(** The refund of a booking asked of Stripe, and those granted for the bookings of a list, the last first. *)
Definition refundCall (b : RideBooking.t) (intentId : string) : Effect :=
  StripeRefund intentId (Some (toMinorCurrencyUnits (paidAmount b))).
Definition granted (l : list RideBooking.t) : list (Effect * option string) :=
  rev (flat_map (fun b => match PublishRide.capturedIntent b with Some i => [(refundCall b i, None)] | None => [] end) l).

(** The refunds of a list of bookings, one after the other, until Stripe refuses one: those
    before it were made. *)
Definition stopped_at (l : list RideBooking.t) (e : string) (fx fx' : list (Effect * option string)) : Prop :=
  exists l1 y l2 i, l = l1 ++ y :: l2 /\ PublishRide.capturedIntent y = Some i /\
    fx' = (refundCall y i, Some e) :: granted l1 ++ fx.

Definition failing (E : string -> list (Effect * option string) -> Prop) (b : RideBooking.t) : Prop := forall i n e l,
  PublishRide.capturedIntent b = Some i ->
  let c := StripeRefund i (Some (toMinorCurrencyUnits (paidAmount b))) in fails n c = Some e -> E e ((c, Some e) :: l).

Lemma wp_refundWithRide E (b : RideBooking.t) (s : St.t) : failing E b ->
  Db.rideBooking (St.db s) !! RideBooking.id b = Some (closedWithRide true b) ->
  wp (PublishRide.refundWithRide b) (fun s' r => match r with
    | Ok _ => wrote (closedWithRide false) (refunded false) b s s' | Err e => E e (St.fx s') end) s.
Proof.
  intros HE Eb. unfold PublishRide.refundWithRide, wrote, refunded, closedWithRide in *.
  destruct (PublishRide.capturedIntent b) as [i|] eqn:C.
  - unfold refundPaymentIntent. wp_query. apply wp_call. intros o F. destruct o as [err|]; cbv beta iota.
    + exact (HE i _ err _ C F).
    + wp_query. apply wp_update; [cbn; intros Er; congruence|]. intros r Er. cbn in Er. rewrite Eb in Er. injection Er as <-.
      wp_query. cbn. split; [reflexivity|]. split; [reflexivity|]. split; [reflexivity|]. split; [|eexists [_]; reflexivity].
      intros _ i' [= <-]. left. reflexivity.
  - apply wp_ret. rewrite insert_id by exact Eb. split; [reflexivity|]. split; [reflexivity|]. split; [reflexivity|].
    split; [discriminate | exists []; reflexivity].
Qed.

Lemma wp_noteRefund (b : RideBooking.t) (s : St.t) :
  Db.rideBooking (St.db s) !! RideBooking.id b = Some (PublishRide.cancelledWithRide b) ->
  wp (update prisma.rideBooking (RideBooking.id b) (fun r => r <| RideBooking.refundAmount := Some (paidAmount b) |>);; mret tt)
    (fun s' r => match r with
    | Ok _ => wrote (closedWithRide true) (fun _ _ => True) b s s' | Err _ => False end) s.
Proof.
  intros E. apply wp_bind, wp_update; [cbn; intros Er; congruence|]. intros r Er. cbn in Er. rewrite E in Er. injection Er as <-.
  apply wp_ret. cbn. split; [reflexivity|]. split; [reflexivity|]. split; [reflexivity|]. split; [exact Logic.I | exists []; reflexivity].
Qed.

Lemma wp_noteRefunds_fx (l : list RideBooking.t) (s : St.t) :
  wp (for_each l (fun b =>
        update prisma.rideBooking (RideBooking.id b) (fun r => r <| RideBooking.refundAmount := Some (paidAmount b) |>);; mret tt))
    (fun s' _ => St.fx s' = St.fx s) s.
Proof.
  apply (wp_preserves (fun s' => St.fx s' = St.fx s)); [|reflexivity | auto]. apply preserves_for_each. intros b.
  apply preserves_bind; [|intros; apply preserves_ret]. apply preserves_wp. intros s1 E. wp_query; exact E.
Qed.

(** What Stripe was asked by the refunds of a list of bookings. *)
Lemma wp_refund_trace (L : list RideBooking.t) (s : St.t) :
  (forall x, In x L -> is_Some (Db.rideBooking (St.db s) !! RideBooking.id x)) ->
  wp (for_each L PublishRide.refundWithRide) (fun s' r => match r with
    | Ok _ => St.fx s' = granted L ++ St.fx s | Err e => stopped_at L e (St.fx s) (St.fx s') end) s.
Proof.
  revert s. induction L as [|x L IH]; intros s V; [apply wp_ret; reflexivity|]. cbn [for_each]. apply wp_bind.
  pose proof (fun y Hy => V y (or_intror Hy)) as VL. destruct (V x (or_introl eq_refl)) as [b E].
  unfold PublishRide.refundWithRide at 1. destruct (PublishRide.capturedIntent x) as [i|] eqn:C.
  - unfold refundPaymentIntent. wp_query. apply wp_call. intros [e|] _; cbv beta iota.
    + exists [], x, L, i. auto.
    + wp_query. wp_query; [cbn in *; congruence|]. wp_query.
      refine (wp_mono _ _ _ _ (IH _ _) _).
      { intros y Hy. cbn. destruct (decide (RideBooking.id y = RideBooking.id x)) as [->|N];
          [rewrite lookup_insert_eq; eauto | rewrite lookup_insert_ne by congruence; exact (VL y Hy)]. }
      intros s' [u|e].
      * intros F. cbn in F. rewrite F. unfold granted. cbn [flat_map]. rewrite C. cbn. rewrite <- app_assoc. reflexivity.
      * intros (l1 & y & l2 & j & EL & Cj & F). exists (x :: l1), y, l2, j. split; [rewrite EL; reflexivity|]. split; [exact Cj|].
        rewrite F. unfold granted. cbn [flat_map]. rewrite C. cbn. rewrite <- app_assoc. reflexivity.
  - wp_query. refine (wp_mono _ _ _ _ (IH s VL) _). intros s' [u|e].
    + intros F. rewrite F. unfold granted. cbn [flat_map]. rewrite C. reflexivity.
    + intros (l1 & y & l2 & j & EL & Cj & F). exists (x :: l1), y, l2, j. split; [rewrite EL; reflexivity|]. split; [exact Cj|].
      rewrite F. unfold granted. cbn [flat_map]. rewrite C. reflexivity.
Qed.

(** The state after a ride was cancelled. *)
Definition cancelledAll (rideId : string) (ride : Ride.t) (bypass : bool) (s s' : St.t) : Prop :=
  Db.ride (St.db s') = <[rideId := ride <| Ride.status := RideStatus.CANCELLED |>]> (Db.ride (St.db s)) /\
  Db.rideSegmentCapacity (St.db s') = Db.rideSegmentCapacity (St.db s) /\
  forall k b, Db.rideBooking (St.db s) !! k = Some b ->
    if PublishRide.ofRide rideId PublishRide.CANCELLED_WITH_RIDE b
    then Db.rideBooking (St.db s') !! k = Some (closedWithRide bypass b) /\ refunded bypass b (St.fx s')
    else Db.rideBooking (St.db s') !! k = Some b.

(** The transaction up to the refunds. *)
Definition closedAll (rideId : string) (ride : Ride.t) (s s' : St.t) : Prop :=
  let L := where_ prisma.rideBooking (PublishRide.ofRide rideId PublishRide.CANCELLED_WITH_RIDE) (St.db s) in
  (forall x, In x L -> Db.rideBooking (St.db s') !! RideBooking.id x = Some (closedWithRide true x)) /\
  (forall s2 bypass, wrote_all (closedWithRide bypass) (refunded bypass) L s' s2 -> cancelledAll rideId ride bypass s s2).

Lemma listed_on rideId (s : St.t) b : SeatInv (St.db s) ->
  In b (where_ prisma.rideBooking (PublishRide.ofRide rideId PublishRide.CANCELLED_WITH_RIDE) (St.db s)) <->
  Db.rideBooking (St.db s) !! RideBooking.id b = Some b /\ PublishRide.ofRide rideId PublishRide.CANCELLED_WITH_RIDE b = true.
Proof.
  intros I. rewrite where_elem. cbn. split; [intros [P [k Ek]]; split; [|exact P] | intros [Ek P]; eauto].
  rewrite (proj1 (inv_booking_id _ I k b Ek)). exact Ek.
Qed.

Lemma listed_nodup rideId (s : St.t) : SeatInv (St.db s) ->
  NoDup (map RideBooking.id (where_ prisma.rideBooking (PublishRide.ofRide rideId PublishRide.CANCELLED_WITH_RIDE) (St.db s))).
Proof. intros I. apply (where_nodup prisma.rideBooking). intros k r E; apply (inv_booking_id _ I k r E). Qed.

Lemma wp_cancelSteps rideId ride (bypass : bool) (s : St.t) Q : SeatInv (St.db s) -> Db.ride (St.db s) !! rideId = Some ride ->
  let L := where_ prisma.rideBooking (PublishRide.ofRide rideId PublishRide.CANCELLED_WITH_RIDE) (St.db s) in
  (forall s3, closedAll rideId ride s s3 -> St.fx s3 = St.fx s -> wp (when (negb bypass) (for_each L PublishRide.refundWithRide)) Q s3) ->
  wp (PublishRide.cancelRideTransaction rideId L bypass) Q s.
Proof.
  intros I Er L K. unfold PublishRide.cancelRideTransaction.
  wp_query. apply wp_update; [cbn; intros E; congruence|]. intros r Er'. cbn in Er'. rewrite Er in Er'. injection Er' as <-.
  wp_query. apply wp_run. intros s2 n. rewrite updateMany_run. intros [= <- <-]. cbv beta iota.
  wp_query. refine (wp_mono _ _ _ _ (wp_both _ _ _ _ (wp_wrote_all _ PublishRide.cancelledWithRide (closedWithRide true) (fun _ _ => True)
    (fun _ _ => False) (fun _ _ _ X => X) L _ (listed_nodup rideId s I) (fun x s _ => wp_noteRefund x s) _) (wp_noteRefunds_fx L _)) _).
  { intros x [Ex Px]%(listed_on _ _ _ I). cbn. rewrite lookup_fmap, Ex. cbn. rewrite Px. reflexivity. }
  intros s3 [u|e]; [|intros [[] _]]. intros [[(V1 & V2 & V3 & V4) _] Fx]. cbn in V2, V3, V4, Fx. apply K; [|exact Fx].
  split; [intros x Hx; apply V1, Hx|].
  intros s' b (X1 & X2 & X3 & X4). split; [rewrite X3; exact V3|]. split; [rewrite X4; exact V4|]. intros k x E.
  pose proof (proj1 (inv_booking_id _ I k x E)) as Ek. destruct (PublishRide.ofRide _ _ x) eqn:P.
  - subst k. apply X1. apply (listed_on _ _ _ I). split; assumption.
  - assert (Nk : k ∉ map RideBooking.id L).
    { intros (b' & Eb & [Ex Px]%(listed_on _ _ _ I))%list_elem_of_In%in_map_iff. rewrite Eb, E in Ex. injection Ex as <-. congruence. }
    rewrite (X2 k Nk), (V2 k Nk). cbn. rewrite lookup_fmap, E. cbn. rewrite P. reflexivity.
Qed.

Lemma wp_refunds E (L : list RideBooking.t) (s : St.t) : NoDup (map RideBooking.id L) -> (forall x, In x L -> failing E x) ->
  (forall x, In x L -> Db.rideBooking (St.db s) !! RideBooking.id x = Some (closedWithRide true x)) ->
  wp (for_each L PublishRide.refundWithRide) (fun s' r => match r with
    | Ok _ => wrote_all (closedWithRide false) (refunded false) L s s' /\ exists l', St.fx s' = l' ++ St.fx s
    | Err e => E e (St.fx s') end) s.
Proof.
  intros N F V. apply (wp_wrote_all _ (closedWithRide true) (closedWithRide false) (refunded false)
    E (fun x e l R F i C => or_intror (R F i C)) L s N (fun x s Hx => wp_refundWithRide E x s (F x Hx)) V).
Qed.

Lemma wp_cancelTransaction rideId ride (bypass : bool) (s : St.t) : SeatInv (St.db s) -> Db.ride (St.db s) !! rideId = Some ride ->
  let L := where_ prisma.rideBooking (PublishRide.ofRide rideId PublishRide.CANCELLED_WITH_RIDE) (St.db s) in
  wp (PublishRide.cancelRideTransaction rideId L bypass)
    (fun s' r => match r with
    | Ok _ => cancelledAll rideId ride bypass s s' | Err e => stopped_at L e (St.fx s) (St.fx s') end) s.
Proof.
  intros I Er L. apply (wp_cancelSteps rideId ride bypass s _ I Er). intros s3 [V Done] Fx. fold L in V, Done. destruct bypass; cbn [negb when].
  - apply wp_ret, Done. split; [|split; [|split]]; try reflexivity.
    intros x Hx. split; [apply V, Hx | discriminate].
  - refine (wp_mono _ _ _ _ (wp_both _ _ _ _ (wp_refunds (fun _ _ => True) L s3 (listed_nodup rideId s I) (fun x _ _ _ _ _ _ => _) V)
      (wp_refund_trace L s3 _)) _); [exact (fun _ => Logic.I) | intros x Hx; rewrite (V x Hx); eauto |].
    intros s4 [u4|e]; [intros [[X _] _]; exact (Done s4 false X) | intros [_ X]; rewrite <- Fx; exact X].
Qed.

(** Stripe grants the refunds of [l1] and refuses the one of [y]. *)
Definition grants (l : list RideBooking.t) : Prop := forall x i n, In x l -> PublishRide.capturedIntent x = Some i ->
  fails n (StripeRefund i (Some (toMinorCurrencyUnits (paidAmount x)))) = None.

Definition refuses (y : RideBooking.t) (e : string) : Prop := exists i, PublishRide.capturedIntent y = Some i /\
  forall n, fails n (StripeRefund i (Some (toMinorCurrencyUnits (paidAmount y)))) = Some e.

(** What follows the transaction leaves bookings, rides and calls for refunds alone. *)
Lemma cancelledAll_core rideId ride bypass s s1 s2 : cancelledAll rideId ride bypass s s1 -> same_core (St.db s1) (St.db s2) ->
  (forall e, done e (St.fx s1) -> done e (St.fx s2)) -> cancelledAll rideId ride bypass s s2.
Proof.
  intros (C1 & C2 & C3) (E1 & E2 & E3) D. split; [congruence|]. split; [congruence|]. intros k b E. specialize (C3 k b E).
  destruct (PublishRide.ofRide _ _ b); rewrite E1; [|exact C3]. destruct C3 as [C3 R]. split; [exact C3|].
  intros F i Ci. apply D, R; assumption.
Qed.

(** The transaction, and what follows it. *)
Section driver.
Context (driverId rideId : string) (s : St.t) (ride : Ride.t) (bypass : bool).
Hypotheses (I : SeatInv (St.db s)) (Er : Db.ride (St.db s) !! rideId = Some ride).
Hypotheses (D : Ride.driverId ride = driverId) (P : Ride.status ride = RideStatus.PUBLISHED).
Hypothesis (M : forall s0, isBypassBookingPaymentMode s0 = (s0, Ok bypass)).
Let L := where_ prisma.rideBooking (PublishRide.ofRide rideId PublishRide.CANCELLED_WITH_RIDE) (St.db s).

Definition after_cancel : H unit :=
  for_each L (fun booking =>
    when ((bypass || bool_decide (is_Some (PublishRide.capturedIntent booking))) && nlt (num_of_Z 0) (paidAmount booking))
      (attempt (markBookingPaymentRefunded (RideBooking.id booking) driverId (Some (paidAmount booking)))));;
  promise_all (map (fun booking =>
    createNotification (RideBooking.passengerId booking) "booking.cancelled.driver_cancelled_ride") L).

Lemma wp_cancelRide Q :
  wp (PublishRide.cancelRideTransaction rideId L bypass) (fun s1 r => match r with
    | Ok _ => wp after_cancel Q s1 | Err e => Q (s1 <| St.db := St.db s |>) (Err e) end) s ->
  wp (PublishRide.cancelRide driverId rideId) Q s.
Proof.
  intros W. unfold PublishRide.cancelRide. apply wp_bind, wp_findById; [intros C; exfalso|].
  { specialize (C ride Er). rewrite !bool_decide_eq_true_2 in C by assumption. discriminate C. }
  intros r Er' _. cbn in Er'. rewrite Er in Er'. injection Er' as <-. wp_query. apply wp_get. cbv beta iota.
  wp_query. apply wp_run. intros s0 x. rewrite M. intros [= <- <-]. cbv beta iota.
  wp_query. apply wp_transaction. apply (wp_mono _ _ _ _ W). intros s1 [[]|e]; exact (fun X => X).
Qed.

Lemma quiet_after_cancel : quiet after_cancel.
Proof.
  intros d0. unfold after_cancel. apply preserves_bind; [|intros _; apply preserves_promise_all; intros m (b & <- & _)%in_map_iff; apply preserves_perform].
  repeat first [apply quiet_markBookingPaymentRefunded | quiet_step].
Qed.

Lemma fx_after_cancel e : preserves (on_fx (done e)) after_cancel.
Proof.
  unfold after_cancel. apply preserves_bind; [|intros _]; [|apply preserves_promise_all; intros m (b & <- & _)%in_map_iff; apply done_perform].
  repeat first [apply fx_markBookingPaymentRefunded | fx_step].
Qed.

Lemma wp_after_cancel s1 : cancelledAll rideId ride bypass s s1 ->
  wp after_cancel (fun s2 _ => cancelledAll rideId ride bypass s s2) s1.
Proof.
  intros C. unfold wp. destruct (after_cancel s1) as [s2 r] eqn:R. apply (cancelledAll_core rideId ride bypass s s1); [exact C| |].
  - pose proof (quiet_after_cancel (St.db s1) s1 (same_core_refl _)) as X. rewrite R in X. exact X.
  - intros e De. pose proof (fx_after_cancel e s1 De) as X. rewrite R in X. exact X.
Qed.

End driver.

(** C40. A driver cancels a ride with all of its passengers, or none.  Either a refund
    was refused and the database is as before: what then remains of the attempt are
    the refunds of the bookings before the refused one, which Stripe has made, each
    the whole payment; or the ride is cancelled, each of its bookings that waited or was
    confirmed is cancelled with its whole payment refunded through Stripe (unless
    payments are bypassed), and no other
    booking, ride or leg has changed. *)
Theorem cancelRide_all_or_nothing (driverId rideId : string) (s : St.t) (ride : Ride.t) (bypass : bool) :
  SeatInv (St.db s) -> Db.ride (St.db s) !! rideId = Some ride ->
  Ride.driverId ride = driverId -> Ride.status ride = RideStatus.PUBLISHED ->
  (forall s0, isBypassBookingPaymentMode s0 = (s0, Ok bypass)) ->
  let '(s', r) := PublishRide.cancelRide driverId rideId s in
  (St.db s' = St.db s /\ exists e, r = Err e /\
     stopped_at (where_ prisma.rideBooking (PublishRide.ofRide rideId PublishRide.CANCELLED_WITH_RIDE) (St.db s))
       e (St.fx s) (St.fx s')) \/
  cancelledAll rideId ride bypass s s'.
Proof.
  intros I Er D P M. set (L := where_ _ _ _).
  enough (W : wp (PublishRide.cancelRide driverId rideId) (fun s' r =>
    (St.db s' = St.db s /\ exists e, r = Err e /\ stopped_at L e (St.fx s) (St.fx s')) \/ cancelledAll rideId ride bypass s s') s).
  { unfold wp in W. destruct (PublishRide.cancelRide driverId rideId s). exact W. }
  apply (wp_cancelRide driverId rideId s ride bypass Er D P M).
  pose proof (wp_cancelTransaction rideId ride bypass s I Er) as T. cbv zeta in T. fold L in T |- *.
  apply (wp_mono _ _ _ _ T).
  intros s1 [u|e]; [intros C | intros F; left; split; [reflexivity | eauto]].
  apply (wp_mono _ _ _ _ (wp_after_cancel driverId rideId s ride bypass s1 C)). auto.
Qed.

(** A refused refund forgets the refunds before it.  The refunds are asked for inside the
    transaction: when Stripe refuses the one of [y], the passengers before it have their
    money back, and the database says that their bookings are as they were, with nothing refunded. *)
Theorem cancelRide_forgets_refunds (driverId rideId : string) (s : St.t) (ride : Ride.t) (l1 l2 : list RideBooking.t) (y : RideBooking.t) (e : string) :
  SeatInv (St.db s) -> Db.ride (St.db s) !! rideId = Some ride ->
  Ride.driverId ride = driverId -> Ride.status ride = RideStatus.PUBLISHED ->
  (forall s0, isBypassBookingPaymentMode s0 = (s0, Ok false)) ->
  where_ prisma.rideBooking (PublishRide.ofRide rideId PublishRide.CANCELLED_WITH_RIDE) (St.db s) = l1 ++ y :: l2 ->
  grants l1 -> refuses y e ->
  let '(s', r) := PublishRide.cancelRide driverId rideId s in
  r = Err e /\ St.db s' = St.db s /\ forall x, In x l1 -> refunded false x (St.fx s').
Proof.
  intros I Er D P M EL G (i & Ci & Rf).
  enough (W : wp (PublishRide.cancelRide driverId rideId) (fun s' r =>
    r = Err e /\ St.db s' = St.db s /\ forall x, In x l1 -> refunded false x (St.fx s')) s).
  { unfold wp in W. destruct (PublishRide.cancelRide driverId rideId s). exact W. }
  apply (wp_cancelRide driverId rideId s ride false Er D P M).
  apply (wp_cancelSteps rideId ride false s _ I Er). intros s3 [V _] _. cbn [negb when].
  pose proof (listed_nodup rideId s I) as N. rewrite EL in V, N |- *. unfold wp. rewrite for_each_app. apply wp_bind.
  rewrite map_app in N. apply NoDup_app in N as (N1 & _ & _).
  assert (F : forall x, In x l1 -> failing (fun _ _ => False) x) by (intros x Hx j n e' l Cj c Fc; unfold c in Fc; rewrite (G x j n Hx Cj) in Fc; discriminate Fc).
  refine (wp_mono _ _ _ _ (wp_refunds (fun _ _ => False) l1 s3 N1 F (fun x Hx => V x (in_or_app _ _ _ (or_introl Hx)))) _).
  intros s4 [u|e']; [intros [[X _] _]|intros []].
  cbn [for_each]. apply wp_bind. unfold PublishRide.refundWithRide at 1. rewrite Ci. unfold refundPaymentIntent. apply wp_bind, wp_call.
    intros o Fo. rewrite Rf in Fo. subst o. cbv beta iota. split; [reflexivity|]. split; [reflexivity|].
  intros x Hx _ j Cj. right. exact (proj2 (X x Hx) eq_refl j Cj).
Qed.
End cancellation.

(** ** Witnesses *)

#[local] Existing Instance exactly.

Lemma booked_seats_are_sold_witness :
  PublishRide.RideView.bookedSeats (@PublishRide.viewRide demo_at (St.db demo_state) (demo_ride <| Ride.availableSeats := 2 |>)) = 1.
Proof. exact (@booked_seats_are_sold demo_at (St.db demo_state) (demo_ride <| Ride.availableSeats := 2 |>) demo_good eq_refl). Defined.

(** A ride at 23:00 without passengers, seen at 22:00. *)
Definition demo_listing : Env := demo_env 79200000 no_failure.
Definition demo_empty_ride : St.t := St.Build_t
  (Db.empty <| Db.ride := {["r1"%string := demo_ride <| Ride.availableSeats := 3 |>]} |>) [] 0.

Lemma demo_empty_ride_inv : SeatInv (St.db demo_empty_ride).
Proof.
  assert (N : forall k b, Db.rideBooking (St.db demo_empty_ride) !! k = Some b -> False).
  { intros k b E. change ((∅ : gmap string RideBooking.t) !! k = Some b) in E. rewrite lookup_empty in E. discriminate. }
  split; try (intros k b E; destruct (N k b E)).
  - intros k r. cbn. rewrite lookup_singleton_Some. intros [<- <-]. reflexivity.
  - intros k r E. change (({["r1"%string := demo_ride <| Ride.availableSeats := 3 |>]} : gmap string Ride.t) !! k = Some r) in E.
    apply lookup_singleton_Some in E as [<- <-]. vm_compute. split; [reflexivity | discriminate].
  - intros k c E. change ((∅ : gmap string RideSegmentCapacity.t) !! k = Some c) in E. rewrite lookup_empty in E. discriminate.
Qed.

Lemma listing_expires_ride_early_witness :
  combineDepartureDateTimeUtc 0 "23:00" = Ok 82800000 /\ @now demo_listing = 79200000 /\
  expired "r1" (St.db (@PublishRide.getUserRides demo_listing demo_zone "d1" [RideStatus.PUBLISHED] 1 20 demo_empty_ride).1).
Proof.
  split; [vm_compute; reflexivity|]. split; [reflexivity|].
  pose (ride := demo_ride <| Ride.availableSeats := 3 |>).
  assert (D : combineDepartureDateTimeUtc (Ride.departureDate ride) (Ride.departureTime ride) = Ok 82800000) by (vm_compute; reflexivity).
  refine (@listing_expires_ride_early demo_listing demo_zone _ "d1" [RideStatus.PUBLISHED] 1 20 demo_empty_ride
           ride 82800000 10800000 demo_empty_ride_inv _ _ _ D _ _ _ _ _);
    try (vm_compute; (reflexivity || discriminate)).
Defined.

Lemma cancelRide_all_or_nothing_witness :
  let '(s', r) := @PublishRide.cancelRide demo_at "d1" "r1" demo_state in
  r = Ok tt /\ @cancelledAll demo_at "r1" (demo_ride <| Ride.availableSeats := 2 |>) false demo_state s'.
Proof.
  assert (R : (@PublishRide.cancelRide demo_at "d1" "r1" demo_state).2 = Ok tt) by (vm_compute; reflexivity).
  pose proof (@cancelRide_all_or_nothing demo_at _ "d1" "r1" demo_state (demo_ride <| Ride.availableSeats := 2 |>) false
    (good_seats _ demo_good) eq_refl eq_refl eq_refl (fun _ => eq_refl)) as W.
  destruct (@PublishRide.cancelRide demo_at "d1" "r1" demo_state) as [s' r]. cbn in R. subst r. split; [reflexivity|].
  destruct W as [(_ & e & C & _)|W]; [discriminate C | exact W].
Defined.

(** Two passengers have paid; Stripe refuses to refund [pi_2]. *)
Definition demo_second : RideBooking.t :=
  demo_unpaid <| RideBooking.status := BookingStatus.CONFIRMED |> <| RideBooking.seatsReservedAt := Some 5 |>
    <| RideBooking.paymentCapturedAt := Some 5 |>.
Definition demo_sold_out : St.t := St.Build_t (demo_db demo_waiting demo_second 0) [] 0.
Definition demo_refusing_one : Env := demo_env 1000 (fun _ e =>
  match e with StripeRefund i _ => if decide (i = "pi_2"%string) then Some "charge_disputed"%string else None | _ => None end).

Lemma demo_sold_out_inv : SeatInv (St.db demo_sold_out).
Proof.
  assert (L : forall k b, Db.rideBooking (St.db demo_sold_out) !! k = Some b ->
            (k = "b1"%string /\ b = demo_waiting) \/ (k = "b2"%string /\ b = demo_second)).
  { intros k b. cbn. rewrite lookup_insert_Some, lookup_singleton_Some. intros [[<- <-]|(_ & <- & <-)]; auto. }
  split.
  - intros k b E. destruct (L k b E) as [[-> ->]|[-> ->]]; split; (reflexivity || discriminate).
  - intros k r. cbn. rewrite lookup_singleton_Some. intros [<- <-]. reflexivity.
  - intros k b E. destruct (L k b E) as [[-> ->]|[-> ->]]; reflexivity.
  - intros k b E. destruct (L k b E) as [[-> ->]|[-> ->]]; eexists; reflexivity.
  - intros k r Er. change (({["r1"%string := demo_ride <| Ride.availableSeats := 0 |>]} : gmap string Ride.t) !! k = Some r) in Er.
    apply lookup_singleton_Some in Er as [<- <-]. vm_compute. split; [reflexivity | discriminate].
  - intros k c E. change ((∅ : gmap string RideSegmentCapacity.t) !! k = Some c) in E. rewrite lookup_empty in E. discriminate.
Qed.

Lemma cancelRide_forgets_refunds_witness :
  let '(s', r) := @PublishRide.cancelRide demo_refusing_one "d1" "r1" demo_sold_out in
  r = Err "charge_disputed" /\ St.db s' = St.db demo_sold_out /\ refunded false demo_waiting (St.fx s').
Proof.
  pose proof (@cancelRide_forgets_refunds demo_refusing_one _ "d1" "r1" demo_sold_out (demo_ride <| Ride.availableSeats := 0 |>)
    [demo_waiting] [] demo_second "charge_disputed" demo_sold_out_inv eq_refl eq_refl eq_refl (fun _ => eq_refl)) as W.
  destruct (@PublishRide.cancelRide demo_refusing_one "d1" "r1" demo_sold_out) as [s' r].
  destruct W as (A & B & C); [vm_compute; reflexivity | | |].
  - intros x i n [<-|[]] [= <-]. reflexivity.
  - exists "pi_2"%string. split; [reflexivity | intros n; reflexivity].
  - split; [exact A|]. split; [exact B|]. apply C. left. reflexivity.
Defined.
