(* ===== verification/Trips.v ===== *)
(** * Trips

    What the steps of a ride achieve: starting it takes every confirmed rider along,
    a rider boards with the right code only and it can be guessed a few times only,
    when a no-show may be marked, a trip can be completed, actions queued offline
    are applied once; and what the driver's override does to a cancelled booking. *)

From Stdlib Require Import ZArith Lia.
From stdpp Require Import base list option strings gmap relations.
From S2P Require Import Prelude JsNumber JsText Money Schema Store Seats Payments Time Segment ViewToken Pricing.
From S2P Require Import Gateway Rewards RideRequest Booking DriverBooking RideOps Deadlines Webhook.
From S2P Require Import Invariant Safe DriverRides RideSafe Lifecycle Outcomes.

Open Scope Z_scope.

(** ** Writes followed by quiet code *)

Section writes.
Context `{Env} `{Mode}.

Lemma wp_update_then {R A} (t : Table R) (s : St.t) (id : string) (r : R) f (k : R -> H A) Q :
  rows t (St.db s) !! id = Some r -> (forall x, quiet (k x)) ->
  (forall s' x, same_core (with_rows t <[id := f r]> (St.db s)) (St.db s') -> Q s' x) ->
  wp (update t id f ≫= k) Q s.
Proof.
  intros E Qk HQ. apply wp_bind, wp_update; [congruence|]. intros r' E'.
  assert (r' = r) as -> by congruence. apply wp_quiet; [apply Qk|]. intros s' x C. apply HQ, C.
Qed.

(** A booking with its ride, as the handlers fetch it. *)
Lemma wp_driverBooking_row driverId id (b : RideBooking.t) (r : Ride.t) Q (s : St.t) :
  Db.rideBooking (St.db s) !! id = Some b -> Db.ride (St.db s) !! RideBooking.rideId b = Some r ->
  Ride.driverId r = driverId -> Q s (Ok (b, r)) -> wp (driverBooking driverId id) Q s.
Proof.
  intros E Er D HQ. unfold driverBooking, rideOf. wp_query. wp_query. cbn in E0. rewrite E in E0. subst o.
  wp_query. wp_query; [cbn in E0; congruence|]. assert (r0 = r) as -> by (cbn in E0; congruence).
  wp_query. wp_query; [|wp_query; exact HQ].
  lazymatch goal with Hd : _ = true |- _ => apply bool_decide_eq_true in Hd; contradiction end.
Qed.

Lemma wp_riderBooking_row passengerId id (b : RideBooking.t) (r : Ride.t) Q (s : St.t) :
  Db.rideBooking (St.db s) !! id = Some b -> Db.ride (St.db s) !! RideBooking.rideId b = Some r ->
  RideBooking.passengerId b = passengerId -> Q s (Ok (b, r)) -> wp (riderBooking passengerId id) Q s.
Proof.
  intros E Er D HQ. unfold riderBooking, rideOf. wp_query. wp_query. cbn in E0. rewrite E in E0. subst o.
  wp_query. wp_query; [cbn in E0; congruence|]. assert (r0 = r) as -> by (cbn in E0; congruence).
  wp_query. wp_query; [|wp_query; exact HQ].
  lazymatch goal with Hd : _ = true |- _ => apply bool_decide_eq_true in Hd; contradiction end.
Qed.

(** With the override a check never throws. *)
Lemma wp_assertOrForce_any c violated code Q (s : St.t) :
  (violated = true -> ForceContext.forced c = false -> Q s (Err code)) ->
  (forall c', ForceContext.forced c' = ForceContext.forced c ->
     (violated = false -> c' = c) -> (violated = true -> ForceContext.forced c = true) -> Q s (Ok c')) ->
  wp (assertOrForce c violated code) Q s.
Proof.
  intros HE HQ. unfold assertOrForce, wp. destruct violated; cbn.
  - destruct (ForceContext.forced c) eqn:F; cbn; [|auto]. apply HQ; [|discriminate | auto].
    unfold record_skip. destruct (bool_decide _); exact F.
  - apply HQ; [reflexivity | reflexivity | discriminate].
Qed.
End writes.

(** ** Boarding *)

Section boarding.
Context `{Env} `{Mode}.

(** Overridden, no check of the code throws, and nothing is written. *)
Lemma wp_verifyCode_forced bookingId booking otp hash expiresAt unavailable codes force Q (s : St.t) :
  ForceContext.forced force = true ->
  (forall v force', ForceContext.forced force' = true -> Q s (Ok (v, force'))) ->
  wp (verifyCode bookingId booking otp hash expiresAt unavailable codes force) Q s.
Proof.
  intros F HQ. unfold verifyCode. destruct codes as [[c1 c2] c3].
  repeat (wp_query; apply wp_assertOrForce_any; [congruence | intros ? F' _ _; cbv beta iota; rewrite F in F'; clear F; rename F' into F]).
  wp_query. rewrite F, andb_false_r. cbv beta iota. wp_query. wp_query.
  apply wp_assertOrForce_any; [congruence|]. intros c4 F4 _ _. wp_query. apply HQ. congruence.
Qed.

(** The override brings a cancelled booking back: on a ride under way, a driver who
    forces the boarding of a booking that was cancelled (its seats released and
    perhaps sold again, its payment refunded) leaves it on board, without seats,
    whatever fails afterwards; the state no longer satisfies the invariant. *)
Theorem force_revives_cancelled_booking (s : St.t) (id : string) (b : RideBooking.t) (ride : Ride.t)
    (otp : option string) (input : RideEventInput.t) :
  @Good exactly (St.db s) -> Db.rideBooking (St.db s) !! id = Some b -> RideBooking.status b = BookingStatus.CANCELLED ->
  Db.ride (St.db s) !! RideBooking.rideId b = Some ride -> Ride.status ride = RideStatus.IN_PROGRESS ->
  RideEventInput.force input = true ->
  wp (verifyPickupAndBoard (Ride.driverId ride) id otp input)
     (fun s' _ => row id (fun b' => RideBooking.status b' = BookingStatus.ONBOARD /\
                                    RideBooking.seatsReservedAt b' = None) (St.db s') /\
                  ~ @Good exactly (St.db s')) s.
Proof.
  intros G E T Er Tr F.
  assert (U : RideBooking.seatsReservedAt b = None) by (apply (good_unheld _ G eq_refl id b E); rewrite T; solve_in).
  unfold verifyPickupAndBoard. wp_query. apply (wp_driverBooking_row _ _ b ride); [exact E | exact Er | reflexivity|].
  cbv beta iota. wp_query. unfold assertForceAllowedOnRide. wp_query.
  { exfalso. match goal with Hd : _ && _ = true |- _ => apply andb_prop in Hd as [_ Hd%bool_decide_eq_true] end. contradiction. }
  wp_query. apply wp_assertOrForce_any; [cbn; congruence|]. intros c Fc _ _. cbv beta iota. cbn in Fc. rewrite F in Fc.
  wp_query. apply wp_verifyCode_forced; [exact Fc|]. intros v c' Fc'. cbv beta iota.
  apply (wp_update_then _ _ _ b); [exact E | tail_quiet |]. intros s' x C.
  match type of C with same_core (with_rows _ <[_ := ?x]> _) _ => set (b' := x) in C end.
  assert (E' : Db.rideBooking (St.db s') !! id = Some b') by (destruct C as (-> & _); apply lookup_insert_eq).
  split; [exists b'; split; [exact E' | split; [reflexivity | exact U]]|].
  intros G'. destruct (good_held _ G' eq_refl id b' E') as [t Et]; [solve_not_in | cbn in Et; congruence].
Qed.

(** The check of a code, overridden or not used. *)
Definition codeRight (otp : option string) (b : RideBooking.t) : bool :=
  match truthy (RideBooking.pickupOtpHash b), truthy otp with
  | Some hash, Some code => isOtpValid code hash
  | _, _ => false
  end.

Definition codeExpired (b : RideBooking.t) : bool :=
  match RideBooking.pickupOtpExpiresAt b with Some t => t <? now | None => false end.

Definition boarded (b : RideBooking.t) : RideBooking.t :=
  b <| RideBooking.status := BookingStatus.ONBOARD |> <| RideBooking.pickupOtpVerifiedAt := Some now |>
    <| RideBooking.onboardedAt := Some now |>.
Definition oneMoreAttempt (b : RideBooking.t) : RideBooking.t :=
  b <| RideBooking.otpAttemptCount ::= Z.add 1 |>.

(** What [verifyPickupAndBoard] promises of the booking [b]. *)
Definition boarding_of (id : string) (b : RideBooking.t) (otp : option string) (s s' : St.t)
    (answer : Res OperationResult.t) : Prop :=
  let refused code := s' = s /\ answer = Err code in
  if negb (has_status [BookingStatus.DRIVER_ARRIVED; BookingStatus.WAITING_FOR_PICKUP] b)
  then refused "BOOKING_NOT_READY_FOR_OTP"%string
  else if bool_decide (truthy (RideBooking.pickupOtpHash b) = None) then refused "PICKUP_OTP_NOT_AVAILABLE"%string
  else if codeExpired b then refused "PICKUP_OTP_EXPIRED"%string
  else if MAX_OTP_ATTEMPTS <=? RideBooking.otpAttemptCount b then refused "OTP_ATTEMPT_LIMIT_EXCEEDED"%string
  else if codeRight otp b then same_core (put_booking id (boarded b) (St.db s)) (St.db s')
  else s' = s <| St.db ::= put_booking id (oneMoreAttempt b) |> /\ answer = Err "INVALID_PICKUP_OTP".

(** Boarding with a code, on every branch: without the override the driver's
    request is refused, in this order and with nothing written, when the booking is
    not at the pickup, has no code, the code has expired or five wrong codes were
    given; a wrong code is counted and refused; with the right code, and only then,
    the rider is on board, and no other booking, ride or leg has changed. *)
Theorem verifyPickup_exact (s : St.t) (id : string) (b : RideBooking.t) (ride : Ride.t) (otp : option string)
    (input : RideEventInput.t) :
  Db.rideBooking (St.db s) !! id = Some b -> Db.ride (St.db s) !! RideBooking.rideId b = Some ride ->
  RideEventInput.force input = false ->
  wp (verifyPickupAndBoard (Ride.driverId ride) id otp input) (boarding_of id b otp s) s.
Proof.
  intros E Er F. unfold verifyPickupAndBoard, boarding_of.
  wp_query. apply (wp_driverBooking_row _ _ b ride); [exact E | exact Er | reflexivity|]. cbv beta iota.
  wp_query. apply wp_assertForceAllowed; [exact F|].
  wp_query. apply wp_assertOrForce; [exact F | intros ->; auto | intros ->]. cbv beta iota.
  wp_query. unfold verifyCode, PICKUP_CODES.
  wp_query. apply wp_assertOrForce; [exact F | intros ->; auto | intros ->]. cbv beta iota. fold (codeExpired b).
  wp_query. apply wp_assertOrForce; [exact F | intros ->; auto | intros ->]. cbv beta iota.
  wp_query. apply wp_assertOrForce; [exact F | intros ->; auto | intros ->]. cbv beta iota.
  fold (codeRight otp b). cbn [forceOf createForceContext ForceContext.forced]. rewrite F, andb_true_r.
  destruct (codeRight otp b) eqn:R; cbn [negb].
  - wp_query. wp_query. wp_query. apply wp_assertOrForce; [exact F | discriminate | intros _]. wp_query.
    apply (wp_update_then _ _ _ b); [exact E | tail_quiet | intros s' x C; exact C].
  - wp_query. wp_query. wp_query; [cbn in E0; congruence|]. wp_query.
    assert (r = b) as -> by (cbn in E0; congruence). auto.
Qed.
End boarding.

(** *** Guessing *)

(** Requests to board, one after the other, each at its own time. *)
Definition Guess : Type := Env * option string * RideEventInput.t.

Definition guess (driverId id : string) (s : St.t) (g : Guess) : St.t :=
  let '(env, otp, input) := g in (@verifyPickupAndBoard env driverId id otp input s).1.

Definition right (b : RideBooking.t) (g : Guess) : bool := let '(env, otp, _) := g in @codeRight env otp b.
Definition live (b : RideBooking.t) (g : Guess) : bool := let '(env, _, _) := g in negb (@codeExpired env b).

Definition overridden (g : Guess) : bool := RideEventInput.force (snd g).

(** A guess decided it: the first to use the override, or a right code before which none
    did and fewer than [n] were live. *)
Definition found_within (n : Z) (b : RideBooking.t) (gs : list Guess) : Prop :=
  exists gs1 g gs2, gs = (gs1 ++ g :: gs2)%list /\ (forall x, In x gs1 -> overridden x = false) /\
    (overridden g = true \/ right b g = true /\ Z.of_nat (length (List.filter (live b) gs1)) < n).

Lemma found_later n b g gs : overridden g = false -> found_within n b gs -> found_within (n + 1) b (g :: gs).
Proof.
  intros V (gs1 & g' & gs2 & -> & Vs & C). exists (g :: gs1), g', gs2. split; [reflexivity|].
  split; [intros x [<-|Hx]; auto|]. destruct C as [C|[R Lt]]; [auto | right]. split; [exact R|].
  cbn [List.filter]. destruct (live b g); cbn [length]; lia.
Qed.

Lemma found_later_dead n b g gs : overridden g = false -> live b g = false -> found_within n b gs ->
  found_within n b (g :: gs).
Proof.
  intros V D (gs1 & g' & gs2 & -> & Vs & C). exists (g :: gs1), g', gs2. split; [reflexivity|].
  split; [intros x [<-|Hx]; auto|]. destruct C as [C|[R Lt]]; [auto | right]. split; [exact R|].
  cbn [List.filter]. rewrite D. exact Lt.
Qed.

(** C33.  A code cannot be guessed by trying: however often a driver asks to board a
    booking, at whatever times, when the rider ends on board then either a request used the
    driver's override, or the right code was given and before it fewer than
    [MAX_OTP_ATTEMPTS] guesses (less those already counted) were made while the code was
    not expired. *)
Theorem otp_guesses_are_bounded (gs : list Guess) (s : St.t) (id : string) (b : RideBooking.t) (ride : Ride.t) :
  Db.rideBooking (St.db s) !! id = Some b -> Db.ride (St.db s) !! RideBooking.rideId b = Some ride ->
  has_status [BookingStatus.DRIVER_ARRIVED; BookingStatus.WAITING_FOR_PICKUP] b = true ->
  truthy (RideBooking.pickupOtpHash b) <> None ->
  row id (fun b' => RideBooking.status b' = BookingStatus.ONBOARD)
    (St.db (fold_left (guess (Ride.driverId ride) id) gs s)) ->
  found_within (MAX_OTP_ATTEMPTS - RideBooking.otpAttemptCount b) b gs.
Proof.
  revert s b. induction gs as [|[[env otp] input] gs IH]; intros s b E Er Sb Hs R.
  - exfalso. destruct R as (b' & E' & T). cbn in E'. rewrite E in E'. injection E' as <-.
    by_status Sb; congruence.
  - cbn [fold_left] in R. unfold guess at 2 in R.
    destruct (RideEventInput.force input) eqn:F.
    { exists [], (env, otp, input), gs. split; [reflexivity|]. split; [intros ? [] | left; exact F]. }
    pose proof (@verifyPickup_exact env s id b ride otp input E Er F) as X. unfold wp, boarding_of in X.
    set (s1 := (@verifyPickupAndBoard env _ _ _ _ _).1) in X, R.
    rewrite Sb in X. cbn [negb] in X. rewrite bool_decide_eq_false_2 in X by exact Hs.
    assert (Stay : s1 = s -> found_within (MAX_OTP_ATTEMPTS - RideBooking.otpAttemptCount b) b gs)
      by (intros Es; rewrite Es in R; exact (IH s b E Er Sb Hs R)).
    destruct (@codeExpired env b) eqn:X1.
    { apply found_later_dead; [exact F | cbn; rewrite X1; reflexivity | apply Stay, X]. }
    destruct (MAX_OTP_ATTEMPTS <=? RideBooking.otpAttemptCount b) eqn:X2.
    { apply Z.leb_le in X2. destruct (Stay (proj1 X)) as (gs1 & g & gs2 & -> & Vs & [C|[_ Lt]]); [|lia].
      exists ((env, otp, input) :: gs1), g, gs2. split; [reflexivity|]. split; [intros x [<-|Hx]; auto | left; exact C]. }
    apply Z.leb_gt in X2. destruct (@codeRight env otp b) eqn:X3.
    + exists [], (env, otp, input), gs. split; [reflexivity|]. split; [intros ? [] | right; split; [exact X3 | cbn; lia]].
    + destruct X as [Es _].
      assert (Found : found_within (MAX_OTP_ATTEMPTS - (1 + RideBooking.otpAttemptCount b)) (oneMoreAttempt b) gs).
      { apply (IH s1); rewrite ?Es; [apply lookup_insert_eq | exact Er | exact Sb | exact Hs |].
        rewrite <- Es. exact R. }
      replace (MAX_OTP_ATTEMPTS - RideBooking.otpAttemptCount b)
        with (MAX_OTP_ATTEMPTS - (1 + RideBooking.otpAttemptCount b) + 1) by lia.
      apply found_later; [exact F | exact Found].
Qed.

(** ** No-shows *)

Section noshow.
Context `{Env} `{Mode}.

Definition missed (b : RideBooking.t) : RideBooking.t :=
  b <| RideBooking.status := BookingStatus.NO_SHOW |> <| RideBooking.noShowMarkedAt := Some now |>.

(** The driver reported arriving less than ten minutes ago; simulated rides do not wait. *)
Definition stillWaiting (b : RideBooking.t) : bool :=
  match RideBooking.waitTimerStartedAt b with
  | Some arrivedAt => now <? arrivedAt + (if ALLOW_RIDE_SIMULATION then 0 else 10 * 60 * 1000)
  | None => false
  end.

(** When a rider may be marked as a no-show: without the override the driver
    is refused when the booking is not at the pickup, or less than ten minutes after
    they reported arriving; otherwise, and also when they never reported arriving,
    the booking is a no-show, and no other booking, ride or leg has changed. *)
Theorem markNoShow_exact (s : St.t) (id : string) (b : RideBooking.t) (ride : Ride.t) (input : RideEventInput.t) :
  Db.rideBooking (St.db s) !! id = Some b -> Db.ride (St.db s) !! RideBooking.rideId b = Some ride ->
  RideEventInput.force input = false ->
  wp (markNoShow (Ride.driverId ride) id input)
     (fun s' answer =>
        if negb (has_status [BookingStatus.DRIVER_ARRIVED; BookingStatus.WAITING_FOR_PICKUP] b)
        then s' = s /\ answer = Err "BOOKING_NOT_AT_PICKUP"%string
        else if stillWaiting b then s' = s /\ answer = Err "WAIT_TIME_NOT_ELAPSED"%string
        else same_core (put_booking id (missed b) (St.db s)) (St.db s')) s.
Proof.
  intros E Er F. unfold markNoShow.
  wp_query. apply (wp_driverBooking_row _ _ b ride); [exact E | exact Er | reflexivity|]. cbv beta iota.
  wp_query. apply wp_assertForceAllowed; [exact F|].
  wp_query. apply wp_assertOrForce; [exact F | intros ->; auto | intros ->]. cbv beta iota. cbn [negb].
  assert (W : stillWaiting b = match noShowAvailableAt (RideBooking.waitTimerStartedAt b) with
                               | Some t => now <? t | None => false end).
  { unfold stillWaiting, noShowAvailableAt, WAIT_TIME_MINUTES.
    destruct (RideBooking.waitTimerStartedAt b); [|reflexivity].
    destruct ALLOW_RIDE_SIMULATION; f_equal; lia. }
  rewrite W. clear W. wp_query.
  destruct (noShowAvailableAt _) as [t|]; cbv beta iota.
  - apply wp_assertOrForce; [exact F | intros ->; auto | intros ->]. cbv beta iota.
    apply (wp_update_then _ _ _ b); [exact E | tail_quiet | intros s' x C; exact C].
  - apply wp_ret. apply (wp_update_then _ _ _ b); [exact E | tail_quiet | intros s' x C; exact C].
Qed.
End noshow.

(** ** Starting a ride *)

Section starting.
Context `{Env} `{Mode}.

Definition startable (ride : Ride.t) : bool :=
  bool_decide (Ride.status ride = RideStatus.PUBLISHED \/ Ride.status ride = RideStatus.READY_TO_START).

Definition started (r : Ride.t) : Ride.t :=
  r <| Ride.status := RideStatus.IN_PROGRESS |> <| Ride.actualStartTime := Some now |>
    <| Ride.currentStopSequence := Some 0 |>.

(** A confirmed booking of the ride waits for its pickup. *)
Definition taken_along (rideId : string) (b : RideBooking.t) : RideBooking.t :=
  if bool_decide (RideBooking.rideId b = rideId) && bool_decide (RideBooking.status b = BookingStatus.CONFIRMED)
  then b <| RideBooking.status := BookingStatus.WAITING_FOR_PICKUP |> else b.

Lemma startable_from (ride : Ride.t) Q (s : St.t) :
  (startable ride = false -> Q s (Err "INVALID_RIDE_STATE_TRANSITION"%string)) ->
  (startable ride = true -> Q s (Ok tt)) ->
  wp (if decide (Ride.status ride = RideStatus.PUBLISHED \/ Ride.status ride = RideStatus.READY_TO_START) then mret tt
      else assertRideTransition (Ride.status ride) RideStatus.IN_PROGRESS) Q s.
Proof.
  unfold startable. intros HE HQ.
  destruct (decide (Ride.status ride = RideStatus.PUBLISHED \/ Ride.status ride = RideStatus.READY_TO_START)) as [D|D].
  - rewrite bool_decide_eq_true_2 in HQ by exact D. apply wp_ret, HQ. reflexivity.
  - rewrite bool_decide_eq_false_2 in HE by exact D. specialize (HE eq_refl). unfold assertRideTransition.
    apply wp_throw_if; intros C; [exact HE|]. exfalso. apply negb_false_iff, bool_decide_eq_true in C.
    apply list_elem_of_In in C. destruct (Ride.status ride); cbn in C; intuition discriminate.
Qed.

(** Starting a ride: the driver is refused, and nothing is written, when the
    ride is not published or ready, its departure cannot be read, or it is too early
    (unless rides are simulated); otherwise the ride is under way from now on and
    all and only its confirmed bookings wait for their pickup, even when telling
    the riders fails. *)
Theorem startRide_exact (s : St.t) (rideId : string) (ride : Ride.t) (input : RideEventInput.t) :
  Db.ride (St.db s) !! rideId = Some ride ->
  wp (startRide (Ride.driverId ride) rideId input)
     (fun s' answer =>
        let refused code := s' = s /\ answer = Err code in
        let under_way := Db.ride (St.db s') = <[rideId := started ride]> (Db.ride (St.db s)) /\
          Db.rideBooking (St.db s') = taken_along rideId <$> Db.rideBooking (St.db s) /\
          Db.rideSegmentCapacity (St.db s') = Db.rideSegmentCapacity (St.db s) in
        if negb (startable ride) then refused "INVALID_RIDE_STATE_TRANSITION"%string
        else if ALLOW_RIDE_SIMULATION then under_way
        else match combineDepartureDateTimeUtc (Ride.departureDate ride) (Ride.departureTime ride) with
             | Err code => refused code
             | Ok departureAt => if isRideStartTooEarly departureAt then refused "RIDE_TOO_EARLY"%string else under_way
             end) s.
Proof.
  intros E. unfold startRide. wp_query. wp_query. cbn in E0. rewrite E in E0. subst o.
  wp_query. apply wp_run. intros ? ? [= <- <-]. wp_query. wp_query.
  { lazymatch goal with Hd : _ = true |- _ => apply bool_decide_eq_true in Hd; contradiction end. }
  wp_query. apply startable_from; intros ->; cbn [negb]; cbv beta iota; [auto|].
  assert (Go : forall (k : Ride.t -> M St.t (RideStatus.t * option Z)), (forall x, quiet (k x)) ->
    wp (updated ← update prisma.ride rideId started;
        updateMany prisma.rideBooking
          (fun b => bool_decide (RideBooking.rideId b = rideId) && bool_decide (RideBooking.status b = BookingStatus.CONFIRMED))
          (fun b => b <| RideBooking.status := BookingStatus.WAITING_FOR_PICKUP |>);; k updated)
       (fun s' _ => Db.ride (St.db s') = <[rideId := started ride]> (Db.ride (St.db s)) /\
          Db.rideBooking (St.db s') = taken_along rideId <$> Db.rideBooking (St.db s) /\
          Db.rideSegmentCapacity (St.db s') = Db.rideSegmentCapacity (St.db s)) s).
  { intros k Qk. wp_query. wp_query; [cbn in E0; congruence|]. assert (r = ride) as -> by (cbn in E0; congruence).
    wp_query. apply wp_run. intros s1 r1. rewrite updateMany_run. intros [= <- <-].
    apply wp_quiet; [apply Qk|]. intros s' x (B & R & C). cbn in *. auto. }
  wp_query. destruct ALLOW_RIDE_SIMULATION; cbv beta iota.
  - apply wp_ret. apply Go. tail_quiet.
  - wp_query. apply wp_run. intros ? ? [= <- <-].
    destruct (combineDepartureDateTimeUtc _ _) as [t|e]; [|auto]. wp_query; cbv beta iota.
    all: lazymatch goal with Hd : isRideStartTooEarly _ = _ |- _ => rewrite Hd end.
    + auto.
    + apply Go. tail_quiet.
Qed.
End starting.

(** ** A trip can be completed *)

Section trip.
Context `{Env} `{Codec} `{RideZone} `{Mode}.

Definition dropped (b : RideBooking.t) : RideBooking.t :=
  b <| RideBooking.status := BookingStatus.DROP_PENDING |> <| RideBooking.dropoffConfirmedAt := Some now |>.
Definition completed (b : RideBooking.t) : RideBooking.t :=
  b <| RideBooking.status := BookingStatus.COMPLETED |> <| RideBooking.riderDropoffConfirmedAt := Some now |>
    <| RideBooking.completedAt := Some now |>.

Lemma confirmDropoff_row (s : St.t) (id : string) (b : RideBooking.t) (ride : Ride.t) (input : RideEventInput.t) :
  Db.rideBooking (St.db s) !! id = Some b -> Db.ride (St.db s) !! RideBooking.rideId b = Some ride ->
  RideEventInput.force input = false -> RideBooking.status b = BookingStatus.ONBOARD ->
  wp (confirmDropoff (Ride.driverId ride) id input)
     (fun s' _ => same_core (put_booking id (dropped b) (St.db s)) (St.db s')) s.
Proof.
  intros E Er F T. unfold confirmDropoff.
  wp_query. apply (wp_driverBooking_row _ _ b ride); [exact E | exact Er | reflexivity|]. cbv beta iota.
  wp_query. apply wp_assertForceAllowed; [exact F|].
  wp_query. apply wp_assertOrForce; [exact F | |intros _].
  { intros C. exfalso. apply negb_true_iff, bool_decide_eq_false in C. apply C. rewrite T. solve_in. }
  wp_query. apply wp_run. intros ? ? [= <- <-]. cbv beta iota.
  apply (wp_update_then _ _ _ b); [exact E | tail_quiet | intros s' x C; exact C].
Qed.

Lemma riderConfirmDropoff_row (s : St.t) (id : string) (b : RideBooking.t) (ride : Ride.t) (input : RideEventInput.t) :
  Db.rideBooking (St.db s) !! id = Some b -> Db.ride (St.db s) !! RideBooking.rideId b = Some ride ->
  RideEventInput.force input = false -> RideBooking.status b = BookingStatus.DROP_PENDING ->
  wp (riderConfirmDropoff (RideBooking.passengerId b) id input)
     (fun s' _ => same_core (put_booking id (completed b) (St.db s)) (St.db s')) s.
Proof.
  intros E Er F T. unfold riderConfirmDropoff.
  wp_query. apply (wp_riderBooking_row _ _ b ride); [exact E | exact Er | reflexivity|]. cbv beta iota.
  wp_query. apply wp_assertForceAllowed; [exact F|].
  wp_query. apply wp_assertOrForce; [exact F | |intros _].
  { intros C. exfalso. apply bool_decide_eq_true in C. exact (C T). }
  apply (wp_update_then _ _ _ b); [exact E | tail_quiet | intros s' x C; exact C].
Qed.

(** A step, its effect on the store given by a rule for the handler. *)
Lemma step_wp {A} (r : Request) (m : H A) (s : St.t) (P : Db.t -> Prop) :
  (forall n, uuid n <> EmptyString) -> ordinary r = true -> run (fun _ _ _ => None) r = (m;; mret tt) ->
  wp m (fun s' _ => P (St.db s')) s -> exists s', step s s' /\ P (St.db s').
Proof.
  intros U F R W. exists (run (fun _ _ _ => None) r s).1. split; [exact (step_run _ _ _ _ r s U (fun _ => F))|].
  rewrite R, bind_run. unfold wp in W. destruct (m s) as [s' [a|e]]; exact W.
Qed.

(** The four steps of a trip, as steps of the system. *)
Section steps.
Variable U : forall n, uuid n <> EmptyString.
Variable input : RideEventInput.t.
Variable F : RideEventInput.force input = false.

(** What a step leaves of a booking and its ride. *)
Definition on_ride (id : string) (b : RideBooking.t) (ride : Ride.t) (d : Db.t) : Prop :=
  Db.rideBooking d !! id = Some b /\ Db.ride d !! RideBooking.rideId b = Some ride.

Lemma on_ride_put id b b' ride d d' : on_ride id b ride d -> RideBooking.rideId b' = RideBooking.rideId b ->
  same_core (put_booking id b' d) d' -> on_ride id b' ride d'.
Proof.
  intros [_ Er] S (Eb & Ed & _). unfold on_ride. rewrite Eb, Ed, S. split; [apply lookup_insert_eq | exact Er].
Qed.

Lemma step_row {A} (r : Request) (m : H A) s id b b' ride :
  ordinary r = true -> run (fun _ _ _ => None) r = (m;; mret tt) -> on_ride id b ride (St.db s) ->
  RideBooking.rideId b' = RideBooking.rideId b ->
  wp m (fun s' _ => same_core (put_booking id b' (St.db s)) (St.db s')) s ->
  exists s', step s s' /\ on_ride id b' ride (St.db s').
Proof.
  intros Un R O S W. destruct (step_wp r m s (same_core (put_booking id b' (St.db s))) U Un R W) as (s' & St & C).
  exists s'. split; [exact St | exact (on_ride_put id b b' ride _ _ O S C)].
Qed.

Definition waiting (b : RideBooking.t) : RideBooking.t := b <| RideBooking.status := BookingStatus.WAITING_FOR_PICKUP |>.

Lemma start_step s id b ride t : on_ride id b ride (St.db s) -> RideBooking.status b = BookingStatus.CONFIRMED ->
  startable ride = true ->
  combineDepartureDateTimeUtc (Ride.departureDate ride) (Ride.departureTime ride) = Ok t ->
  isRideStartTooEarly t = false ->
  exists s', step s s' /\ on_ride id (waiting b) (started ride) (St.db s').
Proof.
  intros [E Er] T St Ct Te. set (rid := RideBooking.rideId b) in *.
  apply (step_wp (StartRide (Ride.driverId ride) rid input) (startRide (Ride.driverId ride) rid input));
    [exact U | reflexivity | reflexivity|].
  apply (wp_mono _ _ _ _ (startRide_exact s rid ride input Er)). intros s' r. rewrite St, Ct, Te. cbn [negb].
  intros K. assert (K' : Db.ride (St.db s') = <[rid := started ride]> (Db.ride (St.db s)) /\
    Db.rideBooking (St.db s') = taken_along rid <$> Db.rideBooking (St.db s)) by (destruct ALLOW_RIDE_SIMULATION; tauto).
  destruct K' as [Kr Kb]. split; [|rewrite Kr; apply lookup_insert_eq].
  rewrite Kb, lookup_fmap, E. cbn. unfold taken_along.
  rewrite !bool_decide_eq_true_2 by (exact T || reflexivity). reflexivity.
Qed.

Lemma board_step s id b ride code : on_ride id b ride (St.db s) ->
  RideBooking.status b = BookingStatus.WAITING_FOR_PICKUP ->
  codeRight (Some code) b = true -> codeExpired b = false -> RideBooking.otpAttemptCount b < MAX_OTP_ATTEMPTS ->
  exists s', step s s' /\ on_ride id (boarded b) ride (St.db s').
Proof.
  intros O T R X A. pose proof O as [E Er].
  apply (step_row (VerifyPickup (Ride.driverId ride) id (Some code) input)
           (verifyPickupAndBoard (Ride.driverId ride) id (Some code) input) s id b (boarded b));
    [cbn; rewrite F; reflexivity | reflexivity | exact O | reflexivity|].
  apply (wp_mono _ _ _ _ (verifyPickup_exact s id b ride (Some code) input E Er F)). intros s' r.
  assert (Hn : truthy (RideBooking.pickupOtpHash b) <> None)
    by (unfold codeRight in R; intros N; rewrite N in R; discriminate).
  assert (Hs : has_status [BookingStatus.DRIVER_ARRIVED; BookingStatus.WAITING_FOR_PICKUP] b = true)
    by (apply bool_decide_eq_true; rewrite T; solve_in).
  unfold boarding_of. rewrite Hs, (bool_decide_eq_false_2 (truthy _ = None)) by exact Hn. cbn [negb].
  rewrite X, R, (proj2 (Z.leb_gt MAX_OTP_ATTEMPTS (RideBooking.otpAttemptCount b)) A). exact Datatypes.id.
Qed.

Lemma drop_step s id b ride : on_ride id b ride (St.db s) -> RideBooking.status b = BookingStatus.ONBOARD ->
  exists s', step s s' /\ on_ride id (dropped b) ride (St.db s').
Proof.
  intros O T.
  apply (step_row (ConfirmDropoff (Ride.driverId ride) id input) (confirmDropoff (Ride.driverId ride) id input) s id b);
    [cbn; rewrite F; reflexivity | reflexivity | exact O | reflexivity|].
  exact (confirmDropoff_row s id b ride input (proj1 O) (proj2 O) F T).
Qed.

Lemma complete_step s id b ride : on_ride id b ride (St.db s) -> RideBooking.status b = BookingStatus.DROP_PENDING ->
  exists s', step s s' /\ on_ride id (completed b) ride (St.db s').
Proof.
  intros O T. set (rider := RideBooking.passengerId b).
  apply (step_row (RiderConfirmDropoff rider id input) (riderConfirmDropoff rider id input) s id b);
    [cbn; rewrite F; reflexivity | reflexivity | exact O | reflexivity|].
  exact (riderConfirmDropoff_row s id b ride input (proj1 O) (proj2 O) F T).
Qed.
End steps.

(** C9.  A trip can be completed: from a confirmed booking of a ride that may be
    started now, with a code that is live and may still be tried, there is a run
    without overrides (start, boarding with the code, drop-off, confirmation of the
    rider) that completes the booking, whatever calls to the outside fail. *)
Theorem trip_can_complete (s : St.t) (id code : string) (b : RideBooking.t) (ride : Ride.t) (t : Z)
    (input : RideEventInput.t) :
  (forall n, uuid n <> EmptyString) ->
  Db.rideBooking (St.db s) !! id = Some b -> RideBooking.status b = BookingStatus.CONFIRMED ->
  Db.ride (St.db s) !! RideBooking.rideId b = Some ride -> startable ride = true ->
  combineDepartureDateTimeUtc (Ride.departureDate ride) (Ride.departureTime ride) = Ok t ->
  isRideStartTooEarly t = false ->
  codeRight (Some code) b = true -> codeExpired b = false -> RideBooking.otpAttemptCount b < MAX_OTP_ATTEMPTS ->
  RideEventInput.force input = false ->
  exists s', rtc step s s' /\
    row id (fun b' => RideBooking.status b' = BookingStatus.COMPLETED /\ RideBooking.completedAt b' = Some now)
      (St.db s').
Proof.
  intros U E T Er St Ct Te R X A F.
  destruct (start_step U input s id b ride t (conj E Er) T St Ct Te) as (s1 & S1 & O1).
  destruct (board_step U input F s1 id (waiting b) (started ride) code O1 eq_refl R X A) as (s2 & S2 & O2).
  destruct (drop_step U input F s2 id _ _ O2 eq_refl) as (s3 & S3 & O3).
  destruct (complete_step U input F s3 id _ _ O3 eq_refl) as (s4 & S4 & O4).
  exists s4. split; [eapply rtc_l; [exact S1|]; eapply rtc_l; [exact S2|]; eapply rtc_l; [exact S3 | apply rtc_once, S4]|].
  eexists. split; [exact (proj1 O4) | split; reflexivity].
Qed.
End trip.

(** ** Actions queued offline *)

(** An event of the action [k] is stored. *)
Definition has_event (k : string) (d : Db.t) : Prop := is_Some (Db.rideEvent d !! k).

(** A table other than the events. *)
Class NotEvents {R} (t : Table R) : Prop := not_events : forall g d, Db.rideEvent (with_rows t g d) = Db.rideEvent d.

#[global] Instance events_user : NotEvents prisma.user.
Proof. split. Qed.
#[global] Instance events_ride : NotEvents prisma.ride.
Proof. split. Qed.
#[global] Instance events_booking : NotEvents prisma.rideBooking.
Proof. split. Qed.
#[global] Instance events_referral : NotEvents prisma.rewardReferral.
Proof. split. Qed.
#[global] Instance events_wallet : NotEvents prisma.rewardWalletEntry.
Proof. split. Qed.
#[global] Instance events_location : NotEvents prisma.locationUpdate.
Proof. split. Qed.
#[global] Instance events_link : NotEvents prisma.trackingLink.
Proof. split. Qed.
#[global] Instance events_dispute : NotEvents prisma.dispute.
Proof. split. Qed.
#[global] Instance events_issue : NotEvents prisma.reconciliationIssue.
Proof. split. Qed.

Section events.
Context `{Env} `{Mode}.
Variable k : string.

Definition keeps_event {A} (m : H A) : Prop := preserves (on_db (has_event k)) m.

Lemma event_update {R} (t : Table R) `{!NotEvents t} id f : keeps_event (update t id f).
Proof. apply preserves_update. intros d r. unfold has_event. rewrite not_events. auto. Qed.

Lemma event_create {R} (t : Table R) `{!NotEvents t} id r : keeps_event (create t id r).
Proof. apply preserves_create. intros d. unfold has_event. rewrite not_events. auto. Qed.

Lemma event_updateMany {R} (t : Table R) `{!NotEvents t} p f : keeps_event (updateMany t p f).
Proof. intros s E. rewrite updateMany_run. unfold on_db, has_event. cbn [fst]. cbn. rewrite not_events. exact E. Qed.

Lemma event_createEvent id r : keeps_event (create prisma.rideEvent id r).
Proof. apply preserves_create. intros d E _. apply lookup_insert_is_Some'. right. exact E. Qed.
End events.

Ltac event_step :=
  lazymatch goal with
  | |- preserves _ (create prisma.rideEvent _ _) => apply event_createEvent
  | |- preserves _ (update _ _ _) => apply event_update; exact _
  | |- preserves _ (create _ _ _) => apply event_create; exact _
  | |- preserves _ (updateMany _ _ _) => apply event_updateMany; exact _
  | |- preserves _ (transaction _) => apply preserves_transaction
  | |- preserves _ (attempt _) => apply preserves_attempt
  | |- preserves _ (check _) => apply preserves_check
  | |- _ => preserve_step
  end.
Ltac event_loop := unfold keeps_event; repeat event_step.

Section keeping.
Context `{Env} `{Mode}.
Variable k : string.

Lemma event_award a b c d e f g h i : keeps_event k (awardCampaignReward a b c d e f g h i).
Proof. unfold awardCampaignReward, firstActiveCampaign, grantWalletEntry, loadLatestRewardEntry. event_loop. Qed.

Lemma event_referrer a b c d e f g h i : keeps_event k (rewardReferrer a b c d e f g h i).
Proof.
  unfold rewardReferrer, upsertReferral. unfold keeps_event. repeat first [apply event_award | event_step].
Qed.

Lemma event_awardRide a : keeps_event k (awardRideCompletionRewards a).
Proof.
  unfold awardRideCompletionRewards, maybeSendRewardNotification, createNotification, keeps_event.
  repeat first [apply event_award | apply event_referrer | event_step].
Qed.

Lemma event_recordEvent a b c d e f g h i : keeps_event k (recordEvent a b c d e f g h i).
Proof. unfold recordEvent. event_loop. Qed.

Lemma event_forced a b c d e f : keeps_event k (handleForcedAction a b c d e f).
Proof. unfold handleForcedAction, createDispute, rideOf, createNotification. event_loop. Qed.

Lemma event_announce a b c : keeps_event k (announceStart a b c).
Proof. unfold announceStart, createTrackingLink, emitBooking, createNotification. event_loop. Qed.

Lemma event_report a b c : keeps_event k (reportLocation a b c).
Proof. unfold reportLocation, emitRide. event_loop. Qed.

Lemma event_verifyCode a b c d e f g i : keeps_event k (verifyCode a b c d e f g i).
Proof. unfold verifyCode, assertOrForce. event_loop. Qed.
End keeping.

Ltac keep_event :=
  unfold keeps_event, emitRide, emitBooking, createNotification, assertOrForce, assertForceAllowedOnRide, waypointsOf,
    driverBooking, rideOf, assertRideTransition;
  repeat first [ apply event_awardRide | apply event_recordEvent | apply event_forced | apply event_announce
               | apply event_report | apply event_verifyCode | event_step ].

Section marking.
Context `{Env} `{Mode}.

(** When [m] returns, the event of [k] is stored. *)
Definition marks {A} (k : string) (m : H A) : Prop :=
  forall s, wp m (fun s' r => match r with Ok _ => has_event k (St.db s') | Err _ => True end) s.

Lemma marks_first {A B} k (m : H A) (f : A -> H B) : marks k m -> (forall a, keeps_event k (f a)) -> marks k (m ≫= f).
Proof.
  intros Mk K s. apply wp_bind, (wp_mono _ _ _ _ (Mk s)). intros s' [a|e]; [|trivial]. intros E.
  apply wp_run. intros s2 r R. pose proof (K a s' E) as K'. rewrite R in K'. destruct r; [exact K' | exact I].
Qed.

Lemma marks_later {A B} k (m : H A) (f : A -> H B) : (forall a, marks k (f a)) -> marks k (m ≫= f).
Proof. intros Mk s. apply wp_bind, wp_run. intros s' [a|e] _; [apply Mk | exact I]. Qed.

Lemma marks_throw {A} k e : marks k (throw (A:=A) e).
Proof. intros s. exact I. Qed.

Lemma marks_recordEvent rideId bookingId ty actor actorId input md v fo :
  marks (RideEventInput.actionId input) (recordEvent rideId bookingId ty actor actorId input md v fo).
Proof.
  intros s. unfold recordEvent. wp_query. wp_query. destruct o as [e|].
  - apply wp_ret. cbn in E. unfold has_event. rewrite E. eauto.
  - wp_query. apply wp_run. intros ? ? [= <- <-]. wp_query; [exact I|]. apply lookup_insert_is_Some'. auto.
Qed.

Lemma marks_createEvent k e : marks k (create prisma.rideEvent k e).
Proof. intros s. wp_query; [exact I|]. apply lookup_insert_is_Some'. auto. Qed.
End marking.

(** The handler up to the write of its event, then what keeps it. *)
Ltac solve_marks :=
  repeat lazymatch goal with
  | |- marks _ (recordEvent _ _ _ _ _ _ _ _ _ ≫= _) => apply marks_first; [apply marks_recordEvent | intros; keep_event]
  | |- marks _ (create prisma.rideEvent _ _ ≫= _) => apply marks_first; [apply marks_createEvent | intros; keep_event]
  | |- marks _ (throw _) => apply marks_throw
  | |- marks _ (match ?x with _ => _ end) => destruct x
  | |- marks _ (_ ≫= _) => apply marks_later; intros ?
  end.

Section queue.
Context `{Env} `{Mode}.

Lemma marks_startRide a b input : marks (RideEventInput.actionId input) (startRide a b input).
Proof. unfold startRide. solve_marks. Qed.

Lemma marks_finishRide a b input : marks (RideEventInput.actionId input) (finishRide a b input).
Proof. unfold finishRide. solve_marks. Qed.

Lemma marks_driverArrived a b input : marks (RideEventInput.actionId input) (driverArrived a b input).
Proof. unfold driverArrived. solve_marks. Qed.

Lemma marks_verifyPickup a b otp input : marks (RideEventInput.actionId input) (verifyPickupAndBoard a b otp input).
Proof. unfold verifyPickupAndBoard. solve_marks. Qed.

Lemma marks_confirmDropoff a b input : marks (RideEventInput.actionId input) (confirmDropoff a b input).
Proof. unfold confirmDropoff. solve_marks. Qed.

(** The operation a manual action stands for stores its event, and keeps the others. *)
Lemma recovery_marks a ty action input m : recoveryOf a ty action input = Some m ->
  marks (RideEventInput.actionId input) m.
Proof.
  unfold recoveryOf. repeat case_match; intros [= <-]; (apply marks_first; [|intros; keep_event]);
    auto using marks_startRide, marks_finishRide, marks_driverArrived, marks_verifyPickup, marks_confirmDropoff.
Qed.

Lemma recovery_keeps k a ty action input m : recoveryOf a ty action input = Some m -> keeps_event k m.
Proof.
  unfold recoveryOf. repeat case_match; intros [= <-];
    unfold startRide, finishRide, driverArrived, verifyPickupAndBoard, confirmDropoff; keep_event.
Qed.

Lemma recover_keeps k a ty action input : keeps_event k (recover (recoveryOf a ty action input)).
Proof.
  unfold recover. destruct (recoveryOf a ty action input) as [m|] eqn:E; [|keep_event].
  unfold keeps_event. repeat first [apply (recovery_keeps k _ _ _ _ _ E) | event_step].
Qed.

Lemma recover_marks a ty action input s :
  wp (recover (recoveryOf a ty action input))
     (fun s' r => match r with Ok (true, _) => has_event (RideEventInput.actionId input) (St.db s') | _ => True end) s.
Proof.
  unfold recover. destruct (recoveryOf a ty action input) as [m|] eqn:E; [|apply wp_ret; exact I].
  wp_query. wp_query. apply (wp_mono _ _ _ _ (recovery_marks _ _ _ _ _ E s)). intros s' [u|e] K; repeat wp_query; auto.
Qed.

Lemma syncAction_keeps k a action : keeps_event k (syncAction a action).
Proof.
  unfold syncAction, recordRecovery, keeps_event. repeat first [apply recover_keeps | event_step].
Qed.

Lemma syncAction_marks a action : marks (RideEventInput.actionId (OfflineAction.input action)) (syncAction a action).
Proof.
  unfold syncAction. apply marks_later. intros ride. apply marks_later. intros booking.
  destruct ride as [ride|]; [|apply marks_throw]. apply marks_later. intros _. apply marks_later. intros actorType.
  destruct (negb _); [solve_marks|].
  intros s. apply wp_bind.
  match goal with |- wp (recover (recoveryOf ?a ?ty ?act ?inp)) _ _ =>
    apply (wp_mono _ _ _ _ (recover_marks a ty act inp s)) end.
  intros s1 [[[|] err]|e] K; cbv beta iota; [| |exact I].
  - apply (wp_mono _ (fun s' _ => has_event (RideEventInput.actionId (OfflineAction.input action)) (St.db s'))).
    + assert (P : keeps_event (RideEventInput.actionId (OfflineAction.input action))
                    (mret tt;; recordRecovery action a actorType
                       (default "Manual recovery requested"%string
                          (truthy (RideEventInput.overrideReason (OfflineAction.input action)))) err true))
        by (unfold recordRecovery; keep_event).
      exact (P s1 K).
    + intros s2 [|] K2; [exact K2 | exact I].
  - match goal with |- wp ?m _ _ => assert (Mk : marks (RideEventInput.actionId (OfflineAction.input action)) m) end.
    { apply marks_first; [solve_marks | intros; unfold recordRecovery; keep_event]. }
    apply Mk.
Qed.

Definition isProcessed (r : string * SyncStatus) : bool := match r.2 with processed => true | _ => false end.
Definition processedIds (results : list (string * SyncStatus)) : list string := map fst (List.filter isProcessed results).

(** Every action is answered, events stay, and what was carried out is new and leaves its event. *)
Lemma sync_spec a actions s :
  wp (syncOfflineActions a actions) (fun s' r => exists results, r = Ok results /\
    map fst results = map (fun x => RideEventInput.actionId (OfflineAction.input x)) actions /\
    NoDup (processedIds results) /\
    (forall k, has_event k (St.db s) -> has_event k (St.db s')) /\
    (forall k, k ∈ processedIds results -> ~ has_event k (St.db s) /\ has_event k (St.db s'))) s.
Proof.
  revert s. induction actions as [|action rest IH]; intros s; cbn [syncOfflineActions].
  { apply wp_ret. exists []. do 2 (split; [reflexivity|]). split; [constructor|]. split; [auto|]. intros k E. inversion E. }
  wp_query. wp_query. set (k0 := RideEventInput.actionId _) in *.
  assert (Tail : forall st s1, (forall k, has_event k (St.db s) -> has_event k (St.db s1)) ->
    (st = processed -> ~ has_event k0 (St.db s) /\ has_event k0 (St.db s1)) ->
    wp (results ← syncOfflineActions a rest; mret ((k0, st) :: results)) (fun s' r => exists results, r = Ok results /\
      map fst results = k0 :: map (fun x => RideEventInput.actionId (OfflineAction.input x)) rest /\
      NoDup (processedIds results) /\
      (forall k, has_event k (St.db s) -> has_event k (St.db s')) /\
      (forall k, k ∈ processedIds results -> ~ has_event k (St.db s) /\ has_event k (St.db s'))) s1).
  { intros st s1 K P. wp_query. apply (wp_mono _ _ _ _ (IH s1)). intros s2 r (results & -> & Eq & Nd & K2 & P2).
    apply wp_ret. exists ((k0, st) :: results). split; [reflexivity|]. split; [cbn; rewrite Eq; reflexivity|].
    assert (P2' : forall k, k ∈ processedIds results -> ~ has_event k (St.db s) /\ has_event k (St.db s2)).
    { intros k I2. destruct (P2 k I2) as [N Y]. split; [|exact Y]. intros E0. exact (N (K k E0)). }
    destruct st; cbn [processedIds List.filter isProcessed snd map]; [|auto..].
    destruct (P eq_refl) as [N0 Y0]. fold (processedIds results). split; [|split; [auto|]].
    - apply NoDup_cons. split; [|exact Nd]. intros I2. exact (proj1 (P2 k0 I2) Y0).
    - intros k. rewrite elem_of_cons. intros [->|I2]; [|auto]. split; [exact N0 | exact (K2 k0 Y0)]. }
  cbn in E. wp_query. destruct o as [e|]; [apply wp_ret, Tail; [auto | discriminate]|].
  wp_query. wp_query. apply wp_run. intros s1 r R.
  pose proof (fun k => syncAction_keeps k a action s) as K. pose proof (syncAction_marks a action s) as Mk.
  unfold wp in Mk. rewrite R in K, Mk. destruct r as [u|e]; wp_query; apply Tail; [exact K | | exact K | discriminate].
  intros _. split; [unfold has_event; rewrite E; intros [? ?]; discriminate | exact Mk].
Qed.
End queue.

(** Batches sent one after the other, again or not, each at its own time. *)
Definition Batch : Type := Env * string * list OfflineAction.t.

Definition actionIds (batch : Batch) : list string :=
  map (fun x => RideEventInput.actionId (OfflineAction.input x)) batch.2.

Fixpoint sync_all (batches : list Batch) (s : St.t) : list (string * SyncStatus) :=
  match batches with
  | [] => []
  | (env, actorId, actions) :: rest =>
      let '(s', r) := @syncOfflineActions env actorId actions s in
      ((match r with Ok results => results | Err _ => [] end) ++ sync_all rest s')%list
  end.

Lemma processedIds_app l l' : processedIds (l ++ l') = (processedIds l ++ processedIds l')%list.
Proof. unfold processedIds. rewrite List.filter_app, map_app. reflexivity. Qed.

Lemma sync_all_spec batches s :
  NoDup (processedIds (sync_all batches s)) /\
  (forall k, k ∈ processedIds (sync_all batches s) -> ~ has_event k (St.db s)).
Proof.
  revert s. induction batches as [|[[env a] l] rest IH]; intros s; cbn [sync_all].
  { split; [constructor | intros k I2; inversion I2]. }
  pose proof (@sync_spec env a l s) as (results & E & _ & Nd & K & P). destruct (@syncOfflineActions env a l s) as [s1 r].
  cbn in E, K, P. subst r. destruct (IH s1) as [Nd1 N1]. rewrite processedIds_app. split.
  - apply NoDup_app. split; [exact Nd|]. split; [|exact Nd1]. intros k I1 I2. exact (N1 k I2 (proj2 (P k I1))).
  - intros k [I1|I2]%elem_of_app; [exact (proj1 (P k I1))|]. intros E0. exact (N1 k I2 (K k E0)).
Qed.

(** C34.  A queued action is applied once: however often and in whatever batches the
    actions queued offline are sent, each is answered, and over all the answers no
    action is reported as processed twice; the second time it is a duplicate, or it
    failed before and is tried again. *)
Theorem queued_actions_apply_once (batches : list Batch) (s : St.t) :
  map fst (sync_all batches s) = concat (map actionIds batches) /\ NoDup (processedIds (sync_all batches s)).
Proof.
  split; [|apply sync_all_spec]. revert s. induction batches as [|[[env a] l] rest IH]; intros s; [reflexivity|].
  cbn [sync_all map concat]. pose proof (@sync_spec env a l s) as (results & E & Ids & _).
  destruct (@syncOfflineActions env a l s) as [s1 r]. cbn in E. subst r. rewrite map_app, Ids, IH. reflexivity.
Qed.

(** ** Witnesses *)

#[local] Existing Instance exactly.

Definition demo_plain : RideEventInput.t := {|
  RideEventInput.actionId := "a1"; RideEventInput.lat := None; RideEventInput.lng := None;
  RideEventInput.clientTimestamp := 900; RideEventInput.force := false; RideEventInput.overrideReason := None |}.
Definition demo_force : RideEventInput.t := {|
  RideEventInput.actionId := "a2"; RideEventInput.lat := None; RideEventInput.lng := None;
  RideEventInput.clientTimestamp := 900; RideEventInput.force := true;
  RideEventInput.overrideReason := Some "the rider is here"%string |}.

(** After the rider of [b1] cancelled, the ride starts. *)
Definition demo_started : St.t :=
  (@run demo_at demo_codec demo_zone (fun _ _ _ => None) (StartRide "d1" "r1" demo_plain) demo_run2).1.

Lemma demo_started_good : Good (St.db demo_started).
Proof.
  apply (steps_life demo_state demo_started demo_good). eapply rtc_r; [exact demo_steps|].
  apply step_run; [exact demo_uuid_nonempty | reflexivity].
Qed.

Lemma force_revives_cancelled_booking_witness :
  exists b, Db.rideBooking (St.db demo_started) !! "b1"%string = Some b /\
    RideBooking.status b = BookingStatus.CANCELLED /\ Good (St.db demo_started) /\
    ~ Good (St.db (@verifyPickupAndBoard demo_at "d1" "b1" None demo_force demo_started).1).
Proof.
  assert (R : exists b r, Db.rideBooking (St.db demo_started) !! "b1"%string = Some b /\
            RideBooking.status b = BookingStatus.CANCELLED /\
            Db.ride (St.db demo_started) !! RideBooking.rideId b = Some r /\ Ride.status r = RideStatus.IN_PROGRESS /\
            Ride.driverId r = "d1"%string) by (vm_compute; do 2 eexists; repeat split; reflexivity).
  destruct R as (b & r & E & T & Er & Tr & D). exists b. split; [exact E|]. split; [exact T|].
  split; [exact demo_started_good|].
  pose proof (@force_revives_cancelled_booking demo_at demo_started "b1" b r None demo_force demo_started_good E T Er Tr
                eq_refl) as W. rewrite D in W. exact (proj2 W).
Defined.

(** A rider who waits at the pickup, on a ride under way. *)
Definition demo_pickup : RideBooking.t :=
  demo_accepted <| RideBooking.status := BookingStatus.WAITING_FOR_PICKUP |>
    <| RideBooking.pickupOtpHash := Some "sha256:1234"%string |>
    <| RideBooking.pickupOtpExpiresAt := Some 2000 |>.
Definition demo_at_pickup : St.t :=
  St.Build_t (demo_db demo_pickup demo_unpaid 2 <| Db.ride ::= fmap (@started demo_at) |>) [] 0.

Lemma verifyPickup_exact_witness :
  same_core (put_booking "b1" (@boarded demo_at demo_pickup) (St.db demo_at_pickup))
    (St.db (@verifyPickupAndBoard demo_at "d1" "b1" (Some "1234"%string) demo_plain demo_at_pickup).1).
Proof.
  exact (@verifyPickup_exact demo_at demo_at_pickup "b1" demo_pickup (@started demo_at demo_ride <| Ride.availableSeats := 2 |>)
           (Some "1234"%string) demo_plain eq_refl eq_refl eq_refl).
Defined.

(** A wrong guess, then the right one. *)
Definition demo_guesses : list Guess :=
  [(demo_at, Some "1111"%string, demo_plain); (demo_at, Some "1234"%string, demo_plain)].

Lemma otp_guesses_are_bounded_witness : found_within 5 demo_pickup demo_guesses.
Proof.
  apply (otp_guesses_are_bounded demo_guesses demo_at_pickup "b1" demo_pickup
           (@started demo_at demo_ride <| Ride.availableSeats := 2 |>) eq_refl eq_refl eq_refl).
  - discriminate.
  - vm_compute. eexists. split; reflexivity.
Defined.

(** The driver never reported arriving: no wait. *)
Lemma markNoShow_exact_witness :
  RideBooking.waitTimerStartedAt demo_pickup = None /\
  same_core (put_booking "b1" (@missed demo_at demo_pickup) (St.db demo_at_pickup))
    (St.db (@markNoShow demo_at "d1" "b1" demo_plain demo_at_pickup).1).
Proof.
  split; [reflexivity|].
  exact (@markNoShow_exact demo_at demo_at_pickup "b1" demo_pickup (@started demo_at demo_ride <| Ride.availableSeats := 2 |>)
           demo_plain eq_refl eq_refl eq_refl).
Defined.

Definition demo_coded : RideBooking.t :=
  demo_accepted <| RideBooking.pickupOtpHash := Some "sha256:1234"%string |>
    <| RideBooking.pickupOtpExpiresAt := Some 2000 |>.
Definition demo_before : St.t := St.Build_t (demo_db demo_coded demo_unpaid 2) [] 0.

Lemma startRide_exact_witness :
  let s' := (@startRide demo_at "d1" "r1" demo_plain demo_before).1 in
  Db.ride (St.db s') = <["r1"%string := @started demo_at (demo_ride <| Ride.availableSeats := 2 |>)]> (Db.ride (St.db demo_before)) /\
  Db.rideBooking (St.db s') = taken_along "r1" <$> Db.rideBooking (St.db demo_before) /\
  Db.rideSegmentCapacity (St.db s') = Db.rideSegmentCapacity (St.db demo_before).
Proof.
  exact (@startRide_exact demo_at demo_before "r1" (demo_ride <| Ride.availableSeats := 2 |>) demo_plain eq_refl).
Defined.

Lemma trip_can_complete_witness :
  exists s', rtc step demo_before s' /\
    row "b1" (fun b' => RideBooking.status b' = BookingStatus.COMPLETED /\ RideBooking.completedAt b' = Some 1000)
      (St.db s').
Proof.
  assert (C : exists t, combineDepartureDateTimeUtc (Ride.departureDate demo_ride) (Ride.departureTime demo_ride) = Ok t)
    by (vm_compute; eexists; reflexivity).
  destruct C as [t Ct].
  apply (@trip_can_complete demo_at demo_codec demo_zone _ demo_before "b1" "1234" demo_coded (demo_ride <| Ride.availableSeats := 2 |>)
           t demo_plain); try reflexivity; try exact Ct. exact demo_uuid_nonempty.
Defined.
